(* ===== verification/_CoqProject ===== *)
-Q . S2P
Prelude.v
Hashing.v
Decimals.v
Doubles.v
FixedPoint.v
Depth.v
RiskTypes.v
ReservationBook.v
Reprice.v
RiskGuards.v
RiskPipeline.v
OrderDecision.v
RiskEngine.v
Bundles.v
CostCurve.v
SizeCandidates.v
OrderDecisionCache.v
SizeOptimizer.v
OrderDecisionEngine.v
ExecutionTypes.v
OrderFsm.v
FillTracker.v
ExecutionPlan.v
PaperAdapter.v
Gateway.v
QuoteTypes.v
PaperLedger.v
PaperTrading.v
SnapshotRing.v
OracleRules.v
OracleStates.v
OraclePartition.v
BundleGenerator.v
OrderedMap.v
EntityStore.v
ChainConfirm.v
ChainDecode.v
ChainState.v
MarketSnapshot.v
MarketShard.v
MarketView.v
SignalTypes.v
SignalPricing.v
SignalReader.v
BundleCodec.v
RuntimePlans.v
SignalIntent.v
SignalEngine.v
SignalScan.v
QuoteRisk.v
QuoteEngine.v
MarketMaking.v
MakerExecution.v
LiveAdapters.v
FastPath.v
FastKernel.v
FastPipeline.v
