(* ===== verification/Prelude.v ===== *)
(** * Polytope: a verified model of the trading engine

    The program is a pipeline over fixed-point integers: market data becomes
    order books, a signal finds bundles of assets that cost less than they are
    guaranteed to pay, an optimiser sizes an order, risk approves it against a
    policy and reserves its cost, execution turns it into child orders and
    settles the reservation, and a paper ledger keeps the books.  Beside it a
    strategy quotes both sides of a market under a risk check of its own, and a
    fast path decides simple bundles in one pass.  The development translates
    the decisions of these parts from the sources and proves what each promises
    to the next.

    ** How the files correspond to the sources

    Every definition that models code carries a comment [[path:first-last]] with
    the lines it translates; paths are relative to [src/].

    - Foundations: this file (machine integers, sums, lists, tactics),
      [Hashing] (FNV-1a mixers), [Decimals] (numbers printed in decimal),
      [Doubles] (binary64 values that are compared or rounded), [FixedPoint]
      ([engine/common/math]), [OrderedMap] (std::map as a sorted list).
    - Books: [Depth] ([engine/state/book], [engine/state/view]) has the levels,
      the cumulative arrays and the two ways to price a purchase; [EntityStore]
      ([engine/state/EntityStateStore.cpp], [StateHasher.cpp], [hash]) the live
      order books, their event handlers and their hashes.
    - Chain: [ChainDecode] has the decoding of exchange logs to fills,
      [ChainConfirm] the store of confirmed fills, the pending hints and their
      reconciliation ([engine/chain_confirm]), [ChainState] the confirmed volumes,
      the settlements and the quality of a book ([engine/state/chain], [quality]).
    - Market state: [MarketSnapshot] ([engine/state/snapshot]) publishes snapshots,
      [MarketShard] ([engine/state/shard], [core], [book/LOBWriter.cpp]) applies
      events to the writers and publishes, [MarketView]
      ([engine/state/MarketStateView.cpp], [core/MarketStateStore.cpp]) answers
      questions about an asset.
    - Oracle: [OracleRules] ([oracle/rules], [oracle/compiler]) has the rules
      between event variables and their compilation to constraints,
      [OracleStates] ([oracle/enumerate]) the feasible states and the worst-case
      oracles, [OraclePartition] ([oracle/compiler]) the constraint graph and its
      components, [Bundles] and [BundleGenerator] ([oracle/bundles],
      [oracle/payoff], the universe of [oracle/ingestion]) the candidate bundles.
    - Signal: [SignalTypes] and [SignalPricing] ([engine/signal/pricing],
      [edge]) price bundles and plans; [SignalReader] ([engine/signal/reader])
      gathers and checks the evidence; [BundleCodec] and [RuntimePlans]
      ([reader/OracleArtifactReader.cpp], [scan]) read binary bundles and index
      the plans made of them; [SignalIntent], [SignalEngine] and [SignalScan]
      ([core], [publish], [rank], [metrics]) build, rank and publish intents.
    - Sizing: [CostCurve], [SizeCandidates], [OrderDecisionCache],
      [SizeOptimizer] and [OrderDecisionEngine] ([engine/order_decision/math],
      [sizing], [limits], [core]) have the cost curves, the enumeration of
      candidate sizes, the caches, the optimiser and the engine that decides;
      [OrderDecision] ([engine/order_decision/public]) the decision it produces
      and the hashes that bind it.
    - Risk: [RiskTypes] (data), [ReservationBook] ([engine/risk/ledger]),
      [Reprice] ([engine/risk/reprice]), [RiskGuards] ([engine/risk/guards] and
      [validate]), [RiskPipeline] and [RiskEngine] ([engine/risk/core]).
    - Execution: [ExecutionTypes] (data), [OrderFsm] and [FillTracker]
      ([engine/execution/state]), [ExecutionPlan] ([plan]), [PaperAdapter]
      ([adapter], [cancel]), [Gateway] ([core/ExecutionGateway.cpp]);
      [MakerExecution] ([public/MakerExecutionTypes.cpp],
      [state/ActivePaperQuoteBook.cpp], [adapter/PaperMaker*]) rests and fills
      quotes on paper, [LiveAdapters] ([adapter/Live*], [adapter/Sandbox*]) sends
      orders and quotes to a venue.
    - Market making: [QuoteTypes], [QuoteEngine] and [MarketMaking]
      ([engine/strategy/market_making]) build quotes and keep them current,
      [QuoteRisk] ([engine/risk/quote]) approves them.
    - Fast path ([engine/decision_fastpath]): [FastPath] has the gate and the
      registry of specifications, [FastKernel] the kernel, the reference it is
      compared with and the comparison, [FastPipeline] what is done about an event.
    - Paper trading: [PaperLedger] ([engine/paper/ledger], [portfolio]),
      [PaperTrading] ([pnl], [core]), [SnapshotRing] ([read]).

    ** How they interact

    A handler of the source is a function from its state and input to its new
    state and output.  [RiskPipeline.evaluate_view] runs over the guards' memory
    and the reservation book; [RiskEngine] owns both and checks a sized decision
    before running the pipeline on it; [Gateway] is parametric in the adapter,
    through the class [IExecutionAdapter] and its laws, which [PaperAdapter]
    implements; repricing is parametric in the evidence through [BookView];
    reports flow from the gateway to [PaperLedger] through the event adapter.
    Market events reach the books through [MarketShard.shard_apply], which runs
    [EntityStore.store_apply] or [ChainState.chain_apply], judges the quality and
    publishes a snapshot for [MarketView] to read; logs of the chain are decoded
    by [ChainDecode] to the fills that [ChainConfirm] stores and matches with the
    trades the feed announced.
    A scan of [SignalEngine] reads that store through [SignalReader], prices the
    plans of [RuntimePlans] and publishes intents for risk.  [MarketMaking] emits
    quotes, [QuoteRisk.quote_evaluate] approves them, and [MakerExecution] or
    [LiveAdapters] carries them out; the venue of the latter is the class
    [LiveVenue], whose laws say that a request opens at most the one order it is
    for, which a successful answer names, and that a successful cancel closes its
    order; about a request that was answered with an error they say nothing more.
    The oracle works ahead of all this: rules become constraints, constraints
    become bundles with a guaranteed payout ([BundleGenerator]), and the sizing of
    an order takes its legs and its payout from such a bundle ([Bundles]).

    ** What the theorems show

    - Books and prices: a purchase is priced the same by prefix sums, by a cost
      curve and by walking the levels, and each is the exact greedy cost
      ([Depth.buy_vwap_prefix_linear], [CostCurve.leg_pricing_agrees],
      [Reprice.reprice_exact], [PaperAdapter.simulate_order_exact]).
    - Entity store: every entity is sound in every reachable store, its levels are
      those of the log of writes since the last snapshot, results report what
      changed and a closed entity is final ([EntityStore]).
    - Chain: a log decodes to the event it was written from, the fill store holds
      the last word about every fill, a hint settles at most once, and the volumes
      shown are those of the fills that count ([ChainDecode], [ChainConfirm],
      [ChainState]).
    - Market state: what readers see is the snapshot of the current state, and the
      best prices they are told are those of the live book ([MarketShard],
      [MarketView]).
    - Oracle: compilation reports exactly the defective rulebooks, the enumerated
      states are the worlds in which the rules hold, the oracles report the least
      profit over those worlds, components are the connected ones, and a
      generated bundle pays what it guarantees in every world ([OracleRules],
      [OracleStates], [OraclePartition], [BundleGenerator]).
    - Signal: every published opportunity passed settlement, evidence, cost and
      edge and carries the evidence it was priced on, an opportunity that passes
      is published, none is published twice within its time to live, and the
      evidence that is accepted shows the books as they are ([SignalScan],
      [SignalPricing], [SignalReader]).
    - Sizing: the enumeration of sizes ends and lists the breakpoints of the
      books in order, the optimiser returns the best admissible one, and what it
      decides passes the checks of risk ([SizeCandidates], [SizeOptimizer],
      [OrderDecisionEngine]).
    - Risk: an evaluation approves exactly the admissible inputs, its audit
      trace tells what was checked, no intent is approved twice, and an approval
      keeps the exposures before it and the revalidated cost within the policy's
      limit; what it reserves is the estimate, by whose excess the limit can be
      passed ([RiskGuards], [RiskPipeline], [RiskEngine]).  The reservation book is well formed in
      every reachable state and its ledgers refine the sums over the active
      reservations ([ReservationBook]).
    - Execution: for approved decisions and intents only valid plans reach the
      adapter (the direct submit passes on what it is given), a plan carries out its
      decision, fills add up, terminal statuses are kept, and a reservation is
      consumed or released by what was filled ([ExecutionPlan], [OrderFsm],
      [FillTracker], [PaperAdapter], [Gateway]).  Quotes fill what the rules
      allow and take the position no further than the inventory limit, where it was
      or the target of the quote; of the orders open at a live venue at most one
      per failed submission is not tracked ([MakerExecution], [LiveAdapters]).
    - Market making: a quote is approved exactly when the policy's requirements
      hold, every quote the engine builds is sound, and the intents it emits can
      be carried out with one resting quote per asset ([QuoteRisk],
      [QuoteEngine], [MarketMaking]).
    - Fast path: what the kernel decides without falling back has the numbers of
      the reference, is exact about costs and edges and passes the checks of
      risk; the registry finds every specification by its bundle and by each of
      its assets ([FastKernel], [FastPath]).  What leaves the pipeline passed the checks
      of risk and is a valid plan, and mismatches with the generic engine switch the
      pipeline off ([FastPipeline]).
    - Paper trading: the books balance after any fills, fills count once, the
      reported equity reconciles, and a reader of the dashboard ring sees only
      frames that were published ([PaperLedger], [PaperTrading], [SnapshotRing]).

    ** Bounds and fuel

    A double is a bit pattern where it is only copied or hashed, and IEEE
    binary64 or x87 arithmetic ([Doubles], the long doubles of [MarketMaking])
    where it is compared or rounded.  Integers are [Z] with the wrap-around of their width written out ([wrap_i64],
    [+i], [-i], [*i], [wrap_u64]); checked operations return [None] where the
    code reports an overflow.  Loops over containers are structural.  The one
    loop that runs on fuel is the cursor of the size enumeration: one step per
    price level of the legs is enough, and [cursor_fuel], 16 legs of 64 levels
    and one, covers every input that can be prepared
    ([SizeOptimizer.prepared_fuel]); it does not end when the smallest size is
    not positive ([SizeCandidates.enumerate_diverges]).

    ** What is not modelled

    Latency histograms and stage timings; sinks and publishers (I/O); feeds,
    JSON decoding and HTTP clients, and the signing and network transport of
    live orders; the JSON files of artifacts and rules and the language-model
    client; performance metrics and regimes, and the option and external models
    of a fair value, which compute in floating point; and the
    programs around the engine (tools, dashboards, scripts). *)

From stdpp Require Export base strings list gmap fin_maps sorting.
From Stdlib Require Export ZArith Lia.
From coqutil Require Export Datatypes.RecordSetters.

Export TriangleBracketNotations.
#[global] Open Scope Z_scope.
#[global] Set Default Goal Selector "!".
#[global] Set Warnings "-clear-no-such-hyp".

#[global] Arguments Z.add : simpl never.
#[global] Arguments Z.sub : simpl never.
#[global] Arguments Z.mul : simpl never.
#[global] Arguments Z.quot : simpl never.
#[global] Arguments Z.modulo : simpl never.
#[global] Arguments Z.min : simpl never.
#[global] Arguments Z.max : simpl never.
#[global] Arguments Z.leb : simpl never.
#[global] Arguments Z.ltb : simpl never.
#[global] Arguments Z.eqb : simpl never.

(** ** Machine integers

    Signed and unsigned 64-bit values are integers of [Z].  An operation the
    source performs without a check is written with its wrap-around. *)

Declare Scope machine_scope.
Delimit Scope machine_scope with machine.

Abbreviation i64_max := 9223372036854775807 (only parsing).
Abbreviation i64_min := (-9223372036854775808) (only parsing).
Abbreviation u64_mod := 18446744073709551616 (only parsing).
Abbreviation u64_max := 18446744073709551615 (only parsing).
Abbreviation u32_mod := 4294967296 (only parsing).

(** The ranges of [std::int64_t] and [std::uint64_t]. *)
Definition in_i64 (z : Z) : Prop := i64_min <= z <= i64_max.
Definition in_u64 (z : Z) : Prop := 0 <= z < u64_mod.

#[export] Instance in_i64_dec z : Decision (in_i64 z).
Proof. unfold in_i64; apply _. Defined.
#[export] Instance in_u64_dec z : Decision (in_u64 z).
Proof. unfold in_u64; apply _. Defined.

(** Reduction of an exact value to the width of the type that holds it. *)
Definition wrap_u64 (z : Z) : Z := z mod u64_mod.
Definition wrap_u32 (z : Z) : Z := z mod u32_mod.
Definition wrap_i64 (z : Z) : Z := (z - i64_min) mod u64_mod + i64_min.

Notation "a +i b" := (wrap_i64 (a + b)) (at level 50, left associativity) : machine_scope.
Notation "a -i b" := (wrap_i64 (a - b)) (at level 50, left associativity) : machine_scope.
Notation "a *i b" := (wrap_i64 (a * b)) (at level 40, left associativity) : machine_scope.
#[global] Open Scope machine_scope.

(** Saturation of an exact value to the range of [std::int64_t]. *)
Definition clamp_i64 (z : Z) : Z := Z.max i64_min (Z.min i64_max z).

Lemma wrap_i64_id z : in_i64 z → wrap_i64 z = z.
Proof. unfold wrap_i64, in_i64; intros; rewrite Z.mod_small; lia. Qed.

Lemma wrap_u64_id z : in_u64 z → wrap_u64 z = z.
Proof. unfold wrap_u64, in_u64; intros; rewrite Z.mod_small; lia. Qed.

Lemma wrap_i64_range z : in_i64 (wrap_i64 z).
Proof.
  unfold wrap_i64, in_i64.
  pose proof (Z.mod_pos_bound (z - i64_min) u64_mod); lia.
Qed.

Lemma wrap_u64_range z : in_u64 (wrap_u64 z).
Proof. unfold wrap_u64, in_u64; apply Z.mod_pos_bound; lia. Qed.

(** The wrapped operations only depend on their operands modulo [2^64]. *)
Lemma wrap_i64_eq_mod a b : a mod u64_mod = b mod u64_mod → wrap_i64 a = wrap_i64 b.
Proof.
  unfold wrap_i64; intros H. f_equal.
  rewrite (Zminus_mod a), (Zminus_mod b), H. done.
Qed.

Lemma wrap_i64_mod z : wrap_i64 z mod u64_mod = z mod u64_mod.
Proof.
  unfold wrap_i64. rewrite Zplus_mod_idemp_l. f_equal; lia.
Qed.

Lemma wrap_i64_add_l a b : wrap_i64 (wrap_i64 a + b) = wrap_i64 (a + b).
Proof.
  apply wrap_i64_eq_mod. rewrite Zplus_mod, wrap_i64_mod, <- Zplus_mod. done.
Qed.

Lemma wrap_i64_sub_l a b : wrap_i64 (wrap_i64 a - b) = wrap_i64 (a - b).
Proof.
  apply wrap_i64_eq_mod. rewrite Zminus_mod, wrap_i64_mod, <- Zminus_mod. done.
Qed.

Lemma wrap_i64_wrap a : wrap_i64 (wrap_i64 a) = wrap_i64 a.
Proof. apply wrap_i64_id, wrap_i64_range. Qed.

(** [clamp_i64] is the identity in range and lands in range. *)
Lemma clamp_i64_id z : in_i64 z → clamp_i64 z = z.
Proof. unfold clamp_i64, in_i64; lia. Qed.

Lemma clamp_i64_range z : in_i64 (clamp_i64 z).
Proof. unfold clamp_i64, in_i64; lia. Qed.

(** ** Congruence modulo [2^64]

    Sums and products of machine integers agree with the exact ones up to a
    multiple of [2^64], whatever overflows; [rewrite] works under this relation. *)
Definition eqm (a b : Z) : Prop := a mod u64_mod = b mod u64_mod.
Infix "=m" := eqm (at level 70, no associativity) : machine_scope.

#[export] Instance eqm_equivalence : Equivalence eqm.
Proof. split; unfold eqm; repeat intro; congruence. Qed.
#[export] Instance eqm_add_proper : Proper (eqm ==> eqm ==> eqm) Z.add.
Proof. unfold eqm; intros a a' Ha b b' Hb. by rewrite Zplus_mod, Ha, Hb, <- Zplus_mod. Qed.
#[export] Instance eqm_sub_proper : Proper (eqm ==> eqm ==> eqm) Z.sub.
Proof. unfold eqm; intros a a' Ha b b' Hb. by rewrite Zminus_mod, Ha, Hb, <- Zminus_mod. Qed.
#[export] Instance eqm_mul_proper : Proper (eqm ==> eqm ==> eqm) Z.mul.
Proof. unfold eqm; intros a a' Ha b b' Hb. by rewrite Zmult_mod, Ha, Hb, <- Zmult_mod. Qed.

Lemma wrap_i64_eqm z : wrap_i64 z =m z.
Proof. apply wrap_i64_mod. Qed.

Lemma eqm_in_i64 a b : in_i64 a → in_i64 b → a =m b → a = b.
Proof. unfold eqm. intros Ha Hb H. by rewrite <- (wrap_i64_id a), <- (wrap_i64_id b), (wrap_i64_eq_mod a b). Qed.

Lemma eqm_eq a b : a = b → a =m b.
Proof. by intros ->. Qed.

(** Machine arithmetic is exact up to [=m]: drop the wraps, then ring. *)
Ltac eqm_ring := rewrite ?wrap_i64_eqm; repeat setoid_rewrite wrap_i64_eqm; apply eqm_eq; ring.

(** ** Tactics *)

(** Unfold ranges and saturation, then arithmetic. *)
Ltac ranges := unfold in_i64, in_u64, clamp_i64 in *.
Ltac rlia := ranges; lia.

(** Turn the boolean tests of the source into propositions. *)
Ltac breflect :=
  repeat match goal with
  | H : (_ && _)%bool = true |- _ => apply andb_prop in H; destruct H
  | H : (_ || _)%bool = false |- _ => apply orb_false_elim in H; destruct H
  | H : negb _ = true |- _ => apply negb_true_iff in H
  | H : negb _ = false |- _ => apply negb_false_iff in H
  | H : (_ <=? _) = true |- _ => apply Z.leb_le in H
  | H : (_ <=? _) = false |- _ => apply Z.leb_gt in H
  | H : (_ <? _) = true |- _ => apply Z.ltb_lt in H
  | H : (_ <? _) = false |- _ => apply Z.ltb_ge in H
  | H : (_ =? _) = true |- _ => apply Z.eqb_eq in H
  | H : (_ =? _) = false |- _ => apply Z.eqb_neq in H
  | H : String.eqb _ _ = true |- _ => apply String.eqb_eq in H
  | H : String.eqb _ _ = false |- _ => apply String.eqb_neq in H
  | H : Nat.eqb _ _ = true |- _ => apply Nat.eqb_eq in H
  | H : Nat.eqb _ _ = false |- _ => apply Nat.eqb_neq in H
  | H : Nat.ltb _ _ = true |- _ => apply Nat.ltb_lt in H
  | H : Nat.ltb _ _ = false |- _ => apply Nat.ltb_ge in H
  | H : Nat.leb _ _ = true |- _ => apply Nat.leb_le in H
  | H : Nat.leb _ _ = false |- _ => apply Nat.leb_gt in H
  | H : bool_decide _ = true |- _ => apply bool_decide_eq_true_1 in H
  | H : bool_decide _ = false |- _ => apply bool_decide_eq_false_1 in H
  end.

(** Case analysis on the next test of an if-chain of the source, discarding
    the branches whose outcome contradicts the context. *)
Ltac step_if :=
  match goal with
  | |- context [if ?b then _ else _] =>
      lazymatch type of b with
      | bool => let E := fresh "Hb" in destruct b eqn:E
      | _ => destruct b
      end
  end.
Ltac step_if_in H :=
  match type of H with
  | context [if ?b then _ else _] =>
      lazymatch type of b with
      | bool => let E := fresh "Hb" in destruct b eqn:E
      | _ => destruct b
      end
  end.

(** A failed early return: close every branch of [H] that contradicts it. *)
Ltac early H := repeat (step_if_in H; [discriminate H | ]).

Create HintDb engine.
Create Rewrite HintDb engine.
#[export] Hint Resolve wrap_i64_range wrap_u64_range clamp_i64_range : engine.
#[export] Hint Rewrite wrap_i64_add_l wrap_i64_sub_l wrap_i64_wrap : engine.

(** ** Lists *)

(** Exact sum of a measure over a list. *)
Fixpoint sum_list_Z {A} (f : A → Z) (l : list A) : Z :=
  match l with
  | [] => 0
  | x :: l' => f x + sum_list_Z f l'
  end.

Lemma sum_list_Z_app {A} (f : A → Z) l1 l2 :
  sum_list_Z f (l1 ++ l2) = sum_list_Z f l1 + sum_list_Z f l2.
Proof. induction l1 as [|x l1 IH]; cbn; [done | rewrite IH; lia]. Qed.

Lemma sum_list_Z_nonneg {A} (f : A → Z) l :
  (∀ x, x ∈ l → 0 <= f x) → 0 <= sum_list_Z f l.
Proof.
  induction l as [|x l IH]; cbn; intros H; [lia|].
  pose proof (H x ltac:(left)). assert (0 <= sum_list_Z f l); [|lia].
  apply IH; intros; apply H; by right.
Qed.

Lemma sum_list_Z_ext {A} (f g : A → Z) l :
  (∀ x, x ∈ l → f x = g x) → sum_list_Z f l = sum_list_Z g l.
Proof.
  induction l as [|x l IH]; cbn; intros H; [done|].
  rewrite (H x) by left. rewrite IH; [done|]. intros; apply H; by right.
Qed.

Lemma sum_list_Z_elem_le {A} (f : A → Z) l x :
  (∀ y, y ∈ l → 0 <= f y) → x ∈ l → f x <= sum_list_Z f l.
Proof.
  intros Hpos Hx. apply list_elem_of_split in Hx as (l1 & l2 & ->).
  rewrite sum_list_Z_app; cbn.
  assert (0 <= sum_list_Z f l1) by (apply sum_list_Z_nonneg; intros; apply Hpos; set_solver).
  assert (0 <= sum_list_Z f l2) by (apply sum_list_Z_nonneg; intros; apply Hpos; set_solver).
  lia.
Qed.

(** Replacing one element changes the sum by the difference of its measures. *)
Lemma sum_list_Z_insert {A} (f : A → Z) l i x y :
  l !! i = Some x → sum_list_Z f (<[i:=y]> l) = sum_list_Z f l - f x + f y.
Proof.
  revert i; induction l as [|z l IH]; intros [|i] H; simplify_eq/=; [lia|].
  rewrite (IH _ H). lia.
Qed.

(** A [std::array] of [n] elements: the given prefix, then default values. *)
Definition std_array {A} (n : nat) (default : A) (l : list A) : list A :=
  take n l ++ replicate (n - length l) default.

Lemma elem_of_concat {A} (Ps : list (list A)) x : x ∈ concat Ps ↔ ∃ P, P ∈ Ps ∧ x ∈ P.
Proof. induction Ps as [|P Ps IH]; cbn; [set_solver|]. rewrite elem_of_app, IH. set_solver. Qed.

Lemma length_std_array {A} n (d : A) l : length (std_array n d l) = n.
Proof. unfold std_array. rewrite length_app, length_take, length_replicate. lia. Qed.

(** A filter that keeps everything. *)
Lemma list_filter_all {A} (P : A → Prop) `{∀ x, Decision (P x)} (l : list A) :
  Forall P l → filter P l = l.
Proof.
  induction 1 as [|x l Hx Hl IH]; [done|]. by rewrite filter_cons_True, IH.
Qed.

(** An invariant of a step relation holds in every reachable state. *)
Lemma rtc_invariant {A} (R : relation A) (P : A → Prop) x y :
  (∀ x y, R x y → P x → P y) → rtc R x y → P x → P y.
Proof. intros Hstep. induction 1; eauto. Qed.

(** The boolean quantifiers of the source's loops over an array prefix. *)
Lemma existsb_false_elem {A} (f : A → bool) (l : list A) :
  existsb f l = false ↔ ∀ x, x ∈ l → f x = false.
Proof.
  induction l as [|a l IH]; cbn; [set_solver|].
  rewrite orb_false_iff, IH. set_solver.
Qed.

Lemma forallb_true_elem {A} (f : A → bool) (l : list A) :
  forallb f l = true ↔ ∀ x, x ∈ l → f x = true.
Proof.
  induction l as [|a l IH]; cbn; [set_solver|].
  rewrite andb_true_iff, IH. set_solver.
Qed.

Lemma forallb_imap_pair {A} (f : nat * A → bool) (l : list A) :
  forallb f (imap pair l) = true ↔ ∀ i x, l !! i = Some x → f (i, x) = true.
Proof.
  rewrite forallb_true_elem. split.
  - intros H i x Hx. apply H, elem_of_lookup_imap. eauto.
  - intros H [i x] (j & y & [= -> ->] & Hy)%elem_of_lookup_imap. auto.
Qed.

(** ** Sums over maps *)

(** Exact sum of a measure over the values of a map. *)
Definition map_sum `{Countable K} {A} (f : A → Z) (m : gmap K A) : Z := sum_list_Z (f ∘ snd) (map_to_list m).

Lemma sum_list_Z_perm {A} (f : A → Z) l1 l2 : l1 ≡ₚ l2 → sum_list_Z f l1 = sum_list_Z f l2.
Proof. induction 1; cbn; lia. Qed.

Lemma map_sum_empty `{Countable K} {A} (f : A → Z) : map_sum f (∅ : gmap K A) = 0.
Proof. unfold map_sum. by rewrite map_to_list_empty. Qed.

Lemma map_sum_insert `{Countable K} {A} (f : A → Z) (m : gmap K A) k x :
  map_sum f (<[k:=x]> m) = map_sum f m - default 0 (f <$> m !! k) + f x.
Proof.
  unfold map_sum. destruct (m !! k) as [y|] eqn:E; cbn [fmap option_fmap option_map default].
  - rewrite <- (insert_delete_eq m k x). rewrite <- (insert_delete_id m k y E) at 2.
    rewrite !(sum_list_Z_perm _ _ _ (map_to_list_insert _ _ _ (lookup_delete_eq _ _))). cbn. unfold from_option, id. lia.
  - rewrite (sum_list_Z_perm _ _ _ (map_to_list_insert _ _ _ E)). cbn. unfold from_option, id. lia.
Qed.

Lemma map_sum_nonneg `{Countable K} {A} (f : A → Z) (m : gmap K A) :
  (∀ k x, m !! k = Some x → 0 <= f x) → 0 <= map_sum f m.
Proof. intros Hf. apply sum_list_Z_nonneg. intros [k x] Hx%elem_of_map_to_list. by apply (Hf k). Qed.

Lemma map_sum_elem_le `{Countable K} {A} (f : A → Z) (m : gmap K A) k x :
  (∀ k x, m !! k = Some x → 0 <= f x) → m !! k = Some x → f x <= map_sum f m.
Proof.
  intros Hf Hx. apply (sum_list_Z_elem_le (f ∘ snd) _ (k, x)); [|by apply elem_of_map_to_list].
  intros [k' x'] Hx'%elem_of_map_to_list. by apply (Hf k').
Qed.

(** A running machine sum is the exact sum, wrapped. *)
Lemma foldl_add_eqm {A} (f : A → Z) l acc : foldl (λ s x, s +i f x) acc l =m acc + sum_list_Z f l.
Proof.
  revert acc; induction l as [|x l IH]; intros acc; cbn [foldl sum_list_Z]; [by rewrite Z.add_0_r|].
  rewrite IH, wrap_i64_eqm. apply eqm_eq. lia.
Qed.
