(* ===== verification/Hashing.v ===== *)
(** * Hashing: the FNV-1a mixers of the engine

    Every component that binds evidence (policies, decisions, plans, fills,
    reservations) folds its fields into a 64-bit FNV-1a hash.  The mixers are
    copied from one source file to the next; this file models them once.  A
    hash is an integer of [in_u64]; multiplication wraps at [2^64]. *)

From S2P Require Import Prelude.
From Stdlib Require Import Ascii.

Definition fnv_offset : Z := 14695981039346656037.
Definition fnv_offset_paper : Z := 1469598103934665603.
Definition fnv_prime : Z := 1099511628211.

(** [engine/risk/public/RiskPolicySnapshot.h:83-84] mix_u64: the loop body, [*hash ^= byte; *hash *= prime]. *)
Definition mix_byte (h b : Z) : Z := wrap_u64 (Z.lxor h b * fnv_prime).

Definition byte_shifts : list Z := [0; 8; 16; 24; 32; 40; 48; 56].

(** [engine/risk/public/RiskPolicySnapshot.h:81-86] mix_u64: eight bytes, least significant first. *)
Definition mix_u64 (h value : Z) : Z :=
  foldl (λ h shift, mix_byte h (Z.land (Z.shiftr value shift) 255)) h byte_shifts.

(** [engine/risk/public/RiskPolicySnapshot.h:88-90] mix_i64: the cast to [std::uint64_t] is the wrap-around. *)
Definition mix_i64 (h value : Z) : Z := mix_u64 h (wrap_u64 value).

(** [engine/risk/public/RiskPolicySnapshot.h:92-95] mix_bool. *)
Definition mix_bool (h : Z) (value : bool) : Z := mix_byte h (if value then 1 else 0).

(** [engine/risk/public/RiskPolicySnapshot.h:97-99] mix_u32. *)
Definition mix_u32 (h value : Z) : Z := mix_u64 h value.

(** [engine/execution/plan/ExecutionPlanner.cpp:26-31] mix_string. *)
Fixpoint mix_string (h : Z) (s : string) : Z :=
  match s with
  | EmptyString => h
  | String c s' => mix_string (mix_byte h (Z.of_nat (nat_of_ascii c))) s'
  end.

(** [engine/risk/ledger/ReservationBook.cpp:35-42] hash_string. *)
Definition hash_string (value : string) : Z := mix_string fnv_offset value.

(** [engine/risk/ledger/ReservationBook.cpp:44-49] compact_index. *)
Definition compact_index (value : string) : Z :=
  let hash := hash_string value in
  wrap_u32 (Z.lxor (Z.shiftr hash 32) (Z.land hash 4294967295)).

(** A hash of zero is reserved for "absent"; the sources replace it by one. *)
Definition nonzero_hash (h : Z) : Z := if h =? 0 then 1 else h.

(** ** Every mixer permutes the 64-bit hash states *)

Lemma mix_byte_range h b : in_u64 (mix_byte h b).
Proof. apply wrap_u64_range. Qed.

Lemma lxor_in_u64 a b : in_u64 a → in_u64 b → in_u64 (Z.lxor a b).
Proof.
  unfold in_u64; intros [Ha1 Ha2] [Hb1 Hb2]. split; [by apply Z.lxor_nonneg|].
  destruct (decide (Z.lxor a b = 0)) as [->|Hne]; [lia|].
  change u64_mod with (2 ^ 64). apply Z.log2_lt_pow2.
  { assert (0 <= Z.lxor a b) by (by apply Z.lxor_nonneg). lia. }
  pose proof (Z.log2_lxor a b Ha1 Hb1).
  assert (Z.log2 a < 64) by (destruct (decide (a = 0)) as [->|]; [cbn; lia|];
    apply Z.log2_lt_pow2; lia).
  assert (Z.log2 b < 64) by (destruct (decide (b = 0)) as [->|]; [cbn; lia|];
    apply Z.log2_lt_pow2; lia).
  lia.
Qed.

Definition fnv_prime_inv : Z := 14886173955864302971.

Lemma mul_prime_inj a b :
  in_u64 a → in_u64 b → wrap_u64 (a * fnv_prime) = wrap_u64 (b * fnv_prime) → a = b.
Proof.
  unfold wrap_u64; intros Ha Hb H.
  assert (Hinv : ∀ x, in_u64 x → (x * fnv_prime) mod u64_mod * fnv_prime_inv mod u64_mod = x).
  { intros x Hx. rewrite Zmult_mod_idemp_l, <- Z.mul_assoc.
    rewrite Zmult_mod. change (fnv_prime * fnv_prime_inv mod u64_mod) with 1.
    rewrite Z.mul_1_r, Zmod_mod. apply Z.mod_small, Hx. }
  rewrite <- (Hinv a Ha), <- (Hinv b Hb), H. done.
Qed.

Lemma mix_byte_inj h1 h2 b :
  in_u64 h1 → in_u64 h2 → in_u64 b → mix_byte h1 b = mix_byte h2 b → h1 = h2.
Proof.
  intros H1 H2 Hb H. apply mul_prime_inj in H; [|by apply lxor_in_u64..].
  apply (f_equal (λ x, Z.lxor x b)) in H.
  by rewrite !Z.lxor_assoc, Z.lxor_nilpotent, !Z.lxor_0_r in H.
Qed.

(** Two different bytes send the same state to different states. *)
Lemma mix_byte_byte_inj h b1 b2 :
  in_u64 h → in_u64 b1 → in_u64 b2 → mix_byte h b1 = mix_byte h b2 → b1 = b2.
Proof.
  intros Hh H1 H2 H. apply mul_prime_inj in H; [|by apply lxor_in_u64..].
  apply (f_equal (λ x, Z.lxor h x)) in H.
  by rewrite <- !Z.lxor_assoc, Z.lxor_nilpotent, !Z.lxor_0_l in H.
Qed.

Lemma land_255_in_u64 v : in_u64 (Z.land v 255).
Proof.
  change 255 with (Z.ones 8). rewrite Z.land_ones by lia.
  pose proof (Z.mod_pos_bound v (2 ^ 8)); rlia.
Qed.

Lemma mix_u64_range h v : in_u64 (mix_u64 h v).
Proof. apply mix_byte_range. Qed.

Lemma mix_u64_inj h1 h2 v : in_u64 h1 → in_u64 h2 → mix_u64 h1 v = mix_u64 h2 v → h1 = h2.
Proof.
  intros H1 H2. unfold mix_u64, byte_shifts; cbn [foldl]; intros H.
  do 7 (apply mix_byte_inj in H; [|apply mix_byte_range|apply mix_byte_range|apply land_255_in_u64]).
  by apply mix_byte_inj in H; [| | |apply land_255_in_u64].
Qed.

Lemma bool_in_u64 (b : bool) : in_u64 (if b then 1 else 0).
Proof. destruct b; unfold in_u64; lia. Qed.

Lemma mix_bool_inj h1 h2 b : in_u64 h1 → in_u64 h2 → mix_bool h1 b = mix_bool h2 b → h1 = h2.
Proof. intros ?? H. apply mix_byte_inj in H; auto using bool_in_u64. Qed.

Lemma mix_bool_bit h b1 b2 : in_u64 h → mix_bool h b1 = mix_bool h b2 → b1 = b2.
Proof.
  intros Hh H. apply mix_byte_byte_inj in H; [by destruct b1, b2|done|apply bool_in_u64..].
Qed.

Lemma mix_bool_range h b : in_u64 (mix_bool h b).
Proof. apply mix_byte_range. Qed.

Lemma nonzero_hash_nonzero h : nonzero_hash h ≠ 0.
Proof. unfold nonzero_hash. destruct (Z.eqb_spec h 0); lia. Qed.

#[export] Hint Resolve mix_u64_range mix_bool_range mix_byte_range : engine.
