(* ===== verification/Decimals.v ===== *)
(** * Decimals: [std::to_string] of an unsigned integer

    Ids and asset numbers become text through [std::to_string] and the decimal
    conversion of big integers; both are stdpp's [pretty] of a natural number. *)

From S2P Require Import Prelude.
From stdpp Require Export pretty.
#[local] Open Scope Z_scope.

Lemma pretty_Z_nonempty n : pretty (Z.to_N n) ≠ ""%string.
Proof.
  unfold pretty, pretty_N. case_decide as H; [done|].
  rewrite pretty_N_go_step by lia. intros Hemp.
  assert (Hlen : ∀ x acc, (String.length acc <= String.length (pretty_N_go x acc))%nat).
  { intros x; induction (N.lt_wf_0 x) as [x _ IH]; intros acc.
    destruct (decide (0 < x)%N); [|by replace x with 0%N by lia; rewrite pretty_N_go_0].
    rewrite pretty_N_go_step by done.
    etransitivity; [|apply IH; apply N.div_lt; lia]. cbn. lia. }
  match type of Hemp with pretty_N_go ?x ?acc = _ => pose proof (Hlen x acc) as Hl; rewrite Hemp in Hl end.
  cbn in Hl. lia.
Qed.

(** Only zero is written as the digit zero. *)
Lemma pretty_is_zero n : 0 <= n → pretty (Z.to_N n) = "0"%string ↔ n = 0.
Proof.
  intros Hn. split; [|by intros ->]. change "0"%string with (pretty 0%N). intros H%(inj pretty). lia.
Qed.
