(* ===== verification/Doubles.v ===== *)
(** * Doubles: the binary64 values the engine reads

    Book sizes and a few policy ratios are [double]s.  They are modelled by the
    Standard Library's [spec_float], the executable specification of IEEE 754
    binary floating point: a finite value is a sign, a mantissa and an exponent.
    [std::floor] and [std::ceil] are exact integers here, since every use in the
    modelled sources converts the result to [std::int64_t] at once. *)

From S2P Require Import Prelude.
From Stdlib Require Export SpecFloat.

Abbreviation double := spec_float.

Definition prec64 : Z := 53.
Definition emax64 : Z := 1024.

(** IEEE arithmetic at binary64 precision, rounding to nearest even. *)
Definition double_mul (x y : double) : double := SFmul prec64 emax64 x y.
Definition double_sub (x y : double) : double := SFsub prec64 emax64 x y.
Definition double_lt (x y : double) : bool := SFltb x y.

(** [std::isfinite]. *)
Definition isfinite (x : double) : bool :=
  match x with
  | S754_zero _ | S754_finite _ _ _ => true
  | S754_infinity _ | S754_nan => false
  end.

(** The comparison [x <= 0.0]; it is false on a NaN. *)
Definition le_zero (x : double) : bool :=
  match x with
  | S754_zero _ => true
  | S754_infinity s | S754_finite s _ _ => s
  | S754_nan => false
  end.

(** [std::floor] of a finite value, as an integer; [Z.shiftl] by a negative
    amount is the floor of the division by a power of two. *)
Definition floor_Z (x : double) : Z :=
  match x with
  | S754_finite s m e => Z.shiftl (if s then Z.neg m else Z.pos m) e
  | _ => 0
  end.

(** [std::ceil] of a finite value, as an integer. *)
Definition ceil_Z (x : double) : Z :=
  match x with
  | S754_finite s m e => - Z.shiftl (if s then Z.pos m else Z.neg m) e
  | _ => 0
  end.

(** The comparison [x >= k] with an integral right-hand side. *)
Definition ge_int (x : double) (k : Z) : bool :=
  match x with
  | S754_nan => false
  | S754_infinity s => negb s
  | _ => k <=? floor_Z x
  end.

(** [std::bit_cast<std::uint64_t>] of a double; every NaN is the quiet one. *)
Definition bits_of_double (x : double) : Z :=
  let sign (s : bool) := if s then 2 ^ 63 else 0 in
  match x with
  | S754_zero s => sign s
  | S754_infinity s => sign s + 2047 * 2 ^ 52
  | S754_nan => 2047 * 2 ^ 52 + 2 ^ 51
  | S754_finite s m e =>
      sign s + (if 2 ^ 52 <=? Z.pos m
                then (e + 1075) * 2 ^ 52 + (Z.pos m - 2 ^ 52)
                else Z.pos m)
  end.

(** An integer below [2^53] as a double. *)
Definition double_of_pos (n : positive) : double :=
  binary_round prec64 emax64 false n 0.

Definition d1_20 : double := S754_finite false 5404319552844595 (-52).
Definition d1e_6 : double := S754_finite false 4722366482869645 (-72).
Definition d1_0 : double := double_of_pos 1.
Definition d10000 : double := double_of_pos 10000.

Example bits_of_one : bits_of_double d1_0 = 4607182418800017408.
Proof. reflexivity. Qed.
Example bits_of_1_20 : bits_of_double d1_20 = 4608083138725491507.
Proof. reflexivity. Qed.

Lemma floor_Z_nonneg x : le_zero x = false → 0 <= floor_Z x.
Proof.
  destruct x as [s|s| |s m e]; cbn; try lia. intros ->.
  apply Z.shiftl_nonneg. lia.
Qed.

Lemma floor_Z_lt_pow63 x : isfinite x = true → ge_int x (2 ^ 63) = false → floor_Z x <= i64_max.
Proof. destruct x as [s|s| |s m e]; cbn [isfinite ge_int]; intros; breflect; try done; cbn in *; lia. Qed.
