(* ===== verification/FixedPoint.v ===== *)
(** * FixedPoint: the checked and saturating arithmetic of engine/common/math

    Ticks and lots are [std::int64_t]; the sources compute through [__int128]
    and test the range, which is exact integer arithmetic followed by a range
    test.  A [bool] result with an out-parameter is an [option]. *)

From S2P Require Import Prelude.

(** [engine/common/math/FixedPointMath.h:8-20] checked_add_i64. *)
Definition checked_add_i64 (lhs rhs : Z) : option Z :=
  let value := lhs + rhs in
  if (i64_max <? value) || (value <? i64_min) then None else Some value.

(** [engine/common/math/FixedPointMath.h:22-34] checked_sub_i64. *)
Definition checked_sub_i64 (lhs rhs : Z) : option Z :=
  let value := lhs - rhs in
  if (i64_max <? value) || (value <? i64_min) then None else Some value.

(** [engine/common/math/FixedPointMath.h:36-48] checked_mul_i64. *)
Definition checked_mul_i64 (lhs rhs : Z) : option Z :=
  let value := lhs * rhs in
  if (i64_max <? value) || (value <? i64_min) then None else Some value.

(** [engine/common/math/FixedPointMath.h:50-60] saturating_add_i64. *)
Definition saturating_add_i64 (lhs rhs : Z) : Z :=
  match checked_add_i64 lhs rhs with
  | Some out => out
  | None => if 0 <=? rhs then i64_max else i64_min
  end.

(** [engine/common/math/FixedPointMath.h:62-73] saturating_mul_i64. *)
Definition saturating_mul_i64 (lhs rhs : Z) : Z :=
  match checked_mul_i64 lhs rhs with
  | Some out => out
  | None =>
      let positive := ((0 <=? lhs) && (0 <=? rhs)) || ((lhs <? 0) && (rhs <? 0)) in
      if positive then i64_max else i64_min
  end.

(** [engine/common/math/FixedPointMath.h:75-89] ceil_div_positive; C++ division truncates ([Z.quot]). *)
Definition ceil_div_positive (numerator denominator : Z) : Z :=
  if denominator <=? 0 then 0
  else
    let value := Z.quot (numerator + denominator - 1) denominator in
    if i64_max <? value then i64_max else wrap_i64 value.

(** [engine/common/math/FixedPointMath.h:91-114] ratio_bps. *)
Definition ratio_bps (numerator denominator : Z) : Z :=
  if denominator =? 0 then
    if 0 <? numerator then i64_max
    else if numerator <? 0 then i64_min
    else 0
  else
    let value := Z.quot (numerator * 10000) denominator in
    if i64_max <? value then i64_max
    else if value <? i64_min then i64_min
    else value.

(** ** Bit masks *)

(** [engine/common/math/BitmaskMath.h:7-12] bitmask_has_conflict. *)
Definition bitmask_has_conflict (true_mask false_mask : Z) : bool :=
  negb (Z.land true_mask false_mask =? 0).

(** [engine/common/math/BitmaskMath.h:14-22] bitmask_satisfies_required. *)
Definition bitmask_satisfies_required
    (state_true_mask state_false_mask required_true_mask required_false_mask : Z) : bool :=
  (Z.land state_true_mask required_true_mask =? required_true_mask) &&
  (Z.land state_false_mask required_false_mask =? required_false_mask).

(** [engine/common/math/BitmaskMath.h:24-29] bitmask_without_invalid; [~] is the 64-bit complement. *)
Definition bitmask_without_invalid (mask invalid_mask : Z) : Z :=
  Z.land mask (Z.lxor u64_max invalid_mask).

(** ** Edges *)

(** [engine/common/math/EdgeMath.h:9-16] EdgeMathInput. *)
Record EdgeMathInput := mkEdgeMathInput {
  em_guaranteed_payout_tick : Z;
  em_total_cost_tick : Z;
  em_fee_tick : Z;
  em_latency_buffer_tick : Z;
  em_slippage_buffer_tick : Z;
  em_bundle_qty : Z
}.

(** [engine/common/math/EdgeMath.h:18-23] EdgeMathResult, and the partial values left behind on overflow. *)
Record EdgeMathResult := mkEdgeMathResult {
  er_ok : bool;
  er_unit_edge_tick : Z;
  er_total_edge_tick : Z;
  er_edge_bps : Z
}.

(** A chain of checked subtractions into one out-parameter: the value reached
    and whether every step succeeded; it stops at the first overflow. *)
Fixpoint checked_sub_chain (value : Z) (subtrahends : list Z) : Z * bool :=
  match subtrahends with
  | [] => (value, true)
  | s :: rest =>
      match checked_sub_i64 value s with
      | Some v => checked_sub_chain v rest
      | None => (value, false)
      end
  end.

(** [engine/common/math/EdgeMath.h:25-65] compute_edge. *)
Definition compute_edge (input : EdgeMathInput) : EdgeMathResult :=
  let '(unit_edge, ok) :=
    match checked_sub_i64 (em_guaranteed_payout_tick input) (em_total_cost_tick input) with
    | Some v =>
        checked_sub_chain v
          [em_fee_tick input; em_latency_buffer_tick input; em_slippage_buffer_tick input]
    | None => (0, false)
    end in
  if negb ok then mkEdgeMathResult false unit_edge 0 0
  else
    match checked_mul_i64 unit_edge (em_bundle_qty input) with
    | None => mkEdgeMathResult false unit_edge 0 0
    | Some total =>
        mkEdgeMathResult true unit_edge total (ratio_bps unit_edge (em_total_cost_tick input))
    end.

(** [engine/common/math/RiskMath.h:10-17] RiskEdgeMathInput. *)
Record RiskEdgeMathInput := mkRiskEdgeMathInput {
  rm_guaranteed_payout_per_bundle_tick : Z;
  rm_risk_bundle_qty : Z;
  rm_risk_total_cost_tick : Z;
  rm_fee_tick : Z;
  rm_slippage_buffer_tick : Z;
  rm_latency_buffer_tick : Z
}.

(** [engine/common/math/RiskMath.h:19-24] RiskEdgeMathResult. *)
Record RiskEdgeMathResult := mkRiskEdgeMathResult {
  rr_ok : bool;
  rr_post_risk_edge_tick : Z;
  rr_unit_edge_tick : Z;
  rr_edge_bps : Z
}.

(** [engine/common/math/RiskMath.h:26-67] compute_post_risk_edge. *)
Definition compute_post_risk_edge (input : RiskEdgeMathInput) : RiskEdgeMathResult :=
  if rm_risk_bundle_qty input <=? 0 then mkRiskEdgeMathResult false 0 0 0
  else
    let '(edge, ok) :=
      match checked_mul_i64 (rm_guaranteed_payout_per_bundle_tick input)
                            (rm_risk_bundle_qty input) with
      | Some v =>
          checked_sub_chain v
            [rm_risk_total_cost_tick input; rm_fee_tick input;
             rm_slippage_buffer_tick input; rm_latency_buffer_tick input]
      | None => (0, false)
      end in
    if negb ok then mkRiskEdgeMathResult false edge 0 0
    else
      mkRiskEdgeMathResult true edge
        (Z.quot edge (rm_risk_bundle_qty input))
        (ratio_bps edge (rm_risk_total_cost_tick input)).

(** ** Lemmas of the checked operations *)

Lemma range_test z :
  (i64_max <? z) || (z <? i64_min) = negb (bool_decide (in_i64 z)).
Proof.
  case_bool_decide as H; unfold in_i64 in H; cbn [negb].
  - apply orb_false_intro; [apply Z.ltb_ge | apply Z.ltb_ge]; lia.
  - apply orb_true_iff. rewrite !Z.ltb_lt. lia.
Qed.

Lemma checked_spec z :
  (if (i64_max <? z) || (z <? i64_min) then None else Some z) =
  if decide (in_i64 z) then Some z else None.
Proof. rewrite range_test. case_bool_decide; case_decide; done. Qed.

Lemma checked_add_i64_Some a b v :
  checked_add_i64 a b = Some v ↔ in_i64 (a + b) ∧ v = a + b.
Proof.
  unfold checked_add_i64; cbv zeta. rewrite checked_spec.
  case_decide; naive_solver.
Qed.

Lemma checked_add_i64_None a b : checked_add_i64 a b = None ↔ ¬ in_i64 (a + b).
Proof.
  unfold checked_add_i64; cbv zeta. rewrite checked_spec.
  case_decide; naive_solver.
Qed.

Lemma checked_sub_i64_Some a b v :
  checked_sub_i64 a b = Some v ↔ in_i64 (a - b) ∧ v = a - b.
Proof.
  unfold checked_sub_i64; cbv zeta. rewrite checked_spec.
  case_decide; naive_solver.
Qed.

Lemma checked_mul_i64_Some a b v :
  checked_mul_i64 a b = Some v ↔ in_i64 (a * b) ∧ v = a * b.
Proof.
  unfold checked_mul_i64; cbv zeta. rewrite checked_spec.
  case_decide; naive_solver.
Qed.

Lemma checked_mul_i64_None a b : checked_mul_i64 a b = None ↔ ¬ in_i64 (a * b).
Proof.
  unfold checked_mul_i64; cbv zeta. rewrite checked_spec.
  case_decide; naive_solver.
Qed.

Lemma saturating_add_clamp a b :
  in_i64 a → saturating_add_i64 a b = clamp_i64 (a + b).
Proof.
  intros Ha. unfold saturating_add_i64.
  destruct (checked_add_i64 a b) as [v|] eqn:E.
  - apply checked_add_i64_Some in E as [? ->]. by rewrite clamp_i64_id.
  - apply checked_add_i64_None in E. destruct (Z.leb_spec 0 b); rlia.
Qed.

Lemma saturating_mul_clamp a b : saturating_mul_i64 a b = clamp_i64 (a * b).
Proof.
  unfold saturating_mul_i64.
  destruct (checked_mul_i64 a b) as [v|] eqn:E.
  - apply checked_mul_i64_Some in E as [? ->]. by rewrite clamp_i64_id.
  - apply checked_mul_i64_None in E.
    destruct (Z.leb_spec 0 a), (Z.leb_spec 0 b), (Z.ltb_spec a 0), (Z.ltb_spec b 0);
      cbn [andb orb]; ranges; nia.
Qed.

(** The chain succeeds exactly when each partial difference is representable. *)
Lemma checked_sub_chain_true v l w :
  checked_sub_chain v l = (w, true) → w = v - sum_list_Z (λ x, x) l.
Proof.
  revert v; induction l as [|s l IH]; cbn; intros v H; [simplify_eq; lia|].
  destruct (checked_sub_i64 v s) as [u|] eqn:E; [|done].
  apply checked_sub_i64_Some in E as [_ ->]. apply IH in H. lia.
Qed.

Lemma checked_sub_chain_range v l w ok :
  in_i64 v → checked_sub_chain v l = (w, ok) → in_i64 w.
Proof.
  revert v; induction l as [|s l IH]; cbn; intros v Hv H; [by simplify_eq|].
  destruct (checked_sub_i64 v s) as [u|] eqn:E; [|by simplify_eq].
  apply checked_sub_i64_Some in E as [? ->]. eauto.
Qed.

(** Non-negative subtrahends: the chain overflows only if its end does. *)
Lemma checked_sub_chain_nonneg v l :
  in_i64 v → (∀ x, x ∈ l → 0 <= x) →
  in_i64 (v - sum_list_Z (λ x, x) l) →
  checked_sub_chain v l = (v - sum_list_Z (λ x, x) l, true).
Proof.
  revert v; induction l as [|s l IH]; cbn; intros v Hv Hpos Hend.
  { f_equal; lia. }
  assert (0 <= s) by (apply Hpos; left).
  assert (0 <= sum_list_Z (λ x, x) l) by (apply sum_list_Z_nonneg; intros; apply Hpos; by right).
  assert (E : checked_sub_i64 v s = Some (v - s)).
  { apply checked_sub_i64_Some; split; [rlia | done]. }
  rewrite E, IH; [f_equal; lia | rlia | intros; apply Hpos; by right |].
  replace (v - s - sum_list_Z (λ x, x) l) with (v - (s + sum_list_Z (λ x, x) l)) by lia. done.
Qed.

(** In range the checked operations return the exact value. *)
Lemma checked_mul_i64_ok a b : in_i64 (a * b) → checked_mul_i64 a b = Some (a * b).
Proof. intros H. by apply checked_mul_i64_Some. Qed.
Lemma checked_add_i64_ok a b : in_i64 (a + b) → checked_add_i64 a b = Some (a + b).
Proof. intros H. by apply checked_add_i64_Some. Qed.
Lemma checked_sub_i64_ok a b : in_i64 (a - b) → checked_sub_i64 a b = Some (a - b).
Proof. intros H. by apply checked_sub_i64_Some. Qed.
