(* ===== verification/Depth.v ===== *)
(** * Depth: book levels, cumulative depth and the volume-weighted price

    [engine/state] keeps up to 64 levels a side; signal and risk price a leg by
    walking the asks.  Two routines compute the same quote: [buy_vwap_linear]
    walks the levels, [buy_vwap_prefix] searches cumulative arrays built once by
    [build_depth_prefix].  The cumulative arrays saturate at [INT64_MAX], the
    walk fails on overflow; the last section proves when they agree. *)

From S2P Require Import Prelude Hashing Doubles FixedPoint.

(** ** Data *)

(** [engine/state/StateTypes.h:8-8] kMaxSnapshotDepth. *)
Definition kMaxSnapshotDepth : nat := 64.

(** [engine/state/StateTypes.h:11-15] PriceLevel. *)
Record PriceLevel := mkPriceLevel {
  pl_price_tick : Z;
  pl_price : double;
  pl_size : double
}.

Definition d0_0 : double := S754_zero false.
Definition no_level : PriceLevel := mkPriceLevel 0 d0_0 d0_0.
#[export] Instance PriceLevel_inhabited : Inhabited PriceLevel := populate no_level.

(** [engine/state/quality/BookQualityState.h:8-18] BookQuality. *)
Inductive BookQuality :=
| BqUnknown | BqGood | BqStale | BqRecovering | BqCrossed | BqChainMismatch
| BqChainLagging | BqClosed | BqResolved.
#[export] Instance BookQuality_eq_dec : EqDecision BookQuality.
Proof. solve_decision. Defined.

(** [engine/state/chain/ConfirmedTradeState.h:7-11] AggressorSide. *)
Inductive AggressorSide := AggUnknown | AggBuy | AggSell.
#[export] Instance AggressorSide_eq_dec : EqDecision AggressorSide.
Proof. solve_decision. Defined.

(** [engine/state/MarketStateSnapshot.h:13-61] MarketStateSnapshot. *)
Record MarketStateSnapshot := mkMarketStateSnapshot {
  ms_entity_id : string;
  ms_market_id : string;
  ms_version : Z;
  ms_last_book_update_ns : Z;
  ms_live : bool;
  ms_recovering : bool;
  ms_closed : bool;
  ms_resolved : bool;
  ms_crossed : bool;
  ms_has_bid : bool;
  ms_has_ask : bool;
  ms_best_bid_tick : Z;
  ms_best_ask_tick : Z;
  ms_bid_count : nat;
  ms_ask_count : nat;
  ms_bids : list PriceLevel;
  ms_asks : list PriceLevel;
  ms_winning_asset_id : string;
  ms_snapshot_version_hash : Z;
  ms_state_hash : Z;
  ms_has_confirmed_trade : bool;
  ms_last_trade_price_tick : Z;
  ms_last_trade_size_lots : Z;
  ms_last_taker_side : AggressorSide;
  ms_confirmed_buy_lots_2s : Z;
  ms_confirmed_sell_lots_2s : Z;
  ms_confirmed_buy_lots_10s : Z;
  ms_confirmed_sell_lots_10s : Z;
  ms_quality : BookQuality;
  ms_usable_for_depth : bool;
  ms_usable_for_signal : bool
}.

(** The value-initialised snapshot. *)
Definition snapshot0 : MarketStateSnapshot :=
  mkMarketStateSnapshot "" "" 0 0 false false false false false false false 0 0 0 0
    (std_array kMaxSnapshotDepth no_level []) (std_array kMaxSnapshotDepth no_level [])
    "" 0 0 false 0 0 AggUnknown 0 0 0 0 BqUnknown false false.

(** [engine/state/book/DepthPrefix.h:13-22] DepthPrefix. *)
Record DepthPrefix := mkDepthPrefix {
  dp_ask_count : nat;
  dp_bid_count : nat;
  dp_ask_cum_qty : list Z;
  dp_ask_cum_cost : list Z;
  dp_bid_cum_qty : list Z;
  dp_bid_cum_proceeds : list Z
}.

(** [engine/state/book/DepthPrefix.h:24-31] PrefixVwapResult. *)
Record PrefixVwapResult := mkPrefixVwapResult {
  pv_ok : bool;
  pv_qty_lots : Z;
  pv_total_cost_tick : Z;
  pv_vwap_tick : Z;
  pv_worst_price_tick : Z
}.

(** [engine/common/math/VwapMath.h:14-20] VwapMathResult. *)
Record VwapMathResult := mkVwapMathResult {
  vm_ok : bool;
  vm_total_cost_tick : Z;
  vm_vwap_tick : Z;
  vm_worst_price_tick : Z;
  vm_executable_qty_lots : Z
}.
Definition vwap0 : VwapMathResult := mkVwapMathResult false 0 0 0 0.

(** ** Cumulative depth *)

(** [engine/state/book/DepthPrefix.h:33-44] depth_prefix_level_size_lots. *)
Definition depth_prefix_level_size_lots (level : PriceLevel) : Z :=
  if negb (isfinite (pl_size level)) || le_zero (pl_size level) then 0
  else if ge_int (pl_size level) (2 ^ 63) then i64_max
  else floor_Z (pl_size level).

(** [engine/state/book/DepthPrefix.h:76-86] depth_prefix_saturating_add. *)
Definition depth_prefix_saturating_add (lhs rhs : Z) : Z :=
  let value := lhs + rhs in
  if (i64_max <? value) || (value <? i64_min)
  then if 0 <=? rhs then i64_max else i64_min
  else value.

(** [engine/state/book/DepthPrefix.h:88-99] depth_prefix_saturating_mul. *)
Definition depth_prefix_saturating_mul (lhs rhs : Z) : Z :=
  let value := lhs * rhs in
  if (i64_max <? value) || (value <? i64_min)
  then
    let positive := ((0 <=? lhs) && (0 <=? rhs)) || ((lhs <? 0) && (rhs <? 0)) in
    if positive then i64_max else i64_min
  else value.

(** The quantity of a level in the cumulative arrays. *)
Definition level_available (level : PriceLevel) : Z :=
  if 0 <? pl_price_tick level then depth_prefix_level_size_lots level else 0.

(** [engine/state/book/DepthPrefix.h:120-134] build_depth_prefix, the loop over one side. *)
Fixpoint accumulate_depth (cum_qty cum_cost : Z) (levels : list PriceLevel) : list (Z * Z) :=
  match levels with
  | [] => []
  | level :: rest =>
      let available := level_available level in
      let cost :=
        if 0 <? available then depth_prefix_saturating_mul (pl_price_tick level) available else 0 in
      let cum_qty := depth_prefix_saturating_add cum_qty available in
      let cum_cost := depth_prefix_saturating_add cum_cost cost in
      (cum_qty, cum_cost) :: accumulate_depth cum_qty cum_cost rest
  end.

(** [engine/state/book/DepthPrefix.h:101-151] build_depth_prefix. *)
Definition build_depth_prefix
    (bids : list PriceLevel) (bid_count : nat)
    (asks : list PriceLevel) (ask_count : nat) : DepthPrefix :=
  let bid_count := Nat.min bid_count kMaxSnapshotDepth in
  let ask_count := Nat.min ask_count kMaxSnapshotDepth in
  let ask_cum := accumulate_depth 0 0 (take ask_count asks) in
  let bid_cum := accumulate_depth 0 0 (take bid_count bids) in
  mkDepthPrefix ask_count bid_count
    (std_array kMaxSnapshotDepth 0 ask_cum.*1) (std_array kMaxSnapshotDepth 0 ask_cum.*2)
    (std_array kMaxSnapshotDepth 0 bid_cum.*1) (std_array kMaxSnapshotDepth 0 bid_cum.*2).

(** [engine/state/book/DepthPrefix.h:153-160] ask_depth_from_prefix. *)
Definition ask_depth_from_prefix (prefix : DepthPrefix) : Z :=
  if (dp_ask_count prefix =? 0)%nat then 0
  else dp_ask_cum_qty prefix !!! (dp_ask_count prefix - 1)%nat.

(** [engine/state/book/DepthPrefix.h:162-169] bid_depth_from_prefix. *)
Definition bid_depth_from_prefix (prefix : DepthPrefix) : Z :=
  if (dp_bid_count prefix =? 0)%nat then 0
  else dp_bid_cum_qty prefix !!! (dp_bid_count prefix - 1)%nat.

(** The loop of [best_ask_tick_from_prefix] over the paired arrays. *)
Fixpoint best_ask_loop (previous_qty : Z) (pairs : list (Z * PriceLevel)) : Z :=
  match pairs with
  | [] => 0
  | (current_qty, ask) :: rest =>
      if (previous_qty <? current_qty) && (0 <? pl_price_tick ask) then pl_price_tick ask
      else best_ask_loop current_qty rest
  end.

(** [engine/state/book/DepthPrefix.h:171-184] best_ask_tick_from_prefix. *)
Definition best_ask_tick_from_prefix (asks : list PriceLevel) (prefix : DepthPrefix) : Z :=
  best_ask_loop 0 (take (dp_ask_count prefix) (zip (dp_ask_cum_qty prefix) asks)).

(** The search for the first index below [count] whose cumulative quantity
    reaches [qty]; the result is [count] when there is none. *)
Fixpoint first_reaching (qty : Z) (count : nat) (cum : list Z) : nat :=
  match count, cum with
  | S count', c :: cum' => if qty <=? c then 0%nat else S (first_reaching qty count' cum')
  | _, _ => 0%nat
  end.

(** The value of a cumulative array before index [i]. *)
Definition cum_before (cum : list Z) (i : nat) : Z :=
  if (i =? 0)%nat then 0 else cum !!! (i - 1)%nat.

(** [engine/state/book/DepthPrefix.h:186-236] buy_vwap_from_prefix. *)
Definition buy_vwap_from_prefix
    (asks : list PriceLevel) (prefix : DepthPrefix) (qty_lots : Z) : PrefixVwapResult :=
  let result := mkPrefixVwapResult false qty_lots 0 0 0 in
  if (qty_lots <=? 0) || (dp_ask_count prefix =? 0)%nat then result
  else if dp_ask_cum_qty prefix !!! (dp_ask_count prefix - 1)%nat <? qty_lots then result
  else
    let level_index := first_reaching qty_lots (dp_ask_count prefix) (dp_ask_cum_qty prefix) in
    if (dp_ask_count prefix <=? level_index)%nat then result
    else
      let qty_before := cum_before (dp_ask_cum_qty prefix) level_index in
      let cost_before := cum_before (dp_ask_cum_cost prefix) level_index in
      let remaining := qty_lots -i qty_before in
      let price_tick := pl_price_tick (asks !!! level_index) in
      if (remaining <? 0) || (price_tick <=? 0) then result
      else
        match checked_mul_i64 price_tick remaining with
        | None => result
        | Some partial_cost =>
            match checked_add_i64 cost_before partial_cost with
            | None => result
            | Some total_cost =>
                mkPrefixVwapResult true qty_lots total_cost (Z.quot total_cost qty_lots) price_tick
            end
        end.

(** ** The two routines of VwapMath.h *)

(** [engine/common/math/VwapMath.h:22-33] price_level_size_lots: the same conversion as the prefix uses. *)
Definition price_level_size_lots (level : PriceLevel) : Z :=
  if negb (isfinite (pl_size level)) || le_zero (pl_size level) then 0
  else if ge_int (pl_size level) (2 ^ 63) then i64_max
  else floor_Z (pl_size level).

(** [engine/common/math/VwapMath.h:46-78] buy_vwap_linear, the loop: [None] is its [return {}]. *)
Fixpoint vwap_linear_loop
    (levels : list PriceLevel) (remaining executable total_cost worst : Z)
    : option (Z * Z * Z * Z) :=
  match levels with
  | [] => Some (remaining, executable, total_cost, worst)
  | level :: rest =>
      let available := price_level_size_lots level in
      if (pl_price_tick level <=? 0) || (available <=? 0)
      then vwap_linear_loop rest remaining executable total_cost worst
      else
        match checked_add_i64 executable available with
        | None => None
        | Some executable =>
            if remaining <=? 0 then vwap_linear_loop rest remaining executable total_cost worst
            else
              let taken := Z.min remaining available in
              match checked_mul_i64 (pl_price_tick level) taken with
              | None => None
              | Some level_cost =>
                  match checked_add_i64 total_cost level_cost with
                  | None => None
                  | Some total_cost =>
                      vwap_linear_loop rest (remaining -i taken) executable total_cost
                        (Z.max worst (pl_price_tick level))
                  end
              end
        end
  end.

(** [engine/common/math/VwapMath.h:35-88] buy_vwap_linear; [asks] is a pointer, null when [None]. *)
Definition buy_vwap_linear
    (asks : option (list PriceLevel)) (ask_count : nat) (qty_lots : Z) : VwapMathResult :=
  match asks with
  | None => vwap0
  | Some asks =>
      if (ask_count =? 0)%nat || (qty_lots <=? 0) then vwap0
      else
        match vwap_linear_loop (take ask_count asks) qty_lots 0 0 0 with
        | None => vwap0
        | Some (remaining, executable, total_cost, worst) =>
            if 0 <? remaining then mkVwapMathResult false total_cost 0 worst executable
            else mkVwapMathResult true total_cost (Z.quot total_cost qty_lots) worst executable
        end
  end.

(** [engine/common/math/VwapMath.h:90-137] buy_vwap_prefix. *)
Definition buy_vwap_prefix
    (prefix : DepthPrefix) (asks : option (list PriceLevel)) (ask_count : nat) (qty_lots : Z)
    : VwapMathResult :=
  match asks with
  | None => vwap0
  | Some asks =>
      if (qty_lots <=? 0) || (dp_ask_count prefix =? 0)%nat || (ask_count =? 0)%nat
         || (ask_count <? dp_ask_count prefix)%nat
      then vwap0
      else
        let executable := dp_ask_cum_qty prefix !!! (dp_ask_count prefix - 1)%nat in
        let result := mkVwapMathResult false 0 0 0 executable in
        if executable <? qty_lots then result
        else
          let level_index :=
            first_reaching qty_lots (dp_ask_count prefix) (dp_ask_cum_qty prefix) in
          if (dp_ask_count prefix <=? level_index)%nat then result
          else
            let qty_before := cum_before (dp_ask_cum_qty prefix) level_index in
            let cost_before := cum_before (dp_ask_cum_cost prefix) level_index in
            let remaining := qty_lots -i qty_before in
            let price_tick := pl_price_tick (asks !!! level_index) in
            if (remaining <? 0) || (price_tick <=? 0) then result
            else
              match checked_mul_i64 price_tick remaining with
              | None => vwap0
              | Some partial_cost =>
                  match checked_add_i64 cost_before partial_cost with
                  | None => vwap0
                  | Some total_cost =>
                      mkVwapMathResult true total_cost (Z.quot total_cost qty_lots)
                        price_tick executable
                  end
              end
  end.

(** ** Depth views *)

(** [engine/state/view/MarketDepthView.h:16-36] MarketDepthView. *)
Record MarketDepthView := mkMarketDepthView {
  dv_asset_index : Z;
  dv_book_version : Z;
  dv_snapshot_version_hash : Z;
  dv_last_ws_recv_ns : Z;
  dv_usable_for_depth : bool;
  dv_recovering : bool;
  dv_crossed : bool;
  dv_closed : bool;
  dv_resolved : bool;
  dv_bid_count : nat;
  dv_ask_count : nat;
  dv_bids : list PriceLevel;
  dv_asks : list PriceLevel;
  dv_prefix : DepthPrefix
}.

(** [engine/state/view/MarketDepthView.h:45-82] market_depth_view_from_snapshot. *)
Definition market_depth_view_from_snapshot
    (snapshot : MarketStateSnapshot) (asset_index : Z) : MarketDepthView :=
  let bid_count := Nat.min (ms_bid_count snapshot) kMaxSnapshotDepth in
  let ask_count := Nat.min (ms_ask_count snapshot) kMaxSnapshotDepth in
  let bids := std_array kMaxSnapshotDepth no_level (take bid_count (ms_bids snapshot)) in
  let asks := std_array kMaxSnapshotDepth no_level (take ask_count (ms_asks snapshot)) in
  mkMarketDepthView asset_index (ms_version snapshot)
    (if negb (ms_snapshot_version_hash snapshot =? 0)
     then ms_snapshot_version_hash snapshot else ms_state_hash snapshot)
    (ms_last_book_update_ns snapshot)
    (ms_usable_for_depth snapshot) (ms_recovering snapshot) (ms_crossed snapshot)
    (ms_closed snapshot) (ms_resolved snapshot)
    bid_count ask_count bids asks
    (build_depth_prefix bids bid_count asks ask_count).

(** [engine/state/view/MarketDepthView.h:84-89] buy_vwap_from_prefix, the overload on a view. *)
Definition buy_vwap_from_view (view : MarketDepthView) (qty_lots : Z) : PrefixVwapResult :=
  buy_vwap_from_prefix (dv_asks view) (dv_prefix view) qty_lots.

(** [engine/state/view/MarketDepthView.h:91-109] hash_depth_views. *)
Definition hash_depth_views (views : list MarketDepthView) : Z :=
  foldl (λ hash view,
    let hash := mix_u64 hash (dv_asset_index view) in
    let hash := mix_u64 hash (dv_book_version view) in
    let hash := mix_u64 hash (dv_snapshot_version_hash view) in
    mix_u64 hash (dv_last_ws_recv_ns view)) fnv_offset views.

(** ** Reference semantics: exact cumulative depth and the greedy fill *)

Definition exact_qty (levels : list PriceLevel) : Z := sum_list_Z level_available levels.
Definition level_cost (level : PriceLevel) : Z := pl_price_tick level * level_available level.
Definition exact_cost (levels : list PriceLevel) : Z := sum_list_Z level_cost levels.

Lemma exact_qty_cons l levels : exact_qty (l :: levels) = level_available l + exact_qty levels.
Proof. reflexivity. Qed.
Lemma exact_cost_cons l levels : exact_cost (l :: levels) = level_cost l + exact_cost levels.
Proof. reflexivity. Qed.
#[export] Hint Rewrite exact_qty_cons exact_cost_cons : engine.

(** Fill [remaining] lots level by level: exact cost and unfilled quantity. *)
Fixpoint fill (levels : list PriceLevel) (remaining : Z) : Z * Z :=
  match levels with
  | [] => (0, remaining)
  | level :: rest =>
      let t := Z.min remaining (level_available level) in
      let '(cost, unfilled) := fill rest (remaining - t) in
      (pl_price_tick level * t + cost, unfilled)
  end.

(** The highest price the fill touches, starting from [worst]. *)
Fixpoint fill_worst (levels : list PriceLevel) (remaining worst : Z) : Z :=
  match levels with
  | [] => worst
  | level :: rest =>
      let t := Z.min remaining (level_available level) in
      fill_worst rest (remaining - t) (if 0 <? t then Z.max worst (pl_price_tick level) else worst)
  end.

Lemma level_size_range level : 0 <= price_level_size_lots level <= i64_max.
Proof.
  unfold price_level_size_lots.
  destruct (isfinite (pl_size level)) eqn:E1; cbn [negb orb]; [|lia].
  destruct (le_zero (pl_size level)) eqn:E2; cbn [orb]; [lia|].
  destruct (ge_int (pl_size level) (2 ^ 63)) eqn:E3; [lia|].
  split; [by apply floor_Z_nonneg | by apply floor_Z_lt_pow63].
Qed.

Lemma level_available_range level : 0 <= level_available level <= i64_max.
Proof.
  unfold level_available. step_if; [|lia]. apply (level_size_range level).
Qed.

(** A level with lots has a positive price, and the walk skips exactly the others. *)
Lemma level_live level :
  ((pl_price_tick level <=? 0) || (price_level_size_lots level <=? 0)) = (level_available level <=? 0) ∧
  (0 < level_available level → 0 < pl_price_tick level ∧ level_available level = price_level_size_lots level).
Proof.
  unfold level_available. change (depth_prefix_level_size_lots level) with (price_level_size_lots level).
  pose proof (level_size_range level).
  destruct (Z.ltb_spec 0 (pl_price_tick level)) as [?|?];
    destruct (Z.leb_spec (pl_price_tick level) 0); cbn [orb]; try lia; split; try lia; done.
Qed.

Lemma level_cost_nonneg level : 0 <= level_cost level.
Proof.
  unfold level_cost. pose proof (level_available_range level).
  destruct (level_live level) as [_ Hpos].
  destruct (decide (level_available level = 0)) as [->|]; [lia|].
  destruct Hpos; nia.
Qed.

Lemma exact_qty_nonneg levels : 0 <= exact_qty levels.
Proof. apply sum_list_Z_nonneg. intros; apply level_available_range. Qed.

Lemma exact_cost_nonneg levels : 0 <= exact_cost levels.
Proof. apply sum_list_Z_nonneg. intros; apply level_cost_nonneg. Qed.

Lemma sat_add_nonneg a b :
  0 <= a → 0 <= b → depth_prefix_saturating_add (Z.min i64_max a) (Z.min i64_max b)
                    = Z.min i64_max (a + b).
Proof.
  intros. unfold depth_prefix_saturating_add; cbv zeta. rewrite range_test.
  case_bool_decide; cbn [negb]; [rlia|].
  destruct (Z.leb_spec 0 (Z.min i64_max b)); rlia.
Qed.

Lemma sat_level_cost level :
  (if 0 <? level_available level
   then depth_prefix_saturating_mul (pl_price_tick level) (level_available level) else 0)
  = Z.min i64_max (level_cost level).
Proof.
  unfold depth_prefix_saturating_mul, level_cost; cbv zeta. rewrite range_test.
  pose proof (level_available_range level). destruct (level_live level) as [_ Hpos].
  destruct (Z.ltb_spec 0 (level_available level)) as [Hlt|].
  - destruct (Hpos Hlt). case_bool_decide; cbn [negb]; [rlia|].
    destruct (Z.leb_spec 0 (pl_price_tick level)), (Z.leb_spec 0 (level_available level));
      cbn [andb orb]; ranges; nia.
  - replace (level_available level) with 0 by lia. lia.
Qed.

(** Every entry of the cumulative arrays is the saturated exact sum. *)
Lemma accumulate_lookup levels q c i :
  0 <= q → 0 <= c → (i < length levels)%nat →
  accumulate_depth (Z.min i64_max q) (Z.min i64_max c) levels !! i =
  Some (Z.min i64_max (q + exact_qty (take (S i) levels)),
        Z.min i64_max (c + exact_cost (take (S i) levels))).
Proof.
  revert q c i; induction levels as [|l levels IH]; intros q c i Hq Hc Hi; cbn in Hi; [lia|].
  cbn [accumulate_depth]. cbv zeta. rewrite sat_level_cost.
  pose proof (level_available_range l). pose proof (level_cost_nonneg l).
  replace (level_available l) with (Z.min i64_max (level_available l)) at 1 2 by lia.
  rewrite !sat_add_nonneg by lia.
  destruct i as [|i]; cbn [lookup list_lookup].
  - unfold exact_qty, exact_cost; cbn [take sum_list_Z]. by rewrite !Z.add_0_r.
  - rewrite IH by lia. unfold exact_qty, exact_cost; cbn [take sum_list_Z]. by rewrite !Z.add_assoc.
Qed.

Lemma accumulate_length levels q c : length (accumulate_depth q c levels) = length levels.
Proof. revert q c; induction levels; intros; cbn; auto. Qed.

Lemma std_array_lookup `{Inhabited A} n (d : A) l i x :
  (i < n)%nat → l !! i = Some x → std_array n d l !!! i = x.
Proof.
  intros Hi Hx. unfold std_array. rewrite list_lookup_total_alt, lookup_app_l.
  - by rewrite lookup_take_lt, Hx.
  - rewrite length_take. apply lookup_lt_Some in Hx. lia.
Qed.

Lemma fill_unfilled levels q : 0 <= q → (fill levels q).2 = Z.max 0 (q - exact_qty levels).
Proof.
  revert q; induction levels as [|l levels IH]; intros q Hq; cbn [fill]; [unfold exact_qty; cbn; lia|].
  pose proof (level_available_range l). pose proof (exact_qty_nonneg levels).
  specialize (IH (q - Z.min q (level_available l)) ltac:(lia)).
  destruct (fill levels _) as [c u]; cbn [fst snd] in *. rewrite IH, exact_qty_cons. lia.
Qed.

Lemma fill_cost_nonneg levels q : 0 <= q → 0 <= (fill levels q).1.
Proof.
  revert q; induction levels as [|l levels IH]; intros q Hq; cbn [fill]; [unfold exact_qty; cbn; lia|].
  pose proof (level_available_range l). destruct (level_live l) as [_ Hpos].
  specialize (IH (q - Z.min q (level_available l)) ltac:(lia)).
  destruct (fill levels _) as [c u]; cbn in *.
  destruct (decide (level_available l = 0)) as [->|]; [rewrite Z.min_r; lia|].
  destruct Hpos; nia.
Qed.

(** ** The level a fill ends in *)

Lemma ending_level levels q :
  0 < q <= exact_qty levels →
  ∃ l1 l l2, levels = l1 ++ l :: l2 ∧ exact_qty l1 < q <= exact_qty l1 + level_available l.
Proof.
  revert q; induction levels as [|l levels IH]; intros q Hq; [cbn in Hq; lia|].
  rewrite exact_qty_cons in Hq.
  destruct (decide (q <= level_available l)).
  - exists [], l, levels. split; [done|]. unfold exact_qty at 1 2; cbn [sum_list_Z]. lia.
  - pose proof (level_available_range l).
    destruct (IH (q - level_available l) ltac:(lia)) as (l1 & m & l2 & -> & ?).
    exists (l :: l1), m, l2. split; [done|]. rewrite exact_qty_cons. lia.
Qed.

Lemma fill_zero levels w : fill levels 0 = (0, 0) ∧ fill_worst levels 0 w = w.
Proof.
  revert w; induction levels as [|l levels IH]; intros w; cbn [fill fill_worst]; [done|].
  pose proof (level_available_range l). rewrite Z.min_l, Z.sub_diag, Z.ltb_irrefl by lia.
  destruct (IH w) as [-> ?]. split; [f_equal; lia | done].
Qed.

Lemma fill_split l1 l l2 q :
  exact_qty l1 < q <= exact_qty l1 + level_available l →
  fill (l1 ++ l :: l2) q = (exact_cost l1 + pl_price_tick l * (q - exact_qty l1), 0).
Proof.
  revert q; induction l1 as [|m l1 IH]; intros q Hq; cbn [app fill].
  - unfold exact_qty in *; cbn in *. rewrite Z.min_l, Z.sub_diag by lia.
    destruct (fill_zero l2 0) as [-> _]. f_equal; lia.
  - rewrite exact_qty_cons in Hq.
    pose proof (exact_qty_nonneg l1). pose proof (level_available_range m).
    rewrite Z.min_r by lia. rewrite IH, exact_qty_cons, exact_cost_cons by lia.
    unfold level_cost. f_equal; lia.
Qed.

Lemma fill_worst_split l1 l l2 q w :
  exact_qty l1 < q <= exact_qty l1 + level_available l →
  w <= pl_price_tick l → (∀ x, x ∈ l1 → pl_price_tick x <= pl_price_tick l) →
  fill_worst (l1 ++ l :: l2) q w = pl_price_tick l.
Proof.
  revert q w; induction l1 as [|m l1 IH]; intros q w Hq Hw Hle; cbn [app fill_worst].
  - unfold exact_qty in *; cbn in *. rewrite Z.min_l, Z.sub_diag by lia.
    destruct (fill_zero l2 (if 0 <? q then Z.max w (pl_price_tick l) else w)) as [_ ->].
    destruct (Z.ltb_spec 0 q); lia.
  - rewrite exact_qty_cons in Hq.
    pose proof (exact_qty_nonneg l1). pose proof (level_available_range m).
    pose proof (Hle m ltac:(left)). rewrite Z.min_r by lia. apply IH; [lia| |set_solver].
    step_if; lia.
Qed.

Lemma first_reaching_spec qty count cum i :
  (i < count)%nat → (∀ j, (j < i)%nat → ∃ c, cum !! j = Some c ∧ c < qty) →
  (∃ c, cum !! i = Some c ∧ qty <= c) → first_reaching qty count cum = i.
Proof.
  revert count cum; induction i as [|i IH]; intros count cum Hi Hlt (c & Hc & Hle);
    destruct count as [|count]; try lia; destruct cum as [|c0 cum]; try done; cbn in *.
  - simplify_eq. by rewrite (proj2 (Z.leb_le _ _) Hle).
  - destruct (Hlt 0%nat ltac:(lia)) as (c' & ? & ?); simplify_eq/=.
    rewrite (proj2 (Z.leb_gt _ _)) by lia. f_equal. apply IH; [lia| |eauto].
    intros j Hj. apply (Hlt (S j)). lia.
Qed.

(** ** Both routines compute the greedy fill *)

Definition vwap_filled (cost worst executable qty : Z) : VwapMathResult :=
  mkVwapMathResult true cost (Z.quot cost qty) worst executable.

Lemma linear_loop_spec levels remaining executable total worst :
  0 <= remaining <= i64_max → 0 <= executable <= i64_max → 0 <= total <= i64_max →
  vwap_linear_loop levels remaining executable total worst =
  if bool_decide (executable + exact_qty levels <= i64_max) &&
     bool_decide (total + (fill levels remaining).1 <= i64_max)
  then Some ((fill levels remaining).2, executable + exact_qty levels,
             total + (fill levels remaining).1, fill_worst levels remaining worst)
  else None.
Proof.
  revert remaining executable total worst.
  induction levels as [|l levels IH]; intros r e t w Hr He Ht; cbn [vwap_linear_loop fill fill_worst].
  { unfold exact_qty; cbn. rewrite !bool_decide_true by lia. cbn. repeat f_equal; lia. }
  pose proof (level_available_range l). destruct (level_live l) as [-> Hpos].
  pose proof (exact_qty_nonneg levels).
  rewrite exact_qty_cons.
  destruct (Z.leb_spec (level_available l) 0) as [|Hav].
  { replace (level_available l) with 0 by lia. rewrite Z.min_r, Z.sub_0_r by lia. cbn.
    rewrite IH by lia. destruct (fill levels r); cbn. rewrite Z.mul_0_r, Z.add_0_l. done. }
  destruct (Hpos Hav) as [? <-]. clear Hpos.
  pose proof (fill_cost_nonneg levels (r - Z.min r (level_available l)) ltac:(lia)).
  assert (0 <= pl_price_tick l * Z.min r (level_available l)) by nia.
  destruct (fill levels (r - Z.min r (level_available l))) as [c u] eqn:Efill.
  destruct (checked_add_i64 e (level_available l)) as [e'|] eqn:E1.
  2:{ apply checked_add_i64_None in E1. rewrite bool_decide_false by rlia. done. }
  apply checked_add_i64_Some in E1 as [? ->].
  destruct (Z.leb_spec r 0).
  { replace r with 0 in * by lia. rewrite Z.min_l, Z.sub_0_r in * by lia. cbn.
    rewrite IH by rlia. rewrite Efill. cbn. rewrite Z.mul_0_r, Z.add_0_l, Z.add_assoc. done. }
  destruct (checked_mul_i64 (pl_price_tick l) (Z.min r (level_available l))) as [lc|] eqn:E2.
  2:{ apply checked_mul_i64_None in E2. cbn in *.
      rewrite (bool_decide_false (t + _ <= _)) by rlia. by rewrite andb_false_r. }
  apply checked_mul_i64_Some in E2 as [? ->].
  destruct (checked_add_i64 t _) as [t'|] eqn:E3.
  2:{ apply checked_add_i64_None in E3. cbn in *.
      rewrite (bool_decide_false (t + _ <= _)) by rlia. by rewrite andb_false_r. }
  apply checked_add_i64_Some in E3 as [? ->].
  rewrite wrap_i64_id by rlia. rewrite IH by rlia. rewrite Efill; cbn.
  rewrite (proj2 (Z.ltb_lt 0 _)) by lia. rewrite <- !Z.add_assoc. done.
Qed.

Lemma buy_vwap_linear_spec asks ask_count qty :
  (0 < ask_count)%nat → 0 < qty <= i64_max → let levels := take ask_count asks in
  buy_vwap_linear (Some asks) ask_count qty =
  if bool_decide (exact_qty levels <= i64_max) && bool_decide ((fill levels qty).1 <= i64_max)
  then if 0 <? (fill levels qty).2
       then mkVwapMathResult false (fill levels qty).1 0 (fill_worst levels qty 0) (exact_qty levels)
       else vwap_filled (fill levels qty).1 (fill_worst levels qty 0) (exact_qty levels) qty
  else vwap0.
Proof.
  intros Hc Hq levels. unfold buy_vwap_linear.
  rewrite (proj2 (Nat.eqb_neq _ _)), (proj2 (Z.leb_gt _ _)) by lia. cbn [orb].
  rewrite linear_loop_spec by lia. cbn [Z.add]. fold levels.
  by destruct (_ && _).
Qed.

Section prefix.
Context (bids : list PriceLevel) (bid_count : nat) (asks : list PriceLevel) (ask_count : nat).
Context (Hasks : length asks = kMaxSnapshotDepth) (Hcount : (0 < ask_count <= kMaxSnapshotDepth)%nat).

Let prefix := build_depth_prefix bids bid_count asks ask_count.
Let levels := take ask_count asks.

Lemma levels_length : length levels = ask_count.
Proof. unfold levels. rewrite length_take. lia. Qed.

Lemma prefix_ask_count : dp_ask_count prefix = ask_count.
Proof. unfold prefix, build_depth_prefix; cbn [dp_ask_count]. lia. Qed.

Lemma prefix_lookup i :
  (i < ask_count)%nat →
  dp_ask_cum_qty prefix !! i = Some (Z.min i64_max (exact_qty (take (S i) levels))) ∧
  dp_ask_cum_cost prefix !! i = Some (Z.min i64_max (exact_cost (take (S i) levels))).
Proof.
  intros Hi. pose proof levels_length.
  pose proof (accumulate_lookup levels 0 0 i ltac:(lia) ltac:(lia) ltac:(lia)) as Hacc.
  unfold prefix, build_depth_prefix; cbn [dp_ask_cum_qty dp_ask_cum_cost].
  rewrite Nat.min_l by lia. fold levels.
  unfold std_array. rewrite !lookup_app_l, !lookup_take_lt, !list_lookup_fmap
    by (rewrite ?length_take, ?length_fmap, ?accumulate_length; unfold kMaxSnapshotDepth in *; lia).
  cbn [Z.min Z.compare] in Hacc. rewrite Z.min_r in Hacc by lia. rewrite Hacc. done.
Qed.

Lemma prefix_before l1 l l2 :
  levels = l1 ++ l :: l2 →
  cum_before (dp_ask_cum_qty prefix) (length l1) = Z.min i64_max (exact_qty l1) ∧
  cum_before (dp_ask_cum_cost prefix) (length l1) = Z.min i64_max (exact_cost l1).
Proof.
  intros Hl. pose proof levels_length as Hlen. rewrite Hl, length_app in Hlen; cbn in Hlen.
  unfold cum_before. destruct (Nat.eqb_spec (length l1) 0) as [H0|H0].
  { destruct l1; [done | cbn in H0; lia]. }
  destruct (prefix_lookup (length l1 - 1) ltac:(lia)) as [Hq Hc].
  replace (S (length l1 - 1)) with (length l1) in Hq, Hc by lia.
  rewrite Hl, take_app_length in Hq, Hc.
  by rewrite !list_lookup_total_alt, Hq, Hc.
Qed.

Lemma prefix_last : dp_ask_cum_qty prefix !!! (ask_count - 1)%nat = Z.min i64_max (exact_qty levels).
Proof.
  destruct (prefix_lookup (ask_count - 1) ltac:(lia)) as [Hq _].
  rewrite list_lookup_total_alt, Hq; cbn. pose proof levels_length.
  by rewrite take_ge by lia.
Qed.

(** The search ends at the level where the greedy fill ends. *)
Lemma prefix_search l1 l l2 qty :
  qty <= i64_max → levels = l1 ++ l :: l2 →
  exact_qty l1 < qty <= exact_qty l1 + level_available l →
  first_reaching qty ask_count (dp_ask_cum_qty prefix) = length l1.
Proof.
  intros Hmax Hl Hq. pose proof levels_length as Hlen.
  rewrite Hl, length_app in Hlen; cbn in Hlen.
  apply first_reaching_spec; [lia| |].
  - intros j Hj. destruct (prefix_lookup j ltac:(lia)) as [-> _].
    eexists; split; [done|]. rewrite Hl, take_app_le by lia.
    assert (exact_qty (take (S j) l1) <= exact_qty l1); [|lia].
    unfold exact_qty. rewrite <- (take_drop (S j) l1) at 2. rewrite sum_list_Z_app.
    pose proof (exact_qty_nonneg (drop (S j) l1)). unfold exact_qty in *. lia.
  - destruct (prefix_lookup (length l1) ltac:(lia)) as [-> _].
    eexists; split; [done|]. rewrite Hl.
    replace (S (length l1)) with (length l1 + 1)%nat by lia.
    rewrite take_app_add; cbn [take]. unfold exact_qty in *.
    rewrite sum_list_Z_app; cbn [sum_list_Z]. rewrite Z.add_0_r. lia.
Qed.

Lemma prefix_price l1 l l2 :
  levels = l1 ++ l :: l2 → asks !!! (length l1) = l.
Proof.
  intros Hl. rewrite <- (take_drop ask_count asks). fold levels. rewrite Hl.
  rewrite <- app_assoc. cbn [app]. by rewrite list_lookup_total_middle.
Qed.

(** The prefix routine returns the greedy fill when it fits in 64 bits. *)
Lemma buy_vwap_prefix_spec count qty :
  (ask_count <= count)%nat → 0 < qty <= i64_max →
  buy_vwap_prefix prefix (Some asks) count qty =
  let executable := Z.min i64_max (exact_qty levels) in
  if exact_qty levels <? qty then mkVwapMathResult false 0 0 0 executable
  else if bool_decide ((fill levels qty).1 <= i64_max)
  then vwap_filled (fill levels qty).1
         (pl_price_tick (asks !!! first_reaching qty ask_count (dp_ask_cum_qty prefix)))
         executable qty
  else vwap0.
Proof.
  intros Hcnt Hq. unfold buy_vwap_prefix; cbv zeta. rewrite prefix_ask_count, prefix_last.
  rewrite (proj2 (Z.leb_gt _ _)), !(proj2 (Nat.eqb_neq _ _)), (proj2 (Nat.ltb_ge _ _)) by lia.
  cbn [orb]. replace (Z.min i64_max (exact_qty levels) <? qty) with (exact_qty levels <? qty)
    by (destruct (Z.ltb_spec (exact_qty levels) qty), (Z.ltb_spec (Z.min i64_max (exact_qty levels)) qty); lia).
  destruct (Z.ltb_spec (exact_qty levels) qty) as [|Hle]; [done|].
  destruct (ending_level levels qty ltac:(lia)) as (l1 & l & l2 & Hl & Hend).
  pose proof levels_length as Hlen. rewrite Hl, length_app in Hlen; cbn in Hlen.
  rewrite (prefix_search l1 l l2 qty ltac:(lia) Hl Hend).
  rewrite (proj2 (Nat.leb_gt _ _)) by lia.
  destruct (prefix_before l1 l l2 Hl) as [-> ->]. rewrite (prefix_price l1 l l2 Hl).
  rewrite Hl, (fill_split l1 l l2 qty Hend); cbn [fst].
  pose proof (exact_qty_nonneg l1). pose proof (exact_cost_nonneg l1).
  destruct (level_live l) as [_ Hlive]. destruct (Hlive ltac:(lia)) as [Hp _].
  rewrite (Z.min_r _ (exact_qty l1)), wrap_i64_id by rlia.
  rewrite (proj2 (Z.ltb_ge _ _)), (proj2 (Z.leb_gt _ _)) by lia. cbn [orb].
  assert (0 < pl_price_tick l * (qty - exact_qty l1)) by nia.
  destruct (checked_mul_i64 _ _) as [pc|] eqn:E1.
  2:{ apply checked_mul_i64_None in E1. rewrite bool_decide_false by rlia. done. }
  apply checked_mul_i64_Some in E1 as [? ->].
  destruct (checked_add_i64 _ _) as [tc|] eqn:E2.
  2:{ apply checked_add_i64_None in E2. rewrite bool_decide_false by rlia. done. }
  apply checked_add_i64_Some in E2 as [? ->].
  rewrite bool_decide_true by rlia. unfold vwap_filled. rewrite Z.min_r by rlia. done.
Qed.
End prefix.

(** ** The properties *)

(** Every pair of live asks is in price order, as the book keeps them. *)
Definition asks_sorted (levels : list PriceLevel) : Prop :=
  StronglySorted (λ a b, pl_price_tick a <= pl_price_tick b) levels.

Lemma sorted_before levels l1 l l2 :
  asks_sorted levels → levels = l1 ++ l :: l2 → ∀ x, x ∈ l1 → pl_price_tick x <= pl_price_tick l.
Proof.
  intros Hs ->. unfold asks_sorted in Hs. revert Hs.
  induction l1 as [|m l1 IH]; cbn; intros Hs x Hx; [set_solver|].
  apply StronglySorted_inv in Hs as [Hs Hall]. apply elem_of_cons in Hx as [->|Hx]; [|auto].
  rewrite Forall_forall in Hall. apply Hall. set_solver.
Qed.

(** The optimised quote is the reference walk: on a sorted ask side whose
    total depth fits in 64 bits, [buy_vwap_prefix] over the arrays of
    [build_depth_prefix] succeeds exactly when [buy_vwap_linear] does, and then
    returns the same cost, average price, worst price and executable depth;
    that cost is the exact cost of filling [qty] lots greedily. *)
Theorem buy_vwap_prefix_linear bids bid_count asks ask_count qty :
  length asks = kMaxSnapshotDepth → (0 < ask_count <= kMaxSnapshotDepth)%nat →
  0 < qty <= i64_max → asks_sorted (take ask_count asks) →
  exact_qty (take ask_count asks) <= i64_max →
  let linear := buy_vwap_linear (Some asks) ask_count qty in
  let fast := buy_vwap_prefix (build_depth_prefix bids bid_count asks ask_count)
                (Some asks) ask_count qty in
  vm_ok fast = vm_ok linear ∧
  (vm_ok fast = true → fast = linear ∧ fill (take ask_count asks) qty = (vm_total_cost_tick fast, 0)).
Proof.
  cbv zeta. intros Hlen Hc Hq Hs Hmax.
  rewrite buy_vwap_linear_spec, buy_vwap_prefix_spec by (done || lia).
  rewrite (bool_decide_true (exact_qty _ <= _)) by done; cbn [andb].
  pose proof (fill_unfilled (take ask_count asks) qty ltac:(lia)) as Hu.
  destruct (Z.ltb_spec (exact_qty (take ask_count asks)) qty) as [Hlt|Hge].
  - rewrite (proj2 (Z.ltb_lt 0 _)) by lia. by case_bool_decide.
  - rewrite (proj2 (Z.ltb_ge 0 _)) by lia. case_bool_decide; [|done].
    split; [done|]. intros _. rewrite Z.min_r by lia.
    destruct (ending_level _ _ (conj (proj1 Hq) Hge)) as (l1 & l & l2 & Hl & Hend).
    rewrite (prefix_search bids bid_count asks ask_count Hlen Hc l1 l l2) by (done || lia).
    rewrite (prefix_price asks ask_count l1 l l2) by done.
    destruct (level_live l) as [_ Hlive]. destruct (Hlive ltac:(lia)).
    pose proof (sorted_before _ l1 l l2 Hs Hl) as Hle.
    by rewrite Hl, (fill_split l1 l l2), (fill_worst_split l1 l l2) by (done || lia).
Qed.

Definition two_asks : list PriceLevel :=
  std_array kMaxSnapshotDepth no_level
    [mkPriceLevel 400000 d0_0 (double_of_pos 10); mkPriceLevel 450000 d0_0 (double_of_pos 5)].

Lemma buy_vwap_prefix_linear_witness :
  let fast := buy_vwap_prefix (build_depth_prefix [] 0 two_asks 2) (Some two_asks) 2 12 in
  fast = buy_vwap_linear (Some two_asks) 2 12 ∧ vm_total_cost_tick fast = 4900000.
Proof.
  assert (Hs : asks_sorted (take 2 two_asks)) by (repeat constructor; vm_compute; congruence).
  assert (Hq : exact_qty (take 2 two_asks) <= i64_max) by (vm_compute; congruence).
  pose proof (buy_vwap_prefix_linear [] 0 two_asks 2 12 eq_refl
    ltac:(unfold kMaxSnapshotDepth; lia) ltac:(lia) Hs Hq) as [_ H].
  split; [apply H; vm_compute; reflexivity | vm_compute; reflexivity].
Defined.


Lemma fill_worst_ge levels q w : w <= fill_worst levels q w.
Proof.
  revert q w; induction levels as [|l levels IH]; intros q w; cbn [fill_worst]; [lia|].
  etrans; [|apply IH]. step_if; lia.
Qed.

Lemma fill_bounds levels q w :
  0 <= q → 0 <= w →
  let '(c, u) := fill levels q in
  0 <= u <= q ∧ q - u <= c <= (q - u) * fill_worst levels q w.
Proof.
  revert q w; induction levels as [|l levels IH]; intros q w Hq Hw; cbn [fill fill_worst]; [lia|].
  pose proof (level_available_range l). destruct (level_live l) as [_ Hlive].
  set (t := Z.min q (level_available l)). set (w' := if 0 <? t then _ else _).
  assert (w <= w') by (subst w'; step_if; lia).
  specialize (IH (q - t) w' ltac:(lia) ltac:(lia)).
  pose proof (fill_worst_ge levels (q - t) w').
  destruct (fill levels (q - t)) as [c u].
  destruct (Z.ltb_spec 0 t) as [Ht|Ht].
  - destruct (Hlive ltac:(lia)). assert (pl_price_tick l <= w') by (subst w'; lia). nia.
  - assert (t = 0) as -> by lia. nia.
Qed.

(** A filled quote is priced inside the book: the average price of a
    successful walk is at least one tick and never above the worst price the
    walk touched, the cost fits in 64 bits and lies between the two, and the
    executable depth covers the request. *)
Theorem buy_vwap_linear_bounds asks ask_count qty :
  (0 < ask_count)%nat → 0 < qty <= i64_max →
  let r := buy_vwap_linear (Some asks) ask_count qty in
  vm_ok r = true →
  1 <= vm_vwap_tick r <= vm_worst_price_tick r ∧
  qty <= vm_total_cost_tick r <= qty * vm_worst_price_tick r ∧
  vm_total_cost_tick r <= i64_max ∧
  qty <= vm_executable_qty_lots r <= i64_max.
Proof.
  intros Hc Hq r. subst r. rewrite buy_vwap_linear_spec by done. cbv zeta.
  pose proof (fill_bounds (take ask_count asks) qty 0 ltac:(lia) ltac:(lia)) as Hb.
  pose proof (fill_unfilled (take ask_count asks) qty ltac:(lia)) as Hu.
  destruct (fill _ qty) as [cost u]; cbn [fst snd] in *.
  case_bool_decide; [|done]. case_bool_decide; [|done]. cbn [andb].
  destruct (Z.ltb_spec 0 u); [done|]. intros _; cbn.
  assert (u = 0) as -> by lia. rewrite Z.sub_0_r in Hb.
  rewrite Z.quot_div_nonneg by lia.
  repeat split; try lia.
  - apply Z.div_le_lower_bound; lia.
  - apply Z.div_le_upper_bound; lia.
Qed.

Lemma buy_vwap_linear_bounds_witness :
  let r := buy_vwap_linear (Some two_asks) 2 12 in
  1 <= vm_vwap_tick r <= vm_worst_price_tick r.
Proof.
  apply (buy_vwap_linear_bounds two_asks 2 12); [lia | lia | vm_compute; reflexivity].
Defined.
