(* ===== verification/RiskTypes.v ===== *)
(** * RiskTypes: the data signal, order decision and risk exchange

    Intents, policies, decisions and audit traces of [engine/signal/public],
    [engine/order_decision/public] and [engine/risk/public], with the hash that
    binds a policy to the decisions taken under it.  An array of legs is the
    list of its 16 slots next to the separate [leg_count]; a nullable pointer is
    an [option]; an out-of-range enumerator cannot be built. *)

From S2P Require Import Prelude Hashing Doubles.

(** ** Intents *)

(** [oracle/bundles/CandidateBundle.h:9-12] Side. *)
Inductive Side := Buy | Sell.
#[export] Instance Side_eq_dec : EqDecision Side.
Proof. solve_decision. Defined.

(** [engine/signal/public/SignalTypes.h:11-22] IntentStatus. *)
Inductive IntentStatus :=
| IsCandidateOnly | IsRejectedInvalidSettlement | IsRejectedBadMarketState
| IsRejectedMissingSnapshot | IsRejectedInsufficientDepth | IsRejectedLowEdge
| IsDuplicateIntent | IsPaperOpportunity.
#[export] Instance IntentStatus_eq_dec : EqDecision IntentStatus.
Proof. solve_decision. Defined.

(** [engine/signal/public/SignalTypes.h:24-33] IntentRejectCode. *)
Inductive IntentRejectCode :=
| IrcNone | IrcInvalidSettlement | IrcBadMarketState | IrcMissingSnapshot
| IrcInsufficientDepth | IrcLowEdge | IrcDuplicate | IrcRateLimited.

(** [engine/signal/public/OpportunityIntent.h:11-11] kMaxIntentLegs. *)
Definition kMaxIntentLegs : nat := 16.

(** [engine/signal/public/OpportunityIntent.h:13-30] IntentLeg. *)
Record IntentLeg := mkIntentLeg {
  il_market_id : string;
  il_asset_id : string;
  il_asset_index : Z;
  il_side : Side;
  il_quantity_lots : Z;
  il_estimated_vwap_tick : Z;
  il_worst_price_tick : Z;
  il_estimated_cost_tick : Z;
  il_requested_qty_lots : Z;
  il_executable_qty_lots : Z;
  il_depth_margin_bps : Z;
  il_enough_depth : bool
}.
Definition leg0 : IntentLeg := mkIntentLeg "" "" 0 Buy 0 0 0 0 0 0 0 false.
#[export] Instance IntentLeg_inhabited : Inhabited IntentLeg := populate leg0.

(** [engine/signal/public/OpportunityIntent.h:32-81] OpportunityIntent. *)
Record OpportunityIntent := mkOpportunityIntent {
  oi_intent_id : Z;
  oi_bundle_id : Z;
  oi_status : IntentStatus;
  oi_valid_under_settlement : bool;
  oi_passed_quality_gate : bool;
  oi_enough_depth : bool;
  oi_guaranteed_payout_tick : Z;
  oi_estimated_cost_tick : Z;
  oi_estimated_fee_tick : Z;
  oi_latency_buffer_tick : Z;
  oi_estimated_edge_tick : Z;
  oi_min_edge_tick : Z;
  oi_oracle_artifact_hash : Z;
  oi_constraint_hash : Z;
  oi_bundle_hash : Z;
  oi_snapshot_version : Z;
  oi_snapshot_version_hash : Z;
  oi_idempotency_hash : Z;
  oi_proof_hash : Z;
  oi_reject_code : IntentRejectCode;
  oi_bundle_qty : Z;
  oi_original_bundle_qty : Z;
  oi_unit_edge_tick : Z;
  oi_total_edge_tick : Z;
  oi_edge_bps : Z;
  oi_slippage_buffer_tick : Z;
  oi_max_leg_slippage_tick : Z;
  oi_created_ts_ns : Z;
  oi_expires_at_ns : Z;
  oi_leg_count : nat;
  oi_legs : list IntentLeg;
  oi_oracle_artifact_version : Z;
  oi_idempotency_key : string;
  oi_proof_ref : string;
  oi_reject_reason : string
}.

Definition intent0 : OpportunityIntent :=
  mkOpportunityIntent 0 0 IsCandidateOnly false false false 0 0 0 0 0 0 0 0 0 0 0 0 0 IrcNone
    0 0 0 0 0 0 0 0 0 0 (std_array kMaxIntentLegs leg0 []) 0 "" "" "".

(** The legs the loops of the engine visit: indices below [leg_count]. *)
Definition intent_legs (intent : OpportunityIntent) : list IntentLeg :=
  take (oi_leg_count intent) (oi_legs intent).

(** ** Policies *)

(** [engine/risk/public/RiskPolicySnapshot.h:8-40] QuoteRiskPolicy. *)
Record QuoteRiskPolicy := mkQuoteRiskPolicy {
  qp_quote_risk_enabled : bool;
  qp_quote_kill_switch_enabled : bool;
  qp_max_quote_qty_lots : Z;
  qp_max_quote_notional_tick : Z;
  qp_max_asset_inventory_lots : Z;
  qp_min_edge_to_fair_tick : Z;
  qp_min_book_spread_tick : Z;
  qp_max_book_spread_tick : Z;
  qp_max_book_spread_bps : Z;
  qp_max_quote_fair_deviation_tick : Z;
  qp_max_quote_fair_deviation_bps : Z;
  qp_max_canonical_yes_exposure_lots : Z;
  qp_max_portfolio_touch_exposure_lots : Z;
  qp_max_spot_age_ms : Z;
  qp_max_vol_age_ms : Z;
  qp_min_external_confidence_bps : Z;
  qp_max_quote_age_ns : Z;
  qp_max_book_age_ns : Z;
  qp_min_replace_interval_ns : Z;
  qp_max_active_quotes_per_asset : Z;
  qp_allow_bid_quotes : bool;
  qp_allow_ask_quotes : bool;
  qp_reward_eligibility_required : bool;
  qp_reward_max_spread_tick : Z;
  qp_reward_min_quote_size_lots : Z;
  qp_allow_reward_exemption_for_reduce_only : bool
}.

(** The default member initialisers. *)
Definition quote_policy0 : QuoteRiskPolicy :=
  mkQuoteRiskPolicy true false 0 0 0 0 0 0 0 0 0 0 0 1500 60000 0
    1000000000 1000000000 100000000 2 true true false 0 0 true.

(** [engine/risk/public/RiskPolicySnapshot.h:42-74] RiskPolicySnapshot. *)
Record RiskPolicySnapshot := mkRiskPolicySnapshot {
  rp_policy_version : Z;
  rp_policy_hash : Z;
  rp_risk_enabled : bool;
  rp_kill_switch_enabled : bool;
  rp_min_post_risk_total_edge_tick : Z;
  rp_min_post_risk_unit_edge_tick : Z;
  rp_min_edge_bps : Z;
  rp_max_total_cost_tick : Z;
  rp_max_single_market_exposure_tick : Z;
  rp_max_total_exposure_tick : Z;
  rp_max_inventory_lots_per_asset : Z;
  rp_max_book_age_ns : Z;
  rp_max_intent_age_ns : Z;
  rp_max_snapshot_skew_ns : Z;
  rp_max_allowed_cost_drift_tick : Z;
  rp_max_slippage_tick : Z;
  rp_max_unhedged_loss_tick : Z;
  rp_min_depth_margin_ratio : double;
  rp_min_depth_margin_bps : Z;
  rp_max_pending_intents_per_bundle : Z;
  rp_max_pending_intents_total : Z;
  rp_max_approvals_per_second : Z;
  rp_quote_risk : QuoteRiskPolicy
}.

Definition policy0 : RiskPolicySnapshot :=
  mkRiskPolicySnapshot 1 0 true false 0 0 0 0 0 0 0 1000000000 1000000000 0 0 0 0
    d1_20 12000 1 1024 100 quote_policy0.

(** A call of one of the mixers, with the field it is given. *)
Inductive mix_item :=
| MixU64 (v : Z) | MixI64 (v : Z) | MixU32 (v : Z) | MixBool (b : bool) | MixDouble (d : double).

Definition mix (h : Z) (i : mix_item) : Z :=
  match i with
  | MixU64 v => mix_u64 h v
  | MixI64 v => mix_i64 h v
  | MixU32 v => mix_u32 h v
  | MixBool b => mix_bool h b
  | MixDouble d => mix_u64 h (bits_of_double d)
  end.

(** [engine/risk/public/RiskPolicySnapshot.h:132-160] compute_policy_hash: the calls, in order. *)
Definition quote_policy_fields (q : QuoteRiskPolicy) : list mix_item :=
  [ MixBool (qp_quote_risk_enabled q);
    MixBool (qp_quote_kill_switch_enabled q);
    MixI64 (qp_max_quote_qty_lots q);
    MixI64 (qp_max_quote_notional_tick q);
    MixI64 (qp_max_asset_inventory_lots q);
    MixI64 (qp_min_edge_to_fair_tick q);
    MixI64 (qp_min_book_spread_tick q);
    MixI64 (qp_max_book_spread_tick q);
    MixI64 (qp_max_book_spread_bps q);
    MixI64 (qp_max_quote_fair_deviation_tick q);
    MixI64 (qp_max_quote_fair_deviation_bps q);
    MixI64 (qp_max_canonical_yes_exposure_lots q);
    MixI64 (qp_max_portfolio_touch_exposure_lots q);
    MixU64 (qp_max_spot_age_ms q);
    MixU64 (qp_max_vol_age_ms q);
    MixI64 (qp_min_external_confidence_bps q);
    MixU64 (qp_max_quote_age_ns q);
    MixU64 (qp_max_book_age_ns q);
    MixU64 (qp_min_replace_interval_ns q);
    MixU32 (qp_max_active_quotes_per_asset q);
    MixBool (qp_allow_bid_quotes q);
    MixBool (qp_allow_ask_quotes q);
    MixBool (qp_reward_eligibility_required q);
    MixI64 (qp_reward_max_spread_tick q);
    MixI64 (qp_reward_min_quote_size_lots q);
    MixBool (qp_allow_reward_exemption_for_reduce_only q) ].

(** [engine/risk/public/RiskPolicySnapshot.h:111-131] compute_policy_hash: the calls on the policy itself. *)
Definition policy_fields (p : RiskPolicySnapshot) : list mix_item :=
  [ MixU64 (rp_policy_version p);
    MixBool (rp_risk_enabled p);
    MixBool (rp_kill_switch_enabled p);
    MixI64 (rp_min_post_risk_total_edge_tick p);
    MixI64 (rp_min_post_risk_unit_edge_tick p);
    MixI64 (rp_min_edge_bps p);
    MixI64 (rp_max_total_cost_tick p);
    MixI64 (rp_max_single_market_exposure_tick p);
    MixI64 (rp_max_total_exposure_tick p);
    MixI64 (rp_max_inventory_lots_per_asset p);
    MixI64 (rp_max_book_age_ns p);
    MixI64 (rp_max_intent_age_ns p);
    MixI64 (rp_max_snapshot_skew_ns p);
    MixI64 (rp_max_allowed_cost_drift_tick p);
    MixI64 (rp_max_slippage_tick p);
    MixI64 (rp_max_unhedged_loss_tick p);
    MixDouble (rp_min_depth_margin_ratio p);
    MixI64 (rp_min_depth_margin_bps p);
    MixU32 (rp_max_pending_intents_per_bundle p);
    MixU32 (rp_max_pending_intents_total p);
    MixU32 (rp_max_approvals_per_second p) ] ++ quote_policy_fields (rp_quote_risk p).

(** [engine/risk/public/RiskPolicySnapshot.h:107-162] compute_policy_hash. *)
Definition compute_policy_hash (policy : RiskPolicySnapshot) : Z :=
  foldl mix fnv_offset (policy_fields policy).

(** [engine/risk/public/RiskPolicySnapshot.h:164-169] with_computed_policy_hash. *)
Definition with_computed_policy_hash (policy : RiskPolicySnapshot) : RiskPolicySnapshot :=
  policy <| rp_policy_hash := compute_policy_hash policy |>.

(** ** Decisions *)

(** [engine/risk/public/RiskTypes.h:7-10] RiskDecisionStatus. *)
Inductive RiskDecisionStatus := DsRejected | DsApproved.
#[export] Instance RiskDecisionStatus_eq_dec : EqDecision RiskDecisionStatus.
Proof. solve_decision. Defined.

(** [engine/risk/public/RiskTypes.h:12-33] RiskDecisionType; [Approve] is an alias of [Pass]. *)
Inductive RiskDecisionType :=
| DtPass | RejectKillSwitch | RejectExpiredIntent | RejectDuplicateIntent | RejectRateLimited
| RejectBadMarketState | RejectStaleSnapshot | RejectInsufficientDepth | RejectCostDrift
| RejectReducedBundleQty | RejectLowTotalEdge | RejectLowUnitEdge | RejectLowEdgeBps
| RejectCostLimit | RejectTotalExposureLimit | RejectSingleMarketExposureLimit
| RejectInventoryLimit | RejectPartialFillRisk | RejectInternalError.
#[export] Instance RiskDecisionType_eq_dec : EqDecision RiskDecisionType.
Proof. solve_decision. Defined.

(** [engine/risk/public/RiskTypes.h:35-62] RiskRejectReason. *)
Inductive RiskRejectReason :=
| RrNone | RrNotEvaluated | RrRiskDisabled | RrKillSwitch | RrLowTotalEdge | RrLowUnitEdge
| RrLowEdgeBps | RrCostLimit | RrSingleMarketExposureLimit | RrTotalExposureLimit
| RrInventoryLimit | RrBadMarketState | RrStaleBook | RrExpiredIntent | RrSnapshotSkew
| RrCostDrift | RrSlippageLimit | RrPendingIntentLimit | RrApprovalRateLimit
| RrMissingReservation | RrInvalidIntent | RrMissingEvidence | RrDuplicateIntent
| RrDuplicateReservation | RrPartialFillRisk | RrInternalError.
#[export] Instance RiskRejectReason_eq_dec : EqDecision RiskRejectReason.
Proof. solve_decision. Defined.

(** The underlying value of an enumerator, as the hashes read it. *)
Definition reject_reason_value (r : RiskRejectReason) : Z :=
  match r with
  | RrNone => 0 | RrNotEvaluated => 1 | RrRiskDisabled => 2 | RrKillSwitch => 3
  | RrLowTotalEdge => 4 | RrLowUnitEdge => 5 | RrLowEdgeBps => 6 | RrCostLimit => 7
  | RrSingleMarketExposureLimit => 8 | RrTotalExposureLimit => 9 | RrInventoryLimit => 10
  | RrBadMarketState => 11 | RrStaleBook => 12 | RrExpiredIntent => 13 | RrSnapshotSkew => 14
  | RrCostDrift => 15 | RrSlippageLimit => 16 | RrPendingIntentLimit => 17
  | RrApprovalRateLimit => 18 | RrMissingReservation => 19 | RrInvalidIntent => 20
  | RrMissingEvidence => 21 | RrDuplicateIntent => 22 | RrDuplicateReservation => 23
  | RrPartialFillRisk => 24 | RrInternalError => 25
  end.
Definition decision_status_value (s : RiskDecisionStatus) : Z :=
  match s with DsRejected => 0 | DsApproved => 1 end.
Definition side_value (s : Side) : Z := match s with Buy => 0 | Sell => 1 end.

(** [engine/risk/public/RiskTypes.h:64-68] RiskVWAPMode. *)
Inductive RiskVWAPMode := ReusedSignalCost | ReuseSignalSnapshot | RecomputedFromSnapshot.
#[export] Instance RiskVWAPMode_eq_dec : EqDecision RiskVWAPMode.
Proof. solve_decision. Defined.

(** [engine/risk/public/RiskDecision.h:10-35] RiskDecision. *)
Record RiskDecision := mkRiskDecision {
  rd_status : RiskDecisionStatus;
  rd_reject_reason : RiskRejectReason;
  rd_decision_id : Z;
  rd_intent_id : Z;
  rd_bundle_id : Z;
  rd_idempotency_hash : Z;
  rd_oracle_artifact_hash : Z;
  rd_constraint_hash : Z;
  rd_bundle_hash : Z;
  rd_snapshot_version_hash : Z;
  rd_policy_version : Z;
  rd_policy_hash : Z;
  rd_reject_detail : string
}.
Definition decision0 : RiskDecision :=
  mkRiskDecision DsRejected RrNotEvaluated 0 0 0 0 0 0 0 0 0 0 "".

(** [engine/risk/public/RiskDecision.h:27-30] approved. *)
Definition decision_approved (d : RiskDecision) : bool :=
  bool_decide (rd_status d = DsApproved) && bool_decide (rd_reject_reason d = RrNone).

(** [engine/risk/public/RiskDecision.h:37-46] make_rejected_decision. *)
Definition make_rejected_decision (reason : RiskRejectReason) (detail : string) : RiskDecision :=
  decision0 <| rd_status := DsRejected |> <| rd_reject_reason := reason |>
            <| rd_reject_detail := detail |>.

(** [engine/risk/public/RiskDecision.h:48-58] make_approved_decision. *)
Definition make_approved_decision (policy_version policy_hash : Z) : RiskDecision :=
  decision0 <| rd_status := DsApproved |> <| rd_reject_reason := RrNone |>
            <| rd_policy_version := policy_version |> <| rd_policy_hash := policy_hash |>.

(** [engine/risk/public/ApprovedIntent.h:11-28] ApprovedIntent. *)
Record ApprovedIntent := mkApprovedIntent {
  ai_intent : OpportunityIntent;
  ai_decision : RiskDecision;
  ai_reservation_id : string;
  ai_reservation_id_hash : Z;
  ai_approved_at_ns : Z;
  ai_expires_at_ns : Z
}.
Definition approved_intent0 : ApprovedIntent := mkApprovedIntent intent0 decision0 "" 0 0 0.

(** [engine/risk/public/ApprovedIntent.h:21-23] has_reservation. *)
Definition has_reservation (a : ApprovedIntent) : bool :=
  negb (ai_reservation_id_hash a =? 0) || negb (String.eqb (ai_reservation_id a) "").

(** [engine/risk/public/ApprovedIntent.h:25-27] valid. *)
Definition approved_intent_valid (a : ApprovedIntent) : bool :=
  decision_approved (ai_decision a) && has_reservation a.

(** ** Audit *)

(** [engine/risk/public/RiskAuditTrace.h:12-28] RiskAuditStepCode. *)
Inductive RiskAuditStepCode :=
| StKillSwitchGuard | StIntentValidator | StEvidenceVerifier | StExpiryGuard | StDuplicateGuard
| StRateLimitGuard | StMarketStateGuard | StSnapshotFreshnessGuard | StCostRevalidator
| StEdgeGuard | StMaxLossGuard | StExposureGuard | StInventoryGuard | StPartialFillGuard
| StReservationBook.
#[export] Instance RiskAuditStepCode_eq_dec : EqDecision RiskAuditStepCode.
Proof. solve_decision. Defined.

(** [engine/risk/public/RiskAuditTrace.h:30-35] RiskAuditStepLite. *)
Record RiskAuditStepLite := mkStepLite {
  sl_step : RiskAuditStepCode;
  sl_pass : bool;
  sl_rejection : RiskDecisionType;
  sl_detail_code : Z
}.

(** [engine/risk/public/RiskAuditTrace.h:37-37] kMaxRiskAuditSteps. *)
Definition kMaxRiskAuditSteps : nat := 16.

(** [engine/risk/public/RiskAuditTrace.h:45-50] RiskAuditStep. *)
Record RiskAuditStep := mkAuditStep {
  as_guard_name : string;
  as_pass : bool;
  as_rejection : RiskDecisionType;
  as_reason : string
}.

(** [engine/risk/public/RiskAuditTrace.h:67-104] risk_audit_step_name. *)
Definition risk_audit_step_name (code : RiskAuditStepCode) : string :=
  match code with
  | StKillSwitchGuard => "KillSwitchGuard"
  | StIntentValidator => "IntentValidator"
  | StEvidenceVerifier => "IntentEvidenceVerifier"
  | StExpiryGuard => "IntentExpiryGuard"
  | StDuplicateGuard => "DuplicateIntentGuard"
  | StRateLimitGuard => "RateLimitGuard"
  | StMarketStateGuard => "MarketStateGuard"
  | StSnapshotFreshnessGuard => "SnapshotFreshnessGuard"
  | StCostRevalidator => "CostRevalidator"
  | StEdgeGuard => "EdgeGuard"
  | StMaxLossGuard => "MaxLossGuard"
  | StExposureGuard => "ExposureGuard"
  | StInventoryGuard => "InventoryGuard"
  | StPartialFillGuard => "PartialFillGuard"
  | StReservationBook => "ReservationBook.try_reserve"
  end.

(** ** The policy hash separates policies *)

Definition u64_bytes (v : Z) : list Z := (λ shift, Z.land (Z.shiftr v shift) 255) <$> byte_shifts.

(** The bytes a mixer call feeds to the hash. *)
Definition item_bytes (i : mix_item) : list Z :=
  match i with
  | MixU64 v | MixU32 v => u64_bytes v
  | MixI64 v => u64_bytes (wrap_u64 v)
  | MixBool b => [if b then 1 else 0]
  | MixDouble d => u64_bytes (bits_of_double d)
  end.
Definition policy_bytes (p : RiskPolicySnapshot) : list Z := policy_fields p ≫= item_bytes.

Lemma mix_item_bytes h i : mix h i = foldl mix_byte h (item_bytes i).
Proof. by destruct i. Qed.

Lemma foldl_mix_bytes h items : foldl mix h items = foldl mix_byte h (items ≫= item_bytes).
Proof.
  revert h; induction items as [|i items IH]; intros h; [done|].
  cbn [foldl]. rewrite IH, mix_item_bytes, bind_cons, foldl_app. done.
Qed.

Lemma item_bytes_range i b : b ∈ item_bytes i → in_u64 b.
Proof.
  assert (∀ v, b ∈ u64_bytes v → in_u64 b) as Hu.
  { unfold u64_bytes. intros v (s & -> & _)%list_elem_of_fmap. apply land_255_in_u64. }
  destruct i as [v|v|v|[]|d]; cbn [item_bytes]; try apply Hu;
    intros ->%list_elem_of_singleton; unfold in_u64; lia.
Qed.

Lemma foldl_mix_byte_inj bytes h1 h2 :
  (∀ b, b ∈ bytes → in_u64 b) → in_u64 h1 → in_u64 h2 →
  foldl mix_byte h1 bytes = foldl mix_byte h2 bytes → h1 = h2.
Proof.
  revert h1 h2; induction bytes as [|b bytes IH]; intros h1 h2 Hb H1 H2 H; [done|].
  cbn in H. apply IH in H; [|set_solver|apply mix_byte_range..].
  apply mix_byte_inj in H; [done..|]. apply Hb; set_solver.
Qed.

Lemma foldl_mix_byte_range bytes h : in_u64 h → in_u64 (foldl mix_byte h bytes).
Proof.
  revert h; induction bytes as [|b bytes IH]; intros h Hh; [done|]. apply IH, mix_byte_range.
Qed.

Lemma policy_hash_bytes p : compute_policy_hash p = foldl mix_byte fnv_offset (policy_bytes p).
Proof. apply foldl_mix_bytes. Qed.

Lemma policy_bytes_range p b : b ∈ policy_bytes p → in_u64 b.
Proof. intros (i & Hi & _)%list_elem_of_bind. eauto using item_bytes_range. Qed.

Lemma foldl_single_byte h l1 l2 b1 b2 :
  in_u64 h → (∀ b, b ∈ l1 ++ b1 :: l2 → in_u64 b) → in_u64 b2 →
  foldl mix_byte h (l1 ++ b1 :: l2) = foldl mix_byte h (l1 ++ b2 :: l2) → b1 = b2.
Proof.
  intros Hh Hb Hb2 H. rewrite !foldl_app in H. cbn [foldl] in H.
  apply foldl_mix_byte_inj in H; [|set_solver|apply mix_byte_range..].
  apply mix_byte_byte_inj in H; [done| |set_solver|done].
  by apply foldl_mix_byte_range.
Qed.

(** The policy hash detects any single-byte change: two policies whose
    encodings differ in exactly one byte (any switch, or one byte of a limit)
    have different hashes, because every FNV step permutes the 64-bit states. *)
Theorem policy_hash_single_byte p q l1 l2 b1 b2 :
  policy_bytes p = l1 ++ b1 :: l2 → policy_bytes q = l1 ++ b2 :: l2 → b1 ≠ b2 →
  compute_policy_hash p ≠ compute_policy_hash q.
Proof.
  intros Hp Hq Hne H. apply Hne. rewrite !policy_hash_bytes, Hp, Hq in H.
  apply foldl_single_byte in H; [done|unfold in_u64, fnv_offset; lia| |].
  - rewrite <- Hp. apply policy_bytes_range.
  - apply (policy_bytes_range q). rewrite Hq. set_solver.
Qed.

Lemma policy_hash_single_byte_witness :
  compute_policy_hash policy0 ≠ compute_policy_hash (policy0 <| rp_kill_switch_enabled := true |>).
Proof.
  apply (policy_hash_single_byte policy0 (policy0 <| rp_kill_switch_enabled := true |>)
    (take 9 (policy_bytes policy0)) (drop 10 (policy_bytes policy0)) 0 1);
    vm_compute; congruence.
Defined.
