(* ===== verification/ReservationBook.v ===== *)
(** * ReservationBook: the reservations behind approved intents

    [engine/risk/ledger]: an approved intent reserves cost, exposure per market
    and lots per asset until it is released or expires.  The book is an
    append-only vector of reservations, an index of the active idempotency keys,
    and a ledger of running totals.  The ledger is updated in place; the
    theorems show that it always equals the sum over the active reservations.

    [ReservedAssetLot] and [ReservedMarketExposure] have the same fields and the
    same code on them up to names: both are [Reserved] here, and a pointer to an
    interned string is the string it points to ([None] for a null pointer). *)

From S2P Require Import Prelude Hashing RiskTypes.

(** ** Data *)

(** [engine/risk/ledger/Reservation.h:11-11] kMaxReservedLegs. *)
Definition kMaxReservedLegs : nat := 16.

(** [engine/risk/ledger/Reservation.h:13-18] ReservationStatus. *)
Inductive ReservationStatus := RsActive | RsReleased | RsExpired | RsConsumed.
#[export] Instance ReservationStatus_eq_dec : EqDecision ReservationStatus.
Proof. solve_decision. Defined.

(** [engine/risk/ledger/Reservation.h:20-30] ReservedAssetLot and ReservedMarketExposure. *)
Record Reserved := mkReserved {
  rv_index : Z;
  rv_id : option string;
  rv_amount : Z
}.

(** [engine/risk/ledger/Reservation.h:32-54] RiskReservation; the lists are the arrays below their counts. *)
Record RiskReservation := mkRiskReservation {
  rs_reservation_id : Z;
  rs_intent_id : Z;
  rs_bundle_id : Z;
  rs_idempotency_hash : Z;
  rs_reserved_cost_tick : Z;
  rs_reserved_exposure_tick : Z;
  rs_assets : list Reserved;
  rs_markets : list Reserved;
  rs_created_ts_ns : Z;
  rs_expires_at_ns : Z;
  rs_status : ReservationStatus;
  rs_ledger_reserved : bool;
  rs_idempotency_key : string
}.
Definition reservation0 : RiskReservation :=
  mkRiskReservation 0 0 0 0 0 0 [] [] 0 0 RsActive false "".

(** [engine/risk/ledger/Reservation.h:56-61] ReservationResult. *)
Record ReservationResult := mkReservationResult {
  res_ok : bool;
  res_reject_reason : RiskRejectReason;
  res_detail : string;
  res_reservation_id : Z
}.
Definition reservation_result0 : ReservationResult := mkReservationResult false RrNotEvaluated "" 0.

(** [engine/risk/ledger/ExposureLedger.h:18-30] ExposureLedger. *)
Record ExposureLedger := mkExposureLedger {
  el_total_reserved_cost_tick : Z;
  el_total_reserved_exposure_tick : Z;
  el_market_reserved_exposure_tick : gmap string Z
}.

(** [engine/risk/ledger/RiskLedger.h:45-55] RiskLedger; the inventory ledger is one map. *)
Record RiskLedger := mkRiskLedger {
  lg_exposure : ExposureLedger;
  lg_inventory : gmap string Z
}.
Definition ledger0 : RiskLedger := mkRiskLedger (mkExposureLedger 0 0 ∅) ∅.

(** [engine/risk/ledger/RiskLedger.h:13-43] RiskLedgerSnapshot; the numeric arrays below their counts. *)
Record RiskLedgerSnapshot := mkRiskLedgerSnapshot {
  ls_active_reservations : Z;
  ls_released_reservations : Z;
  ls_expired_reservations : Z;
  ls_consumed_reservations : Z;
  ls_total_reserved_cost_tick : Z;
  ls_total_reserved_exposure_tick : Z;
  ls_reserved_asset_lots : gmap string Z;
  ls_reserved_market_exposure_tick : gmap string Z;
  ls_numeric_reserved_asset_lots : list (Z * Z);
  ls_numeric_reserved_market_exposure : list (Z * Z)
}.

(** [engine/risk/ledger/ReservationBook.h:36-68] ReservationBook; a key is the pair (idempotency_hash, bundle_id). *)
Record ReservationBook := mkReservationBook {
  rb_next_reservation_id : Z;
  rb_reservations : list RiskReservation;
  rb_active_reservation_keys : gmap (Z * Z) Z;
  rb_interned_strings : gset string;
  rb_ledger : RiskLedger
}.
Definition book0 : ReservationBook := mkReservationBook 1 [] ∅ ∅ ledger0.

(** ** Ledgers *)

(** [engine/risk/ledger/InventoryLedger.cpp:6-12] reserve, and the same loop of ExposureLedger: [map\[id\] += amount]. *)
Definition amounts_reserve (m : gmap string Z) (entries : list Reserved) : gmap string Z :=
  foldl (λ m e,
    match rv_id e with
    | None => m
    | Some id => <[id := default 0 (m !! id) +i rv_amount e]> m
    end) m entries.

(** [engine/risk/ledger/InventoryLedger.cpp:16-29] release, and the same loop of ExposureLedger. *)
Definition amounts_release (m : gmap string Z) (entries : list Reserved) : gmap string Z :=
  foldl (λ m e,
    match rv_id e with
    | None => m
    | Some id =>
        match m !! id with
        | None => m
        | Some current =>
            let second := current -i rv_amount e in
            if second =? 0 then delete id m else <[id := second]> m
        end
    end) m entries.

(** [engine/risk/ledger/ExposureLedger.cpp:5-17] ExposureLedger::reserve. *)
Definition exposure_reserve (l : ExposureLedger) (r : RiskReservation) : ExposureLedger :=
  mkExposureLedger
    (el_total_reserved_cost_tick l +i rs_reserved_cost_tick r)
    (el_total_reserved_exposure_tick l +i rs_reserved_exposure_tick r)
    (amounts_reserve (el_market_reserved_exposure_tick l) (rs_markets r)).

(** [engine/risk/ledger/ExposureLedger.cpp:19-37] ExposureLedger::release. *)
Definition exposure_release (l : ExposureLedger) (r : RiskReservation) : ExposureLedger :=
  mkExposureLedger
    (el_total_reserved_cost_tick l -i rs_reserved_cost_tick r)
    (el_total_reserved_exposure_tick l -i rs_reserved_exposure_tick r)
    (amounts_release (el_market_reserved_exposure_tick l) (rs_markets r)).

(** [engine/risk/ledger/RiskLedger.cpp:5-8] RiskLedger::reserve. *)
Definition ledger_reserve (l : RiskLedger) (r : RiskReservation) : RiskLedger :=
  mkRiskLedger (exposure_reserve (lg_exposure l) r) (amounts_reserve (lg_inventory l) (rs_assets r)).

(** [engine/risk/ledger/RiskLedger.cpp:10-13] RiskLedger::release. *)
Definition ledger_release (l : RiskLedger) (r : RiskReservation) : RiskLedger :=
  mkRiskLedger (exposure_release (lg_exposure l) r) (amounts_release (lg_inventory l) (rs_assets r)).

(** [engine/risk/ledger/RiskLedger.cpp:15-28] RiskLedger::snapshot. *)
Definition ledger_snapshot (l : RiskLedger) : RiskLedgerSnapshot :=
  mkRiskLedgerSnapshot 0 0 0 0
    (el_total_reserved_cost_tick (lg_exposure l))
    (el_total_reserved_exposure_tick (lg_exposure l))
    (lg_inventory l) (el_market_reserved_exposure_tick (lg_exposure l)) [] [].

(** ** Reservations *)

(** [engine/risk/ledger/ReservationBook.cpp:12-21] reject. *)
Definition reservation_reject (reason : RiskRejectReason) (detail : string) : ReservationResult :=
  mkReservationResult false reason detail 0.

(** [engine/risk/ledger/ReservationBook.cpp:23-29] accept. *)
Definition reservation_accept (reservation_id : Z) : ReservationResult :=
  mkReservationResult true RrNone "" reservation_id.

(** [engine/risk/ledger/ReservationBook.cpp:31-33] is_active. *)
Definition is_active (r : RiskReservation) : bool := bool_decide (rs_status r = RsActive).

(** [engine/risk/ledger/ReservationBook.cpp:51-60] reservation_key_for. *)
Definition reservation_key_for (intent : OpportunityIntent) : Z * Z :=
  (if negb (oi_idempotency_hash intent =? 0) then oi_idempotency_hash intent
   else hash_string (oi_idempotency_key intent), oi_bundle_id intent).

(** [engine/risk/ledger/ReservationBook.cpp:62-74] find_reservation: the index and the element. *)
Definition find_reservation (reservations : list RiskReservation) (reservation_id : Z)
    : option (nat * RiskReservation) :=
  if (reservation_id =? 0) || (Z.of_nat (length reservations) <? reservation_id) then None
  else
    let i := Z.to_nat (reservation_id - 1) in
    match reservations !! i with
    | Some r => if rs_reservation_id r =? reservation_id then Some (i, r) else None
    | None => None
    end.

(** The loop of [add_asset_lot] over the entries in use: the updated entries,
    or [None] when no entry has this id. *)
Fixpoint merge_reserved (id : string) (amount : Z) (entries : list Reserved) : option (list Reserved) :=
  match entries with
  | [] => None
  | e :: rest =>
      if bool_decide (rv_id e = Some id)
      then Some (mkReserved (rv_index e) (rv_id e) (rv_amount e +i amount) :: rest)
      else option_map (cons e) (merge_reserved id amount rest)
  end.

(** [engine/risk/ledger/ReservationBook.cpp:76-102] add_asset_lot; [add_market_exposure] is the same code. *)
Definition add_reserved (entries : list Reserved) (id : option string) (amount : Z) : list Reserved :=
  match id with
  | None => entries
  | Some id =>
      if String.eqb id "" || (amount =? 0) then entries
      else
        match merge_reserved id amount entries with
        | Some entries => entries
        | None =>
            if (kMaxReservedLegs <=? length entries)%nat then entries
            else entries ++ [mkReserved (compact_index id) (Some id) amount]
        end
  end.

(** [engine/risk/ledger/ReservationBook.cpp:104-130] add_market_exposure. *)
Definition add_market_exposure := add_reserved.
(** [engine/risk/ledger/ReservationBook.cpp:76-102] add_asset_lot. *)
Definition add_asset_lot := add_reserved.

(** [engine/risk/ledger/ReservationBook.cpp:140-146] intern_string: the pointer and the set. *)
Definition intern_string (interned : gset string) (value : string) : option string * gset string :=
  if String.eqb value "" then (None, interned) else (Some value, {[value]} ∪ interned).

(** [engine/risk/ledger/ReservationBook.cpp:334-342] build_reservation, one leg. *)
Definition reserve_leg (acc : RiskReservation * gset string) (leg : IntentLeg)
    : RiskReservation * gset string :=
  let '(reservation, interned) := acc in
  let '(asset_id, interned) := intern_string interned (il_asset_id leg) in
  let '(market_id, interned) := intern_string interned (il_market_id leg) in
  (reservation
     <| rs_assets := add_asset_lot (rs_assets reservation) asset_id (il_quantity_lots leg) |>
     <| rs_markets := add_market_exposure (rs_markets reservation) market_id
                        (Z.max (il_estimated_cost_tick leg) 0) |>, interned).

(** [engine/risk/ledger/ReservationBook.cpp:305-344] build_reservation. *)
Definition build_reservation (interned : gset string) (intent : OpportunityIntent) (now_ns : Z)
    (track_ledger_detail : bool) : RiskReservation * gset string :=
  let reservation := reservation0
    <| rs_intent_id := oi_intent_id intent |>
    <| rs_bundle_id := oi_bundle_id intent |>
    <| rs_reserved_cost_tick := oi_estimated_cost_tick intent |>
    <| rs_reserved_exposure_tick := Z.max (oi_estimated_cost_tick intent) 0 |>
    <| rs_created_ts_ns := now_ns |>
    <| rs_expires_at_ns := oi_expires_at_ns intent |>
    <| rs_idempotency_key := oi_idempotency_key intent |>
    <| rs_idempotency_hash := (reservation_key_for intent).1 |> in
  if negb track_ledger_detail then (reservation, interned)
  else foldl reserve_leg (reservation, interned) (intent_legs intent).

(** [engine/risk/ledger/ReservationBook.cpp:148-199] try_reserve. *)
Definition try_reserve (book : ReservationBook) (intent : OpportunityIntent)
    (decision : RiskDecision) (now_ns : Z) (track_ledger_detail : bool)
    : ReservationBook * ReservationResult :=
  if negb (decision_approved decision) then
    (book, reservation_reject RrNotEvaluated "reservation requires approved risk decision")
  else if (oi_idempotency_hash intent =? 0) && String.eqb (oi_idempotency_key intent) "" then
    (book, reservation_reject RrMissingEvidence "reservation requires idempotency evidence")
  else
    let key := reservation_key_for intent in
    if key.1 =? 0 then
      (book, reservation_reject RrMissingEvidence "reservation requires idempotency_hash")
    else if oi_expires_at_ns intent <=? now_ns then
      (book, reservation_reject RrExpiredIntent "intent expired")
    else
      let reservation_id := rb_next_reservation_id book in
      match rb_active_reservation_keys book !! key with
      | Some _ =>
          (book, reservation_reject RrDuplicateReservation
                   "active reservation already exists for idempotency_hash")
      | None =>
          let '(reservation, interned) :=
            build_reservation (rb_interned_strings book) intent now_ns track_ledger_detail in
          let reservation := reservation
            <| rs_idempotency_hash := key.1 |>
            <| rs_reservation_id := reservation_id |> in
          let ledger := ledger_reserve (rb_ledger book) reservation in
          let reservation := reservation <| rs_ledger_reserved := true |> in
          (mkReservationBook (wrap_u64 (reservation_id + 1))
             (rb_reservations book ++ [reservation])
             (<[key := reservation_id]> (rb_active_reservation_keys book))
             interned ledger,
           reservation_accept reservation_id)
      end.

(** [engine/risk/ledger/ReservationBook.cpp:207-217] release, and the same body of expire_old: retire an active
    reservation with a final status. *)
Definition retire (status : ReservationStatus) (r : RiskReservation)
    (ledger : RiskLedger) (keys : gmap (Z * Z) Z)
    : RiskReservation * RiskLedger * gmap (Z * Z) Z :=
  let '(r, ledger) :=
    if rs_ledger_reserved r
    then (r <| rs_ledger_reserved := false |>, ledger_release ledger r)
    else (r, ledger) in
  (r <| rs_status := status |>, ledger, delete (rs_idempotency_hash r, rs_bundle_id r) keys).

(** [engine/risk/ledger/ReservationBook.cpp:201-218] release. *)
Definition release (book : ReservationBook) (reservation_id : Z) : ReservationBook :=
  match find_reservation (rb_reservations book) reservation_id with
  | None => book
  | Some (i, r) =>
      if negb (is_active r) then book
      else
        let '(r, ledger, keys) :=
          retire RsReleased r (rb_ledger book) (rb_active_reservation_keys book) in
        mkReservationBook (rb_next_reservation_id book) (<[i := r]> (rb_reservations book))
          keys (rb_interned_strings book) ledger
  end.

(** [engine/risk/ledger/ReservationBook.cpp:221-237] expire_old, the loop. *)
Fixpoint expire_loop (now_ns : Z) (rs : list RiskReservation) (ledger : RiskLedger)
    (keys : gmap (Z * Z) Z) : list RiskReservation * RiskLedger * gmap (Z * Z) Z :=
  match rs with
  | [] => ([], ledger, keys)
  | r :: rest =>
      if negb (is_active r) || (now_ns <? rs_expires_at_ns r) then
        let '(rest, ledger, keys) := expire_loop now_ns rest ledger keys in
        (r :: rest, ledger, keys)
      else
        let '(r, ledger, keys) := retire RsExpired r ledger keys in
        let '(rest, ledger, keys) := expire_loop now_ns rest ledger keys in
        (r :: rest, ledger, keys)
  end.

(** [engine/risk/ledger/ReservationBook.cpp:220-238] expire_old. *)
Definition expire_old (book : ReservationBook) (now_ns : Z) : ReservationBook :=
  let '(rs, ledger, keys) :=
    expire_loop now_ns (rb_reservations book) (rb_ledger book) (rb_active_reservation_keys book) in
  mkReservationBook (rb_next_reservation_id book) rs keys (rb_interned_strings book) ledger.

(** The search of [snapshot] for a numeric index: [None] when there is none. *)
Fixpoint numeric_merge (index amount : Z) (l : list (Z * Z)) : option (list (Z * Z)) :=
  match l with
  | [] => None
  | (i, a) :: rest =>
      if i =? index then Some ((i, a +i amount) :: rest)
      else option_map (cons (i, a)) (numeric_merge index amount rest)
  end.

(** [engine/risk/ledger/ReservationBook.cpp:263-280] snapshot: merge the entries into a numeric array of 16. *)
Definition numeric_add (l : list (Z * Z)) (entries : list Reserved) : list (Z * Z) :=
  foldl (λ l e,
    match numeric_merge (rv_index e) (rv_amount e) l with
    | Some l => l
    | None => if (length l <? kMaxReservedLegs)%nat then l ++ [(rv_index e, rv_amount e)] else l
    end) l entries.

(** [engine/risk/ledger/ReservationBook.cpp:243-300] snapshot, one reservation. *)
Definition snapshot_reservation (out : RiskLedgerSnapshot) (r : RiskReservation) : RiskLedgerSnapshot :=
  let out :=
    match rs_status r with
    | RsActive => out <| ls_active_reservations ::= λ n, wrap_u64 (n + 1) |>
    | RsReleased => out <| ls_released_reservations ::= λ n, wrap_u64 (n + 1) |>
    | RsExpired => out <| ls_expired_reservations ::= λ n, wrap_u64 (n + 1) |>
    | RsConsumed => out <| ls_consumed_reservations ::= λ n, wrap_u64 (n + 1) |>
    end in
  if negb (is_active r) then out
  else
    out <| ls_numeric_reserved_asset_lots ::= λ l, numeric_add l (rs_assets r) |>
        <| ls_numeric_reserved_market_exposure ::= λ l, numeric_add l (rs_markets r) |>.

(** [engine/risk/ledger/ReservationBook.cpp:240-303] snapshot. *)
Definition book_snapshot (book : ReservationBook) : RiskLedgerSnapshot :=
  foldl snapshot_reservation (ledger_snapshot (rb_ledger book)) (rb_reservations book).

(** ** Well-formed books *)

Definition reservation_key (r : RiskReservation) : Z * Z := (rs_idempotency_hash r, rs_bundle_id r).

(** Exact sum of a measure over the active reservations. *)
Definition active_sum (f : RiskReservation → Z) (rs : list RiskReservation) : Z :=
  sum_list_Z (λ r, if is_active r then f r else 0) rs.

(** What holds between the vector, the ledger totals and the key index. *)
Record wf (rs : list RiskReservation) (l : RiskLedger) (keys : gmap (Z * Z) Z) : Prop := {
  wf_ids : ∀ i r, rs !! i = Some r → rs_reservation_id r = Z.of_nat i + 1;
  wf_flag : ∀ r, r ∈ rs → rs_ledger_reserved r = is_active r;
  wf_keys : ∀ k id, keys !! k = Some id ↔
    ∃ i r, rs !! i = Some r ∧ id = Z.of_nat i + 1 ∧ is_active r = true ∧ reservation_key r = k;
  wf_cost : el_total_reserved_cost_tick (lg_exposure l) = wrap_i64 (active_sum rs_reserved_cost_tick rs);
  wf_exposure : el_total_reserved_exposure_tick (lg_exposure l) =
                wrap_i64 (active_sum rs_reserved_exposure_tick rs)
}.

Definition book_wf (b : ReservationBook) : Prop :=
  wf (rb_reservations b) (rb_ledger b) (rb_active_reservation_keys b) ∧
  rb_next_reservation_id b = wrap_u64 (Z.of_nat (length (rb_reservations b)) + 1).

(** Lots of one asset (or exposure of one market) in a list of entries. *)
Definition entry_sum (id : string) (entries : list Reserved) : Z :=
  sum_list_Z (λ e, if bool_decide (rv_id e = Some id) then rv_amount e else 0) entries.
Definition asset_lots (id : string) (r : RiskReservation) : Z := entry_sum id (rs_assets r).
Definition market_exposure (id : string) (r : RiskReservation) : Z := entry_sum id (rs_markets r).

(** The maps of the ledger are exact while amounts are non-negative and sums fit. *)
Record exact_maps (rs : list RiskReservation) (l : RiskLedger) : Prop := {
  em_assets : ∀ id, default 0 (lg_inventory l !! id) = active_sum (asset_lots id) rs;
  em_markets : ∀ id, default 0 (el_market_reserved_exposure_tick (lg_exposure l) !! id)
                     = active_sum (market_exposure id) rs;
  em_nonneg : ∀ r e, r ∈ rs → e ∈ rs_assets r ++ rs_markets r → 0 <= rv_amount e;
  em_asset_bound : ∀ id, active_sum (asset_lots id) rs <= i64_max;
  em_market_bound : ∀ id, active_sum (market_exposure id) rs <= i64_max
}.

Lemma active_sum_app f rs1 rs2 : active_sum f (rs1 ++ rs2) = active_sum f rs1 + active_sum f rs2.
Proof. apply sum_list_Z_app. Qed.

Lemma active_sum_insert f rs i r r' :
  rs !! i = Some r →
  active_sum f (<[i := r']> rs) =
  active_sum f rs - (if is_active r then f r else 0) + (if is_active r' then f r' else 0).
Proof. intros H. unfold active_sum. by rewrite (sum_list_Z_insert _ _ _ _ r' H). Qed.

Lemma entry_sum_nonneg id es : (∀ e, e ∈ es → 0 <= rv_amount e) → 0 <= entry_sum id es.
Proof. intros H. apply sum_list_Z_nonneg. intros e He. specialize (H e He). case_bool_decide; lia. Qed.

(** ** The loops over entries *)

Lemma amounts_reserve_lookup id es m :
  (∀ e, e ∈ es → 0 <= rv_amount e) → 0 <= default 0 (m !! id) →
  default 0 (m !! id) + entry_sum id es <= i64_max →
  default 0 (amounts_reserve m es !! id) = default 0 (m !! id) + entry_sum id es.
Proof.
  revert m; induction es as [|e es IH]; intros m Hpos Hm Hmax; [cbn; lia|].
  assert (0 <= entry_sum id es) by (apply entry_sum_nonneg; set_solver).
  pose proof (Hpos e ltac:(set_solver)).
  unfold entry_sum in *; cbn [sum_list_Z] in *. fold (entry_sum id es) in *.
  cbn [amounts_reserve foldl]. fold (amounts_reserve m es).
  destruct (rv_id e) as [k|] eqn:Ek.
  2:{ rewrite bool_decide_false in Hmax |- * by done. unfold entry_sum in *.
      rewrite <- IH by (set_solver || lia). f_equal; lia. }
  change (foldl _ ?m0 es) with (amounts_reserve m0 es).
  destruct (decide (k = id)) as [->|Hk].
  - rewrite bool_decide_true in Hmax |- * by done.
    rewrite IH; rewrite ?lookup_insert_eq; cbn; rewrite ?wrap_i64_id by rlia;
      (set_solver || lia).
  - rewrite bool_decide_false in Hmax |- * by congruence.
    rewrite IH; rewrite ?lookup_insert_ne by done; (set_solver || lia).
Qed.

Lemma amounts_release_lookup id es m :
  (∀ e, e ∈ es → 0 <= rv_amount e) →
  entry_sum id es <= default 0 (m !! id) <= i64_max →
  default 0 (amounts_release m es !! id) = default 0 (m !! id) - entry_sum id es.
Proof.
  revert m; induction es as [|e es IH]; intros m Hpos Hm; [cbn; lia|].
  assert (0 <= entry_sum id es) by (apply entry_sum_nonneg; set_solver).
  pose proof (Hpos e ltac:(set_solver)).
  unfold entry_sum in *; cbn [sum_list_Z] in *. fold (entry_sum id es) in *.
  cbn [amounts_release foldl].
  change (foldl _ ?m0 es) with (amounts_release m0 es).
  destruct (decide (rv_id e = Some id)) as [Ek|Ek].
  - rewrite Ek, bool_decide_true in * by done. destruct (m !! id) as [c|] eqn:Em; cbn in Hm.
    + rewrite wrap_i64_id by rlia. destruct (Z.eqb_spec (c - rv_amount e) 0);
        rewrite IH; rewrite ?lookup_delete_eq, ?lookup_insert_eq; cbn; (set_solver || lia).
    + rewrite IH, Em; [cbn; lia | set_solver | rewrite Em; cbn; lia].
  - rewrite bool_decide_false in Hm |- * by done.
    destruct (rv_id e) as [k|]; [|rewrite IH; (set_solver || lia)].
    assert (k ≠ id) by congruence.
    destruct (m !! k) as [c|]; [|rewrite IH; (set_solver || lia)].
    destruct (Z.eqb_spec (c -i rv_amount e) 0); rewrite IH;
      rewrite ?lookup_delete_ne, ?lookup_insert_ne by done; (set_solver || lia).
Qed.

(** ** Retiring a reservation *)

Lemma retire_eq status r l keys :
  rs_ledger_reserved r = true →
  retire status r l keys =
  (r <| rs_ledger_reserved := false |> <| rs_status := status |>,
   ledger_release l r, delete (reservation_key r) keys).
Proof. intros H. unfold retire. rewrite H. done. Qed.

Lemma retired_inactive status r : status ≠ RsActive → is_active (r <| rs_status := status |>) = false.
Proof. intros H. unfold is_active; cbn. by rewrite bool_decide_false. Qed.

Lemma is_active_true r : is_active r = true ↔ rs_status r = RsActive.
Proof. unfold is_active. by rewrite bool_decide_eq_true. Qed.

(** Two active reservations never share a key. *)
Lemma wf_key_inj rs l keys i j r s :
  wf rs l keys → rs !! i = Some r → rs !! j = Some s → is_active r = true → is_active s = true →
  reservation_key r = reservation_key s → i = j.
Proof.
  intros Hwf Hi Hj Hr Hs Hk.
  assert (keys !! reservation_key r = Some (Z.of_nat i + 1)) as H1 by (apply (wf_keys _ _ _ Hwf); eauto 8).
  assert (keys !! reservation_key r = Some (Z.of_nat j + 1)) as H2.
  { apply (wf_keys _ _ _ Hwf). exists j, s. eauto. }
  rewrite H1 in H2. simplify_eq. lia.
Qed.

Lemma retire_wf status rs l keys i r :
  wf rs l keys → rs !! i = Some r → is_active r = true → status ≠ RsActive →
  let '(r', l', keys') := retire status r l keys in
  wf (<[i := r']> rs) l' keys' ∧ is_active r' = false ∧ rs_expires_at_ns r' = rs_expires_at_ns r.
Proof.
  intros Hwf Hi Ha Hst.
  assert (Hfl : rs_ledger_reserved r = true).
  { rewrite (wf_flag _ _ _ Hwf); [done|]. by eapply list_elem_of_lookup_2. }
  rewrite (retire_eq _ _ _ _ Hfl). pose proof (retired_inactive status (r <| rs_ledger_reserved := false |>) Hst) as Hr'.
  split; [|done]. set (r' := r <| rs_ledger_reserved := false |> <| rs_status := status |>) in *.
  assert (Hlt : (i < length rs)%nat) by (by eapply lookup_lt_Some).
  constructor.
  - intros j s Hj. destruct (decide (i = j)) as [<-|Hne].
    + rewrite list_lookup_insert_eq in Hj by done. simplify_eq. cbn. by apply (wf_ids _ _ _ Hwf).
    + rewrite list_lookup_insert_ne in Hj by done. by apply (wf_ids _ _ _ Hwf).
  - intros s Hs. apply list_elem_of_lookup in Hs as (j & Hj). destruct (decide (i = j)) as [<-|Hne].
    + rewrite list_lookup_insert_eq in Hj by done. simplify_eq. by rewrite Hr'.
    + rewrite list_lookup_insert_ne in Hj by done. apply (wf_flag _ _ _ Hwf). by eapply list_elem_of_lookup_2.
  - intros k n. rewrite lookup_delete_Some, (wf_keys _ _ _ Hwf). split.
    + intros (Hk & j & s & Hj & -> & Hs & <-). exists j, s.
      rewrite list_lookup_insert_ne; [done|]. intros ->. congruence.
    + intros (j & s & Hj & -> & Hs & <-). destruct (decide (i = j)) as [<-|Hne].
      { rewrite list_lookup_insert_eq in Hj by done. simplify_eq. congruence. }
      rewrite list_lookup_insert_ne in Hj by done. split; [|eauto 8].
      intros Hk. apply Hne. by eapply wf_key_inj.
  - cbn [lg_exposure ledger_release exposure_release el_total_reserved_cost_tick].
    rewrite (wf_cost _ _ _ Hwf), wrap_i64_sub_l, (active_sum_insert _ _ _ _ _ Hi), Ha, Hr'.
    f_equal; lia.
  - cbn [lg_exposure ledger_release exposure_release el_total_reserved_exposure_tick].
    rewrite (wf_exposure _ _ _ Hwf), wrap_i64_sub_l, (active_sum_insert _ _ _ _ _ Hi), Ha, Hr'.
    f_equal; lia.
Qed.

Lemma active_sum_elem_le f rs r :
  (∀ s, s ∈ rs → 0 <= f s) → r ∈ rs → is_active r = true → f r <= active_sum f rs.
Proof.
  intros Hpos Hr Ha. unfold active_sum.
  pose proof (sum_list_Z_elem_le (λ s, if is_active s then f s else 0) rs r) as H.
  cbn in H. rewrite Ha in H. apply H; [|done].
  intros s Hs. step_if; [auto|lia].
Qed.

Lemma asset_lots_nonneg rs l r id : exact_maps rs l → r ∈ rs → 0 <= asset_lots id r.
Proof. intros Hm Hr. apply entry_sum_nonneg. intros e He. apply (em_nonneg _ _ Hm r); set_solver. Qed.

Lemma market_exposure_nonneg rs l r id : exact_maps rs l → r ∈ rs → 0 <= market_exposure id r.
Proof. intros Hm Hr. apply entry_sum_nonneg. intros e He. apply (em_nonneg _ _ Hm r); set_solver. Qed.

Lemma retire_exact_maps status rs l keys i r :
  wf rs l keys → exact_maps rs l → rs !! i = Some r → is_active r = true → status ≠ RsActive →
  let '(r', l', keys') := retire status r l keys in exact_maps (<[i := r']> rs) l'.
Proof.
  intros Hwf Hm Hi Ha Hst. assert (Hin : r ∈ rs) by (by eapply list_elem_of_lookup_2).
  assert (Hfl : rs_ledger_reserved r = true) by (by rewrite (wf_flag _ _ _ Hwf)).
  rewrite (retire_eq _ _ _ _ Hfl). pose proof (retired_inactive status (r <| rs_ledger_reserved := false |>) Hst) as Hr'.
  assert (HA : ∀ id, asset_lots id r <= active_sum (asset_lots id) rs <= i64_max).
  { intros id. split; [|apply Hm]. apply active_sum_elem_le; eauto using asset_lots_nonneg. }
  assert (HM : ∀ id, market_exposure id r <= active_sum (market_exposure id) rs <= i64_max).
  { intros id. split; [|apply Hm]. apply active_sum_elem_le; eauto using market_exposure_nonneg. }
  constructor.
  - intros id. specialize (HA id). cbn [lg_inventory ledger_release].
    rewrite (active_sum_insert _ _ _ _ _ Hi), Ha, Hr', amounts_release_lookup; rewrite ?(em_assets _ _ Hm).
    + unfold asset_lots. lia.
    + intros e He. apply (em_nonneg _ _ Hm r); set_solver.
    + done.
  - intros id. specialize (HM id). cbn [lg_exposure ledger_release exposure_release el_market_reserved_exposure_tick].
    rewrite (active_sum_insert _ _ _ _ _ Hi), Ha, Hr', amounts_release_lookup; rewrite ?(em_markets _ _ Hm).
    + unfold market_exposure. lia.
    + intros e He. apply (em_nonneg _ _ Hm r); set_solver.
    + done.
  - intros s e Hs He. apply list_elem_of_lookup in Hs as (j & Hj).
    destruct (decide (i = j)) as [<-|Hne].
    + rewrite list_lookup_insert_eq in Hj by (by eapply lookup_lt_Some). simplify_eq.
      by apply (em_nonneg _ _ Hm r).
    + rewrite list_lookup_insert_ne in Hj by done. apply (em_nonneg _ _ Hm s); [|done].
      by eapply list_elem_of_lookup_2.
  - intros id. rewrite (active_sum_insert _ _ _ _ _ Hi), Ha, Hr'.
    pose proof (asset_lots_nonneg _ _ _ id Hm Hin). specialize (HA id). lia.
  - intros id. rewrite (active_sum_insert _ _ _ _ _ Hi), Ha, Hr'.
    pose proof (market_exposure_nonneg _ _ _ id Hm Hin). specialize (HM id). lia.
Qed.

(** The loop of [expire_old]: it retires exactly the overdue active
    reservations of the suffix and keeps both invariants. *)
Definition overdue (now_ns : Z) (r : RiskReservation) : bool :=
  is_active r && (rs_expires_at_ns r <=? now_ns).

Lemma expire_loop_inv now rs pre l keys :
  wf (pre ++ rs) l keys →
  let '(rs', l', keys') := expire_loop now rs l keys in
  wf (pre ++ rs') l' keys' ∧
  (exact_maps (pre ++ rs) l → exact_maps (pre ++ rs') l') ∧
  rs' = (λ r, if overdue now r then r <| rs_ledger_reserved := false |> <| rs_status := RsExpired |> else r) <$> rs.
Proof.
  revert pre l keys; induction rs as [|r rs IH]; intros pre l keys Hwf; [done|].
  assert (Hskip : negb (is_active r) || (now <? rs_expires_at_ns r) = negb (overdue now r)).
  { unfold overdue. destruct (is_active r); cbn; [|done].
    destruct (Z.ltb_spec now (rs_expires_at_ns r)), (Z.leb_spec (rs_expires_at_ns r) now); try done; lia. }
  cbn [expire_loop]. rewrite Hskip. destruct (overdue now r) eqn:Hov; cbn [negb].
  - apply andb_prop in Hov as Hov'. destruct Hov' as [Ha _].
    assert (Hi : (pre ++ r :: rs) !! length pre = Some r) by (by rewrite list_lookup_middle).
    pose proof (retire_wf RsExpired _ l keys (length pre) r Hwf Hi Ha ltac:(done)) as Hw.
    pose proof (λ H, retire_exact_maps RsExpired _ l keys (length pre) r Hwf H Hi Ha ltac:(done)) as Hm.
    assert (Hfl : rs_ledger_reserved r = true) by (rewrite (wf_flag _ _ _ Hwf); set_solver).
    rewrite (retire_eq _ _ _ _ Hfl) in *. destruct Hw as [Hw _].
    set (r' := r <| rs_ledger_reserved := false |> <| rs_status := RsExpired |>) in *.
    rewrite !insert_app_r_alt, Nat.sub_diag in * by done. cbn [insert list_insert] in *.
    rewrite cons_middle, (assoc_L (++)) in Hw. specialize (IH _ _ _ Hw).
    destruct (expire_loop now rs _ _) as [[rs' l'] keys'].
    rewrite <- !(assoc_L (++)), <- !cons_middle in IH. cbn [app] in IH.
    destruct IH as (? & HM & ->). split; [done|]. split; [eauto|]. cbn. by rewrite Hov.
  - rewrite cons_middle, (assoc_L (++)) in Hwf. specialize (IH _ _ _ Hwf).
    destruct (expire_loop now rs l keys) as [[rs' l'] keys'].
    rewrite <- !(assoc_L (++)) in IH. cbn [app] in IH.
    destruct IH as (? & HM & ->). split; [done|]. split; [done|]. cbn. by rewrite Hov.
Qed.

(** ** Building a reservation *)

Lemma reserve_legs_fields legs r interned :
  let '(r', _) := foldl reserve_leg (r, interned) legs in
  r' = r <| rs_assets := rs_assets r' |> <| rs_markets := rs_markets r' |>.
Proof.
  revert r interned; induction legs as [|leg legs IH]; intros r interned; cbn [foldl].
  { by destruct r. }
  unfold reserve_leg at 2. destruct (intern_string interned _) as [a i1], (intern_string i1 _) as [m i2].
  specialize (IH (r <| rs_assets := add_asset_lot (rs_assets r) a (il_quantity_lots leg) |>
     <| rs_markets := add_market_exposure (rs_markets r) m (Z.max (il_estimated_cost_tick leg) 0) |>) i2).
  destruct (foldl reserve_leg _ legs) as [r' i3]. rewrite IH at 1. by destruct r.
Qed.

(** The scalar fields of a reservation come from the intent alone. *)
Lemma build_reservation_fields interned intent now track :
  let '(r, _) := build_reservation interned intent now track in
  rs_bundle_id r = oi_bundle_id intent ∧ rs_status r = RsActive ∧
  rs_reserved_cost_tick r = oi_estimated_cost_tick intent ∧
  rs_reserved_exposure_tick r = Z.max (oi_estimated_cost_tick intent) 0 ∧
  rs_expires_at_ns r = oi_expires_at_ns intent.
Proof.
  unfold build_reservation. destruct track; cbn [negb]; [|done].
  match goal with |- context [foldl reserve_leg (?r, _) _] =>
    pose proof (reserve_legs_fields (intent_legs intent) r interned) as H end.
  destruct (foldl reserve_leg _ _) as [r i]. rewrite H. done.
Qed.

(** What an intent asks for, per asset and per market. *)
Definition intent_lots (id : string) (legs : list IntentLeg) : Z :=
  sum_list_Z (λ l, if bool_decide (il_asset_id l = id) then il_quantity_lots l else 0) legs.
Definition intent_exposure (id : string) (legs : list IntentLeg) : Z :=
  sum_list_Z (λ l, if bool_decide (il_market_id l = id) then Z.max (il_estimated_cost_tick l) 0 else 0) legs.

Lemma merge_reserved_spec id amount es :
  match merge_reserved id amount es with
  | Some es' =>
      ∃ e l1 l2, es = l1 ++ e :: l2 ∧ rv_id e = Some id ∧
        es' = l1 ++ mkReserved (rv_index e) (Some id) (rv_amount e +i amount) :: l2
  | None => ∀ e, e ∈ es → rv_id e ≠ Some id
  end.
Proof.
  induction es as [|e es IH]; cbn; [set_solver|].
  case_bool_decide as He.
  - exists e, [], es. rewrite He. done.
  - destruct (merge_reserved id amount es) as [es'|]; cbn; [|set_solver].
    destruct IH as (e' & l1 & l2 & -> & Hid & ->). exists e', (e :: l1), l2. done.
Qed.

Lemma entry_sum_app id es1 es2 : entry_sum id (es1 ++ es2) = entry_sum id es1 + entry_sum id es2.
Proof. apply sum_list_Z_app. Qed.
Lemma entry_sum_cons id e es :
  entry_sum id (e :: es) = (if bool_decide (rv_id e = Some id) then rv_amount e else 0) + entry_sum id es.
Proof. reflexivity. Qed.

(** One call of [add_asset_lot] / [add_market_exposure], away from overflow. *)
Lemma add_reserved_spec es id amount :
  (length es < kMaxReservedLegs)%nat → (∀ e, e ∈ es → 0 <= rv_amount e) → 0 <= amount →
  (∀ a, entry_sum a es + amount <= i64_max) →
  let es' := add_reserved es id amount in
  (length es' <= S (length es))%nat ∧ (∀ e, e ∈ es' → 0 <= rv_amount e) ∧
  (∀ a, entry_sum a es' = entry_sum a es +
     (if bool_decide (id = Some a) then if String.eqb a "" then 0 else amount else 0)).
Proof.
  intros Hlen Hpos Ham Hmax. unfold add_reserved. destruct id as [id|].
  2:{ split_and!; [lia|done|]. intros a. rewrite bool_decide_false by done. lia. }
  destruct (String.eqb_spec id "") as [->|Hne]; cbn [orb].
  { split_and!; [lia|done|]. intros a. case_bool_decide; simplify_eq/=; lia. }
  destruct (Z.eqb_spec amount 0) as [->|Hnz].
  { split_and!; [lia|done|]. intros a. repeat case_match; lia. }
  pose proof (merge_reserved_spec id amount es) as Hm.
  destruct (merge_reserved id amount es) as [es'|].
  - destruct Hm as (e & l1 & l2 & -> & Hid & ->).
    assert (Hin : 0 <= rv_amount e) by (apply Hpos; set_solver).
    assert (0 <= entry_sum id l1 ∧ 0 <= entry_sum id l2) as [].
    { split; apply entry_sum_nonneg; intros; apply Hpos; set_solver. }
    assert (Hw : rv_amount e +i amount = rv_amount e + amount).
    { apply wrap_i64_id. specialize (Hmax id).
      rewrite entry_sum_app, entry_sum_cons, bool_decide_true in Hmax by done. rlia. }
    rewrite Hw. split_and!.
    + rewrite !length_app; cbn; lia.
    + intros x [Hx|[->|Hx]%elem_of_cons]%elem_of_app; [apply Hpos; set_solver|cbn; lia|apply Hpos; set_solver].
    + intros a. rewrite !entry_sum_app, !entry_sum_cons, Hid; cbn [rv_id rv_amount].
      case_bool_decide; [|lia]. simplify_eq. destruct (String.eqb_spec a ""); [done|lia].
  - rewrite (proj2 (Nat.leb_gt _ _)) by lia. split_and!.
    + rewrite length_app; cbn; lia.
    + intros x [Hx| ->%list_elem_of_singleton]%elem_of_app; [auto|cbn; lia].
    + intros a. rewrite entry_sum_app, entry_sum_cons; cbn [rv_id rv_amount entry_sum sum_list_Z].
      case_bool_decide; [|lia]. simplify_eq. destruct (String.eqb_spec a ""); [done|lia].
Qed.

Lemma intern_string_id interned s : (intern_string interned s).1 = if String.eqb s "" then None else Some s.
Proof. unfold intern_string. by destruct (String.eqb s ""). Qed.

(** An intent whose amounts are non-negative and whose sums stay in range. *)
Record intent_fits (intent : OpportunityIntent) : Prop := {
  fits_legs : (length (intent_legs intent) <= kMaxReservedLegs)%nat;
  fits_nonneg : ∀ l, l ∈ intent_legs intent → 0 <= il_quantity_lots l;
  fits_lots : sum_list_Z il_quantity_lots (intent_legs intent) <= i64_max;
  fits_cost : sum_list_Z (λ l, Z.max (il_estimated_cost_tick l) 0) (intent_legs intent) <= i64_max
}.

Lemma intent_lots_cons id l legs :
  intent_lots id (l :: legs) = (if bool_decide (il_asset_id l = id) then il_quantity_lots l else 0) + intent_lots id legs.
Proof. reflexivity. Qed.
Lemma intent_exposure_cons id l legs :
  intent_exposure id (l :: legs) =
  (if bool_decide (il_market_id l = id) then Z.max (il_estimated_cost_tick l) 0 else 0) + intent_exposure id legs.
Proof. reflexivity. Qed.

(** The entries after all legs: exact sums per id (the empty id is skipped). *)
Lemma reserve_legs_sums legs r interned A M :
  (length (rs_assets r) + length legs <= kMaxReservedLegs)%nat →
  (length (rs_markets r) + length legs <= kMaxReservedLegs)%nat →
  (∀ e, e ∈ rs_assets r ++ rs_markets r → 0 <= rv_amount e) →
  (∀ l, l ∈ legs → 0 <= il_quantity_lots l) →
  (∀ a, entry_sum a (rs_assets r) <= A) → (∀ m, entry_sum m (rs_markets r) <= M) →
  A + sum_list_Z il_quantity_lots legs <= i64_max →
  M + sum_list_Z (λ l, Z.max (il_estimated_cost_tick l) 0) legs <= i64_max →
  let '(r', _) := foldl reserve_leg (r, interned) legs in
  (∀ e, e ∈ rs_assets r' ++ rs_markets r' → 0 <= rv_amount e) ∧
  (∀ a, entry_sum a (rs_assets r') =
        entry_sum a (rs_assets r) + (if String.eqb a "" then 0 else intent_lots a legs)) ∧
  (∀ m, entry_sum m (rs_markets r') =
        entry_sum m (rs_markets r) + (if String.eqb m "" then 0 else intent_exposure m legs)).
Proof.
  revert r interned A M; induction legs as [|leg legs IH]; intros r interned A M HlA HlM Hpos Hq HA HM HsA HsM.
  { cbn. split_and!; [done|..]; intros; unfold intent_lots, intent_exposure; cbn; case_match; lia. }
  cbn [foldl length sum_list_Z] in *. unfold reserve_leg at 2.
  pose proof (intern_string_id interned (il_asset_id leg)) as Ha.
  destruct (intern_string interned _) as [a i1]; cbn in Ha; subst a.
  pose proof (intern_string_id i1 (il_market_id leg)) as Hm'.
  destruct (intern_string i1 _) as [m i2]; cbn in Hm'; subst m.
  assert (Hq0 : 0 <= il_quantity_lots leg) by (apply Hq; set_solver).
  assert (0 <= sum_list_Z il_quantity_lots legs) by (apply sum_list_Z_nonneg; intros; apply Hq; set_solver).
  assert (0 <= sum_list_Z (λ l, Z.max (il_estimated_cost_tick l) 0) legs) by (apply sum_list_Z_nonneg; lia).
  destruct (add_reserved_spec (rs_assets r) (if String.eqb (il_asset_id leg) "" then None else Some (il_asset_id leg))
    (il_quantity_lots leg)) as (HA1 & HA2 & HA3);
    [lia | intros; apply Hpos; set_solver | exact Hq0 | intros a; specialize (HA a); lia |].
  destruct (add_reserved_spec (rs_markets r) (if String.eqb (il_market_id leg) "" then None else Some (il_market_id leg))
    (Z.max (il_estimated_cost_tick leg) 0)) as (HM1 & HM2 & HM3);
    [lia | intros; apply Hpos; set_solver | lia | intros a; specialize (HM a); lia |].
  set (r1 := r <| rs_assets := _ |> <| rs_markets := _ |>).
  assert (Ea : rs_assets r1 = add_reserved (rs_assets r)
    (if String.eqb (il_asset_id leg) "" then None else Some (il_asset_id leg)) (il_quantity_lots leg)) by done.
  assert (Em : rs_markets r1 = add_reserved (rs_markets r)
    (if String.eqb (il_market_id leg) "" then None else Some (il_market_id leg))
    (Z.max (il_estimated_cost_tick leg) 0)) by done.
  clearbody r1.
  specialize (IH r1 i2 (A + il_quantity_lots leg) (M + Z.max (il_estimated_cost_tick leg) 0)).
  destruct (foldl reserve_leg (r1, i2) legs) as [r' i3]. destruct IH as (Hp & Hsa & Hsm).
  - rewrite Ea. lia.
  - rewrite Em. lia.
  - rewrite Ea, Em. intros e [He|He]%elem_of_app; [by eapply HA2|by eapply HM2].
  - intros; apply Hq; set_solver.
  - intros a. rewrite Ea, HA3. specialize (HA a). repeat case_match; lia.
  - intros a. rewrite Em, HM3. specialize (HM a). repeat case_match; lia.
  - lia.
  - lia.
  - split; [done|]. split.
    + intros a. rewrite Hsa, Ea, HA3, intent_lots_cons. destruct (String.eqb_spec a "") as [->|].
      { case_bool_decide; lia. }
      destruct (String.eqb_spec (il_asset_id leg) "") as [->|]; repeat case_bool_decide; simplify_eq; lia.
    + intros a. rewrite Hsm, Em, HM3, intent_exposure_cons. destruct (String.eqb_spec a "") as [->|].
      { case_bool_decide; lia. }
      destruct (String.eqb_spec (il_market_id leg) "") as [->|]; repeat case_bool_decide; simplify_eq; lia.
Qed.

Lemma build_reservation_sums interned intent now :
  intent_fits intent →
  let '(r, _) := build_reservation interned intent now true in
  (∀ e, e ∈ rs_assets r ++ rs_markets r → 0 <= rv_amount e) ∧
  (∀ a, asset_lots a r = if String.eqb a "" then 0 else intent_lots a (intent_legs intent)) ∧
  (∀ m, market_exposure m r = if String.eqb m "" then 0 else intent_exposure m (intent_legs intent)).
Proof.
  intros [Hlen Hq Hl Hc]. unfold build_reservation; cbn [negb].
  match goal with |- context [foldl reserve_leg (?r, _) _] =>
    pose proof (reserve_legs_sums (intent_legs intent) r interned 0 0) as H end.
  destruct (foldl reserve_leg _ _) as [r i]. apply H; cbn; try lia; try done; set_solver.
Qed.

(** ** Accepting a reservation *)

(** The guards of [try_reserve], in order: the answer it gives. *)
Definition reserve_verdict (b : ReservationBook) (intent : OpportunityIntent) (d : RiskDecision) (now : Z)
    : ReservationResult :=
  if negb (decision_approved d) then
    reservation_reject RrNotEvaluated "reservation requires approved risk decision"
  else if (oi_idempotency_hash intent =? 0) && String.eqb (oi_idempotency_key intent) "" then
    reservation_reject RrMissingEvidence "reservation requires idempotency evidence"
  else if (reservation_key_for intent).1 =? 0 then
    reservation_reject RrMissingEvidence "reservation requires idempotency_hash"
  else if oi_expires_at_ns intent <=? now then reservation_reject RrExpiredIntent "intent expired"
  else if bool_decide (is_Some (rb_active_reservation_keys b !! reservation_key_for intent)) then
    reservation_reject RrDuplicateReservation "active reservation already exists for idempotency_hash"
  else reservation_accept (rb_next_reservation_id b).

(** The reservation an accepted call appends. *)
Definition reserved_for (b : ReservationBook) (intent : OpportunityIntent) (now : Z) (track : bool)
    : RiskReservation :=
  (build_reservation (rb_interned_strings b) intent now track).1
    <| rs_idempotency_hash := (reservation_key_for intent).1 |>
    <| rs_reservation_id := rb_next_reservation_id b |>
    <| rs_ledger_reserved := true |>.

Lemma try_reserve_cases b intent d now track :
  let '(b', res) := try_reserve b intent d now track in
  res = reserve_verdict b intent d now ∧
  if res_ok res
  then rb_active_reservation_keys b !! reservation_key_for intent = None ∧
       b' = mkReservationBook (wrap_u64 (rb_next_reservation_id b + 1))
         (rb_reservations b ++ [reserved_for b intent now track])
         (<[reservation_key_for intent := rb_next_reservation_id b]> (rb_active_reservation_keys b))
         (build_reservation (rb_interned_strings b) intent now track).2
         (ledger_reserve (rb_ledger b) (reserved_for b intent now track))
  else b' = b.
Proof.
  unfold try_reserve, reserve_verdict, reserved_for.
  do 4 (step_if; [done|]).
  destruct (rb_active_reservation_keys b !! reservation_key_for intent) as [x|] eqn:E.
  { rewrite bool_decide_true by done. done. }
  rewrite bool_decide_false by (by intros []).
  destruct (build_reservation _ _ _ _) as [r i]. done.
Qed.

Lemma reserved_for_fields b intent now track :
  let r := reserved_for b intent now track in
  reservation_key r = reservation_key_for intent ∧ is_active r = true ∧ rs_ledger_reserved r = true ∧
  rs_reservation_id r = rb_next_reservation_id b ∧
  rs_reserved_cost_tick r = oi_estimated_cost_tick intent ∧
  rs_reserved_exposure_tick r = Z.max (oi_estimated_cost_tick intent) 0 ∧
  rs_expires_at_ns r = oi_expires_at_ns intent.
Proof.
  unfold reserved_for. pose proof (build_reservation_fields (rb_interned_strings b) intent now track) as H.
  destruct (build_reservation _ _ _ _) as [r i]. destruct H as (Hb & Hs & ? & ? & ?).
  split_and!; try done; cbn.
  - unfold reservation_key_for. by apply (f_equal (pair _)).
  - by apply is_active_true.
Qed.

Lemma try_reserve_wf b intent d now track :
  book_wf b → Z.of_nat (length (rb_reservations b)) < u64_max - 1 →
  book_wf (try_reserve b intent d now track).1.
Proof.
  intros [Hwf Hnext] Hcap. pose proof (try_reserve_cases b intent d now track) as H.
  destruct (try_reserve b intent d now track) as [b' res]; cbn [fst].
  destruct H as [_ H]. destruct (res_ok res); [|by subst]. destruct H as [Hfree ->].
  pose proof (reserved_for_fields b intent now track) as (Hk & Ha & Hl & Hid & Hc & He & _).
  set (r := reserved_for b intent now track) in *. clearbody r.
  rewrite wrap_u64_id in Hnext by rlia.
  split; [|cbn [rb_next_reservation_id rb_reservations]; rewrite length_app, Hnext; cbn; f_equal; lia].
  cbn [rb_reservations rb_ledger rb_active_reservation_keys]. constructor.
  - intros i s Hi. apply lookup_app_Some in Hi as [Hi|[Hi Hs]]; [by apply (wf_ids _ _ _ Hwf)|].
    apply list_lookup_singleton_Some in Hs as [? <-]. rewrite Hid, Hnext. lia.
  - intros s [Hs| ->%list_elem_of_singleton]%elem_of_app; [by apply (wf_flag _ _ _ Hwf)|congruence].
  - intros k n. rewrite lookup_insert_Some, (wf_keys _ _ _ Hwf). split.
    + intros [[<- <-]|(Hne & i & s & Hi & ?)].
      * exists (length (rb_reservations b)), r. rewrite list_lookup_middle by done. split_and!; done || lia.
      * exists i, s. by rewrite lookup_app_l by (by eapply lookup_lt_Some).
    + intros (i & s & Hi & -> & Hs & <-).
      apply lookup_app_Some in Hi as [Hi|[Hi Hr]].
      * right. split; [|eauto 8]. intros Heq.
        assert (rb_active_reservation_keys b !! reservation_key s = Some (Z.of_nat i + 1)); [|congruence].
        apply (wf_keys _ _ _ Hwf). eauto 8.
      * apply list_lookup_singleton_Some in Hr as [? <-]. left. split; [done|lia].
  - cbn [lg_exposure ledger_reserve exposure_reserve el_total_reserved_cost_tick].
    rewrite (wf_cost _ _ _ Hwf), wrap_i64_add_l, active_sum_app. f_equal.
    unfold active_sum at 3; cbn [sum_list_Z]. rewrite Ha. lia.
  - cbn [lg_exposure ledger_reserve exposure_reserve el_total_reserved_exposure_tick].
    rewrite (wf_exposure _ _ _ Hwf), wrap_i64_add_l, active_sum_app. f_equal.
    unfold active_sum at 3; cbn [sum_list_Z]. rewrite Ha. lia.
Qed.

Lemma release_cases b id :
  book_wf b →
  (release b id = b ∧ ∀ r, r ∈ rb_reservations b → is_active r = true → rs_reservation_id r ≠ id) ∨
  ∃ i r, rb_reservations b !! i = Some r ∧ id = Z.of_nat i + 1 ∧ is_active r = true ∧
    let '(r', l', keys') := retire RsReleased r (rb_ledger b) (rb_active_reservation_keys b) in
    release b id = mkReservationBook (rb_next_reservation_id b) (<[i := r']> (rb_reservations b))
                     keys' (rb_interned_strings b) l'.
Proof.
  intros [Hwf _]. unfold release, find_reservation.
  assert (Hids : ∀ r, r ∈ rb_reservations b → rs_reservation_id r = id →
    1 <= id <= Z.of_nat (length (rb_reservations b)) ∧ rb_reservations b !! Z.to_nat (id - 1) = Some r).
  { intros r (i & Hi)%list_elem_of_lookup <-. pose proof (lookup_lt_Some _ _ _ Hi).
    rewrite (wf_ids _ _ _ Hwf _ _ Hi). split; [lia|]. by replace (Z.to_nat _) with i by lia. }
  destruct (_ || _) eqn:E.
  { left. split; [done|]. intros r Hr _ Hid. destruct (Hids r Hr Hid) as [[? ?] _].
    apply orb_true_iff in E as [E|E]; breflect; [apply Z.eqb_eq in E|apply Z.ltb_lt in E]; lia. }
  breflect. destruct (rb_reservations b !! Z.to_nat (id - 1)) as [r|] eqn:Hr.
  2:{ left. split; [done|]. intros r Hin _ Hid. by destruct (Hids r Hin Hid). }
  pose proof (wf_ids _ _ _ Hwf _ _ Hr) as Hid. apply lookup_lt_Some in Hr as Hlt.
  destruct (Z.ltb_spec (Z.of_nat (length (rb_reservations b))) id); [lia|].
  assert (1 <= id ∨ id < 0) as [|] by lia.
  2:{ replace (Z.to_nat (id - 1)) with 0%nat in * by lia.
      rewrite (proj2 (Z.eqb_neq _ _)) by lia. left. split; [done|].
      intros s Hin _ Hs. destruct (Hids s Hin Hs). lia. }
  rewrite (proj2 (Z.eqb_eq _ _)) by lia.
  destruct (is_active r) eqn:Ha; cbn [negb].
  - right. exists (Z.to_nat (id - 1)), r. split_and!; [done|lia|done|].
    by destruct (retire _ _ _ _) as [[r' l'] k'].
  - left. split; [done|]. intros s Hin Hact Hs. destruct (Hids s Hin Hs) as [_ ?]. congruence.
Qed.

Lemma release_wf b id : book_wf b → book_wf (release b id).
Proof.
  intros Hb. pose proof Hb as [Hwf Hnext].
  destruct (release_cases b id Hb) as [[-> _]|(i & r & Hi & _ & Ha & H)]; [done|].
  pose proof (retire_wf RsReleased _ _ _ i r Hwf Hi Ha ltac:(done)) as Hr.
  destruct (retire _ _ _ _) as [[r' l'] k']. rewrite H. destruct Hr as [Hr _].
  split; cbn; [done|]. by rewrite length_insert.
Qed.

Lemma expire_old_wf b now : book_wf b → book_wf (expire_old b now).
Proof.
  intros [Hwf Hnext]. unfold expire_old.
  pose proof (expire_loop_inv now (rb_reservations b) [] _ _ Hwf) as H.
  destruct (expire_loop _ _ _ _) as [[rs l] k]. destruct H as (Hw & _ & ->).
  split; cbn in *; [done|]. by rewrite length_fmap.
Qed.

(** ** Reachable books *)

(** One call on the book.  A reservation is only appended while the vector is
    shorter than [2^64 - 2], which no memory exceeds. *)
Inductive book_step (b : ReservationBook) : ReservationBook → Prop :=
| StepReserve intent d now track :
    Z.of_nat (length (rb_reservations b)) < u64_max - 1 →
    book_step b (try_reserve b intent d now track).1
| StepRelease id : book_step b (release b id)
| StepExpire now : book_step b (expire_old b now).

Definition book_reachable : ReservationBook → Prop := rtc book_step book0.

Lemma book0_wf : book_wf book0.
Proof.
  split; [|done]. constructor; try done.
  - intros r Hr. set_solver.
  - intros k id. split; [done|]. by intros (i & r & Hi & _).
Qed.

Lemma book_step_wf b b' : book_step b b' → book_wf b → book_wf b'.
Proof. destruct 1; auto using try_reserve_wf, release_wf, expire_old_wf. Qed.

Lemma book_wf_reachable b : book_reachable b → book_wf b.
Proof. intros H. eapply rtc_invariant; [apply book_step_wf|exact H|apply book0_wf]. Qed.

(** C5. The book invariant holds in every reachable state: ids are the vector
    positions, exactly the active reservations are counted in the ledger and
    indexed by their idempotency key (so no two active reservations share one),
    and the ledger totals are the sums over the active reservations, modulo
    the 64-bit width. *)
Theorem reservation_book_invariant b : book_reachable b → book_wf b.
Proof. apply book_wf_reachable. Qed.

Definition demo_leg (market asset : string) (lots cost : Z) : IntentLeg :=
  leg0 <| il_market_id := market |> <| il_asset_id := asset |>
       <| il_quantity_lots := lots |> <| il_estimated_cost_tick := cost |>.
Definition demo_intent : OpportunityIntent :=
  intent0 <| oi_intent_id := 7 |> <| oi_bundle_id := 3 |> <| oi_idempotency_hash := 99 |>
          <| oi_expires_at_ns := 1000 |> <| oi_estimated_cost_tick := 900 |>
          <| oi_leg_count := 2%nat |>
          <| oi_legs := std_array kMaxIntentLegs leg0
               [demo_leg "m1" "yes" 5 400; demo_leg "m2" "no" 5 500] |>.
Definition demo_book : ReservationBook :=
  (try_reserve book0 demo_intent (make_approved_decision 1 1) 10 true).1.

Lemma reservation_book_invariant_witness : book_wf (release demo_book 1).
Proof.
  apply reservation_book_invariant.
  apply (rtc_l _ _ demo_book); [apply StepReserve; vm_compute; reflexivity|].
  apply rtc_once, StepRelease.
Defined.

(** ** Refinement of the set of active reservations *)

Definition active (b : ReservationBook) : list RiskReservation :=
  filter (λ r, is_active r = true) (rb_reservations b).

Lemma active_elem b r : r ∈ active b ↔ is_active r = true ∧ r ∈ rb_reservations b.
Proof. unfold active. by rewrite list_elem_of_filter. Qed.

(** The key index answers "is there an active reservation with this key". *)
Lemma wf_key_some b k :
  book_wf b → is_Some (rb_active_reservation_keys b !! k) ↔ ∃ r, r ∈ active b ∧ reservation_key r = k.
Proof.
  intros [Hwf _]. split.
  - intros [n (i & r & Hi & -> & Ha & <-)%(wf_keys _ _ _ Hwf)].
    exists r. rewrite active_elem. split; [|done]. split; [done|]. by eapply list_elem_of_lookup_2.
  - intros (r & [Ha Hr]%active_elem & <-). apply list_elem_of_lookup in Hr as (i & Hi).
    exists (Z.of_nat i + 1). apply (wf_keys _ _ _ Hwf). eauto 8.
Qed.

(** [try_reserve] accepts exactly the approved, identified, unexpired
    intents whose key no active reservation holds; a refusal changes nothing,
    an acceptance adds one active reservation, with a fresh id, that carries
    the intent's key, cost, non-negative exposure and expiry. *)
Theorem try_reserve_spec b intent d now track :
  book_reachable b →
  let '(b', res) := try_reserve b intent d now track in
  (res_ok res = true ↔
     decision_approved d = true ∧ (reservation_key_for intent).1 ≠ 0 ∧
     (oi_idempotency_hash intent ≠ 0 ∨ oi_idempotency_key intent ≠ ""%string) ∧
     now < oi_expires_at_ns intent ∧
     ¬ ∃ r, r ∈ active b ∧ reservation_key r = reservation_key_for intent) ∧
  (res_ok res = false → b' = b) ∧
  (res_ok res = true → ∃ r,
     active b' = active b ++ [r] ∧
     reservation_key r = reservation_key_for intent ∧
     rs_reservation_id r = res_reservation_id res ∧
     (∀ s, s ∈ rb_reservations b → Z.of_nat (length (rb_reservations b)) < u64_max - 1 →
           rs_reservation_id s ≠ res_reservation_id res) ∧
     rs_reserved_cost_tick r = oi_estimated_cost_tick intent ∧
     rs_reserved_exposure_tick r = Z.max (oi_estimated_cost_tick intent) 0 ∧
     rs_expires_at_ns r = oi_expires_at_ns intent).
Proof.
  intros Hr%book_wf_reachable. pose proof (try_reserve_cases b intent d now track) as H.
  destruct (try_reserve b intent d now track) as [b' res]. destruct H as [-> H].
  rewrite <- (wf_key_some b _ Hr). split; [|split].
  - unfold reserve_verdict. destruct (decision_approved d); cbn [negb]; [|naive_solver].
    destruct (Z.eqb_spec (oi_idempotency_hash intent) 0), (String.eqb_spec (oi_idempotency_key intent) "");
      cbn [andb]; [naive_solver|..]; (destruct (Z.eqb_spec (reservation_key_for intent).1 0); [naive_solver|]);
      (destruct (Z.leb_spec (oi_expires_at_ns intent) now); [cbn; split; [done|lia]|]);
      case_bool_decide; cbn; naive_solver.
  - intros Hf. by rewrite Hf in H.
  - intros Ht. rewrite Ht in H. destruct H as [_ ->].
    exists (reserved_for b intent now track).
    pose proof (reserved_for_fields b intent now track) as (Hk & Ha & _ & Hid & Hc & He & Hx).
    assert (Hv : res_reservation_id (reserve_verdict b intent d now) = rb_next_reservation_id b).
    { revert Ht. unfold reserve_verdict. repeat (step_if; [done|]). done. }
    rewrite Hv. split_and!; try done.
    + unfold active; cbn. rewrite filter_app, filter_cons_True by done. done.
    + intros s (i & Hi)%list_elem_of_lookup Hcap. destruct Hr as [Hwf Hn].
      rewrite (wf_ids _ _ _ Hwf _ _ Hi), Hn, wrap_u64_id by rlia.
      apply lookup_lt_Some in Hi. lia.
Qed.

Lemma try_reserve_spec_witness :
  (try_reserve demo_book demo_intent (make_approved_decision 1 1) 10 true).1 = demo_book.
Proof.
  assert (Hr : book_reachable demo_book) by (apply rtc_once, StepReserve; vm_compute; reflexivity).
  assert (Hf : res_ok (try_reserve demo_book demo_intent (make_approved_decision 1 1) 10 true).2 = false)
    by (vm_compute; reflexivity).
  pose proof (try_reserve_spec demo_book demo_intent (make_approved_decision 1 1) 10 true Hr) as H.
  destruct (try_reserve demo_book demo_intent (make_approved_decision 1 1) 10 true) as [b' res].
  apply H, Hf.
Defined.

Lemma filter_fmap_retire (P : RiskReservation → bool) (g : RiskReservation → RiskReservation)
    (rs : list RiskReservation) :
  (∀ r, r ∈ rs → is_active (g r) = is_active r && P r ∧ (is_active (g r) = true → g r = r)) →
  filter (λ r, is_active r = true) (g <$> rs) = filter (λ r, P r = true) (filter (λ r, is_active r = true) rs).
Proof.
  induction rs as [|r rs IH]; intros Hg; [done|]. cbn [fmap list_fmap].
  destruct (Hg r ltac:(set_solver)) as [H1 H2]. specialize (IH ltac:(set_solver)).
  rewrite !filter_cons. rewrite H1. destruct (is_active r) eqn:Ea, (P r) eqn:Ep; cbn [andb] in *;
    rewrite ?decide_True, ?decide_False, ?filter_cons, ?Ep, ?decide_True, ?decide_False by done; try exact IH.
  - by rewrite H2, IH.
  - by rewrite filter_cons_False by (by rewrite Ep).
Qed.

Lemma filter_insert_id_aux (rs : list RiskReservation) i n r r' :
  rs !! i = Some r → is_active r' = false →
  (∀ j s, rs !! j = Some s → rs_reservation_id s = Z.of_nat (n + j) + 1) →
  filter (λ r, is_active r = true) (<[i := r']> rs) =
  filter (λ r, negb (rs_reservation_id r =? Z.of_nat (n + i) + 1) = true) (filter (λ r, is_active r = true) rs).
Proof.
  revert i n; induction rs as [|s rs IH]; intros i n Hi Hr' Hids; [done|].
  assert (Hs : rs_reservation_id s = Z.of_nat (n + 0) + 1) by (by apply Hids).
  assert (Hrest : ∀ j t, rs !! j = Some t → rs_reservation_id t = Z.of_nat (S n + j) + 1).
  { intros j t Hj. rewrite (Hids (S j) t Hj). lia. }
  destruct i as [|i]; cbn in Hi; simplify_eq.
  - cbn [insert list_insert]. rewrite filter_cons_False by (rewrite Hr'; done).
    assert (Hall : filter (λ r, negb (rs_reservation_id r =? Z.of_nat (n + 0) + 1) = true)
              (filter (λ r, is_active r = true) rs) = filter (λ r, is_active r = true) rs).
    { apply list_filter_all, Forall_forall. intros t [_ (j & Hj)%list_elem_of_lookup]%list_elem_of_filter.
      rewrite (Hrest _ _ Hj). apply negb_true_iff, Z.eqb_neq. lia. }
    rewrite (filter_cons _ r rs). case_decide; [|done].
    rewrite filter_cons_False; [done|]. rewrite Hs, Z.eqb_refl. done.
  - cbn [insert list_insert]. specialize (IH i (S n) Hi Hr' Hrest).
    replace (S n + i)%nat with (n + S i)%nat in IH by lia.
    rewrite !(filter_cons _ s). case_decide; [|done].
    rewrite filter_cons_True; [by f_equal|]. rewrite Hs. apply negb_true_iff, Z.eqb_neq. lia.
Qed.

Lemma filter_insert_id (rs : list RiskReservation) i r r' :
  rs !! i = Some r → is_active r' = false →
  (∀ j s, rs !! j = Some s → rs_reservation_id s = Z.of_nat j + 1) →
  filter (λ r, is_active r = true) (<[i := r']> rs) =
  filter (λ r, negb (rs_reservation_id r =? Z.of_nat i + 1) = true) (filter (λ r, is_active r = true) rs).
Proof. apply (filter_insert_id_aux rs i 0). Qed.

Lemma retire_active b now id :
  book_wf b →
  active (expire_old b now) = filter (λ r, (now <? rs_expires_at_ns r) = true) (active b) ∧
  active (release b id) = filter (λ r, negb (rs_reservation_id r =? id) = true) (active b).
Proof.
  intros Hb. split.
  - pose proof Hb as [Hwf _]. unfold expire_old, active.
    pose proof (expire_loop_inv now (rb_reservations b) [] _ _ Hwf) as H.
    destruct (expire_loop _ _ _ _) as [[rs l] k]. destruct H as (_ & _ & ->). cbn [rb_reservations].
    apply (filter_fmap_retire (λ r, now <? rs_expires_at_ns r)).
    intros r _. unfold overdue. rewrite Z.leb_antisym. destruct (is_active r) eqn:Ha; cbn [andb].
    + destruct (now <? rs_expires_at_ns r); cbn [negb]; [by rewrite Ha|]. by rewrite retired_inactive.
    + by rewrite Ha.
  - pose proof Hb as [Hwf _].
    destruct (release_cases b id Hb) as [[-> Hno]|(i & r & Hi & -> & Ha & H)].
    { rewrite list_filter_all; [done|]. apply Forall_forall.
      intros r [Ha Hr]%active_elem. apply negb_true_iff, Z.eqb_neq. auto. }
    assert (Hfl : rs_ledger_reserved r = true).
    { rewrite (wf_flag _ _ _ Hwf); [done|]. by eapply list_elem_of_lookup_2. }
    rewrite (retire_eq _ _ _ _ Hfl) in H. rewrite H. unfold active; cbn [rb_reservations].
    apply (filter_insert_id (rb_reservations b) i r); [done|by apply retired_inactive|].
    intros j s Hj. by rewrite (wf_ids _ _ _ Hwf _ _ Hj).
Qed.


(** [expire_old] retires exactly the active reservations whose deadline has
    passed, and [release] exactly the named one: the active reservations
    afterwards are the others, unchanged and in order. *)
Theorem retire_refines_filter b now id :
  book_reachable b →
  active (expire_old b now) = filter (λ r, (now <? rs_expires_at_ns r) = true) (active b) ∧
  active (release b id) = filter (λ r, negb (rs_reservation_id r =? id) = true) (active b).
Proof. intros Hb%book_wf_reachable. by apply retire_active. Qed.

Lemma retire_refines_filter_witness :
  active (release demo_book 1) = [] ∧ active (expire_old demo_book 999) = active demo_book.
Proof.
  assert (Hr : book_reachable demo_book) by (apply rtc_once, StepReserve; vm_compute; reflexivity).
  destruct (retire_refines_filter demo_book 999 1 Hr) as [-> ->].
  split; vm_compute; reflexivity.
Defined.

(** ** The ledger is the sum over the active reservations *)

Lemma active_sum_active f b : active_sum f (rb_reservations b) = sum_list_Z f (active b).
Proof.
  unfold active, active_sum. induction (rb_reservations b) as [|r rs IH]; [done|].
  cbn [sum_list_Z]. rewrite filter_cons, IH. destruct (is_active r); case_decide; cbn; done || lia.
Qed.

(** Calls with non-negative amounts whose sums stay in 64 bits. *)
Inductive safe_step (b : ReservationBook) : ReservationBook → Prop :=
| SafeReserve intent d now track :
    Z.of_nat (length (rb_reservations b)) < u64_max - 1 → intent_fits intent →
    (∀ a, active_sum (asset_lots a) (rb_reservations b) + intent_lots a (intent_legs intent) <= i64_max) →
    (∀ m, active_sum (market_exposure m) (rb_reservations b)
          + intent_exposure m (intent_legs intent) <= i64_max) →
    safe_step b (try_reserve b intent d now track).1
| SafeRelease id : safe_step b (release b id)
| SafeExpire now : safe_step b (expire_old b now).

Definition safe_reachable : ReservationBook → Prop := rtc safe_step book0.
Definition book_exact (b : ReservationBook) : Prop :=
  book_wf b ∧ exact_maps (rb_reservations b) (rb_ledger b).

Lemma reserved_for_amounts b intent now track :
  intent_fits intent →
  let r := reserved_for b intent now track in
  (∀ e, e ∈ rs_assets r ++ rs_markets r → 0 <= rv_amount e) ∧
  (∀ a, asset_lots a r = if track && negb (String.eqb a "") then intent_lots a (intent_legs intent) else 0) ∧
  (∀ m, market_exposure m r =
        if track && negb (String.eqb m "") then intent_exposure m (intent_legs intent) else 0).
Proof.
  intros Hfit. unfold reserved_for. destruct track; cbn [andb].
  - pose proof (build_reservation_sums (rb_interned_strings b) intent now Hfit) as H.
    destruct (build_reservation _ _ _ _) as [r i]. destruct H as (Hp & Ha & Hm). cbn.
    split_and!; [done|..]; intros a; [specialize (Ha a)|specialize (Hm a)]; by destruct (String.eqb a "").
  - cbn. split_and!; [set_solver|done|done].
Qed.

Lemma intent_lots_nonneg a intent : intent_fits intent → 0 <= intent_lots a (intent_legs intent).
Proof.
  intros [_ Hq _ _]. apply sum_list_Z_nonneg. intros l Hl. specialize (Hq l Hl). case_bool_decide; lia.
Qed.
Lemma intent_exposure_nonneg m legs : 0 <= intent_exposure m legs.
Proof. apply sum_list_Z_nonneg. intros; case_bool_decide; lia. Qed.

Lemma active_sum_nonneg f rs : (∀ r, r ∈ rs → 0 <= f r) → 0 <= active_sum f rs.
Proof. intros H. apply sum_list_Z_nonneg. intros r Hr. step_if; [auto|lia]. Qed.

Lemma reserve_exact b intent d now track :
  Z.of_nat (length (rb_reservations b)) < u64_max - 1 → intent_fits intent →
  (∀ a, active_sum (asset_lots a) (rb_reservations b) + intent_lots a (intent_legs intent) <= i64_max) →
  (∀ m, active_sum (market_exposure m) (rb_reservations b)
        + intent_exposure m (intent_legs intent) <= i64_max) →
  book_exact b → book_exact (try_reserve b intent d now track).1.
Proof.
  intros Hcap Hfit Ha Hm [Hwf Hex]. split; [by apply try_reserve_wf|].
  pose proof (try_reserve_cases b intent d now track) as H.
  destruct (try_reserve b intent d now track) as [b' res]; cbn [fst].
  destruct H as [_ H]. destruct (res_ok res); [|by subst]. destruct H as [_ ->].
  cbn [rb_reservations rb_ledger].
  pose proof (reserved_for_fields b intent now track) as (_ & Hact & _).
  pose proof (reserved_for_amounts b intent now track Hfit) as (Hpos & Hra & Hrm).
  set (r := reserved_for b intent now track) in *. clearbody r.
  assert (Hone : ∀ f, active_sum f [r] = f r) by (intros f; unfold active_sum; cbn; rewrite Hact; lia).
  assert (Hla : ∀ a, 0 <= asset_lots a r <= intent_lots a (intent_legs intent)).
  { intros a. rewrite Hra. pose proof (intent_lots_nonneg a intent Hfit). step_if; lia. }
  assert (Hlm : ∀ m, 0 <= market_exposure m r <= intent_exposure m (intent_legs intent)).
  { intros m. rewrite Hrm. pose proof (intent_exposure_nonneg m (intent_legs intent)). step_if; lia. }
  constructor.
  - intros a. specialize (Ha a). specialize (Hla a). rewrite active_sum_app, Hone. cbn [lg_inventory ledger_reserve].
    pose proof (active_sum_nonneg (asset_lots a) (rb_reservations b)
      (λ r Hr, asset_lots_nonneg _ _ r a Hex Hr)).
    unfold asset_lots in *. rewrite amounts_reserve_lookup; rewrite ?(em_assets _ _ Hex); try done.
    + intros e He. apply Hpos; set_solver.
    + unfold asset_lots; lia.
  - intros m. specialize (Hm m). specialize (Hlm m). rewrite active_sum_app, Hone.
    cbn [lg_exposure ledger_reserve exposure_reserve el_market_reserved_exposure_tick].
    pose proof (active_sum_nonneg (market_exposure m) (rb_reservations b)
      (λ r Hr, market_exposure_nonneg _ _ r m Hex Hr)).
    unfold market_exposure in *. rewrite amounts_reserve_lookup; rewrite ?(em_markets _ _ Hex); try done.
    + intros e He. apply Hpos; set_solver.
    + unfold market_exposure; lia.
  - intros s e [Hs| ->%list_elem_of_singleton]%elem_of_app He; [by eapply (em_nonneg _ _ Hex)|auto].
  - intros a. rewrite active_sum_app, Hone. specialize (Ha a). specialize (Hla a). lia.
  - intros m. rewrite active_sum_app, Hone. specialize (Hm m). specialize (Hlm m). lia.
Qed.

Lemma release_exact b id : book_exact b → book_exact (release b id).
Proof.
  intros [Hb Hex]. split; [by apply release_wf|]. pose proof Hb as [Hwf _].
  destruct (release_cases b id Hb) as [[-> _]|(i & r & Hi & _ & Ha & H)]; [done|].
  pose proof (retire_exact_maps RsReleased _ _ _ i r Hwf Hex Hi Ha ltac:(done)) as Hr.
  destruct (retire _ _ _ _) as [[r' l'] k']. by rewrite H.
Qed.

Lemma expire_old_exact b now : book_exact b → book_exact (expire_old b now).
Proof.
  intros [Hb Hex]. split; [by apply expire_old_wf|]. pose proof Hb as [Hwf _]. unfold expire_old.
  pose proof (expire_loop_inv now (rb_reservations b) [] _ _ Hwf) as H.
  destruct (expire_loop _ _ _ _) as [[rs l] k]. destruct H as (_ & Hm & _). by apply Hm.
Qed.

Lemma book0_exact : book_exact book0.
Proof.
  split; [apply book0_wf|]. constructor; try done; intros; unfold active_sum; cbn; try lia. set_solver.
Qed.

Lemma safe_reachable_exact b : safe_reachable b → book_exact b.
Proof.
  intros H. eapply rtc_invariant; [|exact H|apply book0_exact].
  intros x y []; auto using reserve_exact, release_exact, expire_old_exact.
Qed.

(** C6. The ledger refines its specification: along any run with non-negative
    amounts that fit in 64 bits, the incrementally maintained maps hold for
    every asset the exact lots, and for every market the exact exposure, of the
    currently active reservations, although entries are erased when they reach
    zero; and an accepted, tracked intent moves them by exactly what its legs
    ask for. *)
Theorem ledger_refines_active b :
  safe_reachable b →
  (∀ a, default 0 (lg_inventory (rb_ledger b) !! a) = sum_list_Z (asset_lots a) (active b)) ∧
  (∀ m, default 0 (el_market_reserved_exposure_tick (lg_exposure (rb_ledger b)) !! m)
        = sum_list_Z (market_exposure m) (active b)) ∧
  (∀ intent d now, intent_fits intent →
     (∀ a, active_sum (asset_lots a) (rb_reservations b) + intent_lots a (intent_legs intent) <= i64_max) →
     res_ok (try_reserve b intent d now true).2 = true →
     ∀ a, a ≠ ""%string →
     default 0 (lg_inventory (rb_ledger (try_reserve b intent d now true).1) !! a)
     = default 0 (lg_inventory (rb_ledger b) !! a) + intent_lots a (intent_legs intent)).
Proof.
  intros [Hwf Hex]%safe_reachable_exact. split; [|split].
  - intros a. rewrite <- active_sum_active. apply Hex.
  - intros m. rewrite <- active_sum_active. apply Hex.
  - intros intent d now Hfit Hcap Hok a Hne.
    pose proof (try_reserve_cases b intent d now true) as H.
    destruct (try_reserve b intent d now true) as [b' res]; cbn [fst snd] in *.
    rewrite Hok in H. destruct H as (_ & _ & ->). cbn [rb_ledger ledger_reserve lg_inventory].
    pose proof (reserved_for_amounts b intent now true Hfit) as (Hpos & Hra & _).
    specialize (Hra a). destruct (String.eqb_spec a "") as [|_]; [done|]. cbn [andb negb] in Hra.
    pose proof (active_sum_nonneg (asset_lots a) (rb_reservations b)
      (λ r Hr, asset_lots_nonneg _ _ r a Hex Hr)).
    specialize (Hcap a). pose proof (em_assets _ _ Hex a) as Hsum.
    unfold asset_lots in Hra. rewrite amounts_reserve_lookup, Hra; [done| |lia|lia].
    intros e He. apply Hpos; set_solver.
Qed.

Lemma intent_lots_le a intent :
  intent_fits intent → intent_lots a (intent_legs intent) <= sum_list_Z il_quantity_lots (intent_legs intent).
Proof.
  intros [_ Hq _ _]. revert Hq. unfold intent_lots. induction (intent_legs intent) as [|l ls IH]; intros Hq; [done|].
  cbn. pose proof (Hq l ltac:(set_solver)). specialize (IH ltac:(set_solver)). case_bool_decide; lia.
Qed.

Lemma intent_exposure_le m legs :
  intent_exposure m legs <= sum_list_Z (λ l, Z.max (il_estimated_cost_tick l) 0) legs.
Proof.
  unfold intent_exposure. induction legs as [|l ls IH]; [done|]. cbn. case_bool_decide; lia.
Qed.

Lemma demo_fits : intent_fits demo_intent.
Proof.
  split; [vm_compute; lia| |vm_compute; congruence..].
  apply Forall_forall. repeat constructor; vm_compute; congruence.
Qed.

Lemma demo_safe : safe_reachable demo_book.
Proof.
  apply rtc_once, SafeReserve; [vm_compute; reflexivity|apply demo_fits|..].
  - intros a. etrans; [apply Z.add_le_mono_l, (intent_lots_le a _ demo_fits)|].
    vm_compute; congruence.
  - intros m. etrans; [apply Z.add_le_mono_l, intent_exposure_le|]. vm_compute; congruence.
Qed.

Lemma ledger_refines_active_witness :
  sum_list_Z (asset_lots "yes") (active demo_book) = 5 ∧
  default 0 (lg_inventory (rb_ledger demo_book) !! "yes"%string) = 5.
Proof.
  destruct (ledger_refines_active demo_book demo_safe) as (H & _ & _).
  rewrite H. split; vm_compute; reflexivity.
Defined.

Lemma release_fresh_active b intent d now track :
  book_wf b → Z.of_nat (length (rb_reservations b)) < u64_max - 1 →
  let '(b', res) := try_reserve b intent d now track in
  res_ok res = true → active (release b' (res_reservation_id res)) = active b.
Proof.
  intros Hb Hcap. pose proof (try_reserve_wf b intent d now track Hb Hcap) as Hb'.
  pose proof (try_reserve_cases b intent d now track) as H.
  destruct (try_reserve b intent d now track) as [b' res]. destruct H as [Hres H]. intros Hok.
  rewrite Hok in H. destruct H as [_ ->].
  assert (Hid : res_reservation_id res = rb_next_reservation_id b).
  { revert Hok. rewrite Hres. unfold reserve_verdict. repeat (step_if; [done|]). done. }
  cbn [fst] in Hb'. destruct (retire_active _ 0 (res_reservation_id res) Hb') as [_ ->].
  pose proof (reserved_for_fields b intent now track) as (_ & Ha & _ & Hr & _).
  unfold active at 1. cbn [rb_reservations]. rewrite filter_app, filter_cons_True by done.
  fold (active b). rewrite filter_app, filter_cons_False, app_nil_r.
  - apply list_filter_all, Forall_forall. intros s [_ (i & Hi)%list_elem_of_lookup]%active_elem.
    destruct Hb as [Hwf Hn]. rewrite Hid, Hn, (wf_ids _ _ _ Hwf _ _ Hi), wrap_u64_id by rlia.
    apply lookup_lt_Some in Hi. apply negb_true_iff, Z.eqb_neq. lia.
  - by rewrite Hr, Hid, Z.eqb_refl.
Qed.

(** Two books with exact ledgers and the same active reservations have the
    same ledger. *)
Lemma exact_ledger_eq b c :
  book_exact b → book_exact c → active b = active c →
  (∀ a, default 0 (lg_inventory (rb_ledger b) !! a) = default 0 (lg_inventory (rb_ledger c) !! a)) ∧
  (∀ m, default 0 (el_market_reserved_exposure_tick (lg_exposure (rb_ledger b)) !! m)
        = default 0 (el_market_reserved_exposure_tick (lg_exposure (rb_ledger c)) !! m)) ∧
  el_total_reserved_cost_tick (lg_exposure (rb_ledger b))
    = el_total_reserved_cost_tick (lg_exposure (rb_ledger c)) ∧
  el_total_reserved_exposure_tick (lg_exposure (rb_ledger b))
    = el_total_reserved_exposure_tick (lg_exposure (rb_ledger c)).
Proof.
  intros [[Hwb _] Hxb] [[Hwc _] Hxc] Heq. split_and!.
  - intros a. by rewrite (em_assets _ _ Hxb), (em_assets _ _ Hxc), !active_sum_active, Heq.
  - intros m. by rewrite (em_markets _ _ Hxb), (em_markets _ _ Hxc), !active_sum_active, Heq.
  - by rewrite (wf_cost _ _ _ Hwb), (wf_cost _ _ _ Hwc), !active_sum_active, Heq.
  - by rewrite (wf_exposure _ _ _ Hwb), (wf_exposure _ _ _ Hwc), !active_sum_active, Heq.
Qed.

(** Reserving and releasing is a round trip: after an accepted
    reservation is released, the active reservations, both totals and every
    map entry of the ledger are what they were before. *)
Theorem reserve_release_roundtrip b intent d now track :
  safe_reachable b → Z.of_nat (length (rb_reservations b)) < u64_max - 1 → intent_fits intent →
  (∀ a, active_sum (asset_lots a) (rb_reservations b) + intent_lots a (intent_legs intent) <= i64_max) →
  (∀ m, active_sum (market_exposure m) (rb_reservations b)
        + intent_exposure m (intent_legs intent) <= i64_max) →
  let '(b', res) := try_reserve b intent d now track in
  res_ok res = true →
  let l := rb_ledger b in
  let l2 := rb_ledger (release b' (res_reservation_id res)) in
  active (release b' (res_reservation_id res)) = active b ∧
  (∀ a, default 0 (lg_inventory l2 !! a) = default 0 (lg_inventory l !! a)) ∧
  (∀ m, default 0 (el_market_reserved_exposure_tick (lg_exposure l2) !! m)
        = default 0 (el_market_reserved_exposure_tick (lg_exposure l) !! m)) ∧
  el_total_reserved_cost_tick (lg_exposure l2) = el_total_reserved_cost_tick (lg_exposure l) ∧
  el_total_reserved_exposure_tick (lg_exposure l2) = el_total_reserved_exposure_tick (lg_exposure l).
Proof.
  intros Hb%safe_reachable_exact Hcap Hfit Ha Hm.
  pose proof (reserve_exact b intent d now track Hcap Hfit Ha Hm Hb) as Hb'.
  pose proof (release_fresh_active b intent d now track (proj1 Hb) Hcap) as Hact.
  destruct (try_reserve b intent d now track) as [b' res]; cbn [fst] in *.
  intros Hok. specialize (Hact Hok). split; [done|].
  by apply exact_ledger_eq; [apply release_exact| |].
Qed.

Lemma reserve_release_roundtrip_witness :
  let '(b', res) := try_reserve book0 demo_intent (make_approved_decision 1 1) 20 true in
  res_ok res = true ∧ active (release b' (res_reservation_id res)) = [].
Proof.
  assert (Hok : res_ok (try_reserve book0 demo_intent (make_approved_decision 1 1) 20 true).2 = true)
    by (vm_compute; reflexivity).
  pose proof (reserve_release_roundtrip book0 demo_intent (make_approved_decision 1 1) 20 true
    (rtc_refl _ _) ltac:(vm_compute; reflexivity) demo_fits) as H.
  destruct (try_reserve book0 demo_intent (make_approved_decision 1 1) 20 true) as [b' res].
  split; [exact Hok|]. apply H; [| |exact Hok].
  - intros a. etrans; [apply Z.add_le_mono_l, (intent_lots_le a _ demo_fits)|]. vm_compute; congruence.
  - intros m. etrans; [apply Z.add_le_mono_l, intent_exposure_le|]. vm_compute; congruence.
Defined.

(** ** The snapshot *)

Definition count_status (s : ReservationStatus) (rs : list RiskReservation) : Z :=
  sum_list_Z (λ r, if bool_decide (rs_status r = s) then 1 else 0) rs.

Lemma count_status_range s rs : 0 <= count_status s rs <= Z.of_nat (length rs).
Proof.
  unfold count_status. induction rs as [|r rs IH]; cbn [sum_list_Z length]; [lia|]. case_bool_decide; lia.
Qed.

Lemma count_status_cons s r rs :
  count_status s (r :: rs) = (if bool_decide (rs_status r = s) then 1 else 0) + count_status s rs.
Proof. reflexivity. Qed.

(** The four counters of a snapshot, as a function of the status. *)
Definition snapshot_count (out : RiskLedgerSnapshot) (s : ReservationStatus) : Z :=
  match s with
  | RsActive => ls_active_reservations out
  | RsReleased => ls_released_reservations out
  | RsExpired => ls_expired_reservations out
  | RsConsumed => ls_consumed_reservations out
  end.

Lemma snapshot_reservation_count out r s :
  snapshot_count (snapshot_reservation out r) s =
  if bool_decide (rs_status r = s) then wrap_u64 (snapshot_count out s + 1) else snapshot_count out s.
Proof. unfold snapshot_reservation, is_active. destruct (rs_status r), s; reflexivity. Qed.

Lemma snapshot_loop_count rs out s :
  0 <= snapshot_count out s → snapshot_count out s + Z.of_nat (length rs) <= u64_max →
  snapshot_count (foldl snapshot_reservation out rs) s = snapshot_count out s + count_status s rs.
Proof.
  revert out; induction rs as [|r rs IH]; intros out H0 Hmax; [unfold count_status; cbn; lia|].
  cbn [foldl length] in *. rewrite count_status_cons.
  pose proof (snapshot_reservation_count out r s) as Hr. case_bool_decide.
  - rewrite wrap_u64_id in Hr by rlia. rewrite IH, Hr; lia.
  - rewrite IH, Hr; lia.
Qed.

Lemma snapshot_loop_ledger rs out :
  let out' := foldl snapshot_reservation out rs in
  ls_total_reserved_cost_tick out' = ls_total_reserved_cost_tick out ∧
  ls_total_reserved_exposure_tick out' = ls_total_reserved_exposure_tick out ∧
  ls_reserved_asset_lots out' = ls_reserved_asset_lots out ∧
  ls_reserved_market_exposure_tick out' = ls_reserved_market_exposure_tick out.
Proof.
  revert out; induction rs as [|r rs IH]; intros out; [done|]. cbn [foldl].
  specialize (IH (snapshot_reservation out r)). cbv zeta in *. destruct IH as (-> & -> & -> & ->).
  unfold snapshot_reservation, is_active. by destruct (rs_status r).
Qed.

(** A snapshot is a faithful summary: every reservation is counted under
    exactly one status, the active count is the number of active reservations,
    and the totals are the sums over the active ones. *)
Theorem book_snapshot_spec b :
  book_reachable b → Z.of_nat (length (rb_reservations b)) <= u64_max →
  let s := book_snapshot b in
  ls_active_reservations s + ls_released_reservations s + ls_expired_reservations s
    + ls_consumed_reservations s = Z.of_nat (length (rb_reservations b)) ∧
  ls_active_reservations s = Z.of_nat (length (active b)) ∧
  ls_total_reserved_cost_tick s = wrap_i64 (sum_list_Z rs_reserved_cost_tick (active b)) ∧
  ls_total_reserved_exposure_tick s = wrap_i64 (sum_list_Z rs_reserved_exposure_tick (active b)).
Proof.
  intros [Hwf _]%book_wf_reachable Hlen s.
  assert (Hc : ∀ st, snapshot_count s st = count_status st (rb_reservations b)).
  { intros st. unfold s, book_snapshot. by rewrite snapshot_loop_count by (destruct st; cbn; lia); destruct st. }
  pose proof (Hc RsActive) as H1. pose proof (Hc RsReleased) as H2.
  pose proof (Hc RsExpired) as H3. pose proof (Hc RsConsumed) as H4. cbn [snapshot_count] in *.
  rewrite H1, H2, H3, H4.
  pose proof (snapshot_loop_ledger (rb_reservations b) (ledger_snapshot (rb_ledger b))) as (Hcost & Hexp & _).
  fold (book_snapshot b) in Hcost, Hexp. fold s in Hcost, Hexp.
  rewrite Hcost, Hexp. cbn [ledger_snapshot ls_total_reserved_cost_tick ls_total_reserved_exposure_tick].
  rewrite (wf_cost _ _ _ Hwf), (wf_exposure _ _ _ Hwf), !active_sum_active. split_and!; [| |done..].
  - clear. induction (rb_reservations b) as [|r rs IH]; [done|].
    rewrite !count_status_cons. cbn [length].
    destruct (rs_status r); repeat case_bool_decide; try done; lia.
  - clear. unfold active. induction (rb_reservations b) as [|r rs IH]; [done|].
    rewrite count_status_cons, filter_cons, IH. unfold is_active.
    repeat case_bool_decide; case_decide; cbn [length]; done || lia.
Qed.

Lemma book_snapshot_spec_witness :
  ls_active_reservations (book_snapshot (release demo_book 1)) = 0 ∧
  ls_released_reservations (book_snapshot (release demo_book 1)) = 1.
Proof.
  assert (Hr : book_reachable (release demo_book 1)).
  { apply (rtc_l _ _ demo_book); [apply StepReserve; vm_compute; reflexivity|].
    apply rtc_once, StepRelease. }
  destruct (book_snapshot_spec (release demo_book 1) Hr ltac:(vm_compute; congruence)) as (_ & -> & _).
  split; vm_compute; reflexivity.
Defined.
