(* ===== verification/Reprice.v ===== *)
(** * Reprice: revalidating an intent's cost against the current books

    [engine/risk/reprice]: before approving, the pipeline prices every leg of
    the intent again.  The same algorithm runs on two kinds of evidence, market
    snapshots (matched by asset id) and depth views (matched by asset index);
    the sources write it twice.  Here it is written once over a class
    [BookView], whose two instances are the two overloads, and whose laws
    [BookViewLaws] state what the algorithm relies on: a leg priced
    successfully costs exactly the greedy fill of the view's asks.  The cost of
    the [Clock] calls is not modelled. *)

From S2P Require Import Prelude Doubles FixedPoint Depth RiskTypes.

(** [engine/risk/reprice/CostRevalidationResult.h:13-20] RevalidatedLegCost. *)
Record RevalidatedLegCost := mkRevalidatedLegCost {
  lc_asset_id : string;
  lc_asset_index : Z;
  lc_requested_qty_lots : Z;
  lc_executable_qty_lots : Z;
  lc_depth_margin_bps : Z;
  lc_enough_depth : bool
}.
Definition leg_cost0 : RevalidatedLegCost := mkRevalidatedLegCost "" 0 0 0 0 false.
#[export] Instance RevalidatedLegCost_inhabited : Inhabited RevalidatedLegCost := populate leg_cost0.

(** [engine/risk/reprice/CostRevalidationResult.h:11-11] kMaxRevalidatedLegCosts. *)
Definition kMaxRevalidatedLegCosts : nat := 16.

(** [engine/risk/reprice/CostRevalidationResult.h:22-40] CostRevalidationResult. *)
Record CostRevalidationResult := mkCostRevalidationResult {
  cr_ok : bool;
  cr_risk_total_cost_tick : Z;
  cr_risk_bundle_qty : Z;
  cr_fee_tick : Z;
  cr_slippage_buffer_tick : Z;
  cr_latency_buffer_tick : Z;
  cr_max_leg_slippage_tick : Z;
  cr_cost_drift_tick : Z;
  cr_vwap_mode : RiskVWAPMode;
  cr_leg_count : nat;
  cr_legs : list RevalidatedLegCost;
  cr_rejection : RiskDecisionType;
  cr_reason : string
}.
Definition cost0 : CostRevalidationResult :=
  mkCostRevalidationResult false 0 0 0 0 0 0 0 RecomputedFromSnapshot 0
    (std_array kMaxRevalidatedLegCosts leg_cost0 []) DtPass "".

(** [engine/risk/reprice/VWAPRevalidator.cpp:15-24] reject. *)
Definition cost_reject (type : RiskDecisionType) (reason : string) : CostRevalidationResult :=
  cost0 <| cr_ok := false |> <| cr_rejection := type |> <| cr_reason := reason |>.

(** [engine/risk/reprice/VWAPRevalidator.cpp:41-52] depth_margin_bps. *)
Definition vwap_depth_margin_bps (executable_qty_lots requested_qty_lots : Z) : Z :=
  if (requested_qty_lots <=? 0) || (executable_qty_lots <=? 0) then 0
  else ratio_bps executable_qty_lots requested_qty_lots.

(** [engine/risk/reprice/CostRevalidator.cpp:68-82] depth_margin_bps; PartialFillGuard.cpp has the same function. *)
Definition depth_margin_bps (executable_qty_lots requested_qty_lots : Z) : Z :=
  if (requested_qty_lots <=? 0) || (executable_qty_lots <=? 0) then 0
  else
    let value := Z.quot (executable_qty_lots * 10000) requested_qty_lots in
    if i64_max <? value then i64_max else value.

(** [engine/risk/reprice/VWAPRevalidator.cpp:54-57] LegReprice. *)
Record LegReprice := mkLegReprice { lr_executable_lots : Z; lr_cost_tick : Z }.

(** ** Repricing one leg *)

Definition leg_priced : CostRevalidationResult := cost0 <| cr_ok := true |> <| cr_rejection := DtPass |>.

(** [engine/risk/reprice/VWAPRevalidator.cpp:89-112] reprice_buy_leg, the linear walk and the tests on its result. *)
Definition reprice_linear (asks : list PriceLevel) (level_count : nat) (planned_qty_lots : Z)
    : CostRevalidationResult * LegReprice :=
  let priced := buy_vwap_linear (Some asks) level_count planned_qty_lots in
  let executable := vm_executable_qty_lots priced in
  if executable <=? 0 then
    (cost_reject RejectInsufficientDepth "no executable depth", mkLegReprice executable 0)
  else if negb (vm_ok priced) then
    (cost_reject RejectReducedBundleQty "latest depth cannot fill original bundle quantity",
     mkLegReprice executable 0)
  else (leg_priced, mkLegReprice executable (vm_total_cost_tick priced)).

(** [engine/risk/reprice/VWAPRevalidator.cpp:65-113] reprice_buy_leg on a snapshot. *)
Definition reprice_buy_leg_snapshot (snapshot : MarketStateSnapshot) (planned_qty_lots : Z)
    : CostRevalidationResult * LegReprice :=
  if planned_qty_lots <=? 0 then
    (cost_reject RejectInsufficientDepth "invalid planned quantity", mkLegReprice 0 0)
  else if negb (ms_has_ask snapshot) || (ms_ask_count snapshot =? 0)%nat then
    (cost_reject RejectInsufficientDepth "missing ask side", mkLegReprice 0 0)
  else
    let level_count := Nat.min (ms_ask_count snapshot) kMaxSnapshotDepth in
    reprice_linear (ms_asks snapshot) level_count planned_qty_lots.

(** [engine/risk/reprice/VWAPRevalidator.cpp:115-199] reprice_buy_leg on a depth view. *)
Definition reprice_buy_leg_depth_view (depth_view : MarketDepthView) (planned_qty_lots : Z)
    : CostRevalidationResult * LegReprice :=
  if planned_qty_lots <=? 0 then
    (cost_reject RejectInsufficientDepth "invalid planned quantity", mkLegReprice 0 0)
  else if (dv_ask_count depth_view =? 0)%nat then
    (cost_reject RejectInsufficientDepth "missing ask side", mkLegReprice 0 0)
  else if (0 <? dp_ask_count (dv_prefix depth_view))%nat then
    let executable := ask_depth_from_prefix (dv_prefix depth_view) in
    if executable <=? 0 then
      (cost_reject RejectInsufficientDepth "no executable depth", mkLegReprice executable 0)
    else if executable <? planned_qty_lots then
      (cost_reject RejectReducedBundleQty "latest depth cannot fill original bundle quantity",
       mkLegReprice executable 0)
    else
      let priced := buy_vwap_prefix (dv_prefix depth_view) (Some (dv_asks depth_view))
                      (dv_ask_count depth_view) planned_qty_lots in
      if negb (vm_ok priced) then
        (cost_reject RejectInsufficientDepth "prefix vwap failed", mkLegReprice executable 0)
      else (leg_priced, mkLegReprice executable (vm_total_cost_tick priced))
  else
    let level_count := Nat.min (dv_ask_count depth_view) kMaxSnapshotDepth in
    reprice_linear (dv_asks depth_view) level_count planned_qty_lots.

(** ** Evidence *)

(** What repricing reads of a piece of evidence. *)
Class BookView (V : Type) := {
  bv_matches : IntentLeg → V → bool;
  bv_update_ns : V → Z;
  bv_reprice : V → Z → CostRevalidationResult * LegReprice;
  bv_missing : string;
  bv_asks : V → list PriceLevel;
  bv_wf : V → Prop
}.

(** [engine/risk/reprice/CostRevalidator.cpp:30-30] find_snapshot, its match and the fields read of a snapshot. *)
#[export] Instance snapshot_view : BookView MarketStateSnapshot := {
  bv_matches leg s := String.eqb (ms_entity_id s) (il_asset_id leg);
  bv_update_ns := ms_last_book_update_ns;
  bv_reprice := reprice_buy_leg_snapshot;
  bv_missing := "missing latest snapshot";
  bv_asks s := take (Nat.min (ms_ask_count s) kMaxSnapshotDepth) (ms_asks s);
  bv_wf _ := True
}.

(** [engine/risk/reprice/CostRevalidator.cpp:46-46] find_depth_view, its match and the fields read of a view. *)
#[export] Instance depth_view_view : BookView MarketDepthView := {
  bv_matches leg v := dv_asset_index v =? il_asset_index leg;
  bv_update_ns := dv_last_ws_recv_ns;
  bv_reprice := reprice_buy_leg_depth_view;
  bv_missing := "missing latest depth view";
  bv_asks v := take (dv_ask_count v) (dv_asks v);
  bv_wf v :=
    length (dv_asks v) = kMaxSnapshotDepth ∧ (dv_ask_count v <= kMaxSnapshotDepth)%nat ∧
    dv_prefix v = build_depth_prefix (dv_bids v) (dv_bid_count v) (dv_asks v) (dv_ask_count v)
}.

Section reprice.
Context {V : Type} `{BookView V}.

(** [engine/risk/reprice/CostRevalidator.cpp:21-35] find_snapshot: the first match; [find_depth_view] has the same loop. *)
Definition find_view (views : list V) (leg : IntentLeg) : option V :=
  list_find (λ v, bv_matches leg v = true) views ≫= λ '(_, v), Some v.

(** [engine/risk/reprice/VWAPRevalidator.cpp:233-310] reprice, one leg: [inl] is an early return. *)
Definition reprice_leg (intent : OpportunityIntent) (views : list V) (i : nat) (leg : IntentLeg)
    (result : CostRevalidationResult) : CostRevalidationResult + CostRevalidationResult :=
  if negb (bool_decide (il_side leg = Buy)) then
    inl (cost_reject RejectInsufficientDepth "SELL leg repricing is unsupported in risk v0")
  else if String.eqb (il_asset_id leg) "" || (il_quantity_lots leg <=? 0) then
    inl (cost_reject RejectInsufficientDepth "invalid intent leg")
  else
    match find_view views leg with
    | None => inl (cost_reject RejectInsufficientDepth bv_missing)
    | Some view =>
        match checked_mul_i64 (il_quantity_lots leg) (oi_bundle_qty intent) with
        | None => inl (cost_reject RejectInsufficientDepth "planned quantity overflow")
        | Some planned_qty_lots =>
            let '(leg_result, leg_reprice) := bv_reprice view planned_qty_lots in
            let executable := lr_executable_lots leg_reprice in
            let leg_cost := mkRevalidatedLegCost (il_asset_id leg) (il_asset_index leg)
              planned_qty_lots executable
              (vwap_depth_margin_bps executable planned_qty_lots)
              (planned_qty_lots <=? executable) in
            let result := result <| cr_legs ::= <[i := leg_cost]> |> in
            if negb (cr_ok leg_result) then
              inl (leg_result <| cr_leg_count := cr_leg_count result |>
                     <| cr_legs := cr_legs result |>
                     <| cr_risk_bundle_qty :=
                          if 0 <? il_quantity_lots leg
                          then Z.quot executable (il_quantity_lots leg) else 0 |>)
            else
              let result := result <| cr_risk_bundle_qty ::=
                λ q, Z.min q (Z.quot executable (il_quantity_lots leg)) |> in
              match checked_add_i64 (cr_risk_total_cost_tick result) (lr_cost_tick leg_reprice) with
              | None => inl (cost_reject RejectInsufficientDepth "total cost overflow")
              | Some total => inr (result <| cr_risk_total_cost_tick := total |>)
              end
        end
    end.

Fixpoint reprice_loop (intent : OpportunityIntent) (views : list V) (i : nat) (legs : list IntentLeg)
    (result : CostRevalidationResult) : CostRevalidationResult + CostRevalidationResult :=
  match legs with
  | [] => inr result
  | leg :: rest =>
      match reprice_leg intent views i leg result with
      | inl early => inl early
      | inr result => reprice_loop intent views (S i) rest result
      end
  end.

(** [engine/risk/reprice/VWAPRevalidator.cpp:210-327] reprice. *)
Definition reprice (intent : OpportunityIntent) (views : list V) : CostRevalidationResult :=
  if (oi_bundle_qty intent <=? 0) || (oi_leg_count intent =? 0)%nat ||
     (kMaxIntentLegs <? oi_leg_count intent)%nat
  then cost_reject RejectInsufficientDepth "invalid intent quantity or legs"
  else
    let result := cost0 <| cr_ok := true |> <| cr_rejection := DtPass |>
      <| cr_risk_bundle_qty := i64_max |>
      <| cr_leg_count := Nat.min (oi_leg_count intent) kMaxRevalidatedLegCosts |> in
    match reprice_loop intent views 0 (intent_legs intent) result with
    | inl early => early
    | inr result =>
        if cr_risk_bundle_qty result =? i64_max then
          cost_reject RejectInsufficientDepth "no repriced legs"
        else if cr_risk_bundle_qty result <? oi_bundle_qty intent then
          result <| cr_ok := false |> <| cr_rejection := RejectReducedBundleQty |>
                 <| cr_reason := "latest bundle quantity below signal bundle quantity" |>
        else result
    end.

(** ** Reusing the signal's cost *)

(** [engine/risk/reprice/CostRevalidator.cpp:84-95] already_seen_asset. *)
Definition already_seen_asset (intent : OpportunityIntent) (current_index : nat) : bool :=
  bool_decide (il_asset_id (oi_legs intent !!! current_index) ∈
               il_asset_id <$> take current_index (oi_legs intent)).

(** [engine/risk/reprice/CostRevalidator.cpp:97-107] combined_snapshot_hash_matches. *)
Definition combined_snapshot_hash_matches (intent : OpportunityIntent)
    (snapshot_version_hash : Z) : bool :=
  if (oi_snapshot_version_hash intent =? 0) || (oi_leg_count intent =? 0)%nat ||
     (kMaxIntentLegs <? oi_leg_count intent)%nat
  then false
  else negb (snapshot_version_hash =? 0) &&
       (snapshot_version_hash =? oi_snapshot_version_hash intent).

(** [engine/risk/reprice/CostRevalidator.cpp:120-139] snapshots_are_fresh, one leg; the age is cast to [std::int64_t]. *)
Definition leg_is_fresh (intent : OpportunityIntent) (views : list V) (policy : RiskPolicySnapshot)
    (now_ns : Z) (i : nat) (leg : IntentLeg) : bool :=
  if String.eqb (il_asset_id leg) "" || already_seen_asset intent i then true
  else
    match find_view views leg with
    | None => false
    | Some view =>
        if (bv_update_ns view =? 0) || (now_ns <? bv_update_ns view) then false
        else
          let age_ns := wrap_i64 (now_ns - bv_update_ns view) in
          negb ((0 <=? rp_max_book_age_ns policy) && (rp_max_book_age_ns policy <? age_ns))
    end.

(** [engine/risk/reprice/CostRevalidator.cpp:109-142] snapshots_are_fresh. *)
Definition views_are_fresh (intent : OpportunityIntent) (views : list V)
    (policy : RiskPolicySnapshot) (now_ns : Z) : bool :=
  if now_ns =? 0 then false
  else forallb (λ '(i, leg), leg_is_fresh intent views policy now_ns i leg)
         (imap pair (intent_legs intent)).

(** [engine/risk/reprice/CostRevalidator.cpp:179-211] can_reuse_signal_snapshot. *)
Definition can_reuse_signal (intent : OpportunityIntent) (views : list V)
    (policy : RiskPolicySnapshot) (now_ns snapshot_version_hash : Z) : bool :=
  if (oi_expires_at_ns intent <=? now_ns) || (oi_bundle_qty intent <=? 0) ||
     (oi_estimated_cost_tick intent <? 0) || (oi_leg_count intent =? 0)%nat ||
     (kMaxIntentLegs <? oi_leg_count intent)%nat
  then false
  else
    let original_bundle_qty :=
      if 0 <? oi_original_bundle_qty intent then oi_original_bundle_qty intent
      else oi_bundle_qty intent in
    if original_bundle_qty <? oi_bundle_qty intent then false
    else if existsb (λ leg,
              negb (bool_decide (il_side leg = Buy)) || String.eqb (il_asset_id leg) "" ||
              (il_quantity_lots leg <=? 0) || negb (il_enough_depth leg)) (intent_legs intent)
    then false
    else combined_snapshot_hash_matches intent snapshot_version_hash &&
         views_are_fresh intent views policy now_ns.

(** [engine/risk/reprice/CostRevalidator.cpp:268-291] reuse_signal_snapshot, one leg. *)
Definition reuse_leg (intent : OpportunityIntent) (source : IntentLeg) : RevalidatedLegCost :=
  let requested :=
    if 0 <? il_requested_qty_lots source then il_requested_qty_lots source
    else saturating_mul_i64 (il_quantity_lots source) (oi_bundle_qty intent) in
  let executable :=
    if 0 <? il_executable_qty_lots source then il_executable_qty_lots source
    else if il_enough_depth source then requested else 0 in
  mkRevalidatedLegCost (il_asset_id source) (il_asset_index source) requested executable
    (if 0 <? il_depth_margin_bps source then il_depth_margin_bps source
     else depth_margin_bps executable requested)
    (il_enough_depth source && (requested <=? executable)).

(** [engine/risk/reprice/CostRevalidator.cpp:253-293] reuse_signal_snapshot. *)
Definition reuse_signal_snapshot (intent : OpportunityIntent) : CostRevalidationResult :=
  let leg_count := Nat.min (oi_leg_count intent) kMaxRevalidatedLegCosts in
  cost0 <| cr_ok := true |> <| cr_rejection := DtPass |>
    <| cr_vwap_mode := ReuseSignalSnapshot |>
    <| cr_risk_total_cost_tick := oi_estimated_cost_tick intent |>
    <| cr_risk_bundle_qty := oi_bundle_qty intent |>
    <| cr_max_leg_slippage_tick := oi_max_leg_slippage_tick intent |>
    <| cr_cost_drift_tick := 0 |>
    <| cr_leg_count := leg_count |>
    <| cr_legs := std_array kMaxRevalidatedLegCosts leg_cost0
                    (reuse_leg intent <$> take leg_count (oi_legs intent)) |>.

(** [engine/risk/reprice/CostRevalidator.cpp:377-400] revalidate: the buffers and the drift test. *)
Definition finish_revalidation (intent : OpportunityIntent) (policy : RiskPolicySnapshot)
    (result : CostRevalidationResult) : CostRevalidationResult :=
  if negb (cr_ok result) then result
  else
    let result := result
      <| cr_fee_tick := oi_estimated_fee_tick intent |>
      <| cr_slippage_buffer_tick := oi_slippage_buffer_tick intent |>
      <| cr_latency_buffer_tick := oi_latency_buffer_tick intent |>
      <| cr_cost_drift_tick := cr_risk_total_cost_tick result -i oi_estimated_cost_tick intent |> in
    if rp_max_allowed_cost_drift_tick policy <? cr_cost_drift_tick result then
      result <| cr_ok := false |> <| cr_rejection := RejectCostDrift |>
             <| cr_reason := "cost drift exceeds policy" |>
    else result <| cr_ok := true |> <| cr_rejection := DtPass |>.

(** [engine/risk/reprice/CostRevalidator.cpp:352-401] revalidate. *)
Definition revalidate (intent : OpportunityIntent) (views : list V) (policy : RiskPolicySnapshot)
    (now_ns snapshot_version_hash : Z) : CostRevalidationResult :=
  finish_revalidation intent policy
    (if can_reuse_signal intent views policy now_ns snapshot_version_hash
     then reuse_signal_snapshot intent
     else reprice intent views).
End reprice.

(** The overloads of the sources. *)

(** [engine/risk/reprice/VWAPRevalidator.cpp:329-446] reprice on depth views. *)
Definition reprice_depth_views := reprice (V := MarketDepthView).
(** [engine/risk/reprice/CostRevalidator.cpp:37-51] find_depth_view. *)
Definition find_depth_view := find_view (V := MarketDepthView).
(** [engine/risk/reprice/CostRevalidator.cpp:144-177] depth_views_are_fresh. *)
Definition depth_views_are_fresh := views_are_fresh (V := MarketDepthView).
(** [engine/risk/reprice/CostRevalidator.cpp:213-251] can_reuse_signal_depth_view. *)
Definition can_reuse_signal_depth_view := can_reuse_signal (V := MarketDepthView).
(** [engine/risk/reprice/CostRevalidator.cpp:403-452] revalidate on depth views. *)
Definition revalidate_depth_views := revalidate (V := MarketDepthView).

(** ** The contract of the evidence *)

(** A leg priced successfully is filled in full, at the exact greedy cost. *)
Class BookViewLaws (V : Type) `{BookView V} : Prop := {
  bv_reprice_ok v planned r lr :
    planned <= i64_max → bv_wf v → bv_reprice v planned = (r, lr) → cr_ok r = true →
    0 < planned <= lr_executable_lots lr ∧
    lr_executable_lots lr = Z.min i64_max (exact_qty (bv_asks v)) ∧
    lr_cost_tick lr = (fill (bv_asks v) planned).1 ∧ lr_cost_tick lr <= i64_max
}.

Lemma reprice_linear_ok asks count planned r lr :
  (0 < count)%nat → 0 < planned <= i64_max → reprice_linear asks count planned = (r, lr) → cr_ok r = true →
  0 < planned <= lr_executable_lots lr ∧
  lr_executable_lots lr = Z.min i64_max (exact_qty (take count asks)) ∧
  lr_cost_tick lr = (fill (take count asks) planned).1 ∧ lr_cost_tick lr <= i64_max.
Proof.
  intros Hc Hp. unfold reprice_linear. rewrite buy_vwap_linear_spec by done. cbv zeta.
  pose proof (fill_unfilled (take count asks) planned ltac:(lia)) as Hu.
  case_bool_decide as H1; cbn [andb]; [|cbn; rewrite Z.leb_refl; intros; by simplify_eq].
  case_bool_decide as H2; [|cbn; rewrite Z.leb_refl; intros; by simplify_eq].
  destruct (Z.ltb_spec 0 (fill (take count asks) planned).2); cbn [vm_executable_qty_lots vm_ok negb vwap_filled].
  - destruct (_ <=? 0); intros; by simplify_eq.
  - destruct (Z.leb_spec (exact_qty (take count asks)) 0); intros; simplify_eq; try done. cbn. lia.
Qed.

#[export] Instance snapshot_view_laws : BookViewLaws MarketStateSnapshot.
Proof.
  constructor. intros s planned r lr Hp _ H Hok. cbn in H. unfold reprice_buy_leg_snapshot in H.
  destruct (Z.leb_spec planned 0); [by simplify_eq|].
  destruct (ms_has_ask s); cbn [negb orb] in H; [|by simplify_eq].
  destruct (Nat.eqb_spec (ms_ask_count s) 0); [by simplify_eq|].
  eapply reprice_linear_ok; [unfold kMaxSnapshotDepth; lia|lia|exact H|done].
Qed.

#[export] Instance depth_view_laws : BookViewLaws MarketDepthView.
Proof.
  constructor. intros v planned r lr Hp (Hlen & Hcnt & Hpre) H Hok. cbn in H.
  unfold reprice_buy_leg_depth_view in H.
  destruct (Z.leb_spec planned 0); [by simplify_eq|].
  destruct (Nat.eqb_spec (dv_ask_count v) 0) as [|Hn]; [by simplify_eq|].
  assert (Hc : (0 < dv_ask_count v <= kMaxSnapshotDepth)%nat) by lia.
  rewrite Hpre, prefix_ask_count, (proj2 (Nat.ltb_lt _ _)) in H by lia.
  unfold ask_depth_from_prefix in H. rewrite prefix_ask_count, (proj2 (Nat.eqb_neq _ _)) in H by lia.
  rewrite prefix_last in H by done. set (levels := take (dv_ask_count v) (dv_asks v)) in *.
  destruct (Z.leb_spec (Z.min i64_max (exact_qty levels)) 0); [by simplify_eq|].
  destruct (Z.ltb_spec (Z.min i64_max (exact_qty levels)) planned) as [|Hge]; [by simplify_eq|].
  rewrite buy_vwap_prefix_spec in H by (done || lia). cbv zeta in H. fold levels in H.
  destruct (Z.ltb_spec (exact_qty levels) planned); [lia|].
  case_bool_decide; cbn in H; by simplify_eq.
Qed.

(** Views taken from snapshots satisfy the precondition of the laws. *)
Lemma market_depth_view_wf snapshot asset_index :
  bv_wf (market_depth_view_from_snapshot snapshot asset_index).
Proof.
  unfold market_depth_view_from_snapshot; cbn. split_and!; [|lia|done].
  apply (length_std_array kMaxSnapshotDepth).
Qed.

Section reprice_laws.
Context {V : Type} `{BookViewLaws V}.

(** The exact cost of filling a leg of the intent against the evidence. *)
Definition leg_fill_cost (intent : OpportunityIntent) (views : list V) (leg : IntentLeg) : Z :=
  match find_view views leg with
  | Some v => (fill (bv_asks v) (il_quantity_lots leg * oi_bundle_qty intent)).1
  | None => 0
  end.

(** What a repriced leg and its recorded cost satisfy. *)
Definition leg_repriced (intent : OpportunityIntent) (views : list V) (risk_qty : Z)
    (leg : IntentLeg) (lc : RevalidatedLegCost) : Prop :=
  il_side leg = Buy ∧ il_asset_id leg ≠ ""%string ∧ 0 < il_quantity_lots leg ∧
  lc_asset_id lc = il_asset_id leg ∧ lc_asset_index lc = il_asset_index leg ∧
  lc_requested_qty_lots lc = il_quantity_lots leg * oi_bundle_qty intent ∧
  lc_enough_depth lc = true ∧
  risk_qty * il_quantity_lots leg <= lc_executable_qty_lots lc ∧
  ∃ v, find_view views leg = Some v ∧
    lc_executable_qty_lots lc = Z.min i64_max (exact_qty (bv_asks v)).

Lemma find_view_elem views leg v : find_view views leg = Some v → v ∈ views.
Proof.
  unfold find_view. destruct (list_find _ views) as [[i w]|] eqn:E; cbn; intros; simplify_eq.
  apply list_find_Some in E as (? & _). by eapply list_elem_of_lookup_2.
Qed.

Lemma reprice_leg_ok intent views i leg r r' :
  (∀ v, v ∈ views → bv_wf v) → 0 < oi_bundle_qty intent → (i < length (cr_legs r))%nat →
  reprice_leg intent views i leg r = inr r' →
  ∃ lc, cr_legs r' = <[i := lc]> (cr_legs r) ∧
    leg_repriced intent views (cr_risk_bundle_qty r') leg lc ∧
    cr_risk_total_cost_tick r' = cr_risk_total_cost_tick r + leg_fill_cost intent views leg ∧
    cr_risk_total_cost_tick r' <= i64_max ∧
    cr_risk_bundle_qty r' <= cr_risk_bundle_qty r ∧ cr_risk_bundle_qty r' < i64_max + 1 ∧
    (oi_bundle_qty intent <= cr_risk_bundle_qty r → oi_bundle_qty intent <= cr_risk_bundle_qty r') ∧
    cr_ok r' = cr_ok r ∧ cr_leg_count r' = cr_leg_count r ∧ cr_vwap_mode r' = cr_vwap_mode r.
Proof.
  intros Hwf Hqty Hi Hr. unfold reprice_leg in Hr.
  case_bool_decide as Hbuy; cbn [negb] in Hr; [|done].
  destruct (String.eqb_spec (il_asset_id leg) "") as [|Hne]; [done|]. cbn [orb] in Hr.
  destruct (Z.leb_spec (il_quantity_lots leg) 0) as [|Hlots]; [done|].
  destruct (find_view views leg) as [v|] eqn:Hv; [|done].
  destruct (checked_mul_i64 _ _) as [planned|] eqn:Hm; [|done].
  apply checked_mul_i64_Some in Hm as [Hrange ->].
  destruct (bv_reprice v _) as [lres lr] eqn:Hl. destruct (cr_ok lres) eqn:Hok; cbn [negb] in Hr; [|done].
  apply bv_reprice_ok in Hl as (Hpl & Hex & Hcost & Hmax); [|rlia| |done].
  2:{ apply Hwf. by eapply find_view_elem. }
  destruct (checked_add_i64 _ _) as [total|] eqn:Ht; [|done].
  apply checked_add_i64_Some in Ht as [Htr ->]. simplify_eq.
  destruct r as [ok total qty fee sb lb ms drift mode count legs rej rsn]; cbn in *.
  unfold constant in *; cbn in *.
  assert (Hq : Z.quot (lr_executable_lots lr) (il_quantity_lots leg) * il_quantity_lots leg
               <= lr_executable_lots lr).
  { rewrite Z.quot_div_nonneg by lia.
    pose proof (Z.mul_div_le (lr_executable_lots lr) (il_quantity_lots leg)). lia. }
  assert (oi_bundle_qty intent <= Z.quot (lr_executable_lots lr) (il_quantity_lots leg)).
  { rewrite Z.quot_div_nonneg by lia. apply Z.div_le_lower_bound; lia. }
  assert (Z.quot (lr_executable_lots lr) (il_quantity_lots leg) <= i64_max).
  { rewrite Z.quot_div_nonneg by lia. apply Z.div_le_upper_bound; nia. }
  eexists. split_and!; [done| | |rlia|lia|lia|lia|done..].
  - split_and!; try done; cbn; [apply Z.leb_le; lia|nia|]. exists v. done.
  - unfold leg_fill_cost. rewrite Hv. lia.
Qed.

Lemma leg_repriced_mono intent views q q' leg lc :
  q' <= q → leg_repriced intent views q leg lc → leg_repriced intent views q' leg lc.
Proof. intros Hq (?&?&?&?&?&?&?&?&?). split_and!; try done. nia. Qed.

Lemma reprice_loop_ok intent views legs i r r' :
  (∀ v, v ∈ views → bv_wf v) → 0 < oi_bundle_qty intent →
  (i + length legs <= length (cr_legs r))%nat → cr_risk_total_cost_tick r <= i64_max →
  reprice_loop intent views i legs r = inr r' →
  cr_risk_total_cost_tick r' = cr_risk_total_cost_tick r + sum_list_Z (leg_fill_cost intent views) legs ∧
  cr_risk_total_cost_tick r' <= i64_max ∧
  cr_risk_bundle_qty r' <= cr_risk_bundle_qty r ∧
  (oi_bundle_qty intent <= cr_risk_bundle_qty r → oi_bundle_qty intent <= cr_risk_bundle_qty r') ∧
  cr_ok r' = cr_ok r ∧ cr_leg_count r' = cr_leg_count r ∧ cr_vwap_mode r' = cr_vwap_mode r ∧
  (∀ k, (k < i)%nat → cr_legs r' !! k = cr_legs r !! k) ∧
  (∀ j leg, legs !! j = Some leg → ∃ lc, cr_legs r' !! (i + j)%nat = Some lc ∧
     leg_repriced intent views (cr_risk_bundle_qty r') leg lc).
Proof.
  intros Hwf Hqty. revert i r; induction legs as [|leg legs IH]; intros i r Hlen Hmax Hr.
  { cbn in Hr. simplify_eq. cbn. split_and!; try done; lia. }
  cbn [reprice_loop length] in *. destruct (reprice_leg intent views i leg r) as [|r1] eqn:E; [done|].
  apply reprice_leg_ok in E as (lc & Hlegs & Hlc & Hcost & Hmax1 & Hle & _ & Hge & Hok & Hcnt & Hmode); [|done|done|lia].
  apply IH in Hr as (Hcost' & Hmax' & Hle' & Hge' & Hok' & Hcnt' & Hmode' & Hlow & Hall);
    [|rewrite Hlegs, length_insert; lia|done].
  cbn [sum_list_Z]. split_and!; [lia|done|lia|auto|congruence..| |].
  - intros k Hk. rewrite Hlow, Hlegs, list_lookup_insert_ne by lia. done.
  - intros [|j] l Hj; cbn in Hj; simplify_eq.
    + exists lc. rewrite Nat.add_0_r, Hlow, Hlegs, list_lookup_insert_eq by lia.
      split; [done|]. by eapply leg_repriced_mono.
    + rewrite <- Nat.add_succ_comm. auto.
Qed.

Lemma reprice_leg_early intent views i leg r early :
  reprice_leg intent views i leg r = inl early → cr_ok early = false.
Proof.
  unfold reprice_leg. intros Hr. repeat case_match; simplify_eq; try done.
  all: by apply negb_true_iff.
Qed.

Lemma reprice_loop_early intent views legs i r early :
  reprice_loop intent views i legs r = inl early → cr_ok early = false.
Proof.
  revert i r; induction legs as [|leg legs IH]; intros i r Hr; cbn in Hr; [done|].
  destruct (reprice_leg intent views i leg r) eqn:E; simplify_eq; eauto using reprice_leg_early.
Qed.

(** A successful repricing is exact: every leg is a valid BUY whose
    evidence was found, the risk cost is the sum over the legs of the exact
    greedy cost of [quantity_lots * bundle_qty] lots, every leg is recorded
    with enough depth, and the executable bundle count covers the intent and
    fits the depth of every leg. *)
Theorem reprice_exact intent views :
  (∀ v, v ∈ views → bv_wf v) →
  cr_ok (reprice intent views) = true →
  let r := reprice intent views in
  cr_risk_total_cost_tick r = sum_list_Z (leg_fill_cost intent views) (intent_legs intent) ∧
  0 < oi_bundle_qty intent <= cr_risk_bundle_qty r ∧
  cr_risk_total_cost_tick r <= i64_max ∧
  (∀ j leg, intent_legs intent !! j = Some leg →
     ∃ lc, cr_legs r !! j = Some lc ∧ leg_repriced intent views (cr_risk_bundle_qty r) leg lc).
Proof.
  intros Hwf. unfold reprice.
  destruct (Z.leb_spec (oi_bundle_qty intent) 0); [done|].
  destruct (Nat.eqb_spec (oi_leg_count intent) 0); [done|].
  destruct (Nat.ltb_spec kMaxIntentLegs (oi_leg_count intent)); [done|]. cbn [orb].
  destruct (reprice_loop _ _ _ _ _) as [early|r] eqn:E.
  { intros Hok. apply reprice_loop_early in E. congruence. }
  assert (Hlen : (length (intent_legs intent) <= kMaxIntentLegs)%nat).
  { unfold intent_legs. rewrite length_take. lia. }
  apply reprice_loop_ok in E as (Hcost & Hmax & _ & Hge & _ & _ & _ & _ & Hall);
    [|done|done|exact Hlen|cbn; lia].
  destruct (Z.eqb_spec (cr_risk_bundle_qty r) i64_max); [done|].
  destruct (Z.ltb_spec (cr_risk_bundle_qty r) (oi_bundle_qty intent)); [done|].
  intros _. cbv zeta. split_and!; [rewrite Hcost; cbn; lia|lia|done..].
Qed.

(** What reuse of the signal's cost requires of the intent and its evidence. *)
Definition reuse_justified (intent : OpportunityIntent) (views : list V)
    (policy : RiskPolicySnapshot) (now hash : Z) : Prop :=
  now < oi_expires_at_ns intent ∧ hash = oi_snapshot_version_hash intent ∧ hash ≠ 0 ∧
  (∀ leg, leg ∈ intent_legs intent →
     il_side leg = Buy ∧ il_asset_id leg ≠ ""%string ∧ 0 < il_quantity_lots leg ∧
     il_enough_depth leg = true) ∧
  (∀ j leg, intent_legs intent !! j = Some leg → already_seen_asset intent j = false →
     ∃ v, find_view views leg = Some v ∧ bv_update_ns v ≠ 0 ∧ bv_update_ns v <= now ∧
       (0 <= rp_max_book_age_ns policy → wrap_i64 (now - bv_update_ns v) <= rp_max_book_age_ns policy)).

Lemma can_reuse_justified intent views policy now hash :
  can_reuse_signal intent views policy now hash = true →
  0 < oi_bundle_qty intent ∧ 0 <= oi_estimated_cost_tick intent ∧
  reuse_justified intent views policy now hash.
Proof.
  unfold can_reuse_signal, combined_snapshot_hash_matches, views_are_fresh. intros Hr.
  step_if_in Hr; [done|]. step_if_in Hr; [done|]. step_if_in Hr; [done|].
  apply andb_prop in Hr as [Hhash Hfresh].
  step_if_in Hhash; [done|]. step_if_in Hfresh; [done|].
  rewrite existsb_false_elem in Hb1. rewrite forallb_imap_pair in Hfresh. breflect.
  unfold reuse_justified. split_and!; try lia.
  - intros leg Hleg. specialize (Hb1 leg Hleg). cbn in Hb1. breflect. split_and!; (done || lia).
  - intros j leg Hj Hseen. specialize (Hfresh j leg Hj). unfold leg_is_fresh in Hfresh.
    specialize (Hb1 leg ltac:(by eapply list_elem_of_lookup_2)). cbn in Hb1. breflect.
    rewrite (proj2 (String.eqb_neq _ _)), Hseen in Hfresh by done. cbn [orb] in Hfresh.
    destruct (find_view views leg) as [v|]; [|done]. exists v.
    step_if_in Hfresh; [done|]. breflect. apply andb_false_iff in Hfresh.
    split_and!; [done..|]. intros Hage. destruct Hfresh; breflect; lia.
Qed.

(** An accepted revalidation carries the intent's buffers, a cost drift
    within the policy, and a cost that is either repriced exactly against the
    evidence or the signal's own estimate; the estimate is reused only when
    the evidence hash is the one the signal saw and the book behind each
    distinct asset is present and within the policy's age. *)
Theorem revalidate_spec intent views policy now hash :
  cr_ok (revalidate intent views policy now hash) = true →
  let r := revalidate intent views policy now hash in
  cr_cost_drift_tick r = wrap_i64 (cr_risk_total_cost_tick r - oi_estimated_cost_tick intent) ∧
  cr_cost_drift_tick r <= rp_max_allowed_cost_drift_tick policy ∧
  cr_fee_tick r = oi_estimated_fee_tick intent ∧
  cr_slippage_buffer_tick r = oi_slippage_buffer_tick intent ∧
  cr_latency_buffer_tick r = oi_latency_buffer_tick intent ∧
  ((reuse_justified intent views policy now hash ∧
    cr_risk_total_cost_tick r = oi_estimated_cost_tick intent ∧ 0 <= oi_estimated_cost_tick intent ∧
    cr_risk_bundle_qty r = oi_bundle_qty intent) ∨
   (cr_ok (reprice intent views) = true ∧
    cr_risk_total_cost_tick r = cr_risk_total_cost_tick (reprice intent views) ∧
    cr_risk_bundle_qty r = cr_risk_bundle_qty (reprice intent views) ∧
    cr_legs r = cr_legs (reprice intent views))).
Proof.
  unfold revalidate. pose proof (can_reuse_justified intent views policy now hash) as Hreuse.
  set (r0 := if can_reuse_signal intent views policy now hash then _ else _).
  assert (Hr0 : cr_ok r0 = true →
    (reuse_justified intent views policy now hash ∧
     cr_risk_total_cost_tick r0 = oi_estimated_cost_tick intent ∧ 0 <= oi_estimated_cost_tick intent ∧
     cr_risk_bundle_qty r0 = oi_bundle_qty intent) ∨
    (cr_ok (reprice intent views) = true ∧ r0 = reprice intent views)).
  { subst r0. destruct (can_reuse_signal _ _ _ _ _); [left|by right].
    destruct (Hreuse eq_refl) as (? & ? & ?). done. }
  clearbody r0. unfold finish_revalidation.
  destruct (cr_ok r0) eqn:Hok; cbn [negb]; [|congruence].
  specialize (Hr0 eq_refl). step_if; [done|]. breflect. intros _. cbv zeta.
  split_and!; [done|exact Hb|done..|].
  destruct Hr0 as [?|[? ->]]; [by left|by right].
Qed.
End reprice_laws.

(** ** Witnesses on a concrete book *)

Definition demo_snapshot : MarketStateSnapshot :=
  snapshot0 <| ms_entity_id := "yes" |> <| ms_live := true |> <| ms_usable_for_depth := true |>
            <| ms_has_ask := true |> <| ms_ask_count := 2%nat |> <| ms_asks := two_asks |>
            <| ms_version := 3 |> <| ms_last_book_update_ns := 500 |> <| ms_snapshot_version_hash := 77 |>.

Definition buy_leg : IntentLeg :=
  leg0 <| il_market_id := "m1" |> <| il_asset_id := "yes" |> <| il_quantity_lots := 3 |>
       <| il_estimated_cost_tick := 4900000 |>.

Definition priced_intent : OpportunityIntent :=
  intent0 <| oi_intent_id := 7 |> <| oi_bundle_id := 3 |> <| oi_status := IsPaperOpportunity |>
          <| oi_bundle_qty := 4 |> <| oi_guaranteed_payout_tick := 6000000 |>
          <| oi_estimated_cost_tick := 4900000 |> <| oi_total_edge_tick := 1100000 |>
          <| oi_oracle_artifact_hash := 5 |> <| oi_bundle_hash := 6 |>
          <| oi_snapshot_version := 3 |> <| oi_snapshot_version_hash := 77 |>
          <| oi_idempotency_hash := 99 |> <| oi_created_ts_ns := 600 |> <| oi_expires_at_ns := 10000 |>
          <| oi_leg_count := 1%nat |> <| oi_legs := std_array kMaxIntentLegs leg0 [buy_leg] |>.

Lemma reprice_exact_witness :
  cr_risk_total_cost_tick (reprice priced_intent [demo_snapshot]) = 4900000 ∧
  0 < oi_bundle_qty priced_intent <= cr_risk_bundle_qty (reprice priced_intent [demo_snapshot]).
Proof.
  assert (Hwf : ∀ v, v ∈ [demo_snapshot] → bv_wf v) by (intros v _; exact I).
  destruct (reprice_exact priced_intent [demo_snapshot] Hwf ltac:(vm_compute; reflexivity))
    as (Hc & Hq & _).
  split; [rewrite Hc; vm_compute; reflexivity | exact Hq].
Defined.

Lemma revalidate_spec_witness :
  let r := revalidate priced_intent [demo_snapshot] policy0 700 77 in
  cr_cost_drift_tick r = 0 ∧ cr_cost_drift_tick r <= rp_max_allowed_cost_drift_tick policy0.
Proof.
  assert (Hok : cr_ok (revalidate priced_intent [demo_snapshot] policy0 700 77) = true)
    by (vm_compute; reflexivity).
  pose proof (revalidate_spec priced_intent [demo_snapshot] policy0 700 77 Hok) as (_ & Hmax & _).
  split; [vm_compute; reflexivity | exact Hmax].
Defined.
