(* ===== verification/RiskGuards.v ===== *)
(** * RiskGuards: the checks between an intent and its approval

    [engine/risk/guards] and [engine/risk/validate].  A guard is an object with
    a [check] method; the ones with memory (duplicates, rate limit) return
    their new state.  The stateless ones that need the revalidated cost, the
    ledger or the policy are functions of them.  Two guards fold the legs into
    an [unordered_map] and stop at the first entry over a limit; the iteration
    order of the source is unspecified, and the model uses [map_to_list], which
    only matters for which offending id is reported. *)

From S2P Require Import Prelude Doubles FixedPoint Depth RiskTypes Reprice ReservationBook.

(** ** Counters *)

(** [engine/risk/metrics/RiskMetrics.h:15-46] RiskMetrics, without the latency histogram. *)
Record RiskMetrics := mkRiskMetrics {
  rm_evaluate_count : Z;
  rm_approve_count : Z;
  rm_reject_count : Z;
  rm_reject_invalid_intent : Z;
  rm_reject_expired : Z;
  rm_reject_duplicate : Z;
  rm_reject_kill_switch : Z;
  rm_reject_stale_book : Z;
  rm_reject_insufficient_depth : Z;
  rm_reject_cost_drift : Z;
  rm_reject_low_edge : Z;
  rm_reject_exposure : Z;
  rm_reject_inventory : Z;
  rm_reject_partial_fill : Z;
  rm_reject_max_loss : Z;
  rm_reject_rate_limited : Z;
  rm_reservation_created : Z;
  rm_reservation_expired : Z;
  rm_reservation_released : Z;
  rm_vwap_reused_signal_cost : Z;
  rm_vwap_reused_signal_snapshot : Z;
  rm_vwap_recomputed : Z;
  rm_snapshot_fast_path : Z;
  rm_snapshot_requery : Z
}.
Definition metrics0 : RiskMetrics :=
  mkRiskMetrics 0 0 0 0 0 0 0 0 0 0 0 0 0 0 0 0 0 0 0 0 0 0 0 0.

(** [engine/risk/public/RiskResult.h:69-89] RiskResult, without the stage timings. *)
Record RiskResult := mkRiskResult {
  rt_intents_evaluated : Z;
  rt_intents_approved : Z;
  rt_intents_rejected : Z;
  rt_rejected_kill_switch : Z;
  rt_rejected_low_edge : Z;
  rt_rejected_cost_limit : Z;
  rt_rejected_exposure_limit : Z;
  rt_rejected_inventory_limit : Z;
  rt_rejected_stale_or_expired : Z;
  rt_rejected_drift_or_slippage : Z;
  rt_rejected_pending_or_rate_limit : Z;
  rt_rejected_bad_market_state : Z;
  rt_rejected_snapshot_freshness : Z;
  rt_rejected_partial_fill_risk : Z;
  rt_output_hash : Z;
  rt_metrics : RiskMetrics
}.
Definition risk_result0 : RiskResult := mkRiskResult 0 0 0 0 0 0 0 0 0 0 0 0 0 0 0 metrics0.

(** [++] on a [std::uint64_t]. *)
Definition inc_u64 (n : Z) : Z := wrap_u64 (n + 1).

(** ** Guards with a common interface *)

(** [engine/risk/guards/IRiskGuard.h:13-19] kRiskRejectFlag*. *)
Definition kRiskRejectFlagKillSwitch : Z := 1.
Definition kRiskRejectFlagExpiredIntent : Z := 2.
Definition kRiskRejectFlagDuplicateIntent : Z := 4.
Definition kRiskRejectFlagRateLimited : Z := 8.
Definition kRiskRejectFlagBadMarketState : Z := 16.
Definition kRiskRejectFlagStaleSnapshot : Z := 32.
Definition kRiskRejectFlagInternalError : Z := 2 ^ 63.

(** [engine/risk/guards/IRiskGuard.h:21-27] GuardResult. *)
Record GuardResult := mkGuardResult {
  gr_pass : bool;
  gr_requires_reprice : bool;
  gr_rejection : RiskDecisionType;
  gr_reject_flag : Z;
  gr_reason : string
}.

(** [engine/risk/guards/IRiskGuard.cpp:5-11] pass_guard. *)
Definition pass_guard : GuardResult := mkGuardResult true false DtPass 0 "".

Definition fail_guard (rejection : RiskDecisionType) (flag : Z) (reason : string) : GuardResult :=
  mkGuardResult false false rejection flag reason.

(** [engine/risk/guards/IRiskGuard.h:29-37] IRiskGuard. *)
Class IRiskGuard (G : Type) := guard_check : G → OpportunityIntent → Z → G * GuardResult.

(** [engine/risk/guards/KillSwitchGuard.cpp:11-25] KillSwitchGuard::check; the state is [enabled_]. *)
Definition kill_switch_check (enabled : bool) (_ : OpportunityIntent) (_ : Z) : bool * GuardResult :=
  if negb enabled then (enabled, pass_guard)
  else (enabled, fail_guard RejectKillSwitch kRiskRejectFlagKillSwitch "kill switch enabled").

(** [engine/risk/guards/IntentExpiryGuard.cpp:5-19] IntentExpiryGuard::check. *)
Definition expiry_check (g : unit) (intent : OpportunityIntent) (now_ns : Z) : unit * GuardResult :=
  if now_ns <? oi_expires_at_ns intent then (g, pass_guard)
  else (g, fail_guard RejectExpiredIntent kRiskRejectFlagExpiredIntent "intent expired").

(** [engine/risk/guards/DuplicateIntentGuard.h:11-23] DuplicateIntentGuard. *)
Record DuplicateIntentGuard := mkDuplicateIntentGuard {
  dg_seen_idempotency_hashes : gset Z;
  dg_seen_idempotency_keys : gset string
}.

(** [engine/risk/guards/DuplicateIntentGuard.cpp:5-45] DuplicateIntentGuard::check. *)
Definition duplicate_check (g : DuplicateIntentGuard) (intent : OpportunityIntent) (_ : Z)
    : DuplicateIntentGuard * GuardResult :=
  if negb (oi_idempotency_hash intent =? 0) then
    if bool_decide (oi_idempotency_hash intent ∈ dg_seen_idempotency_hashes g)
    then (g, fail_guard RejectDuplicateIntent kRiskRejectFlagDuplicateIntent "duplicate idempotency_hash")
    else (g <| dg_seen_idempotency_hashes ::= union {[oi_idempotency_hash intent]} |>, pass_guard)
  else if String.eqb (oi_idempotency_key intent) "" then
    (g, fail_guard RejectInternalError kRiskRejectFlagInternalError "missing idempotency_key")
  else if bool_decide (oi_idempotency_key intent ∈ dg_seen_idempotency_keys g)
  then (g, fail_guard RejectDuplicateIntent kRiskRejectFlagDuplicateIntent "duplicate idempotency_key")
  else (g <| dg_seen_idempotency_keys ::= union {[oi_idempotency_key intent]} |>, pass_guard).

(** [engine/risk/guards/DuplicateIntentGuard.cpp:47-50] DuplicateIntentGuard::clear. *)
Definition duplicate_clear (_ : DuplicateIntentGuard) : DuplicateIntentGuard :=
  mkDuplicateIntentGuard ∅ ∅.

(** [engine/risk/guards/RateLimitGuard.cpp:7-7] kNsPerSecond. *)
Definition kNsPerSecond : Z := 1000000000.

(** [engine/risk/guards/RateLimitGuard.h:9-24] RateLimitGuard. *)
Record RateLimitGuard := mkRateLimitGuard {
  rg_max_per_second : Z;
  rg_window_second : Z;
  rg_used_in_window : Z
}.

(** [engine/risk/guards/RateLimitGuard.cpp:14-18] set_max_per_second. *)
Definition set_max_per_second (g : RateLimitGuard) (max_per_second : Z) : RateLimitGuard :=
  g <| rg_max_per_second := max_per_second |>.

(** [engine/risk/guards/RateLimitGuard.cpp:20-41] RateLimitGuard::check. *)
Definition rate_limit_check (g : RateLimitGuard) (_ : OpportunityIntent) (now_ns : Z)
    : RateLimitGuard * GuardResult :=
  let second := Z.quot now_ns kNsPerSecond in
  let g :=
    if negb (second =? rg_window_second g)
    then g <| rg_window_second := second |> <| rg_used_in_window := 0 |> else g in
  if rg_used_in_window g <? rg_max_per_second g
  then (g <| rg_used_in_window ::= λ n, wrap_u32 (n + 1) |>, pass_guard)
  else (g, fail_guard RejectRateLimited kRiskRejectFlagRateLimited "risk approval rate limit exceeded").

#[export] Instance kill_switch_guard : IRiskGuard bool := kill_switch_check.
#[export] Instance expiry_guard : IRiskGuard unit := expiry_check.
#[export] Instance duplicate_guard : IRiskGuard DuplicateIntentGuard := duplicate_check.
#[export] Instance rate_limit_guard : IRiskGuard RateLimitGuard := rate_limit_check.

(** A pointer to a guard, with the guard's own state. *)
Inductive AnyGuard := mkAnyGuard (G : Type) (C : IRiskGuard G) (g : G).

(** [engine/risk/guards/IRiskGuard.cpp:70-92] run_risk_guards; a null pointer is [None]. *)
Fixpoint run_risk_guards (guards : list (option AnyGuard)) (intent : OpportunityIntent) (now_ns : Z)
    : list (option AnyGuard) * GuardResult :=
  match guards with
  | [] => ([], pass_guard)
  | None :: rest =>
      (guards, fail_guard RejectInternalError kRiskRejectFlagInternalError "null risk guard")
  | Some (mkAnyGuard G C g) :: rest =>
      let '(g, result) := C g intent now_ns in
      if negb (gr_pass result) then (Some (mkAnyGuard G C g) :: rest, result)
      else
        let '(rest, result) := run_risk_guards rest intent now_ns in
        (Some (mkAnyGuard G C g) :: rest, result)
  end.

(** [engine/risk/guards/IRiskGuard.cpp:13-68] record_guard_result. *)
Definition record_guard_result (result : GuardResult) (risk_result : RiskResult) : RiskResult :=
  if gr_pass result then risk_result
  else
    let r := risk_result <| rt_intents_rejected ::= inc_u64 |> in
    match gr_rejection result with
    | RejectKillSwitch => r <| rt_rejected_kill_switch ::= inc_u64 |>
    | RejectExpiredIntent => r <| rt_rejected_stale_or_expired ::= inc_u64 |>
    | RejectDuplicateIntent | RejectRateLimited => r <| rt_rejected_pending_or_rate_limit ::= inc_u64 |>
    | RejectBadMarketState => r <| rt_rejected_bad_market_state ::= inc_u64 |>
    | RejectStaleSnapshot => r <| rt_rejected_snapshot_freshness ::= inc_u64 |>
    | RejectInsufficientDepth => r <| rt_rejected_cost_limit ::= inc_u64 |>
    | RejectCostDrift => r <| rt_rejected_drift_or_slippage ::= inc_u64 |>
    | RejectReducedBundleQty => r <| rt_rejected_inventory_limit ::= inc_u64 |>
    | RejectLowTotalEdge | RejectLowUnitEdge | RejectLowEdgeBps => r <| rt_rejected_low_edge ::= inc_u64 |>
    | RejectCostLimit => r <| rt_rejected_cost_limit ::= inc_u64 |>
    | RejectTotalExposureLimit | RejectSingleMarketExposureLimit =>
        r <| rt_rejected_exposure_limit ::= inc_u64 |>
    | RejectInventoryLimit => r <| rt_rejected_inventory_limit ::= inc_u64 |>
    | RejectPartialFillRisk => r <| rt_rejected_partial_fill_risk ::= inc_u64 |>
    | DtPass | RejectInternalError => r
    end.

(** ** Validation *)

(** [engine/risk/validate/IntentValidator.h:11-15] IntentValidationResult. *)
Record IntentValidationResult := mkIntentValidationResult {
  iv_ok : bool;
  iv_reject_reason : RiskRejectReason;
  iv_detail : string
}.
Definition validation_reject (reason : RiskRejectReason) (detail : string) : IntentValidationResult :=
  mkIntentValidationResult false reason detail.
Definition validation_accept : IntentValidationResult := mkIntentValidationResult true RrNone "".

(** [engine/risk/validate/IntentValidator.cpp:29-68] IntentValidator::validate. *)
Definition validate_intent (intent : OpportunityIntent) (now_ns : Z) : IntentValidationResult :=
  if oi_intent_id intent =? 0 then validation_reject RrInvalidIntent "missing intent_id"
  else if oi_bundle_id intent =? 0 then validation_reject RrInvalidIntent "missing bundle_id"
  else if negb (bool_decide (oi_status intent = IsPaperOpportunity)) then
    validation_reject RrInvalidIntent "intent is not PaperOpportunity"
  else if oi_bundle_qty intent <=? 0 then validation_reject RrInvalidIntent "missing bundle_qty"
  else if oi_total_edge_tick intent <=? 0 then
    validation_reject RrLowTotalEdge "missing or non-positive total_edge_tick"
  else if oi_expires_at_ns intent <=? now_ns then validation_reject RrExpiredIntent "intent expired"
  else if (oi_idempotency_hash intent =? 0) && String.eqb (oi_idempotency_key intent) "" then
    validation_reject RrMissingEvidence "missing idempotency evidence"
  else if (oi_leg_count intent =? 0)%nat || (kMaxIntentLegs <? oi_leg_count intent)%nat then
    validation_reject RrInvalidIntent "invalid leg_count"
  else validation_accept.

(** [engine/risk/validate/IntentEvidenceVerifier.cpp:26-52] IntentEvidenceVerifier::verify. *)
Definition verify_evidence (intent : OpportunityIntent) : IntentValidationResult :=
  let reject := validation_reject RrMissingEvidence in
  if oi_oracle_artifact_hash intent =? 0 then reject "missing oracle_artifact_hash"%string
  else if oi_bundle_hash intent =? 0 then reject "missing bundle_hash"%string
  else if oi_snapshot_version_hash intent =? 0 then reject "missing snapshot_version_hash"%string
  else if oi_created_ts_ns intent =? 0 then reject "missing created_ts_ns"%string
  else if oi_expires_at_ns intent =? 0 then reject "missing expires_at_ns"%string
  else if oi_expires_at_ns intent <=? oi_created_ts_ns intent then
    reject "expires_at_ns must be greater than created_ts_ns"%string
  else if (oi_idempotency_hash intent =? 0) && String.eqb (oi_idempotency_key intent) "" then
    reject "missing idempotency evidence"%string
  else validation_accept.

(** ** Market state and freshness *)

Definition bad_market (reason : string) : GuardResult :=
  fail_guard RejectBadMarketState kRiskRejectFlagBadMarketState reason.
Definition stale_snapshot (reason : string) : GuardResult :=
  fail_guard RejectStaleSnapshot kRiskRejectFlagStaleSnapshot reason.

(** [engine/risk/guards/MarketStateGuard.cpp:20-46] MarketStateGuard::check on a snapshot pointer. *)
Definition market_state_check (snapshot : option MarketStateSnapshot) : GuardResult :=
  match snapshot with
  | None => bad_market "snapshot missing"
  | Some s =>
      if String.eqb (ms_entity_id s) "" then bad_market "snapshot missing"
      else if negb (ms_live s) then bad_market "snapshot not live or market halted"
      else if negb (ms_usable_for_depth s) then bad_market "snapshot not usable for depth"
      else if ms_recovering s then bad_market "snapshot recovering"
      else if ms_crossed s then bad_market "snapshot crossed"
      else if ms_closed s then bad_market "snapshot closed"
      else if ms_resolved s then bad_market "snapshot resolved"
      else pass_guard
  end.

(** [engine/risk/guards/MarketStateGuard.cpp:48-71] MarketStateGuard::check on a depth view pointer. *)
Definition market_state_check_view (view : option MarketDepthView) : GuardResult :=
  match view with
  | None => bad_market "depth view missing"
  | Some v =>
      if negb (dv_usable_for_depth v) then bad_market "depth view not usable for depth"
      else if dv_recovering v then bad_market "depth view recovering"
      else if dv_crossed v then bad_market "depth view crossed"
      else if dv_closed v then bad_market "depth view closed"
      else if dv_resolved v then bad_market "depth view resolved"
      else pass_guard
  end.

(** The two overloads of [SnapshotFreshnessGuard::check] differ in the fields
    they read and in the word that opens their messages. *)
Definition freshness_check (noun : string) (update_ns version hash : Z)
    (intent : OpportunityIntent) (policy : RiskPolicySnapshot) (now_ns : Z) : GuardResult :=
  if (update_ns =? 0) || (now_ns <? update_ns) then
    stale_snapshot ("invalid " +:+ noun +:+ " update timestamp")
  else
    let age_ns := wrap_i64 (now_ns - update_ns) in
    if (0 <=? rp_max_book_age_ns policy) && (rp_max_book_age_ns policy <? age_ns) then
      stale_snapshot (noun +:+ " too old")
    else if negb (hash =? oi_snapshot_version_hash intent) then
      let version_drift :=
        if oi_snapshot_version intent <? version then wrap_u64 (version - oi_snapshot_version intent)
        else wrap_u64 (oi_snapshot_version intent - version) in
      if (0 <=? rp_max_snapshot_skew_ns policy) &&
         (wrap_u64 (rp_max_snapshot_skew_ns policy) <? version_drift)
      then stale_snapshot (noun +:+ " version drift exceeds tolerance")
      else pass_guard <| gr_requires_reprice := true |>
                      <| gr_reason := noun +:+ " hash changed; reprice required" |>
    else pass_guard.

(** [engine/risk/guards/SnapshotFreshnessGuard.cpp:18-69] SnapshotFreshnessGuard::check on a snapshot. *)
Definition snapshot_freshness_check (s : MarketStateSnapshot) :=
  freshness_check "snapshot" (ms_last_book_update_ns s) (ms_version s)
    (if negb (ms_snapshot_version_hash s =? 0) then ms_snapshot_version_hash s else ms_state_hash s).

(** [engine/risk/guards/SnapshotFreshnessGuard.cpp:71-107] SnapshotFreshnessGuard::check on a depth view. *)
Definition view_freshness_check (v : MarketDepthView) :=
  freshness_check "depth view" (dv_last_ws_recv_ns v) (dv_book_version v) (dv_snapshot_version_hash v).

(** ** Guards on the revalidated cost *)

(** [engine/common/math/RiskMath.h:69-78] passes_edge_thresholds. *)
Definition passes_edge_thresholds (unit_edge total_edge edge_bps : Z) (policy : RiskPolicySnapshot) : bool :=
  (rp_min_post_risk_total_edge_tick policy <=? total_edge) &&
  (rp_min_post_risk_unit_edge_tick policy <=? unit_edge) &&
  (rp_min_edge_bps policy <=? edge_bps).

(** [engine/risk/guards/EdgeGuard.h:10-19] EdgeGuardResult. *)
Record EdgeGuardResult := mkEdgeGuardResult {
  eg_pass : bool;
  eg_rejection : RiskDecisionType;
  eg_post_risk_edge_tick : Z;
  eg_unit_edge_tick : Z;
  eg_edge_bps : Z;
  eg_reason : string
}.
Definition edge_reject (type : RiskDecisionType) (reason : string) (r : EdgeGuardResult) : EdgeGuardResult :=
  r <| eg_pass := false |> <| eg_rejection := type |> <| eg_reason := reason |>.

(** [engine/risk/guards/EdgeGuard.cpp:24-99] EdgeGuard::check. *)
Definition edge_check (intent : OpportunityIntent) (cost : CostRevalidationResult)
    (policy : RiskPolicySnapshot) : EdgeGuardResult :=
  let result := mkEdgeGuardResult false RejectInternalError 0 0 0 "" in
  if negb (cr_ok cost) || (cr_risk_bundle_qty cost <=? 0) then
    edge_reject RejectInternalError "invalid cost revalidation result" result
  else
    let guaranteed_payout_per_bundle :=
      if 0 <? oi_bundle_qty intent then Z.quot (oi_guaranteed_payout_tick intent) (oi_bundle_qty intent)
      else oi_guaranteed_payout_tick intent in
    let edge := compute_post_risk_edge
      (mkRiskEdgeMathInput guaranteed_payout_per_bundle (cr_risk_bundle_qty cost)
         (cr_risk_total_cost_tick cost) (cr_fee_tick cost) (cr_slippage_buffer_tick cost)
         (cr_latency_buffer_tick cost)) in
    if negb (rr_ok edge) then edge_reject RejectInternalError "post-risk edge overflow" result
    else
      let result := result <| eg_post_risk_edge_tick := rr_post_risk_edge_tick edge |>
        <| eg_unit_edge_tick := rr_unit_edge_tick edge |> <| eg_edge_bps := rr_edge_bps edge |> in
      let pass := result <| eg_pass := true |> <| eg_rejection := DtPass |> in
      if negb (passes_edge_thresholds (eg_unit_edge_tick result) (eg_post_risk_edge_tick result)
                 (eg_edge_bps result) policy) then
        if eg_post_risk_edge_tick result <? rp_min_post_risk_total_edge_tick policy then
          edge_reject RejectLowTotalEdge "post-risk total edge below threshold" result
        else if eg_unit_edge_tick result <? rp_min_post_risk_unit_edge_tick policy then
          edge_reject RejectLowUnitEdge "post-risk unit edge below threshold" result
        else if eg_edge_bps result <? rp_min_edge_bps policy then
          edge_reject RejectLowEdgeBps "post-risk edge bps below threshold" result
        else pass
      else pass.

(** [engine/risk/guards/MaxLossGuard.h:10-15] MaxLossGuardResult. *)
Record MaxLossGuardResult := mkMaxLossGuardResult {
  ml_pass : bool;
  ml_rejection : RiskDecisionType;
  ml_max_loss_tick : Z;
  ml_reason : string
}.

(** [engine/risk/guards/MaxLossGuard.cpp:24-61] MaxLossGuard::check. *)
Definition max_loss_check (intent : OpportunityIntent) (cost : CostRevalidationResult)
    (policy : RiskPolicySnapshot) : MaxLossGuardResult :=
  if negb (cr_ok cost) then
    mkMaxLossGuardResult false RejectInternalError 0 "invalid cost revalidation result"
  else if existsb (λ leg, negb (bool_decide (il_side leg = Buy))) (intent_legs intent) then
    mkMaxLossGuardResult false RejectInternalError 0 "SELL leg max loss unsupported in risk v0"
  else
    let max_loss := cr_risk_total_cost_tick cost in
    if (0 <? rp_max_total_cost_tick policy) && (rp_max_total_cost_tick policy <? max_loss) then
      mkMaxLossGuardResult false RejectCostLimit max_loss "risk total cost exceeds policy max"
    else mkMaxLossGuardResult true DtPass max_loss "".

(** [engine/risk/guards/ExposureGuard.h:13-22] ExposureGuardResult. *)
Record ExposureGuardResult := mkExposureGuardResult {
  xg_pass : bool;
  xg_rejection : RiskDecisionType;
  xg_post_total_exposure_tick : Z;
  xg_rejected_market_id : string;
  xg_post_market_exposure_tick : Z;
  xg_reason : string
}.

(** [map\[id\] += amount] over the legs, skipping legs without an id. *)
Definition fold_legs (id : IntentLeg → string) (amount : IntentLeg → Z) (legs : list IntentLeg)
    : gmap string Z :=
  foldl (λ out leg,
    if String.eqb (id leg) "" then out
    else <[id leg := default 0 (out !! id leg) +i amount leg]> out) ∅ legs.

(** [engine/risk/guards/ExposureGuard.cpp:22-47] market_costs. *)
Definition market_costs (intent : OpportunityIntent) (cost : CostRevalidationResult) : gmap string Z :=
  let out := fold_legs il_market_id (λ leg, Z.max (il_estimated_cost_tick leg) 0) (intent_legs intent) in
  if (size out =? 1)%nat then (λ _, Z.max (cr_risk_total_cost_tick cost) 0) <$> out else out.

(** The search for the first entry that exceeds a limit on top of the ledger. *)
Definition first_over (limit : Z) (ledger incoming : gmap string Z) : option (string * Z) :=
  list_find (λ '(_, post), limit < post)
    ((λ '(id, amount), (id, default 0 (ledger !! id) +i amount)) <$> map_to_list incoming)
  ≫= λ '(_, entry), Some entry.

(** [engine/risk/guards/ExposureGuard.cpp:51-108] ExposureGuard::check. *)
Definition exposure_check (ledger : RiskLedgerSnapshot) (intent : OpportunityIntent)
    (cost : CostRevalidationResult) (policy : RiskPolicySnapshot) : ExposureGuardResult :=
  if negb (cr_ok cost) then
    mkExposureGuardResult false RejectInternalError 0 "" 0 "invalid cost revalidation result"
  else
    let post_total :=
      ls_total_reserved_exposure_tick ledger +i Z.max (cr_risk_total_cost_tick cost) 0 in
    if (0 <? rp_max_total_exposure_tick policy) && (rp_max_total_exposure_tick policy <? post_total) then
      mkExposureGuardResult false RejectTotalExposureLimit post_total "" 0 "total exposure limit exceeded"
    else
      match (if 0 <? rp_max_single_market_exposure_tick policy
             then first_over (rp_max_single_market_exposure_tick policy)
                    (ls_reserved_market_exposure_tick ledger) (market_costs intent cost)
             else None) with
      | Some (market_id, post_market) =>
          mkExposureGuardResult false RejectSingleMarketExposureLimit post_total market_id post_market
            "single market exposure limit exceeded"
      | None => mkExposureGuardResult true DtPass post_total "" 0 ""
      end.

(** [engine/risk/guards/InventoryGuard.h:13-21] InventoryGuardResult. *)
Record InventoryGuardResult := mkInventoryGuardResult {
  ig_pass : bool;
  ig_rejection : RiskDecisionType;
  ig_rejected_asset_id : string;
  ig_post_asset_lots : Z;
  ig_reason : string
}.

(** [engine/risk/guards/InventoryGuard.cpp:24-80] InventoryGuard::check. *)
Definition inventory_check (ledger : RiskLedgerSnapshot) (intent : OpportunityIntent)
    (cost : CostRevalidationResult) (policy : RiskPolicySnapshot) : InventoryGuardResult :=
  if negb (cr_ok cost) then
    mkInventoryGuardResult false RejectInternalError "" 0 "invalid cost revalidation result"
  else if rp_max_inventory_lots_per_asset policy <=? 0 then mkInventoryGuardResult true DtPass "" 0 ""
  else
    let incoming := fold_legs il_asset_id (λ leg, Z.max (il_quantity_lots leg) 0) (intent_legs intent) in
    match first_over (rp_max_inventory_lots_per_asset policy) (ls_reserved_asset_lots ledger) incoming with
    | Some (asset_id, post) =>
        mkInventoryGuardResult false RejectInventoryLimit asset_id post "asset inventory limit exceeded"
    | None => mkInventoryGuardResult true DtPass "" 0 ""
    end.

(** ** Partial fills *)

(** [engine/risk/guards/PartialFillGuard.cpp:39-58] required_with_margin_bps. *)
Definition required_with_margin_bps (requested_qty_lots margin_bps : Z) : Z :=
  if requested_qty_lots <=? 0 then 0
  else
    let margin_bps := if margin_bps <? 10000 then 10000 else margin_bps in
    let value := requested_qty_lots * margin_bps in
    let required := Z.quot (value + 9999) 10000 in
    if i64_max <? required then i64_max else required.

(** [engine/risk/guards/PartialFillGuard.cpp:76-97] effective_min_depth_margin_bps. *)
Definition effective_min_depth_margin_bps (policy : RiskPolicySnapshot) : Z :=
  let near_default := double_lt (SFabs (double_sub (rp_min_depth_margin_ratio policy) d1_20)) d1e_6 in
  if (0 <? rp_min_depth_margin_bps policy) &&
     (negb (rp_min_depth_margin_bps policy =? 12000) || near_default)
  then rp_min_depth_margin_bps policy
  else
    let ratio := rp_min_depth_margin_ratio policy in
    let ratio := if negb (isfinite ratio) || double_lt ratio d1_0 then d1_0 else ratio in
    let bps := double_mul ratio d10000 in
    if negb (isfinite bps) || (2 ^ 63 <=? ceil_Z bps) then i64_max else ceil_Z bps.

(** [engine/risk/guards/PartialFillGuard.h:12-27] PartialFillGuardResult. *)
Record PartialFillGuardResult := mkPartialFillGuardResult {
  pf_pass : bool;
  pf_rejection : RiskDecisionType;
  pf_depth_margin_checked : bool;
  pf_unhedged_loss_evaluated : bool;
  pf_unhedged_loss_placeholder_available : bool;
  pf_rejected_asset_id : string;
  pf_requested_qty_lots : Z;
  pf_available_depth_lots : Z;
  pf_required_depth_with_margin_lots : Z;
  pf_max_unhedged_loss_tick : Z;
  pf_reason : string
}.
Definition partial_reject (type : RiskDecisionType) (reason : string) (r : PartialFillGuardResult)
    : PartialFillGuardResult :=
  r <| pf_pass := false |> <| pf_rejection := type |> <| pf_reason := reason |>.
Definition partial_pass (r : PartialFillGuardResult) : PartialFillGuardResult :=
  r <| pf_pass := true |> <| pf_rejection := DtPass |>.

(** [engine/risk/guards/PartialFillGuard.cpp:143-200] PartialFillGuard::check, one leg: [Some] is an early return. *)
Definition partial_fill_leg (cost : CostRevalidationResult) (min_bps : Z)
    (leg : IntentLeg) (leg_cost : RevalidatedLegCost) (result : PartialFillGuardResult)
    : option PartialFillGuardResult :=
  if negb (bool_decide (il_side leg = Buy)) || String.eqb (il_asset_id leg) "" ||
     (il_quantity_lots leg <=? 0)
  then Some (partial_reject RejectPartialFillRisk "unsupported or invalid leg for partial fill guard" result)
  else if negb (String.eqb (lc_asset_id leg_cost) "") &&
          negb (String.eqb (lc_asset_id leg_cost) (il_asset_id leg))
  then Some (partial_reject RejectPartialFillRisk "revalidated leg asset mismatch"
               (result <| pf_rejected_asset_id := il_asset_id leg |>))
  else
    match (if lc_requested_qty_lots leg_cost <=? 0
           then checked_mul_i64 (il_quantity_lots leg) (cr_risk_bundle_qty cost)
           else Some (lc_requested_qty_lots leg_cost)) with
    | None => Some (partial_reject RejectPartialFillRisk "requested quantity overflow"
                      (result <| pf_rejected_asset_id := il_asset_id leg |>))
    | Some requested =>
        let available := lc_executable_qty_lots leg_cost in
        let margin_bps :=
          if 0 <? lc_depth_margin_bps leg_cost then lc_depth_margin_bps leg_cost
          else depth_margin_bps available requested in
        if negb (lc_enough_depth leg_cost) || (margin_bps <? min_bps) then
          Some (partial_reject RejectPartialFillRisk "depth margin below policy"
            (result <| pf_rejected_asset_id := il_asset_id leg |>
                    <| pf_requested_qty_lots := requested |>
                    <| pf_available_depth_lots := available |>
                    <| pf_required_depth_with_margin_lots := required_with_margin_bps requested min_bps |>))
        else None
    end.

Fixpoint partial_fill_loop (cost : CostRevalidationResult) (min_bps : Z)
    (legs : list (IntentLeg * RevalidatedLegCost)) (result : PartialFillGuardResult)
    : PartialFillGuardResult :=
  match legs with
  | [] => partial_pass result
  | (leg, leg_cost) :: rest =>
      match partial_fill_leg cost min_bps leg leg_cost result with
      | Some early => early
      | None => partial_fill_loop cost min_bps rest result
      end
  end.

(** [engine/risk/guards/PartialFillGuard.cpp:101-205] PartialFillGuard::check. *)
Definition partial_fill_check (intent : OpportunityIntent) (cost : CostRevalidationResult)
    (policy : RiskPolicySnapshot) : PartialFillGuardResult :=
  let result := mkPartialFillGuardResult false RejectInternalError false false true "" 0 0 0
    (rp_max_unhedged_loss_tick policy) "" in
  if negb (cr_ok cost) || (cr_risk_bundle_qty cost <=? 0) then
    partial_reject RejectInternalError "invalid cost revalidation result" result
  else if (oi_leg_count intent =? 0)%nat || (kMaxIntentLegs <? oi_leg_count intent)%nat then
    partial_reject RejectInternalError "invalid intent legs" result
  else if (oi_leg_count intent =? 1)%nat then partial_pass result
  else
    let result := result <| pf_depth_margin_checked := true |> in
    let min_bps := effective_min_depth_margin_bps policy in
    if (cr_leg_count cost <? oi_leg_count intent)%nat then
      partial_reject RejectPartialFillRisk "missing revalidated leg depth" result
    else partial_fill_loop cost min_bps (zip (intent_legs intent) (cr_legs cost)) result.

(** ** The rate limit *)

(** The verdicts of a sequence of checks, each with its second. *)
Fixpoint rate_run (g : RateLimitGuard) (intent : OpportunityIntent) (times : list Z) : list (Z * bool) :=
  match times with
  | [] => []
  | now :: rest =>
      let '(g, r) := rate_limit_check g intent now in
      (Z.quot now kNsPerSecond, gr_pass r) :: rate_run g intent rest
  end.

Definition passes_in (second : Z) (run : list (Z * bool)) : Z :=
  sum_list_Z (λ '(s, pass), if (s =? second) && (pass : bool) then 1 else 0) run.

Definition in_window (g : RateLimitGuard) : Prop :=
  0 <= rg_used_in_window g ∧ 0 <= rg_max_per_second g < u32_mod.

Lemma rate_limit_check_spec g intent now :
  in_window g →
  let '(g', r) := rate_limit_check g intent now in
  let used := if Z.quot now kNsPerSecond =? rg_window_second g then rg_used_in_window g else 0 in
  in_window g' ∧ rg_max_per_second g' = rg_max_per_second g ∧
  rg_window_second g' = Z.quot now kNsPerSecond ∧
  gr_pass r = (used <? rg_max_per_second g) ∧
  rg_used_in_window g' = used + (if gr_pass r then 1 else 0).
Proof.
  intros [Hu Hm]. destruct g as [m w u]; cbn in *. unfold rate_limit_check; cbn.
  destruct (Z.eqb_spec (Z.quot now kNsPerSecond) w) as [Hw|Hw]; cbn [negb];
    unfold in_window; cbn.
  - destruct (Z.ltb_spec u m); cbn; unfold constant; cbn;
      [unfold wrap_u32; rewrite Z.mod_small by lia|]; split_and!; try lia; done.
  - unfold constant; cbn. destruct (Z.ltb_spec 0 m); cbn;
      [unfold wrap_u32; rewrite Z.mod_small by lia|]; split_and!; try lia; done.
Qed.

Lemma rate_run_bound g intent times second :
  in_window g → StronglySorted Z.le times →
  Forall (λ now, rg_window_second g <= Z.quot now kNsPerSecond) times →
  passes_in second (rate_run g intent times) <=
  if second <? rg_window_second g then 0
  else if second =? rg_window_second g then Z.max 0 (rg_max_per_second g - rg_used_in_window g)
  else rg_max_per_second g.
Proof.
  revert g; induction times as [|now times IH]; intros g Hg Hs Hw; cbn [rate_run].
  { unfold passes_in; cbn. destruct Hg. repeat step_if; lia. }
  apply StronglySorted_inv in Hs as [Hs Hle]. apply Forall_cons in Hw as [Hw1 Hw2].
  pose proof (rate_limit_check_spec g intent now Hg) as H.
  destruct (rate_limit_check g intent now) as [g' r]. destruct H as (Hg' & Hm & Hsec & Hp & Hu).
  specialize (IH g' Hg' Hs). rewrite Hsec in IH.
  assert (Hmono : Forall (λ n, Z.quot now kNsPerSecond <= Z.quot n kNsPerSecond) times).
  { eapply Forall_impl; [exact Hle|]. intros n Hn. apply Z.quot_le_mono; [unfold kNsPerSecond; lia|done]. }
  specialize (IH Hmono). rewrite Hm in IH. unfold passes_in in *. cbn [sum_list_Z].
  set (s := Z.quot now kNsPerSecond) in *. destruct Hg as [? ?].
  destruct (gr_pass r); symmetry in Hp; breflect;
    destruct (Z.eqb_spec s second), (Z.eqb_spec s (rg_window_second g)), (Z.eqb_spec second s),
      (Z.ltb_spec second s), (Z.ltb_spec second (rg_window_second g)), (Z.eqb_spec second (rg_window_second g));
    cbn [andb]; lia.
Qed.

(** The rate limit holds: over any run of checks with a monotone clock,
    the guard never passes more than [max_per_second] checks within one second. *)
Theorem rate_limit_enforced limit intent times second :
  0 <= limit < u32_mod → StronglySorted Z.le times → Forall (λ now, 0 <= now) times →
  passes_in second (rate_run (mkRateLimitGuard limit 0 0) intent times) <= limit.
Proof.
  intros Hl Hs Hpos.
  pose proof (rate_run_bound (mkRateLimitGuard limit 0 0) intent times second) as H.
  cbn in H. etrans; [apply H|]; [split; cbn; lia|done| |].
  - eapply Forall_impl; [exact Hpos|]. intros n Hn; cbn in Hn.
    apply Z.quot_pos; [done|unfold kNsPerSecond; lia].
  - repeat step_if; lia.
Qed.

Lemma rate_limit_enforced_witness :
  passes_in 1 (rate_run (mkRateLimitGuard 2 0 0) intent0
    [1000000000; 1000000001; 1000000002; 1999999999; 2000000000]) <= 2 ∧
  passes_in 1 (rate_run (mkRateLimitGuard 2 0 0) intent0
    [1000000000; 1000000001; 1000000002; 1999999999; 2000000000]) = 2.
Proof.
  split; [|vm_compute; reflexivity].
  apply rate_limit_enforced; [lia|repeat constructor; lia|repeat constructor; lia].
Defined.

(** ** Duplicates *)

(** The evidence a duplicate check is keyed on. *)
Definition evidence (intent : OpportunityIntent) : Z + string :=
  if negb (oi_idempotency_hash intent =? 0) then inl (oi_idempotency_hash intent)
  else inr (oi_idempotency_key intent).

Definition seen (g : DuplicateIntentGuard) (e : Z + string) : Prop :=
  match e with
  | inl h => h ∈ dg_seen_idempotency_hashes g
  | inr k => k ∈ dg_seen_idempotency_keys g
  end.

(** The intents a run of checks lets through. *)
Fixpoint duplicate_run (g : DuplicateIntentGuard) (intents : list (OpportunityIntent * Z))
    : list OpportunityIntent :=
  match intents with
  | [] => []
  | (intent, now) :: rest =>
      let '(g, r) := duplicate_check g intent now in
      if gr_pass r then intent :: duplicate_run g rest else duplicate_run g rest
  end.

Lemma duplicate_check_spec g intent now :
  let '(g', r) := duplicate_check g intent now in
  (∀ e, seen g e → seen g' e) ∧
  (gr_pass r = true → ¬ seen g (evidence intent) ∧ seen g' (evidence intent)).
Proof.
  unfold duplicate_check, evidence.
  destruct (oi_idempotency_hash intent =? 0); cbn [negb].
  - destruct (String.eqb (oi_idempotency_key intent) ""); [done|]. case_bool_decide; [done|].
    destruct g; cbn. split; [intros [h|k]; cbn; set_solver|]. intros _; cbn. split; [done|set_solver].
  - case_bool_decide; [done|].
    destruct g; cbn. split; [intros [h|k]; cbn; set_solver|]. intros _; cbn. split; [done|set_solver].
Qed.

Lemma duplicate_run_fresh g intents intent :
  intent ∈ duplicate_run g intents → ¬ seen g (evidence intent).
Proof.
  revert g; induction intents as [|[i now] intents IH]; intros g Hin; cbn in Hin; [set_solver|].
  pose proof (duplicate_check_spec g i now) as H.
  destruct (duplicate_check g i now) as [g' r]. destruct H as [Hmono Hp].
  destruct (gr_pass r); [|by intros ?%Hmono; apply (IH g')].
  apply elem_of_cons in Hin as [->|Hin]; [by apply Hp|]. intros ?%Hmono. by apply (IH g').
Qed.

(** No duplicate gets through: in any run of the duplicate guard, the
    intents that pass have pairwise different evidence (their idempotency hash,
    or their key when they have no hash). *)
Theorem duplicate_guard_at_most_once g intents : NoDup (evidence <$> duplicate_run g intents).
Proof.
  revert g; induction intents as [|[i now] intents IH]; intros g; cbn [duplicate_run]; [constructor|].
  pose proof (duplicate_check_spec g i now) as H.
  destruct (duplicate_check g i now) as [g' r]. destruct H as [_ Hp].
  destruct (gr_pass r); [|apply IH]. cbn [fmap list_fmap]. constructor; [|apply IH].
  intros (j & Heq & Hin)%list_elem_of_fmap. apply duplicate_run_fresh in Hin.
  rewrite <- Heq in Hin. by apply Hin, Hp.
Qed.

(** ** Exposure and inventory limits *)

(** Exact sum over the legs with one id. *)
Definition legs_sum (id : IntentLeg → string) (amount : IntentLeg → Z) (k : string)
    (legs : list IntentLeg) : Z :=
  sum_list_Z (λ l, if bool_decide (id l = k) then amount l else 0) legs.

Lemma fold_legs_loop id amount legs (m : gmap string Z) k :
  (∀ l, l ∈ legs → 0 <= amount l) → 0 <= default 0 (m !! k) → k ≠ ""%string →
  default 0 (m !! k) + legs_sum id amount k legs <= i64_max →
  let m' := foldl (λ out leg,
    if String.eqb (id leg) "" then out
    else <[id leg := default 0 (out !! id leg) +i amount leg]> out) m legs in
  default 0 (m' !! k) = default 0 (m !! k) + legs_sum id amount k legs ∧
  (is_Some (m' !! k) ↔ is_Some (m !! k) ∨ ∃ l, l ∈ legs ∧ id l = k).
Proof.
  intros Hpos Hm Hk. revert m Hm; induction legs as [|l legs IH]; intros m Hm Hmax.
  { cbn. split; [lia|]. split; [auto|]. intros [?|(? & ?%not_elem_of_nil & _)]; done. }
  assert (Hl : 0 <= amount l) by (apply Hpos; set_solver).
  assert (Hrest : 0 <= legs_sum id amount k legs).
  { apply sum_list_Z_nonneg. intros x Hx. case_bool_decide; [|lia]. apply Hpos; set_solver. }
  unfold legs_sum in Hmax |- *; cbn [sum_list_Z] in *. fold (legs_sum id amount k legs) in *.
  cbn [foldl]. destruct (String.eqb_spec (id l) "") as [He|He].
  - rewrite bool_decide_false in * by congruence.
    destruct (IH ltac:(intros; apply Hpos; set_solver) m Hm ltac:(lia)) as [-> ->].
    split; [lia|]. set_solver.
  - destruct (decide (id l = k)) as [<-|Hne].
    + rewrite bool_decide_true in * by done.
      destruct (IH ltac:(intros; apply Hpos; set_solver) (<[id l := default 0 (m !! id l) +i amount l]> m))
        as [-> ->]; rewrite ?lookup_insert_eq; cbn; rewrite ?wrap_i64_id by rlia; try lia.
      split; [lia|]. split; [right; set_solver|left; done].
    + rewrite bool_decide_false in * by done.
      destruct (IH ltac:(intros; apply Hpos; set_solver) (<[id l := default 0 (m !! id l) +i amount l]> m))
        as [-> ->]; rewrite ?lookup_insert_ne by done; try lia.
      split; [lia|]. set_solver.
Qed.

Lemma fold_legs_spec id amount legs k :
  (∀ l, l ∈ legs → 0 <= amount l) → k ≠ ""%string → legs_sum id amount k legs <= i64_max →
  default 0 (fold_legs id amount legs !! k) = legs_sum id amount k legs ∧
  (is_Some (fold_legs id amount legs !! k) ↔ ∃ l, l ∈ legs ∧ id l = k).
Proof.
  intros Hpos Hk Hmax. unfold fold_legs.
  destruct (fold_legs_loop id amount legs ∅ k Hpos) as [H1 H2]; rewrite ?lookup_empty; cbn; try done.
  rewrite lookup_empty in H1, H2. cbn in *. rewrite H1, H2. split; [lia|].
  split; [intros [[? [=]]|?]; done|auto].
Qed.

Lemma first_over_None limit ledger incoming :
  first_over limit ledger incoming = None ↔
  ∀ k a, incoming !! k = Some a → default 0 (ledger !! k) +i a <= limit.
Proof.
  unfold first_over. split.
  - intros H k a Hk. destruct (list_find _ _) as [[i e]|] eqn:E; [done|].
    apply list_find_None in E. rewrite Forall_forall in E.
    specialize (E (k, default 0 (ledger !! k) +i a)). cbn in E.
    apply Z.nlt_ge, E. apply list_elem_of_fmap. exists (k, a). split; [done|]. by apply elem_of_map_to_list.
  - intros H. destruct (list_find _ _) as [[i [k p]]|] eqn:E; [|done].
    apply list_find_Some in E as (Hi & Hlt & _). cbn in Hlt.
    apply list_elem_of_lookup_2, list_elem_of_fmap in Hi as ([k' a] & Heq & Ha%elem_of_map_to_list).
    simplify_eq. specialize (H k' a Ha). lia.
Qed.

(** The limits are enforced: when both guards pass, the total exposure
    after the intent is within the policy, and for every asset of the intent
    the lots already reserved plus all the lots its legs ask for are within the
    per-asset limit. *)
Theorem limits_enforced ledger intent cost policy :
  (∀ a, legs_sum il_asset_id (λ l, Z.max (il_quantity_lots l) 0) a (intent_legs intent) <= i64_max) →
  xg_pass (exposure_check ledger intent cost policy) = true →
  ig_pass (inventory_check ledger intent cost policy) = true →
  (0 < rp_max_total_exposure_tick policy →
     ls_total_reserved_exposure_tick ledger +i Z.max (cr_risk_total_cost_tick cost) 0
       <= rp_max_total_exposure_tick policy) ∧
  (0 < rp_max_single_market_exposure_tick policy → ∀ m c, market_costs intent cost !! m = Some c →
     default 0 (ls_reserved_market_exposure_tick ledger !! m) +i c
       <= rp_max_single_market_exposure_tick policy) ∧
  (0 < rp_max_inventory_lots_per_asset policy → ∀ a, a ≠ ""%string → a ∈ il_asset_id <$> intent_legs intent →
     default 0 (ls_reserved_asset_lots ledger !! a)
       +i legs_sum il_asset_id (λ l, Z.max (il_quantity_lots l) 0) a (intent_legs intent)
       <= rp_max_inventory_lots_per_asset policy).
Proof.
  intros Hfit. unfold exposure_check, inventory_check.
  destruct (cr_ok cost); cbn [negb]; [|done]. intros Hx Hi.
  step_if_in Hx; [done|]. split_and!.
  - intros Hp. apply andb_false_iff in Hb as [Hb|Hb]; breflect; lia.
  - intros Hp m c Hm. rewrite (proj2 (Z.ltb_lt _ _) Hp) in Hx.
    destruct (first_over _ _ _) as [[]|] eqn:E in Hx; [done|].
    rewrite first_over_None in E. by apply E.
  - intros Hp a Ha Hin. rewrite (proj2 (Z.leb_gt _ _)) in Hi by lia.
    destruct (first_over _ _ _) as [[]|] eqn:E in Hi; [done|]. rewrite first_over_None in E.
    destruct (fold_legs_spec il_asset_id (λ l, Z.max (il_quantity_lots l) 0) (intent_legs intent) a)
      as [Hsum Hsome]; [intros; lia|done|done|].
    apply list_elem_of_fmap in Hin as (l & -> & Hl).
    destruct (proj2 Hsome (ex_intro _ l (conj Hl eq_refl))) as [s Hs].
    rewrite Hs in Hsum; cbn in Hsum. rewrite <- Hsum. by apply E.
Qed.

Definition limited_policy : RiskPolicySnapshot :=
  policy0 <| rp_max_total_exposure_tick := 10000000 |> <| rp_max_single_market_exposure_tick := 5000000 |>
          <| rp_max_inventory_lots_per_asset := 5 |>.

Lemma limits_enforced_witness :
  let ledger := ledger_snapshot ledger0 in
  let cost := revalidate priced_intent [demo_snapshot] limited_policy 700 77 in
  0 +i cr_risk_total_cost_tick cost <= 10000000 ∧
  legs_sum il_asset_id (λ l, Z.max (il_quantity_lots l) 0) "yes" (intent_legs priced_intent) <= 5.
Proof.
  assert (Hfit : ∀ a, legs_sum il_asset_id (λ l, Z.max (il_quantity_lots l) 0) a (intent_legs priced_intent) <= i64_max).
  { intros a. unfold legs_sum. change (intent_legs priced_intent) with [buy_leg]. cbn [sum_list_Z].
    case_bool_decide; vm_compute; congruence. }
  assert (Hx : xg_pass (exposure_check (ledger_snapshot ledger0) priced_intent
    (revalidate priced_intent [demo_snapshot] limited_policy 700 77) limited_policy) = true) by (vm_compute; reflexivity).
  assert (Hi : ig_pass (inventory_check (ledger_snapshot ledger0) priced_intent
    (revalidate priced_intent [demo_snapshot] limited_policy 700 77) limited_policy) = true) by (vm_compute; reflexivity).
  destruct (limits_enforced _ _ _ _ Hfit Hx Hi) as (H1 & _ & H3).
  split; [apply H1; vm_compute; reflexivity|].
  specialize (H3 ltac:(vm_compute; reflexivity) "yes"%string ltac:(done) ltac:(vm_compute; left)).
  vm_compute in H3 |- *. exact H3.
Defined.

(** ** The edge *)

(** An edge that passes is real: the post-risk edge the guard accepts is,
    without overflow, the guaranteed payout per bundle times the executable
    bundles minus the revalidated cost, fee, slippage and latency buffers, and
    it meets all three policy thresholds. *)
Theorem edge_check_sound intent cost policy :
  eg_pass (edge_check intent cost policy) = true →
  let r := edge_check intent cost policy in
  let per_bundle := if 0 <? oi_bundle_qty intent
    then Z.quot (oi_guaranteed_payout_tick intent) (oi_bundle_qty intent)
    else oi_guaranteed_payout_tick intent in
  cr_ok cost = true ∧ 0 < cr_risk_bundle_qty cost ∧
  eg_post_risk_edge_tick r =
    per_bundle * cr_risk_bundle_qty cost - cr_risk_total_cost_tick cost - cr_fee_tick cost
    - cr_slippage_buffer_tick cost - cr_latency_buffer_tick cost ∧
  eg_unit_edge_tick r = Z.quot (eg_post_risk_edge_tick r) (cr_risk_bundle_qty cost) ∧
  rp_min_post_risk_total_edge_tick policy <= eg_post_risk_edge_tick r ∧
  rp_min_post_risk_unit_edge_tick policy <= eg_unit_edge_tick r ∧
  rp_min_edge_bps policy <= eg_edge_bps r.
Proof.
  unfold edge_check, compute_post_risk_edge. cbn [rm_risk_bundle_qty rm_guaranteed_payout_per_bundle_tick
    rm_risk_total_cost_tick rm_fee_tick rm_slippage_buffer_tick rm_latency_buffer_tick].
  destruct (cr_ok cost); cbn [negb orb]; [|done].
  destruct (Z.leb_spec (cr_risk_bundle_qty cost) 0); [done|].
  set (pb := if 0 <? oi_bundle_qty intent then _ else _).
  destruct (checked_mul_i64 pb _) as [v|] eqn:Em; [|done].
  apply checked_mul_i64_Some in Em as [_ ->].
  destruct (checked_sub_chain _ _) as [edge ok] eqn:Ec. destruct ok; cbn [negb rr_ok]; [|done].
  apply checked_sub_chain_true in Ec. cbn [sum_list_Z] in Ec.
  unfold passes_edge_thresholds. cbn.
  step_if.
  - apply negb_true_iff in Hb. step_if; [done|]. step_if; [done|]. step_if; [done|]. breflect.
    rewrite !(proj2 (Z.leb_le _ _)) in Hb by lia. done.
  - apply negb_false_iff in Hb. intros _. breflect. cbn in *. split_and!; try done; lia.
Qed.

Lemma edge_check_sound_witness :
  let cost := revalidate priced_intent [demo_snapshot] policy0 700 77 in
  eg_post_risk_edge_tick (edge_check priced_intent cost policy0) = 2600000.
Proof.
  assert (H : eg_pass (edge_check priced_intent
    (revalidate priced_intent [demo_snapshot] policy0 700 77) policy0) = true) by (vm_compute; reflexivity).
  destruct (edge_check_sound _ _ _ H) as (_ & _ & He & _).
  cbv zeta. rewrite He. vm_compute. reflexivity.
Defined.

(** The guard computes the edge of [risk_bundle_qty] bundles, the number the
    book could execute, against the cost of the intent's own [bundle_qty]
    bundles.  When the book is deeper than the intent the edge is overstated:
    here four bundles that pay 4000000 cost 4900000, a loss of 900000, and the
    guard passes the intent with an edge of 100000. *)
Lemma edge_guard_overstates_edge :
  let intent := priced_intent <| oi_guaranteed_payout_tick := 4000000 |> in
  let cost := revalidate intent [demo_snapshot] policy0 700 77 in
  let r := edge_check intent cost policy0 in
  oi_guaranteed_payout_tick intent - cr_risk_total_cost_tick cost = -900000 ∧
  eg_pass r = true ∧ eg_post_risk_edge_tick r = 100000.
Proof. vm_compute. done. Qed.

(** ** Partial fills *)

Lemma vwap_depth_margin_agrees executable requested :
  vwap_depth_margin_bps executable requested = depth_margin_bps executable requested.
Proof.
  unfold vwap_depth_margin_bps, depth_margin_bps, ratio_bps.
  destruct (Z.leb_spec requested 0), (Z.leb_spec executable 0); cbn [orb]; try done.
  rewrite (proj2 (Z.eqb_neq _ _)) by lia. cbv zeta.
  assert (0 <= Z.quot (executable * 10000) requested) by (apply Z.quot_pos; lia).
  step_if; [done|]. by rewrite (proj2 (Z.ltb_ge _ _)) by lia.
Qed.

(** Passing the margin test is having the margin: the lots the policy requires
    on top of the request are executable. *)
Lemma margin_test_sound executable requested min_bps :
  0 < requested <= executable → executable <= i64_max →
  min_bps <= depth_margin_bps executable requested →
  required_with_margin_bps requested min_bps <= executable.
Proof.
  intros Hr Hmax. unfold depth_margin_bps, required_with_margin_bps.
  rewrite !(proj2 (Z.leb_gt _ _)) by lia. cbn [orb]. cbv zeta.
  set (m := if min_bps <? 10000 then 10000 else min_bps).
  rewrite (Z.quot_div_nonneg (executable * 10000)) by lia. intros Hm.
  assert (Hge : requested * m <= executable * 10000).
  { subst m. destruct (Z.ltb_spec min_bps 10000); [nia|].
    assert (min_bps <= executable * 10000 / requested) by (step_if_in Hm; breflect; lia).
    pose proof (Z.mul_div_le (executable * 10000) requested). nia. }
  assert (10000 <= m) by (subst m; step_if; breflect; lia).
  rewrite Z.quot_div_nonneg by nia.
  assert ((requested * m + 9999) / 10000 <= executable).
  { apply Z.lt_succ_r, Z.div_lt_upper_bound; lia. }
  step_if; breflect; lia.
Qed.

Lemma partial_fill_loop_pass cost min_bps legs result :
  pf_pass (partial_fill_loop cost min_bps legs result) = true →
  ∀ leg lc, (leg, lc) ∈ legs →
    il_side leg = Buy ∧ il_asset_id leg ≠ ""%string ∧ 0 < il_quantity_lots leg ∧
    lc_enough_depth lc = true ∧
    (0 < lc_requested_qty_lots lc →
       min_bps <= if 0 <? lc_depth_margin_bps lc then lc_depth_margin_bps lc
                  else depth_margin_bps (lc_executable_qty_lots lc) (lc_requested_qty_lots lc)).
Proof.
  induction legs as [|[leg lc] legs IH]; cbn [partial_fill_loop]; intros Hp l c Hin; [set_solver|].
  destruct (partial_fill_leg cost min_bps leg lc result) as [early|] eqn:E.
  { exfalso. revert Hp. unfold partial_fill_leg in E. repeat case_match; simplify_eq; done. }
  apply elem_of_cons in Hin as [[= -> ->]|Hin]; [|by apply IH].
  unfold partial_fill_leg in E. step_if_in E; [done|]. step_if_in E; [done|].
  destruct (if lc_requested_qty_lots lc <=? 0 then _ else _) as [requested|] eqn:Er; [|done].
  step_if_in E; [done|]. apply orb_false_iff in Hb as [[Hs Ha]%orb_false_iff Hq].
  apply orb_false_iff in Hb1 as [He Hm]. breflect. split_and!; try done.
  intros Hreq. rewrite (proj2 (Z.leb_gt _ _)) in Er by lia. by simplify_eq.
Qed.

(** What the revalidators record for a leg they priced. *)
Definition leg_cost_consistent (lc : RevalidatedLegCost) : Prop :=
  0 < lc_requested_qty_lots lc ∧ lc_executable_qty_lots lc <= i64_max ∧
  lc_depth_margin_bps lc = depth_margin_bps (lc_executable_qty_lots lc) (lc_requested_qty_lots lc) ∧
  lc_enough_depth lc = (lc_requested_qty_lots lc <=? lc_executable_qty_lots lc).

(** A multi-leg intent that passes the partial-fill guard has, on every
    leg, the depth margin the policy demands: the executable lots cover the
    request plus the required margin (rounded up), so every leg can be filled
    even if that much of the book disappears. *)
Theorem partial_fill_check_sound intent cost policy :
  pf_pass (partial_fill_check intent cost policy) = true → (oi_leg_count intent ≠ 1)%nat →
  ∀ j leg lc, intent_legs intent !! j = Some leg → cr_legs cost !! j = Some lc →
    il_side leg = Buy ∧ il_asset_id leg ≠ ""%string ∧ 0 < il_quantity_lots leg ∧
    lc_enough_depth lc = true ∧
    (leg_cost_consistent lc →
     required_with_margin_bps (lc_requested_qty_lots lc) (effective_min_depth_margin_bps policy)
       <= lc_executable_qty_lots lc).
Proof.
  unfold partial_fill_check. intros Hp Hone j leg lc Hleg Hlc.
  step_if_in Hp; [done|]. step_if_in Hp; [done|]. step_if_in Hp; [by breflect|]. step_if_in Hp; [done|].
  destruct (partial_fill_loop_pass _ _ _ _ Hp leg lc) as (Hs & Ha & Hq & He & Hm).
  { apply (list_elem_of_lookup_2 _ j). by rewrite lookup_zip_with, Hleg, Hlc. }
  split_and!; try done. intros (Hreq & Hmax & Hmargin & Henough).
  rewrite Henough in He. breflect. apply margin_test_sound; [lia|done|].
  specialize (Hm Hreq). rewrite <- Hmargin in Hm |- *. by destruct (0 <? lc_depth_margin_bps lc).
Qed.

Definition two_leg_intent : OpportunityIntent :=
  priced_intent <| oi_leg_count := 2%nat |>
    <| oi_bundle_qty := 2 |>
    <| oi_legs := std_array kMaxIntentLegs leg0 [buy_leg; buy_leg <| il_market_id := "m2" |>] |>.

Lemma partial_fill_check_sound_witness :
  let cost := reprice two_leg_intent [demo_snapshot] in
  required_with_margin_bps 6 (effective_min_depth_margin_bps policy0)
    <= lc_executable_qty_lots (cr_legs cost !!! 0%nat).
Proof.
  assert (Hp : pf_pass (partial_fill_check two_leg_intent (reprice two_leg_intent [demo_snapshot]) policy0) = true)
    by (vm_compute; reflexivity).
  assert (Hone : (oi_leg_count two_leg_intent ≠ 1)%nat) by (vm_compute; congruence).
  assert (Hleg : intent_legs two_leg_intent !! 0%nat = Some buy_leg) by (vm_compute; reflexivity).
  assert (Hlc : cr_legs (reprice two_leg_intent [demo_snapshot]) !! 0%nat
    = Some (cr_legs (reprice two_leg_intent [demo_snapshot]) !!! 0%nat)) by (vm_compute; reflexivity).
  pose proof (partial_fill_check_sound _ _ _ Hp Hone _ _ _ Hleg Hlc) as (_ & _ & _ & _ & H).
  assert (Hreq : lc_requested_qty_lots (cr_legs (reprice two_leg_intent [demo_snapshot]) !!! 0%nat) = 6)
    by (vm_compute; reflexivity).
  cbv zeta. rewrite Hreq in H. apply H. clear H.
  unfold leg_cost_consistent. rewrite Hreq. vm_compute. repeat split; congruence.
Defined.

(** ** Chains of guards *)

Definition guard_passes (intent : OpportunityIntent) (now : Z) (g : option AnyGuard) : Prop :=
  match g with
  | None => False
  | Some (mkAnyGuard G C g) => gr_pass (C g intent now).2 = true
  end.

(** A chain of guards is a short-circuit conjunction: it passes exactly
    when every guard is present and passes, and when it fails, the guards after
    the first failing one are left untouched. *)
Theorem run_risk_guards_spec guards intent now :
  let '(guards', r) := run_risk_guards guards intent now in
  (gr_pass r = true ↔ Forall (guard_passes intent now) guards) ∧
  (gr_pass r = false → ∃ before failing after,
     guards = before ++ failing :: after ∧ Forall (guard_passes intent now) before ∧
     ¬ guard_passes intent now failing ∧ drop (S (length before)) guards' = after).
Proof.
  induction guards as [|[[G C g]|] guards IH]; cbn [run_risk_guards].
  - split; [split; [constructor|done]|done].
  - destruct (C g intent now) as [g' r] eqn:E. destruct (gr_pass r) eqn:Hr; cbn [negb].
    + assert (Hg : guard_passes intent now (Some (mkAnyGuard G C g))) by (cbn; by rewrite E).
      destruct (run_risk_guards guards intent now) as [rest r'].
      destruct IH as [Hiff Hfail]. split.
      * rewrite Hiff, Forall_cons. naive_solver.
      * intros Hf. destruct (Hfail Hf) as (before & failing & after & -> & Hb & Hn & Hd).
        exists (Some (mkAnyGuard G C g) :: before), failing, after. split_and!; try done. by constructor.
    + assert (Hg : ¬ guard_passes intent now (Some (mkAnyGuard G C g))) by (cbn; rewrite E; cbn; congruence).
      split; [rewrite Hr, Forall_cons; naive_solver|].
      intros _. by exists [], (Some (mkAnyGuard G C g)), guards.
  - split; [rewrite Forall_cons; cbn; naive_solver|].
    intros _. exists [], None, guards. split_and!; [done|constructor|by intros []|done].
Qed.
