(* ===== verification/RiskPipeline.v ===== *)
(** * RiskPipeline: the fixed sequence of checks behind an approval

    [engine/risk/core/RiskPipeline.cpp].  [evaluate_view] runs fifteen stages in
    order; each appends an audit step and either continues or builds a rejected
    result.  The stages run in a state and error monad: the state is what an
    evaluation mutates (the duplicate and rate-limit guards and the reservation
    book), the error is the call of [reject_result] that ends the evaluation.
    Stage timings are not modelled; a publisher is the result it is handed. *)

From S2P Require Import Prelude Hashing Decimals Depth RiskTypes Reprice ReservationBook RiskGuards.
#[local] Open Scope Z_scope.

(** ** Data *)

(** [engine/risk/public/RiskInputView.h:21-38] RiskInputView; pointers are options, arrays lists. *)
Record RiskInputView := mkRiskInputView {
  ri_intent : option OpportunityIntent;
  ri_snapshots : option (list MarketStateSnapshot);
  ri_snapshot_count : nat;
  ri_depth_views : option (list MarketDepthView);
  ri_depth_view_count : nat;
  ri_snapshot_version_hash : Z;
  ri_latest_snapshot_version_hash : Z;
  ri_now_ns : Z;
  ri_policy : option RiskPolicySnapshot;
  ri_ledger : option RiskLedgerSnapshot
}.
Definition input0 : RiskInputView := mkRiskInputView None None 0 None 0 0 0 0 None None.

(** [engine/risk/public/RiskAuditTrace.h:39-65] RiskAuditTraceLite and RiskAuditTrace. *)
Record RiskAuditTrace := mkRiskAuditTrace {
  at_trace_id : Z;
  at_decision_id : Z;
  at_intent_id : Z;
  at_bundle_id : Z;
  at_policy_version : Z;
  at_policy_hash : Z;
  at_decision : RiskDecision;
  at_lite_decision_id : Z;
  at_lite_steps : list RiskAuditStepLite;
  at_steps : list RiskAuditStep
}.
Definition trace0 : RiskAuditTrace := mkRiskAuditTrace 0 0 0 0 0 0 decision0 0 [] [].

(** [engine/risk/core/RiskContext.h:42-54] RiskPipelineResult. *)
Record RiskPipelineResult := mkRiskPipelineResult {
  pr_decision : RiskDecision;
  pr_approved_intent : ApprovedIntent;
  pr_result : RiskResult;
  pr_cost : CostRevalidationResult;
  pr_reservation : ReservationResult;
  pr_audit_trace : RiskAuditTrace;
  pr_cost_revalidated : bool;
  pr_reservation_attempted : bool;
  pr_output_hash : Z
}.
Definition pipeline_result0 : RiskPipelineResult :=
  mkRiskPipelineResult decision0 approved_intent0 risk_result0 cost0 reservation_result0 trace0
    false false 0.

(** [engine/risk/core/RiskPipeline.h:43-57] RiskPipeline: the members with state. *)
Record RiskPipeline := mkRiskPipeline {
  rk_duplicate_guard : DuplicateIntentGuard;
  rk_rate_limit_guard : RateLimitGuard
}.

(** [engine/risk/core/RiskPipeline.cpp:392-392] RiskPipeline::RiskPipeline. *)
Definition new_pipeline : RiskPipeline :=
  mkRiskPipeline (mkDuplicateIntentGuard ∅ ∅) (mkRateLimitGuard 100 0 0).

(** [engine/risk/core/RiskPipeline.cpp:394-396] clear_duplicate_cache. *)
Definition clear_duplicate_cache (p : RiskPipeline) : RiskPipeline :=
  p <| rk_duplicate_guard ::= duplicate_clear |>.

(** ** Helpers *)

Definition decision_type_value (t : RiskDecisionType) : Z :=
  match t with
  | DtPass => 0 | RejectKillSwitch => 1 | RejectExpiredIntent => 2 | RejectDuplicateIntent => 3
  | RejectRateLimited => 4 | RejectBadMarketState => 5 | RejectStaleSnapshot => 6
  | RejectInsufficientDepth => 7 | RejectCostDrift => 8 | RejectReducedBundleQty => 9
  | RejectLowTotalEdge => 10 | RejectLowUnitEdge => 11 | RejectLowEdgeBps => 12
  | RejectCostLimit => 13 | RejectTotalExposureLimit => 14 | RejectSingleMarketExposureLimit => 15
  | RejectInventoryLimit => 16 | RejectPartialFillRisk => 17 | RejectInternalError => 18
  end.

(** [engine/risk/core/RiskPipeline.cpp:77-82] policy_hash_for. *)
Definition policy_hash_for (policy : RiskPolicySnapshot) : Z :=
  if negb (rp_policy_hash policy =? 0) then rp_policy_hash policy else compute_policy_hash policy.

(** [engine/risk/core/RiskPipeline.cpp:84-128] reject_reason_for. *)
Definition reject_reason_for (type : RiskDecisionType) : RiskRejectReason :=
  match type with
  | DtPass => RrNone
  | RejectKillSwitch => RrKillSwitch
  | RejectExpiredIntent => RrExpiredIntent
  | RejectDuplicateIntent => RrDuplicateIntent
  | RejectRateLimited => RrApprovalRateLimit
  | RejectBadMarketState => RrBadMarketState
  | RejectStaleSnapshot => RrStaleBook
  | RejectInsufficientDepth | RejectReducedBundleQty => RrCostLimit
  | RejectCostDrift => RrCostDrift
  | RejectLowTotalEdge => RrLowTotalEdge
  | RejectLowUnitEdge => RrLowUnitEdge
  | RejectLowEdgeBps => RrLowEdgeBps
  | RejectCostLimit => RrCostLimit
  | RejectTotalExposureLimit => RrTotalExposureLimit
  | RejectSingleMarketExposureLimit => RrSingleMarketExposureLimit
  | RejectInventoryLimit => RrInventoryLimit
  | RejectPartialFillRisk => RrPartialFillRisk
  | RejectInternalError => RrInternalError
  end.

(** [engine/risk/core/RiskPipeline.cpp:130-211] record_reject_reason. *)
Definition record_reject_reason (reason : RiskRejectReason) (result : RiskResult) : RiskResult :=
  let r := result <| rt_intents_rejected ::= inc_u64 |>
                  <| rt_metrics ::= λ m, m <| rm_reject_count ::= inc_u64 |> |> in
  match reason with
  | RrKillSwitch => r <| rt_rejected_kill_switch ::= inc_u64 |>
      <| rt_metrics ::= λ m, m <| rm_reject_kill_switch ::= inc_u64 |> |>
  | RrLowTotalEdge | RrLowUnitEdge | RrLowEdgeBps => r <| rt_rejected_low_edge ::= inc_u64 |>
      <| rt_metrics ::= λ m, m <| rm_reject_low_edge ::= inc_u64 |> |>
  | RrCostLimit => r <| rt_rejected_cost_limit ::= inc_u64 |>
      <| rt_metrics ::= λ m, m <| rm_reject_insufficient_depth ::= inc_u64 |> |>
  | RrSingleMarketExposureLimit | RrTotalExposureLimit => r <| rt_rejected_exposure_limit ::= inc_u64 |>
      <| rt_metrics ::= λ m, m <| rm_reject_exposure ::= inc_u64 |> |>
  | RrInventoryLimit => r <| rt_rejected_inventory_limit ::= inc_u64 |>
      <| rt_metrics ::= λ m, m <| rm_reject_inventory ::= inc_u64 |> |>
  | RrBadMarketState => r <| rt_rejected_bad_market_state ::= inc_u64 |>
      <| rt_metrics ::= λ m, m <| rm_reject_stale_book ::= inc_u64 |> |>
  | RrExpiredIntent => r <| rt_rejected_stale_or_expired ::= inc_u64 |>
      <| rt_metrics ::= λ m, m <| rm_reject_expired ::= inc_u64 |> |>
  | RrStaleBook => r <| rt_rejected_stale_or_expired ::= inc_u64 |>
      <| rt_metrics ::= λ m, m <| rm_reject_stale_book ::= inc_u64 |> |>
  | RrSnapshotSkew => r <| rt_rejected_snapshot_freshness ::= inc_u64 |>
      <| rt_metrics ::= λ m, m <| rm_reject_stale_book ::= inc_u64 |> |>
  | RrCostDrift | RrSlippageLimit => r <| rt_rejected_drift_or_slippage ::= inc_u64 |>
      <| rt_metrics ::= λ m, m <| rm_reject_cost_drift ::= inc_u64 |> |>
  | RrDuplicateIntent | RrDuplicateReservation => r <| rt_rejected_pending_or_rate_limit ::= inc_u64 |>
      <| rt_metrics ::= λ m, m <| rm_reject_duplicate ::= inc_u64 |> |>
  | RrPendingIntentLimit | RrApprovalRateLimit => r <| rt_rejected_pending_or_rate_limit ::= inc_u64 |>
      <| rt_metrics ::= λ m, m <| rm_reject_rate_limited ::= inc_u64 |> |>
  | RrPartialFillRisk => r <| rt_rejected_partial_fill_risk ::= inc_u64 |>
      <| rt_metrics ::= λ m, m <| rm_reject_partial_fill ::= inc_u64 |> |>
  | RrInvalidIntent | RrMissingEvidence | RrInternalError => r <| rt_rejected_bad_market_state ::= inc_u64 |>
      <| rt_metrics ::= λ m, m <| rm_reject_invalid_intent ::= inc_u64 |> |>
  | RrNone | RrNotEvaluated | RrRiskDisabled | RrMissingReservation => r
  end.

(** [engine/risk/core/RiskPipeline.cpp:213-230] output_hash_for. *)
Definition output_hash_for (intent : OpportunityIntent) (decision : RiskDecision)
    (cost : CostRevalidationResult) (reservation_id : Z) : Z :=
  foldl mix fnv_offset
    [ MixU64 (oi_intent_id intent);
      MixU64 (oi_bundle_id intent);
      MixU64 (decision_status_value (rd_status decision));
      MixU64 (reject_reason_value (rd_reject_reason decision));
      MixU64 (rd_policy_version decision);
      MixU64 (rd_policy_hash decision);
      MixI64 (cr_risk_total_cost_tick cost);
      MixI64 (cr_risk_bundle_qty cost);
      MixU64 reservation_id ].

(** [engine/risk/core/RiskPipeline.cpp:232-238] should_track_reservation_ledger_detail. *)
Definition should_track_reservation_ledger_detail (policy : RiskPolicySnapshot) : bool :=
  (0 <? rp_max_total_exposure_tick policy) || (0 <? rp_max_single_market_exposure_tick policy) ||
  (0 <? rp_max_inventory_lots_per_asset policy).

(** [engine/risk/core/RiskPipeline.cpp:253-268] attach_decision_evidence. *)
Definition attach_decision_evidence (d : RiskDecision) (intent : OpportunityIntent) : RiskDecision :=
  d <| rd_intent_id := oi_intent_id intent |>
    <| rd_bundle_id := oi_bundle_id intent |>
    <| rd_idempotency_hash := oi_idempotency_hash intent |>
    <| rd_oracle_artifact_hash := oi_oracle_artifact_hash intent |>
    <| rd_constraint_hash := oi_constraint_hash intent |>
    <| rd_bundle_hash := oi_bundle_hash intent |>
    <| rd_snapshot_version_hash := oi_snapshot_version_hash intent |>.

(** [engine/risk/core/RiskPipeline.cpp:289-291] reject_result: the decision as the audit trace records it. *)
Definition trace_decision (d : RiskDecision) (t : RiskAuditTrace) : RiskAuditTrace :=
  t <| at_decision := d |> <| at_decision_id := rd_decision_id d |>
    <| at_lite_decision_id := rd_decision_id d |>.

(** [engine/risk/core/RiskPipeline.cpp:270-298] reject_result, up to publication. *)
Definition reject_result (intent : OpportunityIntent) (reason : RiskRejectReason) (detail : string)
    (cost : CostRevalidationResult) (result : RiskPipelineResult) : RiskPipelineResult :=
  let result := result <| pr_result ::= record_reject_reason reason |> in
  let decision := attach_decision_evidence (make_rejected_decision reason detail) intent in
  let output_hash := output_hash_for intent decision cost 0 in
  let decision := decision <| rd_decision_id := output_hash |> in
  result <| pr_cost := cost |> <| pr_output_hash := output_hash |> <| pr_decision := decision |>
    <| pr_audit_trace ::= trace_decision decision |>
    <| pr_result ::= λ r, r <| rt_output_hash := output_hash |> |>.

(** [engine/risk/core/RiskPipeline.cpp:300-311] init_trace. *)
Definition init_trace (result : RiskPipelineResult) (intent : OpportunityIntent)
    (policy : RiskPolicySnapshot) : RiskPipelineResult :=
  result <| pr_audit_trace ::= λ t,
    t <| at_trace_id := oi_intent_id intent |> <| at_intent_id := oi_intent_id intent |>
      <| at_bundle_id := oi_bundle_id intent |> <| at_policy_version := rp_policy_version policy |>
      <| at_policy_hash := policy_hash_for policy |> <| at_lite_steps := [] |> |>.

(** [engine/risk/core/RiskPipeline.cpp:313-338] add_step: on the trace, whose lite array has a fixed capacity. *)
Definition trace_step (full_trace : bool) (step_code : RiskAuditStepCode) (pass : bool)
    (rejection : RiskDecisionType) (reason : string) (t : RiskAuditTrace) : RiskAuditTrace :=
  let t :=
    if (length (at_lite_steps t) <? kMaxRiskAuditSteps)%nat
    then t <| at_lite_steps ::= λ l,
           l ++ [mkStepLite step_code pass rejection (decision_type_value rejection)] |>
    else t in
  if full_trace
  then t <| at_steps ::= λ l,
         l ++ [mkAuditStep (risk_audit_step_name step_code) pass rejection reason] |>
  else t.

(** [engine/risk/core/RiskPipeline.cpp:313-338] add_step. *)
Definition add_step (full_trace : bool) (step_code : RiskAuditStepCode) (pass : bool)
    (rejection : RiskDecisionType) (reason : string) (result : RiskPipelineResult) : RiskPipelineResult :=
  result <| pr_audit_trace ::= trace_step full_trace step_code pass rejection reason |>.

(** ** The stage monad *)

(** What an evaluation mutates; a null reservation book is [None]. *)
Record PipelineState := mkPipelineState {
  ps_pipeline : RiskPipeline;
  ps_book : option ReservationBook
}.

(** The arguments of the [reject_result] call that ends an evaluation. *)
Definition Rejection : Type := RiskRejectReason * string * CostRevalidationResult * RiskPipelineResult.

Definition Stage (A : Type) : Type := PipelineState → PipelineState * (Rejection + A).

#[export] Instance stage_ret : MRet Stage := λ A a s, (s, inr a).
#[export] Instance stage_bind : MBind Stage := λ A B k m s,
  match m s with
  | (s', inl e) => (s', inl e)
  | (s', inr a) => k a s'
  end.

Definition reject_stage {A} (reason : RiskRejectReason) (detail : string)
    (cost : CostRevalidationResult) (result : RiskPipelineResult) : Stage A :=
  λ s, (s, inl (reason, detail, cost, result)).

Section stages.
Context (full : bool) (intent : OpportunityIntent) (policy : RiskPolicySnapshot).

(** The shape every stage has: on failure add a failed step and reject, on
    success add a passed step and continue. *)
Definition check_step (code : RiskAuditStepCode) (pass : bool) (rejection : RiskDecisionType)
    (reason : RiskRejectReason) (detail : string) (cost : CostRevalidationResult)
    (result : RiskPipelineResult) : Stage RiskPipelineResult :=
  if negb pass then reject_stage reason detail cost (add_step full code false rejection detail result)
  else mret (add_step full code true DtPass "" result).

(** [engine/risk/core/RiskPipeline.cpp:481-513] evaluate_view: the kill switch. *)
Definition stage_kill_switch (now_ns : Z) (result : RiskPipelineResult) : Stage RiskPipelineResult :=
  let r := (kill_switch_check (rp_kill_switch_enabled policy) intent now_ns).2 in
  check_step StKillSwitchGuard (gr_pass r) (gr_rejection r)
    (reject_reason_for (gr_rejection r)) (gr_reason r) cost0 result.

(** [engine/risk/core/RiskPipeline.cpp:515-545] evaluate_view: the validator. *)
Definition stage_validate (now_ns : Z) (result : RiskPipelineResult) : Stage RiskPipelineResult :=
  let v := validate_intent intent now_ns in
  check_step StIntentValidator (iv_ok v) RejectInternalError (iv_reject_reason v) (iv_detail v) cost0 result.

(** [engine/risk/core/RiskPipeline.cpp:547-576] evaluate_view: the evidence verifier. *)
Definition stage_evidence (result : RiskPipelineResult) : Stage RiskPipelineResult :=
  let v := verify_evidence intent in
  check_step StEvidenceVerifier (iv_ok v) RejectInternalError (iv_reject_reason v) (iv_detail v) cost0 result.

(** [engine/risk/core/RiskPipeline.cpp:578-607] evaluate_view: expiry. *)
Definition stage_expiry (now_ns : Z) (result : RiskPipelineResult) : Stage RiskPipelineResult :=
  let r := (expiry_check tt intent now_ns).2 in
  check_step StExpiryGuard (gr_pass r) (gr_rejection r)
    (reject_reason_for (gr_rejection r)) (gr_reason r) cost0 result.

(** [engine/risk/core/RiskPipeline.cpp:609-638] evaluate_view: duplicates; the guard's state is updated. *)
Definition stage_duplicate (now_ns : Z) (result : RiskPipelineResult) : Stage RiskPipelineResult :=
  λ s,
    let '(g, r) := duplicate_check (rk_duplicate_guard (ps_pipeline s)) intent now_ns in
    check_step StDuplicateGuard (gr_pass r) (gr_rejection r)
      (reject_reason_for (gr_rejection r)) (gr_reason r) cost0 result
      (s <| ps_pipeline ::= λ p, p <| rk_duplicate_guard := g |> |>).

(** [engine/risk/core/RiskPipeline.cpp:640-672] evaluate_view: the rate limit; the guard's state is updated. *)
Definition stage_rate_limit (now_ns : Z) (result : RiskPipelineResult) : Stage RiskPipelineResult :=
  λ s,
    let '(g, r) := rate_limit_check
      (set_max_per_second (rk_rate_limit_guard (ps_pipeline s)) (rp_max_approvals_per_second policy))
      intent now_ns in
    check_step StRateLimitGuard (gr_pass r) (gr_rejection r)
      (reject_reason_for (gr_rejection r)) (gr_reason r) cost0 result
      (s <| ps_pipeline ::= λ p, p <| rk_rate_limit_guard := g |> |>).

(** The evidence arrays below their counts. *)
Definition input_snapshots (input : RiskInputView) : list MarketStateSnapshot :=
  take (ri_snapshot_count input) (default [] (ri_snapshots input)).
Definition input_depth_views (input : RiskInputView) : list MarketDepthView :=
  take (ri_depth_view_count input) (default [] (ri_depth_views input)).

(** [freshness_result.reason.find("drift") != std::string::npos]. *)
Definition mentions_drift (reason : string) : bool :=
  bool_decide (is_Some (String.index 0 "drift" reason)).

(** [engine/risk/core/RiskPipeline.cpp:674-764] evaluate_view: market state and freshness of one leg; a depth view is
    preferred to a snapshot. *)
Definition stage_leg (input : RiskInputView) (leg : IntentLeg) (result : RiskPipelineResult)
    : Stage RiskPipelineResult :=
  let depth_view := find_view (input_depth_views input) leg in
  let snapshot :=
    match depth_view with None => find_view (input_snapshots input) leg | Some _ => None end in
  let m :=
    match depth_view with
    | Some _ => market_state_check_view depth_view
    | None => market_state_check snapshot
    end in
  result ← check_step StMarketStateGuard (gr_pass m) (gr_rejection m)
    (reject_reason_for (gr_rejection m)) (gr_reason m) cost0 result;
  let f :=
    match depth_view, snapshot with
    | Some v, _ => view_freshness_check v intent policy (ri_now_ns input)
    | None, Some s => snapshot_freshness_check s intent policy (ri_now_ns input)
    | None, None => pass_guard (* not reached: the state guard rejects a null snapshot *)
    end in
  let reason :=
    if bool_decide (gr_rejection f = RejectStaleSnapshot) && mentions_drift (gr_reason f)
    then RrSnapshotSkew else reject_reason_for (gr_rejection f) in
  check_step StSnapshotFreshnessGuard (gr_pass f) (gr_rejection f) reason (gr_reason f) cost0 result.

Fixpoint stage_legs (input : RiskInputView) (legs : list IntentLeg) (result : RiskPipelineResult)
    : Stage RiskPipelineResult :=
  match legs with
  | [] => mret result
  | leg :: rest => result ← stage_leg input leg result; stage_legs input rest result
  end.

(** [engine/risk/core/RiskPipeline.cpp:766-785] evaluate_view: depth views when there are any, else snapshots. *)
Definition revalidate_input (input : RiskInputView) : CostRevalidationResult :=
  match ri_depth_views input with
  | Some _ =>
      if (0 <? ri_depth_view_count input)%nat
      then revalidate intent (input_depth_views input) policy (ri_now_ns input)
             (ri_snapshot_version_hash input)
      else revalidate intent (input_snapshots input) policy (ri_now_ns input)
             (ri_snapshot_version_hash input)
  | None => revalidate intent (input_snapshots input) policy (ri_now_ns input)
              (ri_snapshot_version_hash input)
  end.

(** [engine/risk/core/RiskPipeline.cpp:791-803] evaluate_view: the counters of the revalidation mode. *)
Definition record_vwap_mode (mode : RiskVWAPMode) (result : RiskPipelineResult) : RiskPipelineResult :=
  result <| pr_cost_revalidated := true |>
    <| pr_result ::= λ r, r <| rt_metrics ::= λ m,
       match mode with
       | ReuseSignalSnapshot => m <| rm_vwap_reused_signal_snapshot := 1 |>
           <| rm_vwap_reused_signal_cost := 1 |> <| rm_snapshot_fast_path := 1 |>
       | ReusedSignalCost => m <| rm_vwap_reused_signal_cost := 1 |> <| rm_snapshot_fast_path := 1 |>
       | RecomputedFromSnapshot => m <| rm_vwap_recomputed := 1 |> <| rm_snapshot_requery := 1 |>
       end |> |>.

(** [engine/risk/core/RiskPipeline.cpp:786-831] evaluate_view: the cost. *)
Definition stage_cost (cost : CostRevalidationResult) (result : RiskPipelineResult)
    : Stage RiskPipelineResult :=
  check_step StCostRevalidator (cr_ok cost) (cr_rejection cost)
    (reject_reason_for (cr_rejection cost)) (cr_reason cost) cost (record_vwap_mode (cr_vwap_mode cost) result).

(** [engine/risk/core/RiskPipeline.cpp:833-862] evaluate_view: the edge. *)
Definition stage_edge (cost : CostRevalidationResult) (result : RiskPipelineResult)
    : Stage RiskPipelineResult :=
  let r := edge_check intent cost policy in
  check_step StEdgeGuard (eg_pass r) (eg_rejection r) (reject_reason_for (eg_rejection r))
    (eg_reason r) cost result.

(** [engine/risk/core/RiskPipeline.cpp:864-893] evaluate_view: the maximum loss. *)
Definition stage_max_loss (cost : CostRevalidationResult) (result : RiskPipelineResult)
    : Stage RiskPipelineResult :=
  let r := max_loss_check intent cost policy in
  check_step StMaxLossGuard (ml_pass r) (ml_rejection r) (reject_reason_for (ml_rejection r))
    (ml_reason r) cost result.

(** [engine/risk/core/RiskPipeline.cpp:895-929] evaluate_view: exposure. *)
Definition stage_exposure (ledger : RiskLedgerSnapshot) (cost : CostRevalidationResult)
    (result : RiskPipelineResult) : Stage RiskPipelineResult :=
  let r := exposure_check ledger intent cost policy in
  check_step StExposureGuard (xg_pass r) (xg_rejection r) (reject_reason_for (xg_rejection r))
    (xg_reason r) cost result.

(** [engine/risk/core/RiskPipeline.cpp:931-965] evaluate_view: inventory. *)
Definition stage_inventory (ledger : RiskLedgerSnapshot) (cost : CostRevalidationResult)
    (result : RiskPipelineResult) : Stage RiskPipelineResult :=
  let r := inventory_check ledger intent cost policy in
  check_step StInventoryGuard (ig_pass r) (ig_rejection r) (reject_reason_for (ig_rejection r))
    (ig_reason r) cost result.

(** [engine/risk/core/RiskPipeline.cpp:967-1000] evaluate_view: partial fills. *)
Definition stage_partial_fill (cost : CostRevalidationResult) (result : RiskPipelineResult)
    : Stage RiskPipelineResult :=
  let r := partial_fill_check intent cost policy in
  check_step StPartialFillGuard (pf_pass r) (pf_rejection r) (reject_reason_for (pf_rejection r))
    (pf_reason r) cost result.

(** [engine/risk/core/RiskPipeline.cpp:1022-1027] evaluate_view: the decision handed to the book. *)
Definition approval_decision : RiskDecision :=
  attach_decision_evidence
    (make_approved_decision (rp_policy_version policy) (policy_hash_for policy)) intent.

(** [engine/risk/core/RiskPipeline.cpp:1002-1074] evaluate_view: the reservation; the book is updated. *)
Definition stage_reserve (now_ns : Z) (cost : CostRevalidationResult) (result : RiskPipelineResult)
    : Stage RiskPipelineResult :=
  λ s,
    match ps_book s with
    | None =>
        reject_stage RrMissingReservation "missing reservation book" cost
          (add_step full StReservationBook false RejectInternalError "missing reservation book" result) s
    | Some book =>
        let '(book, reservation) := try_reserve book intent approval_decision now_ns
          (should_track_reservation_ledger_detail policy) in
        let s := s <| ps_book := Some book |> in
        let result := result <| pr_reservation_attempted := true |> <| pr_reservation := reservation |> in
        let reason :=
          match res_reject_reason reservation with
          | RrDuplicateReservation => RrDuplicateReservation
          | RrExpiredIntent => RrExpiredIntent
          | _ => RrTotalExposureLimit
          end in
        check_step StReservationBook (res_ok reservation) RejectInternalError reason
          (res_detail reservation) cost result s
    end.

(** [engine/risk/core/RiskPipeline.cpp:1076-1103] evaluate_view: the approved result. *)
Definition approve_result (now_ns : Z) (cost : CostRevalidationResult) (result : RiskPipelineResult)
    : RiskPipelineResult :=
  let id := res_reservation_id (pr_reservation result) in
  let output_hash := output_hash_for intent approval_decision cost id in
  let decision := approval_decision <| rd_decision_id := output_hash |> in
  result <| pr_cost := cost |> <| pr_decision := decision |> <| pr_output_hash := output_hash |>
    <| pr_audit_trace ::= trace_decision decision |>
    <| pr_approved_intent ::= λ a,
         a <| ai_intent := intent |> <| ai_decision := decision |>
           <| ai_reservation_id := pretty (Z.to_N id) |>
           <| ai_approved_at_ns := now_ns |> <| ai_expires_at_ns := oi_expires_at_ns intent |> |>
    <| pr_result ::= λ r,
         r <| rt_output_hash := output_hash |> <| rt_intents_approved := 1 |>
           <| rt_metrics ::= λ m, m <| rm_approve_count := 1 |> <| rm_reservation_created := 1 |> |> |>.

(** [engine/risk/core/RiskPipeline.cpp:481-1103] evaluate_view: the stages after the input test, in the order of the source. *)
Definition run_stages (input : RiskInputView) (ledger : RiskLedgerSnapshot)
    (result : RiskPipelineResult) : Stage RiskPipelineResult :=
  result ← stage_kill_switch (ri_now_ns input) result;
  result ← stage_validate (ri_now_ns input) result;
  result ← stage_evidence result;
  result ← stage_expiry (ri_now_ns input) result;
  result ← stage_duplicate (ri_now_ns input) result;
  result ← stage_rate_limit (ri_now_ns input) result;
  result ← stage_legs input (intent_legs intent) result;
  let cost := revalidate_input input in
  result ← stage_cost cost result;
  result ← stage_edge cost result;
  result ← stage_max_loss cost result;
  result ← stage_exposure ledger cost result;
  result ← stage_inventory ledger cost result;
  result ← stage_partial_fill cost result;
  result ← stage_reserve (ri_now_ns input) cost result;
  mret (approve_result (ri_now_ns input) cost result).
End stages.

(** [engine/risk/core/RiskPipeline.cpp:459-461] evaluate_view: the test on the input's pointers. *)
Definition input_invalid (input : RiskInputView) : bool :=
  bool_decide (ri_snapshots input = None) && (0 <? ri_snapshot_count input)%nat ||
  bool_decide (ri_depth_views input = None) && (0 <? ri_depth_view_count input)%nat.

(** What an evaluation gives back: the state, the result, and the result a
    non-null publisher was handed. *)
Definition Evaluation : Type := PipelineState * RiskPipelineResult * option RiskPipelineResult.

Definition begin_result : RiskPipelineResult :=
  pipeline_result0 <| pr_result ::= λ r,
    r <| rt_intents_evaluated := 1 |> <| rt_metrics ::= λ m, m <| rm_evaluate_count := 1 |> |> |>.

(** [engine/risk/core/RiskPipeline.cpp:432-444] evaluate_view on a null intent. *)
Definition missing_intent_result : RiskPipelineResult :=
  let decision := make_rejected_decision RrInvalidIntent "missing risk input intent" in
  begin_result <| pr_decision := decision |> <| pr_audit_trace ::= trace_decision decision |>
    <| pr_result ::= record_reject_reason RrInvalidIntent |>.

(** [engine/risk/core/RiskPipeline.cpp:422-479] evaluate_view: the input tests around the stages. *)
Definition evaluate_view (s : PipelineState) (input : RiskInputView) (publisher full : bool) : Evaluation :=
  match ri_intent input with
  | None => (s, missing_intent_result, None)
  | Some intent =>
      let publish (r : RiskPipelineResult) := if publisher then Some r else None in
      let result := init_trace begin_result intent (default policy0 (ri_policy input)) in
      match ri_policy input, ri_ledger input, input_invalid input with
      | Some policy, Some ledger, false =>
          match run_stages full intent policy input ledger result s with
          | (s', inl (reason, detail, cost, result)) =>
              let r := reject_result intent reason detail cost result in (s', r, publish r)
          | (s', inr r) => (s', r, publish r)
          end
      | _, _, _ =>
          let r := reject_result intent RrInvalidIntent "invalid risk input view" cost0
            (add_step full StIntentValidator false RejectInternalError "invalid risk input view" result) in
          (s, r, publish r)
      end
  end.

(** [engine/risk/core/RiskContext.h:27-40] RiskEvaluationContext; the publisher is a flag. *)
Record RiskEvaluationContext := mkRiskEvaluationContext {
  rc_now_ns : Z;
  rc_latest_snapshots : list MarketStateSnapshot;
  rc_latest_snapshot_version_hash : Z;
  rc_policy : RiskPolicySnapshot;
  rc_ledger_snapshot : RiskLedgerSnapshot;
  rc_enable_full_audit_trace : bool;
  rc_decision_publisher : bool
}.

(** [engine/risk/core/RiskPipeline.cpp:398-420] evaluate. *)
Definition pipeline_evaluate (s : PipelineState) (intent : OpportunityIntent)
    (context : RiskEvaluationContext) : Evaluation :=
  let input := input0
    <| ri_intent := Some intent |>
    <| ri_snapshots := Some (rc_latest_snapshots context) |>
    <| ri_snapshot_count := Z.to_nat (Z.of_nat (length (rc_latest_snapshots context)) mod 65536) |>
    <| ri_snapshot_version_hash := rc_latest_snapshot_version_hash context |>
    <| ri_now_ns := rc_now_ns context |>
    <| ri_policy := Some (rc_policy context) |>
    <| ri_ledger := Some (rc_ledger_snapshot context) |> in
  evaluate_view s input (rc_decision_publisher context) (rc_enable_full_audit_trace context).

(** ** Reasoning about stages *)

Lemma stage_bind_inr {A B} (m : Stage A) (k : A → Stage B) s s' b :
  (m ≫= k) s = (s', inr b) ↔ ∃ s1 a, m s = (s1, inr a) ∧ k a s1 = (s', inr b).
Proof.
  unfold mbind, stage_bind. destruct (m s) as [s1 [e|a]]; split.
  - done.
  - naive_solver.
  - eauto.
  - naive_solver.
Qed.

Lemma stage_bind_inl {A B} (m : Stage A) (k : A → Stage B) s s' e :
  (m ≫= k) s = (s', inl e) ↔ m s = (s', inl e) ∨ ∃ s1 a, m s = (s1, inr a) ∧ k a s1 = (s', inl e).
Proof.
  unfold mbind, stage_bind. destruct (m s) as [s1 [e1|a]]; split.
  - intros H. by left; simplify_eq.
  - naive_solver.
  - intros H. right. eauto.
  - naive_solver.
Qed.

Lemma check_step_inr full code pass rej reason detail cost r s s' r' :
  check_step full code pass rej reason detail cost r s = (s', inr r') ↔
  pass = true ∧ s' = s ∧ r' = add_step full code true DtPass "" r.
Proof. unfold check_step. destruct pass; cbn [negb]; unfold reject_stage, mret, stage_ret; naive_solver. Qed.

Lemma check_step_inl full code pass rej reason detail cost r s s' e :
  check_step full code pass rej reason detail cost r s = (s', inl e) →
  pass = false ∧ s' = s ∧ e = (reason, detail, cost, add_step full code false rej detail r).
Proof. unfold check_step. destruct pass; cbn [negb]; unfold reject_stage, mret, stage_ret; naive_solver. Qed.

(** A stage that can neither reserve nor release. *)
Definition keeps_book {A} (m : Stage A) : Prop := ∀ s, ps_book (m s).1 = ps_book s.

Lemma keeps_book_bind {A B} (m : Stage A) (k : A → Stage B) :
  keeps_book m → (∀ a, keeps_book (k a)) → keeps_book (m ≫= k).
Proof.
  intros Hm Hk s. unfold mbind, stage_bind. specialize (Hm s).
  destruct (m s) as [s1 [e|a]]; [done|]. by rewrite Hk.
Qed.

Lemma keeps_book_check full code pass rej reason detail cost r :
  keeps_book (check_step full code pass rej reason detail cost r).
Proof. intros s. unfold check_step. by destruct pass. Qed.

Lemma keeps_book_duplicate full intent now r : keeps_book (stage_duplicate full intent now r).
Proof. intros s. unfold stage_duplicate. destruct (duplicate_check _ _ _) as [g x]. by rewrite keeps_book_check. Qed.

Lemma keeps_book_rate full intent policy now r : keeps_book (stage_rate_limit full intent policy now r).
Proof. intros s. unfold stage_rate_limit. destruct (rate_limit_check _ _ _) as [g x]. by rewrite keeps_book_check. Qed.

Lemma keeps_book_legs full intent policy input legs r : keeps_book (stage_legs full intent policy input legs r).
Proof.
  revert r; induction legs as [|leg legs IH]; intros r; cbn [stage_legs]; [intros s; done|].
  apply keeps_book_bind; [|done].
  apply keeps_book_bind; [apply keeps_book_check|intros; apply keeps_book_check].
Qed.
#[export] Hint Resolve keeps_book_check keeps_book_duplicate keeps_book_rate keeps_book_legs : engine.

(** What a run of the stages does to the state: it fails before the
    reservation with the book untouched, or it gets to the reservation. *)
Definition before_reserve full intent policy input ledger result : Stage RiskPipelineResult :=
  result ← stage_kill_switch full intent policy (ri_now_ns input) result;
  result ← stage_validate full intent (ri_now_ns input) result;
  result ← stage_evidence full intent result;
  result ← stage_expiry full intent (ri_now_ns input) result;
  result ← stage_duplicate full intent (ri_now_ns input) result;
  result ← stage_rate_limit full intent policy (ri_now_ns input) result;
  result ← stage_legs full intent policy input (intent_legs intent) result;
  let cost := revalidate_input intent policy input in
  result ← stage_cost full cost result;
  result ← stage_edge full intent policy cost result;
  result ← stage_max_loss full intent policy cost result;
  result ← stage_exposure full intent policy ledger cost result;
  result ← stage_inventory full intent policy ledger cost result;
  stage_partial_fill full intent policy cost result.

Lemma stage_bind_assoc {A B C} (m : Stage A) (k : A → Stage B) (h : B → Stage C) s :
  ((m ≫= k) ≫= h) s = (m ≫= (λ a, k a ≫= h)) s.
Proof. unfold mbind, stage_bind. by destruct (m s) as [s1 [e|a]]. Qed.

Lemma stage_bind_ext {A B} (m : Stage A) (k h : A → Stage B) s :
  (∀ a s, k a s = h a s) → (m ≫= k) s = (m ≫= h) s.
Proof. intros H. unfold mbind, stage_bind. by destruct (m s) as [s1 [e|a]]. Qed.

Lemma run_stages_split full intent policy input ledger result s :
  run_stages full intent policy input ledger result s =
  (before_reserve full intent policy input ledger result ≫= λ result,
     result ← stage_reserve full intent policy (ri_now_ns input) (revalidate_input intent policy input) result;
     mret (approve_result intent policy (ri_now_ns input) (revalidate_input intent policy input) result)) s.
Proof.
  unfold run_stages, before_reserve. cbv zeta.
  do 12 (rewrite stage_bind_assoc; apply stage_bind_ext; intros ? ?). done.
Qed.

Lemma before_reserve_keeps full intent policy input ledger result :
  keeps_book (before_reserve full intent policy input ledger result).
Proof.
  unfold before_reserve. cbv zeta.
  do 12 (apply keeps_book_bind; [auto with engine; apply keeps_book_check|intros ?]).
  apply keeps_book_check.
Qed.

(** ** What an approval means *)

(** The state and freshness checks of one leg, against the evidence found. *)
Definition leg_admissible (intent : OpportunityIntent) (policy : RiskPolicySnapshot)
    (input : RiskInputView) (leg : IntentLeg) : Prop :=
  match find_view (input_depth_views input) leg with
  | Some v => gr_pass (market_state_check_view (Some v)) = true ∧
              gr_pass (view_freshness_check v intent policy (ri_now_ns input)) = true
  | None => ∃ s, find_view (input_snapshots input) leg = Some s ∧
              gr_pass (market_state_check (Some s)) = true ∧
              gr_pass (snapshot_freshness_check s intent policy (ri_now_ns input)) = true
  end.

Record all_checks_pass (intent : OpportunityIntent) (policy : RiskPolicySnapshot)
    (input : RiskInputView) (ledger : RiskLedgerSnapshot) (cost : CostRevalidationResult) : Prop := {
  ac_kill_switch : rp_kill_switch_enabled policy = false;
  ac_valid : iv_ok (validate_intent intent (ri_now_ns input)) = true;
  ac_evidence : iv_ok (verify_evidence intent) = true;
  ac_unexpired : ri_now_ns input < oi_expires_at_ns intent;
  ac_legs : ∀ leg, leg ∈ intent_legs intent → leg_admissible intent policy input leg;
  ac_cost : cr_ok cost = true;
  ac_edge : eg_pass (edge_check intent cost policy) = true;
  ac_max_loss : ml_pass (max_loss_check intent cost policy) = true;
  ac_exposure : xg_pass (exposure_check ledger intent cost policy) = true;
  ac_inventory : ig_pass (inventory_check ledger intent cost policy) = true;
  ac_partial_fill : pf_pass (partial_fill_check intent cost policy) = true
}.

Lemma stage_legs_inr full intent policy input legs r s s' r' :
  stage_legs full intent policy input legs r s = (s', inr r') →
  s' = s ∧ ∀ leg, leg ∈ legs → leg_admissible intent policy input leg.
Proof.
  revert r s; induction legs as [|leg legs IH]; intros r s H; cbn [stage_legs] in H.
  { unfold mret, stage_ret in H. simplify_eq. split; [done|set_solver]. }
  apply stage_bind_inr in H as (s1 & r1 & H1 & H). unfold stage_leg in H1.
  apply stage_bind_inr in H1 as (s2 & r2 & H2 & H1).
  apply check_step_inr in H2 as (Hm & -> & _). apply check_step_inr in H1 as (Hf & -> & _).
  apply IH in H as [-> Hrest]. split; [done|].
  intros l [->|Hl]%elem_of_cons; [|by apply Hrest]. unfold leg_admissible.
  destruct (find_view (input_depth_views input) leg) as [v|]; [done|].
  destruct (find_view (input_snapshots input) leg) as [sn|]; [by exists sn|done].
Qed.

(** The guards of the state after both have let the intent through. *)
Definition admit_guards (intent : OpportunityIntent) (policy : RiskPolicySnapshot) (now : Z)
    (p : RiskPipeline) : RiskPipeline :=
  mkRiskPipeline (duplicate_check (rk_duplicate_guard p) intent now).1
    (rate_limit_check (set_max_per_second (rk_rate_limit_guard p) (rp_max_approvals_per_second policy))
       intent now).1.

Lemma stage_duplicate_inr full intent now r s s' r' :
  stage_duplicate full intent now r s = (s', inr r') →
  gr_pass (duplicate_check (rk_duplicate_guard (ps_pipeline s)) intent now).2 = true ∧
  s' = s <| ps_pipeline ::= λ p,
         p <| rk_duplicate_guard := (duplicate_check (rk_duplicate_guard (ps_pipeline s)) intent now).1 |> |>.
Proof.
  unfold stage_duplicate. destruct (duplicate_check _ _ _) as [g x]; cbn [fst snd].
  by intros (? & -> & _)%check_step_inr.
Qed.

Lemma stage_rate_limit_inr full intent policy now r s s' r' :
  stage_rate_limit full intent policy now r s = (s', inr r') →
  let c := rate_limit_check (set_max_per_second (rk_rate_limit_guard (ps_pipeline s))
             (rp_max_approvals_per_second policy)) intent now in
  gr_pass c.2 = true ∧ s' = s <| ps_pipeline ::= λ p, p <| rk_rate_limit_guard := c.1 |> |>.
Proof.
  unfold stage_rate_limit. destruct (rate_limit_check _ _ _) as [g x]; cbn [fst snd].
  by intros (? & -> & _)%check_step_inr.
Qed.

Lemma before_reserve_inr full intent policy input ledger r s s' r' :
  before_reserve full intent policy input ledger r s = (s', inr r') →
  all_checks_pass intent policy input ledger (revalidate_input intent policy input) ∧
  gr_pass (duplicate_check (rk_duplicate_guard (ps_pipeline s)) intent (ri_now_ns input)).2 = true ∧
  gr_pass (rate_limit_check (set_max_per_second (rk_rate_limit_guard (ps_pipeline s))
             (rp_max_approvals_per_second policy)) intent (ri_now_ns input)).2 = true ∧
  s' = mkPipelineState (admit_guards intent policy (ri_now_ns input) (ps_pipeline s)) (ps_book s).
Proof.
  unfold before_reserve. cbv zeta. intros H.
  apply stage_bind_inr in H as (s1 & r1 & (Hks & -> & _)%check_step_inr & H).
  apply stage_bind_inr in H as (s2 & r2 & (Hval & -> & _)%check_step_inr & H).
  apply stage_bind_inr in H as (s3 & r3 & (Hev & -> & _)%check_step_inr & H).
  apply stage_bind_inr in H as (s4 & r4 & (Hex & -> & _)%check_step_inr & H).
  apply stage_bind_inr in H as (s5 & r5 & (Hdup & ->)%stage_duplicate_inr & H).
  apply stage_bind_inr in H as (s6 & r6 & (Hrate & ->)%stage_rate_limit_inr & H).
  apply stage_bind_inr in H as (s7 & r7 & (-> & Hlegs)%stage_legs_inr & H).
  apply stage_bind_inr in H as (s8 & r8 & (Hcost & -> & _)%check_step_inr & H).
  apply stage_bind_inr in H as (s9 & r9 & (Hedge & -> & _)%check_step_inr & H).
  apply stage_bind_inr in H as (s10 & r10 & (Hml & -> & _)%check_step_inr & H).
  apply stage_bind_inr in H as (s11 & r11 & (Hxp & -> & _)%check_step_inr & H).
  apply stage_bind_inr in H as (s12 & r12 & (Hinv & -> & _)%check_step_inr & H).
  apply check_step_inr in H as (Hpf & -> & _).
  unfold kill_switch_check in Hks. unfold expiry_check in Hex.
  split_and!.
  - constructor; try done.
    + by destruct (rp_kill_switch_enabled policy).
    + destruct (_ <? _) eqn:E; [by breflect|done].
  - done.
  - by destruct s as [[dg rg] b].
  - by destruct s as [[dg rg] b].
Qed.

(** The converse direction: a check that passes continues. *)
Lemma check_step_pass full code pass rej reason detail cost r s :
  pass = true → check_step full code pass rej reason detail cost r s =
                (s, inr (add_step full code true DtPass "" r)).
Proof. by intros ->. Qed.

Lemma stage_bind_pass {A B} (m : Stage A) (k : A → Stage B) s s1 a :
  m s = (s1, inr a) → (m ≫= k) s = k a s1.
Proof. intros H. unfold mbind, stage_bind. by rewrite H. Qed.

Lemma stage_legs_pass full intent policy input legs r s :
  (∀ leg, leg ∈ legs → leg_admissible intent policy input leg) →
  ∃ r', stage_legs full intent policy input legs r s = (s, inr r').
Proof.
  revert r; induction legs as [|leg legs IH]; intros r Hl; cbn [stage_legs]; [by exists r|].
  assert (Hleg := Hl leg ltac:(left)). unfold leg_admissible in Hleg.
  assert (∃ r1, stage_leg full intent policy input leg r s = (s, inr r1)) as [r1 H1].
  { eexists. unfold stage_leg.
    destruct (find_view (input_depth_views input) leg) as [v|].
    { destruct Hleg as [Hm Hf]. by erewrite stage_bind_pass by (by apply check_step_pass); apply check_step_pass. }
    destruct Hleg as (sn & -> & Hm & Hf).
    by erewrite stage_bind_pass by (by apply check_step_pass); apply check_step_pass. }
  destruct (IH r1) as [r2 H2]; [intros; apply Hl; by right|].
  exists r2. by rewrite (stage_bind_pass _ _ _ _ _ H1).
Qed.

Lemma stage_duplicate_pass full intent now r s :
  gr_pass (duplicate_check (rk_duplicate_guard (ps_pipeline s)) intent now).2 = true →
  ∃ s' r', stage_duplicate full intent now r s = (s', inr r') ∧
    rk_rate_limit_guard (ps_pipeline s') = rk_rate_limit_guard (ps_pipeline s).
Proof.
  unfold stage_duplicate. destruct (duplicate_check _ _ _) as [g x]; cbn [snd]. intros H.
  do 2 eexists. split; [by apply check_step_pass|]. by destruct s as [[dg rg] b].
Qed.

Lemma stage_rate_limit_pass full intent policy now r s :
  gr_pass (rate_limit_check (set_max_per_second (rk_rate_limit_guard (ps_pipeline s))
             (rp_max_approvals_per_second policy)) intent now).2 = true →
  ∃ s' r', stage_rate_limit full intent policy now r s = (s', inr r').
Proof.
  unfold stage_rate_limit. destruct (rate_limit_check _ _ _) as [g x]; cbn [snd]. intros H.
  do 2 eexists. by apply check_step_pass.
Qed.

Lemma before_reserve_pass full intent policy input ledger r s :
  all_checks_pass intent policy input ledger (revalidate_input intent policy input) →
  gr_pass (duplicate_check (rk_duplicate_guard (ps_pipeline s)) intent (ri_now_ns input)).2 = true →
  gr_pass (rate_limit_check (set_max_per_second (rk_rate_limit_guard (ps_pipeline s))
             (rp_max_approvals_per_second policy)) intent (ri_now_ns input)).2 = true →
  ∃ s' r', before_reserve full intent policy input ledger r s = (s', inr r').
Proof.
  intros [Hk Hv He Hx Hl Hc Hed Hm Hxp Hi Hp] Hd Hr. unfold before_reserve; cbv zeta.
  do 4 (erewrite stage_bind_pass; [|apply check_step_pass; try done;
    unfold kill_switch_check, expiry_check; rewrite ?Hk; try done;
    by destruct (Z.ltb_spec (ri_now_ns input) (oi_expires_at_ns intent)); [|lia]]).
  edestruct stage_duplicate_pass as (s1 & r1 & H1 & Hrg); [exact Hd|].
  rewrite (stage_bind_pass _ _ _ _ _ H1), <- Hrg in *.
  edestruct stage_rate_limit_pass as (s2 & r2 & H2); [exact Hr|].
  rewrite (stage_bind_pass _ _ _ _ _ H2).
  edestruct stage_legs_pass as (r3 & H3); [exact Hl|].
  rewrite (stage_bind_pass _ _ _ _ _ H3).
  do 5 (erewrite stage_bind_pass; [|by apply check_step_pass]).
  do 2 eexists. by apply check_step_pass.
Qed.

(** What the last stage does with the book it is given. *)
Lemma stage_reserve_some full intent policy now cost r s book :
  ps_book s = Some book →
  let t := try_reserve book intent (approval_decision intent policy) now
             (should_track_reservation_ledger_detail policy) in
  (stage_reserve full intent policy now cost r s).1 = s <| ps_book := Some t.1 |> ∧
  ((∃ r', (stage_reserve full intent policy now cost r s).2 = inr r' ∧
      res_ok t.2 = true ∧ pr_reservation r' = t.2) ∨
   ((∃ e, (stage_reserve full intent policy now cost r s).2 = inl e) ∧ res_ok t.2 = false)).
Proof.
  intros Hb. unfold stage_reserve. rewrite Hb. destruct (try_reserve _ _ _ _ _) as [b' res]; cbv zeta; cbn [fst snd].
  unfold check_step. destruct (res_ok res); cbn [negb].
  - split; [done|]. left. eexists. split_and!; [done..|]. by destruct r.
  - split; [done|]. right. split; [by eexists|done].
Qed.

(** Everything an evaluation demands before it approves an intent. *)
Record admissible (s : PipelineState) (input : RiskInputView) (intent : OpportunityIntent)
    (policy : RiskPolicySnapshot) (ledger : RiskLedgerSnapshot) (book : ReservationBook) : Prop := {
  ad_intent : ri_intent input = Some intent;
  ad_policy : ri_policy input = Some policy;
  ad_ledger : ri_ledger input = Some ledger;
  ad_input : input_invalid input = false;
  ad_book : ps_book s = Some book;
  ad_checks : all_checks_pass intent policy input ledger (revalidate_input intent policy input);
  ad_duplicate :
    gr_pass (duplicate_check (rk_duplicate_guard (ps_pipeline s)) intent (ri_now_ns input)).2 = true;
  ad_rate :
    gr_pass (rate_limit_check (set_max_per_second (rk_rate_limit_guard (ps_pipeline s))
      (rp_max_approvals_per_second policy)) intent (ri_now_ns input)).2 = true;
  ad_reserve :
    res_ok (try_reserve book intent (approval_decision intent policy) (ri_now_ns input)
      (should_track_reservation_ledger_detail policy)).2 = true
}.

(** The outcomes of the stages: an approval, or a rejection with the book as it was. *)
Lemma run_stages_cases full intent policy input ledger r s s' out :
  ri_intent input = Some intent → ri_policy input = Some policy → ri_ledger input = Some ledger →
  input_invalid input = false →
  run_stages full intent policy input ledger r s = (s', out) →
  (∃ book r0, admissible s input intent policy ledger book ∧
     let t := try_reserve book intent (approval_decision intent policy) (ri_now_ns input)
                (should_track_reservation_ledger_detail policy) in
     s' = mkPipelineState (admit_guards intent policy (ri_now_ns input) (ps_pipeline s)) (Some t.1) ∧
     pr_reservation r0 = t.2 ∧
     out = inr (approve_result intent policy (ri_now_ns input) (revalidate_input intent policy input) r0)) ∨
  ((∀ book, ¬ admissible s input intent policy ledger book) ∧ ps_book s' = ps_book s ∧
   ∃ reason detail cost r0, out = inl (reason, detail, cost, r0)).
Proof.
  intros Hi Hp Hl Hv. rewrite run_stages_split. intros H.
  pose proof (before_reserve_keeps full intent policy input ledger r s) as Hkeep.
  destruct (before_reserve full intent policy input ledger r s) as [s1 [e|r1]] eqn:Hbr; cbn [fst] in Hkeep.
  - right. unfold mbind, stage_bind in H. rewrite Hbr in H. destruct e as [[[reason detail] cost] r0]. simplify_eq.
    split_and!; [|done|by eauto].
    intros book [_ _ _ _ _ Hc Hd Hr _].
    edestruct (before_reserve_pass full) as (? & ? & Hpass); [exact Hc|exact Hd|exact Hr|]. by rewrite Hbr in Hpass.
  - rewrite (stage_bind_pass _ _ _ _ _ Hbr) in H.
    apply before_reserve_inr in Hbr as (Hc & Hd & Hr & ->). cbn [ps_book] in Hkeep.
    destruct (ps_book s) as [book|] eqn:Hbook.
    + pose proof (stage_reserve_some full intent policy (ri_now_ns input) (revalidate_input intent policy input) r1
        (mkPipelineState (admit_guards intent policy (ri_now_ns input) (ps_pipeline s)) (Some book)) book eq_refl)
        as (Hs & Hres); cbv zeta in Hs, Hres.
      pose proof (try_reserve_cases book intent (approval_decision intent policy) (ri_now_ns input)
        (should_track_reservation_ledger_detail policy)) as Htry.
      destruct (try_reserve _ _ _ _ _) as [b' res] eqn:Ht; cbn [fst snd] in *.
      unfold mbind, stage_bind in H.
      destruct (stage_reserve _ _ _ _ _ _ _) as [s2 o]; cbn [fst snd] in *. subst s2.
      destruct Hres as [(r2 & -> & Hok & Hr2)|[([[[reason detail] cost] r0] & ->) Hbad]].
      * left. exists book, r2. unfold mret, stage_ret in H. simplify_eq. rewrite Ht.
        split_and!; [|done..]. constructor; try done. by rewrite Ht.
      * right. simplify_eq. split_and!; [|by rewrite Hbad in Htry; destruct Htry as [_ ->]|by eauto].
        intros book' [_ _ _ _ Hb' _ _ _ Hok]. assert (book' = book) as -> by congruence.
        rewrite Ht in Hok. cbn [snd] in Hok. congruence.
    + right. unfold mbind, stage_bind in H. unfold stage_reserve in H. cbn [ps_book] in H.
      unfold reject_stage in H. simplify_eq. split_and!; [|done|by eauto].
      intros book [_ _ _ _ Hb' _ _ _ _]. congruence.
Qed.

Lemma reject_result_rejected intent reason detail cost r :
  decision_approved (pr_decision (reject_result intent reason detail cost r)) = false.
Proof. by destruct r. Qed.

Lemma approve_result_approved intent policy now cost r :
  decision_approved (pr_decision (approve_result intent policy now cost r)) = true.
Proof. by destruct r. Qed.

(** The outcomes of an evaluation. *)
Lemma evaluate_view_cases s input publisher full s' r p :
  evaluate_view s input publisher full = (s', r, p) →
  (∃ intent policy ledger book r0, admissible s input intent policy ledger book ∧
     let t := try_reserve book intent (approval_decision intent policy) (ri_now_ns input)
                (should_track_reservation_ledger_detail policy) in
     s' = mkPipelineState (admit_guards intent policy (ri_now_ns input) (ps_pipeline s)) (Some t.1) ∧
     pr_reservation r0 = t.2 ∧ p = (if publisher then Some r else None) ∧
     r = approve_result intent policy (ri_now_ns input) (revalidate_input intent policy input) r0) ∨
  ((∀ intent policy ledger book, ¬ admissible s input intent policy ledger book) ∧
   ps_book s' = ps_book s ∧
   (ri_intent input = None ∧ r = missing_intent_result ∧ p = None ∨
    ∃ intent reason detail cost r0, ri_intent input = Some intent ∧
      r = reject_result intent reason detail cost r0 ∧ p = (if publisher then Some r else None))).
Proof.
  unfold evaluate_view.
  destruct (ri_intent input) as [intent|] eqn:Hi.
  2: { intros [= <- <- <-]. right. split_and!; [|done|by left].
       intros intent policy ledger book Ha. pose proof (ad_intent _ _ _ _ _ _ Ha). congruence. }
  destruct (ri_policy input) as [policy|] eqn:Hp; [destruct (ri_ledger input) as [ledger|] eqn:Hl;
    [destruct (input_invalid input) eqn:Hv|]|]; cbn [default].
  2: { destruct (run_stages _ _ _ _ _ _ _) as [s1 out] eqn:Hrun.
       apply run_stages_cases in Hrun as [(book & r0 & Ha & Hs & Hr0 & ->)|(Hna & Hb & reason & detail & cost & r0 & ->)];
         try done; intros [= <- <- <-].
       - left. exists intent, policy, ledger, book, r0. done.
       - right. split_and!; [|done|right; eexists intent, _, _, _, _; done].
         intros i2 p2 l2 b2 Ha. pose proof (ad_intent _ _ _ _ _ _ Ha). pose proof (ad_policy _ _ _ _ _ _ Ha).
         pose proof (ad_ledger _ _ _ _ _ _ Ha). simplify_eq. by apply (Hna b2). }
  all: intros [= <- <- <-]; right; split_and!; [|done|right; eexists intent, _, _, _, _; done];
    intros i2 p2 l2 b2 [? ? ? ?]; congruence.
Qed.

(** C1. An approval is granted exactly to an admissible input: every pointer of
    the view is set, the kill switch is off, the intent is well formed, carries
    its evidence and has not expired, its evidence is new, the rate limit has
    room, every leg has a live and fresh book, the revalidated cost passes the
    edge, loss, exposure, inventory and partial-fill checks, and the
    reservation book accepts the reservation. *)
Theorem pipeline_approves_iff s input publisher full :
  let '(_, r, _) := evaluate_view s input publisher full in
  decision_approved (pr_decision r) = true ↔
  ∃ intent policy ledger book, admissible s input intent policy ledger book.
Proof.
  destruct (evaluate_view s input publisher full) as [[s' r] p] eqn:H.
  apply evaluate_view_cases in H as
    [(intent & policy & ledger & book & r0 & Ha & _ & _ & _ & ->)|(Hna & _ & Hrej)].
  - rewrite approve_result_approved. naive_solver.
  - split; [|naive_solver].
    destruct Hrej as [(_ & -> & _)|(i & reason & detail & cost & r0 & _ & -> & _)]; [done|].
    by rewrite reject_result_rejected.
Qed.

(** The reservation an approval rests on, as the approved intent names it. *)
Lemma reserve_verdict_id b intent d now :
  res_ok (reserve_verdict b intent d now) = true →
  res_reservation_id (reserve_verdict b intent d now) = rb_next_reservation_id b.
Proof. unfold reserve_verdict. repeat (step_if; [done|]). done. Qed.

(** The single reservation an accepted call leaves, and its id. *)
Lemma try_reserve_adds book intent d now track :
  res_ok (try_reserve book intent d now track).2 = true →
  let t := try_reserve book intent d now track in
  let r := reserved_for book intent now track in
  active t.1 = active book ++ [r] ∧ res_reservation_id t.2 = rs_reservation_id r.
Proof.
  pose proof (try_reserve_cases book intent d now track) as H.
  pose proof (reserved_for_fields book intent now track) as (_ & Ha & _ & Hid & _).
  destruct (try_reserve book intent d now track) as [b' res]; cbn [fst snd]. intros Hok.
  rewrite Hok in H. destruct H as [-> [_ ->]]. cbv zeta. split.
  - unfold active; cbn [rb_reservations]. by rewrite filter_app, filter_cons_True.
  - by rewrite Hid, reserve_verdict_id.
Qed.

Lemma approve_result_intent intent policy now cost r :
  let x := approve_result intent policy now cost r in
  approved_intent_valid (pr_approved_intent x) = true ∧
  ai_intent (pr_approved_intent x) = intent ∧
  ai_decision (pr_approved_intent x) = pr_decision x ∧
  ai_reservation_id (pr_approved_intent x) = pretty (Z.to_N (res_reservation_id (pr_reservation r))) ∧
  ai_approved_at_ns (pr_approved_intent x) = now ∧
  ai_expires_at_ns (pr_approved_intent x) = oi_expires_at_ns intent ∧
  rd_decision_id (pr_decision x) = pr_output_hash x ∧
  rt_output_hash (pr_result x) = pr_output_hash x ∧
  at_decision (pr_audit_trace x) = pr_decision x.
Proof.
  unfold approve_result. cbv zeta.
  pose proof (pretty_Z_nonempty (res_reservation_id (pr_reservation r))) as Hname.
  generalize dependent (pretty (Z.to_N (res_reservation_id (pr_reservation r)))). intros name Hname.
  generalize (output_hash_for intent (approval_decision intent policy) cost
    (res_reservation_id (pr_reservation r))). intros hash.
  destruct r as [? [] [] ? ? [] ? ? ?]. split_and!; [|reflexivity..].
  unfold approved_intent_valid, has_reservation. apply andb_true_intro; split; [reflexivity|].
  apply orb_true_iff; right. by apply negb_true_iff, String.eqb_neq.
Qed.

(** An approval hands over a valid approved intent - the input's intent, an
    approved decision, a named reservation - and leaves in the book, next to
    the reservations that were active, exactly one new active reservation,
    with the id the approved intent names and the intent's key, cost and
    expiry.  A rejection leaves the book as it was. *)
Theorem pipeline_reserves_on_approval s input publisher full book :
  ps_book s = Some book →
  let '(s', r, _) := evaluate_view s input publisher full in
  (decision_approved (pr_decision r) = false → ps_book s' = Some book) ∧
  (decision_approved (pr_decision r) = true →
     ∃ intent book' res, ri_intent input = Some intent ∧ ps_book s' = Some book' ∧
       active book' = active book ++ [res] ∧
       approved_intent_valid (pr_approved_intent r) = true ∧
       ai_intent (pr_approved_intent r) = intent ∧
       ai_decision (pr_approved_intent r) = pr_decision r ∧
       ai_reservation_id (pr_approved_intent r) = pretty (Z.to_N (rs_reservation_id res)) ∧
       reservation_key res = reservation_key_for intent ∧
       rs_reserved_cost_tick res = oi_estimated_cost_tick intent ∧
       rs_expires_at_ns res = oi_expires_at_ns intent ∧ ri_now_ns input < rs_expires_at_ns res).
Proof.
  intros Hbook.
  destruct (evaluate_view s input publisher full) as [[s' r] p] eqn:H.
  apply evaluate_view_cases in H as
    [(intent & policy & ledger & bk & r0 & Ha & -> & Hr0 & _ & ->)|(Hna & Hkeep & Hrej)].
  2: { split; [congruence|].
       destruct Hrej as [(_ & -> & _)|(i & reason & detail & cost & r0 & _ & -> & _)]; [done|].
       by rewrite reject_result_rejected. }
  rewrite approve_result_approved. split; [done|intros _].
  assert (bk = book) as -> by (destruct Ha; congruence).
  pose proof (ac_unexpired _ _ _ _ _ (ad_checks _ _ _ _ _ _ Ha)) as Hx.
  pose proof (reserved_for_fields book intent (ri_now_ns input) (should_track_reservation_ledger_detail policy))
    as (Hk & _ & _ & _ & Hc & _ & He).
  pose proof (try_reserve_adds _ _ _ _ _ (ad_reserve _ _ _ _ _ _ Ha)) as (Hact & Hid); cbv zeta in Hact, Hid.
  pose proof (approve_result_intent intent policy (ri_now_ns input) (revalidate_input intent policy input) r0)
    as (Hval & Hint & Hdec & Hname & _).
  eexists intent, _, _. split_and!; [by destruct Ha|reflexivity|exact Hact|done|done|done|..|done|done|done|by rewrite He].
  by rewrite Hname, Hr0, Hid.
Qed.

(** ** Runs of evaluations *)

(** The intents a run of evaluations approves. *)
Fixpoint evaluate_run (s : PipelineState) (inputs : list RiskInputView) : list OpportunityIntent :=
  match inputs with
  | [] => []
  | input :: rest =>
      let '(s', r, _) := evaluate_view s input false false in
      if decision_approved (pr_decision r)
      then ai_intent (pr_approved_intent r) :: evaluate_run s' rest
      else evaluate_run s' rest
  end.

(** The duplicate guard's memory only grows. *)
Definition keeps_seen {A} (m : Stage A) : Prop := ∀ s e,
  seen (rk_duplicate_guard (ps_pipeline s)) e → seen (rk_duplicate_guard (ps_pipeline (m s).1)) e.

Lemma keeps_seen_bind {A B} (m : Stage A) (k : A → Stage B) :
  keeps_seen m → (∀ a, keeps_seen (k a)) → keeps_seen (m ≫= k).
Proof.
  intros Hm Hk s e He. unfold mbind, stage_bind. specialize (Hm s e He).
  destruct (m s) as [s1 [x|a]]; [done|]. by apply Hk.
Qed.

Lemma check_step_state full code pass rej reason detail cost r s :
  (check_step full code pass rej reason detail cost r s).1 = s.
Proof. unfold check_step. by destruct pass. Qed.

Lemma keeps_seen_check full code pass rej reason detail cost r :
  keeps_seen (check_step full code pass rej reason detail cost r).
Proof. intros s e. by rewrite check_step_state. Qed.

Lemma keeps_seen_duplicate full intent now r : keeps_seen (stage_duplicate full intent now r).
Proof.
  intros [[dg rg] b] e He. unfold stage_duplicate.
  pose proof (duplicate_check_spec dg intent now) as H; cbn [ps_pipeline rk_duplicate_guard] in *.
  destruct (duplicate_check dg intent now) as [g x]. rewrite check_step_state. by apply H.
Qed.

Lemma keeps_seen_rate full intent policy now r : keeps_seen (stage_rate_limit full intent policy now r).
Proof.
  intros [[dg rg] b] e He. unfold stage_rate_limit.
  destruct (rate_limit_check _ _ _) as [g x]. by rewrite check_step_state.
Qed.

Lemma keeps_seen_legs full intent policy input legs r : keeps_seen (stage_legs full intent policy input legs r).
Proof.
  revert r; induction legs as [|leg legs IH]; intros r; cbn [stage_legs]; [intros s; done|].
  apply keeps_seen_bind; [|done]. apply keeps_seen_bind; [|intros]; apply keeps_seen_check.
Qed.

Lemma keeps_seen_reserve full intent policy now cost r : keeps_seen (stage_reserve full intent policy now cost r).
Proof.
  intros [p [book|]] e He; unfold stage_reserve; [|done].
  cbn [ps_book]. destruct (try_reserve _ _ _ _ _) as [b' res]. by rewrite check_step_state.
Qed.

Lemma keeps_seen_run full intent policy input ledger r : keeps_seen (run_stages full intent policy input ledger r).
Proof.
  unfold run_stages; cbv zeta.
  repeat (apply keeps_seen_bind;
    [first [apply keeps_seen_check | apply keeps_seen_duplicate | apply keeps_seen_rate
           | apply keeps_seen_legs | apply keeps_seen_reserve]|intros ?]).
  intros s e He. exact He.
Qed.

Lemma evaluate_view_keeps_seen s input publisher full e :
  seen (rk_duplicate_guard (ps_pipeline s)) e →
  seen (rk_duplicate_guard (ps_pipeline (evaluate_view s input publisher full).1.1)) e.
Proof.
  intros He. unfold evaluate_view. destruct (ri_intent input) as [intent|]; [|done].
  destruct (ri_policy input) as [policy|]; [|done]. destruct (ri_ledger input) as [ledger|]; [|done].
  destruct (input_invalid input); [done|]. cbn [default].
  pose proof (keeps_seen_run full intent policy input ledger
    (init_trace begin_result intent policy) s e He) as H.
  by destruct (run_stages _ _ _ _ _ _ _) as [s1 [[[[? ?] ?] ?]|x]].
Qed.

(** Approval means the evidence was new, and it is remembered. *)
Lemma evaluate_view_seen s input publisher full s' r p :
  evaluate_view s input publisher full = (s', r, p) → decision_approved (pr_decision r) = true →
  ¬ seen (rk_duplicate_guard (ps_pipeline s)) (evidence (ai_intent (pr_approved_intent r))) ∧
  seen (rk_duplicate_guard (ps_pipeline s')) (evidence (ai_intent (pr_approved_intent r))).
Proof.
  intros H Happ. apply evaluate_view_cases in H as
    [(intent & policy & ledger & bk & r0 & Ha & -> & _ & _ & ->)|(_ & _ & Hrej)].
  - pose proof (approve_result_intent intent policy (ri_now_ns input) (revalidate_input intent policy input) r0)
      as (_ & -> & _).
    pose proof (ad_duplicate _ _ _ _ _ _ Ha) as Hd.
    pose proof (duplicate_check_spec (rk_duplicate_guard (ps_pipeline s)) intent (ri_now_ns input)) as Hs.
    cbn [ps_pipeline admit_guards rk_duplicate_guard].
    destruct (duplicate_check _ _ _) as [g x]. by apply Hs.
  - exfalso. revert Happ.
    destruct Hrej as [(_ & -> & _)|(i & reason & detail & cost & r0 & _ & -> & _)]; [done|].
    by rewrite reject_result_rejected.
Qed.

Lemma evaluate_run_fresh s inputs intent :
  intent ∈ evaluate_run s inputs → ¬ seen (rk_duplicate_guard (ps_pipeline s)) (evidence intent).
Proof.
  revert s; induction inputs as [|input inputs IH]; intros s; cbn [evaluate_run]; [set_solver|].
  pose proof (evaluate_view_keeps_seen s input false false) as Hmono.
  pose proof (evaluate_view_seen s input false false) as Hseen.
  destruct (evaluate_view s input false false) as [[s' r] p]; cbn [fst] in Hmono.
  destruct (decision_approved (pr_decision r)) eqn:Happ; [|by intros Hin ?%Hmono; apply (IH s')].
  intros [->|Hin]%elem_of_cons; [by destruct (Hseen _ _ _ eq_refl Happ)|].
  intros ?%Hmono. by apply (IH s').
Qed.

(** C4. Approvals never repeat: in any run of evaluations against one pipeline,
    whatever the inputs and the rejections in between, the approved intents
    have pairwise different idempotency evidence. *)
Theorem approvals_never_repeat s inputs : NoDup (evidence <$> evaluate_run s inputs).
Proof.
  revert s; induction inputs as [|input inputs IH]; intros s; cbn [evaluate_run]; [constructor|].
  pose proof (evaluate_view_seen s input false false) as Hseen.
  destruct (evaluate_view s input false false) as [[s' r] p].
  destruct (decision_approved (pr_decision r)) eqn:Happ; [|apply IH].
  cbn [fmap list_fmap]. constructor; [|apply IH].
  intros (j & Heq & Hin)%list_elem_of_fmap. apply evaluate_run_fresh in Hin.
  rewrite <- Heq in Hin. by apply Hin, (Hseen _ _ _ eq_refl Happ).
Qed.

(** ** The audit trace *)

(** A step as [add_step] is called with. *)
Record AuditEvent := mkAuditEvent {
  ev_code : RiskAuditStepCode;
  ev_pass : bool;
  ev_rejection : RiskDecisionType;
  ev_reason : string
}.
Definition event_lite (e : AuditEvent) : RiskAuditStepLite :=
  mkStepLite (ev_code e) (ev_pass e) (ev_rejection e) (decision_type_value (ev_rejection e)).
Definition event_full (e : AuditEvent) : RiskAuditStep :=
  mkAuditStep (risk_audit_step_name (ev_code e)) (ev_pass e) (ev_rejection e) (ev_reason e).
Definition passed (code : RiskAuditStepCode) : AuditEvent := mkAuditEvent code true DtPass "".

(** The trace and the counters of a result, after the given steps. *)
Definition logs (full : bool) (evs : list AuditEvent) (r : RiskPipelineResult) : Prop :=
  at_lite_steps (pr_audit_trace r) = take kMaxRiskAuditSteps (event_lite <$> evs) ∧
  at_steps (pr_audit_trace r) = (if full then event_full <$> evs else []) ∧
  rt_intents_evaluated (pr_result r) = 1 ∧ rt_intents_approved (pr_result r) = 0 ∧
  rt_intents_rejected (pr_result r) = 0.

Lemma logs_add_step full evs r code pass rej reason :
  logs full evs r → logs full (evs ++ [mkAuditEvent code pass rej reason]) (add_step full code pass rej reason r).
Proof.
  unfold logs. intros (Hl & Hf & ? & ? & ?). split; [|split; [|by destruct r]].
  all: replace (pr_audit_trace (add_step full code pass rej reason r))
    with (trace_step full code pass rej reason (pr_audit_trace r)) by (by destruct r).
  all: unfold trace_step; rewrite Hl, length_take, length_fmap, fmap_app.
  all: destruct (Nat.ltb_spec (Nat.min kMaxRiskAuditSteps (length evs)) kMaxRiskAuditSteps) as [Hlt|Hlt].
  all: destruct (pr_audit_trace r) as [? ? ? ? ? ? ? ? lite steps]; cbn [at_lite_steps at_steps] in Hl, Hf;
    subst lite steps.
  - rewrite take_app, length_fmap. rewrite (take_ge (event_lite <$> [_])) by (cbn [length fmap list_fmap]; lia).
    by destruct full.
  - rewrite take_app, length_fmap.
    replace (kMaxRiskAuditSteps - length evs)%nat with 0%nat by lia. cbn [take]. rewrite app_nil_r.
    by destruct full.
  - by destruct full.
  - by destruct full.
Qed.

(** A stage that logs a passed step for each of the given codes, in order, or
    stops at the first that fails. *)
Definition emits (full : bool) (codes : list RiskAuditStepCode)
    (m : RiskPipelineResult → Stage RiskPipelineResult) : Prop :=
  ∀ r evs s, logs full evs r →
    match (m r s).2 with
    | inr r' => logs full (evs ++ (passed <$> codes)) r'
    | inl (_, _, _, r') => ∃ pre code rej reason, (pre ++ [code]) `prefix_of` codes ∧
        logs full (evs ++ (passed <$> pre) ++ [mkAuditEvent code false rej reason]) r'
    end.

Lemma emits_bind full c1 c2 m k :
  emits full c1 m → emits full c2 k → emits full (c1 ++ c2) (λ r, m r ≫= k).
Proof.
  intros Hm Hk r evs s Hl. specialize (Hm r evs s Hl). unfold mbind, stage_bind.
  destruct (m r s) as [s1 [[[[? ?] ?] r1]|r1]]; cbn [snd] in Hm |- *.
  - destruct Hm as (pre & code & rej & reason & Hpre & Hlog).
    exists pre, code, rej, reason. split; [by apply prefix_app_r|done].
  - specialize (Hk r1 _ s1 Hm). destruct (k r1 s1) as [s2 [[[[? ?] ?] r2]|r2]]; cbn [snd] in Hk |- *.
    + destruct Hk as (pre & code & rej & reason & Hpre & Hlog).
      exists (c1 ++ pre), code, rej, reason. split; [by rewrite <- app_assoc; apply prefix_app|].
      by rewrite fmap_app, <- !app_assoc in *.
    + by rewrite fmap_app, app_assoc.
Qed.

Lemma emits_check full code pass rej reason detail cost (g : RiskPipelineResult → RiskPipelineResult) :
  (∀ r evs, logs full evs r → logs full evs (g r)) →
  emits full [code] (λ r, check_step full code pass rej reason detail cost (g r)).
Proof.
  intros Hg r evs s Hl%Hg. unfold check_step. destruct pass; cbn.
  - by apply logs_add_step.
  - exists [], code, rej, detail. split; [done|]. cbn. by apply logs_add_step.
Qed.

Lemma emits_id full codes code pass rej reason detail cost :
  codes = [code] → emits full codes (check_step full code pass rej reason detail cost).
Proof. intros ->. by apply (emits_check full code pass rej reason detail cost (λ r, r)). Qed.

(** The steps of an evaluation that goes through. *)
Definition pipeline_steps (legs : nat) : list RiskAuditStepCode :=
  [StKillSwitchGuard; StIntentValidator; StEvidenceVerifier; StExpiryGuard; StDuplicateGuard; StRateLimitGuard] ++
  (replicate legs tt ≫= λ _, [StMarketStateGuard; StSnapshotFreshnessGuard]) ++
  [StCostRevalidator; StEdgeGuard; StMaxLossGuard; StExposureGuard; StInventoryGuard; StPartialFillGuard;
   StReservationBook].

Lemma emits_legs full intent policy input legs :
  emits full (replicate (length legs) tt ≫= λ _, [StMarketStateGuard; StSnapshotFreshnessGuard])
    (stage_legs full intent policy input legs).
Proof.
  induction legs as [|leg legs IH]; cbn [length replicate stage_legs].
  { intros r evs s Hl. cbn. by rewrite app_nil_r. }
  rewrite bind_cons. apply (emits_bind _ _ _ (stage_leg full intent policy input leg)); [|exact IH].
  apply (emits_bind _ [_] [_]); by apply emits_id.
Qed.

Lemma emits_duplicate full intent now : emits full [StDuplicateGuard] (stage_duplicate full intent now).
Proof.
  intros r evs s Hl. unfold stage_duplicate. destruct (duplicate_check _ _ _) as [g x].
  by apply (emits_id full [StDuplicateGuard]).
Qed.

Lemma emits_rate full intent policy now : emits full [StRateLimitGuard] (stage_rate_limit full intent policy now).
Proof.
  intros r evs s Hl. unfold stage_rate_limit. destruct (rate_limit_check _ _ _) as [g x].
  by apply (emits_id full [StRateLimitGuard]).
Qed.

Lemma emits_cost full cost : emits full [StCostRevalidator] (stage_cost full cost).
Proof.
  apply emits_check. intros r evs (? & ? & ? & ? & ?). unfold record_vwap_mode.
  destruct r as [? ? [] ? ? [] ? ? ?], (cr_vwap_mode cost); done.
Qed.

Lemma emits_reserve full intent policy now cost :
  emits full [StReservationBook] (stage_reserve full intent policy now cost).
Proof.
  intros r evs [p [book|]] Hl; unfold stage_reserve; cbn [ps_book].
  - destruct (try_reserve _ _ _ _ _) as [b' res].
    apply (emits_id full [StReservationBook]); [done|]. by destruct r as [? ? [] ? ? [] ? ? ?].
  - exists [], StReservationBook, RejectInternalError, "missing reservation book"%string.
    split; [done|]. by apply logs_add_step.
Qed.

Lemma emits_bind' full codes c1 c2 m k :
  codes = c1 ++ c2 → emits full c1 m → emits full c2 k → emits full codes (λ r, m r ≫= k).
Proof. intros ->. apply emits_bind. Qed.

Lemma emits_run full intent policy input ledger :
  emits full (pipeline_steps (length (intent_legs intent))) (λ r,
    result ← before_reserve full intent policy input ledger r;
    stage_reserve full intent policy (ri_now_ns input) (revalidate_input intent policy input) result).
Proof.
  apply (emits_bind' _ _ ([StKillSwitchGuard; StIntentValidator; StEvidenceVerifier; StExpiryGuard;
    StDuplicateGuard; StRateLimitGuard] ++ (replicate (length (intent_legs intent)) tt ≫=
      λ _, [StMarketStateGuard; StSnapshotFreshnessGuard]) ++ [StCostRevalidator; StEdgeGuard; StMaxLossGuard;
      StExposureGuard; StInventoryGuard; StPartialFillGuard]) [StReservationBook]).
  { unfold pipeline_steps. by rewrite <- !app_assoc. }
  2: { apply emits_reserve. }
  unfold before_reserve; cbv zeta.
  do 4 (eapply (emits_bind' _ _ [_]); [reflexivity|by apply emits_id|]).
  eapply (emits_bind' _ _ [_]); [reflexivity|apply emits_duplicate|].
  eapply (emits_bind' _ _ [_]); [reflexivity|apply emits_rate|].
  eapply (emits_bind' _ _ (_ ≫= _)); [reflexivity|apply emits_legs|].
  eapply (emits_bind' _ _ [_]); [reflexivity|apply emits_cost|].
  do 4 (eapply (emits_bind' _ _ [_]); [reflexivity|by apply emits_id|]).
  by apply emits_id.
Qed.

Lemma logs_init full intent policy : logs full [] (init_trace begin_result intent policy).
Proof. by destruct full. Qed.

(** What the last steps do to the trace and the counters. *)
Definition finished (full : bool) (evs : list AuditEvent) (ok : bool) (r : RiskPipelineResult) : Prop :=
  at_lite_steps (pr_audit_trace r) = take kMaxRiskAuditSteps (event_lite <$> evs) ∧
  at_steps (pr_audit_trace r) = (if full then event_full <$> evs else []) ∧
  at_decision (pr_audit_trace r) = pr_decision r ∧
  rt_intents_evaluated (pr_result r) = 1 ∧
  rt_intents_approved (pr_result r) = (if ok then 1 else 0) ∧
  rt_intents_rejected (pr_result r) = (if ok then 0 else 1).

Lemma finished_reject full evs intent reason detail cost r :
  logs full evs r → finished full evs false (reject_result intent reason detail cost r).
Proof.
  unfold logs, finished, reject_result. cbv zeta.
  destruct r as [? ? [] ? ? [] ? ? ?]. intros (Hl & Hf & Hev & Hap & Hre).
  cbn in Hl, Hf, Hev, Hap, Hre. subst. by destruct reason.
Qed.

Lemma finished_approve full evs intent policy now cost r :
  logs full evs r → finished full evs true (approve_result intent policy now cost r).
Proof.
  unfold approve_result; cbv zeta.
  generalize (output_hash_for intent (approval_decision intent policy) cost (res_reservation_id (pr_reservation r))).
  generalize (pretty (Z.to_N (res_reservation_id (pr_reservation r)))). intros name hash.
  unfold logs, finished. destruct r as [? ? [] ? ? [] ? ? ?]. intros (Hl & Hf & Hev & Hap & Hre).
  cbn in Hl, Hf, Hev, Hap, Hre. subst. done.
Qed.

(** The audit trace tells what happened: it lists the fixed sequence of checks
    up to the one that decided, every step before it passed and that step
    passed exactly when the intent was approved, the trace's decision is the
    one returned, and exactly one of the approved and rejected counters is one.
    The lite trace has the first sixteen steps of it. *)
Theorem audit_trace_spec s input publisher full intent policy ledger :
  ri_intent input = Some intent → ri_policy input = Some policy → ri_ledger input = Some ledger →
  input_invalid input = false →
  let '(_, r, _) := evaluate_view s input publisher full in
  let ok := decision_approved (pr_decision r) in
  let checks := pipeline_steps (length (intent_legs intent)) in
  ∃ pre code rejection reason,
    (pre ++ [code]) `prefix_of` checks ∧ (ok = true → pre ++ [code] = checks) ∧
    finished full ((passed <$> pre) ++ [mkAuditEvent code ok rejection reason]) ok r.
Proof.
  intros Hi Hp Hl Hv. unfold evaluate_view. rewrite Hi, Hp, Hl, Hv. cbn [default].
  pose proof (emits_run full intent policy input ledger _ [] s (logs_init full intent policy)) as He.
  assert (Hlast : ∃ pre code, pipeline_steps (length (intent_legs intent)) = pre ++ [code]).
  { destruct (exists_last (l := pipeline_steps (length (intent_legs intent)))) as (pre & code & ->); [done|eauto]. }
  rewrite run_stages_split, <- stage_bind_assoc. set (checks := pipeline_steps _) in *.
  unfold mbind at 1, stage_bind at 1. clearbody checks. cbn [id app] in *.
  match type of He with match (?m s).2 with _ => _ end =>
    change (m s) with ((before_reserve full intent policy input ledger (init_trace begin_result intent policy)
      ≫= stage_reserve full intent policy (ri_now_ns input) (revalidate_input intent policy input)) s) in He end.
  destruct ((before_reserve _ _ _ _ _ _ ≫= _) s) as [s1 [[[[reason detail] cost] r]|r]]; cbn [snd] in He.
  - destruct He as (pre & code & rej & why & Hpre & Hlog). rewrite reject_result_rejected.
    exists pre, code, rej, why. split_and!; [done|done|by apply finished_reject].
  - unfold mret, stage_ret. rewrite approve_result_approved. destruct Hlast as (pre & code & Hlast).
    exists pre, code, DtPass, ""%string. rewrite Hlast in *. split_and!; [done|done|].
    apply finished_approve. by rewrite fmap_app in He.
Qed.

(** ** A concrete approval *)

Definition demo_input : RiskInputView :=
  input0 <| ri_intent := Some priced_intent |> <| ri_snapshots := Some [demo_snapshot] |>
         <| ri_snapshot_count := 1%nat |> <| ri_snapshot_version_hash := 77 |> <| ri_now_ns := 700 |>
         <| ri_policy := Some policy0 |> <| ri_ledger := Some (ledger_snapshot ledger0) |>.
Definition demo_state : PipelineState := mkPipelineState new_pipeline (Some book0).

Example demo_approved : decision_approved (pr_decision (evaluate_view demo_state demo_input true true).1.2) = true.
Proof. vm_compute. reflexivity. Qed.

Lemma pipeline_reserves_on_approval_witness :
  let e := evaluate_view demo_state demo_input true true in
  ai_reservation_id (pr_approved_intent e.1.2) = "1"%string ∧
  ∃ book r, ps_book e.1.1 = Some book ∧ active book = [r] ∧ rs_reserved_cost_tick r = 4900000.
Proof.
  pose proof (pipeline_reserves_on_approval demo_state demo_input true true book0 eq_refl) as H.
  assert (Ha : decision_approved (pr_decision (evaluate_view demo_state demo_input true true).1.2) = true)
    by (vm_compute; reflexivity).
  assert (Hid : ai_reservation_id (pr_approved_intent (evaluate_view demo_state demo_input true true).1.2) = "1"%string)
    by (vm_compute; reflexivity).
  cbv zeta. split; [exact Hid|].
  destruct (evaluate_view demo_state demo_input true true) as [[s' r] p]; cbn [fst snd] in *.
  destruct H as [_ H]. destruct (H Ha) as (intent & b & res & Hi & Hb & Hact & _ & _ & _ & _ & _ & Hc & _).
  exists b, res. split; [exact Hb|]. split; [exact Hact|]. rewrite Hc.
  assert (Hint : Some intent = Some priced_intent) by (rewrite <- Hi; reflexivity).
  injection Hint as ->. vm_compute. reflexivity.
Defined.

Definition two_leg_input : RiskInputView :=
  demo_input <| ri_intent := Some two_leg_intent |>.

Lemma audit_trace_spec_witness :
  let r := (evaluate_view demo_state two_leg_input true true).1.2 in
  rt_intents_approved (pr_result r) = 1 ∧ rt_intents_rejected (pr_result r) = 0 ∧
  ∃ x, last (at_steps (pr_audit_trace r)) = Some x ∧ as_pass x = true.
Proof.
  pose proof (audit_trace_spec demo_state two_leg_input true true two_leg_intent policy0
    (ledger_snapshot ledger0) eq_refl eq_refl eq_refl eq_refl) as H.
  assert (Ha : decision_approved (pr_decision (evaluate_view demo_state two_leg_input true true).1.2) = true)
    by (vm_compute; reflexivity).
  destruct (evaluate_view demo_state two_leg_input true true) as [[s' r] p]; cbn [fst snd] in *.
  cbv zeta in H. rewrite Ha in H.
  destruct H as (pre & code & rej & why & _ & _ & _ & Hf & _ & _ & Happ & Hrej).
  split; [exact Happ|]. split; [exact Hrej|].
  exists (event_full (mkAuditEvent code true rej why)). split; [|reflexivity].
  rewrite Hf, fmap_app. apply last_snoc.
Defined.

(** Two legs already make seventeen steps: the lite trace of an approval has
    no room for the step that records the reservation. *)
Lemma lite_trace_drops_reservation_step :
  let t := pr_audit_trace (evaluate_view demo_state two_leg_input true true).1.2 in
  last (as_guard_name <$> at_steps t) = Some "ReservationBook.try_reserve"%string ∧
  existsb (λ x, bool_decide (sl_step x = StReservationBook)) (at_lite_steps t) = false.
Proof. vm_compute. by split. Qed.
