(* ===== verification/OrderDecision.v ===== *)
(** * OrderDecision: the sized decision between an intent and its approval

    [engine/order_decision/public].  The records, the copy to the lite form,
    the hash that binds a decision, and the envelope that carries an approval
    to execution.  [legs] is an array of sixteen; a [leg_count] above that
    makes the source's loops read past it, which the model does not follow
    (the loops stop at the array's end). *)

From S2P Require Import Prelude Hashing RiskTypes.

(** [engine/order_decision/public/OrderDecisionTypes.h:11-11] kMaxOrderDecisionLegs. *)
Definition kMaxOrderDecisionLegs : nat := 16.

(** [engine/order_decision/public/OrderDecisionTypes.h:13-26] OrderDecisionType. *)
Inductive OrderDecisionType :=
| OtNoTrade | OtPaperOrderDecision | OtRejectNoDepth | OtRejectLowEdge | OtRejectInvalidBundle
| OtRejectUnsupportedSide | OtRejectRiskBudget | OtRejectPartialFillRisk | OtRejectExpiredIntent
| OtRejectPriceProtection | OtRejectInternalError.
#[export] Instance OrderDecisionType_eq_dec : EqDecision OrderDecisionType.
Proof. solve_decision. Defined.

Definition order_decision_type_value (t : OrderDecisionType) : Z :=
  match t with
  | OtNoTrade => 0 | OtPaperOrderDecision => 1 | OtRejectNoDepth => 2 | OtRejectLowEdge => 3
  | OtRejectInvalidBundle => 4 | OtRejectUnsupportedSide => 5 | OtRejectRiskBudget => 6
  | OtRejectPartialFillRisk => 7 | OtRejectExpiredIntent => 8 | OtRejectPriceProtection => 9
  | OtRejectInternalError => 10
  end.

(** [engine/order_decision/public/OrderDecision.cpp:7-33] to_string. *)
Definition order_decision_type_name (t : OrderDecisionType) : string :=
  match t with
  | OtNoTrade => "NoTrade"
  | OtPaperOrderDecision => "PaperOrderDecision"
  | OtRejectNoDepth => "RejectNoDepth"
  | OtRejectLowEdge => "RejectLowEdge"
  | OtRejectInvalidBundle => "RejectInvalidBundle"
  | OtRejectUnsupportedSide => "RejectUnsupportedSide"
  | OtRejectRiskBudget => "RejectRiskBudget"
  | OtRejectPartialFillRisk => "RejectPartialFillRisk"
  | OtRejectExpiredIntent => "RejectExpiredIntent"
  | OtRejectPriceProtection => "RejectPriceProtection"
  | OtRejectInternalError => "RejectInternalError"
  end.

(** [engine/order_decision/public/OrderDecision.h:28-40] OrderDecisionLegLite. *)
Record OrderDecisionLegLite := mkOrderDecisionLegLite {
  dl_market_index : Z;
  dl_asset_index : Z;
  dl_side : Side;
  dl_quantity_lots : Z;
  dl_estimated_vwap_tick : Z;
  dl_limit_price_tick : Z;
  dl_worst_price_tick : Z;
  dl_estimated_cost_tick : Z
}.
Definition decision_leg_lite0 : OrderDecisionLegLite := mkOrderDecisionLegLite 0 0 Buy 0 0 0 0 0.

(** [engine/order_decision/public/OrderDecision.h:11-26] OrderDecisionLeg: the lite fields and two names. *)
Record OrderDecisionLeg := mkOrderDecisionLeg {
  dg_market_id : string;
  dg_asset_id : string;
  dg_lite : OrderDecisionLegLite
}.
Definition decision_leg0 : OrderDecisionLeg := mkOrderDecisionLeg "" "" decision_leg_lite0.

(** [engine/order_decision/public/OrderDecision.h:42-75] OrderDecisionLite. *)
Record OrderDecisionLite := mkOrderDecisionLite {
  od_decision_id : Z;
  od_source_intent_id : Z;
  od_bundle_id : Z;
  od_type : OrderDecisionType;
  od_chosen_bundle_qty : Z;
  od_guaranteed_payout_tick : Z;
  od_estimated_total_cost_tick : Z;
  od_estimated_fee_tick : Z;
  od_latency_buffer_tick : Z;
  od_slippage_buffer_tick : Z;
  od_unit_edge_tick : Z;
  od_total_edge_tick : Z;
  od_edge_bps : Z;
  od_leg_count : nat;
  od_legs : list OrderDecisionLegLite;
  od_snapshot_version_hash : Z;
  od_oracle_artifact_hash : Z;
  od_bundle_hash : Z;
  od_policy_hash : Z;
  od_created_ts_ns : Z;
  od_expires_at_ns : Z;
  od_decision_hash : Z
}.
Definition order_decision_lite0 : OrderDecisionLite :=
  mkOrderDecisionLite 0 0 0 OtNoTrade 0 0 0 0 0 0 0 0 0 0
    (std_array kMaxOrderDecisionLegs decision_leg_lite0 []) 0 0 0 0 0 0 0.

(** [engine/order_decision/public/OrderDecision.h:77-112] OrderDecision: the lite fields, named legs and a reason. *)
Record OrderDecision := mkOrderDecision {
  of_fields : OrderDecisionLite;
  of_legs : list OrderDecisionLeg;
  of_reason : string
}.

(** [engine/order_decision/public/OrderDecision.cpp:35-73] to_order_decision_lite. *)
Definition to_order_decision_lite (decision : OrderDecision) : OrderDecisionLite :=
  (of_fields decision)
    <| od_legs := std_array kMaxOrderDecisionLegs decision_leg_lite0
         (dg_lite <$> take (od_leg_count (of_fields decision)) (of_legs decision)) |>.

(** The legs the loops visit. *)
Definition decision_legs (decision : OrderDecisionLite) : list OrderDecisionLegLite :=
  take (od_leg_count decision) (od_legs decision).

(** [engine/order_decision/public/OrderDecision.cpp:99-107] compute_order_decision_hash, one leg. *)
Definition decision_leg_items (leg : OrderDecisionLegLite) : list mix_item :=
  [ MixU64 (dl_market_index leg); MixU64 (dl_asset_index leg); MixU64 (side_value (dl_side leg));
    MixI64 (dl_quantity_lots leg); MixI64 (dl_estimated_vwap_tick leg); MixI64 (dl_limit_price_tick leg);
    MixI64 (dl_worst_price_tick leg); MixI64 (dl_estimated_cost_tick leg) ].

(** [engine/order_decision/public/OrderDecision.cpp:79-98] compute_order_decision_hash, the scalar fields in order. *)
Definition decision_items (d : OrderDecisionLite) : list mix_item :=
  [ MixU64 (od_source_intent_id d); MixU64 (od_bundle_id d);
    MixU64 (order_decision_type_value (od_type d));
    MixI64 (od_chosen_bundle_qty d); MixI64 (od_guaranteed_payout_tick d);
    MixI64 (od_estimated_total_cost_tick d); MixI64 (od_estimated_fee_tick d);
    MixI64 (od_latency_buffer_tick d); MixI64 (od_slippage_buffer_tick d);
    MixI64 (od_unit_edge_tick d); MixI64 (od_total_edge_tick d); MixI64 (od_edge_bps d);
    MixU64 (od_snapshot_version_hash d); MixU64 (od_oracle_artifact_hash d); MixU64 (od_bundle_hash d);
    MixU64 (od_policy_hash d); MixU64 (od_created_ts_ns d); MixU64 (od_expires_at_ns d);
    MixU64 (Z.of_nat (od_leg_count d)) ].

(** [engine/order_decision/public/OrderDecision.cpp:75-110] compute_order_decision_hash. *)
Definition compute_order_decision_hash (decision : OrderDecisionLite) : Z :=
  nonzero_hash (foldl mix fnv_offset (decision_items decision ++ (decision_legs decision ≫= decision_leg_items))).

(** [engine/order_decision/public/OrderDecision.cpp:112-116] compute_order_decision_hash of a full decision. *)
Definition compute_order_decision_hash_full (decision : OrderDecision) : Z :=
  compute_order_decision_hash (to_order_decision_lite decision).

(** [engine/order_decision/public/ApprovedOrderDecisionEnvelope.h:11-22] ApprovedOrderDecisionEnvelope. *)
Record ApprovedOrderDecisionEnvelope := mkEnvelope {
  en_approved : ApprovedIntent;
  en_decision : OrderDecisionLite;
  en_source_intent_id : Z;
  en_bundle_id : Z;
  en_decision_hash : Z;
  en_approval_hash : Z;
  en_created_ts_ns : Z
}.

(** [engine/order_decision/public/ApprovedOrderDecisionEnvelope.h:39-62] compute_approved_intent_hash. *)
Definition compute_approved_intent_hash (approved : ApprovedIntent) : Z :=
  nonzero_hash (foldl mix fnv_offset
    [ MixU64 (oi_intent_id (ai_intent approved)); MixU64 (oi_bundle_id (ai_intent approved));
      MixU64 (oi_idempotency_hash (ai_intent approved));
      MixU64 (rd_decision_id (ai_decision approved)); MixU64 (rd_intent_id (ai_decision approved));
      MixU64 (rd_bundle_id (ai_decision approved)); MixU64 (rd_idempotency_hash (ai_decision approved));
      MixU64 (decision_status_value (rd_status (ai_decision approved)));
      MixU64 (reject_reason_value (rd_reject_reason (ai_decision approved)));
      MixU64 (ai_reservation_id_hash approved);
      MixU64 (ai_approved_at_ns approved); MixU64 (ai_expires_at_ns approved) ]).

(** [engine/order_decision/public/ApprovedOrderDecisionEnvelope.h:64-79] make_approved_order_decision_envelope. *)
Definition make_approved_order_decision_envelope (approved : ApprovedIntent)
    (decision : OrderDecisionLite) (created_ts_ns : Z) : ApprovedOrderDecisionEnvelope :=
  mkEnvelope approved decision (od_source_intent_id decision) (od_bundle_id decision)
    (od_decision_hash decision) (compute_approved_intent_hash approved) created_ts_ns.

(** [engine/order_decision/public/ApprovedOrderDecisionEnvelope.h:81-92] make_approved_order_decision_envelope of a full decision. *)
Definition make_approved_order_decision_envelope_full (approved : ApprovedIntent)
    (decision : OrderDecision) (created_ts_ns : Z) : ApprovedOrderDecisionEnvelope :=
  make_approved_order_decision_envelope approved (to_order_decision_lite decision) created_ts_ns.
