(* ===== verification/RiskEngine.v ===== *)
(** * RiskEngine: the pipeline with its reservation book

    [engine/risk/core/RiskEngine.cpp] and [RiskWorkflow.cpp].  The engine owns a
    pipeline and a reservation book, and may be handed a shared book, a ledger,
    a policy and a publisher by its runtime context.  The objects behind those
    pointers are values of the context here: an engine step returns the context
    with the shared book as the step left it.  Publishers are flags. *)

From S2P Require Import Prelude Hashing Depth RiskTypes Reprice ReservationBook RiskGuards RiskPipeline OrderDecision.

(** [engine/risk/core/RiskContext.h:19-25] RiskRuntimeContext. *)
Record RiskRuntimeContext := mkRiskRuntimeContext {
  rx_policy : option RiskPolicySnapshot;
  rx_ledger : option RiskLedger;
  rx_publisher : bool;
  rx_reservation_book : option ReservationBook;
  rx_enable_full_audit_trace : bool
}.
Definition runtime0 : RiskRuntimeContext := mkRiskRuntimeContext None None false None false.

(** [engine/risk/core/RiskEngine.h:62-69] RiskEngine, the members with state; the ledger
    snapshot cache is assigned before every use and only read in the same call. *)
Record RiskEngine := mkRiskEngine {
  re_reservations : ReservationBook;
  re_pipeline : RiskPipeline;
  re_runtime : RiskRuntimeContext
}.

(** [engine/risk/core/RiskEngine.cpp:83-86] RiskEngine::RiskEngine. *)
Definition new_engine (runtime_context : RiskRuntimeContext) : RiskEngine :=
  mkRiskEngine book0 new_pipeline runtime_context.

(** [engine/risk/core/RiskEngine.cpp:334-344] reservation_book: the shared book when there is one. *)
Definition reservation_book (e : RiskEngine) : ReservationBook :=
  default (re_reservations e) (rx_reservation_book (re_runtime e)).

(** The write through the pointer [reservation_book] returns. *)
Definition put_book (e : RiskEngine) (book : ReservationBook) : RiskEngine :=
  match rx_reservation_book (re_runtime e) with
  | Some _ => e <| re_runtime ::= λ rt, rt <| rx_reservation_book := Some book |> |>
  | None => e <| re_reservations := book |>
  end.

(** What a call of the engine gives back: the engine, the result and what was published. *)
Definition EngineResult : Type := RiskEngine * RiskPipelineResult * option RiskPipelineResult.

(** The call of the pipeline that ends both forms of evaluation. *)
Definition run_pipeline (e : RiskEngine) (book : ReservationBook) (view : RiskInputView)
    (publisher full : bool) : EngineResult :=
  let '(s, r, p) := RiskPipeline.evaluate_view (mkPipelineState (re_pipeline e) (Some book)) view
    (publisher || rx_publisher (re_runtime e)) (full || rx_enable_full_audit_trace (re_runtime e)) in
  let e := put_book e (default book (ps_book s)) in
  (e <| re_pipeline := ps_pipeline s |>, r, p).

(** [engine/risk/core/RiskEngine.cpp:88-117] evaluate. *)
Definition evaluate (e : RiskEngine) (intent : OpportunityIntent) (context : RiskEvaluationContext)
    : EngineResult :=
  let book := expire_old (reservation_book e) (rc_now_ns context) in
  let ledger :=
    match rx_ledger (re_runtime e) with
    | Some ledger => ledger_snapshot ledger
    | None => book_snapshot book
    end in
  let view := input0
    <| ri_intent := Some intent |>
    <| ri_snapshots := Some (rc_latest_snapshots context) |>
    <| ri_snapshot_count := Z.to_nat (Z.of_nat (length (rc_latest_snapshots context)) mod 65536) |>
    <| ri_snapshot_version_hash := rc_latest_snapshot_version_hash context |>
    <| ri_now_ns := rc_now_ns context |>
    <| ri_policy := Some (rc_policy context) |>
    <| ri_ledger := Some ledger |> in
  run_pipeline e book view (rc_decision_publisher context) (rc_enable_full_audit_trace context).

(** The policy of a view: the input's, else the runtime's. *)
Definition decision_policy (e : RiskEngine) (input : RiskInputView) : option RiskPolicySnapshot :=
  match ri_policy input with Some p => Some p | None => rx_policy (re_runtime e) end.

(** [engine/risk/core/RiskEngine.cpp:130-142] evaluate_view: the ledger and the policy of the view. *)
Definition engine_view (e : RiskEngine) (book : ReservationBook) (input : RiskInputView) : RiskInputView :=
  let ledger :=
    match rx_ledger (re_runtime e), ri_ledger input with
    | Some ledger, _ => ledger_snapshot ledger
    | None, Some ledger => ledger
    | None, None => book_snapshot book
    end in
  input <| ri_ledger := Some ledger |> <| ri_policy := decision_policy e input |>.

(** [engine/risk/core/RiskEngine.cpp:123-150] evaluate_view. *)
Definition evaluate_view (e : RiskEngine) (input : RiskInputView) (decision_publisher full : bool)
    : EngineResult :=
  let book := expire_old (reservation_book e) (ri_now_ns input) in
  run_pipeline e book (engine_view e book input) decision_publisher full.

(** [engine/risk/core/RiskEngine.cpp:119-121] evaluate on a view. *)
Definition evaluate_input (e : RiskEngine) (input : RiskInputView) : EngineResult :=
  evaluate_view e input false false.

(** ** Decisions *)

(** [engine/risk/core/RiskEngine.cpp:11-34] reject_decision. *)
Definition reject_decision (reason : RiskRejectReason) (order_decision : OrderDecisionLite)
    (input : RiskInputView) (detail : string) : RiskPipelineResult :=
  let d := (make_rejected_decision reason detail)
    <| rd_intent_id := od_source_intent_id order_decision |>
    <| rd_bundle_id := od_bundle_id order_decision |>
    <| rd_oracle_artifact_hash := od_oracle_artifact_hash order_decision |>
    <| rd_bundle_hash := od_bundle_hash order_decision |>
    <| rd_snapshot_version_hash := od_snapshot_version_hash order_decision |> in
  let d :=
    match ri_policy input with
    | Some policy => d <| rd_policy_version := rp_policy_version policy |>
                       <| rd_policy_hash := policy_hash_for policy |>
    | None => d
    end in
  pipeline_result0 <| pr_decision := d |>
    <| pr_result ::= λ r, r <| rt_intents_evaluated := 1 |> <| rt_intents_rejected := 1 |> |>.

(** [engine/risk/core/RiskEngine.cpp:60-77] intent_from_decision, one leg. *)
Definition leg_from_decision (policy : RiskPolicySnapshot) (source : OrderDecisionLegLite) (target : IntentLeg)
    : IntentLeg :=
  target
    <| il_asset_index := dl_asset_index source |>
    <| il_side := dl_side source |>
    <| il_quantity_lots := 1 |>
    <| il_requested_qty_lots := dl_quantity_lots source |>
    <| il_executable_qty_lots := dl_quantity_lots source |>
    <| il_depth_margin_bps := Z.max 10000 (rp_min_depth_margin_bps policy) |>
    <| il_enough_depth := true |>
    <| il_estimated_vwap_tick := dl_estimated_vwap_tick source |>
    <| il_worst_price_tick := dl_limit_price_tick source |>
    <| il_estimated_cost_tick := dl_estimated_cost_tick source |>.

(** The first legs rebuilt from the decision, the others as they were. *)
Fixpoint legs_from_decision (policy : RiskPolicySnapshot) (sources : list OrderDecisionLegLite)
    (targets : list IntentLeg) : list IntentLeg :=
  match sources, targets with
  | s :: sources, t :: targets => leg_from_decision policy s t :: legs_from_decision policy sources targets
  | _, _ => targets
  end.

(** [engine/risk/core/RiskEngine.cpp:36-79] intent_from_decision. *)
Definition intent_from_decision (source : OpportunityIntent) (decision : OrderDecisionLite)
    (policy : RiskPolicySnapshot) : OpportunityIntent :=
  source
    <| oi_status := IsPaperOpportunity |>
    <| oi_bundle_id := od_bundle_id decision |>
    <| oi_guaranteed_payout_tick := od_guaranteed_payout_tick decision |>
    <| oi_estimated_cost_tick := od_estimated_total_cost_tick decision |>
    <| oi_estimated_fee_tick := od_estimated_fee_tick decision |>
    <| oi_latency_buffer_tick := od_latency_buffer_tick decision |>
    <| oi_slippage_buffer_tick := od_slippage_buffer_tick decision |>
    <| oi_estimated_edge_tick := od_total_edge_tick decision |>
    <| oi_bundle_qty := od_chosen_bundle_qty decision |>
    <| oi_original_bundle_qty := od_chosen_bundle_qty decision |>
    <| oi_unit_edge_tick := od_unit_edge_tick decision |>
    <| oi_total_edge_tick := od_total_edge_tick decision |>
    <| oi_edge_bps := od_edge_bps decision |>
    <| oi_snapshot_version_hash := od_snapshot_version_hash decision |>
    <| oi_oracle_artifact_hash := od_oracle_artifact_hash decision |>
    <| oi_bundle_hash := od_bundle_hash decision |>
    <| oi_expires_at_ns := od_expires_at_ns decision |>
    <| oi_enough_depth := true |>
    <| oi_leg_count := od_leg_count decision |>
    <| oi_legs ::= legs_from_decision policy (decision_legs decision) |>.

(** [engine/risk/core/RiskEngine.cpp:168-255] evaluate_decision: the early returns, in order. *)
Definition decision_rejection (intent : OpportunityIntent) (decision : OrderDecisionLite) (input : RiskInputView)
    (policy : RiskPolicySnapshot) : option (RiskRejectReason * string) :=
  if negb (bool_decide (od_type decision = OtPaperOrderDecision)) then
    Some (RrInvalidIntent, "order decision is not paper decision"%string)
  else if (od_chosen_bundle_qty decision <=? 0) || (od_estimated_total_cost_tick decision <=? 0) ||
          (od_leg_count decision =? 0)%nat || (kMaxOrderDecisionLegs <? od_leg_count decision)%nat then
    Some (RrInvalidIntent, "invalid order decision size"%string)
  else if od_expires_at_ns decision <=? ri_now_ns input then
    Some (RrExpiredIntent, "order decision expired"%string)
  else if negb (od_source_intent_id decision =? oi_intent_id intent) ||
          negb (od_bundle_id decision =? oi_bundle_id intent) then
    Some (RrInvalidIntent, "decision intent mismatch"%string)
  else if negb (od_snapshot_version_hash decision =? oi_snapshot_version_hash intent) then
    Some (RrInvalidIntent, "decision snapshot hash mismatch"%string)
  else if negb (compute_order_decision_hash decision =? od_decision_hash decision) then
    Some (RrInvalidIntent, "decision hash mismatch"%string)
  else if negb (od_policy_hash decision =? policy_hash_for policy) then
    Some (RrInvalidIntent, "policy hash mismatch"%string)
  else if (0 <? rp_max_total_cost_tick policy) &&
          (rp_max_total_cost_tick policy <? od_estimated_total_cost_tick decision) then
    Some (RrCostLimit, "decision cost exceeds policy"%string)
  else if negb (passes_edge_thresholds (od_unit_edge_tick decision) (od_total_edge_tick decision)
                  (od_edge_bps decision) policy) then
    Some (RrLowTotalEdge, "decision edge below policy"%string)
  else None.

(** [engine/risk/core/RiskEngine.cpp:152-263] evaluate_decision. *)
Definition evaluate_decision (e : RiskEngine) (intent : OpportunityIntent) (decision : OrderDecisionLite)
    (input : RiskInputView) (decision_publisher full : bool) : EngineResult :=
  match decision_policy e input with
  | None => (e, reject_decision RrInvalidIntent decision input "missing input policy", None)
  | Some policy =>
      match decision_rejection intent decision input policy with
      | Some (reason, detail) => (e, reject_decision reason decision input detail, None)
      | None =>
          let decision_intent := intent_from_decision intent decision policy in
          evaluate_view e (input <| ri_policy := Some policy |> <| ri_intent := Some decision_intent |>)
            decision_publisher full
      end
  end.

(** [engine/risk/core/RiskEngine.cpp:265-279] evaluate_decision on a full decision. *)
Definition evaluate_decision_full (e : RiskEngine) (intent : OpportunityIntent) (decision : OrderDecision)
    (input : RiskInputView) (decision_publisher full : bool) : EngineResult :=
  evaluate_decision e intent (to_order_decision_lite decision) input decision_publisher full.

(** [engine/risk/core/RiskEngine.cpp:281-302] evaluate_decision on the input's intent. *)
Definition evaluate_input_decision (e : RiskEngine) (decision : OrderDecisionLite)
    (input : RiskInputView) (decision_publisher full : bool) : EngineResult :=
  match ri_intent input with
  | None => (e, reject_decision RrInvalidIntent decision input "missing source intent", None)
  | Some intent => evaluate_decision e intent decision input decision_publisher full
  end.

(** [engine/risk/core/RiskEngine.cpp:304-316] evaluate_decision on the input's intent, full decision. *)
Definition evaluate_input_decision_full (e : RiskEngine) (decision : OrderDecision)
    (input : RiskInputView) (decision_publisher full : bool) : EngineResult :=
  evaluate_input_decision e (to_order_decision_lite decision) input decision_publisher full.

(** ** The other operations *)

(** [engine/risk/core/RiskEngine.cpp:318-320] set_runtime_context. *)
Definition set_runtime_context (e : RiskEngine) (runtime_context : RiskRuntimeContext) : RiskEngine :=
  e <| re_runtime := runtime_context |>.

(** [engine/risk/core/RiskEngine.cpp:322-324] ledger_snapshot. *)
Definition engine_ledger_snapshot (e : RiskEngine) : RiskLedgerSnapshot := book_snapshot (reservation_book e).

(** [engine/risk/core/RiskEngine.cpp:326-328] release_reservation. *)
Definition release_reservation (e : RiskEngine) (reservation_id : Z) : RiskEngine :=
  put_book e (release (reservation_book e) reservation_id).

(** [engine/risk/core/RiskEngine.cpp:330-332] expire_old. *)
Definition engine_expire_old (e : RiskEngine) (now_ns : Z) : RiskEngine :=
  put_book e (expire_old (reservation_book e) now_ns).

(** [engine/risk/core/RiskWorkflow.cpp:20-46] run_risk_workflow, the counters of one evaluation. *)
Definition accumulate (a r : RiskResult) (output_hash : Z) : RiskResult :=
  let add f := wrap_u64 (f a + f r) in
  a <| rt_intents_evaluated := add rt_intents_evaluated |>
    <| rt_intents_approved := add rt_intents_approved |>
    <| rt_intents_rejected := add rt_intents_rejected |>
    <| rt_rejected_kill_switch := add rt_rejected_kill_switch |>
    <| rt_rejected_low_edge := add rt_rejected_low_edge |>
    <| rt_rejected_cost_limit := add rt_rejected_cost_limit |>
    <| rt_rejected_exposure_limit := add rt_rejected_exposure_limit |>
    <| rt_rejected_inventory_limit := add rt_rejected_inventory_limit |>
    <| rt_rejected_stale_or_expired := add rt_rejected_stale_or_expired |>
    <| rt_rejected_drift_or_slippage := add rt_rejected_drift_or_slippage |>
    <| rt_rejected_pending_or_rate_limit := add rt_rejected_pending_or_rate_limit |>
    <| rt_rejected_bad_market_state := add rt_rejected_bad_market_state |>
    <| rt_rejected_snapshot_freshness := add rt_rejected_snapshot_freshness |>
    <| rt_rejected_partial_fill_risk := add rt_rejected_partial_fill_risk |>
    <| rt_output_hash := Z.lxor (rt_output_hash a) output_hash |>.

(** [engine/risk/core/RiskWorkflow.cpp:7-52] run_risk_workflow on a non-null engine. *)
Fixpoint run_risk_workflow (e : RiskEngine) (intents : list OpportunityIntent) (context : RiskEvaluationContext)
    (out : list RiskPipelineResult) (aggregate : RiskResult)
    : RiskEngine * list RiskPipelineResult * RiskResult :=
  match intents with
  | [] => (e, out, aggregate)
  | intent :: rest =>
      let '(e, r, _) := evaluate e intent context in
      run_risk_workflow e rest context (out ++ [r]) (accumulate aggregate (pr_result r) (pr_output_hash r))
  end.

(** ** Engine steps *)

Lemma reservation_book_put e book : reservation_book (put_book e book) = book.
Proof. unfold reservation_book, put_book. destruct e as [own p [pol led pub [sh|] full]]; done. Qed.

(** What the call of the pipeline does to the book, and what an approval adds. *)
Lemma run_pipeline_spec e book view publisher full :
  let '(e', r, _) := run_pipeline e book view publisher full in
  (decision_approved (pr_decision r) = false → e' = (put_book e book) <| re_pipeline := re_pipeline e' |>) ∧
  (decision_approved (pr_decision r) = true → ∃ intent policy ledger,
     admissible (mkPipelineState (re_pipeline e) (Some book)) view intent policy ledger book ∧
     ai_intent (pr_approved_intent r) = intent ∧
     let t := try_reserve book intent (approval_decision intent policy) (ri_now_ns view)
                (should_track_reservation_ledger_detail policy) in
     e' = (put_book e t.1) <| re_pipeline := re_pipeline e' |>).
Proof.
  unfold run_pipeline.
  destruct (RiskPipeline.evaluate_view _ _ _ _) as [[s r] p] eqn:H.
  apply evaluate_view_cases in H as
    [(intent & policy & ledger & bk & r0 & Ha & -> & Hr0 & _ & ->)|(Hna & Hkeep & Hrej)].
  - rewrite approve_result_approved. split; [done|intros _].
    pose proof (ad_book _ _ _ _ _ _ Ha) as Hbk. cbn [ps_book] in Hbk. simplify_eq.
    exists intent, policy, ledger. split; [done|].
    pose proof (approve_result_intent intent policy (ri_now_ns view) (revalidate_input intent policy view) r0)
      as (_ & -> & _). split; [done|]. cbv zeta. by destruct (put_book e _).
  - assert (decision_approved (pr_decision r) = false) as ->.
    { destruct Hrej as [(_ & -> & _)|(i & reason & detail & cost & r0 & _ & -> & _)]; [done|].
      by rewrite reject_result_rejected. }
    split; [|done]. intros _. rewrite Hkeep. cbn [ps_book default id]. by destruct (put_book e _).
Qed.

(** *** Books of an engine *)

(** Both books an engine can write are reachable. *)
Definition books_ok (e : RiskEngine) : Prop :=
  book_reachable (re_reservations e) ∧
  match rx_reservation_book (re_runtime e) with Some b => book_reachable b | None => True end.

(** The vector of the current book is shorter than any memory can exceed. *)
Definition has_room (e : RiskEngine) : Prop :=
  Z.of_nat (length (rb_reservations (reservation_book e))) < u64_max - 1.

Lemma books_ok_book e : books_ok e → book_reachable (reservation_book e).
Proof. unfold books_ok, reservation_book. destruct (rx_reservation_book _); naive_solver. Qed.

Lemma books_ok_put e book : books_ok e → book_reachable book → books_ok (put_book e book).
Proof.
  unfold books_ok, put_book. destruct e as [own p [pol led pub [sh|] full]]; naive_solver.
Qed.

Lemma books_ok_pipeline e p : books_ok e → books_ok (e <| re_pipeline := p |>).
Proof. by destruct e. Qed.

Lemma expire_old_length b now : book_wf b →
  length (rb_reservations (expire_old b now)) = length (rb_reservations b).
Proof.
  intros [Hwf _]. unfold expire_old.
  pose proof (expire_loop_inv now (rb_reservations b) [] _ _ Hwf) as H.
  destruct (expire_loop _ _ _ _) as [[rs l] k]. destruct H as (_ & _ & ->). apply length_fmap.
Qed.

Lemma book_reachable_step b b' : book_reachable b → book_step b b' → book_reachable b'.
Proof. intros. by eapply rtc_r. Qed.

Lemma run_pipeline_books e now view publisher full :
  books_ok e → has_room e →
  books_ok (run_pipeline e (expire_old (reservation_book e) now) view publisher full).1.1.
Proof.
  intros Hok Hroom. pose proof (books_ok_book e Hok) as Hb.
  assert (Hx : book_reachable (expire_old (reservation_book e) now))
    by (eapply book_reachable_step; [exact Hb|constructor]).
  pose proof (expire_old_length (reservation_book e) now (book_wf_reachable _ Hb)) as Hlen.
  pose proof (run_pipeline_spec e (expire_old (reservation_book e) now) view publisher full) as H.
  destruct (run_pipeline _ _ _ _ _) as [[e' r] p]; cbn [fst].
  destruct (decision_approved (pr_decision r)).
  - destruct H as [_ H]. destruct (H eq_refl) as (i & pol & led & _ & _ & ->).
    apply books_ok_pipeline, books_ok_put; [done|].
    eapply book_reachable_step; [exact Hx|]. constructor. by rewrite Hlen.
  - destruct H as [H _]. rewrite (H eq_refl). by apply books_ok_pipeline, books_ok_put.
Qed.

Lemma put_book_ok e b : books_ok e → book_step (reservation_book e) b → books_ok (put_book e b).
Proof. intros Hok Hs. apply books_ok_put; [done|]. eapply book_reachable_step; [|exact Hs]. by apply books_ok_book. Qed.

(** The calls of the engine; a runtime context comes with a reachable book or none. *)
Inductive engine_step (e : RiskEngine) : RiskEngine → Prop :=
| EngineEvaluate intent context : has_room e → engine_step e (evaluate e intent context).1.1
| EngineEvaluateView input publisher full :
    has_room e → engine_step e (evaluate_view e input publisher full).1.1
| EngineEvaluateDecision intent decision input publisher full :
    has_room e → engine_step e (evaluate_decision e intent decision input publisher full).1.1
| EngineEvaluateInputDecision decision input publisher full :
    has_room e → engine_step e (evaluate_input_decision e decision input publisher full).1.1
| EngineRelease id : engine_step e (release_reservation e id)
| EngineExpire now : engine_step e (engine_expire_old e now)
| EngineSetRuntime runtime :
    match rx_reservation_book runtime with Some b => book_reachable b | None => True end →
    engine_step e (set_runtime_context e runtime).

Definition engine_reachable : RiskEngine → Prop := rtc engine_step (new_engine runtime0).

Lemma evaluate_decision_books e intent decision input publisher full :
  books_ok e → has_room e → books_ok (evaluate_decision e intent decision input publisher full).1.1.
Proof.
  intros Hok Hroom. unfold evaluate_decision. destruct (decision_policy e input) as [pol|]; [|done].
  destruct (decision_rejection _ _ _ _) as [[]|]; [done|]. by apply run_pipeline_books.
Qed.

Lemma engine_step_books e e' : engine_step e e' → books_ok e → books_ok e'.
Proof.
  intros [] Hok.
  - by apply run_pipeline_books.
  - by apply run_pipeline_books.
  - by apply evaluate_decision_books.
  - unfold evaluate_input_decision. destruct (ri_intent input); [|done]. by apply evaluate_decision_books.
  - apply put_book_ok; [done|constructor].
  - apply put_book_ok; [done|constructor].
  - unfold set_runtime_context. destruct Hok as [Hown _]. destruct e; by split.
Qed.

Lemma engine_reachable_books e : engine_reachable e → books_ok e.
Proof.
  intros H. eapply rtc_invariant; [exact engine_step_books|exact H|].
  split; [apply rtc_refl|done].
Qed.

(** Whatever the calls - evaluations that approve or reject, decisions,
    releases, expiries, changes of the runtime context - the engine's book only
    goes through states the reservation book's own operations produce: its
    totals are the sums over its active reservations, and no two active
    reservations have the same key. *)
Theorem engine_book_invariant e :
  engine_reachable e →
  book_reachable (reservation_book e) ∧
  (∀ i j r s, rb_reservations (reservation_book e) !! i = Some r →
     rb_reservations (reservation_book e) !! j = Some s →
     is_active r = true → is_active s = true → reservation_key r = reservation_key s → i = j) ∧
  ls_total_reserved_exposure_tick (engine_ledger_snapshot e) =
    wrap_i64 (sum_list_Z rs_reserved_exposure_tick (active (reservation_book e))).
Proof.
  intros Hok%engine_reachable_books%books_ok_book. split; [done|].
  pose proof (book_wf_reachable _ Hok) as [Hwf _]. split.
  - intros. by eapply wf_key_inj.
  - unfold engine_ledger_snapshot, book_snapshot.
    pose proof (snapshot_loop_ledger (rb_reservations (reservation_book e))
      (ledger_snapshot (rb_ledger (reservation_book e)))) as (_ & -> & _).
    cbn [ledger_snapshot ls_total_reserved_exposure_tick]. by rewrite (wf_exposure _ _ _ Hwf), active_sum_active.
Qed.

Lemma engine_book_invariant_witness :
  let e := (evaluate_view (new_engine runtime0) demo_input false false).1.1 in
  length (active (reservation_book e)) = 1%nat ∧
  ls_total_reserved_exposure_tick (engine_ledger_snapshot e) = 4900000.
Proof.
  assert (Hr : engine_reachable (evaluate_view (new_engine runtime0) demo_input false false).1.1).
  { apply rtc_once, EngineEvaluateView. vm_compute; reflexivity. }
  pose proof (engine_book_invariant _ Hr) as (_ & _ & Hx). cbv zeta. rewrite Hx.
  split; vm_compute; reflexivity.
Defined.

(** *** Approval of decisions *)

(** What a decision must satisfy, against its intent and the policy. *)
Record decision_ok (intent : OpportunityIntent) (decision : OrderDecisionLite) (now : Z)
    (policy : RiskPolicySnapshot) : Prop := {
  dk_type : od_type decision = OtPaperOrderDecision;
  dk_qty : 0 < od_chosen_bundle_qty decision;
  dk_cost : 0 < od_estimated_total_cost_tick decision;
  dk_legs : (0 < od_leg_count decision <= kMaxOrderDecisionLegs)%nat;
  dk_unexpired : now < od_expires_at_ns decision;
  dk_intent : od_source_intent_id decision = oi_intent_id intent;
  dk_bundle : od_bundle_id decision = oi_bundle_id intent;
  dk_snapshot : od_snapshot_version_hash decision = oi_snapshot_version_hash intent;
  dk_hash : compute_order_decision_hash decision = od_decision_hash decision;
  dk_policy : od_policy_hash decision = policy_hash_for policy;
  dk_cost_limit : 0 < rp_max_total_cost_tick policy →
    od_estimated_total_cost_tick decision <= rp_max_total_cost_tick policy;
  dk_total_edge : rp_min_post_risk_total_edge_tick policy <= od_total_edge_tick decision;
  dk_unit_edge : rp_min_post_risk_unit_edge_tick policy <= od_unit_edge_tick decision;
  dk_edge_bps : rp_min_edge_bps policy <= od_edge_bps decision
}.

Lemma decision_rejection_None intent decision input policy :
  decision_rejection intent decision input policy = None ↔
  decision_ok intent decision (ri_now_ns input) policy.
Proof.
  unfold decision_rejection. split.
  - intros H. repeat (step_if_in H; [discriminate H|]). breflect.
    unfold passes_edge_thresholds in *. breflect.
    constructor; done || lia.
  - intros [Ht Hq Hc [Hl1 Hl2] Hx Hi Hbd Hs Hh Hp Hcl He1 He2 He3].
    rewrite bool_decide_true by done. cbn [negb].
    rewrite !(proj2 (Z.leb_gt _ _)) by lia. rewrite (proj2 (Nat.eqb_neq _ _)) by lia.
    rewrite (proj2 (Nat.ltb_ge _ _)) by lia. cbn [orb].
    rewrite !(proj2 (Z.eqb_eq _ _)) by done. cbn [negb orb].
    replace (_ && _) with false.
    2: { symmetry. apply andb_false_iff. destruct (Z.ltb_spec 0 (rp_max_total_cost_tick policy)); [|by left].
         right. apply Z.ltb_ge. auto. }
    unfold passes_edge_thresholds. rewrite !(proj2 (Z.leb_le _ _)) by lia. done.
Qed.

Lemma engine_view_fields e book input :
  let v := engine_view e book input in
  ri_intent v = ri_intent input ∧ ri_policy v = decision_policy e input ∧ ri_now_ns v = ri_now_ns input.
Proof. by destruct input. Qed.

Lemma reservation_book_pipeline e p : reservation_book (e <| re_pipeline := p |>) = reservation_book e.
Proof. by destruct e. Qed.

(** What the engine's own evaluation does when it approves. *)
Lemma evaluate_view_approved e input publisher full e' r p :
  evaluate_view e input publisher full = (e', r, p) → decision_approved (pr_decision r) = true →
  ∃ intent policy ledger, let book := expire_old (reservation_book e) (ri_now_ns input) in
    let track := should_track_reservation_ledger_detail policy in
    ri_intent input = Some intent ∧ decision_policy e input = Some policy ∧
    ri_ledger (engine_view e book input) = Some ledger ∧
    all_checks_pass intent policy (engine_view e book input) ledger
      (revalidate_input intent policy (engine_view e book input)) ∧
    ai_intent (pr_approved_intent r) = intent ∧
    reservation_book e' = (try_reserve book intent (approval_decision intent policy) (ri_now_ns input) track).1 ∧
    res_ok (try_reserve book intent (approval_decision intent policy) (ri_now_ns input) track).2 = true ∧
    active (reservation_book e') = active book ++ [reserved_for book intent (ri_now_ns input) track].
Proof.
  unfold evaluate_view. set (book := expire_old _ _). intros H Happ.
  pose proof (run_pipeline_spec e book (engine_view e book input) publisher full) as Hs.
  rewrite H in Hs. destruct Hs as [_ Hs]. destruct (Hs Happ) as (intent & policy & ledger & Ha & Hint & He').
  destruct (engine_view_fields e book input) as (Hi & Hp & Hn).
  pose proof (ad_reserve _ _ _ _ _ _ Ha) as Hok. rewrite Hn in Hok, He'.
  destruct (try_reserve_adds _ _ _ _ _ Hok) as [Hact _].
  assert (Hb : reservation_book e' = (try_reserve book intent (approval_decision intent policy)
    (ri_now_ns input) (should_track_reservation_ledger_detail policy)).1).
  { rewrite He', reservation_book_pipeline. apply reservation_book_put. }
  exists intent, policy, ledger. cbv zeta. rewrite <- Hi, <- Hp.
  split_and!; try done; try by destruct Ha. by rewrite Hb.
Qed.

Lemma reserved_for_bundle b intent now track :
  rs_bundle_id (reserved_for b intent now track) = oi_bundle_id intent.
Proof.
  pose proof (reserved_for_fields b intent now track) as (Hk & _).
  unfold reservation_key, reservation_key_for in Hk. congruence.
Qed.

(** C2. A decision is a second way into the pipeline, and no way around it: what it
    must satisfy holds of every approved one - it is a paper decision of a
    positive size and cost, not expired, made for this intent and snapshot
    under this policy, untampered (its hash is the one recomputed from its
    fields), within the cost limit and above the edge thresholds - and the
    approved intent is the source intent with the decision's terms, for whose
    cost one reservation is active.  A decision that fails a check changes
    nothing in the engine. *)
Theorem evaluate_decision_sound e intent decision input publisher full policy :
  decision_policy e input = Some policy →
  let '(e', r, _) := evaluate_decision e intent decision input publisher full in
  (decision_approved (pr_decision r) = true →
     decision_ok intent decision (ri_now_ns input) policy ∧
     ai_intent (pr_approved_intent r) = intent_from_decision intent decision policy ∧
     ∃ res, res ∈ active (reservation_book e') ∧
       rs_reserved_cost_tick res = od_estimated_total_cost_tick decision ∧
       rs_expires_at_ns res = od_expires_at_ns decision ∧
       rs_bundle_id res = od_bundle_id decision) ∧
  (¬ decision_ok intent decision (ri_now_ns input) policy →
     e' = e ∧ decision_approved (pr_decision r) = false ∧
     rt_intents_rejected (pr_result r) = 1 ∧ rt_intents_approved (pr_result r) = 0).
Proof.
  intros Hpol. unfold evaluate_decision. rewrite Hpol.
  destruct (decision_rejection intent decision input policy) as [[reason detail]|] eqn:Hrej.
  { unfold reject_decision. destruct (ri_policy input); split; done. }
  apply decision_rejection_None in Hrej as Hok.
  set (view := input <| ri_policy := Some policy |> <| ri_intent := _ |>).
  destruct (evaluate_view e view publisher full) as [[e' r] p] eqn:H.
  split; [intros Happ; split; [done|]|done].
  destruct (evaluate_view_approved _ _ _ _ _ _ _ H Happ) as (i & pol & ledger & Hi & _ & _ & _ & Hint & _ & _ & Hact).
  change (Some (intent_from_decision intent decision policy) = Some i) in Hi. injection Hi as <-.
  split; [done|]. eexists. split; [rewrite Hact; apply elem_of_app; right; left|].
  pose proof (reserved_for_fields (expire_old (reservation_book e) (ri_now_ns view))
    (intent_from_decision intent decision policy) (ri_now_ns view) (should_track_reservation_ledger_detail pol))
    as (_ & _ & _ & _ & Hc & _ & Hx).
  rewrite reserved_for_bundle, Hc, Hx. done.
Qed.

Definition unsigned_decision : OrderDecisionLite :=
  order_decision_lite0
    <| od_source_intent_id := 7 |> <| od_bundle_id := 3 |> <| od_type := OtPaperOrderDecision |>
    <| od_chosen_bundle_qty := 4 |> <| od_guaranteed_payout_tick := 6000000 |>
    <| od_estimated_total_cost_tick := 4900000 |> <| od_unit_edge_tick := 275000 |>
    <| od_total_edge_tick := 1100000 |> <| od_edge_bps := 2244 |>
    <| od_snapshot_version_hash := 77 |> <| od_oracle_artifact_hash := 5 |> <| od_bundle_hash := 6 |>
    <| od_policy_hash := policy_hash_for policy0 |> <| od_created_ts_ns := 600 |>
    <| od_expires_at_ns := 9000 |> <| od_leg_count := 1%nat |>
    <| od_legs := std_array kMaxOrderDecisionLegs decision_leg_lite0
         [decision_leg_lite0 <| dl_quantity_lots := 4 |> <| dl_estimated_cost_tick := 4900000 |>] |>.
Definition demo_decision : OrderDecisionLite :=
  unsigned_decision <| od_decision_hash := compute_order_decision_hash unsigned_decision |>.

Lemma evaluate_decision_sound_witness :
  let e' := (evaluate_decision (new_engine runtime0) priced_intent demo_decision demo_input true true).1.1 in
  ∃ res, res ∈ active (reservation_book e') ∧ rs_reserved_cost_tick res = 4900000 ∧ rs_expires_at_ns res = 9000.
Proof.
  assert (Hp : decision_policy (new_engine runtime0) demo_input = Some policy0) by reflexivity.
  assert (Ha : decision_approved (pr_decision
    (evaluate_decision (new_engine runtime0) priced_intent demo_decision demo_input true true).1.2) = true)
    by (vm_compute; reflexivity).
  pose proof (evaluate_decision_sound (new_engine runtime0) priced_intent demo_decision demo_input true true policy0 Hp)
    as H.
  destruct (evaluate_decision (new_engine runtime0) priced_intent demo_decision demo_input true true) as [[e' r] p].
  cbn [fst snd] in *. destruct H as [H _]. destruct (H Ha) as (_ & _ & res & Hin & Hc & Hx & _).
  exists res. split; [exact Hin|]. rewrite Hc, Hx. split; reflexivity.
Defined.

(** *** The exposure limit, end to end *)

Lemma exposure_check_total ledger intent cost policy :
  xg_pass (exposure_check ledger intent cost policy) = true → 0 < rp_max_total_exposure_tick policy →
  ls_total_reserved_exposure_tick ledger +i Z.max (cr_risk_total_cost_tick cost) 0
    <= rp_max_total_exposure_tick policy.
Proof.
  unfold exposure_check. destruct (cr_ok cost); cbn [negb]; [|done]. intros Hx Hp.
  step_if_in Hx; [done|]. apply andb_false_iff in Hb as [Hb|Hb]; breflect; lia.
Qed.

Lemma book_snapshot_exposure b :
  book_wf b → ls_total_reserved_exposure_tick (book_snapshot b) = wrap_i64 (sum_list_Z rs_reserved_exposure_tick (active b)).
Proof.
  intros [Hwf _]. unfold book_snapshot.
  pose proof (snapshot_loop_ledger (rb_reservations b) (ledger_snapshot (rb_ledger b))) as (_ & -> & _).
  cbn [ledger_snapshot ls_total_reserved_exposure_tick]. by rewrite (wf_exposure _ _ _ Hwf), active_sum_active.
Qed.

(** Reservations are made for non-negative exposures, so the active ones of a
    reachable book have them. *)
Lemma book_step_exposures b b' : book_step b b' →
  book_wf b ∧ (∀ r, r ∈ active b → 0 <= rs_reserved_exposure_tick r) →
  book_wf b' ∧ (∀ r, r ∈ active b' → 0 <= rs_reserved_exposure_tick r).
Proof.
  intros Hstep [Hwf Hnn]. split; [by eapply book_step_wf|]. destruct Hstep as [intent d now track _|id|now].
  - pose proof (try_reserve_cases b intent d now track) as Hc. pose proof (try_reserve_adds b intent d now track) as Ha.
    destruct (try_reserve b intent d now track) as [b' res]. cbn [fst snd] in *. destruct Hc as [_ Hc].
    destruct (res_ok res); [|by subst]. destruct (Ha eq_refl) as [-> _]. intros r [Hr|Hr]%elem_of_app; [auto|].
    apply list_elem_of_singleton in Hr as ->. pose proof (reserved_for_fields b intent now track) as (_ & _ & _ & _ & _ & -> & _). lia.
  - destruct (retire_active b 0 id Hwf) as [_ ->]. intros r [_ Hr]%list_elem_of_filter. auto.
  - destruct (retire_active b now 0 Hwf) as [-> _]. intros r [_ Hr]%list_elem_of_filter. auto.
Qed.

Lemma reachable_exposures_nonneg b r : book_reachable b → r ∈ active b → 0 <= rs_reserved_exposure_tick r.
Proof.
  intros Hb. assert (book_wf b ∧ ∀ r, r ∈ active b → 0 <= rs_reserved_exposure_tick r) as [_ Hnn]; [|apply Hnn].
  apply (rtc_invariant book_step (λ b, book_wf b ∧ ∀ r, r ∈ active b → 0 <= rs_reserved_exposure_tick r) book0 b book_step_exposures Hb). split; [exact book0_wf|]. intros s Hs. by apply elem_of_nil in Hs.
Qed.

(** C3. What the exposure limit bounds, for an engine that reads its ledger from
    its own book.  An approval checks the exposures of all active reservations
    together with the revalidated cost of the intent, and these do not pass the
    limit of the policy; the reservation it makes is for the estimated cost of the
    intent, so the exposures that are active afterwards pass the limit by no more
    than the estimate is above the revalidated cost, and not at all when it is not
    above it.  The excess does not add up over approvals: each one starts from the
    whole book.  It is provided that the sum the guard computes fits in 64 bits. *)
Theorem exposure_limit_end_to_end e input publisher full policy :
  engine_reachable e → rx_ledger (re_runtime e) = None → ri_ledger input = None →
  decision_policy e input = Some policy → 0 < rp_max_total_exposure_tick policy →
  let book := expire_old (reservation_book e) (ri_now_ns input) in
  let '(e', r, _) := evaluate_view e input publisher full in
  let intent := ai_intent (pr_approved_intent r) in
  let checked := Z.max (cr_risk_total_cost_tick (revalidate_input intent policy (engine_view e book input))) 0 in
  let reserved := Z.max (oi_estimated_cost_tick intent) 0 in
  let before := sum_list_Z rs_reserved_exposure_tick (active book) in
  let after := sum_list_Z rs_reserved_exposure_tick (active (reservation_book e')) in
  decision_approved (pr_decision r) = true → before + checked <= i64_max →
  0 <= before ∧ before + checked <= rp_max_total_exposure_tick policy ∧ after = before + reserved ∧
  after <= rp_max_total_exposure_tick policy + Z.max 0 (reserved - checked) ∧
  (reserved <= checked → after <= rp_max_total_exposure_tick policy).
Proof.
  intros Hreach Hl1 Hl2 Hpol Hpos. set (book := expire_old _ _).
  destruct (evaluate_view e input publisher full) as [[e' r] p] eqn:H. cbv zeta. intros Happ Hfit.
  destruct (evaluate_view_approved _ _ _ _ _ _ _ H Happ)
    as (intent & pol & ledger & _ & Hpol' & Hled & Hall & Hint & _ & _ & Hact). fold book in Hled, Hall, Hact.
  rewrite Hpol in Hpol'. injection Hpol' as <-. rewrite Hint in *.
  assert (ledger = book_snapshot book) as ->.
  { unfold engine_view in Hled. rewrite Hl1, Hl2 in Hled. by injection Hled. }
  assert (Hbook : book_reachable book).
  { eapply book_reachable_step; [apply books_ok_book, engine_reachable_books, Hreach|constructor]. }
  pose proof (exposure_check_total _ _ _ _ (ac_exposure _ _ _ _ _ Hall) Hpos) as Hx.
  rewrite book_snapshot_exposure in Hx by (by apply book_wf_reachable).
  pose proof (sum_list_Z_nonneg rs_reserved_exposure_tick (active book) (λ r, reachable_exposures_nonneg book r Hbook)) as Hs.
  rewrite wrap_i64_add_l, wrap_i64_id in Hx by (unfold in_i64; lia).
  rewrite Hact, sum_list_Z_app. cbn [sum_list_Z].
  pose proof (reserved_for_fields book intent (ri_now_ns input) (should_track_reservation_ledger_detail policy))
    as (_ & _ & _ & _ & _ & -> & _). lia.
Qed.

Lemma exposure_limit_end_to_end_witness :
  let input := demo_input <| ri_policy := Some limited_policy |> <| ri_ledger := None |> in
  sum_list_Z rs_reserved_exposure_tick
    (active (reservation_book (evaluate_view (new_engine runtime0) input false false).1.1)) <= 10000000.
Proof.
  intros input.
  assert (Hr : engine_reachable (new_engine runtime0)) by apply rtc_refl.
  assert (Hpos : 0 < rp_max_total_exposure_tick limited_policy) by reflexivity.
  pose proof (exposure_limit_end_to_end (new_engine runtime0) input false false limited_policy
    Hr eq_refl eq_refl eq_refl Hpos) as H.
  assert (Ha : decision_approved (pr_decision (evaluate_view (new_engine runtime0) input false false).1.2) = true)
    by (vm_compute; reflexivity).
  assert (Hi : ai_intent (pr_approved_intent (evaluate_view (new_engine runtime0) input false false).1.2) = priced_intent)
    by (vm_compute; reflexivity).
  destruct (evaluate_view (new_engine runtime0) input false false) as [[e' r] p]; cbn [fst snd] in *.
  rewrite Hi in H. change (rp_max_total_exposure_tick limited_policy) with 10000000 in H.
  apply H; [exact Ha| |]; vm_compute; congruence.
Defined.

(** The limit can be passed: an intent whose estimate is 20,000,000 and whose
    revalidated cost is 4,900,000 is approved under a limit of 10,000,000, and
    20,000,000 are reserved. *)
Example exposure_limit_passed :
  let intent := priced_intent <| oi_estimated_cost_tick := 20000000 |> in
  let input := demo_input <| ri_policy := Some limited_policy |> <| ri_ledger := None |> <| ri_intent := Some intent |> in
  let '(e', r, _) := evaluate_view (new_engine runtime0) input false false in
  rp_max_total_exposure_tick limited_policy = 10000000 ∧ decision_approved (pr_decision r) = true ∧
  rs_reserved_exposure_tick <$> active (reservation_book e') = [20000000].
Proof. vm_compute. auto. Qed.
