(* ===== verification/Bundles.v ===== *)
(** * Bundles: the candidate bundles the oracle hands to the engine

    [oracle/bundles].  A bundle is a set of legs that
    together pay at least a guaranteed amount; signal and sizing read it.
    [BundleHash.cpp] binds a bundle, [BundleValidator.cpp] accepts a list. *)

From stdpp Require Import pretty.
From S2P Require Import Prelude Hashing RiskTypes.
#[local] Open Scope Z_scope.

(** [oracle/bundles/CandidateBundle.h:14-22] BundleLeg. *)
Record BundleLeg := mkBundleLeg {
  bl_market_id : string;
  bl_asset_id : string;
  bl_side : Side;
  bl_quantity_lots : Z;
  bl_max_price_tick : Z
}.
Definition bundle_leg0 : BundleLeg := mkBundleLeg "" "" Buy 0 0.
#[export] Instance BundleLeg_inhabited : Inhabited BundleLeg := populate bundle_leg0.

(** [oracle/bundles/CandidateBundle.h:24-24] kMaxBundleLegs. *)
Definition kMaxBundleLegs : nat := 16.

(** [oracle/bundles/CandidateBundle.h:26-39] CandidateBundle; [legs] holds [kMaxBundleLegs] slots. *)
Record CandidateBundle := mkCandidateBundle {
  cb_bundle_id : Z;
  cb_required_true_mask : Z;
  cb_required_false_mask : Z;
  cb_invalid_mask : Z;
  cb_guaranteed_payout_tick : Z;
  cb_leg_count : nat;
  cb_legs : list BundleLeg;
  cb_min_edge_tick : Z
}.
Definition candidate_bundle0 : CandidateBundle :=
  mkCandidateBundle 0 0 0 0 0 0 (std_array kMaxBundleLegs bundle_leg0 []) 0.

(** The legs a loop up to [leg_count] visits. *)
Definition bundle_legs (bundle : CandidateBundle) : list BundleLeg := take (cb_leg_count bundle) (cb_legs bundle).

(** ** Names, hashes and validation *)

(** [oracle/bundles/CandidateBundle.cpp:5-14] side_to_string. *)
Definition side_to_string (side : Side) : string := match side with Buy => "Buy" | Sell => "Sell" end.

(** [oracle/bundles/CandidateBundle.cpp:16-35] side_from_string. *)
Definition side_from_string (value : string) : option Side :=
  if String.eqb value "Buy" then Some Buy else if String.eqb value "Sell" then Some Sell else None.

(** [oracle/bundles/BundleHash.cpp:15-19] hash_u16. *)
Definition hash_u16 (hash value : Z) : Z :=
  mix_byte (mix_byte hash (Z.land value 255)) (Z.land (Z.shiftr value 8) 255).

(** [oracle/bundles/BundleHash.cpp:31-36] hash_string: the bytes, then an end mark. *)
Definition hash_marked_string (hash : Z) (value : string) : Z := mix_byte (mix_string hash value) 255.

(** [oracle/bundles/BundleHash.cpp:52-59] hash_candidate_bundle, one leg. *)
Definition hash_bundle_leg (hash : Z) (leg : BundleLeg) : Z :=
  let hash := hash_marked_string hash (bl_market_id leg) in
  let hash := hash_marked_string hash (bl_asset_id leg) in
  let hash := mix_byte hash (side_value (bl_side leg)) in
  let hash := mix_i64 hash (bl_quantity_lots leg) in
  mix_i64 hash (bl_max_price_tick leg).

(** [oracle/bundles/BundleHash.cpp:40-63] hash_candidate_bundle. *)
Definition hash_candidate_bundle (bundle : CandidateBundle) : Z :=
  let hash := fnv_offset in
  let hash := mix_u64 hash (cb_bundle_id bundle) in
  let hash := mix_u64 hash (cb_required_true_mask bundle) in
  let hash := mix_u64 hash (cb_required_false_mask bundle) in
  let hash := mix_u64 hash (cb_invalid_mask bundle) in
  let hash := mix_i64 hash (cb_guaranteed_payout_tick bundle) in
  let hash := hash_u16 hash (Z.of_nat (cb_leg_count bundle)) in
  mix_i64 (foldl hash_bundle_leg hash (bundle_legs bundle)) (cb_min_edge_tick bundle).

(** [oracle/bundles/BundleHash.cpp:65-73] hash_candidate_bundles. *)
Definition hash_candidate_bundles (bundles : list CandidateBundle) : Z :=
  foldl (λ hash bundle, mix_u64 hash (hash_candidate_bundle bundle)) fnv_offset bundles.

(** [oracle/bundles/BundleValidator.cpp:10-14] masks_conflict. *)
Definition masks_conflict (bundle : CandidateBundle) : bool :=
  negb (Z.land (cb_required_true_mask bundle) (cb_required_false_mask bundle) =? 0) ||
  negb (Z.land (cb_required_true_mask bundle) (cb_invalid_mask bundle) =? 0) ||
  negb (Z.land (cb_required_false_mask bundle) (cb_invalid_mask bundle) =? 0).

(** [oracle/bundles/BundleValidator.h:11-16] BundleValidationResult. *)
Record BundleValidationResult := mkBundleValidationResult {
  br_duplicate_bundle_ids : list Z;
  br_errors : list string
}.

(** [oracle/bundles/BundleValidator.cpp:63-95] validate, one leg. *)
Definition leg_errors (known_market_ids known_asset_ids : gset string) (i : nat) (leg : BundleLeg) : list string :=
  (if String.eqb (bl_market_id leg) "" || bool_decide (bl_market_id leg ∉ known_market_ids)
   then ["unknown market_id in leg " ++ pretty (N.of_nat i)]%string else []) ++
  (if String.eqb (bl_asset_id leg) "" || bool_decide (bl_asset_id leg ∉ known_asset_ids)
   then ["unknown asset_id in leg " ++ pretty (N.of_nat i)]%string else []) ++
  (if bl_quantity_lots leg <=? 0 then ["non-positive quantity_lots in leg " ++ pretty (N.of_nat i)]%string else []) ++
  (if bl_max_price_tick leg <? 0 then ["negative max_price_tick in leg " ++ pretty (N.of_nat i)]%string else []).

(** [oracle/bundles/BundleValidator.cpp:36-95] validate, one bundle after the duplicate test. *)
Definition bundle_errors (known_market_ids known_asset_ids : gset string) (bundle : CandidateBundle) : list string :=
  (if (cb_leg_count bundle =? 0)%nat then ["leg_count is zero"%string] else []) ++
  (if (kMaxBundleLegs <? cb_leg_count bundle)%nat then ["leg_count exceeds 16"%string] else []) ++
  (if masks_conflict bundle then ["required masks conflict"%string] else []) ++
  concat (imap (leg_errors known_market_ids known_asset_ids) (bundle_legs bundle)).

(** [oracle/bundles/BundleValidator.cpp:16-24] add_error: the message with its bundle. *)
Definition bundle_error (id : Z) (message : string) : string :=
  ("bundle " ++ pretty (Z.to_N id) ++ ": " ++ message)%string.

(** [oracle/bundles/BundleValidator.h:14-16] ok. *)
Definition validation_ok (result : BundleValidationResult) : bool :=
  bool_decide (br_errors result = []) && bool_decide (br_duplicate_bundle_ids result = []).

(** The loop of [validate] with the ids it has seen. *)
Fixpoint validate_bundle_list (known_market_ids known_asset_ids : gset string) (seen : gset Z)
    (bundles : list CandidateBundle) (result : BundleValidationResult) : BundleValidationResult :=
  match bundles with
  | [] => result
  | bundle :: rest =>
      let id := cb_bundle_id bundle in
      let duplicate := bool_decide (id ∈ seen) in
      validate_bundle_list known_market_ids known_asset_ids ({[id]} ∪ seen) rest
        (mkBundleValidationResult
           (br_duplicate_bundle_ids result ++ (if duplicate then [id] else []))
           (br_errors result ++ (bundle_error id <$>
              (if duplicate then ["duplicate bundle_id"%string] else []) ++ bundle_errors known_market_ids known_asset_ids bundle)))
  end.

(** [oracle/bundles/BundleValidator.cpp:28-97] validate. *)
Definition validate_bundles (bundles : list CandidateBundle) (known_market_ids known_asset_ids : gset string)
    : BundleValidationResult :=
  validate_bundle_list known_market_ids known_asset_ids ∅ bundles (mkBundleValidationResult [] []).

(** A bundle the validator has nothing to say about. *)
Record bundle_valid (known_market_ids known_asset_ids : gset string) (bundle : CandidateBundle) : Prop := {
  bv_count : (0 < cb_leg_count bundle <= kMaxBundleLegs)%nat;
  bv_masks : masks_conflict bundle = false;
  bv_legs leg : leg ∈ bundle_legs bundle →
    bl_market_id leg ∈ known_market_ids ∧ bl_asset_id leg ∈ known_asset_ids ∧
    bl_market_id leg ≠ ""%string ∧ bl_asset_id leg ≠ ""%string ∧
    0 < bl_quantity_lots leg ∧ 0 <= bl_max_price_tick leg
}.

Lemma if_nil {A} (b : bool) (x : A) : (if b then [x] else []) = [] ↔ b = false.
Proof. by destruct b. Qed.

Lemma leg_errors_nil markets assets i leg :
  leg_errors markets assets i leg = [] ↔
  bl_market_id leg ∈ markets ∧ bl_asset_id leg ∈ assets ∧ bl_market_id leg ≠ ""%string ∧
  bl_asset_id leg ≠ ""%string ∧ 0 < bl_quantity_lots leg ∧ 0 <= bl_max_price_tick leg.
Proof.
  unfold leg_errors. rewrite !app_nil, !if_nil, !orb_false_iff, !bool_decide_eq_false, !String.eqb_neq,
    Z.leb_gt, Z.ltb_ge. split; intros; destruct_and!; split_and!; try done; try by apply dec_stable.
  all: naive_solver.
Qed.

Lemma bundle_errors_nil markets assets bundle :
  bundle_errors markets assets bundle = [] ↔ bundle_valid markets assets bundle.
Proof.
  unfold bundle_errors. rewrite !app_nil, !if_nil, concat_nil_Forall, Forall_forall, Nat.eqb_neq, Nat.ltb_ge.
  split.
  - intros (Hc & Hm & Hx & Hl). split; [lia|done|]. intros leg [i Hi]%list_elem_of_lookup.
    apply (leg_errors_nil markets assets i), Hl, elem_of_lookup_imap. eauto.
  - intros [Hc Hm Hl]. split_and!; [lia|lia|done|]. intros l (i & leg & -> & Hi)%elem_of_lookup_imap.
    apply leg_errors_nil, Hl, list_elem_of_lookup. eauto.
Qed.

Lemma fmap_empty_iff {A B} (f : A → B) l : f <$> l = [] ↔ l = [].
Proof. by destruct l. Qed.

Lemma validate_list_ok markets assets seen bundles result :
  validation_ok (validate_bundle_list markets assets seen bundles result) = true ↔
  validation_ok result = true ∧ Forall (bundle_valid markets assets) bundles ∧
  NoDup (cb_bundle_id <$> bundles) ∧ (∀ b, b ∈ bundles → cb_bundle_id b ∉ seen).
Proof.
  revert seen result; induction bundles as [|b bundles IH]; intros seen result; cbn [validate_bundle_list fmap list_fmap].
  { split; [intros; split_and!; [done|done|constructor|set_solver]|naive_solver]. }
  rewrite IH, Forall_cons, NoDup_cons. clear IH. unfold validation_ok; cbn [br_errors br_duplicate_bundle_ids].
  rewrite !andb_true_iff, !bool_decide_eq_true, !app_nil, fmap_empty_iff, app_nil, !if_nil,
    bool_decide_eq_false, bundle_errors_nil.
  rewrite list_elem_of_fmap.
  split.
  - intros (((He & Hd & Hb) & Hr & _) & Hall & Hn & Hseen).
    split_and!; try done; [|set_solver]. intros (b' & Heq & Hb'). apply (Hseen b' Hb'). set_solver.
  - intros ((He & Hr) & (Hb & Hall) & (Hn1 & Hn) & Hseen).
    assert (cb_bundle_id b ∉ seen) by (apply Hseen; left).
    split_and!; try done. intros b' Hb' Hin. apply elem_of_union in Hin as [Heq%elem_of_singleton|Hin].
    + apply Hn1. by exists b'.
    + apply (Hseen b'); [by right|done].
Qed.

(** The validator accepts exactly the lists of valid bundles with different ids. *)
Lemma validate_bundles_ok bundles markets assets :
  validation_ok (validate_bundles bundles markets assets) = true ↔
  Forall (bundle_valid markets assets) bundles ∧ NoDup (cb_bundle_id <$> bundles).
Proof. unfold validate_bundles. rewrite validate_list_ok. set_solver. Qed.
