(* ===== verification/CostCurve.v ===== *)
(** * CostCurve: what a quantity of one asset costs

    [engine/order_decision/math], [sizing/CostCurveBuilder.cpp] and
    [limits/LimitPriceBuilder.cpp].  A curve lists the executable asks of a book
    with running totals; its array of 64 slots is the list of the [level_count]
    slots in use.  The counters of [CostForQuantityStats] and
    [OrderDecisionEvalStats] are statistics and are not modelled. *)

From S2P Require Import Prelude FixedPoint Depth RiskTypes Bundles OrderDecision.

(** ** Data *)

(** [engine/order_decision/math/CostCurve.h:11-11] kMaxCostCurveLevels. *)
Definition kMaxCostCurveLevels : nat := 64.

(** [engine/order_decision/math/CostCurve.h:13-18] CostCurveLevel. *)
Record CostCurveLevel := mkCostCurveLevel {
  cl_price_tick : Z;
  cl_size_lots : Z;
  cl_cumulative_qty_lots : Z;
  cl_cumulative_cost_tick : Z
}.

(** [engine/order_decision/math/CostCurve.h:20-30] CostCurve. *)
Record CostCurve := mkCostCurve {
  cu_market_id : string;
  cu_asset_id : string;
  cu_asset_index : Z;
  cu_side : Side;
  cu_levels : list CostCurveLevel;
  cu_total_qty_lots : Z
}.
Definition cost_curve0 : CostCurve := mkCostCurve "" "" 0 Buy [] 0.
#[export] Instance CostCurve_inhabited : Inhabited CostCurve := populate cost_curve0.

(** [engine/order_decision/math/CostCurve.h:32-38] CostForQuantityResult. *)
Record CostForQuantityResult := mkCostForQuantityResult {
  cq_ok : bool;
  cq_quantity_lots : Z;
  cq_total_cost_tick : Z;
  cq_vwap_tick : Z;
  cq_worst_price_tick : Z
}.
Definition cost_for_quantity0 : CostForQuantityResult := mkCostForQuantityResult false 0 0 0 0.

(** ** Pricing a quantity *)

(** [engine/order_decision/math/CostCurve.cpp:23-53] cost_for_quantity, the loop; an overflow returns the default. *)
Fixpoint cost_loop (quantity_lots previous_qty previous_cost : Z) (levels : list CostCurveLevel)
    : CostForQuantityResult :=
  match levels with
  | [] => mkCostForQuantityResult false quantity_lots 0 0 0
  | level :: rest =>
      if cl_cumulative_qty_lots level <? quantity_lots
      then cost_loop quantity_lots (cl_cumulative_qty_lots level) (cl_cumulative_cost_tick level) rest
      else
        match checked_mul_i64 (quantity_lots -i previous_qty) (cl_price_tick level) with
        | None => cost_for_quantity0
        | Some partial_cost =>
            match checked_add_i64 previous_cost partial_cost with
            | None => cost_for_quantity0
            | Some total => mkCostForQuantityResult true quantity_lots total (Z.quot total quantity_lots) (cl_price_tick level)
            end
        end
  end.

(** [engine/order_decision/math/CostCurve.cpp:7-56] cost_for_quantity. *)
Definition cost_for_quantity (curve : CostCurve) (quantity_lots : Z) : CostForQuantityResult :=
  if (quantity_lots <=? 0) || (length (cu_levels curve) =? 0)%nat || (cu_total_qty_lots curve <? quantity_lots)
  then mkCostForQuantityResult false quantity_lots 0 0 0
  else cost_loop quantity_lots 0 0 (cu_levels curve).

(** [engine/order_decision/math/PrefixVwap.cpp:7-67] buy_vwap_from_prefix of order_decision; its level index is not used. *)
Definition decision_vwap_from_prefix (view : MarketDepthView) (qty_lots : Z) : PrefixVwapResult :=
  let prefix := dv_prefix view in
  let result := mkPrefixVwapResult false qty_lots 0 0 0 in
  if (qty_lots <=? 0) || (dv_ask_count view =? 0)%nat || (dp_ask_count prefix =? 0)%nat ||
     (dv_ask_count view <? dp_ask_count prefix)%nat then result
  else if dp_ask_cum_qty prefix !!! (dp_ask_count prefix - 1)%nat <? qty_lots then result
  else
    let level_index := first_reaching qty_lots (dp_ask_count prefix) (dp_ask_cum_qty prefix) in
    if (dp_ask_count prefix <=? level_index)%nat then result
    else
      let remaining := qty_lots -i cum_before (dp_ask_cum_qty prefix) level_index in
      let price_tick := pl_price_tick (dv_asks view !!! level_index) in
      if (remaining <? 0) || (price_tick <=? 0) then result
      else
        match checked_mul_i64 price_tick remaining with
        | None => result
        | Some partial_cost =>
            match checked_add_i64 (cum_before (dp_ask_cum_cost prefix) level_index) partial_cost with
            | None => result
            | Some total_cost => mkPrefixVwapResult true qty_lots total_cost (Z.quot total_cost qty_lots) price_tick
            end
        end.

(** [engine/order_decision/sizing/SizeCandidateEnumerator.cpp:24-30] has_ask_prefix; [None] is a null pointer. *)
Definition has_ask_prefix (depth : option MarketDepthView) : bool :=
  match depth with
  | None => false
  | Some view =>
      let prefix := dv_prefix view in
      (0 <? dp_ask_count prefix)%nat && (dp_ask_count prefix <=? dv_ask_count view)%nat &&
      (0 <? dp_ask_cum_qty prefix !!! (dp_ask_count prefix - 1)%nat)
  end.

(** [engine/order_decision/sizing/SizeCandidateEnumerator.cpp:54-65] cost_for_quantity_recorded: what [prefix_linear_mismatch] counts. *)
Definition prefix_linear_mismatch (curve : CostCurve) (view : MarketDepthView) (qty_lots : Z) : bool :=
  let prefix := decision_vwap_from_prefix view qty_lots in
  let linear := cost_for_quantity curve qty_lots in
  negb (Bool.eqb (cq_ok linear) (pv_ok prefix)) ||
  negb (cq_total_cost_tick linear =? pv_total_cost_tick prefix) ||
  negb (cq_vwap_tick linear =? pv_vwap_tick prefix) ||
  negb (cq_worst_price_tick linear =? pv_worst_price_tick prefix).

(** [engine/order_decision/sizing/SizeCandidateEnumerator.cpp:32-88] cost_for_quantity_recorded. *)
Definition cost_for_quantity_recorded (curve : CostCurve) (depth : option MarketDepthView) (qty_lots : Z)
    (use_prefix_vwap : bool) : CostForQuantityResult :=
  match depth with
  | Some view =>
      if use_prefix_vwap && has_ask_prefix depth then
        let prefix := decision_vwap_from_prefix view qty_lots in
        mkCostForQuantityResult (pv_ok prefix) qty_lots (pv_total_cost_tick prefix) (pv_vwap_tick prefix)
          (pv_worst_price_tick prefix)
      else cost_for_quantity curve qty_lots
  | None => cost_for_quantity curve qty_lots
  end.

(** ** Building a curve *)

(** [engine/order_decision/sizing/CostCurveBuilder.cpp:36-72] build_buy_curve, the loop: [None] is the overflow. *)
Fixpoint curve_loop (room : nat) (qty cost : Z) (levels : list PriceLevel) : option (list CostCurveLevel * Z) :=
  match levels, room with
  | [], _ | _, O => Some ([], qty)
  | level :: rest, S room' =>
      let size_lots := price_level_size_lots level in
      if (pl_price_tick level <=? 0) || (size_lots <=? 0) then curve_loop room qty cost rest
      else
        match checked_mul_i64 (pl_price_tick level) size_lots with
        | None => None
        | Some level_cost =>
            match checked_add_i64 qty size_lots with
            | None => None
            | Some qty =>
                match checked_add_i64 cost level_cost with
                | None => None
                | Some cost =>
                    '(out, total) ← curve_loop room' qty cost rest;
                    Some (mkCostCurveLevel (pl_price_tick level) size_lots qty cost :: out, total)
                end
            end
        end
  end.

(** [engine/order_decision/sizing/CostCurveBuilder.cpp:8-83] build_buy_curve: a reason and a message, or the curve. *)
Definition build_buy_curve (leg : option BundleLeg) (depth : option MarketDepthView) (asset_index : Z)
    : OrderDecisionType * string + CostCurve :=
  match leg, depth with
  | Some leg, Some depth =>
      if negb (bool_decide (bl_side leg = Buy)) then
        inl (OtRejectUnsupportedSide, "SELL is unsupported in OrderDecision v1"%string)
      else if (dv_ask_count depth =? 0)%nat then inl (OtRejectNoDepth, "missing ask depth"%string)
      else
        match curve_loop kMaxCostCurveLevels 0 0 (take (dv_ask_count depth) (dv_asks depth)) with
        | None => inl (OtRejectInternalError, "cost curve overflow"%string)
        | Some (levels, total) =>
            if (length levels =? 0)%nat || (total <=? 0) then
              inl (OtRejectNoDepth, "ask depth has no executable quantity"%string)
            else inr (mkCostCurve (bl_market_id leg) (bl_asset_id leg) asset_index Buy levels total)
        end
  | _, _ => inl (OtRejectInvalidBundle, "missing leg or depth"%string)
  end.

(** ** Limit prices and the order of candidates *)

(** [engine/order_decision/limits/LimitPriceBuilder.h:9-14] LimitPriceInput. *)
Record LimitPriceInput := mkLimitPriceInput {
  lp_worst_consumed_price_tick : Z;
  lp_protection_buffer_tick : Z;
  lp_leg_max_price_tick : Z;
  lp_configured_max_price_tick : Z
}.

(** [engine/order_decision/limits/LimitPriceBuilder.cpp:7-39] build_buy_limit: a reason or the limit price. *)
Definition build_buy_limit (input : LimitPriceInput) : OrderDecisionType + Z :=
  if lp_worst_consumed_price_tick input <=? 0 then inl OtRejectNoDepth
  else
    match checked_add_i64 (lp_worst_consumed_price_tick input) (lp_protection_buffer_tick input) with
    | None => inl OtRejectPriceProtection
    | Some protected_price =>
        let max_allowed := lp_configured_max_price_tick input in
        let max_allowed :=
          if (0 <? lp_leg_max_price_tick input) &&
             ((max_allowed <=? 0) || (lp_leg_max_price_tick input <? max_allowed))
          then lp_leg_max_price_tick input else max_allowed in
        if (0 <? max_allowed) && (max_allowed <? protected_price) then inl OtRejectPriceProtection
        else inr protected_price
    end.

(** [engine/order_decision/math/EdgeCurve.h:7-13] EdgeCurvePoint. *)
Record EdgeCurvePoint := mkEdgeCurvePoint {
  ep_bundle_qty : Z;
  ep_total_cost_tick : Z;
  ep_unit_edge_tick : Z;
  ep_total_edge_tick : Z;
  ep_edge_bps : Z
}.

(** [engine/order_decision/math/DiscreteOptimizer.h:7-21] better_edge_candidate. *)
Definition better_edge_candidate (candidate incumbent : EdgeCurvePoint) : bool :=
  if negb (ep_total_edge_tick candidate =? ep_total_edge_tick incumbent) then
    ep_total_edge_tick incumbent <? ep_total_edge_tick candidate
  else if negb (ep_edge_bps candidate =? ep_edge_bps incumbent) then
    ep_edge_bps incumbent <? ep_edge_bps candidate
  else if negb (ep_total_cost_tick candidate =? ep_total_cost_tick incumbent) then
    ep_total_cost_tick candidate <? ep_total_cost_tick incumbent
  else ep_bundle_qty candidate <? ep_bundle_qty incumbent.

(** ** What a curve says: the running totals are those of a greedy purchase *)

(** Every level adds its size and its cost to the totals before it, in 64 bits. *)
Fixpoint curve_ok (qty cost : Z) (levels : list CostCurveLevel) : Prop :=
  match levels with
  | [] => True
  | l :: rest =>
      0 < cl_price_tick l ∧ 0 < cl_size_lots l ∧
      cl_cumulative_qty_lots l = qty + cl_size_lots l ∧
      cl_cumulative_cost_tick l = cost + cl_price_tick l * cl_size_lots l ∧
      cl_cumulative_qty_lots l <= i64_max ∧ cl_cumulative_cost_tick l <= i64_max ∧
      curve_ok (cl_cumulative_qty_lots l) (cl_cumulative_cost_tick l) rest
  end.

Fixpoint curve_end (qty : Z) (levels : list CostCurveLevel) : Z :=
  match levels with [] => qty | l :: rest => curve_end (cl_cumulative_qty_lots l) rest end.

(** The exact cost of the first [q] lots, and the price of the last of them. *)
Fixpoint curve_cost (qty cost : Z) (levels : list CostCurveLevel) (q : Z) : Z :=
  match levels with
  | [] => cost
  | l :: rest =>
      if q <=? cl_cumulative_qty_lots l then cost + cl_price_tick l * (q - qty)
      else curve_cost (cl_cumulative_qty_lots l) (cl_cumulative_cost_tick l) rest q
  end.
Fixpoint curve_worst (levels : list CostCurveLevel) (q : Z) : Z :=
  match levels with
  | [] => 0
  | l :: rest => if q <=? cl_cumulative_qty_lots l then cl_price_tick l else curve_worst rest q
  end.

(** A curve the builder may return. *)
Record curve_wf (curve : CostCurve) : Prop := {
  cw_levels : curve_ok 0 0 (cu_levels curve);
  cw_total : cu_total_qty_lots curve = curve_end 0 (cu_levels curve);
  cw_some : 0 < cu_total_qty_lots curve
}.
Definition cost_of (curve : CostCurve) (q : Z) : Z := curve_cost 0 0 (cu_levels curve) q.
Definition worst_of (curve : CostCurve) (q : Z) : Z := curve_worst (cu_levels curve) q.

Lemma curve_end_ge qty cost levels : curve_ok qty cost levels → qty <= curve_end qty levels.
Proof.
  revert qty cost; induction levels as [|l levels IH]; intros qty cost; cbn; [lia|].
  intros (? & ? & Hq & _ & _ & _ & H). apply IH in H. lia.
Qed.

Lemma curve_end_max qty cost levels : curve_ok qty cost levels → qty <= i64_max → curve_end qty levels <= i64_max.
Proof.
  revert qty cost; induction levels as [|l levels IH]; intros qty cost; cbn; [lia|].
  intros (_ & _ & _ & _ & ? & _ & H) _. by eapply IH.
Qed.

(** The cost grows with the quantity, by at least one tick a lot. *)
Lemma curve_cost_bounds qty cost levels q :
  curve_ok qty cost levels → 0 <= cost <= i64_max → qty <= q <= curve_end qty levels →
  cost + (q - qty) <= curve_cost qty cost levels q <= i64_max.
Proof.
  revert qty cost; induction levels as [|l levels IH]; intros qty cost; cbn; [lia|].
  intros (? & ? & Hq & Hc & ? & ? & Hok) Hcost Hr.
  destruct (Z.leb_spec q (cl_cumulative_qty_lots l)); [nia|].
  specialize (IH _ _ Hok ltac:(nia) ltac:(lia)). nia.
Qed.

Lemma curve_cost_mono qty cost levels q1 q2 :
  curve_ok qty cost levels → 0 <= cost <= i64_max → qty <= q1 <= q2 → q2 <= curve_end qty levels →
  curve_cost qty cost levels q1 <= curve_cost qty cost levels q2.
Proof.
  revert qty cost; induction levels as [|l levels IH]; intros qty cost; cbn; [lia|].
  intros (? & ? & Hq & Hc & ? & ? & Hok) Hcost Hle Hend.
  destruct (Z.leb_spec q1 (cl_cumulative_qty_lots l)), (Z.leb_spec q2 (cl_cumulative_qty_lots l)); try nia.
  - pose proof (curve_cost_bounds _ _ _ q2 Hok ltac:(nia) ltac:(lia)). nia.
  - apply IH; [done|nia|lia|done].
Qed.

Lemma curve_worst_pos qty cost levels q :
  curve_ok qty cost levels → qty < q <= curve_end qty levels → 0 < curve_worst levels q.
Proof.
  revert qty cost; induction levels as [|l levels IH]; intros qty cost; cbn; [lia|].
  intros (? & ? & _ & _ & _ & _ & Hok) Hr. step_if; [done|]. breflect. apply (IH _ _ Hok). lia.
Qed.

Lemma cost_of_0 curve : curve_wf curve → cost_of curve 0 = 0.
Proof.
  intros [Hok _ _]. unfold cost_of. destruct (cu_levels curve) as [|l ls]; [done|].
  cbn in *. rewrite (proj2 (Z.leb_le _ _)) by lia. lia.
Qed.

(** ** [cost_for_quantity] returns that cost *)

Lemma cost_loop_spec q qty cost levels :
  curve_ok qty cost levels → 0 <= qty → 0 <= cost <= i64_max → qty < q <= curve_end qty levels →
  let total := curve_cost qty cost levels q in
  cost_loop q qty cost levels = mkCostForQuantityResult true q total (Z.quot total q) (curve_worst levels q).
Proof.
  revert qty cost; induction levels as [|l levels IH]; intros qty cost; cbn [curve_ok curve_end cost_loop curve_cost curve_worst]; [lia|].
  intros (Hp & Hs & Hq & Hc & Hqm & Hcm & Hok) Hq0 Hcost Hr. cbv zeta.
  destruct (Z.ltb_spec (cl_cumulative_qty_lots l) q), (Z.leb_spec q (cl_cumulative_qty_lots l)); try lia.
  - apply IH; [done|lia|nia|lia].
  - rewrite wrap_i64_id by rlia.
    assert (Hb : 0 <= (q - qty) * cl_price_tick l <= cl_price_tick l * cl_size_lots l) by nia.
    destruct (checked_mul_i64 _ _) as [pc|] eqn:E1; [apply checked_mul_i64_Some in E1 as [_ ->] | apply checked_mul_i64_None in E1; rlia].
    destruct (checked_add_i64 _ _) as [tc|] eqn:E2; [apply checked_add_i64_Some in E2 as [_ ->] | apply checked_add_i64_None in E2; rlia].
    by rewrite (Z.mul_comm (q - qty)).
Qed.

Lemma cost_for_quantity_spec curve q :
  curve_wf curve →
  cost_for_quantity curve q =
  if (0 <? q) && (q <=? cu_total_qty_lots curve)
  then mkCostForQuantityResult true q (cost_of curve q) (Z.quot (cost_of curve q) q) (worst_of curve q)
  else mkCostForQuantityResult false q 0 0 0.
Proof.
  intros [Hok Ht Hs]. unfold cost_for_quantity.
  assert (length (cu_levels curve) ≠ 0%nat) by (destruct (cu_levels curve); cbn in *; [lia|done]).
  rewrite (proj2 (Nat.eqb_neq _ _)) by done. rewrite orb_false_r.
  destruct (Z.leb_spec q 0), (Z.ltb_spec 0 q); try lia; [done|]. cbn [orb andb].
  destruct (Z.ltb_spec (cu_total_qty_lots curve) q), (Z.leb_spec q (cu_total_qty_lots curve)); try lia; [done|].
  apply cost_loop_spec; [done|lia|lia|lia].
Qed.

(** ** The builder returns the curve of the book's asks *)

(** The price of the lot that ends the first [q] lots of a book. *)
Fixpoint ending_price (levels : list PriceLevel) (q : Z) : Z :=
  match levels with
  | [] => 0
  | l :: rest => if q <=? level_available l then pl_price_tick l else ending_price rest (q - level_available l)
  end.

Lemma curve_loop_spec room qty cost levels out total :
  curve_loop room qty cost levels = Some (out, total) → (length levels <= room)%nat →
  0 <= qty <= i64_max → 0 <= cost <= i64_max →
  curve_ok qty cost out ∧ total = curve_end qty out ∧ total = qty + exact_qty levels ∧
  (∀ x, 0 <= x <= exact_qty levels →
     curve_cost qty cost out (qty + x) = cost + (fill levels x).1 ∧
     (0 < x → curve_worst out (qty + x) = ending_price levels x)).
Proof.
  revert room qty cost out total; induction levels as [|l levels IH]; intros room qty cost out total H Hroom Hq Hc.
  { destruct room; injection H as <- <-; cbn; unfold exact_qty; cbn; split_and!; try lia; intros; split; lia. }
  destruct room as [|room]; [cbn in Hroom; lia|]. cbn [curve_loop] in H.
  destruct (level_live l) as [Hlive Hpos]. rewrite Hlive in H. rewrite exact_qty_cons.
  pose proof (level_available_range l). pose proof (exact_qty_nonneg levels).
  destruct (Z.leb_spec (level_available l) 0) as [Hz|Hz].
  { apply IH in H as (Hok & Ht & Ht2 & Hx); [|cbn in Hroom; lia|done|done].
    replace (level_available l) with 0 by lia. split_and!; [done|done|lia|].
    intros x Hxr. destruct (Hx x ltac:(lia)) as [Hcx Hwx]. cbn [fill ending_price].
    replace (level_available l) with 0 by lia. rewrite Z.min_r, Z.sub_0_r by lia.
    destruct (fill levels x); cbn [fst] in *. split; [lia|]. intros. rewrite (proj2 (Z.leb_gt _ _)) by lia. auto. }
  destruct (Hpos Hz) as [Hp Hsz]. rewrite <- Hsz in H.
  destruct (checked_mul_i64 _ _) as [lc|] eqn:E1; [|done]. apply checked_mul_i64_Some in E1 as [Hlc ->].
  destruct (checked_add_i64 qty _) as [qty'|] eqn:E2; [|done]. apply checked_add_i64_Some in E2 as [Hq' ->].
  destruct (checked_add_i64 cost _) as [cost'|] eqn:E3; [|done]. apply checked_add_i64_Some in E3 as [Hc' ->].
  destruct (curve_loop room _ _ levels) as [[out' t']|] eqn:E; [|done]. injection H as <- <-.
  apply IH in E as (Hok & Ht & Ht2 & Hx); [|cbn in Hroom; lia|rlia|rlia].
  cbn [curve_ok curve_end curve_cost curve_worst cl_price_tick cl_size_lots cl_cumulative_qty_lots cl_cumulative_cost_tick fill ending_price].
  split_and!; try done; try rlia. intros x Hxr.
  destruct (Z.leb_spec (qty + x) (qty + level_available l)), (Z.leb_spec x (level_available l)); try lia.
  - rewrite Z.min_l, Z.sub_diag by lia. destruct (fill_zero levels 0) as [-> _]. cbn [fst]. split; [lia|done].
  - rewrite Z.min_r by lia. destruct (Hx (x - level_available l) ltac:(lia)) as [Hcx Hwx].
    replace (qty + level_available l + (x - level_available l)) with (qty + x) in Hcx, Hwx by lia.
    destruct (fill levels (x - level_available l)); cbn [fst] in *. split; [lia|intros; apply Hwx; lia].
Qed.

(** The curve of a leg is the book's: the same executable quantity, and for
    every quantity the greedy cost and the price of its last lot. *)
Lemma build_buy_curve_spec leg depth asset_index curve :
  build_buy_curve leg depth asset_index = inr curve →
  ∃ l view, leg = Some l ∧ depth = Some view ∧ bl_side l = Buy ∧
    cu_asset_index curve = asset_index ∧
    ((dv_ask_count view <= kMaxCostCurveLevels)%nat →
     let asks := take (dv_ask_count view) (dv_asks view) in
     curve_wf curve ∧ cu_total_qty_lots curve = exact_qty asks ∧
     ∀ q, 0 < q <= exact_qty asks → cost_of curve q = (fill asks q).1 ∧ worst_of curve q = ending_price asks q).
Proof.
  unfold build_buy_curve. intros H. destruct leg as [l|], depth as [view|]; try done. exists l, view.
  step_if_in H; [done|]. step_if_in H; [done|].
  destruct (curve_loop _ _ _ _) as [[out total]|] eqn:E; [|done].
  step_if_in H; [done|]. injection H as <-. breflect.
  split_and!; try done. intros Hc.
  apply curve_loop_spec in E as (Hok & Ht & Ht2 & Hx); [|rewrite length_take; lia|lia|lia].
  split; [constructor; cbn; done|]. cbn [cu_total_qty_lots]. split; [lia|].
  intros q Hq. destruct (Hx q ltac:(lia)) as [Hc1 Hc2]. rewrite Z.add_0_l in Hc1, Hc2. split; [exact Hc1 | apply Hc2; lia].
Qed.

(** ** Both ways of pricing a leg agree *)

(** A view whose cumulative arrays are those of its levels, as the state builds it. *)
Record view_wf (view : MarketDepthView) : Prop := {
  vw_asks : length (dv_asks view) = kMaxSnapshotDepth;
  vw_count : (0 < dv_ask_count view <= kMaxSnapshotDepth)%nat;
  vw_prefix : dv_prefix view = build_depth_prefix (dv_bids view) (dv_bid_count view) (dv_asks view) (dv_ask_count view)
}.
Definition view_asks (view : MarketDepthView) : list PriceLevel := take (dv_ask_count view) (dv_asks view).

Lemma decision_vwap_shared view q :
  let r := buy_vwap_prefix (dv_prefix view) (Some (dv_asks view)) (dv_ask_count view) q in
  decision_vwap_from_prefix view q =
  mkPrefixVwapResult (vm_ok r) q (vm_total_cost_tick r) (vm_vwap_tick r) (vm_worst_price_tick r).
Proof.
  unfold decision_vwap_from_prefix, buy_vwap_prefix; cbv zeta.
  destruct (q <=? 0); [done|]. cbn [orb].
  destruct (dv_ask_count view =? 0)%nat; cbn [orb]; [by rewrite orb_true_r|]. rewrite orb_false_r.
  destruct ((dp_ask_count (dv_prefix view) =? 0)%nat || _); [done|].
  repeat (step_if; [done|]).
  destruct (checked_mul_i64 _ _); [|done]. by destruct (checked_add_i64 _ _).
Qed.

Lemma ending_price_split l1 l l2 q :
  exact_qty l1 < q <= exact_qty l1 + level_available l → ending_price (l1 ++ l :: l2) q = pl_price_tick l.
Proof.
  revert q; induction l1 as [|m l1 IH]; intros q Hq; cbn [app ending_price].
  - unfold exact_qty in *; cbn in Hq. by rewrite (proj2 (Z.leb_le _ _)) by lia.
  - rewrite exact_qty_cons in Hq. pose proof (exact_qty_nonneg l1).
    rewrite (proj2 (Z.leb_gt _ _)) by lia. apply IH. lia.
Qed.

(** What the curve and the prefix arrays of one view say of a quantity. *)
Lemma curve_and_prefix leg view asset_index curve q :
  view_wf view → build_buy_curve leg (Some view) asset_index = inr curve → q <= i64_max →
  let linear := cost_for_quantity curve q in
  decision_vwap_from_prefix view q =
  mkPrefixVwapResult (cq_ok linear) q (cq_total_cost_tick linear) (cq_vwap_tick linear) (cq_worst_price_tick linear).
Proof.
  intros [Ha Hc Hp] Hb Hq. cbv zeta.
  apply build_buy_curve_spec in Hb as (l & ? & _ & [= <-] & _ & _ & Hb).
  destruct Hb as (Hwf & Htot & Hcost); [unfold kMaxCostCurveLevels, kMaxSnapshotDepth in *; lia|].
  rewrite (cost_for_quantity_spec curve q Hwf), decision_vwap_shared. cbv zeta.
  destruct (Z.ltb_spec 0 q) as [Hpos|]; cbn [andb].
  2:{ unfold buy_vwap_prefix. rewrite (proj2 (Z.leb_le q 0)) by lia. done. }
  rewrite Hp, buy_vwap_prefix_spec by (done || lia). cbv zeta. rewrite Htot.
  destruct (Z.ltb_spec (exact_qty (take (dv_ask_count view) (dv_asks view))) q) as [Hlt|Hge].
  { rewrite (proj2 (Z.leb_gt _ _)) by lia. done. }
  rewrite (proj2 (Z.leb_le _ _)) by lia. cbn [andb].
  destruct (Hcost q ltac:(lia)) as [Hcq Hwq]. rewrite Hcq, Hwq.
  rewrite bool_decide_true.
  2:{ rewrite <- Hcq. unfold cost_of. destruct Hwf as [Hok Ht _].
      apply (curve_cost_bounds 0 0 _ q Hok); lia. }
  unfold vwap_filled. cbn [vm_ok vm_total_cost_tick vm_vwap_tick vm_worst_price_tick cq_ok cq_total_cost_tick cq_vwap_tick cq_worst_price_tick].
  f_equal. destruct (ending_level _ _ (conj Hpos Hge)) as (l1 & x & l2 & Hl & Hend).
  rewrite (prefix_search _ _ _ _ Ha Hc l1 x l2) by (done || lia).
  rewrite (prefix_price _ _ l1 x l2) by done. rewrite Hl. by rewrite ending_price_split.
Qed.

(** Sizing prices a leg the same way whichever routine it is told to use:
    on a view as the state builds it, whose curve could be built, the prefix
    arrays and the walk over the curve agree on every quantity, so the mismatch
    counter never moves and [use_prefix_vwap] does not change a price; a
    quantity is priced exactly when it is positive and executable, and its
    price is the exact greedy cost and the price of its last lot. *)
Theorem leg_pricing_agrees leg view asset_index curve q use_prefix :
  view_wf view → build_buy_curve leg (Some view) asset_index = inr curve → q <= i64_max →
  prefix_linear_mismatch curve view q = false ∧
  let r := cost_for_quantity_recorded curve (Some view) q use_prefix in
  r = cost_for_quantity curve q ∧
  (cq_ok r = true ↔ 0 < q <= exact_qty (view_asks view)) ∧
  (cq_ok r = true → fill (view_asks view) q = (cq_total_cost_tick r, 0) ∧
     cq_worst_price_tick r = ending_price (view_asks view) q).
Proof.
  intros Hv Hb Hq. pose proof (curve_and_prefix _ _ _ _ q Hv Hb Hq) as Hagree. cbv zeta in Hagree.
  assert (Heq : cost_for_quantity_recorded curve (Some view) q use_prefix = cost_for_quantity curve q).
  { unfold cost_for_quantity_recorded. step_if; [|done]. rewrite Hagree. cbn.
    assert (Hql : cq_quantity_lots (cost_for_quantity curve q) = q).
    { apply build_buy_curve_spec in Hb as (l & ? & _ & [= <-] & _ & _ & Hb).
      destruct Hb as (Hwf & _); [destruct Hv as [_ [_ ?] _]; done|].
      rewrite cost_for_quantity_spec by done. by step_if. }
    rewrite <- Hql at 2. by destruct (cost_for_quantity curve q). }
  split. { unfold prefix_linear_mismatch. rewrite Hagree. cbn. by rewrite eqb_reflx, !Z.eqb_refl. }
  cbv zeta. rewrite Heq. split; [done|].
  apply build_buy_curve_spec in Hb as (l & ? & _ & [= <-] & _ & _ & Hb).
  destruct Hb as (Hwf & Htot & Hcost); [destruct Hv as [_ [_ ?] _]; done|].
  rewrite cost_for_quantity_spec by done. rewrite Htot. unfold view_asks.
  destruct (Z.ltb_spec 0 q), (Z.leb_spec q (exact_qty (take (dv_ask_count view) (dv_asks view)))); cbn [andb cq_ok];
    (split; [split; [intros; lia || done | intros; lia || done] |]); try done.
  intros _. destruct (Hcost q ltac:(lia)) as [Hcq Hwq]. cbn [cq_total_cost_tick cq_worst_price_tick].
  pose proof (fill_unfilled (take (dv_ask_count view) (dv_asks view)) q ltac:(lia)) as Hu.
  rewrite Hcq, Hwq. split; [|done]. rewrite Z.max_l in Hu by lia. by destruct (fill _ q); cbn in *; subst.
Qed.

Definition demo_view (asset_index : Z) (asks : list PriceLevel) (ask_count : nat) : MarketDepthView :=
  mkMarketDepthView asset_index 1 7 0 true false false false false 0 ask_count
    (std_array kMaxSnapshotDepth no_level []) asks
    (build_depth_prefix (std_array kMaxSnapshotDepth no_level []) 0 asks ask_count).
Definition demo_bundle_leg : BundleLeg := mkBundleLeg "m" "a" Buy 1 0.

Lemma leg_pricing_agrees_witness :
  match build_buy_curve (Some demo_bundle_leg) (Some (demo_view 1 two_asks 2)) 1 with
  | inr curve => prefix_linear_mismatch curve (demo_view 1 two_asks 2) 12 = false
  | inl _ => False
  end.
Proof.
  destruct (build_buy_curve (Some demo_bundle_leg) (Some (demo_view 1 two_asks 2)) 1) as [e|curve] eqn:E;
    [vm_compute in E; discriminate E|].
  refine (proj1 (leg_pricing_agrees _ _ _ _ 12 true _ E _)).
  - constructor; [reflexivity | cbn; unfold kMaxSnapshotDepth; lia | reflexivity].
  - lia.
Defined.
