(* ===== verification/SizeCandidates.v ===== *)
(** * SizeCandidates: the bundle sizes worth pricing

    [engine/order_decision/sizing/SizeCandidateEnumerator.cpp].  The cost of a
    bundle changes slope where a leg runs out of a price level, so the sizer
    only looks at those sizes.  [KWayCandidateCursor] merges the legs' sizes in
    increasing order, one at a time; [enumerate] collects them.  The cursor's
    [while (true)] takes fuel here; [None] is running out of it. *)

From S2P Require Import Prelude FixedPoint Depth RiskTypes Bundles OrderDecision CostCurve.

(** ** Data *)

(** One leg of the input: its curve, its lots per bundle and its view. *)
Record SizeLeg := mkSizeLeg {
  sl_curve : CostCurve;
  sl_ratio : Z;
  sl_depth : option MarketDepthView
}.

(** [engine/order_decision/sizing/SizeCandidateEnumerator.h:14-29] SizeCandidateEnumerationInput: the first
    [leg_count] entries of its three arrays are [ei_legs]. *)
Record SizeCandidateEnumerationInput := mkSizeCandidateEnumerationInput {
  ei_legs : list SizeLeg;
  ei_min_bundle_qty : Z;
  ei_max_bundle_qty : Z;
  ei_max_total_cost_tick : Z;
  ei_use_prefix_vwap : bool
}.

(** [engine/order_decision/sizing/SizeCandidateEnumerator.h:40-56] KWayCandidateCursor: a level per leg. *)
Record KWayCandidateCursor := mkKWayCandidateCursor {
  kc_levels : list nat;
  kc_last_emitted : Z;
  kc_done : bool
}.

(** ** Candidates *)

(** [engine/order_decision/sizing/SizeCandidateEnumerator.cpp:100-118] candidate_within_budget, the loop. *)
Fixpoint budget_loop (input : SizeCandidateEnumerationInput) (bundle_qty total_cost : Z) (legs : list SizeLeg) : bool :=
  match legs with
  | [] => true
  | leg :: rest =>
      let priced := cost_for_quantity_recorded (sl_curve leg) (sl_depth leg) (sl_ratio leg *i bundle_qty)
                      (ei_use_prefix_vwap input) in
      if negb (cq_ok priced) then false
      else
        let total_cost := total_cost +i cq_total_cost_tick priced in
        if ei_max_total_cost_tick input <? total_cost then false else budget_loop input bundle_qty total_cost rest
  end.

(** [engine/order_decision/sizing/SizeCandidateEnumerator.cpp:90-119] candidate_within_budget. *)
Definition candidate_within_budget (input : SizeCandidateEnumerationInput) (bundle_qty : Z) : bool :=
  if ei_max_total_cost_tick input <=? 0 then true else budget_loop input bundle_qty 0 (ei_legs input).

(** [engine/order_decision/sizing/SizeCandidateEnumerator.cpp:121-138] candidate_at. *)
Definition candidate_at (curve : CostCurve) (ratio : Z) (level : nat) (max_bundle_qty : Z) : Z :=
  match cu_levels curve !! level with
  | None => 0
  | Some l =>
      if ratio <=? 0 then 0
      else
        let q := Z.quot (cl_cumulative_qty_lots l) ratio in
        if q <=? 0 then 0 else if (0 <? max_bundle_qty) && (max_bundle_qty <? q) then max_bundle_qty else q
  end.

(** [engine/order_decision/sizing/SizeCandidateEnumerator.cpp:147-158] The loop that passes levels until one stops it; the count is
    that of the levels left. *)
Fixpoint skip_levels (stop : Z → bool) (max_bundle_qty : Z) (leg : SizeLeg) (count level : nat) : nat :=
  match count with
  | O => level
  | S count =>
      if stop (candidate_at (sl_curve leg) (sl_ratio leg) level max_bundle_qty) then level
      else skip_levels stop max_bundle_qty leg count (S level)
  end.
Definition level_count (leg : SizeLeg) : nat := length (cu_levels (sl_curve leg)).
Definition skip_leg (stop : Z → bool) (max_bundle_qty : Z) (leg : SizeLeg) (level : nat) : nat :=
  skip_levels stop max_bundle_qty leg (level_count leg - level) level.

(** [engine/order_decision/sizing/SizeCandidateEnumerator.cpp:140-160] advance_invalid_candidates. *)
Definition advance_invalid_candidates (input : SizeCandidateEnumerationInput) (levels : list nat) : list nat :=
  zip_with (skip_leg (λ q, ei_min_bundle_qty input <=? q) (ei_max_bundle_qty input)) (ei_legs input) levels.

(** The candidates the legs stand at. *)
Definition heads (input : SizeCandidateEnumerationInput) (levels : list nat) : list Z :=
  zip_with (λ leg level, candidate_at (sl_curve leg) (sl_ratio leg) level (ei_max_bundle_qty input)) (ei_legs input) levels.

(** [engine/order_decision/sizing/SizeCandidateEnumerator.cpp:180-192] KWayCandidateCursor::next: the least candidate. *)
Definition least_candidate (min_bundle_qty : Z) (candidates : list Z) : Z :=
  foldl (λ next_q q, if (min_bundle_qty <=? q) && (q <? next_q) then q else next_q) i64_max candidates.

(** [engine/order_decision/sizing/SizeCandidateEnumerator.cpp:197-210] KWayCandidateCursor::next: every leg passes it. *)
Definition pass_candidate (input : SizeCandidateEnumerationInput) (next_q : Z) (levels : list nat) : list nat :=
  zip_with (skip_leg (λ q, next_q <? q) (ei_max_bundle_qty input)) (ei_legs input) levels.

(** [engine/order_decision/sizing/SizeCandidateEnumerator.cpp:177-222] KWayCandidateCursor::next, the loop. *)
Fixpoint cursor_loop (fuel : nat) (input : SizeCandidateEnumerationInput) (c : KWayCandidateCursor)
    : option (KWayCandidateCursor * option Z) :=
  match fuel with
  | O => None
  | S fuel =>
      let levels := advance_invalid_candidates input (kc_levels c) in
      let next_q := least_candidate (ei_min_bundle_qty input) (heads input levels) in
      if next_q =? i64_max then Some (mkKWayCandidateCursor levels (kc_last_emitted c) true, None)
      else
        let c := mkKWayCandidateCursor (pass_candidate input next_q levels) (kc_last_emitted c) (kc_done c) in
        if next_q =? kc_last_emitted c then cursor_loop fuel input c
        else if negb (candidate_within_budget input next_q) then cursor_loop fuel input c
        else Some (mkKWayCandidateCursor (kc_levels c) next_q (kc_done c), Some next_q)
  end.

(** [engine/order_decision/sizing/SizeCandidateEnumerator.cpp:168-223] KWayCandidateCursor::next. *)
Definition cursor_next (fuel : nat) (input : SizeCandidateEnumerationInput) (c : KWayCandidateCursor)
    : option (KWayCandidateCursor * option Z) :=
  if kc_done c || (length (ei_legs input) =? 0)%nat then Some (c, None) else cursor_loop fuel input c.

(** [engine/order_decision/sizing/SizeCandidateEnumerator.cpp:164-166] KWayCandidateCursor. *)
Definition new_cursor (input : SizeCandidateEnumerationInput) : KWayCandidateCursor :=
  mkKWayCandidateCursor (replicate (length (ei_legs input)) 0%nat) 0 false.

(** [engine/order_decision/sizing/SizeCandidateEnumerator.cpp:239-243] enumerate, the loop. *)
Fixpoint enumerate_loop (fuel : nat) (input : SizeCandidateEnumerationInput) (c : KWayCandidateCursor) : option (list Z) :=
  match fuel with
  | O => None
  | S fuel' =>
      '(c, q) ← cursor_next fuel input c;
      match q with
      | None => Some []
      | Some q => cons q <$> enumerate_loop fuel' input c
      end
  end.

(** A count that is enough for every loop: one more than the levels of all legs. *)
Definition enough_fuel (input : SizeCandidateEnumerationInput) : nat :=
  S (sum_list_with level_count (ei_legs input)).

(** [engine/order_decision/sizing/SizeCandidateEnumerator.cpp:225-249] SizeCandidateEnumerator::enumerate: its candidates. *)
Definition enumerate_candidates (fuel : nat) (input : SizeCandidateEnumerationInput) : option (list Z) :=
  if (length (ei_legs input) =? 0)%nat then Some [] else enumerate_loop fuel input (new_cursor input).

(** ** The cursor as a merge of sorted lists *)

(** Pass the elements that do not stop the loop. *)
Fixpoint drop_until (stop : Z → bool) (l : list Z) : list Z :=
  match l with [] => [] | x :: rest => if stop x then l else drop_until stop rest end.

(** The candidates of a leg from a level on. *)
Definition candidates_from (max_bundle_qty : Z) (leg : SizeLeg) (level count : nat) : list Z :=
  (λ i, candidate_at (sl_curve leg) (sl_ratio leg) i max_bundle_qty) <$> seq level count.
Definition pending (max_bundle_qty : Z) (leg : SizeLeg) (level : nat) : list Z :=
  candidates_from max_bundle_qty leg level (level_count leg - level).
Definition all_pending (input : SizeCandidateEnumerationInput) (levels : list nat) : list (list Z) :=
  zip_with (pending (ei_max_bundle_qty input)) (ei_legs input) levels.

Lemma drop_until_sorted stop l :
  (∀ x y, x <= y → stop x = true → stop y = true) → StronglySorted Z.le l →
  ∀ x, x ∈ drop_until stop l ↔ x ∈ l ∧ stop x = true.
Proof.
  intros Hup. induction 1 as [|a l Hs IH Ha]; intros x; cbn [drop_until]; [set_solver|].
  destruct (stop a) eqn:E.
  - split; [|naive_solver]. intros Hx. split; [done|]. apply elem_of_cons in Hx as [->|Hx]; [done|].
    rewrite Forall_forall in Ha. eauto.
  - rewrite IH, elem_of_cons. split; [naive_solver|]. intros [[->|?] ?]; [congruence|done].
Qed.

Lemma drop_until_keeps stop l : StronglySorted Z.le l → StronglySorted Z.le (drop_until stop l).
Proof. induction 1; cbn; [constructor|]. step_if; [by constructor|done]. Qed.

Lemma drop_until_length stop l : (length (drop_until stop l) <= length l)%nat.
Proof. induction l; cbn; [done|]. step_if; cbn; lia. Qed.

Lemma drop_until_shorter stop l x : head l = Some x → stop x = false → (length (drop_until stop l) < length l)%nat.
Proof. destruct l as [|y l]; [done|]. intros [= ->] Hx. cbn. rewrite Hx. pose proof (drop_until_length stop l). lia. Qed.

Lemma skip_levels_pending stop max leg count level :
  let level' := skip_levels stop max leg count level in
  (level <= level' <= level + count)%nat ∧
  candidates_from max leg level' (level + count - level') = drop_until stop (candidates_from max leg level count).
Proof.
  revert level; induction count as [|count IH]; intros level; cbn [skip_levels]; cbv zeta.
  { replace (level + 0 - level)%nat with 0%nat by lia. split; [lia|done]. }
  destruct (stop _) eqn:E.
  - replace (level + S count - level)%nat with (S count) by lia. split; [lia|]. cbn. by rewrite E.
  - destruct (IH (S level)) as [Hr Hp]. cbv zeta in *. split; [lia|].
    replace (level + S count)%nat with (S level + count)%nat by lia. rewrite Hp. cbn. by rewrite E.
Qed.

Lemma skip_leg_pending stop max leg level :
  pending max leg (skip_leg stop max leg level) = drop_until stop (pending max leg level).
Proof.
  unfold pending, skip_leg.
  destruct (skip_levels_pending stop max leg (level_count leg - level) level) as [Hr Hp]. cbv zeta in *.
  rewrite <- Hp. unfold candidates_from. do 2 f_equal. destruct (decide (level <= level_count leg)%nat); lia.
Qed.

Lemma head_candidate max leg level :
  candidate_at (sl_curve leg) (sl_ratio leg) level max = default 0 (head (pending max leg level)).
Proof.
  unfold pending, candidates_from. destruct (level_count leg - level)%nat eqn:E; [|done].
  cbn. unfold candidate_at. by rewrite lookup_ge_None_2 by (unfold level_count in E; lia).
Qed.

Lemma all_pending_skip input levels stop :
  all_pending input (zip_with (skip_leg stop (ei_max_bundle_qty input)) (ei_legs input) levels) =
  drop_until stop <$> all_pending input levels.
Proof.
  unfold all_pending. revert levels; induction (ei_legs input) as [|leg legs IH]; intros [|v levels]; [done..|].
  cbn. by rewrite skip_leg_pending, IH.
Qed.

Lemma heads_pending input levels : heads input levels = default 0 ∘ head <$> all_pending input levels.
Proof.
  unfold heads, all_pending. revert levels; induction (ei_legs input) as [|leg legs IH]; intros [|v levels]; [done..|].
  cbn. by rewrite head_candidate, IH.
Qed.

Lemma least_candidate_spec min l :
  let m := least_candidate min l in
  m <= i64_max ∧ (∀ q, q ∈ l → min <= q → m <= q) ∧ (m < i64_max → m ∈ l ∧ min <= m).
Proof.
  cbv zeta. unfold least_candidate.
  assert (H : ∀ acc, acc <= i64_max →
    let m := foldl (λ next_q q, if (min <=? q) && (q <? next_q) then q else next_q) acc l in
    m <= acc ∧ (∀ q, q ∈ l → min <= q → m <= q) ∧ (m = acc ∨ m ∈ l ∧ min <= m)).
  { induction l as [|x l IH]; intros acc Hacc; cbn [foldl]; [cbv zeta; set_solver by lia|].
    cbv zeta. destruct ((min <=? x) && (x <? acc)) eqn:E.
    - apply andb_true_iff in E as [E1%Z.leb_le E2%Z.ltb_lt]. destruct (IH x ltac:(lia)) as (Hm & Hall & Hor).
      split_and!; [lia| |].
      + intros q [->|Hq]%elem_of_cons Hmin; [lia|auto].
      + right. destruct Hor as [->|[? ?]]; [split; [left|done]|split; [by right|done]].
    - destruct (IH acc Hacc) as (Hm & Hall & Hor). split_and!; [lia| |].
      + intros q [->|Hq]%elem_of_cons Hmin; [|auto]. rewrite (proj2 (Z.leb_le _ _)) in E by done. cbn in E. breflect. lia.
      + destruct Hor as [->|[? ?]]; [by left|right; split; [by right|done]]. }
  destruct (H i64_max ltac:(lia)) as (Hm & Hall & Hor). split_and!; [done|done|].
  intros Hlt. destruct Hor as [Heq|?]; [lia|done].
Qed.

Lemma elem_of_concat_drop stop Ps x :
  (∀ a b, a <= b → stop a = true → stop b = true) → Forall (StronglySorted Z.le) Ps →
  x ∈ concat (drop_until stop <$> Ps) ↔ x ∈ concat Ps ∧ stop x = true.
Proof.
  intros Hup. induction 1 as [|P Ps HP HPs IH]; cbn; [set_solver|].
  rewrite !elem_of_app, IH, drop_until_sorted by done. naive_solver.
Qed.

Lemma sorted_drop stop Ps : Forall (StronglySorted Z.le) Ps → Forall (StronglySorted Z.le) (drop_until stop <$> Ps).
Proof. induction 1; cbn; constructor; [by apply drop_until_keeps|done]. Qed.

Lemma length_concat_drop stop Ps : (length (concat (drop_until stop <$> Ps)) <= length (concat Ps))%nat.
Proof.
  induction Ps as [|P Ps IH]; cbn; [done|]. rewrite !length_app. pose proof (drop_until_length stop P). lia.
Qed.

Lemma length_concat_drop_lt stop Ps P x :
  P ∈ Ps → head P = Some x → stop x = false → (length (concat (drop_until stop <$> Ps)) < length (concat Ps))%nat.
Proof.
  intros HP Hx Hstop. induction Ps as [|Q Ps IH]; [set_solver|]. cbn. rewrite !length_app.
  apply elem_of_cons in HP as [<-|HP].
  - pose proof (drop_until_shorter stop P x Hx Hstop). pose proof (length_concat_drop stop Ps). lia.
  - specialize (IH HP). pose proof (drop_until_length stop Q). lia.
Qed.

(** The least head is the least element, when every element is large enough. *)
Lemma heads_least min Ps :
  1 <= min → Forall (StronglySorted Z.le) Ps → (∀ x, x ∈ concat Ps → min <= x) →
  let m := least_candidate min (default 0 ∘ head <$> Ps) in
  m <= i64_max ∧ (∀ x, x ∈ concat Ps → m <= x) ∧
  (m < i64_max → m ∈ concat Ps ∧ ∃ P, P ∈ Ps ∧ head P = Some m).
Proof.
  intros Hmin Hs Hge. destruct (least_candidate_spec min (default 0 ∘ head <$> Ps)) as (Hm & Hall & Hin). cbv zeta in *.
  rewrite Forall_forall in Hs. split_and!; [done| |].
  - intros x Hx. pose proof Hx as (P & HP & HxP)%elem_of_concat.
    destruct P as [|y P]; [set_solver|]. trans y.
    + apply Hall; [apply list_elem_of_fmap; by exists (y :: P)|]. apply Hge, elem_of_concat. exists (y :: P). split; [done|left].
    + apply elem_of_cons in HxP as [->|HxP]; [lia|]. specialize (Hs _ HP). apply StronglySorted_inv in Hs as [_ Hs].
      rewrite Forall_forall in Hs. auto.
  - intros Hlt. destruct (Hin Hlt) as [(P & Heq & HP)%list_elem_of_fmap Hge'].
    destruct P as [|y P]; cbn in Heq; [lia|]. rewrite Heq. split; [|eauto].
    apply elem_of_concat. exists (y :: P). split; [done|left].
Qed.

Section cursor.
Context (input : SizeCandidateEnumerationInput).
Context (Hmin : 1 <= ei_min_bundle_qty input).

Let left_over (levels : list nat) : list Z := concat (all_pending input levels).
Let fits (q : Z) : Prop := candidate_within_budget input q = true.

(** What the cursor relies on: sorted candidates below the sentinel, all above the last one it emitted. *)
Record cursor_ok (c : KWayCandidateCursor) : Prop := {
  ck_sorted : Forall (StronglySorted Z.le) (all_pending input (kc_levels c));
  ck_below q : q ∈ left_over (kc_levels c) → q < i64_max;
  ck_last : 0 <= kc_last_emitted c;
  ck_above q : q ∈ left_over (kc_levels c) → ei_min_bundle_qty input <= q → kc_last_emitted c < q
}.

Lemma advance_left levels :
  Forall (StronglySorted Z.le) (all_pending input levels) →
  let levels' := advance_invalid_candidates input levels in
  Forall (StronglySorted Z.le) (all_pending input levels') ∧
  (∀ q, q ∈ left_over levels' ↔ q ∈ left_over levels ∧ ei_min_bundle_qty input <= q) ∧
  (length (left_over levels') <= length (left_over levels))%nat.
Proof.
  intros Hs levels'. subst left_over; cbv beta. subst levels'. unfold advance_invalid_candidates.
  rewrite all_pending_skip. split_and!; [by apply sorted_drop| |apply length_concat_drop].
  intros q. rewrite elem_of_concat_drop; [|intros; rewrite Z.leb_le in *; lia|done]. by rewrite Z.leb_le.
Qed.

Lemma pass_left levels m P :
  Forall (StronglySorted Z.le) (all_pending input levels) → P ∈ all_pending input levels → head P = Some m →
  let levels' := pass_candidate input m levels in
  Forall (StronglySorted Z.le) (all_pending input levels') ∧
  (∀ q, q ∈ left_over levels' ↔ q ∈ left_over levels ∧ m < q) ∧
  (length (left_over levels') < length (left_over levels))%nat.
Proof.
  intros Hs HP Hm levels'. subst left_over; cbv beta. subst levels'. unfold pass_candidate.
  rewrite all_pending_skip. split_and!; [by apply sorted_drop| |].
  - intros q. rewrite elem_of_concat_drop; [|intros; rewrite Z.ltb_lt in *; lia|done]. by rewrite Z.ltb_lt.
  - apply (length_concat_drop_lt _ _ P m HP Hm). apply Z.ltb_irrefl.
Qed.

(** Given a step for every candidate left, [next] ends; it returns the least
    candidate within the budget and leaves exactly the larger ones. *)
Lemma cursor_loop_spec fuel c :
  cursor_ok c → (length (left_over (kc_levels c)) < fuel)%nat →
  ∃ c' r, cursor_loop fuel input c = Some (c', r) ∧
  match r with
  | None => kc_done c' = true ∧ ∀ q, q ∈ left_over (kc_levels c) → ei_min_bundle_qty input <= q → ¬ fits q
  | Some m =>
      m ∈ left_over (kc_levels c) ∧ ei_min_bundle_qty input <= m ∧ fits m ∧
      (∀ q, q ∈ left_over (kc_levels c) → ei_min_bundle_qty input <= q < m → ¬ fits q) ∧
      cursor_ok c' ∧ kc_done c' = kc_done c ∧
      (∀ q, q ∈ left_over (kc_levels c') ↔ q ∈ left_over (kc_levels c) ∧ m < q) ∧
      (length (left_over (kc_levels c')) < length (left_over (kc_levels c)))%nat
  end.
Proof.
  revert c; induction fuel as [|fuel IH]; intros c [Hs Hb Hl0 Hl] Hf; [lia|]. cbn [cursor_loop].
  destruct (advance_left _ Hs) as (Hs1 & Hel1 & Hlen1). cbv zeta in *.
  set (levels := advance_invalid_candidates input (kc_levels c)) in *.
  rewrite heads_pending.
  destruct (heads_least (ei_min_bundle_qty input) (all_pending input levels) Hmin Hs1) as (Hm & Hall & Hin).
  { intros x Hx. by apply Hel1. }
  cbv zeta in *. fold (left_over levels) in *. set (m := least_candidate _ _) in *.
  destruct (Z.eqb_spec m i64_max) as [Heq|Hne].
  { eexists _, None. split; [reflexivity|]. split; [done|]. intros q Hq Hqm.
    assert (q ∈ left_over levels) as Hq' by (by apply Hel1). specialize (Hall _ Hq'). specialize (Hb _ Hq). lia. }
  destruct (Hin ltac:(lia)) as (Hmin' & P & HP & Hhd). clear Hin.
  destruct (pass_left levels m P Hs1 HP Hhd) as (Hs2 & Hel2 & Hlen2). cbv zeta in *.
  set (levels2 := pass_candidate input m levels) in *.
  pose proof (proj1 (Hel1 m) Hmin') as [Hm1 Hm2].
  assert (Hel : ∀ q, q ∈ left_over levels2 ↔ q ∈ left_over (kc_levels c) ∧ m < q).
  { intros q. rewrite Hel2, Hel1. split; [naive_solver|]. intros [? ?]. split_and!; try done. lia. }
  assert (Hleast : ∀ q, q ∈ left_over (kc_levels c) → ei_min_bundle_qty input <= q → m <= q).
  { intros q Hq Hqm. by apply Hall, Hel1. }
  cbn [kc_last_emitted kc_levels kc_done].
  rewrite (proj2 (Z.eqb_neq _ _)) by (specialize (Hl m Hm1 Hm2); lia).
  pose (c2 := mkKWayCandidateCursor levels2 (kc_last_emitted c) (kc_done c)). fold c2.
  assert (Hok2 : cursor_ok c2).
  { split; cbn; [done| |done|].
    - intros q Hq. apply Hb, Hel, Hq.
    - intros q Hq Hqm. apply Hl; [apply Hel, Hq|done]. }
  pose proof (IH c2 Hok2 ltac:(cbn; lia)) as (c' & r & Hrun & Hres).
  destruct (candidate_within_budget input m) eqn:Hfit; cbn [negb].
  - clear Hrun Hres. eexists _, (Some m). split; [reflexivity|]. cbn [kc_levels kc_done kc_last_emitted].
    split_and!; try done; [| |lia].
    + intros q Hq Hqm. specialize (Hleast q Hq ltac:(lia)). lia.
    + constructor; cbn; [done | intros q Hq; apply Hb, Hel, Hq | lia | intros q Hq _; by apply Hel in Hq as [_ ?]].
  - exists c', r. split; [exact Hrun|]. cbn [c2 kc_levels kc_done kc_last_emitted] in Hres.
    destruct r as [q0|].
    + destruct Hres as (Hq0 & Hq0m & Hfit0 & Hless & Hok & Hd & Hel0 & Hlen0).
      apply Hel in Hq0 as [Hq0 Hgt]. split_and!; try done; [| |lia].
      * intros q Hq Hqr. destruct (decide (q = m)) as [->|Hneq]; [unfold fits; congruence|].
        apply Hless; [apply Hel; split; [done|specialize (Hleast q Hq ltac:(lia)); lia]|lia].
      * intros q. rewrite Hel0, Hel. split; [naive_solver|]. intros [? ?]. split_and!; try done. lia.
    + destruct Hres as [Hd Hnone]. split; [done|]. intros q Hq Hqm.
      destruct (decide (q = m)) as [->|Hneq]; [unfold fits; congruence|].
      apply Hnone; [apply Hel; split; [done|specialize (Hleast q Hq ltac:(lia)); lia]|lia].
Qed.
End cursor.

(** ** Enumeration *)

(** A leg as the optimiser passes it: a built curve with fewer than [INT64_MAX] lots. *)
Definition leg_wf (leg : SizeLeg) : Prop :=
  curve_wf (sl_curve leg) ∧ cu_total_qty_lots (sl_curve leg) < i64_max.

(** The size at which a leg runs out of a level, capped. *)
Definition level_candidate (max_bundle_qty ratio : Z) (l : CostCurveLevel) : Z :=
  if ratio <=? 0 then 0
  else
    let q := cl_cumulative_qty_lots l / ratio in
    if (0 <? max_bundle_qty) && (max_bundle_qty <? q) then max_bundle_qty else q.

Lemma curve_cumulative_range qty cost levels l :
  curve_ok qty cost levels → l ∈ levels → qty < cl_cumulative_qty_lots l <= curve_end qty levels.
Proof.
  revert qty cost; induction levels as [|x levels IH]; intros qty cost; cbn; [set_solver|].
  intros (_ & ? & Hq & _ & _ & _ & Hok) [->|Hl]%elem_of_cons.
  - pose proof (curve_end_ge _ _ _ Hok). lia.
  - specialize (IH _ _ Hok Hl). lia.
Qed.

Lemma candidate_at_level leg max level l :
  leg_wf leg → cu_levels (sl_curve leg) !! level = Some l →
  candidate_at (sl_curve leg) (sl_ratio leg) level max = level_candidate max (sl_ratio leg) l.
Proof.
  intros [[Hok _ _] _] Hl. unfold candidate_at, level_candidate. rewrite Hl.
  pose proof (curve_cumulative_range _ _ _ _ Hok (list_elem_of_lookup_2 _ _ _ Hl)).
  destruct (Z.leb_spec (sl_ratio leg) 0); [done|]. rewrite Z.quot_div_nonneg by lia.
  destruct (Z.leb_spec (cl_cumulative_qty_lots l / sl_ratio leg) 0) as [Hz|]; [|done].
  assert (0 <= cl_cumulative_qty_lots l / sl_ratio leg) by (apply Z.div_pos; lia).
  replace (cl_cumulative_qty_lots l / sl_ratio leg) with 0 by lia.
  destruct (Z.ltb_spec 0 max), (Z.ltb_spec max 0); lia || done.
Qed.

Lemma level_candidate_range leg max l :
  leg_wf leg → l ∈ cu_levels (sl_curve leg) → 0 <= level_candidate max (sl_ratio leg) l < i64_max.
Proof.
  intros [[Hok Ht _] Hmax] Hl. pose proof (curve_cumulative_range _ _ _ _ Hok Hl).
  unfold level_candidate. destruct (Z.leb_spec (sl_ratio leg) 0); [lia|].
  assert (0 <= cl_cumulative_qty_lots l / sl_ratio leg) by (apply Z.div_pos; lia).
  assert (cl_cumulative_qty_lots l / sl_ratio leg <= cl_cumulative_qty_lots l).
  { apply Z.div_le_upper_bound; nia. }
  destruct (Z.ltb_spec 0 max), (Z.ltb_spec max (cl_cumulative_qty_lots l / sl_ratio leg)); cbn; lia.
Qed.

Lemma pending_all leg max : leg_wf leg → pending max leg 0 = level_candidate max (sl_ratio leg) <$> cu_levels (sl_curve leg).
Proof.
  intros Hwf. unfold pending, candidates_from, level_count. rewrite Nat.sub_0_r. apply list_eq. intros i.
  rewrite !list_lookup_fmap. destruct (cu_levels (sl_curve leg) !! i) as [l|] eqn:E.
  - rewrite lookup_seq_lt by (by eapply lookup_lt_Some). cbn. f_equal. by apply candidate_at_level.
  - by rewrite lookup_seq_ge by (by apply lookup_ge_None).
Qed.

Lemma level_candidate_mono max ratio l1 l2 :
  cl_cumulative_qty_lots l1 <= cl_cumulative_qty_lots l2 → level_candidate max ratio l1 <= level_candidate max ratio l2.
Proof.
  intros H. unfold level_candidate. destruct (Z.leb_spec ratio 0); [done|].
  pose proof (Z.div_le_mono _ _ ratio ltac:(lia) H).
  destruct (Z.ltb_spec 0 max), (Z.ltb_spec max (cl_cumulative_qty_lots l1 / ratio)),
    (Z.ltb_spec max (cl_cumulative_qty_lots l2 / ratio)); cbn; lia.
Qed.

Lemma candidates_sorted qty cost levels max ratio :
  curve_ok qty cost levels → StronglySorted Z.le (level_candidate max ratio <$> levels).
Proof.
  revert qty cost; induction levels as [|l levels IH]; intros qty cost H; cbn; [constructor|].
  destruct H as (_ & _ & _ & _ & _ & _ & Hok). constructor; [by eapply IH|].
  apply Forall_fmap, Forall_forall. intros x Hx. apply level_candidate_mono.
  pose proof (curve_cumulative_range _ _ _ _ Hok Hx). lia.
Qed.

(** The sizes the cursor has to offer. *)
Definition is_candidate (input : SizeCandidateEnumerationInput) (q : Z) : Prop :=
  ei_min_bundle_qty input <= q ∧
  ∃ leg l, leg ∈ ei_legs input ∧ l ∈ cu_levels (sl_curve leg) ∧
    q = level_candidate (ei_max_bundle_qty input) (sl_ratio leg) l.

Section enumeration.
Context (input : SizeCandidateEnumerationInput).
Context (Hlegs : Forall leg_wf (ei_legs input)).

Lemma start_pending :
  all_pending input (kc_levels (new_cursor input)) =
  (λ leg, level_candidate (ei_max_bundle_qty input) (sl_ratio leg) <$> cu_levels (sl_curve leg)) <$> ei_legs input.
Proof.
  unfold all_pending, new_cursor; cbn [kc_levels]. revert Hlegs. generalize (ei_legs input) as legs.
  induction legs as [|leg legs IH]; intros Hl; [done|]. apply Forall_cons in Hl as [Hl1 Hl2]. cbn.
  rewrite IH by done. by rewrite pending_all.
Qed.

Lemma start_left q :
  q ∈ concat (all_pending input (kc_levels (new_cursor input))) ↔
  ∃ leg l, leg ∈ ei_legs input ∧ l ∈ cu_levels (sl_curve leg) ∧ q = level_candidate (ei_max_bundle_qty input) (sl_ratio leg) l.
Proof.
  rewrite start_pending, elem_of_concat. split.
  - intros (P & (leg & -> & Hleg)%list_elem_of_fmap & (l & -> & Hl)%list_elem_of_fmap). eauto.
  - intros (leg & l & Hleg & Hl & ->). eexists. split; (eapply list_elem_of_fmap_2, Hleg || eapply list_elem_of_fmap_2, Hl).
Qed.

Lemma start_ok : 1 <= ei_min_bundle_qty input → cursor_ok input (new_cursor input).
Proof.
  intros Hmin. pose proof (proj1 (Forall_forall _ _) Hlegs) as Hall. split.
  - rewrite start_pending. apply Forall_fmap, Forall_forall. intros leg Hleg.
    destruct (Hall _ Hleg) as [[Hok _ _] _]. by eapply candidates_sorted.
  - intros q (leg & l & Hleg & Hl & ->)%start_left. by apply level_candidate_range; auto.
  - cbn. lia.
  - intros q _ Hq. cbn. lia.
Qed.

Lemma start_length :
  length (concat (all_pending input (kc_levels (new_cursor input)))) = sum_list_with level_count (ei_legs input).
Proof.
  rewrite start_pending. generalize (ei_legs input) as legs. induction legs as [|leg legs IH]; [done|].
  cbn. by rewrite length_app, length_fmap, IH.
Qed.

Lemma enumerate_loop_spec fuel c :
  1 <= ei_min_bundle_qty input → (length (ei_legs input) ≠ 0)%nat → cursor_ok input c → kc_done c = false →
  (length (concat (all_pending input (kc_levels c))) < fuel)%nat →
  ∃ l, enumerate_loop fuel input c = Some l ∧ StronglySorted Z.lt l ∧
    ∀ q, q ∈ l ↔ q ∈ concat (all_pending input (kc_levels c)) ∧ ei_min_bundle_qty input <= q ∧
                 candidate_within_budget input q = true.
Proof.
  intros Hmin Hne. revert c; induction fuel as [|fuel IH]; intros c Hok Hd Hf; [lia|]. cbn [enumerate_loop].
  destruct (cursor_loop_spec input Hmin (S fuel) c Hok Hf) as (c' & r & Hrun & Hres).
  assert (Hnext : cursor_next (S fuel) input c = Some (c', r)).
  { unfold cursor_next. by rewrite Hd, (proj2 (Nat.eqb_neq _ _)). }
  rewrite Hnext. cbn [mbind option_bind]. destruct r as [m|].
  - destruct Hres as (Hm & Hmm & Hfit & Hless & Hok' & Hd' & Hel & Hlen).
    destruct (IH c' Hok' ltac:(congruence) ltac:(lia)) as (l & -> & Hs & Hl). exists (m :: l). split; [done|]. split.
    + constructor; [done|]. apply Forall_forall. intros x Hx. by apply Hl in Hx as [[_ ?]%Hel _].
    + intros q. rewrite elem_of_cons, Hl, Hel. split; [naive_solver|].
      intros (Hq & Hqm & Hqf). destruct (Z.lt_trichotomy q m) as [?|[->|?]]; [|by left|by right].
      exfalso. by apply (Hless q Hq ltac:(lia)).
  - destruct Hres as [_ Hnone]. exists []. split; [done|]. split; [constructor|].
    intros q. split; [set_solver|]. intros (Hq & Hqm & Hqf). by destruct (Hnone q Hq Hqm).
Qed.
End enumeration.

Lemma enumerate_complete input fuel :
  1 <= ei_min_bundle_qty input → Forall leg_wf (ei_legs input) → (enough_fuel input <= fuel)%nat →
  ∃ l, enumerate_candidates fuel input = Some l ∧ StronglySorted Z.lt l ∧
    ∀ q, q ∈ l ↔ is_candidate input q ∧ candidate_within_budget input q = true.
Proof.
  intros Hmin Hlegs Hfuel. unfold enumerate_candidates. destruct (Nat.eqb_spec (length (ei_legs input)) 0) as [H0|H0].
  { exists []. split; [done|]. split; [constructor|]. intros q. split; [set_solver|].
    intros [(_ & leg & _ & Hleg & _) _]. apply length_zero_iff_nil in H0. rewrite H0 in Hleg. set_solver. }
  destruct (enumerate_loop_spec input Hlegs fuel (new_cursor input) Hmin H0 (start_ok input Hlegs Hmin) eq_refl)
    as (l & Hrun & Hs & Hl).
  { rewrite start_length by done. unfold enough_fuel in Hfuel. lia. }
  exists l. split; [done|]. split; [done|]. intros q. rewrite Hl, start_left by done. unfold is_candidate. tauto.
Qed.

(** C9. Enumerating the sizes terminates, within one step per price level of
    the legs, and yields in strictly increasing order exactly the sizes at
    which some leg runs out of a level, capped at the largest size, that are at
    least the smallest size and within the budget. *)
Theorem enumerate_terminates input fuel :
  1 <= ei_min_bundle_qty input → Forall leg_wf (ei_legs input) → (enough_fuel input <= fuel)%nat →
  ∃ l, enumerate_candidates fuel input = Some l ∧ StronglySorted Z.lt l ∧
    ∀ q, q ∈ l ↔ is_candidate input q ∧ candidate_within_budget input q = true.
Proof. apply enumerate_complete. Qed.

(** With a smallest size of zero or less the exhausted legs still offer zero:
    the enumeration never ends, whatever the fuel. *)
Lemma enumerate_diverges input fuel :
  ei_min_bundle_qty input <= 0 → (length (ei_legs input) ≠ 0)%nat → Forall leg_wf (ei_legs input) →
  enumerate_candidates fuel input = None.
Proof.
  intros Hmin Hne Hlegs. unfold enumerate_candidates. rewrite (proj2 (Nat.eqb_neq _ _)) by done.
  assert (Hlive : ∀ levels, length levels = length (ei_legs input) →
    least_candidate (ei_min_bundle_qty input) (heads input levels) < i64_max).
  { intros levels Hlen. destruct (least_candidate_spec (ei_min_bundle_qty input) (heads input levels)) as (_ & Hall & _).
    cbv zeta in Hall. unfold heads in *. destruct (ei_legs input) as [|leg legs]; [done|].
    destruct levels as [|v levels]; [done|]. cbn [zip_with] in *. apply Forall_cons in Hlegs as [Hleg _].
    assert (0 <= candidate_at (sl_curve leg) (sl_ratio leg) v (ei_max_bundle_qty input) < i64_max) as Hr.
    { destruct (cu_levels (sl_curve leg) !! v) as [l|] eqn:E.
      - rewrite (candidate_at_level _ _ _ _ Hleg E). apply level_candidate_range; [done|by eapply list_elem_of_lookup_2].
      - unfold candidate_at. rewrite E. lia. }
    specialize (Hall _ ltac:(left) ltac:(lia)). lia. }
  assert (Hloop : ∀ f c, length (kc_levels c) = length (ei_legs input) →
    match cursor_loop f input c with
    | Some (_, None) => False
    | Some (c', _) => length (kc_levels c') = length (ei_legs input) ∧ kc_done c' = kc_done c
    | None => True
    end).
  { induction f as [|f IH]; intros c Hc; [done|]. cbn [cursor_loop].
    assert (Hadv : length (advance_invalid_candidates input (kc_levels c)) = length (ei_legs input))
      by (unfold advance_invalid_candidates; rewrite length_zip_with; lia).
    rewrite (proj2 (Z.eqb_neq _ _)) by (specialize (Hlive _ Hadv); lia).
    set (m := least_candidate _ _).
    assert (Hpass : length (pass_candidate input m (advance_invalid_candidates input (kc_levels c))) = length (ei_legs input))
      by (unfold pass_candidate; rewrite length_zip_with; lia).
    pose proof (IH (mkKWayCandidateCursor _ (kc_last_emitted c) (kc_done c)) Hpass) as Hrec.
    step_if; [exact Hrec|]. step_if; [exact Hrec|]. done. }
  assert (Henum : ∀ f c, length (kc_levels c) = length (ei_legs input) → kc_done c = false → enumerate_loop f input c = None).
  { induction f as [|f IH]; intros c Hc Hd; [done|]. cbn [enumerate_loop].
    assert (Hn : cursor_next (S f) input c = cursor_loop (S f) input c).
    { unfold cursor_next. by rewrite Hd, (proj2 (Nat.eqb_neq _ _)). }
    rewrite Hn. specialize (Hloop (S f) c Hc). destruct (cursor_loop (S f) input c) as [[c' [q|]]|]; [|done|done].
    cbn. destruct Hloop as [Hc' Hd']. rewrite IH by congruence. done. }
  apply Henum; [apply length_replicate|done].
Qed.

Definition demo_curve (asks : list PriceLevel) (ask_count : nat) : CostCurve :=
  match build_buy_curve (Some demo_bundle_leg) (Some (demo_view 1 asks ask_count)) 1 with inr c => c | inl _ => cost_curve0 end.
Definition demo_size_input (min_bundle_qty : Z) : SizeCandidateEnumerationInput :=
  mkSizeCandidateEnumerationInput
    [mkSizeLeg (demo_curve two_asks 2) 1 (Some (demo_view 1 two_asks 2));
     mkSizeLeg (demo_curve two_asks 2) 2 (Some (demo_view 1 two_asks 2))] min_bundle_qty 0 0 true.

Lemma demo_legs_wf q : Forall leg_wf (ei_legs (demo_size_input q)).
Proof.
  assert (Hc : curve_wf (demo_curve two_asks 2)) by (split; vm_compute; intuition congruence).
  assert (Hm : cu_total_qty_lots (demo_curve two_asks 2) < i64_max) by (vm_compute; reflexivity).
  apply Forall_cons; split; [exact (conj Hc Hm)|]. apply Forall_cons; split; [exact (conj Hc Hm)|]. by apply Forall_nil.
Qed.

Lemma enumerate_terminates_witness :
  enumerate_candidates 5 (demo_size_input 1) = Some [5; 7; 10; 15] ∧
  ∃ l, enumerate_candidates 5 (demo_size_input 1) = Some l ∧ StronglySorted Z.lt l.
Proof.
  split; [vm_compute; reflexivity|].
  destruct (enumerate_terminates (demo_size_input 1) 5) as (l & H & Hs & _);
    [cbn; lia | apply demo_legs_wf | vm_compute; lia |]. exists l. split; [exact H | exact Hs].
Defined.
