(* ===== verification/OrderDecisionCache.v ===== *)
(** * OrderDecisionCache: what sizing remembers between calls

    [engine/order_decision/core/OrderDecisionCache.cpp] and the configuration.
    Four tables: shape specifications, candidate sets, leg costs and whole
    decisions.  An unordered map keyed by a struct is a [gmap] keyed by the tuple
    of its fields; the hash functors that place a key in a bucket have no
    counterpart. *)

From S2P Require Import Prelude Hashing Depth RiskTypes Bundles OrderDecision CostCurve.

(** ** Configuration *)

(** [engine/order_decision/public/OrderDecisionConfig.h:7-10] OrderDecisionImplMode. *)
Inductive OrderDecisionImplMode := Generic | FastFixedShape.
#[export] Instance OrderDecisionImplMode_eq_dec : EqDecision OrderDecisionImplMode.
Proof. solve_decision. Defined.

(** [engine/order_decision/public/OrderDecisionConfig.h:12-30] OrderDecisionConfig. *)
Record OrderDecisionConfig := mkOrderDecisionConfig {
  dc_impl_mode : OrderDecisionImplMode;
  dc_fast_fixed_shape_fallback_to_generic : bool;
  dc_min_bundle_qty : Z;
  dc_max_bundle_qty : Z;
  dc_fee_per_bundle_tick : Z;
  dc_latency_buffer_per_bundle_tick : Z;
  dc_slippage_buffer_per_bundle_tick : Z;
  dc_price_protection_buffer_tick : Z;
  dc_max_allowed_price_tick : Z;
  dc_default_ttl_ns : Z;
  dc_use_prefix_vwap : bool;
  dc_debug_compare_prefix_vs_linear : bool
}.
Definition order_decision_config0 : OrderDecisionConfig :=
  mkOrderDecisionConfig Generic true 1 0 0 0 0 0 0 1000000000 true false.

(** [engine/order_decision/core/OrderDecisionCache.cpp:241-258] order_decision_config_hash. *)
Definition order_decision_config_hash (config : OrderDecisionConfig) : Z :=
  nonzero_hash (foldl mix fnv_offset
    [ MixU64 (match dc_impl_mode config with Generic => 0 | FastFixedShape => 1 end);
      MixU64 (if dc_fast_fixed_shape_fallback_to_generic config then 1 else 0);
      MixI64 (dc_min_bundle_qty config); MixI64 (dc_max_bundle_qty config);
      MixI64 (dc_fee_per_bundle_tick config); MixI64 (dc_latency_buffer_per_bundle_tick config);
      MixI64 (dc_slippage_buffer_per_bundle_tick config); MixI64 (dc_price_protection_buffer_tick config);
      MixI64 (dc_max_allowed_price_tick config); MixU64 (dc_default_ttl_ns config);
      MixU64 (if dc_use_prefix_vwap config then 1 else 0);
      MixU64 (if dc_debug_compare_prefix_vs_linear config then 1 else 0) ]).

(** ** Entries and keys *)

(** [engine/order_decision/core/OrderDecisionCache.h:19-19] kMaxOrderDecisionCandidates. *)
Definition kMaxOrderDecisionCandidates : nat := kMaxOrderDecisionLegs * kMaxCostCurveLevels.

(** [engine/order_decision/core/OrderDecisionCache.h:22-44] FixedShapeOrderDecisionSpec; its arrays are lists of [leg_count] entries. *)
Record FixedShapeOrderDecisionSpec := mkFixedShapeOrderDecisionSpec {
  fx_spec_hash : Z;
  fx_bundle_id : Z;
  fx_oracle_artifact_hash : Z;
  fx_bundle_hash : Z;
  fx_constraint_hash : Z;
  fx_leg_count : nat;
  fx_asset_indices : list Z;
  fx_market_indices : list Z;
  fx_sides : list Side;
  fx_ratio_qty_lots : list Z;
  fx_guaranteed_payout_per_bundle_tick : Z;
  fx_min_unit_edge_tick : Z;
  fx_min_total_edge_tick : Z;
  fx_min_edge_bps : Z;
  fx_min_bundle_qty : Z
}.

(** [engine/order_decision/core/OrderDecisionCache.h:46-59] CandidateSetKey: bundle, bundle hash, breakpoints, configuration. *)
Abbreviation CandidateSetKey := (Z * Z * Z * Z)%type.

(** [engine/order_decision/core/OrderDecisionCache.h:67-71] CandidateSet: its hash and the [count] values in use. *)
Record CandidateSet := mkCandidateSet { cs_candidate_set_hash : Z; cs_q_values : list Z }.

(** [engine/order_decision/core/OrderDecisionCache.h:73-94] LegCostKey. *)
Abbreviation LegCostKey := (Z * Z * Z * Z * Z * Z * Z * Z * bool)%type.

(** [engine/order_decision/core/OrderDecisionCache.h:100-119] DecisionMemoKey: bundle, bundle hash, snapshot, policy, intent,
    its expiry, the time, configuration. *)
Abbreviation DecisionMemoKey := (Z * Z * Z * Z * Z * Z * Z * Z)%type.

(** [engine/order_decision/core/OrderDecisionCache.h:127-169] OrderDecisionCache. *)
Record OrderDecisionCache := mkOrderDecisionCache {
  dx_specs : gmap Z FixedShapeOrderDecisionSpec;
  dx_candidate_sets : gmap CandidateSetKey CandidateSet;
  dx_leg_costs : gmap LegCostKey CostForQuantityResult;
  dx_decisions : gmap DecisionMemoKey OrderDecisionLite
}.

(** [engine/order_decision/core/OrderDecisionCache.cpp:234-239] clear. *)
Definition decision_cache0 : OrderDecisionCache := mkOrderDecisionCache ∅ ∅ ∅ ∅.

(** ** Shape specifications *)

(** The intent's leg next to a bundle leg. *)
Definition intent_leg_at (intent : OpportunityIntent) (i : nat) : option IntentLeg :=
  if (i <? oi_leg_count intent)%nat then Some (oi_legs intent !!! i) else None.

(** [engine/order_decision/core/OrderDecisionCache.cpp:30-39] spec_cache_key, one leg. *)
Definition spec_key_leg (intent : OpportunityIntent) (hash : Z) (i : nat) (leg : BundleLeg) : Z :=
  let hash := mix_u64 hash (side_value (bl_side leg)) in
  let hash := mix_i64 hash (bl_quantity_lots leg) in
  let hash := match intent_leg_at intent i with Some l => mix_u64 hash (il_asset_index l) | None => hash end in
  mix_string (mix_string hash (bl_market_id leg)) (bl_asset_id leg).

(** [engine/order_decision/core/OrderDecisionCache.cpp:20-41] spec_cache_key. *)
Definition spec_cache_key (intent : OpportunityIntent) (bundle : CandidateBundle) : Z :=
  let hash := foldl mix fnv_offset
    [ MixU64 (cb_bundle_id bundle); MixU64 (oi_bundle_hash intent); MixU64 (oi_oracle_artifact_hash intent);
      MixU64 (oi_constraint_hash intent); MixU64 (Z.of_nat (cb_leg_count bundle)) ] in
  nonzero_hash (foldl (λ h p, spec_key_leg intent h p.1 p.2) hash (imap pair (bundle_legs bundle))).

(** [engine/order_decision/core/OrderDecisionCache.cpp:138-143] fixed_shape_spec: the lots per bundle of a leg. *)
Definition spec_ratio (intent : OpportunityIntent) (i : nat) (leg : BundleLeg) : Z :=
  match intent_leg_at intent i with
  | Some l => if (0 <? il_quantity_lots l) && (bl_quantity_lots leg <=? 0) then il_quantity_lots l
              else if 0 <? bl_quantity_lots leg then bl_quantity_lots leg else 1
  | None => if 0 <? bl_quantity_lots leg then bl_quantity_lots leg else 1
  end.

(** [engine/order_decision/core/OrderDecisionCache.cpp:150-168] fixed_shape_spec: the hash of a specification. *)
Definition spec_hash_of (s : FixedShapeOrderDecisionSpec) : Z :=
  let hash := foldl mix fnv_offset
    [ MixU64 (fx_bundle_id s); MixU64 (fx_oracle_artifact_hash s); MixU64 (fx_bundle_hash s);
      MixU64 (fx_constraint_hash s); MixU64 (Z.of_nat (fx_leg_count s));
      MixI64 (fx_guaranteed_payout_per_bundle_tick s); MixI64 (fx_min_unit_edge_tick s);
      MixI64 (fx_min_total_edge_tick s); MixI64 (fx_min_edge_bps s); MixI64 (fx_min_bundle_qty s) ] in
  nonzero_hash (foldl (λ h i,
    mix_i64 (mix_u64 (mix_u64 (mix_u64 h (fx_asset_indices s !!! i)) (fx_market_indices s !!! i))
      (side_value (default Buy (fx_sides s !! i)))) (fx_ratio_qty_lots s !!! i)) hash (seq 0 (fx_leg_count s))).

(** [engine/order_decision/core/OrderDecisionCache.cpp:119-168] fixed_shape_spec: a new specification. *)
Definition build_spec (intent : OpportunityIntent) (bundle : CandidateBundle) : FixedShapeOrderDecisionSpec :=
  let leg_count := Nat.min (cb_leg_count bundle) kMaxOrderDecisionLegs in
  let legs := take leg_count (cb_legs bundle) in
  let spec := mkFixedShapeOrderDecisionSpec 0 (cb_bundle_id bundle) (oi_oracle_artifact_hash intent)
    (oi_bundle_hash intent) (oi_constraint_hash intent) leg_count
    (imap (λ i _, match intent_leg_at intent i with Some l => il_asset_index l | None => 0 end) legs)
    ((λ _, 0) <$> legs) (bl_side <$> legs) (imap (spec_ratio intent) legs)
    (if negb (cb_guaranteed_payout_tick bundle =? 0) then cb_guaranteed_payout_tick bundle
     else oi_guaranteed_payout_tick intent)
    (oi_min_edge_tick intent) (oi_min_edge_tick intent) 0
    (if 0 <? oi_bundle_qty intent then oi_bundle_qty intent else 1) in
  spec <| fx_spec_hash := spec_hash_of spec |>.

(** [engine/order_decision/core/OrderDecisionCache.cpp:103-172] fixed_shape_spec; the out-parameter is not read by the decision. *)
Definition fixed_shape_spec (cache : OrderDecisionCache) (intent : OpportunityIntent) (bundle : CandidateBundle)
    : OrderDecisionCache * FixedShapeOrderDecisionSpec :=
  let key := spec_cache_key intent bundle in
  match dx_specs cache !! key with
  | Some spec => (cache, spec)
  | None =>
      let spec := build_spec intent bundle in
      (cache <| dx_specs ::= <[key := spec]> |>, spec)
  end.

(** ** Candidate sets, leg costs, decisions *)

(** [engine/order_decision/core/OrderDecisionCache.cpp:43-57] hash_candidate_set. *)
Definition hash_candidate_set (key : CandidateSetKey) (q_values : list Z) : Z :=
  let '(bundle_id, bundle_hash, breakpoints, config_hash) := key in
  nonzero_hash (foldl mix_i64 (foldl mix_u64 fnv_offset
    [bundle_id; bundle_hash; breakpoints; config_hash; Z.of_nat (length q_values)]) q_values).

(** [engine/order_decision/core/OrderDecisionCache.cpp:174-179] find_candidate_set. *)
Definition find_candidate_set (cache : OrderDecisionCache) (key : CandidateSetKey) : option CandidateSet :=
  dx_candidate_sets cache !! key.

(** [engine/order_decision/core/OrderDecisionCache.cpp:181-198] store_candidate_set. *)
Definition store_candidate_set (cache : OrderDecisionCache) (key : CandidateSetKey) (q_values : list Z) : OrderDecisionCache :=
  let q_values := take kMaxOrderDecisionCandidates q_values in
  cache <| dx_candidate_sets ::= <[key := mkCandidateSet (hash_candidate_set key q_values) q_values]> |>.

(** [engine/order_decision/core/OrderDecisionCache.cpp:200-208] find_leg_cost. *)
Definition find_leg_cost (cache : OrderDecisionCache) (key : LegCostKey) : option CostForQuantityResult :=
  dx_leg_costs cache !! key.

(** [engine/order_decision/core/OrderDecisionCache.cpp:210-215] store_leg_cost. *)
Definition store_leg_cost (cache : OrderDecisionCache) (key : LegCostKey) (value : CostForQuantityResult) : OrderDecisionCache :=
  cache <| dx_leg_costs ::= <[key := value]> |>.

(** [engine/order_decision/core/OrderDecisionCache.cpp:217-225] find_decision. *)
Definition find_decision (cache : OrderDecisionCache) (key : DecisionMemoKey) : option OrderDecisionLite :=
  dx_decisions cache !! key.

(** [engine/order_decision/core/OrderDecisionCache.cpp:227-232] store_decision. *)
Definition store_decision (cache : OrderDecisionCache) (key : DecisionMemoKey) (decision : OrderDecisionLite)
    : OrderDecisionCache := cache <| dx_decisions ::= <[key := decision]> |>.

(** [engine/order_decision/core/OrderDecisionCache.cpp:269-291] depth_breakpoint_signature, one leg. *)
Definition breakpoint_leg (hash : Z) (i : nat) (leg : CostCurve * Z * option MarketDepthView) : Z :=
  let '(curve, ratio, depth) := leg in
  let hash := mix_i64 (mix_u64 hash (Z.of_nat i)) ratio in
  let hash :=
    match depth with
    | None => hash
    | Some view =>
        let hash := mix_u64 (mix_u64 hash (dv_asset_index view)) (Z.of_nat (dv_ask_count view)) in
        let count := dp_ask_count (dv_prefix view) in
        if (0 <? count)%nat
        then foldl mix_i64 (mix_u64 hash (Z.of_nat count)) (take count (dp_ask_cum_qty (dv_prefix view)))
        else hash
    end in
  foldl mix_i64 (mix_u64 hash (Z.of_nat (length (cu_levels curve)))) (cl_cumulative_qty_lots <$> cu_levels curve).

(** [engine/order_decision/core/OrderDecisionCache.cpp:260-294] depth_breakpoint_signature. *)
Definition depth_breakpoint_signature (legs : list (CostCurve * Z * option MarketDepthView)) : Z :=
  nonzero_hash (foldl (λ h p, breakpoint_leg h p.1 p.2) (mix_u64 fnv_offset (Z.of_nat (length legs))) (imap pair legs)).

(** [engine/order_decision/core/OrderDecisionCache.cpp:296-316] depth_price_signature. *)
Definition depth_price_signature (depth : MarketDepthView) : Z :=
  let hash := foldl mix fnv_offset
    [ MixU64 (dv_asset_index depth); MixU64 (dv_book_version depth); MixU64 (dv_snapshot_version_hash depth);
      MixU64 (Z.of_nat (dv_ask_count depth)) ] in
  nonzero_hash (foldl (λ h l, mix_i64 (mix_i64 h (pl_price_tick l)) (price_level_size_lots l)) hash
    (take (Nat.min (dv_ask_count depth) kMaxSnapshotDepth) (dv_asks depth))).

(** [engine/order_decision/core/OrderDecisionCache.cpp:318-334] make_candidate_set_key. *)
Definition make_candidate_set_key (intent : OpportunityIntent) (bundle : CandidateBundle) (breakpoint_signature : Z)
    (config : OrderDecisionConfig) : CandidateSetKey :=
  (cb_bundle_id bundle, oi_bundle_hash intent, breakpoint_signature,
   nonzero_hash (mix_i64 (mix_i64 fnv_offset (dc_min_bundle_qty config)) (dc_max_bundle_qty config))).

(** [engine/order_decision/core/OrderDecisionCache.cpp:347-348] make_decision_memo_key: the hash a decision records for a policy. *)
Definition decision_policy_hash (policy : RiskPolicySnapshot) : Z :=
  if negb (rp_policy_hash policy =? 0) then rp_policy_hash policy else compute_policy_hash policy.

(** [engine/order_decision/core/OrderDecisionCache.cpp:336-354] make_decision_memo_key. *)
Definition make_decision_memo_key (intent : OpportunityIntent) (bundle : CandidateBundle) (policy : RiskPolicySnapshot)
    (config : OrderDecisionConfig) (now_ns : Z) : DecisionMemoKey :=
  (cb_bundle_id bundle, oi_bundle_hash intent, oi_snapshot_version_hash intent, decision_policy_hash policy,
   oi_intent_id intent, oi_expires_at_ns intent, now_ns, order_decision_config_hash config).
