(* ===== verification/SizeOptimizer.v ===== *)
(** * SizeOptimizer: choosing how many bundles to buy

    [engine/order_decision/sizing/BundleSizeOptimizer.cpp].  The optimiser
    streams the candidate sizes in increasing order, advances one incremental
    pricing state from size to size, and keeps the best admissible size.  The
    statistics and timings are not modelled; [candidate_count] is, since it
    decides a reject reason.  The cached pricing helpers of the file are not
    called by [optimize]. *)

From S2P Require Import Prelude Doubles FixedPoint Depth RiskTypes Bundles OrderDecision CostCurve SizeCandidates OrderDecisionCache.

(** ** Inputs and results *)

(** [engine/order_decision/sizing/BundleSizeOptimizer.h:19-28] BundleSizeInput; a null pointer is [None]. *)
Record BundleSizeInput := mkBundleSizeInput {
  bi_intent : option OpportunityIntent;
  bi_bundle : option CandidateBundle;
  bi_depth_views : list MarketDepthView;
  bi_policy : option RiskPolicySnapshot;
  bi_config : OrderDecisionConfig;
  bi_cache : option OrderDecisionCache
}.

(** [engine/order_decision/sizing/BundleSizeOptimizer.h:30-47] BundleSizeResult of a success; a failure is its reason. *)
Record BundleSizeResult := mkBundleSizeResult {
  bs_best_bundle_qty : Z;
  bs_guaranteed_payout_tick : Z;
  bs_total_cost_tick : Z;
  bs_unit_edge_tick : Z;
  bs_total_edge_tick : Z;
  bs_edge_bps : Z;
  bs_leg_count : nat;
  bs_legs : list OrderDecisionLegLite
}.

(** ** Preparing the legs *)

(** [engine/order_decision/sizing/BundleSizeOptimizer.cpp:48-59] ratio_for_leg. *)
Definition ratio_for_leg (bundle_leg : BundleLeg) (intent_leg : option IntentLeg) : Z :=
  if 0 <? bl_quantity_lots bundle_leg then bl_quantity_lots bundle_leg
  else match intent_leg with
       | Some l => if 0 <? il_quantity_lots l then il_quantity_lots l else 1
       | None => 1
       end.

(** [engine/order_decision/sizing/BundleSizeOptimizer.cpp:61-75] find_depth_view. *)
Definition find_size_view (depth_views : list MarketDepthView) (asset_index : Z) (fallback_index : nat)
    : option MarketDepthView :=
  match list_find (λ v, dv_asset_index v = asset_index) depth_views with
  | Some (_, view) => Some view
  | None => depth_views !! fallback_index
  end.

(** [engine/order_decision/sizing/BundleSizeOptimizer.cpp:77-82] depth_flags_usable. *)
Definition depth_flags_usable (depth : MarketDepthView) : bool :=
  dv_usable_for_depth depth && negb (dv_recovering depth) && negb (dv_crossed depth) && negb (dv_closed depth) &&
  negb (dv_resolved depth).

(** [engine/order_decision/sizing/BundleSizeOptimizer.cpp:99-111] ceil_ratio_bps. *)
Definition ceil_ratio_bps (value bps : Z) : Z :=
  if (value <=? 0) || (bps <=? 10000) then value
  else match checked_mul_i64 value bps with
       | None => value
       | Some scaled => ceil_div_positive scaled 10000
       end.

(** [engine/order_decision/sizing/BundleSizeOptimizer.cpp:418-461] optimize: one leg, with the asset it is bought as. *)
Definition prepare_leg (intent : OpportunityIntent) (depth_views : list MarketDepthView) (i : nat) (bundle_leg : BundleLeg)
    : OrderDecisionType + SizeLeg :=
  let intent_leg := intent_leg_at intent i in
  if negb (bool_decide (bl_side bundle_leg = Buy)) then inl OtRejectUnsupportedSide
  else
    let ratio := ratio_for_leg bundle_leg intent_leg in
    if ratio <=? 0 then inl OtRejectInvalidBundle
    else
      match find_size_view depth_views (match intent_leg with Some l => il_asset_index l | None => 0 end) i with
      | None => inl OtRejectNoDepth
      | Some depth =>
          if negb (depth_flags_usable depth) then inl OtRejectNoDepth
          else
            match build_buy_curve (Some bundle_leg) (Some depth) (dv_asset_index depth) with
            | inl (reason, _) => inl reason
            | inr curve => inr (mkSizeLeg curve ratio (Some depth))
            end
      end.

(** [engine/order_decision/sizing/BundleSizeOptimizer.cpp:416-462] optimize: the loop over the legs. *)
Fixpoint prepare_legs (intent : OpportunityIntent) (depth_views : list MarketDepthView) (i : nat) (legs : list BundleLeg)
    : OrderDecisionType + list SizeLeg :=
  match legs with
  | [] => inr []
  | leg :: rest =>
      match prepare_leg intent depth_views i leg with
      | inl reason => inl reason
      | inr l =>
          match prepare_legs intent depth_views (S i) rest with
          | inl reason => inl reason
          | inr ls => inr (l :: ls)
          end
      end
  end.

(** ** Incremental pricing *)

(** What the state knows of one leg. *)
Record LegEval := mkLegEval { le_level_index : nat; le_qty_lots : Z; le_cost_tick : Z; le_worst_price_tick : Z }.

(** [engine/order_decision/sizing/BundleSizeOptimizer.cpp:240-250] IncrementalEvalState; its arrays are a list of legs. *)
Record IncrementalEvalState := mkIncrementalEvalState {
  ie_current_q : Z;
  ie_legs : list LegEval;
  ie_total_leg_cost_tick : Z
}.

(** [engine/order_decision/sizing/BundleSizeOptimizer.cpp:280-286] advance_incremental_leg: pass the levels that are used up. *)
Fixpoint pass_levels (qty : Z) (levels : list CostCurveLevel) (level_index : nat) : nat :=
  match levels with
  | level :: rest => if cl_cumulative_qty_lots level <=? qty then pass_levels qty rest (S level_index) else level_index
  | [] => level_index
  end.

(** [engine/order_decision/sizing/BundleSizeOptimizer.cpp:288-320] advance_incremental_leg: buy from level to level.  A
    level that is not used up has met the target, which ends the loop. *)
Fixpoint take_levels (target_qty : Z) (levels : list CostCurveLevel) (level_index : nat) (qty cost total worst : Z)
    : option (LegEval * Z) :=
  if target_qty <=? qty then Some (mkLegEval level_index qty cost worst, total)
  else
    match levels with
    | [] => None
    | level :: rest =>
        let remaining_in_level := cl_cumulative_qty_lots level -i qty in
        let needed := target_qty -i qty in
        if (remaining_in_level <=? 0) || (needed <=? 0) || (cl_price_tick level <=? 0) then None
        else
          let taken := Z.min remaining_in_level needed in
          match checked_mul_i64 (cl_price_tick level) taken with
          | None => None
          | Some cost_delta =>
              match checked_add_i64 cost cost_delta with
              | None => None
              | Some cost =>
                  match checked_add_i64 total cost_delta with
                  | None => None
                  | Some total =>
                      let qty := qty +i taken in
                      if cl_cumulative_qty_lots level <=? qty
                      then take_levels target_qty rest (S level_index) qty cost total (cl_price_tick level)
                      else Some (mkLegEval level_index qty cost (cl_price_tick level), total)
                  end
              end
          end
    end.

(** [engine/order_decision/sizing/BundleSizeOptimizer.cpp:252-328] advance_incremental_leg: the leg and the new total. *)
Definition advance_incremental_leg (leg : SizeLeg) (current_q bundle_qty : Z) (e : LegEval) (total : Z)
    : option (LegEval * Z) :=
  if (sl_ratio leg <=? 0) || (bundle_qty <? current_q) then None
  else
    match checked_mul_i64 (sl_ratio leg) bundle_qty with
    | None => None
    | Some target_qty =>
        if (target_qty <? le_qty_lots e) || (cu_total_qty_lots (sl_curve leg) <? target_qty) then None
        else
          let levels := cu_levels (sl_curve leg) in
          let level_index := pass_levels (le_qty_lots e) (drop (le_level_index e) levels) (le_level_index e) in
          take_levels target_qty (drop level_index levels) level_index (le_qty_lots e) (le_cost_tick e) total
            (le_worst_price_tick e)
    end.

(** [engine/order_decision/sizing/BundleSizeOptimizer.cpp:330-334] IncrementalAdvanceStatus: [Ok] comes with the new state. *)
Inductive Advance (A : Type) := AdvanceOk (a : A) | PartialFillRisk | AdvanceInvalid.
Arguments AdvanceOk {A} a.
Arguments PartialFillRisk {A}.
Arguments AdvanceInvalid {A}.

(** [engine/order_decision/sizing/BundleSizeOptimizer.cpp:351-374] advance_incremental_state: the loop over the legs. *)
Fixpoint advance_legs (min_depth_margin_bps current_q bundle_qty : Z) (legs : list SizeLeg) (evals : list LegEval) (total : Z)
    : Advance (list LegEval * Z) :=
  match legs, evals with
  | leg :: legs, e :: evals =>
      match checked_mul_i64 (sl_ratio leg) bundle_qty with
      | None => AdvanceInvalid
      | Some leg_qty =>
          if cu_total_qty_lots (sl_curve leg) <? ceil_ratio_bps leg_qty min_depth_margin_bps then PartialFillRisk
          else
            match advance_incremental_leg leg current_q bundle_qty e total with
            | None => AdvanceInvalid
            | Some (e, total) =>
                match advance_legs min_depth_margin_bps current_q bundle_qty legs evals total with
                | AdvanceOk (evals, total) => AdvanceOk (e :: evals, total)
                | PartialFillRisk => PartialFillRisk
                | AdvanceInvalid => AdvanceInvalid
                end
            end
      end
  | _, _ => AdvanceOk ([], total)
  end.

(** [engine/order_decision/sizing/BundleSizeOptimizer.cpp:336-381] advance_incremental_state. *)
Definition advance_incremental_state (legs : list SizeLeg) (policy : RiskPolicySnapshot) (bundle_qty : Z)
    (state : IncrementalEvalState) : Advance IncrementalEvalState :=
  if bundle_qty <? ie_current_q state then AdvanceInvalid
  else
    match advance_legs (rp_min_depth_margin_bps policy) (ie_current_q state) bundle_qty legs (ie_legs state)
            (ie_total_leg_cost_tick state) with
    | AdvanceOk (evals, total) => AdvanceOk (mkIncrementalEvalState bundle_qty evals total)
    | PartialFillRisk => PartialFillRisk
    | AdvanceInvalid => AdvanceInvalid
    end.

(** ** Evaluating a candidate *)

(** What the captures of [evaluate_candidate] hold. *)
Record Search := mkSearch {
  se_state : IncrementalEvalState;
  se_best : option (EdgeCurvePoint * IncrementalEvalState);
  se_saw_budget_reject : bool;
  se_saw_partial_reject : bool;
  se_candidates_exhausted : bool
}.

(** [engine/order_decision/sizing/BundleSizeOptimizer.cpp:540-562] optimize: the cost of a size on top of its legs; [None] is an overflow. *)
Definition bundle_total_cost (config : OrderDecisionConfig) (q leg_cost : Z) : option Z :=
  fee ← checked_mul_i64 (dc_fee_per_bundle_tick config) q;
  latency ← checked_mul_i64 (dc_latency_buffer_per_bundle_tick config) q;
  slippage ← checked_mul_i64 (dc_slippage_buffer_per_bundle_tick config) q;
  total ← checked_add_i64 leg_cost fee;
  total ← checked_add_i64 total latency;
  checked_add_i64 total slippage.

(** [engine/order_decision/sizing/BundleSizeOptimizer.cpp:569-603] optimize: the point of a size; [None] is an overflow. *)
Definition edge_point (guaranteed_per_bundle q total_cost : Z) : option EdgeCurvePoint :=
  payout ← checked_mul_i64 guaranteed_per_bundle q;
  total_edge ← checked_sub_i64 payout total_cost;
  Some (mkEdgeCurvePoint q total_cost (Z.quot total_edge q) total_edge (ratio_bps total_edge total_cost)).

(** [engine/order_decision/sizing/BundleSizeOptimizer.cpp:581-596] optimize: the edge thresholds. *)
Definition rejected_by_edge (policy : RiskPolicySnapshot) (p : EdgeCurvePoint) : bool :=
  (ep_total_edge_tick p <? rp_min_post_risk_total_edge_tick policy) ||
  (ep_unit_edge_tick p <? rp_min_post_risk_unit_edge_tick policy) ||
  (ep_edge_bps p <? rp_min_edge_bps policy).

(** [engine/order_decision/sizing/BundleSizeOptimizer.cpp:516-612] optimize: evaluate_candidate. *)
Definition evaluate_candidate (legs : list SizeLeg) (policy : RiskPolicySnapshot) (config : OrderDecisionConfig)
    (guaranteed_per_bundle min_bundle_qty : Z) (s : Search) (q : Z) : Search :=
  if q <? min_bundle_qty then s
  else
    match advance_incremental_state legs policy q (se_state s) with
    | PartialFillRisk =>
        mkSearch (se_state s) (se_best s) (se_saw_budget_reject s) true true
    | AdvanceInvalid => s
    | AdvanceOk state =>
        let s := mkSearch state (se_best s) (se_saw_budget_reject s) (se_saw_partial_reject s) (se_candidates_exhausted s) in
        match bundle_total_cost config q (ie_total_leg_cost_tick state) with
        | None => s
        | Some total_cost =>
            if (0 <? rp_max_total_cost_tick policy) && (rp_max_total_cost_tick policy <? total_cost)
            then mkSearch state (se_best s) true (se_saw_partial_reject s) (se_candidates_exhausted s)
            else
              match edge_point guaranteed_per_bundle q total_cost with
              | None => s
              | Some point =>
                  if rejected_by_edge policy point then s
                  else
                    match se_best s with
                    | Some (best, _) =>
                        if better_edge_candidate point best
                        then mkSearch state (Some (point, state)) (se_saw_budget_reject s) (se_saw_partial_reject s)
                               (se_candidates_exhausted s)
                        else s
                    | None =>
                        mkSearch state (Some (point, state)) (se_saw_budget_reject s) (se_saw_partial_reject s)
                          (se_candidates_exhausted s)
                    end
              end
        end
    end.

(** [engine/order_decision/sizing/BundleSizeOptimizer.cpp:617-622] optimize: the loop over cached candidates. *)
Fixpoint evaluate_list (evaluate : Search → Z → Search) (s : Search) (values : list Z) : Search :=
  match values with
  | [] => s
  | q :: rest =>
      let s := evaluate s q in
      if se_candidates_exhausted s then s else evaluate_list evaluate s rest
  end.

(** [engine/order_decision/sizing/BundleSizeOptimizer.cpp:641-653] optimize: the loop over streamed candidates, with the
    candidates seen. *)
Fixpoint evaluate_stream (fuel : nat) (evaluate : Search → Z → Search) (input : SizeCandidateEnumerationInput)
    (c : KWayCandidateCursor) (s : Search) : option (Search * list Z) :=
  match fuel with
  | O => None
  | S fuel' =>
      '(c, q) ← cursor_next fuel input c;
      match q with
      | None => Some (s, [])
      | Some q =>
          let s := evaluate s q in
          if se_candidates_exhausted s then Some (s, [q])
          else '(s, seen) ← evaluate_stream fuel' evaluate input c s; Some (s, q :: seen)
      end
  end.

(** ** The optimiser *)

(** Enough for every loop over candidates: sixteen curves of at most 64 levels, and one step more. *)
Definition cursor_fuel : nat := S kMaxOrderDecisionCandidates.

(** [engine/order_decision/sizing/BundleSizeOptimizer.cpp:470-479] optimize: the key of the candidates. *)
Definition candidate_key (intent : OpportunityIntent) (bundle : CandidateBundle) (legs : list SizeLeg)
    (config : OrderDecisionConfig) : CandidateSetKey :=
  make_candidate_set_key intent bundle
    (depth_breakpoint_signature ((λ l, (sl_curve l, sl_ratio l, sl_depth l)) <$> legs)) config.

(** [engine/order_decision/sizing/BundleSizeOptimizer.cpp:626-640] optimize: the input of the cursor; no budget is baked in. *)
Definition enumeration_input (legs : list SizeLeg) (min_bundle_qty : Z) (config : OrderDecisionConfig)
    : SizeCandidateEnumerationInput :=
  mkSizeCandidateEnumerationInput legs min_bundle_qty (dc_max_bundle_qty config) 0 (dc_use_prefix_vwap config).

(** [engine/order_decision/sizing/BundleSizeOptimizer.cpp:666-686] optimize: why nothing was found. *)
Definition not_found_reason (candidate_count : nat) (s : Search) : OrderDecisionType :=
  if (candidate_count =? 0)%nat then OtRejectNoDepth
  else if se_saw_budget_reject s then OtRejectRiskBudget
  else if se_saw_partial_reject s then OtRejectPartialFillRisk
  else OtRejectLowEdge.

(** [engine/order_decision/sizing/BundleSizeOptimizer.cpp:697-703] optimize: a leg of the result. *)
Definition result_leg (leg : SizeLeg) (e : LegEval) : OrderDecisionLegLite :=
  mkOrderDecisionLegLite 0 (match sl_depth leg with Some v => dv_asset_index v | None => 0 end) Buy (le_qty_lots e)
    (Z.quot (le_cost_tick e) (le_qty_lots e)) 0 (le_worst_price_tick e) (le_cost_tick e).

(** [engine/order_decision/sizing/BundleSizeOptimizer.cpp:666-720] optimize: the result of the search. *)
Definition search_result (leg_count : nat) (legs : list SizeLeg) (guaranteed_per_bundle : Z) (candidate_count : nat) (s : Search)
    : OrderDecisionType + BundleSizeResult :=
  match se_best s with
  | None => inl (not_found_reason candidate_count s)
  | Some (best, state) =>
      if existsb (λ e, (le_qty_lots e <=? 0) || (le_cost_tick e <? 0)) (ie_legs state) then inl OtRejectNoDepth
      else inr (mkBundleSizeResult (ep_bundle_qty best) (guaranteed_per_bundle *i ep_bundle_qty best)
                  (ep_total_cost_tick best) (ep_unit_edge_tick best) (ep_total_edge_tick best) (ep_edge_bps best)
                  leg_count
                  (std_array kMaxOrderDecisionLegs decision_leg_lite0 (zip_with result_leg legs (ie_legs state))))
  end.

(** [engine/order_decision/sizing/BundleSizeOptimizer.cpp:502-505] optimize: what one bundle pays at least. *)
Definition guaranteed_per_bundle (intent : OpportunityIntent) (bundle : CandidateBundle) : Z :=
  if negb (cb_guaranteed_payout_tick bundle =? 0) then cb_guaranteed_payout_tick bundle
  else oi_guaranteed_payout_tick intent.

(** [engine/order_decision/sizing/BundleSizeOptimizer.cpp:507-514] optimize: the captures before the first candidate. *)
Definition new_search (leg_count : nat) : Search :=
  mkSearch (mkIncrementalEvalState 0 (replicate leg_count (mkLegEval 0 0 0 0)) 0) None false false false.

(** [engine/order_decision/sizing/BundleSizeOptimizer.cpp:385-721] optimize: the cache as it is left, and a reason or the
    result; [None] is running out of fuel. *)
Definition optimize (input : BundleSizeInput) : option (option OrderDecisionCache * (OrderDecisionType + BundleSizeResult)) :=
  let cache := bi_cache input in
  match bi_intent input, bi_bundle input, bi_policy input with
  | Some intent, Some bundle, Some policy =>
      let config := bi_config input in
      if (cb_leg_count bundle =? 0)%nat || (kMaxOrderDecisionLegs <? cb_leg_count bundle)%nat
      then Some (cache, inl OtRejectInvalidBundle)
      else if negb (oi_leg_count intent =? 0)%nat && (oi_leg_count intent <? cb_leg_count bundle)%nat
      then Some (cache, inl OtRejectInvalidBundle)
      else
        match prepare_legs intent (bi_depth_views input) 0 (bundle_legs bundle) with
        | inl reason => Some (cache, inl reason)
        | inr legs =>
            let min_bundle_qty := Z.max 1 (dc_min_bundle_qty config) in
            let key := candidate_key intent bundle legs config in
            let guaranteed := guaranteed_per_bundle intent bundle in
            let evaluate := evaluate_candidate legs policy config guaranteed min_bundle_qty in
            let s := new_search (length legs) in
            match cache ≫= λ c, find_candidate_set c key with
            | Some set =>
                match cs_q_values set with
                | [] => Some (cache, inl OtRejectNoDepth)
                | values =>
                    Some (cache, search_result (cb_leg_count bundle) legs guaranteed (length values)
                                   (evaluate_list evaluate s values))
                end
            | None =>
                let input := enumeration_input legs min_bundle_qty config in
                '(s, seen) ← evaluate_stream cursor_fuel evaluate input (new_cursor input) s;
                let streamed := take kMaxOrderDecisionCandidates seen in
                let cache :=
                  match cache with
                  | Some c => if (length streamed =? 0)%nat then Some c else Some (store_candidate_set c key streamed)
                  | None => None
                  end in
                Some (cache, search_result (cb_leg_count bundle) legs guaranteed (length seen) s)
            end
        end
  | _, _, _ => Some (cache, inl OtRejectInvalidBundle)
  end.

(** ** The incremental state prices exactly *)

Fixpoint used_up (levels : list CostCurveLevel) (n : nat) (qty : Z) : Prop :=
  match n, levels with
  | S n, l :: rest => cl_cumulative_qty_lots l <= qty ∧ used_up rest n qty
  | _, _ => True
  end.

Lemma used_up_mono levels n q1 q2 : used_up levels n q1 → q1 <= q2 → used_up levels n q2.
Proof. revert n; induction levels as [|l levels IH]; intros [|n]; cbn; try done. intros [? ?] ?. split; [lia|eauto]. Qed.

Lemma curve_cost_start qty cost levels : curve_ok qty cost levels → curve_cost qty cost levels qty = cost.
Proof.
  destruct levels as [|l levels]; [done|]. cbn. intros (_ & ? & ? & _). rewrite (proj2 (Z.leb_le _ _)) by lia. lia.
Qed.

(** Past the levels that are used up, the rest of the curve prices what is left. *)
Lemma curve_rest qty cost levels n q :
  curve_ok qty cost levels → 0 <= qty <= q → 0 <= cost <= i64_max → used_up levels n q →
  ∃ qb cb, curve_ok qb cb (drop n levels) ∧ 0 <= qb <= q ∧ 0 <= cb <= i64_max ∧
    curve_end qb (drop n levels) = curve_end qty levels ∧
    (∀ y, q <= y → curve_cost qty cost levels y = curve_cost qb cb (drop n levels) y) ∧
    (∀ y, q < y → curve_worst levels y = curve_worst (drop n levels) y).
Proof.
  revert qty cost n; induction levels as [|l levels IH]; intros qty cost n Hok Hq Hc Hu.
  { exists qty, cost. rewrite drop_nil. split_and!; done || lia. }
  destruct n as [|n]. { exists qty, cost. split_and!; done || lia. }
  cbn [used_up curve_ok] in *. destruct Hu as [Hl Hu]. destruct Hok as (Hp & Hs & Hcq & Hcc & Hqm & Hcm & Hok).
  destruct (IH _ _ n Hok ltac:(lia) ltac:(nia) Hu) as (qb & cb & Hb & Hqb & Hcb & He & Hcost & Hworst).
  exists qb, cb. cbn [drop curve_end curve_cost curve_worst]. split_and!; try done; try lia.
  - intros y Hy. rewrite <- Hcost by done. destruct (Z.leb_spec y (cl_cumulative_qty_lots l)); [|done].
    replace y with (cl_cumulative_qty_lots l) by lia. rewrite (curve_cost_start _ _ levels Hok). nia.
  - intros y Hy. rewrite (proj2 (Z.leb_gt _ _)) by lia. auto.
Qed.

Lemma pass_levels_spec qty levels index :
  let index' := pass_levels qty levels index in
  (index <= index')%nat ∧ used_up levels (index' - index) qty ∧
  (∀ l, levels !! (index' - index)%nat = Some l → qty < cl_cumulative_qty_lots l).
Proof.
  revert index; induction levels as [|l levels IH]; intros index; cbn [pass_levels]; cbv zeta.
  { rewrite Nat.sub_diag. split_and!; done. }
  destruct (Z.leb_spec (cl_cumulative_qty_lots l) qty) as [Hle|Hgt].
  - destruct (IH (S index)) as (Hi & Hu & Hl). cbv zeta in *.
    destruct (pass_levels qty levels (S index) - index)%nat as [|k] eqn:E; [lia|].
    replace (pass_levels qty levels (S index) - S index)%nat with k in * by lia.
    split_and!; [lia|done|done].
  - rewrite Nat.sub_diag. split_and!; [done|done|]. intros ? [= <-]. done.
Qed.

Lemma used_up_app levels n m qty : used_up levels n qty → used_up (drop n levels) m qty → used_up levels (n + m) qty.
Proof.
  revert levels; induction n as [|n IH]; intros levels; [done|]. destruct levels as [|l levels]; [done|].
  cbn. intros [? ?] ?. auto.
Qed.

(** Buying from level to level costs the difference, and fails only when the total leaves 64 bits. *)
Lemma take_levels_spec target rest index qb cb qty cost total worst :
  curve_ok qb cb rest → 0 <= qb <= qty → qty <= target <= curve_end qb rest → curve_end qb rest <= i64_max →
  0 <= cb <= i64_max → cost = curve_cost qb cb rest qty → 0 <= cost <= total → total <= i64_max →
  (qty < target → match rest with [] => False | l :: _ => qty < cl_cumulative_qty_lots l end) →
  let total' := total + (curve_cost qb cb rest target - cost) in
  if bool_decide (total' <= i64_max) then
    ∃ index', take_levels target rest index qty cost total worst =
      Some (mkLegEval index' target (curve_cost qb cb rest target)
              (if qty <? target then curve_worst rest target else worst), total') ∧
      (index <= index')%nat ∧ used_up rest (index' - index) target
  else take_levels target rest index qty cost total worst = None.
Proof.
  revert index qb cb qty cost total worst; induction rest as [|l rest IH];
    intros index qb cb qty cost total worst Hok Hqb Hqt Hend Hcb Hcost Hc Ht Hlive; cbv zeta.
  { cbn in *. replace target with qty in * by lia. rewrite Z.leb_refl, Z.ltb_irrefl, Hcost, bool_decide_true by lia.
    exists index. rewrite Nat.sub_diag. split_and!; [do 2 f_equal; lia|done|done]. }
  cbn [take_levels]. destruct (Z.leb_spec target qty) as [Hge|Hlt].
  { replace target with qty in * by lia. rewrite <- Hcost, Z.ltb_irrefl, bool_decide_true by lia.
    exists index. rewrite Nat.sub_diag. split_and!; [do 2 f_equal; lia|done|done]. }
  rewrite (proj2 (Z.ltb_lt _ _) Hlt). specialize (Hlive Hlt).
  pose proof Hok as (Hp & Hs & Hcq & Hcc & Hqm & Hcm & Hok'). cbn [curve_end] in *.
  assert (Hcost' : cost = cb + cl_price_tick l * (qty - qb)).
  { rewrite Hcost. cbn [curve_cost]. by rewrite (proj2 (Z.leb_le _ _)) by lia. }
  rewrite !wrap_i64_id by rlia.
  rewrite !(proj2 (Z.leb_gt _ 0)) by lia. cbn [orb].
  set (taken := Z.min (cl_cumulative_qty_lots l - qty) (target - qty)).
  assert (Htk : 0 < taken ∧ taken <= cl_cumulative_qty_lots l - qty ∧ taken <= target - qty) by (subst taken; lia).
  assert (Hd : 0 < cl_price_tick l * taken) by nia.
  assert (Hdc : cost + cl_price_tick l * taken <= cl_cumulative_cost_tick l) by nia.
  pose proof (curve_end_ge _ _ _ Hok') as Hge.
  assert (Hstep : curve_cost qb cb (l :: rest) target >= cost + cl_price_tick l * taken).
  { cbn [curve_cost]. destruct (Z.leb_spec target (cl_cumulative_qty_lots l)).
    - nia.
    - pose proof (curve_cost_bounds _ _ _ target Hok' ltac:(lia) ltac:(lia)). lia. }
  destruct (checked_mul_i64 _ _) as [d|] eqn:E1; [apply checked_mul_i64_Some in E1 as [_ ->] | apply checked_mul_i64_None in E1; rlia].
  destruct (checked_add_i64 cost _) as [c2|] eqn:E2; [apply checked_add_i64_Some in E2 as [_ ->] | apply checked_add_i64_None in E2; rlia].
  destruct (checked_add_i64 total _) as [t2|] eqn:E3.
  2:{ apply checked_add_i64_None in E3. rewrite bool_decide_false; [done|]. rlia. }
  apply checked_add_i64_Some in E3 as [Ht2 ->].
  destruct (Z.leb_spec (cl_cumulative_qty_lots l) (qty + taken)) as [Hfull|Hpart].
  - assert (Heq : qty + taken = cl_cumulative_qty_lots l) by lia.
    assert (Hcc2 : cost + cl_price_tick l * taken = cl_cumulative_cost_tick l) by nia.
    assert (Hcurve : curve_cost qb cb (l :: rest) target =
      curve_cost (cl_cumulative_qty_lots l) (cl_cumulative_cost_tick l) rest target).
    { cbn [curve_cost]. destruct (Z.leb_spec target (cl_cumulative_qty_lots l)); [|done].
      replace target with (cl_cumulative_qty_lots l) by lia. rewrite (curve_cost_start _ _ _ Hok'). nia. }
    rewrite Hcurve, Heq, Hcc2.
    specialize (IH (S index) _ _ (cl_cumulative_qty_lots l) (cl_cumulative_cost_tick l) (total + cl_price_tick l * taken)
      (cl_price_tick l) Hok' ltac:(lia) ltac:(lia) ltac:(lia) ltac:(lia)).
    rewrite (curve_cost_start _ _ _ Hok') in IH. specialize (IH eq_refl ltac:(lia) ltac:(rlia)).
    cbv zeta in IH. replace (total + cl_price_tick l * taken + (curve_cost _ _ rest target - cl_cumulative_cost_tick l))
      with (total + (curve_cost (cl_cumulative_qty_lots l) (cl_cumulative_cost_tick l) rest target - cost)) in IH by lia.
    assert (Hlive' : cl_cumulative_qty_lots l < target → match rest with [] => False | x :: _ => cl_cumulative_qty_lots l < cl_cumulative_qty_lots x end).
    { intros Hx. destruct rest as [|x rest]; [cbn in Hqt; lia|]. cbn in Hok'. lia. }
    specialize (IH Hlive'). case_bool_decide; [|done].
    destruct IH as (index' & -> & Hi & Hu). exists index'. split_and!; [|lia|].
    + do 3 f_equal. cbn [curve_worst]. destruct (Z.ltb_spec (cl_cumulative_qty_lots l) target), (Z.leb_spec target (cl_cumulative_qty_lots l)); lia || done.
    + replace (index' - index)%nat with (S (index' - S index)) by lia. cbn. split; [lia|done].
  - assert (Heq : qty + taken = target) by (subst taken; lia).
    assert (Hcurve : curve_cost qb cb (l :: rest) target = cost + cl_price_tick l * taken).
    { cbn [curve_cost]. rewrite (proj2 (Z.leb_le _ _)) by lia. nia. }
    rewrite Hcurve, bool_decide_true by rlia. exists index. rewrite Nat.sub_diag, Heq. cbn [curve_worst].
    rewrite (proj2 (Z.leb_le _ _)) by lia. split_and!; [do 2 f_equal; lia|done|done].
Qed.

(** ** The reference: every size priced from scratch *)

Definition leg_cost_at (leg : SizeLeg) (q : Z) : Z := cost_of (sl_curve leg) (sl_ratio leg * q).
Definition bundle_cost (legs : list SizeLeg) (q : Z) : Z := sum_list_Z (λ leg, leg_cost_at leg q) legs.

(** The book of a leg is deep enough for a size, margin included. *)
Definition leg_margin (bps : Z) (leg : SizeLeg) (q : Z) : bool :=
  match checked_mul_i64 (sl_ratio leg) q with
  | None => false
  | Some leg_qty => ceil_ratio_bps leg_qty bps <=? cu_total_qty_lots (sl_curve leg)
  end.

(** The point of a size that every leg can fill and the policy allows. *)
Definition size_point (legs : list SizeLeg) (policy : RiskPolicySnapshot) (config : OrderDecisionConfig) (guaranteed q : Z)
    : option EdgeCurvePoint :=
  if forallb (λ leg, leg_margin (rp_min_depth_margin_bps policy) leg q) legs && (bundle_cost legs q <=? i64_max) then
    total_cost ← bundle_total_cost config q (bundle_cost legs q);
    if (0 <? rp_max_total_cost_tick policy) && (rp_max_total_cost_tick policy <? total_cost) then None
    else
      point ← edge_point guaranteed q total_cost;
      if rejected_by_edge policy point then None else Some point
  else None.

(** ** Advancing the state *)

(** A leg ready to be sized. *)
Definition size_leg_ok (leg : SizeLeg) : Prop := leg_wf leg ∧ 0 < sl_ratio leg.

Record eval_ok (q : Z) (leg : SizeLeg) (e : LegEval) : Prop := {
  eo_qty : le_qty_lots e = sl_ratio leg * q;
  eo_fits : sl_ratio leg * q <= cu_total_qty_lots (sl_curve leg);
  eo_cost : le_cost_tick e = leg_cost_at leg q;
  eo_used : used_up (cu_levels (sl_curve leg)) (le_level_index e) (le_qty_lots e);
  eo_worst : 0 < q → le_worst_price_tick e = worst_of (sl_curve leg) (sl_ratio leg * q)
}.

Lemma ceil_ratio_ge value bps : value <= i64_max → value <= ceil_ratio_bps value bps.
Proof.
  intros Hv. unfold ceil_ratio_bps. destruct (Z.leb_spec value 0); [done|]. destruct (Z.leb_spec bps 10000); [done|]. cbn [orb].
  destruct (checked_mul_i64 value bps) as [s|] eqn:E; [|done]. apply checked_mul_i64_Some in E as [Hs ->].
  unfold ceil_div_positive. cbn [Z.leb Z.compare]. rewrite Z.quot_div_nonneg by nia.
  assert (value <= (value * bps + 10000 - 1) / 10000) by (apply Z.div_le_lower_bound; nia).
  rewrite (proj2 (Z.leb_gt 10000 0)) by lia. destruct (Z.ltb_spec i64_max ((value * bps + 10000 - 1) / 10000)); [lia|].
  rewrite wrap_i64_id; [done|]. rlia.
Qed.

Lemma leg_margin_fits bps leg q :
  leg_margin bps leg q = true → in_i64 (sl_ratio leg * q) ∧ sl_ratio leg * q <= cu_total_qty_lots (sl_curve leg).
Proof.
  unfold leg_margin. destruct (checked_mul_i64 _ _) as [v|] eqn:E; [|done]. apply checked_mul_i64_Some in E as [Hv ->].
  intros H%Z.leb_le. pose proof (ceil_ratio_ge (sl_ratio leg * q) bps). split; [done|]. rlia.
Qed.

Lemma leg_cost_mono leg q1 q2 :
  size_leg_ok leg → 0 <= q1 <= q2 → sl_ratio leg * q2 <= cu_total_qty_lots (sl_curve leg) →
  0 <= leg_cost_at leg q1 <= leg_cost_at leg q2 ∧ leg_cost_at leg q2 <= i64_max.
Proof.
  intros [[[Hok Ht _] _] Hr] Hq Hf. unfold leg_cost_at, cost_of. rewrite Ht in Hf.
  pose proof (curve_cost_bounds 0 0 _ (sl_ratio leg * q1) Hok ltac:(lia) ltac:(nia)).
  pose proof (curve_cost_bounds 0 0 _ (sl_ratio leg * q2) Hok ltac:(lia) ltac:(nia)).
  pose proof (curve_cost_mono 0 0 _ (sl_ratio leg * q1) (sl_ratio leg * q2) Hok ltac:(lia) ltac:(nia) ltac:(nia)). nia.
Qed.

Lemma advance_leg_spec leg q0 q e total bps :
  size_leg_ok leg → eval_ok q0 leg e → 0 <= q0 <= q → leg_margin bps leg q = true →
  le_cost_tick e <= total <= i64_max →
  let total' := total + (leg_cost_at leg q - leg_cost_at leg q0) in
  if bool_decide (total' <= i64_max)
  then ∃ e', advance_incremental_leg leg q0 q e total = Some (e', total') ∧ eval_ok q leg e'
  else advance_incremental_leg leg q0 q e total = None.
Proof.
  intros Hleg [Heq Hef Hec Heu Hew] Hq [Hv Hfit]%leg_margin_fits Htot. cbv zeta.
  pose proof (leg_cost_mono leg q0 q Hleg Hq Hfit) as [Hc0 Hcm].
  destruct Hleg as [[[Hok Ht Hsome] Hmax] Hr].
  unfold advance_incremental_leg. rewrite (proj2 (Z.leb_gt _ _)), (proj2 (Z.ltb_ge _ _)) by lia. cbn [orb].
  destruct (checked_mul_i64 _ _) as [t|] eqn:E; [apply checked_mul_i64_Some in E as [_ ->] | by apply checked_mul_i64_None in E].
  rewrite !(proj2 (Z.ltb_ge _ _)) by (rewrite ?Heq; nia). cbn [orb].
  set (levels := cu_levels (sl_curve leg)) in *.
  destruct (pass_levels_spec (le_qty_lots e) (drop (le_level_index e) levels) (le_level_index e)) as (Hi & Hu & Hl).
  cbv zeta in *. set (index := pass_levels _ _ _) in *.
  assert (Hused : used_up levels index (le_qty_lots e)).
  { replace index with (le_level_index e + (index - le_level_index e))%nat by lia. by apply used_up_app. }
  destruct (curve_rest 0 0 levels index (le_qty_lots e) Hok) as (qb & cb & Hokb & Hqb & Hcb & Hend & Hcost & Hworst);
    [rewrite Heq; nia|lia|done|].
  assert (Hcurve : le_cost_tick e = curve_cost qb cb (drop index levels) (le_qty_lots e)).
  { rewrite Hec, <- Hcost by lia. unfold leg_cost_at, cost_of. by rewrite Heq. }
  assert (Hmono : 0 <= sl_ratio leg * q0 <= sl_ratio leg * q) by nia.
  pose proof (take_levels_spec (sl_ratio leg * q) (drop index levels) index qb cb (le_qty_lots e) (le_cost_tick e) total
    (le_worst_price_tick e) Hokb ltac:(lia) ltac:(rewrite Hend, Heq; lia) ltac:(rewrite Hend; lia) Hcb Hcurve) as Htake.
  specialize (Htake ltac:(rewrite Hec; lia) ltac:(lia)).
  assert (Hlive : le_qty_lots e < sl_ratio leg * q →
    match drop index levels with [] => False | l :: _ => le_qty_lots e < cl_cumulative_qty_lots l end).
  { intros Hlt. rewrite lookup_drop in Hl. replace (le_level_index e + (index - le_level_index e))%nat with index in Hl by lia.
    destruct (drop index levels) as [|l ls] eqn:E.
    - cbn in Hend. lia.
    - apply (Hl l). rewrite <- (Nat.add_0_r index), <- lookup_drop, E. done. }
  specialize (Htake Hlive). cbv zeta in Htake.
  rewrite <- (Hcost (sl_ratio leg * q)) in Htake by nia. change (curve_cost 0 0 levels (sl_ratio leg * q)) with (leg_cost_at leg q) in Htake.
  rewrite Hec in Htake. case_bool_decide; [|by rewrite Hec].
  destruct Htake as (index' & Hrun & Hi' & Hu'). rewrite Hec, Hrun. eexists. split; [reflexivity|].
  split; cbn [le_qty_lots le_cost_tick le_level_index le_worst_price_tick]; try done.
  - fold levels. replace index' with (index + (index' - index))%nat by lia. apply used_up_app; [|done].
    eapply used_up_mono; [exact Hused|]. rewrite Heq. nia.
  - intros Hpos. unfold worst_of. fold levels. rewrite Heq. destruct (Z.ltb_spec (sl_ratio leg * q0) (sl_ratio leg * q)).
    + rewrite Hworst; [done|]. rewrite Heq. lia.
    + assert (q0 = q) as -> by nia. apply Hew. done.
Qed.

Definition margins (bps : Z) (legs : list SizeLeg) (q : Z) : bool := forallb (λ leg, leg_margin bps leg q) legs.

Lemma bundle_cost_mono bps legs q1 q2 :
  Forall size_leg_ok legs → 0 <= q1 <= q2 → margins bps legs q2 = true →
  0 <= bundle_cost legs q1 <= bundle_cost legs q2.
Proof.
  intros Hall Hq. unfold margins, bundle_cost. induction Hall as [|leg legs Hleg Hall IH]; cbn; [lia|].
  intros [Hm Hms]%andb_true_iff. apply leg_margin_fits in Hm as [_ Hfit].
  pose proof (leg_cost_mono leg q1 q2 Hleg Hq Hfit). specialize (IH Hms). lia.
Qed.

Lemma advance_legs_spec bps q0 q legs evals total :
  Forall size_leg_ok legs → Forall2 (eval_ok q0) legs evals → 0 <= q0 <= q →
  bundle_cost legs q0 <= total <= i64_max →
  let total' := total + (bundle_cost legs q - bundle_cost legs q0) in
  match advance_legs bps q0 q legs evals total with
  | AdvanceOk (evals', t) =>
      margins bps legs q = true ∧ total' <= i64_max ∧ t = total' ∧ Forall2 (eval_ok q) legs evals'
  | PartialFillRisk =>
      ∃ leg, leg ∈ legs ∧ in_i64 (sl_ratio leg * q) ∧ cu_total_qty_lots (sl_curve leg) < ceil_ratio_bps (sl_ratio leg * q) bps
  | AdvanceInvalid => ¬ (margins bps legs q = true ∧ total' <= i64_max)
  end.
Proof.
  intros Hall Hev Hq. revert total. induction Hev as [|leg e legs evals He Hev IH]; intros total Htot; cbn [advance_legs]; cbv zeta.
  { unfold margins, bundle_cost in *; cbn in *. split_and!; [done|lia|lia|constructor]. }
  apply Forall_cons in Hall as [Hleg Hall]. cbn [bundle_cost sum_list_Z] in *.
  assert (Hnn : 0 <= bundle_cost legs q0).
  { apply sum_list_Z_nonneg. intros x Hx. rewrite Forall_forall in Hall.
    apply list_elem_of_lookup in Hx as [i Hi]. destruct (Forall2_lookup_l _ _ _ _ _ Hev Hi) as (ex & _ & Hex).
    apply (leg_cost_mono x q0 q0); [apply Hall; by eapply list_elem_of_lookup_2|lia|apply Hex]. }
  fold (bundle_cost legs q0) in *. fold (bundle_cost legs q) in *.
  unfold margins; cbn [forallb]. fold (margins bps legs q). unfold leg_margin.
  destruct (checked_mul_i64 (sl_ratio leg) q) as [v|] eqn:E.
  2:{ by intros [[=] _]. }
  pose proof E as [Hv ->]%checked_mul_i64_Some.
  destruct (Z.ltb_spec (cu_total_qty_lots (sl_curve leg)) (ceil_ratio_bps (sl_ratio leg * q) bps)) as [Hlow|Hdeep].
  { exists leg. split; [left|done]. }
  rewrite (proj2 (Z.leb_le _ _)) by done. cbn [andb].
  assert (Hm : leg_margin bps leg q = true) by (unfold leg_margin; rewrite E; by apply Z.leb_le).
  pose proof (eo_cost _ _ _ He) as Hcost.
  pose proof (advance_leg_spec leg q0 q e total bps Hleg He Hq Hm ltac:(lia)) as Hadv. cbv zeta in Hadv.
  apply leg_margin_fits in Hm as [_ Hfit]. pose proof (leg_cost_mono leg q0 q Hleg Hq Hfit).
  case_bool_decide as Hle.
  2:{ rewrite Hadv. intros [Hms Ht]. pose proof (bundle_cost_mono bps legs q0 q Hall Hq Hms). lia. }
  destruct Hadv as (e' & -> & He'). specialize (IH Hall (total + (leg_cost_at leg q - leg_cost_at leg q0)) ltac:(lia)).
  cbv zeta in IH. destruct (advance_legs bps q0 q legs evals _) as [[evals' t]| |].
  - destruct IH as (Hms & Ht & -> & Hev'). split_and!; [done|lia|lia|by constructor].
  - destruct IH as (l & Hl & ?). exists l. split; [by right|done].
  - intros [Hms Ht]. apply IH. split; [done|lia].
Qed.

(** The invariant of the incremental state. *)
Record state_ok (legs : list SizeLeg) (st : IncrementalEvalState) : Prop := {
  so_q : 0 <= ie_current_q st;
  so_legs : Forall2 (eval_ok (ie_current_q st)) legs (ie_legs st);
  so_total : ie_total_leg_cost_tick st = bundle_cost legs (ie_current_q st);
  so_max : bundle_cost legs (ie_current_q st) <= i64_max
}.

Lemma new_state_ok legs :
  Forall size_leg_ok legs → state_ok legs (mkIncrementalEvalState 0 (replicate (length legs) (mkLegEval 0 0 0 0)) 0).
Proof.
  intros Hall. assert (Hz : bundle_cost legs 0 = 0).
  { unfold bundle_cost. induction Hall as [|leg legs [[Hw _] _] Hall IH]; [done|]. cbn. rewrite IH.
    unfold leg_cost_at. rewrite Z.mul_0_r, cost_of_0 by done. done. }
  split; cbn; [done| |done|lia]. clear Hz.
  induction Hall as [|leg legs [[Hw _] _] Hall IH]; cbn; constructor; [|done].
  split; cbn; rewrite ?Z.mul_0_r; try done; try lia.
  - destruct Hw; lia.
  - unfold leg_cost_at. by rewrite Z.mul_0_r, cost_of_0.
  - by destruct (cu_levels (sl_curve leg)).
Qed.

(** The sizes are priced exactly, or the reason they cannot be is the reference's. *)
Lemma advance_state_spec legs policy q st :
  Forall size_leg_ok legs → state_ok legs st → ie_current_q st <= q →
  match advance_incremental_state legs policy q st with
  | AdvanceOk st' => state_ok legs st' ∧ ie_current_q st' = q ∧ margins (rp_min_depth_margin_bps policy) legs q = true
  | PartialFillRisk =>
      ∃ leg, leg ∈ legs ∧ in_i64 (sl_ratio leg * q) ∧
        cu_total_qty_lots (sl_curve leg) < ceil_ratio_bps (sl_ratio leg * q) (rp_min_depth_margin_bps policy)
  | AdvanceInvalid =>
      margins (rp_min_depth_margin_bps policy) legs q && (bundle_cost legs q <=? i64_max) = false
  end.
Proof.
  intros Hall [Hq0 Hlegs Htot Hmax] Hq. unfold advance_incremental_state. rewrite (proj2 (Z.ltb_ge _ _)) by done.
  pose proof (advance_legs_spec (rp_min_depth_margin_bps policy) (ie_current_q st) q legs (ie_legs st)
    (ie_total_leg_cost_tick st) Hall Hlegs ltac:(lia) ltac:(lia)) as H. cbv zeta in H.
  rewrite Htot in *. replace (bundle_cost legs (ie_current_q st) + (bundle_cost legs q - bundle_cost legs (ie_current_q st)))
    with (bundle_cost legs q) in H by lia.
  destruct (advance_legs _ _ _ _ _ _) as [[evals t]| |]; [|done|].
  - destruct H as (Hm & Hle & -> & Hev). split; [|done]. split; cbn; [lia|done|done|done].
  - apply not_true_is_false. intros [Hm Hle%Z.leb_le]%andb_true_iff. by apply H.
Qed.

(** ** The search keeps the best size seen *)

Lemma better_irreflexive a : better_edge_candidate a a = false.
Proof. unfold better_edge_candidate. rewrite !Z.eqb_refl. cbn. apply Z.ltb_irrefl. Qed.

Lemma better_improves a b c :
  better_edge_candidate b a = true → better_edge_candidate c a = false → better_edge_candidate c b = false.
Proof.
  destruct a as [q1 c1 u1 e1 b1], b as [q2 c2 u2 e2 b2], c as [q3 c3 u3 e3 b3].
  unfold better_edge_candidate; cbn.
  destruct (Z.eqb_spec e2 e1), (Z.eqb_spec e3 e1), (Z.eqb_spec e3 e2); cbn; rewrite ?Z.ltb_lt, ?Z.ltb_ge; try lia.
  destruct (Z.eqb_spec b2 b1), (Z.eqb_spec b3 b1), (Z.eqb_spec b3 b2); cbn; rewrite ?Z.ltb_lt, ?Z.ltb_ge; try lia.
  destruct (Z.eqb_spec c2 c1), (Z.eqb_spec c3 c1), (Z.eqb_spec c3 c2); cbn; rewrite ?Z.ltb_lt, ?Z.ltb_ge; lia.
Qed.

Section search.
Context (legs : list SizeLeg) (policy : RiskPolicySnapshot) (config : OrderDecisionConfig) (guaranteed min_bundle_qty : Z).
Context (Hlegs : Forall size_leg_ok legs).
(** The margins of every leg can be computed in 64 bits. *)
Context (Hbps : Forall (λ leg, cu_total_qty_lots (sl_curve leg) * rp_min_depth_margin_bps policy <= i64_max) legs).

Let point := size_point legs policy config guaranteed.
Let evaluate := evaluate_candidate legs policy config guaranteed min_bundle_qty.

(** The best of a set of sizes. *)
Definition best_of (seen : Z → Prop) (best : option (EdgeCurvePoint * IncrementalEvalState)) : Prop :=
  match best with
  | None => ∀ q, seen q → point q = None
  | Some (p, st) =>
      seen (ep_bundle_qty p) ∧ point (ep_bundle_qty p) = Some p ∧ state_ok legs st ∧ ie_current_q st = ep_bundle_qty p ∧
      ∀ q p', seen q → point q = Some p' → better_edge_candidate p' p = false
  end.

Lemma best_of_ext (P Q : Z → Prop) best : (∀ q, P q ↔ Q q) → best_of P best → best_of Q best.
Proof.
  intros HPQ. destruct best as [[p st]|]; cbn.
  - intros (? & ? & ? & ? & Hall). split_and!; try done; [by apply HPQ|]. intros q p' Hq. by apply (Hall q), HPQ.
  - intros Hall q Hq. by apply Hall, HPQ.
Qed.

Lemma size_point_qty q p : point q = Some p → ep_bundle_qty p = q ∧ margins (rp_min_depth_margin_bps policy) legs q = true.
Proof.
  unfold point, size_point. fold (margins (rp_min_depth_margin_bps policy) legs q). intros H.
  destruct (margins _ _ _); [|done]. cbn [andb] in H. step_if_in H; [|done].
  destruct (bundle_total_cost config q _) as [t|]; [|done]. cbn [mbind option_bind] in H. step_if_in H; [done|].
  unfold edge_point in H. destruct (checked_mul_i64 _ _); [|done]. cbn [mbind option_bind] in H.
  destruct (checked_sub_i64 _ _); [|done]. cbn [mbind option_bind] in H. step_if_in H; [done|]. by injection H as <-.
Qed.

(** A size that some leg is not deep enough for. *)
Definition too_deep (q : Z) : Prop :=
  ∃ leg, leg ∈ legs ∧ in_i64 (sl_ratio leg * q) ∧
    cu_total_qty_lots (sl_curve leg) < ceil_ratio_bps (sl_ratio leg * q) (rp_min_depth_margin_bps policy).

(** From such a size on, no larger one can be bought. *)
Lemma too_deep_up q q' : 0 < q → too_deep q → q <= q' → point q' = None.
Proof.
  intros Hpos (leg & Hleg & Hv & Hdeep) Hq. unfold point, size_point.
  destruct (forallb _ legs) eqn:Hm; [exfalso|done].
  pose proof (proj1 (forallb_true_elem _ _) Hm leg Hleg) as Hl. cbv beta in Hl.
  pose proof (leg_margin_fits _ _ _ Hl) as [Hv' Hfit]. unfold leg_margin in Hl.
  rewrite Forall_forall in Hbps, Hlegs. specialize (Hbps _ Hleg). destruct (Hlegs _ Hleg) as [_ Hr].
  destruct (checked_mul_i64 _ _) as [v|] eqn:E; [|done]. apply checked_mul_i64_Some in E as [_ ->].
  apply Z.leb_le in Hl. cut (ceil_ratio_bps (sl_ratio leg * q) (rp_min_depth_margin_bps policy) <=
    ceil_ratio_bps (sl_ratio leg * q') (rp_min_depth_margin_bps policy)); [lia|].
  assert (Hle : 0 < sl_ratio leg * q <= sl_ratio leg * q') by nia.
  unfold ceil_ratio_bps. rewrite !(proj2 (Z.leb_gt _ 0)) by lia. cbn [orb].
  destruct (Z.leb_spec (rp_min_depth_margin_bps policy) 10000) as [|Hb]; [lia|].
  set (bps := rp_min_depth_margin_bps policy) in *.
  assert (Hprod : 0 <= sl_ratio leg * q * bps <= sl_ratio leg * q' * bps ∧ sl_ratio leg * q' * bps <= i64_max) by nia.
  rewrite !checked_mul_i64_ok by rlia.
  unfold ceil_div_positive. rewrite (proj2 (Z.leb_gt 10000 0)), !Z.quot_div_nonneg by lia.
  assert (Hd : (sl_ratio leg * q * bps + 10000 - 1) / 10000 <= (sl_ratio leg * q' * bps + 10000 - 1) / 10000)
    by (apply Z.div_le_mono; lia).
  assert (0 <= (sl_ratio leg * q * bps + 10000 - 1) / 10000) by (apply Z.div_pos; lia).
  assert ((sl_ratio leg * q' * bps + 10000 - 1) / 10000 <= i64_max) by (apply Z.div_le_upper_bound; lia).
  rewrite !(proj2 (Z.ltb_ge _ _)), !wrap_i64_id by rlia. done.
Qed.

Definition keep (p : EdgeCurvePoint) (st : IncrementalEvalState) (best : option (EdgeCurvePoint * IncrementalEvalState))
    : option (EdgeCurvePoint * IncrementalEvalState) :=
  match best with
  | Some (b, _) => if better_edge_candidate p b then Some (p, st) else best
  | None => Some (p, st)
  end.

(** One more size: the search stops at a size that is too deep; otherwise the
    state prices it, and it is kept when it is admissible and better. *)
Lemma evaluate_spec s q :
  state_ok legs (se_state s) → ie_current_q (se_state s) <= q → min_bundle_qty <= q → 0 < q →
  let s' := evaluate s q in
  (se_candidates_exhausted s' = true ∧ se_best s' = se_best s ∧ point q = None ∧ too_deep q) ∨
  (se_candidates_exhausted s' = se_candidates_exhausted s ∧ state_ok legs (se_state s') ∧ ie_current_q (se_state s') <= q ∧
   match point q with
   | None => se_best s' = se_best s
   | Some p => ie_current_q (se_state s') = q ∧ se_best s' = keep p (se_state s') (se_best s)
   end).
Proof.
  intros Hst Hq Hmin Hpos. cbv zeta. unfold evaluate, evaluate_candidate. rewrite (proj2 (Z.ltb_ge _ _)) by done.
  pose proof (advance_state_spec legs policy q (se_state s) Hlegs Hst Hq) as Hadv.
  destruct (advance_incremental_state _ _ _ _) as [st| |].
  - destruct Hadv as ([H0 Hev Htot Hmax] & Hcur & Hm). right. unfold point, size_point.
    fold (margins (rp_min_depth_margin_bps policy) legs q). rewrite Hm. rewrite Hcur in Htot, Hmax.
    rewrite (proj2 (Z.leb_le _ _)) by done. cbn [andb]. rewrite <- Htot.
    assert (Hok : state_ok legs st) by (split; [done|done|by rewrite Hcur|by rewrite Hcur]).
    destruct (bundle_total_cost config q _) as [total|]; cbn [mbind option_bind]; [|split_and!; cbn; done || lia].
    step_if; [split_and!; cbn; done || lia|].
    destruct (edge_point guaranteed q total) as [p|]; cbn [mbind option_bind]; [|split_and!; cbn; done || lia].
    step_if; [split_and!; cbn; done || lia|]. cbn [se_best se_state keep].
    destruct (se_best s) as [[b sb]|]; [|split_and!; cbn; done || lia].
    cbn [keep]. destruct (better_edge_candidate p b); split_and!; cbn; done || lia.
  - left. assert (too_deep q) by exact Hadv. split_and!; try done. by apply (too_deep_up q q).
  - right. unfold point, size_point. fold (margins (rp_min_depth_margin_bps policy) legs q). rewrite Hadv. by split_and!.
Qed.

Lemma best_of_skip seen best q : best_of seen best → point q = None → best_of (λ x, seen x ∨ x = q) best.
Proof.
  destruct best as [[p st]|]; cbn.
  - intros (Hs & Hp & Hst & Hc & Hall) Hn. split_and!; [by left|done..|].
    intros x p' [Hx| ->] Hx'; [eauto|congruence].
  - intros Hall Hn x [Hx| ->]; auto.
Qed.

Lemma best_of_keep seen best q p st :
  best_of seen best → point q = Some p → state_ok legs st → ie_current_q st = q →
  best_of (λ x, seen x ∨ x = q) (keep p st best).
Proof.
  intros Hbest Hp Hst Hc. destruct (size_point_qty q p Hp) as [Hpq _].
  assert (Hnew : (∀ x p', seen x → point x = Some p' → better_edge_candidate p' p = false) →
    best_of (λ x, seen x ∨ x = q) (Some (p, st))).
  { intros Hall. cbn. rewrite Hpq. split_and!; [by right|done..|]. intros x p' [Hx| ->] Hx'; [eauto|].
    rewrite Hp in Hx'. injection Hx' as <-. apply better_irreflexive. }
  unfold keep. destruct best as [[b sb]|]; cbn in Hbest.
  - destruct Hbest as (Hs & Hb & Hsb & Hcb & Hall). destruct (better_edge_candidate p b) eqn:E.
    + apply Hnew. intros x p' Hx Hx'. by eapply better_improves; [exact E|eauto].
    + cbn. split_and!; [by left|done..|]. intros x p' [Hx| ->] Hx'; [eauto|]. congruence.
  - apply Hnew. intros x p' Hx Hx'. rewrite Hbest in Hx' by done. done.
Qed.

(** The search over a list of increasing sizes ends with the best of them,
    though it may stop before the end. *)
Lemma evaluate_list_spec seen s values :
  StronglySorted Z.lt values → (∀ q, q ∈ values → min_bundle_qty <= q ∧ 0 < q ∧ ie_current_q (se_state s) <= q) →
  state_ok legs (se_state s) → se_candidates_exhausted s = false → best_of seen (se_best s) →
  best_of (λ q, seen q ∨ q ∈ values) (se_best (evaluate_list evaluate s values)).
Proof.
  intros Hs. revert seen s. induction Hs as [|q values Hs IH Hlt]; intros seen s Hr Hst Hex Hbest; cbn [evaluate_list].
  { eapply (best_of_ext seen); [|done]. intros x. split; [by left|]. intros [?|Hx]; [done|by apply not_elem_of_nil in Hx]. }
  destruct (Hr q ltac:(left)) as (Hmin & Hpos & Hcur).
  pose proof (evaluate_spec s q Hst Hcur Hmin Hpos) as Hev. cbv zeta in Hev.
  assert (Hbest' : best_of (λ x, seen x ∨ x = q) (se_best (evaluate s q))).
  { destruct Hev as [(_ & -> & Hn & _)|(_ & Hst' & _ & Hp)]; [by apply best_of_skip|].
    destruct (point q) as [p|] eqn:E; [|rewrite Hp; by apply best_of_skip].
    destruct Hp as [Hc ->]. by apply best_of_keep. }
  destruct Hev as [(Hx & _ & _ & Hdeep)|(Hx & Hst' & Hc' & _)].
  - rewrite Hx. rewrite Forall_forall in Hlt.
    assert (Hrest : ∀ x, x ∈ values → point x = None) by (intros x Hxv; apply (too_deep_up q); [done|done|specialize (Hlt _ Hxv); lia]).
    destruct (se_best (evaluate s q)) as [[p st]|]; cbn in *.
    + destruct Hbest' as (Hs' & Hp & Hst' & Hc & Hall). split_and!; try done; [rewrite elem_of_cons; tauto|].
      intros x p' [Hsx|[->|Hxv]%elem_of_cons] Hpx; [eapply Hall; [by left|done]|eapply Hall; [by right|done]|].
      rewrite Hrest in Hpx by done. done.
    + intros x [Hsx|[->|Hxv]%elem_of_cons]; auto.
  - rewrite Hx, Hex. rewrite Forall_forall in Hlt.
    eapply (best_of_ext (λ x, (seen x ∨ x = q) ∨ x ∈ values)); [intros x; rewrite elem_of_cons; tauto|].
    apply IH; [|done|congruence|done].
    intros x Hxv. destruct (Hr x ltac:(by right)) as (? & ? & _). specialize (Hlt _ Hxv). split_and!; [done|done|lia].
Qed.
End search.

(** ** Streaming, and the legs as they are prepared *)

Lemma stream_list fuel evaluate input c s values :
  enumerate_loop fuel input c = Some values →
  ∃ seen, evaluate_stream fuel evaluate input c s = Some (evaluate_list evaluate s values, seen) ∧
    seen `prefix_of` values ∧ (values ≠ [] → seen ≠ []).
Proof.
  revert c s values; induction fuel as [|fuel IH]; intros c s values; [done|]. cbn [enumerate_loop evaluate_stream].
  destruct (cursor_next (S fuel) input c) as [[c' [q|]]|]; cbn [mbind option_bind]; [|intros [= <-]|done].
  - destruct (enumerate_loop fuel input c') as [rest|] eqn:E; [|done]. intros [= <-]. cbn [evaluate_list].
    destruct (se_candidates_exhausted (evaluate s q)) eqn:Hx.
    + exists [q]. split_and!; [done|by apply prefix_cons, prefix_nil|done].
    + destruct (IH c' (evaluate s q) rest E) as (seen & -> & Hp & _). cbn. exists (q :: seen).
      split_and!; [done|by apply prefix_cons|done].
  - exists []. cbn. by split_and!.
Qed.

Lemma curve_loop_length room qty cost levels out total :
  curve_loop room qty cost levels = Some (out, total) → (length out <= room)%nat.
Proof.
  revert room qty cost out total; induction levels as [|l levels IH]; intros room qty cost out total H.
  { destruct room; injection H as <- <-; cbn; lia. }
  destruct room as [|room]; [injection H as <- <-; cbn; lia|]. cbn [curve_loop] in H.
  step_if_in H; [eauto|].
  destruct (checked_mul_i64 _ _); [|done]. destruct (checked_add_i64 qty _); [|done]. destruct (checked_add_i64 cost _); [|done].
  destruct (curve_loop room _ _ levels) as [[out' t']|] eqn:E; [|done]. injection H as <- <-.
  apply IH in E. cbn. lia.
Qed.

(** Views as the state builds them, with lots that fit in 64 bits. *)
Definition size_view_ok (view : MarketDepthView) : Prop :=
  (dv_ask_count view <= kMaxSnapshotDepth)%nat ∧ exact_qty (view_asks view) < i64_max.

(** What a prepared leg is: one of the views' curves, with its lots per bundle. *)
Definition prepared (views : list MarketDepthView) (leg : SizeLeg) : Prop :=
  size_leg_ok leg ∧ (level_count leg <= kMaxCostCurveLevels)%nat ∧
  ∃ view, view ∈ views ∧ sl_depth leg = Some view ∧ depth_flags_usable view = true ∧
    cu_total_qty_lots (sl_curve leg) = exact_qty (view_asks view) ∧
    ∀ q, 0 < q <= exact_qty (view_asks view) →
      cost_of (sl_curve leg) q = (fill (view_asks view) q).1 ∧ worst_of (sl_curve leg) q = ending_price (view_asks view) q.

Lemma find_size_view_elem views asset_index i v : find_size_view views asset_index i = Some v → v ∈ views.
Proof.
  unfold find_size_view. destruct (list_find _ views) as [[j w]|] eqn:E.
  - intros [= <-]. apply list_find_Some in E as (E & _). by eapply list_elem_of_lookup_2.
  - intros H. by eapply list_elem_of_lookup_2.
Qed.

Lemma prepare_leg_ok intent views i bundle_leg leg :
  Forall size_view_ok views → prepare_leg intent views i bundle_leg = inr leg →
  prepared views leg ∧ bl_side bundle_leg = Buy ∧ sl_ratio leg = ratio_for_leg bundle_leg (intent_leg_at intent i).
Proof.
  intros Hviews. unfold prepare_leg. intros H. step_if_in H; [done|]. step_if_in H; [done|].
  destruct (find_size_view _ _ _) as [view|] eqn:Ev; [|done]. apply find_size_view_elem in Ev.
  step_if_in H; [done|]. destruct (build_buy_curve _ _ _) as [[? ?]|curve] eqn:Ec; [done|]. injection H as <-.
  breflect. split; [|done]. rewrite Forall_forall in Hviews. destruct (Hviews _ Ev) as [Hcount Hqty].
  pose proof (build_buy_curve_spec _ _ _ _ Ec) as (l & v & [= <-] & [= <-] & _ & _ & Hspec).
  specialize (Hspec Hcount) as (Hwf & Htot & Hcost). fold (view_asks view) in *.
  assert (Hlen : (length (cu_levels curve) <= kMaxCostCurveLevels)%nat).
  { unfold build_buy_curve in Ec. step_if_in Ec; [done|]. step_if_in Ec; [done|].
    destruct (curve_loop _ _ _ _) as [[out total]|] eqn:E; [|done]. step_if_in Ec; [done|]. injection Ec as <-. cbn.
    by eapply curve_loop_length. }
  split; [|split; [exact Hlen|]].
  - split; [split; [done|cbn; lia]|cbn; lia].
  - exists view. by split_and!.
Qed.

Lemma prepare_legs_ok intent views i bundle_legs legs :
  Forall size_view_ok views → prepare_legs intent views i bundle_legs = inr legs →
  Forall (prepared views) legs ∧ length legs = length bundle_legs ∧
  ∀ j bl sl, bundle_legs !! j = Some bl → legs !! j = Some sl →
    bl_side bl = Buy ∧ sl_ratio sl = ratio_for_leg bl (intent_leg_at intent (i + j)%nat).
Proof.
  intros Hviews. revert i legs; induction bundle_legs as [|b bundle_legs IH]; intros i legs H; cbn [prepare_legs] in H.
  { injection H as <-. split_and!; [constructor|done|done]. }
  destruct (prepare_leg intent views i b) as [|leg] eqn:E; [done|].
  destruct (prepare_legs intent views (S i) bundle_legs) as [|ls] eqn:E2; [done|]. injection H as <-.
  apply prepare_leg_ok in E as (Hp & Hb & Hr); [|done]. destruct (IH _ _ E2) as (Hps & Hlen & Hall).
  split_and!; [by constructor|cbn; lia|].
  intros [|j] bl sl Hbl Hsl; cbn in *; simplify_eq.
  - by rewrite Nat.add_0_r.
  - rewrite <- Nat.add_succ_comm. eauto.
Qed.

Lemma prepared_fuel views legs :
  Forall (prepared views) legs → (length legs <= kMaxOrderDecisionLegs)%nat →
  (S (sum_list_with level_count legs) <= cursor_fuel)%nat.
Proof.
  intros Hp Hl. assert (sum_list_with level_count legs <= length legs * kMaxCostCurveLevels)%nat.
  { clear Hl. unfold kMaxCostCurveLevels. induction Hp as [|leg legs (_ & Hc & _) Hp IH]; cbn [sum_list_with length]; unfold kMaxCostCurveLevels in *; lia. }
  unfold cursor_fuel, kMaxOrderDecisionCandidates, kMaxOrderDecisionLegs, kMaxCostCurveLevels in *. lia.
Qed.

(** ** The optimiser picks the best size *)

(** The sizes the optimiser considers. *)
Definition size_input (input : BundleSizeInput) (legs : list SizeLeg) : SizeCandidateEnumerationInput :=
  enumeration_input legs (Z.max 1 (dc_min_bundle_qty (bi_config input))) (bi_config input).

Definition result_point (b : BundleSizeResult) : EdgeCurvePoint :=
  mkEdgeCurvePoint (bs_best_bundle_qty b) (bs_total_cost_tick b) (bs_unit_edge_tick b) (bs_total_edge_tick b) (bs_edge_bps b).

(** A result leg buys its lots of the size at the greedy cost of the leg's curve. *)
Definition leg_bought (q : Z) (leg : SizeLeg) (out : OrderDecisionLegLite) : Prop :=
  dl_side out = Buy ∧ dl_quantity_lots out = sl_ratio leg * q ∧ 0 < sl_ratio leg * q ∧
  dl_estimated_cost_tick out = leg_cost_at leg q ∧
  dl_estimated_vwap_tick out = Z.quot (leg_cost_at leg q) (sl_ratio leg * q) ∧
  dl_worst_price_tick out = worst_of (sl_curve leg) (sl_ratio leg * q) ∧ 0 < dl_worst_price_tick out.

Record result_exact (legs : list SizeLeg) (policy : RiskPolicySnapshot) (config : OrderDecisionConfig) (guaranteed : Z)
    (b : BundleSizeResult) : Prop := {
  rx_point : size_point legs policy config guaranteed (bs_best_bundle_qty b) = Some (result_point b);
  rx_payout : bs_guaranteed_payout_tick b = guaranteed * bs_best_bundle_qty b;
  rx_count : bs_leg_count b = length legs;
  rx_slots : length (bs_legs b) = kMaxOrderDecisionLegs;
  rx_legs : Forall2 (leg_bought (bs_best_bundle_qty b)) legs (take (bs_leg_count b) (bs_legs b))
}.

Lemma size_point_payout legs policy config guaranteed q p :
  size_point legs policy config guaranteed q = Some p → in_i64 (guaranteed * q).
Proof.
  unfold size_point. intros H. step_if_in H; [|done]. destruct (bundle_total_cost _ _ _) as [t|]; [|done].
  cbn [mbind option_bind] in H. step_if_in H; [done|]. unfold edge_point in H.
  destruct (checked_mul_i64 guaranteed q) eqn:E; [|done]. by apply checked_mul_i64_Some in E as [? _].
Qed.

Lemma search_result_exact legs policy config guaranteed count s p st :
  Forall size_leg_ok legs → (length legs <= kMaxOrderDecisionLegs)%nat → se_best s = Some (p, st) → 0 < ep_bundle_qty p →
  size_point legs policy config guaranteed (ep_bundle_qty p) = Some p → state_ok legs st → ie_current_q st = ep_bundle_qty p →
  ∃ b, search_result (length legs) legs guaranteed count s = inr b ∧ result_point b = p ∧
       result_exact legs policy config guaranteed b.
Proof.
  intros Hok Hlen Hbest Hpos Hp [H0 Hev Htot Hmax] Hcur. rewrite Hcur in *. unfold search_result. rewrite Hbest.
  assert (Hgood : ∀ leg e, leg ∈ legs → eval_ok (ep_bundle_qty p) leg e →
    0 < le_qty_lots e ∧ 0 <= le_cost_tick e ∧ 0 < le_worst_price_tick e).
  { intros leg e Hl [Hq Hf Hc _ Hw]. rewrite Forall_forall in Hok. pose proof (Hok _ Hl) as Hleg.
    pose proof (leg_cost_mono leg (ep_bundle_qty p) (ep_bundle_qty p) Hleg ltac:(lia) Hf).
    destruct Hleg as [[[Hcok Ht _] _] Hr]. rewrite Hq, Hc, (Hw Hpos). split_and!; [nia|lia|].
    apply (curve_worst_pos 0 0 _ _ Hcok). rewrite <- Ht. nia. }
  rewrite (proj2 (existsb_false_elem _ _)).
  2:{ intros e [i Hi]%list_elem_of_lookup. destruct (Forall2_lookup_r _ _ _ _ _ Hev Hi) as (leg & Hl & He).
      destruct (Hgood leg e) as (? & ? & _); [by eapply list_elem_of_lookup_2|done|].
      apply orb_false_iff. rewrite Z.leb_gt, Z.ltb_ge. lia. }
  eexists. split; [reflexivity|]. pose proof (size_point_payout _ _ _ _ _ _ Hp) as Hpay.
  split; [by destruct p|]. split; cbn [bs_best_bundle_qty bs_guaranteed_payout_tick bs_leg_count bs_legs].
  - rewrite Hp. by destruct p.
  - by rewrite wrap_i64_id.
  - done.
  - apply length_std_array.
  - unfold std_array. rewrite (take_ge (zip_with _ _ _)) by (rewrite length_zip_with; lia).
    assert (Hzl : length (zip_with result_leg legs (ie_legs st)) = length legs).
    { rewrite length_zip_with. apply Forall2_length in Hev. lia. }
    rewrite <- Hzl, take_app_length. clear Hlen Hbest Hmax Htot Hzl Hp.
    induction Hev as [|leg e ls es He Hev IH]; cbn; constructor.
    + destruct (Hgood leg e ltac:(left) He) as (? & ? & ?). destruct He as [Hq Hf Hc _ Hw].
      unfold leg_bought, result_leg; cbn. rewrite <- Hq, <- Hc. rewrite <- Hq in Hw. split_and!; try done. by apply Hw.
    + apply IH; [by apply Forall_cons in Hok as [_ ?]|]. intros l x Hl. apply Hgood. by right.
Qed.

Lemma optimize_complete input intent bundle policy legs :
  bi_intent input = Some intent → bi_bundle input = Some bundle → bi_policy input = Some policy →
  (0 < cb_leg_count bundle <= kMaxOrderDecisionLegs)%nat → length (cb_legs bundle) = kMaxBundleLegs →
  (oi_leg_count intent = 0 ∨ cb_leg_count bundle <= oi_leg_count intent)%nat →
  Forall size_view_ok (bi_depth_views input) →
  prepare_legs intent (bi_depth_views input) 0 (bundle_legs bundle) = inr legs →
  Forall (λ leg, cu_total_qty_lots (sl_curve leg) * rp_min_depth_margin_bps policy <= i64_max) legs →
  let sizes := size_input input legs in
  let guaranteed := guaranteed_per_bundle intent bundle in
  let point := size_point legs policy (bi_config input) guaranteed in
  (∀ set, bi_cache input ≫= (λ c, find_candidate_set c (candidate_key intent bundle legs (bi_config input))) = Some set →
     StronglySorted Z.lt (cs_q_values set) ∧ ∀ q, q ∈ cs_q_values set ↔ is_candidate sizes q) →
  ∃ cache r, optimize input = Some (cache, r) ∧
  match r with
  | inr b => is_candidate sizes (bs_best_bundle_qty b) ∧ result_exact legs policy (bi_config input) guaranteed b ∧
      ∀ q p, is_candidate sizes q → point q = Some p → better_edge_candidate p (result_point b) = false
  | inl _ => ∀ q, is_candidate sizes q → point q = None
  end.
Proof.
  intros Hi Hb Hpol Hcount Hslots Hilegs Hviews Hprep Hbps sizes guaranteed point Hcache.
  unfold optimize. rewrite Hi, Hb, Hpol.
  rewrite (proj2 (Nat.eqb_neq _ _)), (proj2 (Nat.ltb_ge _ _)) by lia. cbn [orb].
  replace (negb (oi_leg_count intent =? 0)%nat && (oi_leg_count intent <? cb_leg_count bundle)%nat) with false.
  2:{ symmetry. apply andb_false_iff. destruct Hilegs as [->|?]; [by left|right; by apply Nat.ltb_ge]. }
  rewrite Hprep. destruct (prepare_legs_ok _ _ _ _ _ Hviews Hprep) as (Hp & Hlen & _).
  unfold bundle_legs in Hlen. rewrite length_take in Hlen.
  assert (Hll : length legs = cb_leg_count bundle) by (unfold kMaxBundleLegs, kMaxOrderDecisionLegs in *; lia).
  assert (Hok : Forall size_leg_ok legs) by (eapply Forall_impl; [exact Hp|by intros l [? _]]).
  assert (Hwf : Forall leg_wf legs) by (eapply Forall_impl; [exact Hok|by intros l [? _]]).
  fold sizes. set (minq := Z.max 1 (dc_min_bundle_qty (bi_config input))) in *.
  fold (size_input input legs). fold sizes guaranteed.
  set (evaluate := evaluate_candidate legs policy (bi_config input) guaranteed minq).
  (* any complete list of sizes gives the result *)
  assert (Hresult : ∀ values count, StronglySorted Z.lt values → (∀ q, q ∈ values ↔ is_candidate sizes q) →
    match search_result (cb_leg_count bundle) legs guaranteed count (evaluate_list evaluate (new_search (length legs)) values) with
    | inr b => is_candidate sizes (bs_best_bundle_qty b) ∧ result_exact legs policy (bi_config input) guaranteed b ∧
        ∀ q p, is_candidate sizes q → point q = Some p → better_edge_candidate p (result_point b) = false
    | inl _ => ∀ q, is_candidate sizes q → point q = None
    end).
  { intros values count Hs Hvals.
    assert (Hbest : best_of legs policy (bi_config input) guaranteed (λ q, False ∨ q ∈ values)
      (se_best (evaluate_list evaluate (new_search (length legs)) values))).
    { apply evaluate_list_spec; [done|done|done| |by apply new_state_ok|done|by intros ? []].
      intros q Hq. apply Hvals in Hq as [Hm _]. cbn in *. subst minq. lia. }
    destruct (se_best (evaluate_list _ _ _)) as [[p st]|] eqn:E; cbn in Hbest.
    - destruct Hbest as ([[]|Hin] & Hp' & Hst & Hcur & Hall). rewrite <- Hll.
      apply Hvals in Hin. assert (0 < ep_bundle_qty p) by (destruct Hin as [Hm _]; cbn in Hm; subst minq; lia).
      destruct (search_result_exact legs policy (bi_config input) guaranteed count _ p st Hok ltac:(lia) E) as (b & -> & Hbp & Hx);
        [done..|]. rewrite Hbp. split_and!; [by rewrite <- Hbp in Hin|done|].
      intros q p' Hq. apply Hall. right. by apply Hvals.
    - unfold search_result. rewrite E. intros q Hq. apply Hbest. right. by apply Hvals. }
  destruct (bi_cache input ≫= _) as [set|] eqn:Ec.
  - destruct (Hcache set eq_refl) as [Hs Hvals]. destruct (cs_q_values set) as [|v values] eqn:Ev.
    + eexists _, _. split; [reflexivity|]. intros q Hq. apply Hvals in Hq. by apply not_elem_of_nil in Hq.
    + eexists _, _. split; [reflexivity|]. by apply Hresult.
  - assert (Hne : (length (ei_legs sizes) =? 0)%nat = false) by (apply Nat.eqb_neq; cbn; lia).
    destruct (enumerate_complete sizes cursor_fuel) as (values & Hrun & Hs & Hvals); [cbn; lia|done| |].
    { unfold enough_fuel. cbn. eapply prepared_fuel; [exact Hp|lia]. }
    unfold enumerate_candidates in Hrun. rewrite Hne in Hrun.
    change (enumeration_input legs minq (bi_config input)) with sizes.
    destruct (stream_list _ evaluate sizes _ (new_search (length legs)) _ Hrun) as (seen & -> & _ & _).
    cbn [mbind option_bind]. eexists _, _. split; [reflexivity|]. apply Hresult; [done|].
    intros q. rewrite Hvals. split; [by intros [? _]|done].
Qed.

(** C8. The optimiser buys the best size: it always ends, and from legs that
    can be prepared, with nothing cached or a complete set of candidates, it
    returns a size at which some leg runs out of a price level whose point,
    computed from scratch, is admissible - every book is deep enough, margin
    included, nothing overflows, the cost is within the budget and the edge
    over the thresholds - and no admissible candidate has a better one; its
    legs are bought at their exact greedy cost.  It refuses only when no
    candidate is admissible. *)
Theorem optimizer_picks_best input intent bundle policy legs :
  bi_intent input = Some intent → bi_bundle input = Some bundle → bi_policy input = Some policy →
  (0 < cb_leg_count bundle <= kMaxOrderDecisionLegs)%nat → length (cb_legs bundle) = kMaxBundleLegs →
  (oi_leg_count intent = 0 ∨ cb_leg_count bundle <= oi_leg_count intent)%nat →
  Forall size_view_ok (bi_depth_views input) →
  prepare_legs intent (bi_depth_views input) 0 (bundle_legs bundle) = inr legs →
  Forall (λ leg, cu_total_qty_lots (sl_curve leg) * rp_min_depth_margin_bps policy <= i64_max) legs →
  let sizes := size_input input legs in
  let guaranteed := guaranteed_per_bundle intent bundle in
  let point := size_point legs policy (bi_config input) guaranteed in
  (∀ set, bi_cache input ≫= (λ c, find_candidate_set c (candidate_key intent bundle legs (bi_config input))) = Some set →
     StronglySorted Z.lt (cs_q_values set) ∧ ∀ q, q ∈ cs_q_values set ↔ is_candidate sizes q) →
  ∃ cache r, optimize input = Some (cache, r) ∧
  match r with
  | inr b => is_candidate sizes (bs_best_bundle_qty b) ∧ result_exact legs policy (bi_config input) guaranteed b ∧
      ∀ q p, is_candidate sizes q → point q = Some p → better_edge_candidate p (result_point b) = false
  | inl _ => ∀ q, is_candidate sizes q → point q = None
  end.
Proof. apply optimize_complete. Qed.

(** ** Whatever is cached, what is returned is exact *)

Section sound.
Context (legs : list SizeLeg) (policy : RiskPolicySnapshot) (config : OrderDecisionConfig) (guaranteed min_bundle_qty : Z).
Context (Hlegs : Forall size_leg_ok legs) (Hmin : 1 <= min_bundle_qty).
Context (Hbps : Forall (λ leg, cu_total_qty_lots (sl_curve leg) * rp_min_depth_margin_bps policy <= i64_max) legs).

(** The state prices exactly and the best size, if there is one, is admissible. *)
Definition search_ok (s : Search) : Prop :=
  state_ok legs (se_state s) ∧
  match se_best s with
  | Some (p, st) => 0 < ep_bundle_qty p ∧ size_point legs policy config guaranteed (ep_bundle_qty p) = Some p ∧
      state_ok legs st ∧ ie_current_q st = ep_bundle_qty p
  | None => True
  end.

Lemma evaluate_sound s q :
  search_ok s → search_ok (evaluate_candidate legs policy config guaranteed min_bundle_qty s q).
Proof.
  intros [Hst Hbest]. destruct (Z.lt_ge_cases q min_bundle_qty) as [Hlt|Hge].
  { unfold evaluate_candidate. by rewrite (proj2 (Z.ltb_lt _ _)) by done. }
  destruct (Z.lt_ge_cases q (ie_current_q (se_state s))) as [Hback|Hfwd].
  { unfold evaluate_candidate, advance_incremental_state. rewrite (proj2 (Z.ltb_ge _ _)), (proj2 (Z.ltb_lt _ _)) by done. done. }
  pose proof (evaluate_spec legs policy config guaranteed min_bundle_qty Hlegs Hbps s q Hst Hfwd Hge ltac:(lia)) as H.
  cbv zeta in H. destruct H as [(_ & Hb & _ & (leg & _))|(_ & Hst' & _ & Hp)].
  - split; [|by rewrite Hb]. unfold evaluate_candidate. rewrite (proj2 (Z.ltb_ge _ _)) by done.
    pose proof (advance_state_spec legs policy q (se_state s) Hlegs Hst Hfwd) as Hadv.
    destruct (advance_incremental_state _ _ _ _); [|done|done]. destruct Hadv as (Hok & _).
    repeat (case_match; try done).
  - split; [done|]. destruct (size_point legs policy config guaranteed q) as [p|] eqn:E; [|by rewrite Hp].
    destruct Hp as [Hc ->]. pose proof (size_point_qty legs policy config guaranteed q p E) as [Hq _].
    assert (Hnew : 0 < ep_bundle_qty p ∧ size_point legs policy config guaranteed (ep_bundle_qty p) = Some p)
      by (rewrite Hq; split; [lia|done]).
    unfold keep. destruct (se_best s) as [[b sb]|]; [destruct (better_edge_candidate p b)|]; try done;
      destruct Hnew; split_and!; try done; congruence.
Qed.

Lemma evaluate_list_sound s values :
  search_ok s → search_ok (evaluate_list (evaluate_candidate legs policy config guaranteed min_bundle_qty) s values).
Proof.
  revert s; induction values as [|q values IH]; intros s Hs; cbn [evaluate_list]; [done|].
  pose proof (evaluate_sound s q Hs). step_if; [done|auto].
Qed.

Lemma search_result_sound s count b :
  search_ok s → (length legs <= kMaxOrderDecisionLegs)%nat → search_result (length legs) legs guaranteed count s = inr b →
  0 < bs_best_bundle_qty b ∧ result_exact legs policy config guaranteed b.
Proof.
  intros [_ Hbest] Hlen Hr. destruct (se_best s) as [[p st]|] eqn:E; [|unfold search_result in Hr; by rewrite E in Hr].
  destruct Hbest as (Hpos & Hp & Hst & Hc).
  destruct (search_result_exact legs policy config guaranteed count s p st Hlegs Hlen E Hpos Hp Hst Hc) as (b' & Hb & Hbp & Hx).
  rewrite Hr in Hb. injection Hb as <-. split; [|done]. by rewrite <- Hbp in Hpos.
Qed.
End sound.

(** [optimize] always returns; a result is exact whatever the cache holds. *)
Lemma optimize_sound input intent bundle policy :
  bi_intent input = Some intent → bi_bundle input = Some bundle → bi_policy input = Some policy →
  length (cb_legs bundle) = kMaxBundleLegs → Forall size_view_ok (bi_depth_views input) →
  Forall (λ view, exact_qty (view_asks view) * rp_min_depth_margin_bps policy <= i64_max) (bi_depth_views input) →
  ∃ cache r, optimize input = Some (cache, r) ∧
  (bi_cache input = None → cache = None) ∧
  (∀ c, bi_cache input = Some c → ∃ c', cache = Some c' ∧ dx_decisions c' = dx_decisions c ∧ dx_specs c' = dx_specs c) ∧
  ∀ b, r = inr b → ∃ legs, length legs = cb_leg_count bundle ∧ (0 < cb_leg_count bundle <= kMaxOrderDecisionLegs)%nat ∧
    Forall (prepared (bi_depth_views input)) legs ∧ 0 < bs_best_bundle_qty b ∧
    result_exact legs policy (bi_config input) (guaranteed_per_bundle intent bundle) b.
Proof.
  intros Hi Hb Hpol Hslots Hviews Hbps. unfold optimize. rewrite Hi, Hb, Hpol.
  assert (Hkeep : ∀ reason : OrderDecisionType, ∃ cache r, Some (bi_cache input, inl (B := BundleSizeResult) reason) = Some (cache, r) ∧
    (bi_cache input = None → cache = None) ∧
    (∀ c, bi_cache input = Some c → ∃ c', cache = Some c' ∧ dx_decisions c' = dx_decisions c ∧ dx_specs c' = dx_specs c) ∧
    ∀ b, r = inr b → ∃ legs, length legs = cb_leg_count bundle ∧ (0 < cb_leg_count bundle <= kMaxOrderDecisionLegs)%nat ∧
      Forall (prepared (bi_depth_views input)) legs ∧ 0 < bs_best_bundle_qty b ∧
      result_exact legs policy (bi_config input) (guaranteed_per_bundle intent bundle) b).
  { intros reason. eexists _, _. split_and!; [reflexivity|done|eauto|done]. }
  destruct (_ || _) eqn:Hc; [apply Hkeep|]. apply orb_false_iff in Hc as [Hc1%Nat.eqb_neq Hc2%Nat.ltb_ge].
  step_if; [apply Hkeep|].
  destruct (prepare_legs _ _ _ _) as [reason|legs] eqn:Hprep; [apply Hkeep|].
  destruct (prepare_legs_ok _ _ _ _ _ Hviews Hprep) as (Hp & Hlen & _).
  unfold bundle_legs in Hlen. rewrite length_take in Hlen.
  assert (Hll : length legs = cb_leg_count bundle) by (unfold kMaxBundleLegs, kMaxOrderDecisionLegs in *; lia).
  assert (Hok : Forall size_leg_ok legs) by (eapply Forall_impl; [exact Hp|by intros l [? _]]).
  assert (Hwf : Forall leg_wf legs) by (eapply Forall_impl; [exact Hok|by intros l [? _]]).
  assert (Hm : Forall (λ leg, cu_total_qty_lots (sl_curve leg) * rp_min_depth_margin_bps policy <= i64_max) legs).
  { eapply Forall_impl; [exact Hp|]. intros l (_ & _ & view & Hv & _ & _ & -> & _).
    rewrite Forall_forall in Hbps. by apply Hbps. }
  set (minq := Z.max 1 (dc_min_bundle_qty (bi_config input))).
  set (guaranteed := guaranteed_per_bundle intent bundle).
  assert (Hfresh : search_ok legs policy (bi_config input) guaranteed (new_search (length legs)))
    by (split; [by apply new_state_ok|done]).
  assert (Hres : ∀ values count b,
    search_result (cb_leg_count bundle) legs guaranteed count
      (evaluate_list (evaluate_candidate legs policy (bi_config input) guaranteed minq) (new_search (length legs)) values) = inr b →
    0 < bs_best_bundle_qty b ∧ result_exact legs policy (bi_config input) guaranteed b).
  { intros values count b. rewrite <- Hll. apply search_result_sound; [done| |lia].
    apply evaluate_list_sound; [done|subst minq; lia|done|done]. }
  destruct (bi_cache input ≫= _) as [set|] eqn:Ec.
  - destruct (cs_q_values set) as [|v values]; [apply Hkeep|]. eexists _, _. split_and!; [reflexivity|done|eauto|].
    intros b Hb'. exists legs. destruct (Hres _ _ _ Hb'). split_and!; try done; lia.
  - set (sizes := enumeration_input legs minq (bi_config input)).
    assert (Hne : (length (ei_legs sizes) =? 0)%nat = false) by (apply Nat.eqb_neq; cbn; lia).
    destruct (enumerate_complete sizes cursor_fuel) as (values & Hrun & _ & _); [cbn; subst minq; lia|done| |].
    { unfold enough_fuel. cbn. eapply prepared_fuel; [exact Hp|lia]. }
    unfold enumerate_candidates in Hrun. rewrite Hne in Hrun.
    destruct (stream_list _ (evaluate_candidate legs policy (bi_config input) guaranteed minq) sizes _
      (new_search (length legs)) _ Hrun) as (seen & -> & _ & _).
    cbn [mbind option_bind]. eexists _, _. split_and!; [reflexivity|by intros ->| |].
    + intros c Hcc. rewrite Hcc. step_if; [by exists c|]. eexists. split; [reflexivity|]. by destruct c.
    + intros b Hb'. exists legs. destruct (Hres _ _ _ Hb'). split_and!; try done; lia.
Qed.

(** ** Examples *)

Definition ask (price lots : positive) : PriceLevel := mkPriceLevel (Zpos price) d0_0 (double_of_pos lots).
Definition demo_size_views : list MarketDepthView :=
  [demo_view 1 (std_array kMaxSnapshotDepth no_level [ask 400000 10; ask 410000 2; ask 420000 3]) 3;
   demo_view 2 (std_array kMaxSnapshotDepth no_level [ask 500000 20]) 1].
Definition demo_bundle : CandidateBundle :=
  candidate_bundle0 <| cb_bundle_id := 9 |> <| cb_guaranteed_payout_tick := 1000000 |> <| cb_leg_count := 2%nat |>
    <| cb_legs := std_array kMaxBundleLegs bundle_leg0 [mkBundleLeg "m" "yes" Buy 1 0; mkBundleLeg "m" "no" Buy 1 0] |>.
Definition demo_size_intent : OpportunityIntent :=
  intent0 <| oi_intent_id := 5 |> <| oi_bundle_id := 9 |> <| oi_status := IsPaperOpportunity |> <| oi_leg_count := 2%nat |>
    <| oi_legs := std_array kMaxIntentLegs leg0 [leg0 <| il_asset_index := 1 |>; leg0 <| il_asset_index := 2 |>] |>.
Definition margin_policy (bps : Z) : RiskPolicySnapshot := policy0 <| rp_min_depth_margin_bps := bps |>.
Definition demo_size_input_with (bps : Z) (cache : option OrderDecisionCache) : BundleSizeInput :=
  mkBundleSizeInput (Some demo_size_intent) (Some demo_bundle) demo_size_views (Some (margin_policy bps)) order_decision_config0 cache.

Definition chosen_size (r : option (option OrderDecisionCache * (OrderDecisionType + BundleSizeResult))) : option Z :=
  match r with Some (_, inr b) => Some (bs_best_bundle_qty b) | _ => None end.

Lemma optimizer_picks_best_witness :
  chosen_size (optimize (demo_size_input_with 10000 None)) = Some 15 ∧
  ∃ cache r, optimize (demo_size_input_with 10000 None) = Some (cache, inr r) ∧ bs_total_edge_tick r = 1420000.
Proof.
  split; [vm_compute; reflexivity|].
  assert (Hv : Forall size_view_ok demo_size_views).
  { apply Forall_cons; split; [split; [cbn; unfold kMaxSnapshotDepth; lia|vm_compute; reflexivity]|]. apply Forall_cons; split; [split; [cbn; unfold kMaxSnapshotDepth; lia|vm_compute; reflexivity]|].
    by apply Forall_nil. }
  destruct (prepare_legs demo_size_intent demo_size_views 0 (bundle_legs demo_bundle)) as [|legs] eqn:E; [vm_compute in E; discriminate E|].
  pose proof (optimizer_picks_best (demo_size_input_with 10000 None) demo_size_intent demo_bundle (margin_policy 10000) legs
    eq_refl eq_refl eq_refl ltac:(split; apply Nat.leb_le; reflexivity) eq_refl (or_intror (le_n _)) Hv E) as H.
  destruct H as (cache & r & Hrun & Hres).
  - vm_compute in E. injection E as <-. apply Forall_cons; split; [vm_compute; discriminate|].
    apply Forall_cons; split; [vm_compute; discriminate|]. by apply Forall_nil.
  - intros set Hset. discriminate Hset.
  - destruct r as [reason|b].
    + exfalso. clear Hres. vm_compute in Hrun. discriminate Hrun.
    + exists cache, b. split; [exact Hrun|]. clear Hres. vm_compute in Hrun. injection Hrun as _ <-. reflexivity.
Defined.

(** A candidate set is stored as far as the search went, and its key does not
    name the policy that stopped it: after a call with a wide depth margin, a
    call with a narrow one finds the shorter set and settles for a smaller size
    than it would choose on its own. *)
Example cached_candidates_lose_size :
  let first := optimize (demo_size_input_with 13000 (Some decision_cache0)) in
  chosen_size first = Some 10 ∧
  match first with
  | Some (cache, _) =>
      chosen_size (optimize (demo_size_input_with 10000 cache)) = Some 12 ∧
      chosen_size (optimize (demo_size_input_with 10000 (Some decision_cache0))) = Some 15
  | None => False
  end.
Proof. vm_compute. auto. Qed.
