(* ===== verification/OrderDecisionEngine.v ===== *)
(** * OrderDecisionEngine: from an intent to a sized decision

    [engine/order_decision/core].  Two implementations share the input checks,
    the memo of decisions, the limit prices and the assembly of a decision: the
    generic one searches for the best size, the fast one takes the largest
    executable size.  The engine owns the configuration and the cache.  The
    statistics and timings of a result are not modelled. *)

From S2P Require Import Prelude Hashing FixedPoint Depth RiskTypes RiskPipeline Bundles OrderDecision RiskEngine CostCurve SizeCandidates OrderDecisionCache SizeOptimizer.

(** [engine/order_decision/public/OrderDecisionResult.h:11-18] OrderDecisionResult: a reason and a message, or the decision. *)
Abbreviation OrderDecisionResult := (OrderDecisionType * string + OrderDecisionLite)%type.

(** ** What both implementations share *)

(** [engine/order_decision/core/GenericOrderDecisionImpl.cpp:70-93] decide: the checks of the input. *)
Definition input_rejection (intent : OpportunityIntent) (bundle : CandidateBundle) (now_ns : Z)
    : option (OrderDecisionType * string) :=
  if negb (oi_expires_at_ns intent =? 0) && (oi_expires_at_ns intent <=? now_ns) then
    Some (OtRejectExpiredIntent, "intent expired"%string)
  else if negb (bool_decide (oi_status intent = IsPaperOpportunity)) then
    Some (OtRejectInvalidBundle, "intent is not PaperOpportunity"%string)
  else if (cb_bundle_id bundle =? 0) || negb (oi_bundle_id intent =? cb_bundle_id bundle) ||
          (cb_leg_count bundle =? 0)%nat || (kMaxOrderDecisionLegs <? cb_leg_count bundle)%nat then
    Some (OtRejectInvalidBundle, "invalid bundle"%string)
  else None.

(** [engine/order_decision/core/GenericOrderDecisionImpl.cpp:38-47] multiply_or_zero. *)
Definition multiply_or_zero (lhs rhs : Z) : Z := default 0 (checked_mul_i64 lhs rhs).

(** [engine/order_decision/core/GenericOrderDecisionImpl.cpp:159-162] decide: when a decision expires. *)
Definition decision_expiry (intent : OpportunityIntent) (config : OrderDecisionConfig) (now_ns : Z) : Z :=
  let default_expiry := wrap_u64 (now_ns + dc_default_ttl_ns config) in
  if negb (oi_expires_at_ns intent =? 0) then Z.min (oi_expires_at_ns intent) default_expiry else default_expiry.

(** [engine/order_decision/core/GenericOrderDecisionImpl.cpp:166-184] decide: the loop that gives each leg its limit price. *)
Fixpoint limit_legs (config : OrderDecisionConfig) (bundle_legs : list BundleLeg) (legs : list OrderDecisionLegLite)
    : OrderDecisionType + list OrderDecisionLegLite :=
  match legs, bundle_legs with
  | leg :: legs, bundle_leg :: bundle_legs =>
      match build_buy_limit (mkLimitPriceInput (dl_worst_price_tick leg) (dc_price_protection_buffer_tick config)
              (bl_max_price_tick bundle_leg) (dc_max_allowed_price_tick config)) with
      | inl reason => inl reason
      | inr limit =>
          match limit_legs config bundle_legs legs with
          | inl reason => inl reason
          | inr legs => inr (leg <| dl_limit_price_tick := limit |> :: legs)
          end
      end
  | _, _ => inr []
  end.

(** [engine/order_decision/core/GenericOrderDecisionImpl.cpp:187-188] decide: the hash is the decision's name. *)
Definition seal_decision (decision : OrderDecisionLite) : OrderDecisionLite :=
  let hash := compute_order_decision_hash decision in
  decision <| od_decision_hash := hash |> <| od_decision_id := hash |>.

(** [engine/order_decision/core/GenericOrderDecisionImpl.cpp:165-188] decide: limit prices, then the hash. *)
Definition finish_decision (config : OrderDecisionConfig) (bundle : CandidateBundle) (decision : OrderDecisionLite)
    : OrderDecisionResult :=
  match limit_legs config (cb_legs bundle) (decision_legs decision) with
  | inl reason => inl (reason, order_decision_type_name reason)
  | inr legs =>
      inr (seal_decision (decision <| od_legs := legs ++ drop (od_leg_count decision) (od_legs decision) |>))
  end.

(** [engine/order_decision/core/GenericOrderDecisionImpl.cpp:95-111] decide: the memo is consulted, and a new decision is memoised. *)
Definition with_memo (cache : option OrderDecisionCache) (key : DecisionMemoKey)
    (compute : option (option OrderDecisionCache * OrderDecisionResult))
    : option (option OrderDecisionCache * OrderDecisionResult) :=
  match cache ≫= λ c, find_decision c key with
  | Some decision => Some (cache, inr decision)
  | None =>
      '(cache, result) ← compute;
      match cache, result with
      | Some c, inr decision => Some (Some (store_decision c key decision), result)
      | _, _ => Some (cache, result)
      end
  end.

(** ** The generic implementation *)

(** [engine/order_decision/core/GenericOrderDecisionImpl.cpp:130-162] decide: the decision of a size. *)
Definition generic_decision (intent : OpportunityIntent) (bundle : CandidateBundle) (policy : RiskPolicySnapshot)
    (config : OrderDecisionConfig) (now_ns : Z) (size : BundleSizeResult) : OrderDecisionLite :=
  let q := bs_best_bundle_qty size in
  mkOrderDecisionLite 0 (oi_intent_id intent) (cb_bundle_id bundle) OtPaperOrderDecision q
    (bs_guaranteed_payout_tick size) (bs_total_cost_tick size)
    (multiply_or_zero (dc_fee_per_bundle_tick config) q)
    (multiply_or_zero (dc_latency_buffer_per_bundle_tick config) q)
    (multiply_or_zero (dc_slippage_buffer_per_bundle_tick config) q)
    (bs_unit_edge_tick size) (bs_total_edge_tick size) (bs_edge_bps size) (bs_leg_count size) (bs_legs size)
    (oi_snapshot_version_hash intent) (oi_oracle_artifact_hash intent) (oi_bundle_hash intent)
    (decision_policy_hash policy) now_ns (decision_expiry intent config now_ns) 0.

(** [engine/order_decision/core/GenericOrderDecisionImpl.cpp:51-201] GenericOrderDecisionImpl::decide; [None] is running out of fuel. *)
Definition generic_decide (intent : OpportunityIntent) (bundle : CandidateBundle) (depth_views : list MarketDepthView)
    (policy : RiskPolicySnapshot) (now_ns : Z) (config : OrderDecisionConfig) (cache : option OrderDecisionCache)
    : option (option OrderDecisionCache * OrderDecisionResult) :=
  match input_rejection intent bundle now_ns with
  | Some rejection => Some (cache, inl rejection)
  | None =>
      with_memo cache (make_decision_memo_key intent bundle policy config now_ns)
        ('(cache, size) ← optimize (mkBundleSizeInput (Some intent) (Some bundle) depth_views (Some policy) config cache);
         Some (cache,
           match size with
           | inl reason => inl (reason, order_decision_type_name reason)
           | inr size => finish_decision config bundle (generic_decision intent bundle policy config now_ns size)
           end))
  end.

(** ** The fast implementation *)

(** [engine/order_decision/core/FastFixedShapeOrderDecisionImpl.cpp:73-89] find_depth_view: asset zero is no asset. *)
Definition find_fast_view (depth_views : list MarketDepthView) (asset_index : Z) (fallback_index : nat)
    : option MarketDepthView :=
  if negb (asset_index =? 0) then find_size_view depth_views asset_index fallback_index
  else depth_views !! fallback_index.

(** [engine/order_decision/core/FastFixedShapeOrderDecisionImpl.cpp:91-107] depth_usable. *)
Definition depth_usable (depth : MarketDepthView) (policy : RiskPolicySnapshot) (now_ns : Z) : bool :=
  if negb (dv_usable_for_depth depth) || dv_recovering depth || dv_crossed depth || dv_closed depth ||
     dv_resolved depth || (dv_ask_count depth =? 0)%nat then false
  else negb ((0 <? rp_max_book_age_ns policy) && negb (dv_last_ws_recv_ns depth =? 0) &&
             (dv_last_ws_recv_ns depth <? now_ns) && (rp_max_book_age_ns policy <? now_ns - dv_last_ws_recv_ns depth)).

(** [engine/order_decision/core/FastFixedShapeOrderDecisionImpl.cpp:120-129] executable_ask_qty: the loop without prefix arrays. *)
Fixpoint sum_ask_lots (total : Z) (levels : list PriceLevel) : Z :=
  match levels with
  | [] => total
  | level :: rest =>
      if pl_price_tick level <=? 0 then sum_ask_lots total rest
      else match checked_add_i64 total (price_level_size_lots level) with
           | None => i64_max
           | Some total => sum_ask_lots total rest
           end
  end.

(** [engine/order_decision/core/FastFixedShapeOrderDecisionImpl.cpp:109-130] executable_ask_qty. *)
Definition executable_ask_qty (depth : MarketDepthView) : Z :=
  if (0 <? dp_ask_count (dv_prefix depth))%nat then ask_depth_from_prefix (dv_prefix depth)
  else sum_ask_lots 0 (take (Nat.min (dv_ask_count depth) kMaxSnapshotDepth) (dv_asks depth)).

(** [engine/order_decision/core/FastFixedShapeOrderDecisionImpl.cpp:132-165] buy_vwap. *)
Definition fast_buy_vwap (depth : MarketDepthView) (quantity_lots : Z) : VwapMathResult :=
  if (0 <? dp_ask_count (dv_prefix depth))%nat
  then buy_vwap_prefix (dv_prefix depth) (Some (dv_asks depth)) (dv_ask_count depth) quantity_lots
  else buy_vwap_linear (Some (dv_asks depth)) (dv_ask_count depth) quantity_lots.

(** A leg of the fast path: its view, its lots per bundle and the lots on offer. *)
Record FastLeg := mkFastLeg { fl_depth : MarketDepthView; fl_ratio : Z; fl_executable : Z }.

(** [engine/order_decision/core/FastFixedShapeOrderDecisionImpl.cpp:284-296] decide: side, ratio and asset of leg [i]. *)
Definition fast_shape (spec : option FixedShapeOrderDecisionSpec) (intent : OpportunityIntent) (i : nat) (leg : BundleLeg)
    : Side * Z * Z :=
  match spec with
  | Some spec => (default Buy (fx_sides spec !! i), fx_ratio_qty_lots spec !!! i, fx_asset_indices spec !!! i)
  | None =>
      (bl_side leg, ratio_for_leg leg (intent_leg_at intent i),
       match intent_leg_at intent i with Some l => il_asset_index l | None => 0 end)
  end.

(** [engine/order_decision/core/FastFixedShapeOrderDecisionImpl.cpp:282-326] decide: the loop that finds the largest size. *)
Fixpoint fast_legs (spec : option FixedShapeOrderDecisionSpec) (intent : OpportunityIntent) (depth_views : list MarketDepthView)
    (policy : RiskPolicySnapshot) (now_ns : Z) (i : nat) (legs : list BundleLeg) (bundle_qty : Z)
    : OrderDecisionType * string + list FastLeg * Z :=
  match legs with
  | [] => inr ([], bundle_qty)
  | leg :: rest =>
      let '(side, ratio, asset_index) := fast_shape spec intent i leg in
      if negb (bool_decide (side = Buy)) then
        inl (OtRejectUnsupportedSide, "SELL legs are unsupported in fast fixed-shape v1"%string)
      else
        match find_fast_view depth_views asset_index i with
        | None => inl (OtRejectNoDepth, "missing or unusable depth"%string)
        | Some depth =>
            if (ratio <=? 0) || negb (depth_usable depth policy now_ns) then
              inl (OtRejectNoDepth, "missing or unusable depth"%string)
            else
              let executable := executable_ask_qty depth in
              if executable <? ratio then inl (OtRejectNoDepth, "insufficient executable depth"%string)
              else
                match fast_legs spec intent depth_views policy now_ns (S i) rest
                        (Z.min bundle_qty (Z.quot executable ratio)) with
                | inl rejection => inl rejection
                | inr (fast, bundle_qty) => inr (mkFastLeg depth ratio executable :: fast, bundle_qty)
                end
        end
  end.

(** [engine/order_decision/core/FastFixedShapeOrderDecisionImpl.cpp:349-385] decide: the loop that prices the legs. *)
Fixpoint fast_price (policy : RiskPolicySnapshot) (bundle_qty : Z) (legs : list FastLeg) (total_leg_cost : Z)
    : OrderDecisionType * string + list OrderDecisionLegLite * Z :=
  match legs with
  | [] => inr ([], total_leg_cost)
  | leg :: rest =>
      match checked_mul_i64 (fl_ratio leg) bundle_qty with
      | None => inl (OtRejectInternalError, "quantity overflow"%string)
      | Some leg_qty =>
          if fl_executable leg <? ceil_ratio_bps leg_qty (rp_min_depth_margin_bps policy) then
            inl (OtRejectPartialFillRisk, "depth margin failed"%string)
          else
            let priced := fast_buy_vwap (fl_depth leg) leg_qty in
            if negb (vm_ok priced) then inl (OtRejectNoDepth, "failed to price executable depth"%string)
            else
              match checked_add_i64 total_leg_cost (vm_total_cost_tick priced) with
              | None => inl (OtRejectNoDepth, "failed to price executable depth"%string)
              | Some total_leg_cost =>
                  match fast_price policy bundle_qty rest total_leg_cost with
                  | inl rejection => inl rejection
                  | inr (out, total_leg_cost) =>
                      inr (mkOrderDecisionLegLite 0 (dv_asset_index (fl_depth leg)) Buy leg_qty (vm_vwap_tick priced) 0
                             (vm_worst_price_tick priced) (vm_total_cost_tick priced) :: out, total_leg_cost)
                  end
              end
      end
  end.

(** [engine/order_decision/core/FastFixedShapeOrderDecisionImpl.cpp:396-405] decide: the cost of the size; the parts that
    overflow count as zero. *)
Definition fast_total_cost (config : OrderDecisionConfig) (bundle_qty total_leg_cost : Z) : option Z :=
  total ← checked_add_i64 total_leg_cost (multiply_or_zero (dc_fee_per_bundle_tick config) bundle_qty);
  total ← checked_add_i64 total (multiply_or_zero (dc_latency_buffer_per_bundle_tick config) bundle_qty);
  checked_add_i64 total (multiply_or_zero (dc_slippage_buffer_per_bundle_tick config) bundle_qty).

(** [engine/order_decision/core/FastFixedShapeOrderDecisionImpl.cpp:327-506] decide: price the size, test it and build the decision. *)
Definition fast_decision (intent : OpportunityIntent) (leg_count : nat) (bundle_id : Z)
    (depth_views : list MarketDepthView) (policy : RiskPolicySnapshot) (now_ns : Z) (config : OrderDecisionConfig)
    (guaranteed_per_bundle : Z) (legs : list FastLeg) (bundle_qty : Z) : OrderDecisionResult :=
  let bundle_qty := if 0 <? dc_max_bundle_qty config then Z.min bundle_qty (dc_max_bundle_qty config) else bundle_qty in
  if (bundle_qty <? Z.max 1 (dc_min_bundle_qty config)) || (bundle_qty =? i64_max) then
    inl (OtRejectNoDepth, "no executable bundle quantity"%string)
  else
    match fast_price policy bundle_qty legs 0 with
    | inl rejection => inl rejection
    | inr (out, total_leg_cost) =>
        match fast_total_cost config bundle_qty total_leg_cost with
        | None => inl (OtRejectInternalError, "cost overflow"%string)
        | Some total_cost =>
            if (0 <? rp_max_total_cost_tick policy) && (rp_max_total_cost_tick policy <? total_cost) then
              inl (OtRejectRiskBudget, "cost exceeds policy budget"%string)
            else
              match checked_mul_i64 guaranteed_per_bundle bundle_qty with
              | None => inl (OtRejectInternalError, "payout overflow"%string)
              | Some guaranteed_payout =>
                  match checked_sub_i64 guaranteed_payout total_cost with
                  | None => inl (OtRejectInternalError, "edge overflow"%string)
                  | Some total_edge =>
                      let point := mkEdgeCurvePoint bundle_qty total_cost (Z.quot total_edge bundle_qty) total_edge
                                     (ratio_bps total_edge total_cost) in
                      if rejected_by_edge policy point then inl (OtRejectLowEdge, "edge below policy threshold"%string)
                      else
                        inr (mkOrderDecisionLite 0 (oi_intent_id intent) bundle_id OtPaperOrderDecision bundle_qty
                          guaranteed_payout total_cost
                          (multiply_or_zero (dc_fee_per_bundle_tick config) bundle_qty)
                          (multiply_or_zero (dc_latency_buffer_per_bundle_tick config) bundle_qty)
                          (multiply_or_zero (dc_slippage_buffer_per_bundle_tick config) bundle_qty)
                          (ep_unit_edge_tick point) total_edge (ep_edge_bps point) leg_count
                          (std_array kMaxOrderDecisionLegs decision_leg_lite0 out)
                          (if negb (oi_snapshot_version_hash intent =? 0) then oi_snapshot_version_hash intent
                           else hash_depth_views depth_views)
                          (oi_oracle_artifact_hash intent) (oi_bundle_hash intent) (decision_policy_hash policy) now_ns
                          (decision_expiry intent config now_ns) 0)
                  end
              end
        end
    end.

(** [engine/order_decision/core/FastFixedShapeOrderDecisionImpl.cpp:194-544] FastFixedShapeOrderDecisionImpl::decide. *)
Definition fast_decide (intent : OpportunityIntent) (bundle : CandidateBundle) (depth_views : list MarketDepthView)
    (policy : RiskPolicySnapshot) (now_ns : Z) (config : OrderDecisionConfig) (cache : option OrderDecisionCache)
    : option (option OrderDecisionCache * OrderDecisionResult) :=
  match input_rejection intent bundle now_ns with
  | Some rejection => Some (cache, inl rejection)
  | None =>
      with_memo cache (make_decision_memo_key intent bundle policy config now_ns)
        (let '(cache, spec) :=
           match cache with
           | Some c => let '(c, spec) := fixed_shape_spec c intent bundle in (Some c, Some spec)
           | None => (None, None)
           end in
         let leg_count := match spec with Some s => fx_leg_count s | None => cb_leg_count bundle end in
         let guaranteed :=
           match spec with
           | Some s => fx_guaranteed_payout_per_bundle_tick s
           | None => guaranteed_per_bundle intent bundle
           end in
         Some (cache,
           match fast_legs spec intent depth_views policy now_ns 0 (take leg_count (cb_legs bundle)) i64_max with
           | inl rejection => inl rejection
           | inr (legs, bundle_qty) =>
               match fast_decision intent leg_count (cb_bundle_id bundle) depth_views policy now_ns config guaranteed legs
                       bundle_qty with
               | inl rejection => inl rejection
               | inr decision => finish_decision config bundle decision
               end
           end))
  end.

(** ** The engine *)

(** [engine/order_decision/core/OrderDecisionEngine.h:14-30] OrderDecisionEngine. *)
Record OrderDecisionEngine := mkOrderDecisionEngine {
  de_config : OrderDecisionConfig;
  de_cache : OrderDecisionCache
}.

(** [engine/order_decision/core/OrderDecisionEngine.cpp:8-9] OrderDecisionEngine. *)
Definition new_decision_engine (config : OrderDecisionConfig) : OrderDecisionEngine :=
  mkOrderDecisionEngine config decision_cache0.

(** [engine/order_decision/core/OrderDecisionEngine.cpp:11-42] OrderDecisionEngine::decide. *)
Definition engine_decide (e : OrderDecisionEngine) (intent : OpportunityIntent) (bundle : CandidateBundle)
    (depth_views : list MarketDepthView) (policy : RiskPolicySnapshot) (now_ns : Z)
    : option (OrderDecisionEngine * OrderDecisionResult) :=
  let config := de_config e in
  let left_with cache := mkOrderDecisionEngine config (default (de_cache e) cache) in
  let generic e :=
    '(cache, result) ← generic_decide intent bundle depth_views policy now_ns config (Some (de_cache e));
    Some (left_with cache, result) in
  match dc_impl_mode config with
  | FastFixedShape =>
      '(cache, result) ← fast_decide intent bundle depth_views policy now_ns config (Some (de_cache e));
      match result with
      | inr _ => Some (left_with cache, result)
      | inl _ => if negb (dc_fast_fixed_shape_fallback_to_generic config) then Some (left_with cache, result)
                 else generic (left_with cache)
      end
  | Generic => generic e
  end.

(** ** What a decision satisfies *)

(** One call of the engine. *)
Record SizeRequest := mkSizeRequest {
  rq_intent : OpportunityIntent;
  rq_bundle : CandidateBundle;
  rq_views : list MarketDepthView;
  rq_policy : RiskPolicySnapshot;
  rq_now : Z
}.

(** Sixteen leg slots, books as the state builds them whose margins fit in 64
    bits, fees and a time to live that are not negative, and a snapshot the
    intent names. *)
Record request_ok (config : OrderDecisionConfig) (r : SizeRequest) : Prop := {
  ro_slots : length (cb_legs (rq_bundle r)) = kMaxBundleLegs;
  ro_views : Forall size_view_ok (rq_views r);
  ro_prefix : Forall view_wf (rq_views r);
  ro_margin : Forall (λ v, exact_qty (view_asks v) * rp_min_depth_margin_bps (rq_policy r) <= i64_max) (rq_views r);
  ro_snapshot : oi_snapshot_version_hash (rq_intent r) ≠ 0;
  ro_fees : 0 <= dc_fee_per_bundle_tick config ∧ 0 <= dc_latency_buffer_per_bundle_tick config ∧
            0 <= dc_slippage_buffer_per_bundle_tick config;
  ro_expiry : 0 <= oi_expires_at_ns (rq_intent r);
  ro_ttl : 0 <= rq_now r < rq_now r + dc_default_ttl_ns config ∧ rq_now r + dc_default_ttl_ns config < u64_mod
}.

Definition decided (r : SizeRequest) (d : OrderDecisionLite) : Prop :=
  decision_ok (rq_intent r) d (rq_now r) (rq_policy r).

Lemma decision_policy_hash_eq policy : decision_policy_hash policy = policy_hash_for policy.
Proof. reflexivity. Qed.

Lemma sealed_hash d : compute_order_decision_hash (seal_decision d) = od_decision_hash (seal_decision d).
Proof. reflexivity. Qed.

Lemma input_rejection_None intent bundle now :
  input_rejection intent bundle now = None →
  (oi_expires_at_ns intent = 0 ∨ now < oi_expires_at_ns intent) ∧ oi_bundle_id intent = cb_bundle_id bundle ∧
  (0 < cb_leg_count bundle <= kMaxOrderDecisionLegs)%nat.
Proof.
  unfold input_rejection. intros H. step_if_in H; [done|]. step_if_in H; [done|]. step_if_in H; [done|]. breflect.
  split_and!; lia.
Qed.

Lemma decision_expiry_later intent config now :
  (oi_expires_at_ns intent = 0 ∨ now < oi_expires_at_ns intent) →
  0 <= now < now + dc_default_ttl_ns config → now + dc_default_ttl_ns config < u64_mod →
  now < decision_expiry intent config now.
Proof.
  intros He Ht Hmax. unfold decision_expiry. rewrite wrap_u64_id by rlia.
  destruct (Z.eqb_spec (oi_expires_at_ns intent) 0); cbn [negb]; lia.
Qed.

(** A decision built for a request passes risk's checks once its prices and hash are in. *)
Lemma finish_decided config r d d' :
  finish_decision config (rq_bundle r) d = inr d' → length (od_legs d) = kMaxOrderDecisionLegs →
  od_type d = OtPaperOrderDecision → 0 < od_chosen_bundle_qty d → 0 < od_estimated_total_cost_tick d →
  (0 < od_leg_count d <= kMaxOrderDecisionLegs)%nat → rq_now r < od_expires_at_ns d →
  od_source_intent_id d = oi_intent_id (rq_intent r) → od_bundle_id d = oi_bundle_id (rq_intent r) →
  od_snapshot_version_hash d = oi_snapshot_version_hash (rq_intent r) →
  od_policy_hash d = policy_hash_for (rq_policy r) →
  (0 < rp_max_total_cost_tick (rq_policy r) → od_estimated_total_cost_tick d <= rp_max_total_cost_tick (rq_policy r)) →
  rejected_by_edge (rq_policy r) (mkEdgeCurvePoint (od_chosen_bundle_qty d) (od_estimated_total_cost_tick d)
    (od_unit_edge_tick d) (od_total_edge_tick d) (od_edge_bps d)) = false →
  decided r d'.
Proof.
  unfold finish_decision. intros H. intros. destruct (limit_legs _ _ _) as [reason|legs]; [done|]. injection H as <-.
  unfold rejected_by_edge in *; cbn [ep_total_edge_tick ep_unit_edge_tick ep_edge_bps] in *. breflect.
  unfold decided. split; destruct d; cbn in *; done || lia.
Qed.

Lemma bundle_total_ge config q leg_cost total :
  bundle_total_cost config q leg_cost = Some total → 0 <= q → 0 <= dc_fee_per_bundle_tick config →
  0 <= dc_latency_buffer_per_bundle_tick config → 0 <= dc_slippage_buffer_per_bundle_tick config → leg_cost <= total.
Proof.
  unfold bundle_total_cost. intros H Hq Hf Hl Hs.
  destruct (checked_mul_i64 (dc_fee_per_bundle_tick config) q) as [fee|] eqn:E1; [|done]. apply checked_mul_i64_Some in E1 as [_ ->].
  cbn [mbind option_bind] in H.
  destruct (checked_mul_i64 (dc_latency_buffer_per_bundle_tick config) q) as [lat|] eqn:E2; [|done].
  apply checked_mul_i64_Some in E2 as [_ ->]. cbn [mbind option_bind] in H.
  destruct (checked_mul_i64 (dc_slippage_buffer_per_bundle_tick config) q) as [slip|] eqn:E3; [|done].
  apply checked_mul_i64_Some in E3 as [_ ->]. cbn [mbind option_bind] in H.
  destruct (checked_add_i64 leg_cost _) as [t1|] eqn:E4; [|done]. apply checked_add_i64_Some in E4 as [_ ->].
  cbn [mbind option_bind] in H.
  destruct (checked_add_i64 (leg_cost + _) _) as [t2|] eqn:E5; [|done]. apply checked_add_i64_Some in E5 as [_ ->].
  cbn [mbind option_bind] in H. apply checked_add_i64_Some in H as [_ ->]. nia.
Qed.

(** An admissible size costs something, and is within the budget and over the thresholds. *)
Lemma size_point_admissible legs policy config guaranteed q p :
  size_point legs policy config guaranteed q = Some p → (length legs ≠ 0)%nat → Forall size_leg_ok legs → 0 < q →
  0 <= dc_fee_per_bundle_tick config ∧ 0 <= dc_latency_buffer_per_bundle_tick config ∧
    0 <= dc_slippage_buffer_per_bundle_tick config →
  0 < ep_total_cost_tick p ∧ rejected_by_edge policy p = false ∧
  (0 < rp_max_total_cost_tick policy → ep_total_cost_tick p <= rp_max_total_cost_tick policy).
Proof.
  intros H Hne Hok Hq (Hf & Hl & Hs). pose proof (size_point_qty legs policy config guaranteed q p H) as [_ Hm].
  unfold size_point in H. step_if_in H; [|done].
  destruct (bundle_total_cost _ _ _) as [t|] eqn:Et; [|done]. cbn [mbind option_bind] in H.
  step_if_in H; [done|]. unfold edge_point in H. destruct (checked_mul_i64 _ _); [|done]. cbn [mbind option_bind] in H.
  destruct (checked_sub_i64 _ _); [|done]. cbn [mbind option_bind] in H. step_if_in H; [done|]. injection H as <-.
  cbn [ep_total_cost_tick]. pose proof (bundle_total_ge _ _ _ _ Et ltac:(lia) Hf Hl Hs) as Hge.
  assert (0 < bundle_cost legs q).
  { destruct legs as [|leg legs]; [done|]. apply Forall_cons in Hok as [Hleg Hok].
    cbn in Hm. apply andb_true_iff in Hm as [Hml Hms]. apply leg_margin_fits in Hml as [_ Hfit].
    pose proof (bundle_cost_mono _ legs 0 q Hok ltac:(lia) Hms) as Hrest.
    cbn [bundle_cost sum_list_Z]. fold (bundle_cost legs q).
    destruct Hleg as [[[Hcok Ht _] _] Hr]. unfold leg_cost_at, cost_of.
    pose proof (curve_cost_bounds 0 0 _ (sl_ratio leg * q) Hcok ltac:(lia) ltac:(rewrite <- Ht; nia)). nia. }
  split_and!; [lia|done|]. intros Hpos. apply andb_false_iff in Hb0 as [Hb0|Hb0]; breflect; lia.
Qed.

(** ** The memo only holds decisions that pass *)

Definition request_key (config : OrderDecisionConfig) (r : SizeRequest) : DecisionMemoKey :=
  make_decision_memo_key (rq_intent r) (rq_bundle r) (rq_policy r) config (rq_now r).

(** Policies with one hash have one set of limits. *)
Definition policies_agree (rs : list SizeRequest) : Prop :=
  ∀ r1 r2, r1 ∈ rs → r2 ∈ rs → decision_policy_hash (rq_policy r1) = decision_policy_hash (rq_policy r2) →
    rp_max_total_cost_tick (rq_policy r1) = rp_max_total_cost_tick (rq_policy r2) ∧
    rp_min_post_risk_total_edge_tick (rq_policy r1) = rp_min_post_risk_total_edge_tick (rq_policy r2) ∧
    rp_min_post_risk_unit_edge_tick (rq_policy r1) = rp_min_post_risk_unit_edge_tick (rq_policy r2) ∧
    rp_min_edge_bps (rq_policy r1) = rp_min_edge_bps (rq_policy r2).

Definition memo_ok (rs : list SizeRequest) (config : OrderDecisionConfig) (c : OrderDecisionCache) : Prop :=
  ∀ key d, dx_decisions c !! key = Some d →
    ∃ r, r ∈ rs ∧ key = request_key config r ∧ oi_bundle_id (rq_intent r) = cb_bundle_id (rq_bundle r) ∧ decided r d.

Section run.
Context (rs : list SizeRequest) (config : OrderDecisionConfig) (Hagree : policies_agree rs).

Lemma memo_transfer r1 r2 d :
  r1 ∈ rs → r2 ∈ rs → request_key config r1 = request_key config r2 →
  oi_bundle_id (rq_intent r1) = cb_bundle_id (rq_bundle r1) → oi_bundle_id (rq_intent r2) = cb_bundle_id (rq_bundle r2) →
  decided r1 d → decided r2 d.
Proof.
  intros H1 H2 Hkey Hb1 Hb2 [? ? ? ? ? Hi Hbid Hsn ? Hph ? ? ? ?].
  unfold request_key, make_decision_memo_key in Hkey.
  injection Hkey as Kb Kh Ks Kp Ki Ke Kn. destruct (Hagree r1 r2 H1 H2 Kp) as (E1 & E2 & E3 & E4).
  change (policy_hash_for (rq_policy r1) = policy_hash_for (rq_policy r2)) in Kp.
  split; rewrite <- ?E1, <- ?E2, <- ?E3, <- ?E4, <- ?Kn; done || congruence.
Qed.

(** Every specification in the cache has the shape of some bundle. *)
Definition specs_ok (c : OrderDecisionCache) : Prop :=
  map_Forall (λ _ s, (0 < fx_leg_count s <= kMaxOrderDecisionLegs)%nat) (dx_specs c).

(** A memoised call: what is found was decided for an equal request, and what is computed is remembered. *)
Lemma with_memo_ok r c c' res compute :
  r ∈ rs → oi_bundle_id (rq_intent r) = cb_bundle_id (rq_bundle r) → memo_ok rs config c →
  compute = Some (Some c', res) → dx_decisions c' = dx_decisions c → specs_ok c → specs_ok c' →
  (∀ d, res = inr d → decided r d) →
  ∃ c2 res2, with_memo (Some c) (request_key config r) compute = Some (Some c2, res2) ∧ memo_ok rs config c2 ∧
    specs_ok c2 ∧ ∀ d, res2 = inr d → decided r d.
Proof.
  intros Hr Hb Hc -> Hd Hs Hs' Hres. unfold with_memo. cbn [mbind option_bind]. unfold find_decision.
  destruct (dx_decisions c !! request_key config r) as [d|] eqn:E.
  - exists c, (inr d). split_and!; [done|done|done|]. intros ? [= <-].
    destruct (Hc _ _ E) as (r1 & Hr1 & Hk & Hb1 & Hd1). by apply (memo_transfer r1 r).
  - assert (Hc' : memo_ok rs config c') by (intros key d; rewrite Hd; apply Hc).
    destruct res as [rej|d]; [by exists c', (inl rej)|]. eexists _, _. split_and!; [reflexivity| |done|done].
    intros key d' Hk. unfold store_decision in Hk; cbn in Hk. rewrite lookup_insert in Hk. case_decide as Heq.
    + injection Hk as <-. exists r. split_and!; auto.
    + by apply Hc'.
Qed.

Lemma generic_decide_ok r c :
  r ∈ rs → request_ok config r → memo_ok rs config c → specs_ok c →
  ∃ c' res, generic_decide (rq_intent r) (rq_bundle r) (rq_views r) (rq_policy r) (rq_now r) config (Some c) =
      Some (Some c', res) ∧ memo_ok rs config c' ∧ specs_ok c' ∧ ∀ d, res = inr d → decided r d.
Proof.
  intros Hr [Hslots Hviews _ Hmargin _ Hfees Hexp [Ht1 Ht2]] Hc Hspecs. unfold generic_decide.
  destruct (input_rejection _ _ _) as [rej|] eqn:Hin; [by exists c, (inl rej)|].
  apply input_rejection_None in Hin as (He & Hbid & Hcnt).
  set (input := mkBundleSizeInput _ _ _ _ _ _).
  destruct (optimize_sound input (rq_intent r) (rq_bundle r) (rq_policy r) eq_refl eq_refl eq_refl Hslots Hviews Hmargin)
    as (cache & size & Hopt & _ & Hkeep & Hsize).
  destruct (Hkeep c eq_refl) as (c' & -> & Hdec & Hsp).
  eapply with_memo_ok; [done|done|done| |exact Hdec|done|unfold specs_ok; by rewrite Hsp|].
  { rewrite Hopt. cbn [mbind option_bind]. reflexivity. }
  intros d Hd. destruct size as [reason|b]; [done|]. destruct (Hsize b eq_refl) as (legs & Hlen & _ & Hp & Hq & [Hpt Hpay Hcount Hslots2 Hlegs]).
  cbn [bi_config input] in *.
  assert (Hok : Forall size_leg_ok legs) by (eapply Forall_impl; [exact Hp|by intros l [? _]]).
  destruct (size_point_admissible _ _ _ _ _ _ Hpt ltac:(lia) Hok Hq Hfees) as (Hpos & Hedge & Hbudget).
  apply (finish_decided config r _ d Hd); cbn [generic_decision od_legs od_type od_chosen_bundle_qty od_estimated_total_cost_tick
    od_leg_count od_expires_at_ns od_source_intent_id od_bundle_id od_snapshot_version_hash od_policy_hash]; try done.
  - lia.
  - by apply decision_expiry_later.
Qed.

(** Lots priced by the fast path cost at least a tick each. *)
Lemma fast_buy_positive view q :
  view_wf view → 0 < q <= i64_max → vm_ok (fast_buy_vwap view q) = true → 0 < vm_total_cost_tick (fast_buy_vwap view q).
Proof.
  intros [Ha Hc Hp] Hq. unfold fast_buy_vwap. rewrite Hp, prefix_ask_count by done.
  rewrite (proj2 (Nat.ltb_lt _ _)) by lia. rewrite buy_vwap_prefix_spec by (done || lia). cbv zeta.
  destruct (Z.ltb_spec (exact_qty (take (dv_ask_count view) (dv_asks view))) q); [done|].
  case_bool_decide; [|done]. intros _. cbn.
  pose proof (fill_bounds (take (dv_ask_count view) (dv_asks view)) q 0 ltac:(lia) ltac:(lia)) as Hb.
  pose proof (fill_unfilled (take (dv_ask_count view) (dv_asks view)) q ltac:(lia)) as Hu.
  destruct (fill _ q) as [cost u]; cbn [fst snd] in *. lia.
Qed.

Lemma fast_price_positive policy q legs total out total' :
  fast_price policy q legs total = inr (out, total') → 0 < q → 0 <= total → legs ≠ [] ∨ 0 < total →
  Forall (λ l, view_wf (fl_depth l) ∧ 0 < fl_ratio l) legs → 0 < total' ∧ length out = length legs.
Proof.
  intros H Hq. revert total out H. induction legs as [|l legs IH]; intros total out H Ht Hne Hwf; cbn [fast_price] in H.
  { injection H as <- <-. destruct Hne; [done|]. split; [lia|done]. }
  apply Forall_cons in Hwf as [[Hv Hr] Hwf].
  destruct (checked_mul_i64 _ q) as [lq|] eqn:E; [|done]. apply checked_mul_i64_Some in E as [Hlq ->].
  step_if_in H; [done|]. step_if_in H; [done|].
  destruct (checked_add_i64 total _) as [t|] eqn:E; [|done]. apply checked_add_i64_Some in E as [Ht' ->].
  destruct (fast_price policy q legs _) as [|[out' t']] eqn:E; [done|]. injection H as <- <-.
  breflect. assert (0 < vm_total_cost_tick (fast_buy_vwap (fl_depth l) (fl_ratio l * q))).
  { apply fast_buy_positive; [done|rlia || nia|done]. }
  destruct (IH _ _ E) as [? ?]; [lia|right; lia|done|]. split; [done|cbn; lia].
Qed.

Lemma fast_legs_wf spec intent views policy now i legs q out q' :
  fast_legs spec intent views policy now i legs q = inr (out, q') → Forall view_wf views →
  Forall (λ l, view_wf (fl_depth l) ∧ 0 < fl_ratio l) out ∧ length out = length legs.
Proof.
  intros H Hv. revert i q out H. induction legs as [|leg legs IH]; intros i q out H; cbn [fast_legs] in H.
  { injection H as <- _. by split. }
  destruct (fast_shape spec intent i leg) as [[side ratio] asset]. step_if_in H; [done|].
  destruct (find_fast_view _ _ _) as [view|] eqn:Ev; [|done]. step_if_in H; [done|]. step_if_in H; [done|].
  destruct (fast_legs _ _ _ _ _ _ _ _) as [|[out' q2]] eqn:E; [done|]. injection H as <- <-. breflect.
  destruct (IH _ _ _ E) as [Hall Hlen]. split; [|cbn; lia]. constructor; [|done]. cbn. split; [|lia].
  rewrite Forall_forall in Hv. apply Hv. unfold find_fast_view in Ev. step_if_in Ev; [by eapply find_size_view_elem|].
  by eapply list_elem_of_lookup_2.
Qed.

Lemma multiply_or_zero_nonneg a q : 0 <= a → 0 <= q → 0 <= multiply_or_zero a q.
Proof.
  intros Ha Hq. unfold multiply_or_zero. destruct (checked_mul_i64 a q) as [v|] eqn:E; cbn; [|lia].
  apply checked_mul_i64_Some in E as [_ ->]. nia.
Qed.

(** What the fast path decides for a request passes as well. *)
Lemma fast_decision_ok r leg_count guaranteed legs q d d' :
  request_ok config r → input_rejection (rq_intent r) (rq_bundle r) (rq_now r) = None →
  Forall (λ l, view_wf (fl_depth l) ∧ 0 < fl_ratio l) legs → legs ≠ [] → (0 < leg_count <= kMaxOrderDecisionLegs)%nat →
  fast_decision (rq_intent r) leg_count (cb_bundle_id (rq_bundle r)) (rq_views r) (rq_policy r) (rq_now r) config guaranteed
    legs q = inr d →
  finish_decision config (rq_bundle r) d = inr d' → decided r d'.
Proof.
  intros [_ _ _ _ Hsnap (Hf1 & Hf2 & Hf3) _ [Ht1 Ht2]] (He & Hbid & _)%input_rejection_None Hwf Hne Hcnt H Hfin.
  unfold fast_decision in H. set (size := if 0 <? dc_max_bundle_qty config then _ else q) in H.
  step_if_in H; [done|]. apply orb_false_iff in Hb as [Hsize%Z.ltb_ge _].
  destruct (fast_price _ size legs 0) as [|[out cost]] eqn:Ep; [done|].
  destruct (fast_price_positive _ _ _ _ _ _ Ep ltac:(lia) ltac:(lia) (or_introl Hne) Hwf) as [Hcost _].
  destruct (fast_total_cost config size cost) as [total|] eqn:Et; [|done].
  assert (Htotal : cost <= total).
  { unfold fast_total_cost in Et.
    pose proof (multiply_or_zero_nonneg (dc_fee_per_bundle_tick config) size Hf1 ltac:(lia)).
    pose proof (multiply_or_zero_nonneg (dc_latency_buffer_per_bundle_tick config) size Hf2 ltac:(lia)).
    pose proof (multiply_or_zero_nonneg (dc_slippage_buffer_per_bundle_tick config) size Hf3 ltac:(lia)).
    destruct (checked_add_i64 cost _) as [t1|] eqn:E1; [|done]. apply checked_add_i64_Some in E1 as [_ ->].
    cbn [mbind option_bind] in Et. destruct (checked_add_i64 (cost + _) _) as [t2|] eqn:E2; [|done].
    apply checked_add_i64_Some in E2 as [_ ->]. cbn [mbind option_bind] in Et. apply checked_add_i64_Some in Et as [_ ->]. lia. }
  step_if_in H; [done|]. destruct (checked_mul_i64 guaranteed size); [|done].
  destruct (checked_sub_i64 _ total); [|done]. step_if_in H; [done|]. injection H as <-.
  apply (finish_decided config r _ d' Hfin); cbn [od_legs od_type od_chosen_bundle_qty od_estimated_total_cost_tick
    od_leg_count od_expires_at_ns od_source_intent_id od_bundle_id od_snapshot_version_hash od_policy_hash
    od_unit_edge_tick od_total_edge_tick od_edge_bps]; try done; try lia.
  - apply length_std_array.
  - by apply decision_expiry_later.
  - by rewrite (proj2 (Z.eqb_neq _ _)).
Qed.

Lemma fast_decide_ok r c :
  r ∈ rs → request_ok config r → memo_ok rs config c → specs_ok c →
  ∃ c' res, fast_decide (rq_intent r) (rq_bundle r) (rq_views r) (rq_policy r) (rq_now r) config (Some c) =
      Some (Some c', res) ∧ memo_ok rs config c' ∧ specs_ok c' ∧ ∀ d, res = inr d → decided r d.
Proof.
  intros Hr Hok Hc Hspecs. unfold fast_decide.
  destruct (input_rejection _ _ _) as [rej|] eqn:Hin; [by exists c, (inl rej)|].
  pose proof (input_rejection_None _ _ _ Hin) as (He & Hbid & Hcnt).
  destruct (fixed_shape_spec c (rq_intent r) (rq_bundle r)) as [c' spec] eqn:Espec.
  assert (Hspec : (0 < fx_leg_count spec <= kMaxOrderDecisionLegs)%nat ∧ specs_ok c' ∧ dx_decisions c' = dx_decisions c).
  { unfold fixed_shape_spec in Espec. destruct (dx_specs c !! _) as [s|] eqn:E; injection Espec as <- <-.
    - split_and!; try done; apply (Hspecs _ _ E).
    - assert (Hb : (0 < fx_leg_count (build_spec (rq_intent r) (rq_bundle r)) <= kMaxOrderDecisionLegs)%nat) by (cbn; lia).
      split_and!; [apply Hb|apply Hb| |done]. unfold specs_ok; cbn. by apply map_Forall_insert_2. }
  destruct Hspec as (Hcount & Hs' & Hdec).
  eapply with_memo_ok; [done|done|done|reflexivity|exact Hdec|done|done|].
  intros d Hd. destruct (fast_legs _ _ _ _ _ _ _ _) as [|[legs q]] eqn:El; [done|].
  destruct (fast_decision _ _ _ _ _ _ _ _ _ _) as [|d0] eqn:Ed; [done|].
  destruct (fast_legs_wf _ _ _ _ _ _ _ _ _ _ El (ro_prefix _ _ Hok)) as [Hwf Hlen].
  eapply (fast_decision_ok r); [done|done|exact Hwf| |exact Hcount|exact Ed|exact Hd].
  intros ->. rewrite length_take, (ro_slots _ _ Hok) in Hlen. cbn [length] in Hlen.
  unfold kMaxBundleLegs, kMaxOrderDecisionLegs in *. lia.
Qed.

Lemma engine_decide_ok e r :
  de_config e = config → r ∈ rs → request_ok config r → memo_ok rs config (de_cache e) → specs_ok (de_cache e) →
  ∃ e' res, engine_decide e (rq_intent r) (rq_bundle r) (rq_views r) (rq_policy r) (rq_now r) = Some (e', res) ∧
    de_config e' = config ∧ memo_ok rs config (de_cache e') ∧ specs_ok (de_cache e') ∧ ∀ d, res = inr d → decided r d.
Proof.
  intros Hcfg Hr Hok Hmemo Hspecs. unfold engine_decide. rewrite Hcfg.
  assert (Hgen : ∀ c c0, memo_ok rs config c → specs_ok c → ∃ e' res,
    ('(cache, result) ← generic_decide (rq_intent r) (rq_bundle r) (rq_views r) (rq_policy r) (rq_now r) config (Some c);
     Some (mkOrderDecisionEngine config (default c0 cache), result)) = Some (e', res) ∧
    de_config e' = config ∧ memo_ok rs config (de_cache e') ∧ specs_ok (de_cache e') ∧ ∀ d, res = inr d → decided r d).
  { intros c c0 Hm Hs. destruct (generic_decide_ok r c Hr Hok Hm Hs) as (c' & res & -> & Hm' & Hs' & Hd).
    cbn [mbind option_bind]. eexists _, _. split_and!; [reflexivity|done|done|done|done]. }
  destruct (dc_impl_mode config); [by apply Hgen|].
  destruct (fast_decide_ok r (de_cache e) Hr Hok Hmemo Hspecs) as (c' & res & -> & Hm' & Hs' & Hd).
  cbn [mbind option_bind default from_option]. destruct res as [rej|d].
  - step_if; [eexists _, _; split_and!; [reflexivity|done..]|]. cbn [de_cache]. by apply Hgen.
  - eexists _, _. split_and!; [reflexivity|done..].
Qed.
End run.

(** ** The engine, call after call *)

Fixpoint decide_run (e : OrderDecisionEngine) (rs : list SizeRequest) : option (list OrderDecisionResult) :=
  match rs with
  | [] => Some []
  | r :: rest =>
      '(e, res) ← engine_decide e (rq_intent r) (rq_bundle r) (rq_views r) (rq_policy r) (rq_now r);
      results ← decide_run e rest; Some (res :: results)
  end.

Lemma decide_run_ok rs config e part :
  policies_agree rs → part ⊆ rs → Forall (request_ok config) part → de_config e = config →
  memo_ok rs config (de_cache e) → specs_ok (de_cache e) →
  ∃ results, decide_run e part = Some results ∧ Forall2 (λ r res, ∀ d, res = inr d → decided r d) part results.
Proof.
  intros Hagree. revert e. induction part as [|r part IH]; intros e Hsub Hok Hcfg Hm Hs; cbn [decide_run].
  { exists []. by split. }
  apply Forall_cons in Hok as [Hr Hok].
  destruct (engine_decide_ok rs config Hagree e r Hcfg ltac:(set_solver) Hr Hm Hs) as (e' & res & -> & Hcfg' & Hm' & Hs' & Hd).
  cbn [mbind option_bind]. destruct (IH e' ltac:(set_solver) Hok Hcfg' Hm' Hs') as (results & -> & Hall).
  cbn [mbind option_bind]. exists (res :: results). split; [done|by constructor].
Qed.

(** C7. What sizing decides, risk accepts: whichever implementation the
    engine runs, and whatever earlier calls left in its cache, every call
    returns, and a decision it returns passes all the checks the risk engine
    makes of a decision against that call's intent, policy and time - it is
    sized and unexpired, names its intent, bundle, snapshot and policy, its hash
    is the recomputed one, and it is within the cost and edge limits. *)
Theorem decisions_pass_risk config rs :
  policies_agree rs → Forall (request_ok config) rs →
  ∃ results, decide_run (new_decision_engine config) rs = Some results ∧
  ∀ i r d input, rs !! i = Some r → results !! i = Some (inr d) → ri_now_ns input = rq_now r →
    decision_rejection (rq_intent r) d input (rq_policy r) = None.
Proof.
  intros Hagree Hok.
  destruct (decide_run_ok rs config (new_decision_engine config) rs Hagree ltac:(done) Hok eq_refl) as (results & Hrun & Hall).
  { intros key d Hd. cbn in Hd. by rewrite lookup_empty in Hd. }
  { apply map_Forall_empty. }
  exists results. split; [done|]. intros i r d input Hr Hd Hnow. apply decision_rejection_None. rewrite Hnow.
  destruct (Forall2_lookup_lr _ _ _ _ _ _ Hall Hr Hd d eq_refl). by split.
Qed.

(** ** Examples *)

Definition demo_request (now : Z) : SizeRequest :=
  mkSizeRequest (demo_size_intent <| oi_snapshot_version_hash := 77 |>) demo_bundle demo_size_views (margin_policy 10000) now.
Definition fast_config : OrderDecisionConfig :=
  mkOrderDecisionConfig FastFixedShape true 1 0 100 0 0 0 0 1000000000 true false.

Lemma demo_request_ok now : 0 <= now <= 1000 → request_ok fast_config (demo_request now).
Proof.
  intros Hnow. split; try (cbn; lia).
  - reflexivity.
  - apply Forall_cons; split; [split; [cbn; unfold kMaxSnapshotDepth; lia|vm_compute; reflexivity]|].
    apply Forall_cons; split; [split; [cbn; unfold kMaxSnapshotDepth; lia|vm_compute; reflexivity]|]. by apply Forall_nil.
  - apply Forall_cons; split; [split; [reflexivity|cbn; unfold kMaxSnapshotDepth; lia|reflexivity]|].
    apply Forall_cons; split; [split; [reflexivity|cbn; unfold kMaxSnapshotDepth; lia|reflexivity]|]. by apply Forall_nil.
  - apply Forall_cons; split; [vm_compute; discriminate|]. apply Forall_cons; split; [vm_compute; discriminate|]. by apply Forall_nil.
  - vm_compute. discriminate.
Qed.

Definition sizes_of (results : option (list OrderDecisionResult)) : list (option Z) :=
  match results with
  | Some l => (λ r, match r with inr d => Some (od_chosen_bundle_qty d) | inl _ => None end) <$> l
  | None => []
  end.

(** Two equal calls and a later one: the second is answered from the memo. *)
Lemma decisions_pass_risk_witness :
  let rs := [demo_request 1; demo_request 1; demo_request 2] in
  sizes_of (decide_run (new_decision_engine fast_config) rs) = [Some 15; Some 15; Some 15] ∧
  ∃ results, decide_run (new_decision_engine fast_config) rs = Some results ∧
    ∀ d input, results !! 1%nat = Some (inr d) → ri_now_ns input = 1 →
      decision_rejection (rq_intent (demo_request 1)) d input (margin_policy 10000) = None.
Proof.
  intros rs. split; [vm_compute; reflexivity|].
  assert (Hok : Forall (request_ok fast_config) rs).
  { apply Forall_cons; split; [apply demo_request_ok; lia|]. apply Forall_cons; split; [apply demo_request_ok; lia|].
    apply Forall_cons; split; [apply demo_request_ok; lia|]. by apply Forall_nil. }
  assert (Hagree : policies_agree rs).
  { intros r1 r2 H1 H2 _. assert (Hp : ∀ r, r ∈ rs → rq_policy r = margin_policy 10000).
    { intros r Hr. subst rs. repeat (apply elem_of_cons in Hr as [->|Hr]; [reflexivity|]). by apply not_elem_of_nil in Hr. }
    by rewrite (Hp r1 H1), (Hp r2 H2). }
  destruct (decisions_pass_risk fast_config rs Hagree Hok) as (results & Hrun & Hall).
  exists results. split; [exact Hrun|]. intros d input Hd Hnow. exact (Hall 1%nat _ d input eq_refl Hd Hnow).
Defined.

(** The fast path sizes an intent that names no snapshot against the hash of
    the views it was given; risk compares it with the intent's zero and refuses. *)
Example fast_without_snapshot_refused :
  match engine_decide (new_decision_engine fast_config) demo_size_intent demo_bundle demo_size_views (margin_policy 10000) 1 with
  | Some (_, inr d) =>
      decision_rejection demo_size_intent d (input0 <| ri_now_ns := 1 |>) (margin_policy 10000) =
      Some (RrInvalidIntent, "decision snapshot hash mismatch"%string)
  | _ => False
  end.
Proof. vm_compute. reflexivity. Qed.

(** A fee that overflows counts as nothing in the fast path, while the generic
    one gives the size up. *)
Example fast_drops_overflowing_fee :
  fast_total_cost (fast_config <| dc_fee_per_bundle_tick := 1000000000000000000 |>) 15 6 = Some 6 ∧
  bundle_total_cost (fast_config <| dc_fee_per_bundle_tick := 1000000000000000000 |>) 15 6 = None.
Proof. vm_compute. auto. Qed.

(** The shape's key leaves out the payout and the lots an intent brings along:
    the second of two intents that differ in them alone is decided with the
    payout of the first. *)
Example spec_keeps_old_payout :
  let bundle := demo_bundle <| cb_guaranteed_payout_tick := 0 |> in
  let first := demo_size_intent <| oi_guaranteed_payout_tick := 1000000 |> in
  let second := demo_size_intent <| oi_guaranteed_payout_tick := 500000 |> in
  fx_guaranteed_payout_per_bundle_tick (fixed_shape_spec (fixed_shape_spec decision_cache0 first bundle).1 second bundle).2 = 1000000.
Proof. vm_compute. reflexivity. Qed.
