(* ===== verification/ExecutionTypes.v ===== *)
(** * ExecutionTypes: the vocabulary of the execution component

    [engine/execution/public].  Enumerators that share a value with another
    ([New], [Submitted], [Canceled], [Rejected], [Canceling]) are the same
    constructor here: [Rejected] is [Failed], and so on. *)

From S2P Require Import Prelude Depth.

(** [engine/execution/public/ExecutionTypes.h:12-16] ExecutionMode. *)
Inductive ExecutionMode := ModePaper | ModeSandbox | ModeLive.
#[export] Instance ExecutionMode_eq_dec : EqDecision ExecutionMode.
Proof. solve_decision. Defined.

(** [engine/execution/public/ExecutionTypes.h:18-21] OrderSide. *)
Inductive OrderSide := OsBuy | OsSell.
#[export] Instance OrderSide_eq_dec : EqDecision OrderSide.
Proof. solve_decision. Defined.

(** [engine/execution/public/ExecutionTypes.h:34-37] PaperExecutionMode. *)
Inductive PaperExecutionMode := PaperAtomic | PaperSequential.
#[export] Instance PaperExecutionMode_eq_dec : EqDecision PaperExecutionMode.
Proof. solve_decision. Defined.

(** [engine/execution/public/ExecutionTypes.h:39-54] ChildOrderStatus. *)
Inductive ChildOrderStatus :=
| CsCreated | CsPlanned | CsSent | CsAcked | CsPartiallyFilled | CsFilled | CsCancelRequested
| CsCancelled | CsFailed | CsExpired.
#[export] Instance ChildOrderStatus_eq_dec : EqDecision ChildOrderStatus.
Proof. solve_decision. Defined.

(** [engine/execution/public/ExecutionTypes.h:56-72] PlanStatus. *)
Inductive PlanStatus :=
| PsCreated | PsPlanned | PsSent | PsAcked | PsPartiallyFilled | PsHedgeRequired | PsFilled
| PsCancelRequested | PsCancelled | PsFailed | PsExpired.
#[export] Instance PlanStatus_eq_dec : EqDecision PlanStatus.
Proof. solve_decision. Defined.

(** [engine/execution/public/ExecutionTypes.cpp:5-15] to_string(ExecutionMode). *)
Definition execution_mode_name (mode : ExecutionMode) : string :=
  match mode with ModePaper => "Paper" | ModeSandbox => "Sandbox" | ModeLive => "Live" end.

(** [engine/execution/public/ExecutionTypes.cpp:17-25] to_string(OrderSide). *)
Definition order_side_name (side : OrderSide) : string :=
  match side with OsBuy => "Buy" | OsSell => "Sell" end.

(** [engine/execution/public/ExecutionTypes.cpp:27-51] to_string(ChildOrderStatus). *)
Definition child_status_name (status : ChildOrderStatus) : string :=
  match status with
  | CsCreated => "Created" | CsPlanned => "Planned" | CsSent => "Sent" | CsAcked => "Acked"
  | CsPartiallyFilled => "PartiallyFilled" | CsFilled => "Filled"
  | CsCancelRequested => "CancelRequested" | CsCancelled => "Cancelled" | CsFailed => "Failed"
  | CsExpired => "Expired"
  end.

(** [engine/execution/public/ExecutionTypes.cpp:53-79] to_string(PlanStatus). *)
Definition plan_status_name (status : PlanStatus) : string :=
  match status with
  | PsCreated => "Created" | PsPlanned => "Planned" | PsSent => "Sent" | PsAcked => "Acked"
  | PsPartiallyFilled => "PartiallyFilled" | PsHedgeRequired => "HedgeRequired"
  | PsFilled => "Filled" | PsCancelRequested => "CancelRequested" | PsCancelled => "Cancelled"
  | PsFailed => "Failed" | PsExpired => "Expired"
  end.

(** [engine/execution/public/ChildOrder.h:10-31] ChildOrder. *)
Record ChildOrder := mkChildOrder {
  co_order_id : Z;
  co_plan_id : Z;
  co_client_order_id : string;
  co_market_id : string;
  co_asset_id : string;
  co_market_index : Z;
  co_asset_index : Z;
  co_side : OrderSide;
  co_quantity_lots : Z;
  co_limit_price_tick : Z;
  co_estimated_vwap_tick : Z;
  co_worst_allowed_price_tick : Z;
  co_status : ChildOrderStatus
}.
Definition child_order0 : ChildOrder := mkChildOrder 0 0 "" "" "" 0 0 OsBuy 0 0 0 0 CsCreated.

(** [engine/execution/public/OrderPlan.h:12-12] kMaxChildOrdersPerPlan. *)
Definition kMaxChildOrdersPerPlan : nat := 16.

(** [engine/execution/public/OrderPlan.h:14-40] OrderPlan. *)
Record OrderPlan := mkOrderPlan {
  op_plan_id : Z;
  op_source_intent_id : Z;
  op_approved_intent_id : Z;
  op_reservation_id : Z;
  op_bundle_id : Z;
  op_status : PlanStatus;
  op_order_count : nat;
  op_orders : list ChildOrder;
  op_max_total_cost_tick : Z;
  op_min_expected_edge_tick : Z;
  op_max_slippage_tick : Z;
  op_chosen_bundle_qty : Z;
  op_guaranteed_payout_tick : Z;
  op_expected_terminal_pnl_tick : Z;
  op_created_ts_ns : Z;
  op_expire_after_ns : Z;
  op_idempotency_key : string
}.
Definition order_plan0 : OrderPlan :=
  mkOrderPlan 0 0 0 0 0 PsCreated 0 (std_array kMaxChildOrdersPerPlan child_order0 []) 0 0 0 0 0 0 0 0 "".

(** The orders the loops visit: indices below [order_count]. *)
Definition plan_orders (plan : OrderPlan) : list ChildOrder := take (op_order_count plan) (op_orders plan).

(** [engine/execution/public/ExecutionReport.h:10-24] ExecutionReport. *)
Record ExecutionReport := mkExecutionReport {
  er_plan_id : Z;
  er_child_order_id : Z;
  er_status : ChildOrderStatus;
  er_venue_order_id : string;
  er_reject_reason : string;
  er_filled_lots : Z;
  er_remaining_lots : Z;
  er_avg_fill_price_tick : Z;
  er_event_ts_ns : Z
}.
Definition report0 : ExecutionReport := mkExecutionReport 0 0 CsCreated "" "" 0 0 0 0.

(** [engine/execution/public/ExecutionResult.h:12-21] ExecutionResult. *)
Record ExecutionResult := mkExecutionResult {
  xr_ok : bool;
  xr_plan_id : Z;
  xr_status : PlanStatus;
  xr_child_orders_submitted : Z;
  xr_child_orders_rejected : Z;
  xr_error : string
}.

(** [engine/execution/public/ExecutionResult.h:23-28] AdapterResultCode. *)
Inductive AdapterResultCode := ArOk | ArLiveExecutionDisabled | ArAdapterError | ArMissingAdapter.
#[export] Instance AdapterResultCode_eq_dec : EqDecision AdapterResultCode.
Proof. solve_decision. Defined.

(** [engine/execution/public/ExecutionResult.h:30-40] AdapterSubmitResult. *)
Record AdapterSubmitResult := mkAdapterSubmitResult {
  as_ok : bool;
  as_plan_id : Z;
  as_status : PlanStatus;
  as_child_orders_submitted : Z;
  as_child_orders_rejected : Z;
  as_code : AdapterResultCode;
  as_error : string
}.

(** [engine/execution/public/ExecutionResult.h:42-48] AdapterCancelResult. *)
Record AdapterCancelResult := mkAdapterCancelResult {
  ac_ok : bool;
  ac_plan_id : Z;
  ac_code : AdapterResultCode;
  ac_error : string
}.

(** [engine/execution/public/ExecutionResult.h:50-58] CancelResult; [CancelWorkflowResult] has the same members. *)
Record CancelResult := mkCancelResult {
  cn_ok : bool;
  cn_plan_id : Z;
  cn_code : AdapterResultCode;
  cn_reports : list ExecutionReport;
  cn_error : string
}.

(** [engine/execution/public/ReservationDisposition.h:8-13] ReservationDispositionType. *)
Inductive ReservationDispositionType := RdNone | RdRelease | RdConsume | RdExpire.
#[export] Instance ReservationDispositionType_eq_dec : EqDecision ReservationDispositionType.
Proof. solve_decision. Defined.

(** [engine/execution/public/ReservationDisposition.h:15-20] ReservationDisposition. *)
Record ReservationDisposition := mkReservationDisposition {
  rn_reservation_id : string;
  rn_plan_id : Z;
  rn_type : ReservationDispositionType;
  rn_reason : string
}.

(** [engine/execution/public/ExecutionConfig.h:9-29] ExecutionConfig. *)
Record ExecutionConfig := mkExecutionConfig {
  ec_mode : ExecutionMode;
  ec_execution_enabled : bool;
  ec_live_enabled : bool;
  ec_paper_mode : PaperExecutionMode;
  ec_allow_partial_fill_paper : bool;
  ec_max_child_orders_per_plan : nat;
  ec_max_plans_per_second : Z;
  ec_max_order_age_ns : Z;
  ec_default_time_in_force_ns : Z;
  ec_hot_path_trust_order_decision_hash : bool;
  ec_hot_path_trust_approval_hash : bool;
  ec_hot_path_skip_plan_validation : bool;
  ec_hot_path_skip_order_strings : bool;
  ec_hot_path_numeric_plan_id : bool
}.
Definition execution_config0 : ExecutionConfig :=
  mkExecutionConfig ModePaper false false PaperAtomic false 16 10 1000000000 1000000000
    false false false false false.

(** [engine/execution/core/ExecutionContext.h:12-18] ExecutionContext; the depth views are those below their count. *)
Record ExecutionContext := mkExecutionContext {
  xc_now_ns : Z;
  xc_snapshots : list MarketStateSnapshot;
  xc_depth_views : list MarketDepthView;
  xc_config : ExecutionConfig
}.
