(* ===== verification/OrderFsm.v ===== *)
(** * OrderFsm: the life cycles of orders and plans

    [engine/execution/state/OrderStateMachine.cpp] and [PlanStateMachine.cpp].
    Both machines allow a status to stay, refuse to leave a terminal status, let
    any other fail or expire, and otherwise follow a fixed table.  A refused
    move leaves the status as it is. *)

From S2P Require Import Prelude ExecutionTypes.

(** ** Orders *)

(** [engine/execution/state/OrderStateMachine.cpp:5-21] OrderStateMachine::is_terminal. *)
Definition order_is_terminal (status : ChildOrderStatus) : bool :=
  match status with
  | CsFilled | CsCancelled | CsFailed | CsExpired => true
  | CsCreated | CsPlanned | CsSent | CsAcked | CsPartiallyFilled | CsCancelRequested => false
  end.

(** [engine/execution/state/OrderStateMachine.cpp:23-62] OrderStateMachine::can_transition. *)
Definition order_can_transition (current next : ChildOrderStatus) : bool :=
  if bool_decide (current = next) then true
  else if order_is_terminal current then false
  else if bool_decide (next = CsFailed) || bool_decide (next = CsExpired) then true
  else
    match current with
    | CsCreated => bool_decide (next = CsPlanned)
    | CsPlanned => bool_decide (next = CsSent)
    | CsSent => bool_decide (next = CsAcked)
    | CsAcked => bool_decide (next = CsPartiallyFilled) || bool_decide (next = CsFilled)
    | CsPartiallyFilled => bool_decide (next = CsFilled) || bool_decide (next = CsCancelRequested)
    | CsCancelRequested => bool_decide (next = CsCancelled)
    | CsFilled | CsCancelled | CsFailed | CsExpired => false
    end.

(** [engine/execution/state/OrderStateMachine.cpp:64-69] OrderStateMachine::transition. *)
Definition order_transition (current next : ChildOrderStatus) : ChildOrderStatus :=
  if order_can_transition current next then next else current.

(** [engine/execution/state/OrderStateMachine.cpp:71-76] OrderStateMachine::apply. *)
Definition order_apply (current : ChildOrderStatus) (report : ExecutionReport) : ChildOrderStatus :=
  order_transition current (er_status report).

(** ** Plans *)

(** [engine/execution/state/PlanStateMachine.cpp:5-22] PlanStateMachine::is_terminal. *)
Definition plan_is_terminal (status : PlanStatus) : bool :=
  match status with
  | PsFilled | PsCancelled | PsFailed | PsExpired => true
  | PsCreated | PsPlanned | PsSent | PsAcked | PsPartiallyFilled | PsHedgeRequired
  | PsCancelRequested => false
  end.

(** [engine/execution/state/PlanStateMachine.cpp:24-63] PlanStateMachine::can_transition. *)
Definition plan_can_transition (current next : PlanStatus) : bool :=
  if bool_decide (current = next) then true
  else if plan_is_terminal current then false
  else if bool_decide (next = PsFailed) || bool_decide (next = PsExpired) then true
  else
    match current with
    | PsCreated => bool_decide (next = PsPlanned)
    | PsPlanned => bool_decide (next = PsSent)
    | PsSent => bool_decide (next = PsAcked)
    | PsAcked => bool_decide (next = PsPartiallyFilled) || bool_decide (next = PsFilled)
    | PsPartiallyFilled => bool_decide (next = PsHedgeRequired) || bool_decide (next = PsCancelRequested)
    | PsCancelRequested => bool_decide (next = PsCancelled)
    | PsHedgeRequired => bool_decide (next = PsCancelRequested)
    | PsFilled | PsCancelled | PsFailed | PsExpired => false
    end.

(** [engine/execution/state/PlanStateMachine.cpp:65-70] PlanStateMachine::transition. *)
Definition plan_transition (current next : PlanStatus) : PlanStatus :=
  if plan_can_transition current next then next else current.

(** The plan status a child report asks for; none for [Created]. *)
Definition plan_target (status : ChildOrderStatus) : option PlanStatus :=
  match status with
  | CsCreated => None
  | CsPlanned => Some PsPlanned
  | CsSent => Some PsSent
  | CsAcked => Some PsAcked
  | CsPartiallyFilled => Some PsPartiallyFilled
  | CsFilled => Some PsFilled
  | CsCancelRequested => Some PsCancelRequested
  | CsCancelled => Some PsCancelled
  | CsFailed => Some PsFailed
  | CsExpired => Some PsExpired
  end.

(** [engine/execution/state/PlanStateMachine.cpp:72-109] PlanStateMachine::apply. *)
Definition plan_apply (current : PlanStatus) (report : ExecutionReport) : PlanStatus :=
  match plan_target (er_status report) with
  | None => current
  | Some next => plan_transition current next
  end.

(** ** The machines as step relations *)

Definition order_step (current next : ChildOrderStatus) : Prop :=
  ∃ report, order_apply current report = next ∧ next ≠ current.
Definition plan_step (current next : PlanStatus) : Prop :=
  ∃ report, plan_apply current report = next ∧ next ≠ current.

(** Where a status lies on its way: every real move increases it. *)
Definition order_rank (status : ChildOrderStatus) : nat :=
  match status with
  | CsCreated => 0 | CsPlanned => 1 | CsSent => 2 | CsAcked => 3 | CsPartiallyFilled => 4
  | CsCancelRequested => 5 | CsFilled | CsCancelled | CsFailed | CsExpired => 6
  end.
Definition plan_rank (status : PlanStatus) : nat :=
  match status with
  | PsCreated => 0 | PsPlanned => 1 | PsSent => 2 | PsAcked => 3 | PsPartiallyFilled => 4
  | PsHedgeRequired => 5 | PsCancelRequested => 6
  | PsFilled | PsCancelled | PsFailed | PsExpired => 7
  end.

Lemma order_transition_cases current next :
  order_transition current next = current ∨
  (order_is_terminal current = false ∧ (order_rank current < order_rank next)%nat ∧
   order_transition current next = next).
Proof.
  unfold order_transition. destruct current, next; cbn; auto; right; split_and!; (done || lia).
Qed.

Lemma plan_transition_cases current next :
  plan_transition current next = current ∨
  (plan_is_terminal current = false ∧ (plan_rank current < plan_rank next)%nat ∧
   plan_transition current next = next).
Proof.
  unfold plan_transition. destruct current, next; cbn; auto; right; split_and!; (done || lia).
Qed.

(** The statuses a sequence of reports moves an order through. *)
Definition order_run (status : ChildOrderStatus) (reports : list ExecutionReport) : ChildOrderStatus :=
  foldl order_apply status reports.

(** The changes among them. *)
Fixpoint order_changes (status : ChildOrderStatus) (reports : list ExecutionReport) : nat :=
  match reports with
  | [] => 0
  | r :: rest =>
      let next := order_apply status r in
      (if bool_decide (next = status) then 0 else 1) + order_changes next rest
  end%nat.

Lemma order_run_terminal status reports :
  order_is_terminal status = true → order_run status reports = status.
Proof.
  intros Ht. induction reports as [|r reports IH]; [done|]. cbn.
  destruct (order_transition_cases status (er_status r)) as [H|(H & _)]; [|congruence].
  unfold order_apply. by rewrite H.
Qed.

(** C40. An order's life is finite and ends once: whatever reports arrive, in any
    order and with any repetition, the status changes at most six times, its
    rank never falls, and when it is terminal it stays what it is; in
    particular an order that was filled is never cancelled, failed or expired
    afterwards. *)
Theorem order_lifecycle status reports :
  (order_rank status + order_changes status reports <= order_rank (order_run status reports))%nat ∧
  (order_changes status reports <= 6)%nat ∧
  (∀ pre post, reports = pre ++ post → order_is_terminal (order_run status pre) = true →
     order_run status reports = order_run status pre).
Proof.
  assert (Hrank : (order_rank status + order_changes status reports <= order_rank (order_run status reports))%nat).
  { revert status; induction reports as [|r reports IH]; intros status; cbn; [lia|].
    specialize (IH (order_apply status r)). unfold order_run in IH.
    destruct (order_transition_cases status (er_status r)) as [H|(_ & Hlt & H)];
      unfold order_apply in *; rewrite H in *; case_bool_decide; done || lia. }
  split; [done|]. split.
  - pose proof Hrank. destruct (order_run status reports); cbn in *; lia.
  - intros pre post -> Ht. unfold order_run. rewrite foldl_app. by apply order_run_terminal.
Qed.

(** The statuses a sequence of reports moves a plan through. *)
Definition plan_run (status : PlanStatus) (reports : list ExecutionReport) : PlanStatus :=
  foldl plan_apply status reports.

Lemma plan_apply_cases status r :
  plan_apply status r = status ∨
  (plan_is_terminal status = false ∧ (plan_rank status < plan_rank (plan_apply status r))%nat).
Proof.
  unfold plan_apply. destruct (plan_target (er_status r)) as [next|]; [|by left].
  destruct (plan_transition_cases status next) as [H|(Ht & Hlt & H)]; rewrite H; auto.
Qed.

Lemma plan_run_rank status reports : (plan_rank status <= plan_rank (plan_run status reports))%nat.
Proof.
  revert status; induction reports as [|r reports IH]; intros status; cbn; [lia|].
  etransitivity; [|apply IH]. destruct (plan_apply_cases status r) as [->|(_ & Hlt)]; lia.
Qed.

Lemma plan_run_terminal status reports :
  plan_is_terminal status = true → plan_run status reports = status.
Proof.
  intros Ht. induction reports as [|r reports IH]; [done|]. cbn.
  destruct (plan_apply_cases status r) as [->|(H & _)]; [done|congruence].
Qed.

(** Once partially filled, never filled: no report sequence takes a plan from
    the partial, hedge-required or cancel-requested status to filled. *)
Definition past_partial (status : PlanStatus) : bool :=
  match status with
  | PsPartiallyFilled | PsHedgeRequired | PsCancelRequested | PsCancelled | PsFailed | PsExpired => true
  | _ => false
  end.

Lemma past_partial_apply status r : past_partial status = true → past_partial (plan_apply status r) = true.
Proof.
  unfold plan_apply. destruct (plan_target (er_status r)) as [next|]; [|done].
  unfold plan_transition. by destruct status, next.
Qed.

(** A plan's life is finite and ends once, and a plan that was partially filled
    has only the exits of the cancel path: whatever reports follow, it never
    becomes filled, even when they complete every order. *)
Theorem plan_lifecycle status reports :
  (plan_rank status <= plan_rank (plan_run status reports))%nat ∧
  (∀ pre post, reports = pre ++ post → plan_is_terminal (plan_run status pre) = true →
     plan_run status reports = plan_run status pre) ∧
  (∀ pre post, reports = pre ++ post → plan_run status pre = PsPartiallyFilled →
     plan_run status reports ≠ PsFilled).
Proof.
  split; [apply plan_run_rank|]. split.
  - intros pre post -> Ht. unfold plan_run. rewrite foldl_app. by apply plan_run_terminal.
  - intros pre post -> Hp. unfold plan_run in *. rewrite foldl_app, Hp.
    assert (H : ∀ s, past_partial s = true → past_partial (foldl plan_apply s post) = true).
    { induction post as [|r post IH]; intros s Hs; [done|]. cbn. by apply IH, past_partial_apply. }
    specialize (H PsPartiallyFilled eq_refl). intros Hf. by rewrite Hf in H.
Qed.

(** The happy paths exist: the reports of a venue take an order and a plan from
    creation to filled, and a partial fill to cancelled. *)
Definition status_report (status : ChildOrderStatus) : ExecutionReport := report0 <| er_status := status |>.

Example order_reaches_filled :
  order_run CsCreated (status_report <$> [CsPlanned; CsSent; CsAcked; CsPartiallyFilled; CsFilled]) = CsFilled ∧
  order_run CsCreated (status_report <$> [CsPlanned; CsSent; CsAcked; CsPartiallyFilled; CsCancelRequested; CsCancelled])
    = CsCancelled ∧
  plan_run PsCreated (status_report <$> [CsPlanned; CsSent; CsAcked; CsFilled]) = PsFilled.
Proof. done. Qed.
