(* ===== verification/FillTracker.v ===== *)
(** * FillTracker: what the reports of a venue add up to

    [engine/execution/state/FillTracker.cpp] and [PartialFillPolicy.cpp].  A
    tracker is reset from a plan and then applies execution reports; the policy
    reads its flags. *)

From S2P Require Import Prelude ExecutionTypes.

(** ** Data *)

(** [engine/execution/state/FillTracker.h:11-20] ChildFillState. *)
Record ChildFillState := mkChildFillState {
  cf_order_id : Z;
  cf_requested_qty_lots : Z;
  cf_filled_qty_lots : Z;
  cf_remaining_qty_lots : Z;
  cf_total_cost_tick : Z;
  cf_avg_fill_price_tick : Z
}.
Definition child_fill0 : ChildFillState := mkChildFillState 0 0 0 0 0 0.

(** [engine/execution/state/FillTracker.h:22-33] PlanFillState. *)
Record PlanFillState := mkPlanFillState {
  fs_plan_id : Z;
  fs_child_count : nat;
  fs_children : list ChildFillState;
  fs_any_filled : bool;
  fs_all_filled : bool;
  fs_any_partial : bool;
  fs_total_cost_tick : Z
}.

(** [engine/execution/state/FillTracker.h:35-38] FillTrackerState. *)
Record FillTrackerState := mkFillTrackerState {
  ft_filled_lots : Z;
  ft_avg_fill_price_tick : Z
}.

(** [engine/execution/state/FillTracker.h:40-57] FillTracker. *)
Record FillTracker := mkFillTracker {
  fk_state : FillTrackerState;
  fk_plan_state : PlanFillState
}.

(** ** Operations *)

(** The children the loops visit. *)
Definition fill_children (s : PlanFillState) : list ChildFillState := take (fs_child_count s) (fs_children s).

Definition child_filled (c : ChildFillState) : bool := 0 <? cf_filled_qty_lots c.
Definition child_complete (c : ChildFillState) : bool :=
  (0 <? cf_requested_qty_lots c) && (cf_requested_qty_lots c <=? cf_filled_qty_lots c).
Definition child_partial (c : ChildFillState) : bool :=
  (0 <? cf_filled_qty_lots c) && (cf_filled_qty_lots c <? cf_requested_qty_lots c).

(** [engine/execution/state/FillTracker.cpp:9-26] refresh_plan_flags. *)
Definition refresh_plan_flags (state : PlanFillState) : PlanFillState :=
  let children := fill_children state in
  state
    <| fs_any_filled := existsb child_filled children |>
    <| fs_all_filled := (0 <? fs_child_count state)%nat && forallb child_complete children |>
    <| fs_any_partial := existsb child_partial children |>
    <| fs_total_cost_tick := foldl (λ total c, total +i cf_total_cost_tick c) 0 children |>.

(** [engine/execution/state/FillTracker.cpp:43-48] FillTracker::reset, one child. *)
Definition child_for_order (order : ChildOrder) : ChildFillState :=
  child_fill0 <| cf_order_id := co_order_id order |>
    <| cf_requested_qty_lots := co_quantity_lots order |>
    <| cf_remaining_qty_lots := co_quantity_lots order |>.

(** [engine/execution/state/FillTracker.cpp:34-51] FillTracker::reset; also the constructor from a plan. *)
Definition tracker_for (plan : OrderPlan) : FillTracker :=
  let count := Nat.min (op_order_count plan) kMaxChildOrdersPerPlan in
  mkFillTracker (mkFillTrackerState 0 0)
    (refresh_plan_flags (mkPlanFillState (op_plan_id plan) count
      (std_array kMaxChildOrdersPerPlan child_fill0 (child_for_order <$> take count (op_orders plan)))
      false false false 0)).

(** [engine/execution/state/FillTracker.cpp:71-93] FillTracker::apply, on the child of the report. *)
Definition apply_child (report : ExecutionReport) (fill_lots : Z) (child : ChildFillState) : ChildFillState :=
  let filled := Z.min (cf_requested_qty_lots child) (cf_filled_qty_lots child +i fill_lots) in
  let remaining := Z.max 0 (cf_requested_qty_lots child -i filled) in
  let remaining :=
    if (0 <? er_remaining_lots report) || (cf_requested_qty_lots child <=? filled)
    then Z.min remaining (Z.max 0 (er_remaining_lots report)) else remaining in
  let child := child <| cf_filled_qty_lots := filled |> <| cf_remaining_qty_lots := remaining |> in
  if (0 <? fill_lots) && (0 <? er_avg_fill_price_tick report) then
    let total := cf_total_cost_tick child +i (fill_lots *i er_avg_fill_price_tick report) in
    child <| cf_total_cost_tick := total |>
      <| cf_avg_fill_price_tick :=
           if 0 <? filled then Z.quot total filled else cf_avg_fill_price_tick child |>
  else child.

(** The first child with an id. *)
Definition child_index (order_id : Z) (children : list ChildFillState) : option nat :=
  fst <$> list_find (λ c, cf_order_id c = order_id) children.

(** [engine/execution/state/FillTracker.cpp:53-96] FillTracker::apply. *)
Definition tracker_apply (t : FillTracker) (report : ExecutionReport) : FillTracker :=
  let fill_lots := Z.max 0 (er_filled_lots report) in
  let t := t <| fk_state ::= λ s,
    s <| ft_filled_lots ::= λ n, n +i fill_lots |>
      <| ft_avg_fill_price_tick ::= λ p,
           if 0 <? er_avg_fill_price_tick report then er_avg_fill_price_tick report else p |> |> in
  match child_index (er_child_order_id report) (fill_children (fk_plan_state t)) with
  | None => t
  | Some i =>
      t <| fk_plan_state ::= λ s,
        refresh_plan_flags (s <| fs_children ::= alter (apply_child report fill_lots) i |>) |>
  end.

(** [engine/execution/state/FillTracker.cpp:106-115] FillTracker::find_child. *)
Definition find_child (t : FillTracker) (order_id : Z) : option ChildFillState :=
  i ← child_index order_id (fill_children (fk_plan_state t));
  fs_children (fk_plan_state t) !! i.

(** ** The partial fill policy *)

(** [engine/execution/state/PartialFillPolicy.h:9-15] PartialFillAction. *)
Inductive PartialFillAction := PfaNone | PfaMarkPartiallyFilled | PfaCancelRemaining | PfaHedgeRequired | PfaFailPlan.
#[export] Instance PartialFillAction_eq_dec : EqDecision PartialFillAction.
Proof. solve_decision. Defined.

(** [engine/execution/state/PartialFillPolicy.cpp:5-21] PartialFillPolicy::decide. *)
Definition partial_fill_decide (s : PlanFillState) : PartialFillAction :=
  if negb (fs_any_filled s) || fs_all_filled s then PfaNone
  else if (1 <? fs_child_count s)%nat then PfaHedgeRequired
  else if fs_any_partial s then PfaCancelRemaining
  else PfaMarkPartiallyFilled.

(** [engine/execution/state/PartialFillPolicy.cpp:23-27] PartialFillPolicy::should_cancel_remaining. *)
Definition should_cancel_remaining (s : FillTrackerState) : bool := 0 <? ft_filled_lots s.

(** ** The invariant of a tracker *)

Definition tracker_run (t : FillTracker) (reports : list ExecutionReport) : FillTracker :=
  foldl tracker_apply t reports.

(** What the reports say was filled of one order, exactly. *)
Definition reported_lots (order_id : Z) (reports : list ExecutionReport) : Z :=
  sum_list_Z (λ r, if bool_decide (er_child_order_id r = order_id) then Z.max 0 (er_filled_lots r) else 0) reports.

(** Quantities far enough from the ends of [std::int64_t] to be added. *)
Definition small_lots (n : Z) : Prop := n < 2 ^ 62.

Definition plan_tracked (plan : OrderPlan) : Prop :=
  (op_order_count plan <= kMaxChildOrdersPerPlan)%nat ∧
  length (op_orders plan) = kMaxChildOrdersPerPlan ∧
  NoDup (co_order_id <$> plan_orders plan) ∧
  Forall (λ o, 0 <= co_quantity_lots o ∧ small_lots (co_quantity_lots o)) (plan_orders plan).

(** The state of one child, given what was reported for its order. *)
Record child_exact (order : ChildOrder) (reported : Z) (c : ChildFillState) : Prop := {
  ce_id : cf_order_id c = co_order_id order;
  ce_requested : cf_requested_qty_lots c = co_quantity_lots order;
  ce_filled : cf_filled_qty_lots c = Z.min (co_quantity_lots order) reported;
  ce_remaining : 0 <= cf_remaining_qty_lots c <= co_quantity_lots order - cf_filled_qty_lots c
}.

Record flags_exact (s : PlanFillState) : Prop := {
  fe_any : fs_any_filled s = existsb child_filled (fill_children s);
  fe_all : fs_all_filled s = (0 <? fs_child_count s)%nat && forallb child_complete (fill_children s);
  fe_partial : fs_any_partial s = existsb child_partial (fill_children s)
}.

Record tracker_ok (plan : OrderPlan) (reports : list ExecutionReport) (t : FillTracker) : Prop := {
  to_plan_id : fs_plan_id (fk_plan_state t) = op_plan_id plan;
  to_count : fs_child_count (fk_plan_state t) = op_order_count plan;
  to_length : length (fs_children (fk_plan_state t)) = kMaxChildOrdersPerPlan;
  to_children : Forall2 (λ o c, child_exact o (reported_lots (co_order_id o) reports) c)
                  (plan_orders plan) (fill_children (fk_plan_state t));
  to_flags : flags_exact (fk_plan_state t)
}.

Lemma refresh_flags_exact s : flags_exact (refresh_plan_flags s).
Proof. by destruct s. Qed.

Lemma refresh_fields s :
  fs_plan_id (refresh_plan_flags s) = fs_plan_id s ∧ fs_child_count (refresh_plan_flags s) = fs_child_count s ∧
  fs_children (refresh_plan_flags s) = fs_children s ∧ fill_children (refresh_plan_flags s) = fill_children s.
Proof. by destruct s. Qed.

Lemma reported_lots_nonneg id reports : 0 <= reported_lots id reports.
Proof. apply sum_list_Z_nonneg. intros; case_bool_decide; lia. Qed.

Lemma reported_lots_snoc id reports r :
  reported_lots id (reports ++ [r]) =
  reported_lots id reports + if bool_decide (er_child_order_id r = id) then Z.max 0 (er_filled_lots r) else 0.
Proof. unfold reported_lots. rewrite sum_list_Z_app. cbn. lia. Qed.

Lemma apply_child_exact o c r reported :
  0 <= reported → 0 <= co_quantity_lots o → small_lots (co_quantity_lots o) → small_lots (er_filled_lots r) →
  child_exact o reported c →
  child_exact o (reported + Z.max 0 (er_filled_lots r)) (apply_child r (Z.max 0 (er_filled_lots r)) c).
Proof.
  unfold small_lots. intros Hr Hq Hs Hf [Hid Hreq Hfill Hrem].
  assert (Hadd : cf_filled_qty_lots c +i Z.max 0 (er_filled_lots r)
                 = cf_filled_qty_lots c + Z.max 0 (er_filled_lots r)) by (apply wrap_i64_id; unfold in_i64; lia).
  assert (Hmin : Z.min (cf_requested_qty_lots c) (cf_filled_qty_lots c + Z.max 0 (er_filled_lots r))
                 = Z.min (co_quantity_lots o) (reported + Z.max 0 (er_filled_lots r))) by lia.
  set (filled := Z.min (co_quantity_lots o) (reported + Z.max 0 (er_filled_lots r))) in *.
  assert (Hsub : cf_requested_qty_lots c -i filled = co_quantity_lots o - filled)
    by (rewrite Hreq; apply wrap_i64_id; unfold in_i64; lia).
  unfold apply_child. rewrite Hadd, Hmin, Hsub. clear Hadd Hmin Hsub.
  destruct c as [id req fl rem tot avg]; cbn [cf_order_id cf_requested_qty_lots] in *.
  constructor; cbn; unfold constant; try (by destruct (_ && _)).
  destruct (_ && _); cbn; unfold constant; destruct (_ || _); lia.
Qed.

Lemma tracker_for_ok plan : plan_tracked plan → tracker_ok plan [] (tracker_for plan).
Proof.
  intros (Hc & Hlen & Hnd & Hq). unfold tracker_for. rewrite Nat.min_l by done.
  set (s := mkPlanFillState _ _ _ _ _ _ _).
  pose proof (refresh_fields s) as (H1 & H2 & H3 & H4).
  constructor; cbn [fk_plan_state]; rewrite ?H1, ?H2, ?H3, ?H4; try done.
  - subst s; cbn [fs_children]. apply length_std_array.
  - subst s. unfold fill_children; cbn [fs_children fs_child_count]. unfold std_array.
    assert (Hn : length (child_for_order <$> plan_orders plan) = op_order_count plan).
    { unfold plan_orders. rewrite length_fmap, length_take. lia. }
    fold (plan_orders plan). rewrite (take_ge (child_for_order <$> _)) by lia.
    rewrite take_app_length' by done. apply Forall2_fmap_r, Forall2_same_length_lookup_2; [done|].
    intros i o o' Ho Ho'. simplify_eq.
    pose proof (Forall_lookup_1 _ _ _ _ Hq Ho) as [Hpos _].
    constructor; cbn; unfold constant; lia.
Qed.

Lemma tracker_apply_ok plan reports t r :
  plan_tracked plan → small_lots (er_filled_lots r) →
  tracker_ok plan reports t → tracker_ok plan (reports ++ [r]) (tracker_apply t r).
Proof.
  intros (Hc & Hlen & Hnd & Hq) Hr [Hid Hcount Hl Hch Hfl]. unfold tracker_apply.
  set (t1 := t <| fk_state ::= _ |>).
  assert (Ht1 : fk_plan_state t1 = fk_plan_state t) by (by destruct t). rewrite Ht1.
  unfold child_index. destruct (list_find _ _) as [[i c]|] eqn:Hfind; cbn [fmap option_fmap option_map fst].
  - apply list_find_Some in Hfind as (Hi & Hc_id & _).
    set (s := fk_plan_state t) in *.
    set (s' := s <| fs_children ::= alter (apply_child r (Z.max 0 (er_filled_lots r))) i |>).
    assert (fk_plan_state (t1 <| fk_plan_state ::= λ s, refresh_plan_flags
      (s <| fs_children ::= alter (apply_child r (Z.max 0 (er_filled_lots r))) i |>) |>) = refresh_plan_flags s')
      as Ht' by (subst s' t1 s; by destruct t).
    pose proof (refresh_fields s') as (H1 & H2 & H3 & H4).
    assert (Hs' : fs_plan_id s' = fs_plan_id s ∧ fs_child_count s' = fs_child_count s ∧
      fs_children s' = alter (apply_child r (Z.max 0 (er_filled_lots r))) i (fs_children s)) by (by destruct s).
    destruct Hs' as (Hs1 & Hs2 & Hs3).
    constructor; rewrite Ht', ?H1, ?H2, ?H3, ?H4, ?Hs1, ?Hs2, ?Hs3, ?length_alter; try done.
    apply Forall2_same_length_lookup_2.
    { unfold fill_children. rewrite Hs2, Hs3, !length_take, length_alter.
      apply Forall2_length in Hch. unfold fill_children, plan_orders in Hch. rewrite !length_take in Hch.
      unfold plan_orders. by rewrite length_take. }
    intros j o c' Ho Hc'. unfold fill_children in Hc'. rewrite Hs2, Hs3 in Hc'.
    apply lookup_take_Some in Hc' as [Hc' Hj]. rewrite reported_lots_snoc.
    pose proof (Forall_lookup_1 _ _ _ _ Hq Ho) as [Hpos Hsmall].
    assert (∃ c0, fill_children s !! j = Some c0 ∧ fs_children s !! j = Some c0) as (c0 & Hc0 & Hraw).
    { destruct (Forall2_lookup_l _ _ _ _ _ Hch Ho) as (c0 & Hc0 & _). exists c0. split; [done|].
      by apply lookup_take_Some in Hc0 as [? _]. }
    pose proof (Forall2_lookup_lr _ _ _ _ _ _ Hch Ho Hc0) as Hexact.
    destruct (decide (i = j)) as [<-|Hne].
    + rewrite list_lookup_alter, decide_True, Hraw in Hc' by done. apply (inj Some (apply_child _ _ c0)) in Hc' as <-.
      assert (c0 = c) as -> by congruence.
      rewrite bool_decide_true by (rewrite <- Hc_id; apply (ce_id _ _ _ Hexact)).
      apply apply_child_exact; try done. apply reported_lots_nonneg.
    + rewrite list_lookup_alter_ne in Hc' by done. assert (c' = c0) as -> by congruence.
      rewrite bool_decide_false; [by rewrite Z.add_0_r|].
      intros Heq. apply Hne.
      destruct (Forall2_lookup_r _ _ _ _ _ Hch Hi) as (oi & Hoi & Hexi).
      apply (NoDup_lookup (co_order_id <$> plan_orders plan) i j (co_order_id o) Hnd);
        rewrite list_lookup_fmap; [rewrite Hoi|rewrite Ho]; cbn; f_equal.
      rewrite <- Heq, <- Hc_id. symmetry. apply (ce_id _ _ _ Hexi).
  - apply list_find_None in Hfind.
    constructor; rewrite Ht1; try done.
    apply Forall2_same_length_lookup_2; [by eapply Forall2_length|].
    intros j o c Ho Hco. rewrite reported_lots_snoc.
    pose proof (Forall2_lookup_lr _ _ _ _ _ _ Hch Ho Hco) as Hexact.
    rewrite bool_decide_false; [by rewrite Z.add_0_r|].
    intros Heq. pose proof (Forall_lookup_1 _ _ _ _ Hfind Hco) as Hno. cbn in Hno. apply Hno.
    rewrite Heq. apply (ce_id _ _ _ Hexact).
Qed.

Lemma tracker_run_ok plan reports :
  plan_tracked plan → Forall (λ r, small_lots (er_filled_lots r)) reports →
  tracker_ok plan reports (tracker_run (tracker_for plan) reports).
Proof.
  intros Hp. induction reports as [|r reports IH] using rev_ind; intros Hr; [by apply tracker_for_ok|].
  apply Forall_app in Hr as [Hr Hlast]. apply Forall_cons in Hlast as [Hlast _].
  unfold tracker_run. rewrite foldl_app. apply tracker_apply_ok; [done..|by apply IH].
Qed.

(** Flags of an exact tracker, in terms of the orders. *)
Lemma tracker_flags plan reports t :
  tracker_ok plan reports t →
  let filled o := Z.min (co_quantity_lots o) (reported_lots (co_order_id o) reports) in
  fs_any_filled (fk_plan_state t) = existsb (λ o, 0 <? filled o) (plan_orders plan) ∧
  fs_all_filled (fk_plan_state t) = (0 <? op_order_count plan)%nat &&
    forallb (λ o, (0 <? co_quantity_lots o) && (co_quantity_lots o <=? filled o)) (plan_orders plan) ∧
  fs_any_partial (fk_plan_state t) =
    existsb (λ o, (0 <? filled o) && (filled o <? co_quantity_lots o)) (plan_orders plan).
Proof.
  intros [_ Hcount _ Hch [Hany Hall Hpart]]. cbv zeta. rewrite Hany, Hall, Hpart, Hcount. clear -Hch.
  assert (H : ∀ (f : ChildFillState → bool) (g : ChildOrder → bool),
    (∀ o c, child_exact o (reported_lots (co_order_id o) reports) c → f c = g o) →
    existsb f (fill_children (fk_plan_state t)) = existsb g (plan_orders plan) ∧
    forallb f (fill_children (fk_plan_state t)) = forallb g (plan_orders plan)).
  { intros f g Hfg. induction Hch as [|o c os cs Hoc _ [IH1 IH2]]; [done|].
    cbn. by rewrite (Hfg _ _ Hoc), IH1, IH2. }
  split_and!.
  - apply H. intros o c [_ _ Hf _]. unfold child_filled. by rewrite Hf.
  - f_equal. apply H. intros o c [_ Hq Hf _]. unfold child_complete. by rewrite Hq, Hf.
  - apply H. intros o c [_ Hq Hf _]. unfold child_partial. by rewrite Hq, Hf.
Qed.

(** The tracker adds up the reports exactly: whatever reports arrive for a plan
    with distinct order ids - in any order, repeated, for unknown orders, or
    for more than was ordered - each child's filled quantity is what its own
    reports sum to, capped at the order; filled and remaining never exceed the
    order; and the flags say some, all or part was filled exactly when those
    quantities do. *)
Theorem fill_tracker_exact plan reports :
  plan_tracked plan → Forall (λ r, small_lots (er_filled_lots r)) reports →
  let s := fk_plan_state (tracker_run (tracker_for plan) reports) in
  let filled o := Z.min (co_quantity_lots o) (reported_lots (co_order_id o) reports) in
  (∀ i o, plan_orders plan !! i = Some o → ∃ c, fill_children s !! i = Some c ∧
     cf_order_id c = co_order_id o ∧ cf_filled_qty_lots c = filled o ∧
     0 <= cf_filled_qty_lots c <= co_quantity_lots o ∧
     0 <= cf_remaining_qty_lots c <= co_quantity_lots o - cf_filled_qty_lots c) ∧
  (fs_any_filled s = true ↔ ∃ o, o ∈ plan_orders plan ∧ 0 < filled o) ∧
  (fs_all_filled s = true ↔ (0 < op_order_count plan)%nat ∧
     ∀ o, o ∈ plan_orders plan → 0 < co_quantity_lots o ∧ filled o = co_quantity_lots o) ∧
  (fs_any_partial s = true ↔ ∃ o, o ∈ plan_orders plan ∧ 0 < filled o < co_quantity_lots o).
Proof.
  intros Hp Hr s filled. pose proof (tracker_run_ok plan reports Hp Hr) as Hok.
  destruct (tracker_flags _ _ _ Hok) as (Hany & Hall & Hpart). fold s in Hany, Hall, Hpart.
  rewrite Hany, Hall, Hpart, andb_true_iff, forallb_true_elem, !existsb_exists, Nat.ltb_lt. split_and!.
  - intros i o Ho. destruct (Forall2_lookup_l _ _ _ _ _ (to_children _ _ _ Hok) Ho) as (c & Hc & [? ? Hf ?]).
    destruct Hp as (_ & _ & _ & Hq). pose proof (Forall_lookup_1 _ _ _ _ Hq Ho) as [Hpos _].
    pose proof (reported_lots_nonneg (co_order_id o) reports). exists c. split_and!; try done; lia.
  - setoid_rewrite Z.ltb_lt. setoid_rewrite <- list_elem_of_In. done.
  - setoid_rewrite andb_true_iff. setoid_rewrite Z.ltb_lt. setoid_rewrite Z.leb_le.
    split; (intros [Hn H]; split; [done|]; intros o Ho; specialize (H o Ho); unfold filled in *; lia).
  - setoid_rewrite andb_true_iff. setoid_rewrite Z.ltb_lt. setoid_rewrite <- list_elem_of_In. done.
Qed.

Definition demo_orders : list ChildOrder :=
  [child_order0 <| co_order_id := 1 |> <| co_quantity_lots := 10 |>;
   child_order0 <| co_order_id := 2 |> <| co_quantity_lots := 4 |>].
Definition demo_plan : OrderPlan :=
  order_plan0 <| op_plan_id := 9 |> <| op_order_count := 2%nat |>
    <| op_orders := std_array kMaxChildOrdersPerPlan child_order0 demo_orders |>.
Definition fill_report (order_id lots price : Z) : ExecutionReport :=
  report0 <| er_child_order_id := order_id |> <| er_filled_lots := lots |> <| er_avg_fill_price_tick := price |>.

Lemma fill_tracker_exact_witness :
  let s := fk_plan_state (tracker_run (tracker_for demo_plan)
             [fill_report 1 6 50; fill_report 7 5 50; fill_report 1 9 50; fill_report 2 1 40]) in
  ∃ c, fill_children s !! 0%nat = Some c ∧ cf_filled_qty_lots c = 10.
Proof.
  assert (Hp : plan_tracked demo_plan).
  { split_and!; [vm_compute; lia|reflexivity| |].
    - change (NoDup [1; 2]). apply NoDup_cons; split; [set_solver|apply NoDup_singleton].
    - repeat constructor; vm_compute; congruence. }
  assert (Hr : Forall (λ r, small_lots (er_filled_lots r))
    [fill_report 1 6 50; fill_report 7 5 50; fill_report 1 9 50; fill_report 2 1 40])
    by (repeat constructor; vm_compute; reflexivity).
  destruct (fill_tracker_exact demo_plan _ Hp Hr) as (H & _).
  assert (Ho : plan_orders demo_plan !! 0%nat = Some (hd child_order0 demo_orders)) by reflexivity.
  destruct (H _ _ Ho) as (c & Hc & _ & Hf & _).
  exists c. split; [exact Hc|]. rewrite Hf. reflexivity.
Defined.

(** An overfill is clipped in the quantity but not in the cost: ten lots at 50
    reported as fifteen make the average 75. *)
Lemma overfill_inflates_average :
  cf_avg_fill_price_tick <$> find_child (tracker_run (tracker_for demo_plan) [fill_report 1 15 50]) 1 = Some 75.
Proof. vm_compute. reflexivity. Qed.
