(* ===== verification/ExecutionPlan.v ===== *)
(** * ExecutionPlan: from an approved decision to child orders

    [engine/execution/plan].  [build_plan] checks an approval against its
    decision and turns the legs into child orders; [validate] is the gate every
    plan passes.  Ids are FNV hashes of the evidence. *)

From S2P Require Import Prelude Hashing RiskTypes OrderDecision ExecutionTypes.
From stdpp Require Import pretty.
#[local] Open Scope Z_scope.

(** ** Validation *)

(** [engine/execution/plan/PlanValidator.h:10-13] ValidationResult. *)
Record ValidationResult := mkValidationResult {
  va_ok : bool;
  va_error : string
}.
Definition valid : ValidationResult := mkValidationResult true "".
Definition invalid (error : string) : ValidationResult := mkValidationResult false error.

(** [engine/execution/plan/PlanValidator.cpp:91-119] validate_child_order. *)
Definition validate_child_order (order : ChildOrder) : ValidationResult :=
  if co_order_id order =? 0 then invalid "missing order_id"
  else if co_plan_id order =? 0 then invalid "missing plan_id"
  else if String.eqb (co_client_order_id order) "" then invalid "missing client_order_id"
  else if String.eqb (co_market_id order) "" then invalid "missing market_id"
  else if String.eqb (co_asset_id order) "" then invalid "missing asset_id"
  else if co_quantity_lots order <=? 0 then invalid "invalid quantity_lots"
  else if co_limit_price_tick order <=? 0 then invalid "invalid limit_price_tick"
  else if co_worst_allowed_price_tick order <=? 0 then invalid "invalid worst_allowed_price_tick"
  else valid.

(** [engine/execution/plan/PlanValidator.cpp:55-70] validate_impl: the loop over the orders. *)
Fixpoint validate_orders (plan_id : Z) (seen : gset string) (orders : list ChildOrder) : ValidationResult :=
  match orders with
  | [] => valid
  | order :: rest =>
      let result := validate_child_order order in
      if negb (va_ok result) then result
      else if negb (co_plan_id order =? plan_id) then invalid "child plan_id mismatch"
      else if bool_decide (co_client_order_id order ∈ seen) then invalid "duplicate client_order_id"
      else validate_orders plan_id ({[co_client_order_id order]} ∪ seen) rest
  end.

(** [engine/execution/plan/PlanValidator.cpp:10-71] validate_impl. *)
Definition validate_impl (plan : OrderPlan) (config : ExecutionConfig) (require_reservation : bool)
    : ValidationResult :=
  let max_orders := Nat.min (ec_max_child_orders_per_plan config) kMaxChildOrdersPerPlan in
  if op_plan_id plan =? 0 then invalid "missing plan_id"
  else if op_source_intent_id plan =? 0 then invalid "missing source_intent_id"
  else if op_approved_intent_id plan =? 0 then invalid "missing approved_intent_id"
  else if require_reservation && (op_reservation_id plan =? 0) then invalid "missing reservation_id"
  else if (max_orders =? 0)%nat || (op_order_count plan =? 0)%nat || (max_orders <? op_order_count plan)%nat then
    invalid "invalid order_count"
  else if op_max_total_cost_tick plan <=? 0 then invalid "missing max_total_cost_tick"
  else if op_max_slippage_tick plan <? 0 then invalid "invalid max_slippage_tick"
  else if String.eqb (op_idempotency_key plan) "" then invalid "missing idempotency_key"
  else if op_expire_after_ns plan <=? op_created_ts_ns plan then invalid "invalid expiration"
  else if (0 <? ec_max_order_age_ns config) &&
          (ec_max_order_age_ns config <? wrap_u64 (op_expire_after_ns plan - op_created_ts_ns plan)) then
    invalid "ttl exceeds max_order_age_ns"
  else validate_orders (op_plan_id plan) ∅ (plan_orders plan).

(** [engine/execution/plan/PlanValidator.cpp:75-80] validate with a configuration. *)
Definition validate (plan : OrderPlan) (config : ExecutionConfig) : ValidationResult :=
  validate_impl plan config true.

(** [engine/execution/plan/PlanValidator.cpp:82-89] validate with the default configuration and no age limit. *)
Definition validate_default (plan : OrderPlan) (require_reservation : bool) : ValidationResult :=
  validate_impl plan (execution_config0 <| ec_max_order_age_ns := 0 |>) require_reservation.

(** ** Planning *)

(** [engine/execution/plan/ExecutionPlanner.h:16-24] ExecutionApproval. *)
Record ExecutionApproval := mkExecutionApproval {
  ex_decision_id : Z;
  ex_reservation_id : Z;
  ex_bundle_id : Z;
  ex_approved_bundle_qty : Z;
  ex_idempotency_key : string
}.

(** [engine/execution/plan/ExecutionPlanner.h:26-29] ApprovedIntentEnvelope. *)
Record ApprovedIntentEnvelope := mkApprovedIntentEnvelope {
  ei_source_intent : OpportunityIntent;
  ei_approval : ExecutionApproval
}.

(** [engine/execution/plan/ExecutionPlanner.cpp:33-43] make_plan_id of an intent envelope. *)
Definition make_intent_plan_id (envelope : ApprovedIntentEnvelope) : Z :=
  let hash := foldl mix_u64 fnv_offset
    [ oi_intent_id (ei_source_intent envelope); ex_decision_id (ei_approval envelope);
      ex_reservation_id (ei_approval envelope); ex_bundle_id (ei_approval envelope) ] in
  nonzero_hash (mix_string hash (ex_idempotency_key (ei_approval envelope))).

(** [engine/execution/plan/ExecutionPlanner.cpp:45-57] make_plan_id of a decision envelope. *)
Definition make_plan_id (envelope : ApprovedOrderDecisionEnvelope) : Z :=
  let hash := foldl mix_u64 fnv_offset
    [ en_source_intent_id envelope; en_decision_hash envelope; en_approval_hash envelope;
      rd_decision_id (ai_decision (en_approved envelope)); ai_reservation_id_hash (en_approved envelope);
      en_bundle_id envelope ] in
  nonzero_hash (mix_string hash (oi_idempotency_key (ai_intent (en_approved envelope)))).

(** [engine/execution/plan/ExecutionPlanner.cpp:59-71] make_numeric_plan_id. *)
Definition make_numeric_plan_id (envelope : ApprovedOrderDecisionEnvelope) : Z :=
  nonzero_hash (foldl mix_u64 fnv_offset
    [ en_source_intent_id envelope; en_decision_hash envelope; en_approval_hash envelope;
      rd_decision_id (ai_decision (en_approved envelope)); ai_reservation_id_hash (en_approved envelope);
      oi_idempotency_hash (ai_intent (en_approved envelope)); en_bundle_id envelope ]).

(** [engine/execution/plan/ExecutionPlanner.cpp:73-83] make_client_order_id. *)
Definition make_client_order_id (plan_id order_index : Z) (idempotency_key : string) : string :=
  pretty (Z.to_N (mix_string (mix_u64 (mix_u64 fnv_offset plan_id) order_index) idempotency_key)).

(** [engine/execution/plan/ExecutionPlanner.cpp:89-94] multiply_would_overflow. *)
Definition multiply_would_overflow (left right : Z) : bool :=
  if (left <=? 0) || (right <=? 0) then false else Z.quot i64_max right <? left.

(** A planning result: the plan or the error of [reject]. *)
Definition PlanResult : Type := string + OrderPlan.

(** The loop over the legs: build one order per leg, or reject at the first bad one. *)
Fixpoint build_orders {Leg} (check : Leg → option string) (build : nat → Leg → ChildOrder)
    (i : nat) (legs : list Leg) : string + list ChildOrder :=
  match legs with
  | [] => inr []
  | leg :: rest =>
      match check leg with
      | Some error => inl error
      | None =>
          match build_orders check build (S i) rest with
          | inl error => inl error
          | inr orders => inr (build i leg :: orders)
          end
      end
  end.

(** [engine/execution/plan/ExecutionPlanner.cpp:161-169] build_plan: the checks on a leg of an intent. *)
Definition check_intent_leg (approved_bundle_qty : Z) (leg : IntentLeg) : option string :=
  if negb (bool_decide (il_side leg = Buy)) then Some "UnsupportedSide"%string
  else if il_quantity_lots leg <=? 0 then Some "invalid leg quantity"%string
  else if multiply_would_overflow approved_bundle_qty (il_quantity_lots leg) then
    Some "child order quantity overflow"%string
  else None.

(** [engine/execution/plan/ExecutionPlanner.cpp:171-184] build_plan: the order of a leg of an intent. *)
Definition intent_order (plan : OrderPlan) (approved_bundle_qty : Z) (i : nat) (leg : IntentLeg) : ChildOrder :=
  child_order0
    <| co_order_id := Z.of_nat i + 1 |>
    <| co_plan_id := op_plan_id plan |>
    <| co_client_order_id := make_client_order_id (op_plan_id plan) (Z.of_nat i) (op_idempotency_key plan) |>
    <| co_market_id := il_market_id leg |>
    <| co_asset_id := il_asset_id leg |>
    <| co_asset_index := il_asset_index leg |>
    <| co_side := OsBuy |>
    <| co_quantity_lots := approved_bundle_qty *i il_quantity_lots leg |>
    <| co_limit_price_tick := il_worst_price_tick leg |>
    <| co_estimated_vwap_tick := il_estimated_vwap_tick leg |>
    <| co_worst_allowed_price_tick := il_worst_price_tick leg |>.

(** [engine/execution/plan/ExecutionPlanner.cpp:98-194] build_plan on an approved intent. *)
Definition build_intent_plan (envelope : ApprovedIntentEnvelope) (now_ns : Z) (config : ExecutionConfig)
    : PlanResult :=
  let intent := ei_source_intent envelope in
  let approval := ei_approval envelope in
  let max_orders := Nat.min (ec_max_child_orders_per_plan config) kMaxChildOrdersPerPlan in
  if ex_decision_id approval =? 0 then inl "missing decision_id"%string
  else if ex_reservation_id approval =? 0 then inl "missing reservation_id"%string
  else if negb (bool_decide (oi_status intent = IsPaperOpportunity)) then
    inl "source intent is not PaperOpportunity"%string
  else if oi_expires_at_ns intent <=? now_ns then inl "source intent expired"%string
  else if negb (String.eqb (oi_idempotency_key intent) (ex_idempotency_key approval)) then
    inl "idempotency_key mismatch"%string
  else if negb (oi_bundle_id intent =? ex_bundle_id approval) then inl "bundle_id mismatch"%string
  else if ex_approved_bundle_qty approval <=? 0 then inl "invalid approved_bundle_qty"%string
  else if (oi_leg_count intent =? 0)%nat then inl "source intent has no legs"%string
  else if (max_orders <? oi_leg_count intent)%nat then inl "too many child orders"%string
  else
    let plan := order_plan0
      <| op_plan_id := make_intent_plan_id envelope |>
      <| op_source_intent_id := oi_intent_id intent |>
      <| op_approved_intent_id := ex_decision_id approval |>
      <| op_reservation_id := ex_reservation_id approval |>
      <| op_bundle_id := oi_bundle_id intent |>
      <| op_order_count := oi_leg_count intent |>
      <| op_max_total_cost_tick := oi_estimated_cost_tick intent |>
      <| op_min_expected_edge_tick :=
           if negb (oi_total_edge_tick intent =? 0) then oi_total_edge_tick intent
           else oi_estimated_edge_tick intent |>
      <| op_max_slippage_tick := oi_slippage_buffer_tick intent |>
      <| op_chosen_bundle_qty := ex_approved_bundle_qty approval |>
      <| op_guaranteed_payout_tick := oi_guaranteed_payout_tick intent |>
      <| op_expected_terminal_pnl_tick := oi_guaranteed_payout_tick intent -i oi_estimated_cost_tick intent |>
      <| op_created_ts_ns := now_ns |>
      <| op_expire_after_ns := oi_expires_at_ns intent |>
      <| op_idempotency_key := oi_idempotency_key intent |> in
    match build_orders (check_intent_leg (ex_approved_bundle_qty approval))
            (intent_order plan (ex_approved_bundle_qty approval)) 0 (intent_legs intent) with
    | inl error => inl error
    | inr orders =>
        let plan := plan <| op_orders := std_array kMaxChildOrdersPerPlan child_order0 orders |> in
        let validation := validate_default plan true in
        if negb (va_ok validation) then inl (va_error validation) else inr plan
    end.

(** [engine/execution/plan/ExecutionPlanner.cpp:293-299] build_plan: the checks on a leg of a decision. *)
Definition check_decision_leg (leg : OrderDecisionLegLite) : option string :=
  if negb (bool_decide (dl_side leg = Buy)) then Some "UnsupportedSide"%string
  else if (dl_quantity_lots leg <=? 0) || (dl_limit_price_tick leg <=? 0) then Some "invalid decision leg"%string
  else None.

(** [engine/execution/plan/ExecutionPlanner.cpp:301-318] build_plan: the order of a leg of a decision. *)
Definition decision_order (plan : OrderPlan) (intent : OpportunityIntent) (skip_strings : bool)
    (i : nat) (leg : OrderDecisionLegLite) : ChildOrder :=
  let named := negb skip_strings && (i <? oi_leg_count intent)%nat in
  let source := nth i (oi_legs intent) leg0 in
  child_order0
    <| co_order_id := Z.of_nat i + 1 |>
    <| co_plan_id := op_plan_id plan |>
    <| co_market_index := dl_market_index leg |>
    <| co_asset_index := dl_asset_index leg |>
    <| co_client_order_id :=
         if skip_strings then ""%string
         else make_client_order_id (op_plan_id plan) (Z.of_nat i) (op_idempotency_key plan) |>
    <| co_market_id := if named then il_market_id source else ""%string |>
    <| co_asset_id := if named then il_asset_id source else ""%string |>
    <| co_side := OsBuy |>
    <| co_quantity_lots := dl_quantity_lots leg |>
    <| co_limit_price_tick := dl_limit_price_tick leg |>
    <| co_estimated_vwap_tick := dl_estimated_vwap_tick leg |>
    <| co_worst_allowed_price_tick := dl_limit_price_tick leg |>.

(** [engine/execution/plan/ExecutionPlanner.cpp:205-268] build_plan: the checks on the envelope, in order. *)
Definition envelope_rejection (envelope : ApprovedOrderDecisionEnvelope) (now_ns : Z) (config : ExecutionConfig)
    : option string :=
  let approved := en_approved envelope in
  let intent := ai_intent approved in
  let decision := en_decision envelope in
  let max_orders := Nat.min (ec_max_child_orders_per_plan config) kMaxChildOrdersPerPlan in
  if negb (approved_intent_valid approved) then Some "approved intent is invalid"%string
  else if rd_decision_id (ai_decision approved) =? 0 then Some "missing decision_id"%string
  else if (ai_reservation_id_hash approved =? 0) && String.eqb (ai_reservation_id approved) "" then
    Some "missing reservation_id"%string
  else if negb (bool_decide (od_type decision = OtPaperOrderDecision)) then
    Some "order decision is not PaperOrderDecision"%string
  else if od_expires_at_ns decision <=? now_ns then Some "order decision expired"%string
  else if negb (oi_intent_id intent =? od_source_intent_id decision) then Some "decision intent mismatch"%string
  else if negb (rd_intent_id (ai_decision approved) =? 0) &&
          negb (rd_intent_id (ai_decision approved) =? od_source_intent_id decision) then
    Some "decision approval mismatch"%string
  else if negb (rd_idempotency_hash (ai_decision approved) =? 0) && negb (oi_idempotency_hash intent =? 0) &&
          negb (rd_idempotency_hash (ai_decision approved) =? oi_idempotency_hash intent) then
    Some "decision approval mismatch"%string
  else if negb (oi_bundle_id intent =? od_bundle_id decision) ||
          negb (rd_bundle_id (ai_decision approved) =? od_bundle_id decision) ||
          negb (en_bundle_id envelope =? od_bundle_id decision) then Some "bundle_id mismatch"%string
  else if negb (en_source_intent_id envelope =? 0) &&
          negb (en_source_intent_id envelope =? od_source_intent_id decision) then
    Some "envelope source_intent_id mismatch"%string
  else if negb (en_decision_hash envelope =? 0) &&
          negb (en_decision_hash envelope =? od_decision_hash decision) then
    Some "envelope decision_hash mismatch"%string
  else if negb (ec_hot_path_trust_order_decision_hash config) &&
          negb (compute_order_decision_hash decision =? od_decision_hash decision) then
    Some "decision hash mismatch"%string
  else if negb (en_approval_hash envelope =? 0) && negb (ec_hot_path_trust_approval_hash config) &&
          negb (en_approval_hash envelope =? compute_approved_intent_hash approved) then
    Some "approval hash mismatch"%string
  else if (od_leg_count decision =? 0)%nat then Some "order decision has no legs"%string
  else if (max_orders <? od_leg_count decision)%nat then Some "too many child orders"%string
  else None.

(** [engine/execution/plan/ExecutionPlanner.cpp:270-290] build_plan: the plan's own fields. *)
Definition plan_header (envelope : ApprovedOrderDecisionEnvelope) (now_ns : Z) (config : ExecutionConfig)
    : OrderPlan :=
  let approved := en_approved envelope in
  let decision := en_decision envelope in
  order_plan0
    <| op_plan_id :=
         if ec_hot_path_numeric_plan_id config then make_numeric_plan_id envelope else make_plan_id envelope |>
    <| op_source_intent_id := od_source_intent_id decision |>
    <| op_approved_intent_id := rd_decision_id (ai_decision approved) |>
    <| op_reservation_id := ai_reservation_id_hash approved |>
    <| op_bundle_id := od_bundle_id decision |>
    <| op_order_count := od_leg_count decision |>
    <| op_max_total_cost_tick := od_estimated_total_cost_tick decision |>
    <| op_min_expected_edge_tick := od_total_edge_tick decision |>
    <| op_max_slippage_tick := od_slippage_buffer_tick decision |>
    <| op_chosen_bundle_qty := od_chosen_bundle_qty decision |>
    <| op_guaranteed_payout_tick := od_guaranteed_payout_tick decision |>
    <| op_expected_terminal_pnl_tick :=
         od_guaranteed_payout_tick decision -i od_estimated_total_cost_tick decision |>
    <| op_created_ts_ns := now_ns |>
    <| op_expire_after_ns := od_expires_at_ns decision |>
    <| op_idempotency_key :=
         if ec_hot_path_skip_order_strings config then ""%string
         else oi_idempotency_key (ai_intent approved) |>.

(** [engine/execution/plan/ExecutionPlanner.cpp:196-330] build_plan on an approved decision. *)
Definition build_plan (envelope : ApprovedOrderDecisionEnvelope) (now_ns : Z) (config : ExecutionConfig)
    : PlanResult :=
  match envelope_rejection envelope now_ns config with
  | Some error => inl error
  | None =>
      let plan := plan_header envelope now_ns config in
      match build_orders check_decision_leg
              (decision_order plan (ai_intent (en_approved envelope)) (ec_hot_path_skip_order_strings config))
              0 (decision_legs (en_decision envelope)) with
      | inl error => inl error
      | inr orders =>
          let plan := plan <| op_orders := std_array kMaxChildOrdersPerPlan child_order0 orders |> in
          if negb (ec_hot_path_skip_plan_validation config) then
            let validation := validate_default plan true in
            if negb (va_ok validation) then inl (va_error validation) else inr plan
          else inr plan
      end
  end.

(** ** The order builder *)

Definition digit_value (c : Ascii.ascii) : option Z :=
  let n := Z.of_nat (Ascii.nat_of_ascii c) in
  if (48 <=? n) && (n <=? 57) then Some (n - 48) else None.

(** A non-empty run of decimal digits, as an exact number. *)
Fixpoint parse_digits (acc : Z) (s : string) : option Z :=
  match s with
  | EmptyString => Some acc
  | String c s' => d ← digit_value c; parse_digits (10 * acc + d) s'
  end.

(** [engine/execution/plan/OrderBuilder.cpp:12-31] reservation_id_from_string: a decimal number that fits, else a hash. *)
Definition reservation_id_from_string (value : string) : Z :=
  if String.eqb value "" then 0
  else
    match parse_digits 0 value with
    | Some parsed => if parsed <? u64_mod then parsed else nonzero_hash (hash_string value)
    | None => nonzero_hash (hash_string value)
    end.

(** [engine/execution/plan/OrderBuilder.cpp:58-74] OrderBuilder::build, one order. *)
Definition builder_order (plan : OrderPlan) (i : nat) (leg : IntentLeg) : ChildOrder :=
  child_order0
    <| co_order_id := Z.of_nat i + 1 |>
    <| co_plan_id := op_plan_id plan |>
    <| co_client_order_id := (op_idempotency_key plan +:+ "-" +:+ pretty (N.of_nat (i + 1)))%string |>
    <| co_market_id := il_market_id leg |>
    <| co_asset_id := il_asset_id leg |>
    <| co_side := if bool_decide (il_side leg = Buy) then OsBuy else OsSell |>
    <| co_quantity_lots := il_quantity_lots leg |>
    <| co_limit_price_tick := il_worst_price_tick leg |>
    <| co_estimated_vwap_tick := il_estimated_vwap_tick leg |>
    <| co_worst_allowed_price_tick := il_worst_price_tick leg |>.

(** [engine/execution/plan/OrderBuilder.cpp:35-76] OrderBuilder::build. *)
Definition builder_build (approved_intent : ApprovedIntent) (now_ns : Z) : OrderPlan :=
  let intent := ai_intent approved_intent in
  let count := Nat.min (oi_leg_count intent) kMaxChildOrdersPerPlan in
  let plan := order_plan0
    <| op_plan_id := oi_intent_id intent |>
    <| op_source_intent_id := oi_intent_id intent |>
    <| op_approved_intent_id := oi_intent_id intent |>
    <| op_reservation_id := reservation_id_from_string (ai_reservation_id approved_intent) |>
    <| op_bundle_id := oi_bundle_id intent |>
    <| op_created_ts_ns := now_ns |>
    <| op_expire_after_ns := ai_expires_at_ns approved_intent |>
    <| op_max_total_cost_tick := oi_estimated_cost_tick intent |>
    <| op_min_expected_edge_tick := oi_total_edge_tick intent |>
    <| op_max_slippage_tick := oi_slippage_buffer_tick intent |>
    <| op_idempotency_key := oi_idempotency_key intent |>
    <| op_order_count := count |> in
  plan <| op_orders := std_array kMaxChildOrdersPerPlan child_order0
            (imap (builder_order plan) (take count (oi_legs intent))) |>.

(** [engine/execution/plan/ExecutionPlanner.cpp:332-338] ExecutionPlanner::plan. *)
Definition planner_plan (approved_intent : ApprovedIntent) (context : ExecutionContext) : OrderPlan :=
  builder_build approved_intent (xc_now_ns context).

(** ** What validation means *)

Record order_valid (order : ChildOrder) : Prop := {
  ov_order_id : co_order_id order ≠ 0;
  ov_plan_id : co_plan_id order ≠ 0;
  ov_client : co_client_order_id order ≠ ""%string;
  ov_market : co_market_id order ≠ ""%string;
  ov_asset : co_asset_id order ≠ ""%string;
  ov_quantity : 0 < co_quantity_lots order;
  ov_limit : 0 < co_limit_price_tick order;
  ov_worst : 0 < co_worst_allowed_price_tick order
}.

Lemma validate_child_order_ok order : va_ok (validate_child_order order) = true ↔ order_valid order.
Proof.
  unfold validate_child_order. split.
  - intros H. repeat (step_if_in H; [discriminate H|]). breflect. by constructor.
  - intros [? ? ? ? ? ? ? ?].
    rewrite !(proj2 (Z.eqb_neq _ _)), !(proj2 (String.eqb_neq _ _)), !(proj2 (Z.leb_gt _ _)) by done. done.
Qed.

Lemma validate_orders_ok plan_id seen orders :
  va_ok (validate_orders plan_id seen orders) = true ↔
  (∀ o, o ∈ orders → order_valid o ∧ co_plan_id o = plan_id) ∧
  NoDup (co_client_order_id <$> orders) ∧ (∀ o, o ∈ orders → co_client_order_id o ∉ seen).
Proof.
  revert seen; induction orders as [|o orders IH]; intros seen; cbn [validate_orders].
  { split; [|done]. intros _. split_and!; [set_solver|constructor|set_solver]. }
  pose proof (validate_child_order_ok o) as Ho.
  destruct (va_ok (validate_child_order o)) eqn:E; cbn [negb].
  2: { rewrite E. split; [done|]. intros (H & _). by apply Ho, (H o); left. }
  destruct (Z.eqb_spec (co_plan_id o) plan_id) as [Hp|Hp]; cbn [negb].
  2: { split; [done|]. intros (H & _). destruct Hp. apply (H o); left. }
  case_bool_decide as Hs.
  { split; [done|]. intros (_ & _ & H). by destruct (H o ltac:(left)). }
  rewrite IH. cbn [fmap list_fmap]. rewrite NoDup_cons. split.
  - intros (Hall & Hnd & Hfresh). split_and!; try done.
    + intros o' [->|Ho']%elem_of_cons; [split; [by apply Ho|done]|by apply Hall].
    + intros (o' & Heq & Hin)%list_elem_of_fmap. specialize (Hfresh _ Hin). set_solver.
    + intros o' [->|Ho']%elem_of_cons; [done|]. specialize (Hfresh _ Ho'). set_solver.
  - intros (Hall & [Hno Hnd] & Hfresh). split_and!; try done.
    + intros o' Ho'. apply Hall. by right.
    + intros o' Ho' [Heq%elem_of_singleton|Hin]%elem_of_union.
      * apply Hno. rewrite <- Heq. by apply list_elem_of_fmap_2.
      * by apply (Hfresh o'); [right|].
Qed.

(** A plan that may be executed. *)
Record plan_valid (plan : OrderPlan) (max_orders : nat) (max_age_ns : Z) (require_reservation : bool) : Prop := {
  pv_plan_id : op_plan_id plan ≠ 0;
  pv_source : op_source_intent_id plan ≠ 0;
  pv_approved : op_approved_intent_id plan ≠ 0;
  pv_reservation : require_reservation = true → op_reservation_id plan ≠ 0;
  pv_count : (0 < op_order_count plan <= Nat.min max_orders kMaxChildOrdersPerPlan)%nat;
  pv_cost : 0 < op_max_total_cost_tick plan;
  pv_slippage : 0 <= op_max_slippage_tick plan;
  pv_key : op_idempotency_key plan ≠ ""%string;
  pv_expiry : op_created_ts_ns plan < op_expire_after_ns plan;
  pv_age : 0 < max_age_ns → wrap_u64 (op_expire_after_ns plan - op_created_ts_ns plan) <= max_age_ns;
  pv_orders : ∀ o, o ∈ plan_orders plan → order_valid o ∧ co_plan_id o = op_plan_id plan;
  pv_distinct : NoDup (co_client_order_id <$> plan_orders plan)
}.

Lemma validate_impl_ok plan config require_reservation :
  va_ok (validate_impl plan config require_reservation) = true ↔
  plan_valid plan (ec_max_child_orders_per_plan config) (ec_max_order_age_ns config) require_reservation.
Proof.
  unfold validate_impl. cbv zeta. split.
  - intros H. repeat (step_if_in H; [discriminate H|]). breflect.
    apply validate_orders_ok in H as (Hall & Hnd & _).
    constructor; try done; try lia.
    intros ->. cbn [andb] in *. by breflect.
  - intros [H1 H2 H3 H4 H5 H6 H7 H8 H9 H10 H11 H12].
    rewrite !(proj2 (Z.eqb_neq (op_plan_id _) _)), !(proj2 (Z.eqb_neq (op_source_intent_id _) _)),
      !(proj2 (Z.eqb_neq (op_approved_intent_id _) _)) by done.
    replace (require_reservation && _) with false.
    2: { destruct require_reservation; [|done]. symmetry. by apply Z.eqb_neq, H4. }
    rewrite !(proj2 (Nat.eqb_neq _ _)), (proj2 (Nat.ltb_ge _ _)) by lia. cbn [orb].
    rewrite (proj2 (Z.leb_gt _ _)), (proj2 (Z.ltb_ge (op_max_slippage_tick _) _)) by lia.
    rewrite (proj2 (String.eqb_neq _ _)), (proj2 (Z.leb_gt _ _)) by (done || lia).
    replace (_ && _) with false.
    2: { symmetry. destruct (Z.ltb_spec 0 (ec_max_order_age_ns config)); [|done]. apply Z.ltb_ge. auto. }
    apply validate_orders_ok. split_and!; [done..|set_solver].
Qed.

(** Validation accepts exactly the executable plans: every id and the key are
    present, there is at least one order and no more than the configuration and
    the array allow, the cost is positive, the plan expires after its creation
    and within the maximum age, every order is complete and belongs to the plan,
    and the client order ids are pairwise different. *)
Theorem validate_impl_spec plan config require_reservation :
  va_ok (validate_impl plan config require_reservation) = true ↔
  plan_valid plan (ec_max_child_orders_per_plan config) (ec_max_order_age_ns config) require_reservation.
Proof. apply validate_impl_ok. Qed.

(** ** What a built plan carries *)

Lemma build_orders_ok {Leg} (check : Leg → option string) (build : nat → Leg → ChildOrder) i legs orders :
  build_orders check build i legs = inr orders ↔
  (∀ leg, leg ∈ legs → check leg = None) ∧ orders = imap (λ k leg, build (i + k)%nat leg) legs.
Proof.
  revert i orders; induction legs as [|leg legs IH]; intros i orders; cbn [build_orders].
  { split; [intros [= <-]; split; [set_solver|done]|by intros [_ ->]]. }
  destruct (check leg) as [e|] eqn:Hc.
  { split; [done|]. intros [H _]. specialize (H leg ltac:(left)). congruence. }
  cbn [imap]. rewrite Nat.add_0_r.
  assert (Hext : imap (λ k l, build (S i + k)%nat l) legs = imap ((λ k l, build (i + k)%nat l) ∘ S) legs).
  { apply imap_ext. intros k l _. unfold compose. by rewrite Nat.add_succ_r. }
  specialize (IH (S i)). destruct (build_orders check build (S i) legs) as [e|os].
  - split; [done|]. intros [H _]. exfalso.
    assert (inl e = inr (imap (λ k l, build (S i + k)%nat l) legs) :> string + list ChildOrder); [|done].
    apply IH. split; [|done]. intros l Hl. apply H. by right.
  - destruct (proj1 (IH os) eq_refl) as [Hall ->]. rewrite <- Hext. split.
    + intros [= <-]. split; [|done]. intros l [->|Hl]%elem_of_cons; [done|by apply Hall].
    + by intros [_ ->].
Qed.

(** What the envelope of a built plan satisfies. *)
Record envelope_ok (envelope : ApprovedOrderDecisionEnvelope) (now_ns : Z) (config : ExecutionConfig) : Prop := {
  eo_valid : approved_intent_valid (en_approved envelope) = true;
  eo_decision_id : rd_decision_id (ai_decision (en_approved envelope)) ≠ 0;
  eo_type : od_type (en_decision envelope) = OtPaperOrderDecision;
  eo_unexpired : now_ns < od_expires_at_ns (en_decision envelope);
  eo_intent : oi_intent_id (ai_intent (en_approved envelope)) = od_source_intent_id (en_decision envelope);
  eo_bundle : oi_bundle_id (ai_intent (en_approved envelope)) = od_bundle_id (en_decision envelope) ∧
    rd_bundle_id (ai_decision (en_approved envelope)) = od_bundle_id (en_decision envelope) ∧
    en_bundle_id envelope = od_bundle_id (en_decision envelope);
  eo_hash : ec_hot_path_trust_order_decision_hash config = false →
    compute_order_decision_hash (en_decision envelope) = od_decision_hash (en_decision envelope);
  eo_approval_hash : ec_hot_path_trust_approval_hash config = false → en_approval_hash envelope ≠ 0 →
    en_approval_hash envelope = compute_approved_intent_hash (en_approved envelope);
  eo_legs : (0 < od_leg_count (en_decision envelope)
               <= Nat.min (ec_max_child_orders_per_plan config) kMaxChildOrdersPerPlan)%nat
}.

Lemma envelope_rejection_None envelope now config :
  envelope_rejection envelope now config = None → envelope_ok envelope now config.
Proof.
  unfold envelope_rejection. intros H. repeat (step_if_in H; [discriminate H|]). breflect.
  constructor; try done; try lia.
  - intros Htrust. rewrite Htrust in *. cbn [negb andb] in *. by breflect.
  - intros Htrust Hne. rewrite Htrust in *. rewrite (proj2 (Z.eqb_neq _ _) Hne) in *. cbn [negb andb] in *.
    by breflect.
Qed.

Lemma plan_orders_array plan orders count :
  op_order_count plan = count → length orders = count → (count <= kMaxChildOrdersPerPlan)%nat →
  plan_orders (plan <| op_orders := std_array kMaxChildOrdersPerPlan child_order0 orders |>) = orders.
Proof.
  intros Hc Hl Hk. unfold plan_orders. destruct plan; cbn in *; unfold constant; subst.
  unfold std_array. rewrite (take_ge orders) by (unfold kMaxChildOrdersPerPlan in *; lia). by rewrite take_app_length.
Qed.

Lemma check_decision_leg_None leg :
  check_decision_leg leg = None ↔ dl_side leg = Buy ∧ 0 < dl_quantity_lots leg ∧ 0 < dl_limit_price_tick leg.
Proof.
  unfold check_decision_leg. case_bool_decide; cbn [negb]; [|naive_solver].
  destruct (Z.leb_spec (dl_quantity_lots leg) 0), (Z.leb_spec (dl_limit_price_tick leg) 0); cbn; naive_solver lia.
Qed.

(** The plan of a successful [build_plan]: its header, and one order per leg. *)
Lemma build_plan_inv envelope now config plan :
  length (od_legs (en_decision envelope)) = kMaxOrderDecisionLegs →
  build_plan envelope now config = inr plan →
  let header := plan_header envelope now config in
  let orders := imap (decision_order header (ai_intent (en_approved envelope)) (ec_hot_path_skip_order_strings config))
                  (decision_legs (en_decision envelope)) in
  envelope_ok envelope now config ∧
  plan = header <| op_orders := std_array kMaxChildOrdersPerPlan child_order0 orders |> ∧
  plan_orders plan = orders ∧
  (∀ leg, leg ∈ decision_legs (en_decision envelope) →
     dl_side leg = Buy ∧ 0 < dl_quantity_lots leg ∧ 0 < dl_limit_price_tick leg) ∧
  (ec_hot_path_skip_plan_validation config = false → plan_valid plan 16 0 true).
Proof.
  intros Hlen. unfold build_plan. destruct (envelope_rejection envelope now config) eqn:Hrej; [done|].
  apply envelope_rejection_None in Hrej as Hok. cbv zeta. set (header := plan_header _ _ _).
  destruct (build_orders _ _ _ _) as [e|orders] eqn:Hb; [done|].
  apply build_orders_ok in Hb as [Hall ->]. cbn [Nat.add]. set (orders := imap _ _).
  set (plan' := header <| op_orders := _ |>). intros H.
  assert (Hp : plan = plan' ∧
    (ec_hot_path_skip_plan_validation config = false → va_ok (validate_default plan' true) = true)).
  { destruct (ec_hot_path_skip_plan_validation config); cbn [negb] in H; [by simplify_eq|].
    destruct (va_ok (validate_default plan' true)); cbn [negb] in H; by simplify_eq. }
  destruct Hp as [-> Hvalid]. clear H. split_and!; try done.
  - pose proof (eo_legs _ _ _ Hok) as Hlegs.
    apply (plan_orders_array header orders (od_leg_count (en_decision envelope))); [done| |lia].
    unfold orders, decision_legs. rewrite length_imap, length_take, Hlen.
    unfold kMaxOrderDecisionLegs, kMaxChildOrdersPerPlan in *. lia.
  - intros leg Hleg. by apply check_decision_leg_None, Hall.
  - intros Hskip. apply Hvalid in Hskip. by apply validate_impl_ok in Hskip.
Qed.

(** C37. A plan carries out the decision it was approved for: when [build_plan]
    succeeds the approval and the decision agree on the intent and the bundle,
    the decision is a paper decision that has not expired and is untampered
    unless the configuration trusts it, and the plan has exactly one buy order
    per leg, numbered from one, with the leg's quantity and the leg's price as
    its limit and its worst price; unless validation is skipped the plan is
    executable. *)
Theorem build_plan_spec envelope now config plan :
  length (od_legs (en_decision envelope)) = kMaxOrderDecisionLegs →
  build_plan envelope now config = inr plan →
  envelope_ok envelope now config ∧
  op_source_intent_id plan = od_source_intent_id (en_decision envelope) ∧
  op_max_total_cost_tick plan = od_estimated_total_cost_tick (en_decision envelope) ∧
  op_expire_after_ns plan = od_expires_at_ns (en_decision envelope) ∧
  length (plan_orders plan) = length (decision_legs (en_decision envelope)) ∧
  (∀ i leg, decision_legs (en_decision envelope) !! i = Some leg → ∃ o, plan_orders plan !! i = Some o ∧
     dl_side leg = Buy ∧ co_side o = OsBuy ∧ co_order_id o = Z.of_nat i + 1 ∧ co_plan_id o = op_plan_id plan ∧
     0 < dl_quantity_lots leg ∧ co_quantity_lots o = dl_quantity_lots leg ∧
     0 < dl_limit_price_tick leg ∧ co_limit_price_tick o = dl_limit_price_tick leg ∧
     co_worst_allowed_price_tick o = dl_limit_price_tick leg) ∧
  (ec_hot_path_skip_plan_validation config = false → plan_valid plan 16 0 true).
Proof.
  intros Hlen Hb. destruct (build_plan_inv _ _ _ _ Hlen Hb) as (Hok & Hplan & Hpo & Hall & Hvalid).
  rewrite Hpo. split_and!; try done; try by rewrite Hplan.
  - by rewrite length_imap.
  - intros i leg Hi. rewrite list_lookup_imap, Hi. eexists. split; [reflexivity|].
    destruct (Hall leg (list_elem_of_lookup_2 _ _ _ Hi)) as (? & ? & ?). subst plan. by split_and!.
Qed.

Lemma digit_value_char d : (d < 10)%N → digit_value (pretty_N_char d) = Some (Z.of_N d).
Proof.
  intros H.
  assert (d = 0 ∨ d = 1 ∨ d = 2 ∨ d = 3 ∨ d = 4 ∨ d = 5 ∨ d = 6 ∨ d = 7 ∨ d = 8 ∨ d = 9)%N as Hd by lia.
  by repeat destruct Hd as [->|Hd]; subst.
Qed.

Lemma parse_digits_go x s : parse_digits 0 (pretty_N_go x s) = parse_digits (Z.of_N x) s.
Proof.
  revert s; induction (N.lt_wf_0 x) as [x _ IH]; intros s.
  destruct (decide (0 < x)%N) as [Hx|Hx].
  2: { replace x with 0%N by lia. by rewrite pretty_N_go_0. }
  rewrite pretty_N_go_step by done. rewrite IH by (apply N.div_lt; lia). cbn [parse_digits].
  rewrite digit_value_char by (apply N.mod_lt; lia). cbn. f_equal.
  rewrite N2Z.inj_div, N2Z.inj_mod. pose proof (Z.div_mod (Z.of_N x) (Z.of_N 10)). lia.
Qed.

(** The id survives its name: the string the risk pipeline names a reservation
    by - the decimal digits of its id - is read back by the order builder as
    that id, for every 64-bit id. *)
Theorem reservation_id_roundtrip id :
  in_u64 id → reservation_id_from_string (pretty (Z.to_N id)) = id.
Proof.
  unfold in_u64; intros Hid. unfold reservation_id_from_string.
  assert (Hparse : parse_digits 0 (pretty (Z.to_N id)) = Some id ∧ pretty (Z.to_N id) ≠ ""%string).
  { unfold pretty, pretty_N. case_decide as H0.
    - split; [|done]. change (Some 0 = Some id). f_equal. lia.
    - rewrite parse_digits_go. cbn [parse_digits]. split; [f_equal; lia|].
      intros Hemp. pose proof (parse_digits_go (Z.to_N id) "") as Hp. rewrite Hemp in Hp.
      cbn in Hp. injection Hp. lia. }
  destruct Hparse as [-> Hne]. rewrite (proj2 (String.eqb_neq _ _)) by done.
  rewrite (proj2 (Z.ltb_lt _ _)) by lia. done.
Qed.

Lemma reservation_id_roundtrip_witness :
  reservation_id_from_string (pretty (Z.to_N 18446744073709551615)) = 18446744073709551615.
Proof. apply reservation_id_roundtrip. vm_compute. split; congruence. Defined.

(** A configuration that skips the order strings but not the validation can
    plan nothing: the idempotency key it leaves out is one the validator wants. *)
Lemma skipped_strings_never_validate envelope now config plan :
  ec_hot_path_skip_order_strings config = true → ec_hot_path_skip_plan_validation config = false →
  build_plan envelope now config ≠ inr plan.
Proof.
  intros Hs Hv. unfold build_plan. destruct (envelope_rejection _ _ _); [done|]. cbv zeta.
  destruct (build_orders _ _ _ _) as [|orders]; [done|]. rewrite Hv; cbn [negb].
  destruct (va_ok _) eqn:E; [|done]. apply validate_impl_ok in E. exfalso.
  apply (pv_key _ _ _ _ E). unfold plan_header. cbn. unfold constant. by rewrite Hs.
Qed.

(** The planner takes an approval that names its reservation only by a string,
    but its validator, which sees the numeric id, refuses every such plan. *)
Lemma string_only_reservation_never_validates envelope now config plan :
  ai_reservation_id_hash (en_approved envelope) = 0 → ec_hot_path_skip_plan_validation config = false →
  build_plan envelope now config ≠ inr plan.
Proof.
  intros Hz Hv. unfold build_plan. destruct (envelope_rejection _ _ _); [done|]. cbv zeta.
  destruct (build_orders _ _ _ _) as [|orders]; [done|]. rewrite Hv; cbn [negb].
  destruct (va_ok _) eqn:E; [|done]. apply validate_impl_ok in E. exfalso.
  by apply (pv_reservation _ _ _ _ E eq_refl).
Qed.

(** *** A concrete plan *)

Definition demo_legs : list OrderDecisionLegLite :=
  [decision_leg_lite0 <| dl_asset_index := 1 |> <| dl_quantity_lots := 10 |> <| dl_limit_price_tick := 400 |>;
   decision_leg_lite0 <| dl_asset_index := 2 |> <| dl_quantity_lots := 4 |> <| dl_limit_price_tick := 500 |>].
Definition demo_plan_decision : OrderDecisionLite :=
  let d := order_decision_lite0
    <| od_source_intent_id := 7 |> <| od_bundle_id := 3 |> <| od_type := OtPaperOrderDecision |>
    <| od_chosen_bundle_qty := 2 |> <| od_estimated_total_cost_tick := 6000 |> <| od_created_ts_ns := 600 |>
    <| od_expires_at_ns := 9000 |> <| od_leg_count := 2%nat |>
    <| od_legs := std_array kMaxOrderDecisionLegs decision_leg_lite0 demo_legs |> in
  d <| od_decision_hash := compute_order_decision_hash d |>.
Definition named_leg (market asset : string) : IntentLeg :=
  leg0 <| il_market_id := market |> <| il_asset_id := asset |>.
Definition demo_approved_intent : ApprovedIntent :=
  approved_intent0
    <| ai_intent := intent0 <| oi_intent_id := 7 |> <| oi_bundle_id := 3 |> <| oi_idempotency_key := "key"%string |>
         <| oi_leg_count := 2%nat |>
         <| oi_legs := std_array kMaxIntentLegs leg0 [named_leg "m1" "yes"; named_leg "m2" "no"] |> |>
    <| ai_decision := (make_approved_decision 1 1) <| rd_decision_id := 11 |> <| rd_bundle_id := 3 |> |>
    <| ai_reservation_id := "404"%string |> <| ai_reservation_id_hash := 404 |>.
Definition demo_envelope : ApprovedOrderDecisionEnvelope :=
  make_approved_order_decision_envelope demo_approved_intent demo_plan_decision 650.

Lemma build_plan_spec_witness :
  match build_plan demo_envelope 700 execution_config0 with
  | inr plan => length (plan_orders plan) = 2%nat ∧ plan_valid plan 16 0 true
  | inl _ => False
  end.
Proof.
  assert (Hlen : length (od_legs (en_decision demo_envelope)) = kMaxOrderDecisionLegs) by reflexivity.
  pose proof (λ plan, build_plan_spec demo_envelope 700 execution_config0 plan Hlen) as H.
  assert (Hok : match build_plan demo_envelope 700 execution_config0 with inr _ => True | inl _ => False end)
    by (vm_compute; exact I).
  destruct (build_plan demo_envelope 700 execution_config0) as [e|plan]; [exact Hok|].
  destruct (H plan eq_refl) as (_ & _ & _ & _ & Hl & _ & Hv).
  split; [rewrite Hl; reflexivity|apply Hv; reflexivity].
Defined.
