(* ===== verification/PaperAdapter.v ===== *)
(** * PaperAdapter: simulated fills behind the adapter interface

    [engine/execution/adapter].  [IExecutionAdapter] is a class of operations on
    an adapter's state; [ExecutionAdapterLaws] is what the gateway relies on; the
    paper adapter walks the asks of the evidence at hand and is proved to obey
    the laws.  [CancelManager] is here too, as the other user of the interface.

    A size that is not finite or exceeds [INT64_MAX] makes the source's
    conversion to [std::int64_t] undefined; the model takes the value x86-64
    gives it, [INT64_MIN]. *)

From S2P Require Import Prelude Doubles Depth ExecutionTypes FillTracker.

(** ** The interface *)

(** [engine/execution/adapter/IExecutionAdapter.h:12-27] IExecutionAdapter. *)
Class IExecutionAdapter (A : Type) := {
  submit_plan : A → OrderPlan → ExecutionContext → A * AdapterSubmitResult;
  poll_reports : A → A * list ExecutionReport;
  adapter_cancel_plan : A → Z → A * AdapterCancelResult
}.

(** The plans the gateway submits. *)
Definition submittable (plan : OrderPlan) : Prop :=
  plan_tracked plan ∧ (0 < op_order_count plan)%nat ∧ ∀ o, o ∈ plan_orders plan → 0 < co_quantity_lots o.

(** One report for one order: its id, and no more than was ordered. *)
Definition reports_on (o : ChildOrder) (r : ExecutionReport) : Prop :=
  er_child_order_id r = co_order_id o ∧ 0 <= er_filled_lots r <= co_quantity_lots o.

(** What an adapter promises: a submission is answered by one report per order;
    when all of them are complete the plan is reported filled, and when nothing
    was filled it is reported failed. *)
Class ExecutionAdapterLaws (A : Type) `{IExecutionAdapter A} : Prop := {
  adapter_reports a plan context :
    submittable plan →
    let '(a1, result) := submit_plan a plan context in
    let '(_, reports) := poll_reports a1 in
    Forall2 reports_on (plan_orders plan) reports ∧
    (Forall2 (λ o r, er_filled_lots r = co_quantity_lots o) (plan_orders plan) reports → as_status result = PsFilled) ∧
    (Forall (λ r, er_filled_lots r = 0) reports → as_status result = PsFailed)
}.

(** ** Simulated fills *)

(** [engine/execution/adapter/PaperExecutionAdapter.cpp:14-24] FillSimulation. *)
Record FillSimulation := mkFillSimulation {
  sm_snapshot_found : bool;
  sm_full : bool;
  sm_partial : bool;
  sm_filled_lots : Z;
  sm_remaining_lots : Z;
  sm_avg_fill_price_tick : Z;
  sm_reject_reason : string
}.
Definition fill_simulation0 : FillSimulation := mkFillSimulation false false false 0 0 0 "".

(** [engine/execution/adapter/PaperExecutionAdapter.cpp:26-38] find_snapshot. *)
Definition find_snapshot (snapshots : list MarketStateSnapshot) (asset_id : string) : option MarketStateSnapshot :=
  snd <$> list_find (λ s, ms_entity_id s = asset_id) snapshots.

(** [engine/execution/adapter/PaperExecutionAdapter.cpp:40-53] find_depth_view. *)
Definition find_depth_view (context : ExecutionContext) (asset_index : Z) : option MarketDepthView :=
  snd <$> list_find (λ v, dv_asset_index v = asset_index) (xc_depth_views context).

(** [engine/execution/adapter/PaperExecutionAdapter.cpp:55-60] size_to_lots. *)
Definition size_to_lots (size : double) : Z :=
  if le_zero size then 0
  else if isfinite size && negb (ge_int size (2 ^ 63)) then floor_Z size
  else i64_min.

(** [engine/execution/adapter/PaperExecutionAdapter.cpp:79-95] simulate_buy_depth_view: the walk over the asks,
    with what is left to fill, filled, and paid. *)
Fixpoint fill_loop (limit_price_tick : Z) (levels : list PriceLevel) (remaining filled notional : Z) : Z * Z * Z :=
  match levels with
  | [] => (remaining, filled, notional)
  | level :: rest =>
      if remaining <=? 0 then (remaining, filled, notional)
      else if (pl_price_tick level <=? 0) || (limit_price_tick <? pl_price_tick level) then
        fill_loop limit_price_tick rest remaining filled notional
      else
        let available := size_to_lots (pl_size level) in
        if available <=? 0 then fill_loop limit_price_tick rest remaining filled notional
        else
          let taken := Z.min remaining available in
          fill_loop limit_price_tick rest (remaining -i taken) (filled +i taken)
            (notional +i (taken *i pl_price_tick level))
  end.

(** [engine/execution/adapter/PaperExecutionAdapter.cpp:129-166] simulate_buy: a side of a book. *)
Definition simulate_asks (order : ChildOrder) (usable : bool) (ask_count : nat) (asks : list PriceLevel)
    : FillSimulation :=
  let result := fill_simulation0 <| sm_snapshot_found := true |> <| sm_remaining_lots := co_quantity_lots order |> in
  if negb usable || (ask_count =? 0)%nat then result <| sm_reject_reason := "InsufficientDepth" |>
  else
    let '(remaining, filled, notional) :=
      fill_loop (co_limit_price_tick order) (take ask_count asks) (co_quantity_lots order) 0 0 in
    let full := filled =? co_quantity_lots order in
    mkFillSimulation true full ((0 <? filled) && negb full) filled remaining
      (if 0 <? filled then Z.quot notional filled else 0)
      (if full then "" else "InsufficientDepth").

(** [engine/execution/adapter/PaperExecutionAdapter.cpp:62-108] simulate_buy_depth_view. *)
Definition simulate_buy_depth_view (order : ChildOrder) (view : MarketDepthView) : FillSimulation :=
  simulate_asks order (dv_usable_for_depth view) (dv_ask_count view) (dv_asks view).

(** [engine/execution/adapter/PaperExecutionAdapter.cpp:110-167] simulate_buy: a depth view is preferred to a snapshot. *)
Definition simulate_buy (order : ChildOrder) (context : ExecutionContext) : FillSimulation :=
  match find_depth_view context (co_asset_index order) with
  | Some view => simulate_buy_depth_view order view
  | None =>
      match find_snapshot (xc_snapshots context) (co_asset_id order) with
      | None => fill_simulation0 <| sm_remaining_lots := co_quantity_lots order |>
                                 <| sm_reject_reason := "MissingSnapshot" |>
      | Some s => simulate_asks order (ms_usable_for_depth s) (ms_ask_count s) (ms_asks s)
      end
  end.

(** [engine/execution/adapter/PaperExecutionAdapter.cpp:169-188] make_report. *)
Definition make_report (plan : OrderPlan) (order : ChildOrder) (status : ChildOrderStatus)
    (fill : FillSimulation) (now_ns : Z) (reject_reason : string) : ExecutionReport :=
  mkExecutionReport (op_plan_id plan) (co_order_id order) status ""
    (if String.eqb reject_reason "" then sm_reject_reason fill else reject_reason)
    (sm_filled_lots fill) (sm_remaining_lots fill) (sm_avg_fill_price_tick fill) now_ns.

(** [engine/execution/adapter/PaperExecutionAdapter.cpp:225-232] submit_plan: only buys are simulated. *)
Definition simulate_order (context : ExecutionContext) (order : ChildOrder) : FillSimulation :=
  if bool_decide (co_side order = OsBuy) then simulate_buy order context
  else fill_simulation0 <| sm_remaining_lots := co_quantity_lots order |>
                        <| sm_reject_reason := "UnsupportedSide" |>.

(** [engine/execution/adapter/PaperExecutionAdapter.cpp:241-244] submit_plan: a fill taken back. *)
Definition no_fill (order : ChildOrder) (fill : FillSimulation) : FillSimulation :=
  fill <| sm_filled_lots := 0 |> <| sm_remaining_lots := co_quantity_lots order |>
       <| sm_avg_fill_price_tick := 0 |>.

(** [engine/execution/adapter/PaperExecutionAdapter.cpp:284-324] submit_plan: one order in sequential mode. *)
Definition sequential_status (context : ExecutionContext) (order : ChildOrder) : ChildOrderStatus :=
  let fill := simulate_order context order in
  if sm_full fill then CsFilled
  else if sm_partial fill && ec_allow_partial_fill_paper (xc_config context) then CsPartiallyFilled
  else CsFailed.

Definition sequential_report (plan : OrderPlan) (context : ExecutionContext) (order : ChildOrder) : ExecutionReport :=
  let fill := simulate_order context order in
  match sequential_status context order with
  | CsFailed => make_report plan order CsFailed (no_fill order fill) (xc_now_ns context) ""
  | status => make_report plan order status fill (xc_now_ns context) ""
  end.

(** The state of the paper adapter: its pending reports. *)
Record PaperExecutionAdapter := mkPaperExecutionAdapter {
  pe_pending_reports : list ExecutionReport
}.

Definition count_status (status : ChildOrderStatus) (context : ExecutionContext) (orders : list ChildOrder) : Z :=
  sum_list_Z (λ o, if bool_decide (sequential_status context o = status) then 1 else 0) orders.

(** [engine/execution/adapter/PaperExecutionAdapter.cpp:192-338] PaperExecutionAdapter::submit_plan. *)
Definition paper_submit_plan (a : PaperExecutionAdapter) (plan : OrderPlan) (context : ExecutionContext)
    : PaperExecutionAdapter * AdapterSubmitResult :=
  let orders := plan_orders plan in
  let count := Z.of_nat (op_order_count plan) in
  let id := op_plan_id plan in
  if negb (op_expire_after_ns plan =? 0) && (op_expire_after_ns plan <=? xc_now_ns context) then
    (mkPaperExecutionAdapter ((λ o, make_report plan o CsFailed
       (fill_simulation0 <| sm_remaining_lots := co_quantity_lots o |>) (xc_now_ns context) "Expired") <$> orders),
     mkAdapterSubmitResult false id PsFailed 0 count ArAdapterError "paper plan expired")
  else if bool_decide (ec_paper_mode (xc_config context) = PaperAtomic) then
    if negb (forallb (λ o, sm_full (simulate_order context o)) orders) then
      (mkPaperExecutionAdapter ((λ o, make_report plan o CsFailed
         (no_fill o (simulate_order context o)) (xc_now_ns context) "") <$> orders),
       mkAdapterSubmitResult false id PsFailed 0 count ArAdapterError "paper atomic fill failed")
    else
      (mkPaperExecutionAdapter ((λ o, make_report plan o CsFilled
         (simulate_order context o) (xc_now_ns context) "") <$> orders),
       mkAdapterSubmitResult true id PsFilled count 0 ArOk "")
  else
    let filled_count := count_status CsFilled context orders in
    let partial_count := count_status CsPartiallyFilled context orders in
    let rejected_count := count_status CsFailed context orders in
    (mkPaperExecutionAdapter (sequential_report plan context <$> orders),
     mkAdapterSubmitResult (rejected_count =? 0) id
       (if 0 <? partial_count then PsPartiallyFilled else if rejected_count =? 0 then PsFilled else PsFailed)
       (filled_count + partial_count) rejected_count
       (if rejected_count =? 0 then ArOk else ArAdapterError)
       (if rejected_count =? 0 then "" else "paper sequential fill failed")).

(** [engine/execution/adapter/PaperExecutionAdapter.cpp:340-344] PaperExecutionAdapter::poll_reports. *)
Definition paper_poll_reports (a : PaperExecutionAdapter) : PaperExecutionAdapter * list ExecutionReport :=
  (mkPaperExecutionAdapter [], pe_pending_reports a).

(** [engine/execution/adapter/PaperExecutionAdapter.cpp:346-354] PaperExecutionAdapter::cancel_plan. *)
Definition paper_cancel_plan (a : PaperExecutionAdapter) (plan_id : Z) : PaperExecutionAdapter * AdapterCancelResult :=
  (a, mkAdapterCancelResult true plan_id ArOk "").

#[export] Instance paper_adapter : IExecutionAdapter PaperExecutionAdapter := {|
  submit_plan := paper_submit_plan;
  poll_reports := paper_poll_reports;
  adapter_cancel_plan := paper_cancel_plan
|}.

(** ** Cancelling *)

(** [engine/execution/cancel/CancelManager.cpp:7-12] terminal_status. *)
Definition terminal_status (status : ChildOrderStatus) : bool :=
  bool_decide (status = CsFilled) || bool_decide (status = CsCancelled) ||
  bool_decide (status = CsFailed) || bool_decide (status = CsExpired).

(** [engine/execution/cancel/CancelManager.cpp:14-31] open_remaining_lots. *)
Definition open_remaining_lots (order : ChildOrder) (fill_state : PlanFillState) : Z :=
  if terminal_status (co_status order) then 0
  else
    match list_find (λ c, cf_order_id c = co_order_id order) (fill_children fill_state) with
    | Some (_, child) => cf_remaining_qty_lots child
    | None => co_quantity_lots order
    end.

(** [engine/execution/cancel/CancelManager.cpp:33-48] cancel_report. *)
Definition cancel_report (plan : OrderPlan) (order : ChildOrder) (status : ChildOrderStatus)
    (remaining_lots now_ns : Z) : ExecutionReport :=
  report0 <| er_plan_id := op_plan_id plan |> <| er_child_order_id := co_order_id order |>
          <| er_status := status |>
          <| er_remaining_lots := if bool_decide (status = CsCancelled) then 0 else remaining_lots |>
          <| er_event_ts_ns := now_ns |>.

(** [engine/execution/cancel/CancelManager.cpp:101-122] cancel_open_orders: the reports of the open orders. *)
Definition cancel_reports (plan : OrderPlan) (fill_state : PlanFillState) (now_ns : Z) : list ExecutionReport :=
  plan_orders plan ≫= λ order,
    let remaining_lots := open_remaining_lots order fill_state in
    if remaining_lots <=? 0 then []
    else [cancel_report plan order CsCancelRequested remaining_lots now_ns;
          cancel_report plan order CsCancelled remaining_lots now_ns].

Section cancel.
Context {A : Type} `{IExecutionAdapter A}.

(** [engine/execution/cancel/CancelManager.cpp:54-125] cancel_open_orders; a null adapter is [None]. *)
Definition cancel_open_orders (adapter : option A) (plan : OrderPlan) (fill_state : PlanFillState)
    (config : ExecutionConfig) (now_ns : Z) : option A * CancelResult :=
  match ec_mode config with
  | ModeLive =>
      if negb (ec_execution_enabled config) || negb (ec_live_enabled config) then
        (adapter, mkCancelResult false (op_plan_id plan) ArLiveExecutionDisabled []
                    "live execution cancel is disabled")
      else
        match adapter with
        | None => (None, mkCancelResult false (op_plan_id plan) ArMissingAdapter [] "missing execution adapter")
        | Some a =>
            let '(a, cancel) := adapter_cancel_plan a (op_plan_id plan) in
            (Some a, mkCancelResult (ac_ok cancel) (ac_plan_id cancel) (ac_code cancel) [] (ac_error cancel))
        end
  | ModeSandbox =>
      (adapter, mkCancelResult false (op_plan_id plan) ArAdapterError [] "sandbox execution cancel is not wired")
  | ModePaper =>
      (adapter, mkCancelResult true (op_plan_id plan) ArOk (cancel_reports plan fill_state now_ns) "")
  end.

(** [engine/execution/cancel/CancelManager.cpp:127-147] cancel. *)
Definition cancel_order (adapter : option A) (plan_id child_order_id : Z) : option A * ExecutionReport :=
  let report := report0 <| er_plan_id := plan_id |> <| er_child_order_id := child_order_id |> in
  match adapter with
  | None => (None, report <| er_status := CsFailed |> <| er_reject_reason := "missing execution adapter" |>)
  | Some a =>
      let '(a, result) := adapter_cancel_plan a plan_id in
      (Some a, report <| er_status := if ac_ok result then CsCancelled else CsFailed |>
                      <| er_reject_reason := ac_error result |>)
  end.
End cancel.

(** ** What a simulated fill is *)

Definition eligible (limit : Z) (level : PriceLevel) : bool :=
  (0 <? pl_price_tick level) && (pl_price_tick level <=? limit) && (0 <? size_to_lots (pl_size level)).

(** The lots on offer at or below the limit, exactly. *)
Definition lots_within (limit : Z) (levels : list PriceLevel) : Z :=
  sum_list_Z (λ l, if eligible limit l then size_to_lots (pl_size l) else 0) levels.

Lemma lots_within_nonneg limit levels : 0 <= lots_within limit levels.
Proof. apply sum_list_Z_nonneg. intros l _. unfold eligible. step_if; [breflect; lia|lia]. Qed.

Lemma fill_loop_spec limit levels q remaining filled notional :
  0 <= remaining → 0 <= filled → remaining + filled = q → q <= i64_max → q * limit <= i64_max →
  filled <= notional <= filled * limit →
  let '(r, f, n) := fill_loop limit levels remaining filled notional in
  let got := Z.min remaining (lots_within limit levels) in
  r = remaining - got ∧ f = filled + got ∧ f <= n <= f * limit.
Proof.
  revert remaining filled notional; induction levels as [|l levels IH]; intros remaining filled notional
    Hr Hf Hq Hmax Hlim Hn; cbn [fill_loop].
  { change (lots_within limit []) with 0. cbv zeta. split_and!; lia. }
  pose proof (lots_within_nonneg limit levels) as Hpos.
  pose proof (lots_within_nonneg limit (l :: levels)) as Hpos'.
  assert (Hcons : lots_within limit (l :: levels) =
    (if eligible limit l then size_to_lots (pl_size l) else 0) + lots_within limit levels) by done.
  destruct (Z.leb_spec remaining 0) as [Hz|Hz]; [cbv zeta; split_and!; lia|].
  unfold eligible in Hcons.
  destruct (Z.leb_spec (pl_price_tick l) 0) as [Hp|Hp]; cbn [orb].
  { rewrite (proj2 (Z.ltb_ge _ _)) in Hcons by lia. cbn [andb] in Hcons. rewrite Hcons, Z.add_0_l. by apply IH. }
  destruct (Z.ltb_spec limit (pl_price_tick l)) as [Hl|Hl].
  { rewrite (proj2 (Z.leb_gt _ _)), andb_false_r in Hcons by lia. cbn [andb] in Hcons.
    rewrite Hcons, Z.add_0_l. by apply IH. }
  rewrite (proj2 (Z.ltb_lt _ _)), (proj2 (Z.leb_le _ _)) in Hcons by lia. cbn [andb] in Hcons.
  destruct (Z.leb_spec (size_to_lots (pl_size l)) 0) as [Hs|Hs].
  { rewrite (proj2 (Z.ltb_ge _ _)) in Hcons by lia. rewrite Hcons, Z.add_0_l. by apply IH. }
  rewrite (proj2 (Z.ltb_lt _ _)) in Hcons by lia. rewrite Hcons.
  set (taken := Z.min remaining (size_to_lots (pl_size l))) in *.
  assert (Ht : 0 < taken <= remaining) by (subst taken; lia).
  assert (Hcost : taken <= taken * pl_price_tick l <= taken * limit) by nia.
  assert (Hbound : (filled + taken) * limit <= i64_max) by nia.
  assert (Hexp : (filled + taken) * limit = filled * limit + taken * limit) by lia.
  rewrite !(wrap_i64_id (_ - _)), !(wrap_i64_id (filled + _)) by (unfold in_i64; lia).
  rewrite (wrap_i64_id (taken * _)) by (unfold in_i64; nia).
  rewrite (wrap_i64_id (notional + _)) by (unfold in_i64; nia).
  specialize (IH (remaining - taken) (filled + taken) (notional + taken * pl_price_tick l)).
  destruct (fill_loop _ _ _ _ _) as [[r f] n]. cbv zeta in *.
  destruct IH as (-> & -> & Hb); [lia|lia|lia|done|done|lia|].
  subst taken. split_and!; lia.
Qed.

(** An order whose worst total fits in 64 bits. *)
Definition order_fits (o : ChildOrder) : Prop :=
  0 < co_quantity_lots o <= i64_max ∧ co_quantity_lots o * co_limit_price_tick o <= i64_max.

(** What every simulation satisfies, whatever it is run against. *)
Record fill_sane (o : ChildOrder) (m : FillSimulation) : Prop := {
  fs_sum : sm_filled_lots m + sm_remaining_lots m = co_quantity_lots o;
  fs_range : 0 <= sm_filled_lots m <= co_quantity_lots o;
  fs_full : sm_full m = true ↔ sm_filled_lots m = co_quantity_lots o;
  fs_partial : sm_partial m = true ↔ 0 < sm_filled_lots m < co_quantity_lots o
}.

Lemma fill_loop_quantities limit levels q remaining filled notional :
  0 <= remaining → 0 <= filled → remaining + filled = q → q <= i64_max →
  let '(r, f, _) := fill_loop limit levels remaining filled notional in
  r + f = q ∧ 0 <= f <= q.
Proof.
  revert remaining filled notional; induction levels as [|l levels IH]; intros remaining filled notional
    Hr Hf Hq Hmax; cbn [fill_loop]; [lia|].
  destruct (Z.leb_spec remaining 0); [lia|]. step_if; [by apply IH|].
  destruct (Z.leb_spec (size_to_lots (pl_size l)) 0); [by apply IH|].
  rewrite (wrap_i64_id (_ - _)), (wrap_i64_id (filled + _)) by (unfold in_i64; lia). apply IH; lia.
Qed.

Lemma unfilled_sane o m :
  0 < co_quantity_lots o → sm_filled_lots m = 0 → sm_remaining_lots m = co_quantity_lots o →
  sm_full m = false → sm_partial m = false → fill_sane o m.
Proof. intros Hq Hf Hr Hfu Hp. constructor; rewrite ?Hf, ?Hr, ?Hfu, ?Hp; try lia; split; done || lia. Qed.

Lemma simulate_asks_sane o usable count asks :
  0 < co_quantity_lots o <= i64_max → fill_sane o (simulate_asks o usable count asks).
Proof.
  intros Hq. unfold simulate_asks. step_if; [apply unfilled_sane; done || lia|].
  pose proof (fill_loop_quantities (co_limit_price_tick o) (take count asks) (co_quantity_lots o)
    (co_quantity_lots o) 0 0 ltac:(lia) ltac:(lia) ltac:(lia) ltac:(lia)) as H.
  destruct (fill_loop _ _ _ _ _) as [[r f] n]. destruct H as [Hsum Hrange].
  constructor; cbn [sm_filled_lots sm_remaining_lots sm_full sm_partial]; try lia.
Qed.

Lemma simulate_order_sane context o :
  0 < co_quantity_lots o <= i64_max → fill_sane o (simulate_order context o).
Proof.
  intros Hq. unfold simulate_order, simulate_buy, simulate_buy_depth_view. case_bool_decide.
  - destruct (find_depth_view _ _); [by apply simulate_asks_sane|].
    destruct (find_snapshot _ _); [by apply simulate_asks_sane|]. apply unfilled_sane; done || lia.
  - apply unfilled_sane; done || lia.
Qed.

(** The evidence an order is filled against. *)
Definition book_for (context : ExecutionContext) (o : ChildOrder) : list PriceLevel :=
  match find_depth_view context (co_asset_index o) with
  | Some v => if dv_usable_for_depth v then take (dv_ask_count v) (dv_asks v) else []
  | None =>
      match find_snapshot (xc_snapshots context) (co_asset_id o) with
      | Some s => if ms_usable_for_depth s then take (ms_ask_count s) (ms_asks s) else []
      | None => []
      end
  end.

Lemma simulate_asks_exact o usable count asks :
  order_fits o →
  let m := simulate_asks o usable count asks in
  let levels := if usable then take count asks else [] in
  sm_filled_lots m = Z.min (co_quantity_lots o) (lots_within (co_limit_price_tick o) levels) ∧
  (0 < sm_filled_lots m → 0 < sm_avg_fill_price_tick m <= co_limit_price_tick o).
Proof.
  intros [Hq Hlim]. unfold simulate_asks. cbv zeta.
  destruct usable; cbn [negb orb]; [|change (lots_within _ []) with 0; cbn; unfold constant; lia].
  destruct (Nat.eqb_spec count 0) as [->|Hc]; [change (lots_within _ (take 0 asks)) with 0; cbn; unfold constant; lia|].
  pose proof (fill_loop_spec (co_limit_price_tick o) (take count asks) (co_quantity_lots o)
    (co_quantity_lots o) 0 0 ltac:(lia) ltac:(lia) ltac:(lia) ltac:(lia) ltac:(lia) ltac:(lia)) as H.
  destruct (fill_loop _ _ _ _ _) as [[r f] n]. cbv zeta in H. destruct H as (_ & -> & Hn).
  cbn [sm_filled_lots sm_avg_fill_price_tick]. split; [lia|]. intros Hpos.
  rewrite (proj2 (Z.ltb_lt _ _)) by lia. rewrite Z.quot_div_nonneg by lia.
  set (f := 0 + _) in *. split.
  - apply Z.div_str_pos. lia.
  - apply Z.div_le_upper_bound; lia.
Qed.

(** A simulated buy fills exactly what the book offers: the filled quantity is
    the order's, or all the lots at or below its limit in the evidence for its
    asset when there are fewer; filled and remaining add up to the order, and
    the average price of a fill is positive and never above the limit.  Nothing
    is filled without evidence, on an unusable book or for a sell. *)
Theorem simulate_order_exact context o :
  order_fits o →
  let m := simulate_order context o in
  sm_filled_lots m + sm_remaining_lots m = co_quantity_lots o ∧
  (co_side o = OsBuy →
     sm_filled_lots m = Z.min (co_quantity_lots o) (lots_within (co_limit_price_tick o) (book_for context o))) ∧
  (co_side o ≠ OsBuy → sm_filled_lots m = 0) ∧
  (0 < sm_filled_lots m → 0 < sm_avg_fill_price_tick m <= co_limit_price_tick o) ∧
  (sm_full m = true ↔ sm_filled_lots m = co_quantity_lots o) ∧
  (sm_partial m = true ↔ 0 < sm_filled_lots m < co_quantity_lots o).
Proof.
  intros Hfit m. pose proof Hfit as [Hq _].
  destruct (simulate_order_sane context o Hq) as [Hsum _ Hfull Hpart].
  assert (Hexact : (co_side o = OsBuy →
     sm_filled_lots m = Z.min (co_quantity_lots o) (lots_within (co_limit_price_tick o) (book_for context o))) ∧
    (co_side o ≠ OsBuy → sm_filled_lots m = 0) ∧
    (0 < sm_filled_lots m → 0 < sm_avg_fill_price_tick m <= co_limit_price_tick o)).
  { clear Hsum Hfull Hpart. subst m. unfold simulate_order, simulate_buy, simulate_buy_depth_view, book_for.
    case_bool_decide as Hside; [|split_and!; done].
    destruct (find_depth_view _ _) as [v|].
    { destruct (simulate_asks_exact o (dv_usable_for_depth v) (dv_ask_count v) (dv_asks v) Hfit). by split_and!. }
    destruct (find_snapshot _ _) as [s|].
    { destruct (simulate_asks_exact o (ms_usable_for_depth s) (ms_ask_count s) (ms_asks s) Hfit). by split_and!. }
    change (lots_within (co_limit_price_tick o) []) with 0.
    cbn [sm_filled_lots]. unfold constant. split_and!; try done. intros _. cbn. unfold constant. lia. }
  destruct Hexact as (? & ? & ?). by split_and!.
Qed.

(** ** The paper adapter keeps the promises of the interface *)

Lemma submittable_order plan o :
  submittable plan → o ∈ plan_orders plan → 0 < co_quantity_lots o <= i64_max.
Proof.
  intros ((_ & _ & _ & Hq) & _ & Hpos) Ho. split; [by apply Hpos|].
  rewrite Forall_forall in Hq. destruct (Hq o Ho) as [_ Hs]. unfold small_lots in Hs. lia.
Qed.

Lemma reports_fmap {P : ChildOrder → ExecutionReport → Prop} (f : ChildOrder → ExecutionReport) orders :
  (∀ o, o ∈ orders → P o (f o)) → Forall2 P orders (f <$> orders).
Proof.
  intros H. apply Forall2_fmap_r, Forall2_same_length_lookup_2; [done|].
  intros i o o' Ho Ho'. simplify_eq. by apply H, (list_elem_of_lookup_2 _ i).
Qed.

Lemma Forall2_fmap_elem {P : ChildOrder → ExecutionReport → Prop} (f : ChildOrder → ExecutionReport) orders o :
  Forall2 P orders (f <$> orders) → o ∈ orders → P o (f o).
Proof.
  intros H (i & Hi)%list_elem_of_lookup. apply (Forall2_lookup_lr _ _ _ i _ _ H Hi).
  by rewrite list_lookup_fmap, Hi.
Qed.

Lemma plan_orders_nonempty plan : submittable plan → ∃ o, o ∈ plan_orders plan.
Proof.
  intros ((Hc & Hl & _) & Hn & _). unfold plan_orders.
  destruct (op_orders plan) as [|o os]; [done|]. destruct (op_order_count plan); [lia|].
  exists o. cbn. left.
Qed.

(** The filled quantity of the report of an order in sequential mode. *)
Lemma sequential_filled plan context o :
  0 < co_quantity_lots o <= i64_max →
  let r := sequential_report plan context o in
  er_child_order_id r = co_order_id o ∧ 0 <= er_filled_lots r <= co_quantity_lots o ∧
  (er_filled_lots r = co_quantity_lots o ↔ sequential_status context o = CsFilled) ∧
  (er_filled_lots r = 0 ↔ sequential_status context o = CsFailed).
Proof.
  intros Hq. pose proof (simulate_order_sane context o Hq) as [Hsum Hr Hfull Hpart].
  unfold sequential_report, sequential_status.
  destruct (sm_full (simulate_order context o)) eqn:Ef.
  { pose proof (proj1 Hfull eq_refl). cbn. split_and!; try done; try lia; split; intros; done || lia. }
  destruct (sm_partial (simulate_order context o) && _) eqn:Ep.
  { apply andb_prop in Ep as [Ep _]. pose proof (proj1 Hpart Ep). cbn.
    split_and!; try done; try lia; split; intros; done || lia. }
  assert (sm_filled_lots (simulate_order context o) ≠ co_quantity_lots o) by (intros H; by apply Hfull in H).
  cbn; unfold constant. split_and!; try done; try lia; split; intros; done || lia.
Qed.

Lemma count_status_zero status context orders :
  count_status status context orders = 0 ↔ ∀ o, o ∈ orders → sequential_status context o ≠ status.
Proof.
  unfold count_status. induction orders as [|o orders IH]; cbn [sum_list_Z]; [split; [set_solver|done]|].
  assert (0 <= sum_list_Z (λ o, if bool_decide (sequential_status context o = status) then 1 else 0) orders)
    by (apply sum_list_Z_nonneg; intros; case_bool_decide; lia).
  case_bool_decide as Hs.
  - split; [lia|]. intros Hno. by destruct (Hno o ltac:(left)).
  - rewrite Z.add_0_l, IH. split.
    + intros Hno o' [->|Ho']%elem_of_cons; auto.
    + intros Hno o' Ho'. apply Hno. by right.
Qed.

Lemma count_status_nonneg status context orders : 0 <= count_status status context orders.
Proof. apply sum_list_Z_nonneg. intros; case_bool_decide; lia. Qed.

#[export] Instance paper_adapter_laws : ExecutionAdapterLaws PaperExecutionAdapter.
Proof.
  constructor. intros a plan context Hp. cbn [submit_plan poll_reports paper_adapter]. unfold paper_submit_plan.
  destruct (plan_orders_nonempty plan Hp) as (o0 & Ho0).
  assert (Hpos : ∀ o, o ∈ plan_orders plan → 0 < co_quantity_lots o <= i64_max)
    by (intros; by eapply submittable_order).
  step_if; [|case_bool_decide as Hmode; [destruct (forallb _ _) eqn:Hall; cbn [negb]|]];
    cbn [paper_poll_reports pe_pending_reports as_status].
  - split_and!; [|intros H; exfalso|done].
    + apply reports_fmap. intros o Ho. specialize (Hpos o Ho). split; [done|]. cbn. lia.
    + specialize (Hpos o0 Ho0). pose proof (Forall2_fmap_elem _ _ _ H Ho0) as H0. cbn in H0. lia.
  - rewrite forallb_true_elem in Hall.
    assert (Hfill : ∀ o, o ∈ plan_orders plan → sm_filled_lots (simulate_order context o) = co_quantity_lots o).
    { intros o Ho. apply (fs_full _ _ (simulate_order_sane context o (Hpos o Ho))), Hall, Ho. }
    split_and!; [|done|intros H; exfalso].
    + apply reports_fmap. intros o Ho. specialize (Hfill o Ho). specialize (Hpos o Ho).
      split; [done|]. cbn. lia.
    + apply Forall_fmap in H. rewrite Forall_forall in H. specialize (H o0 Ho0). cbn in H.
      specialize (Hfill o0 Ho0). specialize (Hpos o0 Ho0). lia.
  - split_and!; [|intros H; exfalso|done].
    + apply reports_fmap. intros o Ho. specialize (Hpos o Ho). split; [done|]. cbn; unfold constant. lia.
    + specialize (Hpos o0 Ho0). pose proof (Forall2_fmap_elem _ _ _ H Ho0) as H0.
      cbn in H0; unfold constant in H0. lia.
  - pose proof (count_status_nonneg CsPartiallyFilled context (plan_orders plan)) as Hpn.
    pose proof (count_status_zero CsPartiallyFilled context (plan_orders plan)) as Hpz.
    pose proof (count_status_zero CsFailed context (plan_orders plan)) as Hfz.
    split_and!.
    + apply reports_fmap. intros o Ho. by destruct (sequential_filled plan context o (Hpos o Ho)) as (? & ? & _).
    + intros H. assert (Hst : ∀ o, o ∈ plan_orders plan → sequential_status context o = CsFilled).
      { intros o Ho. apply (sequential_filled plan context o (Hpos o Ho)). by apply (Forall2_fmap_elem _ _ _ H). }
      rewrite (proj2 Hpz), (proj2 Hfz); [done|intros o Ho; by rewrite Hst..].
    + intros H%Forall_fmap. rewrite Forall_forall in H.
      assert (Hst : ∀ o, o ∈ plan_orders plan → sequential_status context o = CsFailed).
      { intros o Ho. apply (sequential_filled plan context o (Hpos o Ho)). by apply H. }
      rewrite (proj2 Hpz) by (intros o Ho; by rewrite Hst). cbn.
      destruct (Z.eqb_spec (count_status CsFailed context (plan_orders plan)) 0) as [Hz|]; [|done].
      exfalso. by apply (proj1 Hfz Hz o0 Ho0), Hst.
Qed.

(** Atomic paper execution is all or nothing: for any plan of positive
    quantities, either every order is reported filled with exactly its quantity
    and the plan is filled, or every order is reported failed with nothing
    filled and everything remaining and the plan is failed. *)
Theorem paper_atomic_all_or_nothing a plan context :
  ec_paper_mode (xc_config context) = PaperAtomic →
  (∀ o, o ∈ plan_orders plan → 0 < co_quantity_lots o <= i64_max) →
  let '(a1, result) := paper_submit_plan a plan context in
  let reports := (paper_poll_reports a1).2 in
  (as_ok result = true ∧ as_status result = PsFilled ∧
   Forall2 (λ o r, er_child_order_id r = co_order_id o ∧ er_status r = CsFilled ∧
     er_filled_lots r = co_quantity_lots o ∧ er_remaining_lots r = 0) (plan_orders plan) reports) ∨
  (as_ok result = false ∧ as_status result = PsFailed ∧
   Forall2 (λ o r, er_child_order_id r = co_order_id o ∧ er_status r = CsFailed ∧
     er_filled_lots r = 0 ∧ er_remaining_lots r = co_quantity_lots o) (plan_orders plan) reports).
Proof.
  intros Hmode Hpos. unfold paper_submit_plan.
  step_if; [|rewrite bool_decide_true by done; destruct (forallb _ _) eqn:Hall; cbn [negb]];
    cbn [paper_poll_reports pe_pending_reports snd].
  - right. split_and!; [done..|]. apply reports_fmap. intros o Ho. by split_and!.
  - left. split_and!; [done..|]. apply reports_fmap. intros o Ho. rewrite forallb_true_elem in Hall.
    pose proof (simulate_order_sane context o (Hpos o Ho)) as [Hsum _ Hf _].
    pose proof (proj1 Hf (Hall o Ho)) as Hfill. split_and!; try done; cbn; lia.
  - right. split_and!; [done..|]. apply reports_fmap. intros o Ho. by split_and!.
Qed.

(** ** Cancelling *)

Lemma cancel_reports_elem plan fill_state now r :
  r ∈ cancel_reports plan fill_state now ↔
  ∃ o status, o ∈ plan_orders plan ∧ 0 < open_remaining_lots o fill_state ∧
    (status = CsCancelRequested ∨ status = CsCancelled) ∧
    r = cancel_report plan o status (open_remaining_lots o fill_state) now.
Proof.
  unfold cancel_reports. rewrite list_elem_of_bind. split.
  - intros (o & Hr & Ho). destruct (Z.leb_spec (open_remaining_lots o fill_state) 0); [set_solver|].
    apply elem_of_cons in Hr as [->|[->|Hr]%elem_of_cons]; [..|set_solver]; eauto 10.
  - intros (o & status & Ho & Hopen & Hst & ->). exists o. split; [|done].
    rewrite (proj2 (Z.leb_gt _ _)) by done. destruct Hst as [->| ->]; set_solver.
Qed.

(** Cancelling a paper plan asks for the cancellation of exactly the open
    orders: an order gets a request with its remaining quantity and then a
    cancellation with nothing remaining when it is not terminal and the tracker
    has lots left for it; a filled, cancelled, failed or expired order gets no
    report, and the adapter is not called. *)
Theorem cancel_open_orders_spec {A} `{IExecutionAdapter A} (adapter : option A) plan fill_state config now :
  ec_mode config = ModePaper →
  let '(adapter', result) := cancel_open_orders adapter plan fill_state config now in
  adapter' = adapter ∧ cn_ok result = true ∧
  (∀ r, r ∈ cn_reports result → ∃ o, o ∈ plan_orders plan ∧ er_child_order_id r = co_order_id o ∧
     terminal_status (co_status o) = false ∧ 0 < open_remaining_lots o fill_state ∧
     (er_status r = CsCancelRequested ∧ er_remaining_lots r = open_remaining_lots o fill_state ∨
      er_status r = CsCancelled ∧ er_remaining_lots r = 0)) ∧
  (∀ o, o ∈ plan_orders plan → 0 < open_remaining_lots o fill_state →
     cancel_report plan o CsCancelRequested (open_remaining_lots o fill_state) now ∈ cn_reports result ∧
     cancel_report plan o CsCancelled (open_remaining_lots o fill_state) now ∈ cn_reports result).
Proof.
  intros Hm. unfold cancel_open_orders. rewrite Hm. cbn [cn_ok cn_reports]. split_and!; try done.
  - intros r (o & st & Ho & Hopen & Hst & ->)%cancel_reports_elem. exists o.
    split_and!; try done.
    + unfold open_remaining_lots in Hopen. by destruct (terminal_status (co_status o)).
    + destruct Hst as [->| ->]; [left|right]; done.
  - intros o Ho Hopen. split; apply cancel_reports_elem; eauto 10.
Qed.

(** *** Witnesses *)

Definition ask (price : Z) (lots : positive) : PriceLevel := mkPriceLevel price d0_0 (double_of_pos lots).
Definition paper_view0 : MarketDepthView :=
  mkMarketDepthView 0 0 0 0 false false false false false 0 0 [] [] (build_depth_prefix [] 0 [] 0).
Definition paper_view : MarketDepthView :=
  paper_view0 <| dv_asset_index := 1 |> <| dv_usable_for_depth := true |> <| dv_ask_count := 2%nat |>
              <| dv_asks := [ask 40 6; ask 50 3] |>.
Definition paper_context : ExecutionContext := mkExecutionContext 700 [] [paper_view] execution_config0.
Definition paper_order : ChildOrder :=
  child_order0 <| co_order_id := 1 |> <| co_asset_index := 1 |> <| co_quantity_lots := 8 |>
               <| co_limit_price_tick := 50 |>.

Lemma simulate_order_exact_witness :
  let m := simulate_order paper_context paper_order in
  sm_filled_lots m = 8 ∧ 0 < sm_avg_fill_price_tick m <= 50.
Proof.
  assert (Hfit : order_fits paper_order) by (vm_compute; repeat split; congruence).
  pose proof (simulate_order_exact paper_context paper_order Hfit) as (_ & Hbuy & _ & Havg & _).
  assert (Hside : co_side paper_order = OsBuy) by reflexivity.
  cbv zeta. rewrite (Hbuy Hside) in Havg |- *.
  split; [vm_compute; reflexivity|]. apply Havg. vm_compute. reflexivity.
Defined.

Definition paper_plan : OrderPlan :=
  order_plan0 <| op_plan_id := 9 |> <| op_order_count := 2%nat |>
    <| op_orders := std_array kMaxChildOrdersPerPlan child_order0
         [paper_order; paper_order <| co_order_id := 2 |> <| co_quantity_lots := 20 |>] |>.

(** One of two orders lacks depth: neither is filled. *)
Lemma paper_atomic_all_or_nothing_witness :
  as_status (paper_submit_plan (mkPaperExecutionAdapter []) paper_plan paper_context).2 = PsFailed ∧
  (er_filled_lots <$> (paper_poll_reports
     (paper_submit_plan (mkPaperExecutionAdapter []) paper_plan paper_context).1).2) = [0; 0].
Proof.
  assert (Hm : ec_paper_mode (xc_config paper_context) = PaperAtomic) by reflexivity.
  assert (Hpos : ∀ o, o ∈ plan_orders paper_plan → 0 < co_quantity_lots o <= i64_max).
  { intros o Ho. change (plan_orders paper_plan) with
      [paper_order; paper_order <| co_order_id := 2 |> <| co_quantity_lots := 20 |>] in Ho.
    apply elem_of_cons in Ho as [->|[->|Ho]%elem_of_cons]; [vm_compute; split; congruence..|set_solver]. }
  pose proof (paper_atomic_all_or_nothing (mkPaperExecutionAdapter []) paper_plan paper_context Hm Hpos) as H.
  assert (Hs : as_ok (paper_submit_plan (mkPaperExecutionAdapter []) paper_plan paper_context).2 = false)
    by (vm_compute; reflexivity).
  destruct (paper_submit_plan _ _ _) as [a1 result]; cbn [fst snd] in *.
  destruct H as [(Hok & _)|(_ & Hst & Hf)]; [congruence|]. split; [exact Hst|].
  change (plan_orders paper_plan) with
    [paper_order; paper_order <| co_order_id := 2 |> <| co_quantity_lots := 20 |>] in Hf.
  revert Hf. generalize ((paper_poll_reports a1).2). intros reports Hf.
  inversion Hf as [|? r1 ? ? (_ & _ & H1 & _) Hf2 Heq1 Heq2]; subst.
  inversion Hf2 as [|? r2 ? ? (_ & _ & H2 & _) Hf3]; subst. inversion Hf3; subst.
  cbn. by rewrite H1, H2.
Defined.

Lemma cancel_open_orders_spec_witness :
  let fill_state := fk_plan_state (tracker_run (tracker_for paper_plan) [fill_report 1 8 50]) in
  let plan := paper_plan in
  cancel_report plan (paper_order <| co_order_id := 2 |> <| co_quantity_lots := 20 |>) CsCancelled 20 5
    ∈ cn_reports (cancel_open_orders (Some (mkPaperExecutionAdapter [])) plan fill_state execution_config0 5).2.
Proof.
  assert (Hm : ec_mode execution_config0 = ModePaper) by reflexivity.
  pose proof (cancel_open_orders_spec (Some (mkPaperExecutionAdapter [])) paper_plan
    (fk_plan_state (tracker_run (tracker_for paper_plan) [fill_report 1 8 50])) execution_config0 5 Hm) as H.
  cbv zeta. destruct (cancel_open_orders _ _ _ _ _) as [a result]. cbn [snd].
  destruct H as (_ & _ & _ & Hall).
  apply (Hall (paper_order <| co_order_id := 2 |> <| co_quantity_lots := 20 |>)).
  - change (plan_orders paper_plan) with
      [paper_order; paper_order <| co_order_id := 2 |> <| co_quantity_lots := 20 |>]. right. left.
  - vm_compute. reflexivity.
Defined.
