(* ===== verification/Gateway.v ===== *)
(** * Gateway: submission, settlement and cancellation of plans

    [engine/execution/core/ExecutionGateway.cpp].  A submission builds and
    validates a plan, walks it to the acknowledged state, hands it to the
    adapter, feeds the reports to the order state machine and the fill tracker,
    decides the plan's status and tells the risk side what to do with the
    reservation.  The adapter is any instance of the interface; publishers and
    the plan observer are logs of what they were handed, kept only when the
    pointer is set.  The scratch arrays are written and never read, and are left
    out.  The two submit handlers differ in the planner they call and in the
    reservation they name; their common tail is one definition. *)

From S2P Require Import Prelude Doubles Depth RiskTypes OrderDecision ExecutionTypes OrderFsm FillTracker ExecutionPlan PaperAdapter.
From stdpp Require Import pretty.
#[local] Open Scope Z_scope.

(** [engine/execution/core/ExecutionGateway.h:57-61] PlanRuntimeState. *)
Record PlanRuntimeState := mkPlanRuntimeState {
  pt_plan : OrderPlan;
  pt_fill_tracker : FillTracker;
  pt_config : ExecutionConfig
}.

(** [engine/execution/core/ExecutionGateway.h:83-98] ExecutionGateway. *)
Record ExecutionGateway (A : Type) := mkExecutionGateway {
  gw_adapter : option A;
  gw_has_report_publisher : bool;
  gw_published_reports : list ExecutionReport;
  gw_has_reservation_publisher : bool;
  gw_dispositions : list ReservationDisposition;
  gw_has_plan_observer : bool;
  gw_observed : list OrderPlan;
  gw_plan_store : gmap Z OrderPlan;
  gw_runtime : gmap Z PlanRuntimeState;
  gw_pending_reports : list ExecutionReport
}.
Arguments mkExecutionGateway {A}.
Arguments gw_adapter {A}.
Arguments gw_has_report_publisher {A}.
Arguments gw_published_reports {A}.
Arguments gw_has_reservation_publisher {A}.
Arguments gw_dispositions {A}.
Arguments gw_has_plan_observer {A}.
Arguments gw_observed {A}.
Arguments gw_plan_store {A}.
Arguments gw_runtime {A}.
Arguments gw_pending_reports {A}.

(** ** Helpers *)

(** [engine/execution/core/ExecutionGateway.cpp:22-24] consume_reservation. *)
Definition consume_reservation (status : PlanStatus) (fill_state : PlanFillState) : bool :=
  bool_decide (status = PsFilled) && fs_all_filled fill_state.

(** [engine/execution/core/ExecutionGateway.cpp:26-30] release_reservation. *)
Definition release_reservation (status : PlanStatus) : bool :=
  bool_decide (status = PsFailed) || bool_decide (status = PsExpired) || bool_decide (status = PsCancelled).

(** [engine/execution/core/ExecutionGateway.cpp:32-40] prepare_child_for_adapter. *)
Definition prepare_child_for_adapter (status : ChildOrderStatus) : ChildOrderStatus :=
  order_transition (order_transition (order_transition status CsPlanned) CsSent) CsAcked.

(** [engine/execution/core/ExecutionGateway.cpp:42-50] prepare_plan_for_adapter. *)
Definition prepare_plan_for_adapter (status : PlanStatus) : PlanStatus :=
  plan_transition (plan_transition (plan_transition status PsPlanned) PsSent) PsAcked.

(** [engine/execution/core/ExecutionGateway.cpp:97-104] submit_approved_intent: the plan as it is stored and sent. *)
Definition prepare_plan (plan : OrderPlan) : OrderPlan :=
  plan <| op_status := prepare_plan_for_adapter (op_status plan) |>
       <| op_orders := ((λ o, o <| co_status := prepare_child_for_adapter (co_status o) |>) <$> plan_orders plan)
                       ++ drop (op_order_count plan) (op_orders plan) |>.

(** [engine/execution/core/ExecutionGateway.cpp:381-416] apply_plan_lifecycle. *)
Definition apply_plan_lifecycle (adapter_result : AdapterSubmitResult) (fill_state : PlanFillState) : PlanStatus :=
  let status := PsAcked in
  if bool_decide (partial_fill_decide fill_state = PfaHedgeRequired) then
    plan_transition (plan_transition status PsPartiallyFilled) PsHedgeRequired
  else if bool_decide (as_status adapter_result = PsFilled) && fs_all_filled fill_state then
    plan_transition status PsFilled
  else if bool_decide (as_status adapter_result = PsPartiallyFilled) || fs_any_partial fill_state then
    plan_transition status PsPartiallyFilled
  else if negb (as_ok adapter_result) || bool_decide (as_status adapter_result = PsFailed) ||
          (0 <? as_child_orders_rejected adapter_result) then
    plan_transition status PsFailed
  else as_status adapter_result.

(** [engine/execution/core/ExecutionGateway.cpp:115-126] submit_approved_intent: the order a report is about moves,
    and the report takes the order's status. *)
Definition settle_report (orders : list ChildOrder) (report : ExecutionReport) : list ChildOrder * ExecutionReport :=
  match list_find (λ o, co_order_id o = er_child_order_id report) orders with
  | None => (orders, report)
  | Some (i, order) =>
      let status := order_transition (co_status order) (er_status report) in
      (alter (λ o, o <| co_status := status |>) i orders, report <| er_status := status |>)
  end.

(** [engine/execution/core/ExecutionGateway.cpp:114-132] submit_approved_intent: the loop over the reports. *)
Fixpoint settle_reports (orders : list ChildOrder) (tracker : FillTracker) (reports : list ExecutionReport)
    : list ChildOrder * FillTracker * list ExecutionReport :=
  match reports with
  | [] => (orders, tracker, [])
  | report :: rest =>
      let '(orders, report) := settle_report orders report in
      let '(orders, tracker, settled) := settle_reports orders (tracker_apply tracker report) rest in
      (orders, tracker, report :: settled)
  end.

Definition execution_failure (plan_id : Z) (error : string) : ExecutionResult :=
  mkExecutionResult false plan_id PsFailed 0 0 error.

Section gateway.
Context {A : Type} `{IExecutionAdapter A}.

(** [engine/execution/core/ExecutionGateway.cpp:8-18] ExecutionGateway::ExecutionGateway. *)
Definition new_gateway (adapter : option A) (report_publisher reservation_publisher : bool) : ExecutionGateway A :=
  mkExecutionGateway adapter report_publisher [] reservation_publisher [] false [] ∅ ∅ [].

(** [engine/execution/core/ExecutionGateway.cpp:418-422] publish_report, for each of some reports. *)
Definition publish_reports (g : ExecutionGateway A) (reports : list ExecutionReport) : ExecutionGateway A :=
  if gw_has_report_publisher g then g <| gw_published_reports ::= λ l, l ++ reports |> else g.

(** [engine/execution/core/ExecutionGateway.cpp:424-441] publish_reservation_disposition. *)
Definition publish_reservation_disposition (g : ExecutionGateway A) (reservation_id : string) (plan_id : Z)
    (type : ReservationDispositionType) (reason : string) : ExecutionGateway A :=
  if negb (gw_has_reservation_publisher g) || bool_decide (type = RdNone) then g
  else g <| gw_dispositions ::= λ l, l ++ [mkReservationDisposition reservation_id plan_id type reason] |>.

(** The disposition a settled plan calls for. *)
Definition disposition_of (status : PlanStatus) (fill_state : PlanFillState) : ReservationDispositionType :=
  if consume_reservation status fill_state then RdConsume
  else if release_reservation status then RdRelease
  else RdNone.

(** [engine/execution/core/ExecutionGateway.cpp:80-178] submit_approved_intent, after planning. *)
Definition submit_built_plan (g : ExecutionGateway A) (adapter : A) (plan : OrderPlan) (reservation_id : string)
    (context : ExecutionContext) : ExecutionGateway A * ExecutionResult :=
  let validation := validate plan (xc_config context) in
  if negb (va_ok validation) then
    (publish_reservation_disposition g reservation_id (op_plan_id plan) RdRelease "plan validation failed",
     execution_failure (op_plan_id plan) (va_error validation))
  else
    let plan := prepare_plan plan in
    let g := g <| gw_plan_store ::= <[op_plan_id plan := plan]> |> in
    let g := if gw_has_plan_observer g then g <| gw_observed ::= λ l, l ++ [plan] |> else g in
    let '(adapter, adapter_result) := submit_plan adapter plan context in
    let '(adapter, reports) := poll_reports adapter in
    let g := g <| gw_adapter := Some adapter |> in
    let '(orders, tracker, reports) := settle_reports (plan_orders plan) (tracker_for plan) reports in
    let g := publish_reports g reports in
    let g := g <| gw_pending_reports ::= λ l, l ++ reports |> in
    let fill_state := fk_plan_state tracker in
    let plan := plan
      <| op_orders := orders ++ drop (op_order_count plan) (op_orders plan) |>
      <| op_status := apply_plan_lifecycle adapter_result fill_state |> in
    let g := g <| gw_plan_store ::= <[op_plan_id plan := plan]> |>
               <| gw_runtime ::= <[op_plan_id plan := mkPlanRuntimeState plan tracker (xc_config context)]> |> in
    let type := disposition_of (op_status plan) fill_state in
    let reason :=
      match type with
      | RdConsume => "paper plan filled"%string
      | _ => if String.eqb (as_error adapter_result) "" then "execution failed"%string else as_error adapter_result
      end in
    (publish_reservation_disposition g reservation_id (op_plan_id plan) type reason,
     mkExecutionResult
       (as_ok adapter_result && negb (bool_decide (op_status plan = PsFailed)) &&
        negb (bool_decide (op_status plan = PsExpired)) && negb (bool_decide (op_status plan = PsCancelled)))
       (op_plan_id plan) (op_status plan) (as_child_orders_submitted adapter_result)
       (as_child_orders_rejected adapter_result) (as_error adapter_result)).

(** [engine/execution/core/ExecutionGateway.cpp:54-178] submit_approved_intent. *)
Definition submit_approved_intent (g : ExecutionGateway A) (envelope : ApprovedIntentEnvelope)
    (context : ExecutionContext) : ExecutionGateway A * ExecutionResult :=
  match gw_adapter g with
  | None => (g, execution_failure 0 "missing execution adapter")
  | Some adapter =>
      match build_intent_plan envelope (xc_now_ns context) (xc_config context) with
      | inl error => (g, execution_failure 0 error)
      | inr plan =>
          submit_built_plan g adapter plan (pretty (Z.to_N (ex_reservation_id (ei_approval envelope)))) context
      end
  end.

(** [engine/execution/core/ExecutionGateway.cpp:454-457] publish_reservation_disposition: the name of the reservation. *)
Definition envelope_reservation_id (envelope : ApprovedOrderDecisionEnvelope) : string :=
  if negb (String.eqb (ai_reservation_id (en_approved envelope)) "") then ai_reservation_id (en_approved envelope)
  else pretty (Z.to_N (ai_reservation_id_hash (en_approved envelope))).

(** [engine/execution/core/ExecutionGateway.cpp:180-304] submit_approved_decision. *)
Definition submit_approved_decision (g : ExecutionGateway A) (envelope : ApprovedOrderDecisionEnvelope)
    (context : ExecutionContext) : ExecutionGateway A * ExecutionResult :=
  match gw_adapter g with
  | None => (g, execution_failure 0 "missing execution adapter")
  | Some adapter =>
      match build_plan envelope (xc_now_ns context) (xc_config context) with
      | inl error => (g, execution_failure 0 error)
      | inr plan => submit_built_plan g adapter plan (envelope_reservation_id envelope) context
      end
  end.

(** [engine/execution/core/ExecutionGateway.cpp:306-327] submit. *)
Definition submit (g : ExecutionGateway A) (plan : OrderPlan) (context : ExecutionContext)
    : ExecutionGateway A * ExecutionResult :=
  match gw_adapter g with
  | None => (g, execution_failure (op_plan_id plan) "missing execution adapter")
  | Some adapter =>
      let '(adapter, result) := submit_plan adapter plan context in
      (g <| gw_adapter := Some adapter |>,
       mkExecutionResult (as_ok result) (as_plan_id result) (as_status result) (as_child_orders_submitted result)
         (as_child_orders_rejected result) (as_error result))
  end.

(** [engine/execution/core/ExecutionGateway.cpp:329-333] poll. *)
Definition poll (g : ExecutionGateway A) : ExecutionGateway A * list ExecutionReport :=
  (g <| gw_pending_reports := [] |>, gw_pending_reports g).

(** [engine/execution/core/ExecutionGateway.cpp:335-369] cancel_plan. *)
Definition gateway_cancel_plan (g : ExecutionGateway A) (plan_id : Z) : ExecutionGateway A * CancelResult :=
  match gw_runtime g !! plan_id with
  | None => (g, mkCancelResult false plan_id ArAdapterError [] "unknown plan_id")
  | Some runtime =>
      let '(adapter, cancel) := cancel_open_orders (gw_adapter g) (pt_plan runtime)
        (fk_plan_state (pt_fill_tracker runtime)) (pt_config runtime) 0 in
      let g := g <| gw_adapter := adapter |> in
      let g := publish_reports g (cn_reports cancel) in
      let g := g <| gw_pending_reports ::= λ l, l ++ cn_reports cancel |> in
      let g :=
        if cn_ok cancel
        then g <| gw_runtime ::= <[plan_id := runtime <| pt_plan ::= λ p, p <| op_status := PsCancelled |> |>]> |>
        else g in
      (g, cancel)
  end.

(** [engine/execution/core/ExecutionGateway.cpp:371-373] find_plan. *)
Definition find_plan (g : ExecutionGateway A) (plan_id : Z) : option OrderPlan := gw_plan_store g !! plan_id.

(** [engine/execution/core/ExecutionGateway.cpp:375-379] set_plan_observer. *)
Definition set_plan_observer (g : ExecutionGateway A) (observer : bool) : ExecutionGateway A :=
  g <| gw_has_plan_observer := observer |>.
End gateway.


(** ** What a submission does to its reservation *)

(** The outcomes a venue's reports can have for a plan. *)
Definition all_complete (orders : list ChildOrder) (reports : list ExecutionReport) : Prop :=
  Forall2 (λ o r, er_filled_lots r = co_quantity_lots o) orders reports.
Definition nothing_filled (reports : list ExecutionReport) : Prop := Forall (λ r, er_filled_lots r = 0) reports.

Definition prepare_order (o : ChildOrder) : ChildOrder := o <| co_status := prepare_child_for_adapter (co_status o) |>.

Lemma prepare_plan_fields plan :
  op_plan_id (prepare_plan plan) = op_plan_id plan ∧ op_order_count (prepare_plan plan) = op_order_count plan ∧
  op_orders (prepare_plan plan) = (prepare_order <$> plan_orders plan) ++ drop (op_order_count plan) (op_orders plan).
Proof. by destruct plan. Qed.

Lemma prepare_plan_orders plan :
  plan_tracked plan → plan_orders (prepare_plan plan) = prepare_order <$> plan_orders plan.
Proof.
  intros (Hc & Hl & _). destruct (prepare_plan_fields plan) as (_ & Hn & Ho).
  unfold plan_orders at 1. rewrite Hn, Ho. apply take_app_length'.
  unfold plan_orders. rewrite length_fmap, length_take. lia.
Qed.

Lemma prepare_plan_submittable plan : submittable plan → submittable (prepare_plan plan).
Proof.
  intros (Hp & Hpos & Hqty). pose proof (prepare_plan_orders plan Hp) as Ho. destruct Hp as (Hc & Hl & Hnd & Hq).
  destruct (prepare_plan_fields plan) as (_ & Hn & Hos).
  unfold submittable, plan_tracked. rewrite Ho, Hn. split_and!; try done.
  - rewrite Hos, length_app, length_fmap, length_drop. unfold plan_orders. rewrite length_take. lia.
  - rewrite <- list_fmap_compose. exact Hnd.
  - apply Forall_fmap. exact Hq.
  - intros o (o' & -> & Ho')%list_elem_of_fmap. exact (Hqty o' Ho').
Qed.

Lemma tracker_apply_settled t r status : tracker_apply t (r <| er_status := status |>) = tracker_apply t r.
Proof. by destruct r. Qed.

(** Settling the orders does not change what the tracker is told. *)
Lemma settle_reports_tracker orders t reports :
  let '(_, t', _) := settle_reports orders t reports in t' = tracker_run t reports.
Proof.
  revert orders t; induction reports as [|r reports IH]; intros orders t; cbn [settle_reports]; [done|].
  destruct (settle_report orders r) as [os r'] eqn:E.
  assert (Hr : tracker_apply t r' = tracker_apply t r).
  { unfold settle_report in E. destruct (list_find _ _) as [[i o]|]; simplify_eq; [apply tracker_apply_settled|done]. }
  specialize (IH os (tracker_apply t r')). destruct (settle_reports _ _ _) as [[os' t'] s']. by rewrite IH, Hr.
Qed.

Lemma reported_lots_other id orders reports :
  id ∉ co_order_id <$> orders → Forall2 reports_on orders reports → reported_lots id reports = 0.
Proof.
  intros Hid. induction 1 as [|o r os rs [Hr _] _ IH]; [done|].
  unfold reported_lots in *; cbn [sum_list_Z fmap list_fmap] in *. rewrite not_elem_of_cons in Hid.
  destruct Hid as [Hne Hid]. rewrite bool_decide_false by congruence. by rewrite IH.
Qed.

(** One report per order: what is reported for an order is its report's lots. *)
Lemma reported_lots_answer orders reports :
  NoDup (co_order_id <$> orders) → Forall2 reports_on orders reports →
  Forall2 (λ o r, reported_lots (co_order_id o) reports = er_filled_lots r) orders reports.
Proof.
  intros Hnd H. induction H as [|o r os rs [Hid Hr] Hrest IH]; [constructor|].
  cbn in Hnd. apply NoDup_cons in Hnd as [Hno Hnd]. constructor.
  - unfold reported_lots; cbn [sum_list_Z]. rewrite bool_decide_true by done.
    fold (reported_lots (co_order_id o) rs). rewrite (reported_lots_other _ os rs) by done. lia.
  - specialize (IH Hnd). apply Forall2_same_length_lookup_2; [by eapply Forall2_length|].
    intros i o' r' Ho' Hr'. unfold reported_lots; cbn [sum_list_Z]. rewrite bool_decide_false.
    + rewrite Z.add_0_l. apply (Forall2_lookup_lr _ _ _ _ _ _ IH Ho' Hr').
    + rewrite Hid. intros Heq. apply Hno. rewrite Heq. apply list_elem_of_fmap_2.
      by apply (list_elem_of_lookup_2 _ i).
Qed.

(** The tracker's flags, in terms of the reports of a lawful adapter. *)
Lemma answer_flags plan reports :
  submittable plan → Forall2 reports_on (plan_orders plan) reports →
  let s := fk_plan_state (tracker_run (tracker_for plan) reports) in
  (fs_all_filled s = true ↔ all_complete (plan_orders plan) reports) ∧
  (fs_any_filled s = false ↔ nothing_filled reports) ∧
  (fs_any_filled s = true → fs_all_filled s = false → (fs_child_count s <= 1)%nat → fs_any_partial s = true) ∧
  (fs_any_partial s = true → fs_any_filled s = true).
Proof.
  intros (Hp & Hn & Hqty) Hon s. pose proof Hp as (Hc & Hl & Hnd & Hq).
  assert (Hsmall : Forall (λ r, small_lots (er_filled_lots r)) reports).
  { apply Forall_lookup. intros i r Hr. destruct (Forall2_lookup_r _ _ _ _ _ Hon Hr) as (o & Ho & _ & Hb).
    pose proof (Forall_lookup_1 _ _ _ _ Hq Ho) as [_ Hs]. unfold small_lots in *. lia. }
  pose proof (tracker_run_ok plan reports Hp Hsmall) as Hok.
  destruct (tracker_flags _ _ _ Hok) as (Hany & Hall & Hpart). fold s in Hany, Hall, Hpart.
  pose proof (to_count _ _ _ Hok) as Hcount. fold s in Hcount.
  pose proof (reported_lots_answer _ _ Hnd Hon) as Hlots.
  assert (Hlen : length (plan_orders plan) = length reports) by (by eapply Forall2_length).
  rewrite Hany, Hall, Hpart, Hcount. rewrite (proj2 (Nat.ltb_lt _ _)) by done. cbn [andb]. split_and!.
  - rewrite forallb_true_elem. unfold all_complete. split.
    + intros H. apply Forall2_same_length_lookup_2; [done|]. intros i o r Ho Hr.
      pose proof (Forall2_lookup_lr _ _ _ _ _ _ Hlots Ho Hr) as <-.
      pose proof (Forall2_lookup_lr _ _ _ _ _ _ Hon Ho Hr) as [_ Hb].
      pose proof (Forall2_lookup_lr _ _ _ _ _ _ Hlots Ho Hr) as Hr'. cbn in Hr'.
      specialize (H o (list_elem_of_lookup_2 _ _ _ Ho)). lia.
    + intros H o (i & Ho)%list_elem_of_lookup.
      destruct (Forall2_lookup_l _ _ _ _ _ H Ho) as (r & Hr & Hfill).
      pose proof (Forall2_lookup_lr _ _ _ _ _ _ Hlots Ho Hr) as Hr'. cbn in Hr'.
      specialize (Hqty o (list_elem_of_lookup_2 _ _ _ Ho)). lia.
  - rewrite existsb_false_elem. unfold nothing_filled. split.
    + intros H. apply Forall_lookup. intros i r Hr.
      destruct (Forall2_lookup_r _ _ _ _ _ Hlots Hr) as (o & Ho & Hr').
      pose proof (Forall2_lookup_lr _ _ _ _ _ _ Hon Ho Hr) as [_ Hb].
      specialize (H o (list_elem_of_lookup_2 _ _ _ Ho)). lia.
    + intros H o (i & Ho)%list_elem_of_lookup.
      destruct (Forall2_lookup_l _ _ _ _ _ Hlots Ho) as (r & Hr & Hr').
      pose proof (Forall_lookup_1 _ _ _ _ H Hr) as Hz. cbn in Hz. lia.
  - intros H1 H2 H3. unfold plan_orders in *.
    destruct (op_orders plan) as [|o os]; [done|]. destruct (op_order_count plan) as [|[|n]]; [lia| |lia].
    cbn in *. rewrite andb_true_r in H2. rewrite orb_false_r in *. specialize (Hqty o ltac:(left)). lia.
  - rewrite !existsb_exists. intros (o & Ho & Hb%andb_prop). naive_solver.
Qed.

(** What the status and the flags of a settled plan make of its reservation. *)
Lemma settled_disposition plan result reports :
  submittable plan → Forall2 reports_on (plan_orders plan) reports →
  (all_complete (plan_orders plan) reports → as_status result = PsFilled) →
  (nothing_filled reports → as_status result = PsFailed) →
  let s := fk_plan_state (tracker_run (tracker_for plan) reports) in
  let type := disposition_of (apply_plan_lifecycle result s) s in
  (type = RdConsume ↔ all_complete (plan_orders plan) reports) ∧
  (type = RdRelease ↔ nothing_filled reports) ∧
  (type = RdNone ↔ ¬ all_complete (plan_orders plan) reports ∧ ¬ nothing_filled reports).
Proof.
  intros Hp Hon Hfull Hnone s type.
  destruct (answer_flags plan reports Hp Hon) as (Hall & Hany & Hpart & Hsome). fold s in Hall, Hany, Hpart, Hsome.
  rewrite <- Hall, <- Hany. rewrite <- Hall in Hfull. rewrite <- Hany in Hnone. subst type.
  clear Hall Hany. unfold disposition_of, consume_reservation, release_reservation, apply_plan_lifecycle,
    partial_fill_decide.
  assert (Hexcl : fs_all_filled s = true → fs_any_filled s = true).
  { intros H. destruct (fs_any_filled s) eqn:E; [done|]. specialize (Hfull H). specialize (Hnone eq_refl). congruence. }
  destruct (fs_all_filled s), (fs_any_filled s); cbn [negb orb];
    try (by specialize (Hexcl eq_refl)).
  - rewrite (Hfull eq_refl). cbn. split_and!; split; naive_solver.
  - clear Hfull Hnone Hexcl. destruct (Nat.ltb_spec 1 (fs_child_count s)) as [Hn|Hn].
    { cbn. split_and!; split; naive_solver. }
    rewrite (Hpart eq_refl eq_refl Hn). clear.
    destruct (as_status result), (as_ok result), (0 <? as_child_orders_rejected result);
    cbn; split_and!; split; naive_solver.
  - rewrite (Hnone eq_refl). assert (fs_any_partial s = false) as ->
      by (by destruct (fs_any_partial s); [destruct (Hsome eq_refl)|]).
    clear. destruct (as_ok result), (0 <? as_child_orders_rejected result);
      cbn; split_and!; split; naive_solver.
Qed.

(** Built plans can be submitted: order ids are positions and quantities are positive. *)
Lemma build_plan_submittable envelope now config plan :
  length (od_legs (en_decision envelope)) = kMaxOrderDecisionLegs →
  Forall (λ leg, small_lots (dl_quantity_lots leg)) (decision_legs (en_decision envelope)) →
  build_plan envelope now config = inr plan → submittable plan.
Proof.
  intros Hlen Hsmall Hb. destruct (build_plan_inv _ _ _ _ Hlen Hb) as (Hok & Hplan & Hpo & Hall & _).
  assert (Hcount : op_order_count plan = od_leg_count (en_decision envelope)) by (by rewrite Hplan).
  pose proof (eo_legs _ _ _ Hok) as Hlegs.
  assert (Hleg : ∀ o, o ∈ plan_orders plan → ∃ leg, leg ∈ decision_legs (en_decision envelope) ∧
    co_quantity_lots o = dl_quantity_lots leg).
  { intros o. rewrite Hpo. intros (i & leg & -> & Hi)%elem_of_lookup_imap.
    exists leg. split; [by eapply list_elem_of_lookup_2|done]. }
  unfold submittable, plan_tracked. rewrite Hcount. split_and!; try lia.
  - rewrite Hplan. apply length_std_array.
  - rewrite Hpo. apply NoDup_alt. intros i j id Hi Hj.
    rewrite list_lookup_fmap, list_lookup_imap in Hi, Hj.
    destruct (_ !! i), (_ !! j); cbn in Hi, Hj; unfold constant in *; simplify_eq. lia.
  - apply Forall_forall. intros o Ho. destruct (Hleg o Ho) as (leg & Hin & ->).
    rewrite Forall_forall in Hsmall. destruct (Hall leg Hin) as (_ & ? & _). split; [lia|by apply Hsmall].
  - intros o Ho. destruct (Hleg o Ho) as (leg & Hin & ->). by destruct (Hall leg Hin) as (_ & ? & _).
Qed.

Section gateway_correct.
Context {A : Type} `{IExecutionAdapter A} `{!ExecutionAdapterLaws A}.

(** The reports the adapter answers a plan with. *)
Definition adapter_answer (a : A) (plan : OrderPlan) (context : ExecutionContext) : list ExecutionReport :=
  (poll_reports (submit_plan a (prepare_plan plan) context).1).2.

(** A gateway whose publisher is set appends each disposition that is one. *)
Lemma publish_disposition_log (g : ExecutionGateway A) id plan_id type reason :
  gw_has_reservation_publisher g = true →
  gw_dispositions (publish_reservation_disposition g id plan_id type reason) =
    gw_dispositions g ++ (if bool_decide (type = RdNone) then []
                          else [mkReservationDisposition id plan_id type reason]) ∧
  gw_runtime (publish_reservation_disposition g id plan_id type reason) = gw_runtime g.
Proof.
  intros Hp. unfold publish_reservation_disposition. rewrite Hp; cbn [negb orb].
  case_bool_decide; [by rewrite app_nil_r|]. by destruct g.
Qed.

Lemma publish_reports_fields (g : ExecutionGateway A) reports :
  gw_has_reservation_publisher (publish_reports g reports) = gw_has_reservation_publisher g ∧
  gw_dispositions (publish_reports g reports) = gw_dispositions g.
Proof. unfold publish_reports. step_if; [by destruct g|done]. Qed.

(** The common tail of the two submissions, on a plan that passes validation. *)
Lemma submit_built_plan_settles (g : ExecutionGateway A) a plan id context :
  gw_has_reservation_publisher g = true → submittable plan → va_ok (validate plan (xc_config context)) = true →
  let reports := adapter_answer a plan context in
  let g1 := (submit_built_plan g a plan id context).1 in
  Forall2 reports_on (plan_orders plan) reports ∧
  (∃ p, gw_runtime g1 !! op_plan_id plan =
          Some (mkPlanRuntimeState p (tracker_run (tracker_for (prepare_plan plan)) reports) (xc_config context))) ∧
  ∃ type reason,
    gw_dispositions g1 = gw_dispositions g ++
      (if bool_decide (type = RdNone) then [] else [mkReservationDisposition id (op_plan_id plan) type reason]) ∧
    (type = RdConsume ↔ all_complete (plan_orders plan) reports) ∧
    (type = RdRelease ↔ nothing_filled reports) ∧
    (type = RdNone ↔ ¬ all_complete (plan_orders plan) reports ∧ ¬ nothing_filled reports).
Proof.
  intros Hpub Hsub Hval. cbv zeta.
  pose proof (prepare_plan_submittable plan Hsub) as Hsub'.
  pose proof (prepare_plan_orders plan (proj1 Hsub)) as Hpo.
  destruct (prepare_plan_fields plan) as (Hid & _).
  pose proof (adapter_reports a (prepare_plan plan) context Hsub') as Hlaw.
  unfold submit_built_plan, adapter_answer. rewrite Hval; cbn [negb]. cbv zeta.
  destruct (submit_plan a (prepare_plan plan) context) as [a1 result]. cbn [fst].
  destruct (poll_reports a1) as [a2 reports]. cbn [snd]. destruct Hlaw as (Hon & Hfull & Hnone).
  pose proof (settle_reports_tracker (plan_orders (prepare_plan plan)) (tracker_for (prepare_plan plan)) reports) as Ht.
  destruct (settle_reports _ _ _) as [[orders tracker] settled]. subst tracker.
  destruct (settled_disposition _ result reports Hsub' Hon Hfull Hnone) as (Hc & Hr & Hn).
  assert (Hall : all_complete (plan_orders (prepare_plan plan)) reports ↔ all_complete (plan_orders plan) reports)
    by (rewrite Hpo; unfold all_complete; by rewrite Forall2_fmap_l).
  rewrite Hall in Hc, Hn. clear Hall Hsub Hsub' Hval Hfull Hnone.
  set (p := (prepare_plan plan) <| op_orders := _ |> <| op_status := _ |>).
  assert (Hp : op_plan_id p = op_plan_id plan ∧ op_status p = apply_plan_lifecycle result
    (fk_plan_state (tracker_run (tracker_for (prepare_plan plan)) reports))) by (subst p; by destruct plan).
  destruct Hp as [Hpid Hpst]. clearbody p. rewrite Hpid, Hpst. cbn [fst].
  match goal with |- context [publish_reservation_disposition ?g0 _ _ _ _] => set (G := g0) end.
  assert (HG : gw_has_reservation_publisher G = true ∧ gw_dispositions G = gw_dispositions g ∧
    gw_runtime G !! op_plan_id plan = Some (mkPlanRuntimeState p
      (tracker_run (tracker_for (prepare_plan plan)) reports) (xc_config context))).
  { subst G. destruct g as [? pubr ? ? ? obs ? ? ?]. cbn in Hpub. subst. unfold publish_reports.
    destruct obs, pubr; cbn; unfold constant; split_and!; try done; apply lookup_insert_eq. }
  destruct HG as (HG1 & HG2 & HG3). clearbody G. split_and!.
  - rewrite Hpo, Forall2_fmap_l in Hon. exact Hon.
  - exists p. by rewrite (proj2 (publish_disposition_log _ _ _ _ _ HG1)).
  - eexists _, _. split; [by rewrite (proj1 (publish_disposition_log _ _ _ _ _ HG1)), HG2|by split_and!].
Qed.
End gateway_correct.

(** ** The properties of the gateway *)

(** C35. A settled submission disposes of its reservation by what was filled: for
    any lawful adapter, when a planned decision of moderate quantities passes
    validation, the venue answers with one report per order, the gateway's
    tracker is the exact sum of those reports, and the one disposition it
    publishes for the reservation is a consumption exactly when every order was
    filled in full and a release exactly when nothing was filled; on any other
    outcome it publishes none and the reservation stays held. *)
Theorem gateway_settles_reservation {A} `{IExecutionAdapter A} `{!ExecutionAdapterLaws A}
    (g : ExecutionGateway A) a envelope context plan :
  gw_adapter g = Some a → gw_has_reservation_publisher g = true →
  length (od_legs (en_decision envelope)) = kMaxOrderDecisionLegs →
  Forall (λ leg, small_lots (dl_quantity_lots leg)) (decision_legs (en_decision envelope)) →
  build_plan envelope (xc_now_ns context) (xc_config context) = inr plan →
  va_ok (validate plan (xc_config context)) = true →
  let reports := adapter_answer a plan context in
  let g1 := (submit_approved_decision g envelope context).1 in
  Forall2 reports_on (plan_orders plan) reports ∧
  (∃ p, gw_runtime g1 !! op_plan_id plan =
          Some (mkPlanRuntimeState p (tracker_run (tracker_for (prepare_plan plan)) reports) (xc_config context))) ∧
  ∃ type reason,
    gw_dispositions g1 = gw_dispositions g ++
      (if bool_decide (type = RdNone) then []
       else [mkReservationDisposition (envelope_reservation_id envelope) (op_plan_id plan) type reason]) ∧
    (type = RdConsume ↔ all_complete (plan_orders plan) reports) ∧
    (type = RdRelease ↔ nothing_filled reports) ∧
    (type = RdNone ↔ ¬ all_complete (plan_orders plan) reports ∧ ¬ nothing_filled reports).
Proof.
  intros Ha Hpub Hlen Hsmall Hb Hval. unfold submit_approved_decision. rewrite Ha, Hb.
  apply submit_built_plan_settles; [done| |done]. by eapply build_plan_submittable.
Qed.

(** The adapter's state and the plan books of a gateway. *)
Definition gateway_untouched {A} (g g1 : ExecutionGateway A) : Prop :=
  gw_adapter g1 = gw_adapter g ∧ gw_plan_store g1 = gw_plan_store g ∧ gw_runtime g1 = gw_runtime g ∧
  gw_pending_reports g1 = gw_pending_reports g ∧ gw_published_reports g1 = gw_published_reports g.

Lemma publish_disposition_untouched {A} (g : ExecutionGateway A) id plan_id type reason :
  gateway_untouched g (publish_reservation_disposition g id plan_id type reason).
Proof. unfold publish_reservation_disposition. step_if; [done|by destruct g]. Qed.

Lemma submit_built_plan_gate {A} `{IExecutionAdapter A} (g : ExecutionGateway A) a plan id context :
  let '(g1, result) := submit_built_plan g a plan id context in
  if va_ok (validate plan (xc_config context)) then
    gw_adapter g1 = Some (poll_reports (submit_plan a (prepare_plan plan) context).1).1 ∧
    is_Some (gw_plan_store g1 !! op_plan_id plan)
  else gateway_untouched g g1 ∧ xr_ok result = false ∧ xr_status result = PsFailed.
Proof.
  unfold submit_built_plan. destruct (va_ok (validate plan (xc_config context))); cbn [negb].
  2: { split; [apply publish_disposition_untouched|done]. }
  cbv zeta. destruct (prepare_plan_fields plan) as (Hid & _).
  destruct (submit_plan a (prepare_plan plan) context) as [a1 result]. cbn [fst].
  destruct (poll_reports a1) as [a2 reports]. cbn [fst]. destruct (settle_reports _ _ _) as [[orders tracker] settled].
  set (p := (prepare_plan plan) <| op_orders := _ |> <| op_status := _ |>).
  assert (Hp : op_plan_id p = op_plan_id plan) by (subst p; by destruct plan).
  clearbody p. rewrite Hp. clear.
  match goal with |- context [publish_reservation_disposition ?g0 ?i ?q ?t ?r] =>
    destruct (publish_disposition_untouched g0 i q t r) as (-> & -> & _); set (G := g0) end.
  subst G. destruct g as [? ? ? ? ? obs ? ? ?]. unfold publish_reports.
  step_if; destruct obs; cbn; unfold constant; (split; [done|rewrite lookup_insert_eq; by eexists]).
Qed.

Lemma decision_submission_gate {A} `{IExecutionAdapter A} (g : ExecutionGateway A) envelope context :
  let '(g1, result) := submit_approved_decision g envelope context in
  (gateway_untouched g g1 ∧ xr_ok result = false ∧ xr_status result = PsFailed) ∨
  ∃ a plan, gw_adapter g = Some a ∧
    build_plan envelope (xc_now_ns context) (xc_config context) = inr plan ∧
    plan_valid plan (ec_max_child_orders_per_plan (xc_config context)) (ec_max_order_age_ns (xc_config context)) true ∧
    gw_adapter g1 = Some (poll_reports (submit_plan a (prepare_plan plan) context).1).1 ∧
    is_Some (gw_plan_store g1 !! op_plan_id plan).
Proof.
  unfold submit_approved_decision. destruct (gw_adapter g) as [a|] eqn:Ha; [|by left].
  destruct (build_plan _ _ _) as [e|plan] eqn:Hb; [by left|].
  pose proof (submit_built_plan_gate g a plan (envelope_reservation_id envelope) context) as Hgate.
  destruct (submit_built_plan _ _ _ _ _) as [g1 result].
  destruct (va_ok (validate plan (xc_config context))) eqn:Hv; [right|by left].
  exists a, plan. apply validate_impl_ok in Hv. destruct Hgate as [Hadapter Hstore].
  repeat (split; [first [reflexivity | exact Hv | exact Hadapter]|]). exact Hstore.
Qed.

(** *** What reaches the adapter *)

(** An adapter together with the plans it was handed. *)
Record Recorded (A : Type) := mkRecorded { rc_adapter : A; rc_seen : list OrderPlan }.
Arguments mkRecorded {A}.
Arguments rc_adapter {A}.
Arguments rc_seen {A}.
#[export] Instance recorded_adapter {A} `{IExecutionAdapter A} : IExecutionAdapter (Recorded A) := {|
  submit_plan r plan context :=
    let '(a, result) := submit_plan (rc_adapter r) plan context in (mkRecorded a (rc_seen r ++ [plan]), result);
  poll_reports r := let '(a, reports) := poll_reports (rc_adapter r) in (mkRecorded a (rc_seen r), reports);
  adapter_cancel_plan r plan_id :=
    let '(a, result) := adapter_cancel_plan (rc_adapter r) plan_id in (mkRecorded a (rc_seen r), result)
|}.

(** The calls of a gateway. *)
Inductive GatewayOp :=
| GoDecision (envelope : ApprovedOrderDecisionEnvelope) (context : ExecutionContext)
| GoIntent (envelope : ApprovedIntentEnvelope) (context : ExecutionContext)
| GoSubmit (plan : OrderPlan) (context : ExecutionContext)
| GoPoll
| GoCancel (plan_id : Z)
| GoObserve (observer : bool).
Definition gateway_step {A} `{IExecutionAdapter A} (g : ExecutionGateway A) (op : GatewayOp) : ExecutionGateway A :=
  match op with
  | GoDecision envelope context => (submit_approved_decision g envelope context).1
  | GoIntent envelope context => (submit_approved_intent g envelope context).1
  | GoSubmit plan context => (submit g plan context).1
  | GoPoll => (poll g).1
  | GoCancel plan_id => (gateway_cancel_plan g plan_id).1
  | GoObserve observer => set_plan_observer g observer
  end.

(** The plan a built plan is sent as, when it may be sent. *)
Definition sent_as (built : string + OrderPlan) (config : ExecutionConfig) (sent : OrderPlan) : Prop :=
  ∃ plan, built = inr plan ∧ sent = prepare_plan plan ∧
    plan_valid plan (ec_max_child_orders_per_plan config) (ec_max_order_age_ns config) true.
(** The plan that a call may hand to the adapter. *)
Definition may_hand (op : GatewayOp) (sent : OrderPlan) : Prop :=
  match op with
  | GoDecision envelope context => sent_as (build_plan envelope (xc_now_ns context) (xc_config context)) (xc_config context) sent
  | GoIntent envelope context => sent_as (build_intent_plan envelope (xc_now_ns context) (xc_config context)) (xc_config context) sent
  | GoSubmit plan _ => sent = plan
  | GoPoll | GoCancel _ | GoObserve _ => False
  end.

Section Handed.
Context {A : Type} `{IExecutionAdapter A}.

Definition seen (g : ExecutionGateway (Recorded A)) : list OrderPlan := from_option rc_seen [] (gw_adapter g).

Lemma submit_built_plan_seen (g : ExecutionGateway (Recorded A)) r plan id context : gw_adapter g = Some r →
  seen (submit_built_plan g r plan id context).1 =
    seen g ++ (if va_ok (validate plan (xc_config context)) then [prepare_plan plan] else []).
Proof.
  intros Hr. pose proof (submit_built_plan_gate g r plan id context) as Hgate.
  destruct (submit_built_plan g r plan id context) as [g1 result]. cbn [fst]. unfold seen. rewrite Hr.
  destruct (va_ok _); [destruct Hgate as [-> _]|destruct Hgate as [(-> & _) _]; rewrite Hr; by rewrite app_nil_r].
  cbn. destruct (submit_plan (rc_adapter r) _ _) as [a1 res]. cbn. by destruct (poll_reports a1).
Qed.

Lemma gateway_step_seen (g : ExecutionGateway (Recorded A)) op :
  seen (gateway_step g op) = seen g ∨ ∃ sent, may_hand op sent ∧ seen (gateway_step g op) = seen g ++ [sent].
Proof.
  destruct op as [e c|e c|p c| |id|o]; cbn [gateway_step may_hand].
  - unfold submit_approved_decision. destruct (gw_adapter g) as [r|] eqn:Hr; [|by left].
    destruct (build_plan e _ _) as [error|plan]; [by left|]. rewrite submit_built_plan_seen by done.
    destruct (va_ok _) eqn:Hv; [|left; by rewrite app_nil_r]. right. eexists. split; [|done].
    exists plan. split_and!; [done|done|]. by apply validate_impl_ok.
  - unfold submit_approved_intent. destruct (gw_adapter g) as [r|] eqn:Hr; [|by left].
    destruct (build_intent_plan e _ _) as [error|plan]; [by left|]. rewrite submit_built_plan_seen by done.
    destruct (va_ok _) eqn:Hv; [|left; by rewrite app_nil_r]. right. eexists. split; [|done].
    exists plan. split_and!; [done|done|]. by apply validate_impl_ok.
  - unfold submit, seen. destruct (gw_adapter g) as [r|] eqn:Hr; [right|left; cbn [fst]; by rewrite Hr]. exists p. split; [done|].
    cbn. by destruct (submit_plan (rc_adapter r) p c).
  - by left.
  - left. unfold gateway_cancel_plan. destruct (gw_runtime g !! id) as [runtime|]; [|done].
    destruct (cancel_open_orders _ _ _ _ _) as [adapter cancel] eqn:Hc. cbn [fst].
    transitivity (from_option rc_seen [] adapter).
    + unfold seen, publish_reports. destruct (cn_ok cancel), (gw_has_report_publisher (g <| gw_adapter := adapter |>)); by destruct g.
    + unfold seen. revert Hc. unfold cancel_open_orders. destruct (ec_mode _); try (by intros [<- _]%pair_eq).
      destruct (_ || _); [by intros [<- _]%pair_eq|]. destruct (gw_adapter g) as [r|]; [|by intros [<- _]%pair_eq].
      cbn. destruct (adapter_cancel_plan (rc_adapter r) _) as [a1 res]. by intros [<- _]%pair_eq.
  - left. by destruct g.
Qed.

(** C36. What reaches the adapter.  Over any calls of a gateway the plans handed to
    the adapter are, in order and at most one per call: for an approved decision or
    intent, the plan that was built for it, marked as acknowledged, and only when it
    is executable under the gateway's configuration, reservation id included; for a
    plan given to [submit], that plan as it was given, unchecked.  A decision that
    does not get there leaves the adapter and the plan books as they were, and is
    reported as failed. *)
Theorem gateway_hands_over_plans (g : ExecutionGateway (Recorded A)) ops :
  (∃ calls sent, calls `sublist_of` ops ∧ Forall2 may_hand calls sent ∧ seen (foldl gateway_step g ops) = seen g ++ sent) ∧
  ∀ envelope context,
    let '(g1, result) := submit_approved_decision g envelope context in
    (∃ sent, may_hand (GoDecision envelope context) sent ∧ seen g1 = seen g ++ [sent] ∧ is_Some (gw_plan_store g1 !! op_plan_id sent)) ∨
    (gateway_untouched g g1 ∧ xr_ok result = false ∧ xr_status result = PsFailed).
Proof.
  split.
  - revert g. induction ops as [|op ops IH]; intros g; cbn [foldl].
    { exists [], []. by rewrite app_nil_r. }
    destruct (IH (gateway_step g op)) as (calls & sent & Hsub & Hall & Hseen). rewrite Hseen.
    destruct (gateway_step_seen g op) as [->|(p & Hp & ->)].
    + exists calls, sent. split_and!; [by constructor|done|done].
    + exists (op :: calls), (p :: sent). split_and!; [by constructor|by constructor|by rewrite <- (assoc_L (++))].
  - intros envelope context. pose proof (decision_submission_gate g envelope context) as Hgate.
    destruct (submit_approved_decision g envelope context) as [g1 result].
    destruct Hgate as [?|(r & plan & Hr & Hb & Hv & Hg1 & Hstore)]; [by right|left]. exists (prepare_plan plan).
    split; [by exists plan|]. split; [|by rewrite (proj1 (prepare_plan_fields plan))]. unfold seen. rewrite Hg1, Hr. cbn.
    destruct (submit_plan (rc_adapter r) _ _) as [a1 res]. cbn. by destruct (poll_reports a1).
Qed.
End Handed.

(** Cancelling a plan in paper mode is a request on the books: for a known plan
    it publishes and queues the cancel reports of its open orders and marks the
    runtime plan cancelled, and it leaves the adapter, the stored plan, the
    other plans and the dispositions as they were; an unknown plan is an error
    that changes nothing. *)
Theorem gateway_cancel_spec {A} `{IExecutionAdapter A} (g : ExecutionGateway A) plan_id :
  let '(g1, result) := gateway_cancel_plan g plan_id in
  match gw_runtime g !! plan_id with
  | None => g1 = g ∧ cn_ok result = false ∧ cn_reports result = []
  | Some runtime =>
      ec_mode (pt_config runtime) = ModePaper →
      cn_ok result = true ∧
      cn_reports result = cancel_reports (pt_plan runtime) (fk_plan_state (pt_fill_tracker runtime)) 0 ∧
      gw_pending_reports g1 = gw_pending_reports g ++ cn_reports result ∧
      gw_adapter g1 = gw_adapter g ∧ gw_plan_store g1 = gw_plan_store g ∧ gw_dispositions g1 = gw_dispositions g ∧
      (op_status ∘ pt_plan <$> gw_runtime g1 !! plan_id) = Some PsCancelled ∧
      (∀ other, other ≠ plan_id → gw_runtime g1 !! other = gw_runtime g !! other)
  end.
Proof.
  unfold gateway_cancel_plan. destruct (gw_runtime g !! plan_id) as [[p t c]|] eqn:Hr; [|done].
  destruct (cancel_open_orders _ _ _ _ _) as [adapter cancel] eqn:Hc. intros Hm.
  unfold cancel_open_orders in Hc. cbn [pt_config pt_plan pt_fill_tracker] in *. rewrite Hm in Hc. simplify_eq.
  cbn [cn_ok cn_reports]. unfold publish_reports. destruct g; cbn in *.
  step_if; cbn; unfold constant; split_and!; try done; try by rewrite lookup_insert_eq; destruct p.
  all: intros other Hne; by rewrite lookup_insert_ne.
Qed.

(** *** Concrete runs *)

Definition one_ask_view (asset_index price : Z) (lots : positive) : MarketDepthView :=
  paper_view0 <| dv_asset_index := asset_index |> <| dv_usable_for_depth := true |> <| dv_ask_count := 1%nat |>
              <| dv_asks := [ask price lots] |>.
Definition gateway_context (config : ExecutionConfig) (lots2 : positive) : ExecutionContext :=
  mkExecutionContext 700 [] [one_ask_view 1 390 20; one_ask_view 2 500 lots2] config.
Definition paper_gateway : ExecutionGateway PaperExecutionAdapter :=
  new_gateway (Some (mkPaperExecutionAdapter [])) true true.
Definition partial_config : ExecutionConfig :=
  execution_config0 <| ec_paper_mode := PaperSequential |> <| ec_allow_partial_fill_paper := true |>.
Definition demo_plan_id : Z := make_plan_id demo_envelope.

(** The dispositions of the demonstration decision when the second leg finds this many lots. *)
Definition demo_dispositions (config : ExecutionConfig) (lots2 : positive) : list ReservationDispositionType :=
  rn_type <$> gw_dispositions (submit_approved_decision paper_gateway demo_envelope (gateway_context config lots2)).1.

(** A full fill consumes, a failed atomic plan releases, a partly filled plan keeps its reservation. *)
Example demo_dispositions_values :
  demo_dispositions execution_config0 4 = [RdConsume] ∧ demo_dispositions execution_config0 3 = [RdRelease] ∧
  demo_dispositions partial_config 3 = [].
Proof. vm_compute. done. Qed.

Lemma gateway_settles_reservation_witness :
  ∃ type reason,
    gw_dispositions (submit_approved_decision paper_gateway demo_envelope (gateway_context execution_config0 4)).1 =
      (if bool_decide (type = RdNone) then []
       else [mkReservationDisposition "404" demo_plan_id type reason]) ∧ type = RdConsume.
Proof.
  assert (Ha : gw_adapter paper_gateway = Some (mkPaperExecutionAdapter [])) by reflexivity.
  assert (Hpub : gw_has_reservation_publisher paper_gateway = true) by reflexivity.
  assert (Hlen : length (od_legs (en_decision demo_envelope)) = kMaxOrderDecisionLegs) by reflexivity.
  assert (Hsmall : Forall (λ leg, small_lots (dl_quantity_lots leg)) (decision_legs (en_decision demo_envelope)))
    by (repeat constructor; vm_compute; reflexivity).
  pose proof (λ plan, gateway_settles_reservation paper_gateway _ demo_envelope (gateway_context execution_config0 4)
    plan Ha Hpub Hlen Hsmall) as H.
  assert (Hok : match build_plan demo_envelope 700 execution_config0 with
    | inr plan => va_ok (validate plan execution_config0) = true ∧ op_plan_id plan = demo_plan_id ∧
        co_quantity_lots <$> plan_orders plan =
          er_filled_lots <$> adapter_answer (mkPaperExecutionAdapter []) plan (gateway_context execution_config0 4)
    | inl _ => False end) by (vm_compute; repeat split).
  change (xc_now_ns (gateway_context execution_config0 4)) with 700 in H.
  change (xc_config (gateway_context execution_config0 4)) with execution_config0 in H.
  destruct (build_plan demo_envelope 700 execution_config0) as [e|plan]; [destruct Hok|].
  destruct Hok as (Hval & Hid & Hfill). destruct (H plan eq_refl Hval) as (_ & _ & type & reason & Hd & Hc & _).
  exists type, reason. split.
  - rewrite Hd, Hid. reflexivity.
  - apply Hc. unfold all_complete. revert Hfill.
    generalize (adapter_answer (mkPaperExecutionAdapter []) plan (gateway_context execution_config0 4)).
    generalize (plan_orders plan). clear. intros orders reports.
    revert reports; induction orders as [|o os IH]; intros [|r rs] Heq; simplify_eq/=; constructor; auto.
Defined.

(** A plan that fails validation reaches the adapter through [submit], which does
    not validate: here one without a reservation, which the decision path refuses. *)
Example direct_submission_unchecked :
  let context := gateway_context execution_config0 4 in
  let gateway := new_gateway (Some (mkRecorded (mkPaperExecutionAdapter []) [])) true true in
  match build_plan demo_envelope 700 execution_config0 with
  | inl _ => False
  | inr plan =>
      let unreserved := plan <| op_reservation_id := 0 |> in
      va_ok (validate unreserved execution_config0) = false ∧
      seen (submit gateway unreserved context).1 = [unreserved] ∧
      seen (submit_built_plan gateway (mkRecorded (mkPaperExecutionAdapter []) []) unreserved "404" context).1 = []
  end.
Proof. vm_compute. repeat split. Qed.

(** A filled plan can be cancelled: the request reports nothing, yet the
    runtime plan, terminal before, is cancelled, the stored copy stays filled,
    and the risk side is told nothing. *)
Lemma cancel_after_fill :
  let g := (submit_approved_decision paper_gateway demo_envelope (gateway_context execution_config0 4)).1 in
  let '(g1, cancel) := gateway_cancel_plan g demo_plan_id in
  (op_status ∘ pt_plan <$> gw_runtime g !! demo_plan_id) = Some PsFilled ∧
  cn_ok cancel = true ∧ cn_reports cancel = [] ∧
  (op_status ∘ pt_plan <$> gw_runtime g1 !! demo_plan_id) = Some PsCancelled ∧
  (op_status <$> find_plan g1 demo_plan_id) = Some PsFilled ∧ gw_dispositions g1 = gw_dispositions g.
Proof. vm_compute. repeat split. Qed.

(** Cancelling does not move the child orders, so a second cancellation reports
    the same open order again. *)
Lemma cancel_repeats :
  let g := (submit_approved_decision paper_gateway demo_envelope (gateway_context partial_config 3)).1 in
  let '(g1, first) := gateway_cancel_plan g demo_plan_id in
  let '(_, second) := gateway_cancel_plan g1 demo_plan_id in
  length (cn_reports first) = 2%nat ∧ cn_reports second = cn_reports first.
Proof. vm_compute. repeat split. Qed.

Lemma gateway_cancel_spec_witness :
  let g := (submit_approved_decision paper_gateway demo_envelope (gateway_context partial_config 3)).1 in
  (op_status ∘ pt_plan <$> gw_runtime (gateway_cancel_plan g demo_plan_id).1 !! demo_plan_id) = Some PsCancelled.
Proof.
  intros g. pose proof (gateway_cancel_spec g demo_plan_id) as H.
  assert (Hmode : (ec_mode ∘ pt_config <$> gw_runtime g !! demo_plan_id) = Some ModePaper)
    by (vm_compute; reflexivity).
  destruct (gateway_cancel_plan g demo_plan_id) as [g1 result]. cbn [fst].
  destruct (gw_runtime g !! demo_plan_id) as [runtime|]; [|discriminate Hmode].
  injection Hmode as Hmode. by destruct (H Hmode) as (_ & _ & _ & _ & _ & _ & Hst & _).
Defined.
