(* ===== verification/QuoteTypes.v ===== *)
(** * QuoteTypes: the vocabulary of market making

    [engine/strategy/market_making/public], [state], [refresh] and [canonical]:
    quotes and their two legs, cancels, the configuration, the active quotes of
    the engine with their status machine and their book, the policy that decides
    when a quote is replaced, and the mapping between an asset and the yes
    outcome it is quoted against. *)

From stdpp Require Import sorting strings.
From S2P Require Import Prelude FixedPoint Hashing Doubles RiskTypes Depth.
#[local] Open Scope Z_scope.

#[local] Arguments constant {_} _ _ /.

(** ** Enumerations *)

(** [engine/strategy/market_making/public/MarketMakingTypes.h:13-21] QuoteIntentType. *)
Inductive QuoteIntentType :=
| QtNone | QtPlaceQuote | QtReplaceQuote | QtPassiveUnwind | QtForcedUnwind | QtCancelQuote | QtCancelOnly.

(** [engine/strategy/market_making/public/MarketMakingTypes.h:23-28] QuoteIntentRiskMode. *)
Inductive QuoteIntentRiskMode := QmOpening | QmMixed | QmReduceOnly | QmForcedReduce.

(** [engine/strategy/market_making/public/MarketMakingTypes.h:30-33] QuoteSide. *)
Inductive QuoteSide := QsBid | QsAsk.

(** [engine/strategy/market_making/public/MarketMakingTypes.h:35-44] CancelReason. *)
Inductive CancelReason :=
| CrNone | CrQuoteExpired | CrFairValueMoved | CrInventoryChanged | CrBookStale | CrMarketHalted | CrRiskDegraded
| CrReplacedByNewQuote.

(** [engine/strategy/market_making/public/MarketMakingTypes.h:46-58] QuoteStatus. *)
Inductive QuoteStatus :=
| QsCreated | QsRiskApproved | QsPostedPaper | QsActivePaper | QsPartiallyFilled | QsFilled | QsCancelRequested
| QsCancelled | QsExpired | QsReplaced | QsRejected.

(** [engine/strategy/market_making/public/MarketMakingTypes.h:60-68] FairValueQuality. *)
Inductive FairValueQuality :=
| FvValid | FvMissingBidAsk | FvStaleBook | FvCrossedBook | FvLowConfidence | FvExternalStale | FvDisabled.

(** [engine/strategy/market_making/public/MarketMakingTypes.h:70-77] FairValueSourceKind. *)
Inductive FairValueSourceKind :=
| FsMid | FsMicropriceVwap | FsComplementMarket | FsExternal | FsOracleBand | FsConservativeFallback.

(** [engine/strategy/market_making/public/MarketMakingTypes.h:79-93] NoQuoteReason. *)
Inductive NoQuoteReason :=
| NqNone | NqMissingDepth | NqFairValueUnavailable | NqFairStaleBook | NqFairCrossedBook | NqFairMissingLiquidity
| NqFairLowConfidence | NqFairExternalStale | NqFairUnavailableUnknown | NqQuoteSizeUnavailable | NqInvalidQuotePrices
| NqNoQuoteSides | NqQuoteBuildFailed.

#[export] Instance QuoteIntentType_eq_dec : EqDecision QuoteIntentType.
Proof. solve_decision. Defined.
#[export] Instance QuoteIntentRiskMode_eq_dec : EqDecision QuoteIntentRiskMode.
Proof. solve_decision. Defined.
#[export] Instance QuoteSide_eq_dec : EqDecision QuoteSide.
Proof. solve_decision. Defined.
#[export] Instance QuoteStatus_eq_dec : EqDecision QuoteStatus.
Proof. solve_decision. Defined.
#[export] Instance FairValueQuality_eq_dec : EqDecision FairValueQuality.
Proof. solve_decision. Defined.

(** The numbers the casts to [std::uint8_t] see: the order of declaration. *)
Definition intent_type_code (t : QuoteIntentType) : Z :=
  match t with
  | QtNone => 0 | QtPlaceQuote => 1 | QtReplaceQuote => 2 | QtPassiveUnwind => 3 | QtForcedUnwind => 4
  | QtCancelQuote => 5 | QtCancelOnly => 6
  end.
Definition risk_mode_code (m : QuoteIntentRiskMode) : Z :=
  match m with QmOpening => 0 | QmMixed => 1 | QmReduceOnly => 2 | QmForcedReduce => 3 end.
Definition quote_side_code (s : QuoteSide) : Z := match s with QsBid => 0 | QsAsk => 1 end.
Definition cancel_reason_code (r : CancelReason) : Z :=
  match r with
  | CrNone => 0 | CrQuoteExpired => 1 | CrFairValueMoved => 2 | CrInventoryChanged => 3 | CrBookStale => 4
  | CrMarketHalted => 5 | CrRiskDegraded => 6 | CrReplacedByNewQuote => 7
  end.
Definition quote_status_code (s : QuoteStatus) : Z :=
  match s with
  | QsCreated => 0 | QsRiskApproved => 1 | QsPostedPaper => 2 | QsActivePaper => 3 | QsPartiallyFilled => 4 | QsFilled => 5
  | QsCancelRequested => 6 | QsCancelled => 7 | QsExpired => 8 | QsReplaced => 9 | QsRejected => 10
  end.
Definition fair_quality_code (q : FairValueQuality) : Z :=
  match q with
  | FvValid => 0 | FvMissingBidAsk => 1 | FvStaleBook => 2 | FvCrossedBook => 3 | FvLowConfidence => 4
  | FvExternalStale => 5 | FvDisabled => 6
  end.
Definition no_quote_reason_code (r : NoQuoteReason) : Z :=
  match r with
  | NqNone => 0 | NqMissingDepth => 1 | NqFairValueUnavailable => 2 | NqFairStaleBook => 3 | NqFairCrossedBook => 4
  | NqFairMissingLiquidity => 5 | NqFairLowConfidence => 6 | NqFairExternalStale => 7 | NqFairUnavailableUnknown => 8
  | NqQuoteSizeUnavailable => 9 | NqInvalidQuotePrices => 10 | NqNoQuoteSides => 11 | NqQuoteBuildFailed => 12
  end.

(** [engine/strategy/market_making/public/MarketMakingTypes.h:97-117] fair_value_quality_name. *)
Definition fair_value_quality_name (quality : FairValueQuality) : string :=
  match quality with
  | FvValid => "valid" | FvMissingBidAsk => "missing_bid_ask" | FvStaleBook => "stale_book"
  | FvCrossedBook => "crossed_book" | FvLowConfidence => "low_confidence" | FvExternalStale => "external_stale"
  | FvDisabled => "disabled"
  end.

(** [engine/strategy/market_making/public/MarketMakingTypes.h:11] kPriceOneTick. *)
Definition kPriceOneTick : Z := 1000000.

(** [engine/strategy/market_making/public/MarketMakingTypes.h:175-181] clamp_tick. *)
Definition clamp_tick (value min_value max_value : Z) : Z := Z.max min_value (Z.min max_value value).

(** [std::llabs]: the magnitude, at the width of the type. *)
Definition llabs (value : Z) : Z := wrap_i64 (Z.abs value).

(** ** Quotes *)

(** [engine/strategy/market_making/public/QuoteIntent.h:10-30] QuoteLeg. *)
Record QuoteLeg := mkQuoteLeg {
  ql_market_id : string;
  ql_asset_id : string;
  ql_market_index : Z;
  ql_asset_index : Z;
  ql_side : QuoteSide;
  ql_price_tick : Z;
  ql_quantity_lots : Z;
  ql_fair_value_tick : Z;
  ql_edge_to_fair_tick : Z;
  ql_risk_reducing : bool;
  ql_allow_fair_deviation_exemption : bool;
  ql_allow_spread_exemption : bool;
  ql_book_version : Z;
  ql_snapshot_version_hash : Z
}.

Definition quote_leg0 : QuoteLeg := mkQuoteLeg "" "" 0 0 QsBid 0 0 0 0 false false false 0 0.

(** [engine/strategy/market_making/public/QuoteIntent.h:32-77] QuoteIntent. *)
Record QuoteIntent := mkQuoteIntent {
  qi_quote_intent_id : Z;
  qi_type : QuoteIntentType;
  qi_strategy_id : Z;
  qi_quote_group_id : Z;
  qi_market_id : string;
  qi_asset_id : string;
  qi_market_index : Z;
  qi_asset_index : Z;
  qi_risk_mode : QuoteIntentRiskMode;
  qi_has_bid : bool;
  qi_has_ask : bool;
  qi_bid : QuoteLeg;
  qi_ask : QuoteLeg;
  qi_fair_value_tick : Z;
  qi_asset_fair_tick : Z;
  qi_canonical_yes_fair_tick : Z;
  qi_canonical_yes_position_lots : Z;
  qi_target_canonical_yes_lots : Z;
  qi_edge_tick : Z;
  qi_half_spread_tick : Z;
  qi_inventory_skew_tick : Z;
  qi_target_position_lots : Z;
  qi_current_position_lots : Z;
  qi_reward_config_present : bool;
  qi_reward_eligible : bool;
  qi_reward_condition_id : string;
  qi_reward_max_spread_tick : Z;
  qi_reward_min_size_lots : Z;
  qi_reward_reason : string;
  qi_created_ts_ns : Z;
  qi_expires_at_ns : Z;
  qi_snapshot_version_hash : Z;
  qi_oracle_artifact_hash : Z;
  qi_policy_hash : Z;
  qi_idempotency_hash : Z;
  qi_reason : string
}.

Definition quote_intent0 : QuoteIntent :=
  mkQuoteIntent 0 QtNone 0 0 "" "" 0 0 QmOpening false false quote_leg0 quote_leg0 0 0 0 0 0 0 0 0 0 0
    false false "" 0 0 "" 0 0 0 0 0 0 "".

(** A call of a mixer of the quote hashes: [fnv1a_mix] on a word, on a signed
    tick, or [stable_hash_string]. *)
Inductive quote_item := Qu (v : Z) | Qi (v : Z) | Qb (b : bool) | Qs (s : string).

(** [engine/strategy/market_making/public/MarketMakingTypes.h:153-173] fnv1a_mix and stable_hash_string. *)
Definition quote_mix (h : Z) (i : quote_item) : Z :=
  match i with
  | Qu v => mix_u64 h v
  | Qi v => mix_i64 h v
  | Qb b => mix_u64 h (if b then 1 else 0)
  | Qs s => mix_string h s
  end.

(** [engine/strategy/market_making/public/QuoteIntent.cpp:5-25] compute_quote_leg_hash. *)
Definition compute_quote_leg_hash (leg : QuoteLeg) : Z :=
  foldl quote_mix fnv_offset
    [Qs (ql_market_id leg); Qs (ql_asset_id leg); Qu (ql_market_index leg); Qu (ql_asset_index leg);
     Qu (quote_side_code (ql_side leg)); Qi (ql_price_tick leg); Qi (ql_quantity_lots leg); Qi (ql_fair_value_tick leg);
     Qi (ql_edge_to_fair_tick leg); Qb (ql_risk_reducing leg); Qb (ql_allow_fair_deviation_exemption leg);
     Qb (ql_allow_spread_exemption leg); Qu (ql_book_version leg); Qu (ql_snapshot_version_hash leg)].

(** [engine/strategy/market_making/public/QuoteIntent.cpp:27-89] compute_quote_intent_hash. *)
Definition compute_quote_intent_hash (intent : QuoteIntent) : Z :=
  foldl quote_mix fnv_offset
    ([Qu (qi_quote_intent_id intent); Qu (intent_type_code (qi_type intent)); Qu (qi_strategy_id intent);
      Qu (qi_quote_group_id intent); Qs (qi_market_id intent); Qs (qi_asset_id intent); Qu (qi_market_index intent);
      Qu (qi_asset_index intent); Qu (risk_mode_code (qi_risk_mode intent)); Qb (qi_has_bid intent); Qb (qi_has_ask intent)]
     ++ (if qi_has_bid intent then [Qu (compute_quote_leg_hash (qi_bid intent))] else [])
     ++ (if qi_has_ask intent then [Qu (compute_quote_leg_hash (qi_ask intent))] else [])
     ++ [Qi (qi_fair_value_tick intent); Qi (qi_asset_fair_tick intent); Qi (qi_canonical_yes_fair_tick intent);
         Qi (qi_canonical_yes_position_lots intent); Qi (qi_target_canonical_yes_lots intent); Qi (qi_edge_tick intent);
         Qi (qi_half_spread_tick intent); Qi (qi_inventory_skew_tick intent); Qi (qi_target_position_lots intent);
         Qi (qi_current_position_lots intent); Qb (qi_reward_config_present intent); Qb (qi_reward_eligible intent);
         Qs (qi_reward_condition_id intent); Qi (qi_reward_max_spread_tick intent); Qi (qi_reward_min_size_lots intent);
         Qs (qi_reward_reason intent); Qu (qi_created_ts_ns intent); Qu (qi_expires_at_ns intent);
         Qu (qi_snapshot_version_hash intent); Qu (qi_oracle_artifact_hash intent); Qu (qi_policy_hash intent);
         Qu (qi_idempotency_hash intent)]).

(** [engine/strategy/market_making/public/CancelQuoteIntent.h:9-17] CancelQuoteIntent. *)
Record CancelQuoteIntent := mkCancelQuoteIntent {
  cq_cancel_intent_id : Z;
  cq_quote_group_id : Z;
  cq_active_quote_id : Z;
  cq_asset_index : Z;
  cq_reason : CancelReason;
  cq_created_ts_ns : Z;
  cq_idempotency_hash : Z
}.

(** [engine/strategy/market_making/public/CancelQuoteIntent.cpp:5-17] compute_cancel_quote_intent_hash. *)
Definition compute_cancel_quote_intent_hash (cancel : CancelQuoteIntent) : Z :=
  foldl quote_mix fnv_offset
    [Qu (cq_cancel_intent_id cancel); Qu (cq_quote_group_id cancel); Qu (cq_active_quote_id cancel);
     Qu (cq_asset_index cancel); Qu (cancel_reason_code (cq_reason cancel)); Qu (cq_created_ts_ns cancel);
     Qu (cq_idempotency_hash cancel)].

(** ** Configuration *)

(** [engine/strategy/market_making/public/MarketMakingConfig.h:13-80] MarketMakingConfig. *)
Record MarketMakingConfig := mkMarketMakingConfig {
  mc_strategy_id : Z;
  mc_oracle_artifact_hash : Z;
  mc_policy_hash : Z;
  mc_min_price_tick : Z;
  mc_max_price_tick : Z;
  mc_min_half_spread_tick : Z;
  mc_fee_buffer_tick : Z;
  mc_latency_buffer_tick : Z;
  mc_volatility_buffer_tick : Z;
  mc_liquidity_buffer_tick : Z;
  mc_uncertainty_buffer_tick : Z;
  mc_max_inventory_skew_tick : Z;
  mc_inventory_skew_nonlinear_start_bps : Z;
  mc_inventory_skew_exponent : double;
  mc_tte_skew_start_ns : Z;
  mc_tte_puke_start_ns : Z;
  mc_tte_max_skew_multiplier : double;
  mc_target_position_lots : Z;
  mc_min_inventory_lots : Z;
  mc_max_inventory_lots : Z;
  mc_base_quote_size_lots : Z;
  mc_min_quote_edge_tick : Z;
  mc_adverse_selection_buffer_tick : Z;
  mc_min_top_depth_lots : Z;
  mc_min_total_depth_lots : Z;
  mc_max_book_spread_tick : Z;
  mc_max_book_spread_bps : Z;
  mc_min_fair_confidence_bps : Z;
  mc_fair_mid_weight_bps : Z;
  mc_fair_microprice_weight_bps : Z;
  mc_fair_vwap_weight_bps : Z;
  mc_fair_vwap_lots : Z;
  mc_complement_fair_weight_bps : Z;
  mc_external_fair_value_tick : Z;
  mc_external_fair_weight_bps : Z;
  mc_require_external_fair_for_opening_quotes : bool;
  mc_max_quote_size_multiplier_bps : Z;
  mc_passive_unwind_position_bps : Z;
  mc_forced_unwind_position_bps : Z;
  mc_passive_unwind_aggression_tick : Z;
  mc_passive_reduce_excess_lots : Z;
  mc_urgent_reduce_excess_lots : Z;
  mc_passive_reduce_join_tick : Z;
  mc_urgent_unwind_aggression_tick : Z;
  mc_reduce_only_quote_to_target : bool;
  mc_reward_aware_quotes_enabled : bool;
  mc_reward_min_size_lots_floor : Z;
  mc_reward_max_spread_tick_buffer : Z;
  mc_reward_allow_unwind_exemption : bool;
  mc_quote_ttl_ns : Z;
  mc_requote_threshold_tick : Z;
  mc_min_quote_price_change_tick : Z;
  mc_min_requote_interval_ns : Z;
  mc_inventory_requote_threshold_lots : Z;
  mc_max_book_age_ns : Z;
  mc_enable_bid_quotes : bool;
  mc_enable_ask_quotes : bool
}.

(** The default member initialisers. *)
Definition mm_config0 : MarketMakingConfig :=
  mkMarketMakingConfig 1 0 0 1 (kPriceOneTick - 1) 25000 0 0 0 0 0 75000 10000 d1_0 0 0 d1_0 0 0 100 9 0 0
    1 1 0 0 6000 4000 4000 2000 10 0 0 0 false 20000 7000 9000 0 20 50 1 0 true false 0 0 true
    5000000000 1000 0 0 1 1000000000 true true.

(** ** Active quotes *)

(** [engine/strategy/market_making/state/ActiveQuoteState.h:9-30] ActiveQuoteState. *)
Record ActiveQuoteState := mkActiveQuoteState {
  aq_quote_group_id : Z;
  aq_quote_intent_id : Z;
  aq_asset_index : Z;
  aq_status : QuoteStatus;
  aq_has_bid : bool;
  aq_has_ask : bool;
  aq_bid : QuoteLeg;
  aq_ask : QuoteLeg;
  aq_filled_bid_qty_lots : Z;
  aq_filled_ask_qty_lots : Z;
  aq_fair_value_tick : Z;
  aq_current_position_lots : Z;
  aq_created_ts_ns : Z;
  aq_expires_at_ns : Z;
  aq_snapshot_version_hash : Z;
  aq_idempotency_hash : Z
}.

(** [engine/strategy/market_making/state/ActiveQuoteState.h:32-52] active_quote_from_intent. *)
Definition active_quote_from_intent (intent : QuoteIntent) (status : QuoteStatus) : ActiveQuoteState :=
  mkActiveQuoteState (qi_quote_group_id intent) (qi_quote_intent_id intent) (qi_asset_index intent) status
    (qi_has_bid intent) (qi_has_ask intent) (qi_bid intent) (qi_ask intent) 0 0 (qi_fair_value_tick intent)
    (qi_current_position_lots intent) (qi_created_ts_ns intent) (qi_expires_at_ns intent)
    (qi_snapshot_version_hash intent) (qi_idempotency_hash intent).

(** [engine/strategy/market_making/state/QuoteStateMachine.h:7-11] quote_status_terminal. *)
Definition quote_status_terminal (status : QuoteStatus) : bool :=
  match status with
  | QsFilled | QsCancelled | QsExpired | QsReplaced | QsRejected => true
  | _ => false
  end.

(** [engine/strategy/market_making/state/QuoteStateMachine.h:13-49] can_transition_quote_status. *)
Definition can_transition_quote_status (from to : QuoteStatus) : bool :=
  if decide (from = to) then true
  else if quote_status_terminal from then false
  else
    match to with
    | QsRejected | QsExpired | QsCancelled | QsReplaced => true
    | _ =>
        match from with
        | QsCreated => bool_decide (to = QsRiskApproved) || bool_decide (to = QsPostedPaper) || bool_decide (to = QsActivePaper)
        | QsRiskApproved => bool_decide (to = QsPostedPaper) || bool_decide (to = QsActivePaper)
        | QsPostedPaper => bool_decide (to = QsActivePaper)
        | QsActivePaper =>
            bool_decide (to = QsPartiallyFilled) || bool_decide (to = QsFilled) || bool_decide (to = QsCancelRequested)
        | QsPartiallyFilled => bool_decide (to = QsFilled) || bool_decide (to = QsCancelRequested)
        | QsCancelRequested => bool_decide (to = QsCancelled)
        | _ => false
        end
    end.

(** [engine/strategy/market_making/state/QuoteBook.h:11-26] QuoteBook: [quotes_by_asset_]. *)
Definition QuoteBook := gmap Z ActiveQuoteState.

(** [engine/strategy/market_making/state/QuoteBook.cpp:7-10] upsert. *)
Definition quote_book_upsert (quote : ActiveQuoteState) (book : QuoteBook) : QuoteBook :=
  <[aq_asset_index quote := quote]> book.

(** [engine/strategy/market_making/state/QuoteBook.cpp:12-14] remove: the book and whether there was a quote. *)
Definition quote_book_remove (asset_index : Z) (book : QuoteBook) : QuoteBook * bool :=
  (delete asset_index book, bool_decide (is_Some (book !! asset_index))).

(** [engine/strategy/market_making/state/QuoteBook.cpp:16-24] find. *)
Definition quote_book_find (asset_index : Z) (book : QuoteBook) : option ActiveQuoteState := book !! asset_index.

(** [engine/strategy/market_making/state/QuoteBook.cpp:26-36] active_quotes: by increasing asset index. *)
Definition quote_le (a b : ActiveQuoteState) : Prop := aq_asset_index a <= aq_asset_index b.
#[export] Instance quote_le_dec a b : Decision (quote_le a b).
Proof. unfold quote_le; apply _. Defined.
Definition quote_book_active_quotes (book : QuoteBook) : list ActiveQuoteState :=
  merge_sort quote_le (snd <$> map_to_list book).

(** [engine/strategy/market_making/state/QuoteBook.cpp:38-55] hash: the keys in increasing order. *)
Definition quote_book_hash (book : QuoteBook) : Z :=
  foldl (λ h key,
    match book !! key with
    | Some quote =>
        foldl quote_mix h [Qu key; Qu (aq_quote_group_id quote); Qu (aq_quote_intent_id quote);
                           Qu (quote_status_code (aq_status quote)); Qu (aq_idempotency_hash quote)]
    | None => h
    end) fnv_offset (merge_sort Z.le (fst <$> map_to_list book)).

(** ** Refreshing a quote *)

(** [engine/strategy/market_making/refresh/QuoteTTL.h:7-12] quote_expired. *)
Definition quote_expired (now_ns expires_at_ns : Z) : bool := negb (expires_at_ns =? 0) && (expires_at_ns <=? now_ns).

(** [engine/strategy/market_making/refresh/CancelReplacePlanner.h:8-22] make_cancel_intent. *)
Definition make_cancel_intent (active : ActiveQuoteState) (reason : CancelReason) (now_ns : Z) : CancelQuoteIntent :=
  let cancel := mkCancelQuoteIntent 0 (aq_quote_group_id active) (aq_quote_intent_id active) (aq_asset_index active)
                  reason now_ns 0 in
  let cancel := cancel <| cq_idempotency_hash := compute_cancel_quote_intent_hash cancel |> in
  cancel <| cq_cancel_intent_id := cq_idempotency_hash cancel |>.

(** [engine/strategy/market_making/refresh/QuoteRefreshPolicy.h:12-16] QuoteRefreshDecision. *)
Record QuoteRefreshDecision := mkRefresh {
  rf_should_cancel : bool;
  rf_should_replace : bool;
  rf_reason : CancelReason
}.

Definition keep_quote : QuoteRefreshDecision := mkRefresh false false CrNone.

(** [engine/strategy/market_making/refresh/QuoteRefreshPolicy.cpp:12-20] leg_shape_matches. *)
Definition leg_shape_matches (active candidate : QuoteLeg) (min_price_change_tick : Z) : bool :=
  let min_change := Z.max 0 min_price_change_tick in
  (ql_quantity_lots active =? ql_quantity_lots candidate) &&
  (llabs (ql_price_tick active -i ql_price_tick candidate) <=? min_change).

(** [engine/strategy/market_making/refresh/QuoteRefreshPolicy.cpp:22-48] quote_shape_matches. *)
Definition quote_shape_matches (active : ActiveQuoteState) (candidate : QuoteIntent) (min_price_change_tick : Z) : bool :=
  if negb (eqb (aq_has_bid active) (qi_has_bid candidate)) || negb (eqb (aq_has_ask active) (qi_has_ask candidate)) then false
  else if aq_has_bid active && negb (leg_shape_matches (aq_bid active) (qi_bid candidate) min_price_change_tick) then false
  else if aq_has_ask active && negb (leg_shape_matches (aq_ask active) (qi_ask candidate) min_price_change_tick) then false
  else true.

(** [engine/strategy/market_making/refresh/QuoteRefreshPolicy.cpp:50-58] inside_requote_cooldown. *)
Definition inside_requote_cooldown (active : ActiveQuoteState) (config : MarketMakingConfig) (now_ns : Z) : bool :=
  (0 <? mc_min_requote_interval_ns config) && (aq_created_ts_ns active <=? now_ns) &&
  (now_ns - aq_created_ts_ns active <? mc_min_requote_interval_ns config).

(** [engine/strategy/market_making/refresh/QuoteRefreshPolicy.cpp:62-136] QuoteRefreshPolicy::evaluate. *)
Definition refresh_evaluate (active : option ActiveQuoteState) (candidate : option QuoteIntent) (depth : MarketDepthView)
    (config : MarketMakingConfig) (current_position_lots now_ns : Z) : QuoteRefreshDecision :=
  let bad_book := negb (dv_usable_for_depth depth) || dv_recovering depth || dv_crossed depth || dv_closed depth
                  || dv_resolved depth in
  if bad_book then
    mkRefresh (bool_decide (is_Some active)) false
      (if dv_closed depth || dv_resolved depth then CrMarketHalted else CrBookStale)
  else
    match active with
    | None => mkRefresh false (bool_decide (is_Some candidate)) CrNone
    | Some active =>
        if quote_expired now_ns (aq_expires_at_ns active) then mkRefresh true (bool_decide (is_Some candidate)) CrQuoteExpired
        else
          match candidate with
          | None => mkRefresh true false CrRiskDegraded
          | Some candidate =>
              if quote_shape_matches active candidate (mc_min_quote_price_change_tick config) then keep_quote
              else if inside_requote_cooldown active config now_ns then keep_quote
              else if mc_requote_threshold_tick config <=? llabs (qi_fair_value_tick candidate -i aq_fair_value_tick active)
              then mkRefresh true true CrFairValueMoved
              else if mc_inventory_requote_threshold_lots config <=?
                        llabs (current_position_lots -i aq_current_position_lots active)
              then mkRefresh true true CrInventoryChanged
              else if negb (qi_idempotency_hash candidate =? aq_idempotency_hash active)
              then mkRefresh true true CrReplacedByNewQuote
              else keep_quote
          end
    end.

(** ** Canonical exposure: a market quoted against its yes outcome *)

(** [engine/strategy/market_making/fair/ExternalFairMarketSpec.h:24-27] OutcomeSide. *)
Inductive OutcomeSide := OsYes | OsNo.

(** [engine/strategy/market_making/fair/ExternalFairMarketSpec.h:16-22] ExternalFairEventType. *)
Inductive ExternalFairEventType := EvUnknown | EvTerminalAbove | EvTerminalBelow | EvUpTouch | EvDownTouch.

(** [engine/strategy/market_making/canonical/CanonicalExposureMapper.h:9-16] to_canonical_yes_exposure. *)
Definition to_canonical_yes_exposure (asset_side : OutcomeSide) (asset_position_lots : Z) : Z :=
  match asset_side with OsYes => asset_position_lots | OsNo => wrap_i64 (- asset_position_lots) end.

(** [engine/strategy/market_making/canonical/CanonicalExposureMapper.h:18-25] canonical_yes_target_to_asset_position. *)
Definition canonical_yes_target_to_asset_position (asset_side : OutcomeSide) (canonical_yes_target_lots : Z) : Z :=
  match asset_side with OsYes => canonical_yes_target_lots | OsNo => wrap_i64 (- canonical_yes_target_lots) end.

(** [engine/strategy/market_making/canonical/CanonicalExposureMapper.h:27-34] canonical_yes_delta_for_asset_fill. *)
Definition canonical_yes_delta_for_asset_fill (asset_side : OutcomeSide) (buy_asset : bool) (fill_qty_lots : Z) : Z :=
  let asset_delta := if buy_asset then fill_qty_lots else wrap_i64 (- fill_qty_lots) in
  to_canonical_yes_exposure asset_side asset_delta.

(** [engine/strategy/market_making/canonical/CanonicalPriceMapper.h:10-18] clamp_price_tick. *)
Definition clamp_price_tick (value price_scale_tick : Z) : Z := Z.max 0 (Z.min price_scale_tick value).

(** [engine/strategy/market_making/canonical/CanonicalPriceMapper.h:20-29] asset_to_canonical_yes_tick. *)
Definition asset_to_canonical_yes_tick (asset_side : OutcomeSide) (asset_price_tick price_scale_tick : Z) : Z :=
  let clamped := clamp_price_tick asset_price_tick price_scale_tick in
  match asset_side with OsYes => clamped | OsNo => price_scale_tick -i clamped end.

(** [engine/strategy/market_making/canonical/CanonicalPriceMapper.h:31-41] canonical_yes_to_asset_tick. *)
Definition canonical_yes_to_asset_tick (asset_side : OutcomeSide) (canonical_yes_price_tick price_scale_tick : Z) : Z :=
  let clamped := clamp_price_tick canonical_yes_price_tick price_scale_tick in
  match asset_side with OsYes => clamped | OsNo => price_scale_tick -i clamped end.

(** [engine/strategy/market_making/canonical/CanonicalPriceMapper.h:43-48] CanonicalTopOfBook. *)
Record CanonicalTopOfBook := mkCanonicalTop {
  ct_bid_tick : Z;
  ct_ask_tick : Z;
  ct_mid_tick : Z;
  ct_spread_tick : Z
}.

(** [engine/strategy/market_making/canonical/CanonicalPriceMapper.h:50-79] canonical_yes_top_of_book. *)
Definition canonical_yes_top_of_book (asset_side : OutcomeSide) (asset_bid_tick asset_ask_tick price_scale_tick : Z) :
    CanonicalTopOfBook :=
  if (asset_bid_tick <=? 0) || (asset_ask_tick <=? 0) || (asset_ask_tick <? asset_bid_tick) || (price_scale_tick <=? 0)
  then mkCanonicalTop 0 0 0 0
  else
    let '(bid, ask) :=
      match asset_side with
      | OsYes => (asset_bid_tick, asset_ask_tick)
      | OsNo => (price_scale_tick -i asset_ask_tick, price_scale_tick -i asset_bid_tick)
      end in
    let bid := clamp_price_tick bid price_scale_tick in
    let ask := clamp_price_tick ask price_scale_tick in
    if ask <? bid then mkCanonicalTop 0 0 0 0
    else mkCanonicalTop bid ask (Z.quot (bid +i ask) 2) (ask -i bid).
