(* ===== verification/PaperLedger.v ===== *)
(** * PaperLedger: cash, positions and applied fills

    [engine/paper/ledger] and [engine/paper/portfolio].  Fills arrive as
    execution reports of plans (buys only) or as paper fills of maker quotes;
    each is applied at most once, to a cash account and to one position per
    asset.  A position's average cost is an integer quotient, so closing a
    position can leave a remainder of its cost behind; the theorems account for
    it.  [std::map] and [std::unordered_map] are finite maps: the one loop over
    them adds up, so its order does not matter. *)

From S2P Require Import Prelude Hashing ExecutionTypes QuoteTypes.

(** ** Positions *)

(** [engine/paper/portfolio/Position.h:8-19] Position. *)
Record Position := mkPosition {
  po_asset_id : string;
  po_asset_index : Z;
  po_qty_lots : Z;
  po_avg_cost_tick : Z;
  po_cost_basis_tick : Z;
  po_realized_pnl_tick : Z;
  po_unrealized_pnl_mid_tick : Z;
  po_unrealized_pnl_liquidation_tick : Z
}.
Definition position0 : Position := mkPosition "" 0 0 0 0 0 0 0.

(** [engine/paper/ledger/PositionLedger.h:16-21] PositionLedgerApplyStatus. *)
Inductive PositionLedgerApplyStatus := PlApplied | PlInvalidFill | PlUnsupportedSell | PlInsufficientPosition.
#[export] Instance PositionLedgerApplyStatus_eq_dec : EqDecision PositionLedgerApplyStatus.
Proof. solve_decision. Defined.

(** [engine/paper/ledger/PositionLedger.h:23-27] PositionLedgerApplyResult. *)
Record PositionLedgerApplyResult := mkPositionLedgerApplyResult {
  pr_applied : bool;
  pr_status : PositionLedgerApplyStatus;
  pr_realized_pnl_tick : Z
}.

(** [engine/paper/ledger/PositionLedger.h:29-36] PositionFill. *)
Record PositionFill := mkPositionFill {
  pf_asset_id : string;
  pf_asset_index : Z;
  pf_side : OrderSide;
  pf_qty_lots : Z;
  pf_price_tick : Z
}.

(** The positions of a [PositionLedger]. *)
Abbreviation Positions := (gmap string Position).

(** [engine/paper/ledger/PositionLedger.cpp:37-43] apply_buy, on the position itself. *)
Definition buy_position (asset_id : string) (asset_index lots cost_tick : Z) (p : Position) : Position :=
  let qty := po_qty_lots p +i lots in
  let basis := po_cost_basis_tick p +i cost_tick in
  p <| po_asset_id := asset_id |> <| po_asset_index := asset_index |>
    <| po_qty_lots := qty |> <| po_cost_basis_tick := basis |>
    <| po_avg_cost_tick := if 0 <? qty then Z.quot basis qty else po_avg_cost_tick p |>.

(** [engine/paper/ledger/PositionLedger.cpp:30-44] apply_buy. *)
Definition apply_buy (asset_id : string) (asset_index lots cost_tick : Z) (ps : Positions) : Positions :=
  <[asset_id := buy_position asset_id asset_index lots cost_tick (default position0 (ps !! asset_id))]> ps.

(** [engine/paper/ledger/PositionLedger.cpp:62-77] apply_sell, on the position itself. *)
Definition sell_position (asset_index lots price_tick : Z) (p : Position) : Position :=
  let avg := po_avg_cost_tick p in
  let qty := po_qty_lots p -i lots in
  let basis := po_cost_basis_tick p -i (avg *i lots) in
  p <| po_asset_index := if po_asset_index p =? 0 then asset_index else po_asset_index p |>
    <| po_qty_lots := qty |>
    <| po_realized_pnl_tick ::= λ r, r +i ((price_tick -i avg) *i lots) |>
    <| po_cost_basis_tick := if qty =? 0 then 0 else basis |>
    <| po_avg_cost_tick := if qty =? 0 then 0 else Z.quot basis qty |>.

(** [engine/paper/ledger/PositionLedger.cpp:46-80] apply_sell. *)
Definition apply_sell (asset_id : string) (asset_index lots price_tick : Z) (ps : Positions)
    : Positions * PositionLedgerApplyResult :=
  if String.eqb asset_id "" || (lots <=? 0) || (price_tick <? 0) then
    (ps, mkPositionLedgerApplyResult false PlInvalidFill 0)
  else
    match ps !! asset_id with
    | None => (ps, mkPositionLedgerApplyResult false PlInsufficientPosition 0)
    | Some p =>
        if po_qty_lots p <? lots then (ps, mkPositionLedgerApplyResult false PlInsufficientPosition 0)
        else
          (<[asset_id := sell_position asset_index lots price_tick p]> ps,
           mkPositionLedgerApplyResult true PlApplied ((price_tick -i po_avg_cost_tick p) *i lots))
    end.

(** [engine/paper/ledger/PositionLedger.cpp:5-20] PositionLedger::apply_fill. *)
Definition position_apply_fill (ps : Positions) (fill : PositionFill) : Positions * PositionLedgerApplyResult :=
  if bool_decide (pf_side fill = OsSell) then (ps, mkPositionLedgerApplyResult false PlUnsupportedSell 0)
  else if String.eqb (pf_asset_id fill) "" || (pf_qty_lots fill <=? 0) || (pf_price_tick fill <? 0) then
    (ps, mkPositionLedgerApplyResult false PlInvalidFill 0)
  else
    (apply_buy (pf_asset_id fill) (pf_asset_index fill) (pf_qty_lots fill) (pf_qty_lots fill *i pf_price_tick fill) ps,
     mkPositionLedgerApplyResult true PlApplied 0).

(** [engine/paper/ledger/PositionLedger.cpp:82-93] mark_mid. *)
Definition mark_mid (asset_id : string) (mid_tick : Z) (ps : Positions) : Positions :=
  alter (λ p, p <| po_unrealized_pnl_mid_tick := (mid_tick -i po_avg_cost_tick p) *i po_qty_lots p |>) asset_id ps.

(** [engine/paper/ledger/PositionLedger.cpp:95-106] mark_liquidation. *)
Definition mark_liquidation (asset_id : string) (liquidation_tick : Z) (ps : Positions) : Positions :=
  alter (λ p, p <| po_unrealized_pnl_liquidation_tick :=
                     (liquidation_tick -i po_avg_cost_tick p) *i po_qty_lots p |>) asset_id ps.

(** [engine/paper/ledger/PositionLedger.cpp:116-119] lots. *)
Definition position_lots (ps : Positions) (asset_id : string) : Z := default 0 (po_qty_lots <$> ps !! asset_id).

(** [engine/paper/ledger/PositionLedger.cpp:121-124] cost_basis_tick. *)
Definition position_cost_basis_tick (ps : Positions) (asset_id : string) : Z :=
  default 0 (po_cost_basis_tick <$> ps !! asset_id).

(** [engine/paper/ledger/PositionLedger.cpp:126-129] avg_cost_tick. *)
Definition position_avg_cost_tick (ps : Positions) (asset_id : string) : Z :=
  default 0 (po_avg_cost_tick <$> ps !! asset_id).

(** [engine/paper/portfolio/ExposureView.h:8-14] ExposureView. *)
Record ExposureView := mkExposureView {
  ev_asset_count : nat;
  ev_total_qty_lots : Z;
  ev_gross_cost_basis_tick : Z;
  ev_unrealized_pnl_mid_tick : Z;
  ev_unrealized_pnl_liquidation_tick : Z
}.

(** [engine/paper/ledger/PositionLedger.cpp:135-146] exposure. *)
Definition exposure (ps : Positions) : ExposureView :=
  let total f := foldl (λ sum p, sum +i f p) 0 (map_to_list ps).*2 in
  mkExposureView (size ps) (total po_qty_lots) (total po_cost_basis_tick) (total po_unrealized_pnl_mid_tick)
    (total po_unrealized_pnl_liquidation_tick).

(** ** Fills *)

(** [engine/paper/ledger/FillApplication.h:11-23] FillApplication. *)
Record FillApplication := mkFillApplication {
  fa_report : ExecutionReport;
  fa_execution_report_id : Z;
  fa_market_id : string;
  fa_asset_id : string;
  fa_asset_index : Z;
  fa_side : OrderSide;
  fa_fee_tick : Z
}.
Definition fill_application0 : FillApplication := mkFillApplication report0 0 "" "" 0 OsBuy 0.

(** The value of an order status in [std::uint8_t]. *)
Definition child_status_code (status : ChildOrderStatus) : Z :=
  match status with
  | CsCreated => 0 | CsPlanned => 1 | CsSent => 2 | CsAcked => 3 | CsPartiallyFilled => 4 | CsFilled => 5
  | CsCancelRequested => 6 | CsCancelled => 7 | CsFailed => 8 | CsExpired => 9
  end.

(** [engine/paper/ledger/FillApplication.cpp:19-32] derive_execution_report_id. *)
Definition derive_execution_report_id (fill : FillApplication) : Z :=
  if negb (fa_execution_report_id fill =? 0) then fa_execution_report_id fill
  else
    let r := fa_report fill in
    foldl mix_u64 fnv_offset_paper
      [er_plan_id r; er_child_order_id r; er_event_ts_ns r; child_status_code (er_status r);
       wrap_u64 (er_filled_lots r); wrap_u64 (er_avg_fill_price_tick r)].

(** [engine/execution/public/MakerExecutionTypes.h:34-38] FillLiquidityRole. *)
Inductive FillLiquidityRole := FlMaker | FlTaker | FlUnknown.
#[export] Instance FillLiquidityRole_eq_dec : EqDecision FillLiquidityRole.
Proof. solve_decision. Defined.

(** [engine/paper/public/PaperFill.h:14-39] PaperFill. *)
Record PaperFill := mkPaperFill {
  pp_fill_id : Z;
  pp_report_id : Z;
  pp_plan_id : Z;
  pp_order_id : Z;
  pp_quote_id : Z;
  pp_approved_quote_id : Z;
  pp_quote_group_id : Z;
  pp_asset_index : Z;
  pp_asset_id : string;
  pp_side : OrderSide;
  pp_liquidity_role : FillLiquidityRole;
  pp_qty_lots : Z;
  pp_fill_price_tick : Z;
  pp_fee_tick : Z;
  pp_ts_ns : Z;
  pp_idempotency_hash : Z
}.
Definition paper_fill0 : PaperFill := mkPaperFill 0 0 0 0 0 0 0 0 "" OsBuy FlUnknown 0 0 0 0 0.

Definition order_side_code (side : OrderSide) : Z := match side with OsBuy => 0 | OsSell => 1 end.
Definition liquidity_role_code (role : FillLiquidityRole) : Z :=
  match role with FlMaker => 0 | FlTaker => 1 | FlUnknown => 2 end.

(** [engine/paper/ledger/MakerFillApplication.cpp:48-65] compute_paper_fill_hash. *)
Definition compute_paper_fill_hash (fill : PaperFill) : Z :=
  let hash := foldl mix_u64 fnv_offset
    [pp_report_id fill; pp_plan_id fill; pp_order_id fill; pp_quote_id fill; pp_approved_quote_id fill;
     pp_quote_group_id fill; pp_asset_index fill] in
  let hash := mix_string hash (pp_asset_id fill) in
  nonzero_hash (foldl mix_u64 hash
    [order_side_code (pp_side fill); liquidity_role_code (pp_liquidity_role fill);
     wrap_u64 (pp_qty_lots fill); wrap_u64 (pp_fill_price_tick fill); wrap_u64 (pp_fee_tick fill); pp_ts_ns fill]).

(** [engine/execution/public/MakerExecutionTypes.h:22-32] MakerQuoteStatus. *)
Inductive MakerQuoteStatus :=
| MqCreated | MqActivePaper | MqPartiallyFilled | MqFilled | MqCancelRequested | MqCancelled | MqExpired
| MqReplaced | MqFailed.
#[export] Instance MakerQuoteStatus_eq_dec : EqDecision MakerQuoteStatus.
Proof. solve_decision. Defined.

(** [engine/execution/public/MakerExecutionTypes.h:66-88] MakerExecutionReport. *)
Record MakerExecutionReport := mkMakerExecutionReport {
  mr_report_id : Z;
  mr_quote_id : Z;
  mr_approved_quote_id : Z;
  mr_quote_group_id : Z;
  mr_asset_index : Z;
  mr_asset_id : string;
  mr_side : QuoteSide;
  mr_status : MakerQuoteStatus;
  mr_liquidity_role : FillLiquidityRole;
  mr_filled_qty_lots : Z;
  mr_avg_fill_price_tick : Z;
  mr_remaining_qty_lots : Z;
  mr_exchange_ts_ns : Z;
  mr_recv_ts_ns : Z;
  mr_reason : string
}.

Definition maker_status_code (status : MakerQuoteStatus) : Z :=
  match status with
  | MqCreated => 0 | MqActivePaper => 1 | MqPartiallyFilled => 2 | MqFilled => 3 | MqCancelRequested => 4
  | MqCancelled => 5 | MqExpired => 6 | MqReplaced => 7 | MqFailed => 8
  end.

(** [engine/execution/public/MakerExecutionTypes.cpp:33-50] compute_maker_execution_report_hash. *)
Definition compute_maker_execution_report_hash (report : MakerExecutionReport) : Z :=
  nonzero_hash (foldl mix_u64 fnv_offset
    [mr_quote_id report; mr_approved_quote_id report; mr_quote_group_id report; mr_asset_index report;
     quote_side_code (mr_side report); maker_status_code (mr_status report);
     liquidity_role_code (mr_liquidity_role report); wrap_u64 (mr_filled_qty_lots report);
     wrap_u64 (mr_avg_fill_price_tick report); wrap_u64 (mr_remaining_qty_lots report);
     mr_exchange_ts_ns report; mr_recv_ts_ns report]).

(** [engine/paper/ledger/MakerFillApplication.cpp:30-36] is_filled_maker_status. *)
Definition is_filled_maker_status (status : MakerQuoteStatus) : bool :=
  match status with MqFilled | MqPartiallyFilled => true | _ => false end.

(** The time a maker report is booked at. *)
Definition maker_report_ts (report : MakerExecutionReport) : Z :=
  if negb (mr_recv_ts_ns report =? 0) then mr_recv_ts_ns report else mr_exchange_ts_ns report.

(** [engine/paper/ledger/MakerFillApplication.cpp:67-105] MakerFillApplication::from_report: the fill or the reason. *)
Definition maker_from_report (report : MakerExecutionReport) (fee_tick : Z) : string + PaperFill :=
  if negb (bool_decide (mr_liquidity_role report = FlMaker)) then inl "report is not maker liquidity"%string
  else if negb (is_filled_maker_status (mr_status report)) || (mr_filled_qty_lots report <=? 0) then
    inl "maker report has no filled quantity"%string
  else if (mr_avg_fill_price_tick report <? 0) || (fee_tick <? 0) || String.eqb (mr_asset_id report) "" then
    inl "invalid maker fill report"%string
  else
    let fill := paper_fill0
      <| pp_report_id := if negb (mr_report_id report =? 0) then mr_report_id report
                         else compute_maker_execution_report_hash report |>
      <| pp_quote_id := mr_quote_id report |>
      <| pp_approved_quote_id := mr_approved_quote_id report |>
      <| pp_quote_group_id := mr_quote_group_id report |>
      <| pp_asset_index := mr_asset_index report |>
      <| pp_asset_id := mr_asset_id report |>
      <| pp_side := match mr_side report with QsAsk => OsSell | QsBid => OsBuy end |>
      <| pp_liquidity_role := FlMaker |>
      <| pp_qty_lots := mr_filled_qty_lots report |>
      <| pp_fill_price_tick := mr_avg_fill_price_tick report |>
      <| pp_fee_tick := fee_tick |>
      <| pp_ts_ns := maker_report_ts report |> in
    let hash := compute_paper_fill_hash fill in
    inr (fill <| pp_idempotency_hash := hash |> <| pp_fill_id := hash |>).

(** ** The ledger *)

(** [engine/paper/ledger/CashLedger.h:7-13] CashLedger. *)
Record CashLedger := mkCashLedger {
  ca_starting_cash_tick : Z;
  ca_cash_tick : Z;
  ca_reserved_cash_tick : Z;
  ca_realized_pnl_tick : Z;
  ca_fees_paid_tick : Z
}.

(** [engine/paper/ledger/PaperLedger.h:17-27] PaperLedgerApplyStatus. *)
Inductive PaperLedgerApplyStatus :=
| LsApplied | LsDuplicateExecutionReport | LsIgnoredNonFill | LsUnsupportedSell | LsInvalidFill
| LsDuplicateIgnored | LsRejectedInvalidFill | LsRejectedUnsupportedSide | LsRejectedInsufficientPosition.
#[export] Instance PaperLedgerApplyStatus_eq_dec : EqDecision PaperLedgerApplyStatus.
Proof. solve_decision. Defined.

(** [engine/paper/ledger/PaperLedger.h:29-35] PaperLedgerSnapshot. *)
Record PaperLedgerSnapshot := mkPaperLedgerSnapshot {
  ls_cash : CashLedger;
  ls_applied_execution_report_count : nat;
  ls_applied_fill_count : nat;
  ls_maker_fill_count : Z;
  ls_position_count : nat
}.

(** [engine/paper/ledger/PaperLedger.h:37-43] PaperLedgerApplyResult. *)
Record PaperLedgerApplyResult := mkPaperLedgerApplyResult {
  la_applied : bool;
  la_status : PaperLedgerApplyStatus;
  la_fill_id : Z;
  la_reason : string;
  la_snapshot : PaperLedgerSnapshot
}.

(** [engine/paper/ledger/PaperLedger.h:45-66] PaperLedger. *)
Record PaperLedger := mkPaperLedger {
  lg_cash : CashLedger;
  lg_positions : Positions;
  lg_applied_execution_report_ids : gset Z;
  lg_applied_fill_ids : gset Z;
  lg_applied_maker_report_ids : gset Z;
  lg_maker_fill_count : Z
}.

(** [engine/paper/ledger/PaperLedger.cpp:17-20] PaperLedger::PaperLedger. *)
Definition new_paper_ledger (starting_cash_tick : Z) : PaperLedger :=
  mkPaperLedger (mkCashLedger starting_cash_tick starting_cash_tick 0 0 0) ∅ ∅ ∅ ∅ 0.

(** [engine/paper/ledger/PaperLedger.cpp:198-206] snapshot. *)
Definition ledger_snapshot (l : PaperLedger) : PaperLedgerSnapshot :=
  mkPaperLedgerSnapshot (lg_cash l) (size (lg_applied_execution_report_ids l)) (size (lg_applied_fill_ids l))
    (lg_maker_fill_count l) (size (lg_positions l)).

(** The result of a fill that is not applied, and of one that is. *)
Definition not_applied (l : PaperLedger) (status : PaperLedgerApplyStatus) (fill_id : Z) (reason : string)
    : PaperLedger * PaperLedgerApplyResult :=
  (l, mkPaperLedgerApplyResult false status fill_id reason (ledger_snapshot l)).
Definition is_applied (l : PaperLedger) (fill_id : Z) : PaperLedger * PaperLedgerApplyResult :=
  (l, mkPaperLedgerApplyResult true LsApplied fill_id "" (ledger_snapshot l)).

(** [engine/paper/ledger/PaperLedger.cpp:7-13] is_fill_status. *)
Definition is_fill_status (status : ChildOrderStatus) : bool :=
  bool_decide (status = CsFilled) || bool_decide (status = CsPartiallyFilled).

(** A purchase in the cash account: the gross cost and the fee. *)
Definition cash_buy (gross fee : Z) (c : CashLedger) : CashLedger :=
  c <| ca_cash_tick ::= λ x, x -i (gross +i fee) |> <| ca_fees_paid_tick ::= λ x, x +i fee |>.

(** A sale in the cash account. *)
Definition cash_sell (gross fee realized : Z) (c : CashLedger) : CashLedger :=
  c <| ca_cash_tick ::= λ x, x +i (gross -i fee) |>
    <| ca_realized_pnl_tick ::= λ x, x +i (realized -i fee) |>
    <| ca_fees_paid_tick ::= λ x, x +i fee |>.

(** [engine/paper/ledger/PaperLedger.cpp:22-100] apply_fill of an execution report. *)
Definition apply_execution_fill (l : PaperLedger) (fill : FillApplication) : PaperLedger * PaperLedgerApplyResult :=
  let report := fa_report fill in
  let id := derive_execution_report_id fill in
  let record l := l <| lg_applied_execution_report_ids ::= λ ids, {[id]} ∪ ids |> in
  if id =? 0 then not_applied l LsInvalidFill 0 "missing execution report id"
  else if bool_decide (id ∈ lg_applied_execution_report_ids l) then
    not_applied l LsDuplicateExecutionReport id "duplicate execution report"
  else if negb (is_fill_status (er_status report)) || (er_filled_lots report =? 0) then
    not_applied (record l) LsIgnoredNonFill id "execution report has no fill"
  else if (er_filled_lots report <? 0) || (er_avg_fill_price_tick report <? 0) || (fa_fee_tick fill <? 0) ||
          String.eqb (fa_asset_id fill) "" then
    not_applied l LsInvalidFill id "invalid execution fill"
  else
    let gross := er_filled_lots report *i er_avg_fill_price_tick report in
    if bool_decide (fa_side fill = OsSell) then
      not_applied l LsUnsupportedSell id "sell fills are unsupported for execution reports"
    else
      is_applied (record (l
        <| lg_cash ::= cash_buy gross (fa_fee_tick fill) |>
        <| lg_positions ::= apply_buy (fa_asset_id fill) (fa_asset_index fill) (er_filled_lots report) gross |>)) id.

(** [engine/paper/ledger/PaperLedger.cpp:103-111] apply_fill of a paper fill: what makes it invalid. *)
Definition paper_fill_invalid (fill : PaperFill) : bool :=
  (pp_fill_id fill =? 0) || (pp_qty_lots fill <=? 0) || (pp_fill_price_tick fill <? 0) || (pp_fee_tick fill <? 0) ||
  String.eqb (pp_asset_id fill) "" ||
  negb (bool_decide (pp_liquidity_role fill = FlMaker) || bool_decide (pp_liquidity_role fill = FlTaker)).

(** [engine/paper/ledger/PaperLedger.cpp:121-123] apply_fill of a paper fill: what makes it a duplicate. *)
Definition paper_fill_duplicate (l : PaperLedger) (fill : PaperFill) : bool :=
  bool_decide (pp_fill_id fill ∈ lg_applied_fill_ids l) ||
  (negb (pp_report_id fill =? 0) && bool_decide (pp_report_id fill ∈ lg_applied_maker_report_ids l)).

(** [engine/paper/ledger/PaperLedger.cpp:181-187] apply_fill of a paper fill: remember it. *)
Definition record_paper_fill (fill : PaperFill) (l : PaperLedger) : PaperLedger :=
  l <| lg_applied_fill_ids ::= λ ids, {[pp_fill_id fill]} ∪ ids |>
    <| lg_applied_maker_report_ids ::= λ ids, if negb (pp_report_id fill =? 0) then {[pp_report_id fill]} ∪ ids else ids |>
    <| lg_maker_fill_count ::= λ n, if bool_decide (pp_liquidity_role fill = FlMaker) then wrap_u64 (n + 1) else n |>.

(** [engine/paper/ledger/PaperLedger.cpp:102-196] apply_fill of a paper fill; its last branch needs a side that is neither. *)
Definition apply_paper_fill (l : PaperLedger) (fill : PaperFill) : PaperLedger * PaperLedgerApplyResult :=
  let id := pp_fill_id fill in
  if paper_fill_invalid fill then not_applied l LsRejectedInvalidFill id "invalid paper fill"
  else if paper_fill_duplicate l fill then not_applied l LsDuplicateIgnored id "duplicate paper fill"
  else
    let gross := pp_qty_lots fill *i pp_fill_price_tick fill in
    match pp_side fill with
    | OsBuy =>
        is_applied (record_paper_fill fill (l
          <| lg_cash ::= cash_buy gross (pp_fee_tick fill) |>
          <| lg_positions ::= apply_buy (pp_asset_id fill) (pp_asset_index fill) (pp_qty_lots fill) gross |>)) id
    | OsSell =>
        let '(positions, sold) :=
          apply_sell (pp_asset_id fill) (pp_asset_index fill) (pp_qty_lots fill) (pp_fill_price_tick fill)
            (lg_positions l) in
        if negb (pr_applied sold) then
          not_applied l
            (if bool_decide (pr_status sold = PlInsufficientPosition) then LsRejectedInsufficientPosition
             else LsRejectedInvalidFill)
            id "paper sell exceeds current position"
        else
          is_applied (record_paper_fill fill (l
            <| lg_cash ::= cash_sell gross (pp_fee_tick fill) (pr_realized_pnl_tick sold) |>
            <| lg_positions := positions |>)) id
    end.

(** [engine/paper/public/PaperAccount.h:8-19] PaperAccount. *)
Record PaperAccount := mkPaperAccount {
  ac_account_id : string;
  ac_starting_cash_tick : Z;
  ac_cash_balance_tick : Z;
  ac_reserved_cash_tick : Z;
  ac_realized_pnl_tick : Z;
  ac_unrealized_pnl_tick : Z;
  ac_version : Z;
  ac_updated_ts_ns : Z
}.

(** [engine/paper/ledger/PaperLedger.cpp:216-223] account_snapshot. *)
Definition account_snapshot (l : PaperLedger) : PaperAccount :=
  let c := lg_cash l in
  mkPaperAccount "" (ca_starting_cash_tick c) (ca_cash_tick c) (ca_reserved_cash_tick c) (ca_realized_pnl_tick c) 0 0 0.

(** [engine/paper/public/PaperPnL.h:7-16] PaperPnL. *)
Record PaperPnL := mkPaperPnL {
  pn_realized_pnl_tick : Z;
  pn_unrealized_pnl_tick : Z;
  pn_mark_to_market_pnl_tick : Z;
  pn_fees_tick : Z;
  pn_slippage_tick : Z;
  pn_version : Z;
  pn_updated_ts_ns : Z
}.

(** [engine/paper/ledger/PaperLedger.cpp:225-230] pnl_snapshot. *)
Definition pnl_snapshot (l : PaperLedger) : PaperPnL :=
  mkPaperPnL (ca_realized_pnl_tick (lg_cash l)) 0 0 (ca_fees_paid_tick (lg_cash l)) 0 0 0.

(** [engine/paper/portfolio/PaperPortfolio.cpp:5-13] PaperPortfolio::apply_fill. *)
Definition portfolio_apply_fill (ps : Positions) (fill : FillApplication) : Positions * PositionLedgerApplyResult :=
  position_apply_fill ps
    (mkPositionFill (fa_asset_id fill) (fa_asset_index fill) (fa_side fill) (er_filled_lots (fa_report fill))
      (er_avg_fill_price_tick (fa_report fill))).

(** ** The event adapter *)

(** [engine/paper/public/PaperTypes.h:13-25] PaperEventType. *)
Inductive PaperEventType :=
| PtOpportunityIntentObserved | PtRiskDecisionObserved | PtQuoteIntentObserved | PtQuoteRiskDecisionObserved
| PtApprovedIntentObserved | PtApprovedQuoteObserved | PtOrderPlanCreated | PtExecutionReportObserved
| PtReservationDispositionObserved | PtMarkPriceUpdated | PtRegimeUpdated.

(** [engine/paper/public/PaperEvent.h:9-13] PaperEvent. *)
Record PaperEvent := mkPaperEvent {
  pv_seq_no : Z;
  pv_ts_ns : Z;
  pv_type : PaperEventType
}.

(** [engine/paper/ledger/PaperEventAdapter.h:23-31] PaperEventAdapterResult; a fill that is not there is [None]. *)
Record PaperEventAdapterResult := mkPaperEventAdapterResult {
  pa_event : PaperEvent;
  pa_fill : option FillApplication;
  pa_paper_fill : option PaperFill
}.

(** [engine/paper/ledger/PaperEventAdapter.h:33-93] PaperEventAdapter. *)
Record PaperEventAdapter := mkPaperEventAdapter {
  pd_next_seq_no : Z;
  pd_child_orders : gmap Z ChildOrder
}.
Definition paper_event_adapter0 : PaperEventAdapter := mkPaperEventAdapter 1 ∅.

(** [engine/paper/ledger/PaperEventAdapter.cpp:181-195] child_key. *)
Definition child_key (plan_id child_order_id : Z) : Z := mix_u64 (mix_u64 fnv_offset_paper plan_id) child_order_id.

(** [engine/paper/ledger/PaperEventAdapter.cpp:170-179] make_event. *)
Definition make_event (a : PaperEventAdapter) (type : PaperEventType) (ts_ns : Z) : PaperEventAdapter * PaperEvent :=
  (a <| pd_next_seq_no ::= λ n, wrap_u64 (n + 1) |>, mkPaperEvent (pd_next_seq_no a) ts_ns type).

(** [engine/paper/ledger/PaperEventAdapter.cpp:18-79] observe: the events that carry a time and no fill. *)
Definition observe_event (a : PaperEventAdapter) (type : PaperEventType) (ts_ns : Z)
    : PaperEventAdapter * PaperEventAdapterResult :=
  let '(a, event) := make_event a type ts_ns in
  (a, mkPaperEventAdapterResult event None None).

(** [engine/paper/ledger/PaperEventAdapter.cpp:81-94] observe of a plan. *)
Definition observe_plan (a : PaperEventAdapter) (plan : OrderPlan) : PaperEventAdapter * PaperEventAdapterResult :=
  observe_event
    (a <| pd_child_orders ::= λ m,
       foldl (λ m o, <[child_key (op_plan_id plan) (co_order_id o) := o]> m) m (plan_orders plan) |>)
    PtOrderPlanCreated (op_created_ts_ns plan).

(** [engine/paper/ledger/PaperEventAdapter.cpp:105-127] observe of a report: the fill it stands for. *)
Definition fill_of_report (orders : gmap Z ChildOrder) (report : ExecutionReport) : option FillApplication :=
  if negb (is_fill_status (er_status report)) || (er_filled_lots report <=? 0) then None
  else
    match orders !! child_key (er_plan_id report) (er_child_order_id report) with
    | None => None
    | Some order =>
        if String.eqb (co_asset_id order) "" then None
        else Some (mkFillApplication report 0 (co_market_id order) (co_asset_id order) (co_asset_index order)
                     (co_side order) 0)
    end.

(** [engine/paper/ledger/PaperEventAdapter.cpp:96-128] observe of an execution report. *)
Definition observe_report (a : PaperEventAdapter) (report : ExecutionReport)
    : PaperEventAdapter * PaperEventAdapterResult :=
  let '(a, event) := make_event a PtExecutionReportObserved (er_event_ts_ns report) in
  (a, mkPaperEventAdapterResult event (fill_of_report (pd_child_orders a) report) None).

(** [engine/paper/ledger/PaperEventAdapter.cpp:130-146] observe of a maker report. *)
Definition observe_maker_report (a : PaperEventAdapter) (report : MakerExecutionReport)
    : PaperEventAdapter * PaperEventAdapterResult :=
  let '(a, event) := make_event a PtExecutionReportObserved (maker_report_ts report) in
  (a, mkPaperEventAdapterResult event None
        (match maker_from_report report 0 with inl _ => None | inr fill => Some fill end)).

(** ** Every fill at most once *)

(** A fill of either kind, and the ledger's answer to it. *)
Inductive ledger_event := EvExecution (fill : FillApplication) | EvPaper (fill : PaperFill).

Definition apply_event (l : PaperLedger) (e : ledger_event) : PaperLedger * PaperLedgerApplyResult :=
  match e with
  | EvExecution fill => apply_execution_fill l fill
  | EvPaper fill => apply_paper_fill l fill
  end.
Definition ledger_run (l : PaperLedger) (events : list ledger_event) : PaperLedger :=
  foldl (λ l e, (apply_event l e).1) l events.

(** The ledger has seen an event: its id is among those it remembers. *)
Definition remembers (l : PaperLedger) (e : ledger_event) : Prop :=
  match e with
  | EvExecution fill => derive_execution_report_id fill ∈ lg_applied_execution_report_ids l
  | EvPaper fill => pp_fill_id fill ∈ lg_applied_fill_ids l
  end.

Definition ids_grow (l1 l2 : PaperLedger) : Prop :=
  lg_applied_execution_report_ids l1 ⊆ lg_applied_execution_report_ids l2 ∧
  lg_applied_fill_ids l1 ⊆ lg_applied_fill_ids l2.

(** The three ways an event can end. *)
Lemma apply_execution_cases l fill :
  let '(l1, result) := apply_execution_fill l fill in
  let report := fa_report fill in
  let id := derive_execution_report_id fill in
  (la_applied result = false ∧ l1 = l) ∨
  (la_status result = LsIgnoredNonFill ∧ la_applied result = false ∧
   l1 = (l <| lg_applied_execution_report_ids ::= λ ids, {[id]} ∪ ids |>)) ∨
  (la_applied result = true ∧ (id ∉ lg_applied_execution_report_ids l) ∧
   0 < er_filled_lots report ∧ 0 <= er_avg_fill_price_tick report ∧ 0 <= fa_fee_tick fill ∧
   fa_asset_id fill ≠ ""%string ∧ fa_side fill = OsBuy ∧
   l1 = (l <| lg_cash ::= cash_buy (er_filled_lots report *i er_avg_fill_price_tick report) (fa_fee_tick fill) |>
           <| lg_positions ::= apply_buy (fa_asset_id fill) (fa_asset_index fill) (er_filled_lots report)
                                 (er_filled_lots report *i er_avg_fill_price_tick report) |>)
         <| lg_applied_execution_report_ids ::= λ ids, {[id]} ∪ ids |>).
Proof.
  unfold apply_execution_fill. cbv zeta. generalize (derive_execution_report_id fill); intros id.
  destruct (id =? 0); [by left|]. case_bool_decide as Hin; [by left|].
  destruct (negb _ || _) eqn:H1; [by right; left|].
  destruct (_ || _ || _ || _) eqn:H2; [by left|].
  case_bool_decide as Hs; [by left|]. right; right. breflect.
  split_and!; try done; try lia. by destruct (fa_side fill).
Qed.

Lemma apply_paper_cases l fill :
  let '(l1, result) := apply_paper_fill l fill in
  let gross := pp_qty_lots fill *i pp_fill_price_tick fill in
  (la_applied result = false ∧ l1 = l) ∨
  (la_applied result = true ∧ (pp_fill_id fill ∉ lg_applied_fill_ids l) ∧
   0 < pp_qty_lots fill ∧ 0 <= pp_fill_price_tick fill ∧ 0 <= pp_fee_tick fill ∧ pp_asset_id fill ≠ ""%string ∧
   ((pp_side fill = OsBuy ∧
     l1 = record_paper_fill fill (l <| lg_cash ::= cash_buy gross (pp_fee_tick fill) |>
            <| lg_positions ::= apply_buy (pp_asset_id fill) (pp_asset_index fill) (pp_qty_lots fill) gross |>)) ∨
    (pp_side fill = OsSell ∧ ∃ p, lg_positions l !! pp_asset_id fill = Some p ∧ pp_qty_lots fill <= po_qty_lots p ∧
     l1 = record_paper_fill fill (l
            <| lg_cash ::= cash_sell gross (pp_fee_tick fill)
                 ((pp_fill_price_tick fill -i po_avg_cost_tick p) *i pp_qty_lots fill) |>
            <| lg_positions ::= <[pp_asset_id fill :=
                 sell_position (pp_asset_index fill) (pp_qty_lots fill) (pp_fill_price_tick fill) p]> |>)))).
Proof.
  unfold apply_paper_fill. cbv zeta. destruct (paper_fill_invalid fill) eqn:H1; [by left|].
  destruct (paper_fill_duplicate l fill) eqn:H2; [by left|].
  unfold paper_fill_invalid in H1. unfold paper_fill_duplicate in H2. breflect.
  destruct (pp_side fill) eqn:Hs; [right; split_and!; try done; try lia; by left|].
  unfold apply_sell. step_if; [by left|]. destruct (lg_positions l !! pp_asset_id fill) as [p|] eqn:Hp; [|by left].
  destruct (Z.ltb_spec (po_qty_lots p) (pp_qty_lots fill)); [by left|]. right; cbn [pr_applied negb].
  split_and!; try done; try lia. right. split; [done|]. exists p. by split_and!.
Qed.

Lemma record_paper_fill_fields fill l :
  let l1 := record_paper_fill fill l in
  lg_cash l1 = lg_cash l ∧ lg_positions l1 = lg_positions l ∧
  lg_applied_execution_report_ids l1 = lg_applied_execution_report_ids l ∧
  lg_applied_fill_ids l1 = {[pp_fill_id fill]} ∪ lg_applied_fill_ids l.
Proof. by destruct l. Qed.

(** One event: an applied one was new and is remembered, a refused one leaves
    cash and positions alone, and no id is ever forgotten. *)
Lemma apply_event_remembers l e :
  let '(l1, result) := apply_event l e in
  ids_grow l l1 ∧
  (la_applied result = true → ¬ remembers l e ∧ remembers l1 e) ∧
  (la_applied result = false → lg_cash l1 = lg_cash l ∧ lg_positions l1 = lg_positions l).
Proof.
  unfold ids_grow. destruct e as [fill|fill]; cbn [apply_event remembers].
  - pose proof (apply_execution_cases l fill) as H. destruct (apply_execution_fill l fill) as [l1 result]. cbv zeta in H.
    revert H. generalize (derive_execution_report_id fill). intros id [(-> & ->)|[(_ & -> & ->)|(-> & Hid & _ & _ & _ & _ & _ & ->)]];
      destruct l; cbn; (split_and!; [set_solver..| |]); try done; intros; set_solver.
  - pose proof (apply_paper_cases l fill) as H. destruct (apply_paper_fill l fill) as [l1 result]. cbv zeta in H.
    destruct H as [(-> & ->)|(-> & Hid & _ & _ & _ & _ & [(_ & ->)|(_ & p & _ & _ & ->)])]; [by split_and!| |];
      match goal with |- context [record_paper_fill fill ?x] =>
        destruct (record_paper_fill_fields fill x) as (Hc & Hp & -> & ->) end;
      destruct l; cbn; (split_and!; [set_solver..| |]); try done; intros; set_solver.
Qed.

Lemma ids_grow_run l events : ids_grow l (ledger_run l events).
Proof.
  revert l; induction events as [|e events IH]; intros l; [done|]. cbn.
  pose proof (apply_event_remembers l e) as H. destruct (apply_event l e) as [l1 r]. destruct H as ([H1 H2] & _).
  destruct (IH l1) as [H3 H4]. split; cbn [fst]; etransitivity; eauto.
Qed.

(** A remembered event is refused, and changes nothing. *)
Lemma remembered_refused l e :
  remembers l e → let '(l1, result) := apply_event l e in l1 = l ∧ la_applied result = false.
Proof.
  destruct e as [fill|fill]; cbn [apply_event remembers]; intros Hin.
  - unfold apply_execution_fill. revert Hin. generalize (derive_execution_report_id fill). intros id Hin. cbv zeta.
    destruct (id =? 0); [done|]. by rewrite bool_decide_true by done.
  - unfold apply_paper_fill. cbv zeta. destruct (paper_fill_invalid fill); [done|].
    unfold paper_fill_duplicate. by rewrite bool_decide_true by done.
Qed.

(** Every fill counts at most once: when the ledger applies a fill, then after
    any further events the same fill is refused and the ledger stays as it is;
    and a fill the ledger does not apply leaves its cash and its positions
    exactly as they were. *)
Theorem fills_applied_once l e events :
  let '(l1, result) := apply_event l e in
  (la_applied result = true →
     let l2 := ledger_run l1 events in
     (apply_event l2 e).1 = l2 ∧ la_applied (apply_event l2 e).2 = false) ∧
  (la_applied result = false → lg_cash l1 = lg_cash l ∧ lg_positions l1 = lg_positions l).
Proof.
  pose proof (apply_event_remembers l e) as H. destruct (apply_event l e) as [l1 result].
  destruct H as (_ & Happ & Hno). split; [|done]. intros (_ & Hrem)%Happ. cbv zeta.
  destruct (ids_grow_run l1 events) as [G1 G2].
  pose proof (remembered_refused (ledger_run l1 events) e) as Href.
  destruct (apply_event (ledger_run l1 events) e) as [l3 r3]. apply Href.
  destruct e; cbn in *; set_solver.
Qed.

(** ** The books *)

(** The cost a sale leaves behind: closing a position clears its cost basis, of
    which only the average cost per lot went into the realized result. *)
Definition dropped_cost (lots : Z) (p : Position) : Z :=
  if po_qty_lots p -i lots =? 0 then po_cost_basis_tick p - po_avg_cost_tick p * lots else 0.

(** What an event pays in fees on a purchase, and what cost it drops. *)
Definition event_flow (l : PaperLedger) (e : ledger_event) : Z * Z :=
  if la_applied (apply_event l e).2 then
    match e with
    | EvExecution fill => (fa_fee_tick fill, 0)
    | EvPaper fill =>
        match pp_side fill with
        | OsBuy => (pp_fee_tick fill, 0)
        | OsSell => (0, dropped_cost (pp_qty_lots fill) (default position0 (lg_positions l !! pp_asset_id fill)))
        end
    end
  else (0, 0).
Fixpoint ledger_flows (l : PaperLedger) (events : list ledger_event) : Z * Z :=
  match events with
  | [] => (0, 0)
  | e :: rest =>
      let '(fee, dropped) := event_flow l e in
      let '(fees, drops) := ledger_flows (apply_event l e).1 rest in
      (fee + fees, dropped + drops)
  end.

(** The cost of everything held. *)
Definition book_value (l : PaperLedger) : Z := map_sum po_cost_basis_tick (lg_positions l).
Definition net_worth (l : PaperLedger) : Z :=
  ca_cash_tick (lg_cash l) + book_value l - ca_realized_pnl_tick (lg_cash l).

Lemma buy_book_value id index lots cost ps :
  map_sum po_cost_basis_tick (apply_buy id index lots cost ps) =m map_sum po_cost_basis_tick ps + cost.
Proof.
  unfold apply_buy. rewrite map_sum_insert. unfold buy_position.
  assert (default 0 (po_cost_basis_tick <$> ps !! id) = po_cost_basis_tick (default position0 (ps !! id))) as ->
    by (by destruct (ps !! id)).
  destruct (default position0 (ps !! id)) as [? ? ? ? basis ? ? ?]. cbn; unfold constant. eqm_ring.
Qed.

Lemma sell_book_value (id : string) index lots price (ps : Positions) p :
  ps !! id = Some p →
  map_sum po_cost_basis_tick (<[id := sell_position index lots price p]> ps) + dropped_cost lots p
    =m map_sum po_cost_basis_tick ps - po_avg_cost_tick p * lots.
Proof.
  intros Hp. rewrite map_sum_insert, Hp. unfold dropped_cost, sell_position.
  destruct p as [? ? qty avg basis ? ? ?]. cbn; unfold constant.
  destruct (qty -i lots =? 0); cbn; [apply eqm_eq; lia|]. eqm_ring.
Qed.

#[local] Arguments sell_position : simpl never.
#[local] Arguments apply_buy : simpl never.
#[local] Arguments dropped_cost : simpl never.
#[local] Arguments map_sum : simpl never.

Lemma net_worth_step l e :
  let '(fee, dropped) := event_flow l e in net_worth (apply_event l e).1 + fee + dropped =m net_worth l.
Proof.
  unfold event_flow, net_worth, book_value. destruct e as [fill|fill]; cbn [apply_event].
  - pose proof (apply_execution_cases l fill) as H. destruct (apply_execution_fill l fill) as [l1 result]. cbv zeta in H.
    revert H. generalize (derive_execution_report_id fill). cbn [fst snd].
    intros id [(-> & ->)|[(_ & -> & ->)|(-> & _ & _ & _ & _ & _ & _ & ->)]]; [apply eqm_eq; lia|destruct l; apply eqm_eq; cbn; lia|].
    destruct l as [[c0 c cr re fe] ps ? ? ? ?]. cbn. rewrite buy_book_value. eqm_ring.
  - pose proof (apply_paper_cases l fill) as H. destruct (apply_paper_fill l fill) as [l1 result]. cbv zeta in H. cbn [fst snd].
    destruct H as [(-> & ->)|(-> & _ & _ & _ & _ & _ & [(-> & ->)|(-> & p & Hp & _ & ->)])]; [apply eqm_eq; lia| |];
      match goal with |- context [record_paper_fill fill ?x] =>
        destruct (record_paper_fill_fields fill x) as (-> & -> & _) end;
      destruct l as [[c0 c cr re fe] ps ? ? ? ?]; cbn in *.
    + rewrite buy_book_value. eqm_ring.
    + rewrite Hp. cbn. pose proof (sell_book_value _ (pp_asset_index fill) (pp_qty_lots fill) (pp_fill_price_tick fill)
        ps p Hp) as Hs.
      set (b := map_sum _ (<[_ := _]> ps)) in *. set (drop := dropped_cost _ p) in *. clearbody b drop.
      transitivity (c + (pp_qty_lots fill * pp_fill_price_tick fill - pp_fee_tick fill) + (b + drop)
        - (re + ((pp_fill_price_tick fill - po_avg_cost_tick p) * pp_qty_lots fill - pp_fee_tick fill)));
        [eqm_ring|]. rewrite Hs. eqm_ring.
Qed.

(** C38. The books always balance: after any sequence of fills, in 64-bit arithmetic
    whatever overflows, the cash plus the cost of everything held equals the
    starting cash plus the realized result, less the fees of the purchases,
    which the realized result never sees, and less the cost that closing
    positions left behind. *)
Theorem paper_books_balance starting events :
  let l := ledger_run (new_paper_ledger starting) events in
  let '(buy_fees, dropped) := ledger_flows (new_paper_ledger starting) events in
  ca_cash_tick (lg_cash l) + book_value l =m
    starting + ca_realized_pnl_tick (lg_cash l) - buy_fees - dropped.
Proof.
  cbv zeta.
  assert (H : ∀ l, let '(f, d) := ledger_flows l events in net_worth (ledger_run l events) + f + d =m net_worth l).
  { induction events as [|e events IH]; intros l; cbn; [apply eqm_eq; lia|].
    pose proof (net_worth_step l e) as Hs. destruct (event_flow l e) as [f d].
    specialize (IH (apply_event l e).1). unfold ledger_run in IH. destruct (ledger_flows _ events) as [fs ds].
    rewrite <- Hs, <- IH. apply eqm_eq. lia. }
  specialize (H (new_paper_ledger starting)). destruct (ledger_flows _ events) as [f d].
  unfold net_worth at 2 in H. unfold book_value at 1 in H. cbn [new_paper_ledger lg_positions] in H.
  rewrite map_sum_empty in H. cbn in H. unfold net_worth in H.
  transitivity (ca_cash_tick (lg_cash (ledger_run (new_paper_ledger starting) events))
    + book_value (ledger_run (new_paper_ledger starting) events)
    - ca_realized_pnl_tick (lg_cash (ledger_run (new_paper_ledger starting) events)) + f + d
    + (ca_realized_pnl_tick (lg_cash (ledger_run (new_paper_ledger starting) events)) - f - d)); [apply eqm_eq; lia|].
  rewrite H. apply eqm_eq. lia.
Qed.

(** ** Positions within the range of 64 bits *)

(** The size of an event: its lots, and what they cost. *)
Definition event_lots (e : ledger_event) : Z :=
  Z.max 0 (match e with EvExecution fill => er_filled_lots (fa_report fill) | EvPaper fill => pp_qty_lots fill end).
Definition event_price (e : ledger_event) : Z :=
  Z.max 0 (match e with
           | EvExecution fill => er_avg_fill_price_tick (fa_report fill)
           | EvPaper fill => pp_fill_price_tick fill end).
Definition event_volume (e : ledger_event) : Z := event_lots e * (1 + event_price e).

(** A position that was bought for at most a volume: never short, never of
    negative cost, and its average cost is its cost per lot rounded down. *)
Record position_ok (volume : Z) (p : Position) : Prop := {
  pk_qty : 0 <= po_qty_lots p <= volume;
  pk_basis : 0 <= po_cost_basis_tick p <= volume;
  pk_closed : po_qty_lots p = 0 → po_cost_basis_tick p = 0 ∧ po_avg_cost_tick p = 0;
  pk_avg : 0 < po_qty_lots p → po_avg_cost_tick p = po_cost_basis_tick p / po_qty_lots p
}.

Lemma position_ok_avg volume p :
  position_ok volume p →
  0 <= po_avg_cost_tick p ∧ po_avg_cost_tick p * po_qty_lots p <= po_cost_basis_tick p ∧
  po_cost_basis_tick p - po_avg_cost_tick p * po_qty_lots p <= po_qty_lots p.
Proof.
  intros [Hq Hb Hc Ha]. destruct (decide (po_qty_lots p = 0)) as [Hz|Hz].
  - destruct (Hc Hz) as [-> ->]. rewrite Hz. lia.
  - rewrite (Ha ltac:(lia)). pose proof (Z.div_mod (po_cost_basis_tick p) (po_qty_lots p)).
    pose proof (Z.mod_pos_bound (po_cost_basis_tick p) (po_qty_lots p)).
    assert (0 <= po_cost_basis_tick p / po_qty_lots p) by (apply Z.div_pos; lia). lia.
Qed.

Lemma buy_position_ok volume id index lots price p :
  0 < lots → 0 <= price → volume + lots * (1 + price) <= i64_max → position_ok volume p →
  position_ok (volume + lots * (1 + price)) (buy_position id index lots (lots *i price) p).
Proof.
  intros Hl Hpr Hv [Hq Hb Hc Ha]. unfold buy_position.
  rewrite (wrap_i64_id (lots * price)) by (unfold in_i64; nia).
  rewrite !wrap_i64_id by (unfold in_i64; nia).
  destruct p as [? ? qty avg basis ? ? ?]; cbn in *; unfold constant.
  rewrite (proj2 (Z.ltb_lt 0 (qty + lots))) by lia.
  constructor; cbn; [nia|nia|lia|]. intros _. apply Z.quot_div_nonneg; nia.
Qed.

Lemma sell_position_ok volume index lots price p :
  0 < lots → lots <= po_qty_lots p → volume <= i64_max → position_ok volume p →
  position_ok volume (sell_position index lots price p) ∧ 0 <= dropped_cost lots p <= lots.
Proof.
  intros Hl Hle Hv Hok. pose proof (position_ok_avg _ _ Hok) as (Ha0 & Ha1 & Ha2). destruct Hok as [Hq Hb Hc Ha].
  assert (Hcost : 0 <= po_avg_cost_tick p * lots <= po_avg_cost_tick p * po_qty_lots p) by nia.
  unfold sell_position, dropped_cost.
  rewrite (wrap_i64_id (po_avg_cost_tick p * lots)) by (unfold in_i64; lia).
  rewrite (wrap_i64_id (po_qty_lots p - lots)), (wrap_i64_id (po_cost_basis_tick p - _)) by (unfold in_i64; lia).
  destruct p as [? ? qty avg basis ? ? ?]; cbn in *; unfold constant.
  destruct (Z.eqb_spec (qty - lots) 0) as [Hz|Hz].
  - assert (lots = qty) as -> by lia. split; [constructor; cbn; lia|lia].
  - split; [|lia]. constructor; cbn; [lia|lia|lia|]. intros _. apply Z.quot_div_nonneg; lia.
Qed.

Definition positions_ok (volume : Z) (ps : Positions) : Prop := map_Forall (λ _ p, position_ok volume p) ps.

Lemma position_ok_mono v1 v2 p : v1 <= v2 → position_ok v1 p → position_ok v2 p.
Proof. intros Hv [H1 H2 H3 H4]. constructor; try done; lia. Qed.

Lemma positions_ok_mono v1 v2 ps : v1 <= v2 → positions_ok v1 ps → positions_ok v2 ps.
Proof. intros Hv H id p Hp. eapply position_ok_mono; [done|]. by apply (H id). Qed.

Lemma buy_positions_ok volume id index lots price ps :
  0 < lots → 0 <= price → 0 <= volume → volume + lots * (1 + price) <= i64_max → positions_ok volume ps →
  positions_ok (volume + lots * (1 + price)) (apply_buy id index lots (lots *i price) ps).
Proof.
  intros Hl Hp Hv0 Hv H. apply map_Forall_insert_2.
  - apply buy_position_ok; try done. destruct (ps !! id) as [p|] eqn:E; [by apply (H id)|].
    constructor; cbn; lia.
  - apply (positions_ok_mono volume); [nia|done].
Qed.

Lemma event_volume_nonneg e : 0 <= event_volume e.
Proof. unfold event_volume, event_lots, event_price. nia. Qed.

Lemma positions_ok_step volume l e :
  0 <= volume → volume + event_volume e <= i64_max → positions_ok volume (lg_positions l) →
  positions_ok (volume + event_volume e) (lg_positions (apply_event l e).1) ∧ 0 <= (event_flow l e).2 <= event_lots e.
Proof.
  intros Hv0 Hv Hok. pose proof (event_volume_nonneg e) as Hve.
  assert (Hle : 0 <= event_lots e) by (unfold event_lots; lia).
  assert (Hsame : positions_ok (volume + event_volume e) (lg_positions l)) by (eapply positions_ok_mono; [|done]; lia).
  revert Hv Hve Hle Hsame. unfold event_flow, event_volume, event_lots, event_price.
  destruct e as [fill|fill]; cbn [apply_event]; intros Hv Hve Hle Hsame.
  - pose proof (apply_execution_cases l fill) as H. destruct (apply_execution_fill l fill) as [l1 result]. cbv zeta in H.
    revert H. generalize (derive_execution_report_id fill). cbn [fst snd].
    intros id [(-> & ->)|[(_ & -> & ->)|(-> & _ & Hl & Hpr & _ & _ & _ & ->)]]; [done|by destruct l|].
    rewrite !(Z.max_r 0) in * by done || lia. split; [|cbn; lia]. destruct l; cbn in *. by apply buy_positions_ok.
  - pose proof (apply_paper_cases l fill) as H. destruct (apply_paper_fill l fill) as [l1 result]. cbv zeta in H. cbn [fst snd].
    destruct H as [(-> & ->)|(-> & _ & Hl & Hpr & _ & _ & Hcase)]; [done|]. rewrite !(Z.max_r 0) in * by done || lia.
    destruct Hcase as [(-> & ->)|(-> & p & Hp & Hle' & ->)];
      match goal with |- context [record_paper_fill fill ?x] =>
        destruct (record_paper_fill_fields fill x) as (_ & -> & _) end; destruct l; cbn in *.
    + split; [by apply buy_positions_ok|lia].
    + rewrite Hp. cbn. destruct (sell_position_ok volume (pp_asset_index fill) (pp_qty_lots fill)
        (pp_fill_price_tick fill) p) as [H1 H2]; [done|done|lia|by apply (Hok (pp_asset_id fill))|].
      split; [|done]. apply map_Forall_insert_2; [|done]. eapply position_ok_mono; [|done]. lia.
Qed.

(** Positions are sound: as long as all fills together, lots and cost, stay
    within 64 bits, then after any sequence of them no position is short and
    none has a negative cost, an empty position costs nothing, the average cost
    is the cost per lot rounded down, and the cost that closing positions left
    behind is never negative and never more than the lots that were filled. *)
Theorem positions_sound starting events :
  sum_list_Z event_volume events <= i64_max →
  let l := ledger_run (new_paper_ledger starting) events in
  positions_ok (sum_list_Z event_volume events) (lg_positions l) ∧
  0 <= (ledger_flows (new_paper_ledger starting) events).2 <= sum_list_Z event_lots events.
Proof.
  intros Hmax. cbv zeta.
  assert (H : ∀ volume l, 0 <= volume → volume + sum_list_Z event_volume events <= i64_max →
    positions_ok volume (lg_positions l) →
    positions_ok (volume + sum_list_Z event_volume events) (lg_positions (ledger_run l events)) ∧
    0 <= (ledger_flows l events).2 <= sum_list_Z event_lots events).
  { clear Hmax. induction events as [|e events IH]; intros volume l Hv0 Hv Hok; cbn.
    { by rewrite Z.add_0_r. }
    cbn in Hv. assert (0 <= sum_list_Z event_volume events)
      by (apply sum_list_Z_nonneg; intros; apply event_volume_nonneg).
    pose proof (event_volume_nonneg e). destruct (positions_ok_step volume l e Hv0 ltac:(lia) Hok) as [Hok1 Hd].
    destruct (IH (volume + event_volume e) (apply_event l e).1 ltac:(lia) ltac:(lia) Hok1) as [H1 H2].
    rewrite Z.add_assoc. split; [done|]. destruct (event_flow l e) as [f d].
    destruct (ledger_flows _ events) as [fs ds]. cbn in *. lia. }
  destruct (H 0 (new_paper_ledger starting) ltac:(lia) ltac:(lia)) as [H1 H2]; [apply map_Forall_empty|].
  by rewrite Z.add_0_l in H1.
Qed.

(** *** A concrete account *)

Definition demo_fill (id : Z) (side : OrderSide) (lots price : Z) : ledger_event :=
  EvPaper (paper_fill0 <| pp_fill_id := id |> <| pp_asset_id := "yes"%string |> <| pp_side := side |>
    <| pp_liquidity_role := FlMaker |> <| pp_qty_lots := lots |> <| pp_fill_price_tick := price |>).
Definition demo_fills : list ledger_event :=
  [demo_fill 1 OsBuy 1 4; demo_fill 2 OsBuy 2 3; demo_fill 2 OsBuy 2 3; demo_fill 3 OsSell 3 3; demo_fill 4 OsSell 1 9].

Lemma positions_sound_witness :
  let l := ledger_run (new_paper_ledger 100) demo_fills in
  (∀ p, lg_positions l !! "yes"%string = Some p → 0 <= po_qty_lots p) ∧
  (ledger_flows (new_paper_ledger 100) demo_fills).2 <= 12.
Proof.
  assert (Hmax : sum_list_Z event_volume demo_fills <= i64_max) by (vm_compute; congruence).
  destruct (positions_sound 100 demo_fills Hmax) as [Hok Hd]. cbv zeta. split.
  - intros p Hp. destruct (Hok _ _ Hp) as [[H _] _ _ _]. exact H.
  - destruct Hd as [_ Hd]. change (sum_list_Z event_lots demo_fills) with 9 in Hd. lia.
Defined.

(** Closing a position loses the rounded-off part of its cost: three lots bought
    for ten ticks and sold for nine lose a tick of cash, yet the realized result
    is zero and nothing is left on the books.  The duplicate purchase and the
    sale of more than is held are refused. *)
Lemma close_drops_cost :
  let l := ledger_run (new_paper_ledger 100) demo_fills in
  ca_cash_tick (lg_cash l) = 99 ∧ ca_realized_pnl_tick (lg_cash l) = 0 ∧ book_value l = 0 ∧
  ledger_flows (new_paper_ledger 100) demo_fills = (0, 1).
Proof. vm_compute. repeat split. Qed.
