(* ===== verification/PaperTrading.v ===== *)
(** * PaperTrading: marking positions and keeping a paper account

    [engine/paper/pnl] and [engine/paper/core/PaperTradingEngine.cpp].  The
    engine turns observed events into fills, books them in the ledger and in a
    portfolio of its own, marks the portfolio against the books it last saw and
    records the equity.  The dashboard frames it publishes are an output: what
    they show is modelled as functions of the state (equity, filled orders,
    results per plan), and the floating-point metrics and the regime are not. *)

From S2P Require Import Prelude Hashing Doubles Depth RiskTypes ExecutionTypes PaperLedger.

(** ** Marks *)

(** [engine/paper/pnl/MarkPriceProvider.h:9-16] MarkQuality. *)
Inductive MarkQuality :=
| MkGood | MkMissingBid | MkMissingAsk | MkMissingBook | MkDegraded | MkNoPosition.
#[export] Instance MarkQuality_eq_dec : EqDecision MarkQuality.
Proof. solve_decision. Defined.

Definition mark_quality_code (q : MarkQuality) : Z :=
  match q with
  | MkGood => 0 | MkMissingBid => 1 | MkMissingAsk => 2 | MkMissingBook => 3 | MkDegraded => 4 | MkNoPosition => 5
  end.

(** [engine/paper/pnl/MarkPriceProvider.h:18-26] MarkPrice. *)
Record MarkPrice := mkMarkPrice {
  mk_asset_index : Z;
  mk_mid_mark_tick : Z;
  mk_liquidation_mark_tick : Z;
  mk_mid_quality : MarkQuality;
  mk_liquidation_quality : MarkQuality
}.
Definition mark_price0 : MarkPrice := mkMarkPrice 0 0 0 MkMissingBook MkMissingBook.

(** [engine/paper/pnl/MarkPriceProvider.cpp:7-15] degraded. *)
Definition degraded (view : MarketDepthView) : bool :=
  negb (dv_usable_for_depth view) || dv_recovering view || dv_crossed view || dv_closed view || dv_resolved view.

(** The first level of a side. *)
Definition best_tick (levels : list PriceLevel) : Z := pl_price_tick (nth 0 levels no_level).

(** [engine/paper/pnl/MarkPriceProvider.cpp:19-62] mark_from_depth. *)
Definition mark_from_depth (view : MarketDepthView) : MarkPrice :=
  let bad := degraded view in
  let no_bid := (dv_bid_count view =? 0)%nat in
  let no_ask := (dv_ask_count view =? 0)%nat in
  mkMarkPrice (dv_asset_index view)
    (if no_bid || no_ask then 0
     else Z.quot (best_tick (dv_bids view) +i best_tick (dv_asks view)) 2)
    (if no_bid then 0 else best_tick (dv_bids view))
    (if no_bid && no_ask then MkMissingBook
     else if no_bid then MkMissingBid
     else if no_ask then MkMissingAsk
     else if bad then MkDegraded else MkGood)
    (if no_bid then MkMissingBid else if bad then MkDegraded else MkGood).

(** [engine/paper/pnl/PaperPnLEngine.cpp:7-17] find_depth. *)
Definition find_depth (views : list MarketDepthView) (asset_index : Z) : option MarketDepthView :=
  snd <$> list_find (λ v, dv_asset_index v = asset_index) views.

(** [engine/paper/pnl/PaperPnLEngine.cpp:19-23] worse. *)
Definition worse (lhs rhs : MarkQuality) : MarkQuality :=
  if mark_quality_code rhs <=? mark_quality_code lhs then lhs else rhs.

(** [engine/paper/pnl/EquityCurve.h:7-16] EquityCurve. *)
Record EquityCurve := mkEquityCurve {
  eq_equity_mid_tick : Z;
  eq_equity_liquidation_tick : Z;
  eq_realized_pnl_tick : Z;
  eq_unrealized_pnl_mid_tick : Z;
  eq_unrealized_pnl_liquidation_tick : Z;
  eq_ts_ns : Z
}.
#[export] Instance EquityCurve_eq_dec : EqDecision EquityCurve.
Proof. solve_decision. Defined.

(** [engine/paper/pnl/PaperPnLEngine.h:14-22] PaperPnLResult. *)
Record PaperPnLResult := mkPaperPnLResult {
  px_equity : EquityCurve;
  px_realized_pnl_tick : Z;
  px_unrealized_pnl_mid_tick : Z;
  px_unrealized_pnl_liquidation_tick : Z;
  px_worst_mark_quality : MarkQuality
}.

(** [engine/paper/pnl/PaperPnLEngine.cpp:43-47] compute: the mark of a position. *)
Definition position_mark (views : list MarketDepthView) (p : Position) : MarkPrice :=
  match find_depth views (po_asset_index p) with
  | Some view => mark_from_depth view
  | None => mark_price0
  end.
Definition mid_value (views : list MarketDepthView) (p : Position) : Z :=
  po_qty_lots p *i mk_mid_mark_tick (position_mark views p).
Definition liquidation_value (views : list MarketDepthView) (p : Position) : Z :=
  po_qty_lots p *i mk_liquidation_mark_tick (position_mark views p).

(** A running machine sum over the positions. *)
Definition position_total (f : Position → Z) (ps : Positions) : Z :=
  foldl (λ sum p, sum +i f p) 0 (map_to_list ps).*2.

(** [engine/paper/pnl/PaperPnLEngine.cpp:30-74] compute; each accumulator of the loop is a sum. *)
Definition compute_pnl (ps : Positions) (cash : CashLedger) (views : list MarketDepthView) (ts_ns : Z)
    : PaperPnLResult :=
  let unrealized_mid := position_total (λ p, mid_value views p -i po_cost_basis_tick p) ps in
  let unrealized_liquidation := position_total (λ p, liquidation_value views p -i po_cost_basis_tick p) ps in
  let realized := ca_realized_pnl_tick cash in
  mkPaperPnLResult
    (mkEquityCurve (ca_cash_tick cash +i position_total (mid_value views) ps)
       (ca_cash_tick cash +i position_total (liquidation_value views) ps)
       realized unrealized_mid unrealized_liquidation ts_ns)
    realized unrealized_mid unrealized_liquidation
    (foldl (λ q p, worse (worse q (mk_mid_quality (position_mark views p)))
                     (mk_liquidation_quality (position_mark views p))) MkGood (map_to_list ps).*2).

(** ** The engine's state *)

(** [engine/paper/core/PaperTradingEngine.h:82-88] ObservedChildOrder. *)
Record ObservedChildOrder := mkObservedChildOrder {
  ob_order : ChildOrder;
  ob_source_intent_id : Z;
  ob_approved_intent_id : Z;
  ob_reservation_id : Z;
  ob_bundle_id : Z
}.

(** [engine/paper/core/PaperTradingEngine.h:90-106] PlanTerminalState. *)
Record PlanTerminalState := mkPlanTerminalState {
  tm_plan_id : Z;
  tm_bundle_id : Z;
  tm_source_intent_id : Z;
  tm_approved_intent_id : Z;
  tm_reservation_id : Z;
  tm_expected_child_orders : Z;
  tm_filled_child_orders : Z;
  tm_chosen_bundle_qty : Z;
  tm_guaranteed_payout_tick : Z;
  tm_expected_terminal_pnl_tick : Z;
  tm_actual_buy_cost_tick : Z;
  tm_updated_ts_ns : Z
}.

(** [engine/paper/read/DashboardReadStore.h:58-86] PaperFilledOrderSnapshot. *)
Record PaperFilledOrderSnapshot := mkPaperFilledOrderSnapshot {
  fo_execution_report_id : Z;
  fo_plan_id : Z;
  fo_child_order_id : Z;
  fo_bundle_id : Z;
  fo_source_intent_id : Z;
  fo_approved_intent_id : Z;
  fo_reservation_id : Z;
  fo_market_id : string;
  fo_asset_id : string;
  fo_market_index : Z;
  fo_asset_index : Z;
  fo_side : string;
  fo_filled_lots : Z;
  fo_remaining_lots : Z;
  fo_avg_fill_price_tick : Z;
  fo_limit_price_tick : Z;
  fo_estimated_vwap_tick : Z;
  fo_worst_price_tick : Z;
  fo_notional_tick : Z;
  fo_mark_price_tick : Z;
  fo_unrealized_pnl_tick : Z;
  fo_mark_quality : string;
  fo_event_ts_ns : Z
}.

(** [engine/paper/read/DashboardReadStore.h:88-106] PaperTerminalPnLSnapshot. *)
Record PaperTerminalPnLSnapshot := mkPaperTerminalPnLSnapshot {
  tp_state : PlanTerminalState;
  tp_complete : bool;
  tp_terminal_pnl_tick : Z
}.

(** [engine/paper/core/PaperTradingEngine.h:108-140] PaperTradingEngine, but for the stateless engines and the dashboard. *)
Record PaperTradingEngine := mkPaperTradingEngine {
  pg_adapter : PaperEventAdapter;
  pg_ledger : PaperLedger;
  pg_portfolio : Positions;
  pg_intents_observed : Z;
  pg_paper_opportunities_observed : Z;
  pg_signal_rejections_observed : Z;
  pg_risk_decisions_observed : Z;
  pg_risk_approved_observed : Z;
  pg_risk_rejected_observed : Z;
  pg_approved_intents_observed : Z;
  pg_plans_created : Z;
  pg_execution_reports_observed : Z;
  pg_filled_notional_tick : Z;
  pg_depth_views : list MarketDepthView;
  pg_equity_curve : list EquityCurve;
  pg_risk_decisions : list RiskDecision;
  pg_execution_reports : list ExecutionReport;
  pg_plan_statuses : list PlanStatus;
  pg_filled_orders : list PaperFilledOrderSnapshot;
  pg_filled_plan_ids : gset Z;
  pg_failed_plan_ids : gset Z;
  pg_child_orders : gmap Z ObservedChildOrder;
  pg_terminal_by_plan : gmap Z PlanTerminalState;
  pg_asset_index_by_asset_id : gmap string Z
}.

(** [engine/paper/core/PaperTradingEngine.cpp:60-65] PaperTradingEngine::PaperTradingEngine. *)
Definition new_paper_engine (starting_cash_tick : Z) : PaperTradingEngine :=
  mkPaperTradingEngine paper_event_adapter0 (new_paper_ledger starting_cash_tick) ∅
    0 0 0 0 0 0 0 0 0 0 [] [] [] [] [] [] ∅ ∅ ∅ ∅ ∅.

Definition increment (n : Z) : Z := wrap_u64 (n + 1).

(** [engine/paper/core/PaperTradingEngine.cpp:12-18] is_signal_rejection. *)
Definition is_signal_rejection (status : IntentStatus) : bool :=
  negb (bool_decide (status = IsCandidateOnly)) && negb (bool_decide (status = IsPaperOpportunity)).

(** [engine/paper/core/PaperTradingEngine.cpp:27-34] is_failed_report. *)
Definition is_failed_report (status : ChildOrderStatus) : bool :=
  bool_decide (status = CsFailed) || bool_decide (status = CsExpired) || bool_decide (status = CsCancelled).

(** [engine/paper/core/PaperTradingEngine.cpp:277-287] compute_pnl. *)
Definition engine_pnl (e : PaperTradingEngine) (ts_ns : Z) : PaperPnLResult :=
  compute_pnl (pg_portfolio e) (lg_cash (pg_ledger e)) (pg_depth_views e) ts_ns.

(** [engine/paper/core/PaperTradingEngine.cpp:289-303] record_equity_point. *)
Definition record_equity_point (equity : EquityCurve) (e : PaperTradingEngine) : PaperTradingEngine :=
  if bool_decide (last (pg_equity_curve e) = Some equity) then e
  else e <| pg_equity_curve ::= λ l, l ++ [equity] |>.

(** [engine/paper/core/PaperTradingEngine.cpp:271-275] publish_dashboard: what it changes in the engine. *)
Definition publish_dashboard (ts_ns : Z) (e : PaperTradingEngine) : PaperTradingEngine :=
  record_equity_point (px_equity (engine_pnl e ts_ns)) e.

(** [engine/paper/core/PaperTradingEngine.cpp:226-257] record_filled_order: the order as the dashboard shows it. *)
Definition filled_order_of (orders : gmap Z ObservedChildOrder) (fill : FillApplication) : PaperFilledOrderSnapshot :=
  let r := fa_report fill in
  let base := mkPaperFilledOrderSnapshot (derive_execution_report_id fill) (er_plan_id r) (er_child_order_id r)
    0 0 0 0 (fa_market_id fill) (fa_asset_id fill) 0 (fa_asset_index fill) (order_side_name (fa_side fill))
    (er_filled_lots r) (er_remaining_lots r) (er_avg_fill_price_tick r) 0 0 0
    (er_filled_lots r *i er_avg_fill_price_tick r) 0 0 "MissingMark" (er_event_ts_ns r) in
  match orders !! child_key (er_plan_id r) (er_child_order_id r) with
  | None => base
  | Some observed =>
      let order := ob_order observed in
      base <| fo_bundle_id := ob_bundle_id observed |> <| fo_source_intent_id := ob_source_intent_id observed |>
           <| fo_approved_intent_id := ob_approved_intent_id observed |>
           <| fo_reservation_id := ob_reservation_id observed |>
           <| fo_market_id := co_market_id order |> <| fo_asset_id := co_asset_id order |>
           <| fo_market_index := co_market_index order |> <| fo_asset_index := co_asset_index order |>
           <| fo_side := order_side_name (co_side order) |> <| fo_limit_price_tick := co_limit_price_tick order |>
           <| fo_estimated_vwap_tick := co_estimated_vwap_tick order |>
           <| fo_worst_price_tick := co_worst_allowed_price_tick order |>
  end.

(** [engine/paper/core/PaperTradingEngine.cpp:261-268] record_filled_order: the fill in the result of its plan. *)
Definition fill_terminal (fill : FillApplication) (t : PlanTerminalState) : PlanTerminalState :=
  let r := fa_report fill in
  t <| tm_actual_buy_cost_tick ::= λ c, c +i (er_filled_lots r *i er_avg_fill_price_tick r) |>
    <| tm_filled_child_orders ::= λ n, (n + 1) mod 65536 |>
    <| tm_updated_ts_ns := er_event_ts_ns r |>.

(** [engine/paper/core/PaperTradingEngine.cpp:220-269] record_filled_order. *)
Definition record_filled_order (fill : FillApplication) (e : PaperTradingEngine) : PaperTradingEngine :=
  e <| pg_filled_orders ::= λ l, l ++ [filled_order_of (pg_child_orders e) fill] |>
    <| pg_terminal_by_plan ::= alter (fill_terminal fill) (er_plan_id (fa_report fill)) |>.

(** [engine/paper/core/PaperTradingEngine.cpp:170-179] handle_observed_event: the fill of an event. *)
Definition handle_fill (fill : FillApplication) (e : PaperTradingEngine) : PaperTradingEngine :=
  let '(ledger, result) := apply_execution_fill (pg_ledger e) fill in
  let e := e <| pg_ledger := ledger |> in
  if la_applied result then
    record_filled_order fill (e <| pg_portfolio ::= λ ps, (portfolio_apply_fill ps fill).1 |>)
      <| pg_filled_notional_tick ::= λ n,
           n +i (er_filled_lots (fa_report fill) *i er_avg_fill_price_tick (fa_report fill)) |>
  else e.

(** [engine/paper/core/PaperTradingEngine.cpp:167-182] handle_observed_event, with the adapter as the observation left it. *)
Definition handle_observed_event (observed : PaperEventAdapter * PaperEventAdapterResult) (e : PaperTradingEngine)
    : PaperTradingEngine :=
  let '(adapter, result) := observed in
  let e := e <| pg_adapter := adapter |> in
  let e := match pa_fill result with Some fill => handle_fill fill e | None => e end in
  publish_dashboard (pv_ts_ns (pa_event result)) e.

(** ** Handlers *)

(** [engine/paper/core/PaperTradingEngine.cpp:67-81] on_execution_report. *)
Definition on_execution_report (report : ExecutionReport) (e : PaperTradingEngine) : PaperTradingEngine :=
  let add (cond : bool) ids := if cond then {[er_plan_id report]} ∪ ids else ids : gset Z in
  handle_observed_event (observe_report (pg_adapter e) report)
    (e <| pg_execution_reports_observed ::= increment |>
       <| pg_execution_reports ::= λ l, l ++ [report] |>
       <| pg_filled_plan_ids ::= add (bool_decide (er_status report = CsFilled)) |>
       <| pg_failed_plan_ids ::= add (is_failed_report (er_status report)) |>).

(** [engine/paper/core/PaperTradingEngine.cpp:83-87] on_reservation_disposition. *)
Definition on_reservation_disposition (disposition : ReservationDisposition) (e : PaperTradingEngine)
    : PaperTradingEngine :=
  handle_observed_event (observe_event (pg_adapter e) PtReservationDispositionObserved 0) e.

(** [engine/paper/core/PaperTradingEngine.cpp:89-100] on_opportunity_intent. *)
Definition on_opportunity_intent (intent : OpportunityIntent) (e : PaperTradingEngine) : PaperTradingEngine :=
  let e1 := e <| pg_intents_observed ::= increment |> in
  let e1 :=
    if bool_decide (oi_status intent = IsPaperOpportunity) then e1 <| pg_paper_opportunities_observed ::= increment |>
    else if is_signal_rejection (oi_status intent) then e1 <| pg_signal_rejections_observed ::= increment |>
    else e1 in
  handle_observed_event (observe_event (pg_adapter e) PtOpportunityIntentObserved (oi_created_ts_ns intent)) e1.

(** [engine/paper/core/PaperTradingEngine.cpp:102-114] on_risk_decision. *)
Definition on_risk_decision (decision : RiskDecision) (e : PaperTradingEngine) : PaperTradingEngine :=
  let e1 := e <| pg_risk_decisions_observed ::= increment |> in
  let e1 := if decision_approved decision then e1 <| pg_risk_approved_observed ::= increment |>
            else e1 <| pg_risk_rejected_observed ::= increment |> in
  handle_observed_event (observe_event (pg_adapter e) PtRiskDecisionObserved 0)
    (e1 <| pg_risk_decisions ::= λ l, l ++ [decision] |>).

(** [engine/paper/core/PaperTradingEngine.cpp:116-121] on_approved_intent. *)
Definition on_approved_intent (approved : ApprovedIntent) (e : PaperTradingEngine) : PaperTradingEngine :=
  handle_observed_event (observe_event (pg_adapter e) PtApprovedIntentObserved (ai_approved_at_ns approved))
    (e <| pg_approved_intents_observed ::= increment |>).

(** [engine/paper/core/PaperTradingEngine.cpp:187-197] record_order_plan: the result a new plan starts with. *)
Definition terminal_of_plan (plan : OrderPlan) : PlanTerminalState :=
  mkPlanTerminalState (op_plan_id plan) (op_bundle_id plan) (op_source_intent_id plan) (op_approved_intent_id plan)
    (op_reservation_id plan) (Z.of_nat (op_order_count plan)) 0 (op_chosen_bundle_qty plan)
    (op_guaranteed_payout_tick plan) (op_expected_terminal_pnl_tick plan) 0 (op_created_ts_ns plan).

(** [engine/paper/core/PaperTradingEngine.cpp:184-218] record_order_plan. *)
Definition record_order_plan (plan : OrderPlan) (e : PaperTradingEngine) : PaperTradingEngine :=
  e <| pg_terminal_by_plan ::= <[op_plan_id plan := terminal_of_plan plan]> |>
    <| pg_child_orders ::= λ m, foldl (λ m o,
         <[child_key (op_plan_id plan) (co_order_id o) :=
             mkObservedChildOrder o (op_source_intent_id plan) (op_approved_intent_id plan) (op_reservation_id plan)
               (op_bundle_id plan)]> m) m (plan_orders plan) |>
    <| pg_asset_index_by_asset_id ::= λ m, foldl (λ m o,
         if String.eqb (co_asset_id o) "" then m else <[co_asset_id o := co_asset_index o]> m) m (plan_orders plan) |>.

(** [engine/paper/core/PaperTradingEngine.cpp:123-130] on_order_plan. *)
Definition on_order_plan (plan : OrderPlan) (e : PaperTradingEngine) : PaperTradingEngine :=
  handle_observed_event (observe_plan (pg_adapter e) plan)
    (record_order_plan plan (e <| pg_plans_created ::= increment |>
                               <| pg_plan_statuses ::= λ l, l ++ [op_status plan] |>)).

(** [engine/paper/core/PaperTradingEngine.cpp:144-155] on_mark_snapshot: replace the view of the asset or append it. *)
Definition update_view (view : MarketDepthView) (views : list MarketDepthView) : list MarketDepthView :=
  match list_find (λ v, dv_asset_index v = dv_asset_index view) views with
  | Some (i, _) => <[i := view]> views
  | None => views ++ [view]
  end.

(** [engine/paper/core/PaperTradingEngine.cpp:132-158] on_mark_snapshot. *)
Definition on_mark_snapshot (snapshot : MarketStateSnapshot) (e : PaperTradingEngine) : PaperTradingEngine :=
  let asset_index := default 0 (pg_asset_index_by_asset_id e !! ms_entity_id snapshot) in
  handle_observed_event (observe_event (pg_adapter e) PtMarkPriceUpdated (ms_last_book_update_ns snapshot))
    (e <| pg_depth_views ::= update_view (market_depth_view_from_snapshot snapshot asset_index) |>).

(** ** What the dashboard shows *)

(** [engine/paper/core/PaperTradingEngine.cpp:478-514] build_terminal_pnl_snapshots: one entry, sorted by plan by the caller. *)
Definition terminal_snapshot (t : PlanTerminalState) : PaperTerminalPnLSnapshot :=
  let complete := (0 <? tm_expected_child_orders t) && (tm_expected_child_orders t <=? tm_filled_child_orders t) in
  mkPaperTerminalPnLSnapshot t complete
    (if complete then tm_guaranteed_payout_tick t -i tm_actual_buy_cost_tick t else 0).

(** [engine/paper/core/PaperTradingEngine.cpp:449-473] build_filled_order_snapshots: the mark of a filled order. *)
Definition mark_filled_order (views : list MarketDepthView) (order : PaperFilledOrderSnapshot)
    : PaperFilledOrderSnapshot :=
  let '(mark, quality) :=
    match find_depth views (fo_asset_index order) with
    | None => (0, "MissingMark"%string)
    | Some v =>
        if (0 <? dv_bid_count v)%nat && (0 <? dv_ask_count v)%nat then
          (Z.quot (best_tick (dv_bids v) +i best_tick (dv_asks v)) 2, "Mid"%string)
        else if (0 <? dv_bid_count v)%nat then (best_tick (dv_bids v), "BidOnly"%string)
        else if (0 <? dv_ask_count v)%nat then (best_tick (dv_asks v), "AskOnly"%string)
        else (0, "MissingMark"%string)
    end in
  let delta :=
    if String.eqb (fo_side order) "Buy" then mark -i fo_avg_fill_price_tick order
    else fo_avg_fill_price_tick order -i mark in
  order <| fo_mark_price_tick := mark |> <| fo_mark_quality := quality |>
        <| fo_unrealized_pnl_tick := fo_filled_lots order *i delta |>.

(** [engine/paper/core/PaperTradingEngine.cpp:437-476] build_filled_order_snapshots. *)
Definition build_filled_order_snapshots (e : PaperTradingEngine) : list PaperFilledOrderSnapshot :=
  mark_filled_order (pg_depth_views e) <$> pg_filled_orders e.

(** ** The account reconciles *)

(** What the engine can be handed. *)
Inductive paper_input :=
| InReport (report : ExecutionReport)
| InDisposition (disposition : ReservationDisposition)
| InIntent (intent : OpportunityIntent)
| InDecision (decision : RiskDecision)
| InApproved (approved : ApprovedIntent)
| InPlan (plan : OrderPlan)
| InMark (snapshot : MarketStateSnapshot).

Definition paper_step (e : PaperTradingEngine) (input : paper_input) : PaperTradingEngine :=
  match input with
  | InReport report => on_execution_report report e
  | InDisposition disposition => on_reservation_disposition disposition e
  | InIntent intent => on_opportunity_intent intent e
  | InDecision decision => on_risk_decision decision e
  | InApproved approved => on_approved_intent approved e
  | InPlan plan => on_order_plan plan e
  | InMark snapshot => on_mark_snapshot snapshot e
  end.
Definition paper_run (e : PaperTradingEngine) (inputs : list paper_input) : PaperTradingEngine :=
  foldl paper_step e inputs.

Lemma position_total_eqm f ps : position_total f ps =m map_sum f ps.
Proof.
  unfold position_total. rewrite foldl_add_eqm, Z.add_0_l. apply eqm_eq. unfold map_sum.
  induction (map_to_list ps) as [|[k p] l IH]; cbn; [done|]. by rewrite IH.
Qed.

Lemma map_sum_wrap_sub f g (ps : Positions) : map_sum (λ p, f p -i g p) ps =m map_sum f ps - map_sum g ps.
Proof.
  unfold map_sum. induction (map_to_list ps) as [|[k p] l IH]; cbn; [done|]. rewrite IH. eqm_ring.
Qed.

(** Equity is cash, plus the cost of what is held, plus what it gained. *)
Lemma equity_decomposes ps cash views ts :
  let r := compute_pnl ps cash views ts in
  eq_equity_mid_tick (px_equity r) =m
    ca_cash_tick cash + map_sum po_cost_basis_tick ps + px_unrealized_pnl_mid_tick r ∧
  eq_equity_liquidation_tick (px_equity r) =m
    ca_cash_tick cash + map_sum po_cost_basis_tick ps + px_unrealized_pnl_liquidation_tick r.
Proof.
  cbv zeta. unfold compute_pnl. cbn [px_equity eq_equity_mid_tick eq_equity_liquidation_tick
    px_unrealized_pnl_mid_tick px_unrealized_pnl_liquidation_tick].
  split; rewrite wrap_i64_eqm, !position_total_eqm, map_sum_wrap_sub; apply eqm_eq; lia.
Qed.

(** The part of the state the account rests on. *)
Record account_ok (starting : Z) (e : PaperTradingEngine) : Prop := {
  ao_portfolio : pg_portfolio e = lg_positions (pg_ledger e);
  ao_cash : ca_cash_tick (lg_cash (pg_ledger e)) + book_value (pg_ledger e) =m starting;
  ao_realized : ca_realized_pnl_tick (lg_cash (pg_ledger e)) = 0;
  ao_fees : ca_fees_paid_tick (lg_cash (pg_ledger e)) = 0
}.

Definition same_account (e e1 : PaperTradingEngine) : Prop :=
  pg_portfolio e1 = pg_portfolio e ∧ pg_ledger e1 = pg_ledger e.

Lemma account_ok_same starting e e1 : same_account e e1 → account_ok starting e → account_ok starting e1.
Proof. intros [Hp Hl] [H1 H2 H3 H4]. constructor; rewrite ?Hp, ?Hl; done. Qed.

Lemma same_account_trans e1 e2 e3 : same_account e1 e2 → same_account e2 e3 → same_account e1 e3.
Proof. intros [H1 H2] [H3 H4]. split; congruence. Qed.

Lemma publish_dashboard_account ts e : same_account e (publish_dashboard ts e).
Proof. unfold publish_dashboard, record_equity_point. case_bool_decide; [done|by destruct e]. Qed.

Lemma record_filled_order_account fill e : same_account e (record_filled_order fill e).
Proof. by destruct e. Qed.

#[local] Arguments apply_buy : simpl never.
#[local] Arguments map_sum : simpl never.

(** A free fill is bought in the ledger and in the portfolio alike. *)
Lemma handle_fill_account starting fill e :
  fa_fee_tick fill = 0 → account_ok starting e → account_ok starting (handle_fill fill e).
Proof.
  intros Hfee Hok. unfold handle_fill.
  pose proof (net_worth_step (pg_ledger e) (EvExecution fill)) as Hnet.
  unfold event_flow in Hnet. cbn [apply_event] in Hnet. rewrite Hfee in Hnet.
  pose proof (apply_execution_cases (pg_ledger e) fill) as H.
  destruct (apply_execution_fill (pg_ledger e) fill) as [l1 result]. cbv zeta in H. cbn [fst snd] in Hnet.
  revert H. generalize (derive_execution_report_id fill). destruct Hok as [Hp Hc Hr Hf].
  intros id [(-> & ->)|[(_ & -> & ->)|(Happ & _ & Hl & Hpr & _ & Hid & Hs & Hl1)]].
  - constructor; by destruct e.
  - constructor; destruct e as [? l ? ? ? ? ? ? ? ? ? ? ? ? ? ? ? ? ? ? ? ? ? ?]; by destruct l.
  - rewrite Happ in *. cbn [fst snd] in Hnet. set (e1 := (e <| pg_ledger := l1 |>) <| pg_portfolio ::= λ ps, (portfolio_apply_fill ps fill).1 |>).
    apply (account_ok_same starting e1).
    { subst e1. destruct e. split; reflexivity. }
    assert (He1 : pg_ledger e1 = l1 ∧ pg_portfolio e1 = (portfolio_apply_fill (pg_portfolio e) fill).1)
      by (subst e1; by destruct e).
    destruct He1 as [E1 E2]. constructor; rewrite ?E1, ?E2; clear E1 E2 e1.
    + unfold portfolio_apply_fill, position_apply_fill. cbn [pf_side pf_asset_id pf_qty_lots pf_price_tick pf_asset_index].
      rewrite bool_decide_false by (by rewrite Hs). rewrite (proj2 (String.eqb_neq _ _)) by done.
      rewrite (proj2 (Z.leb_gt _ _)), (proj2 (Z.ltb_ge _ _)) by lia. cbn [orb fst].
      rewrite Hp, Hl1. by destruct (pg_ledger e).
    + unfold net_worth in Hnet. assert (Hr1 : ca_realized_pnl_tick (lg_cash l1) = 0).
      { rewrite Hl1. destruct (pg_ledger e) as [[]]. exact Hr. }
      rewrite Hr1, Hr in Hnet. rewrite !Z.sub_0_r, !Z.add_0_r in Hnet. by rewrite Hnet.
    + rewrite Hl1. destruct (pg_ledger e) as [[]]. exact Hr.
    + rewrite Hl1, Hfee. destruct (pg_ledger e) as [[]]. cbn in *. by rewrite Hf.
Qed.

Lemma fill_of_report_free orders report fill : fill_of_report orders report = Some fill → fa_fee_tick fill = 0.
Proof.
  unfold fill_of_report. step_if; [done|]. destruct (orders !! _) as [o|]; [|done]. step_if; [done|]. by intros [= <-].
Qed.

Lemma handle_observed_account starting observed e :
  (∀ fill, pa_fill observed.2 = Some fill → fa_fee_tick fill = 0) →
  account_ok starting e → account_ok starting (handle_observed_event observed e).
Proof.
  intros Hfill Hok. destruct observed as [adapter result]. unfold handle_observed_event.
  eapply account_ok_same; [apply publish_dashboard_account|].
  assert (Hok1 : account_ok starting (e <| pg_adapter := adapter |>)) by (eapply account_ok_same; [|done]; by destruct e).
  cbn [snd] in Hfill. destruct (pa_fill result) as [fill|]; [|done]. by apply handle_fill_account; [apply Hfill|].
Qed.

Lemma account_step starting e input : account_ok starting e → account_ok starting (paper_step e input).
Proof.
  intros Hok. destruct input; cbn [paper_step]; unfold on_execution_report, on_reservation_disposition,
    on_opportunity_intent, on_risk_decision, on_approved_intent, on_order_plan, on_mark_snapshot;
    apply handle_observed_account;
    try (intros fill Hf; try discriminate Hf; exact (fill_of_report_free _ _ _ Hf));
    try done; apply (account_ok_same starting e); try done; repeat case_match; by destruct e.
Qed.

(** The account reconciles: after any sequence of observed reports, plans, marks
    and other events, in 64-bit arithmetic whatever overflows, the portfolio the
    engine marks is the ledger's own positions, nothing has been realized and no
    fee paid, and the equity it reports - at the middle of the books and at the
    bids - is the starting cash plus the unrealized result it reports. *)
Theorem paper_equity_reconciles starting inputs ts_ns :
  let e := paper_run (new_paper_engine starting) inputs in
  let r := engine_pnl e ts_ns in
  pg_portfolio e = lg_positions (pg_ledger e) ∧
  px_realized_pnl_tick r = 0 ∧ ca_fees_paid_tick (lg_cash (pg_ledger e)) = 0 ∧
  eq_equity_mid_tick (px_equity r) =m starting + px_unrealized_pnl_mid_tick r ∧
  eq_equity_liquidation_tick (px_equity r) =m starting + px_unrealized_pnl_liquidation_tick r.
Proof.
  cbv zeta. assert (Hok : account_ok starting (paper_run (new_paper_engine starting) inputs)).
  { assert (H : ∀ e, account_ok starting e → account_ok starting (paper_run e inputs)).
    { induction inputs as [|i inputs IH]; intros e He; [done|]. cbn. by apply IH, account_step. }
    apply H. constructor; try done. apply eqm_eq. apply Z.add_0_r. }
  set (e := paper_run _ _) in *. destruct Hok as [Hp Hc Hr Hf].
  unfold engine_pnl. pose proof (equity_decomposes (pg_portfolio e) (lg_cash (pg_ledger e)) (pg_depth_views e) ts_ns) as [Hm Hl].
  unfold book_value in Hc. rewrite <- Hp in Hc. split_and!; try done.
  - by rewrite Hm, Hc.
  - by rewrite Hl, Hc.
Qed.

(** *** A plan that is complete before it is filled *)

Definition terminal_plan : OrderPlan :=
  order_plan0 <| op_plan_id := 9 |> <| op_order_count := 2%nat |> <| op_guaranteed_payout_tick := 1000 |>
    <| op_orders := std_array kMaxChildOrdersPerPlan child_order0
         [child_order0 <| co_order_id := 1 |> <| co_asset_id := "yes"%string |> <| co_quantity_lots := 10 |>;
          child_order0 <| co_order_id := 2 |> <| co_asset_id := "no"%string |> <| co_quantity_lots := 10 |>] |>.
Definition partial_report (lots ts : Z) : ExecutionReport :=
  report0 <| er_plan_id := 9 |> <| er_child_order_id := 1 |> <| er_status := CsPartiallyFilled |>
    <| er_filled_lots := lots |> <| er_avg_fill_price_tick := 40 |> <| er_event_ts_ns := ts |>.

(** The engine counts fills where it means orders: two partial fills of the
    first of two orders make the plan complete, and its result counts the whole
    payout against the cost of five lots. *)
Lemma terminal_counts_fills :
  let e := paper_run (new_paper_engine 100000)
             [InPlan terminal_plan; InReport (partial_report 3 1); InReport (partial_report 2 2)] in
  (terminal_snapshot <$> pg_terminal_by_plan e !! 9) ≫=
    (λ t, Some (tp_complete t, tp_terminal_pnl_tick t, tm_actual_buy_cost_tick (tp_state t))) = Some (true, 800, 200).
Proof. vm_compute. reflexivity. Qed.

Example equity_after_mark :
  let e := paper_run (new_paper_engine 100000) [InPlan terminal_plan; InReport (partial_report 3 1)] in
  eq_equity_mid_tick (px_equity (engine_pnl e 5)) = 99880 ∧ px_unrealized_pnl_mid_tick (engine_pnl e 5) = -120.
Proof. vm_compute. done. Qed.
