(* ===== verification/SnapshotRing.v ===== *)
(** * SnapshotRing: the ring of dashboard frames

    [engine/paper/read/RuntimeSnapshotRing.h].  Publishers draw a sequence
    number, lock the slot it falls on, write the frame and then advertise it;
    readers look a frame up by its number.  The first half is the ring as one
    thread uses it, with the loops of [latest] and [read_since]; the second is a
    step relation in which any number of publishers and readers interleave at
    every atomic operation.  [try_lock] may fail even when the mutex is free, as
    its documentation allows. *)

From S2P Require Import Prelude.

Section ring.
Context {A : Type} (stamp : Z → A → A) (blank : A).

(** [engine/paper/read/RuntimeSnapshotRing.h:105-109] Slot, but for its mutex. *)
Record Slot := mkSlot {
  sl_seq : Z;
  sl_snapshot : A
}.

(** [engine/paper/read/RuntimeSnapshotRing.h:133-137] RuntimeSnapshotRing. *)
Record Ring := mkRing {
  rg_capacity : nat;
  rg_slots : list Slot;
  rg_next_seq : Z;
  rg_latest_published_seq : Z;
  rg_dropped_frames : Z
}.

(** [engine/paper/read/RuntimeSnapshotRing.h:19-25] RuntimeSnapshotRing::RuntimeSnapshotRing. *)
Definition new_ring (capacity : nat) : Ring :=
  let capacity := Nat.max capacity 1 in
  mkRing capacity (replicate capacity (mkSlot 0 blank)) 0 0 0.

(** [engine/paper/read/RuntimeSnapshotRing.h:111-113] index_for. *)
Definition index_for (capacity : nat) (seq : Z) : nat := Z.to_nat (wrap_u64 (seq - 1) mod Z.of_nat capacity).

(** [engine/paper/read/RuntimeSnapshotRing.h:115-122] oldest_available_seq. *)
Definition oldest_available_seq (capacity : nat) (latest_seq : Z) : Z :=
  if latest_seq <=? Z.of_nat capacity then 1 else latest_seq - Z.of_nat capacity + 1.

(** [engine/paper/read/RuntimeSnapshotRing.h:124-131] read_exact, with the lock free. *)
Definition read_slot (slots : list Slot) (capacity : nat) (seq : Z) : option A :=
  match slots !! index_for capacity seq with
  | Some slot => if sl_seq slot =? seq then Some (sl_snapshot slot) else None
  | None => None
  end.
Definition read_exact (r : Ring) (seq : Z) : option A := read_slot (rg_slots r) (rg_capacity r) seq.

(** [engine/paper/read/RuntimeSnapshotRing.h:27-42] publish, with the lock free. *)
Definition publish (r : Ring) (snapshot : A) : Ring * Z :=
  let seq := wrap_u64 (rg_next_seq r + 1) in
  (mkRing (rg_capacity r)
     (<[index_for (rg_capacity r) seq := mkSlot seq (stamp seq snapshot)]> (rg_slots r))
     seq seq (rg_dropped_frames r), seq).

(** [engine/paper/read/RuntimeSnapshotRing.h:52-59] latest: the loop downwards; the count is that of the numbers left. *)
Fixpoint latest_from (r : Ring) (count : nat) (seq : Z) : option A :=
  match count with
  | O => None
  | S count => match read_exact r seq with Some x => Some x | None => latest_from r count (seq - 1) end
  end.

(** [engine/paper/read/RuntimeSnapshotRing.h:44-61] latest. *)
Definition latest (r : Ring) : option A :=
  let seq := rg_latest_published_seq r in
  if seq =? 0 then None
  else latest_from r (Z.to_nat (seq - oldest_available_seq (rg_capacity r) seq + 1)) seq.

(** [engine/paper/read/RuntimeSnapshotRing.h:85-90] read_since: the loop upwards. *)
Fixpoint read_from (r : Ring) (count : nat) (seq : Z) (room : nat) : list A :=
  match count, room with
  | O, _ | _, O => []
  | S count, S room' =>
      match read_exact r seq with
      | Some x => x :: read_from r count (seq + 1) room'
      | None => read_from r count (seq + 1) room
      end
  end.

(** [engine/paper/read/RuntimeSnapshotRing.h:63-92] read_since. *)
Definition read_since (r : Ring) (since_seq : Z) (max_count : nat) : list A :=
  let seq := rg_latest_published_seq r in
  if (max_count =? 0)%nat || (seq =? 0) || (seq <=? since_seq) then []
  else
    let start := Z.max (since_seq + 1) (oldest_available_seq (rg_capacity r) seq) in
    read_from r (Z.to_nat (seq - start + 1)) start max_count.

(** ** One thread: the ring is the last frames *)

Definition publish_all (r : Ring) (snapshots : list A) : Ring := foldl (λ r x, (publish r x).1) r snapshots.

(** The frames as they are stamped. *)
Definition frames (snapshots : list A) : list A := imap (λ i x, stamp (Z.of_nat i + 1) x) snapshots.

(** The ring after some publications. *)
Record ring_holds (r : Ring) (snapshots : list A) : Prop := {
  rh_capacity : (0 < rg_capacity r)%nat;
  rh_length : length (rg_slots r) = rg_capacity r;
  rh_next : rg_next_seq r = Z.of_nat (length snapshots);
  rh_latest : rg_latest_published_seq r = Z.of_nat (length snapshots);
  rh_recent i x : frames snapshots !! i = Some x → (length snapshots <= i + rg_capacity r)%nat →
    read_exact r (Z.of_nat i + 1) = Some x
}.

Lemma index_for_small capacity (i : nat) :
  Z.of_nat i < u64_mod → index_for capacity (Z.of_nat i + 1) = (i mod capacity)%nat.
Proof.
  intros Hi. unfold index_for. replace (Z.of_nat i + 1 - 1) with (Z.of_nat i) by lia.
  rewrite wrap_u64_id by (unfold in_u64; lia). rewrite <- Nat2Z.inj_mod. apply Nat2Z.id.
Qed.

Lemma frames_snoc snapshots x : frames (snapshots ++ [x]) = frames snapshots ++ [stamp (Z.of_nat (length snapshots) + 1) x].
Proof. unfold frames. rewrite imap_app. cbn. by rewrite Nat.add_0_r. Qed.

Lemma length_frames snapshots : length (frames snapshots) = length snapshots.
Proof. apply length_imap. Qed.

(** Two positions less than the capacity apart fall on different slots. *)
Lemma mod_distinct (i n c : nat) : (i < n)%nat → (n < i + c)%nat → (i mod c ≠ n mod c)%nat.
Proof.
  intros Hi Hn Heq. pose proof (Nat.div_mod i c ltac:(lia)). pose proof (Nat.div_mod n c ltac:(lia)).
  assert (i / c < n / c)%nat by nia. nia.
Qed.

Lemma publish_holds r snapshots x :
  Z.of_nat (length snapshots) + 1 < u64_mod → ring_holds r snapshots →
  ring_holds (publish r x).1 (snapshots ++ [x]).
Proof.
  intros Hn [Hc Hl Hnext Hlat Hrec]. unfold publish. cbn [fst]. rewrite Hnext, wrap_u64_id by (unfold in_u64; lia).
  set (n := length snapshots) in *. rewrite index_for_small by lia.
  constructor; cbn [rg_capacity rg_slots rg_next_seq rg_latest_published_seq]; try done.
  - by rewrite length_insert.
  - rewrite length_app. cbn. subst n. lia.
  - rewrite length_app. cbn. subst n. lia.
  - intros i y Hi Hrange. rewrite length_app in Hrange. cbn in Hrange. fold n in Hrange. rewrite frames_snoc in Hi.
    assert (Hin : (i < n ∨ i = n)%nat).
    { apply lookup_lt_Some in Hi. rewrite length_app, length_frames in Hi. cbn in Hi. fold n in Hi. lia. }
    unfold read_exact, read_slot. cbn [rg_slots rg_capacity].
    assert (Hmod : (n mod rg_capacity r < length (rg_slots r))%nat) by (rewrite Hl; apply Nat.mod_upper_bound; lia).
    destruct Hin as [Hin| ->].
    + rewrite index_for_small by lia. rewrite list_lookup_insert_ne by (apply not_eq_sym, mod_distinct; lia).
      rewrite lookup_app_l in Hi by (by rewrite length_frames).
      specialize (Hrec i y Hi ltac:(lia)). unfold read_exact, read_slot in Hrec.
      by rewrite index_for_small in Hrec by lia.
    + rewrite index_for_small by lia. rewrite list_lookup_insert_eq by done. cbn [sl_seq sl_snapshot].
      rewrite Z.eqb_refl. rewrite lookup_app_r in Hi by (by rewrite length_frames).
      rewrite length_frames, Nat.sub_diag in Hi. by simplify_eq/=.
Qed.

Lemma publish_all_holds capacity snapshots :
  Z.of_nat (length snapshots) < u64_mod → ring_holds (publish_all (new_ring capacity) snapshots) snapshots.
Proof.
  induction snapshots as [|x snapshots IH] using rev_ind; intros Hn.
  - constructor; cbn; try done; [lia|by rewrite length_replicate].
  - rewrite length_app in Hn. cbn in Hn. unfold publish_all. rewrite foldl_app. cbn.
    apply publish_holds; [lia|]. apply IH. lia.
Qed.

Lemma publish_all_capacity r snapshots : rg_capacity (publish_all r snapshots) = rg_capacity r.
Proof. revert r; induction snapshots as [|x l IH]; intros r; [done|]. cbn. by rewrite IH. Qed.

(** Reading upwards over numbers that are all there gives those frames. *)
Lemma read_from_recent r snapshots i room :
  ring_holds r snapshots → (length snapshots <= i + rg_capacity r)%nat → (i <= length snapshots)%nat →
  read_from r (length snapshots - i) (Z.of_nat i + 1) room = take room (drop i (frames snapshots)).
Proof.
  intros Hr. remember (length snapshots - i)%nat as count eqn:Hcount.
  revert i room Hcount; induction count as [|count IH]; intros i room Hcount Hrange Hle.
  - cbn. rewrite drop_ge by (rewrite length_frames; lia). by rewrite take_nil.
  - destruct room as [|room]; cbn [read_from]; [done|].
    destruct (lookup_lt_is_Some_2 (frames snapshots) i) as [x Hx]; [rewrite length_frames; lia|].
    rewrite (rh_recent _ _ Hr i x Hx) by lia. rewrite (drop_S _ _ _ Hx). cbn [take firstn]. f_equal.
    replace (Z.of_nat i + 1 + 1) with (Z.of_nat (S i) + 1) by lia. apply IH; lia.
Qed.

(** A ring used by one thread is its last frames: after any publications, fewer
    than [2^64], [latest] is the last frame published and [read_since] is, in
    order and up to the requested number, every frame after the given number
    that is among the last [capacity] ones. *)
Theorem ring_refines_suffix capacity snapshots since max_count :
  Z.of_nat (length snapshots) < u64_mod → 0 <= since →
  let r := publish_all (new_ring capacity) snapshots in
  latest r = last (frames snapshots) ∧
  read_since r since max_count =
    take max_count (drop (Nat.max (Z.to_nat since) (length snapshots - Nat.max capacity 1)) (frames snapshots)).
Proof.
  intros Hn Hs. cbv zeta. pose proof (publish_all_holds capacity snapshots Hn) as Hr.
  pose proof (publish_all_capacity (new_ring capacity) snapshots) as Hcap. cbn [new_ring rg_capacity] in Hcap.
  set (r := publish_all _ _) in *. set (n := length snapshots) in *. pose proof (rh_latest _ _ Hr) as Hlat. fold n in Hlat.
  assert (Hold : oldest_available_seq (rg_capacity r) (Z.of_nat n) = Z.of_nat (n - rg_capacity r) + 1).
  { unfold oldest_available_seq. destruct (Z.leb_spec (Z.of_nat n) (Z.of_nat (rg_capacity r))); lia. }
  pose proof (rh_capacity _ _ Hr) as Hpos. split.
  - unfold latest. rewrite Hlat. destruct (Z.eqb_spec (Z.of_nat n) 0) as [Hz|Hz].
    + destruct snapshots; [done|subst n; cbn in Hz; lia].
    + destruct (last (frames snapshots)) as [x|] eqn:Hx.
      2: { apply last_None in Hx. apply (f_equal length) in Hx. rewrite length_frames in Hx. subst n. cbn in Hx. lia. }
      rewrite last_lookup, length_frames in Hx. fold n in Hx.
      replace (Z.to_nat (Z.of_nat n - oldest_available_seq (rg_capacity r) (Z.of_nat n) + 1))
        with (S (n - S (n - rg_capacity r))) by (rewrite Hold; lia).
      cbn [latest_from]. replace (Z.of_nat n) with (Z.of_nat (Nat.pred n) + 1) by lia.
      by rewrite (rh_recent _ _ Hr _ _ Hx) by (fold n; lia).
  - unfold read_since. rewrite Hlat. destruct (Nat.eqb_spec max_count 0) as [->|Hm]; [done|]. cbn [orb].
    destruct (Z.eqb_spec (Z.of_nat n) 0) as [Hz|Hz]; cbn [orb].
    { destruct snapshots; [|subst n; cbn in Hz; lia]. cbn. by rewrite drop_nil, take_nil. }
    destruct (Z.leb_spec (Z.of_nat n) since) as [Hle|Hlt].
    { rewrite drop_ge by (rewrite length_frames; fold n; lia). by rewrite take_nil. }
    rewrite Hold, <- Hcap. set (i := Nat.max (Z.to_nat since) (n - rg_capacity r)).
    replace (Z.max (since + 1) (Z.of_nat (n - rg_capacity r) + 1)) with (Z.of_nat i + 1) by (subst i; lia).
    replace (Z.to_nat (Z.of_nat n - (Z.of_nat i + 1) + 1)) with (n - i)%nat by lia.
    apply read_from_recent; [done|fold n; subst i; lia|fold n; subst i; lia].
Qed.

(** ** Many threads *)

(** Where a thread is: with a number, holding the lock of its slot, with the
    frame written but not its number, with both written, with the number
    advertised; or reading under the lock. *)
Inductive Phase :=
| Ticket (seq : Z) (frame : A)
| Locked (seq : Z) (frame : A)
| FrameWritten (seq : Z) (frame : A)
| SlotWritten (seq : Z)
| Advertised (seq : Z)
| Reading (seq : Z).

(** The shared ring, its mutexes and its threads; what was handed to [publish],
    in the order of the numbers, and what the readers were given. *)
Record Shared := mkShared {
  sh_ring : Ring;
  sh_locks : gmap nat nat;
  sh_threads : gmap nat Phase;
  sh_issued : list A;
  sh_reads : list (Z * option A)
}.

Definition shared0 (capacity : nat) : Shared := mkShared (new_ring capacity) ∅ ∅ [] [].

(** The slot a thread holds the lock of. *)
Definition holds (capacity : nat) (phase : Phase) : option nat :=
  match phase with
  | Ticket _ _ => None
  | Locked seq _ | FrameWritten seq _ | SlotWritten seq | Advertised seq | Reading seq => Some (index_for capacity seq)
  end.

Definition update_slot (i : nat) (f : Slot → Slot) (r : Ring) : Ring :=
  mkRing (rg_capacity r) (alter f i (rg_slots r)) (rg_next_seq r) (rg_latest_published_seq r) (rg_dropped_frames r).

(** [engine/paper/read/RuntimeSnapshotRing.h:27-42] publish and [read_exact], one atomic operation at a time. *)
Inductive ring_step : Shared → Shared → Prop :=
| step_ticket s t x :
    sh_threads s !! t = None →
    let r := sh_ring s in
    let seq := wrap_u64 (rg_next_seq r + 1) in
    ring_step s (mkShared (mkRing (rg_capacity r) (rg_slots r) seq (rg_latest_published_seq r) (rg_dropped_frames r))
      (sh_locks s) (<[t := Ticket seq (stamp seq x)]> (sh_threads s)) (sh_issued s ++ [x]) (sh_reads s))
| step_lock s t seq frame :
    sh_threads s !! t = Some (Ticket seq frame) →
    let i := index_for (rg_capacity (sh_ring s)) seq in
    sh_locks s !! i = None →
    ring_step s (mkShared (sh_ring s) (<[i := t]> (sh_locks s)) (<[t := Locked seq frame]> (sh_threads s))
      (sh_issued s) (sh_reads s))
| step_drop s t seq frame :
    sh_threads s !! t = Some (Ticket seq frame) →
    let r := sh_ring s in
    ring_step s (mkShared (mkRing (rg_capacity r) (rg_slots r) (rg_next_seq r) (rg_latest_published_seq r)
        (wrap_u64 (rg_dropped_frames r + 1)))
      (sh_locks s) (delete t (sh_threads s)) (sh_issued s) (sh_reads s))
| step_write_frame s t seq frame :
    sh_threads s !! t = Some (Locked seq frame) →
    ring_step s (mkShared
      (update_slot (index_for (rg_capacity (sh_ring s)) seq) (λ slot, mkSlot (sl_seq slot) frame) (sh_ring s))
      (sh_locks s) (<[t := FrameWritten seq frame]> (sh_threads s)) (sh_issued s) (sh_reads s))
| step_write_seq s t seq frame :
    sh_threads s !! t = Some (FrameWritten seq frame) →
    ring_step s (mkShared
      (update_slot (index_for (rg_capacity (sh_ring s)) seq) (λ slot, mkSlot seq (sl_snapshot slot)) (sh_ring s))
      (sh_locks s) (<[t := SlotWritten seq]> (sh_threads s)) (sh_issued s) (sh_reads s))
| step_advertise s t seq :
    sh_threads s !! t = Some (SlotWritten seq) →
    let r := sh_ring s in
    ring_step s (mkShared (mkRing (rg_capacity r) (rg_slots r) (rg_next_seq r) seq (rg_dropped_frames r))
      (sh_locks s) (<[t := Advertised seq]> (sh_threads s)) (sh_issued s) (sh_reads s))
| step_unlock s t seq :
    sh_threads s !! t = Some (Advertised seq) →
    ring_step s (mkShared (sh_ring s) (delete (index_for (rg_capacity (sh_ring s)) seq) (sh_locks s))
      (delete t (sh_threads s)) (sh_issued s) (sh_reads s))
| step_read_lock s t seq :
    1 <= seq → sh_threads s !! t = None →
    let i := index_for (rg_capacity (sh_ring s)) seq in
    sh_locks s !! i = None →
    ring_step s (mkShared (sh_ring s) (<[i := t]> (sh_locks s)) (<[t := Reading seq]> (sh_threads s))
      (sh_issued s) (sh_reads s))
| step_read s t seq :
    sh_threads s !! t = Some (Reading seq) →
    ring_step s (mkShared (sh_ring s) (delete (index_for (rg_capacity (sh_ring s)) seq) (sh_locks s))
      (delete t (sh_threads s)) (sh_issued s) (sh_reads s ++ [(seq, read_exact (sh_ring s) seq)]))
| step_read_busy s seq :
    1 <= seq →
    ring_step s (mkShared (sh_ring s) (sh_locks s) (sh_threads s) (sh_issued s) (sh_reads s ++ [(seq, None)])).

(** A frame is the one that was published under a number. *)
Definition issued_as (issued : list A) (seq : Z) (frame : A) : Prop :=
  1 <= seq ∧ ∃ x, issued !! Z.to_nat (seq - 1) = Some x ∧ frame = stamp seq x.

(** What a thread carries was issued. *)
Definition phase_ok (issued : list A) (phase : Phase) : Prop :=
  match phase with
  | Ticket seq frame | Locked seq frame | FrameWritten seq frame => issued_as issued seq frame
  | SlotWritten _ | Advertised _ => True
  | Reading seq => 1 <= seq
  end.

(** What a slot holds, given the phase of the thread that has its lock: a frame
    and its number, except between the two writes. *)
Definition slot_ok (issued : list A) (holder : option Phase) (slot : Slot) : Prop :=
  match holder with
  | Some (FrameWritten seq frame) => sl_snapshot slot = frame
  | _ => sl_seq slot = 0 ∨ issued_as issued (sl_seq slot) (sl_snapshot slot)
  end.

(** The mutexes and the phases agree: a slot is locked by exactly the thread
    whose phase holds it. *)
Definition lock_inv (capacity : nat) (locks : gmap nat nat) (threads : gmap nat Phase) : Prop :=
  ∀ i t, locks !! i = Some t ↔ ∃ phase, threads !! t = Some phase ∧ holds capacity phase = Some i.

(** The phase of the thread that has a lock. *)
Definition holder (locks : gmap nat nat) (threads : gmap nat Phase) (i : nat) : option Phase :=
  t ← locks !! i; threads !! t.

Record ring_inv (s : Shared) : Prop := {
  ri_next : rg_next_seq (sh_ring s) = Z.of_nat (length (sh_issued s));
  ri_locks : lock_inv (rg_capacity (sh_ring s)) (sh_locks s) (sh_threads s);
  ri_threads t phase : sh_threads s !! t = Some phase → phase_ok (sh_issued s) phase;
  ri_slots i slot : rg_slots (sh_ring s) !! i = Some slot →
    slot_ok (sh_issued s) (holder (sh_locks s) (sh_threads s) i) slot;
  ri_reads seq frame : (seq, Some frame) ∈ sh_reads s → issued_as (sh_issued s) seq frame
}.

Section locks.
Context (c : nat) (locks : gmap nat nat) (threads : gmap nat Phase) (Hinv : lock_inv c locks threads).

(** A thread that moves on without touching a lock. *)
Lemma lock_move t phase phase' :
  threads !! t = Some phase → holds c phase' = holds c phase →
  lock_inv c locks (<[t := phase']> threads) ∧
  ∀ i, holder locks (<[t := phase']> threads) i =
       if decide (holds c phase = Some i) then Some phase' else holder locks threads i.
Proof.
  intros Ht Hh. split.
  - intros i u. rewrite (Hinv i u). destruct (decide (u = t)) as [->|Hu].
    + rewrite lookup_insert_eq. split; intros (ph & Hph & Hi); simplify_eq; eexists; (split; [done|congruence]).
    + by rewrite lookup_insert_ne.
  - intros i. unfold holder. destruct (decide _) as [Hi|Hi].
    + rewrite (proj2 (Hinv i t)) by eauto. cbn. by rewrite lookup_insert_eq.
    + destruct (locks !! i) as [u|] eqn:Hu; [|done]. cbn. apply Hinv in Hu as (ph & Hph & Hhi).
      rewrite lookup_insert_ne; [done|]. intros ->. congruence.
Qed.

(** A thread that takes a free lock. *)
Lemma lock_acquire t i phase' :
  (∀ phase, threads !! t = Some phase → holds c phase = None) → locks !! i = None → holds c phase' = Some i →
  lock_inv c (<[i := t]> locks) (<[t := phase']> threads) ∧
  ∀ j, holder (<[i := t]> locks) (<[t := phase']> threads) j =
       if decide (i = j) then Some phase' else holder locks threads j.
Proof.
  intros Ht Hi Hh.
  assert (Hno : ∀ j u, locks !! j = Some u → u ≠ t).
  { intros j u Hj ->. apply Hinv in Hj as (ph & Hph & Hhj). rewrite (Ht _ Hph) in Hhj. done. }
  split.
  - intros j u. destruct (decide (j = i)) as [->|Hj].
    + rewrite lookup_insert_eq. split.
      * intros [= ->]. exists phase'. by rewrite lookup_insert_eq.
      * intros (ph & Hph & Hhi). destruct (decide (u = t)) as [->|Hu]; [done|].
        rewrite lookup_insert_ne in Hph by done. assert (locks !! i = Some u) by (apply Hinv; eauto). congruence.
    + rewrite lookup_insert_ne by done. rewrite (Hinv j u). destruct (decide (u = t)) as [->|Hu].
      * rewrite lookup_insert_eq. split; [|intros (ph & [= <-] & Hhj); congruence].
        intros (ph & Hph & Hhj). rewrite (Ht _ Hph) in Hhj. done.
      * by rewrite lookup_insert_ne.
  - intros j. unfold holder. destruct (decide (i = j)) as [<-|Hj].
    + rewrite lookup_insert_eq. cbn. by rewrite lookup_insert_eq.
    + rewrite lookup_insert_ne by done. destruct (locks !! j) as [u|] eqn:Hu; [|done]. cbn.
      rewrite lookup_insert_ne; [done|]. apply not_eq_sym. by apply (Hno j).
Qed.

(** A thread that gives its lock back and ends. *)
Lemma lock_release t i phase :
  threads !! t = Some phase → holds c phase = Some i →
  lock_inv c (delete i locks) (delete t threads) ∧
  ∀ j, holder (delete i locks) (delete t threads) j = if decide (i = j) then None else holder locks threads j.
Proof.
  intros Ht Hh.
  assert (Hi : locks !! i = Some t) by (apply Hinv; eauto).
  split.
  - intros j u. destruct (decide (j = i)) as [->|Hj].
    + rewrite lookup_delete_eq. split; [done|]. intros (ph & [Hne Hph]%lookup_delete_Some & Hhi).
      assert (locks !! i = Some u) by (apply Hinv; eauto). congruence.
    + rewrite lookup_delete_ne by done. rewrite (Hinv j u). destruct (decide (u = t)) as [->|Hu].
      * rewrite lookup_delete_eq. split; intros (ph & Hph & Hhj); congruence.
      * by rewrite lookup_delete_ne.
  - intros j. unfold holder. destruct (decide (i = j)) as [<-|Hj]; [by rewrite lookup_delete_eq|].
    rewrite lookup_delete_ne by done. destruct (locks !! j) as [u|] eqn:Hu; [|done]. cbn.
    rewrite lookup_delete_ne; [done|]. intros ->. apply Hinv in Hu as (ph & Hph & Hhj). congruence.
Qed.

(** A thread without a lock that starts or ends. *)
Lemma lock_unheld t phase' :
  (∀ phase, threads !! t = Some phase → holds c phase = None) →
  (∀ phase, phase' = Some phase → holds c phase = None) →
  lock_inv c locks (partial_alter (λ _, phase') t threads) ∧
  ∀ j, holder locks (partial_alter (λ _, phase') t threads) j = holder locks threads j.
Proof.
  intros Ht Hh. split.
  - intros i u. rewrite (Hinv i u). destruct (decide (u = t)) as [->|Hu].
    + rewrite lookup_partial_alter_eq. split; intros (ph & Hph & Hhi).
      * rewrite (Ht _ Hph) in Hhi. done.
      * rewrite (Hh _ Hph) in Hhi. done.
    + by rewrite lookup_partial_alter_ne.
  - intros j. unfold holder. destruct (locks !! j) as [u|] eqn:Hu; [|done]. cbn.
    rewrite lookup_partial_alter_ne; [done|]. intros ->. apply Hinv in Hu as (ph & Hph & Hhj).
    rewrite (Ht _ Hph) in Hhj. done.
Qed.
End locks.

Lemma issued_as_app issued more seq frame : issued_as issued seq frame → issued_as (issued ++ more) seq frame.
Proof. intros [H (x & Hx & ->)]. split; [done|]. exists x. split; [by apply lookup_app_l_Some|done]. Qed.

Lemma phase_ok_app issued more phase : phase_ok issued phase → phase_ok (issued ++ more) phase.
Proof. destruct phase; cbn; auto using issued_as_app. Qed.

Lemma slot_ok_app issued more h slot : slot_ok issued h slot → slot_ok (issued ++ more) h slot.
Proof. destruct h as [[]|]; cbn; naive_solver eauto using issued_as_app. Qed.

(** Slots whose lock is free, or not between the two writes. *)
Definition settled (h : option Phase) : Prop := match h with Some (FrameWritten _ _) => False | _ => True end.

Lemma slot_ok_settled issued h1 h2 slot : settled h1 → settled h2 → slot_ok issued h1 slot → slot_ok issued h2 slot.
Proof. by destruct h1 as [[]|], h2 as [[]|]. Qed.

Lemma threads_insert_ok issued (threads : gmap nat Phase) t phase' :
  phase_ok issued phase' → (∀ u phase, threads !! u = Some phase → phase_ok issued phase) →
  ∀ u phase, <[t := phase']> threads !! u = Some phase → phase_ok issued phase.
Proof. intros H1 H2 u phase [[<- <-]|[_ Hu]]%lookup_insert_Some; eauto. Qed.

Lemma threads_delete_ok issued (threads : gmap nat Phase) t :
  (∀ u phase, threads !! u = Some phase → phase_ok issued phase) →
  ∀ u phase, delete t threads !! u = Some phase → phase_ok issued phase.
Proof. intros H u phase [_ Hu]%lookup_delete_Some; eauto. Qed.

(** A thread moves between two phases that hold the same settled slot. *)
Lemma slots_after (issued : list A) h h' (slots : list Slot) :
  (∀ i slot, slots !! i = Some slot → slot_ok issued (h i) slot) →
  (∀ i, h' i = h i ∨ (settled (h i) ∧ settled (h' i))) →
  ∀ i slot, slots !! i = Some slot → slot_ok issued (h' i) slot.
Proof. intros H Hh i slot Hi. destruct (Hh i) as [->|[H1 H2]]; [by apply H|].
  apply (slot_ok_settled _ (h i)); [done|done|by apply H]. Qed.

Lemma holder_own s t phase i :
  ring_inv s → sh_threads s !! t = Some phase → holds (rg_capacity (sh_ring s)) phase = Some i →
  holder (sh_locks s) (sh_threads s) i = Some phase.
Proof.
  intros Hinv Ht Hi. unfold holder. rewrite (proj2 (ri_locks s Hinv i t)) by eauto. cbn. done.
Qed.

Lemma reads_app_ok issued (reads : list (Z * option A)) seq result :
  (∀ frame, result = Some frame → issued_as issued seq frame) →
  (∀ q frame, (q, Some frame) ∈ reads → issued_as issued q frame) →
  ∀ q frame, (q, Some frame) ∈ reads ++ [(seq, result)] → issued_as issued q frame.
Proof. intros H1 H2 q frame [Hq|[= -> <-]%list_elem_of_singleton]%elem_of_app; auto. Qed.

Lemma ring_step_inv s s' :
  Z.of_nat (length (sh_issued s')) < u64_mod → ring_step s s' → ring_inv s → ring_inv s'.
Proof.
  intros Hlen Hstep Hinv. pose proof Hinv as [Hnext Hlocks Hthreads Hslots Hreads].
  destruct Hstep as [s t x Ht r seq|s t seq frame Ht i Hi|s t seq frame Ht r|s t seq frame Ht|s t seq frame Ht
    |s t seq Ht r|s t seq Ht|s t seq Hseq Ht i Hi|s t seq Ht|s seq Hseq].
  - cbn [sh_issued] in Hlen. rewrite length_app in Hlen. cbn in Hlen.
    assert (Hs : seq = Z.of_nat (length (sh_issued s)) + 1).
    { subst seq r. rewrite Hnext. apply wrap_u64_id. unfold in_u64. lia. }
    destruct (lock_unheld _ _ _ Hlocks t (Some (Ticket seq (stamp seq x)))) as [H1 H2];
      [intros ph Hph; congruence|by intros ph [= <-]|].
    constructor; cbn [sh_ring sh_locks sh_threads sh_issued sh_reads rg_next_seq rg_capacity rg_slots]; try done.
    + rewrite length_app. cbn. lia.
    + apply threads_insert_ok; [|eauto using phase_ok_app]. split; [lia|]. exists x. split; [|done].
      rewrite Hs. replace (Z.to_nat _) with (length (sh_issued s)) by lia. by apply list_lookup_middle.
    + intros i slot Hi. apply slot_ok_app. specialize (Hslots _ _ Hi). rewrite <- H2 in Hslots. exact Hslots.
    + eauto using issued_as_app.
  - destruct (lock_acquire _ _ _ Hlocks t i (Locked seq frame)) as [H1 H2];
      [intros ph Hph; rewrite Ht in Hph; by injection Hph as <-|done|done|].
    constructor; cbn [sh_ring sh_locks sh_threads sh_issued sh_reads]; try done.
    + apply threads_insert_ok; [|done]. apply (Hthreads _ _ Ht).
    + apply (slots_after _ _ _ _ Hslots). intros j. rewrite H2. destruct (decide (i = j)) as [<-|]; [|by left].
      right. split; [|done]. unfold holder. by rewrite Hi.
  - destruct (lock_unheld _ _ _ Hlocks t None) as [H1 H2];
      [intros ph Hph; rewrite Ht in Hph; by injection Hph as <-|done|].
    constructor; cbn [sh_ring sh_locks sh_threads sh_issued sh_reads rg_next_seq rg_capacity rg_slots]; try done.
    + by apply threads_delete_ok.
    + intros j slot Hj. specialize (Hslots _ _ Hj). rewrite <- H2 in Hslots. exact Hslots.
  - destruct (lock_move _ _ _ Hlocks t _ (FrameWritten seq frame) Ht eq_refl) as [H1 H2].
    constructor; cbn [update_slot sh_ring sh_locks sh_threads sh_issued sh_reads rg_next_seq rg_capacity rg_slots]; try done.
    + apply threads_insert_ok; [|done]. apply (Hthreads _ _ Ht).
    + intros j slot Hj. rewrite H2. set (i := index_for _ seq) in *. cbn [holds].
      destruct (decide (Some _ = Some j)) as [[= <-]|Hne].
      * rewrite list_lookup_alter, decide_True in Hj by done.
        apply fmap_Some in Hj as (old & _ & ->). done.
      * rewrite list_lookup_alter_ne in Hj by (intros Heq; apply Hne; by f_equal). eauto.
  - destruct (lock_move _ _ _ Hlocks t _ (SlotWritten seq) Ht eq_refl) as [H1 H2].
    constructor; cbn [update_slot sh_ring sh_locks sh_threads sh_issued sh_reads rg_next_seq rg_capacity rg_slots]; try done.
    + by apply threads_insert_ok.
    + intros j slot Hj. rewrite H2. cbn [holds].
      destruct (decide (Some _ = Some j)) as [[= <-]|Hne].
      * rewrite list_lookup_alter, decide_True in Hj by done.
        apply fmap_Some in Hj as (old & Hold & ->). specialize (Hslots _ _ Hold).
        rewrite (holder_own s t _ _ Hinv Ht eq_refl) in Hslots. cbn in *. right. rewrite Hslots. apply (Hthreads _ _ Ht).
      * rewrite list_lookup_alter_ne in Hj by (intros Heq; apply Hne; by f_equal). eauto.
  - destruct (lock_move _ _ _ Hlocks t _ (Advertised seq) Ht eq_refl) as [H1 H2].
    constructor; cbn [sh_ring sh_locks sh_threads sh_issued sh_reads rg_next_seq rg_capacity rg_slots]; try done.
    + by apply threads_insert_ok.
    + apply (slots_after _ _ _ _ Hslots). intros j. rewrite H2. case_decide as Hj; [|by left].
      right. by rewrite (holder_own s t _ _ Hinv Ht Hj).
  - destruct (lock_release _ _ _ Hlocks t _ _ Ht eq_refl) as [H1 H2].
    constructor; cbn [sh_ring sh_locks sh_threads sh_issued sh_reads]; try done.
    + by apply threads_delete_ok.
    + apply (slots_after _ _ _ _ Hslots). intros j. rewrite H2. case_decide as Hj; [|by left].
      right. subst j. by rewrite (holder_own s t _ _ Hinv Ht eq_refl).
  - destruct (lock_acquire _ _ _ Hlocks t i (Reading seq)) as [H1 H2];
      [intros ph Hph; congruence|done|done|].
    constructor; cbn [sh_ring sh_locks sh_threads sh_issued sh_reads]; try done.
    + by apply threads_insert_ok.
    + apply (slots_after _ _ _ _ Hslots). intros j. rewrite H2. destruct (decide (i = j)) as [<-|]; [|by left].
      right. split; [|done]. unfold holder. by rewrite Hi.
  - destruct (lock_release _ _ _ Hlocks t _ _ Ht eq_refl) as [H1 H2].
    constructor; cbn [sh_ring sh_locks sh_threads sh_issued sh_reads]; try done.
    + by apply threads_delete_ok.
    + apply (slots_after _ _ _ _ Hslots). intros j. rewrite H2. case_decide as Hj; [|by left].
      right. subst j. by rewrite (holder_own s t _ _ Hinv Ht eq_refl).
    + apply reads_app_ok; [|done]. unfold read_exact, read_slot. intros frame Hread.
      destruct (rg_slots (sh_ring s) !! _) as [slot|] eqn:Hslot; [|done]. specialize (Hslots _ _ Hslot).
      rewrite (holder_own s t _ _ Hinv Ht eq_refl) in Hslots. cbn in Hslots.
      destruct (Z.eqb_spec (sl_seq slot) seq) as [<-|]; [|done]. injection Hread as <-.
      destruct Hslots as [Hz|]; [|done]. pose proof (Hthreads _ _ Ht) as Hpos. cbn in Hpos. lia.
  - constructor; cbn [sh_ring sh_locks sh_threads sh_issued sh_reads]; try done. by apply reads_app_ok.
Qed.

Lemma ring_step_issued s s' : ring_step s s' → (length (sh_issued s) <= length (sh_issued s'))%nat.
Proof. destruct 1; cbn [sh_issued]; rewrite ?length_app; lia. Qed.

Lemma shared0_inv capacity : ring_inv (shared0 capacity).
Proof.
  constructor; cbn; try done.
  - intros i t. rewrite lookup_empty. split; [done|]. intros (ph & Hph & _). by rewrite lookup_empty in Hph.
  - intros i slot Hi. apply lookup_replicate in Hi as [-> _]. unfold holder. rewrite lookup_empty. by left.
  - intros seq frame Hin. by apply not_elem_of_nil in Hin.
Qed.

Lemma reachable_inv capacity s :
  rtc ring_step (shared0 capacity) s → Z.of_nat (length (sh_issued s)) < u64_mod → ring_inv s.
Proof.
  revert s. apply (rtc_ind_r (λ s, Z.of_nat (length (sh_issued s)) < u64_mod → ring_inv s)).
  - intros _. apply shared0_inv.
  - intros s1 s2 _ Hstep IH Hlen. apply (ring_step_inv s1); [done|done|]. apply IH.
    pose proof (ring_step_issued _ _ Hstep). lia.
Qed.

(** C39. Readers only ever see whole frames: however publishers and readers
    interleave, as long as fewer than [2^64] frames were handed to [publish],
    a frame a reader got for a number is the very one that was published under
    that number - never a mix of two, and never another's - and no two threads
    are inside the same slot at once. *)
Theorem reads_are_published capacity s :
  rtc ring_step (shared0 capacity) s → Z.of_nat (length (sh_issued s)) < u64_mod →
  (∀ seq frame, (seq, Some frame) ∈ sh_reads s →
     1 <= seq ∧ ∃ x, sh_issued s !! Z.to_nat (seq - 1) = Some x ∧ frame = stamp seq x) ∧
  (∀ t u p q i, sh_threads s !! t = Some p → sh_threads s !! u = Some q →
     holds (rg_capacity (sh_ring s)) p = Some i → holds (rg_capacity (sh_ring s)) q = Some i → t = u).
Proof.
  intros Hrun Hlen. pose proof (reachable_inv capacity s Hrun Hlen) as Hinv. split; [apply (ri_reads s Hinv)|].
  intros t u p q i Ht Hu Hp Hq.
  assert (sh_locks s !! i = Some t) by (apply (ri_locks s Hinv); eauto).
  assert (sh_locks s !! i = Some u) by (apply (ri_locks s Hinv); eauto). congruence.
Qed.

(** A scheduler: start a publisher or a reader, or let a thread take its next step. *)
Inductive Action := StartPublish (t : nat) (x : A) | StartRead (t : nat) (seq : Z) | Advance (t : nat).

Definition advance (s : Shared) (t : nat) : option Shared :=
  let r := sh_ring s in
  let i := index_for (rg_capacity r) in
  let next phase := <[t := phase]> (sh_threads s) in
  match sh_threads s !! t with
  | None => None
  | Some (Ticket seq frame) =>
      match sh_locks s !! i seq with
      | Some _ => None
      | None => Some (mkShared r (<[i seq := t]> (sh_locks s)) (next (Locked seq frame)) (sh_issued s) (sh_reads s))
      end
  | Some (Locked seq frame) =>
      Some (mkShared (update_slot (i seq) (λ slot, mkSlot (sl_seq slot) frame) r) (sh_locks s)
              (next (FrameWritten seq frame)) (sh_issued s) (sh_reads s))
  | Some (FrameWritten seq frame) =>
      Some (mkShared (update_slot (i seq) (λ slot, mkSlot seq (sl_snapshot slot)) r) (sh_locks s)
              (next (SlotWritten seq)) (sh_issued s) (sh_reads s))
  | Some (SlotWritten seq) =>
      Some (mkShared (mkRing (rg_capacity r) (rg_slots r) (rg_next_seq r) seq (rg_dropped_frames r)) (sh_locks s)
              (next (Advertised seq)) (sh_issued s) (sh_reads s))
  | Some (Advertised seq) =>
      Some (mkShared r (delete (i seq) (sh_locks s)) (delete t (sh_threads s)) (sh_issued s) (sh_reads s))
  | Some (Reading seq) =>
      Some (mkShared r (delete (i seq) (sh_locks s)) (delete t (sh_threads s)) (sh_issued s)
              (sh_reads s ++ [(seq, read_exact r seq)]))
  end.

Definition act (s : Shared) (a : Action) : option Shared :=
  let r := sh_ring s in
  match a with
  | StartPublish t x =>
      match sh_threads s !! t with
      | Some _ => None
      | None =>
          let seq := wrap_u64 (rg_next_seq r + 1) in
          Some (mkShared (mkRing (rg_capacity r) (rg_slots r) seq (rg_latest_published_seq r) (rg_dropped_frames r))
            (sh_locks s) (<[t := Ticket seq (stamp seq x)]> (sh_threads s)) (sh_issued s ++ [x]) (sh_reads s))
      end
  | StartRead t seq =>
      match sh_threads s !! t, sh_locks s !! index_for (rg_capacity r) seq with
      | None, None =>
          if 1 <=? seq then
            Some (mkShared r (<[index_for (rg_capacity r) seq := t]> (sh_locks s))
                    (<[t := Reading seq]> (sh_threads s)) (sh_issued s) (sh_reads s))
          else None
      | _, _ => None
      end
  | Advance t => advance s t
  end.

Fixpoint run_actions (s : Shared) (actions : list Action) : option Shared :=
  match actions with
  | [] => Some s
  | a :: rest => s1 ← act s a; run_actions s1 rest
  end.

Lemma act_step s a s' : act s a = Some s' → ring_step s s'.
Proof.
  destruct a as [t x|t seq|t]; cbn [act].
  - destruct (sh_threads s !! t) eqn:Ht; [done|]. intros [= <-]. by apply step_ticket.
  - destruct (sh_threads s !! t) eqn:Ht; [done|]. destruct (sh_locks s !! _) eqn:Hi; [done|].
    destruct (Z.leb_spec 1 seq); [|done]. intros [= <-]. by apply step_read_lock.
  - unfold advance. destruct (sh_threads s !! t) as [[]|] eqn:Ht; [..|done].
    2-6: intros [= <-]; by econstructor.
    destruct (sh_locks s !! _) eqn:Hi; [done|]. intros [= <-]. by apply step_lock.
Qed.

Lemma run_actions_reach s actions s' : run_actions s actions = Some s' → rtc ring_step s s'.
Proof.
  revert s; induction actions as [|a actions IH]; intros s; cbn; [by intros [= <-]|].
  destruct (act s a) as [s1|] eqn:Ha; [|done]. cbn. intros H. eapply rtc_l; [by eapply act_step|by apply IH].
Qed.
End ring.

(** *** Concrete runs *)

(** Frames that remember their number. *)
Definition demo_stamp (seq : Z) (x : Z * Z) : Z * Z := (seq, snd x).

Lemma ring_refines_suffix_witness :
  let r := publish_all demo_stamp (new_ring (0, 0) 2) [(0, 10); (0, 20); (0, 30)] in
  latest r = Some (3, 30) ∧ read_since r 0 5 = [(2, 20); (3, 30)].
Proof.
  assert (Hn : Z.of_nat (length [(0, 10); (0, 20); (0, 30)]) < u64_mod) by (vm_compute; reflexivity).
  assert (Hs : 0 <= 0) by lia.
  destruct (ring_refines_suffix demo_stamp (0, 0) 2 [(0, 10); (0, 20); (0, 30)] 0 5 Hn Hs) as [H1 H2].
  cbv zeta. rewrite H1, H2. split; reflexivity.
Defined.

(** A reader that overlaps a publisher on another slot gets the frame it asked for. *)
Definition demo_actions : list (@Action (Z * Z)) :=
  [StartPublish 1 (0, 10); Advance 1; Advance 1; Advance 1; Advance 1; Advance 1;
   StartPublish 2 (0, 20); Advance 2; StartRead 3 1; Advance 2; Advance 3].

Lemma reads_are_published_witness :
  ∃ s, run_actions demo_stamp (shared0 (0, 0) 2) demo_actions = Some s ∧ sh_reads s = [(1, Some (1, 10))] ∧
    ∃ x, sh_issued s !! 0%nat = Some x ∧ (1, 10) = demo_stamp 1 x.
Proof.
  assert (Hsome : match run_actions demo_stamp (shared0 (0, 0) 2) demo_actions with
    | Some s => Z.of_nat (length (sh_issued s)) < u64_mod ∧ sh_reads s = [(1, Some (1, 10))]
    | None => False end) by (vm_compute; split; reflexivity).
  destruct (run_actions demo_stamp (shared0 (0, 0) 2) demo_actions) as [s|] eqn:Hrun; [|destruct Hsome].
  destruct Hsome as [Hlen Hreads]. exists s. split; [reflexivity|]. split; [exact Hreads|].
  pose proof (run_actions_reach _ _ _ _ Hrun) as Hreach.
  destruct (reads_are_published demo_stamp (0, 0) 2 s Hreach Hlen) as [H _].
  destruct (H 1 (1, 10)) as (_ & x & Hx & Hf); [rewrite Hreads; left|]. exists x. split; [exact Hx|exact Hf].
Defined.

(** Two publishers hold tickets 1 and 2 of a ring with two slots; the second
    advertises first, and the first then takes the latest number back. *)
Definition overtaken : list (@Action (Z * Z)) :=
  [StartPublish 1 (0, 10); StartPublish 2 (0, 20); Advance 1; Advance 2; Advance 1; Advance 2; Advance 1; Advance 2;
   Advance 2].

Lemma latest_goes_back :
  ∃ s1 s2, rtc (ring_step demo_stamp) (shared0 (0, 0) 2) s1 ∧ ring_step demo_stamp s1 s2 ∧
    rg_latest_published_seq (sh_ring s1) = 2 ∧ rg_latest_published_seq (sh_ring s2) = 1.
Proof.
  destruct (run_actions demo_stamp (shared0 (0, 0) 2) overtaken) as [s1|] eqn:H1; [|vm_compute in H1; discriminate H1].
  destruct (act demo_stamp s1 (Advance 1)) as [s2|] eqn:H2.
  - exists s1, s2. split; [by eapply run_actions_reach|]. split; [by eapply act_step|].
    vm_compute in H1. injection H1 as <-. vm_compute in H2. injection H2 as <-. done.
  - vm_compute in H1. injection H1 as <-. vm_compute in H2. discriminate H2.
Qed.
