(* ===== verification/OracleRules.v ===== *)
(** * OracleRules: from approved rules to linear constraints

    [oracle/rules] and [oracle/compiler].  A rulebook says how outcomes of
    markets exclude or imply each other; the compiler numbers the variables and
    turns every rule into a linear constraint over them.  Reading and writing
    rulebooks as JSON is not modelled. *)

From stdpp Require Import pretty.
From S2P Require Import Prelude Hashing Bundles.
#[local] Open Scope Z_scope.

(** ** Rules *)

(** [oracle/rules/RuleDraft.h:9-19] RuleType. *)
Inductive RuleType :=
  MutuallyExclusive | CollectivelyExhaustive | AtMostOne | AtLeastOne | ExactlyOne | Implies | Equivalent | Disjoint | Custom.
#[export] Instance RuleType_eq_dec : EqDecision RuleType.
Proof. solve_decision. Defined.

(** [oracle/rules/RuleDraft.h:21-24] RuleCoverage. *)
Inductive RuleCoverage := ExclusiveOnly | ExhaustiveAndExclusive.

(** [oracle/rules/RuleDraft.h:26-37] RuleDraft. *)
Record RuleDraft := mkRuleDraft {
  rd_rule_id : string;
  rd_type : RuleType;
  rd_coverage : RuleCoverage;
  rd_variable_ids : list string;
  rd_source_text : string;
  rd_rationale : string;
  rd_requires_manual_review : bool
}.

(** [oracle/rules/ValidatedRule.h:11-23] ValidatedRule. *)
Record ValidatedRule := mkValidatedRule {
  vr_rule_id : string;
  vr_type : RuleType;
  vr_coverage : RuleCoverage;
  vr_variable_ids : list string;
  vr_approved : bool;
  vr_approved_by : string;
  vr_approved_at_ns : Z;
  vr_source_rule_draft_id : string
}.

(** [oracle/rules/Rulebook.h:20-39] Rulebook: its rules, in the order they were added. *)
Record Rulebook := mkRulebook { rb_rules : list ValidatedRule }.

(** [oracle/rules/Rulebook.cpp:231-233] add_rule. *)
Definition add_rule (book : Rulebook) (rule : ValidatedRule) : Rulebook := mkRulebook (rb_rules book ++ [rule]).

(** [oracle/rules/Rulebook.cpp:243-251] approved_rules. *)
Definition approved_rules (book : Rulebook) : list ValidatedRule := filter (λ r, vr_approved r = true) (rb_rules book).

(** [oracle/rules/Rulebook.cpp:253-261] unapproved_rules. *)
Definition unapproved_rules (book : Rulebook) : list ValidatedRule := filter (λ r, vr_approved r = false) (rb_rules book).

(** [oracle/rules/Rulebook.cpp:163-186] rule_type_to_string. *)
Definition rule_type_to_string (type : RuleType) : string :=
  match type with
  | MutuallyExclusive => "MutuallyExclusive"
  | CollectivelyExhaustive => "CollectivelyExhaustive"
  | AtMostOne => "AtMostOne"
  | AtLeastOne => "AtLeastOne"
  | ExactlyOne => "ExactlyOne"
  | Implies => "Implies"
  | Equivalent => "Equivalent"
  | Disjoint => "Disjoint"
  | Custom => "Custom"
  end.

(** [oracle/rules/Rulebook.cpp:15-28] rule_type_map. *)
Definition rule_type_map : gmap string RuleType :=
  list_to_map [("MutuallyExclusive", MutuallyExclusive); ("CollectivelyExhaustive", CollectivelyExhaustive);
    ("AtMostOne", AtMostOne); ("AtLeastOne", AtLeastOne); ("ExactlyOne", ExactlyOne); ("Implies", Implies);
    ("Equivalent", Equivalent); ("Disjoint", Disjoint); ("Custom", Custom)]%string.

(** [oracle/rules/Rulebook.cpp:188-200] rule_type_from_string. *)
Definition rule_type_from_string (value : string) : option RuleType := rule_type_map !! value.

(** [oracle/rules/Rulebook.cpp:227-229] rule_is_exhaustive. *)
Definition rule_is_exhaustive (coverage : RuleCoverage) : bool :=
  match coverage with ExhaustiveAndExclusive => true | ExclusiveOnly => false end.

(** [oracle/rules/ManualRuleEditor.cpp:226-241] approve_draft. *)
Definition approve_draft (draft : RuleDraft) (approved_by : string) (approved_at_ns : Z) : ValidatedRule :=
  mkValidatedRule (rd_rule_id draft) (rd_type draft) (rd_coverage draft) (rd_variable_ids draft) true approved_by
    approved_at_ns (rd_rule_id draft).

(** [oracle/rules/ManualRuleEditor.cpp:243-257] approve_drafts. *)
Definition approve_drafts (drafts : list RuleDraft) (approved_by : string) (approved_at_ns : Z) : Rulebook :=
  foldl (λ book draft, add_rule book (approve_draft draft approved_by approved_at_ns)) (mkRulebook []) drafts.

(** ** The rule validator *)

(** [oracle/rules/RuleValidator.h:11-23] RulebookValidationResult; warnings are never added. *)
Record RulebookValidationResult := mkRulebookValidationResult {
  rv_errors : list string;
  rv_unapproved_rules : list string
}.

(** [oracle/rules/RuleValidator.h:20-22] compiler_ready. *)
Definition compiler_ready (result : RulebookValidationResult) : bool :=
  bool_decide (rv_errors result = []) && bool_decide (rv_unapproved_rules result = []).

(** [oracle/rules/RuleValidator.cpp:32-47] validate_rulebook, one variable of a rule. *)
Definition rule_variable_error (rule_id : string) (known_variables : gset string) (variable_id : string) : option string :=
  if String.eqb variable_id "" then Some ("rule " ++ rule_id ++ " has empty variable_id")%string
  else if negb (bool_decide (known_variables = ∅)) && bool_decide (variable_id ∉ known_variables)
  then Some ("rule " ++ rule_id ++ " references unknown variable: " ++ variable_id)%string
  else None.

(** [oracle/rules/RuleValidator.cpp:15-47] validate_rulebook, the errors of one rule. *)
Definition rule_errors (known_variables seen : gset string) (rule : ValidatedRule) : list string :=
  let id := vr_rule_id rule in
  (if String.eqb id "" then ["rule missing rule_id"]
   else if bool_decide (id ∈ seen) then ["duplicate rule_id: " ++ id] else [])%string ++
  (if bool_decide (vr_variable_ids rule = []) then ["rule " ++ id ++ " has empty variable set"] else [])%string ++
  omap (rule_variable_error id known_variables) (vr_variable_ids rule).

(** [oracle/rules/RuleValidator.cpp:14-52] validate_rulebook, the loop over the rules. *)
Fixpoint validate_rules (known_variables seen : gset string) (rules : list ValidatedRule) : RulebookValidationResult :=
  match rules with
  | [] => mkRulebookValidationResult [] []
  | rule :: rest =>
      let tail := validate_rules known_variables
        (if String.eqb (vr_rule_id rule) "" then seen else {[vr_rule_id rule]} ∪ seen) rest in
      mkRulebookValidationResult (rule_errors known_variables seen rule ++ rv_errors tail)
        ((if vr_approved rule then [] else [vr_rule_id rule]) ++ rv_unapproved_rules tail)
  end.

(** [oracle/rules/RuleValidator.cpp:7-55] validate_rulebook. *)
Definition validate_rulebook (book : Rulebook) (known_variables : gset string) : RulebookValidationResult :=
  validate_rules known_variables ∅ (rb_rules book).

(** ** Variables and constraints *)

(** [oracle/compiler/BooleanVariable.h:9-16] BooleanVariable. *)
Record BooleanVariable := mkBooleanVariable {
  bv_var_id : Z;
  bv_variable_key : string;
  bv_market_id : string;
  bv_outcome_id : string;
  bv_asset_id : string
}.

(** [oracle/compiler/Constraint.h:8-12] ConstraintOp. *)
Inductive ConstraintOp := Equal | LessEqual | GreaterEqual.
#[export] Instance ConstraintOp_eq_dec : EqDecision ConstraintOp.
Proof. solve_decision. Defined.
Definition constraint_op_value (op : ConstraintOp) : Z := match op with Equal => 0 | LessEqual => 1 | GreaterEqual => 2 end.

(** [oracle/compiler/Constraint.h:14-20] LinearBooleanConstraint. *)
Record LinearBooleanConstraint := mkLinearBooleanConstraint {
  lc_var_ids : list Z;
  lc_coeffs : list Z;
  lc_op : ConstraintOp;
  lc_rhs : Z
}.

(** [oracle/compiler/ConstraintCompiler.h:13-17] CompiledConstraintSet. *)
Record CompiledConstraintSet := mkCompiledConstraintSet {
  cc_variables : list BooleanVariable;
  cc_constraints : list LinearBooleanConstraint;
  cc_constraint_hash : Z
}.

(** [oracle/compiler/BooleanConstraintBuilder.h:23-23] VariableIndex. *)
Abbreviation VariableIndex := (gmap string Z).

(** A constraint, or what is wrong with it. *)
Abbreviation BuildResult := (list string + LinearBooleanConstraint)%type.

(** [oracle/compiler/BooleanConstraintBuilder.cpp:7-21] append_var_id: an id, or an error. *)
Definition find_var_id (index : VariableIndex) (variable_key : string) : string + Z :=
  match index !! variable_key with
  | None => inl ("unknown variable: " ++ variable_key)%string
  | Some id => inr id
  end.

(** The errors and the values of a list of attempts. *)
Definition lefts {A B} (l : list (A + B)) : list A := omap (λ x, match x with inl a => Some a | inr _ => None end) l.
Definition rights {A B} (l : list (A + B)) : list B := omap (λ x, match x with inl _ => None | inr b => Some b end) l.

(** [oracle/compiler/BooleanConstraintBuilder.cpp:89-114] sum_constraint. *)
Definition sum_constraint (variable_keys : list string) (index : VariableIndex) (op : ConstraintOp) (rhs : Z) : BuildResult :=
  match variable_keys with
  | [] => inl ["constraint has empty variable set"%string]
  | _ =>
      let found := find_var_id index <$> variable_keys in
      match lefts found with
      | [] => inr (mkLinearBooleanConstraint (rights found) (replicate (length (rights found)) 1) op rhs)
      | errors => inl errors
      end
  end.

(** [oracle/compiler/BooleanConstraintBuilder.cpp:25-30] exactly_one. *)
Definition exactly_one (keys : list string) (index : VariableIndex) : BuildResult := sum_constraint keys index Equal 1.

(** [oracle/compiler/BooleanConstraintBuilder.cpp:32-42] at_most_one. *)
Definition at_most_one (keys : list string) (index : VariableIndex) : BuildResult := sum_constraint keys index LessEqual 1.

(** [oracle/compiler/BooleanConstraintBuilder.cpp:44-54] at_least_one. *)
Definition at_least_one (keys : list string) (index : VariableIndex) : BuildResult := sum_constraint keys index GreaterEqual 1.

(** [oracle/compiler/BooleanConstraintBuilder.cpp:56-87] implies: the first unknown variable is the only error. *)
Definition implies (keys : list string) (index : VariableIndex) : BuildResult :=
  match keys with
  | [a; b] =>
      match find_var_id index a, find_var_id index b with
      | inl error, _ => inl [error]
      | inr _, inl error => inl [error]
      | inr ia, inr ib => inr (mkLinearBooleanConstraint [ia; ib] [1; -1] LessEqual 0)
      end
  | _ => inl ["Implies requires exactly two variables"%string]
  end.

(** ** The compiler *)

(** [oracle/compiler/ConstraintCompiler.cpp:46-48] the order of the variables. *)
Definition key_le (a b : BooleanVariable) : Prop := String.le (bv_variable_key a) (bv_variable_key b).
#[export] Instance key_le_dec : RelDecision key_le.
Proof. unfold key_le. intros a b. apply _. Defined.

(** [oracle/compiler/ConstraintCompiler.cpp:51-66] normalize_variables, the loop: ids are positions, keys are fresh. *)
Fixpoint number_variables (i : nat) (seen : gset string) (l : list BooleanVariable) : list BooleanVariable * list string :=
  match l with
  | [] => ([], [])
  | v :: rest =>
      let key := bv_variable_key v in
      if String.eqb key "" then
        let '(out, errors) := number_variables (S i) seen rest in
        (v :: out, "boolean variable missing variable_key"%string :: errors)
      else
        let '(out, errors) := number_variables (S i) ({[key]} ∪ seen) rest in
        (mkBooleanVariable (wrap_u32 (Z.of_nat i)) key (bv_market_id v) (bv_outcome_id v) (bv_asset_id v) :: out,
         (if bool_decide (key ∈ seen) then ["duplicate boolean variable: " ++ key]%string else []) ++ errors)
  end.

(** [oracle/compiler/ConstraintCompiler.cpp:38-69] normalize_variables.  The order in which the sort leaves equal keys
    is unspecified; they are errors. *)
Definition normalize_variables (variables : list BooleanVariable) : list BooleanVariable * list string :=
  number_variables 0 ∅ (merge_sort key_le variables).

(** [oracle/compiler/ConstraintCompiler.cpp:71-79] index_variables: the first variable of a key stays. *)
Definition index_variables (variables : list BooleanVariable) : VariableIndex :=
  list_to_map ((λ v, (bv_variable_key v, bv_var_id v)) <$> variables).

(** [oracle/compiler/ConstraintCompiler.cpp:81-87] append_rule_error. *)
Definition rule_error (rule : ValidatedRule) (message : string) : string :=
  ("rule " ++ vr_rule_id rule ++ ": " ++ message)%string.

(** [oracle/compiler/ConstraintCompiler.cpp:105-166] compile, one rule: its constraint, or its errors. *)
Definition compile_rule (index : VariableIndex) (rule : ValidatedRule) : BuildResult :=
  if negb (vr_approved rule) then inl [rule_error rule "unapproved rule cannot be compiled"]
  else
    let keys := vr_variable_ids rule in
    let built :=
      match vr_type rule with
      | MutuallyExclusive => if rule_is_exhaustive (vr_coverage rule) then exactly_one keys index else at_most_one keys index
      | ExactlyOne => exactly_one keys index
      | AtMostOne => at_most_one keys index
      | AtLeastOne => at_least_one keys index
      | Implies => implies keys index
      | CollectivelyExhaustive | Equivalent | Disjoint | Custom =>
          inl ["unsupported rule type for constraint compiler"%string]
      end in
    match built with
    | inl errors => inl (rule_error rule <$> errors)
    | inr constraint => inr constraint
    end.

(** [oracle/compiler/ConstraintCompiler.cpp:21-25] hash_u32: four bytes, least significant first. *)
Definition hash_u32 (hash value : Z) : Z :=
  foldl (λ h shift, mix_byte h (Z.land (Z.shiftr value shift) 255)) hash [0; 8; 16; 24].

(** [oracle/compiler/ConstraintCompiler.cpp:179-185] hash_compiled_constraints, one variable. *)
Definition hash_variable (hash : Z) (v : BooleanVariable) : Z :=
  let hash := hash_u32 hash (bv_var_id v) in
  let hash := hash_marked_string hash (bv_variable_key v) in
  let hash := hash_marked_string hash (bv_market_id v) in
  let hash := hash_marked_string hash (bv_outcome_id v) in
  hash_marked_string hash (bv_asset_id v).

(** [oracle/compiler/ConstraintCompiler.cpp:187-201] hash_compiled_constraints, one constraint; [hash_i32] casts. *)
Definition hash_constraint (hash : Z) (c : LinearBooleanConstraint) : Z :=
  let hash := mix_byte hash (constraint_op_value (lc_op c)) in
  let hash := hash_u32 hash (wrap_u32 (lc_rhs c)) in
  let hash := hash_u32 hash (wrap_u32 (Z.of_nat (length (lc_var_ids c)))) in
  foldl (λ h coeff, hash_u32 h (wrap_u32 coeff)) (foldl hash_u32 hash (lc_var_ids c)) (lc_coeffs c).

(** [oracle/compiler/ConstraintCompiler.cpp:174-204] hash_compiled_constraints. *)
Definition hash_compiled_constraints (variables : list BooleanVariable) (constraints : list LinearBooleanConstraint) : Z :=
  foldl hash_constraint (foldl hash_variable fnv_offset variables) constraints.

(** [oracle/compiler/ConstraintCompiler.h:19-27] ConstraintCompilationResult; warnings are never added. *)
Record ConstraintCompilationResult := mkConstraintCompilationResult {
  cr_compiled : CompiledConstraintSet;
  cr_errors : list string
}.

(** [oracle/compiler/ConstraintCompiler.cpp:91-172] compile. *)
Definition compile (book : Rulebook) (variables : list BooleanVariable) : ConstraintCompilationResult :=
  let '(variables, errors) := normalize_variables variables in
  match errors with
  | _ :: _ => mkConstraintCompilationResult (mkCompiledConstraintSet variables [] 0) errors
  | [] =>
      let built := compile_rule (index_variables variables) <$> rb_rules book in
      let constraints := rights built in
      mkConstraintCompilationResult
        (mkCompiledConstraintSet variables constraints (hash_compiled_constraints variables constraints))
        (concat (lefts built))
  end.

(** ** What the compiler accepts *)

(** A rule the compiler has a constraint for: approved, of a supported type,
    over known variables, of the right number. *)
Definition rule_compilable (known : gset string) (rule : ValidatedRule) : Prop :=
  vr_approved rule = true ∧ Forall (λ key, key ∈ known) (vr_variable_ids rule) ∧
  match vr_type rule with
  | MutuallyExclusive | ExactlyOne | AtMostOne | AtLeastOne => vr_variable_ids rule ≠ []
  | Implies => length (vr_variable_ids rule) = 2%nat
  | CollectivelyExhaustive | Equivalent | Disjoint | Custom => False
  end.

(** The constraint of a compilable rule, by the ids of its variables. *)
Definition rule_constraint (rule : ValidatedRule) (ids : list Z) : LinearBooleanConstraint :=
  match vr_type rule with
  | MutuallyExclusive =>
      mkLinearBooleanConstraint ids (replicate (length ids) 1)
        (if rule_is_exhaustive (vr_coverage rule) then Equal else LessEqual) 1
  | AtMostOne => mkLinearBooleanConstraint ids (replicate (length ids) 1) LessEqual 1
  | AtLeastOne => mkLinearBooleanConstraint ids (replicate (length ids) 1) GreaterEqual 1
  | Implies => mkLinearBooleanConstraint ids [1; -1] LessEqual 0
  | _ => mkLinearBooleanConstraint ids (replicate (length ids) 1) Equal 1
  end.

(** The id of a key, of a set of variables numbered by position. *)
Definition id_of (index : VariableIndex) (key : string) : Z := default 0 (index !! key).

Lemma lefts_nil {A B} (l : list (A + B)) : lefts l = [] ↔ Forall (λ x, is_Some (match x with inl _ => None | inr b => Some b end)) l.
Proof.
  induction l as [|[a|b] l IH]; cbn.
  - by split.
  - split; [done|]. intros H. apply Forall_cons in H as [[? [=]] _].
  - change (omap _ l) with (lefts l). rewrite IH, Forall_cons. split; [intros H; split; [by eexists|done]|by intros [_ ?]].
Qed.

Lemma find_var_ids index keys :
  lefts (find_var_id index <$> keys) = [] ↔ Forall (λ key, is_Some (index !! key)) keys.
Proof.
  rewrite lefts_nil, Forall_fmap. apply Forall_iff. intros key. unfold compose, find_var_id.
  destruct (index !! key); cbn; split; intros [? H]; simplify_eq/=; eauto.
Qed.

Lemma rights_find_var_ids index keys :
  Forall (λ key, is_Some (index !! key)) keys → rights (find_var_id index <$> keys) = id_of index <$> keys.
Proof.
  induction 1 as [|key keys [id Hid] _ IH]; [done|]. cbn. unfold find_var_id at 1, id_of at 1.
  rewrite Hid. cbn. f_equal. exact IH.
Qed.

Lemma sum_constraint_spec keys index op rhs :
  (keys ≠ [] ∧ Forall (λ key, is_Some (index !! key)) keys ∧
   sum_constraint keys index op rhs =
     inr (mkLinearBooleanConstraint (id_of index <$> keys) (replicate (length keys) 1) op rhs)) ∨
  (¬ (keys ≠ [] ∧ Forall (λ key, is_Some (index !! key)) keys) ∧
   ∃ error errors, sum_constraint keys index op rhs = inl (error :: errors)).
Proof.
  destruct (decide (keys = [])) as [->|Hne]; [right; split; [by intros [? _]|by eexists _, _]|].
  assert (Hunfold : sum_constraint keys index op rhs =
    let found := find_var_id index <$> keys in
    match lefts found with
    | [] => inr (mkLinearBooleanConstraint (rights found) (replicate (length (rights found)) 1) op rhs)
    | errors => inl errors
    end) by by destruct keys.
  rewrite Hunfold. cbv zeta. destruct (lefts (find_var_id index <$> keys)) as [|error errors] eqn:E.
  - apply find_var_ids in E. left. by rewrite (rights_find_var_ids index keys E), length_fmap.
  - right. split; [|by eexists _, _]. intros [_ H]. apply find_var_ids in H. congruence.
Qed.

(** A rule gets its constraint, or at least one error. *)
Lemma compile_rule_spec index rule :
  (rule_compilable (dom index) rule ∧
   compile_rule index rule = inr (rule_constraint rule (id_of index <$> vr_variable_ids rule))) ∨
  (¬ rule_compilable (dom index) rule ∧ ∃ error errors, compile_rule index rule = inl (error :: errors)).
Proof.
  unfold compile_rule, rule_compilable, rule_constraint.
  destruct (vr_approved rule); [|right; split; [by intros [? _]|by eexists _, _]]. cbv zeta. cbn [negb].
  assert (Hdom : Forall (λ key, key ∈ dom index) (vr_variable_ids rule) ↔
                 Forall (λ key, is_Some (index !! key)) (vr_variable_ids rule)).
  { apply Forall_iff. intros key. apply elem_of_dom. }
  rewrite Hdom, length_fmap.
  assert (Hsum : ∀ op rhs, let keys := vr_variable_ids rule in
    ((true = true ∧ Forall (λ key, is_Some (index !! key)) keys ∧ keys ≠ []) ∧
     match sum_constraint keys index op rhs with
     | inl errors => inl (rule_error rule <$> errors)
     | inr constraint => inr constraint
     end = inr (mkLinearBooleanConstraint (id_of index <$> keys) (replicate (length keys) 1) op rhs)) ∨
    (¬ (true = true ∧ Forall (λ key, is_Some (index !! key)) keys ∧ keys ≠ []) ∧
     ∃ error errors, match sum_constraint keys index op rhs with
     | inl errors => inl (rule_error rule <$> errors)
     | inr constraint => inr constraint
     end = inl (error :: errors))).
  { intros op rhs. cbv zeta. destruct (sum_constraint_spec (vr_variable_ids rule) index op rhs) as [(? & ? & ->)|(H & e & es & ->)].
    - by left.
    - right. split; [tauto|by eexists _, _]. }
  destruct (vr_type rule); try apply Hsum; try (right; split; [tauto|by eexists _, _]).
  - destruct (rule_is_exhaustive (vr_coverage rule)); apply Hsum.
  - clear Hsum Hdom. destruct (vr_variable_ids rule) as [|a [|b [|c rest]]];
      try (right; split; [by intros (_ & _ & ?)|by eexists _, _]).
    unfold implies, find_var_id. rewrite !Forall_cons. cbn.
    destruct (index !! a) as [ia|] eqn:Ha, (index !! b) as [ib|] eqn:Hb; unfold id_of;
      try (right; split; [intros (_ & ([? ?] & [? ?] & _) & _); done|by eexists _, _]).
    left. rewrite Ha, Hb. split_and!; try done; eexists; done.
Qed.

(** A variable under a new number. *)
Definition renumber (i : nat) (v : BooleanVariable) : BooleanVariable :=
  mkBooleanVariable (wrap_u32 (Z.of_nat i)) (bv_variable_key v) (bv_market_id v) (bv_outcome_id v) (bv_asset_id v).

Lemma renumber_id i v : Z.of_nat i < u32_mod → bv_var_id (renumber i v) = Z.of_nat i.
Proof. intros H. cbn. apply Z.mod_small. lia. Qed.

Lemma number_variables_keys i seen l : bv_variable_key <$> (number_variables i seen l).1 = bv_variable_key <$> l.
Proof.
  revert i seen. induction l as [|v l IH]; intros i seen; [done|]. cbn.
  step_if.
  - specialize (IH (S i) seen). destruct (number_variables _ _ _). cbn in *. by rewrite IH.
  - specialize (IH (S i) ({[bv_variable_key v]} ∪ seen)). destruct (number_variables _ _ _). cbn in *. by rewrite IH.
Qed.

Lemma number_variables_ok i seen l :
  (number_variables i seen l).2 = [] ↔
  Forall (λ v, bv_variable_key v ≠ "" ∧ bv_variable_key v ∉ seen) l ∧ NoDup (bv_variable_key <$> l).
Proof.
  revert i seen. induction l as [|v l IH]; intros i seen; cbn; [split; [split; constructor|done]|].
  rewrite Forall_cons, NoDup_cons. step_if; breflect.
  - destruct (number_variables _ _ _). cbn. split; [done|]. by intros [[[? _] _] _].
  - specialize (IH (S i) ({[bv_variable_key v]} ∪ seen)). destruct (number_variables _ _ _) as [out errors].
    cbn in *. case_bool_decide as Hseen; cbn; [split; [done|tauto]|]. rewrite IH.
    assert (Hsplit : Forall (λ w, bv_variable_key w ≠ "" ∧ bv_variable_key w ∉ {[bv_variable_key v]} ∪ seen) l ↔
      Forall (λ w, bv_variable_key w ≠ "" ∧ bv_variable_key w ∉ seen) l ∧ bv_variable_key v ∉ bv_variable_key <$> l).
    { rewrite list_elem_of_fmap, !Forall_forall. split.
      - intros H. split; [intros w Hw; specialize (H w Hw); set_solver|]. intros (w & Hk & Hw). specialize (H w Hw). set_solver.
      - intros [H Hn] w Hw. destruct (H w Hw). split; [done|]. intros [E|E]%elem_of_union; [|done].
        apply elem_of_singleton in E. apply Hn. by exists w. }
    rewrite Hsplit. tauto.
Qed.

Lemma number_variables_out i seen l :
  (number_variables i seen l).2 = [] → (number_variables i seen l).1 = imap (λ j v, renumber (i + j) v) l.
Proof.
  revert i seen. induction l as [|v l IH]; intros i seen; [done|]. cbn.
  step_if; [by destruct (number_variables _ _ _)|].
  specialize (IH (S i) ({[bv_variable_key v]} ∪ seen)). destruct (number_variables _ _ _) as [out errors].
  cbn in *. intros [_ He]%app_eq_nil. rewrite (IH He). unfold renumber at 2. rewrite Nat.add_0_r. f_equal.
  apply imap_ext. intros j w _. cbn. by rewrite Nat.add_succ_r.
Qed.

(** The keys of an accepted list are distinct and not empty. *)
Definition keys_ok (keys : list string) : Prop := NoDup keys ∧ "" ∉ keys.

#[export] Instance keys_ok_proper : Proper ((≡ₚ) ==> iff) keys_ok.
Proof. intros l1 l2 H. unfold keys_ok. by rewrite H. Qed.

Lemma sort_keys variables :
  bv_variable_key <$> merge_sort key_le variables ≡ₚ bv_variable_key <$> variables.
Proof. by rewrite (merge_sort_Permutation key_le). Qed.

Lemma normalize_ok variables :
  (normalize_variables variables).2 = [] ↔ keys_ok (bv_variable_key <$> variables).
Proof.
  unfold normalize_variables. rewrite number_variables_ok, <- (sort_keys variables). unfold keys_ok.
  rewrite list_elem_of_fmap, Forall_forall. split.
  - intros [H Hn]. split; [done|]. intros (v & Hk & Hv). destruct (H v Hv). congruence.
  - intros [Hn H]. split; [|done]. intros v Hv. split; [|apply not_elem_of_empty]. intros Hk. apply H. by exists v; rewrite Hk.
Qed.

Lemma dom_index_variables variables :
  dom (index_variables variables) = list_to_set (bv_variable_key <$> variables).
Proof. unfold index_variables. rewrite dom_list_to_map_L. f_equal. rewrite <- list_fmap_compose. done. Qed.

Lemma normalize_dom variables :
  dom (index_variables (normalize_variables variables).1) = list_to_set (bv_variable_key <$> variables).
Proof.
  rewrite dom_index_variables. unfold normalize_variables. rewrite number_variables_keys.
  apply list_to_set_perm_L, sort_keys.
Qed.

Lemma compile_rules_errors index rules :
  concat (lefts (compile_rule index <$> rules)) = [] ↔ Forall (rule_compilable (dom index)) rules.
Proof.
  induction rules as [|r rules IH]; [by split; constructor|]. rewrite Forall_cons. cbn.
  destruct (compile_rule_spec index r) as [(Hc & ->)|(Hc & e & es & ->)]; cbn.
  - change (omap _ (compile_rule index <$> rules)) with (lefts (compile_rule index <$> rules)). tauto.
  - split; [done|tauto].
Qed.

Lemma compile_ok_iff book variables :
  cr_errors (compile book variables) = [] ↔
  keys_ok (bv_variable_key <$> variables) ∧
  Forall (rule_compilable (list_to_set (bv_variable_key <$> variables))) (rb_rules book).
Proof.
  rewrite <- normalize_ok. unfold compile. pose proof (normalize_dom variables) as Hdom.
  destruct (normalize_variables variables) as [out [|e es]]; cbn [fst snd cr_errors] in *; [|split; [done|by intros [? _]]].
  rewrite compile_rules_errors, Hdom. tauto.
Qed.

Lemma compile_ok_out book variables :
  cr_errors (compile book variables) = [] →
  cc_variables (cr_compiled (compile book variables)) = imap renumber (merge_sort key_le variables) ∧
  cc_constraints (cr_compiled (compile book variables)) =
    (λ r, rule_constraint r (id_of (index_variables (imap renumber (merge_sort key_le variables))) <$> vr_variable_ids r)) <$>
    rb_rules book.
Proof.
  unfold compile. destruct (normalize_variables variables) as [out errors] eqn:E. unfold normalize_variables in E.
  destruct errors as [|e es]; [|done]. pose proof (number_variables_out 0 ∅ (merge_sort key_le variables)) as Hout.
  rewrite E in Hout. cbn [fst snd cr_errors cr_compiled cc_variables cc_constraints] in *. specialize (Hout eq_refl). change (λ j v, renumber (0 + j) v) with renumber in Hout. subst out.
  rewrite compile_rules_errors. intros H. split; [done|].
  cbn [cr_compiled cc_constraints]. induction H as [|r rules Hr _ IH]; [done|]. rewrite !fmap_cons.
  destruct (compile_rule_spec (index_variables (imap renumber (merge_sort key_le variables))) r) as [(_ & ->)|(? & _)]; [|done].
  cbn. f_equal. exact IH.
Qed.

(** C13. Compiling reports an error exactly when it must: a rulebook over a
    list of variables compiles without one if and only if every variable has a
    key, no two variables share theirs, and every rule is approved, of a type
    the compiler supports, over known variables, with the number of variables
    its type takes; the compiled set then has one constraint per rule. *)
Theorem compile_accepts_iff book variables :
  let result := compile book variables in
  let keys := bv_variable_key <$> variables in
  (cr_errors result = [] ↔
   NoDup keys ∧ ("" ∉ keys) ∧ Forall (rule_compilable (list_to_set keys)) (rb_rules book)) ∧
  (cr_errors result = [] → length (cc_constraints (cr_compiled result)) = length (rb_rules book)).
Proof.
  cbv zeta. rewrite compile_ok_iff. unfold keys_ok. split; [tauto|]. intros H.
  destruct (compile_ok_out book variables) as [_ ->]; [apply compile_ok_iff; unfold keys_ok; tauto|]. by rewrite length_fmap.
Qed.

(** A numbered variable is found under its key. *)
Lemma index_numbered vs i v :
  NoDup (bv_variable_key <$> vs) → Z.of_nat (length vs) <= u32_mod → vs !! i = Some v →
  index_variables (imap renumber vs) !! bv_variable_key v = Some (Z.of_nat i).
Proof.
  intros Hn Hlen Hi. unfold index_variables. apply elem_of_list_to_map_1.
  - assert (Hk : ((λ v, (bv_variable_key v, bv_var_id v)) <$> imap renumber vs).*1 = bv_variable_key <$> vs).
    { rewrite <- list_fmap_compose, fmap_imap. rewrite <- (imap_const _ vs). apply imap_ext. by intros. }
    by rewrite Hk.
  - apply list_elem_of_lookup. exists i. rewrite list_lookup_fmap, list_lookup_imap, Hi. cbn. do 2 f_equal.
    apply Z.mod_small. apply lookup_lt_Some in Hi. lia.
Qed.

(** Different keys have different ids. *)
Lemma id_of_inj vs a b :
  NoDup (bv_variable_key <$> vs) → Z.of_nat (length vs) <= u32_mod →
  a ∈ bv_variable_key <$> vs → b ∈ bv_variable_key <$> vs →
  id_of (index_variables (imap renumber vs)) a = id_of (index_variables (imap renumber vs)) b → a = b.
Proof.
  intros Hn Hlen (v & -> & [i Hi]%list_elem_of_lookup)%list_elem_of_fmap (w & -> & [j Hj]%list_elem_of_lookup)%list_elem_of_fmap.
  unfold id_of. rewrite (index_numbered vs i v), (index_numbered vs j w) by done. cbn. intros E.
  assert (j = i) as -> by lia. congruence.
Qed.

(** ** What a rule means *)

(** How many of the variables of a rule are true. *)
Definition trues (σ : string → bool) (keys : list string) : nat := length (filter (λ k, σ k = true) keys).

(** A rule in a world, which says what is true. *)
Definition rule_holds (σ : string → bool) (rule : ValidatedRule) : Prop :=
  let n := trues σ (vr_variable_ids rule) in
  match vr_type rule with
  | MutuallyExclusive => if rule_is_exhaustive (vr_coverage rule) then n = 1%nat else (n <= 1)%nat
  | ExactlyOne => n = 1%nat
  | AtMostOne => (n <= 1)%nat
  | AtLeastOne => (1 <= n)%nat
  | Implies => match vr_variable_ids rule with [a; b] => σ a = true → σ b = true | _ => False end
  | CollectivelyExhaustive | Equivalent | Disjoint | Custom => False
  end.

(** ** A small rulebook *)

Definition demo_variable (key : string) : BooleanVariable := mkBooleanVariable 0 key "m" key ("token-" ++ key).
Definition demo_variables : list BooleanVariable := demo_variable <$> ["d"; "b"; "e"; "a"; "c"]%string.
Definition approved_rule (id : string) (type : RuleType) (keys : list string) : ValidatedRule :=
  mkValidatedRule id type ExclusiveOnly keys true "reviewer" 1 id.
Definition demo_rulebook : Rulebook :=
  mkRulebook [approved_rule "r1" ExactlyOne ["a"; "b"; "c"]; approved_rule "r2" Implies ["d"; "e"]]%string.

Lemma demo_compiles : cr_errors (compile demo_rulebook demo_variables) = [].
Proof. vm_compute. reflexivity. Qed.
