(* ===== verification/OracleStates.v ===== *)
(** * OracleStates: the states a constraint set allows and what a bundle earns in the worst one

    [oracle/enumerate] and [oracle/payoff].  A state is a set of bits, one per
    variable.  The enumerator lists the states that satisfy every constraint;
    an oracle finds the state in which a list of legs earns least. *)

From stdpp Require Import pretty.
From S2P Require Import Prelude Hashing Bundles OracleRules.
#[local] Open Scope Z_scope.

(** ** States and feasibility *)

(** [oracle/enumerate/StateBitset.h:11-18] test; a state is its words. *)
Definition test (words : list Z) (var_id : Z) : bool :=
  match words !! Z.to_nat (var_id / 64) with
  | None => false
  | Some word => Z.testbit word (var_id mod 64)
  end.

(** [oracle/enumerate/StateBitset.h:21-25] state_bitset_from_mask. *)
Definition state_bitset_from_mask (mask : Z) : list Z := [mask].

(** [oracle/enumerate/FeasibilityChecker.cpp:7-22] evaluate. *)
Definition evaluate (lhs : Z) (op : ConstraintOp) (rhs : Z) : bool :=
  match op with
  | Equal => lhs =? rhs
  | LessEqual => lhs <=? rhs
  | GreaterEqual => rhs <=? lhs
  end.

(** Reduction to the range of [std::int32_t]. *)
Definition wrap_i32 (z : Z) : Z := (z + 2147483648) mod u32_mod - 2147483648.

(** [oracle/enumerate/FeasibilityChecker.cpp:43-47] check, the left-hand side. *)
Definition constraint_lhs (value : Z → bool) (c : LinearBooleanConstraint) : Z :=
  foldl (λ lhs '(var_id, coeff), wrap_i32 (lhs + coeff * (if value var_id then 1 else 0))) 0
    (zip (lc_var_ids c) (lc_coeffs c)).

(** [oracle/public/OracleError.h:7-23] OracleErrorCode, the codes enumeration uses. *)
Inductive OracleErrorCode := OeNone | OeInvalidInput | OeTooManyVariables.

(** [oracle/enumerate/FeasibilityChecker.cpp:32-53] check, the loop from constraint [i]: an error, or whether the state is feasible. *)
Fixpoint check_constraints (i : nat) (value : Z → bool) (constraints : list LinearBooleanConstraint)
    : (OracleErrorCode * list string) + bool :=
  match constraints with
  | [] => inr true
  | c :: rest =>
      if negb (length (lc_var_ids c) =? length (lc_coeffs c))%nat
      then inl (OeInvalidInput, ["constraint " ++ pretty (N.of_nat i) ++ " has mismatched var_ids and coeffs"]%string)
      else if negb (evaluate (constraint_lhs value c) (lc_op c) (lc_rhs c)) then inr false
      else check_constraints (S i) value rest
  end.

(** [oracle/enumerate/FeasibilityChecker.cpp:26-57] FeasibilityChecker::check. *)
Definition check_state (compiled : CompiledConstraintSet) (words : list Z) : (OracleErrorCode * list string) + bool :=
  check_constraints 0 (test words) (cc_constraints compiled).

(** [oracle/enumerate/FeasibleState.h:8-11] FeasibleState. *)
Record FeasibleState := mkFeasibleState { fs_state_id : Z; fs_bitset_words : list Z }.

(** [oracle/enumerate/StateEnumerator.h:12-20] StateEnumerationResult. *)
Record StateEnumerationResult := mkStateEnumerationResult {
  sr_code : OracleErrorCode;
  sr_feasible_states : list FeasibleState;
  sr_errors : list string
}.

(** [oracle/enumerate/StateEnumerator.h:24-24] kMaxBruteforceVariables. *)
Definition kMaxBruteforceVariables : nat := 32.

(** [oracle/enumerate/StateEnumerator.cpp:29-47] enumerate, the loop; an error stops it and keeps the states so far. *)
Fixpoint enumerate_masks (compiled : CompiledConstraintSet) (masks : list Z) : StateEnumerationResult :=
  match masks with
  | [] => mkStateEnumerationResult OeNone [] []
  | mask :: rest =>
      let words := state_bitset_from_mask mask in
      match check_state compiled words with
      | inl (code, errors) => mkStateEnumerationResult code [] errors
      | inr feasible =>
          let tail := enumerate_masks compiled rest in
          mkStateEnumerationResult (sr_code tail)
            ((if feasible : bool then [mkFeasibleState mask words] else []) ++ sr_feasible_states tail) (sr_errors tail)
      end
  end.

(** [oracle/enumerate/StateEnumerator.cpp:10-50] enumerate. *)
Definition enumerate_states (compiled : CompiledConstraintSet) : StateEnumerationResult :=
  let variable_count := length (cc_variables compiled) in
  if (kMaxBruteforceVariables <? variable_count)%nat
  then mkStateEnumerationResult OeTooManyVariables [] ["state enumeration supports <= 32 variables"%string]
  else enumerate_masks compiled (seqZ 0 (2 ^ Z.of_nat variable_count)).

(** ** Components *)

(** [oracle/compiler/CompiledComponent.h:12-19] ComponentKind. *)
Inductive ComponentKind :=
  KSmallEnumerable | KExactlyOne | KAtMostOne | KImplicationDag | KWeightedThreshold | KGenericLinearBoolean.
#[export] Instance ComponentKind_eq_dec : EqDecision ComponentKind.
Proof. solve_decision. Defined.

(** [oracle/compiler/CompiledComponent.h:21-27] CompiledComponent. *)
Record CompiledComponent := mkCompiledComponent {
  cp_component_id : Z;
  cp_variable_ids : list Z;
  cp_constraint_ids : list Z;
  cp_component_hash : string;
  cp_kind : ComponentKind
}.

(** ** Oracles *)

(** [oracle/enumerate/FeasibleStateOracle.h:12-17] BundleObjectiveLeg. *)
Record BundleObjectiveLeg := mkBundleObjectiveLeg {
  ob_variable_id : string;
  ob_payout_if_true_tick : Z;
  ob_payout_if_false_tick : Z;
  ob_cost_tick : Z
}.

(** [oracle/enumerate/FeasibleStateOracle.h:19-24] WorstCaseResult. *)
Record WorstCaseResult := mkWorstCaseResult {
  wc_min_profit_tick : Z;
  wc_is_guaranteed_positive : bool;
  wc_witness_true_variables : list string;
  wc_component_id : Z
}.

(** [oracle/enumerate/AtMostOneOracle.cpp:31-38] min_payoff, the profit of the legs under an assignment. *)
Definition profit (value : string → bool) (objective : list BundleObjectiveLeg) : Z :=
  foldl (λ p leg, p +i (if value (ob_variable_id leg) then ob_payout_if_true_tick leg else ob_payout_if_false_tick leg)
                    -i ob_cost_tick leg) 0 objective.

(** [oracle/enumerate/AtMostOneOracle.cpp:39-44] min_payoff: a smaller profit and its witness replace the least so far. *)
Definition keep_worst (worst candidate : Z * list string) : Z * list string :=
  if candidate.1 <? worst.1 then candidate else worst.

(** [oracle/enumerate/AtMostOneOracle.cpp:47-56] min_payoff: the least of the candidates, or zero without any. *)
Definition worst_case (component_id : Z) (candidates : list (Z * list string)) : WorstCaseResult :=
  let worst := foldl keep_worst (i64_max, []) candidates in
  let least := if worst.1 =? i64_max then 0 else worst.1 in
  mkWorstCaseResult least (0 <? least) worst.2 component_id.

(** [oracle/enumerate/AtMostOneOracle.cpp:12-16] AtMostOneOracle: the keys of the component; [None] is an id out of range. *)
Definition component_keys (component : CompiledComponent) (compiled : CompiledConstraintSet) : option (list string) :=
  mapM (λ id, bv_variable_key <$> cc_variables compiled !! Z.to_nat id) (cp_variable_ids component).

(** [oracle/enumerate/AtMostOneOracle.cpp:33-34] min_payoff: exactly the given variable is true. *)
Definition only (key : string) : string → bool := λ k, String.eqb k key.

(** [oracle/enumerate/ExactlyOneOracle.cpp:30-43] min_payoff, one candidate per variable. *)
Definition single_candidates (keys : list string) (objective : list BundleObjectiveLeg) : list (Z * list string) :=
  (λ key, (profit (only key) objective, [key])) <$> keys.

(** [oracle/enumerate/ExactlyOneOracle.cpp:23-50] ExactlyOneOracle::min_payoff. *)
Definition exactly_one_min_payoff (component_id : Z) (keys : list string) (objective : list BundleObjectiveLeg)
    : WorstCaseResult := worst_case component_id (single_candidates keys objective).

(** [oracle/enumerate/AtMostOneOracle.cpp:23-57] AtMostOneOracle::min_payoff. *)
Definition at_most_one_min_payoff (component_id : Z) (keys : list string) (objective : list BundleObjectiveLeg)
    : WorstCaseResult :=
  worst_case component_id ((profit (λ _, false) objective, []) :: single_candidates keys objective).

(** [oracle/enumerate/AtMostOneOracle.cpp:60-65] is_feasible: how many variables of the component a state sets. *)
Definition true_count (words : list Z) (var_ids : list Z) : nat := length (filter (λ id, test words id = true) var_ids).

(** [oracle/enumerate/ExactlyOneOracle.cpp:52-60] ExactlyOneOracle::is_feasible. *)
Definition exactly_one_is_feasible (component : CompiledComponent) (words : list Z) : bool :=
  (true_count words (cp_variable_ids component) =? 1)%nat.

(** [oracle/enumerate/AtMostOneOracle.cpp:59-67] AtMostOneOracle::is_feasible. *)
Definition at_most_one_is_feasible (component : CompiledComponent) (words : list Z) : bool :=
  (true_count words (cp_variable_ids component) <=? 1)%nat.

(** ** The enumerating oracle *)

(** [oracle/enumerate/SmallEnumOracle.cpp:18-24] subset_compiled_set: the variables of the component, renumbered. *)
Definition subset_variables (component : CompiledComponent) (compiled : CompiledConstraintSet) : option (list BooleanVariable) :=
  vs ← mapM (λ id, cc_variables compiled !! Z.to_nat id) (cp_variable_ids component);
  Some (imap renumber vs).

(** [oracle/enumerate/SmallEnumOracle.cpp:17-22] subset_compiled_set: old_to_new. *)
Definition old_to_new (component : CompiledComponent) : gmap Z Z :=
  list_to_map (imap (λ i id, (id, wrap_u32 (Z.of_nat i))) (cp_variable_ids component)).

(** [oracle/enumerate/SmallEnumOracle.cpp:25-31] subset_compiled_set: the constraints of the component; [None] is [at] throwing. *)
Definition subset_constraints (component : CompiledComponent) (compiled : CompiledConstraintSet)
    : option (list LinearBooleanConstraint) :=
  mapM (λ id,
    c ← cc_constraints compiled !! Z.to_nat id;
    var_ids ← mapM (λ var_id, old_to_new component !! var_id) (lc_var_ids c);
    Some (mkLinearBooleanConstraint var_ids (lc_coeffs c) (lc_op c) (lc_rhs c))) (cp_constraint_ids component).

(** [oracle/enumerate/SmallEnumOracle.cpp:12-34] subset_compiled_set. *)
Definition subset_compiled_set (component : CompiledComponent) (compiled : CompiledConstraintSet)
    : option CompiledConstraintSet :=
  variables ← subset_variables component compiled;
  constraints ← subset_constraints component compiled;
  Some (mkCompiledConstraintSet variables constraints (hash_compiled_constraints variables constraints)).

(** [oracle/enumerate/SmallEnumOracle.cpp:66-78] min_payoff, one leg: a leg of an unknown variable is skipped. *)
Definition candidate_leg (index : VariableIndex) (words : list Z) (acc : Z * list string) (leg : BundleObjectiveLeg)
    : Z * list string :=
  match index !! ob_variable_id leg with
  | None => acc
  | Some id =>
      let value := test words id in
      (acc.1 +i (if value then ob_payout_if_true_tick leg else ob_payout_if_false_tick leg) -i ob_cost_tick leg,
       acc.2 ++ (if value then [ob_variable_id leg] else []))
  end.

(** [oracle/enumerate/SmallEnumOracle.cpp:63-78] min_payoff, the profit in one state. *)
Definition state_candidate (index : VariableIndex) (objective : list BundleObjectiveLeg) (words : list Z) : Z * list string :=
  foldl (candidate_leg index words) (0, []) objective.

(** [oracle/enumerate/SmallEnumOracle.cpp:53-90] SmallEnumOracle::min_payoff, on the set of the component. *)
Definition small_min_payoff (component_id : Z) (compiled : CompiledConstraintSet) (objective : list BundleObjectiveLeg)
    : WorstCaseResult :=
  worst_case component_id
    ((λ s, state_candidate (index_variables (cc_variables compiled)) objective (fs_bitset_words s)) <$>
       sr_feasible_states (enumerate_states compiled)).

(** [oracle/enumerate/SmallEnumOracle.cpp:92-95] SmallEnumOracle::is_feasible. *)
Definition small_is_feasible (compiled : CompiledConstraintSet) (words : list Z) : bool :=
  match check_state compiled words with inr feasible => feasible | inl _ => false end.

(** ** Constraints of rules *)

(** A constraint in a world that gives a value to every id. *)
Definition constraint_holds (value : Z → bool) (c : LinearBooleanConstraint) : Prop :=
  evaluate (constraint_lhs value c) (lc_op c) (lc_rhs c) = true.
#[export] Instance constraint_holds_dec value c : Decision (constraint_holds value c).
Proof. unfold constraint_holds. apply _. Defined.

Lemma wrap_i32_id z : -2147483648 <= z < 2147483648 → wrap_i32 z = z.
Proof. intros H. unfold wrap_i32. rewrite Z.mod_small; lia. Qed.

(** Counting with coefficients of one does not wrap. *)
Lemma lhs_ones (value : Z → bool) ids acc :
  0 <= acc → acc + Z.of_nat (length ids) < 2147483648 →
  foldl (λ lhs '(var_id, coeff), wrap_i32 (lhs + coeff * (if value var_id then 1 else 0))) acc
    (zip ids (replicate (length ids) 1)) =
  acc + Z.of_nat (length (filter (λ id, value id = true) ids)).
Proof.
  revert acc. induction ids as [|id ids IH]; intros acc H0 Hlen; [cbn; lia|]. cbn [length] in Hlen.
  rewrite filter_cons. cbn [length replicate zip_with foldl].
  rewrite wrap_i32_id by (destruct (value id); lia). rewrite IH by (destruct (value id); lia).
  destruct (value id); cbn [length decide]; case_decide; cbn [length]; done || lia.
Qed.

Lemma filter_fmap_length {A B} (f : A → B) (p : B → bool) (q : A → bool) l :
  (∀ x, x ∈ l → p (f x) = q x) →
  length (filter (λ y, p y = true) (f <$> l)) = length (filter (λ x, q x = true) l).
Proof.
  induction l as [|x l IH]; intros H; [done|]. rewrite fmap_cons, !filter_cons, (H x) by left.
  assert (IH' := IH (λ y Hy, H y (list_elem_of_further _ _ _ Hy))).
  destruct (decide (q x = true)); cbn; by rewrite IH'.
Qed.

(** A constraint of a rule says what the rule says. *)
Lemma rule_constraint_holds value σ index rule :
  rule_compilable (dom index) rule → Z.of_nat (length (vr_variable_ids rule)) < 2147483648 →
  (∀ key, key ∈ vr_variable_ids rule → value (id_of index key) = σ key) →
  constraint_holds value (rule_constraint rule (id_of index <$> vr_variable_ids rule)) ↔ rule_holds σ rule.
Proof.
  intros (_ & _ & Hc) Hlen Hσ. unfold constraint_holds, rule_constraint, rule_holds, constraint_lhs.
  pose proof (lhs_ones value (id_of index <$> vr_variable_ids rule) 0) as Hones.
  rewrite length_fmap in Hones. rewrite (filter_fmap_length _ value σ _ Hσ) in Hones.
  specialize (Hones ltac:(lia) ltac:(lia)). change (length (filter _ _)) with (trues σ (vr_variable_ids rule)) in Hones.
  destruct (vr_type rule); try done; cbn [lc_var_ids lc_coeffs lc_op lc_rhs].
  - rewrite length_fmap, Hones. destruct (rule_is_exhaustive (vr_coverage rule)); cbn; lia.
  - rewrite length_fmap, Hones. cbn; lia.
  - rewrite length_fmap, Hones. cbn; lia.
  - rewrite length_fmap, Hones. cbn; lia.
  - clear Hones. destruct (vr_variable_ids rule) as [|a [|b [|c rest]]]; try done. cbn.
    rewrite (Hσ a), (Hσ b) by set_solver. by destruct (σ a), (σ b); cbn; split; try naive_solver; intros; exfalso; naive_solver.
Qed.

(** ** The checker and the enumerator *)

(** Every constraint has a coefficient per variable. *)
Definition well_formed (compiled : CompiledConstraintSet) : Prop :=
  Forall (λ c, length (lc_var_ids c) = length (lc_coeffs c)) (cc_constraints compiled).

(** A state satisfies every constraint. *)
Definition feasible (compiled : CompiledConstraintSet) (value : Z → bool) : Prop :=
  Forall (constraint_holds value) (cc_constraints compiled).
#[export] Instance feasible_dec compiled value : Decision (feasible compiled value).
Proof. unfold feasible. apply _. Defined.

Lemma check_constraints_ok i value constraints :
  Forall (λ c, length (lc_var_ids c) = length (lc_coeffs c)) constraints →
  check_constraints i value constraints = inr (bool_decide (Forall (constraint_holds value) constraints)).
Proof.
  revert i. induction constraints as [|c rest IH]; intros i H; cbn; [done|].
  apply Forall_cons in H as [Hc H]. rewrite Hc, Nat.eqb_refl. cbn.
  destruct (evaluate (constraint_lhs value c) (lc_op c) (lc_rhs c)) eqn:E; cbn.
  - rewrite (IH (S i) H). f_equal. apply bool_decide_ext. rewrite Forall_cons. unfold constraint_holds at 2. tauto.
  - f_equal. symmetry. apply bool_decide_eq_false. rewrite Forall_cons. unfold constraint_holds. rewrite E. by intros [? _].
Qed.

Lemma enumerate_masks_ok compiled masks :
  well_formed compiled →
  enumerate_masks compiled masks =
  mkStateEnumerationResult OeNone
    ((λ m, mkFeasibleState m [m]) <$> filter (λ m, feasible compiled (test [m])) masks) [].
Proof.
  intros H. induction masks as [|m masks IH]; [done|]. rewrite filter_cons. cbn [enumerate_masks].
  unfold check_state, state_bitset_from_mask. rewrite (check_constraints_ok _ _ _ H), IH.
  fold (feasible compiled (test [m])). case_bool_decide; by case_decide.
Qed.

(** A mask below [2 ^ n] for any choice of [n] bits. *)
Lemma mask_exists (f : Z → bool) (n : nat) :
  ∃ m, 0 <= m < 2 ^ Z.of_nat n ∧ ∀ i, 0 <= i < Z.of_nat n → Z.testbit m i = f i.
Proof.
  induction n as [|n (m & Hm & Hbits)]; [exists 0; split; [done|lia]|].
  rewrite Nat2Z.inj_succ, Z.pow_succ_r by lia.
  exists (m + (if f (Z.of_nat n) then 2 ^ Z.of_nat n else 0)). split; [destruct (f _); lia|].
  intros i Hi. destruct (decide (i = Z.of_nat n)) as [->|Hne].
  - destruct (f (Z.of_nat n)) eqn:E.
    + rewrite Z.testbit_true by lia. rewrite <- (Z.mul_1_l (2 ^ Z.of_nat n)) at 1. rewrite Z.div_add by lia.
      by rewrite Z.div_small.
    + rewrite Z.add_0_r, Z.testbit_false by lia. by rewrite Z.div_small.
  - rewrite <- (Hbits i) by lia. destruct (f (Z.of_nat n)); [|by rewrite Z.add_0_r].
    rewrite <- (Z.mod_pow2_bits_low _ (Z.of_nat n) i) by lia.
    rewrite <- (Z.mod_pow2_bits_low m (Z.of_nat n) i) by lia. f_equal.
    rewrite <- (Z.mul_1_l (2 ^ Z.of_nat n)) at 1. by rewrite Z.mod_add by lia.
Qed.

Lemma test_mask m id : 0 <= id < 64 → test [m] id = Z.testbit m id.
Proof. intros H. unfold test. rewrite Z.div_small, Z.mod_small by lia. done. Qed.

Lemma enumerate_states_ok compiled :
  (length (cc_variables compiled) <= kMaxBruteforceVariables)%nat → well_formed compiled →
  enumerate_states compiled =
  mkStateEnumerationResult OeNone
    ((λ m, mkFeasibleState m [m]) <$>
       filter (λ m, feasible compiled (test [m])) (seqZ 0 (2 ^ Z.of_nat (length (cc_variables compiled))))) [].
Proof.
  intros Hlen Hwf. unfold enumerate_states.
  destruct (kMaxBruteforceVariables <? _)%nat eqn:E; [apply Nat.ltb_lt in E; lia|]. by apply enumerate_masks_ok.
Qed.

Lemma elem_of_states compiled s :
  (length (cc_variables compiled) <= kMaxBruteforceVariables)%nat → well_formed compiled →
  s ∈ sr_feasible_states (enumerate_states compiled) ↔
  ∃ m, s = mkFeasibleState m [m] ∧ 0 <= m < 2 ^ Z.of_nat (length (cc_variables compiled)) ∧ feasible compiled (test [m]).
Proof.
  intros Hlen Hwf. rewrite (enumerate_states_ok compiled Hlen Hwf). cbn. rewrite list_elem_of_fmap.
  split; intros (m & -> & H); exists m.
  - apply list_elem_of_filter in H as [? H%elem_of_seqZ]. split; [done|]. split; [lia|done].
  - split; [done|]. apply list_elem_of_filter. split; [tauto|]. apply elem_of_seqZ. lia.
Qed.

Lemma seqZ_sorted a n : StronglySorted Z.lt (seqZ a n).
Proof.
  destruct (decide (0 <= n)) as [Hn|]; [|rewrite seqZ_nil by lia; constructor].
  revert a. pattern n. apply natlike_ind; [by constructor| |done].
  intros k Hk IH a. rewrite seqZ_cons by lia. rewrite Z.pred_succ. constructor; [auto|].
  apply Forall_forall. intros x Hx%elem_of_seqZ. lia.
Qed.

Lemma filter_sorted (P : Z → Prop) `{∀ x, Decision (P x)} l : StronglySorted Z.lt l → StronglySorted Z.lt (filter P l).
Proof.
  induction 1 as [|x l _ IH Hx]; [constructor|]. rewrite filter_cons. case_decide; [|done]. constructor; [done|].
  rewrite Forall_forall in *. intros y [_ Hy]%list_elem_of_filter. auto.
Qed.

Lemma states_sorted compiled :
  (length (cc_variables compiled) <= kMaxBruteforceVariables)%nat → well_formed compiled →
  StronglySorted Z.lt (fs_state_id <$> sr_feasible_states (enumerate_states compiled)).
Proof.
  intros Hlen Hwf. rewrite (enumerate_states_ok compiled Hlen Hwf). cbn [sr_feasible_states].
  rewrite <- list_fmap_compose. rewrite (list_fmap_ext _ id) by done. rewrite list_fmap_id. apply filter_sorted, seqZ_sorted.
Qed.

(** A state shows a world when it gives every variable the value the world gives its key. *)
Definition shows (variables : list BooleanVariable) (s : FeasibleState) (σ : string → bool) : Prop :=
  ∀ v, v ∈ variables → test (fs_bitset_words s) (bv_var_id v) = σ (bv_variable_key v).

Lemma shows_numbered vs m σ :
  (length vs <= kMaxBruteforceVariables)%nat →
  shows (imap renumber vs) (mkFeasibleState m [m]) σ ↔
  ∀ i v, vs !! i = Some v → Z.testbit m (Z.of_nat i) = σ (bv_variable_key v).
Proof.
  intros Hlen. unfold kMaxBruteforceVariables in Hlen. unfold shows. split.
  - intros H i v Hi. pose proof (lookup_lt_Some _ _ _ Hi). change (bv_variable_key v) with (bv_variable_key (renumber i v)).
    rewrite <- (H (renumber i v)).
    + rewrite renumber_id by lia. symmetry. apply test_mask. lia.
    + apply list_elem_of_lookup. exists i. by rewrite list_lookup_imap, Hi.
  - intros H v [i Hi]%list_elem_of_lookup. rewrite list_lookup_imap in Hi.
    apply fmap_Some in Hi as (w & Hw & ->). pose proof (lookup_lt_Some _ _ _ Hw).
    rewrite renumber_id by lia. cbn [fs_bitset_words]. rewrite test_mask by lia. by apply (H i w).
Qed.

(** Every world is shown by a mask. *)
Lemma world_mask vs σ :
  (length vs <= kMaxBruteforceVariables)%nat →
  ∃ m, 0 <= m < 2 ^ Z.of_nat (length vs) ∧ shows (imap renumber vs) (mkFeasibleState m [m]) σ.
Proof.
  intros Hlen. destruct (mask_exists (λ i, default false ((λ v, σ (bv_variable_key v)) <$> vs !! Z.to_nat i)) (length vs))
    as (m & Hm & Hbits). exists m. split; [done|]. apply shows_numbered; [done|]. intros i v Hi.
  pose proof (lookup_lt_Some _ _ _ Hi). rewrite Hbits by lia. by rewrite Nat2Z.id, Hi.
Qed.

(** Where a state shows a world, the id of a key has the key's value. *)
Lemma shows_id vs m σ key :
  (length vs <= kMaxBruteforceVariables)%nat → NoDup (bv_variable_key <$> vs) →
  shows (imap renumber vs) (mkFeasibleState m [m]) σ → key ∈ bv_variable_key <$> vs →
  test [m] (id_of (index_variables (imap renumber vs)) key) = σ key.
Proof.
  intros Hlen Hn Hs (v & -> & [i Hi]%list_elem_of_lookup)%list_elem_of_fmap.
  unfold kMaxBruteforceVariables in Hlen. unfold id_of. rewrite (index_numbered vs i v Hn) by (done || lia). cbn.
  pose proof (lookup_lt_Some _ _ _ Hi). rewrite test_mask by lia. by apply (proj1 (shows_numbered vs m σ Hlen) Hs i v).
Qed.

Lemma rule_constraint_wf known rule (ids : list Z) :
  rule_compilable known rule → length ids = length (vr_variable_ids rule) →
  length (lc_var_ids (rule_constraint rule ids)) = length (lc_coeffs (rule_constraint rule ids)).
Proof.
  intros (_ & _ & Hc) Hlen. unfold rule_constraint. destruct (vr_type rule); cbn; rewrite ?length_replicate; done || lia.
Qed.

(** C11. The enumerator finds the worlds of the rulebook: when a rulebook over
    at most 32 variables compiles, enumerating the states of the compiled set
    succeeds, lists states in strictly increasing order, and whatever world one
    takes - what is true of every outcome - some state in the list shows that
    world exactly when every rule of the book holds in it. *)
Theorem states_are_worlds book variables :
  let compiled := cr_compiled (compile book variables) in
  let result := enumerate_states compiled in
  cr_errors (compile book variables) = [] → (length variables <= kMaxBruteforceVariables)%nat →
  Forall (λ r, Z.of_nat (length (vr_variable_ids r)) < 2147483648) (rb_rules book) →
  sr_code result = OeNone ∧ sr_errors result = [] ∧
  StronglySorted Z.lt (fs_state_id <$> sr_feasible_states result) ∧
  ∀ σ, (∃ s, s ∈ sr_feasible_states result ∧ shows (cc_variables compiled) s σ) ↔ Forall (rule_holds σ) (rb_rules book).
Proof.
  cbv zeta. intros Hok Hlen Hshort. destruct (compile_ok_out book variables Hok) as [Hvars Hcons].
  pose proof (proj1 (compile_ok_iff book variables) Hok) as [[Hnd _] Hrules].
  set (compiled := cr_compiled (compile book variables)) in *. set (vs := merge_sort key_le variables) in *.
  assert (Hperm : vs ≡ₚ variables) by apply merge_sort_Permutation.
  assert (Hkeys : NoDup (bv_variable_key <$> vs)) by (by rewrite Hperm).
  assert (Hlen' : (length vs <= kMaxBruteforceVariables)%nat) by (by rewrite Hperm).
  assert (Hlenc : (length (cc_variables compiled) <= kMaxBruteforceVariables)%nat) by (by rewrite Hvars, length_imap).
  assert (Hdom : dom (index_variables (imap renumber vs)) = list_to_set (bv_variable_key <$> variables)).
  { rewrite dom_index_variables, fmap_imap. rewrite <- (list_to_set_perm_L _ _ (sort_keys variables)). f_equal.
    rewrite <- (imap_const _ vs). apply imap_ext. by intros. }
  assert (Hwf : well_formed compiled).
  { unfold well_formed. rewrite Hcons, Forall_fmap. eapply Forall_impl; [exact Hrules|]. intros r Hr. cbn.
    apply (rule_constraint_wf _ r _ Hr). by rewrite length_fmap. }
  rewrite (enumerate_states_ok compiled Hlenc Hwf) at 1 2. split_and!; [done|done|by apply states_sorted|].
  assert (Hfeasible : ∀ m σ, shows (imap renumber vs) (mkFeasibleState m [m]) σ →
    feasible compiled (test [m]) ↔ Forall (rule_holds σ) (rb_rules book)).
  { intros m σ Hs. unfold feasible. rewrite Hcons, Forall_fmap, !Forall_forall.
    assert (Hrule : ∀ r, r ∈ rb_rules book → constraint_holds (test [m])
      (rule_constraint r (id_of (index_variables (imap renumber vs)) <$> vr_variable_ids r)) ↔ rule_holds σ r); [|by split; intros H r Hr; apply (Hrule r Hr), H].
    intros r Hr. rewrite Forall_forall in Hrules, Hshort. specialize (Hrules r Hr). apply rule_constraint_holds; [|by apply Hshort|].
    - by rewrite Hdom.
    - intros key Hkey. apply (shows_id vs m σ key Hlen' Hkeys Hs). destruct Hrules as (_ & Hall & _).
      rewrite Forall_forall in Hall. apply Hall, elem_of_list_to_set in Hkey. by rewrite Hperm. }
  intros σ. rewrite Hvars. split.
  - intros (s & Hs & Hshow). apply (elem_of_states compiled s Hlenc Hwf) in Hs as (m & -> & _ & Hf). by apply (Hfeasible m σ).
  - intros Hσ. destruct (world_mask vs σ Hlen') as (m & Hm & Hshow). exists (mkFeasibleState m [m]). split; [|done].
    apply (elem_of_states compiled _ Hlenc Hwf). exists m. rewrite Hvars, length_imap. split; [done|]. split; [done|].
    by apply (Hfeasible m σ).
Qed.

(** ** The worst case *)

Lemma keep_worst_min l p w : (foldl keep_worst (p, w) l).1 = foldl Z.min p l.*1.
Proof.
  revert p w. induction l as [|[q x] l IH]; intros p w; [done|]. cbn. unfold keep_worst at 2. cbn.
  destruct (q <? p) eqn:E; rewrite IH; f_equal; breflect; lia.
Qed.

Lemma foldl_min_spec p l :
  foldl Z.min p l <= p ∧ (∀ q, q ∈ l → foldl Z.min p l <= q) ∧ (foldl Z.min p l = p ∨ foldl Z.min p l ∈ l).
Proof.
  revert p. induction l as [|q l IH]; intros p; cbn; [split_and!; [done|by intros q ?%not_elem_of_nil|by left]|].
  destruct (IH (Z.min p q)) as (H1 & H2 & H3). split_and!; [lia| |].
  - intros r [->|Hr]%elem_of_cons; [lia|by apply H2].
  - rewrite elem_of_cons. destruct H3 as [H3|H3]; [|tauto]. rewrite H3 in *. lia.
Qed.

(** What a worst case must be over the worlds that are feasible: no world earns
    less, some world earns exactly it, and it is called guaranteed exactly when
    every world earns something.  A profit of the largest integer stands for
    "no world" and counts as zero. *)
Record worst_case_of (worlds : (string → bool) → Prop) (objective : list BundleObjectiveLeg) (r : WorstCaseResult) : Prop := {
  wo_least σ : worlds σ → wc_min_profit_tick r <= profit σ objective;
  wo_attained : (∃ σ, worlds σ ∧ profit σ objective < i64_max) → ∃ σ, worlds σ ∧ profit σ objective = wc_min_profit_tick r;
  wo_none : (∀ σ, worlds σ → profit σ objective = i64_max) → wc_min_profit_tick r = 0;
  wo_positive : wc_is_guaranteed_positive r = true ↔
    (∃ σ, worlds σ ∧ profit σ objective < i64_max) ∧ ∀ σ, worlds σ → 0 < profit σ objective
}.

Lemma profit_range σ objective : in_i64 (profit σ objective).
Proof.
  destruct objective as [|leg objective] using rev_ind; [split; done|].
  unfold profit. rewrite foldl_snoc. apply wrap_i64_range.
Qed.

Lemma worst_case_spec worlds objective id candidates :
  (∀ p, p ∈ candidates.*1 → ∃ σ, worlds σ ∧ p = profit σ objective) →
  (∀ σ, worlds σ → profit σ objective ∈ candidates.*1) →
  worst_case_of worlds objective (worst_case id candidates).
Proof.
  intros Hsound Hcomplete. unfold worst_case. cbv zeta. rewrite keep_worst_min.
  destruct (foldl_min_spec i64_max candidates.*1) as (Hmax & Hle & Hin).
  set (least := foldl Z.min i64_max candidates.*1) in *. split; cbn [wc_min_profit_tick wc_is_guaranteed_positive].
  - intros σ Hσ. specialize (Hle _ (Hcomplete σ Hσ)). destruct (least =? i64_max) eqn:E; breflect; lia.
  - intros (σ & Hσ & Hlt). specialize (Hle _ (Hcomplete σ Hσ)). destruct (least =? i64_max) eqn:E; breflect; [lia|].
    destruct Hin as [Hin|Hin]; [lia|]. destruct (Hsound _ Hin) as (τ & ? & ?). by exists τ.
  - intros Hall. destruct (least =? i64_max) eqn:E; breflect; [done|].
    destruct Hin as [Hin|Hin]; [lia|]. destruct (Hsound _ Hin) as (τ & Hτ & Heq). rewrite (Hall τ Hτ) in Heq. lia.
  - rewrite Z.ltb_lt. split.
    + intros Hpos. destruct (least =? i64_max) eqn:E; breflect; [lia|]. split.
      * destruct Hin as [Hin|Hin]; [lia|]. destruct (Hsound _ Hin) as (τ & Hτ & Heq). exists τ. split; [done|lia].
      * intros σ Hσ. specialize (Hle _ (Hcomplete σ Hσ)). lia.
    + intros [(σ & Hσ & Hlt) Hpos]. specialize (Hle _ (Hcomplete σ Hσ)).
      destruct (least =? i64_max) eqn:E; breflect; [lia|].
      destruct Hin as [Hin|Hin]; [lia|]. destruct (Hsound _ Hin) as (τ & Hτ & ->). by apply Hpos.
Qed.

Lemma worst_case_ext (worlds worlds' : (string → bool) → Prop) objective r :
  (∀ σ, worlds σ ↔ worlds' σ) → worst_case_of worlds objective r → worst_case_of worlds' objective r.
Proof.
  intros Heq [H1 H2 H3 H4]. split.
  - intros σ Hσ. by apply H1, Heq.
  - intros (σ & Hσ & Hlt). destruct H2 as (τ & Hτ & E); [exists σ; split; [by apply Heq|done]|]. exists τ. split; [by apply Heq|done].
  - intros H. apply H3. intros σ Hσ. by apply H, Heq.
  - rewrite H4. split; intros [(σ & Hσ & Hlt) H]; (split; [exists σ; split; [by apply Heq|done]|]); intros τ Hτ; by apply H, Heq.
Qed.

(** Two oracles that are right agree. *)
Lemma worst_case_unique worlds objective r1 r2 :
  worst_case_of worlds objective r1 → worst_case_of worlds objective r2 →
  wc_min_profit_tick r1 = wc_min_profit_tick r2 ∧ wc_is_guaranteed_positive r1 = wc_is_guaranteed_positive r2.
Proof.
  intros H1 H2. split.
  - destruct (decide (wc_min_profit_tick r1 = wc_min_profit_tick r2)) as [|Hne]; [done|]. exfalso.
    assert (Hnone : ∀ σ, worlds σ → profit σ objective = i64_max).
    { intros σ Hσ. pose proof (profit_range σ objective) as [_ Hmax].
      destruct (decide (profit σ objective = i64_max)) as [|Hlt]; [done|]. exfalso.
      assert (Hex : ∃ σ, worlds σ ∧ profit σ objective < i64_max) by (exists σ; split; [done|lia]).
      destruct (wo_attained _ _ _ H1 Hex) as (σ1 & Hσ1 & E1), (wo_attained _ _ _ H2 Hex) as (σ2 & Hσ2 & E2).
      pose proof (wo_least _ _ _ H1 σ2 Hσ2). pose proof (wo_least _ _ _ H2 σ1 Hσ1). lia. }
    rewrite (wo_none _ _ _ H1 Hnone), (wo_none _ _ _ H2 Hnone) in Hne. done.
  - apply eq_bool_prop_intro. rewrite !Is_true_true, (wo_positive _ _ _ H1), (wo_positive _ _ _ H2). done.
Qed.

(** ** The enumerating oracle of a component *)

(** The value of an id in a world. *)
Definition world_value (variables : list BooleanVariable) (σ : string → bool) (id : Z) : bool :=
  match variables !! Z.to_nat id with Some v => σ (bv_variable_key v) | None => false end.

(** The worlds a component allows: its constraints hold. *)
Definition component_holds (compiled : CompiledConstraintSet) (component : CompiledComponent) (σ : string → bool) : Prop :=
  ∀ k c, k ∈ cp_constraint_ids component → cc_constraints compiled !! Z.to_nat k = Some c →
    constraint_holds (world_value (cc_variables compiled) σ) c.

(** Distinct ids of variables with distinct keys. *)
Record component_wf (compiled : CompiledConstraintSet) (component : CompiledComponent) : Prop := {
  cw_keys : NoDup (bv_variable_key <$> cc_variables compiled);
  cw_ids : NoDup (cp_variable_ids component);
  cw_range : Forall (λ id, 0 <= id) (cp_variable_ids component);
  cw_lengths : well_formed compiled
}.

Lemma lhs_ext (value value' : Z → bool) ids ids' coeffs op rhs :
  Forall2 (λ i i', value i = value' i') ids ids' →
  constraint_lhs value (mkLinearBooleanConstraint ids coeffs op rhs) =
  constraint_lhs value' (mkLinearBooleanConstraint ids' coeffs op rhs).
Proof.
  unfold constraint_lhs. cbn [lc_var_ids lc_coeffs]. generalize 0 at 2 4. intros acc H. revert coeffs acc.
  induction H as [|i i' ids ids' Hi _ IH]; intros [|c coeffs] acc; try done. cbn. by rewrite Hi, IH.
Qed.

Section Subset.
Context (compiled sub : CompiledConstraintSet) (component : CompiledComponent) (ws : list BooleanVariable).
Hypothesis Hwf : component_wf compiled component.
Hypothesis Hws : mapM (λ id, cc_variables compiled !! Z.to_nat id) (cp_variable_ids component) = Some ws.
Hypothesis Hvariables : cc_variables sub = imap renumber ws.
Hypothesis Hconstraints : subset_constraints component compiled = Some (cc_constraints sub).
Hypothesis Hlen : (length ws <= kMaxBruteforceVariables)%nat.

Lemma subset_lookup i id : cp_variable_ids component !! i = Some id →
  ∃ v, ws !! i = Some v ∧ cc_variables compiled !! Z.to_nat id = Some v.
Proof.
  intros Hid. apply mapM_Some in Hws.
  destruct (Forall2_lookup_l _ _ _ _ _ Hws Hid) as (v & ? & ?). by exists v.
Qed.

Lemma subset_keys : NoDup (bv_variable_key <$> ws).
Proof.
  destruct Hwf as [Hkeys Hids Hrange _]. apply NoDup_alt. intros i j key Hi Hj.
  rewrite list_lookup_fmap in Hi, Hj. apply fmap_Some in Hi as (v & Hi & ->), Hj as (w & Hj & Hk).
  pose proof (proj1 (mapM_Some _ _ _) Hws) as HF.
  destruct (Forall2_lookup_r _ _ _ _ _ HF Hi) as (a & Ha & Hva), (Forall2_lookup_r _ _ _ _ _ HF Hj) as (b & Hb & Hwb).
  cbn in Hva, Hwb.
  assert (Hab : Z.to_nat a = Z.to_nat b).
  { apply (NoDup_lookup _ _ _ (bv_variable_key v) Hkeys).
    - by rewrite list_lookup_fmap, Hva.
    - rewrite list_lookup_fmap, Hwb. cbn. by rewrite Hk. }
  rewrite Forall_forall in Hrange.
  pose proof (Hrange a (list_elem_of_lookup_2 _ _ _ Ha)). pose proof (Hrange b (list_elem_of_lookup_2 _ _ _ Hb)).
  assert (b = a) as -> by lia. by apply (NoDup_lookup _ _ _ a Hids).
Qed.

(** The new id of a variable of the component has the value its key has. *)
Lemma subset_value m σ id j :
  shows (imap renumber ws) (mkFeasibleState m [m]) σ → old_to_new component !! id = Some j →
  test [m] j = world_value (cc_variables compiled) σ id.
Proof.
  intros Hs Hj. unfold old_to_new in Hj. apply elem_of_list_to_map_2, list_elem_of_lookup in Hj as [i Hi].
  rewrite list_lookup_imap in Hi. apply fmap_Some in Hi as (id' & Hid & [= <- ->]).
  destruct (subset_lookup i id Hid) as (v & Hv & Hcv). unfold world_value. rewrite Hcv.
  rewrite <- (proj1 (shows_numbered ws m σ Hlen) Hs i v Hv). pose proof (lookup_lt_Some _ _ _ Hv).
  unfold kMaxBruteforceVariables in Hlen. unfold wrap_u32. rewrite Z.mod_small by lia. apply test_mask. lia.
Qed.

(** A state of the subset shows a world the component allows. *)
Lemma subset_feasible m σ :
  shows (imap renumber ws) (mkFeasibleState m [m]) σ →
  feasible sub (test [m]) ↔ component_holds compiled component σ.
Proof.
  intros Hs. unfold feasible, component_holds. pose proof (proj1 (mapM_Some _ _ _) Hconstraints) as HF.
  assert (Hone : ∀ k c', Some c' = (c ← cc_constraints compiled !! Z.to_nat k;
      var_ids ← mapM (λ var_id, old_to_new component !! var_id) (lc_var_ids c);
      Some (mkLinearBooleanConstraint var_ids (lc_coeffs c) (lc_op c) (lc_rhs c))) →
    ∃ c, cc_constraints compiled !! Z.to_nat k = Some c ∧
      (constraint_holds (test [m]) c' ↔ constraint_holds (world_value (cc_variables compiled) σ) c)).
  { intros k c' Hc. symmetry in Hc. apply bind_Some in Hc as (c & Hk & Hc). apply bind_Some in Hc as (ids & Hids & [= <-]).
    exists c. split; [done|]. unfold constraint_holds. cbn [lc_op lc_rhs].
    apply mapM_Some in Hids. destruct c as [cids ccoeffs cop crhs]. cbn [lc_var_ids lc_coeffs lc_op lc_rhs] in *.
    rewrite (lhs_ext (test [m]) (world_value (cc_variables compiled) σ) ids cids ccoeffs cop crhs); [done|].
    apply Forall2_flip. eapply Forall2_impl; [exact Hids|]. intros id j Hj. by apply subset_value. }
  split.
  - intros H k c Hk Hc. apply list_elem_of_lookup in Hk as [i Hi].
    destruct (Forall2_lookup_l _ _ _ _ _ HF Hi) as (c' & Hc' & Heq). destruct (Hone k c' (eq_sym Heq)) as (d & Hd & Hiff).
    assert (d = c) as -> by congruence. apply Hiff. rewrite Forall_forall in H. by apply H, (list_elem_of_lookup_2 _ i).
  - intros H. apply Forall_forall. intros c' [i Hi]%list_elem_of_lookup.
    destruct (Forall2_lookup_r _ _ _ _ _ HF Hi) as (k & Hk & Heq). destruct (Hone k c' (eq_sym Heq)) as (d & Hd & Hiff).
    apply Hiff. apply (H k d); [|done]. by apply (list_elem_of_lookup_2 _ i).
Qed.

Lemma subset_wf : well_formed sub.
Proof.
  unfold well_formed. apply Forall_forall. intros c' [i Hi]%list_elem_of_lookup.
  pose proof (proj1 (mapM_Some _ _ _) Hconstraints) as HF. destruct (Forall2_lookup_r _ _ _ _ _ HF Hi) as (k & _ & Heq).
  apply bind_Some in Heq as (c & Hc & Heq). apply bind_Some in Heq as (ids & Hids & [= <-]). cbn.
  apply mapM_Some, Forall2_length in Hids. rewrite <- Hids. pose proof (cw_lengths _ _ Hwf) as Hl. unfold well_formed in Hl.
  rewrite Forall_forall in Hl. apply Hl. by apply (list_elem_of_lookup_2 _ (Z.to_nat k)).
Qed.

(** The legs of a bundle that speak about the component. *)
Definition known_legs (objective : list BundleObjectiveLeg) : list BundleObjectiveLeg :=
  filter (λ leg, ob_variable_id leg ∈ bv_variable_key <$> ws) objective.

Lemma index_known key : is_Some (index_variables (imap renumber ws) !! key) ↔ key ∈ bv_variable_key <$> ws.
Proof.
  rewrite <- elem_of_dom, dom_index_variables, elem_of_list_to_set, fmap_imap.
  rewrite <- (imap_const _ ws) at 1. by rewrite (imap_ext _ (λ _ v, bv_variable_key v)).
Qed.

Lemma state_candidate_profit m σ objective :
  shows (imap renumber ws) (mkFeasibleState m [m]) σ →
  (state_candidate (index_variables (imap renumber ws)) objective [m]).1 = profit σ (known_legs objective).
Proof.
  intros Hs. unfold state_candidate, profit. change 0 with ((0, @nil string).1) at 2. generalize (0, @nil string).
  induction objective as [|leg objective IH]; intros acc; [done|]. unfold known_legs. rewrite filter_cons. cbn [foldl].
  fold (known_legs objective). pose proof (index_known (ob_variable_id leg)) as Hk. rewrite IH. unfold candidate_leg.
  destruct (index_variables (imap renumber ws) !! ob_variable_id leg) as [id|] eqn:E.
  - pose proof (proj1 Hk (mk_is_Some _ _ eq_refl)) as Hin. rewrite decide_True by done. cbn [foldl].
    pose proof (shows_id ws m σ _ Hlen subset_keys Hs Hin) as Hv. unfold id_of in Hv. rewrite E in Hv. cbn in Hv.
    cbn [fst]. by rewrite Hv.
  - rewrite decide_False; [done|]. intros Hin. by destruct (proj2 Hk Hin).
Qed.

(** A mask shows the world that says what its bits say. *)
Lemma mask_world m : ∃ σ, shows (imap renumber ws) (mkFeasibleState m [m]) σ.
Proof.
  exists (λ key, match index_variables (imap renumber ws) !! key with Some id => test [m] id | None => false end).
  apply shows_numbered; [done|]. intros i v Hi. pose proof (lookup_lt_Some _ _ _ Hi).
  unfold kMaxBruteforceVariables in Hlen. rewrite (index_numbered ws i v subset_keys) by (done || lia).
  symmetry. apply test_mask. lia.
Qed.

Lemma small_oracle_sound id objective :
  worst_case_of (component_holds compiled component) (known_legs objective) (small_min_payoff id sub objective).
Proof.
  assert (Hl : (length (cc_variables sub) <= kMaxBruteforceVariables)%nat) by (by rewrite Hvariables, length_imap).
  unfold small_min_payoff. rewrite Hvariables. apply worst_case_spec.
  - intros p (q & -> & Hq)%list_elem_of_fmap. apply list_elem_of_fmap in Hq as (s & -> & Hs).
    apply (elem_of_states sub s Hl subset_wf) in Hs as (m & -> & _ & Hf). destruct (mask_world m) as (σ & Hσ).
    exists σ. split; [by apply (subset_feasible m σ Hσ)|]. by apply state_candidate_profit.
  - intros σ Hσ. destruct (world_mask ws σ Hlen) as (m & Hm & Hs). apply list_elem_of_fmap.
    eexists. split; [symmetry; by apply (state_candidate_profit m σ)|]. apply list_elem_of_fmap.
    exists (mkFeasibleState m [m]). split; [done|]. apply (elem_of_states sub _ Hl subset_wf).
    exists m. rewrite Hvariables, length_imap. split_and!; [done|apply Hm|apply Hm|]. by apply (subset_feasible m σ).
Qed.
End Subset.

(** The enumerating oracle finds the worst case: for a component of at
    most 32 variables, the profit it reports is the least that the legs about
    the component earn in any world its constraints allow, some such world
    earns it, and the profit is called guaranteed exactly when there is such a
    world and every one of them earns something. *)
Theorem small_oracle_exact compiled component sub id objective :
  component_wf compiled component →
  (length (cp_variable_ids component) <= kMaxBruteforceVariables)%nat →
  subset_compiled_set component compiled = Some sub →
  worst_case_of (component_holds compiled component)
    (filter (λ leg, ob_variable_id leg ∈ bv_variable_key <$> cc_variables sub) objective)
    (small_min_payoff id sub objective).
Proof.
  intros Hwf Hlen Hsub. apply bind_Some in Hsub as (vars & Hvars & Hsub). apply bind_Some in Hsub as (cons & Hcons & [= <-]).
  apply bind_Some in Hvars as (ws & Hws & [= <-]). cbn [cc_variables].
  assert (Hl : (length ws <= kMaxBruteforceVariables)%nat).
  { apply mapM_Some, Forall2_length in Hws as Hlw. by rewrite <- Hlw. }
  assert (Hkeys : bv_variable_key <$> imap renumber ws = bv_variable_key <$> ws).
  { rewrite fmap_imap, <- (imap_const _ ws). apply imap_ext. by intros. }
  rewrite Hkeys. by apply (small_oracle_sound compiled (mkCompiledConstraintSet (imap renumber ws) cons _) component ws).
Qed.

(** ** The oracles of a single constraint *)

Lemma filter_none {A} (P : A → Prop) `{∀ x, Decision (P x)} l : (∀ x, x ∈ l → ¬ P x) → filter P l = [].
Proof.
  induction l as [|x l IH]; intros H'; [done|]. rewrite filter_cons, decide_False by (apply H'; left).
  apply IH. intros y Hy. apply H'. by right.
Qed.

Lemma profit_ext σ τ objective :
  (∀ leg, leg ∈ objective → σ (ob_variable_id leg) = τ (ob_variable_id leg)) → profit σ objective = profit τ objective.
Proof.
  unfold profit. generalize 0. induction objective as [|leg objective IH]; intros p H; [done|]. cbn.
  rewrite (H leg) by left. apply IH. intros l Hl. apply H. by right.
Qed.

Lemma trues_only keys key : NoDup keys → key ∈ keys → trues (only key) keys = 1%nat.
Proof.
  unfold trues, only. induction 1 as [|k keys Hk _ IH]; [by intros ?%not_elem_of_nil|]. rewrite filter_cons.
  intros [<-|Hin]%elem_of_cons.
  - rewrite decide_True by apply String.eqb_refl. cbn. f_equal.
    rewrite filter_none; [done|]. intros x Hx ->%String.eqb_eq. done.
  - rewrite decide_False; [by apply IH|]. intros ->%String.eqb_eq. done.
Qed.

Lemma trues_one σ keys : trues σ keys = 1%nat → ∃ key, key ∈ keys ∧ ∀ k, k ∈ keys → σ k = only key k.
Proof.
  unfold trues. intros H. destruct (filter (λ k, σ k = true) keys) as [|key [|]] eqn:E; try done.
  exists key. assert (Hkey : key ∈ filter (λ k, σ k = true) keys) by (rewrite E; by left).
  apply list_elem_of_filter in Hkey as [Hσ Hkey]. split; [done|]. intros k Hk. unfold only.
  destruct (String.eqb_spec k key) as [->|Hne]; [done|]. destruct (σ k) eqn:Hσk; [|done]. exfalso. apply Hne.
  assert (Hin : k ∈ filter (λ k, σ k = true) keys) by by apply list_elem_of_filter. rewrite E in Hin. by apply list_elem_of_singleton in Hin.
Qed.

Lemma trues_zero σ keys : trues σ keys = 0%nat → ∀ k, k ∈ keys → σ k = false.
Proof.
  unfold trues. intros H%length_zero_iff_nil k Hk. destruct (σ k) eqn:Hσ; [|done]. exfalso.
  assert (Hin : k ∈ filter (λ k, σ k = true) keys) by by apply list_elem_of_filter. rewrite H in Hin. by apply not_elem_of_nil in Hin.
Qed.

Lemma exactly_one_sound keys id objective :
  NoDup keys → Forall (λ leg, ob_variable_id leg ∈ keys) objective →
  worst_case_of (λ σ, trues σ keys = 1%nat) objective (exactly_one_min_payoff id keys objective).
Proof.
  intros Hn Hall. rewrite Forall_forall in Hall. unfold exactly_one_min_payoff, single_candidates. apply worst_case_spec.
  - intros p (q & -> & Hq)%list_elem_of_fmap. apply list_elem_of_fmap in Hq as (key & -> & Hkey).
    exists (only key). split; [by apply trues_only|done].
  - intros σ (key & Hkey & Hσ)%trues_one. rewrite (profit_ext σ (only key)) by auto.
    apply list_elem_of_fmap. eexists (_, _). split; [done|]. apply list_elem_of_fmap. by exists key.
Qed.

Lemma at_most_one_sound keys id objective :
  NoDup keys → Forall (λ leg, ob_variable_id leg ∈ keys) objective →
  worst_case_of (λ σ, (trues σ keys <= 1)%nat) objective (at_most_one_min_payoff id keys objective).
Proof.
  intros Hn Hall. rewrite Forall_forall in Hall. unfold at_most_one_min_payoff, single_candidates. apply worst_case_spec.
  - intros p. rewrite fmap_cons. intros [->|(q & -> & Hq)%list_elem_of_fmap]%elem_of_cons.
    + exists (λ _, false). split; [|done]. unfold trues.
      rewrite filter_none; [cbn; lia|done].
    + apply list_elem_of_fmap in Hq as (key & -> & Hkey). exists (only key). split; [|done].
      rewrite (trues_only keys key) by done. done.
  - intros σ Hσ. rewrite fmap_cons. apply elem_of_cons. destruct (trues σ keys) as [|[|n]] eqn:E; [| |lia].
    + left. cbn. apply profit_ext. intros leg Hleg. by apply (trues_zero σ keys), Hall.
    + right. apply trues_one in E as (key & Hkey & Hk). rewrite (profit_ext σ (only key)) by auto.
      apply list_elem_of_fmap. eexists (_, _). split; [done|]. apply list_elem_of_fmap. by exists key.
Qed.

(** ** Witnesses *)

(** One of three, and an implication: three times three worlds. *)
Lemma states_are_worlds_witness :
  let compiled := cr_compiled (compile demo_rulebook demo_variables) in
  fs_state_id <$> sr_feasible_states (enumerate_states compiled) = [1; 2; 4; 17; 18; 20; 25; 26; 28] ∧
  ∀ σ, (∃ s, s ∈ sr_feasible_states (enumerate_states compiled) ∧ shows (cc_variables compiled) s σ) ↔
       Forall (rule_holds σ) (rb_rules demo_rulebook).
Proof.
  intros compiled. split; [vm_compute; reflexivity|].
  assert (Hshort : Forall (λ r, Z.of_nat (length (vr_variable_ids r)) < 2147483648) (rb_rules demo_rulebook)).
  { apply Forall_cons; split; [reflexivity|]. apply Forall_cons; split; [reflexivity|]. apply Forall_nil. done. }
  assert (Hlen : (length demo_variables <= kMaxBruteforceVariables)%nat) by (apply Nat.leb_le; reflexivity).
  destruct (states_are_worlds demo_rulebook demo_variables demo_compiles Hlen Hshort) as (_ & _ & _ & H). exact H.
Defined.

Definition demo_component : CompiledComponent := mkCompiledComponent 0 [0; 1; 2] [0] "" KExactlyOne.
Definition demo_subset : CompiledConstraintSet :=
  default (mkCompiledConstraintSet [] [] 0) (subset_compiled_set demo_component (cr_compiled (compile demo_rulebook demo_variables))).
Definition demo_legs : list BundleObjectiveLeg :=
  [mkBundleObjectiveLeg "a" 1000000 0 300000; mkBundleObjectiveLeg "b" 1000000 0 310000; mkBundleObjectiveLeg "c" 1000000 0 320000]%string.

Lemma demo_component_wf : component_wf (cr_compiled (compile demo_rulebook demo_variables)) demo_component.
Proof.
  split.
  - apply (bool_decide_unpack _). vm_compute. exact I.
  - apply (bool_decide_unpack _). vm_compute. exact I.
  - apply (bool_decide_unpack _). vm_compute. exact I.
  - unfold well_formed. apply (bool_decide_unpack _). vm_compute. exact I.
Qed.

(** Buying the three outcomes for 930000 of which one pays a million. *)
Lemma small_oracle_exact_witness :
  wc_min_profit_tick (small_min_payoff 0 demo_subset demo_legs) = 70000 ∧
  worst_case_of (component_holds (cr_compiled (compile demo_rulebook demo_variables)) demo_component)
    (filter (λ leg, ob_variable_id leg ∈ bv_variable_key <$> cc_variables demo_subset) demo_legs)
    (small_min_payoff 0 demo_subset demo_legs).
Proof.
  split; [vm_compute; reflexivity|].
  apply small_oracle_exact; [exact demo_component_wf|apply Nat.leb_le; reflexivity|vm_compute; reflexivity].
Defined.
