(* ===== verification/OraclePartition.v ===== *)
(** * OraclePartition: independent components of a constraint set

    [oracle/compiler/ConstraintGraph.cpp] and [ComponentPartitioner.cpp].
    Variables that share a constraint are joined in a disjoint set with path
    compression and union by rank; its classes, numbered and classified, are
    the components an oracle treats separately. *)

From stdpp Require Import pretty.
From S2P Require Import Prelude Hashing Bundles OracleRules OracleStates.
#[local] Open Scope Z_scope.

(** ** The constraint graph *)

(** [oracle/compiler/ConstraintGraph.h:12-17] ConstraintGraphNode. *)
Record ConstraintGraphNode := mkConstraintGraphNode {
  gn_var_id : Z;
  gn_variable_id : string;
  gn_market_id : string;
  gn_event_id : string
}.

(** [oracle/compiler/ConstraintGraph.h:19-22] ConstraintGraphEdge. *)
Record ConstraintGraphEdge := mkConstraintGraphEdge { ge_constraint_id : Z; ge_var_ids : list Z }.

(** [oracle/compiler/ConstraintGraph.h:24-28] ConstraintGraph. *)
Record ConstraintGraph := mkConstraintGraph {
  cg_nodes : list ConstraintGraphNode;
  cg_edges : list ConstraintGraphEdge;
  cg_graph_hash : Z
}.

(** [oracle/compiler/ConstraintGraph.cpp:63-68] hash_constraint_graph, one node. *)
Definition hash_node (hash : Z) (n : ConstraintGraphNode) : Z :=
  let hash := hash_u32 hash (gn_var_id n) in
  let hash := hash_marked_string hash (gn_variable_id n) in
  let hash := hash_marked_string hash (gn_market_id n) in
  hash_marked_string hash (gn_event_id n).

(** [oracle/compiler/ConstraintGraph.cpp:70-76] hash_constraint_graph, one edge. *)
Definition hash_edge (hash : Z) (e : ConstraintGraphEdge) : Z :=
  let hash := hash_u32 hash (ge_constraint_id e) in
  let hash := hash_u32 hash (wrap_u32 (Z.of_nat (length (ge_var_ids e)))) in
  foldl hash_u32 hash (ge_var_ids e).

(** [oracle/compiler/ConstraintGraph.cpp:60-79] hash_constraint_graph. *)
Definition hash_constraint_graph (nodes : list ConstraintGraphNode) (edges : list ConstraintGraphEdge) : Z :=
  foldl hash_edge (foldl hash_node fnv_offset nodes) edges.

(** [oracle/compiler/ConstraintGraph.cpp:31-58] build. *)
Definition build_graph (compiled : CompiledConstraintSet) : ConstraintGraph :=
  let nodes := (λ v, mkConstraintGraphNode (bv_var_id v) (bv_variable_key v) (bv_market_id v) "") <$> cc_variables compiled in
  let edges := imap (λ i c, mkConstraintGraphEdge (wrap_u32 (Z.of_nat i)) (merge_sort Z.le (lc_var_ids c)))
    (cc_constraints compiled) in
  mkConstraintGraph nodes edges (hash_constraint_graph nodes edges).

(** ** Disjoint sets *)

(** [oracle/compiler/ComponentPartitioner.cpp:52-55] DisjointSet. *)
Record DisjointSet := mkDisjointSet { ds_parent : list nat; ds_rank : list Z }.

(** [oracle/compiler/ComponentPartitioner.cpp:26-28] DisjointSet. *)
Definition new_disjoint_set (size : nat) : DisjointSet := mkDisjointSet (seq 0 size) (replicate size 0).

(** [oracle/compiler/ComponentPartitioner.cpp:30-35] find; [None] is an index out of range, or running out of fuel. *)
Fixpoint find_root (fuel : nat) (parent : list nat) (value : nat) : option (list nat * nat) :=
  match fuel with
  | O => None
  | S fuel =>
      p ← parent !! value;
      if decide (p = value) then Some (parent, value)
      else '(parent, root) ← find_root fuel parent p; Some (<[value := root]> parent, root)
  end.

(** [oracle/compiler/ComponentPartitioner.cpp:30-35] find: a chain of parents is shorter than the set. *)
Definition ds_find (s : DisjointSet) (value : nat) : option (DisjointSet * nat) :=
  '(parent, root) ← find_root (S (length (ds_parent s))) (ds_parent s) value;
  Some (mkDisjointSet parent (ds_rank s), root).

(** [oracle/compiler/ComponentPartitioner.cpp:37-50] unite; ranks are [std::uint8_t]. *)
Definition ds_unite (s : DisjointSet) (lhs rhs : nat) : option DisjointSet :=
  '(s, lroot) ← ds_find s lhs;
  '(s, rroot) ← ds_find s rhs;
  if decide (lroot = rroot) then Some s
  else
    let '(lroot, rroot) := if ds_rank s !!! lroot <? ds_rank s !!! rroot then (rroot, lroot) else (lroot, rroot) in
    Some (mkDisjointSet (<[rroot := lroot]> (ds_parent s))
      (if ds_rank s !!! lroot =? ds_rank s !!! rroot then <[lroot := (ds_rank s !!! lroot + 1) mod 256]> (ds_rank s)
       else ds_rank s)).

(** ** Classification *)

(** [oracle/compiler/ComponentPartitioner.cpp:57-63] all_coeffs_one. *)
Definition all_coeffs_one (c : LinearBooleanConstraint) : bool := forallb (λ coeff, coeff =? 1) (lc_coeffs c).

(** [oracle/compiler/ComponentPartitioner.cpp:65-72] is_exactly_one_constraint; [op] is [Equal] there and [LessEqual] for
    is_at_most_one_constraint. *)
Definition is_one_constraint (op : ConstraintOp) (c : LinearBooleanConstraint) (component : CompiledComponent) : bool :=
  bool_decide (lc_op c = op) && (lc_rhs c =? 1) &&
  (length (lc_var_ids c) =? length (cp_variable_ids component))%nat && all_coeffs_one c.

(** [oracle/compiler/ComponentPartitioner.cpp:83-88] is_large_exactly_one_hyperedge; [op] as above for
    is_large_at_most_one_hyperedge. *)
Definition is_large_hyperedge (op : ConstraintOp) (c : LinearBooleanConstraint) : bool :=
  bool_decide (lc_op c = op) && (lc_rhs c =? 1) && (2 <? length (lc_var_ids c))%nat && all_coeffs_one c.

(** [oracle/compiler/ComponentPartitioner.cpp:97-102] is_binary_complement_constraint. *)
Definition is_binary_complement_constraint (c : LinearBooleanConstraint) : bool :=
  bool_decide (lc_op c = Equal) && (lc_rhs c =? 1) && (length (lc_var_ids c) =? 2)%nat && all_coeffs_one c.

(** [oracle/compiler/ComponentPartitioner.cpp:122-136] classify_component, the loop: what was seen, and whether all is supported. *)
Fixpoint scan_constraints (exactly at_most : bool) (constraints : list LinearBooleanConstraint) : bool * bool * bool :=
  match constraints with
  | [] => (exactly, at_most, true)
  | c :: rest =>
      if is_large_hyperedge Equal c then scan_constraints true at_most rest
      else if is_large_hyperedge LessEqual c then scan_constraints exactly true rest
      else if negb (is_binary_complement_constraint c) then (exactly, at_most, false)
      else scan_constraints exactly at_most rest
  end.

(** [oracle/compiler/ComponentPartitioner.cpp:119-148] classify_component, after the test for a single constraint. *)
Definition classify_many (component : CompiledComponent) (constraints : list LinearBooleanConstraint) : ComponentKind :=
  let '(exactly, at_most, supported) := scan_constraints false false constraints in
  let supported := supported && negb (bool_decide (constraints = [])) in
  if supported && exactly then KExactlyOne
  else if supported && at_most then KAtMostOne
  else if (length (cp_variable_ids component) <=? 32)%nat then KSmallEnumerable
  else KGenericLinearBoolean.

(** [oracle/compiler/ComponentPartitioner.cpp:104-149] classify_component; [None] is a constraint id out of range. *)
Definition classify_component (component : CompiledComponent) (compiled : CompiledConstraintSet) : option ComponentKind :=
  constraints ← mapM (λ k, cc_constraints compiled !! Z.to_nat k) (cp_constraint_ids component);
  Some match constraints with
       | [c] =>
           if is_one_constraint Equal c component then KExactlyOne
           else if is_one_constraint LessEqual c component then KAtMostOne
           else classify_many component constraints
       | _ => classify_many component constraints
       end.

Definition component_kind_value (kind : ComponentKind) : Z :=
  match kind with
  | KSmallEnumerable => 0 | KExactlyOne => 1 | KAtMostOne => 2 | KImplicationDag => 3 | KWeightedThreshold => 4
  | KGenericLinearBoolean => 5
  end.

(** [oracle/compiler/ComponentPartitioner.cpp:256-273] hash_components, one component. *)
Definition hash_component (hash : Z) (c : CompiledComponent) : Z :=
  let hash := hash_u32 hash (cp_component_id c) in
  let hash := mix_byte hash (component_kind_value (cp_kind c)) in
  let hash := hash_u32 hash (wrap_u32 (Z.of_nat (length (cp_variable_ids c)))) in
  let hash := foldl hash_u32 hash (cp_variable_ids c) in
  let hash := hash_u32 hash (wrap_u32 (Z.of_nat (length (cp_constraint_ids c)))) in
  foldl hash_u32 hash (cp_constraint_ids c).

(** [oracle/compiler/ComponentPartitioner.cpp:252-275] hash_components. *)
Definition hash_components (components : list CompiledComponent) : Z := foldl hash_component fnv_offset components.

(** [oracle/compiler/ComponentPartitioner.cpp:151-155] component_hash_string. *)
Definition component_hash_string (component : CompiledComponent) : string := pretty (Z.to_N (hash_components [component])).

(** ** The partition *)

(** [oracle/compiler/ComponentPartitioner.cpp:184-194] partition: one edge joins its variables to its first. *)
Definition unite_edge (nodes : nat) (s : DisjointSet) (edge : ConstraintGraphEdge) : option DisjointSet :=
  match ge_var_ids edge with
  | [] => Some s
  | root :: _ =>
      foldl (λ s var_id,
        s ← s;
        if (root <? Z.of_nat nodes) && (var_id <? Z.of_nat nodes) then ds_unite s (Z.to_nat root) (Z.to_nat var_id)
        else Some s) (Some s) (ge_var_ids edge)
  end.

(** [oracle/compiler/ComponentPartitioner.cpp:184-194] partition, the loop over the edges. *)
Definition unite_edges (nodes : nat) (s : DisjointSet) (edges : list ConstraintGraphEdge) : option DisjointSet :=
  foldl (λ s edge, s ← s; unite_edge nodes s edge) (Some s) edges.

(** The sets, the component of each root, and the components so far. *)
Record PartitionState := mkPartitionState {
  ps_set : DisjointSet;
  ps_roots : gmap nat nat;
  ps_components : list CompiledComponent
}.

Definition push_variable (var_id : Z) (c : CompiledComponent) : CompiledComponent :=
  mkCompiledComponent (cp_component_id c) (cp_variable_ids c ++ [var_id]) (cp_constraint_ids c) (cp_component_hash c) (cp_kind c).
Definition push_constraint (constraint_id : Z) (c : CompiledComponent) : CompiledComponent :=
  mkCompiledComponent (cp_component_id c) (cp_variable_ids c) (cp_constraint_ids c ++ [constraint_id]) (cp_component_hash c)
    (cp_kind c).

(** [oracle/compiler/ComponentPartitioner.cpp:197-209] partition, one node: a root not seen before opens a component. *)
Definition place_node (st : PartitionState) (var_id : Z) : option PartitionState :=
  '(s, root) ← ds_find (ps_set st) (Z.to_nat var_id);
  let '(roots, components, i) :=
    match ps_roots st !! root with
    | Some i => (ps_roots st, ps_components st, i)
    | None =>
        let i := size (ps_roots st) in
        (<[root := i]> (ps_roots st),
         ps_components st ++ [mkCompiledComponent (wrap_u32 (Z.of_nat i)) [] [] "" KGenericLinearBoolean], i)
    end in
  Some (mkPartitionState s roots (alter (push_variable var_id) i components)).

(** [oracle/compiler/ComponentPartitioner.cpp:211-223] partition, one constraint goes to the component of its first variable. *)
Definition place_edge (st : PartitionState) (edge : ConstraintGraphEdge) : option PartitionState :=
  match ge_var_ids edge with
  | [] => Some st
  | first :: _ =>
      '(s, root) ← ds_find (ps_set st) (Z.to_nat first);
      Some (match ps_roots st !! root with
            | None => mkPartitionState s (ps_roots st) (ps_components st)
            | Some i =>
                mkPartitionState s (ps_roots st) (alter (push_constraint (ge_constraint_id edge)) i (ps_components st))
            end)
  end.

(** [oracle/compiler/ComponentPartitioner.cpp:225-233] partition: a component sorted, classified and hashed. *)
Definition finish_component (compiled : CompiledConstraintSet) (c : CompiledComponent) : option CompiledComponent :=
  let c := mkCompiledComponent (cp_component_id c) (merge_sort Z.le (cp_variable_ids c))
    (merge_sort Z.le (cp_constraint_ids c)) (cp_component_hash c) (cp_kind c) in
  kind ← classify_component c compiled;
  let c := mkCompiledComponent (cp_component_id c) (cp_variable_ids c) (cp_constraint_ids c) (cp_component_hash c) kind in
  Some (mkCompiledComponent (cp_component_id c) (cp_variable_ids c) (cp_constraint_ids c) (component_hash_string c) kind).

(** The lexicographic order of [std::vector]. *)
Fixpoint lex_leb (l1 l2 : list Z) : bool :=
  match l1, l2 with
  | [], _ => true
  | _ :: _, [] => false
  | x :: l1, y :: l2 => (x <? y) || ((x =? y) && lex_leb l1 l2)
  end.

(** [oracle/compiler/ComponentPartitioner.cpp:238-240] the order of the components. *)
Definition component_le (a b : CompiledComponent) : Prop := lex_leb (cp_variable_ids a) (cp_variable_ids b) = true.
#[export] Instance component_le_dec : RelDecision component_le.
Proof. unfold component_le. intros a b. apply _. Defined.

(** [oracle/compiler/ComponentPartitioner.cpp:242-246] partition: the final number and hash. *)
Definition number_component (i : nat) (c : CompiledComponent) : CompiledComponent :=
  let c := mkCompiledComponent (wrap_u32 (Z.of_nat i)) (cp_variable_ids c) (cp_constraint_ids c) (cp_component_hash c) (cp_kind c) in
  mkCompiledComponent (cp_component_id c) (cp_variable_ids c) (cp_constraint_ids c) (component_hash_string c) (cp_kind c).

(** [oracle/compiler/ComponentPartitioner.h:11-14] ComponentPartitionResult. *)
Record ComponentPartitionResult := mkComponentPartitionResult {
  pr_components : list CompiledComponent;
  pr_partition_hash : Z
}.

(** [oracle/compiler/ComponentPartitioner.cpp:177-250] partition. *)
Definition partition (graph : ConstraintGraph) (compiled : CompiledConstraintSet) : option ComponentPartitionResult :=
  let n := length (cg_nodes graph) in
  s ← unite_edges n (new_disjoint_set n) (cg_edges graph);
  st ← foldl (λ st node, st ← st; place_node st (gn_var_id node)) (Some (mkPartitionState s ∅ [])) (cg_nodes graph);
  st ← foldl (λ st edge, st ← st; place_edge st edge) (Some st) (cg_edges graph);
  finished ← mapM (finish_component compiled) (ps_components st);
  let components := imap number_component (merge_sort component_le finished) in
  Some (mkComponentPartitionResult components (hash_components components)).

(** ** Union-find *)

(** [r] is the root of [x]: the end of its chain of parents. *)
Inductive rep (parent : list nat) : nat → nat → Prop :=
  | rep_root x : parent !! x = Some x → rep parent x x
  | rep_step x y r : parent !! x = Some y → y ≠ x → rep parent y r → rep parent x r.

(** Parents stay in range, and some measure falls along every chain. *)
Record forest (parent : list nat) (d : nat → nat) : Prop := {
  fo_closed x y : parent !! x = Some y → (y < length parent)%nat;
  fo_falls x y : parent !! x = Some y → y ≠ x → (d y < d x)%nat
}.

Section Forest.
Context (parent : list nat).

Lemma rep_is_root x r : rep parent x r → parent !! r = Some r.
Proof. by induction 1. Qed.

Lemma rep_functional x r1 r2 : rep parent x r1 → rep parent x r2 → r1 = r2.
Proof.
  intros H. revert r2. induction H as [x Hx|x y r Hy Hne _ IH]; intros r2 H2; inversion H2; subst; try done; try congruence.
  assert (y0 = y) as -> by congruence. by apply IH.
Qed.

Lemma rep_of_root x r : parent !! x = Some x → rep parent x r → r = x.
Proof. intros Hx H. apply (rep_functional x); [done|by constructor]. Qed.

Lemma rep_falls d x r : forest parent d → rep parent x r → r = x ∨ (d r < d x)%nat.
Proof.
  intros Hf. induction 1 as [x Hx|x y r Hy Hne _ IH]; [by left|]. right.
  pose proof (fo_falls _ _ Hf x y Hy Hne). destruct IH as [->|]; lia.
Qed.

Lemma rep_range x r : rep parent x r → (x < length parent)%nat ∧ (r < length parent)%nat.
Proof. induction 1 as [x Hx|x y r Hy _ _ [_ ?]]; split; try done; by eapply lookup_lt_Some. Qed.

(** Pointing a node at its root changes no root. *)
Lemma rep_compress x r z s :
  rep parent x r → r ≠ x → rep (<[x := r]> parent) z s ↔ rep parent z s.
Proof.
  intros Hx Hne. pose proof (rep_is_root x r Hx) as Hr. pose proof (rep_range x r Hx) as [Hlt _].
  assert (Hr' : <[x := r]> parent !! r = Some r) by by rewrite list_lookup_insert_ne.
  split.
  - induction 1 as [z Hz|z y s Hy Hzy _ IH].
    + destruct (decide (z = x)) as [->|]; [rewrite list_lookup_insert_eq in Hz by done; congruence|].
      rewrite list_lookup_insert_ne in Hz by done. by constructor.
    + destruct (decide (z = x)) as [->|].
      * rewrite list_lookup_insert_eq in Hy by done. injection Hy as <-. by rewrite (rep_of_root r s Hr IH).
      * rewrite list_lookup_insert_ne in Hy by done. by apply (rep_step _ z y).
  - induction 1 as [z Hz|z y s Hy Hzy Hys IH].
    + destruct (decide (z = x)) as [->|]; [|constructor; by rewrite list_lookup_insert_ne].
      pose proof (rep_of_root x r Hz Hx). done.
    + destruct (decide (z = x)) as [->|]; [|apply (rep_step _ z y); [by rewrite list_lookup_insert_ne|done|done]].
      assert (s = r) as -> by (apply (rep_functional x); [by apply (rep_step _ x y)|done]).
      apply (rep_step _ x r); [by rewrite list_lookup_insert_eq|done|by constructor].
Qed.

(** Hanging one root under another merges their classes. *)
Lemma rep_link a b z s :
  parent !! a = Some a → parent !! b = Some b → a ≠ b →
  rep (<[b := a]> parent) z s ↔ ∃ s0, rep parent z s0 ∧ s = if decide (s0 = b) then a else s0.
Proof.
  intros Ha Hb Hne. pose proof (lookup_lt_Some _ _ _ Hb) as Hlt.
  assert (Ha' : <[b := a]> parent !! a = Some a) by by rewrite list_lookup_insert_ne.
  split.
  - induction 1 as [z Hz|z y s Hy Hzy Hys IH].
    + destruct (decide (z = b)) as [->|Hzb]; [rewrite list_lookup_insert_eq in Hz by done; congruence|].
      rewrite list_lookup_insert_ne in Hz by done. exists z. split; [by constructor|]. by rewrite decide_False.
    + destruct (decide (z = b)) as [->|Hzb].
      * rewrite list_lookup_insert_eq in Hy by done. injection Hy as <-. exists b. split; [by constructor|].
        rewrite decide_True by done. destruct IH as (s0 & Hs0 & ->).
        rewrite (rep_of_root a s0 Ha Hs0). by rewrite decide_False.
      * rewrite list_lookup_insert_ne in Hy by done. destruct IH as (s0 & Hs0 & ->). exists s0.
        split; [by apply (rep_step _ z y)|done].
  - intros (s0 & Hs0 & ->). induction Hs0 as [z Hz|z y s0 Hy Hzy Hys IH].
    + case_decide as Hzb; [subst z|constructor; by rewrite list_lookup_insert_ne].
      apply (rep_step _ b a); [by rewrite list_lookup_insert_eq|done|by constructor].
    + assert (z ≠ b) by congruence. apply (rep_step _ z y); [by rewrite list_lookup_insert_ne|done|done].
Qed.
End Forest.

(** The measure can be taken below the number of nodes: count what lies below. *)
Lemma forest_bounded parent d : forest parent d → ∃ d', forest parent d' ∧ ∀ x, (x < length parent)%nat → (d' x < length parent)%nat.
Proof.
  intros Hf. set (below x := filter (λ y, (d y < d x)%nat) (set_seq 0 (length parent) : gset nat)).
  exists (λ x, size (below x)). split.
  - split; [apply Hf|]. intros x y Hy Hne. pose proof (fo_falls _ _ Hf x y Hy Hne) as Hd.
    apply subset_size, strict_spec_alt. split.
    + intros z. unfold below. rewrite !elem_of_filter. intros [? ?]. split; [lia|done].
    + intros E. assert (Hin : y ∈ below x).
      { unfold below. apply elem_of_filter. split; [done|]. apply elem_of_set_seq. pose proof (fo_closed _ _ Hf x y Hy). lia. }
      rewrite <- E in Hin. unfold below in Hin. apply elem_of_filter in Hin as [? _]. lia.
  - intros x Hx. apply Nat.lt_le_trans with (size (set_seq 0 (length parent) : gset nat)).
    + apply subset_size, strict_spec_alt. split; [unfold below; set_solver|]. intros E.
      assert (Hin : x ∈ below x) by (rewrite E; apply elem_of_set_seq; lia).
      unfold below in Hin. apply elem_of_filter in Hin as [? _]. lia.
    + rewrite <- (list_to_set_seq 0 (length parent)), size_list_to_set by apply NoDup_seq. by rewrite length_seq.
Qed.

Lemma find_root_spec fuel parent d x :
  forest parent d → (x < length parent)%nat → (d x < fuel)%nat →
  ∃ parent' r, find_root fuel parent x = Some (parent', r) ∧ rep parent x r ∧ forest parent' d ∧
    length parent' = length parent ∧ ∀ z s, rep parent' z s ↔ rep parent z s.
Proof.
  revert parent x. induction fuel as [|fuel IH]; intros parent x Hf Hx Hd; [lia|]. cbn.
  destruct (lookup_lt_is_Some_2 _ _ Hx) as [y Hy]. rewrite Hy. cbn. case_decide as Heq.
  - subst y. exists parent, x. split_and!; try done. by constructor.
  - destruct (IH parent y Hf (fo_closed _ _ Hf x y Hy)) as (p1 & r & -> & Hr & Hf1 & Hlen & Hrep).
    { pose proof (fo_falls _ _ Hf x y Hy Heq). lia. }
    assert (Hxr : rep parent x r) by by apply (rep_step _ x y).
    assert (Hlt : (d r < d x)%nat).
    { pose proof (fo_falls _ _ Hf x y Hy Heq). destruct (rep_falls parent d y r Hf Hr) as [->|]; lia. }
    assert (Hne : r ≠ x) by (intros ->; lia).
    exists (<[x := r]> p1), r. split; [done|]. split; [done|]. rewrite length_insert. split_and!; [|done|].
    + split; intros a b Hab.
      * rewrite length_insert. destruct (decide (a = x)) as [->|].
        -- rewrite list_lookup_insert_eq in Hab by lia. injection Hab as <-. rewrite Hlen. by apply (rep_range parent x r).
        -- rewrite list_lookup_insert_ne in Hab by done. by apply (fo_closed _ _ Hf1 a b).
      * destruct (decide (a = x)) as [->|].
        -- rewrite list_lookup_insert_eq in Hab by lia. by injection Hab as <-.
        -- rewrite list_lookup_insert_ne in Hab by done. by apply (fo_falls _ _ Hf1 a b).
    + intros z s. rewrite <- Hrep. apply rep_compress; [by apply Hrep|done].
Qed.

(** A disjoint set over [n] nodes, and its equivalence. *)
Definition ds_ok (n : nat) (s : DisjointSet) : Prop := length (ds_parent s) = n ∧ ∃ d, forest (ds_parent s) d.
Definition same (s : DisjointSet) (x y : nat) : Prop := ∃ r, rep (ds_parent s) x r ∧ rep (ds_parent s) y r.

Lemma ds_find_spec n s x :
  ds_ok n s → (x < n)%nat →
  ∃ s' r, ds_find s x = Some (s', r) ∧ rep (ds_parent s) x r ∧ ds_ok n s' ∧
    ∀ z q, rep (ds_parent s') z q ↔ rep (ds_parent s) z q.
Proof.
  intros [Hlen [d Hf]] Hx. destruct (forest_bounded _ d Hf) as (d' & Hf' & Hb). rewrite <- Hlen in Hx.
  destruct (find_root_spec (S (length (ds_parent s))) _ d' x Hf' Hx) as (p & r & Hfind & Hr & Hfp & Hl & Hrep).
  { specialize (Hb x Hx). lia. }
  unfold ds_find. rewrite Hfind. cbn. eexists _, r. split; [done|]. cbn. split_and!; try done. split; [cbn; lia|by exists d'].
Qed.

#[local] Arguments ds_find : simpl never.
#[local] Arguments ds_unite : simpl never.

Lemma ds_ok_root n s : ds_ok n s → ∃ f, ∀ x, (x < n)%nat → rep (ds_parent s) x (f x).
Proof.
  intros Hs. exists (λ x, match ds_find s x with Some (_, r) => r | None => x end). intros x Hx.
  by destruct (ds_find_spec n s x Hs Hx) as (s' & r & -> & Hr & _).
Qed.

Lemma forest_link parent d f a b :
  forest parent d → (∀ x, (x < length parent)%nat → rep parent x (f x)) →
  parent !! a = Some a → parent !! b = Some b → a ≠ b →
  forest (<[b := a]> parent) (λ x, if decide (f x = b) then (d x + d a + 1)%nat else d x).
Proof.
  intros Hf Hroot Ha Hb Hne. pose proof (lookup_lt_Some _ _ _ Ha) as Hla. pose proof (lookup_lt_Some _ _ _ Hb) as Hlb.
  assert (Hfa : f a = a) by exact (rep_of_root parent a _ Ha (Hroot a Hla)).
  assert (Hfb : f b = b) by exact (rep_of_root parent b _ Hb (Hroot b Hlb)).
  split; intros x y Hxy.
  - rewrite length_insert. destruct (decide (x = b)) as [->|].
    + rewrite list_lookup_insert_eq in Hxy by done. by injection Hxy as <-.
    + rewrite list_lookup_insert_ne in Hxy by done. by apply (fo_closed _ _ Hf x y).
  - intros Hyx. destruct (decide (x = b)) as [->|Hxb].
    + rewrite list_lookup_insert_eq in Hxy by done. injection Hxy as <-.
      rewrite Hfa, Hfb, decide_False, decide_True by done. lia.
    + rewrite list_lookup_insert_ne in Hxy by done. pose proof (fo_falls _ _ Hf x y Hxy Hyx).
      pose proof (fo_closed _ _ Hf x y Hxy) as Hy. pose proof (lookup_lt_Some _ _ _ Hxy) as Hx.
      assert (Hfxy : f x = f y).
      { apply (rep_functional parent x); [by apply Hroot|]. apply (rep_step _ x y); [done|done|by apply Hroot]. }
      rewrite Hfxy. case_decide; lia.
Qed.

Lemma same_link s s' a b :
  ds_parent s' = <[b := a]> (ds_parent s) → ds_parent s !! a = Some a → ds_parent s !! b = Some b → a ≠ b →
  ∀ x y, same s' x y ↔ same s x y ∨ (same s x a ∧ same s b y) ∨ (same s x b ∧ same s a y).
Proof.
  intros Hs' Ha Hb Hne x y.
  assert (Hra : ∀ z, same s z a ↔ rep (ds_parent s) z a).
  { intros z. split; [|intros H; exists a; split; [done|by constructor]].
    intros (r & Hz & Hr). by rewrite (rep_of_root _ a r Ha Hr) in Hz. }
  assert (Hrb : ∀ z, same s z b ↔ rep (ds_parent s) z b).
  { intros z. split; [|intros H; exists b; split; [done|by constructor]].
    intros (r & Hz & Hr). by rewrite (rep_of_root _ b r Hb Hr) in Hz. }
  assert (Hsym : ∀ u v, same s u v ↔ same s v u) by (intros u v; split; intros (r & ? & ?); by exists r).
  rewrite (Hsym b y), (Hsym a y), !Hra, !Hrb. unfold same. rewrite Hs'. split.
  - intros (r & Hx & Hy). apply rep_link in Hx as (r1 & Hx & E1); [|done..]. apply rep_link in Hy as (r2 & Hy & E2); [|done..].
    repeat case_decide; subst; eauto 10.
  - intros [(r & Hx & Hy)|[[Hx Hy]|[Hx Hy]]].
    + exists (if decide (r = b) then a else r). split; apply rep_link; eauto.
    + exists a. split; apply rep_link; try done; [exists a|exists b]; split; try done; [by rewrite decide_False|by rewrite decide_True].
    + exists a. split; apply rep_link; try done; [exists b|exists a]; split; try done; [by rewrite decide_True|by rewrite decide_False].
Qed.

Lemma same_rep_eq s s' : (∀ z q, rep (ds_parent s') z q ↔ rep (ds_parent s) z q) → ∀ x y, same s' x y ↔ same s x y.
Proof. intros H x y. unfold same. split; intros (r & ? & ?); exists r; split; by apply H. Qed.

Lemma ds_unite_spec n s a b :
  ds_ok n s → (a < n)%nat → (b < n)%nat →
  ∃ s', ds_unite s a b = Some s' ∧ ds_ok n s' ∧
    ∀ x y, same s' x y ↔ same s x y ∨ (same s x a ∧ same s b y) ∨ (same s x b ∧ same s a y).
Proof.
  intros Hs Ha Hb. unfold ds_unite.
  destruct (ds_find_spec n s a Hs Ha) as (s1 & ra & -> & Hra & Hs1 & Hrep1). cbn.
  destruct (ds_find_spec n s1 b Hs1 Hb) as (s2 & rb & -> & Hrb & Hs2 & Hrep2). cbn.
  assert (Hrep : ∀ z q, rep (ds_parent s2) z q ↔ rep (ds_parent s) z q) by (intros; by rewrite Hrep2, Hrep1).
  apply Hrep1 in Hrb. pose proof (same_rep_eq s s2 Hrep) as Hsame.
  assert (Hab : ∀ x y, (same s x a ∧ same s b y) ∨ (same s x b ∧ same s a y) ↔
                       (same s2 x ra ∧ same s2 rb y) ∨ (same s2 x rb ∧ same s2 ra y)).
  { intros x y. rewrite !Hsame. unfold same.
    assert (Hroot : ∀ u ru z, rep (ds_parent s) u ru → (∃ r, rep (ds_parent s) z r ∧ rep (ds_parent s) u r) ↔
                                                (∃ r, rep (ds_parent s) z r ∧ rep (ds_parent s) ru r)).
    { intros u ru z Hu. pose proof (rep_is_root _ _ _ Hu). split; intros (r & Hz & Hr).
      - assert (r = ru) as -> by by apply (rep_functional (ds_parent s) u). exists ru. split; [done|by constructor].
      - assert (r = ru) as -> by by apply (rep_of_root (ds_parent s)). by exists ru. }
    assert (Hroot' : ∀ u ru z, rep (ds_parent s) u ru → (∃ r, rep (ds_parent s) u r ∧ rep (ds_parent s) z r) ↔
                                                (∃ r, rep (ds_parent s) ru r ∧ rep (ds_parent s) z r)).
    { intros u ru z Hu. specialize (Hroot u ru z Hu). split; intros (r & ? & ?).
      - destruct (proj1 Hroot) as (q & ? & ?); [by exists r|]. by exists q.
      - destruct (proj2 Hroot) as (q & ? & ?); [by exists r|]. by exists q. }
    by rewrite (Hroot a ra x Hra), (Hroot' b rb y Hrb), (Hroot b rb x Hrb), (Hroot' a ra y Hra). }
  case_decide as Heq.
  - exists s2. split; [done|]. split; [done|]. intros x y. rewrite (Hab x y), Hsame. subst rb.
    split; [tauto|]. intros [H|[[H1 H2]|[H1 H2]]]; [done|..];
      destruct H1 as (r1 & ? & Hr1), H2 as (r2 & Hr2 & ?); apply Hsame; exists r1;
      (split; [done|]); by rewrite (rep_functional _ _ _ _ Hr1 Hr2).
  - assert (Hroots : ds_parent s2 !! ra = Some ra ∧ ds_parent s2 !! rb = Some rb).
    { split; [apply (rep_is_root (ds_parent s2) a)|apply (rep_is_root (ds_parent s2) b)]; by apply Hrep. }
    destruct Hroots as [Hpa Hpb]. destruct (ds_ok_root n s2 Hs2) as [f Hf]. destruct Hs2 as [Hlen [d Hd]]. rewrite <- Hlen in Hf.
    assert (Hlink : ∀ l r rank, l ≠ r → ds_parent s2 !! l = Some l → ds_parent s2 !! r = Some r →
      (l = ra ∧ r = rb) ∨ (l = rb ∧ r = ra) →
      ds_ok n (mkDisjointSet (<[r := l]> (ds_parent s2)) rank) ∧
      ∀ x y, same (mkDisjointSet (<[r := l]> (ds_parent s2)) rank) x y ↔
        same s x y ∨ (same s x a ∧ same s b y) ∨ (same s x b ∧ same s a y)).
    { intros l r rank Hne Hl Hr Hcase. split.
      - split; [by cbn; rewrite length_insert|]. eexists. by apply (forest_link _ d f).
      - intros x y. rewrite (same_link s2 _ l r) by done. rewrite (Hab x y), <- Hsame. destruct Hcase as [[-> ->]|[-> ->]]; tauto. }
    destruct (ds_rank s2 !!! ra <? ds_rank s2 !!! rb); eexists; (split; [done|]); apply Hlink; try done; tauto.
Qed.

(** ** Joining the edges *)

Lemma rtsc_mono {A} (R R' : relation A) x y : (∀ u v, R u v → R' u v) → rtsc R x y → rtsc R' x y.
Proof.
  intros H Hxy. unfold rtsc in *. induction Hxy as [x|x z y [Hz|Hz] _ IH]; [done|..]; (eapply rtc_l; [|exact IH]).
  - left. by apply H.
  - right. by apply H.
Qed.

(** One more pair in a relation: what it connects. *)
Lemma rtsc_add {A} (R : relation A) a b x y :
  rtsc (λ u v, R u v ∨ (u = a ∧ v = b)) x y ↔ rtsc R x y ∨ (rtsc R x a ∧ rtsc R b y) ∨ (rtsc R x b ∧ rtsc R a y).
Proof.
  assert (Hmono : ∀ u v, rtsc R u v → rtsc (λ u v, R u v ∨ (u = a ∧ v = b)) u v).
  { intros u v. apply rtsc_mono. tauto. }
  split.
  - intros H. unfold rtsc in H. induction H as [x|x z y Hxz _ IH]; [left; constructor|].
    assert (Hone : rtsc R x z ∨ (x = a ∧ z = b) ∨ (x = b ∧ z = a)).
    { destruct Hxz as [[?|?]|[?|?]]; [left; by apply rtsc_lr|tauto|left; by apply rtsc_rl|tauto]. }
    destruct Hone as [Hone|[[-> ->]|[-> ->]]].
    + destruct IH as [IH|[[IH1 IH2]|[IH1 IH2]]]; [left; by etrans|right; left; split; [by etrans|done]|
        right; right; split; [by etrans|done]].
    + destruct IH as [IH|[[IH1 IH2]|[IH1 IH2]]]; [right; left; split; [constructor|done]|right; left; split; [constructor|done]|by left].
    + destruct IH as [IH|[[IH1 IH2]|[IH1 IH2]]]; [right; right; split; [constructor|done]|by left|right; right; split; [constructor|done]].
  - intros [H|[[H1 H2]|[H1 H2]]]; [by apply Hmono| |].
    + etrans; [by apply Hmono|]. etrans; [apply rtsc_lr; right; done|by apply Hmono].
    + etrans; [by apply Hmono|]. etrans; [apply rtsc_rl; right; done|by apply Hmono].
Qed.

(** The sets are the connected classes of the pairs joined so far. *)
Definition joined (n : nat) (s : DisjointSet) (R : relation nat) : Prop :=
  ds_ok n s ∧ ∀ x y, (x < n)%nat → (y < n)%nat → same s x y ↔ rtsc R x y.

Lemma joined_ext n s (R R' : relation nat) : (∀ x y, R x y ↔ R' x y) → joined n s R → joined n s R'.
Proof.
  intros Heq [Hs H]. split; [done|]. intros x y Hx Hy. rewrite (H x y Hx Hy).
  split; apply rtsc_mono; intros; by apply Heq.
Qed.

Lemma joined_unite n s R a b :
  joined n s R → (a < n)%nat → (b < n)%nat →
  ∃ s', ds_unite s a b = Some s' ∧ joined n s' (λ u v, R u v ∨ (u = a ∧ v = b)).
Proof.
  intros [Hs H] Ha Hb. destruct (ds_unite_spec n s a b Hs Ha Hb) as (s' & Hu & Hs' & Hsame).
  exists s'. split; [done|]. split; [done|]. intros x y Hx Hy. rewrite rtsc_add, Hsame, !H by done. done.
Qed.

Lemma new_joined n : joined n (new_disjoint_set n) (λ _ _, False).
Proof.
  assert (Hrep : ∀ x r, rep (ds_parent (new_disjoint_set n)) x r ↔ r = x ∧ (x < n)%nat).
  { intros x r. cbn. split.
    - intros H. induction H as [x Hx|x y r Hy Hne _ _]; apply lookup_seq in Hx || apply lookup_seq in Hy; [split; [done|lia]|lia].
    - intros [-> Hx]. constructor. apply lookup_seq. lia. }
  split.
  - split; [cbn; by rewrite length_seq|]. exists (λ _, 0%nat). cbn. split; intros x y Hxy%lookup_seq; [rewrite length_seq; lia|lia].
  - intros x y Hx Hy. unfold same. setoid_rewrite Hrep. split.
    + intros (r & [-> _] & [-> _]). constructor.
    + intros H. unfold rtsc in H. induction H as [x|x z y [[]|[]] _ _]. by exists x.
Qed.

(** The variables of an edge and the first of them. *)
Definition star (edges : list ConstraintGraphEdge) (x y : nat) : Prop :=
  ∃ e first, e ∈ edges ∧ head (ge_var_ids e) = Some first ∧ x = Z.to_nat first ∧ ∃ z, z ∈ ge_var_ids e ∧ y = Z.to_nat z.

Definition edge_in_range (n : nat) (e : ConstraintGraphEdge) : Prop :=
  Forall (λ z, 0 <= z < Z.of_nat n) (ge_var_ids e).

Lemma unite_variables n root vs s R :
  0 <= root < Z.of_nat n → Forall (λ z, 0 <= z < Z.of_nat n) vs → joined n s R →
  ∃ s', foldl (λ s var_id,
      s ← s;
      if (root <? Z.of_nat n) && (var_id <? Z.of_nat n) then ds_unite s (Z.to_nat root) (Z.to_nat var_id) else Some s)
    (Some s) vs = Some s' ∧
  joined n s' (λ x y, R x y ∨ (x = Z.to_nat root ∧ ∃ z, z ∈ vs ∧ y = Z.to_nat z)).
Proof.
  intros Hroot Hvs. revert s R. induction Hvs as [|z vs Hz _ IH]; intros s R Hs.
  - exists s. split; [done|]. revert Hs. apply joined_ext. intros x y. split; [tauto|].
    intros [?|(_ & z & Hz & _)]; [done|]. by apply not_elem_of_nil in Hz.
  - cbn [foldl mbind option_bind]. assert (Hif : (root <? Z.of_nat n) && (z <? Z.of_nat n) = true) by lia. rewrite Hif.
    destruct (joined_unite n s R (Z.to_nat root) (Z.to_nat z) Hs) as (s1 & -> & Hs1); [lia|lia|].
    destruct (IH s1 _ Hs1) as (s' & Hfold & Hs'). exists s'. split; [exact Hfold|]. revert Hs'. apply joined_ext.
    intros x y. setoid_rewrite elem_of_cons. split.
    + intros [[?|[-> ->]]|(-> & w & ? & ->)]; eauto 10.
    + intros [?|(-> & w & [->|?] & ->)]; eauto 10.
Qed.

Lemma unite_edges_joined n s R edges :
  Forall (edge_in_range n) edges → joined n s R →
  ∃ s', unite_edges n s edges = Some s' ∧ joined n s' (λ x y, R x y ∨ star edges x y).
Proof.
  intros Hedges. unfold unite_edges. revert s R. induction Hedges as [|e edges He _ IH]; intros s R Hs.
  - exists s. split; [done|]. revert Hs. apply joined_ext. intros x y. split; [tauto|].
    intros [?|(e & f & He & _)]; [done|]. by apply not_elem_of_nil in He.
  - cbn [foldl]. assert (Hone : ∃ s1, unite_edge n s e = Some s1 ∧ joined n s1 (λ x y, R x y ∨ star [e] x y)).
    { unfold unite_edge, edge_in_range in *. destruct (ge_var_ids e) as [|first vs] eqn:E.
      - exists s. split; [done|]. revert Hs. apply joined_ext. intros x y. split; [tauto|]. intros [?|(e' & f & He' & Hf & _)]; [done|].
        apply list_elem_of_singleton in He' as ->. by rewrite E in Hf.
      - destruct (unite_variables n first (first :: vs) s R) as (s1 & Hfold & Hs1); try done.
        { by apply Forall_cons in He as [? _]. }
        exists s1. split; [exact Hfold|]. revert Hs1. apply joined_ext. intros x y. unfold star. split.
        + intros [?|(-> & z & Hz & ->)]; [by left|]. right. exists e, first. rewrite E. split; [by left|]. split; [done|]. eauto.
        + intros [?|(e' & f & He' & Hf & -> & z & Hz & ->)]; [by left|]. right.
          apply list_elem_of_singleton in He' as ->. rewrite E in Hf, Hz. cbn in Hf. injection Hf as <-. eauto. }
    destruct Hone as (s1 & Hone & Hs1). cbn [mbind option_bind]. rewrite Hone.
    destruct (IH s1 _ Hs1) as (s' & Hfold & Hs'). exists s'. split; [exact Hfold|]. revert Hs'. apply joined_ext.
    intros x y. unfold star. setoid_rewrite elem_of_cons. setoid_rewrite elem_of_nil. split.
    + intros [[?|(e' & f & [->|[]] & ?)]|(e' & f & ? & ?)]; eauto 10.
    + intros [?|(e' & f & [->|?] & ?)]; eauto 10.
Qed.

(** ** Placing variables and constraints *)

(** What holds after the nodes [done] were placed: components and roots
    correspond, and a component has the variables of its root. *)
Record placed (n : nat) (s0 : DisjointSet) (done : list Z) (st : PartitionState) : Prop := {
  pl_ok : ds_ok n (ps_set st);
  pl_rep z q : rep (ds_parent (ps_set st)) z q ↔ rep (ds_parent s0) z q;
  pl_size : size (ps_roots st) = length (ps_components st);
  pl_range r k : ps_roots st !! r = Some k → (k < length (ps_components st))%nat;
  pl_inj r r' k : ps_roots st !! r = Some k → ps_roots st !! r' = Some k → r = r';
  pl_surj k : (k < length (ps_components st))%nat → ∃ r, ps_roots st !! r = Some k;
  pl_vars r k c z : ps_roots st !! r = Some k → ps_components st !! k = Some c →
    z ∈ cp_variable_ids c ↔ z ∈ done ∧ rep (ds_parent s0) (Z.to_nat z) r;
  pl_done z : z ∈ done → ∃ r, rep (ds_parent s0) (Z.to_nat z) r ∧ is_Some (ps_roots st !! r);
  pl_perm : concat (cp_variable_ids <$> ps_components st) ≡ₚ done;
  pl_empty c : c ∈ ps_components st → cp_constraint_ids c = []
}.

Lemma concat_push z i c l :
  l !! i = Some c → concat (cp_variable_ids <$> alter (push_variable z) i l) ≡ₚ z :: concat (cp_variable_ids <$> l).
Proof.
  intros Hi. rewrite <- (take_drop_middle l i c Hi) at 2. rewrite <- (take_drop_middle l i c Hi) at 1.
  assert (Hl : length (take i l) = i) by (apply lookup_lt_Some in Hi; rewrite length_take; lia).
  rewrite <- Hl at 1. rewrite <- (Nat.add_0_r (length (take i l))), alter_app_r. cbn.
  rewrite !fmap_app, !concat_app, !fmap_cons. cbn. rewrite <- !app_assoc. solve_Permutation.
Qed.

(** A root that was not seen opens an empty component. *)
Lemma placed_open n s0 done st r0 :
  placed n s0 done st → rep (ds_parent s0) r0 r0 → ps_roots st !! r0 = None →
  placed n s0 done (mkPartitionState (ps_set st) (<[r0 := size (ps_roots st)]> (ps_roots st))
    (ps_components st ++ [mkCompiledComponent (wrap_u32 (Z.of_nat (size (ps_roots st)))) [] [] "" KGenericLinearBoolean])).
Proof.
  intros [Hok Hrep Hsize Hrange Hinj Hsurj Hvars Hdone Hperm Hempty] Hr0 Hnone. split; cbn; try done.
  - rewrite map_size_insert_None, length_app by done. cbn. lia.
  - intros r k. rewrite lookup_insert_Some, length_app. cbn. intros [[<- <-]|[_ Hk]]; [lia|]. specialize (Hrange _ _ Hk). lia.
  - intros r r' k. rewrite !lookup_insert_Some. intros [[<- <-]|[_ H1]] [[<- E]|[_ H2]]; try done.
    + specialize (Hrange _ _ H2). lia.
    + specialize (Hrange _ _ H1). lia.
    + by apply (Hinj _ _ k).
  - intros k. rewrite length_app. cbn. intros Hk. destruct (decide (k = size (ps_roots st))) as [->|].
    + exists r0. by rewrite lookup_insert_eq.
    + destruct (Hsurj k) as [r Hr]; [lia|]. exists r. rewrite lookup_insert_ne; [done|]. intros ->. congruence.
  - intros r k c z. rewrite lookup_insert_Some. intros [[<- <-]|[_ Hk]] Hc.
    + rewrite Hsize, list_lookup_middle in Hc by done. injection Hc as <-. cbn. rewrite elem_of_nil.
      split; [done|]. intros [Hz Hzr]. destruct (Hdone z Hz) as (r & Hr & [k Hk]).
      rewrite (rep_functional _ _ _ _ Hr Hzr) in Hk. congruence.
    + rewrite lookup_app_l in Hc by by eapply Hrange. by apply (Hvars r k c z).
  - intros z Hz. destruct (Hdone z Hz) as (r & Hr & [k Hk]). exists r. split; [done|]. rewrite lookup_insert_is_Some'. eauto.
  - rewrite fmap_app, concat_app. cbn. by rewrite app_nil_r.
  - intros c. rewrite elem_of_app, list_elem_of_singleton. intros [?| ->]; [by apply Hempty|done].
Qed.

(** A variable joins the component of its root. *)
Lemma placed_push n s0 done st s' z r i :
  placed n s0 done st → ds_ok n s' → (∀ x q, rep (ds_parent s') x q ↔ rep (ds_parent s0) x q) →
  rep (ds_parent s0) (Z.to_nat z) r → ps_roots st !! r = Some i →
  placed n s0 (done ++ [z]) (mkPartitionState s' (ps_roots st) (alter (push_variable z) i (ps_components st))).
Proof.
  intros [Hok Hrep Hsize Hrange Hinj Hsurj Hvars Hdone Hperm Hempty] Hs' Hrep' Hr Hi.
  destruct (lookup_lt_is_Some_2 _ _ (Hrange r i Hi)) as [ci Hci]. split; cbn; rewrite ?length_alter; try done.
  - intros r' k c w Hk Hc. rewrite elem_of_app, list_elem_of_singleton. destruct (decide (k = i)) as [->|Hne].
    + assert (r' = r) as -> by by apply (Hinj _ _ i). rewrite list_lookup_alter_eq, Hci in Hc. injection Hc as <-. cbn.
      rewrite elem_of_app, list_elem_of_singleton, (Hvars r i ci w Hi Hci). split; [|naive_solver].
      intros [[? ?]| ->]; eauto.
    + rewrite list_lookup_alter_ne in Hc by done. rewrite (Hvars r' k c w Hk Hc). split; [tauto|].
      intros [[?| ->] Hw]; [done|]. exfalso. apply Hne. rewrite (rep_functional _ _ _ _ Hw Hr) in Hk. congruence.
  - intros w. rewrite elem_of_app, list_elem_of_singleton. intros [Hw| ->]; [by apply Hdone|]. eauto.
  - rewrite (concat_push z i ci) by done. rewrite Hperm. solve_Permutation.
  - intros c [j Hj]%list_elem_of_lookup. destruct (decide (j = i)) as [->|].
    + rewrite list_lookup_alter_eq, Hci in Hj. injection Hj as <-. cbn. apply Hempty. by apply (list_elem_of_lookup_2 _ i).
    + rewrite list_lookup_alter_ne in Hj by done. apply Hempty. by apply (list_elem_of_lookup_2 _ j).
Qed.

Lemma placed_node n s0 done st z :
  placed n s0 done st → 0 <= z < Z.of_nat n → ∃ st', place_node st z = Some st' ∧ placed n s0 (done ++ [z]) st'.
Proof.
  intros Hst Hz. unfold place_node.
  destruct (ds_find_spec n (ps_set st) (Z.to_nat z) (pl_ok _ _ _ _ Hst)) as (s' & r & -> & Hr & Hs' & Hrep); [lia|].
  cbn [mbind option_bind]. apply (pl_rep _ _ _ _ Hst) in Hr.
  assert (Hrep' : ∀ x q, rep (ds_parent s') x q ↔ rep (ds_parent s0) x q) by (intros; by rewrite Hrep, (pl_rep _ _ _ _ Hst)).
  destruct (ps_roots st !! r) as [i|] eqn:E; (eexists; split; [done|]).
  - by apply (placed_push n s0 done st s' z r i).
  - assert (Hroot : rep (ds_parent s0) r r) by (constructor; by apply (rep_is_root _ (Z.to_nat z))).
    pose proof (placed_open n s0 done st r Hst Hroot E) as Hopen.
    apply (placed_push n s0 done _ s' z r (size (ps_roots st)) Hopen Hs' Hrep' Hr). apply lookup_insert_eq.
Qed.

Lemma place_nodes n s0 done st nodes :
  placed n s0 done st → Forall (λ v, 0 <= gn_var_id v < Z.of_nat n) nodes →
  ∃ st', foldl (λ st node, st ← st; place_node st (gn_var_id node)) (Some st) nodes = Some st' ∧
    placed n s0 (done ++ (gn_var_id <$> nodes)) st'.
Proof.
  intros Hst Hnodes. revert done st Hst. induction Hnodes as [|v nodes Hv _ IH]; intros done st Hst.
  - exists st. by rewrite app_nil_r.
  - destruct (placed_node n s0 done st _ Hst Hv) as (st1 & H1 & Hst1). destruct (IH _ _ Hst1) as (st' & Hfold & Hst').
    exists st'. cbn [foldl mbind option_bind]. rewrite H1. split; [done|]. by rewrite fmap_cons, cons_middle, app_assoc.
Qed.

(** An edge whose first variable has a root, by its constraint. *)
Definition rooted (s0 : DisjointSet) (r : nat) (id : Z) (e : ConstraintGraphEdge) : Prop :=
  ∃ first, head (ge_var_ids e) = Some first ∧ ge_constraint_id e = id ∧ rep (ds_parent s0) (Z.to_nat first) r.

Lemma exists_snoc {A} (P : A → Prop) l x : (∃ y, y ∈ l ++ [x] ∧ P y) ↔ (∃ y, y ∈ l ∧ P y) ∨ P x.
Proof.
  split.
  - intros (y & [Hy|Hy%list_elem_of_singleton]%elem_of_app & HP); [left; by exists y|subst y; by right].
  - intros [(y & Hy & HP)|HP]; [exists y|exists x]; (split; [apply elem_of_app|done]); [by left|right; by apply list_elem_of_singleton].
Qed.

(** What holds after the edges [done] were placed: variables and roots stay,
    and a component has the constraints whose first variable has its root. *)
Record wired (n : nat) (s0 : DisjointSet) (st0 : PartitionState) (done : list ConstraintGraphEdge) (st : PartitionState) : Prop := {
  wi_ok : ds_ok n (ps_set st);
  wi_rep z q : rep (ds_parent (ps_set st)) z q ↔ rep (ds_parent s0) z q;
  wi_roots : ps_roots st = ps_roots st0;
  wi_vars : cp_variable_ids <$> ps_components st = cp_variable_ids <$> ps_components st0;
  wi_cons r k c id : ps_roots st !! r = Some k → ps_components st !! k = Some c →
    id ∈ cp_constraint_ids c ↔ ∃ e, e ∈ done ∧ rooted s0 r id e
}.

Lemma placed_wired n s0 nodes st : placed n s0 nodes st → wired n s0 st [] st.
Proof.
  intros Hst. split; try done; [apply Hst|apply Hst|]. intros r k c id _ Hc.
  rewrite (pl_empty _ _ _ _ Hst c) by by apply (list_elem_of_lookup_2 _ k). rewrite elem_of_nil. split; [done|].
  intros (e & He & _). by apply not_elem_of_nil in He.
Qed.

Lemma wired_edge n s0 st0 done st e :
  (∀ r r' k, ps_roots st0 !! r = Some k → ps_roots st0 !! r' = Some k → r = r') →
  edge_in_range n e → wired n s0 st0 done st →
  ∃ st', place_edge st e = Some st' ∧ wired n s0 st0 (done ++ [e]) st'.
Proof.
  intros Hinj He Hst. unfold place_edge, edge_in_range in *. destruct (ge_var_ids e) as [|first vs] eqn:E.
  - exists st. split; [done|]. destruct Hst as [Hok Hrep Hroots Hvars Hcons]. split; try done.
    intros r k c id Hk Hc. rewrite (Hcons r k c id Hk Hc), exists_snoc. split; [by left|]. intros [?|(f & Hf & _)]; [done|].
    by rewrite E in Hf.
  - apply Forall_cons in He as [Hfirst _].
    destruct (ds_find_spec n (ps_set st) (Z.to_nat first) (wi_ok _ _ _ _ _ Hst)) as (s' & r0 & -> & Hr0 & Hs' & Hrep'); [lia|].
    cbn [mbind option_bind]. destruct Hst as [Hok Hrep Hroots Hvars Hcons]. apply Hrep in Hr0.
    assert (Hrep0 : ∀ z q, rep (ds_parent s') z q ↔ rep (ds_parent s0) z q) by (intros; by rewrite Hrep', Hrep).
    eexists. split; [done|]. destruct (ps_roots st !! r0) as [i|] eqn:Ei; split; cbn; try done.
    + rewrite <- Hvars. apply list_eq. intros j. rewrite !list_lookup_fmap. destruct (decide (j = i)) as [->|].
      * rewrite list_lookup_alter_eq. by destruct (ps_components st !! i).
      * by rewrite list_lookup_alter_ne.
    + intros r k c id Hk Hc. destruct (decide (k = i)) as [->|].
      * assert (r = r0) as -> by (rewrite Hroots in *; by apply (Hinj _ _ i)).
        rewrite list_lookup_alter_eq in Hc. apply fmap_Some in Hc as (c0 & Hc0 & ->). cbn.
        rewrite elem_of_app, list_elem_of_singleton, (Hcons r0 i c0 id Hk Hc0), exists_snoc.
        assert (Hiff : id = ge_constraint_id e ↔ rooted s0 r0 id e); [|tauto]. unfold rooted. rewrite E. split.
        -- intros ->. by exists first.
        -- by intros (f & _ & <- & _).
      * rewrite list_lookup_alter_ne in Hc by done. rewrite (Hcons r k c id Hk Hc), exists_snoc.
        split; [by left|]. intros [?|(f & Hf & Hid & Hr)]; [done|]. exfalso. rewrite E in Hf. injection Hf as <-.
        rewrite (rep_functional _ _ _ _ Hr Hr0) in Hk. congruence.
    + intros r k c id Hk Hc. rewrite (Hcons r k c id Hk Hc), exists_snoc.
      split; [by left|]. intros [?|(f & Hf & Hid & Hr)]; [done|]. exfalso. rewrite E in Hf. injection Hf as <-.
      rewrite (rep_functional _ _ _ _ Hr Hr0) in Hk. congruence.
Qed.

Lemma place_edges n s0 st0 done st edges :
  (∀ r r' k, ps_roots st0 !! r = Some k → ps_roots st0 !! r' = Some k → r = r') →
  Forall (edge_in_range n) edges → wired n s0 st0 done st →
  ∃ st', foldl (λ st edge, st ← st; place_edge st edge) (Some st) edges = Some st' ∧ wired n s0 st0 (done ++ edges) st'.
Proof.
  intros Hinj Hedges. revert done st. induction Hedges as [|e edges He _ IH]; intros done st Hst.
  - exists st. by rewrite app_nil_r.
  - destruct (wired_edge n s0 st0 done st e Hinj He Hst) as (st1 & H1 & Hst1). destruct (IH _ _ Hst1) as (st' & Hfold & Hst').
    exists st'. cbn [foldl mbind option_bind]. rewrite H1. split; [done|]. by rewrite cons_middle, app_assoc.
Qed.

(** ** Finishing the components *)

(** The same variables and the same constraints, in some order. *)
Definition tidy (raw final : CompiledComponent) : Prop :=
  cp_variable_ids final ≡ₚ cp_variable_ids raw ∧ cp_constraint_ids final ≡ₚ cp_constraint_ids raw.

(** A component carries the kind its variables and constraints give it. *)
Definition classified (compiled : CompiledConstraintSet) (c : CompiledComponent) : Prop :=
  classify_component c compiled = Some (cp_kind c).

Lemma finish_component_tidy compiled c :
  (∀ k, k ∈ cp_constraint_ids c → is_Some (cc_constraints compiled !! Z.to_nat k)) →
  ∃ c', finish_component compiled c = Some c' ∧ tidy c c' ∧ classified compiled c'.
Proof.
  intros H. unfold finish_component, classify_component. cbn [cp_constraint_ids cp_variable_ids].
  assert (Hm : is_Some (mapM (λ k, cc_constraints compiled !! Z.to_nat k) (merge_sort Z.le (cp_constraint_ids c)))).
  { apply mapM_is_Some, Forall_forall. intros k Hk. apply H. by rewrite (merge_sort_Permutation Z.le) in Hk. }
  destruct Hm as [cs Hcs]. rewrite Hcs. cbn. eexists. split; [done|]. split; [split; cbn; apply merge_sort_Permutation|].
  unfold classified, classify_component. cbn [cp_constraint_ids]. by rewrite Hcs.
Qed.

Lemma finish_components compiled raws :
  (∀ c k, c ∈ raws → k ∈ cp_constraint_ids c → is_Some (cc_constraints compiled !! Z.to_nat k)) →
  ∃ finals, mapM (finish_component compiled) raws = Some finals ∧ Forall2 tidy raws finals ∧ Forall (classified compiled) finals.
Proof.
  induction raws as [|c raws IH]; intros H; [exists []; split_and!; [done|constructor..]|].
  destruct (finish_component_tidy compiled c) as (c' & Hc & Ht & Hk); [intros k Hk; apply (H c k); [by left|done]|].
  destruct IH as (finals & Hm & Hf & Hks); [intros d j Hd Hj; apply (H d j); [by right|done]|].
  exists (c' :: finals). split; [|split; by constructor]. apply mapM_Some in Hm. apply mapM_Some. by constructor.
Qed.

Lemma tidy_concat raws finals : Forall2 tidy raws finals →
  concat (cp_variable_ids <$> finals) ≡ₚ concat (cp_variable_ids <$> raws).
Proof. induction 1 as [|r f raws finals [Hv _] _ IH]; [done|]. cbn. by rewrite Hv, IH. Qed.

Lemma number_vars l : cp_variable_ids <$> imap number_component l = cp_variable_ids <$> l.
Proof. rewrite fmap_imap, <- (imap_const _ l). apply imap_ext. by intros. Qed.

Lemma number_classified compiled l : Forall (classified compiled) l → ∀ c, c ∈ imap number_component (merge_sort component_le l) → classified compiled c.
Proof.
  intros H c [i Hi]%list_elem_of_lookup. rewrite list_lookup_imap in Hi. apply fmap_Some in Hi as (d & Hd & ->).
  apply list_elem_of_lookup_2 in Hd. rewrite (merge_sort_Permutation component_le) in Hd.
  rewrite Forall_forall in H. exact (H d Hd).
Qed.

(** The components that come out are those that were placed. *)
Lemma final_components raws finals :
  Forall2 tidy raws finals →
  let out := imap number_component (merge_sort component_le finals) in
  concat (cp_variable_ids <$> out) ≡ₚ concat (cp_variable_ids <$> raws) ∧
  (∀ c, c ∈ out → ∃ raw, raw ∈ raws ∧ tidy raw c) ∧ (∀ raw, raw ∈ raws → ∃ c, c ∈ out ∧ tidy raw c).
Proof.
  intros HF out. assert (Hperm : merge_sort component_le finals ≡ₚ finals) by apply merge_sort_Permutation.
  split_and!.
  - unfold out. rewrite number_vars. rewrite <- (tidy_concat raws finals HF). by rewrite Hperm.
  - intros c [i Hi]%list_elem_of_lookup. unfold out in Hi. rewrite list_lookup_imap in Hi.
    apply fmap_Some in Hi as (d & Hd & ->). apply list_elem_of_lookup_2 in Hd. rewrite Hperm in Hd.
    apply list_elem_of_lookup in Hd as [j Hj]. destruct (Forall2_lookup_r _ _ _ _ _ HF Hj) as (raw & Hraw & Ht).
    exists raw. split; [by apply (list_elem_of_lookup_2 _ j)|exact Ht].
  - intros raw [j Hj]%list_elem_of_lookup. destruct (Forall2_lookup_l _ _ _ _ _ HF Hj) as (d & Hd & Ht).
    apply list_elem_of_lookup_2 in Hd. rewrite <- Hperm in Hd. apply list_elem_of_lookup in Hd as [i Hi].
    exists (number_component i d). split; [|exact Ht]. apply (list_elem_of_lookup_2 _ i). unfold out.
    by rewrite list_lookup_imap, Hi.
Qed.

(** ** The partition is the connected components *)

(** Two variables share a constraint. *)
Definition share_constraint (compiled : CompiledConstraintSet) (x y : Z) : Prop :=
  ∃ c, c ∈ cc_constraints compiled ∧ x ∈ lc_var_ids c ∧ y ∈ lc_var_ids c.

(** Variables numbered by position, constraints over them, neither too many. *)
Record compiled_wf (compiled : CompiledConstraintSet) : Prop := {
  cf_variables : bv_var_id <$> cc_variables compiled = seqZ 0 (Z.of_nat (length (cc_variables compiled)));
  cf_range c z : c ∈ cc_constraints compiled → z ∈ lc_var_ids c → 0 <= z < Z.of_nat (length (cc_variables compiled));
  cf_count : Z.of_nat (length (cc_constraints compiled)) <= u32_mod
}.

Lemma rtsc_map {A B} (f : A → B) (R : relation A) (R' : relation B) x y :
  (∀ u v, R u v → rtsc R' (f u) (f v)) → rtsc R x y → rtsc R' (f x) (f y).
Proof.
  intros H Hxy. unfold rtsc in Hxy. induction Hxy as [x|x z y [Hz|Hz] _ IH]; [constructor|..].
  - etrans; [by apply H|done].
  - etrans; [symmetry; by apply H|done].
Qed.

Section Graph.
Context (compiled : CompiledConstraintSet).
Hypothesis Hwf : compiled_wf compiled.
Let n := length (cc_variables compiled).
Let edges := cg_edges (build_graph compiled).

Lemma elem_of_edges e : e ∈ edges ↔
  ∃ i c, cc_constraints compiled !! i = Some c ∧ e = mkConstraintGraphEdge (Z.of_nat i) (merge_sort Z.le (lc_var_ids c)).
Proof.
  unfold edges, build_graph. cbn [cg_edges]. rewrite list_elem_of_lookup. setoid_rewrite list_lookup_imap.
  pose proof (cf_count _ Hwf) as Hcount. split.
  - intros [i Hi]. apply fmap_Some in Hi as (c & Hc & ->). exists i, c. split; [done|].
    pose proof (lookup_lt_Some _ _ _ Hc). unfold wrap_u32. by rewrite Z.mod_small by lia.
  - intros (i & c & Hc & ->). exists i. rewrite Hc. cbn. pose proof (lookup_lt_Some _ _ _ Hc). unfold wrap_u32.
    by rewrite Z.mod_small by lia.
Qed.

Lemma elem_of_edge_vars z c : z ∈ merge_sort Z.le (lc_var_ids c) ↔ z ∈ lc_var_ids c.
Proof. by rewrite (merge_sort_Permutation Z.le). Qed.

Lemma edges_in_range : Forall (edge_in_range n) edges.
Proof.
  apply Forall_forall. intros e (i & c & Hc & ->)%elem_of_edges. apply Forall_forall. cbn. intros z Hz%elem_of_edge_vars.
  apply (cf_range _ Hwf c z); [by apply (list_elem_of_lookup_2 _ i)|done].
Qed.

(** Joining each variable of an edge to its first connects what sharing a constraint connects. *)
Lemma star_share x y : 0 <= x → 0 <= y → rtsc (star edges) (Z.to_nat x) (Z.to_nat y) ↔ rtsc (share_constraint compiled) x y.
Proof.
  intros Hx Hy. split.
  - intros H. rewrite <- (Z2Nat.id x Hx), <- (Z2Nat.id y Hy). revert H. apply rtsc_map.
    intros u v (e & first & (i & c & Hc & ->)%elem_of_edges & Hfirst & -> & z & Hz & ->). cbn in Hfirst, Hz.
    apply head_Some_elem_of in Hfirst. apply elem_of_edge_vars in Hfirst, Hz. apply list_elem_of_lookup_2 in Hc.
    rewrite !Z2Nat.id by (eapply (cf_range _ Hwf); eassumption). apply rtsc_lr. by exists c.
  - apply rtsc_map. intros u v (c & [i Hc]%list_elem_of_lookup & Hu & Hv).
    set (e := mkConstraintGraphEdge (Z.of_nat i) (merge_sort Z.le (lc_var_ids c))).
    assert (He : e ∈ edges) by (apply elem_of_edges; by exists i, c).
    assert (Hfirst : ∃ first, head (ge_var_ids e) = Some first).
    { cbn. apply elem_of_edge_vars in Hu. destruct (merge_sort Z.le (lc_var_ids c)); [by apply not_elem_of_nil in Hu|by eexists]. }
    destruct Hfirst as [first Hfirst]. assert (Hstar : ∀ z, z ∈ lc_var_ids c → star edges (Z.to_nat first) (Z.to_nat z)).
    { intros z Hz. exists e, first. split_and!; try done. exists z. split; [by apply elem_of_edge_vars|done]. }
    etrans; [apply rtsc_rl|apply rtsc_lr]; by apply Hstar.
Qed.

(** The component of a constraint is the one its variables are in. *)
Lemma rooted_share s r z e c i :
  joined n s (star edges) → 0 <= z < Z.of_nat n → rep (ds_parent s) (Z.to_nat z) r →
  cc_constraints compiled !! i = Some c → e = mkConstraintGraphEdge (Z.of_nat i) (merge_sort Z.le (lc_var_ids c)) →
  z ∈ lc_var_ids c → rooted s r (Z.of_nat i) e.
Proof.
  intros [_ Hs] Hz Hr Hc -> Hin. unfold rooted. cbn.
  destruct (merge_sort Z.le (lc_var_ids c)) as [|first vs] eqn:E; [apply elem_of_edge_vars in Hin; rewrite E in Hin; by apply not_elem_of_nil in Hin|].
  exists first. split; [done|]. split; [done|].
  assert (Hfirst : first ∈ lc_var_ids c) by (apply elem_of_edge_vars; rewrite E; by left).
  pose proof (cf_range _ Hwf c first (list_elem_of_lookup_2 _ _ _ Hc) Hfirst) as Hf. fold n in Hf.
  assert (Hsame : same s (Z.to_nat first) (Z.to_nat z)).
  { apply Hs; [lia..|]. apply star_share; [lia..|]. apply rtsc_lr. exists c. split_and!; try done. by apply (list_elem_of_lookup_2 _ i). }
  destruct Hsame as (q & Hq1 & Hq2). by rewrite (rep_functional _ _ _ _ Hr Hq2).
Qed.

(** A component as placed: the class of its root, with its constraints. *)
Definition class_of (s : DisjointSet) (r : nat) (raw : CompiledComponent) : Prop :=
  (∀ z, z ∈ cp_variable_ids raw ↔ 0 <= z < Z.of_nat n ∧ rep (ds_parent s) (Z.to_nat z) r) ∧
  (∀ id, id ∈ cp_constraint_ids raw ↔ ∃ e, e ∈ edges ∧ rooted s r id e).

Lemma placed_classes s st st' :
  placed n s (seqZ 0 (Z.of_nat n)) st → wired n s st edges st' →
  (∀ raw, raw ∈ ps_components st' → ∃ r, class_of s r raw) ∧
  (∀ z, 0 <= z < Z.of_nat n → ∃ raw, raw ∈ ps_components st' ∧ z ∈ cp_variable_ids raw).
Proof.
  intros Hst Hst'. pose proof (wi_vars _ _ _ _ _ Hst') as Hvars.
  assert (Hlookup : ∀ k c, ps_components st' !! k = Some c → ∃ c0, ps_components st !! k = Some c0 ∧ cp_variable_ids c = cp_variable_ids c0).
  { intros k c Hc. assert (Hv : (cp_variable_ids <$> ps_components st') !! k = Some (cp_variable_ids c)) by by rewrite list_lookup_fmap, Hc.
    rewrite Hvars, list_lookup_fmap in Hv. apply fmap_Some in Hv as (c0 & ? & ?). by exists c0. }
  assert (Hseq : ∀ z, z ∈ seqZ 0 (Z.of_nat n) ↔ 0 <= z < Z.of_nat n) by (intros z; rewrite elem_of_seqZ; lia).
  split.
  - intros raw [k Hk]%list_elem_of_lookup. destruct (Hlookup k raw Hk) as (c0 & Hc0 & Hv).
    destruct (pl_surj _ _ _ _ Hst k (lookup_lt_Some _ _ _ Hc0)) as [r Hr]. exists r. split.
    + intros z. rewrite Hv, (pl_vars _ _ _ _ Hst r k c0 z Hr Hc0), Hseq. done.
    + intros id. apply (wi_cons _ _ _ _ _ Hst' r k raw id); [by rewrite (wi_roots _ _ _ _ _ Hst')|done].
  - intros z Hz. destruct (pl_done _ _ _ _ Hst z) as (r & Hr & [k Hk]); [by apply Hseq|].
    pose proof (pl_range _ _ _ _ Hst r k Hk) as Hlt. destruct (lookup_lt_is_Some_2 _ _ Hlt) as [c0 Hc0].
    assert (Hv : (cp_variable_ids <$> ps_components st') !! k = Some (cp_variable_ids c0)) by by rewrite Hvars, list_lookup_fmap, Hc0.
    rewrite list_lookup_fmap in Hv. apply fmap_Some in Hv as (raw & Hraw & Heq). exists raw.
    split; [by apply (list_elem_of_lookup_2 _ k)|]. rewrite <- Heq. apply (pl_vars _ _ _ _ Hst r k c0 z Hk Hc0). by rewrite Hseq.
Qed.

Lemma class_constraints s r raw k :
  joined n s (star edges) → class_of s r raw →
  k ∈ cp_constraint_ids raw ↔
  ∃ con z, 0 <= k ∧ cc_constraints compiled !! Z.to_nat k = Some con ∧ z ∈ lc_var_ids con ∧ z ∈ cp_variable_ids raw.
Proof.
  intros Hs [Hv Hc]. rewrite Hc. split.
  - intros (e & (i & con & Hcon & ->)%elem_of_edges & first & Hfirst & <- & Hr). cbn in *.
    apply head_Some_elem_of, elem_of_edge_vars in Hfirst. exists con, first. rewrite Nat2Z.id. split_and!; [lia|done|done|].
    apply Hv. split; [|done]. apply (cf_range _ Hwf con); [by apply (list_elem_of_lookup_2 _ i)|done].
  - intros (con & z & Hk & Hcon & Hz & Hraw). apply Hv in Hraw as [Hrange Hr].
    exists (mkConstraintGraphEdge (Z.of_nat (Z.to_nat k)) (merge_sort Z.le (lc_var_ids con))).
    split; [apply elem_of_edges; by exists (Z.to_nat k), con|]. rewrite <- (Z2Nat.id k) at 1 by done.
    by apply (rooted_share s r z _ con (Z.to_nat k)).
Qed.

Lemma partition_spec :
  ∃ result, partition (build_graph compiled) compiled = Some result ∧
    concat (cp_variable_ids <$> pr_components result) ≡ₚ seqZ 0 (Z.of_nat n) ∧
    (∀ x y, 0 <= x < Z.of_nat n → 0 <= y < Z.of_nat n →
      (∃ c, c ∈ pr_components result ∧ x ∈ cp_variable_ids c ∧ y ∈ cp_variable_ids c) ↔
      rtsc (share_constraint compiled) x y) ∧
    (∀ c k, c ∈ pr_components result →
      k ∈ cp_constraint_ids c ↔
      ∃ con z, 0 <= k ∧ cc_constraints compiled !! Z.to_nat k = Some con ∧ z ∈ lc_var_ids con ∧ z ∈ cp_variable_ids c) ∧
    (∀ c, c ∈ pr_components result → classified compiled c).
Proof.
  unfold partition. set (nodes := cg_nodes (build_graph compiled)).
  assert (Hn : length nodes = n) by (unfold nodes; cbn; by rewrite length_fmap). rewrite Hn. fold edges.
  assert (Hids : gn_var_id <$> nodes = seqZ 0 (Z.of_nat n)).
  { unfold nodes, n. cbn. rewrite <- (cf_variables _ Hwf), <- list_fmap_compose. done. }
  destruct (unite_edges_joined n _ _ edges edges_in_range (new_joined n)) as (s & -> & Hjoined).
  apply (joined_ext n s _ (star edges)) in Hjoined; [|tauto]. cbn [mbind option_bind].
  assert (Hplaced0 : placed n s [] (mkPartitionState s ∅ [])).
  { split; cbn; try done; try (by intros ?? H%lookup_empty_Some); try (intros; lia); [apply Hjoined|by intros z Hz%not_elem_of_nil|by intros c Hc%not_elem_of_nil]. }
  destruct (place_nodes n s [] _ nodes Hplaced0) as (st & -> & Hplaced).
  { apply Forall_forall. intros v Hv. assert (Hz : gn_var_id v ∈ gn_var_id <$> nodes) by by apply list_elem_of_fmap_2.
    rewrite Hids in Hz. apply elem_of_seqZ in Hz. lia. }
  rewrite Hids in Hplaced. cbn [app] in Hplaced. cbn [mbind option_bind].
  destruct (place_edges n s st [] st edges (pl_inj _ _ _ _ Hplaced) edges_in_range (placed_wired _ _ _ _ Hplaced)) as (st' & -> & Hwired).
  cbn [mbind option_bind app] in *.
  destruct (placed_classes s st st' Hplaced Hwired) as [Hclass Hcover].
  destruct (finish_components compiled (ps_components st')) as (finals & -> & HF & Hkinds).
  { intros c k Hc Hk. destruct (Hclass c Hc) as [r Hr]. apply (class_constraints s r c k Hjoined Hr) in Hk as (con & _ & _ & -> & _). by eexists. }
  cbn [mbind option_bind]. eexists. split; [done|]. cbn [pr_components].
  destruct (final_components _ finals HF) as (Hconcat & Hsound & Hcomplete). split_and!.
  - rewrite Hconcat, (wi_vars _ _ _ _ _ Hwired). apply (pl_perm _ _ _ _ Hplaced).
  - intros x y Hx Hy. rewrite <- star_share by lia. rewrite <- (proj2 Hjoined) by lia. split.
    + intros (c & Hc & Hxc & Hyc). destruct (Hsound c Hc) as (raw & Hraw & Hv & _). rewrite Hv in Hxc, Hyc.
      destruct (Hclass raw Hraw) as (r & Hr & _). apply Hr in Hxc as [_ ?], Hyc as [_ ?]. by exists r.
    + intros (r & Hxr & Hyr). destruct (Hcover x Hx) as (raw & Hraw & Hxraw). destruct (Hcomplete raw Hraw) as (c & Hc & Hv & _).
      destruct (Hclass raw Hraw) as (r' & Hr' & _). exists c. rewrite Hv. split_and!; [done|done|]. apply Hr' in Hxraw as [_ Hxr'].
      rewrite (rep_functional _ _ _ _ Hxr Hxr') in Hyr. by apply Hr'.
  - intros c k Hc. destruct (Hsound c Hc) as (raw & Hraw & Hv & Hcons). destruct (Hclass raw Hraw) as [r Hr].
    rewrite Hcons, (class_constraints s r raw k Hjoined Hr). by setoid_rewrite Hv.
  - by apply number_classified.
Qed.
End Graph.

(** ** Components of a compiled rulebook *)

Lemma rule_constraint_ids rule ids : lc_var_ids (rule_constraint rule ids) = ids.
Proof. unfold rule_constraint. by destruct (vr_type rule). Qed.

Lemma compile_wf book variables :
  cr_errors (compile book variables) = [] → Z.of_nat (length variables) <= u32_mod → Z.of_nat (length (rb_rules book)) <= u32_mod →
  compiled_wf (cr_compiled (compile book variables)) ∧
  length (cc_variables (cr_compiled (compile book variables))) = length variables ∧
  NoDup (bv_variable_key <$> cc_variables (cr_compiled (compile book variables))) ∧
  well_formed (cr_compiled (compile book variables)).
Proof.
  intros Hok Hlen Hrules. destruct (compile_ok_out book variables Hok) as [Hvars Hcons].
  pose proof (proj1 (compile_ok_iff book variables) Hok) as [[Hnd _] Hr]. rewrite Forall_forall in Hr.
  set (vs := merge_sort key_le variables) in *. assert (Hperm : vs ≡ₚ variables) by apply merge_sort_Permutation.
  assert (Hl : length vs = length variables) by by rewrite Hperm. rewrite Hvars, length_imap.
  assert (Hkeys : NoDup (bv_variable_key <$> vs)) by by rewrite Hperm.
  split_and!; [|done| |].
  - split; rewrite ?Hvars, ?Hcons, ?length_imap.
    + apply list_eq. intros i. rewrite list_lookup_fmap, list_lookup_imap. destruct (vs !! i) as [v|] eqn:E; cbn.
      * pose proof (lookup_lt_Some _ _ _ E). rewrite lookup_seqZ_lt by lia. f_equal. unfold wrap_u32. rewrite Z.mod_small by lia. lia.
      * apply lookup_ge_None_1 in E. by rewrite lookup_seqZ_ge by lia.
    + intros c z (r & -> & Hin)%list_elem_of_fmap Hz. rewrite rule_constraint_ids in Hz.
      apply list_elem_of_fmap in Hz as (key & -> & Hkey). destruct (Hr r Hin) as (_ & Hknown & _). rewrite Forall_forall in Hknown.
      specialize (Hknown key Hkey). rewrite elem_of_list_to_set, <- Hperm in Hknown.
      apply list_elem_of_fmap in Hknown as (v & -> & [i Hi]%list_elem_of_lookup). unfold id_of.
      rewrite (index_numbered vs i v Hkeys) by (done || lia). pose proof (lookup_lt_Some _ _ _ Hi). cbn. lia.
    + by rewrite length_fmap.
  - assert (Hk : bv_variable_key <$> imap renumber vs = bv_variable_key <$> vs); [|by rewrite Hk].
    rewrite fmap_imap, <- (imap_const _ vs). apply imap_ext. by intros.
  - unfold well_formed. rewrite Hcons. apply Forall_forall. intros c (r & -> & Hin)%list_elem_of_fmap.
    apply (rule_constraint_wf _ r _ (Hr r Hin)). by rewrite length_fmap.
Qed.

(** C12. The partition finds the connected components: for a rulebook that
    compiles the partitioner ends with a result, its components hold every
    variable exactly once, two variables are in one component exactly when a
    chain of shared constraints leads from one to the other, a component holds
    exactly the constraints over its variables, and its kind is the one its
    constraints give it. *)
Theorem partition_is_connected_components book variables :
  let compiled := cr_compiled (compile book variables) in
  cr_errors (compile book variables) = [] →
  Z.of_nat (length variables) <= u32_mod → Z.of_nat (length (rb_rules book)) <= u32_mod →
  ∃ result, partition (build_graph compiled) compiled = Some result ∧
    concat (cp_variable_ids <$> pr_components result) ≡ₚ seqZ 0 (Z.of_nat (length variables)) ∧
    (∀ x y, 0 <= x < Z.of_nat (length variables) → 0 <= y < Z.of_nat (length variables) →
      (∃ c, c ∈ pr_components result ∧ x ∈ cp_variable_ids c ∧ y ∈ cp_variable_ids c) ↔
      rtsc (share_constraint compiled) x y) ∧
    (∀ c k, c ∈ pr_components result →
      k ∈ cp_constraint_ids c ↔
      ∃ con z, 0 <= k ∧ cc_constraints compiled !! Z.to_nat k = Some con ∧ z ∈ lc_var_ids con ∧ z ∈ cp_variable_ids c) ∧
    (∀ c, c ∈ pr_components result → classify_component c compiled = Some (cp_kind c)).
Proof.
  intros compiled Hok Hlen Hrules. destruct (compile_wf book variables Hok Hlen Hrules) as (Hwf & Hl & _).
  rewrite <- Hl. apply (partition_spec compiled Hwf).
Qed.

(** ** Components of one constraint *)

Lemma all_ones l : forallb (λ coeff, coeff =? 1) l = true → l = replicate (length l) 1.
Proof. induction l as [|x l IH]; [done|]. cbn. intros [-> %Z.eqb_eq H]%andb_prop. by rewrite <- IH. Qed.

(** What the kind of a component says about its only constraint. *)
Lemma kind_of_single component compiled k con op :
  classify_component component compiled = Some (match op with Equal => KExactlyOne | _ => KAtMostOne end) → op ≠ GreaterEqual →
  cp_constraint_ids component = [k] → cc_constraints compiled !! Z.to_nat k = Some con →
  lc_op con = op ∧ lc_rhs con = 1 ∧ lc_coeffs con = replicate (length (lc_coeffs con)) 1.
Proof.
  intros Hkind Hop Hk Hcon. unfold classify_component in Hkind. rewrite Hk in Hkind. cbn [mapM mbind option_bind] in Hkind.
  rewrite Hcon in Hkind. cbn [mbind option_bind] in Hkind. injection Hkind as Hkind.
  assert (Hone : ∀ o, is_one_constraint o con component = true →
    lc_op con = o ∧ lc_rhs con = 1 ∧ lc_coeffs con = replicate (length (lc_coeffs con)) 1).
  { intros o H. unfold is_one_constraint in H. breflect. split_and!; [done|done|by apply all_ones]. }
  assert (Hlarge : ∀ o, is_large_hyperedge o con = true →
    lc_op con = o ∧ lc_rhs con = 1 ∧ lc_coeffs con = replicate (length (lc_coeffs con)) 1).
  { intros o H. unfold is_large_hyperedge in H. breflect. split_and!; [done|done|by apply all_ones]. }
  destruct (is_one_constraint Equal con component) eqn:E1; [destruct op; try done; by apply Hone|].
  destruct (is_one_constraint LessEqual con component) eqn:E2; [destruct op; try done; by apply Hone|].
  unfold classify_many in Hkind. cbn [scan_constraints] in Hkind.
  destruct (is_large_hyperedge Equal con) eqn:E3; [cbn in Hkind; destruct op; try done; by apply Hlarge|].
  destruct (is_large_hyperedge LessEqual con) eqn:E4; [cbn in Hkind; destruct op; try done; by apply Hlarge|].
  exfalso. destruct (negb (is_binary_complement_constraint con)), (length (cp_variable_ids component) <=? 32)%nat; cbn in Hkind; by destruct op.
Qed.

Lemma trues_values compiled component keys σ :
  component_keys component compiled = Some keys →
  trues σ keys = length (filter (λ id, world_value (cc_variables compiled) σ id = true) (cp_variable_ids component)).
Proof.
  intros H%mapM_Some. unfold trues. induction H as [|id key ids keys Hid _ IH]; [done|].
  rewrite !filter_cons. assert (Hv : world_value (cc_variables compiled) σ id = σ key).
  { unfold world_value. apply fmap_Some in Hid as (v & -> & ->). done. }
  rewrite Hv. destruct (decide (σ key = true)); cbn; by rewrite IH.
Qed.

Lemma component_keys_nodup compiled component keys :
  component_wf compiled component → component_keys component compiled = Some keys → NoDup keys.
Proof.
  intros [Hkeys Hids Hrange _] H%mapM_Some. apply NoDup_alt. intros i j key Hi Hj.
  destruct (Forall2_lookup_r _ _ _ _ _ H Hi) as (a & Ha & Hva), (Forall2_lookup_r _ _ _ _ _ H Hj) as (b & Hb & Hvb).
  rewrite Forall_forall in Hrange.
  pose proof (Hrange a (list_elem_of_lookup_2 _ _ _ Ha)). pose proof (Hrange b (list_elem_of_lookup_2 _ _ _ Hb)).
  assert (Hab : Z.to_nat a = Z.to_nat b) by (apply (NoDup_lookup _ _ _ key Hkeys); by rewrite list_lookup_fmap).
  assert (b = a) as -> by lia. by apply (NoDup_lookup _ _ _ a Hids).
Qed.

(** The worlds a component of one such constraint allows. *)
Lemma single_component_holds compiled component k con keys op :
  cp_constraint_ids component = [k] → cc_constraints compiled !! Z.to_nat k = Some con →
  lc_op con = op → lc_rhs con = 1 → lc_coeffs con = replicate (length (lc_var_ids con)) 1 →
  lc_var_ids con ≡ₚ cp_variable_ids component → Z.of_nat (length (lc_var_ids con)) < 2147483648 →
  component_keys component compiled = Some keys →
  ∀ σ, component_holds compiled component σ ↔ evaluate (Z.of_nat (trues σ keys)) op 1 = true.
Proof.
  intros Hk Hcon Hop Hrhs Hones Hperm Hlen Hkeys σ.
  assert (Hlhs : constraint_lhs (world_value (cc_variables compiled) σ) con = Z.of_nat (trues σ keys)).
  { unfold constraint_lhs. rewrite Hones, lhs_ones by lia. rewrite (trues_values compiled component keys σ Hkeys).
    rewrite Z.add_0_l. by rewrite Hperm. }
  unfold component_holds. rewrite Hk. split.
  - intros H. specialize (H k con). unfold constraint_holds in H. rewrite Hlhs, Hop, Hrhs in H. apply H; [by left|done].
  - intros H k' c Hk' Hc. apply list_elem_of_singleton in Hk' as ->. assert (c = con) as -> by congruence.
    unfold constraint_holds. by rewrite Hlhs, Hop, Hrhs.
Qed.

Lemma concat_disjoint {A B} (f : A → list B) l a b x :
  NoDup (concat (f <$> l)) → a ∈ l → b ∈ l → x ∈ f a → x ∈ f b → a = b.
Proof.
  induction l as [|c l IH]; [by intros _ H%not_elem_of_nil|]. cbn. intros (_ & Hdisj & Hnd)%NoDup_app Ha Hb Hxa Hxb.
  assert (Hin : ∀ d, d ∈ l → x ∈ f d → x ∈ concat (f <$> l)).
  { intros d Hd Hx. apply elem_of_concat. exists (f d). split; [by apply list_elem_of_fmap_2|done]. }
  apply elem_of_cons in Ha as [->|Ha], Hb as [Hb|Hb]; subst; try done.
  - destruct (Hdisj x Hxa). by apply (Hin b).
  - destruct (Hdisj x Hxb). by apply (Hin a).
  - by apply IH.
Qed.

Section Single.
Context (compiled : CompiledConstraintSet) (components : list CompiledComponent) (n : nat).
Hypothesis Hall : concat (cp_variable_ids <$> components) ≡ₚ seqZ 0 (Z.of_nat n).
Hypothesis Hrange : ∀ c z, c ∈ cc_constraints compiled → z ∈ lc_var_ids c → 0 <= z < Z.of_nat n.
Hypothesis Hconnected : ∀ x y, 0 <= x < Z.of_nat n → 0 <= y < Z.of_nat n →
  (∃ c, c ∈ components ∧ x ∈ cp_variable_ids c ∧ y ∈ cp_variable_ids c) ↔ rtsc (share_constraint compiled) x y.
Hypothesis Hconstraints : ∀ c k, c ∈ components → k ∈ cp_constraint_ids c ↔
  ∃ con z, 0 <= k ∧ cc_constraints compiled !! Z.to_nat k = Some con ∧ z ∈ lc_var_ids con ∧ z ∈ cp_variable_ids c.

Lemma components_nodup : NoDup (concat (cp_variable_ids <$> components)).
Proof. rewrite Hall. apply NoDup_seqZ. Qed.

Lemma component_var c z : c ∈ components → z ∈ cp_variable_ids c → 0 <= z < Z.of_nat n.
Proof.
  intros Hc Hz. assert (Hin : z ∈ concat (cp_variable_ids <$> components)).
  { apply elem_of_concat. exists (cp_variable_ids c). split; [by apply list_elem_of_fmap_2|done]. }
  rewrite Hall in Hin. apply elem_of_seqZ in Hin. lia.
Qed.

(** The only constraint of a component ranges over all its variables. *)
Lemma single_constraint_vars c k con :
  c ∈ components → NoDup (cp_variable_ids c) → cp_constraint_ids c = [k] →
  cc_constraints compiled !! Z.to_nat k = Some con → NoDup (lc_var_ids con) →
  lc_var_ids con ≡ₚ cp_variable_ids c.
Proof.
  intros Hc Hndc Hk Hcon Hnd. apply NoDup_Permutation; [done|done|]. pose proof (list_elem_of_lookup_2 _ _ _ Hcon) as Hin.
  destruct (proj1 (Hconstraints c k Hc)) as (con' & w & Hk0 & Hcon' & Hw & Hwc); [rewrite Hk; by left|].
  assert (con' = con) as -> by congruence. intros z. split.
  - intros Hz. destruct (proj2 (Hconnected w z (Hrange con w Hin Hw) (Hrange con z Hin Hz))) as (c' & Hc' & Hwc' & Hzc').
    { apply rtsc_lr. by exists con. }
    by rewrite (concat_disjoint cp_variable_ids components c c' w components_nodup Hc Hc' Hwc Hwc').
  - intros Hz. assert (Hzw : rtsc (share_constraint compiled) z w).
    { apply Hconnected; [by apply (component_var c)|by apply (component_var c)|by exists c]. }
    unfold rtsc in Hzw. inversion Hzw as [|? z' ? Hstep _]; subst; [done|].
    assert (Hshare : ∃ con', con' ∈ cc_constraints compiled ∧ z ∈ lc_var_ids con').
    { destruct Hstep as [(d & ? & ? & ?)|(d & ? & ? & ?)]; by exists d. }
    destruct Hshare as (con' & [i Hi]%list_elem_of_lookup & Hzcon).
    assert (Hki : Z.of_nat i ∈ cp_constraint_ids c).
    { apply Hconstraints; [done|]. exists con', z. rewrite Nat2Z.id. split_and!; [lia|done..]. }
    rewrite Hk in Hki. apply list_elem_of_singleton in Hki as <-. rewrite Nat2Z.id in Hcon. congruence.
Qed.
End Single.

Lemma compile_nodup book variables con :
  cr_errors (compile book variables) = [] → Z.of_nat (length variables) <= u32_mod →
  Forall (λ r, NoDup (vr_variable_ids r)) (rb_rules book) →
  con ∈ cc_constraints (cr_compiled (compile book variables)) → NoDup (lc_var_ids con).
Proof.
  intros Hok Hlen Hnodup Hin. destruct (compile_ok_out book variables Hok) as [_ Hcs]. rewrite Hcs in Hin.
  apply list_elem_of_fmap in Hin as (r & -> & Hr). rewrite rule_constraint_ids. rewrite Forall_forall in Hnodup.
  apply NoDup_fmap_2_strong; [|by apply Hnodup]. intros a b Ha Hb.
  pose proof (proj1 (compile_ok_iff book variables) Hok) as [[Hvk _] Hcomp]. rewrite Forall_forall in Hcomp.
  destruct (Hcomp r Hr) as (_ & Hknown & _). rewrite Forall_forall in Hknown.
  apply id_of_inj; [by rewrite merge_sort_Permutation|rewrite merge_sort_Permutation; lia|..];
    rewrite merge_sort_Permutation; by apply (elem_of_list_to_set (C := gset string)), Hknown.
Qed.

(** The shortcut oracles are right: take a component of a compiled rulebook
    whose rules name no variable twice, that has a single constraint and that
    the partitioner calls exactly-one or at-most-one.  Then trying the
    variables of the component one at a time, and none for at-most-one, finds
    the worst case over every world the component allows, for any legs about
    the component - and so agrees with the oracle that enumerates all states. *)
Theorem shortcut_oracles_exact book variables result component k keys id objective :
  let compiled := cr_compiled (compile book variables) in
  cr_errors (compile book variables) = [] →
  Z.of_nat (length variables) < 2147483648 → Z.of_nat (length (rb_rules book)) <= u32_mod →
  Forall (λ r, NoDup (vr_variable_ids r)) (rb_rules book) →
  partition (build_graph compiled) compiled = Some result → component ∈ pr_components result →
  cp_constraint_ids component = [k] → component_keys component compiled = Some keys →
  Forall (λ leg, ob_variable_id leg ∈ keys) objective →
  (cp_kind component = KExactlyOne →
   worst_case_of (component_holds compiled component) objective (exactly_one_min_payoff id keys objective)) ∧
  (cp_kind component = KAtMostOne →
   worst_case_of (component_holds compiled component) objective (at_most_one_min_payoff id keys objective)).
Proof.
  intros compiled Hok Hlen Hrules Hnodup Hpart Hc Hk Hkeys Hlegs.
  destruct (compile_wf book variables Hok) as (Hwf & Hl & Hnd & Hwell); [lia|done|]. fold compiled in Hwf, Hl, Hnd, Hwell.
  destruct (partition_spec compiled Hwf) as (result' & Hpart' & Hall & Hconn & Hcons & Hkinds).
  assert (result' = result) as -> by congruence.
  assert (Hndc : NoDup (cp_variable_ids component)).
  { pose proof (components_nodup _ _ Hall) as Hn. apply list_elem_of_split in Hc as (l1 & l2 & Hsplit). rewrite Hsplit in Hn.
    rewrite fmap_app, concat_app in Hn. apply NoDup_app in Hn as (_ & _ & Hn). cbn in Hn. by apply NoDup_app in Hn as [? _]. }
  assert (Hcwf : component_wf compiled component).
  { split; try done. apply Forall_forall. intros z Hz. by destruct (component_var _ _ Hall component z Hc Hz). }
  destruct (proj1 (Hcons component k Hc)) as (con & w & Hk0 & Hcon & _); [rewrite Hk; by left|].
  pose proof (list_elem_of_lookup_2 _ _ _ Hcon) as Hin.
  assert (Hndcon : NoDup (lc_var_ids con)) by (apply (compile_nodup book variables); done || lia).
  pose proof (single_constraint_vars compiled _ _ Hall (cf_range _ Hwf) Hconn Hcons component k con Hc Hndc Hk Hcon Hndcon) as Hperm.
  pose proof (component_keys_nodup compiled component keys Hcwf Hkeys) as Hndk.
  assert (Hlcon : Z.of_nat (length (lc_var_ids con)) < 2147483648).
  { rewrite <- Hl in Hlen. assert (Hsub : lc_var_ids con ⊆+ seqZ 0 (Z.of_nat (length (cc_variables compiled)))).
    { apply NoDup_submseteq; [done|]. intros z Hz. apply elem_of_seqZ. pose proof (cf_range _ Hwf con z Hin Hz). lia. }
    apply submseteq_length in Hsub. rewrite length_seqZ in Hsub. lia. }
  pose proof (Hwell) as Hlens. unfold well_formed in Hlens. rewrite Forall_forall in Hlens. specialize (Hlens con Hin).
  split; intros Hkind; pose proof (Hkinds component Hc) as Hclass; unfold classified in Hclass; rewrite Hkind in Hclass.
  - destruct (kind_of_single component compiled k con Equal Hclass) as (Hop & Hrhs & Hones); [done..|]. rewrite <- Hlens in Hones.
    pose proof (single_component_holds compiled component k con keys Equal Hk Hcon Hop Hrhs Hones Hperm Hlcon Hkeys) as Hholds.
    apply (worst_case_ext (λ σ, trues σ keys = 1%nat)); [|by apply exactly_one_sound].
    intros σ. rewrite Hholds. cbn. lia.
  - destruct (kind_of_single component compiled k con LessEqual Hclass) as (Hop & Hrhs & Hones); [done..|]. rewrite <- Hlens in Hones.
    pose proof (single_component_holds compiled component k con keys LessEqual Hk Hcon Hop Hrhs Hones Hperm Hlcon Hkeys) as Hholds.
    apply (worst_case_ext (λ σ, (trues σ keys <= 1)%nat)); [|by apply at_most_one_sound].
    intros σ. rewrite Hholds. cbn. lia.
Qed.

(** ** Witnesses *)

Definition demo_compiled : CompiledConstraintSet := cr_compiled (compile demo_rulebook demo_variables).
Definition demo_partition : ComponentPartitionResult :=
  default (mkComponentPartitionResult [] 0) (partition (build_graph demo_compiled) demo_compiled).

Lemma partition_is_connected_components_witness :
  (λ c, (cp_variable_ids c, cp_constraint_ids c, cp_kind c)) <$> pr_components demo_partition =
    [([0; 1; 2], [0], KExactlyOne); ([3; 4], [1], KSmallEnumerable)] ∧
  ∃ result, partition (build_graph demo_compiled) demo_compiled = Some result ∧
    concat (cp_variable_ids <$> pr_components result) ≡ₚ seqZ 0 5.
Proof.
  split; [vm_compute; reflexivity|].
  assert (H1 : Z.of_nat (length demo_variables) <= u32_mod) by (vm_compute; discriminate).
  assert (H2 : Z.of_nat (length (rb_rules demo_rulebook)) <= u32_mod) by (vm_compute; discriminate).
  destruct (partition_is_connected_components demo_rulebook demo_variables demo_compiles H1 H2) as (result & Hresult & Hall & _).
  exists result. split; [exact Hresult|exact Hall].
Defined.

Lemma shortcut_oracles_exact_witness :
  let component := default demo_component (head (pr_components demo_partition)) in
  let keys := ["a"; "b"; "c"]%string in
  wc_min_profit_tick (exactly_one_min_payoff 0 keys demo_legs) = 70000 ∧
  worst_case_of (component_holds demo_compiled component) demo_legs (exactly_one_min_payoff 0 keys demo_legs).
Proof.
  intros component keys. split; [vm_compute; reflexivity|].
  assert (H1 : Z.of_nat (length demo_variables) < 2147483648) by (vm_compute; reflexivity).
  assert (H2 : Z.of_nat (length (rb_rules demo_rulebook)) <= u32_mod) by (vm_compute; discriminate).
  assert (H3 : Forall (λ r, NoDup (vr_variable_ids r)) (rb_rules demo_rulebook)).
  { apply (bool_decide_unpack _). vm_compute. exact I. }
  assert (H4 : partition (build_graph demo_compiled) demo_compiled = Some demo_partition) by (vm_compute; reflexivity).
  assert (H5 : component ∈ pr_components demo_partition) by (vm_compute; left).
  assert (H6 : cp_constraint_ids component = [0]) by (vm_compute; reflexivity).
  assert (H7 : component_keys component demo_compiled = Some keys) by (vm_compute; reflexivity).
  assert (H8 : Forall (λ leg, ob_variable_id leg ∈ keys) demo_legs).
  { apply (bool_decide_unpack _). vm_compute. exact I. }
  destruct (shortcut_oracles_exact demo_rulebook demo_variables demo_partition component 0 keys 0 demo_legs
    demo_compiles H1 H2 H3 H4 H5 H6 H7 H8) as [H _].
  apply H. vm_compute. reflexivity.
Defined.

(** Three markets of which exactly one says yes, each with its complement. *)
Definition complement_rulebook : Rulebook :=
  mkRulebook [approved_rule "one" ExactlyOne ["A:Yes"; "B:Yes"; "C:Yes"]; approved_rule "A" ExactlyOne ["A:Yes"; "A:No"];
    approved_rule "B" ExactlyOne ["B:Yes"; "B:No"]; approved_rule "C" ExactlyOne ["C:Yes"; "C:No"]]%string.
Definition complement_compiled : CompiledConstraintSet :=
  cr_compiled (compile complement_rulebook (demo_variable <$> ["A:Yes"; "A:No"; "B:Yes"; "B:No"; "C:Yes"; "C:No"]%string)).
Definition complement_component : CompiledComponent :=
  default demo_component (partition (build_graph complement_compiled) complement_compiled ≫= head ∘ pr_components).

(** Selling the three "no" outcomes for 400000 each. *)
Definition short_legs : list BundleObjectiveLeg :=
  (λ key, mkBundleObjectiveLeg key 0 1000000 600000) <$> ["A:No"; "B:No"; "C:No"]%string.

(** The partitioner calls this component exactly-one although two of its six
    variables are false only in pairs: the shortcut oracle guarantees a profit
    of 200000 on legs that lose 800000 in every world the constraints allow. *)
Example complements_misclassified :
  cp_kind complement_component = KExactlyOne ∧
  (component_keys complement_component complement_compiled ≫= λ keys,
     Some (wc_min_profit_tick (exactly_one_min_payoff 0 keys short_legs), wc_is_guaranteed_positive (exactly_one_min_payoff 0 keys short_legs)))
    = Some (200000, true) ∧
  (subset_compiled_set complement_component complement_compiled ≫= λ sub,
     Some (wc_min_profit_tick (small_min_payoff 0 sub short_legs))) = Some (-800000).
Proof. vm_compute. auto. Qed.
