(* ===== verification/BundleGenerator.v ===== *)
(** * BundleGenerator: markets, bundles that must pay, and their payoffs

    [oracle/ingestion/MarketUniverseBuilder.cpp], [oracle/compiler/
    MarketIntrinsicConstraintBuilder.cpp], [oracle/bundles] and
    [oracle/payoff].  From the markets and the approved rules the generators
    make bundles with a payout they guarantee; the payoff matrix tabulates what
    every asset pays in every state.  Reading and writing files is not modelled. *)

From stdpp Require Import pretty.
From S2P Require Import Prelude Hashing RiskTypes Bundles OracleRules OracleStates.
#[local] Open Scope Z_scope.

(** ** Markets *)

(** [oracle/ingestion/RawMarketRecord.h:9-25] RawMarketRecord. *)
Record RawMarketRecord := mkRawMarketRecord {
  mk_market_id : string;
  mk_event_id : string;
  mk_title : string;
  mk_description : string;
  mk_outcomes : list string;
  mk_asset_ids : list string;
  mk_resolution_source : string;
  mk_end_time : string;
  mk_tags : list string;
  mk_fetched_at_ns : Z;
  mk_source : string
}.

(** [oracle/bundles/CombinatorialBundleGenerator.cpp:27-27] lower_copy: [std::tolower] on one character of the C locale. *)
Definition to_lower (c : Ascii.ascii) : Ascii.ascii :=
  let n := Ascii.N_of_ascii c in if (65 <=? n)%N && (n <=? 90)%N then Ascii.ascii_of_N (n + 32) else c.

(** [oracle/bundles/CombinatorialBundleGenerator.cpp:25-30] lower_copy. *)
Fixpoint lower_copy (value : string) : string :=
  match value with
  | EmptyString => EmptyString
  | String c rest => String (to_lower c) (lower_copy rest)
  end.

(** [oracle/ingestion/MarketUniverseBuilder.h:9-26] MarketUniverseBuildResult: the markets, their assets, warnings and errors. *)
Record MarketUniverseBuildResult := mkMarketUniverseBuildResult {
  mu_markets : list RawMarketRecord;
  mu_assets : gset string;
  mu_warnings : list string;
  mu_errors : list string
}.

(** [oracle/ingestion/MarketUniverseBuilder.cpp:15-44] build, one record. *)
Definition add_record (state : gset string * MarketUniverseBuildResult) (record : RawMarketRecord)
    : gset string * MarketUniverseBuildResult :=
  let '(seen, r) := state in
  let id := mk_market_id record in
  if String.eqb id "" then
    (seen, mkMarketUniverseBuildResult (mu_markets r) (mu_assets r) (mu_warnings r)
             (mu_errors r ++ ["market record missing market_id"%string]))
  else if negb (length (mk_outcomes record) =? length (mk_asset_ids record))%nat then
    (seen, mkMarketUniverseBuildResult (mu_markets r) (mu_assets r) (mu_warnings r)
             (mu_errors r ++ ["market " ++ id ++ " outcomes and asset_ids count mismatch"]%string))
  else if bool_decide (id ∈ seen) then
    (seen, mkMarketUniverseBuildResult (mu_markets r) (mu_assets r) (mu_warnings r ++ ["duplicate market ignored: " ++ id]%string)
             (mu_errors r))
  else
    ({[id]} ∪ seen,
     mkMarketUniverseBuildResult (mu_markets r ++ [record])
       (mu_assets r ∪ list_to_set (filter (λ a, a ≠ ""%string) (mk_asset_ids record))) (mu_warnings r) (mu_errors r)).

(** [oracle/ingestion/MarketUniverseBuilder.cpp:8-55] build; the manifest counts the markets and assets. *)
Definition build_universe (records : list RawMarketRecord) : MarketUniverseBuildResult :=
  (foldl add_record (∅, mkMarketUniverseBuildResult [] ∅ [] []) records).2.

(** ** Constraints markets have of themselves *)

(** [oracle/compiler/MarketIntrinsicConstraintBuilder.cpp:18-40] is_yes_no_pair: where yes and no are. *)
Definition is_yes_no_pair (outcomes : list string) : option (nat * nat) :=
  match outcomes with
  | [a; b] =>
      if String.eqb (lower_copy a) "yes" && String.eqb (lower_copy b) "no" then Some (0%nat, 1%nat)
      else if String.eqb (lower_copy a) "no" && String.eqb (lower_copy b) "yes" then Some (1%nat, 0%nat)
      else None
  | _ => None
  end.

(** [oracle/compiler/MarketIntrinsicConstraintBuilder.cpp:69-71] the order of the markets. *)
Definition market_le (a b : RawMarketRecord) : Prop := String.le (mk_market_id a) (mk_market_id b).
#[export] Instance market_le_dec : RelDecision market_le.
Proof. unfold market_le. intros a b. apply _. Defined.

(** [oracle/compiler/MarketIntrinsicConstraintBuilder.cpp:74-99] build, one market: its yes and no exclude and exhaust each other. *)
Definition intrinsic_constraint (index : VariableIndex) (market : RawMarketRecord) : option LinearBooleanConstraint :=
  if negb (length (mk_outcomes market) =? length (mk_asset_ids market))%nat then None
  else
    '(yes, no) ← is_yes_no_pair (mk_outcomes market);
    yes_outcome ← mk_outcomes market !! yes;
    no_outcome ← mk_outcomes market !! no;
    yes_id ← index !! (mk_market_id market ++ ":" ++ yes_outcome)%string;
    no_id ← index !! (mk_market_id market ++ ":" ++ no_outcome)%string;
    Some (mkLinearBooleanConstraint [yes_id; no_id] [1; 1] Equal 1).

(** [oracle/compiler/MarketIntrinsicConstraintBuilder.cpp:54-102] build. *)
Definition intrinsic_constraints (markets : list RawMarketRecord) (variables : list BooleanVariable)
    : list LinearBooleanConstraint :=
  omap (intrinsic_constraint (index_variables variables)) (merge_sort market_le markets).

(** ** Bundles *)

(** [oracle/payoff/PayoutRule.h:7-7] PAYOUT_ONE_TICK. *)
Definition PAYOUT_ONE_TICK : Z := 1000000.

(** [oracle/bundles/CandidateBundleGenerator.h:12-21] CandidateBundleLoadResult. *)
Record CandidateBundleLoadResult := mkCandidateBundleLoadResult {
  bg_bundles : list CandidateBundle;
  bg_warnings : list string;
  bg_errors : list string;
  bg_bundle_hash : Z
}.

(** [oracle/bundles/CandidateBundleGenerator.cpp:289-295] one lot of an asset, bought for at most what it can pay. *)
Definition one_lot (market_id asset_id : string) : BundleLeg := mkBundleLeg market_id asset_id Buy 1 PAYOUT_ONE_TICK.

Definition bundle_of (bundle_id payout : Z) (legs : list BundleLeg) : CandidateBundle :=
  mkCandidateBundle bundle_id 0 0 0 payout (length legs) (std_array kMaxBundleLegs bundle_leg0 legs) 0.

(** The text [find] looks for is in the other. *)
Definition contains (text part : string) : bool := match String.index 0 part text with Some _ => true | None => false end.

(** [oracle/bundles/CandidateBundleGenerator.cpp:166-175] has_ambiguous_split_resolution. *)
Definition has_ambiguous_split_resolution (market : RawMarketRecord) : bool :=
  let newline := String (Ascii.ascii_of_N 10) "" in
  let text := lower_copy (mk_title market ++ newline ++ mk_description market ++ newline ++ mk_resolution_source market)%string in
  contains text "50-50" || contains text "50/50" || contains text "split" || contains text "proportion".

(** [oracle/bundles/CandidateBundleGenerator.cpp:254-278] generate_buy_all_outcomes: why a market is skipped. *)
Definition skip_market (market : RawMarketRecord) : option string :=
  let id := mk_market_id market in
  if String.eqb id "" then Some "skipping market with empty market_id"%string
  else if (length (mk_outcomes market) <? 2)%nat || negb (length (mk_outcomes market) =? length (mk_asset_ids market))%nat
  then Some ("skipping market without complete outcome/token mapping: " ++ id)%string
  else if (kMaxBundleLegs <? length (mk_asset_ids market))%nat
  then Some ("skipping market with too many outcomes: " ++ id)%string
  else if has_ambiguous_split_resolution market
  then Some ("skipping market with split/proportional resolution text: " ++ id)%string
  else None.

(** [oracle/bundles/CandidateBundleGenerator.cpp:253-298] generate_buy_all_outcomes, the loop: bundles and warnings. *)
Fixpoint buy_all_loop (next_bundle_id : Z) (markets : list RawMarketRecord) : list CandidateBundle * list string :=
  match markets with
  | [] => ([], [])
  | market :: rest =>
      match skip_market market with
      | Some warning => let '(bundles, warnings) := buy_all_loop next_bundle_id rest in (bundles, warning :: warnings)
      | None =>
          let '(bundles, warnings) := buy_all_loop (wrap_u64 (next_bundle_id + 1)) rest in
          (bundle_of next_bundle_id PAYOUT_ONE_TICK (one_lot (mk_market_id market) <$> mk_asset_ids market) :: bundles, warnings)
      end
  end.

(** [oracle/bundles/CandidateBundleGenerator.cpp:300-316] the bundles are validated, then hashed. *)
Definition validated (known_market_ids known_asset_ids : gset string) (bundles : list CandidateBundle) (warnings : list string)
    : CandidateBundleLoadResult :=
  match br_errors (validate_bundles bundles known_market_ids known_asset_ids) with
  | [] => mkCandidateBundleLoadResult bundles warnings [] (hash_candidate_bundles bundles)
  | errors => mkCandidateBundleLoadResult bundles warnings errors 0
  end.

(** [oracle/bundles/CandidateBundleGenerator.cpp:245-317] generate_buy_all_outcomes. *)
Definition generate_buy_all_outcomes (markets : list RawMarketRecord) (known_market_ids known_asset_ids : gset string)
    : CandidateBundleLoadResult :=
  let '(bundles, warnings) := buy_all_loop 1 markets in validated known_market_ids known_asset_ids bundles warnings.

(** ** Bundles of rules *)

(** [oracle/bundles/CombinatorialBundleGenerator.cpp:18-23] VariableBinding. *)
Record VariableBinding := mkVariableBinding {
  vb_variable_id : string;
  vb_market_id : string;
  vb_outcome_id : string;
  vb_asset_id : string
}.

(** [oracle/bundles/CombinatorialBundleGenerator.cpp:32-35] is_yes_no_outcome. *)
Definition is_yes_no_outcome (outcome : string) : bool :=
  String.eqb (lower_copy outcome) "yes" || String.eqb (lower_copy outcome) "no".

(** [oracle/bundles/CombinatorialBundleGenerator.cpp:37-46] opposite_outcome. *)
Definition opposite_outcome (outcome : string) : string :=
  if String.eqb (lower_copy outcome) "yes" then "no"
  else if String.eqb (lower_copy outcome) "no" then "yes" else "".

(** [oracle/bundles/CombinatorialBundleGenerator.cpp:48-54] BindingIndex. *)
Record BindingIndex := mkBindingIndex {
  ix_by_variable : gmap string VariableBinding;
  ix_by_market_outcome_lower : gmap string (gmap string VariableBinding);
  ix_known_market_ids : gset string;
  ix_known_asset_ids : gset string
}.

(** [emplace]: a key that is present keeps its value. *)
Definition emplace {A} (key : string) (value : A) (m : gmap string A) : gmap string A :=
  match m !! key with Some _ => m | None => <[key := value]> m end.

(** [oracle/bundles/CombinatorialBundleGenerator.cpp:66-77] build_index, one outcome. *)
Definition index_outcome (market_id : string) (index : BindingIndex) (pair : string * string) : BindingIndex :=
  let '(outcome, asset) := pair in
  let binding := mkVariableBinding (market_id ++ ":" ++ outcome) market_id outcome asset in
  let by_market := default ∅ (ix_by_market_outcome_lower index !! market_id) in
  mkBindingIndex (emplace (vb_variable_id binding) binding (ix_by_variable index))
    (<[market_id := emplace (lower_copy outcome) binding by_market]> (ix_by_market_outcome_lower index))
    (ix_known_market_ids index) ({[asset]} ∪ ix_known_asset_ids index).

(** [oracle/bundles/CombinatorialBundleGenerator.cpp:60-79] build_index, one market. *)
Definition index_market (index : BindingIndex) (market : RawMarketRecord) : BindingIndex :=
  let id := mk_market_id market in
  let index :=
    if String.eqb id "" then index
    else mkBindingIndex (ix_by_variable index) (ix_by_market_outcome_lower index) ({[id]} ∪ ix_known_market_ids index)
           (ix_known_asset_ids index) in
  foldl (index_outcome id) index (zip (mk_outcomes market) (mk_asset_ids market)).

(** [oracle/bundles/CombinatorialBundleGenerator.cpp:56-81] build_index. *)
Definition build_index (markets : list RawMarketRecord) : BindingIndex := foldl index_market (mkBindingIndex ∅ ∅ ∅ ∅) markets.

(** [oracle/bundles/CombinatorialBundleGenerator.cpp:83-100] resolve_variables: the bindings, and the errors. *)
Definition resolve_variables (rule : ValidatedRule) (index : BindingIndex) : list VariableBinding * list string :=
  (omap (λ v, ix_by_variable index !! v) (vr_variable_ids rule),
   omap (λ v, match ix_by_variable index !! v with
              | Some _ => None
              | None => Some ("rule " ++ vr_rule_id rule ++ ": unknown variable_id " ++ v)%string
              end) (vr_variable_ids rule)).

(** [oracle/bundles/CombinatorialBundleGenerator.cpp:102-110] distinct_market_count. *)
Definition distinct_market_count (bindings : list VariableBinding) : nat :=
  size (list_to_set (vb_market_id <$> bindings) : gset string).

(** [oracle/bundles/CombinatorialBundleGenerator.cpp:141-163] make_bundle. *)
Definition make_bundle (bundle_id : Z) (bindings : list VariableBinding) (guaranteed_payout_tick : Z) : CandidateBundle :=
  bundle_of bundle_id guaranteed_payout_tick ((λ b, one_lot (vb_market_id b) (vb_asset_id b)) <$> bindings).

(** [oracle/bundles/CombinatorialBundleGenerator.cpp:173-203] complement_bindings, one binding: why the basket is skipped, or
    the opposite outcome. *)
Definition complement_binding (rule_id : string) (index : BindingIndex) (b : VariableBinding) : string + VariableBinding :=
  if negb (is_yes_no_outcome (vb_outcome_id b)) then
    inl ("rule " ++ rule_id ++ ": skipped complement basket for non-binary outcome " ++ vb_variable_id b)%string
  else
    match ix_by_market_outcome_lower index !! vb_market_id b with
    | None => inl ("rule " ++ rule_id ++ ": skipped complement basket because market is missing " ++ vb_market_id b)%string
    | Some outcomes =>
        match outcomes !! opposite_outcome (vb_outcome_id b) with
        | None =>
            inl ("rule " ++ rule_id ++ ": skipped complement basket because opposite outcome is missing for " ++ vb_variable_id b)%string
        | Some opposite => inr opposite
        end
    end.

(** [oracle/bundles/CombinatorialBundleGenerator.cpp:165-206] complement_bindings: the first problem leaves none. *)
Fixpoint complement_bindings (rule_id : string) (index : BindingIndex) (bindings : list VariableBinding)
    : string + list VariableBinding :=
  match bindings with
  | [] => inr []
  | b :: rest =>
      match complement_binding rule_id index b with
      | inl warning => inl warning
      | inr opposite =>
          match complement_bindings rule_id index rest with
          | inl warning => inl warning
          | inr complements => inr (opposite :: complements)
          end
      end
  end.

(** What one rule adds: bundles, counted from the next id, and warnings. *)
Abbreviation Added := (list CandidateBundle * list string)%type.

(** [oracle/bundles/CombinatorialBundleGenerator.cpp:226-234] the bundle of the complements, or a warning. *)
Definition complement_bundle (rule : ValidatedRule) (bindings : list VariableBinding) (index : BindingIndex) (next_bundle_id : Z)
    : Added :=
  match complement_bindings (vr_rule_id rule) index bindings with
  | inl warning => ([], [warning])
  | inr [] => ([], [])
  | inr complements =>
      ([make_bundle next_bundle_id complements ((Z.of_nat (length complements) - 1) *i PAYOUT_ONE_TICK)], [])
  end.

(** [oracle/bundles/CombinatorialBundleGenerator.cpp:112-139] has_too_many_legs, is_trivial_single_market_rule. *)
Definition unusable (rule : ValidatedRule) (bindings : list VariableBinding) : option string :=
  if (kMaxBundleLegs <? length bindings)%nat
  then Some ("rule " ++ vr_rule_id rule ++ ": skipped because leg_count exceeds " ++ pretty (N.of_nat kMaxBundleLegs))%string
  else if (distinct_market_count bindings <=? 1)%nat
  then Some ("rule " ++ vr_rule_id rule ++ ": skipped trivial single-market rule")%string
  else None.

(** [oracle/bundles/CombinatorialBundleGenerator.cpp:208-235] append_exactly_one_bundles. *)
Definition append_exactly_one_bundles (rule : ValidatedRule) (bindings : list VariableBinding) (index : BindingIndex)
    (next_bundle_id : Z) : Added :=
  match unusable rule bindings with
  | Some warning => ([], [warning])
  | None =>
      let '(bundles, warnings) := complement_bundle rule bindings index (wrap_u64 (next_bundle_id + 1)) in
      (make_bundle next_bundle_id bindings PAYOUT_ONE_TICK :: bundles, warnings)
  end.

(** [oracle/bundles/CombinatorialBundleGenerator.cpp:237-258] append_at_most_one_bundles. *)
Definition append_at_most_one_bundles (rule : ValidatedRule) (bindings : list VariableBinding) (index : BindingIndex)
    (next_bundle_id : Z) : Added :=
  match unusable rule bindings with
  | Some warning => ([], [warning])
  | None => complement_bundle rule bindings index next_bundle_id
  end.

(** [oracle/bundles/CombinatorialBundleGenerator.cpp:271-314] generate_from_rulebook, one rule: bundles and warnings, and errors. *)
Definition generate_rule (rule : ValidatedRule) (index : BindingIndex) (next_bundle_id : Z) : Added * list string :=
  if negb (vr_approved rule)
  then (([], []), ["rule " ++ vr_rule_id rule ++ ": unapproved rule cannot generate bundles"]%string)
  else
    let '(bindings, errors) := resolve_variables rule index in
    if negb (length bindings =? length (vr_variable_ids rule))%nat then (([], []), errors)
    else if (length bindings <? 2)%nat
    then (([], ["rule " ++ vr_rule_id rule ++ ": skipped because it has fewer than 2 variables"]%string), errors)
    else
      (match vr_type rule with
       | ExactlyOne => append_exactly_one_bundles rule bindings index next_bundle_id
       | AtMostOne => append_at_most_one_bundles rule bindings index next_bundle_id
       | _ => ([], ["rule " ++ vr_rule_id rule ++ ": skipped unsupported rule type for combinatorial bundles"]%string)
       end, errors).

(** [oracle/bundles/CombinatorialBundleGenerator.cpp:270-315] generate_from_rulebook, the loop. *)
Fixpoint generate_rules (index : BindingIndex) (next_bundle_id : Z) (rules : list ValidatedRule) : Added * list string :=
  match rules with
  | [] => (([], []), [])
  | rule :: rest =>
      let '((bundles, warnings), errors) := generate_rule rule index next_bundle_id in
      let '((bundles', warnings'), errors') :=
        generate_rules index (wrap_u64 (next_bundle_id + Z.of_nat (length bundles))) rest in
      ((bundles ++ bundles', warnings ++ warnings'), errors ++ errors')
  end.

(** [oracle/bundles/CombinatorialBundleGenerator.cpp:262-338] generate_from_rulebook. *)
Definition generate_from_rulebook (markets : list RawMarketRecord) (book : Rulebook) : CandidateBundleLoadResult :=
  let index := build_index markets in
  let '((bundles, warnings), errors) := generate_rules index 1 (rb_rules book) in
  match errors with
  | [] => validated (ix_known_market_ids index) (ix_known_asset_ids index) bundles warnings
  | _ => mkCandidateBundleLoadResult bundles warnings errors 0
  end.

(** ** The payoff matrix *)

(** [oracle/payoff/PayoffVector.h:7-11] PayoffEntry. *)
Record PayoffEntry := mkPayoffEntry { pe_state_id : Z; pe_asset_index : Z; pe_payout_tick : Z }.

(** [oracle/payoff/PayoffMatrix.h:11-19] PayoffMatrix. *)
Record PayoffMatrix := mkPayoffMatrix {
  pm_asset_ids : list string;
  pm_state_ids : list Z;
  pm_entries : list PayoffEntry;
  pm_row_count : Z;
  pm_column_count : Z;
  pm_payoff_hash : Z
}.

(** [oracle/payoff/PayoffMatrixBuilder.cpp:17-20] AssetColumn. *)
Record AssetColumn := mkAssetColumn { ac_var_id : Z; ac_asset_id : string }.

(** [oracle/payoff/PayoffMatrixBuilder.cpp:69-84] build_columns, the loop: columns and errors. *)
Fixpoint collect_columns (seen : gset string) (variables : list BooleanVariable) : list AssetColumn * list string :=
  match variables with
  | [] => ([], [])
  | v :: rest =>
      let asset := bv_asset_id v in
      if String.eqb asset "" then
        let '(columns, errors) := collect_columns seen rest in
        (columns, ("variable " ++ bv_variable_key v ++ " missing asset_id")%string :: errors)
      else if bool_decide (asset ∈ seen) then
        let '(columns, errors) := collect_columns seen rest in (columns, ("duplicate asset_id: " ++ asset)%string :: errors)
      else
        let '(columns, errors) := collect_columns ({[asset]} ∪ seen) rest in (mkAssetColumn (bv_var_id v) asset :: columns, errors)
  end.

(** [oracle/payoff/PayoffMatrixBuilder.cpp:89-91] the order of the columns. *)
Definition column_le (a b : AssetColumn) : Prop := String.le (ac_asset_id a) (ac_asset_id b).
#[export] Instance column_le_dec : RelDecision column_le.
Proof. unfold column_le. intros a b. apply _. Defined.

(** [oracle/payoff/PayoffMatrixBuilder.cpp:62-95] build_columns. *)
Definition build_columns (variables : list BooleanVariable) : list AssetColumn * list string :=
  let '(columns, errors) := collect_columns ∅ variables in (merge_sort column_le columns, errors).

(** [oracle/payoff/PayoffMatrixBuilder.cpp:206-220] build, one state: an asset pays when its variable is true. *)
Definition state_entries (columns : list AssetColumn) (s : FeasibleState) : list PayoffEntry :=
  imap (λ i column, mkPayoffEntry (fs_state_id s) (wrap_u32 (Z.of_nat i))
    (if test (fs_bitset_words s) (ac_var_id column) then PAYOUT_ONE_TICK else 0)) columns.

(** [oracle/payoff/PayoffMatrixBuilder.cpp:259-263] hash_payoff_matrix, one entry. *)
Definition hash_entry (hash : Z) (e : PayoffEntry) : Z :=
  mix_i64 (hash_u32 (mix_u64 hash (pe_state_id e)) (pe_asset_index e)) (pe_payout_tick e).

(** [oracle/payoff/PayoffMatrixBuilder.cpp:247-266] hash_payoff_matrix. *)
Definition hash_payoff_matrix (rows columns : Z) (assets : list string) (states : list Z) (entries : list PayoffEntry) : Z :=
  let hash := hash_u32 (hash_u32 fnv_offset rows) columns in
  let hash := foldl hash_marked_string hash assets in
  foldl hash_entry (foldl mix_u64 hash states) entries.

(** [oracle/payoff/PayoffMatrixBuilder.cpp:188-224] build: errors, or the matrix. *)
Definition build_payoff_matrix (variables : list BooleanVariable) (states : list FeasibleState) : list string + PayoffMatrix :=
  let '(columns, errors) := build_columns variables in
  match errors with
  | _ :: _ => inl errors
  | [] =>
      let rows := wrap_u32 (Z.of_nat (length states)) in
      let width := wrap_u32 (Z.of_nat (length columns)) in
      let assets := ac_asset_id <$> columns in
      let ids := fs_state_id <$> states in
      let entries := concat (state_entries columns <$> states) in
      inr (mkPayoffMatrix assets ids entries rows width (hash_payoff_matrix rows width assets ids entries))
  end.

(** ** What bindings stand for *)

(** A binding of a market: one of its outcomes with the asset of that outcome. *)
Definition bound (markets : list RawMarketRecord) (b : VariableBinding) : Prop :=
  ∃ m, m ∈ markets ∧ vb_market_id b = mk_market_id m ∧ (vb_outcome_id b, vb_asset_id b) ∈ zip (mk_outcomes m) (mk_asset_ids m).

(** Both maps of the index hold bindings of the markets, under their own keys. *)
Record index_ok (markets : list RawMarketRecord) (index : BindingIndex) : Prop := {
  io_variable v b : ix_by_variable index !! v = Some b → bound markets b;
  io_outcome m outcomes o b : ix_by_market_outcome_lower index !! m = Some outcomes → outcomes !! o = Some b →
    bound markets b ∧ vb_market_id b = m ∧ lower_copy (vb_outcome_id b) = o
}.

Lemma emplace_Some {A} k (x : A) m j y : emplace k x m !! j = Some y → (j = k ∧ y = x) ∨ m !! j = Some y.
Proof. unfold emplace. destruct (m !! k); [by right|]. intros [[-> ->]|[_ ?]]%lookup_insert_Some; auto. Qed.

Lemma bound_mono ms1 ms2 b : (∀ m, m ∈ ms1 → m ∈ ms2) → bound ms1 b → bound ms2 b.
Proof. intros H (m & Hm & ?). exists m. auto. Qed.

Lemma index_outcome_ok markets m index pair :
  m ∈ markets → pair ∈ zip (mk_outcomes m) (mk_asset_ids m) → index_ok markets index →
  index_ok markets (index_outcome (mk_market_id m) index pair).
Proof.
  destruct pair as [outcome asset]. intros Hm Hpair [Hv Ho]. cbn.
  set (binding := mkVariableBinding _ _ outcome asset). assert (Hb : bound markets binding) by by exists m.
  split; cbn.
  - intros v b [[_ ->]|H]%emplace_Some; [done|by apply (Hv v)].
  - intros mid outcomes o b. rewrite lookup_insert_Some. intros [[<- <-]|[_ Hmid]]; [|by apply Ho].
    intros [[-> ->]|H]%emplace_Some; [done|].
    destruct (ix_by_market_outcome_lower index !! mk_market_id m) as [os|] eqn:E; [by apply (Ho _ os)|cbn in H; by apply lookup_empty_Some in H].
Qed.

Lemma build_index_ok markets : index_ok markets (build_index markets).
Proof.
  assert (Hgen : ∀ ms index, (∀ m, m ∈ ms → m ∈ markets) → index_ok markets index → index_ok markets (foldl index_market index ms)).
  { induction ms as [|m ms IH]; intros index Hin Hix; [done|]. cbn. apply IH; [intros; apply Hin; by right|]. unfold index_market.
    assert (Hpairs : ∀ ps index, (∀ p, p ∈ ps → p ∈ zip (mk_outcomes m) (mk_asset_ids m)) → index_ok markets index →
      index_ok markets (foldl (index_outcome (mk_market_id m)) index ps)).
    { induction ps as [|p ps IHp]; intros ix Hp Hok; [done|]. cbn. apply IHp; [intros; apply Hp; by right|].
      apply index_outcome_ok; [apply Hin; by left|apply Hp; by left|done]. }
    apply Hpairs; [done|]. destruct Hix as [Hv Ho]. step_if; split; done. }
  apply Hgen; [done|]. split; cbn; [by intros v b ?%lookup_empty_Some|by intros m os o b ?%lookup_empty_Some].
Qed.

(** ** Worlds and payouts *)

(** What the legs of a bundle pay in a world that says which assets win. *)
Definition bundle_payout (wins : string → bool) (bundle : CandidateBundle) : Z :=
  sum_list_Z (λ leg, if wins (bl_asset_id leg) then bl_quantity_lots leg * PAYOUT_ONE_TICK else 0) (bundle_legs bundle).

(** In a market with a yes and a no exactly one of them wins. *)
Definition complementary (markets : list RawMarketRecord) (wins : string → bool) : Prop :=
  ∀ yes no, bound markets yes → bound markets no → vb_market_id yes = vb_market_id no →
    lower_copy (vb_outcome_id yes) = "yes"%string → lower_copy (vb_outcome_id no) = "no"%string →
    wins (vb_asset_id no) = negb (wins (vb_asset_id yes)).

(** The truth of a variable: its asset wins. *)
Definition variable_wins (index : BindingIndex) (wins : string → bool) (variable_id : string) : bool :=
  match ix_by_variable index !! variable_id with Some b => wins (vb_asset_id b) | None => false end.

Definition winners (wins : string → bool) (bindings : list VariableBinding) : nat :=
  length (filter (λ b, wins (vb_asset_id b) = true) bindings).

#[local] Arguments winners : simpl never.

Lemma winners_cons wins b bs : winners wins (b :: bs) = ((if wins (vb_asset_id b) then 1 else 0) + winners wins bs)%nat.
Proof. unfold winners. rewrite filter_cons. by destruct (wins (vb_asset_id b)). Qed.

Lemma bundle_legs_of id payout legs : (length legs <= kMaxBundleLegs)%nat → bundle_legs (bundle_of id payout legs) = legs.
Proof.
  intros H. unfold bundle_legs, bundle_of. cbn [cb_leg_count cb_legs]. unfold std_array.
  rewrite (take_ge legs kMaxBundleLegs) by done. by rewrite take_app_le, take_ge by lia.
Qed.

Lemma make_bundle_payout wins id bindings payout :
  (length bindings <= kMaxBundleLegs)%nat →
  bundle_payout wins (make_bundle id bindings payout) = Z.of_nat (winners wins bindings) * PAYOUT_ONE_TICK.
Proof.
  intros H. unfold bundle_payout, make_bundle. rewrite bundle_legs_of by by rewrite length_fmap. clear H.
  induction bindings as [|b bindings IH]; [done|]. rewrite fmap_cons, winners_cons. cbn [sum_list_Z]. rewrite IH. cbn.
  destruct (wins (vb_asset_id b)); lia.
Qed.

Lemma omap_length_le {A B} (f : A → option B) l : (length (omap f l) <= length l)%nat.
Proof. induction l as [|x l IH]; cbn; [lia|]. destruct (f x); cbn in *; lia. Qed.

Lemma resolved_winners wins index keys :
  length (omap (λ v, ix_by_variable index !! v) keys) = length keys →
  winners wins (omap (λ v, ix_by_variable index !! v) keys) = trues (variable_wins index wins) keys.
Proof.
  unfold winners, trues. induction keys as [|k keys IH]; [done|]. cbn [omap list_omap]. rewrite (filter_cons _ k).
  assert (Hv : variable_wins index wins k = match ix_by_variable index !! k with Some b => wins (vb_asset_id b) | None => false end) by done.
  destruct (ix_by_variable index !! k) as [b|]; intros Hlen.
  - rewrite filter_cons. cbn [length] in Hlen. injection Hlen as Hlen. rewrite <- Hv. specialize (IH Hlen).
    case_decide; cbn [length]; by rewrite IH.
  - pose proof (omap_length_le (λ v, ix_by_variable index !! v) keys). cbn in Hlen. lia.
Qed.

Section World.
Context (markets : list RawMarketRecord) (wins : string → bool).
Hypothesis Hworld : complementary markets wins.
Let index := build_index markets.

Lemma complement_binding_wins rule_id b opposite :
  bound markets b → complement_binding rule_id index b = inr opposite →
  wins (vb_asset_id opposite) = negb (wins (vb_asset_id b)).
Proof.
  intros Hb. unfold complement_binding, opposite_outcome, is_yes_no_outcome.
  destruct (lower_copy (vb_outcome_id b) =? "yes")%string eqn:Ey, (lower_copy (vb_outcome_id b) =? "no")%string eqn:En;
    cbn; try done; breflect; try congruence;
    destruct (ix_by_market_outcome_lower index !! vb_market_id b) as [outcomes|] eqn:Em; try done;
    destruct (outcomes !! _) as [o|] eqn:Eo; try done; intros [= <-];
    destruct (io_outcome _ _ (build_index_ok markets) _ _ _ _ Em Eo) as (Ho & Hm & Hl).
  - by apply Hworld.
  - symmetry. rewrite (Hworld o b Ho Hb) by done. by rewrite negb_involutive.
Qed.

Lemma complement_winners rule_id bindings complements :
  Forall (bound markets) bindings → complement_bindings rule_id index bindings = inr complements →
  length complements = length bindings ∧ (winners wins complements + winners wins bindings = length bindings)%nat.
Proof.
  intros H. revert complements. induction H as [|b bindings Hb _ IH]; intros complements; cbn; [by intros [= <-]|].
  destruct (complement_binding rule_id index b) as [|opposite] eqn:E; [done|].
  destruct (complement_bindings rule_id index bindings) as [|cs] eqn:Ec; [done|]. intros [= <-].
  destruct (IH cs eq_refl) as [Hlen Hw]. pose proof (complement_binding_wins rule_id b opposite Hb E) as Ho.
  split; [cbn; by rewrite Hlen|]. rewrite !winners_cons, Ho. cbn [length]. destruct (wins (vb_asset_id b)); cbn [negb]; lia.
Qed.

(** A bundle keeps its promise in the world. *)
Definition pays (bundle : CandidateBundle) : Prop := cb_guaranteed_payout_tick bundle <= bundle_payout wins bundle.

Lemma complement_bundle_pays rule bindings next_bundle_id :
  Forall (bound markets) bindings → (length bindings <= kMaxBundleLegs)%nat → (winners wins bindings <= 1)%nat →
  Forall pays (complement_bundle rule bindings index next_bundle_id).1.
Proof.
  intros Hb Hlen Hw. unfold complement_bundle.
  destruct (complement_bindings (vr_rule_id rule) index bindings) as [|[|c cs]] eqn:E; cbn [fst]; try by constructor.
  destruct (complement_winners _ _ _ Hb E) as [Hl Hsum]. constructor; [|by constructor]. unfold pays.
  rewrite make_bundle_payout by lia. cbn [make_bundle bundle_of cb_guaranteed_payout_tick]. unfold kMaxBundleLegs, PAYOUT_ONE_TICK in *.
  rewrite wrap_i64_id by rlia. lia.
Qed.

Lemma bindings_bound keys : Forall (bound markets) (omap (λ v, ix_by_variable index !! v) keys).
Proof.
  apply Forall_forall. intros b (v & _ & Hv)%list_elem_of_omap. by apply (io_variable _ _ (build_index_ok markets) v).
Qed.

Lemma unusable_none rule bindings : unusable rule bindings = None → (length bindings <= kMaxBundleLegs)%nat.
Proof. unfold unusable. destruct (kMaxBundleLegs <? length bindings)%nat eqn:E; [done|]. by apply Nat.ltb_ge in E. Qed.

Lemma generate_rule_pays rule next_bundle_id :
  (vr_type rule = ExactlyOne ∨ vr_type rule = AtMostOne → rule_holds (variable_wins index wins) rule) →
  Forall pays (generate_rule rule index next_bundle_id).1.1.
Proof.
  intros Hholds. unfold generate_rule, resolve_variables. step_if; [by constructor|].
  set (bindings := omap (λ v, ix_by_variable index !! v) (vr_variable_ids rule)).
  destruct (negb (length bindings =? length (vr_variable_ids rule))%nat) eqn:El; [by constructor|]. breflect.
  step_if; [by constructor|]. cbn [fst]. pose proof (resolved_winners wins index (vr_variable_ids rule) El) as Hw. fold bindings in Hw.
  pose proof (bindings_bound (vr_variable_ids rule)) as Hbound. fold bindings in Hbound. unfold rule_holds in Hholds.
  destruct (vr_type rule); try (by constructor).
  - unfold append_at_most_one_bundles. destruct (unusable rule bindings) eqn:Eu; [by constructor|].
    apply complement_bundle_pays; [done|by apply (unusable_none rule)|]. rewrite Hw. by apply Hholds; right.
  - unfold append_exactly_one_bundles. destruct (unusable rule bindings) eqn:Eu; [by constructor|].
    assert (Hone : winners wins bindings = 1%nat) by (rewrite Hw; by apply Hholds; left).
    pose proof (complement_bundle_pays rule bindings (wrap_u64 (next_bundle_id + 1)) Hbound (unusable_none _ _ Eu)) as Hc.
    destruct (complement_bundle _ _ _ _) as [bundles warnings]. cbn [fst] in *. constructor; [|apply Hc; lia].
    unfold pays. rewrite make_bundle_payout by by apply (unusable_none rule). rewrite Hone. cbn. lia.
Qed.

Lemma generate_rules_pay next_bundle_id rules :
  Forall (λ r, vr_type r = ExactlyOne ∨ vr_type r = AtMostOne → rule_holds (variable_wins index wins) r) rules →
  Forall pays (generate_rules index next_bundle_id rules).1.1.
Proof.
  intros H. revert next_bundle_id. induction H as [|r rules Hr _ IH]; intros next; [by constructor|]. cbn.
  pose proof (generate_rule_pays r next Hr) as Hr'. destruct (generate_rule r index next) as [[bundles warnings] errors]. cbn [fst] in *.
  specialize (IH (wrap_u64 (next + Z.of_nat (length bundles)))).
  destruct (generate_rules index _ rules) as [[bundles' warnings'] errors']. cbn [fst] in *. by apply Forall_app.
Qed.
End World.

Lemma validate_no_errors markets assets seen bundles r :
  br_errors (validate_bundle_list markets assets seen bundles r) = [] →
  br_errors r = [] ∧ br_duplicate_bundle_ids (validate_bundle_list markets assets seen bundles r) = br_duplicate_bundle_ids r.
Proof.
  revert seen r. induction bundles as [|b bundles IH]; intros seen r; cbn [validate_bundle_list]; [done|].
  intros H. destruct (IH _ _ H) as [He Hd]. cbn [br_errors br_duplicate_bundle_ids] in *.
  apply app_nil in He as [He Hnew]. split; [done|]. rewrite Hd. destruct (bool_decide _); [done|]. by rewrite app_nil_r.
Qed.

(** Bundles that come without errors are valid, numbered apart, and hashed. *)
Lemma validated_ok markets assets bundles warnings :
  bg_errors (validated markets assets bundles warnings) = [] →
  Forall (bundle_valid markets assets) bundles ∧ NoDup (cb_bundle_id <$> bundles) ∧
  bg_bundle_hash (validated markets assets bundles warnings) = hash_candidate_bundles bundles.
Proof.
  unfold validated. destruct (br_errors (validate_bundles bundles markets assets)) as [|e es] eqn:E; [|done]. intros _.
  assert (Hok : validation_ok (validate_bundles bundles markets assets) = true).
  { unfold validation_ok. rewrite E. pose proof (validate_no_errors markets assets ∅ bundles _ E) as [_ Hd].
    unfold validate_bundles. by rewrite Hd. }
  apply validate_bundles_ok in Hok as [? ?]. done.
Qed.

Lemma validated_bundles markets assets bundles warnings : bg_bundles (validated markets assets bundles warnings) = bundles.
Proof. unfold validated. by destruct (br_errors _). Qed.

(** C10. Rule bundles are arbitrage: take any world, that is any choice of the
    assets that win, in which the yes and the no of a market exclude and
    exhaust each other and the exactly-one and at-most-one rules of the
    rulebook hold of the assets their variables stand for.  Then every bundle
    generated from the rulebook pays at least what it guarantees.  When no
    error is reported the bundles are valid, carry different ids and are bound
    by their hash. *)
Theorem rule_bundles_pay markets book wins :
  let result := generate_from_rulebook markets book in
  let index := build_index markets in
  complementary markets wins →
  Forall (λ r, vr_type r = ExactlyOne ∨ vr_type r = AtMostOne → rule_holds (variable_wins index wins) r) (rb_rules book) →
  Forall (λ bundle, cb_guaranteed_payout_tick bundle <= bundle_payout wins bundle) (bg_bundles result) ∧
  (bg_errors result = [] →
   Forall (bundle_valid (ix_known_market_ids index) (ix_known_asset_ids index)) (bg_bundles result) ∧
   NoDup (cb_bundle_id <$> bg_bundles result) ∧ bg_bundle_hash result = hash_candidate_bundles (bg_bundles result)).
Proof.
  cbv zeta. intros Hworld Hrules. unfold generate_from_rulebook.
  pose proof (generate_rules_pay markets wins Hworld 1 (rb_rules book) Hrules) as Hpay.
  destruct (generate_rules (build_index markets) 1 (rb_rules book)) as [[bundles warnings] errors]. cbn [fst] in Hpay.
  destruct errors as [|e es]; [|done]. rewrite validated_bundles. split; [done|]. apply validated_ok.
Qed.

(** ** Buying every outcome *)

Lemma buy_all_pays wins next markets :
  Forall (λ m, ∃ a, a ∈ mk_asset_ids m ∧ wins a = true) markets →
  Forall (pays wins) (buy_all_loop next markets).1.
Proof.
  intros H. revert next. induction H as [|m markets (a & Ha & Hwin) _ IH]; intros next; [by constructor|]. cbn.
  destruct (skip_market m) as [warning|] eqn:E.
  - specialize (IH next). by destruct (buy_all_loop next markets).
  - specialize (IH (wrap_u64 (next + 1))). destruct (buy_all_loop _ markets) as [bundles warnings]. cbn [fst] in *.
    constructor; [|done]. unfold pays, bundle_payout. rewrite bundle_legs_of.
    + cbn [bundle_of cb_guaranteed_payout_tick].
      set (f := λ leg, if wins (bl_asset_id leg) then bl_quantity_lots leg * PAYOUT_ONE_TICK else 0).
      assert (Hf : f (one_lot (mk_market_id m) a) = PAYOUT_ONE_TICK) by (unfold f; cbn; by rewrite Hwin).
      rewrite <- Hf. apply sum_list_Z_elem_le; [|by apply list_elem_of_fmap_2].
      intros leg (b & -> & _)%list_elem_of_fmap. unfold f, PAYOUT_ONE_TICK. cbn. destruct (wins b); lia.
    + rewrite length_fmap. unfold skip_market in E. destruct (String.eqb _ _); [done|]. destruct (_ || _); [done|].
      destruct (kMaxBundleLegs <? length (mk_asset_ids m))%nat eqn:El; [done|]. by apply Nat.ltb_ge in El.
Qed.

(** Buying all outcomes of a market pays when one of them wins. *)
Lemma buy_all_outcomes_pay wins markets known_markets known_assets :
  Forall (λ m, ∃ a, a ∈ mk_asset_ids m ∧ wins a = true) markets →
  Forall (pays wins) (bg_bundles (generate_buy_all_outcomes markets known_markets known_assets)).
Proof.
  intros H. unfold generate_buy_all_outcomes. pose proof (buy_all_pays wins 1 markets H) as Hp.
  destruct (buy_all_loop 1 markets). by rewrite validated_bundles.
Qed.

(** ** The payoff matrix *)

Lemma collect_columns_ok seen variables :
  (collect_columns seen variables).2 = [] →
  (collect_columns seen variables).1 = (λ v, mkAssetColumn (bv_var_id v) (bv_asset_id v)) <$> variables ∧
  Forall (λ v, bv_asset_id v ≠ ""%string ∧ bv_asset_id v ∉ seen) variables ∧ NoDup (bv_asset_id <$> variables).
Proof.
  revert seen. induction variables as [|v variables IH]; intros seen; [intros _; split_and!; [done|constructor|constructor]|]. cbn.
  step_if; [by destruct (collect_columns _ _)|]. step_if; [by destruct (collect_columns _ _)|]. breflect.
  specialize (IH ({[bv_asset_id v]} ∪ seen)). destruct (collect_columns _ _) as [columns errors]. cbn in *. intros He.
  destruct (IH He) as (-> & Hall & Hn). rewrite Forall_forall in Hall. split_and!; [done| |].
  - apply Forall_cons. split; [done|]. apply Forall_forall. intros w Hw. specialize (Hall w Hw). set_solver.
  - constructor; [|done]. intros (w & Hk & Hw)%list_elem_of_fmap. specialize (Hall w Hw). set_solver.
Qed.

Lemma concat_lookup {A B} (f : A → list B) (w : nat) (l : list A) i j x :
  (∀ y, length (f y) = w) → l !! i = Some x → (j < w)%nat → concat (f <$> l) !! (i * w + j)%nat = f x !! j.
Proof.
  intros Hw. revert i. induction l as [|y l IH]; intros i Hi Hj; [done|]. rewrite fmap_cons. cbn [concat]. destruct i as [|i].
  - injection Hi as ->. cbn. rewrite lookup_app_l; [done|]. rewrite Hw. lia.
  - rewrite lookup_app_r by (rewrite Hw; lia). rewrite Hw. rewrite <- (IH i Hi Hj). f_equal. lia.
Qed.

(** The payoff matrix tells what every asset pays in every state: when the
    variables have different assets, one column per asset in increasing order,
    one row per state in the order given, and in the row of a state the entry
    of an asset is the full payout exactly when the bit of its variable is set
    in the state. *)
Theorem payoff_matrix_exact variables states matrix :
  build_payoff_matrix variables states = inr matrix → Z.of_nat (length variables) <= u32_mod →
  StronglySorted String.le (pm_asset_ids matrix) ∧
  pm_asset_ids matrix ≡ₚ bv_asset_id <$> variables ∧ NoDup (pm_asset_ids matrix) ∧
  pm_state_ids matrix = fs_state_id <$> states ∧
  length (pm_entries matrix) = (length states * length variables)%nat ∧
  ∀ i j s asset, states !! i = Some s → pm_asset_ids matrix !! j = Some asset →
    ∃ v, v ∈ variables ∧ bv_asset_id v = asset ∧
      pm_entries matrix !! (i * length variables + j)%nat =
        Some (mkPayoffEntry (fs_state_id s) (Z.of_nat j) (if test (fs_bitset_words s) (bv_var_id v) then PAYOUT_ONE_TICK else 0)).
Proof.
  intros H Hlen. unfold build_payoff_matrix, build_columns in H. pose proof (collect_columns_ok ∅ variables) as Hcols.
  destruct (collect_columns ∅ variables) as [columns errors]. cbn [fst snd] in *. destruct errors as [|e es]; [|done].
  injection H as <-. destruct (Hcols eq_refl) as (-> & _ & Hn). cbn [pm_asset_ids pm_state_ids pm_entries].
  set (column v := mkAssetColumn (bv_var_id v) (bv_asset_id v)). set (sorted := merge_sort column_le (column <$> variables)).
  assert (Hperm : sorted ≡ₚ column <$> variables) by apply merge_sort_Permutation.
  assert (Hassets : ac_asset_id <$> sorted ≡ₚ bv_asset_id <$> variables) by (rewrite Hperm, <- list_fmap_compose; done).
  assert (Hwidth : ∀ s, length (state_entries sorted s) = length variables).
  { intros s. unfold state_entries. rewrite length_imap, Hperm. apply length_fmap. }
  split_and!; [| done |by rewrite Hassets|done| |].
  - apply (StronglySorted_fmap ac_asset_id column_le); [done|]. apply StronglySorted_merge_sort; [|].
    + intros a b c. unfold column_le. apply transitivity.
    + intros a b. unfold column_le. apply total, _.
  - induction states as [|s states IH]; [done|]. cbn. by rewrite length_app, Hwidth, IH.
  - intros i j s asset Hi Hj. rewrite list_lookup_fmap in Hj. apply fmap_Some in Hj as (c & Hc & ->).
    pose proof (list_elem_of_lookup_2 _ _ _ Hc) as Hin. rewrite Hperm in Hin. apply list_elem_of_fmap in Hin as (v & -> & Hv).
    exists v. split_and!; [done|done|]. pose proof (lookup_lt_Some _ _ _ Hc) as Hj.
    assert (Hls : length sorted = length variables) by (rewrite Hperm; apply length_fmap). rewrite Hls in Hj.
    rewrite (concat_lookup (state_entries sorted) (length variables) states i j s) by done.
    unfold state_entries. rewrite list_lookup_imap, Hc. cbn. unfold wrap_u32. by rewrite Z.mod_small by lia.
Qed.

(** ** Witnesses *)

Definition demo_market (id : string) : RawMarketRecord :=
  mkRawMarketRecord id "event" "title" "description" ["Yes"; "No"] [id ++ "-yes"; id ++ "-no"]%string "" "" [] 0 "test".
Definition demo_markets : list RawMarketRecord := demo_market <$> ["A"; "B"; "C"]%string.
Definition demo_rules : Rulebook := mkRulebook [approved_rule "r" ExactlyOne ["A:Yes"; "B:Yes"; "C:Yes"]]%string.
Definition demo_wins (asset : string) : bool := bool_decide (asset ∈ ["A-no"; "B-yes"; "C-no"]%string).

Lemma demo_complementary : complementary demo_markets demo_wins.
Proof.
  assert (Hb : ∀ b, bound demo_markets b → ∃ id, id ∈ ["A"; "B"; "C"]%string ∧ vb_market_id b = id ∧
    ((vb_outcome_id b = "Yes" ∧ vb_asset_id b = (id ++ "-yes")) ∨ (vb_outcome_id b = "No" ∧ vb_asset_id b = (id ++ "-no")))%string).
  { intros b (m & Hm & Hid & Hz). apply list_elem_of_fmap in Hm as (id & -> & Hin). exists id. split; [done|]. split; [done|]. cbn in Hz.
    apply elem_of_cons in Hz as [[= -> ->]|Hz]; [by left|]. apply list_elem_of_singleton in Hz as [= -> ->]. by right. }
  intros yes no Hy Hn Heq Hly Hln. destruct (Hb yes Hy) as (a & Ha & Hia & Hya), (Hb no Hn) as (b & _ & Hib & Hnb).
  assert (b = a) as -> by congruence. destruct Hya as [[_ ->]|[E _]]; [|rewrite E in Hly; by vm_compute in Hly].
  destruct Hnb as [[E _]|[_ ->]]; [rewrite E in Hln; by vm_compute in Hln|].
  repeat (apply elem_of_cons in Ha as [->|Ha]; [vm_compute; reflexivity|]). by apply not_elem_of_nil in Ha.
Qed.

(** One yes among three, bought as a basket, and its complement. *)
Lemma rule_bundles_pay_witness :
  let result := generate_from_rulebook demo_markets demo_rules in
  (λ b, (cb_guaranteed_payout_tick b, bundle_payout demo_wins b)) <$> bg_bundles result = [(1000000, 1000000); (2000000, 2000000)] ∧
  bg_errors result = [] ∧
  Forall (λ bundle, cb_guaranteed_payout_tick bundle <= bundle_payout demo_wins bundle) (bg_bundles result).
Proof.
  intros result. split; [vm_compute; reflexivity|]. split; [vm_compute; reflexivity|].
  assert (Hrules : Forall (λ r, vr_type r = ExactlyOne ∨ vr_type r = AtMostOne →
    rule_holds (variable_wins (build_index demo_markets) demo_wins) r) (rb_rules demo_rules)).
  { apply Forall_cons; split; [|by apply Forall_nil]. intros _. vm_compute. reflexivity. }
  destruct (rule_bundles_pay demo_markets demo_rules demo_wins demo_complementary Hrules) as [H _]. exact H.
Defined.

Definition demo_states : list FeasibleState := sr_feasible_states (enumerate_states (cr_compiled (compile demo_rulebook demo_variables))).

Definition demo_matrix : PayoffMatrix :=
  match build_payoff_matrix (cc_variables (cr_compiled (compile demo_rulebook demo_variables))) demo_states with
  | inr matrix => matrix
  | inl _ => mkPayoffMatrix [] [] [] 0 0 0
  end.

Lemma payoff_matrix_exact_witness :
  pm_asset_ids demo_matrix = ["token-a"; "token-b"; "token-c"; "token-d"; "token-e"]%string ∧
  pe_payout_tick <$> take 5 (pm_entries demo_matrix) = [1000000; 0; 0; 0; 0] ∧
  StronglySorted String.le (pm_asset_ids demo_matrix).
Proof.
  split; [vm_compute; reflexivity|]. split; [vm_compute; reflexivity|].
  assert (E : build_payoff_matrix (cc_variables (cr_compiled (compile demo_rulebook demo_variables))) demo_states = inr demo_matrix)
    by (vm_compute; reflexivity).
  assert (Hlen : Z.of_nat (length (cc_variables (cr_compiled (compile demo_rulebook demo_variables)))) <= u32_mod) by (vm_compute; discriminate).
  destruct (payoff_matrix_exact _ _ _ E Hlen) as (H & _). exact H.
Defined.
