(* ===== verification/OrderedMap.v ===== *)
(** * OrderedMap: [std::map] as a sorted association list

    The sides of an order book are [std::map]s keyed by a price, one of them
    under [std::greater].  A map is a list sorted by the comparison object, which
    is a boolean function; two keys are the same key when neither is below the
    other.  The class [KeyOrder] states what a comparison must satisfy, and on
    which keys: the comparison of doubles is no order on NaNs. *)

From S2P Require Import Prelude Doubles.

Class KeyOrder {K} (ltb : K → K → bool) (ok : K → Prop) := {
  key_irrefl x : ltb x x = false;
  key_trans x y z : ltb x y = true → ltb y z = true → ltb x z = true;
  key_cotrans x y z : ok y → ltb x z = true → ltb x y = true ∨ ltb y z = true
}.

Section ordered_map.
Context {K A : Type} (ltb : K → K → bool).
Implicit Types (m : list (K * A)) (k : K) (v : A).

(** [std::map::operator[]] followed by an assignment: an equivalent key keeps
    its representation and gets the new value. *)
Fixpoint om_set k v m : list (K * A) :=
  match m with
  | [] => [(k, v)]
  | (k', v') :: m' =>
      if ltb k k' then (k, v) :: m
      else if ltb k' k then (k', v') :: om_set k v m'
      else (k', v) :: m'
  end.

(** [std::map::erase] of a key. *)
Fixpoint om_erase k m : list (K * A) :=
  match m with
  | [] => []
  | (k', v') :: m' =>
      if ltb k k' then m
      else if ltb k' k then (k', v') :: om_erase k m'
      else m'
  end.

(** [std::map::find]. *)
Fixpoint om_find k m : option A :=
  match m with
  | [] => None
  | (k', v') :: m' =>
      if ltb k k' then None
      else if ltb k' k then om_find k m'
      else Some v'
  end.

(** Two keys address the same entry. *)
Definition same_key k1 k2 : bool := negb (ltb k1 k2) && negb (ltb k2 k1).

Definition om_sorted m : Prop := StronglySorted (λ a b, ltb a.1 b.1 = true) m.

Context {ok : K → Prop} `{!KeyOrder ltb ok}.

Lemma ltb_irrefl k : ltb k k = false.
Proof. apply key_irrefl. Qed.

Lemma same_key_refl k : same_key k k = true.
Proof. unfold same_key. by rewrite ltb_irrefl. Qed.

Lemma key_asym x y : ltb x y = true → ltb y x = false.
Proof.
  intros H. destruct (ltb y x) eqn:E; [|done].
  pose proof (key_trans _ _ _ H E) as Hxx. by rewrite ltb_irrefl in Hxx.
Qed.

Lemma same_key_sym x y : same_key x y = same_key y x.
Proof. unfold same_key. apply andb_comm. Qed.

(** Equivalent keys compare alike. *)
Lemma same_key_ltb_l x y z : ok x → ok y → same_key x y = true → ltb x z = ltb y z.
Proof.
  unfold same_key. intros Hx Hy H. breflect. destruct (ltb x z) eqn:E1, (ltb y z) eqn:E2; try done.
  - destruct (key_cotrans x y z Hy E1); congruence.
  - destruct (key_cotrans y x z Hx E2); congruence.
Qed.

Lemma same_key_ltb_r x y z : ok x → ok y → same_key x y = true → ltb z x = ltb z y.
Proof.
  unfold same_key. intros Hx Hy H. breflect. destruct (ltb z x) eqn:E1, (ltb z y) eqn:E2; try done.
  - destruct (key_cotrans z y x Hy E1); congruence.
  - destruct (key_cotrans z x y Hx E2); congruence.
Qed.

Lemma ltb_same_key x y : ltb x y = true → same_key x y = false.
Proof. unfold same_key. by intros ->. Qed.
Lemma gtb_same_key x y : ltb y x = true → same_key x y = false.
Proof. unfold same_key. intros ->. by destruct (ltb x y). Qed.

(** Every key below the head of a sorted map is absent. *)
Lemma om_find_below k m :
  (∀ kv, kv ∈ m → ltb k kv.1 = true) → om_find k m = None.
Proof. destruct m as [|[k' v'] m]; cbn; [done|]. intros H. assert (Hk : ltb k k' = true) by (apply (H (k', v')); left). by rewrite Hk. Qed.

Lemma om_sorted_cons k v m : om_sorted ((k, v) :: m) ↔ om_sorted m ∧ ∀ kv, kv ∈ m → ltb k kv.1 = true.
Proof.
  split; [intros [Hs Hf]%StronglySorted_inv|intros [Hs Hf]; constructor; [done|]];
    [split; [done|]|]; by rewrite ?Forall_forall in *.
Qed.

(** What holds of every entry still holds after an assignment. *)
Lemma om_set_Forall (P : K → Prop) (Q : A → Prop) k v m :
  P k → Q v → Forall (λ kv, P kv.1 ∧ Q kv.2) m → Forall (λ kv, P kv.1 ∧ Q kv.2) (om_set k v m).
Proof.
  intros HP HQ. induction 1 as [|[k' v'] m [??] Hm IH]; cbn; [by repeat constructor|].
  repeat case_match; by repeat constructor.
Qed.

Lemma om_erase_sublist k m : sublist (om_erase k m) m.
Proof. induction m as [|[k' v'] m IH]; cbn; [done|]. repeat case_match; by constructor. Qed.

Lemma om_erase_Forall (P : K * A → Prop) k m : Forall P m → Forall P (om_erase k m).
Proof.
  rewrite !Forall_forall. intros H kv Hkv. apply H. by eapply elem_of_sublist; [|apply om_erase_sublist].
Qed.

Lemma om_set_sorted k v m : om_sorted m → om_sorted (om_set k v m).
Proof.
  induction m as [|[k' v'] m IH]; cbn; [intros _; repeat constructor|].
  intros [Hs Hf]%om_sorted_cons. destruct (ltb k k') eqn:E1; [|destruct (ltb k' k) eqn:E2].
  - apply om_sorted_cons. split; [by apply om_sorted_cons|].
    intros kv [->|Hkv]%elem_of_cons; [done|]. eapply key_trans; eauto.
  - apply om_sorted_cons. split; [auto|]. apply Forall_forall.
    eapply Forall_impl; [apply (om_set_Forall (λ x, ltb k' x = true) (λ _, True)); [done..|]|by intros kv [? _]].
    apply Forall_forall. auto.
  - apply om_sorted_cons. auto.
Qed.

Lemma om_erase_sorted k m : om_sorted m → om_sorted (om_erase k m).
Proof.
  induction m as [|[k' v'] m IH]; cbn; [done|]. intros [Hs Hf]%om_sorted_cons.
  repeat case_match; [by apply om_sorted_cons| |done].
  apply om_sorted_cons. split; [auto|].
  apply Forall_forall, om_erase_Forall, Forall_forall. auto.
Qed.

(** ** Lookup after an update *)

Lemma om_find_set k1 k2 v m :
  ok k1 → ok k2 → Forall (ok ∘ fst) m → om_sorted m →
  om_find k1 (om_set k2 v m) = if same_key k1 k2 then Some v else om_find k1 m.
Proof.
  intros H1 H2 Hm Hs. induction m as [|[k' v'] m IH]; cbn.
  - unfold same_key. by destruct (ltb k1 k2), (ltb k2 k1).
  - apply Forall_cons in Hm as [Hk' Hm]. cbn in Hk'. apply om_sorted_cons in Hs as [Hs Hf].
    specialize (IH Hm Hs). destruct (ltb k2 k') eqn:E1; [|destruct (ltb k' k2) eqn:E2]; cbn.
    + destruct (ltb k1 k2) eqn:E3; [|destruct (ltb k2 k1) eqn:E4].
      * rewrite (ltb_same_key _ _ E3), (key_trans _ _ _ E3 E1). done.
      * by rewrite (gtb_same_key _ _ E4).
      * unfold same_key. by rewrite E3, E4.
    + destruct (ltb k1 k') eqn:E3; [|destruct (ltb k' k1) eqn:E4; [done|]].
      * by rewrite (ltb_same_key _ _ (key_trans _ _ _ E3 E2)).
      * assert (same_key k1 k' = true) as Hsk by (unfold same_key; by rewrite E3, E4).
        rewrite <- (same_key_ltb_l k1 k' k2) in E2 by done. by rewrite (ltb_same_key _ _ E2).
    + assert (same_key k2 k' = true) as Hsk by (unfold same_key; by rewrite E1, E2).
      unfold same_key. rewrite (same_key_ltb_r k2 k' k1), (same_key_ltb_l k2 k' k1) by done.
      by destruct (ltb k1 k'), (ltb k' k1).
Qed.

Lemma om_find_erase k1 k2 m :
  ok k1 → ok k2 → Forall (ok ∘ fst) m → om_sorted m →
  om_find k1 (om_erase k2 m) = if same_key k1 k2 then None else om_find k1 m.
Proof.
  intros H1 H2 Hm Hs. induction m as [|[k' v'] m IH]; cbn; [by case_match|].
  apply Forall_cons in Hm as [Hk' Hm]. cbn in Hk'. apply om_sorted_cons in Hs as [Hs Hf].
  specialize (IH Hm Hs). destruct (ltb k2 k') eqn:E1; [|destruct (ltb k' k2) eqn:E2]; cbn.
  - destruct (same_key k1 k2) eqn:Hsk; [|done].
    by rewrite (same_key_ltb_l k1 k2 k'), E1.
  - destruct (ltb k1 k') eqn:E3; [|destruct (ltb k' k1) eqn:E4; [done|]].
    + by rewrite (ltb_same_key _ _ (key_trans _ _ _ E3 E2)).
    + assert (same_key k1 k' = true) as Hsk by (unfold same_key; by rewrite E3, E4).
      rewrite <- (same_key_ltb_l k1 k' k2) in E2 by done. by rewrite (ltb_same_key _ _ E2).
  - assert (same_key k2 k' = true) as Hsk by (unfold same_key; by rewrite E1, E2).
    unfold same_key. rewrite (same_key_ltb_r k2 k' k1), (same_key_ltb_l k2 k' k1) by done.
    destruct (ltb k1 k') eqn:E3; [|destruct (ltb k' k1) eqn:E4]; cbn; [|done|].
    + apply om_find_below. intros kv Hkv. eapply key_trans; eauto.
    + apply om_find_below. intros kv Hkv.
      assert (same_key k1 k' = true) as Hsk' by (unfold same_key; by rewrite E3, E4).
      rewrite (same_key_ltb_l k1 k') by done. auto.
Qed.

(** The first entry of a sorted map is the least key. *)
Lemma om_head_least k v m k' v' :
  om_sorted ((k, v) :: m) → (k', v') ∈ (k, v) :: m → ltb k' k = false.
Proof.
  intros [Hs Hf]%om_sorted_cons [[= -> ->]|Hin]%elem_of_cons; [apply key_irrefl|].
  apply key_asym. by apply (Hf (k', v')).
Qed.

(** A lookup finds an entry of the map under an equivalent key. *)
Lemma om_find_Some k v m :
  ok k → Forall (ok ∘ fst) m → om_sorted m →
  om_find k m = Some v ↔ ∃ k', same_key k k' = true ∧ (k', v) ∈ m.
Proof.
  intros Hk Hm Hs. induction m as [|[k' v'] m IH]; cbn; [set_solver|].
  apply Forall_cons in Hm as [Hk' Hm]. cbn in Hk'. apply om_sorted_cons in Hs as [Hs Hf].
  setoid_rewrite elem_of_cons. destruct (ltb k k') eqn:E1; [|destruct (ltb k' k) eqn:E2].
  - split; [done|]. intros (k2 & Hsk & [[= -> ->]|Hin]).
    + by rewrite (ltb_same_key _ _ E1) in Hsk.
    + rewrite (ltb_same_key k k2) in Hsk; [done|]. apply (key_trans _ k'); [done|]. by apply (Hf (k2, v)).
  - rewrite IH by done. split; [naive_solver|].
    intros (k2 & Hsk & [[= -> ->]|Hin]); [|by eauto]. by rewrite (gtb_same_key _ _ E2) in Hsk.
  - split.
    + intros [= ->]. exists k'. unfold same_key. rewrite E1, E2. auto.
    + intros (k2 & Hsk & [[= _ ->]|Hin]); [done|]. exfalso.
      assert (same_key k k' = true) as Hsk' by (unfold same_key; by rewrite E1, E2).
      pose proof (Hf _ Hin) as Hlt. cbn in Hlt. rewrite <- (same_key_ltb_l k k') in Hlt by done.
      by rewrite (ltb_same_key _ _ Hlt) in Hsk.
Qed.
End ordered_map.

(** ** The orders of the books *)

(** Every double but a NaN. *)
Definition not_nan (x : double) : Prop := match x with S754_nan => False | _ => True end.

Ltac sf_cases :=
  unfold SFltb, SFcompare in *;
  repeat match goal with x : spec_float |- _ => destruct x as [[]|[]| |[]] end;
  cbn in *; try done.

Lemma SFltb_finite s m1 e1 m2 e2 :
  SFltb (S754_finite s m1 e1) (S754_finite s m2 e2) = true ↔
  if s then e2 < e1 ∨ e1 = e2 ∧ Z.pos m2 < Z.pos m1 else e1 < e2 ∨ e1 = e2 ∧ Z.pos m1 < Z.pos m2.
Proof.
  unfold SFltb, SFcompare. change (Pos.compare_cont Eq m1 m2) with (Pos.compare m1 m2).
  destruct s, (Z.compare_spec e1 e2), (Pos.compare_spec m1 m2); cbn; intuition (try done; lia).
Qed.

#[export] Instance SFltb_order : KeyOrder SFltb not_nan.
Proof.
  split.
  - intros [[]|[]| |s m e]; try done. destruct (SFltb _ _) eqn:E; [|done].
    apply SFltb_finite in E. destruct s; lia.
  - intros x y z. destruct x as [[]|[]| |[] mx ex], y as [[]|[]| |[] my ey], z as [[]|[]| |[] mz ez];
      try done; rewrite !SFltb_finite; lia.
  - intros x y z. destruct x as [[]|[]| |[] mx ex], y as [[]|[]| |[] my ey], z as [[]|[]| |[] mz ez];
      try done; try (by auto); rewrite !SFltb_finite; lia.
Qed.

(** [std::greater]. *)
Definition SFgtb (x y : double) : bool := SFltb y x.

#[export] Instance SFgtb_order : KeyOrder SFgtb not_nan.
Proof.
  split; unfold SFgtb.
  - apply key_irrefl.
  - intros x y z Hxy Hyz. by apply (key_trans z y x).
  - intros x y z Hy Hxz. destruct (key_cotrans z y x Hy Hxz); auto.
Qed.

Lemma same_key_gtb x y : same_key SFgtb x y = same_key SFltb x y.
Proof. unfold same_key, SFgtb. apply andb_comm. Qed.
