(* ===== verification/EntityStore.v ===== *)
(** * EntityStore: the order books kept from the feed

    [engine/state/EntityStateStore.cpp] applies normalized events to one entity
    per asset: snapshots replace a book, deltas change levels, lifecycle events
    close it.  Each handler is a function from the store and the event to the
    result it returns and the new store; a result carries full hashes in the
    replay modes, read through a cache ([engine/state/hash], [StateHasher.cpp]).
    The clock readings of [make_result] are not modelled. *)

From S2P Require Import Prelude Hashing Doubles Depth OrderedMap.

(** ** Data *)

(** [engine/state/EntityStateStore.h:29-76] EntityStatus. *)
Inductive EntityStatus := EsUninitialized | EsLive | EsRecovering | EsInconsistent | EsStale | EsClosed.
#[export] Instance EntityStatus_eq_dec : EqDecision EntityStatus.
Proof. solve_decision. Defined.

Definition entity_status_code (s : EntityStatus) : Z :=
  match s with
  | EsUninitialized => 0 | EsLive => 1 | EsRecovering => 2
  | EsInconsistent => 3 | EsStale => 4 | EsClosed => 5
  end.

(** [engine/state/EntityStateStore.h:81-120] StateApplyCode. *)
Inductive StateApplyCode :=
| ScApplied | ScIgnoredHeartbeat | ScIgnoredUnknown | ScIgnoredTrade | ScMissingEntityId
| ScDeltaBeforeSnapshot | ScClosedEntityIgnored | ScUnknownSide | ScInvalidValue | ScNoop.
#[export] Instance StateApplyCode_eq_dec : EqDecision StateApplyCode.
Proof. solve_decision. Defined.

(** [engine/state/core/StateMutationFlags.h:7-16] StateMutationKind. *)
Inductive StateMutationKind :=
| MkNone | MkBookSnapshot | MkBookDelta | MkChainFill | MkChainRemovedFill | MkLifecycle | MkQuality | MkHeartbeat.
#[export] Instance StateMutationKind_eq_dec : EqDecision StateMutationKind.
Proof. solve_decision. Defined.

(** [engine/state/core/StateMutationFlags.h:18-29] StateMutationFlags. *)
Record StateMutationFlags := mkStateMutationFlags {
  mf_state_changed : bool;
  mf_book_changed : bool;
  mf_chain_changed : bool;
  mf_quality_changed : bool;
  mf_lifecycle_changed : bool;
  mf_heartbeat_seen : bool;
  mf_publish_required : bool;
  mf_kind : StateMutationKind
}.
Definition no_mutation : StateMutationFlags :=
  mkStateMutationFlags false false false false false false false MkNone.

(** [engine/state/core/StateHashPolicy.h:7-11] StateHashMode. *)
Inductive StateHashMode := HotPathLight | ReplayFull | DebugVerify.
#[export] Instance StateHashMode_eq_dec : EqDecision StateHashMode.
Proof. solve_decision. Defined.

(** [engine/decode/public/NormalizedEvent.h:17-26] NormalizedEventType. *)
Inductive NormalizedEventType :=
| NeUnknown | NeSnapshot | NeDelta | NeStatusChange | NeLifecycleEvent | NeTradeEvent | NeHeartbeat | NeDecodeError.
#[export] Instance NormalizedEventType_eq_dec : EqDecision NormalizedEventType.
Proof. solve_decision. Defined.

(** [engine/decode/public/NormalizedEvent.h:31-35] NormalizedSide. *)
Inductive NormalizedSide := NsUnknown | NsBid | NsAsk.
#[export] Instance NormalizedSide_eq_dec : EqDecision NormalizedSide.
Proof. solve_decision. Defined.

(** [engine/decode/public/NormalizedEvent.h:40-43] BookLevel: a price and a size. *)
Record BookLevel := mkBookLevel { bl_price : double; bl_size : double }.

(** [engine/decode/public/NormalizedEvent.h:48-52] PriceLevelChange. *)
Record PriceLevelChange := mkPriceLevelChange {
  plc_side : NormalizedSide;
  plc_price : double;
  plc_size : double
}.

(** [engine/decode/public/NormalizedEvent.h:57-89] NormalizedEvent. The wall clock, the source and the
    warnings are not read by the state. *)
Record NormalizedEvent := mkNormalizedEvent {
  ne_packet_id : Z;
  ne_recv_monotonic_ns : Z;
  ne_event_type : NormalizedEventType;
  ne_raw_type : string;
  ne_entity_id : string;
  ne_asset_id : string;
  ne_market_id : string;
  ne_condition_id : string;
  ne_bids : list BookLevel;
  ne_asks : list BookLevel;
  ne_changes : list PriceLevelChange;
  ne_best_bid : option double;
  ne_best_ask : option double;
  ne_tick_size : option double;
  ne_winning_asset_id : string
}.
Definition event0 : NormalizedEvent :=
  mkNormalizedEvent 0 0 NeUnknown "" "" "" "" "" [] [] [] None None None "".

(** One side of a book: prices with their sizes, best first. *)
Abbreviation Side := (list (double * double)).

(** [engine/state/EntityStateStore.h:236-282] OrderBookState. *)
Record OrderBookState := mkOrderBookState {
  ob_bids : Side;
  ob_asks : Side;
  ob_best_bid : option double;
  ob_best_ask : option double;
  ob_external_best_bid : option double;
  ob_external_best_ask : option double;
  ob_tick_size : option double;
  ob_crossed : bool;
  ob_external_bbo_diverged : bool;
  ob_resolved : bool;
  ob_winning_asset_id : string
}.
Definition book0 : OrderBookState :=
  mkOrderBookState [] [] None None None None None false false false "".

(** [engine/state/EntityStateStore.h:287-317] EntityState. *)
Record EntityState := mkEntityState {
  en_entity_id : string;
  en_market_id : string;
  en_status : EntityStatus;
  en_initialized : bool;
  en_recovering : bool;
  en_inconsistent : bool;
  en_closed : bool;
  en_snapshot_count : Z;
  en_delta_count : Z;
  en_status_change_count : Z;
  en_lifecycle_count : Z;
  en_ignored_count : Z;
  en_error_count : Z;
  en_first_packet_id : Z;
  en_last_packet_id : Z;
  en_last_snapshot_packet_id : Z;
  en_last_update_monotonic_ns : Z;
  en_book : OrderBookState
}.
Definition entity0 : EntityState :=
  mkEntityState "" "" EsUninitialized false false false false 0 0 0 0 0 0 0 0 0 0 book0.

(** [engine/state/hash/StateHashCache.h:11-17] EntityHashCacheEntry. *)
Record EntityHashCacheEntry := mkEntityHashCacheEntry {
  hc_entity_hash : Z;
  hc_book_version : Z;
  hc_chain_version : Z;
  hc_quality_version : Z;
  hc_dirty : bool
}.
Definition cache_entry0 : EntityHashCacheEntry := mkEntityHashCacheEntry 0 0 0 0 true.

(** [engine/state/hash/StateHashCache.h:24-45] StateHashCache. The access statistics are part of it. *)
Record StateHashCache := mkStateHashCache {
  hc_entity_hashes : gmap string EntityHashCacheEntry;
  hc_global_hash : Z;
  hc_global_dirty : bool;
  hc_hits : Z;
  hc_misses : Z
}.
Definition cache0 : StateHashCache := mkStateHashCache ∅ 0 true 0 0.

(** [engine/state/EntityStateStore.h:449-467] EntityStateStore. *)
Record EntityStateStore := mkEntityStateStore {
  es_entities : gmap string EntityState;
  es_events_seen : Z;
  es_snapshots_applied : Z;
  es_deltas_applied : Z;
  es_status_changes_applied : Z;
  es_lifecycle_events_applied : Z;
  es_heartbeats_ignored : Z;
  es_unknown_events_ignored : Z;
  es_errors : Z;
  es_hash_mode : StateHashMode;
  es_hash_cache : StateHashCache
}.
Definition store0 (mode : StateHashMode) : EntityStateStore :=
  mkEntityStateStore ∅ 0 0 0 0 0 0 0 0 mode cache0.

(** [engine/state/EntityStateStore.h:125-228] StateApplyResult. Less the timings. *)
Record StateApplyResult := mkStateApplyResult {
  sr_code : StateApplyCode;
  sr_entity_id : string;
  sr_message : string;
  sr_state_changed : bool;
  sr_mutation : StateMutationFlags;
  sr_book_version : Z;
  sr_chain_version : Z;
  sr_quality_version : Z;
  sr_snapshot_version_hash : Z;
  sr_entity_hash : Z;
  sr_global_hash : Z;
  sr_cheap_fingerprint : Z;
  sr_full_hash_computed : bool;
  sr_hash_cache_hits : Z;
  sr_hash_cache_misses : Z;
  sr_snapshot_published : bool
}.
Definition result0 : StateApplyResult :=
  mkStateApplyResult ScNoop "" "" false no_mutation 0 0 0 0 0 0 0 false 0 0 false.

(** [++counter] on [std::uint64_t]. *)
Definition incr (z : Z) : Z := wrap_u64 (z + 1).

(** ** The deterministic hash ([engine/state/StateHasher.cpp]) *)

(** [engine/state/StateHasher.cpp:62-68] hash_string. *)
Definition hash_sized_string (h : Z) (value : string) : Z :=
  mix_string (mix_u64 h (Z.of_nat (String.length value))) value.

(** [engine/state/StateHasher.cpp:78-93] hash_double. *)
Definition hash_double (h : Z) (value : double) : Z :=
  mix_u64 h (bits_of_double (if SFeqb value d0_0 then d0_0 else value)).

(** [engine/state/StateHasher.cpp:98-107] hash_optional_double. *)
Definition hash_optional_double (h : Z) (value : option double) : Z :=
  match value with
  | None => mix_bool h false
  | Some v => hash_double (mix_bool h true) v
  end.

(** [engine/state/StateHasher.cpp:117-125] hash_price_levels. *)
Definition hash_price_levels (h : Z) (levels : Side) : Z :=
  foldl (λ h l, hash_double (hash_double h l.1) l.2) (mix_u64 h (Z.of_nat (length levels))) levels.

(** [engine/state/StateHasher.cpp:129-181] StateHasher::hash_order_book. *)
Definition hash_order_book (book : OrderBookState) : Z :=
  let h := hash_optional_double fnv_offset (ob_best_bid book) in
  let h := hash_optional_double h (ob_best_ask book) in
  let h := hash_optional_double h (ob_external_best_bid book) in
  let h := hash_optional_double h (ob_external_best_ask book) in
  let h := hash_optional_double h (ob_tick_size book) in
  let h := mix_bool h (ob_crossed book) in
  let h := mix_bool h (ob_external_bbo_diverged book) in
  let h := mix_bool h (ob_resolved book) in
  let h := hash_sized_string h (ob_winning_asset_id book) in
  let h := hash_price_levels h (ob_bids book) in
  hash_price_levels h (ob_asks book).

(** [engine/state/StateHasher.cpp:183-232] StateHasher::hash_entity.  The call that would hash the
    entity id stands inside a comment that was not closed. *)
Definition hash_entity (entity : EntityState) : Z :=
  let h := mix_u32 fnv_offset (entity_status_code (en_status entity)) in
  let h := mix_bool h (en_initialized entity) in
  let h := mix_bool h (en_recovering entity) in
  let h := mix_bool h (en_inconsistent entity) in
  let h := mix_bool h (en_closed entity) in
  let h := mix_u64 h (en_snapshot_count entity) in
  let h := mix_u64 h (en_delta_count entity) in
  let h := mix_u64 h (en_status_change_count entity) in
  let h := mix_u64 h (en_lifecycle_count entity) in
  let h := mix_u64 h (en_ignored_count entity) in
  let h := mix_u64 h (en_error_count entity) in
  mix_u64 h (hash_order_book (en_book entity)).

(** The order of the keys of a [std::map] of strings. *)
Definition entity_le (a b : string * EntityState) : Prop := String.leb a.1 b.1 = true.
#[export] Instance entity_le_dec a b : Decision (entity_le a b).
Proof. unfold entity_le. apply _. Defined.

(** [engine/state/StateHasher.cpp:234-247] StateHasher::hash_entity_map. The entities in the order of
    their ids. *)
Definition hash_entity_map (entities : gmap string EntityState) : Z :=
  foldl (λ h kv, mix_u64 (hash_sized_string h kv.1) (hash_entity kv.2))
    (mix_u64 fnv_offset (Z.of_nat (size entities)))
    (merge_sort entity_le (map_to_list entities)).

(** ** The hash cache ([engine/state/hash/StateHashCache.cpp]) *)

(** [engine/state/hash/StateHashCache.cpp:8-16] StateHashCache::mark_dirty. *)
Definition mark_dirty (entity_id : string) (c : StateHashCache) : StateHashCache :=
  let c := (c <| hc_global_dirty := true |>) in
  if String.eqb entity_id "" then c
  else
    let entry := default cache_entry0 (hc_entity_hashes c !! entity_id) in
    (c <| hc_entity_hashes := <[entity_id := (entry <| hc_dirty := true |>)]> (hc_entity_hashes c) |>).

(** [engine/state/hash/StateHashCache.cpp:25-29] StateHashCache::take_access_stats: hits and misses since
    the last call. *)
Definition take_access_stats (c : StateHashCache) : (Z * Z) * StateHashCache :=
  ((hc_hits c, hc_misses c), (c <| hc_hits := 0 |> <| hc_misses := 0 |>)).

(** [engine/state/hash/StateHashCache.cpp:31-56] StateHashCache::entity_hash. *)
Definition cached_entity_hash (entity_id : string) (entities : gmap string EntityState) (c : StateHashCache) :
    Z * StateHashCache :=
  match entities !! entity_id with
  | None =>
      (0, (c <| hc_entity_hashes := delete entity_id (hc_entity_hashes c) |>
             <| hc_misses := incr (hc_misses c) |>))
  | Some entity =>
      let miss :=
        let h := hash_entity entity in
        (h, (c <| hc_entity_hashes :=
                    <[entity_id := mkEntityHashCacheEntry h (en_last_packet_id entity) 0 0 false]> (hc_entity_hashes c) |>
               <| hc_misses := incr (hc_misses c) |>)) in
      match hc_entity_hashes c !! entity_id with
      | Some existing =>
          if hc_dirty existing then miss
          else (hc_entity_hash existing, (c <| hc_hits := incr (hc_hits c) |>))
      | None => miss
      end
  end.

(** [engine/state/hash/StateHashCache.cpp:58-70] StateHashCache::global_hash. *)
Definition cached_global_hash (entities : gmap string EntityState) (c : StateHashCache) : Z * StateHashCache :=
  if hc_global_dirty c then
    let h := hash_entity_map entities in
    (h, (c <| hc_misses := incr (hc_misses c) |> <| hc_global_hash := h |> <| hc_global_dirty := false |>))
  else (hc_global_hash c, (c <| hc_hits := incr (hc_hits c) |>)).

(** ** Reading the store *)

(** [engine/state/EntityStateStore.cpp:258-268] EntityStateStore::get. *)
Definition store_get (s : EntityStateStore) (entity_id : string) : option EntityState :=
  es_entities s !! entity_id.

(** [engine/state/EntityStateStore.cpp:270-280] EntityStateStore::status. *)
Definition store_status (s : EntityStateStore) (entity_id : string) : EntityStatus :=
  from_option en_status EsUninitialized (store_get s entity_id).

(** [engine/state/EntityStateStore.cpp:293-297] EntityStateStore::state_hash; the cache is mutable. *)
Definition state_hash (s : EntityStateStore) (entity_id : string) : Z * EntityStateStore :=
  let '(h, c) := cached_entity_hash entity_id (es_entities s) (es_hash_cache s) in
  (h, (s <| es_hash_cache := c |>)).

(** [engine/state/EntityStateStore.cpp:299-301] EntityStateStore::global_hash. *)
Definition global_hash (s : EntityStateStore) : Z * EntityStateStore :=
  let '(h, c) := cached_global_hash (es_entities s) (es_hash_cache s) in
  (h, (s <| es_hash_cache := c |>)).

(** [engine/state/EntityStateStore.cpp:303-308] EntityStateStore::debug_recomputed_state_hash. *)
Definition debug_recomputed_state_hash (s : EntityStateStore) (entity_id : string) : Z :=
  from_option hash_entity 0 (store_get s entity_id).

(** [engine/state/EntityStateStore.cpp:310-312] EntityStateStore::debug_recomputed_global_hash. *)
Definition debug_recomputed_global_hash (s : EntityStateStore) : Z := hash_entity_map (es_entities s).

(** ** Results *)

Definition flag (b : bool) (bit : Z) : Z := if b then Z.shiftl 1 bit else 0.

(** [engine/state/EntityStateStore.cpp:62-76] status_flags_for. *)
Definition status_flags_for (entity : option EntityState) : Z :=
  match entity with
  | None => 0
  | Some e =>
      Z.lor (Z.lor (Z.lor (Z.lor (Z.lor (Z.lor
        (Z.land (entity_status_code (en_status e)) 255)
        (flag (en_initialized e) 8)) (flag (en_recovering e) 9)) (flag (en_inconsistent e) 10))
        (flag (en_closed e) 11)) (flag (ob_crossed (en_book e)) 12)) (flag (ob_resolved (en_book e)) 13)
  end.

(** [engine/state/EntityStateStore.cpp:78-96] cheap_snapshot_fingerprint. *)
Definition cheap_snapshot_fingerprint (entity_id : string)
    (book_version chain_version quality_version last_ws_packet_id last_chain_block status_flags : Z) : Z :=
  let h := hash_sized_string fnv_offset entity_id in
  let h := mix_u64 h book_version in
  let h := mix_u64 h chain_version in
  let h := mix_u64 h quality_version in
  let h := mix_u64 h last_ws_packet_id in
  let h := mix_u64 h last_chain_block in
  mix_u64 h status_flags.

(** [engine/state/EntityStateStore.cpp:98-105] mutation_kind_for. *)
Definition mutation_kind_for (code : StateApplyCode) : StateMutationKind :=
  match code with ScIgnoredHeartbeat => MkHeartbeat | _ => MkNone end.

(** [engine/state/EntityStateStore.cpp:192-209] StateApplyResult::ok. *)
Definition result_ok (code : StateApplyCode) : bool :=
  match code with
  | ScApplied | ScIgnoredHeartbeat | ScIgnoredUnknown | ScIgnoredTrade | ScClosedEntityIgnored | ScNoop => true
  | ScMissingEntityId | ScDeltaBeforeSnapshot | ScUnknownSide | ScInvalidValue => false
  end.

(** [engine/state/EntityStateStore.cpp:849-918] make_result. The full hashes are read, through the cache,
    when the state changed and the mode is not the light one. *)
Definition make_result (code : StateApplyCode) (entity_id message : string) (state_changed : bool)
    (s : EntityStateStore) : StateApplyResult * EntityStateStore :=
  let entity := if String.eqb entity_id "" then None else store_get s entity_id in
  let book_version := from_option en_last_packet_id 0 entity in
  let fingerprint :=
    cheap_snapshot_fingerprint entity_id book_version 0 0 book_version 0 (status_flags_for entity) in
  let r :=
    (result0 <| sr_code := code |> <| sr_entity_id := entity_id |> <| sr_message := message |>
             <| sr_state_changed := state_changed |>
             <| sr_mutation := (no_mutation <| mf_state_changed := state_changed |>
                                  <| mf_heartbeat_seen := bool_decide (code = ScIgnoredHeartbeat) |>
                                  <| mf_kind := mutation_kind_for code |>) |>
             <| sr_book_version := book_version |>
             <| sr_snapshot_version_hash := fingerprint |> <| sr_cheap_fingerprint := fingerprint |>) in
  let s :=
    if state_changed && negb (String.eqb entity_id "")
    then (s <| es_hash_cache := mark_dirty entity_id (es_hash_cache s) |>) else s in
  if negb state_changed || bool_decide (es_hash_mode s = HotPathLight) then (r, s)
  else
    let s := (s <| es_hash_cache := (take_access_stats (es_hash_cache s)).2 |>) in
    let '(eh, s) := if String.eqb entity_id "" then (0, s) else state_hash s entity_id in
    let '(gh, s) := global_hash s in
    let '((hits, misses), cache) := take_access_stats (es_hash_cache s) in
    ((r <| sr_entity_hash := eh |> <| sr_global_hash := gh |> <| sr_full_hash_computed := true |>
        <| sr_hash_cache_hits := hits |> <| sr_hash_cache_misses := misses |>),
     (s <| es_hash_cache := cache |>)).

Definition mark_result (book lifecycle : bool) (kind : StateMutationKind) (r : StateApplyResult) : StateApplyResult :=
  let changed := sr_state_changed r in
  (r <| sr_mutation := ((sr_mutation r) <| mf_state_changed := changed |>
          <| mf_book_changed := if book then changed else mf_book_changed (sr_mutation r) |>
          <| mf_lifecycle_changed := if lifecycle then changed else mf_lifecycle_changed (sr_mutation r) |>
          <| mf_publish_required := changed |>
          <| mf_kind := if changed then kind else MkNone |>) |>).

(** [engine/state/EntityStateStore.cpp:152-160] mark_book_snapshot. *)
Definition mark_book_snapshot : StateApplyResult → StateApplyResult := mark_result true false MkBookSnapshot.
(** [engine/state/EntityStateStore.cpp:162-170] mark_book_delta. *)
Definition mark_book_delta : StateApplyResult → StateApplyResult := mark_result true false MkBookDelta.
(** [engine/state/EntityStateStore.cpp:172-180] mark_lifecycle. *)
Definition mark_lifecycle : StateApplyResult → StateApplyResult := mark_result false true MkLifecycle.

Definition marked (mark : StateApplyResult → StateApplyResult) (rs : StateApplyResult * EntityStateStore) :
  StateApplyResult * EntityStateStore := (mark rs.1, rs.2).

(** ** Updating a book *)

Definition d1e_12 : double := S754_finite false 4951760157141521 (-92).

(** [engine/state/EntityStateStore.cpp:112-114] valid_price. *)
Definition valid_price (price : double) : bool := isfinite price && SFleb d0_0 price && SFleb price d1_0.

(** [engine/state/EntityStateStore.cpp:119-121] valid_size. *)
Definition valid_size (size : double) : bool := isfinite size && SFleb d0_0 size.

(** [engine/state/EntityStateStore.cpp:126-128] valid_tick_size. *)
Definition valid_tick_size (tick_size : double) : bool := isfinite tick_size && SFltb d0_0 tick_size.

(** [engine/state/EntityStateStore.cpp:133-135] almost_equal. *)
Definition almost_equal (a b : double) : bool := SFleb (SFabs (double_sub a b)) d1e_12.

(** [engine/state/EntityStateStore.cpp:140-148] apply_level. *)
Definition apply_level (ltb : double → double → bool) (side : Side) (price size : double) : Side :=
  if SFeqb size d0_0 then om_erase ltb price side else om_set ltb price size side.

(** [engine/state/EntityStateStore.cpp:379-388] apply_snapshot, the loop over one side: the side it fills,
    and whether a level was invalid. *)
Definition load_level (ltb : double → double → bool) (acc : Side * bool) (level : BookLevel) : Side * bool :=
  let '(side, invalid) := acc in
  if negb (valid_price (bl_price level)) || negb (valid_size (bl_size level)) then (side, true)
  else (if SFltb d0_0 (bl_size level) then om_set ltb (bl_price level) (bl_size level) side else side, invalid).

Definition load_side (ltb : double → double → bool) (levels : list BookLevel) : Side * bool :=
  foldl (load_level ltb) ([], false) levels.

(** [engine/state/EntityStateStore.cpp:814-831] update_best_bid_ask. *)
Definition update_best_bid_ask (book : OrderBookState) : OrderBookState :=
  let best_bid := fst <$> head (ob_bids book) in
  let best_ask := fst <$> head (ob_asks book) in
  let crossed := match best_bid, best_ask with Some b, Some a => SFltb a b | _, _ => false end in
  (book <| ob_best_bid := best_bid |> <| ob_best_ask := best_ask |> <| ob_crossed := crossed |>).

(** [engine/state/EntityStateStore.cpp:833-847] mark_entity_packet. *)
Definition mark_entity_packet (event : NormalizedEvent) (e : EntityState) : EntityState :=
  (e <| en_market_id := if String.eqb (ne_market_id event) "" then en_market_id e else ne_market_id event |>
     <| en_first_packet_id := if en_first_packet_id e =? 0 then ne_packet_id event else en_first_packet_id e |>
     <| en_last_packet_id := ne_packet_id event |>
     <| en_last_update_monotonic_ns := ne_recv_monotonic_ns event |>).

(** [engine/state/EntityStateStore.cpp:792-812] resolve_entity_id. *)
Definition resolve_entity_id (event : NormalizedEvent) : string :=
  if negb (String.eqb (ne_entity_id event) "") then ne_entity_id event
  else if negb (String.eqb (ne_asset_id event) "") then ne_asset_id event
  else if negb (String.eqb (ne_condition_id event) "") then ne_condition_id event
  else ne_market_id event.

(** [engine/state/EntityStateStore.cpp:778-790] get_or_create_entity. The entity the reference denotes. *)
Definition entity_of (s : EntityStateStore) (entity_id : string) : EntityState :=
  default (entity0 <| en_entity_id := entity_id |>) (store_get s entity_id).

Definition put_entity (entity_id : string) (e : EntityState) (s : EntityStateStore) : EntityStateStore :=
  (s <| es_entities := <[entity_id := e]> (es_entities s) |>).

Definition count_error (s : EntityStateStore) : EntityStateStore := (s <| es_errors := incr (es_errors s) |>).

(** ** Handlers *)

(** [engine/state/EntityStateStore.cpp:374-430] apply_snapshot, on the entity: the entity after an accepted
    snapshot, and whether an invalid value was seen. *)
Definition snapshot_entity (event : NormalizedEvent) (e : EntityState) : EntityState * bool :=
  let '(bids, bad_bids) := load_side SFgtb (ne_bids event) in
  let '(asks, bad_asks) := load_side SFltb (ne_asks event) in
  let good_tick := match ne_tick_size event with Some t => valid_tick_size t | None => true end in
  let tick := match ne_tick_size event with
              | Some t => if valid_tick_size t then Some t else ob_tick_size (en_book e)
              | None => ob_tick_size (en_book e)
              end in
  let invalid := bad_bids || bad_asks || negb good_tick in
  let book := update_best_bid_ask ((en_book e) <| ob_bids := bids |> <| ob_asks := asks |> <| ob_tick_size := tick |>) in
  let e := (e <| en_book := book |> <| en_initialized := true |> <| en_recovering := false |>
              <| en_closed := false |>
              <| en_status := if ob_crossed book then EsInconsistent else EsLive |>
              <| en_inconsistent := ob_crossed book || invalid |>
              <| en_snapshot_count := incr (en_snapshot_count e) |>
              <| en_last_snapshot_packet_id := ne_packet_id event |>) in
  let e := mark_entity_packet event e in
  ((if invalid then (e <| en_error_count := incr (en_error_count e) |>) else e), invalid).

Definition ignore_event (e : EntityState) : EntityState := (e <| en_ignored_count := incr (en_ignored_count e) |>).

(** [engine/state/EntityStateStore.cpp:346-446] apply_snapshot. *)
Definition apply_snapshot (event : NormalizedEvent) (s : EntityStateStore) : StateApplyResult * EntityStateStore :=
  let id := resolve_entity_id event in
  if String.eqb id "" then make_result ScMissingEntityId "" "snapshot event missing entity id" false (count_error s)
  else
    let e := entity_of s id in
    if en_closed e then
      make_result ScClosedEntityIgnored id "snapshot ignored because entity is closed" false
        (put_entity id (ignore_event e) s)
    else
      let '(e, invalid) := snapshot_entity event e in
      let s := put_entity id e (s <| es_snapshots_applied := incr (es_snapshots_applied s) |>) in
      if invalid then
        marked mark_book_snapshot
          (make_result ScInvalidValue id "snapshot contained invalid price/size/tick values" true (count_error s))
      else marked mark_book_snapshot (make_result ScApplied id "snapshot applied" true s).

(** What the loop over the changes of a delta accumulates. *)
Record DeltaScan := mkDeltaScan {
  ds_bids : Side;
  ds_asks : Side;
  ds_changed : bool;
  ds_bad_side : bool;
  ds_invalid : bool
}.

(** [engine/state/EntityStateStore.cpp:497-519] apply_delta, the loop body. *)
Definition scan_change (d : DeltaScan) (change : PriceLevelChange) : DeltaScan :=
  if negb (valid_price (plc_price change)) || negb (valid_size (plc_size change)) then (d <| ds_invalid := true |>)
  else
    match plc_side change with
    | NsBid => (d <| ds_bids := apply_level SFgtb (ds_bids d) (plc_price change) (plc_size change) |>
                  <| ds_changed := true |>)
    | NsAsk => (d <| ds_asks := apply_level SFltb (ds_asks d) (plc_price change) (plc_size change) |>
                  <| ds_changed := true |>)
    | NsUnknown => (d <| ds_bad_side := true |>)
    end.

Definition scan_changes (book : OrderBookState) (changes : list PriceLevelChange) : DeltaScan :=
  foldl scan_change (mkDeltaScan (ob_bids book) (ob_asks book) false false false) changes.

(** [engine/state/EntityStateStore.cpp:521-534] apply_delta, the entity after a change. *)
Definition delta_entity (event : NormalizedEvent) (d : DeltaScan) (e : EntityState) : EntityState :=
  let book := update_best_bid_ask ((en_book e) <| ob_bids := ds_bids d |> <| ob_asks := ds_asks d |>) in
  mark_entity_packet event
    (e <| en_book := book |> <| en_delta_count := incr (en_delta_count e) |>
       <| en_status := if ob_crossed book then EsInconsistent else EsLive |>
       <| en_inconsistent := ob_crossed book |> <| en_recovering := false |>).

(** [engine/state/EntityStateStore.cpp:476-483] the entity of a delta that comes before any snapshot. *)
Definition recovering_entity (event : NormalizedEvent) (e : EntityState) : EntityState :=
  mark_entity_packet event
    (e <| en_status := EsRecovering |> <| en_recovering := true |> <| en_error_count := incr (en_error_count e) |>).

(** [engine/state/EntityStateStore.cpp:448-574] apply_delta. *)
Definition apply_delta (event : NormalizedEvent) (s : EntityStateStore) : StateApplyResult * EntityStateStore :=
  let id := resolve_entity_id event in
  marked mark_book_delta
    (if String.eqb id "" then make_result ScMissingEntityId "" "delta event missing entity id" false (count_error s)
     else
       let e := entity_of s id in
       if en_closed e then
         make_result ScClosedEntityIgnored id "delta ignored because entity is closed" false
           (put_entity id (ignore_event e) s)
       else if negb (en_initialized e) then
         make_result ScDeltaBeforeSnapshot id "delta arrived before snapshot" true
           (count_error (put_entity id (recovering_entity event e) s))
       else
         let d := scan_changes (en_book e) (ne_changes event) in
         let '(e, s) :=
           if ds_changed d
           then (delta_entity event d e, (s <| es_deltas_applied := incr (es_deltas_applied s) |>))
           else (e, s) in
         if ds_bad_side d || ds_invalid d then
           let s := count_error (put_entity id (e <| en_error_count := incr (en_error_count e) |>) s) in
           if ds_bad_side d then make_result ScUnknownSide id "delta contained unknown side" (ds_changed d) s
           else make_result ScInvalidValue id "delta contained invalid price or size" (ds_changed d) s
         else if negb (ds_changed d) then
           make_result ScNoop id "delta had no valid changes" false (put_entity id (ignore_event e) s)
         else make_result ScApplied id "delta applied" true (put_entity id e s)).

Definition differs (external local : option double) : bool :=
  match external, local with
  | Some x, Some l => negb (almost_equal x l)
  | _, _ => false
  end.

Definition take_if (ok : double → bool) (new old : option double) : option double :=
  match new with Some v => if ok v then Some v else old | None => old end.

(** [engine/state/EntityStateStore.cpp:604-662] apply_status_change, on the entity: the entity, whether a
    field was taken, and whether one was invalid. *)
Definition status_entity (event : NormalizedEvent) (e : EntityState) : EntityState * bool * bool :=
  let taken ok (v : option double) := from_option ok false v in
  let refused ok (v : option double) := from_option (negb ∘ ok) false v in
  let changed := taken valid_tick_size (ne_tick_size event) || taken valid_price (ne_best_bid event)
                 || taken valid_price (ne_best_ask event) in
  let invalid := refused valid_tick_size (ne_tick_size event) || refused valid_price (ne_best_bid event)
                 || refused valid_price (ne_best_ask event) in
  let book := en_book e in
  let ext_bid := take_if valid_price (ne_best_bid event) (ob_external_best_bid book) in
  let ext_ask := take_if valid_price (ne_best_ask event) (ob_external_best_ask book) in
  let book :=
    (book <| ob_tick_size := take_if valid_tick_size (ne_tick_size event) (ob_tick_size book) |>
          <| ob_external_best_bid := ext_bid |> <| ob_external_best_ask := ext_ask |>
          <| ob_external_bbo_diverged :=
               en_initialized e && (differs ext_bid (ob_best_bid book) || differs ext_ask (ob_best_ask book)) |>) in
  let e := (e <| en_book := book |>) in
  let e := if en_initialized e then e else (e <| en_status := EsRecovering |> <| en_recovering := true |>) in
  let e := mark_entity_packet event (e <| en_status_change_count := incr (en_status_change_count e) |>) in
  ((if invalid then (e <| en_error_count := incr (en_error_count e) |>) else e), changed, invalid).

(** [engine/state/EntityStateStore.cpp:576-678] apply_status_change. *)
Definition apply_status_change (event : NormalizedEvent) (s : EntityStateStore) : StateApplyResult * EntityStateStore :=
  let id := resolve_entity_id event in
  marked mark_book_delta
    (if String.eqb id "" then make_result ScMissingEntityId "" "status change missing entity id" false (count_error s)
     else
       let e := entity_of s id in
       if en_closed e then
         make_result ScClosedEntityIgnored id "status change ignored because entity is closed" false
           (put_entity id (ignore_event e) s)
       else
         let '(e, changed, invalid) := status_entity event e in
         let s := put_entity id e (s <| es_status_changes_applied := incr (es_status_changes_applied s) |>) in
         if invalid then
           make_result ScInvalidValue id "status change contained invalid values" changed (count_error s)
         else
           make_result (if changed then ScApplied else ScNoop) id
             (if changed then "status change applied" else "status change had no state fields") changed s).

(** [engine/state/EntityStateStore.cpp:697-713] apply_lifecycle_event, on the entity. *)
Definition lifecycle_entity (event : NormalizedEvent) (e : EntityState) : EntityState :=
  let close (e : EntityState) := (e <| en_closed := true |> <| en_status := EsClosed |> <| en_recovering := false |>) in
  let e :=
    if String.eqb (ne_raw_type event) "market_resolved" then
      let e := close e in
      (e <| en_book := ((en_book e) <| ob_resolved := true |> <| ob_winning_asset_id := ne_winning_asset_id event |>) |>)
    else if String.eqb (ne_raw_type event) "market_closed" then close e
    else e in
  mark_entity_packet event (e <| en_lifecycle_count := incr (en_lifecycle_count e) |>).

(** [engine/state/EntityStateStore.cpp:680-721] apply_lifecycle_event. *)
Definition apply_lifecycle_event (event : NormalizedEvent) (s : EntityStateStore) : StateApplyResult * EntityStateStore :=
  let id := resolve_entity_id event in
  marked mark_lifecycle
    (if String.eqb id "" then make_result ScMissingEntityId "" "lifecycle event missing entity id" false (count_error s)
     else
       let s := put_entity id (lifecycle_entity event (entity_of s id))
                  (s <| es_lifecycle_events_applied := incr (es_lifecycle_events_applied s) |>) in
       make_result ScApplied id "lifecycle event applied" true s).

(** The bookkeeping a trade or an unknown event leaves on its entity. *)
Definition touch_entity (event : NormalizedEvent) (s : EntityStateStore) : EntityStateStore :=
  let id := resolve_entity_id event in
  if String.eqb id "" then s
  else put_entity id (mark_entity_packet event (ignore_event (entity_of s id))) s.

(** [engine/state/EntityStateStore.cpp:723-740] apply_trade_event. *)
Definition apply_trade_event (event : NormalizedEvent) (s : EntityStateStore) : StateApplyResult * EntityStateStore :=
  make_result ScIgnoredTrade (resolve_entity_id event) "trade event ignored by EntityStateStore MVP" false
    (touch_entity event s).

(** [engine/state/EntityStateStore.cpp:742-755] apply_heartbeat. *)
Definition apply_heartbeat (event : NormalizedEvent) (s : EntityStateStore) : StateApplyResult * EntityStateStore :=
  make_result ScIgnoredHeartbeat "" "heartbeat ignored by entity state" false
    (s <| es_heartbeats_ignored := incr (es_heartbeats_ignored s) |>).

(** [engine/state/EntityStateStore.cpp:757-776] apply_unknown. *)
Definition apply_unknown (event : NormalizedEvent) (s : EntityStateStore) : StateApplyResult * EntityStateStore :=
  let s := touch_entity event s in
  make_result ScIgnoredUnknown (resolve_entity_id event) "unknown event ignored by entity state" false
    (s <| es_unknown_events_ignored := incr (es_unknown_events_ignored s) |>).

(** [engine/state/EntityStateStore.cpp:211-238] EntityStateStore::apply. *)
Definition store_apply (event : NormalizedEvent) (s : EntityStateStore) : StateApplyResult * EntityStateStore :=
  let s := (s <| es_events_seen := incr (es_events_seen s) |>) in
  match ne_event_type event with
  | NeSnapshot => apply_snapshot event s
  | NeDelta => apply_delta event s
  | NeStatusChange => apply_status_change event s
  | NeLifecycleEvent => apply_lifecycle_event event s
  | NeTradeEvent => apply_trade_event event s
  | NeHeartbeat => apply_heartbeat event s
  | NeUnknown | NeDecodeError => apply_unknown event s
  end.

(** [engine/state/EntityStateStore.cpp:240-252] EntityStateStore::reset. *)
Definition store_reset (s : EntityStateStore) : EntityStateStore := store0 (es_hash_mode s).

(** The store after a sequence of events. *)
Definition run_store (events : list NormalizedEvent) (s : EntityStateStore) : EntityStateStore :=
  foldl (λ s event, (store_apply event s).2) s events.

#[local] Arguments constant {_} _ _ /.
#[local] Arguments hash_entity : simpl never.
#[local] Arguments hash_entity_map : simpl never.
#[local] Arguments mark_dirty : simpl never.

(** ** What an event does to the entities

    An event touches the entity it resolves to and no other; [step_entity] is
    what it does there, without the results and the counters of the store. *)

Definition step_entity (event : NormalizedEvent) (e : EntityState) : EntityState :=
  match ne_event_type event with
  | NeSnapshot => if en_closed e then ignore_event e else (snapshot_entity event e).1
  | NeDelta =>
      if en_closed e then ignore_event e
      else if negb (en_initialized e) then recovering_entity event e
      else
        let d := scan_changes (en_book e) (ne_changes event) in
        let e' := if ds_changed d then delta_entity event d e else e in
        if ds_bad_side d || ds_invalid d then (e' <| en_error_count := incr (en_error_count e') |>)
        else if ds_changed d then e' else ignore_event e
  | NeStatusChange => if en_closed e then ignore_event e else (status_entity event e).1.1
  | NeLifecycleEvent => lifecycle_entity event e
  | NeTradeEvent | NeUnknown | NeDecodeError => mark_entity_packet event (ignore_event e)
  | NeHeartbeat => e
  end.

(** Whether an event reaches an entity at all. *)
Definition reaches (event : NormalizedEvent) (entity_id : string) : bool :=
  negb (bool_decide (ne_event_type event = NeHeartbeat)) && negb (String.eqb entity_id "")
  && String.eqb (resolve_entity_id event) entity_id.

Lemma make_result_entities code id msg changed s :
  es_entities (make_result code id msg changed s).2 = es_entities s.
Proof.
  unfold make_result, state_hash, global_hash.
  match goal with |- context [if changed && ?b then ?x else s] => set (s' := if changed && b then x else s) end.
  assert (es_entities s' = es_entities s) as Hs by (subst s'; by case_match).
  clearbody s'. case_match; [done|]. cbn.
  destruct (String.eqb id ""); [|destruct (cached_entity_hash _ _ _)]; cbn; destruct (cached_global_hash _ _); cbn; done.
Qed.

Lemma store_apply_entities event s :
  es_entities (store_apply event s).2 =
    if reaches event (resolve_entity_id event)
    then <[resolve_entity_id event := step_entity event (entity_of s (resolve_entity_id event))]> (es_entities s)
    else es_entities s.
Proof.
  unfold store_apply, reaches, step_entity. rewrite String.eqb_refl, andb_true_r.
  set (id := resolve_entity_id event). set (s1 := (s <| es_events_seen := incr (es_events_seen s) |>)).
  assert (Hof : entity_of s1 id = entity_of s id) by done.
  destruct (ne_event_type event) eqn:Ht; cbn [negb bool_decide andb];
    unfold apply_snapshot, apply_delta, apply_status_change, apply_lifecycle_event, apply_trade_event,
      apply_heartbeat, apply_unknown, touch_entity, marked; fold id; rewrite ?Hof; cbn [snd];
    destruct (String.eqb id "") eqn:Hid; cbn [negb andb]; try by rewrite make_result_entities.
  - destruct (en_closed _); [by rewrite make_result_entities|].
    destruct (snapshot_entity event _) as [e' inv] eqn:He. destruct inv; cbn [snd fst]; by rewrite make_result_entities.
  - destruct (en_closed _); [by rewrite make_result_entities|].
    destruct (negb (en_initialized _)); [by rewrite make_result_entities|].
    destruct (ds_changed _), (ds_bad_side _), (ds_invalid _); cbn [orb negb]; by rewrite make_result_entities.
  - destruct (en_closed _); [by rewrite make_result_entities|].
    destruct (status_entity event _) as [[e' ch] inv] eqn:He. destruct inv; cbn [snd fst]; by rewrite make_result_entities.
Qed.

Lemma reaches_eq event id : reaches event id = true → resolve_entity_id event = id ∧ id ≠ "" ∧ ne_event_type event ≠ NeHeartbeat.
Proof. unfold reaches. intros H. breflect. done. Qed.

(** Seen from one entity: it takes a step when the event reaches it. *)
Lemma store_apply_get event s id :
  store_get (store_apply event s).2 id =
    if reaches event id then Some (step_entity event (entity_of s id)) else store_get s id.
Proof.
  unfold store_get. rewrite store_apply_entities. destruct (reaches event id) eqn:Hr.
  - pose proof (reaches_eq _ _ Hr) as (Hid & _). rewrite Hid, Hr. by rewrite lookup_insert_eq.
  - case_match eqn:Hr'; [|done]. apply lookup_insert_ne. intros <-. congruence.
Qed.

Lemma store_apply_entity_of event s id :
  entity_of (store_apply event s).2 id = if reaches event id then step_entity event (entity_of s id) else entity_of s id.
Proof. unfold entity_of at 1. rewrite store_apply_get. by destruct (reaches event id). Qed.

(** The entity after a run, from the events that reached it. *)
Lemma run_store_entity_of events s id :
  entity_of (run_store events s) id =
    foldl (λ e event, if reaches event id then step_entity event e else e) (entity_of s id) events.
Proof.
  revert s. induction events as [|ev events IH]; intros s; [done|]. cbn.
  unfold run_store in IH. rewrite IH, store_apply_entity_of. done.
Qed.

(** ** The invariant of an entity *)

Definition positive_size (size : double) : Prop := isfinite size = true ∧ SFltb d0_0 size = true.

(** A side is strictly sorted, best price first, over valid prices and positive sizes. *)
Definition side_ok (ltb : double → double → bool) (side : Side) : Prop :=
  om_sorted ltb side ∧ Forall (λ l, valid_price l.1 = true ∧ positive_size l.2) side.

(** The status an entity must have, from its flags. *)
Definition status_of (e : EntityState) : EntityStatus :=
  if en_closed e then EsClosed
  else if en_initialized e then (if ob_crossed (en_book e) then EsInconsistent else EsLive)
  else if en_recovering e then EsRecovering
  else EsUninitialized.

Record entity_ok (e : EntityState) : Prop := {
  ok_bids : side_ok SFgtb (ob_bids (en_book e));
  ok_asks : side_ok SFltb (ob_asks (en_book e));
  ok_best : update_best_bid_ask (en_book e) = en_book e;
  ok_status : en_status e = status_of e;
  ok_resolved : ob_resolved (en_book e) = true → en_closed e = true;
  ok_recovering : en_recovering e = true → en_initialized e = false ∧ en_closed e = false;
  ok_uninitialized : en_initialized e = false → ob_bids (en_book e) = [] ∧ ob_asks (en_book e) = [];
  ok_crossed : ob_crossed (en_book e) = true → en_inconsistent e = true
}.

Lemma valid_price_not_nan p : valid_price p = true → not_nan p.
Proof. destruct p; try done. Qed.

Lemma valid_size_positive x : valid_size x = true → SFeqb x d0_0 = false → positive_size x.
Proof. destruct x as [[]|[]| |[] m e]; try done. Qed.

Lemma SFltb_not_zero x : SFltb d0_0 x = true → SFeqb x d0_0 = false.
Proof. destruct x as [[]|[]| |[] m e]; try done. Qed.

Section one_side.
Context (ltb : double → double → bool) `{!KeyOrder ltb not_nan}.

Lemma side_ok_keys side : side_ok ltb side → Forall (not_nan ∘ fst) side.
Proof. intros [_ H]. eapply Forall_impl; [exact H|]. intros l [? _]. by apply valid_price_not_nan. Qed.

Lemma side_ok_set side p x :
  valid_price p = true → positive_size x → side_ok ltb side → side_ok ltb (om_set ltb p x side).
Proof.
  intros Hp Hx [Hs Hf]. split; [by eapply om_set_sorted|].
  by apply (om_set_Forall ltb (λ p, valid_price p = true) positive_size).
Qed.

Lemma side_ok_level side p x :
  valid_price p = true → valid_size x = true → side_ok ltb side → side_ok ltb (apply_level ltb side p x).
Proof.
  intros Hp Hx Hside. unfold apply_level. destruct (SFeqb x d0_0) eqn:E.
  - destruct Hside. split; [by eapply om_erase_sorted|by apply om_erase_Forall].
  - apply side_ok_set; auto using valid_size_positive.
Qed.

Lemma side_ok_load levels : side_ok ltb (load_side ltb levels).1.
Proof.
  unfold load_side. assert (H : side_ok ltb ([] : Side, false).1) by (split; constructor).
  revert H. generalize ([] : Side, false). induction levels as [|l levels IH]; intros [side bad] H; [done|].
  cbn [foldl]. apply IH. unfold load_level. case_match eqn:E; [done|]. breflect. cbn.
  case_match; [|done]. apply side_ok_set; [done| |done]. split; [|done].
  unfold valid_size in *. breflect. done.
Qed.
End one_side.

Lemma side_ok_scan changes book :
  side_ok SFgtb (ob_bids book) → side_ok SFltb (ob_asks book) →
  let d := scan_changes book changes in side_ok SFgtb (ds_bids d) ∧ side_ok SFltb (ds_asks d).
Proof.
  intros Hb Ha. unfold scan_changes.
  assert (H : let d := mkDeltaScan (ob_bids book) (ob_asks book) false false false in
    side_ok SFgtb (ds_bids d) ∧ side_ok SFltb (ds_asks d)) by done.
  revert H. generalize (mkDeltaScan (ob_bids book) (ob_asks book) false false false).
  induction changes as [|c changes IH]; intros d H; [done|]. cbn [foldl]. apply IH.
  unfold scan_change. case_match eqn:E; [done|]. breflect. destruct H.
  destruct (plc_side c); cbn; split; auto; apply side_ok_level; first [done|apply _].
Qed.

Lemma entity_ok_initial id : entity_ok (entity0 <| en_entity_id := id |>).
Proof. split; cbn; try done; repeat constructor. Qed.

(** The fields the invariant is about. *)
Definition entity_core (e : EntityState) :=
  (en_book e, en_status e, en_initialized e, en_recovering e, en_inconsistent e, en_closed e).

Lemma entity_ok_core e e' : entity_core e' = entity_core e → entity_ok e → entity_ok e'.
Proof.
  unfold entity_core. intros [= Hb Hs Hi Hr Hin Hc] [].
  split; unfold status_of in *; rewrite ?Hb, ?Hs, ?Hi, ?Hr, ?Hin, ?Hc; done.
Qed.

(** Open a record of the store down to its fields, so that updates compute. *)
Ltac open_entity e :=
  destruct e as [? ? ? ? ? ? ? ? ? ? ? ? ? ? ? ? ? [? ? ? ? ? ? ? ? ? ? ?]]; cbn in *.

(** Closing, opening by a snapshot, changing levels and recovering keep the invariant. *)
Lemma snapshot_entity_ok event e : en_closed e = false → entity_ok e → entity_ok (snapshot_entity event e).1.
Proof.
  intros Hc [_ _ _ _ Hres _ _ _]. unfold snapshot_entity.
  pose proof (side_ok_load SFgtb (ne_bids event)) as Hlb. pose proof (side_ok_load SFltb (ne_asks event)) as Hla.
  destruct (load_side SFgtb _) as [bids bb], (load_side SFltb _) as [asks ba].
  match goal with |- context [negb ?t] => generalize (bb || ba || negb t) end. intros invalid.
  match goal with |- entity_ok (if _ then ?x <| en_error_count := _ |> else _, _).1 =>
    apply (entity_ok_core x); [by destruct invalid|] end.
  open_entity e. subst. split; cbn; try done. by intros ->.
Qed.

Lemma delta_entity_ok event changes e :
  en_closed e = false → en_initialized e = true → entity_ok e →
  entity_ok (delta_entity event (scan_changes (en_book e) changes) e).
Proof.
  intros Hc Hi [Hb Ha _ _ Hres _ _ _]. destruct (side_ok_scan changes (en_book e) Hb Ha) as [Hsb Hsa].
  destruct (scan_changes _ _). open_entity e. subst. by split; cbn.
Qed.

Lemma recovering_entity_ok event e :
  en_closed e = false → en_initialized e = false → entity_ok e → entity_ok (recovering_entity event e).
Proof.
  intros Hc Hi [Hb Ha Hbest Hst Hres Hrec Hun Hcr]. open_entity e. subst. by split.
Qed.

Lemma status_entity_ok event e : en_closed e = false → entity_ok e → entity_ok (status_entity event e).1.1.
Proof.
  intros Hc [Hb Ha Hbest Hst Hres Hrec Hun Hcr]. unfold status_entity.
  match goal with |- entity_ok (if ?b then ?x <| en_error_count := _ |> else _, _, _).1.1 =>
    generalize b; intros invalid; apply (entity_ok_core x); [by destruct invalid|] end.
  destruct (en_initialized e) eqn:Hi; open_entity e; subst; injection Hbest as Hb1 Hb2 Hb3;
    split; cbn; try done; try by rewrite ?Hb3, ?Hb1, ?Hb2.
Qed.

Lemma lifecycle_entity_ok event e : entity_ok e → entity_ok (lifecycle_entity event e).
Proof.
  intros [Hb Ha Hbest Hst Hres Hrec Hun Hcr]. unfold lifecycle_entity.
  destruct (String.eqb _ "market_resolved"); [|destruct (String.eqb _ "market_closed")];
    open_entity e; injection Hbest as Hb1 Hb2 Hb3; subst; split; cbn; try done; try by rewrite ?Hb3, ?Hb1, ?Hb2.
Qed.

Lemma step_entity_ok event e : entity_ok e → entity_ok (step_entity event e).
Proof.
  intros He. unfold step_entity.
  destruct (ne_event_type event); [|destruct (en_closed e) eqn:Hc..| | | |]; try done;
    try (by apply (entity_ok_core e)); auto using snapshot_entity_ok, status_entity_ok, lifecycle_entity_ok.
  destruct (en_initialized e) eqn:Hi; cbn [negb]; [|by apply recovering_entity_ok].
  pose proof (delta_entity_ok event (ne_changes event) e Hc Hi He) as Hd.
  set (d := scan_changes _ _) in *.
  destruct (ds_changed d), (ds_bad_side d || ds_invalid d); try done;
    first [by apply (entity_ok_core (delta_entity event d e))|by apply (entity_ok_core e)].
Qed.

Lemma step_entity_id event e : en_entity_id (step_entity event e) = en_entity_id e.
Proof.
  unfold step_entity, snapshot_entity, status_entity, lifecycle_entity.
  destruct (ne_event_type event); try by destruct e.
  all: try (destruct (en_closed e); [by destruct e|]).
  - destruct (load_side SFgtb _), (load_side SFltb _). cbn [fst].
    match goal with |- en_entity_id (if ?b then _ else _) = _ => destruct b end; by destruct e.
  - destruct (en_initialized e); cbn [negb]; [|by destruct e].
    destruct (ds_changed _), (ds_bad_side _ || _); by destruct e.
  - cbn [fst]. match goal with |- en_entity_id (if ?b then _ else _) = _ => destruct b end;
      destruct e as [? ? ? init]; by destruct init.
  - destruct (String.eqb _ "market_resolved"); [|destruct (String.eqb _ "market_closed")]; by destruct e.
Qed.

(** C15. Whatever events arrive, every entity of the store is sound: it carries its key as its id, both
    sides are strictly sorted over valid prices and positive finite sizes, the best prices are the
    heads and the book is crossed exactly when they cross, the status is the one its flags say, a
    resolved entity is closed, a recovering one is neither initialized nor closed, and an entity
    that never saw a snapshot has no levels. *)
Theorem entity_store_invariant mode events id e :
  store_get (run_store events (store0 mode)) id = Some e → id ≠ "" ∧ en_entity_id e = id ∧ entity_ok e.
Proof.
  assert (H : ∀ s, (∀ i e, store_get s i = Some e → i ≠ "" ∧ en_entity_id e = i ∧ entity_ok e) →
    ∀ i e, store_get (run_store events s) i = Some e → i ≠ "" ∧ en_entity_id e = i ∧ entity_ok e).
  { induction events as [|ev events IH]; intros s Hs; [done|]. apply IH. intros i e'.
    rewrite store_apply_get. destruct (reaches ev i) eqn:Hr; [|apply Hs].
    intros [= <-]. split; [by apply reaches_eq in Hr as (_ & ? & _)|].
    rewrite step_entity_id. unfold entity_of. destruct (store_get s i) as [e0|] eqn:E; cbn [default].
    - destruct (Hs i e0 E) as (_ & ? & ?). auto using step_entity_ok.
    - split; [done|]. apply step_entity_ok, entity_ok_initial. }
  apply H. intros i e'. unfold store_get. cbn. by rewrite lookup_empty.
Qed.

(** ** The book as the log of the writes since its last snapshot

    The specification of an entity's levels forgets maps and orders: it keeps
    whether the entity takes events, and the list of level writes since the
    last snapshot; the size at a price is what the last write to it said. *)

Record BookLog := mkBookLog {
  lg_open : bool;
  lg_live : bool;
  lg_writes : list PriceLevelChange
}.

Definition usable_level (price size : double) : bool := valid_price price && valid_size size.

(** The writes of a snapshot: its valid levels of positive size. *)
Definition side_writes (side : NormalizedSide) (levels : list BookLevel) : list PriceLevelChange :=
  (λ l, mkPriceLevelChange side (bl_price l) (bl_size l)) <$>
    filter (λ l, usable_level (bl_price l) (bl_size l) && SFltb d0_0 (bl_size l) = true) levels.

Definition snapshot_writes (event : NormalizedEvent) : list PriceLevelChange :=
  side_writes NsBid (ne_bids event) ++ side_writes NsAsk (ne_asks event).

(** The writes of a delta: its valid changes of a known side. *)
Definition change_writes (changes : list PriceLevelChange) : list PriceLevelChange :=
  filter (λ c, usable_level (plc_price c) (plc_size c) && negb (bool_decide (plc_side c = NsUnknown)) = true) changes.

Definition delta_writes (event : NormalizedEvent) : list PriceLevelChange := change_writes (ne_changes event).

Definition closes (event : NormalizedEvent) : bool :=
  String.eqb (ne_raw_type event) "market_resolved" || String.eqb (ne_raw_type event) "market_closed".

Definition log_step (l : BookLog) (event : NormalizedEvent) : BookLog :=
  match ne_event_type event with
  | NeSnapshot => if lg_open l then mkBookLog true true (snapshot_writes event) else l
  | NeDelta => if lg_open l && lg_live l then mkBookLog true true (lg_writes l ++ delta_writes event) else l
  | NeLifecycleEvent => if closes event then mkBookLog false (lg_live l) (lg_writes l) else l
  | _ => l
  end.

(** The log of one entity over a sequence of events. *)
Definition book_log (id : string) (events : list NormalizedEvent) : BookLog :=
  foldl log_step (mkBookLog true false []) (filter (λ ev, reaches ev id = true) events).

(** The size the log gives a price of a side. *)
Definition last_write (side : NormalizedSide) (price : double) (acc : option double) (c : PriceLevelChange) : option double :=
  if bool_decide (plc_side c = side) && same_key SFltb price (plc_price c)
  then (if SFeqb (plc_size c) d0_0 then None else Some (plc_size c)) else acc.

Definition level_at (side : NormalizedSide) (price : double) (writes : list PriceLevelChange) : option double :=
  foldl (last_write side price) None writes.

Definition side_of (side : NormalizedSide) (e : EntityState) : Side :=
  match side with NsBid => ob_bids (en_book e) | NsAsk => ob_asks (en_book e) | NsUnknown => [] end.
Definition side_order (side : NormalizedSide) : double → double → bool :=
  match side with NsBid => SFgtb | _ => SFltb end.

(** The entity implements the log. *)
Definition implements_log (e : EntityState) (l : BookLog) : Prop :=
  en_closed e = negb (lg_open l) ∧ en_initialized e = lg_live l ∧
  ∀ side price, not_nan price → om_find (side_order side) price (side_of side e) = level_at side price (lg_writes l).

Lemma find_apply_level ltb `{!KeyOrder ltb not_nan} side p x q :
  (∀ a b, same_key ltb a b = same_key SFltb a b) →
  valid_price p = true → valid_size x = true → not_nan q → side_ok ltb side →
  om_find ltb q (apply_level ltb side p x) =
    if same_key SFltb q p then (if SFeqb x d0_0 then None else Some x) else om_find ltb q side.
Proof.
  intros Hk Hp Hx Hq Hside. pose proof (side_ok_keys ltb side Hside) as Hn. destruct Hside as [Hs _].
  pose proof (valid_price_not_nan p Hp) as Hpn. rewrite <- Hk. unfold apply_level.
  destruct (SFeqb x d0_0); [by rewrite (om_find_erase ltb (ok := not_nan))|by rewrite (om_find_set ltb (ok := not_nan))].
Qed.

Lemma usable_level_neg p x : negb (valid_price p) || negb (valid_size x) = negb (usable_level p x).
Proof. unfold usable_level. by destruct (valid_price p), (valid_size x). Qed.

(** Writes to one side leave the other alone. *)
Lemma last_write_other side1 side2 q acc levels :
  side1 ≠ side2 → foldl (last_write side1 q) acc (side_writes side2 levels) = acc.
Proof.
  intros Hne. unfold side_writes. induction (filter _ levels) as [|l ls IH]; [done|]. cbn.
  unfold last_write at 2. cbn. rewrite bool_decide_false by congruence. done.
Qed.

Lemma find_load_side ltb `{!KeyOrder ltb not_nan} sd levels q side bad :
  (∀ a b, same_key ltb a b = same_key SFltb a b) → not_nan q → side_ok ltb side →
  om_find ltb q (foldl (load_level ltb) (side, bad) levels).1 =
    foldl (last_write sd q) (om_find ltb q side) (side_writes sd levels).
Proof.
  intros Hk Hq. revert side bad. induction levels as [|l levels IH]; intros side bad Hside; [done|].
  cbn [foldl]. unfold side_writes in *. rewrite filter_cons. unfold load_level at 2.
  rewrite usable_level_neg. destruct (usable_level (bl_price l) (bl_size l)) eqn:Hu; cbn [negb andb].
  - unfold usable_level in Hu. apply andb_prop in Hu as [Hp Hx].
    destruct (SFltb d0_0 (bl_size l)) eqn:Hpos; [|rewrite decide_False by done; by apply IH].
    rewrite decide_True by done. cbn. rewrite IH.
    + f_equal. unfold last_write. cbn. rewrite bool_decide_true by done. cbn [andb].
      rewrite <- (find_apply_level ltb) by done. unfold apply_level. by rewrite (SFltb_not_zero _ Hpos).
    + apply side_ok_set; [done..| |done]. unfold valid_size in Hx. apply andb_prop in Hx as [??]. done.
  - rewrite decide_False by done. by apply IH.
Qed.

Lemma find_scan_changes changes q d :
  not_nan q → side_ok SFgtb (ds_bids d) → side_ok SFltb (ds_asks d) →
  om_find SFgtb q (ds_bids (foldl scan_change d changes)) =
    foldl (last_write NsBid q) (om_find SFgtb q (ds_bids d)) (change_writes changes) ∧
  om_find SFltb q (ds_asks (foldl scan_change d changes)) =
    foldl (last_write NsAsk q) (om_find SFltb q (ds_asks d)) (change_writes changes).
Proof.
  intros Hq. revert d. induction changes as [|c changes IH]; intros [bids asks ch bad inv] Hb Ha; [done|].
  cbn [ds_bids ds_asks] in *. unfold change_writes in *. cbn [foldl]. rewrite filter_cons.
  unfold scan_change at 2 4. rewrite usable_level_neg.
  destruct (usable_level (plc_price c) (plc_size c)) eqn:Hu; cbn [negb andb].
  2:{ rewrite decide_False by done. by apply (IH (mkDeltaScan bids asks ch bad true)). }
  unfold usable_level in Hu. apply andb_prop in Hu as [Hp Hx].
  destruct (plc_side c) eqn:Hs; cbn [negb].
  - rewrite bool_decide_true, decide_False by done. by apply (IH (mkDeltaScan bids asks ch true inv)).
  - rewrite bool_decide_false, decide_True by done. cbn [foldl].
    destruct (IH (mkDeltaScan (apply_level SFgtb bids (plc_price c) (plc_size c)) asks true bad inv)) as [H1 H2];
      [apply side_ok_level; first [done|apply _]|done|].
    cbn [ds_bids ds_asks] in *. unfold last_write at 2 4. rewrite !Hs, (bool_decide_true (NsBid = NsBid)), bool_decide_false by done.
    cbn [andb]. split; [|exact H2]. rewrite <- (find_apply_level SFgtb) by (done || apply same_key_gtb). exact H1.
  - rewrite bool_decide_false, decide_True by done. cbn [foldl].
    destruct (IH (mkDeltaScan bids (apply_level SFltb asks (plc_price c) (plc_size c)) true bad inv)) as [H1 H2];
      [done|apply side_ok_level; first [done|apply _]|].
    cbn [ds_bids ds_asks] in *. unfold last_write at 2 4. rewrite !Hs, (bool_decide_true (NsAsk = NsAsk)), bool_decide_false by done.
    cbn [andb]. split; [exact H1|]. rewrite <- (find_apply_level SFltb) by done. exact H2.
Qed.

(** What the log is about: two flags and two sides. *)
Definition log_core (e : EntityState) :=
  (en_closed e, en_initialized e, ob_bids (en_book e), ob_asks (en_book e)).

Lemma implements_log_core e e' l : log_core e' = log_core e → implements_log e l → implements_log e' l.
Proof.
  unfold log_core. intros [= Hc Hi Hb Ha] (H1 & H2 & H3). unfold implements_log. rewrite Hc, Hi.
  split_and!; [done..|]. intros [] q Hq; cbn; rewrite ?Hb, ?Ha; [by apply (H3 NsUnknown)|by apply (H3 NsBid)|by apply (H3 NsAsk)].
Qed.

Lemma snapshot_entity_core event e :
  log_core (snapshot_entity event e).1 =
    (false, true, (load_side SFgtb (ne_bids event)).1, (load_side SFltb (ne_asks event)).1).
Proof.
  unfold snapshot_entity. destruct (load_side SFgtb _) as [bids bb], (load_side SFltb _) as [asks ba].
  cbn [fst]. match goal with |- log_core (if ?b then _ else _) = _ => destruct b end; by destruct e as [].
Qed.

Lemma delta_entity_core event d e :
  log_core (delta_entity event d e) = (en_closed e, en_initialized e, ds_bids d, ds_asks d).
Proof. by destruct e as []. Qed.

Lemma implements_log_writes e l (bids asks : Side) c i writes :
  log_core e = (c, i, bids, asks) → lg_open l = negb c → lg_live l = i → lg_writes l = writes →
  (∀ q, not_nan q → om_find SFgtb q bids = level_at NsBid q writes ∧ om_find SFltb q asks = level_at NsAsk q writes) →
  (∀ q, level_at NsUnknown q writes = None) → implements_log e l.
Proof.
  unfold log_core. intros [= Hc Hi Hb Ha] Ho Hl <- H Hu. split_and!; [by rewrite Ho, Hc, negb_involutive|congruence|].
  intros [] q Hq; cbn; rewrite ?Hb, ?Ha; [by rewrite Hu|by apply H..].
Qed.

(** No write is to an unknown side. *)
Definition known_writes (writes : list PriceLevelChange) : Prop := ∀ c, c ∈ writes → plc_side c ≠ NsUnknown.

Lemma level_at_unknown writes q : known_writes writes → level_at NsUnknown q writes = None.
Proof.
  assert (H : ∀ acc, known_writes writes → foldl (last_write NsUnknown q) acc writes = acc); [|apply H].
  induction writes as [|c writes IH]; intros acc H; [done|].
  cbn [foldl]. unfold last_write at 2. rewrite bool_decide_false by (apply H; left). apply IH. intros ??; apply H; by right.
Qed.

Lemma snapshot_writes_known event : known_writes (snapshot_writes event).
Proof.
  intros c. unfold snapshot_writes, side_writes. rewrite elem_of_app, !list_elem_of_fmap.
  intros [(l & -> & _)|(l & -> & _)]; done.
Qed.

Lemma change_writes_known changes : known_writes (change_writes changes).
Proof.
  intros c [Hc _]%list_elem_of_filter. apply andb_prop in Hc as [_ Hc]. by breflect.
Qed.

Lemma scan_unchanged changes d :
  ds_changed (foldl scan_change d changes) = false →
  ds_bids (foldl scan_change d changes) = ds_bids d ∧ ds_asks (foldl scan_change d changes) = ds_asks d ∧ ds_changed d = false.
Proof.
  revert d. induction changes as [|c changes IH]; intros [bids asks ch bad inv]; [done|]. cbn [foldl].
  intros H. apply IH in H as (-> & -> & H). revert H. unfold scan_change. case_match; [done|]. by destruct (plc_side c).
Qed.

(** The levels after a delta, whatever its result. *)
Lemma step_delta_core event e :
  ne_event_type event = NeDelta → en_closed e = false → en_initialized e = true →
  let d := scan_changes (en_book e) (ne_changes event) in
  log_core (step_entity event e) = (false, true, ds_bids d, ds_asks d).
Proof.
  intros Ht Hc Hi d. unfold step_entity. rewrite Ht, Hc, Hi. cbn [negb]. fold d.
  destruct (ds_changed d) eqn:E.
  - pose proof (delta_entity_core event d e) as H. rewrite Hc, Hi in H. rewrite <- H.
    destruct (delta_entity event d e). by destruct (ds_bad_side d || ds_invalid d).
  - unfold d, scan_changes in E. apply scan_unchanged in E as (Hb & Ha & _). cbn [ds_bids ds_asks] in Hb, Ha.
    unfold d, scan_changes. rewrite Hb, Ha. destruct e. cbn in Hc, Hi. subst.
    by match goal with |- context [if ?b then _ else _] => destruct b end.
Qed.

(** A status change and a lifecycle event leave the levels alone. *)
Lemma status_entity_core event e : log_core (status_entity event e).1.1 = log_core e.
Proof.
  unfold status_entity. cbn [fst].
  match goal with |- log_core (if ?b then _ else _) = _ => destruct b end; destruct e as [? ? ? init]; by destruct init.
Qed.

Lemma lifecycle_entity_core event e :
  log_core (lifecycle_entity event e) =
    (closes event || en_closed e, en_initialized e, ob_bids (en_book e), ob_asks (en_book e)).
Proof.
  unfold lifecycle_entity, closes.
  destruct (String.eqb _ "market_resolved"), (String.eqb _ "market_closed"); by destruct e.
Qed.

Lemma log_step_implements event e l :
  entity_ok e → known_writes (lg_writes l) → implements_log e l →
  implements_log (step_entity event e) (log_step l event) ∧ known_writes (lg_writes (log_step l event)).
Proof.
  intros He Hk Hl. pose proof Hl as (Hc & Hi & Hf).
  destruct (ne_event_type event) eqn:Ht; unfold log_step; rewrite Ht.
  all: try (split; [apply (implements_log_core e); [unfold step_entity; rewrite Ht; by destruct e|done]|done]).
  - unfold step_entity. rewrite Ht, Hc.
    destruct (lg_open l); cbn [negb]; [|split; [by apply (implements_log_core e); [destruct e|]|done]].
    split; [|apply snapshot_writes_known].
    eapply implements_log_writes; [apply snapshot_entity_core|done..| |intros q; apply level_at_unknown, snapshot_writes_known].
    intros q Hq. cbn [lg_writes]. unfold level_at, snapshot_writes, load_side. rewrite !foldl_app.
    rewrite (last_write_other NsBid NsAsk), (last_write_other NsAsk NsBid) by done.
    rewrite <- (find_load_side SFgtb NsBid _ q [] false), <- (find_load_side SFltb NsAsk _ q [] false); try done;
      try (split; constructor). apply same_key_gtb.
  - destruct (lg_open l) eqn:Ho; cbn [andb].
    2:{ split; [|done]. apply (implements_log_core e); [|done]. unfold step_entity. rewrite Ht, Hc. by destruct e. }
    destruct (lg_live l) eqn:Hlive.
    2:{ split; [|done]. apply (implements_log_core e); [|done]. unfold step_entity. rewrite Ht, Hc, Hi. by destruct e. }
    assert (Hk' : known_writes (lg_writes l ++ delta_writes event)).
    { intros c [?|?]%elem_of_app; [by apply Hk|by apply (change_writes_known (ne_changes event))]. }
    split; [|exact Hk'].
    eapply implements_log_writes; [by apply step_delta_core|done..| |intros q; by apply level_at_unknown].
    intros q Hq. unfold level_at, delta_writes. cbn [lg_writes]. rewrite !foldl_app.
    destruct (find_scan_changes (ne_changes event) q (mkDeltaScan (ob_bids (en_book e)) (ob_asks (en_book e)) false false false))
      as [Hb Ha]; [done|apply He..|].
    pose proof (Hf NsBid q Hq) as HB. pose proof (Hf NsAsk q Hq) as HA. unfold level_at in HB, HA.
    rewrite <- HB, <- HA. split; [exact Hb|exact Ha].
  - split; [|done]. apply (implements_log_core e); [|done]. unfold step_entity. rewrite Ht.
    destruct (en_closed e); [by destruct e|apply status_entity_core].
  - unfold step_entity. rewrite Ht. destruct (closes event) eqn:Hcl; (split; [|done]).
    + eapply implements_log_writes; [rewrite lifecycle_entity_core, Hcl; done|done|done|done| |intros q; by apply level_at_unknown].
      intros q Hq. split; [apply (Hf NsBid q Hq)|apply (Hf NsAsk q Hq)].
    + apply (implements_log_core e); [|done]. by rewrite lifecycle_entity_core, Hcl.
Qed.

(** C14. The levels of an entity are those of its log: after any events, for every price that is a
    number, each side of the book finds exactly the size that the last write to that price since
    the last accepted snapshot said, nothing where it was deleted or never written; writes after
    the entity was closed, or before its first snapshot, are not in the log. *)
Theorem book_replays_log mode events id side price :
  id ≠ "" → not_nan price →
  om_find (side_order side) price (side_of side (entity_of (run_store events (store0 mode)) id)) =
    level_at side price (lg_writes (book_log id events)).
Proof.
  intros Hid Hp. rewrite run_store_entity_of. unfold book_log.
  assert (H : ∀ e l, entity_ok e → known_writes (lg_writes l) → implements_log e l →
    implements_log (foldl (λ e event, if reaches event id then step_entity event e else e) e events)
      (foldl log_step l (filter (λ ev, reaches ev id = true) events))).
  { induction events as [|ev events IH]; intros e l He Hk Hl; [done|]. cbn [foldl]. rewrite filter_cons.
    destruct (reaches ev id) eqn:Hr; [rewrite decide_True by done|rewrite decide_False by done; by apply IH].
    destruct (log_step_implements ev e l He Hk Hl). cbn [foldl]. apply IH; auto using step_entity_ok. }
  apply H; [apply entity_ok_initial|by intros c Hc%elem_of_nil| |done].
  split_and!; [done..|]. intros [] q _; cbn; done.
Qed.

(** ** A closed entity stays closed *)

(** Everything of an entity that trading reads, but the resolution. *)
Definition frozen (e : EntityState) :=
  (en_closed e, en_initialized e, en_status e, ob_bids (en_book e), ob_asks (en_book e), ob_best_bid (en_book e),
   ob_best_ask (en_book e), ob_crossed (en_book e), ob_tick_size (en_book e)).

Lemma step_entity_frozen event e :
  en_closed e = true → en_status e = EsClosed →
  frozen (step_entity event e) = frozen e ∧ (ob_resolved (en_book e) = true → ob_resolved (en_book (step_entity event e)) = true).
Proof.
  intros Hc Hs. unfold step_entity, lifecycle_entity. rewrite Hc.
  destruct (ne_event_type event); try (by destruct e);
    (destruct (String.eqb _ "market_resolved"); [|destruct (String.eqb _ "market_closed")]);
    destruct e as []; cbn in *; subst; done.
Qed.

Lemma run_entity_ok mode events id : entity_ok (entity_of (run_store events (store0 mode)) id).
Proof.
  rewrite run_store_entity_of.
  assert (H : ∀ e, entity_ok e → entity_ok (foldl (λ e event, if reaches event id then step_entity event e else e) e events)).
  { induction events as [|ev events IH]; intros e He; [done|]. cbn [foldl]. apply IH. case_match; auto using step_entity_ok. }
  apply H, entity_ok_initial.
Qed.

(** Once an entity is closed nothing trading reads of it changes: whatever events arrive it stays
    closed with the status Closed, its levels, best prices and tick size are what they were, and it
    stays resolved if it was. *)
Theorem closed_is_final mode events more id :
  let before := entity_of (run_store events (store0 mode)) id in
  let after := entity_of (run_store (events ++ more) (store0 mode)) id in
  en_closed before = true →
  frozen after = frozen before ∧ en_status after = EsClosed ∧
  (ob_resolved (en_book before) = true → ob_resolved (en_book after) = true).
Proof.
  intros before after Hc. subst after. unfold run_store. rewrite foldl_app. fold (run_store events (store0 mode)).
  fold (run_store more (run_store events (store0 mode))). rewrite run_store_entity_of. fold before.
  assert (Hs : en_status before = EsClosed).
  { pose proof (ok_status _ (run_entity_ok mode events id)) as Hst. unfold status_of in Hst. fold before in Hst. by rewrite Hc in Hst. }
  revert Hc Hs. generalize before. clear. induction more as [|ev more IH]; intros e Hc Hs; [done|]. cbn [foldl].
  destruct (reaches ev id); [|by apply IH]. destruct (step_entity_frozen ev e Hc Hs) as [Hf Hr].
  pose proof Hf as [= Hc' _ Hs' _ _ _ _ _ _].
  destruct (IH (step_entity ev e)) as (H1 & H2 & H3); [congruence..|]. split_and!; [congruence|done|auto].
Qed.

(** ** What a result reports *)

(** The state a result is made from, and the result. *)
Lemma make_result_spec code id msg ch s :
  let '(r, s') := make_result code id msg ch s in
  sr_code r = code ∧ sr_entity_id r = id ∧ sr_state_changed r = ch ∧
  es_entities s' = es_entities s ∧ es_errors s' = es_errors s ∧ es_hash_mode s' = es_hash_mode s ∧
  sr_book_version r = from_option en_last_packet_id 0 (if String.eqb id "" then None else store_get s id) ∧
  sr_full_hash_computed r = ch && negb (bool_decide (es_hash_mode s = HotPathLight)) ∧
  (sr_full_hash_computed r = true → id ≠ "" →
   sr_entity_hash r = from_option hash_entity 0 (es_entities s !! id) ∧ sr_global_hash r = hash_entity_map (es_entities s)).
Proof.
  unfold make_result. generalize (cheap_snapshot_fingerprint id (from_option en_last_packet_id 0
    (if String.eqb id "" then None else store_get s id)) 0 0 (from_option en_last_packet_id 0
    (if String.eqb id "" then None else store_get s id)) 0 (status_flags_for (if String.eqb id "" then None else store_get s id))).
  intros fingerprint. destruct s as [entities ? ? ? ? ? ? ? ? mode cache]. unfold store_get.
  destruct ch; cbn [andb negb orb]; [|by split_and!].
  destruct (String.eqb id "") eqn:Hid; cbn; destruct (bool_decide (mode = HotPathLight)); try (by split_and!).
  - unfold global_hash. cbn. destruct (cached_global_hash _ _); split_and!; try done. by apply String.eqb_eq in Hid.
  - unfold state_hash, cached_entity_hash, mark_dirty. cbn. rewrite Hid. cbn.
    destruct (entities !! id) as [e|] eqn:He; cbn; rewrite ?lookup_insert_eq; cbn;
      unfold global_hash, cached_global_hash; cbn; by split_and!.
Qed.

(** The marks of the handlers change the mutation flags of a result only. *)
Definition marks_only (mark : StateApplyResult → StateApplyResult) : Prop :=
  ∀ r, mark r = (r <| sr_mutation := sr_mutation (mark r) |>).

Lemma marks_only_id : marks_only (λ r, r).
Proof. by intros []. Qed.
Lemma marks_only_mark book lifecycle kind : marks_only (mark_result book lifecycle kind).
Proof. by intros []. Qed.

(** [rs] was made from a state that differs from [s] by the entity [id] and the counters: a result that
    is not acceptable counts one error, and one that reports no change left both sides alone. *)
Definition made_from (event : NormalizedEvent) (s : EntityStateStore) (rs : StateApplyResult * EntityStateStore) : Prop :=
  ∃ mark code id msg ch s1,
    rs = marked mark (make_result code id msg ch s1) ∧ marks_only mark ∧
    es_hash_mode s1 = es_hash_mode s ∧
    es_errors s1 = (if result_ok code then es_errors s else incr (es_errors s)) ∧
    (ch = true → id = resolve_entity_id event ∧ id ≠ "") ∧
    (ch = false → resolve_entity_id event ≠ "" →
     let e := entity_of s (resolve_entity_id event) in
     ob_bids (en_book (step_entity event e)) = ob_bids (en_book e) ∧ ob_asks (en_book (step_entity event e)) = ob_asks (en_book e)).

Lemma made_from_intro mark code id msg ch s1 event s :
  marks_only mark → es_hash_mode s1 = es_hash_mode s →
  es_errors s1 = (if result_ok code then es_errors s else incr (es_errors s)) →
  (ch = true → id = resolve_entity_id event ∧ id ≠ "") →
  (ch = false → resolve_entity_id event ≠ "" →
   let e := entity_of s (resolve_entity_id event) in
   ob_bids (en_book (step_entity event e)) = ob_bids (en_book e) ∧ ob_asks (en_book (step_entity event e)) = ob_asks (en_book e)) →
  made_from event s (marked mark (make_result code id msg ch s1)).
Proof. intros. by exists mark, code, id, msg, ch, s1. Qed.

Lemma marked_id rs : rs = marked (λ r, r) rs.
Proof. by destruct rs. Qed.

Lemma made_from_intro_id code id msg s1 event s :
  es_hash_mode s1 = es_hash_mode s →
  es_errors s1 = (if result_ok code then es_errors s else incr (es_errors s)) →
  (resolve_entity_id event ≠ "" →
   let e := entity_of s (resolve_entity_id event) in
   ob_bids (en_book (step_entity event e)) = ob_bids (en_book e) ∧ ob_asks (en_book (step_entity event e)) = ob_asks (en_book e)) →
  made_from event s (make_result code id msg false s1).
Proof. intros. rewrite (marked_id (make_result _ _ _ _ _)). by apply made_from_intro; [apply marks_only_id|..]. Qed.

#[local] Opaque make_result.
#[local] Hint Resolve marks_only_mark marks_only_id : core.

Lemma ignored_sides e : ob_bids (en_book (ignore_event e)) = ob_bids (en_book e) ∧ ob_asks (en_book (ignore_event e)) = ob_asks (en_book e).
Proof. by destruct e. Qed.

Lemma apply_snapshot_made event s : ne_event_type event = NeSnapshot → made_from event s (apply_snapshot event s).
Proof.
  intros Ht. unfold apply_snapshot. destruct (String.eqb_spec (resolve_entity_id event) "") as [Hid|Hid].
  - by apply made_from_intro_id.
  - destruct (en_closed _) eqn:Hc.
    + apply made_from_intro_id; [done..|]. intros _ e. unfold step_entity, e. rewrite Ht, Hc. apply ignored_sides.
    + destruct (snapshot_entity event _) as [e' inv]. destruct inv; apply made_from_intro; done || apply marks_only_mark.
Qed.

Lemma apply_delta_made event s : ne_event_type event = NeDelta → made_from event s (apply_delta event s).
Proof.
  intros Ht. unfold apply_delta. pose proof (marks_only_mark true false MkBookDelta) as Hm.
  destruct (String.eqb_spec (resolve_entity_id event) "") as [Hid|Hid]; [by apply made_from_intro|].
  destruct (en_closed _) eqn:Hc.
  { apply made_from_intro; try done. intros _ _ e. unfold step_entity, e. rewrite Ht, Hc. apply ignored_sides. }
  destruct (en_initialized _) eqn:Hi; cbn [negb]; [|by apply made_from_intro].
  assert (Hstep : ds_changed (scan_changes (en_book (entity_of s (resolve_entity_id event))) (ne_changes event)) = false →
    resolve_entity_id event ≠ "" → let e := entity_of s (resolve_entity_id event) in
    ob_bids (en_book (step_entity event e)) = ob_bids (en_book e) ∧ ob_asks (en_book (step_entity event e)) = ob_asks (en_book e)).
  { intros Hch _ e. pose proof (step_delta_core event e Ht Hc Hi) as Hcore. injection Hcore as _ _ -> ->.
    apply scan_unchanged in Hch as (Hb & Ha & _). split; [exact Hb|exact Ha]. }
  destruct (ds_changed _) eqn:Hch; destruct (ds_bad_side _), (ds_invalid _); cbn [orb negb]; by apply made_from_intro.
Qed.

Lemma apply_status_change_made event s : ne_event_type event = NeStatusChange → made_from event s (apply_status_change event s).
Proof.
  intros Ht. unfold apply_status_change. pose proof (marks_only_mark true false MkBookDelta) as Hm.
  destruct (String.eqb_spec (resolve_entity_id event) "") as [Hid|Hid]; [by apply made_from_intro|].
  destruct (en_closed _) eqn:Hc.
  { apply made_from_intro; try done. intros _ _ e. unfold step_entity, e. rewrite Ht, Hc. apply ignored_sides. }
  pose proof (status_entity_core event (entity_of s (resolve_entity_id event))) as Hcore.
  destruct (status_entity event _) as [[e' ch] inv] eqn:He. injection Hcore as _ _ Hb Ha.
  destruct inv, ch; apply made_from_intro; try done; intros _ _ e; unfold step_entity, e; by rewrite Ht, Hc, He.
Qed.

Lemma apply_lifecycle_made event s : made_from event s (apply_lifecycle_event event s).
Proof.
  unfold apply_lifecycle_event. pose proof (marks_only_mark false true MkLifecycle) as Hm.
  destruct (String.eqb_spec (resolve_entity_id event) "") as [Hid|Hid]; by apply made_from_intro.
Qed.

Lemma touch_made code msg event s s1 :
  result_ok code = true → es_hash_mode s1 = es_hash_mode s → es_errors s1 = es_errors s →
  ne_event_type event ∈ [NeUnknown; NeTradeEvent; NeHeartbeat; NeDecodeError] →
  ∀ id, made_from event s (make_result code id msg false s1).
Proof.
  intros Hok Hm He Ht id. apply made_from_intro_id; [done|by rewrite Hok|]. intros _ e. unfold step_entity.
  rewrite !elem_of_cons, elem_of_nil in Ht. destruct Ht as [->|[->|[->|[->|[]]]]]; by destruct e.
Qed.

Lemma store_apply_made event s : made_from event s (store_apply event s).
Proof.
  unfold store_apply. set (s0 := (s <| es_events_seen := incr (es_events_seen s) |>)).
  change (made_from event s) with (made_from event s0).
  assert (Ht0 : es_hash_mode (touch_entity event s0) = es_hash_mode s0 ∧ es_errors (touch_entity event s0) = es_errors s0)
    by (unfold touch_entity; by case_match).
  destruct (ne_event_type event) eqn:Ht;
    auto using apply_snapshot_made, apply_delta_made, apply_status_change_made, apply_lifecycle_made;
    apply touch_made; rewrite ?Ht; try done; try apply Ht0; set_solver.
Qed.

(** A result tells the truth about the store: only the entity the event resolves to is touched;
    when it reports no change, no level of any book changed; it carries full hashes exactly when it
    reports a change in a replay mode, and then they are the hashes of the entity and of the whole
    store as they now are; the error counter counts exactly the results that are not acceptable. *)
Theorem apply_reports_state event s :
  let '(r, s') := store_apply event s in
  (∀ id, id ≠ resolve_entity_id event → store_get s' id = store_get s id) ∧
  (sr_state_changed r = false → ∀ id side, side_of side (entity_of s' id) = side_of side (entity_of s id)) ∧
  sr_full_hash_computed r = sr_state_changed r && negb (bool_decide (es_hash_mode s = HotPathLight)) ∧
  (sr_full_hash_computed r = true →
   sr_entity_id r = resolve_entity_id event ∧
   sr_entity_hash r = debug_recomputed_state_hash s' (sr_entity_id r) ∧ sr_global_hash r = debug_recomputed_global_hash s') ∧
  es_errors s' = if result_ok (sr_code r) then es_errors s else incr (es_errors s).
Proof.
  pose proof (store_apply_made event s) as (mark & code & id & msg & ch & s1 & Hrs & Hmark & Hmode & Herr & Hid & Hsides).
  pose proof (store_apply_get event s) as Hget. pose proof (store_apply_entity_of event s) as Hof.
  destruct (store_apply event s) as [r s'] eqn:E. cbn [snd] in *.
  pose proof (make_result_spec code id msg ch s1) as Hspec. destruct (make_result code id msg ch s1) as [r0 s0].
  unfold marked in Hrs. injection Hrs as -> ->. cbn [fst snd] in *. rewrite (Hmark r0).
  destruct Hspec as (Hc & Hi & Hch & Hent & Herrs & Hmode' & _ & Hfull & Hhash). destruct r0; cbn in *. subst.
  split_and!.
  - intros i Hne. rewrite Hget. destruct (reaches event i) eqn:Hr; [|done]. apply reaches_eq in Hr as (? & _). congruence.
  - intros -> i side. rewrite Hof. destruct (reaches event i) eqn:Hr; [|done]. apply reaches_eq in Hr as (<- & Hne & _).
    destruct (Hsides eq_refl Hne) as [Hb Ha]. destruct side; cbn; done.
  - by rewrite Hmode.
  - intros Hf. assert (ch = true) as -> by (by destruct ch). destruct (Hid eq_refl) as [-> Hne].
    unfold debug_recomputed_state_hash, debug_recomputed_global_hash, store_get. rewrite Hent. split; [done|by apply Hhash].
  - by rewrite Herrs.
Qed.

(** ** What the model shows on concrete events *)

#[local] Transparent make_result.

Definition d0_50 : double := S754_finite false 4503599627370496 (-53).
Definition d0_60 : double := S754_finite false 5404319552844595 (-53).
Definition d10_0 : double := S754_finite false 5629499534213120 (-49).

Definition sample_snapshot : NormalizedEvent :=
  (event0 <| ne_packet_id := 1 |> <| ne_event_type := NeSnapshot |> <| ne_asset_id := "a"%string |>
          <| ne_bids := [mkBookLevel d0_50 d10_0] |> <| ne_asks := [mkBookLevel d0_60 d10_0] |>).
Definition sample_delta : NormalizedEvent :=
  (event0 <| ne_packet_id := 2 |> <| ne_event_type := NeDelta |> <| ne_asset_id := "a"%string |>
          <| ne_changes := [mkPriceLevelChange NsBid d0_60 d10_0; mkPriceLevelChange NsBid d0_50 d0_0] |>).
Definition sample_trade : NormalizedEvent :=
  (event0 <| ne_packet_id := 3 |> <| ne_event_type := NeTradeEvent |> <| ne_asset_id := "a"%string |>).
Definition sample_resolved : NormalizedEvent :=
  (event0 <| ne_packet_id := 4 |> <| ne_event_type := NeLifecycleEvent |> <| ne_asset_id := "a"%string |>
          <| ne_raw_type := "market_resolved"%string |> <| ne_winning_asset_id := "a"%string |>).

(** A trade counts as ignored on its entity, which is hashed, but leaves the cache clean: the hash the
    store answers is no longer that of its state. *)
Example trade_makes_hash_stale :
  let s := run_store [sample_snapshot; sample_trade] (store0 ReplayFull) in
  (state_hash s "a").1 ≠ debug_recomputed_state_hash s "a" ∧ (global_hash s).1 ≠ debug_recomputed_global_hash s.
Proof. vm_compute. done. Qed.

(** Two entities that differ in their id alone have the same hash. *)
Example hash_ignores_entity_id id1 id2 e : hash_entity (e <| en_entity_id := id1 |>) = hash_entity (e <| en_entity_id := id2 |>).
Proof. destruct e. unfold hash_entity. cbn -[mix_u64 mix_u32 mix_bool hash_order_book]. reflexivity. Qed.

(** A snapshot with an invalid level leaves the entity inconsistent and yet Live. *)
Example invalid_level_stays_live :
  let s := run_store [(sample_snapshot <| ne_bids := [mkBookLevel d10_0 d10_0] |>)] (store0 HotPathLight) in
  en_inconsistent (entity_of s "a") = true ∧ store_status s "a" = EsLive.
Proof. by vm_compute. Qed.

(** The divergence flag is not recomputed when the local book moves to the external best price. *)
Example divergence_is_stale :
  let quote := (event0 <| ne_event_type := NeStatusChange |> <| ne_asset_id := "a"%string |> <| ne_best_bid := Some d0_60 |>) in
  let s := run_store [sample_snapshot; quote; sample_delta] (store0 HotPathLight) in
  let book := en_book (entity_of s "a") in
  ob_external_bbo_diverged book = true ∧ ob_external_best_bid book = ob_best_bid book.
Proof. by vm_compute. Qed.

(** ** Witnesses *)

Lemma entity_store_invariant_witness :
  let s := run_store [sample_snapshot; sample_delta; sample_resolved] (store0 ReplayFull) in
  ∃ e, store_get s "a" = Some e ∧ en_closed e = true ∧ ob_best_bid (en_book e) = Some d0_60 ∧ entity_ok e.
Proof.
  intros s. destruct (store_get s "a") as [e|] eqn:E; [|by vm_compute in E].
  exists e. split; [done|].
  assert (H : from_option en_closed false (store_get s "a") = true ∧
    (store_get s "a" ≫= ob_best_bid ∘ en_book) = Some d0_60) by (vm_compute; done).
  rewrite E in H. destruct H as [Hc Hb]. split; [exact Hc|]. split; [exact Hb|].
  apply (entity_store_invariant ReplayFull [sample_snapshot; sample_delta; sample_resolved] "a" e E).
Defined.

Lemma book_replays_log_witness :
  let events := [sample_snapshot; sample_delta] in
  om_find SFgtb d0_60 (ob_bids (en_book (entity_of (run_store events (store0 HotPathLight)) "a"))) =
    level_at NsBid d0_60 (lg_writes (book_log "a" events)) ∧
  level_at NsBid d0_60 (lg_writes (book_log "a" events)) = Some d10_0 ∧
  level_at NsBid d0_50 (lg_writes (book_log "a" events)) = None.
Proof.
  intros events. split; [|by vm_compute].
  by apply (book_replays_log HotPathLight events "a" NsBid d0_60).
Defined.

Lemma closed_is_final_witness :
  let events := [sample_snapshot; sample_resolved] in
  let before := entity_of (run_store events (store0 HotPathLight)) "a" in
  let after := entity_of (run_store (events ++ [sample_delta; sample_snapshot]) (store0 HotPathLight)) "a" in
  en_closed before = true ∧ frozen after = frozen before.
Proof.
  intros events before after. assert (H : en_closed before = true) by (vm_compute; reflexivity).
  split; [exact H|]. apply (closed_is_final HotPathLight events [sample_delta; sample_snapshot] "a" H).
Defined.
