(* ===== verification/ChainConfirm.v ===== *)
(** * ChainConfirm: fills seen on the chain and the hints they confirm

    [engine/chain_confirm] keeps the fills decoded from exchange logs by id, and
    reconciles them with hints of trades seen earlier on the feed: a fill that
    matches one pending hint confirms it.  A reorganisation of the chain removes
    fills again.  The order in which [std::sort] leaves equal ages is not
    specified, so the sort is a parameter of the reconciler with its contract. *)

From S2P Require Import Prelude Decimals.
#[local] Open Scope Z_scope.

(** ** Data *)

(** [engine/chain_confirm/DirectionLabel.h:8-12] HintDirection. *)
Inductive HintDirection := HdUnknown | BuyAggressorHint | SellAggressorHint.
#[export] Instance HintDirection_eq_dec : EqDecision HintDirection.
Proof. solve_decision. Defined.

(** [engine/chain_confirm/DirectionLabel.h:20-24] ConfirmedDirection. *)
Inductive ConfirmedDirection := CdUnknown | BuyAggressor | SellAggressor.
#[export] Instance ConfirmedDirection_eq_dec : EqDecision ConfirmedDirection.
Proof. solve_decision. Defined.

(** [engine/chain_confirm/ConfirmedFill.h:10-14] FillMappingStatus. *)
Inductive FillMappingStatus := FmMapped | FmUnmappedFill | FmAmbiguousFill.
#[export] Instance FillMappingStatus_eq_dec : EqDecision FillMappingStatus.
Proof. solve_decision. Defined.

(** [engine/chain_confirm/ConfirmedFill.h:16-36] ConfirmedFill. *)
Record ConfirmedFill := mkConfirmedFill {
  cf_fill_id : string;
  cf_order_hash : string;
  cf_market_id : string;
  cf_asset_id : string;
  cf_price_tick : Z;
  cf_size_lots : Z;
  cf_direction : ConfirmedDirection;
  cf_mapping_status : FillMappingStatus;
  cf_block_number : Z;
  cf_tx_hash : string;
  cf_log_index : Z;
  cf_chain_seen_monotonic_ns : Z;
  cf_removed : bool
}.
Definition confirmed_fill0 : ConfirmedFill :=
  mkConfirmedFill "" "" "" "" 0 0 CdUnknown FmUnmappedFill 0 "" 0 0 false.

(** [engine/chain_confirm/ClassifiedFillRecord.h:10-16] FillClassification. *)
Inductive FillClassification := FcUnknown | FcChainConfirmed | FcChainRemoved | FcUnmappedFill | FcAmbiguousFill.
#[export] Instance FillClassification_eq_dec : EqDecision FillClassification.
Proof. solve_decision. Defined.

(** [engine/chain_confirm/ClassifiedFillRecord.h:18-40] ClassifiedFillRecord. *)
Record ClassifiedFillRecord := mkClassifiedFillRecord {
  cr_fill_id : string;
  cr_order_hash : string;
  cr_market_id : string;
  cr_asset_id : string;
  cr_price_tick : Z;
  cr_size_lots : Z;
  cr_direction : ConfirmedDirection;
  cr_mapping_status : FillMappingStatus;
  cr_classification : FillClassification;
  cr_block_number : Z;
  cr_tx_hash : string;
  cr_log_index : Z;
  cr_chain_seen_monotonic_ns : Z;
  cr_source_sequence : Z;
  cr_removed : bool
}.
Definition classified0 : ClassifiedFillRecord :=
  mkClassifiedFillRecord "" "" "" "" 0 0 CdUnknown FmUnmappedFill FcUnknown 0 "" 0 0 0 false.

(** [engine/chain_confirm/ClassifiedFillRecord.cpp:5-36] classify_confirmed_fill. *)
Definition classify_confirmed_fill (fill : ConfirmedFill) (source_sequence : Z) : ClassifiedFillRecord :=
  mkClassifiedFillRecord (cf_fill_id fill) (cf_order_hash fill) (cf_market_id fill) (cf_asset_id fill)
    (cf_price_tick fill) (cf_size_lots fill) (cf_direction fill) (cf_mapping_status fill)
    (if cf_removed fill then FcChainRemoved
     else match cf_mapping_status fill with
          | FmMapped => FcChainConfirmed
          | FmAmbiguousFill => FcAmbiguousFill
          | FmUnmappedFill => FcUnmappedFill
          end)
    (cf_block_number fill) (cf_tx_hash fill) (cf_log_index fill) (cf_chain_seen_monotonic_ns fill)
    source_sequence (cf_removed fill).

(** [engine/chain_confirm/ConfirmedFill.cpp:7-9] fill_id. *)
Definition fill_id (tx_hash : string) (log_index : Z) : string :=
  (tx_hash ++ ":" ++ pretty (Z.to_N log_index))%string.

(** ** The store of confirmed fills *)

(** [engine/chain_confirm/ConfirmedFillStore.h:11-17] ConfirmedFillStoreCode. *)
Inductive ConfirmedFillStoreCode := FsInserted | FsDuplicate | FsUpdated | FsMarkedRemoved | FsRemovedUnknown.
#[export] Instance ConfirmedFillStoreCode_eq_dec : EqDecision ConfirmedFillStoreCode.
Proof. solve_decision. Defined.

(** The fills by id. *)
Abbreviation ConfirmedFillStore := (gmap string ConfirmedFill).

(** The id under which a fill is kept. *)
Definition store_id (fill : ConfirmedFill) : string :=
  if String.eqb (cf_fill_id fill) "" then fill_id (cf_tx_hash fill) (cf_log_index fill) else cf_fill_id fill.

(** [engine/chain_confirm/ConfirmedFillStore.cpp:35-43] the fields that make a fill a duplicate. *)
Definition same_fill (a b : ConfirmedFill) : Prop :=
  cf_block_number a = cf_block_number b ∧ cf_tx_hash a = cf_tx_hash b ∧ cf_log_index a = cf_log_index b ∧
  cf_price_tick a = cf_price_tick b ∧ cf_size_lots a = cf_size_lots b ∧ cf_asset_id a = cf_asset_id b ∧
  cf_market_id a = cf_market_id b ∧ cf_direction a = cf_direction b.
#[export] Instance same_fill_dec a b : Decision (same_fill a b).
Proof. unfold same_fill. apply _. Defined.

(** [engine/chain_confirm/ConfirmedFillStore.cpp:5-52] ConfirmedFillStore::upsert. *)
Definition upsert (fill : ConfirmedFill) (fills : ConfirmedFillStore) : (ConfirmedFillStoreCode * string) * ConfirmedFillStore :=
  let id := store_id fill in
  let normalized := (fill <| cf_fill_id := id |>) in
  match fills !! id with
  | None =>
      ((if cf_removed fill then FsRemovedUnknown else FsInserted, id), <[id := normalized]> fills)
  | Some old =>
      if cf_removed fill then ((FsMarkedRemoved, id), <[id := (old <| cf_removed := true |>)]> fills)
      else if negb (cf_removed old) && bool_decide (same_fill old normalized) then ((FsDuplicate, id), fills)
      else ((FsUpdated, id), <[id := normalized]> fills)
  end.

(** [engine/chain_confirm/ConfirmedFillStore.cpp:71-79] ConfirmedFillStore::active_count. *)
Definition active_count (fills : ConfirmedFillStore) : Z :=
  map_sum (λ fill, if cf_removed fill then 0 else 1) fills.

Definition upsert_all (events : list ConfirmedFill) (fills : ConfirmedFillStore) : ConfirmedFillStore :=
  foldl (λ fills fill, (upsert fill fills).2) fills events.

(** The last event of an id. *)
Definition last_of (id : string) (events : list ConfirmedFill) : option ConfirmedFill :=
  last (filter (λ f, store_id f = id) events).

Lemma same_fill_refl f : same_fill f f.
Proof. unfold same_fill. by split_and!. Qed.

Lemma upsert_other fill fills id : id ≠ store_id fill → (upsert fill fills).2 !! id = fills !! id.
Proof.
  intros Hne. unfold upsert. destruct (fills !! store_id fill) as [old|]; cbn; [|by rewrite lookup_insert_ne].
  destruct (cf_removed fill); [cbn; by rewrite lookup_insert_ne|].
  destruct (negb _ && _); cbn; [done|by rewrite lookup_insert_ne].
Qed.

(** What the store keeps under an id after an event of it. *)
Lemma upsert_own fill fills :
  ∃ kept, (upsert fill fills).2 !! store_id fill = Some kept ∧ cf_removed kept = cf_removed fill ∧
    (cf_removed fill = false → same_fill kept fill).
Proof.
  unfold upsert. destruct (fills !! store_id fill) as [old|] eqn:Hold; cbn [snd].
  2:{ rewrite lookup_insert_eq. eexists. split; [done|]. by destruct fill. }
  destruct (cf_removed fill) eqn:Hr; cbn [snd].
  { rewrite lookup_insert_eq. eexists. split; [done|]. by destruct old. }
  destruct (negb (cf_removed old) && _) eqn:Hd; cbn [snd]; breflect.
  - exists old. split; [done|]. split; [done|]. intros _. by destruct fill.
  - rewrite lookup_insert_eq. eexists. split; [done|]. by destruct fill.
Qed.

(** After any events the store keeps a fill under an id exactly when some event had that id, and it
    is active exactly when the last of them was not a removal; then it agrees with that event in
    block, transaction, log, price, size, asset, market and direction.  Repeated deliveries,
    corrections and reorganisations all come out as the last word about the fill. *)
Theorem fill_store_last_word events id :
  match last_of id events with
  | None => upsert_all events ∅ !! id = None
  | Some fill => ∃ kept, upsert_all events ∅ !! id = Some kept ∧ cf_removed kept = cf_removed fill ∧
      (cf_removed fill = false → same_fill kept fill)
  end.
Proof.
  unfold upsert_all, last_of. induction events as [|fill events IH] using rev_ind; [done|].
  rewrite foldl_app, filter_app, filter_cons, filter_nil. cbn [foldl].
  destruct (decide (store_id fill = id)) as [<-|Hne].
  - rewrite last_snoc. apply upsert_own.
  - rewrite app_nil_r. rewrite upsert_other by congruence. exact IH.
Qed.

(** ** Pending hints *)

(** [engine/chain_confirm/PendingTradeHint.h:10-29] PendingTradeHint, less the fields nothing reads. *)
Record PendingTradeHint := mkPendingTradeHint {
  ph_hint_id : Z;
  ph_market_id : string;
  ph_asset_id : string;
  ph_price_tick : Z;
  ph_size_lots : Z;
  ph_ws_recv_monotonic_ns : Z;
  ph_hint_direction : HintDirection;
  ph_finalized : bool
}.

(** [engine/chain_confirm/PendingTradeHintRing.cpp:7-8] PendingTradeHintRing: the capacity it uses. *)
Definition ring_capacity (capacity : nat) : nat := if Nat.eqb capacity 0 then 1 else capacity.

(** [engine/chain_confirm/PendingTradeHintRing.cpp:10-16] PendingTradeHintRing::push. *)
Definition push_hint (capacity : nat) (hint : PendingTradeHint) (hints : list PendingTradeHint) : list PendingTradeHint :=
  (if Nat.leb capacity (length hints) then tail hints else hints) ++ [hint].

(** [engine/chain_confirm/PendingTradeHintRing.cpp:40-42] the distance of two instants. *)
Definition age_of (target_ns : Z) (hint : PendingTradeHint) : Z :=
  if target_ns <=? ph_ws_recv_monotonic_ns hint then ph_ws_recv_monotonic_ns hint - target_ns
  else target_ns - ph_ws_recv_monotonic_ns hint.

(** [engine/chain_confirm/PendingTradeHintRing.cpp:29-46] candidates, the tests of the loop. *)
Definition hint_matches (market_id asset_id : string) (price_tick size_lots target_ns window_ns : Z)
    (hint : PendingTradeHint) : bool :=
  negb (ph_finalized hint) && String.eqb (ph_market_id hint) market_id && String.eqb (ph_asset_id hint) asset_id
  && (ph_price_tick hint =? price_tick) && (ph_size_lots hint =? size_lots) && (age_of target_ns hint <=? window_ns).

(** [engine/chain_confirm/PendingTradeHintRing.cpp:67-89] PendingTradeHintRing::expire: the expired hints and
    those that stay. *)
Definition hint_expired (now_ns max_age_ns : Z) (hint : PendingTradeHint) : bool :=
  let age := if ph_ws_recv_monotonic_ns hint <=? now_ns then now_ns - ph_ws_recv_monotonic_ns hint else 0 in
  negb (ph_finalized hint) && (max_age_ns <? age).

Definition expire_hints (now_ns max_age_ns : Z) (hints : list PendingTradeHint) :
    list PendingTradeHint * list PendingTradeHint :=
  (filter (λ h, hint_expired now_ns max_age_ns h = true) hints,
   filter (λ h, hint_expired now_ns max_age_ns h = false) hints).

(** ** Reconciliation *)

(** [engine/chain_confirm/ReconciliationResult.h:11-20] ReconciliationStatus. *)
Inductive ReconciliationStatus :=
| RcConfirmedOneToOne | RcConfirmedOneToMany | RcConfirmedManyToOne | RcAmbiguous
| RcUnmatchedHint | RcUnmatchedFill | RcExpiredHint | RcRemovedByReorg.
#[export] Instance ReconciliationStatus_eq_dec : EqDecision ReconciliationStatus.
Proof. solve_decision. Defined.

(** [engine/chain_confirm/ReconciliationResult.h:22-39] ReconciliationResult. *)
Record ReconciliationResult := mkReconciliationResult {
  rr_status : ReconciliationStatus;
  rr_fill_id : string;
  rr_hint_ids : list Z;
  rr_market_id : string;
  rr_asset_id : string;
  rr_price_tick : Z;
  rr_size_lots : Z;
  rr_hint_direction : HintDirection;
  rr_confirmed_direction : ConfirmedDirection;
  rr_candidate_count : Z;
  rr_finalized : bool;
  rr_reason : string
}.

(** [engine/chain_confirm/FillReconciler.cpp:10-23] base_result_from_hint. *)
Definition base_result_from_hint (hint : PendingTradeHint) (status : ReconciliationStatus) (reason : string) : ReconciliationResult :=
  mkReconciliationResult status "" [ph_hint_id hint] (ph_market_id hint) (ph_asset_id hint) (ph_price_tick hint)
    (ph_size_lots hint) (ph_hint_direction hint) CdUnknown 0 false reason.

(** [engine/chain_confirm/FillReconciler.cpp:25-38] base_result_from_fill. *)
Definition base_result_from_fill (fill : ConfirmedFill) (status : ReconciliationStatus) (reason : string) : ReconciliationResult :=
  mkReconciliationResult status (cf_fill_id fill) [] (cf_market_id fill) (cf_asset_id fill) (cf_price_tick fill)
    (cf_size_lots fill) HdUnknown (cf_direction fill) 0 false reason.

(** [engine/chain_confirm/ConfirmedFill.cpp:11-22] to_string of a mapping status. *)
Definition mapping_status_string (status : FillMappingStatus) : string :=
  match status with FmMapped => "Mapped" | FmUnmappedFill => "UnmappedFill" | FmAmbiguousFill => "AmbiguousFill" end.

(** [engine/chain_confirm/ChainConfirmConfig.h:8-24] ChainConfirmConfig, the fields the reconciler reads. *)
Record ChainConfirmConfig := mkChainConfirmConfig {
  cc_pending_window_ms : Z;
  cc_max_candidate_matches : Z;
  cc_expire_unmatched_ms : Z
}.
Definition confirm_config0 : ChainConfirmConfig := mkChainConfirmConfig 5000 8 10000.

(** [engine/chain_confirm/FillReconciler.cpp:168-170] pending_window_ns. *)
Definition pending_window_ns (c : ChainConfirmConfig) : Z := wrap_u64 (cc_pending_window_ms c * 1000000).
(** [engine/chain_confirm/FillReconciler.cpp:172-174] expire_unmatched_ns. *)
Definition expire_unmatched_ns (c : ChainConfirmConfig) : Z := wrap_u64 (cc_expire_unmatched_ms c * 1000000).

(** [engine/chain_confirm/FillReconciler.h:38-41] FillReconciler: its pending hints and the store it was given, if any. *)
Record FillReconciler := mkFillReconciler {
  rc_pending : list PendingTradeHint;
  rc_store : option ConfirmedFillStore;
  rc_config : ChainConfirmConfig
}.

(** [std::sort] by age: some permutation of the matches with no age out of order. *)
Class AgeSort (sort : Z → list (nat * PendingTradeHint) → list (nat * PendingTradeHint)) := {
  age_sort_perm target l : sort target l ≡ₚ l;
  age_sort_sorted target l : StronglySorted (λ a b, age_of target a.2 <= age_of target b.2) (sort target l)
}.

Section reconciler.
Context (sort : Z → list (nat * PendingTradeHint) → list (nat * PendingTradeHint)).

(** [engine/chain_confirm/PendingTradeHintRing.cpp:18-65] PendingTradeHintRing::candidates: the matching hints
    with their positions, nearest in time first. *)
Definition hint_candidates (market_id asset_id : string) (price_tick size_lots target_ns window_ns : Z)
    (hints : list PendingTradeHint) : list (nat * PendingTradeHint) :=
  sort target_ns
    (filter (λ ih, hint_matches market_id asset_id price_tick size_lots target_ns window_ns ih.2 = true)
       (imap pair hints)).

(** [engine/chain_confirm/FillReconciler.cpp:50-60] on_ws_hint. *)
Definition on_ws_hint (hint : PendingTradeHint) (rc : FillReconciler) : ReconciliationResult * FillReconciler :=
  (base_result_from_hint hint RcUnmatchedHint "WS hint stored as unconfirmed",
   (rc <| rc_pending := push_hint (ring_capacity 4096) hint (rc_pending rc) |>)).

(** [engine/chain_confirm/FillReconciler.cpp:62-140] on_chain_fill. *)
Definition on_chain_fill (fill : ConfirmedFill) (rc : FillReconciler) : ReconciliationResult * FillReconciler :=
  let rc := (rc <| rc_store := (λ s, (upsert fill s).2) <$> rc_store rc |>) in
  if cf_removed fill then (base_result_from_fill fill RcRemovedByReorg "chain log removed by reorg", rc)
  else if negb (bool_decide (cf_mapping_status fill = FmMapped)) || String.eqb (cf_market_id fill) ""
          || String.eqb (cf_asset_id fill) "" then
    (base_result_from_fill fill RcUnmatchedFill (mapping_status_string (cf_mapping_status fill)), rc)
  else
    let candidates :=
      hint_candidates (cf_market_id fill) (cf_asset_id fill) (cf_price_tick fill) (cf_size_lots fill)
        (cf_chain_seen_monotonic_ns fill) (pending_window_ns (rc_config rc)) (rc_pending rc) in
    let max := cc_max_candidate_matches (rc_config rc) in
    let candidates :=
      if (0 <? max) && (max <? Z.of_nat (length candidates)) then take (Z.to_nat max) candidates else candidates in
    match candidates with
    | [] => (base_result_from_fill fill RcUnmatchedFill "no matching WS hint", rc)
    | [(i, hint)] =>
        let r := base_result_from_fill fill RcConfirmedOneToOne "chain fill confirmed WS hint" in
        ((r <| rr_hint_ids := [ph_hint_id hint] |> <| rr_hint_direction := ph_hint_direction hint |>
            <| rr_candidate_count := 1 |> <| rr_finalized := true |>),
         (rc <| rc_pending := <[i := (hint <| ph_finalized := true |>)]> (rc_pending rc) |>))
    | _ =>
        let r := base_result_from_fill fill RcAmbiguous "multiple WS hints match chain fill" in
        ((r <| rr_candidate_count := Z.of_nat (length candidates) |>
            <| rr_hint_ids := (λ ih, ph_hint_id ih.2) <$> candidates |>), rc)
    end.

(** [engine/chain_confirm/FillReconciler.cpp:142-162] expire_unmatched. *)
Definition expire_unmatched (now_ns : Z) (rc : FillReconciler) : list ReconciliationResult * FillReconciler :=
  let '(expired, kept) := expire_hints now_ns (expire_unmatched_ns (rc_config rc)) (rc_pending rc) in
  ((λ h, base_result_from_hint h RcExpiredHint "WS hint expired without chain confirmation") <$> expired,
   (rc <| rc_pending := kept |>)).

(** The calls of a run. *)
Inductive ReconcilerOp :=
| OpHint (hint : PendingTradeHint)
| OpFill (fill : ConfirmedFill)
| OpExpire (now_ns : Z).

Definition reconciler_step (op : ReconcilerOp) (rc : FillReconciler) : list ReconciliationResult * FillReconciler :=
  match op with
  | OpHint hint => let '(r, rc) := on_ws_hint hint rc in ([r], rc)
  | OpFill fill => let '(r, rc) := on_chain_fill fill rc in ([r], rc)
  | OpExpire now_ns => expire_unmatched now_ns rc
  end.

Fixpoint run_reconciler (ops : list ReconcilerOp) (rc : FillReconciler) : list ReconciliationResult * FillReconciler :=
  match ops with
  | [] => ([], rc)
  | op :: ops =>
      let '(rs, rc) := reconciler_step op rc in
      let '(rs', rc) := run_reconciler ops rc in
      (rs ++ rs', rc)
  end.
End reconciler.

(** ** A hint is settled once *)

(** The hints a list of results settles: confirmed by a fill, or expired. *)
Definition settles (r : ReconciliationResult) : list Z :=
  match rr_status r with RcConfirmedOneToOne | RcExpiredHint => rr_hint_ids r | _ => [] end.
Definition settled_ids (rs : list ReconciliationResult) : list Z := concat (settles <$> rs).

(** The hints a run is given. *)
Definition pushed_ids (ops : list ReconcilerOp) : list Z :=
  omap (λ op, match op with OpHint h => Some (ph_hint_id h) | _ => None end) ops.

(** The hints that can still be settled. *)
Definition open_ids (hints : list PendingTradeHint) : list Z :=
  ph_hint_id <$> filter (λ h, ph_finalized h = false) hints.

Lemma open_ids_app l1 l2 : open_ids (l1 ++ l2) = open_ids l1 ++ open_ids l2.
Proof. unfold open_ids. by rewrite filter_app, fmap_app. Qed.

(** Finalizing an open hint takes its id out of the open ones. *)
Lemma open_ids_finalize hints i h :
  hints !! i = Some h → ph_finalized h = false →
  open_ids hints ≡ₚ ph_hint_id h :: open_ids (<[i := (h <| ph_finalized := true |>)]> hints).
Proof.
  intros Hi Hf. unfold open_ids. rewrite insert_take_drop by (by apply lookup_lt_Some in Hi).
  rewrite <- (take_drop_middle hints i h Hi) at 1.
  rewrite !filter_app, !filter_cons_True, filter_cons_False by (by destruct h).
  rewrite !fmap_app, fmap_cons. symmetry. apply Permutation_middle.
Qed.

(** Expiry splits the open hints into the expired and the kept. *)
Lemma open_ids_expire now age hints :
  open_ids hints ≡ₚ (ph_hint_id <$> (expire_hints now age hints).1) ++ open_ids (expire_hints now age hints).2.
Proof.
  unfold expire_hints, open_ids; cbn [fst snd]. induction hints as [|h hints IH]; [done|].
  destruct (hint_expired now age h) eqn:He.
  - assert (Hf : ph_finalized h = false) by (unfold hint_expired in He; by breflect).
    rewrite (filter_cons_True (λ h, ph_finalized h = false)), (filter_cons_True (λ h, hint_expired now age h = true)),
      (filter_cons_False (λ h, hint_expired now age h = false)) by congruence.
    cbn. by rewrite IH.
  - rewrite (filter_cons_False (λ h, hint_expired now age h = true)), (filter_cons_True (λ h, hint_expired now age h = false)) by congruence.
    destruct (ph_finalized h) eqn:Hf.
    + rewrite !(filter_cons_False (λ h, ph_finalized h = false)) by congruence. exact IH.
    + rewrite !(filter_cons_True (λ h, ph_finalized h = false)) by done. cbn. rewrite IH. by rewrite Permutation_middle.
Qed.

Section settled_once.
Context (sort : Z → list (nat * PendingTradeHint) → list (nat * PendingTradeHint)) `{!AgeSort sort}.

(** A candidate is an open hint at its position that matches the fill. *)
Lemma hint_candidates_elem market asset price size target window hints i h :
  (i, h) ∈ hint_candidates sort market asset price size target window hints →
  hints !! i = Some h ∧ hint_matches market asset price size target window h = true.
Proof.
  unfold hint_candidates. rewrite age_sort_perm, list_elem_of_filter.
  intros [Hm (j & h' & [= <- <-] & Hj)%elem_of_lookup_imap]. done.
Qed.

Lemma hint_matches_open market asset price size target window h :
  hint_matches market asset price size target window h = true → ph_finalized h = false.
Proof. unfold hint_matches. intros H. breflect. done. Qed.

(** A result names a hint it matches. *)
Definition result_matches (r : ReconciliationResult) (h : PendingTradeHint) : Prop :=
  rr_hint_ids r = [ph_hint_id h] ∧ rr_market_id r = ph_market_id h ∧ rr_asset_id r = ph_asset_id h ∧
  rr_price_tick r = ph_price_tick h ∧ rr_size_lots r = ph_size_lots h.

(** The cases of a fill: one open hint is confirmed, or no hint is touched. *)
Lemma on_chain_fill_cases fill rc :
  let '(r, rc') := on_chain_fill sort fill rc in
  (rr_status r = RcConfirmedOneToOne ∧ ∃ i h, rc_pending rc !! i = Some h ∧ ph_finalized h = false ∧ result_matches r h ∧
     rc_pending rc' = <[i := (h <| ph_finalized := true |>)]> (rc_pending rc)) ∨
  (settles r = [] ∧ rr_status r ≠ RcConfirmedOneToOne ∧ rc_pending rc' = rc_pending rc).
Proof.
  unfold on_chain_fill. destruct (cf_removed fill); [by right|]. destruct (_ || _ || _); [by right|].
  destruct rc as [pending store config]; cbn [rc_pending rc_store rc_config].
  set (cs := hint_candidates _ _ _ _ _ _ _ _).
  assert (Hcs : ∀ i h, (i, h) ∈ cs → pending !! i = Some h ∧ hint_matches (cf_market_id fill) (cf_asset_id fill)
    (cf_price_tick fill) (cf_size_lots fill) (cf_chain_seen_monotonic_ns fill) (pending_window_ns config) h = true).
  { intros i h. apply hint_candidates_elem. }
  set (cs' := if _ && _ then take _ cs else cs).
  assert (Hcs' : ∀ ih, ih ∈ cs' → ih ∈ cs).
  { subst cs'. intros ih. destruct (_ && _); [|done]. intros (j & Hj & _)%elem_of_take. by apply list_elem_of_lookup_2 in Hj. }
  clearbody cs'. destruct cs' as [|[i h] [|]]; [by right| |by right].
  left. split; [done|]. destruct (Hcs i h) as [Hi Hm]; [apply Hcs'; left|].
  exists i, h. split; [done|]. split; [by apply hint_matches_open in Hm|].
  unfold hint_matches in Hm. breflect. by split_and!.
Qed.

(** The hints a step hands in, and what two hints share when they differ in being finalized. *)
Definition hints_of (ops : list ReconcilerOp) : list PendingTradeHint :=
  omap (λ op, match op with OpHint h => Some h | _ => None end) ops.

Definition same_hint (a b : PendingTradeHint) : Prop :=
  ph_hint_id a = ph_hint_id b ∧ ph_market_id a = ph_market_id b ∧ ph_asset_id a = ph_asset_id b ∧
  ph_price_tick a = ph_price_tick b ∧ ph_size_lots a = ph_size_lots b.

Lemma pushed_ids_hints ops : pushed_ids ops = ph_hint_id <$> hints_of ops.
Proof. unfold pushed_ids, hints_of. induction ops as [|[] ops IH]; cbn; [done|by rewrite IH|done..]. Qed.

Lemma pushed_ids_cons op ops : pushed_ids (op :: ops) = pushed_ids [op] ++ pushed_ids ops.
Proof. unfold pushed_ids. by rewrite <- omap_app. Qed.

(** One step: what it settles was open or is new, and what stays open was too. *)
Lemma reconciler_step_ids op rc :
  let '(rs, rc') := reconciler_step sort op rc in
  settled_ids rs ++ open_ids (rc_pending rc') ⊆+ open_ids (rc_pending rc) ++ pushed_ids [op].
Proof.
  destruct op as [h|f|now]; cbn [reconciler_step].
  - destruct rc as [pending store config]. unfold on_ws_hint.
    change (open_ids (push_hint (ring_capacity 4096) h pending) ⊆+ open_ids pending ++ [ph_hint_id h]). unfold push_hint. rewrite open_ids_app. apply submseteq_app.
    + case_match; [|done]. destruct pending as [|h0 pending]; [done|]. cbn [tail].
      change (h0 :: pending) with ([h0] ++ pending). rewrite open_ids_app. by apply submseteq_inserts_l.
    + unfold open_ids. rewrite filter_cons, filter_nil. case_decide; [done|]. apply submseteq_nil_l.
  - pose proof (on_chain_fill_cases f rc) as H. destruct (on_chain_fill sort f rc) as [r rc'].
    cbn [pushed_ids omap list_omap]. rewrite app_nil_r. unfold settled_ids. cbn [fmap list_fmap concat]. rewrite app_nil_r.
    destruct H as [(Hs & i & h & Hi & Hf & (Hids & _) & Hp)|(Hs & _ & Hp)]; rewrite Hp.
    + unfold settles. rewrite Hs, Hids. rewrite (open_ids_finalize _ _ _ Hi Hf). done.
    + by rewrite Hs.
  - unfold expire_unmatched. destruct (expire_hints _ _ _) as [expired kept] eqn:E. destruct rc as [pending store config]. cbn.
    rewrite app_nil_r. cbn [rc_pending rc_config] in E.
    rewrite (open_ids_expire now (expire_unmatched_ns config) pending), E. cbn [fst snd].
    assert (H : settled_ids ((λ h, base_result_from_hint h RcExpiredHint "WS hint expired without chain confirmation") <$> expired)
      = ph_hint_id <$> expired); [|by rewrite H].
    clear E. unfold settled_ids. induction expired as [|h l IH]; [done|]. cbn. by rewrite IH.
Qed.

Lemma run_reconciler_ids ops rc :
  let '(rs, rc') := run_reconciler sort ops rc in
  settled_ids rs ++ open_ids (rc_pending rc') ⊆+ open_ids (rc_pending rc) ++ pushed_ids ops.
Proof.
  revert rc. induction ops as [|op ops IH]; intros rc; cbn [run_reconciler]; [by rewrite app_nil_r|].
  pose proof (reconciler_step_ids op rc) as Hstep. destruct (reconciler_step sort op rc) as [rs rc'].
  specialize (IH rc'). destruct (run_reconciler sort ops rc') as [rs' rc''].
  unfold settled_ids in *. rewrite fmap_app, concat_app, <- app_assoc.
  etrans; [apply submseteq_app; [done|exact IH]|]. rewrite app_assoc.
  etrans; [apply submseteq_app; [exact Hstep|done]|]. by rewrite <- app_assoc, <- pushed_ids_cons.
Qed.

(** The pending hints come from the hints handed in. *)
Lemma reconciler_step_from op rc :
  let '(rs, rc') := reconciler_step sort op rc in
  (∀ h, h ∈ rc_pending rc' → ∃ h0, h0 ∈ rc_pending rc ++ hints_of [op] ∧ same_hint h h0) ∧
  (∀ r, r ∈ rs → rr_status r = RcConfirmedOneToOne → ∃ h, h ∈ rc_pending rc ∧ result_matches r h).
Proof.
  assert (Hrefl : ∀ h, same_hint h h) by (intros h; by split_and!).
  destruct op as [h|f|now]; cbn [reconciler_step].
  - destruct rc as [pending store config]. cbn. split; [|by intros r ->%list_elem_of_singleton].
    intros h'. unfold push_hint. rewrite elem_of_app. intros [Hin|Hin]; exists h'; (split; [|done]); apply elem_of_app; [left|by right].
    case_match; [|done]. destruct pending; [done|]. by right.
  - pose proof (on_chain_fill_cases f rc) as H. destruct (on_chain_fill sort f rc) as [r rc'].
    cbn [hints_of omap list_omap]. rewrite app_nil_r. destruct H as [(Hs & i & h & Hi & Hf & Hm & Hp)|(_ & Hs & Hp)]; rewrite Hp.
    + split; [|intros r' ->%list_elem_of_singleton _; exists h; by eauto using list_elem_of_lookup_2].
      intros h' Hin. apply list_elem_of_lookup in Hin as (j & Hj).
      apply list_lookup_insert_Some in Hj as [(<- & <- & _)|(_ & Hj)].
      * exists h. split; [by eapply list_elem_of_lookup_2|]. by destruct h.
      * exists h'. eauto using list_elem_of_lookup_2.
    + split; [by eauto|]. by intros r' ->%list_elem_of_singleton ?.
  - unfold expire_unmatched, expire_hints. destruct rc as [pending store config]. cbn. rewrite app_nil_r. split.
    + intros h [_ Hin]%list_elem_of_filter. eauto.
    + intros r (h & -> & _)%list_elem_of_fmap. done.
Qed.

Lemma run_reconciler_from ops rc :
  let '(rs, _) := run_reconciler sort ops rc in
  ∀ r, r ∈ rs → rr_status r = RcConfirmedOneToOne → ∃ h, h ∈ rc_pending rc ++ hints_of ops ∧ result_matches r h.
Proof.
  revert rc. induction ops as [|op ops IH]; intros rc; cbn [run_reconciler]; [by intros r Hr%elem_of_nil|].
  pose proof (reconciler_step_from op rc) as Hstep. destruct (reconciler_step sort op rc) as [rs rc'].
  destruct Hstep as [Hfrom Hres]. specialize (IH rc'). destruct (run_reconciler sort ops rc') as [rs' rc''].
  intros r [Hr|Hr]%elem_of_app Hs.
  - destruct (Hres r Hr Hs) as (h & Hh & Hm). exists h. split; [by apply elem_of_app; left|done].
  - destruct (IH r Hr Hs) as (h & [Hh|Hh]%elem_of_app & Hm).
    + destruct (Hfrom h Hh) as (h0 & Hh0 & Hsame). exists h0. split.
      * change (hints_of (op :: ops)) with (hints_of ([op] ++ ops)). unfold hints_of in *. rewrite omap_app. set_solver.
      * destruct Hm as (?&?&?&?&?), Hsame as (?&?&?&?&?). split_and!; congruence.
    + exists h. split; [|done]. change (hints_of (op :: ops)) with (hints_of ([op] ++ ops)). unfold hints_of in *. rewrite omap_app. set_solver.
Qed.
End settled_once.

Definition reconciler0 (store : option ConfirmedFillStore) (config : ChainConfirmConfig) : FillReconciler :=
  mkFillReconciler [] store config.

(** C16. However hints, chain fills, removals and expiries interleave, a hint handed in under an id of its
    own is settled at most once: it is confirmed by one fill or it expires, never both and never
    twice; and a fill is only ever reported as confirming a hint of its market, asset, price and
    size. *)
Theorem hints_settle_once sort `{!AgeSort sort} ops store config :
  NoDup (pushed_ids ops) →
  let rs := (run_reconciler sort ops (reconciler0 store config)).1 in
  NoDup (settled_ids rs) ∧ (∀ id, id ∈ settled_ids rs → id ∈ pushed_ids ops) ∧
  ∀ r, r ∈ rs → rr_status r = RcConfirmedOneToOne → ∃ h, OpHint h ∈ ops ∧ result_matches r h.
Proof.
  intros Hnd rs. pose proof (run_reconciler_ids sort ops (reconciler0 store config)) as Hids.
  pose proof (run_reconciler_from sort ops (reconciler0 store config)) as Hfrom. subst rs.
  destruct (run_reconciler sort ops _) as [rs rc]. cbn [fst]. cbn in Hids, Hfrom.
  assert (Hsub : settled_ids rs ⊆+ pushed_ids ops) by (etrans; [|exact Hids]; by apply submseteq_inserts_r).
  split_and!.
  - apply submseteq_Permutation in Hsub as (rest & Hperm). rewrite Hperm in Hnd. by apply NoDup_app in Hnd as (? & _).
  - intros id Hid. by eapply elem_of_submseteq.
  - intros r Hr Hs. destruct (Hfrom r Hr Hs) as (h & Hh & Hm). exists h. split; [|done].
    unfold hints_of in Hh. apply list_elem_of_omap in Hh as (op & Hop & Heq). destruct op; by simplify_eq.
Qed.

(** ** Concrete runs *)

(** A stable sort is one the standard allows. *)
Definition age_le (target : Z) (a b : nat * PendingTradeHint) : Prop := age_of target a.2 <= age_of target b.2.
#[export] Instance age_le_dec target a b : Decision (age_le target a b).
Proof. unfold age_le. apply _. Defined.
#[export] Instance age_le_total target : Total (age_le target).
Proof. intros a b. unfold age_le. lia. Qed.
#[export] Instance age_le_trans target : Transitive (age_le target).
Proof. intros a b c. unfold age_le. lia. Qed.
Definition stable_age_sort (target : Z) (l : list (nat * PendingTradeHint)) : list (nat * PendingTradeHint) :=
  merge_sort (age_le target) l.
#[export] Instance stable_age_sort_ok : AgeSort stable_age_sort.
Proof.
  split; intros target l; unfold stable_age_sort; [apply merge_sort_Permutation|].
  exact (StronglySorted_merge_sort (age_le target) l).
Qed.

Definition demo_hint (id ns : Z) : PendingTradeHint :=
  mkPendingTradeHint id "m" "a" 500000 10 ns BuyAggressorHint false.
Definition demo_fill : ConfirmedFill :=
  mkConfirmedFill "t:0" "" "m" "a" 500000 10 BuyAggressor FmMapped 7 "t" 0 1000 false.

(** A fill that is delivered twice confirms a second hint: the answer of the store, which knows the
    duplicate, is not looked at. *)
Example duplicate_fill_confirms_twice :
  let ops := [OpHint (demo_hint 1 900); OpFill demo_fill; OpHint (demo_hint 2 1100); OpFill demo_fill] in
  let rs := (run_reconciler stable_age_sort ops (reconciler0 (Some ∅) confirm_config0)).1 in
  (rr_status <$> rs) = [RcUnmatchedHint; RcConfirmedOneToOne; RcUnmatchedHint; RcConfirmedOneToOne] ∧
  (rr_fill_id <$> rs) = [""; "t:0"; ""; "t:0"]%string.
Proof. by vm_compute. Qed.

(** A reorganisation does not reopen the hint its fill had confirmed: the fill that replaces it finds none. *)
Example reorg_loses_hint :
  let ops := [OpHint (demo_hint 1 900); OpFill demo_fill; OpFill (demo_fill <| cf_removed := true |>);
              OpFill (demo_fill <| cf_block_number := 8 |>)] in
  (rr_status <$> (run_reconciler stable_age_sort ops (reconciler0 (Some ∅) confirm_config0)).1) =
    [RcUnmatchedHint; RcConfirmedOneToOne; RcRemovedByReorg; RcUnmatchedFill].
Proof. by vm_compute. Qed.

(** When one candidate may be kept, an ambiguous fill counts as confirmed: the list is cut before it is counted. *)
Example single_candidate_hides_ambiguity :
  let ops := [OpHint (demo_hint 1 900); OpHint (demo_hint 2 1100); OpFill demo_fill] in
  let statuses config := rr_status <$> (run_reconciler stable_age_sort ops (reconciler0 None config)).1 in
  statuses confirm_config0 = [RcUnmatchedHint; RcUnmatchedHint; RcAmbiguous] ∧
  statuses (mkChainConfirmConfig 5000 1 10000) = [RcUnmatchedHint; RcUnmatchedHint; RcConfirmedOneToOne].
Proof. by vm_compute. Qed.

Lemma hints_settle_once_witness :
  let ops := [OpHint (demo_hint 1 900); OpHint (demo_hint 2 2000000); OpFill demo_fill; OpExpire 20000000000] in
  let rs := (run_reconciler stable_age_sort ops (reconciler0 (Some ∅) (mkChainConfirmConfig 1 8 10000))).1 in
  settled_ids rs = [1; 2] ∧ NoDup (settled_ids rs).
Proof.
  intros ops rs. split; [vm_compute; reflexivity|].
  apply (hints_settle_once stable_age_sort ops (Some ∅) (mkChainConfirmConfig 1 8 10000)).
  apply (bool_decide_unpack _). vm_compute. exact I.
Defined.
