(* ===== verification/ChainDecode.v ===== *)
(** * ChainDecode: exchange logs to confirmed fills

    [engine/chain_confirm/EthLogDecoder.cpp] reads hexadecimal words, and
    [OrderFilledDecoder.cpp] turns the two kinds of OrderFilled logs into events
    and fills.  Big integers are [Z]; the ratio of two amounts is taken in
    [long double], which is modelled as the 64-bit-mantissa extended format.  The
    last section encodes an event the way the contract does and proves that the
    decoder gives it back. *)

From S2P Require Import Prelude Doubles Decimals ChainConfirm.
From Stdlib Require Import Ascii.
#[local] Open Scope Z_scope.

(** ** Hexadecimal words *)

(** [std::tolower] in the C locale. *)
Definition to_lower (c : ascii) : ascii :=
  let n := nat_of_ascii c in
  if Nat.leb 65 n && Nat.leb n 90 then ascii_of_nat (n + 32) else c.

Fixpoint lower (s : string) : string :=
  match s with EmptyString => EmptyString | String c s => String (to_lower c) (lower s) end.

(** [std::isxdigit]. *)
Definition is_hex_char (c : ascii) : bool :=
  let n := nat_of_ascii c in
  (Nat.leb 48 n && Nat.leb n 57) || (Nat.leb 97 n && Nat.leb n 102) || (Nat.leb 65 n && Nat.leb n 70).

Fixpoint all_hex (s : string) : bool :=
  match s with EmptyString => true | String c s => is_hex_char c && all_hex s end.

(** A word without its prefix, if it has one. *)
Definition strip_prefix (value : string) : string :=
  match value with
  | String a (String b rest) =>
      if Ascii.eqb a "0" && (Ascii.eqb b "x" || Ascii.eqb b "X") then rest else value
  | _ => value
  end.

(** The characters after the prefix of the normal form. *)
Definition hex_body (value : string) : string := lower (strip_prefix value).

(** [engine/chain_confirm/EthLogDecoder.cpp:38-56] normalize_hex. *)
Definition normalize_hex (value : string) : string := ("0x" ++ hex_body value)%string.

(** [engine/chain_confirm/EthLogDecoder.cpp:58-69] is_hex_32_word. *)
Definition is_hex_32_word (value : string) : bool :=
  Nat.eqb (String.length (normalize_hex value)) 66 && all_hex (hex_body value).

(** [engine/chain_confirm/EthLogDecoder.cpp:23-31] parse_hex_word, the value of a character. *)
Definition hex_digit (c : ascii) : Z :=
  let n := Z.of_nat (nat_of_ascii c) in
  if (48 <=? n) && (n <=? 57) then n - 48
  else if (97 <=? n) && (n <=? 102) then 10 + (n - 97)
  else if (65 <=? n) && (n <=? 70) then 10 + (n - 65)
  else 0.

(** [engine/chain_confirm/EthLogDecoder.cpp:17-34] parse_hex_word. *)
Fixpoint parse_hex (value : Z) (s : string) : Z :=
  match s with EmptyString => value | String c s => parse_hex (Z.shiftl value 4 + hex_digit c) s end.
Definition parse_hex_word (word : string) : Z := parse_hex 0 (hex_body word).

(** [engine/chain_confirm/EthLogDecoder.cpp:71-78] topic_to_address. *)
Definition topic_to_address (topic : string) : string :=
  let normalized := normalize_hex topic in
  if negb (is_hex_32_word normalized) then ""
  else ("0x" ++ String.substring (String.length normalized - 40) 40 normalized)%string.

(** [engine/chain_confirm/EthLogDecoder.cpp:94-96] split_data_words, the loop. *)
Fixpoint split_words (count : nat) (body : string) : list string :=
  match count with
  | O => []
  | S count =>
      ("0x" ++ String.substring 0 64 body)%string :: split_words count (String.substring 64 (String.length body - 64) body)
  end.

(** [engine/chain_confirm/EthLogDecoder.cpp:80-99] split_data_words. *)
Definition split_data_words (data : string) : list string :=
  let body := hex_body data in
  if String.eqb (normalize_hex data) "0x" then []
  else if negb (Nat.eqb (String.length body mod 64) 0) then []
  else split_words (String.length body / 64) body.

(** [engine/chain_confirm/EthLogDecoder.cpp:101-107] uint256_to_decimal_string. *)
Definition uint256_to_decimal_string (word : string) : string :=
  if negb (is_hex_32_word word) then "" else pretty (Z.to_N (parse_hex_word word)).

(** [engine/chain_confirm/EthLogDecoder.cpp:109-120] uint256_to_u64. *)
Definition uint256_to_u64 (word : string) : option Z :=
  if negb (is_hex_32_word word) then None
  else
    let value := parse_hex_word word in
    if u64_max <? value then None else Some value.

(** ** Logs and events *)

(** [engine/chain_confirm/EthLog.h:9-19] EthLog. *)
Record EthLog := mkEthLog {
  lg_topics : list string;
  lg_data : string;
  lg_block_number : Z;
  lg_tx_hash : string;
  lg_log_index : Z;
  lg_removed : bool
}.

(** [engine/chain_confirm/OrderFilledEvent.h:8-35] OrderFilledEvent, less the fields nothing sets. *)
Record OrderFilledEvent := mkOrderFilledEvent {
  of_order_hash : string;
  of_token_id : string;
  of_maker : string;
  of_taker : string;
  of_maker_asset_id : string;
  of_taker_asset_id : string;
  of_side : Z;
  of_maker_amount_filled : Z;
  of_taker_amount_filled : Z;
  of_fee : Z;
  of_builder : string;
  of_metadata : string;
  of_block_number : Z;
  of_tx_hash : string;
  of_log_index : Z;
  of_removed : bool
}.

(** [engine/chain_confirm/OrderFilledDecoder.h:42-43] kOrderFilledTopic0. *)
Definition kOrderFilledTopic0 : string := "0xd543adfd945773f1a62f74f0ee55a5e3b9b1a28262980ba90b1a89f2ea84d8ee".
(** [engine/chain_confirm/OrderFilledDecoder.h:45-46] kLegacyOrderFilledTopic0. *)
Definition kLegacyOrderFilledTopic0 : string := "0xd0a08e8c493f9c94f29311604c9de1b4e8c8d4c06bd0c789af57f2d65bfec0f6".

Definition is_zero_asset (asset_id : string) : bool := String.eqb asset_id "0".

(** [engine/chain_confirm/OrderFilledDecoder.cpp:23-31] checked_u64_to_i64. *)
Definition checked_u64_to_i64 (value : Z) : Z := if i64_max <? value then 0 else value.

(** [long double]: 64 bits of mantissa. *)
Definition ld_prec : Z := 64.
Definition ld_emax : Z := 16384.
Definition ld_of_Z (z : Z) : spec_float := binary_normalize ld_prec ld_emax z 0 false.
Definition ld_half : spec_float := SFdiv ld_prec ld_emax (ld_of_Z 1) (ld_of_Z 2).

(** [engine/chain_confirm/OrderFilledDecoder.cpp:33-54] price_tick_from_ratio. *)
Definition price_tick_from_ratio (cash_amount asset_amount : Z) : Z :=
  if asset_amount =? 0 then 0
  else
    let scaled := SFdiv ld_prec ld_emax (SFmul ld_prec ld_emax (ld_of_Z cash_amount) (ld_of_Z 1000000)) (ld_of_Z asset_amount) in
    if SFltb scaled (S754_zero false) || SFltb (ld_of_Z i64_max) scaled then 0
    else floor_Z (SFadd ld_prec ld_emax scaled ld_half).

(** What a decoded log becomes: an event, or the reason there is none. *)
Abbreviation Decoded := (string + OrderFilledEvent)%type.

(** [engine/chain_confirm/OrderFilledDecoder.cpp:65-134] decode_ctf_exchange_v2. *)
Definition decode_ctf_exchange_v2 (log : EthLog) : Decoded :=
  match lg_topics log with
  | [_; t1; t2; t3] =>
      if negb (is_hex_32_word t1) || negb (is_hex_32_word t2) || negb (is_hex_32_word t3) then
        inl "CTF Exchange V2 OrderFilled indexed topics are malformed"%string
      else
        match split_data_words (lg_data log) with
        | [w0; w1; w2; w3; w4; w5; w6] =>
            match uint256_to_u64 w0, uint256_to_u64 w2, uint256_to_u64 w3, uint256_to_u64 w4 with
            | Some side, Some maker_amount, Some taker_amount, Some fee =>
                if 255 <? side then inl "CTF Exchange V2 OrderFilled numeric field overflow"%string
                else
                  let token_id := uint256_to_decimal_string w1 in
                  if String.eqb token_id "" then inl "CTF Exchange V2 OrderFilled missing token id"%string
                  else
                    let maker := topic_to_address t2 in
                    let taker := topic_to_address t3 in
                    if String.eqb maker "" || String.eqb taker "" then
                      inl "CTF Exchange V2 OrderFilled log contains malformed addresses"%string
                    else
                      inr (mkOrderFilledEvent (normalize_hex t1) token_id maker taker
                             (if side =? 0 then "0" else if side =? 1 then token_id else "")
                             (if side =? 0 then token_id else if side =? 1 then "0" else "")
                             side maker_amount taker_amount fee (normalize_hex w5) (normalize_hex w6)
                             (lg_block_number log) (normalize_hex (lg_tx_hash log)) (lg_log_index log) (lg_removed log))
            | _, _, _, _ => inl "CTF Exchange V2 OrderFilled numeric field overflow"%string
            end
        | _ => inl "CTF Exchange V2 OrderFilled data must contain 7 ABI words"%string
        end
  | _ => inl "CTF Exchange V2 OrderFilled log must have 4 topics"%string
  end.

(** [engine/chain_confirm/OrderFilledDecoder.cpp:136-190] decode_legacy_order_filled. *)
Definition decode_legacy_order_filled (log : EthLog) : Decoded :=
  match lg_topics log with
  | [_; t1; t2; t3] =>
      if negb (is_hex_32_word t1) || negb (is_hex_32_word t2) || negb (is_hex_32_word t3) then
        inl "legacy OrderFilled indexed topics are malformed"%string
      else
        match split_data_words (lg_data log) with
        | [w0; w1; w2; w3; w4] =>
            match uint256_to_u64 w2, uint256_to_u64 w3, uint256_to_u64 w4 with
            | Some maker_amount, Some taker_amount, Some fee =>
                let maker := topic_to_address t2 in
                let taker := topic_to_address t3 in
                let maker_asset := uint256_to_decimal_string w0 in
                let taker_asset := uint256_to_decimal_string w1 in
                if String.eqb maker "" || String.eqb taker "" || String.eqb maker_asset "" || String.eqb taker_asset "" then
                  inl "legacy OrderFilled log contains malformed fields"%string
                else
                  inr (mkOrderFilledEvent (normalize_hex t1)
                         (if negb (is_zero_asset maker_asset) then maker_asset else taker_asset)
                         maker taker maker_asset taker_asset 0 maker_amount taker_amount fee "" ""
                         (lg_block_number log) (normalize_hex (lg_tx_hash log)) (lg_log_index log) (lg_removed log))
            | _, _, _ => inl "legacy OrderFilled amount exceeds uint64"%string
            end
        | _ => inl "legacy OrderFilled data must contain 5 uint256 words"%string
        end
  | _ => inl "legacy OrderFilled log must have 4 topics"%string
  end.

(** [engine/chain_confirm/OrderFilledDecoder.cpp:194-216] OrderFilledDecoder::decode. *)
Definition decode (log : EthLog) : Decoded :=
  match lg_topics log with
  | [] => inl "wrong OrderFilled topic"%string
  | t0 :: _ =>
      let topic0 := normalize_hex t0 in
      if String.eqb topic0 (normalize_hex kOrderFilledTopic0) then decode_ctf_exchange_v2 log
      else if String.eqb topic0 (normalize_hex kLegacyOrderFilledTopic0) then decode_legacy_order_filled log
      else inl "wrong OrderFilled topic"%string
  end.

(** [engine/chain_confirm/OrderFilledDecoder.cpp:294-309] direction_from_assets. *)
Definition direction_from_assets (event : OrderFilledEvent) : ConfirmedDirection :=
  let maker_zero := is_zero_asset (of_maker_asset_id event) in
  let taker_zero := is_zero_asset (of_taker_asset_id event) in
  if maker_zero && negb taker_zero then BuyAggressor
  else if taker_zero && negb maker_zero then SellAggressor
  else CdUnknown.

(** [engine/chain_confirm/OrderFilledDecoder.cpp:246-292] to_confirmed_fill. *)
Definition to_confirmed_fill (event : OrderFilledEvent) (market_id : string) (chain_seen_ns : Z) : ConfirmedFill :=
  let direction := direction_from_assets event in
  let '(asset_id, size_lots, price_tick) :=
    match direction with
    | BuyAggressor =>
        if is_zero_asset (of_taker_asset_id event) then ("", 0, 0)%string
        else (of_taker_asset_id event, checked_u64_to_i64 (of_taker_amount_filled event),
              price_tick_from_ratio (of_maker_amount_filled event) (of_taker_amount_filled event))
    | SellAggressor =>
        if is_zero_asset (of_maker_asset_id event) then ("", 0, 0)%string
        else (of_maker_asset_id event, checked_u64_to_i64 (of_maker_amount_filled event),
              price_tick_from_ratio (of_taker_amount_filled event) (of_maker_amount_filled event))
    | CdUnknown => ("", 0, 0)%string
    end in
  let known := match direction with CdUnknown => false | _ => true end in
  let mapped := negb (String.eqb market_id "") && negb (String.eqb asset_id "") && (0 <? price_tick) && (0 <? size_lots) && known in
  mkConfirmedFill (fill_id (of_tx_hash event) (of_log_index event)) (of_order_hash event) market_id asset_id
    price_tick size_lots direction (if mapped then FmMapped else FmUnmappedFill) (of_block_number event)
    (of_tx_hash event) (of_log_index event) chain_seen_ns (of_removed event).

(** [engine/chain_confirm/OrderFilledDecoder.cpp:218-244] decode_confirmed_fill: the fill, and the error when it
    is not acceptable. *)
Definition decode_confirmed_fill (log : EthLog) (market_id : string) (chain_seen_ns : Z) :
    string + ConfirmedFill * string :=
  match decode log with
  | inl error => inl error
  | inr event =>
      let fill := to_confirmed_fill event market_id chain_seen_ns in
      let ok := bool_decide (cf_mapping_status fill = FmMapped) || cf_removed fill in
      inr (fill, if ok then "" else mapping_status_string (cf_mapping_status fill))%string
  end.

Example ratio_exact : price_tick_from_ratio 5200000 10000000 = 520000.
Proof. vm_compute. reflexivity. Qed.
Example ratio_rounds : price_tick_from_ratio 1 3 = 333333 ∧ price_tick_from_ratio 2 3 = 666667.
Proof. vm_compute. done. Qed.

(** ** Encoding a log

    What the contract writes: words of 64 digits, most significant first. *)

Definition digit_char (d : Z) : ascii :=
  ascii_of_nat (Z.to_nat (if d <? 10 then 48 + d else 87 + d)).

(** The last [k] hexadecimal digits of a number. *)
Fixpoint hex_digits (k : nat) (n : Z) : string :=
  match k with
  | O => ""
  | S k => (hex_digits k (n / 16) ++ String (digit_char (n mod 16)) "")%string
  end.

Definition word (n : Z) : string := ("0x" ++ hex_digits 64 n)%string.

Lemma digit_cases (P : Z → Prop) d : 0 <= d < 16 → Forall P (seqZ 0 16) → P d.
Proof. intros Hd HP. rewrite Forall_forall in HP. apply HP, elem_of_seqZ. lia. Qed.

Lemma hex_digit_char d : 0 <= d < 16 → hex_digit (digit_char d) = d.
Proof. intros Hd. apply (digit_cases (λ d, hex_digit (digit_char d) = d)); [done|]. apply (bool_decide_unpack _). vm_compute. exact I. Qed.

Lemma hex_char_ok d : 0 <= d < 16 → is_hex_char (digit_char d) = true ∧ to_lower (digit_char d) = digit_char d.
Proof.
  intros Hd. apply (digit_cases (λ d, is_hex_char (digit_char d) = true ∧ to_lower (digit_char d) = digit_char d)); [done|].
  repeat constructor.
Qed.

Lemma string_app_cons c s t : (String c s ++ t = String c (s ++ t))%string.
Proof. done. Qed.

Lemma string_length_app s t : String.length (s ++ t)%string = (String.length s + String.length t)%nat.
Proof. induction s as [|c s IH]; rewrite ?string_app_cons; cbn; [done|by rewrite IH]. Qed.

Lemma lower_app s t : lower (s ++ t)%string = (lower s ++ lower t)%string.
Proof. induction s as [|c s IH]; rewrite ?string_app_cons; cbn; [done|by rewrite IH]. Qed.

Lemma all_hex_app s t : all_hex (s ++ t)%string = all_hex s && all_hex t.
Proof. induction s as [|c s IH]; rewrite ?string_app_cons; cbn; [done|]. by rewrite IH, andb_assoc. Qed.

Lemma parse_hex_app v s t : parse_hex v (s ++ t)%string = parse_hex (parse_hex v s) t.
Proof. revert v. induction s as [|c s IH]; intros v; rewrite ?string_app_cons; cbn; [done|by rewrite IH]. Qed.

Lemma string_app_assoc s t u : ((s ++ t) ++ u = s ++ (t ++ u))%string.
Proof. induction s as [|c s IH]; rewrite ?string_app_cons; cbn; [done|by rewrite IH]. Qed.

Lemma string_app_nil s : (s ++ "" = s)%string.
Proof. induction s as [|c s IH]; rewrite ?string_app_cons; cbn; [done|by rewrite IH]. Qed.

Lemma substring_prefix s t : String.substring 0 (String.length s) (s ++ t)%string = s.
Proof. induction s as [|c s IH]; rewrite ?string_app_cons; cbn; [by destruct t|by rewrite IH]. Qed.

Lemma substring_skip s t m : String.substring (String.length s) m (s ++ t)%string = String.substring 0 m t.
Proof. induction s as [|c s IH]; rewrite ?string_app_cons; cbn; [by destruct t|done]. Qed.

Lemma substring_whole s : String.substring 0 (String.length s) s = s.
Proof. rewrite <- (string_app_nil s) at 2. apply substring_prefix. Qed.

Lemma hex_digits_length k n : String.length (hex_digits k n) = k.
Proof. revert n. induction k as [|k IH]; intros n; cbn; [done|]. rewrite string_length_app, IH. cbn. lia. Qed.

Lemma hex_digits_ok k n : all_hex (hex_digits k n) = true ∧ lower (hex_digits k n) = hex_digits k n.
Proof.
  revert n. induction k as [|k IH]; intros n; cbn; [done|].
  destruct (hex_char_ok (n mod 16)) as [Hh Hl]; [apply Z.mod_pos_bound; lia|]. destruct (IH (n / 16)) as [IH1 IH2].
  rewrite all_hex_app, lower_app, IH1, IH2. cbn. by rewrite Hh, Hl.
Qed.

Lemma parse_hex_digits k v n : 0 <= n → parse_hex v (hex_digits k n) = v * 16 ^ Z.of_nat k + n mod 16 ^ Z.of_nat k.
Proof.
  revert v n. induction k as [|k IH]; intros v n Hn; cbn [hex_digits parse_hex].
  - change (16 ^ Z.of_nat 0) with 1. rewrite Z.mod_1_r. lia.
  - rewrite parse_hex_app, IH by (apply Z.div_pos; lia). cbn [parse_hex].
    rewrite hex_digit_char by (apply Z.mod_pos_bound; lia). rewrite Z.shiftl_mul_pow2 by lia.
    rewrite Nat2Z.inj_succ, Z.pow_succ_r by lia.
    assert (0 < 16 ^ Z.of_nat k) by (apply Z.pow_pos_nonneg; lia).
    rewrite (Z.rem_mul_r n 16) by lia. change (2 ^ 4) with 16. lia.
Qed.

Lemma hex_body_prefixed s : hex_body ("0x" ++ s)%string = lower s.
Proof. done. Qed.

Lemma hex_body_word n : hex_body (word n) = hex_digits 64 n.
Proof. unfold word. rewrite hex_body_prefixed. apply hex_digits_ok. Qed.

Lemma normalize_word n : normalize_hex (word n) = word n.
Proof. unfold normalize_hex. by rewrite hex_body_word. Qed.

Lemma is_hex_word n : is_hex_32_word (word n) = true.
Proof.
  unfold is_hex_32_word. rewrite normalize_word, hex_body_word. unfold word. rewrite string_length_app, hex_digits_length.
  apply hex_digits_ok.
Qed.

Lemma parse_word n : 0 <= n < 16 ^ 64 → parse_hex_word (word n) = n.
Proof.
  intros Hn. unfold parse_hex_word. rewrite hex_body_word, parse_hex_digits by lia. rewrite Z.mod_small by exact Hn. lia.
Qed.

Lemma word_to_u64 n : in_u64 n → uint256_to_u64 (word n) = Some n.
Proof.
  intros Hn. unfold uint256_to_u64. rewrite is_hex_word, parse_word by (unfold in_u64 in Hn; lia). cbn [negb].
  unfold in_u64 in Hn. by rewrite (proj2 (Z.ltb_ge _ _)) by lia.
Qed.

Lemma word_to_decimal n : 0 <= n < 16 ^ 64 → uint256_to_decimal_string (word n) = pretty (Z.to_N n).
Proof. intros Hn. unfold uint256_to_decimal_string. by rewrite is_hex_word, parse_word. Qed.

Lemma word_to_address n : topic_to_address (word n) = ("0x" ++ hex_digits 40 n)%string.
Proof. unfold topic_to_address. rewrite normalize_word, is_hex_word. reflexivity. Qed.

Fixpoint join_words (ns : list Z) : string :=
  match ns with [] => "" | n :: ns => (hex_digits 64 n ++ join_words ns)%string end.

Lemma join_words_length ns : String.length (join_words ns) = (64 * length ns)%nat.
Proof. induction ns as [|n ns IH]; cbn [join_words length]; [done|]. rewrite string_length_app, hex_digits_length, IH. lia. Qed.

Lemma lower_join ns : lower (join_words ns) = join_words ns.
Proof. induction ns as [|n ns IH]; cbn [join_words]; [done|]. rewrite lower_app, IH. by rewrite (proj2 (hex_digits_ok 64 n)). Qed.

Lemma split_join ns : split_words (length ns) (join_words ns) = word <$> ns.
Proof.
  induction ns as [|n ns IH]; [done|]. cbn [length split_words join_words fmap list_fmap].
  rewrite string_length_app, hex_digits_length.
  rewrite <- (hex_digits_length 64 n) at 1 3. rewrite substring_prefix, substring_skip.
  replace (64 + String.length (join_words ns) - 64)%nat with (String.length (join_words ns)) by lia.
  by rewrite substring_whole, IH.
Qed.

Lemma split_data_join ns : split_data_words ("0x" ++ join_words ns) = word <$> ns.
Proof.
  unfold split_data_words, normalize_hex. rewrite hex_body_prefixed, lower_join, join_words_length.
  destruct ns as [|n ns]; [done|]. destruct (String.eqb_spec ("0x" ++ join_words (n :: ns)) "0x") as [H|_].
  { apply (f_equal String.length) in H. rewrite string_length_app, join_words_length in H. discriminate. }
  rewrite Nat.mul_comm, Nat.Div0.mod_mul, Nat.div_mul by done. apply split_join.
Qed.

(** The log of an OrderFilled event of the second exchange, and of the first. *)
Record OrderFilledArgs := mkOrderFilledArgs {
  oa_order_hash : Z;
  oa_maker : Z;
  oa_taker : Z;
  oa_side : Z;
  oa_token : Z;
  oa_maker_amount : Z;
  oa_taker_amount : Z;
  oa_fee : Z;
  oa_builder : Z;
  oa_metadata : Z
}.

Definition args_ok (a : OrderFilledArgs) : Prop :=
  0 <= oa_side a <= 1 ∧ 0 <= oa_token a < 16 ^ 64 ∧ in_u64 (oa_maker_amount a) ∧ in_u64 (oa_taker_amount a) ∧ in_u64 (oa_fee a).

Definition encode_v2 (a : OrderFilledArgs) (block : Z) (tx : string) (index : Z) (removed : bool) : EthLog :=
  mkEthLog [kOrderFilledTopic0; word (oa_order_hash a); word (oa_maker a); word (oa_taker a)]
    ("0x" ++ join_words [oa_side a; oa_token a; oa_maker_amount a; oa_taker_amount a; oa_fee a; oa_builder a; oa_metadata a])
    block tx index removed.

(** The first exchange names the assets; cash is asset zero. *)
Definition encode_legacy (a : OrderFilledArgs) (block : Z) (tx : string) (index : Z) (removed : bool) : EthLog :=
  let '(maker_asset, taker_asset) := if oa_side a =? 0 then (0, oa_token a) else (oa_token a, 0) in
  mkEthLog [kLegacyOrderFilledTopic0; word (oa_order_hash a); word (oa_maker a); word (oa_taker a)]
    ("0x" ++ join_words [maker_asset; taker_asset; oa_maker_amount a; oa_taker_amount a; oa_fee a])
    block tx index removed.

(** The event the arguments describe. *)
Definition event_of (a : OrderFilledArgs) (builder metadata : string) (side block : Z) (tx : string) (index : Z) (removed : bool) :
    OrderFilledEvent :=
  let token := pretty (Z.to_N (oa_token a)) in
  mkOrderFilledEvent (word (oa_order_hash a)) token
    ("0x" ++ hex_digits 40 (oa_maker a)) ("0x" ++ hex_digits 40 (oa_taker a))
    (if oa_side a =? 0 then "0" else token) (if oa_side a =? 0 then token else "0")
    side (oa_maker_amount a) (oa_taker_amount a) (oa_fee a) builder metadata block (normalize_hex tx) index removed.

Lemma decimal_nonempty n : String.eqb (pretty (Z.to_N n)) "" = false.
Proof. apply String.eqb_neq, pretty_Z_nonempty. Qed.

Lemma decode_v2_args a block tx index removed :
  args_ok a → decode (encode_v2 a block tx index removed) =
    inr (event_of a (word (oa_builder a)) (word (oa_metadata a)) (oa_side a) block tx index removed).
Proof.
  intros (Hs & Ht & Hm & Hk & Hf). unfold decode, encode_v2. cbn [lg_topics].
  rewrite String.eqb_refl. unfold decode_ctf_exchange_v2. cbn [lg_topics lg_data]. rewrite !is_hex_word. cbn [negb orb].
  rewrite split_data_join. cbn [fmap list_fmap].
  rewrite !word_to_u64 by (done || unfold in_u64; lia). rewrite (proj2 (Z.ltb_ge _ _)) by lia.
  rewrite word_to_decimal by done. rewrite decimal_nonempty, !word_to_address, !normalize_word. cbn -[hex_digits].
  unfold event_of. do 2 f_equal; destruct (Z.eqb_spec (oa_side a) 0); [done| |done|];
    by rewrite (proj2 (Z.eqb_eq (oa_side a) 1)) by lia.
Qed.

Lemma decode_legacy_args a block tx index removed :
  args_ok a → oa_token a ≠ 0 → decode (encode_legacy a block tx index removed) =
    inr (event_of a "" "" 0 block tx index removed).
Proof.
  intros (Hs & Ht & Hm & Hk & Hf) Hz. unfold decode, encode_legacy.
  destruct (oa_side a =? 0) eqn:Hside; cbn [lg_topics];
    (replace (String.eqb _ (normalize_hex kOrderFilledTopic0)) with false by (vm_compute; reflexivity));
    rewrite String.eqb_refl; unfold decode_legacy_order_filled; cbn [lg_topics lg_data]; rewrite !is_hex_word; cbn [negb orb];
    rewrite split_data_join; cbn [fmap list_fmap];
    rewrite !word_to_u64, !word_to_decimal by (done || lia); rewrite !decimal_nonempty, !word_to_address, !normalize_word;
    cbn -[hex_digits]; unfold event_of, is_zero_asset; rewrite Hside;
    (replace (String.eqb (pretty (Z.to_N (oa_token a))) "0") with false
      by (symmetry; apply String.eqb_neq; by rewrite pretty_is_zero by lia)); done.
Qed.

(** The fill of an event: the asset is what is not cash. *)
Lemma fill_of_event a builder metadata side block tx index removed market seen :
  args_ok a → oa_token a ≠ 0 →
  let fill := to_confirmed_fill (event_of a builder metadata side block tx index removed) market seen in
  let '(cash, lots) := if oa_side a =? 0 then (oa_maker_amount a, oa_taker_amount a) else (oa_taker_amount a, oa_maker_amount a) in
  cf_asset_id fill = pretty (Z.to_N (oa_token a)) ∧
  cf_direction fill = (if oa_side a =? 0 then BuyAggressor else SellAggressor) ∧
  cf_size_lots fill = (if i64_max <? lots then 0 else lots) ∧ cf_price_tick fill = price_tick_from_ratio cash lots ∧
  (cf_mapping_status fill = FmMapped ↔ market ≠ "" ∧ 0 < cf_price_tick fill ∧ 0 < lots <= i64_max).
Proof.
  intros (Hs & Ht & _ & _ & _) Hz.
  assert (Hne : String.eqb (pretty (Z.to_N (oa_token a))) "0" = false) by (apply String.eqb_neq; by rewrite pretty_is_zero by lia).
  unfold to_confirmed_fill, direction_from_assets, is_zero_asset, event_of. cbn [of_maker_asset_id of_taker_asset_id].
  set (price := price_tick_from_ratio) in *. clearbody price.
  destruct (oa_side a =? 0); rewrite Hne, (String.eqb_refl "0"); cbn -[pretty Z.ltb String.eqb]; rewrite ?Hne; cbn -[pretty Z.ltb String.eqb]; rewrite decimal_nonempty; cbn [negb andb];
    (split_and!; [done..|]); unfold checked_u64_to_i64;
    destruct (String.eqb_spec market ""); cbn [negb andb];
    try match goal with |- context [if ?m <? ?n then 0 else _] => destruct (Z.ltb_spec m n) end;
    repeat match goal with |- context [?x <? ?y] => destruct (Z.ltb_spec x y) end; cbn [andb]; split; try done; intuition (try done; lia).
Qed.

(** C17. An OrderFilled log of either exchange decodes to the event it was written from: whatever the
    hashes, the token, the 64-bit amounts and the side, every field of the event comes back, and the
    fill made of it is of the token, in the direction of the side, with the amount of the asset as
    its size and the ratio of cash to asset as its price, mapped exactly when it names a market, has
    a positive price and a positive size that fits in 63 bits. *)
Theorem order_filled_roundtrip a block tx index removed market seen :
  args_ok a → oa_token a ≠ 0 →
  decode (encode_v2 a block tx index removed) =
    inr (event_of a (word (oa_builder a)) (word (oa_metadata a)) (oa_side a) block tx index removed) ∧
  decode (encode_legacy a block tx index removed) = inr (event_of a "" "" 0 block tx index removed) ∧
  ∀ log, log = encode_v2 a block tx index removed ∨ log = encode_legacy a block tx index removed →
  ∃ fill error, decode_confirmed_fill log market seen = inr (fill, error) ∧
    let '(cash, lots) := if oa_side a =? 0 then (oa_maker_amount a, oa_taker_amount a) else (oa_taker_amount a, oa_maker_amount a) in
    cf_asset_id fill = pretty (Z.to_N (oa_token a)) ∧
    cf_direction fill = (if oa_side a =? 0 then BuyAggressor else SellAggressor) ∧
    cf_size_lots fill = (if i64_max <? lots then 0 else lots) ∧ cf_price_tick fill = price_tick_from_ratio cash lots ∧
    (cf_mapping_status fill = FmMapped ↔ market ≠ "" ∧ 0 < cf_price_tick fill ∧ 0 < lots <= i64_max).
Proof.
  intros Ha Hz. pose proof (decode_v2_args a block tx index removed Ha) as H2.
  pose proof (decode_legacy_args a block tx index removed Ha Hz) as H1.
  split; [exact H2|]. split; [exact H1|]. intros log Hlog.
  assert (Hd : ∃ builder metadata side, decode log = inr (event_of a builder metadata side block tx index removed))
    by (destruct Hlog as [->| ->]; eauto).
  destruct Hd as (builder & metadata & side & Hd). unfold decode_confirmed_fill. rewrite Hd.
  eexists _, _. split; [done|]. by apply fill_of_event.
Qed.

(** A log that says who sold what: 5.2 of cash for 10 of token 77. *)
Definition demo_args : OrderFilledArgs := mkOrderFilledArgs 1 2 3 0 77 5200000 10000000 0 0 0.

Lemma order_filled_roundtrip_witness :
  decode (encode_v2 demo_args 9 "0xAB" 4 false) =
    inr (event_of demo_args (word 0) (word 0) 0 9 "0xAB" 4 false) ∧
  ∃ fill error, decode_confirmed_fill (encode_v2 demo_args 9 "0xAB" 4 false) "m" 5 = inr (fill, error) ∧
    cf_asset_id fill = "77"%string ∧ cf_price_tick fill = 520000.
Proof.
  assert (Ha : args_ok demo_args) by (unfold args_ok, in_u64; cbn; lia).
  destruct (order_filled_roundtrip demo_args 9 "0xAB" 4 false "m" 5 Ha ltac:(done)) as (Hd & _ & Hf).
  split; [exact Hd|]. destruct (Hf (encode_v2 demo_args 9 "0xAB" 4 false) ltac:(by left)) as (fill & error & Hdec & Hasset & _ & _ & Hprice & _).
  exists fill, error. split; [exact Hdec|]. split; [exact Hasset|]. rewrite Hprice. vm_compute. reflexivity.
Defined.
