(* ===== verification/ChainState.v ===== *)
(** * ChainState: what the market state keeps about the chain

    [engine/state/chain] applies classified fills to one state per asset: the
    last trade, counters, and the volumes of the last two and ten seconds, which
    a window of fills recomputes at every event; a fill the chain removes leaves
    the volumes again.  Settlements are kept per market.  [engine/state/quality]
    judges from a book and its chain state what an asset may be used for. *)

From S2P Require Import Prelude Hashing Doubles Depth OrderedMap EntityStore ChainConfirm.
#[local] Open Scope Z_scope.

(** ** Events *)

(** [engine/state/core/MarketStateEvent.h:11-22] MarketStateEventType. *)
Inductive MarketStateEventType :=
| MeWsBookSnapshot | MeWsBookDelta | MeWsHeartbeat | MeWsLifecycle
| MeChainConfirmedFill | MeChainRemovedFill | MeChainSettlement | MeDataQualityUpdate.
#[export] Instance MarketStateEventType_eq_dec : EqDecision MarketStateEventType.
Proof. solve_decision. Defined.

(** [engine/state/core/MarketStateEvent.h:24-35] MarketStateEvent. *)
Record MarketStateEvent := mkMarketStateEvent {
  me_type : MarketStateEventType;
  me_market_id : string;
  me_asset_id : string;
  me_recv_monotonic_ns : Z;
  me_source_sequence : Z;
  me_ws_event : NormalizedEvent;
  me_chain_fill : ClassifiedFillRecord
}.
Definition market_event0 : MarketStateEvent := mkMarketStateEvent MeDataQualityUpdate "" "" 0 0 event0 classified0.

(** [engine/state/core/MarketStateEventAdapter.cpp:10-29] ws_event_type. *)
Definition ws_event_type (event_type : NormalizedEventType) : MarketStateEventType :=
  match event_type with
  | NeSnapshot => MeWsBookSnapshot
  | NeDelta => MeWsBookDelta
  | NeHeartbeat => MeWsHeartbeat
  | NeLifecycleEvent => MeWsLifecycle
  | NeStatusChange | NeTradeEvent | NeDecodeError | NeUnknown => MeDataQualityUpdate
  end.

(** [engine/state/core/MarketStateEventAdapter.cpp:31-42] from_normalized_event. *)
Definition from_normalized_event (event : NormalizedEvent) : MarketStateEvent :=
  mkMarketStateEvent (ws_event_type (ne_event_type event)) (ne_market_id event) (ne_asset_id event)
    (ne_recv_monotonic_ns event) (ne_packet_id event) event classified0.

(** [engine/state/core/MarketStateEventAdapter.cpp:46-57] from_normalized_batch. *)
Definition from_normalized_batch (events : list NormalizedEvent) : list MarketStateEvent :=
  from_normalized_event <$> events.

(** [engine/state/core/MarketStateEventAdapter.cpp:59-81] from_classified_fill. *)
Definition from_classified_fill (fill : ClassifiedFillRecord) : MarketStateEvent :=
  mkMarketStateEvent
    (if cr_removed fill || bool_decide (cr_classification fill = FcChainRemoved) then MeChainRemovedFill
     else if bool_decide (cr_classification fill = FcChainConfirmed) then MeChainConfirmedFill
     else MeDataQualityUpdate)
    (cr_market_id fill) (cr_asset_id fill) (cr_chain_seen_monotonic_ns fill) (cr_source_sequence fill) event0 fill.

(** ** The window of confirmed trades *)

(** [engine/state/chain/ConfirmedTradeState.h:13-32] ConfirmedTradeState. *)
Record ConfirmedTradeState := mkConfirmedTradeState {
  ct_version : Z;
  ct_last_block_number : Z;
  ct_last_chain_seen_ns : Z;
  ct_has_last_trade : bool;
  ct_last_trade_price_tick : Z;
  ct_last_trade_size_lots : Z;
  ct_last_taker_side : AggressorSide;
  ct_confirmed_buy_lots_2s : Z;
  ct_confirmed_sell_lots_2s : Z;
  ct_confirmed_buy_lots_10s : Z;
  ct_confirmed_sell_lots_10s : Z;
  ct_unknown_fill_count_recent : Z;
  ct_ambiguous_fill_count_recent : Z;
  ct_removed_fill_count_recent : Z
}.
Definition confirmed0 : ConfirmedTradeState :=
  mkConfirmedTradeState 0 0 0 false 0 0 AggUnknown 0 0 0 0 0 0 0.

(** [engine/state/chain/ConfirmedTradeWindow.h:68-75] Entry. *)
Record WindowEntry := mkWindowEntry {
  we_fill_id : string;
  we_chain_seen_ns : Z;
  we_side : AggressorSide;
  we_size_lots : Z;
  we_removed : bool
}.

(** The entries, oldest first. *)
Abbreviation ConfirmedTradeWindow := (list WindowEntry).

(** [engine/state/chain/ConfirmedTradeWindow.h:18-32] ConfirmedTradeWindow::add. *)
Definition window_add (fill_id : string) (seen : Z) (side : AggressorSide) (lots : Z) (w : ConfirmedTradeWindow) :
    ConfirmedTradeWindow := w ++ [mkWindowEntry fill_id seen side lots false].

(** [engine/state/chain/ConfirmedTradeWindow.h:34-43] ConfirmedTradeWindow::mark_removed; its result is
    not used. *)
Definition window_mark_removed (fill_id : string) (w : ConfirmedTradeWindow) : ConfirmedTradeWindow :=
  (λ e, if String.eqb (we_fill_id e) fill_id && negb (we_removed e) then (e <| we_removed := true |>) else e) <$> w.

(** The test of [totals] for an entry. *)
Definition in_window (now_ns window_ns : Z) (e : WindowEntry) : bool :=
  negb (we_removed e || (now_ns <? we_chain_seen_ns e)) && (now_ns - we_chain_seen_ns e <=? window_ns).

(** [engine/state/chain/ConfirmedTradeWindow.h:45-66] ConfirmedTradeWindow::totals: bought and sold lots. *)
Definition window_totals (now_ns window_ns : Z) (w : ConfirmedTradeWindow) : Z * Z :=
  foldl (λ t e,
    if negb (in_window now_ns window_ns e) then t
    else match we_side e with
         | AggBuy => (t.1 +i we_size_lots e, t.2)
         | AggSell => (t.1, t.2 +i we_size_lots e)
         | AggUnknown => t
         end) (0, 0) w.

(** ** The writer of confirmed fills *)

(** [engine/state/chain/ChainStateWriter.h:13-21] ChainApplyCode. *)
Inductive ChainApplyCode :=
| CaApplied | CaIgnoredNonChainEvent | CaMissingEntityId | CaUnknownDirection | CaAmbiguousFill | CaRemovedFill | CaDuplicateFill.
#[export] Instance ChainApplyCode_eq_dec : EqDecision ChainApplyCode.
Proof. solve_decision. Defined.

(** [engine/state/chain/ChainStateWriter.h:23-38] ChainApplyResult. *)
Record ChainApplyResult := mkChainApplyResult {
  ca_code : ChainApplyCode;
  ca_entity_id : string;
  ca_fill_id : string;
  ca_state_changed : bool;
  ca_message : string
}.

(** [engine/state/chain/ChainStateWriter.h:30-37] ChainApplyResult::ok. *)
Definition chain_ok (r : ChainApplyResult) : bool :=
  match ca_code r with CaMissingEntityId => false | _ => true end.

(** [engine/state/chain/ChainStateWriter.h:53-61] AppliedFill. *)
Record AppliedFill := mkAppliedFill {
  af_entity_id : string;
  af_side : AggressorSide;
  af_size_lots : Z;
  af_chain_seen_ns : Z;
  af_counted_volume : bool;
  af_removed : bool
}.

(** [engine/state/chain/ChainStateWriter.h:81-83] ChainStateWriter. *)
Record ChainStateWriter := mkChainStateWriter {
  cw_states : gmap string ConfirmedTradeState;
  cw_windows : gmap string ConfirmedTradeWindow;
  cw_fills : gmap string AppliedFill
}.
Definition chain_writer0 : ChainStateWriter := mkChainStateWriter ∅ ∅ ∅.

Definition kTwoSecondsNs : Z := 2000000000.
Definition kTenSecondsNs : Z := 10000000000.

(** [engine/state/chain/ChainStateWriter.cpp:15-27] map_direction. *)
Definition map_direction (d : ConfirmedDirection) : AggressorSide :=
  match d with BuyAggressor => AggBuy | SellAggressor => AggSell | CdUnknown => AggUnknown end.

(** [engine/state/chain/ChainStateWriter.cpp:29-36] is_ambiguous. *)
Definition is_ambiguous (fill : ClassifiedFillRecord) : bool :=
  bool_decide (cr_classification fill = FcAmbiguousFill) || bool_decide (cr_mapping_status fill = FmAmbiguousFill).

(** [engine/state/chain/ChainStateWriter.cpp:38-46] has_chain_fill. *)
Definition has_chain_fill (fill : ClassifiedFillRecord) : bool :=
  negb (String.eqb (cr_fill_id fill) "") || negb (bool_decide (cr_classification fill = FcUnknown))
  || negb (bool_decide (cr_mapping_status fill = FmUnmappedFill)).

(** [engine/state/chain/ChainStateWriter.cpp:220-233] resolve_entity_id. *)
Definition chain_entity_id (event : MarketStateEvent) : string :=
  if negb (String.eqb (cr_asset_id (me_chain_fill event)) "") then cr_asset_id (me_chain_fill event)
  else if negb (String.eqb (me_asset_id event) "") then me_asset_id event
  else if negb (String.eqb (cr_market_id (me_chain_fill event)) "") then cr_market_id (me_chain_fill event)
  else me_market_id event.

(** The entries [states_\[id\]] and [windows_\[id\]] denote; they are created on access. *)
Definition state_at (w : ChainStateWriter) (id : string) : ConfirmedTradeState := default confirmed0 (cw_states w !! id).
Definition window_at (w : ChainStateWriter) (id : string) : ConfirmedTradeWindow := default [] (cw_windows w !! id).

(** [engine/state/chain/ChainStateWriter.cpp:235-249] refresh_windows. *)
Definition refresh_windows (entity_id : string) (now_ns : Z) (w : ChainStateWriter) : ChainStateWriter :=
  let window := window_at w entity_id in
  let two_seconds := window_totals now_ns kTwoSecondsNs window in
  let ten_seconds := window_totals now_ns kTenSecondsNs window in
  let state :=
    ((state_at w entity_id)
       <| ct_confirmed_buy_lots_2s := two_seconds.1 |> <| ct_confirmed_sell_lots_2s := two_seconds.2 |>
       <| ct_confirmed_buy_lots_10s := ten_seconds.1 |> <| ct_confirmed_sell_lots_10s := ten_seconds.2 |>) in
  (w <| cw_states := <[entity_id := state]> (cw_states w) |>
     <| cw_windows := <[entity_id := window]> (cw_windows w) |>).

(** [++counter] on [std::uint32_t]. *)
Definition incr_u32 (z : Z) : Z := (z + 1) mod 2 ^ 32.

(** [engine/state/chain/ChainStateWriter.cpp:90-175] apply_confirmed. *)
Definition apply_confirmed (event : MarketStateEvent) (w : ChainStateWriter) : ChainApplyResult * ChainStateWriter :=
  let fill := me_chain_fill event in
  let id := chain_entity_id event in
  let now := cr_chain_seen_monotonic_ns fill in
  let out code message := mkChainApplyResult code id (cr_fill_id fill) true message in
  if String.eqb id "" then
    (mkChainApplyResult CaMissingEntityId id (cr_fill_id fill) false "chain fill missing asset_id and market_id", w)
  else
    let st := state_at w id in
    let st := (st <| ct_last_block_number := Z.max (ct_last_block_number st) (cr_block_number fill) |>
                  <| ct_last_chain_seen_ns := now |> <| ct_version := incr (ct_version st) |>) in
    let put st := (w <| cw_states := <[id := st]> (cw_states w) |>) in
    let active :=
      negb (String.eqb (cr_fill_id fill) "") &&
      match cw_fills w !! cr_fill_id fill with Some existing => negb (af_removed existing) | None => false end in
    if active then (out CaDuplicateFill "duplicate chain fill ignored", refresh_windows id now (put st))
    else if is_ambiguous fill then
      let st := (st <| ct_ambiguous_fill_count_recent := incr_u32 (ct_ambiguous_fill_count_recent st) |>) in
      (out CaAmbiguousFill "ambiguous chain fill counted without direction", refresh_windows id now (put st))
    else
      match map_direction (cr_direction fill) with
      | AggUnknown =>
          let st := (st <| ct_unknown_fill_count_recent := incr_u32 (ct_unknown_fill_count_recent st) |>) in
          (out CaUnknownDirection "unknown chain fill direction counted without volume", refresh_windows id now (put st))
      | side =>
          let st := (st <| ct_has_last_trade := true |> <| ct_last_trade_price_tick := cr_price_tick fill |>
                        <| ct_last_trade_size_lots := cr_size_lots fill |> <| ct_last_taker_side := side |>) in
          let w := put st in
          let w :=
            if String.eqb (cr_fill_id fill) "" then w
            else
              (w <| cw_fills := <[cr_fill_id fill := mkAppliedFill id side (cr_size_lots fill) now true false]> (cw_fills w) |>
                 <| cw_windows := <[id := window_add (cr_fill_id fill) now side (cr_size_lots fill) (window_at w id)]> (cw_windows w) |>) in
          (out CaApplied "chain fill applied to confirmed trade state", refresh_windows id now w)
      end.

(** [engine/state/chain/ChainStateWriter.cpp:206-214] apply_removed, taking an active fill out of its window. *)
Definition retire_fill (fill_id : string) (w : ChainStateWriter) : ChainStateWriter :=
  match cw_fills w !! fill_id with
  | Some f =>
      if af_removed f then w
      else
        let w := (w <| cw_fills := <[fill_id := (f <| af_removed := true |>)]> (cw_fills w) |>) in
        if af_counted_volume f then
          (w <| cw_windows := <[af_entity_id f := window_mark_removed fill_id (window_at w (af_entity_id f))]> (cw_windows w) |>)
        else w
  | None => w
  end.

(** [engine/state/chain/ChainStateWriter.cpp:177-218] apply_removed. *)
Definition apply_removed (event : MarketStateEvent) (w : ChainStateWriter) : ChainApplyResult * ChainStateWriter :=
  let fill := me_chain_fill event in
  let id := chain_entity_id event in
  let now := cr_chain_seen_monotonic_ns fill in
  if String.eqb id "" then
    (mkChainApplyResult CaMissingEntityId id (cr_fill_id fill) false "removed chain fill missing asset_id and market_id", w)
  else
    let st := state_at w id in
    let st := (st <| ct_version := incr (ct_version st) |>
                  <| ct_removed_fill_count_recent := incr_u32 (ct_removed_fill_count_recent st) |>
                  <| ct_last_block_number := Z.max (ct_last_block_number st) (cr_block_number fill) |>
                  <| ct_last_chain_seen_ns := now |>) in
    let w := (w <| cw_states := <[id := st]> (cw_states w) |>) in
    (mkChainApplyResult CaRemovedFill id (cr_fill_id fill) true "chain fill removed by reorg",
     refresh_windows id now (retire_fill (cr_fill_id fill) w)).

(** [engine/state/chain/ChainStateWriter.cpp:51-54] what apply takes for a removal. *)
Definition is_removal (event : MarketStateEvent) : bool :=
  bool_decide (me_type event = MeChainRemovedFill) || cr_removed (me_chain_fill event)
  || bool_decide (cr_classification (me_chain_fill event) = FcChainRemoved).

(** [engine/state/chain/ChainStateWriter.cpp:58-59] what apply takes for a fill. *)
Definition is_confirmation (event : MarketStateEvent) : bool :=
  negb (is_removal event) && (bool_decide (me_type event = MeChainConfirmedFill) || has_chain_fill (me_chain_fill event)).

(** [engine/state/chain/ChainStateWriter.cpp:50-67] ChainStateWriter::apply. *)
Definition chain_apply (event : MarketStateEvent) (w : ChainStateWriter) : ChainApplyResult * ChainStateWriter :=
  if is_removal event then apply_removed event w
  else if is_confirmation event then apply_confirmed event w
  else (mkChainApplyResult CaIgnoredNonChainEvent "" "" false "non-chain event ignored by ChainStateWriter", w).

(** [engine/state/chain/ChainStateWriter.cpp:69-77] ChainStateWriter::get. *)
Definition chain_get (w : ChainStateWriter) (id : string) : option ConfirmedTradeState := cw_states w !! id.

(** [engine/state/chain/ChainStateWriter.cpp:83-88] ChainStateWriter::version. *)
Definition chain_version_of (w : ChainStateWriter) (id : string) : Z := from_option ct_version 0 (chain_get w id).

(** ** Settlements *)

(** [engine/state/chain/SettlementState.h:8-13] SettlementStatus. *)
Inductive SettlementStatus := StUnknown | StOpen | StClosed | StResolved.
#[export] Instance SettlementStatus_eq_dec : EqDecision SettlementStatus.
Proof. solve_decision. Defined.

(** [engine/state/chain/SettlementState.h:15-23] SettlementState. *)
Record SettlementState := mkSettlementState {
  ss_status : SettlementStatus;
  ss_resolved : bool;
  ss_winning_asset_id : string;
  ss_last_update_block : Z;
  ss_version : Z
}.
Definition settlement0 : SettlementState := mkSettlementState StOpen false "" 0 0.

(** [engine/state/chain/SettlementStateWriter.h:11-14] SettlementApplyCode. *)
Inductive SettlementApplyCode := SaApplied | SaMissingMarketId.

(** [engine/state/chain/SettlementStateWriter.h:16-26] SettlementApplyResult. *)
Record SettlementApplyResult := mkSettlementApplyResult {
  sa_code : SettlementApplyCode;
  sa_market_id : string;
  sa_status : SettlementStatus;
  sa_state_changed : bool;
  sa_message : string
}.

(** The settlements by market. *)
Abbreviation SettlementStateWriter := (gmap string SettlementState).

(** [engine/state/chain/SettlementStateWriter.cpp:50-77] apply_status. *)
Definition apply_status (market_id : string) (status : SettlementStatus) (winning_asset_id : string) (block_number : Z)
    (w : SettlementStateWriter) : SettlementApplyResult * SettlementStateWriter :=
  if String.eqb market_id "" then
    (mkSettlementApplyResult SaMissingMarketId market_id status false "settlement update missing market_id", w)
  else
    let st := default settlement0 (w !! market_id) in
    (mkSettlementApplyResult SaApplied market_id status true "settlement state updated",
     <[market_id := mkSettlementState status (bool_decide (status = StResolved)) winning_asset_id block_number
                      (incr (ss_version st))]> w).

(** [engine/state/chain/SettlementStateWriter.cpp:7-12] mark_open. *)
Definition mark_open (market_id : string) (block_number : Z) := apply_status market_id StOpen "" block_number.
(** [engine/state/chain/SettlementStateWriter.cpp:14-19] mark_closed. *)
Definition mark_closed (market_id : string) (block_number : Z) := apply_status market_id StClosed "" block_number.
(** [engine/state/chain/SettlementStateWriter.cpp:21-32] mark_resolved. *)
Definition mark_resolved (market_id winning_asset_id : string) (block_number : Z) :=
  apply_status market_id StResolved winning_asset_id block_number.

(** ** Quality of a book *)

(** [engine/state/quality/ReconciliationState.h:7-20] ReconciliationState. *)
Record ReconciliationState := mkReconciliationState {
  rn_version : Z;
  rn_last_update_ns : Z;
  rn_chain_ws_match_count_recent : Z;
  rn_chain_ws_mismatch_count_recent : Z;
  rn_ambiguous_count_recent : Z;
  rn_unmatched_count_recent : Z
}.
Definition reconciliation0 : ReconciliationState := mkReconciliationState 0 0 0 0 0 0.

Definition rn_touch (now_ns : Z) (r : ReconciliationState) : ReconciliationState :=
  (r <| rn_version := incr (rn_version r) |> <| rn_last_update_ns := now_ns |>).

(** [engine/state/quality/ReconciliationState.cpp:5-9] record_match. *)
Definition record_match (now_ns : Z) (r : ReconciliationState) : ReconciliationState :=
  ((rn_touch now_ns r) <| rn_chain_ws_match_count_recent := incr_u32 (rn_chain_ws_match_count_recent r) |>).
(** [engine/state/quality/ReconciliationState.cpp:11-15] record_mismatch. *)
Definition record_mismatch (now_ns : Z) (r : ReconciliationState) : ReconciliationState :=
  ((rn_touch now_ns r) <| rn_chain_ws_mismatch_count_recent := incr_u32 (rn_chain_ws_mismatch_count_recent r) |>).
(** [engine/state/quality/ReconciliationState.cpp:17-21] record_ambiguous. *)
Definition record_ambiguous (now_ns : Z) (r : ReconciliationState) : ReconciliationState :=
  ((rn_touch now_ns r) <| rn_ambiguous_count_recent := incr_u32 (rn_ambiguous_count_recent r) |>).
(** [engine/state/quality/ReconciliationState.cpp:23-27] record_unmatched. *)
Definition record_unmatched (now_ns : Z) (r : ReconciliationState) : ReconciliationState :=
  ((rn_touch now_ns r) <| rn_unmatched_count_recent := incr_u32 (rn_unmatched_count_recent r) |>).

Definition quality_code (q : BookQuality) : Z :=
  match q with
  | BqUnknown => 0 | BqGood => 1 | BqStale => 2 | BqRecovering => 3 | BqCrossed => 4
  | BqChainMismatch => 5 | BqChainLagging => 6 | BqClosed => 7 | BqResolved => 8
  end.

(** [engine/state/quality/BookQualityState.h:20-37] BookQualityState. *)
Record BookQualityState := mkBookQualityState {
  bq_quality : BookQuality;
  bq_ws_live : bool;
  bq_chain_live : bool;
  bq_last_ws_recv_ns : Z;
  bq_last_chain_seen_ns : Z;
  bq_ws_decode_errors_recent : Z;
  bq_state_errors_recent : Z;
  bq_chain_decode_errors_recent : Z;
  bq_chain_ws_mismatch_count_recent : Z;
  bq_usable_for_depth : bool;
  bq_usable_for_signal : bool
}.
#[export] Instance BookQualityState_eq_dec : EqDecision BookQualityState.
Proof. solve_decision. Defined.
Definition quality0 : BookQualityState := mkBookQualityState BqUnknown false false 0 0 0 0 0 0 false false.

(** [engine/state/quality/DataQualityGate.h:12-15] DataQualityGateConfig. *)
Record DataQualityGateConfig := mkDataQualityGateConfig {
  qc_ws_stale_timeout_ns : Z;
  qc_chain_lag_timeout_ns : Z
}.
(** [engine/state/quality/DataQualityGate.h:12-15] the default of DataQualityGateConfig. *)
Definition quality_config0 : DataQualityGateConfig := mkDataQualityGateConfig 2000000000 10000000000.

(** [engine/state/quality/DataQualityGate.h:17-27] DataQualityInput. *)
Record DataQualityInput := mkDataQualityInput {
  qi_entity : option EntityState;
  qi_confirmed_trade_state : option ConfirmedTradeState;
  qi_reconciliation : ReconciliationState;
  qi_now_ns : Z;
  qi_ws_decode_errors_recent : Z;
  qi_state_errors_recent : Z;
  qi_chain_decode_errors_recent : Z
}.

(** [engine/state/quality/DataQualityGate.cpp:7-21] age_exceeds. *)
Definition age_exceeds (now_ns last_seen_ns timeout_ns : Z) : bool :=
  if (now_ns =? 0) || (last_seen_ns =? 0) then false
  else if now_ns <? last_seen_ns then false
  else timeout_ns <? now_ns - last_seen_ns.

(** [engine/state/quality/DataQualityGate.cpp:23-34] crossed_book. *)
Definition crossed_book (e : EntityState) : bool :=
  if ob_crossed (en_book e) then true
  else match ob_best_bid (en_book e), ob_best_ask (en_book e) with
       | Some bid, Some ask => SFgtb bid ask
       | _, _ => false
       end.

(** [engine/state/quality/DataQualityGate.cpp:36-60] set_usability: for depth and for signals. *)
Definition usability (q : BookQuality) : bool * bool :=
  match q with
  | BqGood => (true, true)
  | BqChainLagging | BqChainMismatch => (true, false)
  | BqUnknown | BqStale | BqRecovering | BqCrossed | BqClosed | BqResolved => (false, false)
  end.

(** [engine/state/quality/DataQualityGate.cpp:141-153] ws_live. *)
Definition ws_live (c : DataQualityGateConfig) (i : DataQualityInput) : bool :=
  match qi_entity i with
  | None => false
  | Some e =>
      if en_last_update_monotonic_ns e =? 0 then false
      else negb (age_exceeds (qi_now_ns i) (en_last_update_monotonic_ns e) (qc_ws_stale_timeout_ns c))
  end.

(** [engine/state/quality/DataQualityGate.cpp:155-168] chain_live. *)
Definition chain_live (c : DataQualityGateConfig) (i : DataQualityInput) : bool :=
  match qi_confirmed_trade_state i with
  | None => false
  | Some t =>
      if ct_last_chain_seen_ns t =? 0 then false
      else negb (age_exceeds (qi_now_ns i) (ct_last_chain_seen_ns t) (qc_chain_lag_timeout_ns c))
  end.

(** [engine/state/quality/DataQualityGate.cpp:89-136] the verdicts of evaluate in their order. *)
Definition judge (c : DataQualityGateConfig) (i : DataQualityInput) : BookQuality :=
  match qi_entity i with
  | None => BqRecovering
  | Some e =>
      if negb (en_initialized e) || en_recovering e || bool_decide (en_status e = EsRecovering)
         || (0 <? qi_state_errors_recent i) then BqRecovering
      else if en_closed e || bool_decide (en_status e = EsClosed) then BqClosed
      else if ob_resolved (en_book e) then BqResolved
      else if crossed_book e then BqCrossed
      else if negb (ws_live c i) then BqStale
      else if negb (chain_live c i) || (0 <? qi_chain_decode_errors_recent i) then BqChainLagging
      else if 0 <? rn_chain_ws_mismatch_count_recent (qi_reconciliation i) then BqChainMismatch
      else BqGood
  end.

(** [engine/state/quality/DataQualityGate.cpp:67-139] DataQualityGate::evaluate. *)
Definition evaluate_quality (c : DataQualityGateConfig) (i : DataQualityInput) : BookQualityState :=
  let q := judge c i in
  mkBookQualityState q (ws_live c i) (chain_live c i)
    (from_option en_last_update_monotonic_ns 0 (qi_entity i))
    (from_option ct_last_chain_seen_ns 0 (qi_confirmed_trade_state i))
    (qi_ws_decode_errors_recent i) (qi_state_errors_recent i) (qi_chain_decode_errors_recent i)
    (rn_chain_ws_mismatch_count_recent (qi_reconciliation i))
    (usability q).1 (usability q).2.

(** ** What the volumes mean *)

(** The entry a fill makes in its window. *)
Definition entry_of (fill : ClassifiedFillRecord) : WindowEntry :=
  mkWindowEntry (cr_fill_id fill) (cr_chain_seen_monotonic_ns fill) (map_direction (cr_direction fill)) (cr_size_lots fill) false.

(** The fills that count, by id, with their entity: those of a known direction that were not ambiguous, from
    their first delivery to their removal. *)
Definition count_event (active : gmap string (string * WindowEntry)) (event : MarketStateEvent) :
    gmap string (string * WindowEntry) :=
  let fill := me_chain_fill event in
  if String.eqb (chain_entity_id event) "" then active
  else if is_removal event then delete (cr_fill_id fill) active
  else if is_confirmation event && negb (String.eqb (cr_fill_id fill) "") && negb (is_ambiguous fill)
          && negb (bool_decide (cr_direction fill = CdUnknown)) then
    match active !! cr_fill_id fill with
    | Some _ => active
    | None => <[cr_fill_id fill := (chain_entity_id event, entry_of fill)]> active
    end
  else active.

Definition counted_fills (events : list MarketStateEvent) : gmap string (string * WindowEntry) := foldl count_event ∅ events.
Definition run_chain (events : list MarketStateEvent) (w : ChainStateWriter) : ChainStateWriter :=
  foldl (λ w ev, (chain_apply ev w).2) w events.

(** The lots of one side an entity's counted fills traded in the window that ends now. *)
Definition side_lots (side : AggressorSide) (now_ns window_ns : Z) (e : WindowEntry) : Z :=
  if in_window now_ns window_ns e && bool_decide (we_side e = side) then we_size_lots e else 0.
Definition of_entity (entity : string) (f : WindowEntry → Z) (a : string * WindowEntry) : Z :=
  if bool_decide (a.1 = entity) then f a.2 else 0.
Definition confirmed_lots (active : gmap string (string * WindowEntry)) (entity : string) (side : AggressorSide)
    (now_ns window_ns : Z) : Z :=
  wrap_i64 (map_sum (of_entity entity (side_lots side now_ns window_ns)) active).

(** The volumes a state shows are those of the fills that count. *)
Record volumes_exact (active : gmap string (string * WindowEntry)) (entity : string) (st : ConfirmedTradeState) : Prop := {
  ve_buy_2s : ct_confirmed_buy_lots_2s st = confirmed_lots active entity AggBuy (ct_last_chain_seen_ns st) kTwoSecondsNs;
  ve_sell_2s : ct_confirmed_sell_lots_2s st = confirmed_lots active entity AggSell (ct_last_chain_seen_ns st) kTwoSecondsNs;
  ve_buy_10s : ct_confirmed_buy_lots_10s st = confirmed_lots active entity AggBuy (ct_last_chain_seen_ns st) kTenSecondsNs;
  ve_sell_10s : ct_confirmed_sell_lots_10s st = confirmed_lots active entity AggSell (ct_last_chain_seen_ns st) kTenSecondsNs
}.

(** A running total wraps the exact one. *)
Lemma window_totals_acc now win w b s :
  let t := foldl (λ t e,
    if negb (in_window now win e) then t
    else match we_side e with
         | AggBuy => (t.1 +i we_size_lots e, t.2)
         | AggSell => (t.1, t.2 +i we_size_lots e)
         | AggUnknown => t
         end) (b, s) w in
  (in_i64 b → in_i64 t.1 ∧ t.1 =m b + sum_list_Z (side_lots AggBuy now win) w) ∧
  (in_i64 s → in_i64 t.2 ∧ t.2 =m s + sum_list_Z (side_lots AggSell now win) w).
Proof.
  revert b s. induction w as [|e w IH]; intros b s; cbn [foldl sum_list_Z].
  { split; intros; (split; [done|]); apply eqm_eq; cbn; lia. }
  unfold side_lots at 1 3. destruct (in_window now win e); cbn [negb andb fst snd];
    [|by rewrite !Z.add_0_l].
  destruct (we_side e); repeat (rewrite bool_decide_false by done); repeat (rewrite bool_decide_true by done);
    rewrite ?Z.add_0_l; [done| |];
    match goal with |- context [foldl _ (?b', ?s') _] => destruct (IH b' s') as [H1 H2] end;
    (split; intros Hin; [destruct H1 as [? He]|destruct H2 as [? He]]; auto using wrap_i64_range; (split; [done|]));
    rewrite He; eqm_ring.
Qed.

Lemma window_totals_exact now win w :
  window_totals now win w =
    (wrap_i64 (sum_list_Z (side_lots AggBuy now win) w), wrap_i64 (sum_list_Z (side_lots AggSell now win) w)).
Proof.
  destruct (window_totals_acc now win w 0 0) as [[H1 E1] [H2 E2]]; [rlia..|].
  unfold window_totals. rewrite (surjective_pairing (foldl _ _ _)).
  f_equal; (apply eqm_in_i64; [done|apply wrap_i64_range|]); rewrite wrap_i64_eqm; by rewrite Z.add_0_l in *.
Qed.

(** ** The writer refines the fills that count *)

(** The counted fill a record of the writer stands for. *)
Definition counted_of (id : string) (f : AppliedFill) : option (string * WindowEntry) :=
  if af_removed f then None
  else Some (af_entity_id f, mkWindowEntry id (af_chain_seen_ns f) (af_side f) (af_size_lots f) false).

Definition not_removed (f : WindowEntry → Z) (e : WindowEntry) : Z := if we_removed e then 0 else f e.

(** The records are the counted fills, and so, for whatever is summed, are the live entries of the windows. *)
Record chain_counts (active : gmap string (string * WindowEntry)) (w : ChainStateWriter) : Prop := {
  cc_fills : ∀ id, active !! id = (f ← cw_fills w !! id; counted_of id f);
  cc_volume : ∀ id f, cw_fills w !! id = Some f → af_counted_volume f = true;
  cc_window : ∀ entity f,
    sum_list_Z (not_removed f) (window_at w entity) = map_sum (of_entity entity f) active
}.

Lemma active_id active w id a : chain_counts active w → active !! id = Some a → we_fill_id a.2 = id.
Proof.
  intros H. rewrite (cc_fills _ _ H). destruct (cw_fills w !! id) as [f|]; cbn; [|done].
  unfold counted_of. destruct (af_removed f); [done|]. by intros [= <-].
Qed.

Lemma map_sum_ext `{Countable K} {A} (f g : A → Z) (m : gmap K A) :
  (∀ k x, m !! k = Some x → f x = g x) → map_sum f m = map_sum g m.
Proof. intros Hfg. apply sum_list_Z_ext. intros [k x] Hx%elem_of_map_to_list. by apply (Hfg k). Qed.

Lemma map_sum_delete `{Countable K} {A} (f : A → Z) (m : gmap K A) k :
  map_sum f (delete k m) = map_sum f m - default 0 (f <$> m !! k).
Proof.
  destruct (m !! k) as [x|] eqn:E; cbn; [|rewrite delete_id by done; lia].
  rewrite <- (insert_delete_id m k x E) at 2. rewrite map_sum_insert, lookup_delete_eq. cbn. lia.
Qed.

(** Marking a fill removed takes out of the window what deleting it takes out of the counted fills. *)
Lemma mark_removed_sum id f w :
  sum_list_Z (not_removed f) (window_mark_removed id w) =
  sum_list_Z (not_removed (λ e, if String.eqb (we_fill_id e) id then 0 else f e)) w.
Proof.
  induction w as [|e w IH]; cbn [window_mark_removed fmap list_fmap sum_list_Z]; [done|]. rewrite <- IH.
  f_equal. unfold not_removed. destruct (String.eqb _ id), (we_removed e) eqn:Hr; cbn; rewrite ?Hr; done.
Qed.

Lemma delete_sum entity f active w id :
  chain_counts active w →
  map_sum (of_entity entity f) (delete id active) =
  map_sum (of_entity entity (λ e, if String.eqb (we_fill_id e) id then 0 else f e)) active.
Proof.
  intros H. rewrite map_sum_delete. destruct (active !! id) as [a|] eqn:E; cbn.
  - rewrite <- (insert_delete_id active id a E). rewrite !map_sum_insert, lookup_delete_eq. cbn.
    rewrite (map_sum_ext (of_entity entity f) (of_entity entity (λ e, if String.eqb (we_fill_id e) id then 0 else f e)) (delete id active)).
    + unfold of_entity at 2 3 5. rewrite (active_id _ _ _ _ H E), String.eqb_refl. destruct (bool_decide _); lia.
    + intros k x Hx%lookup_delete_Some. unfold of_entity. rewrite (active_id _ _ _ _ H (proj2 Hx)).
      destruct (String.eqb_spec k id); [by subst; destruct Hx|done].
  - rewrite Z.sub_0_r. apply map_sum_ext. intros k x Hx. unfold of_entity. rewrite (active_id _ _ _ _ H Hx).
    destruct (String.eqb_spec k id); [congruence|done].
Qed.

#[local] Arguments constant {_} _ _ /.

Lemma retire_fill_counts active w id :
  chain_counts active w → chain_counts (delete id active) (retire_fill id w).
Proof.
  destruct w as [sts wins fills]. intros H. unfold retire_fill. pose proof (cc_fills _ _ H id) as Hid. cbn [cw_fills] in *.
  destruct (fills !! id) as [[fe fs fl fn fv fr]|] eqn:Hf; cbn in Hid; [|by rewrite delete_id].
  unfold counted_of in Hid. cbn in Hid |- *. destruct fr; [by rewrite delete_id|].
  pose proof (cc_volume _ _ H id _ Hf) as Hv. cbn in Hv. subst fv. split; cbn.
  - intros k. destruct (decide (k = id)) as [->|Hk].
    + by rewrite lookup_delete_eq, lookup_insert_eq.
    + by rewrite lookup_delete_ne, lookup_insert_ne, (cc_fills _ _ H) by done.
  - intros k g. destruct (decide (k = id)) as [->|Hk].
    + rewrite lookup_insert_eq. by intros [= <-].
    + rewrite lookup_insert_ne by done. apply (cc_volume _ _ H).
  - intros entity g. rewrite (delete_sum _ _ _ _ _ H), <- (cc_window _ _ H). unfold window_at at 1. cbn.
    destruct (decide (entity = fe)) as [->|Hne].
    + by rewrite lookup_insert_eq, <- mark_removed_sum.
    + rewrite lookup_insert_ne by done. rewrite (cc_window _ _ H), <- (delete_sum _ _ _ _ _ H), map_sum_delete, Hid. cbn. rewrite <- (cc_window _ _ H).
      unfold of_entity, window_at. cbn. rewrite bool_decide_false by done. lia.
Qed.

Lemma refresh_counts active w id now : chain_counts active w → chain_counts active (refresh_windows id now w).
Proof.
  destruct w. intros H. split; cbn; [apply (cc_fills _ _ H)|apply (cc_volume _ _ H)|].
  intros entity f. rewrite <- (cc_window _ _ H). unfold window_at at 1. cbn.
  destruct (decide (entity = id)) as [->|]; [by rewrite lookup_insert_eq|by rewrite lookup_insert_ne].
Qed.

Lemma put_state_counts active w id st :
  chain_counts active w → chain_counts active (w <| cw_states := <[id := st]> (cw_states w) |>).
Proof. intros H. split; cbn; apply H. Qed.

Lemma add_fill_counts active w id fill :
  chain_counts active w → cr_fill_id fill ≠ "" → active !! cr_fill_id fill = None →
  chain_counts (<[cr_fill_id fill := (id, entry_of fill)]> active)
    (w <| cw_fills := <[cr_fill_id fill := mkAppliedFill id (map_direction (cr_direction fill)) (cr_size_lots fill)
                                             (cr_chain_seen_monotonic_ns fill) true false]> (cw_fills w) |>
       <| cw_windows := <[id := window_add (cr_fill_id fill) (cr_chain_seen_monotonic_ns fill)
                                  (map_direction (cr_direction fill)) (cr_size_lots fill) (window_at w id)]> (cw_windows w) |>).
Proof.
  destruct w as [sts wins fills]. intros H Hne Hnone. split; cbn.
  - intros k. destruct (decide (k = cr_fill_id fill)) as [->|Hk].
    + by rewrite !lookup_insert_eq.
    + by rewrite !lookup_insert_ne, (cc_fills _ _ H) by done.
  - intros k g. destruct (decide (k = cr_fill_id fill)) as [->|Hk].
    + rewrite lookup_insert_eq. by intros [= <-].
    + rewrite lookup_insert_ne by done. apply (cc_volume _ _ H).
  - intros entity f. rewrite map_sum_insert, Hnone. cbn. unfold window_at at 1. cbn.
    rewrite Z.sub_0_r, <- (cc_window _ _ H). unfold of_entity. cbn.
    destruct (decide (entity = id)) as [->|Hk].
    + rewrite lookup_insert_eq, bool_decide_true by done. cbn. unfold window_add. rewrite sum_list_Z_app. cbn [sum_list_Z].
      match goal with |- context [not_removed f ?e] => change (not_removed f e) with (f (entry_of fill)) end. lia.
    + rewrite lookup_insert_ne, bool_decide_false by done. unfold window_at. cbn. lia.
Qed.

Lemma counted_active active w id :
  chain_counts active w →
  match cw_fills w !! id with Some existing => negb (af_removed existing) | None => false end =
  match active !! id with Some _ => true | None => false end.
Proof.
  intros H. rewrite (cc_fills _ _ H). destruct (cw_fills w !! id) as [f|]; cbn; [|done].
  unfold counted_of. by destruct (af_removed f).
Qed.

Lemma chain_apply_counts active w event :
  chain_counts active w → chain_counts (count_event active event) (chain_apply event w).2.
Proof.
  destruct w as [sts wins fills]. intros H. unfold chain_apply, count_event, apply_removed, apply_confirmed.
  destruct (is_removal event) eqn:Hr.
  { destruct (String.eqb _ _); [done|]. cbn [snd]. by apply refresh_counts, retire_fill_counts, put_state_counts. }
  destruct (is_confirmation event); cbn [andb]; [|by destruct (String.eqb _ _)].
  destruct (String.eqb_spec (chain_entity_id event) ""); [done|].
  rewrite (counted_active _ _ _ H).
  destruct (String.eqb_spec (cr_fill_id (me_chain_fill event)) "") as [|Hid]; cbn [negb andb].
  { destruct (is_ambiguous _); [|destruct (cr_direction _)]; cbn [snd map_direction]; by apply refresh_counts, put_state_counts. }
  destruct (active !! _) as [a|] eqn:Ha.
  { destruct (negb _ && _); cbn [snd]; by apply refresh_counts, put_state_counts. }
  destruct (is_ambiguous _); cbn [negb andb]; [by apply refresh_counts, put_state_counts|].
  pose proof (λ st, add_fill_counts _ _ (chain_entity_id event) _ (put_state_counts _ _ (chain_entity_id event) st H) Hid Ha) as Hadd.
  destruct (cr_direction (me_chain_fill event)) eqn:Hd; cbn [map_direction] in *;
    [rewrite bool_decide_true by done; by apply refresh_counts, put_state_counts|..];
    rewrite bool_decide_false by done; cbn [negb snd]; apply refresh_counts; apply Hadd.
Qed.

(** A handled event ends in a refresh of its entity at the time of its fill. *)
Lemma chain_apply_refreshes event w :
  (chain_apply event w).2 = w ∧ (∀ active, count_event active event = active) ∨
  chain_entity_id event ≠ "" ∧
  ∃ w0, (chain_apply event w).2 = refresh_windows (chain_entity_id event) (cr_chain_seen_monotonic_ns (me_chain_fill event)) w0 ∧
    ct_last_chain_seen_ns (state_at w0 (chain_entity_id event)) = cr_chain_seen_monotonic_ns (me_chain_fill event) ∧
    ∀ e, e ≠ chain_entity_id event → cw_states w0 !! e = cw_states w !! e.
Proof.
  assert (Hretire : ∀ w id, cw_states (retire_fill id w) = cw_states w).
  { intros [sts wins fills] id. unfold retire_fill. cbn. destruct (fills !! id) as [[fe fs fl fn fv fr]|]; [|done].
    cbn. destruct fr; [done|]. by destruct fv. }
  unfold chain_apply, count_event, apply_removed, apply_confirmed.
  destruct w as [sts wins fills].
  destruct (is_removal event), (is_confirmation event); cbn [andb];
    destruct (String.eqb_spec (chain_entity_id event) ""); try (left; done); right; (split; [done|]).
  1,2: eexists; split; [reflexivity|]; unfold state_at; rewrite Hretire; cbn;
    (split; [by rewrite lookup_insert_eq|intros; by rewrite lookup_insert_ne]).
  destruct (negb _ && _); [|destruct (is_ambiguous _); [|destruct (cr_direction _), (String.eqb _ _)]];
    (eexists; split; [reflexivity|]; unfold state_at; cbn;
     (split; [by rewrite lookup_insert_eq|intros; by rewrite lookup_insert_ne])).
Qed.

Lemma refresh_exact active w id now :
  chain_counts active w → ct_last_chain_seen_ns (state_at w id) = now →
  ∀ st, cw_states (refresh_windows id now w) !! id = Some st → volumes_exact active id st.
Proof.
  intros H Hnow st. destruct w as [sts wins fills]. cbn. rewrite lookup_insert_eq. intros [= <-].
  assert (Hv : ∀ side win, wrap_i64 (sum_list_Z (side_lots side now win) (window_at (mkChainStateWriter sts wins fills) id))
                 = confirmed_lots active id side now win).
  { intros. unfold confirmed_lots. rewrite <- (cc_window _ _ H). f_equal. apply sum_list_Z_ext. intros e _.
    unfold not_removed, side_lots, in_window. by destruct (we_removed e). }
  split; cbn; rewrite window_totals_exact; cbn; rewrite Hv, <- Hnow; done.
Qed.

(** Every delivery and removal of a fill names the entity the fill is of. *)
Definition fills_owned (owner : string → string) (event : MarketStateEvent) : Prop :=
  chain_entity_id event = "" ∨ cr_fill_id (me_chain_fill event) = "" ∨
  chain_entity_id event = owner (cr_fill_id (me_chain_fill event)).

Definition active_owned (owner : string → string) (active : gmap string (string * WindowEntry)) : Prop :=
  ∀ id a, active !! id = Some a → id ≠ "" ∧ a.1 = owner id.

Lemma count_event_owned owner active event :
  fills_owned owner event → active_owned owner active → active_owned owner (count_event active event).
Proof.
  intros He Ha id a. unfold count_event. destruct (String.eqb_spec (chain_entity_id event) "") as [|Hn]; [apply Ha|].
  destruct (is_removal event); [intros [_ Hl]%lookup_delete_Some; by apply Ha|].
  destruct (is_confirmation event && _ && _ && _) eqn:Hc; [|apply Ha]. breflect.
  destruct (active !! _) as [b|]; [apply Ha|]. intros [[<- <-]|[_ Hl]]%lookup_insert_Some; [|by apply Ha].
  assert (Hid : cr_fill_id (me_chain_fill event) ≠ "") by (intros E; rewrite E in *; done).
  destruct He as [?|[?|He]]; done.
Qed.

(** The event changes what counts for its own entity only. *)
Lemma count_event_local owner active event e side now win :
  fills_owned owner event → active_owned owner active → e ≠ chain_entity_id event →
  confirmed_lots (count_event active event) e side now win = confirmed_lots active e side now win.
Proof.
  intros He Ha Hne. unfold confirmed_lots. f_equal. unfold count_event.
  destruct (String.eqb_spec (chain_entity_id event) "") as [|Hn]; [done|].
  destruct (is_removal event).
  - rewrite map_sum_delete. destruct (active !! _) as [a|] eqn:Hl; cbn; [|lia]. destruct (Ha _ _ Hl) as [Hid Hown].
    unfold of_entity at 2. rewrite bool_decide_false; [lia|]. destruct He as [?|[?|He]]; congruence.
  - destruct (is_confirmation event && _ && _ && _); [|done]. destruct (active !! _) as [a|] eqn:Hl; [done|].
    rewrite map_sum_insert, Hl. cbn. unfold of_entity at 2. cbn. rewrite bool_decide_false by congruence. lia.
Qed.

Lemma volumes_exact_ext active active' e st :
  (∀ side now win, confirmed_lots active' e side now win = confirmed_lots active e side now win) →
  volumes_exact active e st → volumes_exact active' e st.
Proof. intros He [H1 H2 H3 H4]. split; by rewrite He. Qed.

(** C18. However fills, repeated deliveries, ambiguous fills and removals by a reorganisation follow each
    other, the volumes the state of an asset shows are exactly the lots of the fills that count and lie
    in the last two and ten seconds before the last chain event of the asset: a fill counts once from
    its first delivery until its removal, however often it is delivered, provided every event of a
    fill names the same asset. *)
Theorem confirmed_volumes_exact owner events :
  Forall (fills_owned owner) events →
  ∀ entity st, chain_get (run_chain events chain_writer0) entity = Some st →
    volumes_exact (counted_fills events) entity st.
Proof.
  intros Hown.
  assert (Hrun : ∀ active w, active_owned owner active → chain_counts active w →
    (∀ e st, cw_states w !! e = Some st → volumes_exact active e st) →
    ∀ e st, cw_states (run_chain events w) !! e = Some st → volumes_exact (foldl count_event active events) e st).
  { induction Hown as [|event events He Hown IH]; intros active w Ha Hc Hv; [done|].
    cbn. apply IH; [by apply (count_event_owned owner)|by apply chain_apply_counts|].
    intros e st Hst. pose proof (chain_apply_counts _ _ event Hc) as Hc'.
    destruct (chain_apply_refreshes event w) as [[Hw Hsame]|(Hid & w0 & Hw & Hnow & Hother)].
    { rewrite Hw in Hst. rewrite Hsame. by apply Hv. }
    rewrite Hw in Hst, Hc'. destruct (decide (e = chain_entity_id event)) as [->|Hne].
    - refine (refresh_exact _ w0 _ _ _ Hnow _ Hst). destruct w0; split; [apply (cc_fills _ _ Hc')|apply (cc_volume _ _ Hc')|].
      intros entity f. rewrite <- (cc_window _ _ Hc'). unfold window_at at 2, refresh_windows. cbn.
      destruct (decide (entity = chain_entity_id event)) as [->|]; [by rewrite lookup_insert_eq|by rewrite lookup_insert_ne].
    - destruct w0. cbn in Hst, Hother. rewrite lookup_insert_ne, Hother in Hst by done.
      apply (volumes_exact_ext active); [|by apply Hv]. intros. by apply (count_event_local owner). }
  intros entity st Hst. apply (Hrun ∅ chain_writer0); [done|by split|done|done].
Qed.

Definition demo_chain (type : MarketStateEventType) (asset id : string) (direction : ConfirmedDirection) (lots seen : Z) :
    MarketStateEvent :=
  (market_event0 <| me_type := type |>
     <| me_chain_fill := (classified0 <| cr_fill_id := id |> <| cr_asset_id := asset |> <| cr_direction := direction |>
          <| cr_mapping_status := FmMapped |> <| cr_size_lots := lots |> <| cr_chain_seen_monotonic_ns := seen |>) |>).

(** A purchase, seen twice, a sale, and the removal of the purchase six seconds later. *)
Definition demo_chain_events : list MarketStateEvent :=
  [demo_chain MeChainConfirmedFill "yes" "0xa:1" BuyAggressor 5000000 1000;
   demo_chain MeChainConfirmedFill "yes" "0xa:1" BuyAggressor 5000000 2000;
   demo_chain MeChainConfirmedFill "yes" "0xb:1" SellAggressor 3000000 3000;
   demo_chain MeChainRemovedFill "yes" "0xa:1" BuyAggressor 5000000 6000000000].

Lemma confirmed_volumes_exact_witness :
  ∃ st, chain_get (run_chain demo_chain_events chain_writer0) "yes" = Some st ∧
    volumes_exact (counted_fills demo_chain_events) "yes" st ∧
    ct_confirmed_buy_lots_10s st = 0 ∧ ct_confirmed_sell_lots_10s st = 3000000 ∧ ct_confirmed_sell_lots_2s st = 0.
Proof.
  destruct (chain_get (run_chain demo_chain_events chain_writer0) "yes") as [st|] eqn:E; [|vm_compute in E; discriminate].
  assert (Hown : Forall (fills_owned (λ _, "yes")) demo_chain_events)
    by (repeat (apply Forall_cons; split; [by right; right|]); apply Forall_nil; done).
  exists st. split; [reflexivity|]. split; [exact (confirmed_volumes_exact (λ _, "yes"%string) demo_chain_events Hown "yes" st E)|].
  vm_compute in E. injection E as <-. split_and!; reflexivity.
Defined.

(** A removal that names another asset takes the fill out of its window but refreshes only the named one:
    the asset keeps showing the volume. *)
Example misnamed_removal_keeps_volume :
  let w := run_chain [demo_chain MeChainConfirmedFill "yes" "0xa:1" BuyAggressor 5 1000;
                      demo_chain MeChainRemovedFill "no" "0xa:1" BuyAggressor 5 2000] chain_writer0 in
  ct_confirmed_buy_lots_2s <$> chain_get w "yes" = Some 5 ∧ we_removed <$> window_at w "yes" = [true].
Proof. by vm_compute. Qed.

(** A fill without an id becomes the last trade of its asset, but its lots never count. *)
Example idless_fill_has_no_volume :
  let w := run_chain [demo_chain MeChainConfirmedFill "yes" "" BuyAggressor 5 1000] chain_writer0 in
  ct_last_trade_size_lots <$> chain_get w "yes" = Some 5 ∧ ct_confirmed_buy_lots_2s <$> chain_get w "yes" = Some 0.
Proof. by vm_compute. Qed.

(** ** Settlements and quality *)

(** A settlement that came is replaced by any later word about its market: closing takes a resolution back. *)
Example closing_forgets_winner :
  let w := (mark_closed "m" 2 (mark_resolved "m" "yes" 1 ∅).2).2 in
  ss_resolved <$> (w !! "m") = Some false ∧ ss_winning_asset_id <$> (w !! "m") = Some "".
Proof. by vm_compute. Qed.

(** The book may be used for signals exactly when nothing speaks against it. *)
Record signal_ready (c : DataQualityGateConfig) (i : DataQualityInput) (e : EntityState) (t : ConfirmedTradeState) : Prop := {
  sg_entity : qi_entity i = Some e;
  sg_chain : qi_confirmed_trade_state i = Some t;
  sg_initialized : en_initialized e = true ∧ en_recovering e = false ∧ en_status e ≠ EsRecovering;
  sg_open : en_closed e = false ∧ en_status e ≠ EsClosed ∧ ob_resolved (en_book e) = false;
  sg_uncrossed : crossed_book e = false;
  sg_feed : en_last_update_monotonic_ns e ≠ 0 ∧
    age_exceeds (qi_now_ns i) (en_last_update_monotonic_ns e) (qc_ws_stale_timeout_ns c) = false;
  sg_chain_seen : ct_last_chain_seen_ns t ≠ 0 ∧
    age_exceeds (qi_now_ns i) (ct_last_chain_seen_ns t) (qc_chain_lag_timeout_ns c) = false;
  sg_errors : qi_state_errors_recent i <= 0 ∧ qi_chain_decode_errors_recent i <= 0 ∧
    rn_chain_ws_mismatch_count_recent (qi_reconciliation i) <= 0
}.

Lemma usable_for_signal_iff c i :
  bq_usable_for_signal (evaluate_quality c i) = true ↔ ∃ e t, signal_ready c i e t.
Proof.
  assert (Hgood : bq_usable_for_signal (evaluate_quality c i) = true ↔ judge c i = BqGood).
  { cbn. destruct (judge c i); cbn; naive_solver. }
  rewrite Hgood. unfold judge. split.
  - destruct (qi_entity i) as [e|] eqn:He; [|done]. intros H.
    repeat match type of H with (if ?b then _ else _) = _ => destruct b eqn:?; [done|] end. breflect.
    unfold chain_live in *. destruct (qi_confirmed_trade_state i) as [t|] eqn:Ht; [|done].
    unfold ws_live in *. rewrite He in *. exists e, t.
    repeat match goal with H : (if ?b then _ else _) = true |- _ => destruct b eqn:?; [done|] end. breflect.
    by split.
  - intros (e & t & [He Ht (Hi & Hr & Hs) (Hc & Hd & Hv) Hx [H1 H2] [H3 H4] (H5 & H6 & H7)]).
    unfold ws_live, chain_live. rewrite He, Ht, Hi, Hr, Hc, Hv, Hx. rewrite !bool_decide_false by done.
    repeat match goal with |- context [(?a =? 0)] => rewrite (proj2 (Z.eqb_neq a 0)) by done end.
    rewrite H2, H4. repeat match goal with |- context [0 <? ?a] => rewrite (proj2 (Z.ltb_ge 0 a)) by done end. done.
Qed.
