(* ===== verification/MarketSnapshot.v ===== *)
(** * MarketSnapshot: the snapshots readers see

    [engine/state/snapshot] publishes the state of an asset through a buffer of
    two slots: the writer fills the slot that is not active and then flips the
    active index, a reader copies the active slot.  The first half models the
    publisher of one thread, the second the writer and its readers as a step
    relation, where a reader's copy and a publication overlap. *)

From S2P Require Import Prelude Hashing Doubles Depth.

(** ** Queries *)

(** [engine/state/MarketStateQueryResult.h:8-19] StateQueryError. *)
Inductive StateQueryError :=
| QeNone | QeMissingEntity | QeRecovering | QeClosed | QeResolved | QeEmptyBook
| QeMissingBid | QeMissingAsk | QeCrossedBook | QeInvalidDepth.
#[export] Instance StateQueryError_eq_dec : EqDecision StateQueryError.
Proof. solve_decision. Defined.

(** [engine/state/MarketStateQueryResult.h:21-28] StateQueryResult. *)
Record StateQueryResult (T : Type) := mkQuery {
  qr_ok : bool;
  qr_error : StateQueryError;
  qr_entity_id : string;
  qr_version : Z;
  qr_value : T
}.
Arguments mkQuery {_}.
Arguments qr_ok {_}.
Arguments qr_error {_}.
Arguments qr_entity_id {_}.
Arguments qr_version {_}.
Arguments qr_value {_}.

(** ** The publisher *)

(** [engine/state/snapshot/SnapshotBuffer.h:12-15] SnapshotSlot. *)
Record SnapshotSlot := mkSnapshotSlot {
  sl_snapshot : MarketStateSnapshot;
  sl_depth_view : MarketDepthView
}.

(** The value-initialised view. *)
Definition depth_view0 : MarketDepthView :=
  mkMarketDepthView 0 0 0 0 false false false false false 0 0
    (std_array kMaxSnapshotDepth no_level []) (std_array kMaxSnapshotDepth no_level [])
    (mkDepthPrefix 0 0 (std_array kMaxSnapshotDepth 0 []) (std_array kMaxSnapshotDepth 0 [])
       (std_array kMaxSnapshotDepth 0 []) (std_array kMaxSnapshotDepth 0 [])).
Definition slot0 : SnapshotSlot := mkSnapshotSlot snapshot0 depth_view0.

(** [engine/state/snapshot/SnapshotBuffer.h:17-21] SnapshotBuffer. The slot of index 1 is the active one when the
    flag is set. *)
Record SnapshotBuffer := mkSnapshotBuffer {
  sb_slots : SnapshotSlot * SnapshotSlot;
  sb_active_index : bool;
  sb_published : bool
}.
Definition buffer0 : SnapshotBuffer := mkSnapshotBuffer (slot0, slot0) false false.

Definition slot_at (index : bool) (slots : SnapshotSlot * SnapshotSlot) : SnapshotSlot :=
  if index then slots.2 else slots.1.
Definition set_slot (index : bool) (slot : SnapshotSlot) (slots : SnapshotSlot * SnapshotSlot) : SnapshotSlot * SnapshotSlot :=
  if index then (slots.1, slot) else (slot, slots.2).
Definition active_slot (b : SnapshotBuffer) : SnapshotSlot := slot_at (sb_active_index b) (sb_slots b).

(** The buffers by asset. *)
Abbreviation SnapshotPublisher := (gmap string SnapshotBuffer).

(** [engine/state/snapshot/SnapshotPublisher.cpp:15-20] publish, the version of what is published. *)
Definition next_snapshot (snapshot active : MarketStateSnapshot) : MarketStateSnapshot :=
  let next_version := wrap_u64 (ms_version active + 1) in
  if ms_version snapshot <? next_version then (snapshot <| ms_version := next_version |>) else snapshot.

(** [engine/state/snapshot/SnapshotPublisher.cpp:5-28] SnapshotPublisher::publish. *)
Definition publish_snapshot (snapshot : MarketStateSnapshot) (p : SnapshotPublisher) : SnapshotPublisher :=
  let asset_id := ms_entity_id snapshot in
  if String.eqb asset_id "" then p
  else
    let buffer := default buffer0 (p !! asset_id) in
    let inactive := negb (sb_active_index buffer) in
    let published := next_snapshot snapshot (sl_snapshot (active_slot buffer)) in
    let slot := mkSnapshotSlot published (market_depth_view_from_snapshot published 0) in
    <[asset_id := mkSnapshotBuffer (set_slot inactive slot (sb_slots buffer)) inactive true]> p.

(** [engine/state/snapshot/SnapshotPublisher.cpp:30-52] SnapshotPublisher::read. *)
Definition read_snapshot (p : SnapshotPublisher) (asset_id : string) : StateQueryResult MarketStateSnapshot :=
  match p !! asset_id with
  | Some buffer =>
      if negb (sb_published buffer) then mkQuery false QeMissingEntity asset_id 0 snapshot0
      else
        let value := sl_snapshot (active_slot buffer) in
        mkQuery true QeNone (ms_entity_id value) (ms_version value) value
  | None => mkQuery false QeMissingEntity asset_id 0 snapshot0
  end.

(** The slot a batch read takes for an asset pointer. *)
Definition published_slot (p : SnapshotPublisher) (asset_id : option string) : option SnapshotSlot :=
  id ← asset_id; buffer ← p !! id; if sb_published buffer then Some (active_slot buffer) else None.

(** [engine/state/snapshot/SnapshotPublisher.cpp:54-80] SnapshotPublisher::read_many. What it writes to a
    buffer of [max_out]; a null pointer among the assets is [None]. *)
Definition read_many (p : SnapshotPublisher) (asset_ids : list (option string)) (max_out : nat) : list MarketStateSnapshot :=
  take max_out (omap (λ id, sl_snapshot <$> published_slot p id) asset_ids).

(** [engine/state/snapshot/SnapshotPublisher.cpp:82-114] SnapshotPublisher::read_depth_many. *)
Definition read_depth_many (p : SnapshotPublisher) (asset_ids : list (option string)) (asset_indices : list Z) (max_out : nat) :
    list MarketDepthView :=
  take max_out (omap (λ iid : nat * option string,
      (λ slot, ((sl_depth_view slot) <| dv_asset_index := default 0 (asset_indices !! iid.1) |>)) <$> published_slot p iid.2)
    (imap pair asset_ids)).

(** ** What reading returns *)

Definition published (p : SnapshotPublisher) (asset_id : string) : option MarketStateSnapshot :=
  sl_snapshot <$> published_slot p (Some asset_id).

Lemma read_snapshot_published p asset_id :
  read_snapshot p asset_id =
    match published p asset_id with
    | Some s => mkQuery true QeNone (ms_entity_id s) (ms_version s) s
    | None => mkQuery false QeMissingEntity asset_id 0 snapshot0
    end.
Proof.
  unfold read_snapshot, published, published_slot. cbn. destruct (p !! asset_id) as [b|]; [|done]. cbn. by destruct (sb_published b).
Qed.

Lemma active_set_slot index slot slots : slot_at index (set_slot index slot slots) = slot.
Proof. by destruct index. Qed.

(** Publishing makes its snapshot the one that is read, with a version above the one before. *)
Lemma published_publish s p id :
  published (publish_snapshot s p) id =
    if bool_decide (ms_entity_id s = id ∧ id ≠ "")
    then Some (next_snapshot s (sl_snapshot (active_slot (default buffer0 (p !! id))))) else published p id.
Proof.
  unfold publish_snapshot, published, published_slot. cbn. destruct (String.eqb_spec (ms_entity_id s) "") as [Hs|Hs].
  { rewrite bool_decide_false; [done|]. intros [<- ?]. done. }
  case_bool_decide as Hid; [destruct Hid as [<- ?]; rewrite lookup_insert_eq; cbn; unfold active_slot at 1; cbn; by rewrite active_set_slot|].
  rewrite lookup_insert_ne; [done|]. intros <-. apply Hid. by split.
Qed.

Lemma publish_version s p id old :
  published p id = Some old → ms_entity_id s = id → id ≠ "" → 0 <= ms_version old < u64_mod - 1 →
  ∃ new, published (publish_snapshot s p) id = Some new ∧ ms_version old < ms_version new.
Proof.
  intros Hold Hs Hne Hv. eexists. rewrite published_publish, bool_decide_true by done. split; [done|].
  unfold published, published_slot in Hold. cbn in Hold. destruct (p !! id) as [b|]; [|done]. cbn in *.
  destruct (sb_published b); [|done]. injection Hold as Ho. subst old. cbn [default from_option]. unfold next_snapshot.
  rewrite wrap_u64_id by (unfold in_u64; lia).
  match goal with |- context [?a <? ?b] => destruct (Z.ltb_spec a b) end; [|lia].
  assert (Hset : ∀ v, ms_version (s <| ms_version := v |>) = v) by (by destruct s). rewrite Hset. lia.
Qed.

(** A depth view that is read is the view of the snapshot that is read. *)
Definition buffer_ok (b : SnapshotBuffer) : Prop :=
  sb_published b = true ∧
  sl_depth_view (active_slot b) = market_depth_view_from_snapshot (sl_snapshot (active_slot b)) 0.

Lemma publish_snapshot_ok s p : map_Forall (λ _, buffer_ok) p → map_Forall (λ _, buffer_ok) (publish_snapshot s p).
Proof.
  intros H. unfold publish_snapshot. destruct (String.eqb _ ""); [done|]. apply map_Forall_insert_2; [|done].
  unfold buffer_ok, active_slot. cbn. by rewrite !active_set_slot.
Qed.

(** ** Readers beside the writer

    The copy of a snapshot is not atomic: a reader loads the active index and
    then copies the slot, and the writer fills the other slot before it flips.
    The model counts the flips since a reader loaded its index. *)

(** What a reader is doing: the slot it copies and the flips since it loaded the index. *)
Record ReaderState := mkReaderState { rs_slot : bool; rs_flips : nat }.

Record BufferThreads := mkBufferThreads {
  bt_active : bool;
  bt_filling : option bool;
  bt_readers : list (option ReaderState)
}.

Definition see_flip (r : option ReaderState) : option ReaderState :=
  (λ r, (r <| rs_flips := S (rs_flips r) |>)) <$> r.

(** [engine/state/snapshot/SnapshotPublisher.cpp:11-26] the steps of publish and read that other threads see. *)
Inductive buffer_step : BufferThreads → BufferThreads → Prop :=
| StepFill a rs : buffer_step (mkBufferThreads a None rs) (mkBufferThreads a (Some (negb a)) rs)
| StepFlip a i rs : buffer_step (mkBufferThreads a (Some i) rs) (mkBufferThreads i None (see_flip <$> rs))
| StepLoad a f rs k : rs !! k = Some None →
    buffer_step (mkBufferThreads a f rs) (mkBufferThreads a f (<[k := Some (mkReaderState a 0)]> rs))
| StepCopied a f rs k r : rs !! k = Some (Some r) →
    buffer_step (mkBufferThreads a f rs) (mkBufferThreads a f (<[k := None]> rs)).

(** The slot a reader that saw no flip copies is the active one, and the one being filled is not. *)
Definition threads_ok (t : BufferThreads) : Prop :=
  (∀ i, bt_filling t = Some i → i = negb (bt_active t)) ∧
  (∀ k r, bt_readers t !! k = Some (Some r) → rs_flips r = 0%nat → rs_slot r = bt_active t).

Lemma threads_ok_step t t' : buffer_step t t' → threads_ok t → threads_ok t'.
Proof.
  intros [a rs|a i rs|a f rs k Hk|a f rs k r Hk] [Hf Hr]; split; cbn in *; try done.
  - by intros i [= <-].
  - intros k r. rewrite list_lookup_fmap. destruct (rs !! k) as [[r'|]|]; cbn; [|done..]. by intros [= <-].
  - intros j r. destruct (decide (j = k)) as [->|Hj]; [|rewrite list_lookup_insert_ne by done; apply Hr].
    rewrite list_lookup_insert_eq by (by eapply lookup_lt_Some). by intros [= <-].
  - intros j r'. destruct (decide (j = k)) as [->|Hj]; [|rewrite list_lookup_insert_ne by done; apply Hr].
    rewrite list_lookup_insert_eq by (by eapply lookup_lt_Some). done.
Qed.

(** A reader is never overtaken before a flip: as long as the index it loaded is current, nothing is written
    to the slot it copies. *)
Lemma no_tear_before_flip n t k r :
  rtc buffer_step (mkBufferThreads false None (replicate n None)) t →
  bt_readers t !! k = Some (Some r) → rs_flips r = 0%nat → bt_filling t ≠ Some (rs_slot r).
Proof.
  intros Hreach Hk Hr Hf.
  assert (Ht : threads_ok t).
  { refine (rtc_invariant buffer_step threads_ok _ _ threads_ok_step Hreach _). split; cbn; [done|].
    intros j r'. by intros [? ?]%lookup_replicate. }
  destruct Ht as [H1 H2]. specialize (H1 _ Hf). rewrite (H2 k r Hk Hr) in H1. by destruct (bt_active t).
Qed.

(** After one flip it is: a reader that loaded the index while a publication was under way copies a slot
    that the next publication is already filling. *)
Example reader_overtaken :
  rtc buffer_step (mkBufferThreads false None [None])
    (mkBufferThreads true (Some false) [Some (mkReaderState false 1)]).
Proof.
  eapply rtc_l; [apply StepFill|]. eapply rtc_l; [by apply (StepLoad _ _ _ 0)|]. cbn.
  eapply rtc_l; [apply StepFlip|]. eapply rtc_l; [apply StepFill|]. apply rtc_refl.
Qed.
