(* ===== verification/MarketShard.v ===== *)
(** * MarketShard: from market events to published snapshots

    A shard ([engine/state/shard/LOBShard.cpp]) owns the order books, the chain
    state, the settlements and the snapshots of its assets.  It applies a market
    event to the writer it is for, judges the quality of the asset anew, and
    publishes a snapshot when anything changed.  The main theorem says that what
    readers see is, after any events of the adapters, the snapshot of the current
    state.  [engine/state/core/MarketStateEventFilter.cpp] decides which events
    reach the shards. *)

From S2P Require Import Prelude Hashing Doubles Depth OrderedMap EntityStore ChainConfirm ChainState MarketSnapshot.
#[local] Open Scope Z_scope.

(** ** The event filter *)

(** [engine/state/core/StateUniverse.h:8-14] StateUniverse. *)
Record StateUniverse := mkStateUniverse {
  su_active_asset_ids : gset string;
  su_active_market_ids : gset string;
  su_allow_heartbeats : bool;
  su_allow_market_lifecycle_for_active_markets : bool
}.

(** [engine/state/core/MarketStateEventFilter.h:16-24] MarketStateEventFilterReason. *)
Inductive MarketStateEventFilterReason :=
| FrNone | FrPairedAssetNotInUniverse | FrAssetNotInUniverse | FrMarketNotInUniverse | FrMissingAssetId | FrMissingMarketId.
#[export] Instance MarketStateEventFilterReason_eq_dec : EqDecision MarketStateEventFilterReason.
Proof. solve_decision. Defined.

(** [engine/state/core/MarketStateEventFilter.h:26-40] MarketStateEventFilterResult. *)
Record MarketStateEventFilterResult := mkFilterResult {
  fr_passed : bool;
  fr_reason : MarketStateEventFilterReason;
  fr_asset_id : string;
  fr_market_id : string
}.

(** [engine/state/shard/LOBShard.cpp:531-544] asset_id_for_event. *)
Definition asset_id_for_event (event : MarketStateEvent) : string :=
  if negb (String.eqb (me_asset_id event) "") then me_asset_id event
  else if negb (String.eqb (ne_asset_id (me_ws_event event)) "") then ne_asset_id (me_ws_event event)
  else if negb (String.eqb (ne_entity_id (me_ws_event event)) "") then ne_entity_id (me_ws_event event)
  else cr_asset_id (me_chain_fill event).

(** [engine/state/shard/LOBShard.cpp:546-556] market_id_for_event. *)
Definition market_id_for_event (event : MarketStateEvent) : string :=
  if negb (String.eqb (me_market_id event) "") then me_market_id event
  else if negb (String.eqb (ne_market_id (me_ws_event event)) "") then ne_market_id (me_ws_event event)
  else cr_market_id (me_chain_fill event).

(** [engine/state/core/MarketStateEventFilter.cpp:37-42] contains. *)
Definition in_universe (values : gset string) (value : string) : bool :=
  negb (String.eqb value "") && bool_decide (value ∈ values).

(** [engine/state/core/MarketStateEventFilter.cpp:74-176] MarketStateEventFilter::filter. *)
Definition filter_event (universe : option StateUniverse) (event : MarketStateEvent) : MarketStateEventFilterResult :=
  let asset_id := asset_id_for_event event in
  let market_id := market_id_for_event event in
  let pass := mkFilterResult true FrNone asset_id market_id in
  let filtered reason := mkFilterResult false reason asset_id market_id in
  match universe with
  | None => pass
  | Some u =>
      match me_type event with
      | MeWsHeartbeat => if su_allow_heartbeats u then pass else filtered FrAssetNotInUniverse
      | MeWsLifecycle =>
          if String.eqb market_id "" then filtered FrMissingMarketId
          else if su_allow_market_lifecycle_for_active_markets u && in_universe (su_active_market_ids u) market_id then pass
          else filtered FrMarketNotInUniverse
      | MeWsBookSnapshot | MeWsBookDelta =>
          if String.eqb asset_id "" then filtered FrMissingAssetId
          else if in_universe (su_active_asset_ids u) asset_id then pass
          else if in_universe (su_active_market_ids u) market_id then filtered FrPairedAssetNotInUniverse
          else filtered FrAssetNotInUniverse
      | MeChainConfirmedFill | MeChainRemovedFill =>
          if String.eqb asset_id "" then filtered FrMissingAssetId
          else if in_universe (su_active_asset_ids u) asset_id then pass
          else filtered FrAssetNotInUniverse
      | MeChainSettlement =>
          if String.eqb market_id "" then filtered FrMissingMarketId
          else if in_universe (su_active_market_ids u) market_id then pass
          else filtered FrMarketNotInUniverse
      | MeDataQualityUpdate => pass
      end
  end.

(** ** The book writer *)

(** [engine/state/book/BookApplyResult.h:13-20] BookApplyCode. *)
Inductive BookApplyCode := BaApplied | BaIgnoredHeartbeat | BaIgnoredChainEvent | BaIgnoredDataQualityUpdate | BaMissingStore | BaStateRejected.
#[export] Instance BookApplyCode_eq_dec : EqDecision BookApplyCode.
Proof. solve_decision. Defined.

(** [engine/state/book/BookApplyResult.h:22-61] BookApplyResult. The code of the store and the fields it shares with
    the store's result are one record. *)
Record BookApplyResult := mkBookApplyResult {
  ba_code : BookApplyCode;
  ba_event_type : MarketStateEventType;
  ba_state : StateApplyResult
}.

(** [engine/state/book/BookApplyResult.h:49-54] BookApplyResult::ok. *)
Definition book_ok (r : BookApplyResult) : bool :=
  match ba_code r with BaMissingStore | BaStateRejected => false | _ => true end.
(** [engine/state/book/BookApplyResult.h:56-60] BookApplyResult::ignored. *)
Definition book_ignored (r : BookApplyResult) : bool :=
  match ba_code r with BaIgnoredHeartbeat | BaIgnoredChainEvent | BaIgnoredDataQualityUpdate => true | _ => false end.

(** [engine/state/book/LOBWriter.cpp:9-34] map_state_code. *)
Definition map_state_code (code : StateApplyCode) : BookApplyCode :=
  match code with
  | ScIgnoredHeartbeat => BaIgnoredHeartbeat
  | ScApplied | ScClosedEntityIgnored | ScIgnoredUnknown | ScIgnoredTrade | ScNoop => BaApplied
  | ScMissingEntityId | ScDeltaBeforeSnapshot | ScUnknownSide | ScInvalidValue => BaStateRejected
  end.

(** [engine/state/book/LOBWriter.cpp:86-124] LOBWriter::apply. *)
Definition lob_apply (event : MarketStateEvent) (store : option EntityStateStore) : BookApplyResult * option EntityStateStore :=
  match store with
  | None =>
      (mkBookApplyResult BaMissingStore (me_type event) (result0 <| sr_message := "LOBWriter has no EntityStateStore" |>), None)
  | Some s =>
      let ignored code message :=
        let '(h, s) := global_hash s in
        (mkBookApplyResult code (me_type event) (result0 <| sr_message := message |> <| sr_global_hash := h |>), Some s) in
      match me_type event with
      | MeWsBookSnapshot | MeWsBookDelta | MeWsLifecycle | MeWsHeartbeat =>
          let '(r, s) := store_apply (me_ws_event event) s in
          (mkBookApplyResult (map_state_code (sr_code r)) (me_type event) r, Some s)
      | MeChainConfirmedFill | MeChainRemovedFill | MeChainSettlement =>
          ignored BaIgnoredChainEvent "chain event ignored by LOBWriter"
      | MeDataQualityUpdate => ignored BaIgnoredDataQualityUpdate "data quality event ignored by LOBWriter"
      end
  end.

(** [engine/state/book/BookApplyResult.h:63-77] BookBatchApplyResult. *)
Record BookBatchApplyResult := mkBookBatch {
  bb_events_seen : Z;
  bb_applied : Z;
  bb_ignored : Z;
  bb_errors : Z;
  bb_state_changed : Z;
  bb_global_hash : Z;
  bb_results : list BookApplyResult
}.

(** [engine/state/book/LOBWriter.cpp:126-155] LOBWriter::apply_batch. *)
Definition lob_apply_batch (events : list MarketStateEvent) (store : option EntityStateStore) :
    BookBatchApplyResult * option EntityStateStore :=
  foldl (λ acc event,
    let '(out, store) := acc in
    let '(r, store) := lob_apply event store in
    ((out <| bb_applied := bb_applied out + (if book_ok r && negb (book_ignored r) then 1 else 0) |>
          <| bb_ignored := bb_ignored out + (if book_ok r && book_ignored r then 1 else 0) |>
          <| bb_errors := bb_errors out + (if book_ok r then 0 else 1) |>
          <| bb_state_changed := bb_state_changed out + (if sr_state_changed (ba_state r) then 1 else 0) |>
          <| bb_global_hash := sr_global_hash (ba_state r) |>
          <| bb_results := bb_results out ++ [r] |>), store))
    (mkBookBatch (Z.of_nat (length events)) 0 0 0 0 0 [], store) events.

(** ** Prices *)

(** [std::llround] of a double: to the nearest integer, halves away from zero.  Of a value that does not fit
    the result is unspecified; book prices are at most one. *)
Definition llround (x : double) : Z :=
  match x with
  | S754_finite s m e =>
      let n := if 0 <=? e then Z.shiftl (Z.pos m) e else Z.shiftr (2 * Z.pos m + Z.shiftl 1 (- e)) (1 - e) in
      if s then - n else n
  | _ => 0
  end.

(** [static_cast<double>(kDefaultPriceScale)]: one million. *)
Definition price_scale : double := S754_finite false 8589934592000000 (-33).

(** [engine/state/shard/LOBShard.cpp:136-144] price_to_tick. *)
Definition price_to_tick (price : double) : Z := llround (double_mul price price_scale).

(** [engine/state/shard/LOBShard.cpp:146-156] make_price_level. *)
Definition make_price_level (l : double * double) : PriceLevel := mkPriceLevel (price_to_tick l.1) l.1 l.2.

Example ticks : price_to_tick d1_0 = 1000000 ∧ price_to_tick d1e_6 = 1 ∧ price_to_tick (S754_finite false 4611686018427388 (-53)) = 512000.
Proof. by vm_compute. Qed.

(** ** The shard *)

(** [engine/state/core/StateHashPolicy.h:13-19] StateRuntimeConfig. *)
Record StateRuntimeConfig := mkStateRuntimeConfig {
  sc_hash_mode : StateHashMode;
  sc_publish_on_noop : bool;
  sc_publish_on_heartbeat : bool;
  sc_compute_full_hash_on_publish : bool
}.
Definition runtime_config0 : StateRuntimeConfig := mkStateRuntimeConfig HotPathLight false false false.

(** [engine/state/shard/LOBShard.h:22-31] SnapshotBuildContext. *)
Record SnapshotBuildContext := mkSnapshotBuildContext {
  sx_asset_id : string;
  sx_book_version : Z;
  sx_chain_version : Z;
  sx_quality_version : Z;
  sx_snapshot_version_hash : Z;
  sx_full_entity_hash : option Z
}.

(** [engine/state/shard/LOBShard.h:102-112] LOBShard. *)
Record LOBShard := mkLOBShard {
  sh_shard_id : Z;
  sh_runtime_config : StateRuntimeConfig;
  sh_quality_version : Z;
  sh_cached_legacy_book_hash : gmap string Z;
  sh_book_store : EntityStateStore;
  sh_chain_writer : ChainStateWriter;
  sh_settlement_writer : SettlementStateWriter;
  sh_quality : BookQualityState;
  sh_snapshot_publisher : SnapshotPublisher
}.

(** [engine/state/shard/LOBShard.cpp:176-182] LOBShard::LOBShard. *)
Definition shard0 (shard_id : Z) (config : StateRuntimeConfig) : LOBShard :=
  mkLOBShard shard_id config 0 ∅ (store0 (sc_hash_mode config)) chain_writer0 ∅ quality0 ∅.

(** [engine/state/shard/LOBShard.cpp:33-53] status_flags_for. *)
Definition shard_status_flags (entity : option EntityState) (q : BookQualityState) : Z :=
  Z.lor (Z.lor (Z.lor (Z.lor (Z.lor
    (status_flags_for entity)
    (Z.shiftl (Z.land (quality_code (bq_quality q)) 255) 16))
    (flag (bq_ws_live q) 24)) (flag (bq_chain_live q) 25)) (flag (bq_usable_for_depth q) 26)) (flag (bq_usable_for_signal q) 27).

(** [engine/state/shard/LOBShard.cpp:93-106] make_noop_result. *)
Definition make_noop_result (entity_id message : string) (state_changed : bool) : StateApplyResult :=
  (result0 <| sr_code := ScNoop |> <| sr_entity_id := entity_id |> <| sr_message := message |>
           <| sr_state_changed := state_changed |>
           <| sr_mutation := (no_mutation <| mf_state_changed := state_changed |> <| mf_publish_required := state_changed |>) |>).

(** [engine/state/shard/LOBShard.cpp:349-353] apply_book_event. *)
Definition apply_book_event (event : MarketStateEvent) (sh : LOBShard) : StateApplyResult * LOBShard :=
  let '(r, store) := lob_apply event (Some (sh_book_store sh)) in
  (ba_state r, (sh <| sh_book_store := default (sh_book_store sh) store |>)).

(** [engine/state/shard/LOBShard.cpp:355-373] apply_chain_event. *)
Definition apply_chain_event (event : MarketStateEvent) (sh : LOBShard) : StateApplyResult * LOBShard :=
  let '(r, writer) := chain_apply event (sh_chain_writer sh) in
  let out := make_noop_result (ca_entity_id r) (ca_message r) (ca_state_changed r) in
  ((out <| sr_chain_version := chain_version_of writer (ca_entity_id r) |>
        <| sr_mutation := ((sr_mutation out) <| mf_state_changed := ca_state_changed r |>
              <| mf_chain_changed := ca_state_changed r |> <| mf_publish_required := ca_state_changed r |>
              <| mf_kind := match me_type event with MeChainRemovedFill => MkChainRemovedFill | _ => MkChainFill end |>) |>),
   (sh <| sh_chain_writer := writer |>)).

(** [engine/state/shard/LOBShard.cpp:375-405] apply_settlement_event. *)
Definition apply_settlement_event (event : MarketStateEvent) (sh : LOBShard) : StateApplyResult * LOBShard :=
  let market_id := market_id_for_event event in
  let ws := me_ws_event event in
  let '(r, writer) :=
    match me_type event with
    | MeWsLifecycle =>
        if negb (String.eqb (ne_winning_asset_id ws) "")
        then mark_resolved market_id (ne_winning_asset_id ws) (ne_packet_id ws) (sh_settlement_writer sh)
        else mark_closed market_id (ne_packet_id ws) (sh_settlement_writer sh)
    | _ => mark_closed market_id (me_source_sequence event) (sh_settlement_writer sh)
    end in
  (make_noop_result market_id (sa_message r) (sa_state_changed r), (sh <| sh_settlement_writer := writer |>)).

(** [engine/state/shard/LOBShard.cpp:75-91] quality_equal: every field. *)
Definition quality_equal (left right : BookQualityState) : bool := bool_decide (left = right).

(** What a settlement adds to the result of a lifecycle event. *)
Definition mark_settled (r : StateApplyResult) : StateApplyResult :=
  (r <| sr_state_changed := true |>
     <| sr_mutation := ((sr_mutation r) <| mf_state_changed := true |> <| mf_lifecycle_changed := true |>
                          <| mf_publish_required := true |> <| mf_kind := MkLifecycle |>) |>).

(** [engine/state/shard/LOBShard.cpp:195-231] apply, the writer the event is for. *)
Definition apply_to_writer (event : MarketStateEvent) (sh : LOBShard) : StateApplyResult * LOBShard :=
  match me_type event with
  | MeWsBookSnapshot | MeWsBookDelta | MeWsHeartbeat => apply_book_event event sh
  | MeWsLifecycle =>
      let '(result, sh) := apply_book_event event sh in
      let '(settlement, sh) := apply_settlement_event event sh in
      ((if sr_state_changed settlement then mark_settled result else result), sh)
  | MeChainConfirmedFill | MeChainRemovedFill => apply_chain_event event sh
  | MeChainSettlement => apply_settlement_event event sh
  | MeDataQualityUpdate => (make_noop_result (asset_id_for_event event) "event ignored by LOBShard" false, sh)
  end.

(** The instant at which an asset is judged. *)
Definition judged_at (entity : option EntityState) (chain : option ConfirmedTradeState) : Z :=
  let now := from_option en_last_update_monotonic_ns 0 entity in
  match chain with
  | Some t => if now <? ct_last_chain_seen_ns t then ct_last_chain_seen_ns t else now
  | None => now
  end.

Definition quality_of (entity : option EntityState) (chain : option ConfirmedTradeState) : BookQualityState :=
  evaluate_quality quality_config0
    (mkDataQualityInput entity chain reconciliation0 (judged_at entity chain) 0 0 0).

(** [engine/state/shard/LOBShard.cpp:514-529] refresh_quality. *)
Definition refresh_quality (asset_id : string) (sh : LOBShard) : LOBShard :=
  (sh <| sh_quality := quality_of (store_get (sh_book_store sh) asset_id) (chain_get (sh_chain_writer sh) asset_id) |>).

(** [engine/state/shard/LOBShard.cpp:234-250] apply, judging the asset and recording a change of its quality. *)
Definition apply_quality (asset_id : string) (result : StateApplyResult) (sh : LOBShard) : StateApplyResult * LOBShard :=
  if String.eqb asset_id "" then (result, sh)
  else
    let before := sh_quality sh in
    let sh := refresh_quality asset_id sh in
    if quality_equal before (sh_quality sh) then ((result <| sr_quality_version := sh_quality_version sh |>), sh)
    else
      let sh := (sh <| sh_quality_version := incr (sh_quality_version sh) |>) in
      let m := sr_mutation result in
      ((result <| sr_quality_version := sh_quality_version sh |>
               <| sr_mutation := (m <| mf_quality_changed := true |> <| mf_state_changed := true |>
                                    <| mf_kind := match mf_kind m with MkNone => MkQuality | k => k end |>
                                    <| mf_publish_required := true |>) |>
               <| sr_state_changed := true |>), sh).

(** [engine/state/shard/LOBShard.cpp:252-273] apply, the fingerprint of the snapshot and the cached hash. *)
Definition apply_fingerprint (asset_id : string) (result : StateApplyResult) (sh : LOBShard) : StateApplyResult * LOBShard :=
  let entity := if String.eqb asset_id "" then None else store_get (sh_book_store sh) asset_id in
  let chain := if String.eqb asset_id "" then None else chain_get (sh_chain_writer sh) asset_id in
  let h := cheap_snapshot_fingerprint
    (if negb (String.eqb asset_id "") then asset_id else sr_entity_id result)
    (sr_book_version result) (sr_chain_version result) (sr_quality_version result)
    (from_option en_last_packet_id (sr_book_version result) entity)
    (from_option ct_last_block_number 0 chain)
    (shard_status_flags entity (sh_quality sh)) in
  let result := (result <| sr_snapshot_version_hash := h |> <| sr_cheap_fingerprint := h |>) in
  (result,
   if negb (String.eqb asset_id "") && sr_full_hash_computed result && negb (sr_entity_hash result =? 0)
   then (sh <| sh_cached_legacy_book_hash := <[asset_id := sr_entity_hash result]> (sh_cached_legacy_book_hash sh) |>)
   else sh).

(** [engine/state/shard/LOBShard.cpp:415-441] build_snapshot_context. *)
Definition build_snapshot_context (event : MarketStateEvent) (result : StateApplyResult) (sh : LOBShard) : SnapshotBuildContext :=
  let asset_id := asset_id_for_event event in
  let asset_id := if String.eqb asset_id "" then sr_entity_id result else asset_id in
  mkSnapshotBuildContext asset_id (sr_book_version result) (sr_chain_version result) (sr_quality_version result)
    (sr_snapshot_version_hash result)
    (if sr_full_hash_computed result && negb (sr_entity_hash result =? 0) then Some (sr_entity_hash result)
     else sh_cached_legacy_book_hash sh !! asset_id).

Definition snapshot_levels (side : Side) : list PriceLevel :=
  std_array kMaxSnapshotDepth no_level (make_price_level <$> take kMaxSnapshotDepth side).

(** [engine/state/shard/LOBShard.cpp:449-508] publish_asset_snapshot, the snapshot it builds. *)
Definition build_snapshot (context : SnapshotBuildContext) (e : EntityState) (chain : option ConfirmedTradeState)
    (q : BookQualityState) : MarketStateSnapshot :=
  let book := en_book e in
  let t := default confirmed0 chain in
  mkMarketStateSnapshot (en_entity_id e) (en_market_id e) (en_last_packet_id e) (en_last_update_monotonic_ns e)
    (bool_decide (en_status e = EsLive)) (en_recovering e || bool_decide (en_status e = EsRecovering))
    (en_closed e || bool_decide (en_status e = EsClosed)) (ob_resolved book) (ob_crossed book)
    (bool_decide (is_Some (ob_best_bid book))) (bool_decide (is_Some (ob_best_ask book)))
    (from_option price_to_tick 0 (ob_best_bid book)) (from_option price_to_tick 0 (ob_best_ask book))
    (length (take kMaxSnapshotDepth (ob_bids book))) (length (take kMaxSnapshotDepth (ob_asks book)))
    (snapshot_levels (ob_bids book)) (snapshot_levels (ob_asks book))
    (ob_winning_asset_id book) (sx_snapshot_version_hash context) (default 0 (sx_full_entity_hash context))
    (ct_has_last_trade t) (ct_last_trade_price_tick t) (ct_last_trade_size_lots t) (ct_last_taker_side t)
    (ct_confirmed_buy_lots_2s t) (ct_confirmed_sell_lots_2s t) (ct_confirmed_buy_lots_10s t) (ct_confirmed_sell_lots_10s t)
    (bq_quality q) (bq_usable_for_depth q) (bq_usable_for_signal q).

(** [engine/state/shard/LOBShard.cpp:443-512] publish_asset_snapshot: whether a snapshot was published. *)
Definition publish_asset_snapshot (context : SnapshotBuildContext) (sh : LOBShard) : bool * LOBShard :=
  match store_get (sh_book_store sh) (sx_asset_id context) with
  | None => (false, sh)
  | Some e =>
      let s := build_snapshot context e (chain_get (sh_chain_writer sh) (sx_asset_id context)) (sh_quality sh) in
      (true, (sh <| sh_snapshot_publisher := publish_snapshot s (sh_snapshot_publisher sh) |>))
  end.

(** [engine/state/shard/LOBShard.cpp:407-413] should_publish_after_apply. *)
Definition should_publish_after_apply (result : StateApplyResult) : bool := mf_publish_required (sr_mutation result).

(** [engine/state/shard/LOBShard.cpp:192-299] LOBShard::apply. *)
Definition shard_apply (event : MarketStateEvent) (sh : LOBShard) : StateApplyResult * LOBShard :=
  let '(result, sh) := apply_to_writer event sh in
  let asset_id := asset_id_for_event event in
  let '(result, sh) := apply_quality asset_id result sh in
  let '(result, sh) := apply_fingerprint asset_id result sh in
  if negb (should_publish_after_apply result) then (result, sh)
  else
    let context := build_snapshot_context event result sh in
    if String.eqb (sx_asset_id context) "" then (result, sh)
    else
      let '(published, sh) := publish_asset_snapshot context sh in
      ((result <| sr_snapshot_published := published |>), sh).

(** ** What a snapshot shows *)

#[local] Arguments constant {_} _ _ /.
#[local] Arguments published : simpl never.
#[local] Arguments publish_snapshot : simpl never.

(** The part of an entity that its snapshot and its quality are made from. *)
Definition shown (e : EntityState) :=
  (en_entity_id e, en_market_id e, en_last_packet_id e, en_last_update_monotonic_ns e,
   (en_status e, en_initialized e, en_recovering e, en_closed e, en_book e)).

Definition context0 : SnapshotBuildContext := mkSnapshotBuildContext "" 0 0 0 0 None.

(** A snapshot without its version and its fingerprints. *)
Definition erase (s : MarketStateSnapshot) : MarketStateSnapshot :=
  (s <| ms_version := 0 |> <| ms_snapshot_version_hash := 0 |> <| ms_state_hash := 0 |>).

#[local] Arguments erase : simpl never.
#[local] Arguments build_snapshot : simpl never.

(** The snapshot the current state of an asset deserves. *)
Definition due_snapshot (e : EntityState) (chain : option ConfirmedTradeState) : MarketStateSnapshot :=
  erase (build_snapshot context0 e chain (quality_of (Some e) chain)).

Lemma quality_of_shown e e' chain : shown e = shown e' → quality_of (Some e) chain = quality_of (Some e') chain.
Proof.
  intros [= _ _ _ Hu Hs Hi Hr Hc Hb]. unfold quality_of, evaluate_quality, judge, ws_live, crossed_book, judged_at. cbn.
  by rewrite Hu, Hs, Hi, Hr, Hc, Hb.
Qed.

Lemma due_snapshot_shown e e' chain : shown e = shown e' → due_snapshot e chain = due_snapshot e' chain.
Proof.
  intros H. unfold due_snapshot. rewrite (quality_of_shown _ _ _ H). revert H.
  intros [= Hid Hm Hp Hu Hs Hi Hr Hc Hb]. unfold erase, build_snapshot. by rewrite Hid, Hm, Hu, Hs, Hr, Hc, Hb.
Qed.

Lemma erase_next s active : erase (next_snapshot s active) = erase s.
Proof. unfold next_snapshot. destruct s. by case_match. Qed.

Lemma erase_build c e chain q : erase (build_snapshot c e chain q) = erase (build_snapshot context0 e chain q).
Proof. done. Qed.

Lemma next_snapshot_id s active : ms_entity_id (next_snapshot s active) = ms_entity_id s.
Proof. unfold next_snapshot. destruct s. by case_match. Qed.

(** ** What the writers do *)

Lemma make_result_publish code id msg ch s : mf_publish_required (sr_mutation (make_result code id msg ch s).1) = false.
Proof.
  unfold make_result. case_match; [done|]. destruct (if String.eqb id "" then _ else _) as [eh s'].
  destruct (global_hash s') as [gh s'']. by destruct (take_access_stats _) as [[]].
Qed.

Lemma make_result_id code id msg ch s : sr_entity_id (make_result code id msg ch s).1 = id ∧ sr_state_changed (make_result code id msg ch s).1 = ch.
Proof. pose proof (make_result_spec code id msg ch s) as H. destruct (make_result _ _ _ _ _). naive_solver. Qed.

Lemma marked_result book lifecycle kind rs :
  sr_entity_id (marked (mark_result book lifecycle kind) rs).1 = sr_entity_id rs.1 ∧
  mf_publish_required (sr_mutation (marked (mark_result book lifecycle kind) rs).1) = sr_state_changed rs.1.
Proof. by destruct rs as [[] ?]. Qed.

Lemma ignored_shown e : shown (ignore_event e) = shown e.
Proof. by destruct e. Qed.

(** Which types of feed events reach the books. *)
Definition book_type (t : NormalizedEventType) : bool :=
  match t with NeSnapshot | NeDelta | NeLifecycleEvent | NeHeartbeat => true | _ => false end.

Lemma entity_present s id : en_closed (entity_of s id) = true ∨ en_initialized (entity_of s id) = true → is_Some (store_get s id).
Proof. unfold entity_of. destruct (store_get s id); [done|]. by intros [?|?]. Qed.

(** A result about the entity an event resolves to that is silent only if nothing shown changed. *)
Definition quiet_result (event : NormalizedEvent) (s : EntityStateStore) (rs : StateApplyResult * EntityStateStore) : Prop :=
  let id := resolve_entity_id event in
  sr_entity_id rs.1 = id ∧
  (mf_publish_required (sr_mutation rs.1) = false → id ≠ "" →
   is_Some (store_get s id) ∧ shown (step_entity event (entity_of s id)) = shown (entity_of s id)).

Lemma quiet_unmarked event s code id msg ch s1 :
  id = resolve_entity_id event →
  (id ≠ "" → is_Some (store_get s id) ∧ shown (step_entity event (entity_of s id)) = shown (entity_of s id)) →
  quiet_result event s (make_result code id msg ch s1).
Proof. intros -> H. split; [apply make_result_id|auto]. Qed.

Lemma quiet_marked event s book lifecycle kind code id msg ch s1 :
  id = resolve_entity_id event →
  (ch = false → id ≠ "" → is_Some (store_get s id) ∧ shown (step_entity event (entity_of s id)) = shown (entity_of s id)) →
  quiet_result event s (marked (mark_result book lifecycle kind) (make_result code id msg ch s1)).
Proof.
  intros -> H. pose proof (marked_result book lifecycle kind (make_result code (resolve_entity_id event) msg ch s1)) as [H1 H2].
  pose proof (make_result_id code (resolve_entity_id event) msg ch s1) as [H3 H4]. split; [congruence|].
  intros Hp. apply H. congruence.
Qed.

Lemma apply_snapshot_quiet event s s1 :
  ne_event_type event = NeSnapshot → (∀ id, entity_of s1 id = entity_of s id) → quiet_result event s (apply_snapshot event s1).
Proof.
  intros Ht Hs. unfold apply_snapshot. rewrite Hs. destruct (String.eqb_spec (resolve_entity_id event) "") as [E|E].
  { by apply quiet_unmarked. }
  destruct (en_closed _) eqn:Hc.
  { apply quiet_unmarked; [done|]. intros _. split; [apply entity_present; by left|]. unfold step_entity. by rewrite Ht, Hc, ignored_shown. }
  destruct (snapshot_entity _ _) as [e inv]. destruct inv; by apply quiet_marked.
Qed.

Lemma apply_delta_quiet event s s1 :
  ne_event_type event = NeDelta → (∀ id, entity_of s1 id = entity_of s id) → quiet_result event s (apply_delta event s1).
Proof.
  intros Ht Hs. unfold apply_delta. rewrite Hs. destruct (String.eqb_spec (resolve_entity_id event) "") as [E|E].
  { by apply quiet_marked. }
  destruct (en_closed _) eqn:Hc.
  { apply quiet_marked; [done|]. intros _ _. split; [apply entity_present; by left|]. unfold step_entity. by rewrite Ht, Hc, ignored_shown. }
  destruct (en_initialized _) eqn:Hi; cbn [negb]; [|by apply quiet_marked].
  destruct (ds_changed _) eqn:Hd.
  - destruct (ds_bad_side _); [by apply quiet_marked|]. destruct (ds_invalid _); by apply quiet_marked.
  - assert (Hstep : is_Some (store_get s (resolve_entity_id event)) ∧
      shown (step_entity event (entity_of s (resolve_entity_id event))) = shown (entity_of s (resolve_entity_id event))).
    { split; [apply entity_present; by right|]. unfold step_entity. rewrite Ht, Hc, Hi. cbn [negb]. rewrite Hd.
      case_match; [by destruct (entity_of s _)|apply ignored_shown]. }
    destruct (ds_bad_side _); [by apply quiet_marked|]. destruct (ds_invalid _); by apply quiet_marked.
Qed.

Lemma apply_lifecycle_quiet event s s1 : quiet_result event s (apply_lifecycle_event event s1).
Proof.
  unfold apply_lifecycle_event. destruct (String.eqb_spec (resolve_entity_id event) "") as [E|E].
  { by apply quiet_marked. }
  by apply quiet_marked.
Qed.

(** A book event that asks for no snapshot left everything shown as it was. *)
Lemma store_apply_quiet event s :
  book_type (ne_event_type event) = true →
  let '(r, s') := store_apply event s in
  (ne_event_type event ≠ NeHeartbeat → sr_entity_id r = resolve_entity_id event) ∧
  (ne_event_type event = NeHeartbeat → mf_publish_required (sr_mutation r) = false) ∧
  (mf_publish_required (sr_mutation r) = false → ∀ id, shown <$> store_get s' id = shown <$> store_get s id).
Proof.
  intros Ht. pose proof (store_apply_get event s) as Hget.
  assert (Hq : ne_event_type event ≠ NeHeartbeat → quiet_result event s (store_apply event s)).
  { unfold store_apply. destruct (ne_event_type event) eqn:E; try done; intros _;
      [by apply apply_snapshot_quiet|by apply apply_delta_quiet|apply apply_lifecycle_quiet]. }
  assert (Hh : ne_event_type event = NeHeartbeat → mf_publish_required (sr_mutation (store_apply event s).1) = false).
  { intros E. unfold store_apply, apply_heartbeat. rewrite E. apply make_result_publish. }
  destruct (store_apply event s) as [r s']. cbn [fst snd] in *. split_and!; [intros H; apply (Hq H)|done|].
  intros Hp id. rewrite Hget. destruct (reaches event id) eqn:Hr; [|done].
  apply reaches_eq in Hr as (Hid & Hne & Hht). destruct (Hq Hht) as [_ H]. rewrite Hid in H.
  destruct (H Hp Hne) as [[e He] Hs]. cbn. rewrite Hs. unfold entity_of. by rewrite He.
Qed.

(** The entity an event is about, for the writer it goes to. *)
Definition target (event : MarketStateEvent) : string :=
  match me_type event with
  | MeWsBookSnapshot | MeWsBookDelta | MeWsLifecycle => resolve_entity_id (me_ws_event event)
  | MeChainConfirmedFill | MeChainRemovedFill => chain_entity_id event
  | _ => asset_id_for_event event
  end.

Definition feed_event (t : MarketStateEventType) : bool :=
  match t with MeWsBookSnapshot | MeWsBookDelta | MeWsHeartbeat | MeWsLifecycle => true | _ => false end.

(** The writers and the shard agree about whom an event is for, and its type is that of the feed event in it. *)
Record routed (event : MarketStateEvent) : Prop := {
  rt_target : target event = asset_id_for_event event;
  rt_settlement : me_type event = MeChainSettlement → asset_id_for_event event ≠ "";
  rt_type : feed_event (me_type event) = true → me_type event = ws_event_type (ne_event_type (me_ws_event event))
}.

Lemma chain_apply_changed event w :
  (ca_state_changed (chain_apply event w).1 = false → (chain_apply event w).2 = w) ∧
  (chain_entity_id event = "" → ca_state_changed (chain_apply event w).1 = false).
Proof.
  unfold chain_apply, apply_removed, apply_confirmed. destruct (is_removal event), (is_confirmation event); try done;
    destruct (String.eqb_spec (chain_entity_id event) ""); try done.
  destruct (negb _ && _); [done|]. destruct (is_ambiguous _); [done|]. by destruct (cr_direction _).
Qed.

Lemma chain_apply_other event w id :
  id ≠ chain_entity_id event → chain_get (chain_apply event w).2 id = chain_get w id.
Proof.
  intros Hid. destruct (chain_apply_refreshes event w) as [[-> _]|(_ & w0 & -> & _ & Ho)]; [done|].
  destruct w0. unfold chain_get. cbn in *. rewrite lookup_insert_ne by done. by apply Ho.
Qed.

(** What a writer does to the shard: only the target changes, and only if a snapshot is asked for. *)
Record writer_step (event : MarketStateEvent) (sh : LOBShard) (r : StateApplyResult) (sh' : LOBShard) : Prop := {
  ws_publisher : sh_snapshot_publisher sh' = sh_snapshot_publisher sh;
  ws_quality : sh_quality sh' = sh_quality sh;
  ws_other : ∀ id, id ≠ target event →
    store_get (sh_book_store sh') id = store_get (sh_book_store sh) id ∧
    chain_get (sh_chain_writer sh') id = chain_get (sh_chain_writer sh) id;
  ws_silent : mf_publish_required (sr_mutation r) = false → ∀ id,
    shown <$> store_get (sh_book_store sh') id = shown <$> store_get (sh_book_store sh) id ∧
    chain_get (sh_chain_writer sh') id = chain_get (sh_chain_writer sh) id;
  ws_nobody : target event = "" → me_type event ≠ MeChainSettlement →
    sr_entity_id r = "" ∨ mf_publish_required (sr_mutation r) = false;
  ws_present : ∀ id, is_Some (store_get (sh_book_store sh) id) → is_Some (store_get (sh_book_store sh') id);
  ws_entities : ∀ id e, (∀ e, store_get (sh_book_store sh) id = Some e → en_entity_id e = id) →
    store_get (sh_book_store sh') id = Some e → en_entity_id e = id
}.

Lemma apply_settlement_shard event sh :
  let '(r, sh') := apply_settlement_event event sh in
  sh_snapshot_publisher sh' = sh_snapshot_publisher sh ∧ sh_quality sh' = sh_quality sh ∧
  sh_book_store sh' = sh_book_store sh ∧ sh_chain_writer sh' = sh_chain_writer sh.
Proof.
  unfold apply_settlement_event, mark_resolved, mark_closed. destruct (me_type event), (String.eqb (ne_winning_asset_id (me_ws_event event)) ""); cbn [negb];
    match goal with |- context [apply_status ?a ?b ?c ?d ?e] => destruct (apply_status a b c d e) end; by destruct sh.
Qed.

Lemma book_event_step event sh :
  feed_event (me_type event) = true → me_type event = ws_event_type (ne_event_type (me_ws_event event)) →
  let '(r, sh') := apply_book_event event sh in
  writer_step event sh r sh' ∧ (me_type event ≠ MeWsHeartbeat → sr_entity_id r = target event).
Proof.
  intros Hf Ht.
  assert (Hb : book_type (ne_event_type (me_ws_event event)) = true).
  { rewrite Ht in Hf. by destruct (ne_event_type (me_ws_event event)). }
  assert (Htgt : ne_event_type (me_ws_event event) ≠ NeHeartbeat → target event = resolve_entity_id (me_ws_event event)).
  { intros Hh. unfold target. rewrite Ht. by destruct (ne_event_type (me_ws_event event)). }
  pose proof (store_apply_quiet (me_ws_event event) (sh_book_store sh) Hb) as Hq.
  pose proof (store_apply_get (me_ws_event event) (sh_book_store sh)) as Hg.
  assert (Hlob : lob_apply event (Some (sh_book_store sh)) =
    let '(r, s) := store_apply (me_ws_event event) (sh_book_store sh) in
    (mkBookApplyResult (map_state_code (sr_code r)) (me_type event) r, Some s)).
  { unfold lob_apply. by destruct (me_type event). }
  unfold apply_book_event. rewrite Hlob. destruct (store_apply _ _) as [r s'] eqn:Es. destruct Hq as (Hid & Hhb & Hsil).
  cbn [ba_state default from_option snd] in *. destruct sh as [shid cfg qv ch bs cw sw q pub]. cbn in *.
  split; [|intros Hh; assert (ne_event_type (me_ws_event event) ≠ NeHeartbeat) by (intros E; by rewrite E in Ht);
           by rewrite Hid, Htgt].
  split; cbn; try done.
  - intros id Hne. rewrite Hg. destruct (reaches _ id) eqn:Hr; [|done]. apply reaches_eq in Hr as (<- & _ & Hh).
    by rewrite Htgt in Hne.
  - intros Hp id. split; [by apply Hsil|done].
  - intros He _. destruct (decide (ne_event_type (me_ws_event event) = NeHeartbeat)) as [Hh|Hh]; [auto|left].
    by rewrite Hid, <- Htgt.
  - intros id. rewrite Hg. destruct (reaches _ id); [by eexists|done].
  - intros id e Hk. rewrite Hg. destruct (reaches _ id) eqn:Hr; [|by apply Hk]. intros [= <-]. rewrite step_entity_id.
    unfold entity_of. destruct (store_get bs id) eqn:Hs; [by apply Hk|done].
Qed.

Lemma chain_event_step event sh :
  target event = chain_entity_id event → let '(r, sh') := apply_chain_event event sh in writer_step event sh r sh'.
Proof.
  intros Htgt. unfold apply_chain_event. pose proof (chain_apply_changed event (sh_chain_writer sh)) as [Hch He].
  pose proof (chain_apply_other event (sh_chain_writer sh)) as Ho.
  destruct (chain_apply event (sh_chain_writer sh)) as [r w']. cbn [fst snd] in *.
  destruct sh as [shid cfg qv ch bs cw sw q pub]. cbn in *. rewrite <- Htgt in *.
  split; cbn; try done; auto.
  intros Hp id. by rewrite Hch.
Qed.

Lemma apply_to_writer_step event sh :
  routed event → let '(r, sh') := apply_to_writer event sh in writer_step event sh r sh'.
Proof.
  intros [_ _ Ht]. unfold apply_to_writer.
  assert (Hbook : feed_event (me_type event) = true → let '(r, sh') := apply_book_event event sh in
    writer_step event sh r sh' ∧ (me_type event ≠ MeWsHeartbeat → sr_entity_id r = target event)).
  { intros Hf. by apply book_event_step; [|apply Ht]. }
  destruct (me_type event) eqn:Hty;
    try (specialize (Hbook eq_refl); destruct (apply_book_event event sh) as [r sh1]; by destruct Hbook).
  - specialize (Hbook eq_refl). destruct (apply_book_event event sh) as [r sh1].
    pose proof (apply_settlement_shard event sh1) as Hs. destruct (apply_settlement_event event sh1) as [settled sh2].
    destruct Hs as (Hp & Hq & Hb & Hc), Hbook as [[H1 H2 H3 H4 H5 H6 H7] Hid].
    assert (Hr : sr_entity_id (if sr_state_changed settled then mark_settled r else r) = sr_entity_id r)
      by (destruct (sr_state_changed settled); by destruct r).
    assert (Hpub : mf_publish_required (sr_mutation (if sr_state_changed settled then mark_settled r else r)) = false →
              mf_publish_required (sr_mutation r) = false) by (destruct (sr_state_changed settled); by destruct r).
    split; rewrite ?Hp, ?Hq, ?Hb, ?Hc, ?Hr; auto. intros Hn _. left. by rewrite Hid.
  - apply chain_event_step. unfold target. by rewrite Hty.
  - apply chain_event_step. unfold target. by rewrite Hty.
  - pose proof (apply_settlement_shard event sh) as Hs. destruct (apply_settlement_event event sh) as [r sh2].
    destruct Hs as (Hp & Hq & Hb & Hc). split; rewrite ?Hp, ?Hq, ?Hb, ?Hc; auto; congruence.
  - split; try done; auto.
Qed.

(** ** Published snapshots are current *)

Definition run_shard (events : list MarketStateEvent) (sh : LOBShard) : LOBShard :=
  foldl (λ sh event, (shard_apply event sh).2) sh events.

Lemma build_snapshot_id c e chain q : ms_entity_id (build_snapshot c e chain q) = en_entity_id e.
Proof. done. Qed.

(** What readers find for an asset is the snapshot of its current state, and nothing if it has none. *)
Definition current (sh : LOBShard) (id : string) : Prop :=
  erase <$> published (sh_snapshot_publisher sh) id =
  (λ e, due_snapshot e (chain_get (sh_chain_writer sh) id)) <$> store_get (sh_book_store sh) id.

Record shard_ok (sh : LOBShard) : Prop := {
  sk_current : ∀ id, id ≠ "" → current sh id;
  sk_ids : ∀ id e, store_get (sh_book_store sh) id = Some e → en_entity_id e = id
}.

Lemma current_same sh sh' id :
  published (sh_snapshot_publisher sh') id = published (sh_snapshot_publisher sh) id →
  shown <$> store_get (sh_book_store sh') id = shown <$> store_get (sh_book_store sh) id →
  chain_get (sh_chain_writer sh') id = chain_get (sh_chain_writer sh) id →
  current sh id → current sh' id.
Proof.
  unfold current. intros -> Hs -> ->. revert Hs.
  destruct (store_get (sh_book_store sh') id), (store_get (sh_book_store sh) id); cbn; intros [=]; [|done].
  f_equal. symmetry. apply due_snapshot_shown. unfold shown. congruence.
Qed.

(** Judging and fingerprinting an asset keep the writers and the snapshots, and ask for a snapshot when the
    quality changed. *)
Lemma apply_quality_spec asset_id result sh :
  let '(r, sh') := apply_quality asset_id result sh in
  sh_book_store sh' = sh_book_store sh ∧ sh_chain_writer sh' = sh_chain_writer sh ∧
  sh_snapshot_publisher sh' = sh_snapshot_publisher sh ∧ sr_entity_id r = sr_entity_id result ∧
  (asset_id ≠ "" → sh_quality sh' = quality_of (store_get (sh_book_store sh) asset_id) (chain_get (sh_chain_writer sh) asset_id)) ∧
  (asset_id = "" → r = result) ∧
  (mf_publish_required (sr_mutation r) = false → mf_publish_required (sr_mutation result) = false).
Proof.
  unfold apply_quality, refresh_quality. destruct sh, result. destruct (String.eqb_spec asset_id ""); [done|].
  destruct (quality_equal _ _); cbn; by split_and!.
Qed.

Lemma apply_fingerprint_spec asset_id result sh :
  let '(r, sh') := apply_fingerprint asset_id result sh in
  sh_book_store sh' = sh_book_store sh ∧ sh_chain_writer sh' = sh_chain_writer sh ∧
  sh_snapshot_publisher sh' = sh_snapshot_publisher sh ∧ sr_entity_id r = sr_entity_id result ∧
  sh_quality sh' = sh_quality sh ∧ sr_mutation r = sr_mutation result.
Proof. unfold apply_fingerprint. destruct (negb _ && _ && _), sh, result; by split_and!. Qed.

(** A published snapshot of an asset is current if the quality is its own. *)
Lemma publish_current context sh id :
  id ≠ "" → (∀ e, store_get (sh_book_store sh) (sx_asset_id context) = Some e → en_entity_id e = sx_asset_id context) →
  sh_quality sh = quality_of (store_get (sh_book_store sh) (sx_asset_id context)) (chain_get (sh_chain_writer sh) (sx_asset_id context)) →
  (id = sx_asset_id context → store_get (sh_book_store sh) id = None → current sh id) →
  (id ≠ sx_asset_id context → current sh id) →
  current (publish_asset_snapshot context sh).2 id.
Proof.
  intros Hne Hid Hq Hnone Hother. unfold publish_asset_snapshot. destruct (store_get _ (sx_asset_id context)) as [e|] eqn:He.
  2:{ destruct (decide (id = sx_asset_id context)); auto. subst. auto. }
  destruct sh as [shid cfg qv ch bs cw sw q pub]. cbn in *. unfold current in *. cbn in *. rewrite published_publish, build_snapshot_id, (Hid e eq_refl).
  case_bool_decide as Hb.
  - destruct Hb as [<- _]. rewrite He. cbn. rewrite erase_next, Hq. done.
  - apply Hother. naive_solver.
Qed.

Lemma shard_apply_ok event sh : routed event → shard_ok sh → shard_ok (shard_apply event sh).2.
Proof.
  intros Hr [Hcur Hids]. pose proof Hr as [Htgt Hset _]. pose proof (apply_to_writer_step event sh Hr) as Hstep.
  unfold shard_apply. destruct (apply_to_writer event sh) as [r1 sh1]. destruct Hstep as [Hpub Hqual Hoth Hsil Hnob Hpres Hent].
  pose proof (apply_quality_spec (asset_id_for_event event) r1 sh1) as Hq.
  destruct (apply_quality _ r1 sh1) as [r2 sh2]. destruct Hq as (Hb2 & Hc2 & Hp2 & Hid2 & Hq2 & Hsame2 & Hmf2).
  pose proof (apply_fingerprint_spec (asset_id_for_event event) r2 sh2) as Hf.
  destruct (apply_fingerprint _ r2 sh2) as [r3 sh3]. destruct Hf as (Hb3 & Hc3 & Hp3 & Hid3 & Hq3 & Hm3).
  assert (Hids3 : ∀ id e, store_get (sh_book_store sh3) id = Some e → en_entity_id e = id).
  { intros id e He. rewrite Hb3, Hb2 in He. by apply (Hent id e (Hids id)). }
  assert (Hkeep : ∀ id, id ≠ "" → id ≠ asset_id_for_event event → current sh3 id).
  { intros id Hne Hn. rewrite <- Htgt in Hn. destruct (Hoth id Hn) as [Hs Hc].
    apply (current_same sh); rewrite ?Hp3, ?Hp2, ?Hpub, ?Hb3, ?Hb2, ?Hs, ?Hc3, ?Hc2, ?Hc; auto. }
  assert (Hquiet : should_publish_after_apply r3 = false → ∀ id, id ≠ "" → current sh3 id).
  { unfold should_publish_after_apply. rewrite Hm3. intros Hno id Hne. destruct (Hsil (Hmf2 Hno) id) as [Hs Hc].
    apply (current_same sh); rewrite ?Hp3, ?Hp2, ?Hpub, ?Hb3, ?Hb2, ?Hs, ?Hc3, ?Hc2, ?Hc; auto. }
  destruct (should_publish_after_apply r3) eqn:Hsp; cbn [negb]; [|by split; [apply Hquiet|]].
  unfold build_snapshot_context. cbn [sx_asset_id].
  destruct (String.eqb_spec (asset_id_for_event event) "") as [E|E].
  - (* nobody's event: nothing changed, and nothing is published *)
    assert (Hr3 : sr_entity_id r3 = "").
    { rewrite Hid3, Hid2. destruct Hnob as [?|Hno]; [congruence| |done|].
      - intros Ht. by apply Hset in Ht.
      - unfold should_publish_after_apply in Hsp. rewrite Hm3, (Hsame2 E) in Hsp. congruence. }
    rewrite Hr3. cbn. split; [|done]. intros id Hne. apply Hkeep; [done|]. by rewrite E.
  - rewrite (proj2 (String.eqb_neq _ _) E).
    match goal with |- context [publish_asset_snapshot ?c sh3] => set (context := c) end.
    pose proof (publish_current context sh3) as Hpc. destruct (publish_asset_snapshot context sh3) as [ok sh4] eqn:Hp4. cbn [snd] in *.
    assert (Hb4 : sh_book_store sh4 = sh_book_store sh3).
    { revert Hp4. unfold publish_asset_snapshot. destruct sh3. case_match; intros [= <- <-]; done. }
    split; [|intros id e; rewrite Hb4; apply Hids3].
    intros id Hne. apply Hpc; [done|by apply Hids3| | |by apply Hkeep].
    + cbn. rewrite Hq3, Hq2, Hb3, Hb2, Hc3, Hc2 by done. done.
    + cbn. intros -> Hnone. unfold current. rewrite Hnone, Hp3, Hp2, Hpub. cbn.
      rewrite (Hcur _ Hne). destruct (store_get (sh_book_store sh) _) eqn:Hs; [|done].
      assert (is_Some (store_get (sh_book_store sh) (asset_id_for_event event))) as Hp%Hpres by (by rewrite Hs).
      rewrite <- Hb2, <- Hb3, Hnone in Hp. by destruct Hp.
Qed.

(** The events of the adapters that name their asset are routed. *)
Lemma feed_event_routed event :
  ne_entity_id event = "" ∨ ne_entity_id event = ne_asset_id event → ne_asset_id event ≠ "" ∨ ne_event_type event = NeHeartbeat →
  routed (from_normalized_event event).
Proof.
  intros He Ha. split; cbn; [|by destruct (ne_event_type event)|done].
  unfold target, asset_id_for_event, resolve_entity_id. cbn.
  destruct (ne_event_type event) eqn:Ht; cbn; try done;
    (destruct Ha as [Ha|?]; [|done]); rewrite (proj2 (String.eqb_neq _ _) Ha); cbn;
    destruct He as [He|He]; rewrite He; cbn; rewrite ?(proj2 (String.eqb_neq _ _) Ha); done.
Qed.

Lemma fill_event_routed fill : cr_asset_id fill ≠ "" → routed (from_classified_fill fill).
Proof.
  intros Ha. apply String.eqb_neq in Ha. unfold from_classified_fill. split; cbn.
  - unfold target, asset_id_for_event, chain_entity_id. cbn. rewrite Ha. cbn. by repeat case_match.
  - by repeat case_match.
  - by repeat case_match.
Qed.

Lemma run_shard_ok events sh : Forall routed events → shard_ok sh → shard_ok (run_shard events sh).
Proof. intros H. revert sh. induction H as [|ev events Hr _ IH]; intros sh Hs; [done|]. by apply IH, shard_apply_ok. Qed.

Lemma shard0_ok shard_id config : shard_ok (shard0 shard_id config).
Proof. split; [|done]. intros id Hid. done. Qed.

(** C19. Readers always see the current state: after any market events that agree about their asset, the
    snapshot a reader finds for an asset is, up to its version and its fingerprints, the one made from
    the order book, the chain state and the quality the asset has now, and a reader finds one exactly
    when the asset has an order book.  No event changes what a snapshot shows without publishing it. *)
Theorem published_snapshots_current shard_id config events asset :
  Forall routed events → asset ≠ "" →
  let sh := run_shard events (shard0 shard_id config) in
  erase <$> published (sh_snapshot_publisher sh) asset =
  (λ e, due_snapshot e (chain_get (sh_chain_writer sh) asset)) <$> store_get (sh_book_store sh) asset.
Proof. intros Hr Hne. by apply (sk_current _ (run_shard_ok _ _ Hr (shard0_ok shard_id config))). Qed.

(** A book for asset [a], a fill of it on the chain, and a delta. *)
Definition sample_fill : ClassifiedFillRecord :=
  (classified0 <| cr_fill_id := "0xa:1" |> <| cr_asset_id := "a" |> <| cr_direction := BuyAggressor |>
     <| cr_mapping_status := FmMapped |> <| cr_classification := FcChainConfirmed |> <| cr_size_lots := 7 |>
     <| cr_chain_seen_monotonic_ns := 1500 |>).
Definition sample_events : list MarketStateEvent :=
  [from_normalized_event (sample_snapshot <| ne_recv_monotonic_ns := 1000 |>); from_classified_fill sample_fill;
   from_normalized_event (sample_delta <| ne_recv_monotonic_ns := 2000 |>)].

Lemma published_snapshots_current_witness :
  let sh := run_shard sample_events (shard0 0 runtime_config0) in
  erase <$> published (sh_snapshot_publisher sh) "a" =
    (λ e, due_snapshot e (chain_get (sh_chain_writer sh) "a")) <$> store_get (sh_book_store sh) "a" ∧
  ms_best_bid_tick <$> published (sh_snapshot_publisher sh) "a" = Some 600000 ∧
  ms_confirmed_buy_lots_2s <$> published (sh_snapshot_publisher sh) "a" = Some 7.
Proof.
  split; [|split; vm_compute; reflexivity].
  apply (published_snapshots_current 0 runtime_config0 sample_events "a"); [|done].
  repeat (apply Forall_cons; split; [first [apply feed_event_routed; cbn; auto|by apply fill_event_routed]|]). by apply Forall_nil.
Defined.

(** ** What the model shows on concrete events *)

(** An event that names no asset is published with the quality of the asset judged before it: a book that was
    just closed is published as usable. *)
Example borrowed_quality :
  let closing := (event0 <| ne_packet_id := 5 |> <| ne_event_type := NeLifecycleEvent |> <| ne_condition_id := "c" |>
                         <| ne_raw_type := "market_closed" |> <| ne_recv_monotonic_ns := 3000 |>) in
  let sh := run_shard (sample_events ++ [from_normalized_event closing]) (shard0 0 runtime_config0) in
  (λ s, (ms_closed s, ms_usable_for_depth s)) <$> published (sh_snapshot_publisher sh) "c" = Some (true, true).
Proof. by vm_compute. Qed.

(** Any lifecycle event closes the settlement of its market, whatever it says. *)
Example lifecycle_closes_settlement :
  let listed := (event0 <| ne_event_type := NeLifecycleEvent |> <| ne_asset_id := "a" |> <| ne_market_id := "m" |>
                        <| ne_raw_type := "new_market" |>) in
  let sh := run_shard [from_normalized_event listed] (shard0 0 runtime_config0) in
  ss_status <$> (sh_settlement_writer sh !! "m") = Some StClosed ∧
  en_closed <$> store_get (sh_book_store sh) "a" = Some false.
Proof. by vm_compute. Qed.

(** A status change of the feed never reaches the books. *)
Lemma status_change_ignored event sh :
  ne_event_type event = NeStatusChange →
  sh_book_store (shard_apply (from_normalized_event event) sh).2 = sh_book_store sh.
Proof.
  intros Ht. unfold shard_apply, apply_to_writer. cbn [me_type from_normalized_event ws_event_type]. rewrite Ht. cbn [ws_event_type].
  match goal with |- context [apply_quality ?a ?r sh] => pose proof (apply_quality_spec a r sh) as Hq; destruct (apply_quality a r sh) as [r2 sh2] end.
  match goal with |- context [apply_fingerprint ?a r2 sh2] => pose proof (apply_fingerprint_spec a r2 sh2) as Hf; destruct (apply_fingerprint a r2 sh2) as [r3 sh3] end.
  destruct Hq as (Hq & _), Hf as (Hf & _).
  destruct (negb _); [cbn; congruence|]. case_match; [cbn; congruence|].
  unfold publish_asset_snapshot. destruct (store_get _ _); destruct sh3; cbn in *; congruence.
Qed.

(** The shard hands the gate no mismatches: it never finds one. *)
Lemma mismatch_never_found entity chain : bq_quality (quality_of entity chain) ≠ BqChainMismatch.
Proof.
  cbn. unfold judge. destruct entity as [e|]; [|done]. cbn [qi_entity qi_reconciliation reconciliation0 rn_chain_ws_mismatch_count_recent].
  rewrite (Z.ltb_irrefl 0). repeat (match goal with |- (if ?b then _ else _) ≠ _ => destruct b; [done|] end). done.
Qed.
