(* ===== verification/MarketView.v ===== *)
(** * MarketView: the questions strategies ask of the market state

    [engine/state/core/MarketStateStore.cpp] routes events and questions to its
    shards, of which there is one; [engine/state/MarketStateView.cpp] answers
    questions about the best prices, the spread and the depth of an asset from
    its published snapshot, or says why it cannot.  The theorem ties the answers
    to the order books of the store. *)

From S2P Require Import Prelude Hashing Decimals Doubles Depth OrderedMap EntityStore ChainConfirm ChainState MarketSnapshot MarketShard.
#[local] Open Scope Z_scope.

(** ** The store *)

(** [engine/state/core/MarketStateStore.h:57-59] MarketStateStore. *)
Record MarketStateStore := mkMarketStateStore {
  mk_runtime_config : StateRuntimeConfig;
  mk_shards : list LOBShard
}.

(** [engine/state/core/MarketStateStore.cpp:7-9] MarketStateStore::MarketStateStore. *)
Definition market_store0 (config : StateRuntimeConfig) : MarketStateStore := mkMarketStateStore config [shard0 0 config].

(** [engine/state/shard/ShardRouter.h:12-17] shard_for_asset. *)
Definition shard_for_asset (asset_id : string) : nat := 0.

(** [engine/state/core/MarketStateStore.cpp:15-23] MarketStateStore::apply. *)
Definition market_apply (event : MarketStateEvent) (st : MarketStateStore) : StateApplyResult * MarketStateStore :=
  let k := shard_for_asset (asset_id_for_event event) in
  match mk_shards st !! k with
  | Some sh => let '(r, sh) := shard_apply event sh in (r, (st <| mk_shards := <[k := sh]> (mk_shards st) |>))
  | None => (result0, st)
  end.

Definition shard_of (st : MarketStateStore) (asset_id : string) : LOBShard :=
  default (shard0 0 (mk_runtime_config st)) (mk_shards st !! shard_for_asset asset_id).

(** [engine/state/core/MarketStateStore.cpp:25-29] MarketStateStore::get_snapshot. *)
Definition store_snapshot (st : MarketStateStore) (asset_id : string) : StateQueryResult MarketStateSnapshot :=
  read_snapshot (sh_snapshot_publisher (shard_of st asset_id)) asset_id.

(** [engine/state/core/MarketStateStore.cpp:31-51] MarketStateStore::get_snapshots. With one shard. *)
Definition store_snapshots (st : MarketStateStore) (asset_ids : list (option string)) (max_out : nat) : list MarketStateSnapshot :=
  read_many (sh_snapshot_publisher (shard_of st "")) asset_ids max_out.

(** [engine/state/core/MarketStateStore.cpp:53-79] MarketStateStore::get_depth_views. With one shard. *)
Definition store_depth_views (st : MarketStateStore) (asset_ids : list (option string)) (asset_indices : list Z) (max_out : nat) :
    list MarketDepthView :=
  read_depth_many (sh_snapshot_publisher (shard_of st "")) asset_ids asset_indices max_out.

(** [engine/state/core/MarketStateStore.cpp:81-83] MarketStateStore::exists. *)
Definition store_exists (st : MarketStateStore) (asset_id : string) : bool := qr_ok (store_snapshot st asset_id).

(** [engine/state/core/MarketStateStore.cpp:85-90] MarketStateStore::state_hash. *)
Definition store_state_hash (st : MarketStateStore) (asset_id : string) : Z :=
  let s := store_snapshot st asset_id in if qr_ok s then ms_state_hash (qr_value s) else 0.

(** [engine/state/core/MarketStateStore.cpp:92-98] MarketStateStore::global_hash; the caches of the shards
    are mutable. *)
Definition store_global_hash (st : MarketStateStore) : Z * MarketStateStore :=
  let rs := (λ sh, let '(h, s) := global_hash (sh_book_store sh) in (h, (sh <| sh_book_store := s |>))) <$> mk_shards st in
  (foldl Z.lxor 0 rs.*1, (st <| mk_shards := rs.*2 |>)).

(** ** The view *)

(** [engine/state/StateTypes.h:17-20] BestBidAsk. *)
Record BestBidAsk := mkBestBidAsk { bb_bid : PriceLevel; bb_ask : PriceLevel }.

(** [engine/state/StateTypes.h:22-24] to_entity_id. *)
Definition to_entity_id (entity_id : Z) : string := pretty (Z.to_N entity_id).

(** [engine/state/MarketStateView.cpp:11-23] error_result. *)
Definition error_result {T} (value0 : T) (entity_id : string) (version : Z) (error : StateQueryError) : StateQueryResult T :=
  mkQuery false error entity_id version value0.
(** [engine/state/MarketStateView.cpp:25-38] ok_result. *)
Definition ok_result {T} (entity_id : string) (version : Z) (value : T) : StateQueryResult T :=
  mkQuery true QeNone entity_id version value.

(** [engine/state/MarketStateView.cpp:40-44] has_book_levels. *)
Definition has_book_levels (s : MarketStateSnapshot) : bool :=
  (0 <? Z.of_nat (ms_bid_count s)) || (0 <? Z.of_nat (ms_ask_count s)).

(** [engine/state/MarketStateView.cpp:369-391] executable_error. *)
Definition executable_error (s : MarketStateSnapshot) : StateQueryError :=
  if ms_resolved s then QeResolved
  else if ms_closed s then QeClosed
  else if ms_recovering s then QeRecovering
  else if ms_crossed s || (ms_has_bid s && ms_has_ask s && (ms_best_ask_tick s <? ms_best_bid_tick s)) then QeCrossedBook
  else QeNone.

(** The frame of the queries: the snapshot of the asset, if it is there and may be traded on. *)
Definition with_snapshot {T} (value0 : T) (st : MarketStateStore) (entity_id : string)
    (k : MarketStateSnapshot → Z → StateQueryResult T) : StateQueryResult T :=
  let s := store_snapshot st entity_id in
  if negb (qr_ok s) then error_result value0 entity_id (qr_version s) (qr_error s)
  else match executable_error (qr_value s) with
       | QeNone => k (qr_value s) (qr_version s)
       | e => error_result value0 entity_id (qr_version s) e
       end.

Definition no_bid (s : MarketStateSnapshot) : bool := negb (ms_has_bid s) || (ms_bid_count s =? 0)%nat.
Definition no_ask (s : MarketStateSnapshot) : bool := negb (ms_has_ask s) || (ms_ask_count s =? 0)%nat.

(** [engine/state/MarketStateView.cpp:61-95] get_best_bid. *)
Definition get_best_bid (st : MarketStateStore) (entity_id : string) : StateQueryResult PriceLevel :=
  with_snapshot no_level st entity_id (λ s version,
    if no_bid s then error_result no_level entity_id version QeMissingBid
    else ok_result entity_id version (ms_bids s !!! 0%nat)).

(** [engine/state/MarketStateView.cpp:103-137] get_best_ask. *)
Definition get_best_ask (st : MarketStateStore) (entity_id : string) : StateQueryResult PriceLevel :=
  with_snapshot no_level st entity_id (λ s version,
    if no_ask s then error_result no_level entity_id version QeMissingAsk
    else ok_result entity_id version (ms_asks s !!! 0%nat)).

Definition no_bbo : BestBidAsk := mkBestBidAsk no_level no_level.

(** [engine/state/MarketStateView.cpp:145-203] get_bbo. *)
Definition get_bbo (st : MarketStateStore) (entity_id : string) : StateQueryResult BestBidAsk :=
  with_snapshot no_bbo st entity_id (λ s version,
    if negb (has_book_levels s) then error_result no_bbo entity_id version QeEmptyBook
    else if no_bid s then error_result no_bbo entity_id version QeMissingBid
    else if no_ask s then error_result no_bbo entity_id version QeMissingAsk
    else if ms_best_ask_tick s <? ms_best_bid_tick s then error_result no_bbo entity_id version QeCrossedBook
    else ok_result entity_id version (mkBestBidAsk (ms_bids s !!! 0%nat) (ms_asks s !!! 0%nat))).

(** [engine/state/MarketStateView.cpp:211-227] get_mid_tick. *)
Definition get_mid_tick (st : MarketStateStore) (entity_id : string) : StateQueryResult Z :=
  let bbo := get_bbo st entity_id in
  if negb (qr_ok bbo) then error_result 0 (qr_entity_id bbo) (qr_version bbo) (qr_error bbo)
  else ok_result entity_id (qr_version bbo)
         (Z.quot (pl_price_tick (bb_bid (qr_value bbo)) +i pl_price_tick (bb_ask (qr_value bbo))) 2).

(** [engine/state/MarketStateView.cpp:235-259] get_spread_tick. *)
Definition get_spread_tick (st : MarketStateStore) (entity_id : string) : StateQueryResult Z :=
  let bbo := get_bbo st entity_id in
  if negb (qr_ok bbo) then error_result 0 (qr_entity_id bbo) (qr_version bbo) (qr_error bbo)
  else
    let spread := pl_price_tick (bb_ask (qr_value bbo)) -i pl_price_tick (bb_bid (qr_value bbo)) in
    if spread <? 0 then error_result 0 entity_id (qr_version bbo) QeCrossedBook
    else ok_result entity_id (qr_version bbo) spread.

(** [engine/state/MarketStateView.cpp:267-288] get_snapshot. *)
Definition view_snapshot (st : MarketStateStore) (entity_id : string) (max_depth : nat) : StateQueryResult MarketStateSnapshot :=
  if (max_depth =? 0)%nat || (kMaxSnapshotDepth <? max_depth)%nat then error_result snapshot0 entity_id 0 QeInvalidDepth
  else
    let s := store_snapshot st entity_id in
    if negb (qr_ok s) then s
    else
      let v := qr_value s in
      let v := (v <| ms_bid_count := Nat.min (ms_bid_count v) max_depth |> <| ms_ask_count := Nat.min (ms_ask_count v) max_depth |>) in
      mkQuery true (qr_error s) (qr_entity_id s) (ms_version v) v.

Definition kMaxDepthBatchViews : nat := 16.

(** [engine/state/view/MarketDepthView.h:38-43] DepthBatchReadResult. The views that were read. *)
Record DepthBatchReadResult := mkDepthBatch {
  db_ok : bool;
  db_views : list MarketDepthView;
  db_combined_snapshot_hash : Z
}.
Definition depth_batch0 : DepthBatchReadResult := mkDepthBatch false [] 0.

(** [engine/state/MarketStateView.cpp:314-319] read_depth_batch. *)
Definition read_depth_batch (asset_indices : list Z) : DepthBatchReadResult := depth_batch0.

(** [engine/state/MarketStateView.cpp:321-353] read_depth_batch_by_asset_id. *)
Definition read_depth_batch_by_asset_id (st : MarketStateStore) (asset_ids : list string) : DepthBatchReadResult :=
  match asset_ids with
  | [] => depth_batch0
  | _ =>
      let ids := take kMaxDepthBatchViews asset_ids in
      let views := store_depth_views st (Some <$> ids) (Z.of_nat <$> seq 0 (length ids)) kMaxDepthBatchViews in
      mkDepthBatch (length views =? length ids)%nat views (hash_depth_views views)
  end.

(** ** The answers and the books *)

#[local] Arguments constant {_} _ _ /.
#[local] Arguments published : simpl never.

Definition run_market (events : list MarketStateEvent) (st : MarketStateStore) : MarketStateStore :=
  foldl (λ st event, (market_apply event st).2) st events.

Lemma run_market_shard events config asset :
  shard_of (run_market events (market_store0 config)) asset = run_shard events (shard0 0 config).
Proof.
  assert (H : ∀ sh, mk_shards (run_market events (mkMarketStateStore config [sh])) = [run_shard events sh]).
  { induction events as [|ev events IH]; intros sh; [done|]. cbn [run_market foldl].
    unfold market_apply at 1. cbn. destruct (shard_apply ev sh) as [r sh'] eqn:E. cbn.
    exact (IH sh'). }
  unfold shard_of, shard_for_asset, market_store0. by rewrite H.
Qed.

Lemma shard_apply_store event sh :
  sh_book_store (shard_apply event sh).2 =
    if feed_event (me_type event) then (store_apply (me_ws_event event) (sh_book_store sh)).2 else sh_book_store sh.
Proof.
  assert (Hb : feed_event (me_type event) = true →
    sh_book_store (apply_book_event event sh).2 = (store_apply (me_ws_event event) (sh_book_store sh)).2).
  { intros Hf. unfold apply_book_event, lob_apply. destruct sh. cbn. destruct (me_type event); try done;
      by destruct (store_apply _ _). }
  assert (Hw : sh_book_store (apply_to_writer event sh).2 =
    if feed_event (me_type event) then (store_apply (me_ws_event event) (sh_book_store sh)).2 else sh_book_store sh).
  { unfold apply_to_writer. destruct (me_type event) eqn:Ht; cbn [feed_event] in *; try (by apply Hb).
    - specialize (Hb eq_refl). destruct (apply_book_event event sh) as [r sh1].
      pose proof (apply_settlement_shard event sh1) as Hs. destruct (apply_settlement_event event sh1). cbn in *.
      destruct Hs as (_ & _ & Hs & _). congruence.
    - unfold apply_chain_event. destruct (chain_apply _ _). by destruct sh.
    - unfold apply_chain_event. destruct (chain_apply _ _). by destruct sh.
    - pose proof (apply_settlement_shard event sh) as Hs. destruct (apply_settlement_event event sh). by destruct Hs as (_ & _ & Hs & _).
    - done. }
  unfold shard_apply. rewrite <- Hw. destruct (apply_to_writer event sh) as [r1 sh1].
  pose proof (apply_quality_spec (asset_id_for_event event) r1 sh1) as Hq. destruct (apply_quality _ r1 sh1) as [r2 sh2].
  pose proof (apply_fingerprint_spec (asset_id_for_event event) r2 sh2) as Hf. destruct (apply_fingerprint _ r2 sh2) as [r3 sh3].
  destruct Hq as (Hq & _), Hf as (Hf & _). cbn [snd] in *. rewrite <- Hq, <- Hf.
  destruct (negb _); [done|]. destruct (String.eqb _ _); [done|]. unfold publish_asset_snapshot.
  destruct (store_get _ _); by destruct sh3.
Qed.

(** The books of a shard are those of the feed events it received. *)
Lemma run_shard_store events sh :
  sh_book_store (run_shard events sh) =
    run_store (me_ws_event <$> filter (λ ev, feed_event (me_type ev) = true) events) (sh_book_store sh).
Proof.
  revert sh. induction events as [|ev events IH]; intros sh; [done|]. cbn [run_shard foldl].
  fold (run_shard events (shard_apply ev sh).2). rewrite IH, shard_apply_store, filter_cons.
  destruct (feed_event (me_type ev)); [by rewrite decide_True|by rewrite decide_False].
Qed.

Lemma market_entity_ok events config asset e :
  store_get (sh_book_store (run_shard events (shard0 0 config))) asset = Some e → entity_ok e.
Proof.
  rewrite run_shard_store. cbn. intros He.
  pose proof (run_entity_ok (sc_hash_mode config) (me_ws_event <$> filter (λ ev, feed_event (me_type ev) = true) events) asset) as H.
  unfold entity_of in H. by rewrite He in H.
Qed.

(** An open, uncrossed book with these best levels. *)
Record tradable (e : EntityState) (bid ask : double * double) : Prop := {
  td_open : en_closed e = false;
  td_uncrossed : ob_crossed (en_book e) = false;
  td_bid : head (ob_bids (en_book e)) = Some bid;
  td_ask : head (ob_asks (en_book e)) = Some ask;
  td_ticks : price_to_tick bid.1 <= price_to_tick ask.1
}.

(** The first of a side of a book is its best: every other level comes after it. *)
Lemma side_head_best ltb side l rest :
  side_ok ltb side → side = l :: rest → Forall (λ l', ltb l.1 l'.1 = true) rest.
Proof. intros [Hs _] ->. by inversion Hs. Qed.

(** What a snapshot says about the book of an entity. *)
Record shows_book (s : MarketStateSnapshot) (e : EntityState) : Prop := {
  sb_resolved : ms_resolved s = ob_resolved (en_book e);
  sb_closed : ms_closed s = en_closed e || bool_decide (en_status e = EsClosed);
  sb_recovering : ms_recovering s = en_recovering e || bool_decide (en_status e = EsRecovering);
  sb_crossed : ms_crossed s = ob_crossed (en_book e);
  sb_has_bid : ms_has_bid s = bool_decide (is_Some (head (ob_bids (en_book e))));
  sb_has_ask : ms_has_ask s = bool_decide (is_Some (head (ob_asks (en_book e))));
  sb_bid_tick : ms_best_bid_tick s = from_option (price_to_tick ∘ fst) 0 (head (ob_bids (en_book e)));
  sb_ask_tick : ms_best_ask_tick s = from_option (price_to_tick ∘ fst) 0 (head (ob_asks (en_book e)));
  sb_bid_count : ms_bid_count s = length (take kMaxSnapshotDepth (ob_bids (en_book e)));
  sb_ask_count : ms_ask_count s = length (take kMaxSnapshotDepth (ob_asks (en_book e)));
  sb_bids : ms_bids s = snapshot_levels (ob_bids (en_book e));
  sb_asks : ms_asks s = snapshot_levels (ob_asks (en_book e))
}.

Lemma due_shows_book e chain s : entity_ok e → erase s = due_snapshot e chain → shows_book s e.
Proof.
  intros Hok Hs. pose proof (ok_best _ Hok) as Hbest.
  assert (Hbb : ob_best_bid (en_book e) = fst <$> head (ob_bids (en_book e))) by exact (eq_sym (f_equal ob_best_bid Hbest)).
  assert (Hba : ob_best_ask (en_book e) = fst <$> head (ob_asks (en_book e))) by exact (eq_sym (f_equal ob_best_ask Hbest)).
  split.
  - exact (f_equal ms_resolved Hs).
  - exact (f_equal ms_closed Hs).
  - exact (f_equal ms_recovering Hs).
  - exact (f_equal ms_crossed Hs).
  - etrans; [exact (f_equal ms_has_bid Hs)|]. cbn. rewrite Hbb. by destruct (head (ob_bids _)).
  - etrans; [exact (f_equal ms_has_ask Hs)|]. cbn. rewrite Hba. by destruct (head (ob_asks _)).
  - etrans; [exact (f_equal ms_best_bid_tick Hs)|]. cbn. rewrite Hbb. by destruct (head (ob_bids _)).
  - etrans; [exact (f_equal ms_best_ask_tick Hs)|]. cbn. rewrite Hba. by destruct (head (ob_asks _)).
  - exact (f_equal ms_bid_count Hs).
  - exact (f_equal ms_ask_count Hs).
  - exact (f_equal ms_bids Hs).
  - exact (f_equal ms_asks Hs).
Qed.

(** An open entity is not resolved, and its status says so; one with levels is not recovering. *)
Lemma open_entity_flags e :
  entity_ok e → en_closed e = false →
  ob_resolved (en_book e) = false ∧ en_status e ≠ EsClosed ∧
  (en_recovering e = false → en_status e ≠ EsRecovering) ∧ (en_recovering e = true → ob_bids (en_book e) = []).
Proof.
  intros Hok Hc. pose proof (ok_status _ Hok) as Hs. unfold status_of in Hs. rewrite Hc in Hs. split_and!.
  - destruct (ob_resolved (en_book e)) eqn:Hr; [by rewrite (ok_resolved _ Hok Hr) in Hc|done].
  - rewrite Hs. destruct (en_initialized e), (ob_crossed (en_book e)), (en_recovering e); done.
  - intros Hr. rewrite Hs, Hr. destruct (en_initialized e), (ob_crossed (en_book e)); done.
  - intros Hr. apply (ok_uninitialized _ Hok). by apply (ok_recovering _ Hok).
Qed.

(** The answer of [get_bbo] on a snapshot. *)
Definition bbo_of (s : MarketStateSnapshot) (version : Z) (asset : string) : StateQueryResult BestBidAsk :=
  match executable_error s with
  | QeNone =>
      if negb (has_book_levels s) then error_result no_bbo asset version QeEmptyBook
      else if no_bid s then error_result no_bbo asset version QeMissingBid
      else if no_ask s then error_result no_bbo asset version QeMissingAsk
      else if ms_best_ask_tick s <? ms_best_bid_tick s then error_result no_bbo asset version QeCrossedBook
      else ok_result asset version (mkBestBidAsk (ms_bids s !!! 0%nat) (ms_asks s !!! 0%nat))
  | err => error_result no_bbo asset version err
  end.

(** An answer that is right about an entity: a price when it is tradable, and only then. *)
Definition answers (q : StateQueryResult BestBidAsk) (e : EntityState) : Prop :=
  (qr_ok q = true ↔ ∃ bid ask, tradable e bid ask) ∧
  ∀ bid ask, tradable e bid ask → qr_value q = mkBestBidAsk (make_price_level bid) (make_price_level ask).

Lemma answers_refusal q e : qr_ok q = false → (∀ bid ask, ¬ tradable e bid ask) → answers q e.
Proof.
  intros Hq Hn. split; [|by intros ?? ?%Hn]. rewrite Hq. split; [done|]. by intros (? & ? & ?%Hn).
Qed.

Lemma bbo_of_answers s e version asset : entity_ok e → shows_book s e → answers (bbo_of s version asset) e.
Proof.
  intros Hok [Hresolved Hclosed Hrecovering Hcrossed Hbid Hask Hbt Hat Hbc Hac Hbids Hasks].
  unfold bbo_of, executable_error, has_book_levels, no_bid, no_ask.
  rewrite Hresolved, Hclosed, Hrecovering, Hcrossed, Hbid, Hask, Hbt, Hat, Hbc, Hac, Hbids, Hasks.
  destruct (en_closed e) eqn:Hc.
  { apply answers_refusal; [by destruct (ob_resolved _)|]. intros ?? []. congruence. }
  destruct (open_entity_flags e Hok Hc) as (-> & Hs1 & Hs2 & Hs3). rewrite (bool_decide_false _ Hs1).
  destruct (en_recovering e) eqn:Hr.
  { apply answers_refusal; [done|]. intros ?? [_ _ Hh _ _]. by rewrite Hs3 in Hh. }
  rewrite (bool_decide_false _ (Hs2 eq_refl)). cbn [orb]. destruct (ob_crossed (en_book e)) eqn:Hx.
  { apply answers_refusal; [done|]. intros ?? []. congruence. }
  destruct (ob_bids (en_book e)) as [|bid bids] eqn:Eb.
  { apply answers_refusal; [cbn; by destruct (ob_asks (en_book e))|]. intros ?? [_ _ Hh _ _]. by rewrite Eb in Hh. }
  destruct (ob_asks (en_book e)) as [|ask asks] eqn:Ea.
  { apply answers_refusal; [done|]. intros ?? [_ _ _ Hh _]. by rewrite Ea in Hh. }
  cbn -[price_to_tick Z.of_nat]. destruct (Z.ltb_spec (price_to_tick ask.1) (price_to_tick bid.1)) as [Hlt|Hge]; cbn -[price_to_tick Z.of_nat].
  { apply answers_refusal; [done|]. intros b a [_ _ Hb Ha Ht]. rewrite Eb in Hb. rewrite Ea in Ha.
    injection Hb as <-. injection Ha as <-. lia. }
  split; [split; [intros _; exists bid, ask; by split; rewrite ?Eb, ?Ea|done]|].
  intros b a [_ _ Hb Ha _]. rewrite Eb in Hb. rewrite Ea in Ha. injection Hb as <-. by injection Ha as <-.
Qed.

(** The best prices a strategy is told are those of the live book: after any market events that agree
    about their asset, the view answers exactly when the asset has an open, uncrossed book with levels
    on both sides, and then with the first level of each side, which is strictly better than every
    other level of its side, at its price and in ticks of a millionth. *)
Theorem best_prices_exact config events asset :
  Forall routed events → asset ≠ "" →
  let st := run_market events (market_store0 config) in
  let book := store_get (sh_book_store (shard_of st asset)) asset in
  (qr_ok (get_bbo st asset) = true ↔ ∃ e bid ask, book = Some e ∧ tradable e bid ask) ∧
  ∀ e bid ask, book = Some e → tradable e bid ask →
    qr_value (get_bbo st asset) = mkBestBidAsk (make_price_level bid) (make_price_level ask) ∧
    Forall (λ l, SFgtb bid.1 l.1 = true) (tail (ob_bids (en_book e))) ∧
    Forall (λ l, SFltb ask.1 l.1 = true) (tail (ob_asks (en_book e))).
Proof.
  intros Hr Hne st book. pose proof (sk_current _ (run_shard_ok _ _ Hr (shard0_ok 0 config)) asset Hne) as Hcur.
  subst book. assert (Hsh : shard_of st asset = run_shard events (shard0 0 config)) by apply run_market_shard.
  unfold get_bbo, with_snapshot, store_snapshot. rewrite read_snapshot_published, Hsh. clear Hsh st.
  pose proof (market_entity_ok events config asset) as Hok. unfold current in Hcur.
  destruct (store_get _ asset) as [e|]; cbn [fmap option_fmap option_map] in Hcur.
  2:{ destruct (published _ asset); [discriminate Hcur|]. cbn. split; [split; [done|naive_solver]|naive_solver]. }
  destruct (published _ asset) as [s|]; [|discriminate Hcur]. apply (inj Some) in Hcur. cbn [negb qr_ok qr_value qr_version].
  specialize (Hok e eq_refl). destruct (bbo_of_answers s e (ms_version s) asset Hok (due_shows_book _ _ _ Hok Hcur)) as [Hiff Hval].
  unfold bbo_of in Hiff, Hval. split; [rewrite Hiff; naive_solver|]. intros e' bid ask [= <-] Ht. split; [by apply Hval|].
  destruct Ht as [_ _ Hb Ha _]. split.
  - destruct (ob_bids (en_book e)) as [|b bs] eqn:E; [discriminate Hb|]. injection Hb as ->. by apply (side_head_best _ _ _ _ (ok_bids _ Hok)).
  - destruct (ob_asks (en_book e)) as [|a asks] eqn:E; [discriminate Ha|]. injection Ha as ->. by apply (side_head_best _ _ _ _ (ok_asks _ Hok)).
Qed.

Lemma best_prices_exact_witness :
  qr_ok (get_bbo (run_market (take 2 sample_events) (market_store0 runtime_config0)) "a") = true ∧
  pl_price_tick (bb_bid (qr_value (get_bbo (run_market (take 2 sample_events) (market_store0 runtime_config0)) "a"))) = 500000.
Proof.
  assert (Hr : Forall routed (take 2 sample_events)).
  { repeat (apply Forall_cons; split; [first [apply feed_event_routed; cbn; auto|by apply fill_event_routed]|]). by apply Forall_nil. }
  destruct (best_prices_exact runtime_config0 (take 2 sample_events) "a" Hr ltac:(done)) as [Hiff Hval].
  assert (Ht : ∃ e, store_get (sh_book_store (shard_of (run_market (take 2 sample_events) (market_store0 runtime_config0)) "a")) "a" = Some e ∧
    tradable e (d0_50, d10_0) (d0_60, d10_0)).
  { eexists. split; [vm_compute; reflexivity|]. split; [reflexivity..|vm_compute; discriminate]. }
  destruct Ht as (e & He & Ht). split; [exact (proj2 Hiff (ex_intro _ e (ex_intro _ _ (ex_intro _ _ (conj He Ht)))))|].
  destruct (Hval e _ _ He Ht) as [-> _]. vm_compute. reflexivity.
Defined.

(** A locked book is quoted, with a spread of nothing. *)
Example locked_is_quoted :
  let q := get_spread_tick (run_market sample_events (market_store0 runtime_config0)) "a" in qr_ok q = true ∧ qr_value q = 0.
Proof. by vm_compute. Qed.

(** Reading a batch by index is not implemented: it answers nothing, whatever is published. *)
Lemma read_depth_batch_empty indices : db_ok (read_depth_batch indices) = false ∧ db_views (read_depth_batch indices) = [].
Proof. done. Qed.
