(* ===== verification/SignalTypes.v ===== *)
(** * SignalTypes: what the signal engine's parts exchange

    [engine/signal]: its configuration, the runtime plan compiled from a
    candidate bundle, the evidence a reader hands back and the cost of a
    bundle.  A pointer is an [option]; the arrays of a plan are lists of
    [kMaxIntentLegs] slots next to [leg_count]; the measured durations
    ([*_ns] timings of the stages) are not modelled. *)

From S2P Require Import Prelude Depth RiskTypes Bundles.

(** ** Configuration *)

(** [engine/signal/reader/SnapshotVersion.h:14-17] SnapshotConsistencyMode. *)
Inductive SnapshotConsistencyMode := StrictSameVersion | BoundedSkew.

(** [engine/signal/public/SignalConfig.h:9-33] SignalConfig. *)
Record SignalConfig := mkSignalConfig {
  sc_require_usable_for_depth : bool;
  sc_require_usable_for_signal : bool;
  sc_default_fee_tick : Z;
  sc_default_latency_buffer_tick : Z;
  sc_slippage_buffer_tick : Z;
  sc_min_unit_edge_tick : Z;
  sc_min_total_edge_tick : Z;
  sc_min_edge_bps : Z;
  sc_min_bundle_qty : Z;
  sc_max_intents_per_scan : Z;
  sc_max_intents_per_second : Z;
  sc_max_bundle_legs : Z;
  sc_intent_ttl_ns : Z;
  sc_emit_rejections : bool;
  sc_max_lob_age_ns : Z;
  sc_max_snapshot_version_skew : Z;
  sc_consistency_mode : SnapshotConsistencyMode
}.

(** The default member initialisers. *)
Definition signal_config0 : SignalConfig :=
  mkSignalConfig true false 0 0 0 0 0 0 1 1024 100 16 5000000000 true 1000000000 10 BoundedSkew.

(** ** Plans *)

(** [engine/signal/pricing/SideResolver.h:9-13] ExecutableBookSide. *)
Inductive ExecutableBookSide := SideBids | SideAsks | SideUnsupported.
#[export] Instance ExecutableBookSide_eq_dec : EqDecision ExecutableBookSide.
Proof. solve_decision. Defined.
#[export] Instance ExecutableBookSide_inhabited : Inhabited ExecutableBookSide := populate SideBids.

(** [engine/signal/pricing/SideResolver.cpp:5-15] resolve. *)
Definition resolve_side (side : Side) : ExecutableBookSide :=
  match side with
  | Buy => SideAsks
  | Sell => SideUnsupported
  end.

(** [engine/signal/scan/BundleRuntimePlan.h:13-39] BundleRuntimePlan. *)
Record BundleRuntimePlan := mkBundleRuntimePlan {
  pn_bundle : option CandidateBundle;
  pn_bundle_id : Z;
  pn_bundle_hash : Z;
  pn_oracle_artifact_hash : Z;
  pn_constraint_hash : Z;
  pn_leg_count : nat;
  pn_unique_asset_count : nat;
  pn_market_ids : list (option string);
  pn_asset_ids : list (option string);
  pn_asset_indices : list Z;
  pn_sides : list Side;
  pn_executable_sides : list ExecutableBookSide;
  pn_ratio_qty_lots : list Z;
  pn_max_price_ticks : list Z;
  pn_unique_asset_ids : list (option string);
  pn_unique_asset_indices : list Z;
  pn_guaranteed_payout_tick : Z;
  pn_min_unit_edge_tick : Z;
  pn_min_total_edge_tick : Z;
  pn_min_edge_bps : Z
}.
Definition plan0 : BundleRuntimePlan :=
  mkBundleRuntimePlan None 0 0 0 0 0 0
    (replicate kMaxIntentLegs None) (replicate kMaxIntentLegs None) (replicate kMaxIntentLegs 0)
    (replicate kMaxIntentLegs Buy) (replicate kMaxIntentLegs SideBids) (replicate kMaxIntentLegs 0)
    (replicate kMaxIntentLegs 0) (replicate kMaxIntentLegs None) (replicate kMaxIntentLegs 0) 0 0 0 0.

(** ** Evidence *)

(** [engine/signal/reader/SnapshotVersion.h:7-12] SnapshotVersion. *)
Record SnapshotVersion := mkSnapshotVersion {
  sv_min_book_version : Z;
  sv_max_book_version : Z;
  sv_combined_hash : Z;
  sv_read_ts_ns : Z
}.
Definition snapshot_version0 : SnapshotVersion := mkSnapshotVersion 0 0 0 0.

(** [engine/signal/reader/SnapshotBatchReader.h:12-23] SnapshotBatchReadResult; the snapshots are the first [snapshot_count]. *)
Record SnapshotBatchReadResult := mkSnapshotBatch {
  rd_ok : bool;
  rd_rejection_status : IntentStatus;
  rd_error : string;
  rd_snapshot_version : SnapshotVersion;
  rd_snapshots : list MarketStateSnapshot
}.

(** [engine/signal/reader/SnapshotBatchReader.h:25-38] DepthReadResult; the views are the first [count]. *)
Record DepthReadResult := mkDepthRead {
  rv_ok : bool;
  rv_rejection_status : IntentStatus;
  rv_error : string;
  rv_snapshot_version : SnapshotVersion;
  rv_snapshot_version_hash : Z;
  rv_depth_views : list MarketDepthView
}.

(** ** Costs *)

(** [engine/signal/pricing/CostResult.h:13-20] CostFailureReason. *)
Inductive CostFailureReason :=
| CfNone | CfMissingSnapshot | CfMissingBookSide | CfInsufficientDepth | CfInvalidQuantity | CfInvalidLeg.
#[export] Instance CostFailureReason_eq_dec : EqDecision CostFailureReason.
Proof. solve_decision. Defined.

(** [engine/signal/pricing/CostResult.h:22-35] FillSimulationLeg. *)
Record FillSimulationLeg := mkFillSimulationLeg {
  fs_asset_id : string;
  fs_requested_qty_lots : Z;
  fs_executable_qty_lots : Z;
  fs_vwap_price_tick : Z;
  fs_total_cost_tick : Z;
  fs_worst_price_tick : Z;
  fs_book_age_ns : Z;
  fs_enough_depth : bool
}.
Definition sim_leg0 : FillSimulationLeg := mkFillSimulationLeg "" 0 0 0 0 0 0 false.
#[export] Instance FillSimulationLeg_inhabited : Inhabited FillSimulationLeg := populate sim_leg0.

(** [engine/signal/pricing/CostResult.h:37-54] CostResult. *)
Record CostResult := mkCostResult {
  cs_executable : bool;
  cs_bundle_qty : Z;
  cs_total_cost_tick : Z;
  cs_avg_cost_tick : Z;
  cs_max_leg_slippage_tick : Z;
  cs_failure_reason : CostFailureReason;
  cs_fixed_leg_count : nat;
  cs_fixed_legs : list FillSimulationLeg;
  cs_legs : list FillSimulationLeg
}.
Definition cost_result0 : CostResult :=
  mkCostResult false 0 0 0 0 CfNone 0 (replicate kMaxIntentLegs sim_leg0) [].

(** [engine/signal/pricing/CostResult.h:56-65] cost_leg_count. *)
Definition cost_leg_count (cost : CostResult) : nat :=
  if (cs_fixed_leg_count cost =? 0)%nat then Nat.min (length (cs_legs cost)) kMaxIntentLegs
  else cs_fixed_leg_count cost.

(** [engine/signal/pricing/CostResult.h:67-73] cost_leg_at. *)
Definition cost_leg_at (cost : CostResult) (index : nat) : FillSimulationLeg :=
  if (cs_fixed_leg_count cost =? 0)%nat then cs_legs cost !!! index else cs_fixed_legs cost !!! index.
