(* ===== verification/SignalPricing.v ===== *)
(** * SignalPricing: what a bundle costs on the current books

    [engine/signal/pricing] and [engine/signal/edge].  A bundle is priced in
    three phases: the capacity of every leg, the number of bundles the
    shallowest leg allows, and the greedy cost of every leg at that quantity.
    [VWAPPrecheck] has three copies of it: on a price vector, on the snapshots
    of a plan and on its depth views.  The phases are written once over a
    class [PricingView] of evidence, with one instance per kind of evidence;
    its laws state what a phase promises, and the theorems follow from them. *)

From S2P Require Import Prelude Doubles FixedPoint Depth RiskTypes Reprice Bundles SignalTypes.

#[local] Arguments constant {_} _ _ /.

(** ** The capacity of a leg *)

(** [engine/signal/pricing/VWAPPrecheck.cpp:41-44] LegCapacity. *)
Record LegCapacity := mkLegCapacity {
  lp_leg : FillSimulationLeg;
  lp_best_price_tick : Z
}.
Definition capacity0 : LegCapacity := mkLegCapacity sim_leg0 0.
#[export] Instance LegCapacity_inhabited : Inhabited LegCapacity := populate capacity0.

(** [engine/signal/pricing/VWAPPrecheck.cpp:118-130] calculate_buy_capacity, the walk over the
    asks; an overflow stops it with the sums so far. *)
Fixpoint capacity_loop (levels : list PriceLevel) (executable best : Z) : bool * Z * Z :=
  match levels with
  | [] => (true, executable, best)
  | level :: rest =>
      let available := price_level_size_lots level in
      if (pl_price_tick level <=? 0) || (available <=? 0) then capacity_loop rest executable best
      else
        let best := if best =? 0 then pl_price_tick level else best in
        match checked_add_i64 executable available with
        | None => (false, executable, best)
        | Some executable => capacity_loop rest executable best
        end
  end.

Definition capacity_of (asset_id : string) (target executable best : Z) (enough : bool) : LegCapacity :=
  mkLegCapacity (sim_leg0 <| fs_asset_id := asset_id |> <| fs_requested_qty_lots := target |>
                   <| fs_executable_qty_lots := executable |> <| fs_enough_depth := enough |>) best.

(** [engine/signal/pricing/VWAPPrecheck.cpp:110-134] calculate_buy_capacity, from a present ask side to the end. *)
Definition walk_capacity (asset_id : string) (target : Z) (levels : list PriceLevel) : CostFailureReason * LegCapacity :=
  let '(ok, executable, best) := capacity_loop levels 0 0 in
  if ok then (CfNone, capacity_of asset_id target executable best (target <=? executable))
  else (CfInvalidLeg, capacity_of asset_id target executable best false).

(** [engine/signal/pricing/VWAPPrecheck.cpp:194-236] calculate_buy_capacity on a snapshot. *)
Definition calculate_buy_capacity_snapshot (asset_id : string) (target_qty_lots : Z) (executable_side : ExecutableBookSide)
    (snapshot : option MarketStateSnapshot) : CostFailureReason * LegCapacity :=
  if target_qty_lots <=? 0 then (CfInvalidQuantity, capacity0)
  else if negb (bool_decide (executable_side = SideAsks)) then (CfInvalidLeg, capacity0)
  else match snapshot with
  | None => (CfInvalidLeg, capacity0)
  | Some snapshot =>
      if negb (ms_has_ask snapshot) || (ms_ask_count snapshot =? 0)%nat then (CfMissingBookSide, capacity0)
      else
        let level_count := Nat.min (ms_ask_count snapshot) kMaxSnapshotDepth in
        walk_capacity asset_id target_qty_lots (take level_count (ms_asks snapshot))
  end.

(** [engine/signal/pricing/VWAPPrecheck.cpp:137-192] calculate_buy_capacity on a depth view. *)
Definition calculate_buy_capacity_depth (asset_id : string) (target_qty_lots : Z) (executable_side : ExecutableBookSide)
    (depth : option MarketDepthView) : CostFailureReason * LegCapacity :=
  if target_qty_lots <=? 0 then (CfInvalidQuantity, capacity0)
  else if negb (bool_decide (executable_side = SideAsks)) then (CfInvalidLeg, capacity0)
  else match depth with
  | None => (CfInvalidLeg, capacity0)
  | Some depth =>
      if (dv_ask_count depth =? 0)%nat then (CfMissingBookSide, capacity0)
      else if (0 <? dp_ask_count (dv_prefix depth))%nat then
        let executable := ask_depth_from_prefix (dv_prefix depth) in
        (CfNone, capacity_of asset_id target_qty_lots executable
                   (best_ask_tick_from_prefix (dv_asks depth) (dv_prefix depth)) (target_qty_lots <=? executable))
      else
        let level_count := Nat.min (dv_ask_count depth) kMaxSnapshotDepth in
        walk_capacity asset_id target_qty_lots (take level_count (dv_asks depth))
  end.

(** ** The cost of a leg *)

(** [engine/signal/pricing/VWAPPrecheck.cpp:260-270] price_buy_leg_for_quantity, from the quote to the end. *)
Definition priced_leg (asset_id : string) (priced : VwapMathResult) (out : FillSimulationLeg) : CostFailureReason * FillSimulationLeg :=
  if negb (vm_ok priced) then (CfInsufficientDepth, out)
  else (CfNone, out <| fs_asset_id := asset_id |> <| fs_total_cost_tick := vm_total_cost_tick priced |>
                  <| fs_vwap_price_tick := vm_vwap_tick priced |> <| fs_worst_price_tick := vm_worst_price_tick priced |>
                  <| fs_enough_depth := true |> <| fs_book_age_ns := 0 |>).

(** [engine/signal/pricing/VWAPPrecheck.cpp:329-362] price_buy_leg_for_quantity on a snapshot; the
    price-leg overload has the same body. *)
Definition price_buy_leg_snapshot (asset_id : string) (snapshot : option MarketStateSnapshot) (quantity_lots : Z)
    (out : FillSimulationLeg) : CostFailureReason * FillSimulationLeg :=
  if quantity_lots <=? 0 then (CfInvalidQuantity, out)
  else match snapshot with
  | None => (CfInvalidLeg, out)
  | Some snapshot =>
      let level_count := Nat.min (ms_ask_count snapshot) kMaxSnapshotDepth in
      priced_leg asset_id (buy_vwap_linear (Some (ms_asks snapshot)) level_count quantity_lots) out
  end.

(** [engine/signal/pricing/VWAPPrecheck.cpp:273-327] price_buy_leg_for_quantity on a depth view. *)
Definition price_buy_leg_depth (asset_id : string) (depth : option MarketDepthView) (quantity_lots : Z)
    (out : FillSimulationLeg) : CostFailureReason * FillSimulationLeg :=
  if quantity_lots <=? 0 then (CfInvalidQuantity, out)
  else match depth with
  | None => (CfInvalidLeg, out)
  | Some depth =>
      if (0 <? dp_ask_count (dv_prefix depth))%nat then
        priced_leg asset_id
          (buy_vwap_prefix (dv_prefix depth) (Some (dv_asks depth)) (dv_ask_count depth) quantity_lots) out
      else
        let level_count := Nat.min (dv_ask_count depth) kMaxSnapshotDepth in
        priced_leg asset_id (buy_vwap_linear (Some (dv_asks depth)) level_count quantity_lots) out
  end.

(** ** Evidence *)

(** What pricing a leg asks of a piece of evidence. *)
Class PricingView (V : Type) := {
  pv_capacity : string → Z → ExecutableBookSide → option V → CostFailureReason * LegCapacity;
  pv_price : string → option V → Z → FillSimulationLeg → CostFailureReason * FillSimulationLeg;
  pv_find : list V → string → Z → option V
}.

(** [engine/signal/pricing/VWAPPrecheck.cpp:46-56] snapshot_for_asset. *)
Definition snapshot_for_asset (snapshots : list MarketStateSnapshot) (asset_id : string) : option MarketStateSnapshot :=
  list_find (λ s, ms_entity_id s = asset_id) snapshots ≫= λ '(_, s), Some s.

(** [engine/signal/pricing/VWAPPrecheck.cpp:58-68] depth_for_asset. *)
Definition depth_for_asset (views : list MarketDepthView) (asset_index : Z) : option MarketDepthView :=
  list_find (λ v, dv_asset_index v = asset_index) views ≫= λ '(_, v), Some v.

#[export] Instance snapshot_pricing : PricingView MarketStateSnapshot := {
  pv_capacity := calculate_buy_capacity_snapshot;
  pv_price := price_buy_leg_snapshot;
  pv_find views asset_id _ := snapshot_for_asset views asset_id
}.

#[export] Instance depth_pricing : PricingView MarketDepthView := {
  pv_capacity := calculate_buy_capacity_depth;
  pv_price := price_buy_leg_depth;
  pv_find views _ asset_index := depth_for_asset views asset_index
}.

(** ** The phases *)

(** [engine/signal/pricing/VWAPPrecheck.cpp:19-23] failure. *)
Definition cost_failure (reason : CostFailureReason) : CostResult := cost_result0 <| cs_failure_reason := reason |>.

(** A leg being priced: what it asks for, and its evidence. *)
Record LegRequest (V : Type) := mkLegRequest {
  lq_asset_id : string;
  lq_target_qty_lots : Z;
  lq_view : option V
}.
#[global] Arguments mkLegRequest {V} _ _ _.
#[global] Arguments lq_asset_id {V} _.
#[global] Arguments lq_target_qty_lots {V} _.
#[global] Arguments lq_view {V} _.

(** [engine/signal/pricing/VWAPPrecheck.cpp:405-416] the number of bundles the legs allow: the
    running minimum, and whether every leg has depth. *)
Fixpoint legs_quantity (legs : list FillSimulationLeg) (quantity : Z) : bool * Z :=
  match legs with
  | [] => (true, quantity)
  | leg :: rest =>
      if negb (fs_enough_depth leg) || (fs_requested_qty_lots leg <=? 0) then (false, quantity)
      else legs_quantity rest (Z.min quantity (Z.quot (fs_executable_qty_lots leg) (fs_requested_qty_lots leg)))
  end.

Section phases.
Context {V : Type} `{PricingView V}.
(** Where the priced legs are kept: [legs] of a bundle, [fixed_legs] of a plan. *)
Context (legs_of : CostResult → list FillSimulationLeg) (set_leg : nat → FillSimulationLeg → CostResult → CostResult).

(** [engine/signal/pricing/VWAPPrecheck.cpp:429-461] one leg at the chosen quantity; [inl] is an early return. *)
Definition price_leg (i : nat) (request : LegRequest V) (capacity : LegCapacity) (result : CostResult) (total_lots : Z)
    : CostResult + CostResult * Z :=
  match checked_mul_i64 (lq_target_qty_lots request) (cs_bundle_qty result) with
  | None => inl (cost_failure CfInvalidQuantity)
  | Some planned_qty_lots =>
      let '(reason, priced) := pv_price (lq_asset_id request) (lq_view request) planned_qty_lots (legs_of result !!! i) in
      if negb (bool_decide (reason = CfNone)) then
        inl (set_leg i priced (result <| cs_failure_reason := reason |> <| cs_executable := false |>))
      else
        let result := result <| cs_max_leg_slippage_tick ::=
          λ m, Z.max m (fs_worst_price_tick priced -i lp_best_price_tick capacity) |> in
        match checked_add_i64 (cs_total_cost_tick result) (fs_total_cost_tick priced) with
        | None => inl (cost_failure CfInvalidLeg)
        | Some total =>
            match checked_add_i64 total_lots planned_qty_lots with
            | None => inl (cost_failure CfInvalidQuantity)
            | Some total_lots => inr (set_leg i priced (result <| cs_total_cost_tick := total |>), total_lots)
            end
        end
  end.

Fixpoint price_legs (i : nat) (requests : list (LegRequest V * LegCapacity)) (result : CostResult) (total_lots : Z)
    : CostResult + CostResult * Z :=
  match requests with
  | [] => inr (result, total_lots)
  | (request, capacity) :: rest =>
      match price_leg i request capacity result total_lots with
      | inl early => inl early
      | inr (result, total_lots) => price_legs (S i) rest result total_lots
      end
  end.

(** [engine/signal/pricing/VWAPPrecheck.cpp:405-474] from the capacities to the cost. *)
Definition price_requests (requests : list (LegRequest V * LegCapacity)) (result : CostResult) : CostResult :=
  let '(ok, quantity) := legs_quantity (lp_leg ∘ snd <$> requests) i64_max in
  let result := result <| cs_bundle_qty := quantity |> in
  if negb ok || (quantity <=? 0) || (quantity =? i64_max) then
    result <| cs_failure_reason := CfInsufficientDepth |> <| cs_executable := false |>
  else
    match price_legs 0 requests result 0 with
    | inl early => early
    | inr (result, total_lots) =>
        if total_lots <=? 0 then cost_failure CfInvalidQuantity
        else result <| cs_avg_cost_tick := ceil_div_positive (cs_total_cost_tick result) (cs_bundle_qty result) |>
                    <| cs_executable := true |> <| cs_failure_reason := CfNone |>
    end.
End phases.

(** ** The price vector of a bundle *)

(** [engine/signal/pricing/PriceVectorBuilder.h:13-24] PriceLeg. *)
Record PriceLeg := mkPriceLeg {
  pg_asset_id : string;
  pg_market_id : string;
  pg_side : Side;
  pg_target_qty_lots : Z;
  pg_executable_side : ExecutableBookSide;
  pg_snapshot : option MarketStateSnapshot
}.
Definition price_leg0 : PriceLeg := mkPriceLeg "" "" Buy 0 SideUnsupported None.

(** [engine/signal/pricing/PriceVectorBuilder.h:26-32] PriceVectorResult. *)
Record PriceVectorResult := mkPriceVector {
  vr_ok : bool;
  vr_failure_reason : CostFailureReason;
  vr_failed_leg_index : nat;
  vr_leg_count : nat;
  vr_legs : list PriceLeg
}.
Definition price_vector0 : PriceVectorResult := mkPriceVector false CfNone 0 0 (replicate kMaxIntentLegs price_leg0).

(** [engine/signal/pricing/PriceVectorBuilder.cpp:24-58] build, one leg and the rest of the loop. *)
Fixpoint build_price_legs (snapshots : list MarketStateSnapshot) (i : nat) (legs : list BundleLeg) (result : PriceVectorResult)
    : PriceVectorResult :=
  match legs with
  | [] => result <| vr_ok := true |>
  | leg :: rest =>
      let failed reason result := result <| vr_failure_reason := reason |> <| vr_failed_leg_index := i |> in
      if String.eqb (bl_asset_id leg) "" || String.eqb (bl_market_id leg) "" then failed CfInvalidLeg result
      else if bl_quantity_lots leg <=? 0 then failed CfInvalidQuantity result
      else
        let price_leg := mkPriceLeg (bl_asset_id leg) (bl_market_id leg) (bl_side leg) (bl_quantity_lots leg)
                           (resolve_side (bl_side leg)) None in
        let result := result <| vr_legs ::= <[i := price_leg]> |> in
        if bool_decide (pg_executable_side price_leg = SideUnsupported) then failed CfInvalidLeg result
        else
          match snapshot_for_asset snapshots (bl_asset_id leg) with
          | None => failed CfMissingSnapshot result
          | Some snapshot =>
              build_price_legs snapshots (S i) rest
                (result <| vr_legs ::= <[i := price_leg <| pg_snapshot := Some snapshot |>]> |> <| vr_leg_count := S i |>)
          end
  end.

(** [engine/signal/pricing/PriceVectorBuilder.cpp:7-62] build; the map built with [emplace] finds the
    first snapshot of an asset. *)
Definition build_price_vector (bundle : CandidateBundle) (snapshots : list MarketStateSnapshot) : PriceVectorResult :=
  if (cb_leg_count bundle =? 0)%nat || (kMaxIntentLegs <? cb_leg_count bundle)%nat
  then price_vector0 <| vr_failure_reason := CfInvalidLeg |>
  else build_price_legs snapshots 0 (bundle_legs bundle) price_vector0.

(** ** The three entry points *)

(** [engine/signal/pricing/VWAPPrecheck.cpp:95-135] calculate_buy_capacity on a leg of the price vector. *)
Definition calculate_buy_capacity_price_leg (leg : PriceLeg) : CostFailureReason * LegCapacity :=
  calculate_buy_capacity_snapshot (pg_asset_id leg) (pg_target_qty_lots leg) (pg_executable_side leg) (pg_snapshot leg).

(** [engine/signal/pricing/VWAPPrecheck.cpp:391-403] price_bundle, the capacities: [inl] is an early return. *)
Fixpoint bundle_capacities (legs : list PriceLeg) (result : CostResult) : CostResult + CostResult * list LegCapacity :=
  match legs with
  | [] => inr (result, [])
  | leg :: rest =>
      let '(reason, capacity) := calculate_buy_capacity_price_leg leg in
      let result := result <| cs_legs ::= λ legs, legs ++ [lp_leg capacity] |> in
      if negb (bool_decide (reason = CfNone)) then inl (result <| cs_failure_reason := reason |>)
      else match bundle_capacities rest result with
           | inl early => inl early
           | inr (result, capacities) => inr (result, capacity :: capacities)
           end
  end.

Definition set_vector_leg (i : nat) (leg : FillSimulationLeg) (result : CostResult) : CostResult :=
  result <| cs_legs ::= <[i := leg]> |>.
Definition set_fixed_leg (i : nat) (leg : FillSimulationLeg) (result : CostResult) : CostResult :=
  result <| cs_fixed_legs ::= <[i := leg]> |>.

Definition vector_request (leg : PriceLeg) : LegRequest MarketStateSnapshot :=
  mkLegRequest (pg_asset_id leg) (pg_target_qty_lots leg) (pg_snapshot leg).

(** [engine/signal/pricing/VWAPPrecheck.cpp:366-475] price_bundle. *)
Definition price_bundle (bundle : CandidateBundle) (snapshots : list MarketStateSnapshot) : CostResult :=
  let vector_result := build_price_vector bundle snapshots in
  if negb (vr_ok vector_result) then cost_failure (vr_failure_reason vector_result)
  else
    let legs := take (cb_leg_count bundle) (vr_legs vector_result) in
    match bundle_capacities legs cost_result0 with
    | inl early => early
    | inr (result, capacities) =>
        price_requests cs_legs set_vector_leg (zip (vector_request <$> legs) capacities) result
    end.

Section plans.
Context {V : Type} `{PricingView V}.

(** [engine/signal/pricing/VWAPPrecheck.cpp:496-523] price_runtime_plan, the capacities of the legs from [i] on. *)
Fixpoint plan_capacities (plan : BundleRuntimePlan) (views : list V) (i n : nat) (result : CostResult)
    : CostResult + CostResult * list (LegRequest V * LegCapacity) :=
  match n with
  | O => inr (result, [])
  | S n =>
      match pn_asset_ids plan !!! i with
      | None => inl (cost_failure CfInvalidLeg)
      | Some asset_id =>
          match pv_find views asset_id (pn_asset_indices plan !!! i) with
          | None => inl (cost_failure CfMissingSnapshot)
          | Some view =>
              let '(reason, capacity) :=
                pv_capacity asset_id (pn_ratio_qty_lots plan !!! i) (pn_executable_sides plan !!! i) (Some view) in
              let result := set_fixed_leg i (lp_leg capacity) result <| cs_fixed_leg_count := S i |> in
              if negb (bool_decide (reason = CfNone)) then inl (result <| cs_failure_reason := reason |>)
              else match plan_capacities plan views (S i) n result with
                   | inl early => inl early
                   | inr (result, requests) =>
                       inr (result, (mkLegRequest asset_id (pn_ratio_qty_lots plan !!! i) (Some view), capacity) :: requests)
                   end
          end
      end
  end.

(** [engine/signal/pricing/VWAPPrecheck.cpp:477-593] price_runtime_plan on snapshots. *)
Definition price_runtime_plan (plan : BundleRuntimePlan) (views_ok : bool) (views : list V) : CostResult :=
  if bool_decide (pn_bundle plan = None) || (pn_leg_count plan =? 0)%nat || (kMaxIntentLegs <? pn_leg_count plan)%nat ||
     negb views_ok
  then cost_failure CfInvalidLeg
  else
    match plan_capacities plan views 0 (pn_leg_count plan) cost_result0 with
    | inl early => early
    | inr (result, requests) => price_requests cs_fixed_legs set_fixed_leg requests result
    end.
End plans.

(** [engine/signal/pricing/VWAPPrecheck.cpp:477-593] price_runtime_plan on the snapshots read for a plan. *)
Definition price_plan_snapshots (plan : BundleRuntimePlan) (snapshots : SnapshotBatchReadResult) : CostResult :=
  price_runtime_plan plan (rd_ok snapshots) (rd_snapshots snapshots).

(** [engine/signal/pricing/VWAPPrecheck.cpp:595-709] price_runtime_plan on the depth views read for a plan. *)
Definition price_plan_depth (plan : BundleRuntimePlan) (depth : DepthReadResult) : CostResult :=
  price_runtime_plan plan (rv_ok depth) (rv_depth_views depth).

(** ** The edge *)

(** [engine/signal/edge/EdgeBreakdown.h:7-14] EdgeFailureReason. *)
Inductive EdgeFailureReason :=
| EfNone | EfInvalidCost | EfBelowMinUnitEdge | EfBelowMinTotalEdge | EfBelowMinEdgeBps | EfBelowMinBundleQty.
#[export] Instance EdgeFailureReason_eq_dec : EqDecision EdgeFailureReason.
Proof. solve_decision. Defined.

(** [engine/signal/edge/EdgeBreakdown.h:16-33] EdgeBreakdown. *)
Record EdgeBreakdown := mkEdgeBreakdown {
  eb_passed : bool;
  eb_guaranteed_payout_per_bundle_tick : Z;
  eb_vwap_cost_per_bundle_tick : Z;
  eb_fee_per_bundle_tick : Z;
  eb_latency_buffer_per_bundle_tick : Z;
  eb_slippage_buffer_per_bundle_tick : Z;
  eb_unit_edge_tick : Z;
  eb_total_edge_tick : Z;
  eb_edge_bps : Z;
  eb_bundle_qty : Z;
  eb_failure_reason : EdgeFailureReason
}.

(** [engine/signal/edge/TheoreticalEdgeCalculator.h:31-34] TheoreticalEdgeCalculator: the constants of its three models. *)
Record TheoreticalEdgeCalculator := mkEdgeCalculator {
  ec_default_fee_tick : Z;
  ec_default_latency_buffer_tick : Z;
  ec_default_slippage_buffer_tick : Z
}.

(** [engine/signal/pricing/FeeModel.cpp:8-13] estimate_fee_tick. *)
Definition estimate_fee_tick (calculator : TheoreticalEdgeCalculator) : Z := ec_default_fee_tick calculator.

(** [engine/signal/edge/LatencyBufferModel.cpp:9-13] estimate_latency_buffer_tick. *)
Definition estimate_latency_buffer_tick (calculator : TheoreticalEdgeCalculator) : Z := ec_default_latency_buffer_tick calculator.

(** [engine/signal/pricing/SlippageBufferModel.cpp:9-18] estimate_slippage_buffer_tick. *)
Definition estimate_slippage_buffer_tick (calculator : TheoreticalEdgeCalculator) (config : SignalConfig) : Z :=
  if negb (sc_slippage_buffer_tick config =? 0) then sc_slippage_buffer_tick config
  else ec_default_slippage_buffer_tick calculator.

(** [engine/signal/edge/TheoreticalEdgeCalculator.cpp:64-83] calculate: the first threshold an edge fails. *)
Definition edge_verdict (config : SignalConfig) (bundle : CandidateBundle) (out : EdgeBreakdown) : EdgeFailureReason :=
  let min_unit_edge_tick := Z.max (sc_min_unit_edge_tick config) (cb_min_edge_tick bundle) in
  if eb_bundle_qty out <? sc_min_bundle_qty config then EfBelowMinBundleQty
  else if eb_unit_edge_tick out <? min_unit_edge_tick then EfBelowMinUnitEdge
  else if eb_total_edge_tick out <? sc_min_total_edge_tick config then EfBelowMinTotalEdge
  else if eb_edge_bps out <? sc_min_edge_bps config then EfBelowMinEdgeBps
  else EfNone.

(** [engine/signal/edge/TheoreticalEdgeCalculator.cpp:24-88] calculate. *)
Definition calculate_edge (calculator : TheoreticalEdgeCalculator) (bundle : CandidateBundle) (cost : CostResult)
    (config : SignalConfig) : EdgeBreakdown :=
  let out := mkEdgeBreakdown false (cb_guaranteed_payout_tick bundle) (cs_avg_cost_tick cost)
    (estimate_fee_tick calculator) (estimate_latency_buffer_tick calculator) (estimate_slippage_buffer_tick calculator config)
    0 0 0 (cs_bundle_qty cost) EfNone in
  if negb (cs_executable cost) || (cs_bundle_qty cost <=? 0) then out <| eb_failure_reason := EfInvalidCost |>
  else
    let edge := compute_edge (mkEdgeMathInput (eb_guaranteed_payout_per_bundle_tick out) (eb_vwap_cost_per_bundle_tick out)
      (eb_fee_per_bundle_tick out) (eb_latency_buffer_per_bundle_tick out) (eb_slippage_buffer_per_bundle_tick out)
      (eb_bundle_qty out)) in
    if negb (er_ok edge) then out <| eb_failure_reason := EfInvalidCost |>
    else
      let out := out <| eb_unit_edge_tick := er_unit_edge_tick edge |> <| eb_total_edge_tick := er_total_edge_tick edge |>
                     <| eb_edge_bps := er_edge_bps edge |> in
      match edge_verdict config bundle out with
      | EfNone => out <| eb_passed := true |> <| eb_failure_reason := EfNone |>
      | reason => out <| eb_failure_reason := reason |>
      end.

(** ** Capacity is the depth, the best price is the first live ask *)

(** The price of the first level with lots, 0 when there is none. *)
Fixpoint best_live (levels : list PriceLevel) : Z :=
  match levels with
  | [] => 0
  | level :: rest => if 0 <? level_available level then pl_price_tick level else best_live rest
  end.

Lemma capacity_loop_spec levels e b :
  0 <= e <= i64_max →
  (e + exact_qty levels <= i64_max →
   capacity_loop levels e b = (true, e + exact_qty levels, if b =? 0 then best_live levels else b)) ∧
  (i64_max < e + exact_qty levels → ∃ e' b', capacity_loop levels e b = (false, e', b')).
Proof.
  revert e b; induction levels as [|l levels IH]; intros e b He; cbn [capacity_loop best_live].
  { unfold exact_qty; cbn. split; [|lia]. intros _. rewrite Z.add_0_r. by destruct (Z.eqb_spec b 0) as [->|]. }
  pose proof (level_available_range l). destruct (level_live l) as [-> Hpos]. rewrite exact_qty_cons.
  pose proof (exact_qty_nonneg levels).
  destruct (Z.leb_spec (level_available l) 0) as [|Hav].
  { rewrite (proj2 (Z.ltb_ge 0 _)) by lia. replace (level_available l) with 0 by lia.
    destruct (IH e b He). split; intros; [rewrite Z.add_0_l|]; auto with lia. }
  rewrite (proj2 (Z.ltb_lt _ _)) by lia. destruct (Hpos Hav) as [Hp <-].
  destruct (checked_add_i64 e (level_available l)) as [e'|] eqn:E1.
  2:{ apply checked_add_i64_None in E1. split; [rlia|eauto]. }
  apply checked_add_i64_Some in E1 as [? ->].
  destruct (IH (e + level_available l) (if b =? 0 then pl_price_tick l else b) ltac:(rlia)) as [IH1 IH2].
  split; intros; [rewrite IH1 by lia|apply IH2; lia].
  rewrite Z.add_assoc. f_equal. destruct (Z.eqb_spec b 0) as [->|Hb].
  - by destruct (Z.eqb_spec (pl_price_tick l) 0); [lia|].
  - by destruct (Z.eqb_spec b 0).
Qed.

Lemma best_ask_accumulate levels c : best_ask_loop 0 (zip (accumulate_depth 0 c levels).*1 levels) = best_live levels.
Proof.
  revert c; induction levels as [|l levels IH]; intros c; cbn [accumulate_depth fmap list_fmap zip zip_with best_ask_loop best_live fst]; [done|].
  pose proof (level_available_range l). destruct (level_live l) as [_ Hpos].
  assert (depth_prefix_saturating_add 0 (level_available l) = level_available l) as ->.
  { pose proof (sat_add_nonneg 0 (level_available l) ltac:(lia) ltac:(lia)) as Hs.
    rewrite Z.min_r, Z.min_r, Z.add_0_l in Hs by lia. by rewrite Hs, Z.min_r by lia. }
  destruct (Z.ltb_spec 0 (level_available l)) as [Hav|].
  - destruct (Hpos Hav). by rewrite (proj2 (Z.ltb_lt _ _)) by lia.
  - cbn [andb]. replace (level_available l) with 0 by lia. apply IH.
Qed.

Lemma take_zip {A B} n (l : list A) (k : list B) : take n (zip l k) = zip (take n l) (take n k).
Proof. revert l k; induction n as [|n IH]; intros [|x l] [|y k]; cbn; rewrite ?zip_with_nil_r; try done. f_equal. apply IH. Qed.

Lemma best_ask_prefix bids bid_count asks ask_count :
  length asks = kMaxSnapshotDepth → (ask_count <= kMaxSnapshotDepth)%nat →
  best_ask_tick_from_prefix asks (build_depth_prefix bids bid_count asks ask_count) = best_live (take ask_count asks).
Proof.
  intros Hlen Hc. unfold best_ask_tick_from_prefix, build_depth_prefix. cbn [dp_ask_count dp_ask_cum_qty].
  rewrite Nat.min_l by lia. rewrite <- (best_ask_accumulate (take ask_count asks) 0). f_equal.
  set (cum := (accumulate_depth 0 0 (take ask_count asks)).*1).
  assert (Hcum : length cum = ask_count).
  { unfold cum. rewrite length_fmap, accumulate_length, length_take. lia. }
  rewrite take_zip. f_equal. unfold std_array.
  rewrite take_app_le, take_take, take_ge; [done|lia|rewrite length_take; lia].
Qed.

(** ** The contract of the evidence *)

(** The depth of the evidence as pricing reports it. *)
Definition view_depth {V} `{BookView V} (v : V) : Z := Z.min i64_max (exact_qty (bv_asks v)).

(** A leg filled against the asks of [v]: exact greedy cost, its average and the worst price touched. *)
Definition filled_leg {V} `{BookView V} (asset_id : string) (v : V) (quantity : Z) (out : FillSimulationLeg) : FillSimulationLeg :=
  let cost := (fill (bv_asks v) quantity).1 in
  out <| fs_asset_id := asset_id |> <| fs_total_cost_tick := cost |> <| fs_vwap_price_tick := Z.quot cost quantity |>
      <| fs_worst_price_tick := fill_worst (bv_asks v) quantity 0 |> <| fs_enough_depth := true |> <| fs_book_age_ns := 0 |>.

(** Well-formed evidence whose asks are in price order. *)
Definition priceable {V} `{BookView V} (v : V) : Prop := bv_wf v ∧ asks_sorted (bv_asks v).

Class PricingViewLaws (V : Type) `{BookView V, PricingView V} : Prop := {
  pv_capacity_ok asset target side v cap :
    priceable v → pv_capacity asset target side (Some v) = (CfNone, cap) →
    0 < target ∧ side = SideAsks ∧
    cap = capacity_of asset target (view_depth v) (best_live (bv_asks v)) (target <=? view_depth v);
  pv_price_ok asset v quantity out out' :
    priceable v → 0 < quantity <= view_depth v →
    pv_price asset (Some v) quantity out = (CfNone, out') →
    (fill (bv_asks v) quantity).1 <= i64_max ∧
    out' = filled_leg asset v quantity out;
  pv_find_elem views asset index v : pv_find views asset index = Some v → v ∈ views
}.

Lemma walk_capacity_ok asset target levels cap :
  walk_capacity asset target levels = (CfNone, cap) →
  exact_qty levels <= i64_max ∧ cap = capacity_of asset target (exact_qty levels) (best_live levels) (target <=? exact_qty levels).
Proof.
  unfold walk_capacity. destruct (capacity_loop_spec levels 0 0 ltac:(lia)) as [H1 H2].
  destruct (decide (0 + exact_qty levels <= i64_max)) as [Hle|Hgt].
  - rewrite H1 by done. cbn. intros [= <-]. by rewrite ?Z.add_0_l in *.
  - destruct H2 as (e' & b' & ->); [lia|]. done.
Qed.

Lemma priced_linear_ok asset asks count quantity out out' :
  (0 < count)%nat → 0 < quantity <= i64_max → let levels := take count asks in
  priced_leg asset (buy_vwap_linear (Some asks) count quantity) out = (CfNone, out') →
  quantity <= exact_qty levels ∧ (fill levels quantity).1 <= i64_max ∧
  out' = out <| fs_asset_id := asset |> <| fs_total_cost_tick := (fill levels quantity).1 |>
             <| fs_vwap_price_tick := Z.quot (fill levels quantity).1 quantity |>
             <| fs_worst_price_tick := fill_worst levels quantity 0 |> <| fs_enough_depth := true |> <| fs_book_age_ns := 0 |>.
Proof.
  intros Hc Hq levels. unfold priced_leg. rewrite buy_vwap_linear_spec by done. cbv zeta. fold levels.
  pose proof (fill_unfilled levels quantity ltac:(lia)) as Hu.
  case_bool_decide as H1; cbn [andb]; [|done]. case_bool_decide as H2; [|done].
  destruct (Z.ltb_spec 0 (fill levels quantity).2); cbn; [done|]. intros [= <-]. split_and!; [lia|done|by destruct out].
Qed.

Lemma exact_qty_take_pos n asks : 0 < exact_qty (take n asks) → (0 < n)%nat.
Proof. intros H. destruct n; [by cbn in H|lia]. Qed.

Lemma list_find_elem {A} (P : A → Prop) `{∀ x, Decision (P x)} (l : list A) x :
  (list_find P l ≫= λ '(_, y), Some y) = Some x → x ∈ l.
Proof.
  destruct (list_find P l) as [[i y]|] eqn:E; cbn; [|done]. intros [= <-].
  apply list_find_Some in E as (Hy & _). by eapply list_elem_of_lookup_2.
Qed.

#[export] Instance snapshot_pricing_laws : PricingViewLaws MarketStateSnapshot.
Proof.
  constructor.
  - intros asset target side s cap _ H. cbn in H. unfold calculate_buy_capacity_snapshot in H.
    destruct (Z.leb_spec target 0); [by simplify_eq|]. case_bool_decide; cbn [negb] in H; [|by simplify_eq].
    destruct (ms_has_ask s); cbn [negb orb] in H; [|by simplify_eq].
    destruct (Nat.eqb_spec (ms_ask_count s) 0); [by simplify_eq|].
    apply walk_capacity_ok in H as [Hle ->]. unfold view_depth; cbn. by rewrite Z.min_r by done.
  - intros asset s quantity out out' _ Hq H. unfold view_depth in Hq. cbn [bv_asks snapshot_view] in Hq.
    cbn in H. unfold price_buy_leg_snapshot in H. rewrite (proj2 (Z.leb_gt _ _)) in H by lia.
    apply priced_linear_ok in H as (? & ? & ->); [done|apply (exact_qty_take_pos _ (ms_asks s)); lia|lia].
  - intros views asset index v. apply list_find_elem.
Qed.

#[export] Instance depth_pricing_laws : PricingViewLaws MarketDepthView.
Proof.
  constructor.
  - intros asset target side v cap [(Hlen & Hcnt & Hpre) _] H. cbn in H. unfold calculate_buy_capacity_depth in H.
    destruct (Z.leb_spec target 0); [by simplify_eq|]. case_bool_decide; cbn [negb] in H; [|by simplify_eq].
    destruct (Nat.eqb_spec (dv_ask_count v) 0) as [|Hn]; [by simplify_eq|].
    rewrite Hpre, prefix_ask_count, (proj2 (Nat.ltb_lt _ _)) in H by lia.
    unfold ask_depth_from_prefix in H. rewrite prefix_ask_count, (proj2 (Nat.eqb_neq _ _)) in H by lia.
    rewrite prefix_last, best_ask_prefix in H by (done || lia). by simplify_eq.
  - intros asset v quantity out out' [(Hlen & Hcnt & Hpre) Hsort] Hq H. unfold view_depth in Hq. cbn [bv_asks depth_view_view] in *.
    cbn in H. unfold price_buy_leg_depth in H. rewrite (proj2 (Z.leb_gt _ _)) in H by lia.
    assert (0 < dv_ask_count v)%nat by (apply (exact_qty_take_pos _ (dv_asks v)); lia).
    rewrite Hpre, prefix_ask_count, (proj2 (Nat.ltb_lt _ _)) in H by lia.
    rewrite buy_vwap_prefix_spec in H by (done || lia). cbv zeta in H. unfold priced_leg in H.
    set (levels := take (dv_ask_count v) (dv_asks v)) in *.
    destruct (Z.ltb_spec (exact_qty levels) quantity); [lia|].
    destruct (ending_level levels quantity ltac:(lia)) as (l1 & l & l2 & Hl & Hend).
    rewrite (prefix_search (dv_bids v) (dv_bid_count v) (dv_asks v) (dv_ask_count v) Hlen ltac:(lia) l1 l l2 quantity ltac:(lia) Hl Hend), (prefix_price (dv_asks v) (dv_ask_count v) l1 l l2 Hl) in H.
    destruct (level_live l) as [_ Hlive]. destruct (Hlive ltac:(pose proof (exact_qty_nonneg l1); lia)).
    pose proof (sorted_before levels l1 l l2 Hsort Hl).
    assert (Hw : fill_worst levels quantity 0 = pl_price_tick l) by (rewrite Hl; apply fill_worst_split; (done || lia)).
    unfold filled_leg; cbn [bv_asks depth_view_view]. fold levels. rewrite Hw. clearbody levels.
    case_bool_decide; cbn in H; [|done]. injection H as <-. split; [done|]. by destruct out.
  - intros views asset index v. apply list_find_elem.
Qed.

(** ** The phases are exact *)

(** The shallowest leg: every leg can fill the quantity, and one leg cannot fill one bundle more. *)
Lemma legs_quantity_ok legs q0 q :
  legs_quantity legs q0 = (true, q) →
  q <= q0 ∧
  (∀ leg, leg ∈ legs → fs_enough_depth leg = true ∧ 0 < fs_requested_qty_lots leg ∧
     (0 <= fs_executable_qty_lots leg → fs_requested_qty_lots leg * q <= fs_executable_qty_lots leg)) ∧
  (q = q0 ∨ ∃ leg, leg ∈ legs ∧ (0 <= fs_executable_qty_lots leg →
     fs_executable_qty_lots leg < fs_requested_qty_lots leg * (q + 1))).
Proof.
  revert q0; induction legs as [|leg legs IH]; intros q0; cbn [legs_quantity].
  { intros [= ->]. split_and!; [lia|set_solver|by left]. }
  destruct (fs_enough_depth leg) eqn:He; cbn [negb orb]; [|done].
  destruct (Z.leb_spec (fs_requested_qty_lots leg) 0) as [|Hr]; [done|]. intros H.
  apply IH in H as (Hle & Hall & Hmax). set (d := Z.quot _ _) in *.
  assert (Hd : 0 <= fs_executable_qty_lots leg →
    fs_requested_qty_lots leg * d <= fs_executable_qty_lots leg < fs_requested_qty_lots leg * (d + 1)).
  { intros. subst d. rewrite Z.quot_div_nonneg by lia.
    pose proof (Z.div_mod (fs_executable_qty_lots leg) (fs_requested_qty_lots leg) ltac:(lia)).
    pose proof (Z.mod_pos_bound (fs_executable_qty_lots leg) (fs_requested_qty_lots leg) Hr). nia. }
  split_and!; [lia| |].
  - intros l [->|Hl]%elem_of_cons; [|by apply Hall]. split_and!; [done|done|]. intros Hx. specialize (Hd Hx). nia.
  - destruct Hmax as [->|(l & Hl & Hx)]; [|right; exists l; split; [by right|done]].
    destruct (Z.min_spec q0 d) as [[? ->]|[? ->]]; [by left|right]. exists leg. split; [by left|]. intros Hx. specialize (Hd Hx). lia.
Qed.

Section phases_exact.
Context {V : Type} `{PricingViewLaws V}.
Context (legs_of : CostResult → list FillSimulationLeg) (set_leg : nat → FillSimulationLeg → CostResult → CostResult).
Context (Hset : ∀ i l r, legs_of (set_leg i l r) = <[i := l]> (legs_of r)).
Context (Hkeep : ∀ i l r, cs_bundle_qty (set_leg i l r) = cs_bundle_qty r ∧ cs_total_cost_tick (set_leg i l r) = cs_total_cost_tick r ∧
  cs_max_leg_slippage_tick (set_leg i l r) = cs_max_leg_slippage_tick r ∧ cs_executable (set_leg i l r) = cs_executable r ∧
  cs_fixed_leg_count (set_leg i l r) = cs_fixed_leg_count r).
Context (Hcong : ∀ r r', cs_legs r = cs_legs r' → cs_fixed_legs r = cs_fixed_legs r' → legs_of r = legs_of r').

(** The capacity recorded with a request is that of its evidence. *)
Definition request_ok (p : LegRequest V * LegCapacity) (v : V) : Prop :=
  lq_view p.1 = Some v ∧ priceable v ∧ 0 < lq_target_qty_lots p.1 ∧
  p.2 = capacity_of (lq_asset_id p.1) (lq_target_qty_lots p.1) (view_depth v) (best_live (bv_asks v))
          (lq_target_qty_lots p.1 <=? view_depth v).

(** A request priced at [q] bundles: its leg, its cost and its slippage. *)
Definition leg_at (q : Z) (p : LegRequest V * LegCapacity) (out : FillSimulationLeg) : FillSimulationLeg :=
  from_option (λ v, filled_leg (lq_asset_id p.1) v (lq_target_qty_lots p.1 * q) out) out (lq_view p.1).
Definition cost_at (q : Z) (p : LegRequest V * LegCapacity) : Z :=
  from_option (λ v, (fill (bv_asks v) (lq_target_qty_lots p.1 * q)).1) 0 (lq_view p.1).
Definition slippage_at (q : Z) (p : LegRequest V * LegCapacity) : Z :=
  from_option (λ v, fill_worst (bv_asks v) (lq_target_qty_lots p.1 * q) 0 -i best_live (bv_asks v)) 0 (lq_view p.1).

(** What pricing the legs from [i] on does to the running result. *)
Record legs_priced (i : nat) (requests : list (LegRequest V * LegCapacity)) (r r' : CostResult) (lots lots' : Z) : Prop := {
  lpd_qty : cs_bundle_qty r' = cs_bundle_qty r;
  lpd_count : cs_fixed_leg_count r' = cs_fixed_leg_count r;
  lpd_total : cs_total_cost_tick r' = cs_total_cost_tick r + sum_list_Z (cost_at (cs_bundle_qty r)) requests;
  lpd_max : cs_total_cost_tick r' <= i64_max;
  lpd_slippage : cs_max_leg_slippage_tick r' =
    foldl (λ m p, Z.max m (slippage_at (cs_bundle_qty r) p)) (cs_max_leg_slippage_tick r) requests;
  lpd_lots : lots <= lots';
  lpd_legs k p : requests !! k = Some p →
    legs_of r' !! (i + k)%nat = Some (leg_at (cs_bundle_qty r) p (legs_of r !!! (i + k)%nat));
  lpd_before k : (k < i)%nat → legs_of r' !! k = legs_of r !! k
}.

Lemma price_leg_ok i request capacity v r r' lots lots' :
  request_ok (request, capacity) v → 0 < cs_bundle_qty r →
  lq_target_qty_lots request * cs_bundle_qty r <= view_depth v → (i < length (legs_of r))%nat →
  price_leg legs_of set_leg i request capacity r lots = inr (r', lots') →
  legs_priced i [(request, capacity)] r r' lots lots' ∧ length (legs_of r') = length (legs_of r) ∧
  (∀ k, (i < k)%nat → legs_of r' !! k = legs_of r !! k).
Proof.
  unfold request_ok; cbn [fst snd]. intros (Hv & Hok & Ht & ->) Hq Hdepth Hi Hr. unfold price_leg in Hr. rewrite Hv in Hr.
  destruct (checked_mul_i64 _ _) as [planned|] eqn:Hm; [|done]. apply checked_mul_i64_Some in Hm as [_ ->].
  destruct (pv_price _ _ _ _) as [reason out] eqn:Hp. case_bool_decide as Hreason; cbn [negb] in Hr; [|done]. subst reason.
  apply pv_price_ok in Hp as (Hcost & ->); [|done|nia].
  destruct (checked_add_i64 _ _) as [total|] eqn:Ha in Hr; [|done]. apply checked_add_i64_Some in Ha as [Hrange ->].
  destruct (checked_add_i64 _ _) as [lots1|] eqn:Hb in Hr; [|done]. apply checked_add_i64_Some in Hb as [_ ->].
  injection Hr as <- <-.
  match goal with |- context [set_leg i ?l ?r2] => destruct (Hkeep i l r2) as (K1 & K2 & K3 & _ & K5); pose proof (Hset i l r2) as K6;
    rewrite (Hcong r2 r eq_refl eq_refl) in K6 end.
  assert (Hone : leg_at (cs_bundle_qty r) (request, capacity_of (lq_asset_id request) (lq_target_qty_lots request) (view_depth v)
     (best_live (bv_asks v)) (lq_target_qty_lots request <=? view_depth v)) (legs_of r !!! i) =
     filled_leg (lq_asset_id request) v (lq_target_qty_lots request * cs_bundle_qty r) (legs_of r !!! i)).
  { unfold leg_at. cbn [fst]. by rewrite Hv. }
  split; [constructor|split].
  - rewrite K1. by destruct r.
  - rewrite K5. by destruct r.
  - rewrite K2. unfold cost_at; cbn. rewrite Hv. cbn. destruct r; cbn. lia.
  - rewrite K2. unfold in_i64 in Hrange. clear K1 K2 K3 K5 K6 Hone. destruct r; cbn in Hrange |- *; lia.
  - rewrite K3. unfold slippage_at; cbn. rewrite Hv. by destruct r.
  - nia.
  - intros [|k] p Hk; cbn in Hk; [|done]. injection Hk as <-. rewrite Nat.add_0_r, K6, list_lookup_insert_eq, Hone by done. done.
  - intros k Hk. by rewrite K6, list_lookup_insert_ne by lia.
  - by rewrite K6, length_insert.
  - intros k Hk. by rewrite K6, list_lookup_insert_ne by lia.
Qed.

Lemma price_legs_ok i requests r r' lots lots' :
  Forall (λ p, ∃ v, request_ok p v ∧ lq_target_qty_lots p.1 * cs_bundle_qty r <= view_depth v) requests →
  0 < cs_bundle_qty r → cs_total_cost_tick r <= i64_max → (i + length requests <= length (legs_of r))%nat →
  price_legs legs_of set_leg i requests r lots = inr (r', lots') →
  legs_priced i requests r r' lots lots'.
Proof.
  intros Hall Hq. revert i r lots Hq Hall.
  induction requests as [|[request capacity] requests IH]; intros i r lots Hq Hall Hmax Hlen Hr; cbn [price_legs length] in *.
  { injection Hr as <- <-. constructor; cbn [sum_list_Z foldl]; (done || lia). }
  apply Forall_cons in Hall as [(v & Hok & Hd) Hall].
  destruct (price_leg _ _ _ _ _ _ _) as [|[r1 lots1]] eqn:E; [done|].
  apply (price_leg_ok i request capacity v) in E as ([Q1 Q2 Q3 Q4 Q5 Q6 Q7 Q8] & Hl & Hafter); [|done..|lia].
  apply IH in Hr as [P1 P2 P3 P4 P5 P6 P7 P8]; [|lia|by rewrite Q1|done|lia].
  cbn [sum_list_Z foldl] in *. rewrite Q1 in *. constructor; cbn [sum_list_Z foldl]; [congruence|congruence|lia|done| |lia| |].
  - by rewrite P5, Q5.
  - intros [|k] p Hk; cbn in Hk.
    + injection Hk as <-. rewrite P8 by lia. by apply Q7.
    + rewrite <- Nat.add_succ_comm. rewrite (P7 k p Hk). do 2 f_equal.
      rewrite !list_lookup_total_alt, Hafter by lia. done.
  - intros k Hk. rewrite P8, Q8 by lia. done.
Qed.

Lemma price_legs_early i requests r lots early : price_legs legs_of set_leg i requests r lots = inl early → cs_executable early = false.
Proof.
  revert i r lots; induction requests as [|[request capacity] requests IH]; intros i r lots Hr; cbn in Hr; [done|].
  destruct (price_leg _ _ _ _ _ _ _) as [e|[r1 lots1]] eqn:E; [|eauto]. injection Hr as ->.
  unfold price_leg in E. repeat case_match; simplify_eq; try done.
  match goal with |- context [set_leg i ?l ?r2] => destruct (Hkeep i l r2) as (_ & _ & _ & -> & _) end. by destruct r.
Qed.

(** What an executable cost says of the legs it was asked for. *)
Record requests_priced (requests : list (LegRequest V * LegCapacity)) (r0 r : CostResult) : Prop := {
  rp_quantity : 0 < cs_bundle_qty r < i64_max;
  rp_fits p v : p ∈ requests → request_ok p v → lq_target_qty_lots p.1 * cs_bundle_qty r <= view_depth v;
  rp_shallowest : ∃ p, p ∈ requests ∧ ∀ v, request_ok p v → view_depth v < lq_target_qty_lots p.1 * (cs_bundle_qty r + 1);
  rp_total : cs_total_cost_tick r = sum_list_Z (cost_at (cs_bundle_qty r)) requests;
  rp_total_range : cs_total_cost_tick r <= i64_max;
  rp_slippage : cs_max_leg_slippage_tick r = foldl (λ m p, Z.max m (slippage_at (cs_bundle_qty r) p)) 0 requests;
  rp_average : cs_avg_cost_tick r = ceil_div_positive (cs_total_cost_tick r) (cs_bundle_qty r);
  rp_count : cs_fixed_leg_count r = cs_fixed_leg_count r0;
  rp_legs k p : requests !! k = Some p → legs_of r !! k = Some (leg_at (cs_bundle_qty r) p (legs_of r0 !!! k))
}.

Lemma price_requests_ok requests r0 :
  (∀ p, p ∈ requests → ∃ v, request_ok p v) → (length requests <= length (legs_of r0))%nat →
  cs_executable r0 = false → cs_total_cost_tick r0 = 0 → cs_max_leg_slippage_tick r0 = 0 →
  cs_executable (price_requests legs_of set_leg requests r0) = true →
  requests_priced requests r0 (price_requests legs_of set_leg requests r0).
Proof.
  intros Hok Hlen Hexec Htot Hslip. unfold price_requests.
  destruct (legs_quantity _ _) as [ok q] eqn:Eq. step_if; [by destruct r0|]. breflect. subst ok.
  apply legs_quantity_ok in Eq as (Hle & Hall & Hmax).
  assert (Hcap : ∀ p v, p ∈ requests → request_ok p v → lp_leg (p.2) ∈ (lp_leg ∘ snd <$> requests) ∧
    fs_requested_qty_lots (lp_leg p.2) = lq_target_qty_lots p.1 ∧ fs_executable_qty_lots (lp_leg p.2) = view_depth v ∧ 0 <= view_depth v).
  { intros p v Hp (_ & _ & _ & E). split_and!; [apply list_elem_of_fmap; by exists p|by rewrite E..|].
    unfold view_depth. pose proof (exact_qty_nonneg (bv_asks v)). lia. }
  assert (Hfits : ∀ p v, p ∈ requests → request_ok p v → lq_target_qty_lots p.1 * q <= view_depth v).
  { intros p v Hp Hv. destruct (Hcap p v Hp Hv) as (Hin & E1 & E2 & ?). destruct (Hall _ Hin) as (_ & _ & Hx). rewrite E1, E2 in Hx. auto. }
  assert (Hshallow : ∃ p, p ∈ requests ∧ ∀ v, request_ok p v → view_depth v < lq_target_qty_lots p.1 * (q + 1)).
  { destruct Hmax as [|(leg & (p & -> & Hp)%list_elem_of_fmap & Hx)]; [done|]. exists p. split; [done|]. intros v Hv.
    destruct (Hcap p v Hp Hv) as (_ & E1 & E2 & ?). cbn in Hx. rewrite E1, E2 in Hx. auto. }
  set (r1 := r0 <| cs_bundle_qty := q |>). assert (Hlegs : legs_of r1 = legs_of r0) by (apply Hcong; by destruct r0).
  assert (R1 : cs_bundle_qty r1 = q ∧ cs_total_cost_tick r1 = 0 ∧ cs_max_leg_slippage_tick r1 = 0 ∧ cs_fixed_leg_count r1 = cs_fixed_leg_count r0)
    by (by destruct r0).
  clearbody r1. destruct R1 as (R1 & R2 & R3 & R4).
  destruct (price_legs _ _ _ _ _ _) as [early|[r lots]] eqn:E.
  { intros Hx. apply price_legs_early in E. congruence. }
  apply price_legs_ok in E as [P1 P2 P3 P4 P5 P6 P7 P8]; [| |lia|lia|by rewrite Hlegs].
  2:{ apply Forall_forall. intros p Hp. destruct (Hok p Hp) as [v Hv]. exists v. split; [done|]. rewrite R1. auto. }
  rewrite R1, R2, R3, R4 in *. step_if; [done|]. intros _.
  match goal with |- requests_priced _ _ ?r' => assert (Hr : legs_of r' = legs_of r) by (by apply Hcong) end.
  constructor; rewrite ?Hr; clear Hr; destruct r; cbn in *; rewrite <- ?Hlegs, ?P1; auto with lia.
  subst. exact P7.
Qed.
End phases_exact.

(** ** Pricing a plan *)

Section plan_exact.
Context {V : Type} `{PricingViewLaws V}.

(** The evidence of leg [i] of a plan. *)
Definition plan_view (plan : BundleRuntimePlan) (views : list V) (i : nat) : option V :=
  pn_asset_ids plan !!! i ≫= λ asset, pv_find views asset (pn_asset_indices plan !!! i).

Lemma plan_capacities_ok plan views i n r r' requests :
  (∀ v, v ∈ views → priceable v) → (i + n <= length (cs_fixed_legs r))%nat →
  plan_capacities plan views i n r = inr (r', requests) →
  length requests = n ∧ length (cs_fixed_legs r') = length (cs_fixed_legs r) ∧
  cs_executable r' = cs_executable r ∧ cs_total_cost_tick r' = cs_total_cost_tick r ∧
  cs_max_leg_slippage_tick r' = cs_max_leg_slippage_tick r ∧
  ((0 < n)%nat → cs_fixed_leg_count r' = (i + n)%nat) ∧
  (∀ k, (k < i)%nat → cs_fixed_legs r' !! k = cs_fixed_legs r !! k) ∧
  (∀ k p, requests !! k = Some p → ∃ v,
     plan_view plan views (i + k) = Some v ∧ pn_executable_sides plan !!! (i + k)%nat = SideAsks ∧ request_ok p v ∧
     pn_asset_ids plan !!! (i + k)%nat = Some (lq_asset_id p.1) ∧ lq_target_qty_lots p.1 = pn_ratio_qty_lots plan !!! (i + k)%nat ∧
     cs_fixed_legs r' !! (i + k)%nat = Some (lp_leg p.2)).
Proof.
  intros Hviews. revert i r requests; induction n as [|n IH]; intros i r requests Hlen Hr; cbn [plan_capacities] in Hr.
  { injection Hr as <- <-. split_and!; (done || lia). }
  destruct (pn_asset_ids plan !!! i) as [asset|] eqn:Ea; [|done].
  destruct (pv_find _ _ _) as [v|] eqn:Ev; [|done].
  destruct (pv_capacity _ _ _ _) as [reason cap] eqn:Ec. case_bool_decide as Hreason; cbn [negb] in Hr; [|done]. subst reason.
  set (r1 := set_fixed_leg i (lp_leg cap) r <| cs_fixed_leg_count := S i |>) in *.
  destruct (plan_capacities plan views (S i) n r1) as [|[r2 reqs]] eqn:E; [done|]. injection Hr as <- <-.
  assert (R1 : cs_fixed_legs r1 = <[i := lp_leg cap]> (cs_fixed_legs r) ∧ cs_executable r1 = cs_executable r ∧
    cs_total_cost_tick r1 = cs_total_cost_tick r ∧ cs_max_leg_slippage_tick r1 = cs_max_leg_slippage_tick r ∧
    cs_fixed_leg_count r1 = S i) by (by destruct r).
  clearbody r1. destruct R1 as (R1 & R2 & R3 & R4 & R5).
  assert (Hn : n = 0%nat → cs_fixed_leg_count r2 = S i) by (intros ->; injection E as <- <-; done).
  apply IH in E as (E1 & E2 & E3 & E4 & E5 & E6 & E7 & E8); [|rewrite R1, length_insert; lia].
  rewrite R1, length_insert in *.
  assert (Hv : priceable v) by (apply Hviews; by eapply pv_find_elem).
  apply pv_capacity_ok in Ec as (Ht & Hside & Hcap); [|done].
  cbn [length]. split_and!; try congruence.
  - intros _. destruct n; [rewrite Hn|rewrite E6]; lia.
  - intros k Hk. rewrite E7, list_lookup_insert_ne by lia. done.
  - intros [|k] p Hp; cbn in Hp; [|rewrite <- Nat.add_succ_comm; by apply E8].
    injection Hp as <-. rewrite Nat.add_0_r. exists v. split_and!; [|done| |done|done|].
    + unfold plan_view. by rewrite Ea.
    + split_and!; done.
    + rewrite E7, list_lookup_insert_eq by lia. done.
Qed.

(** What an executable cost says of a plan and its evidence. *)
Record plan_priced (plan : BundleRuntimePlan) (views : list V) (r : CostResult) : Prop := {
  pp_count : cs_fixed_leg_count r = pn_leg_count plan ∧ (0 < pn_leg_count plan <= kMaxIntentLegs)%nat;
  pp_quantity : 0 < cs_bundle_qty r < i64_max;
  pp_legs i : (i < pn_leg_count plan)%nat → ∃ asset v,
    pn_asset_ids plan !!! i = Some asset ∧ plan_view plan views i = Some v ∧
    pn_executable_sides plan !!! i = SideAsks ∧ 0 < pn_ratio_qty_lots plan !!! i ∧
    pn_ratio_qty_lots plan !!! i * cs_bundle_qty r <= view_depth v ∧
    cs_fixed_legs r !!! i = filled_leg asset v (pn_ratio_qty_lots plan !!! i * cs_bundle_qty r)
      (lp_leg (capacity_of asset (pn_ratio_qty_lots plan !!! i) (view_depth v) 0 true));
  pp_shallowest : ∃ i v, (i < pn_leg_count plan)%nat ∧ plan_view plan views i = Some v ∧
    view_depth v < pn_ratio_qty_lots plan !!! i * (cs_bundle_qty r + 1);
  pp_total : cs_total_cost_tick r = sum_list_Z fs_total_cost_tick (take (pn_leg_count plan) (cs_fixed_legs r)) ∧
    cs_total_cost_tick r <= i64_max;
  pp_average : cs_bundle_qty r * (cs_avg_cost_tick r - 1) < cs_total_cost_tick r <= cs_bundle_qty r * cs_avg_cost_tick r
}.

Lemma ceil_div_positive_bounds n d :
  0 < d <= i64_max → 0 <= n <= i64_max → d * (ceil_div_positive n d - 1) < n <= d * ceil_div_positive n d.
Proof.
  intros Hd Hn. unfold ceil_div_positive. rewrite (proj2 (Z.leb_gt _ _)), Z.quot_div_nonneg by lia. cbv zeta.
  assert (0 <= (n + d - 1) / d <= n) by (split; [apply Z.div_pos; lia|apply Z.lt_succ_r, Z.div_lt_upper_bound; nia]).
  rewrite (proj2 (Z.ltb_ge _ _)), wrap_i64_id by rlia.
  pose proof (Z.div_mod (n + d - 1) d ltac:(lia)). pose proof (Z.mod_pos_bound (n + d - 1) d ltac:(lia)). nia.
Qed.

Lemma sum_list_Z_pointwise {A B} (f : A → Z) (g : B → Z) l1 l2 :
  length l1 = length l2 → (∀ k x y, l1 !! k = Some x → l2 !! k = Some y → f x = g y) → sum_list_Z f l1 = sum_list_Z g l2.
Proof.
  revert l2; induction l1 as [|x l1 IH]; intros [|y l2] Hl Hp; cbn in *; try done; try lia.
  rewrite (Hp 0%nat x y), (IH l2) by (done || lia || (intros k; apply (Hp (S k)))). done.
Qed.

Lemma plan_capacities_early plan views i n r early :
  cs_executable r = false → plan_capacities plan views i n r = inl early → cs_executable early = false.
Proof.
  revert i r; induction n as [|n IH]; intros i r He Hr; cbn [plan_capacities] in Hr; [done|].
  destruct (pn_asset_ids plan !!! i) as [asset|]; [|by simplify_eq]. destruct (pv_find _ _ _) as [v|]; [|by simplify_eq].
  destruct (pv_capacity _ _ _ _) as [reason cap]. case_bool_decide; cbn [negb] in Hr; [|simplify_eq; by destruct r].
  destruct (plan_capacities _ _ _ _ _) as [e|[? ?]] eqn:E; simplify_eq. eapply IH; [|done]. by destruct r.
Qed.

(** C23. An executable cost of a plan is exact, on snapshots and on depth
    views alike: every leg buys positive lots against evidence that was found
    for it; the bundle quantity is the largest that every leg's depth allows;
    each leg's cost, average and worst price are those of filling its
    [ratio * quantity] lots greedily; the total is the sum of the legs' costs
    without overflow, and the average cost is it divided by the quantity,
    rounded up. *)
Theorem plan_cost_exact plan views_ok views :
  (∀ v, v ∈ views → priceable v) →
  cs_executable (price_runtime_plan plan views_ok views) = true →
  plan_priced plan views (price_runtime_plan plan views_ok views).
Proof.
  intros Hviews. unfold price_runtime_plan.
  step_if; [done|]. breflect.
  destruct (plan_capacities _ _ _ _ _) as [early|[r0 requests]] eqn:E.
  { intros Hx. apply plan_capacities_early in E; [congruence|done]. }
  assert (Hn : length (cs_fixed_legs cost_result0) = kMaxIntentLegs) by done.
  apply plan_capacities_ok in E as (E1 & E2 & E3 & E4 & E5 & E6 & _ & E8); [|done|rewrite Hn; unfold kMaxIntentLegs in *; lia].
  rewrite Hn in E2. cbn in E3, E4, E5, E8.
  intros Hx. assert (Hreq : ∀ p, p ∈ requests → ∃ v, request_ok p v).
  { intros p [k Hk]%list_elem_of_lookup. destruct (E8 k p Hk) as (v & _ & _ & Hv & _). eauto. }
  apply (price_requests_ok cs_fixed_legs set_fixed_leg) in Hx as [P1 P2 P3 P4 P5 P6 P7 P8 P9]; [ |done|by intros ?? []|done|done|lia|done..].
  set (r := price_requests _ _ _ _) in *. clearbody r.
  assert (Hleg : ∀ i, (i < pn_leg_count plan)%nat → ∃ p v, requests !! i = Some p ∧ request_ok p v ∧
    plan_view plan views i = Some v ∧ pn_executable_sides plan !!! i = SideAsks ∧
    pn_asset_ids plan !!! i = Some (lq_asset_id p.1) ∧ lq_target_qty_lots p.1 = pn_ratio_qty_lots plan !!! i ∧
    cs_fixed_legs r !! i = Some (leg_at (cs_bundle_qty r) p (lp_leg p.2))).
  { intros i Hi. destruct (lookup_lt_is_Some_2 requests i ltac:(lia)) as [p Hp].
    destruct (E8 i p Hp) as (v & F1 & F2 & F3 & F4 & F5 & F6). exists p, v. split_and!; try done.
    rewrite (P9 i p Hp). by rewrite list_lookup_total_alt, F6. }
  constructor.
  - rewrite P8, E6; lia.
  - done.
  - intros i Hi. destruct (Hleg i Hi) as (p & v & Hp & Hv & F1 & F2 & F3 & F4 & F5).
    pose proof (P2 p v (list_elem_of_lookup_2 _ _ _ Hp) Hv). destruct Hv as (G1 & G2 & G3 & G4).
    exists (lq_asset_id p.1), v. rewrite <- F4. split_and!; try done.
    rewrite list_lookup_total_alt, F5. cbn. unfold leg_at. rewrite G1, G4. done.
  - destruct P3 as (p & [i Hi]%list_elem_of_lookup & Hp). pose proof (lookup_lt_Some _ _ _ Hi).
    destruct (Hleg i ltac:(lia)) as (p' & v & Hp' & Hv & F1 & F2 & F3 & F4 & F5). simplify_eq.
    exists i, v. rewrite <- F4. split_and!; [lia|done|auto].
  - split; [|done]. rewrite P4. apply sum_list_Z_pointwise.
    { rewrite length_take, E1. destruct (Hleg (pn_leg_count plan - 1)%nat ltac:(lia)) as (? & ? & _ & _ & _ & _ & _ & _ & F5).
      apply lookup_lt_Some in F5. lia. }
    intros k p l Hp Hl. pose proof (lookup_lt_Some _ _ _ Hp).
    destruct (Hleg k ltac:(lia)) as (p' & v & Hp' & (G & _) & F1 & F2 & F3 & F4 & F5). simplify_eq.
    rewrite lookup_take_lt in Hl by lia. simplify_eq. unfold cost_at, leg_at. by rewrite G.
  - rewrite P7. apply ceil_div_positive_bounds; [lia|]. split; [|lia]. rewrite P4. apply sum_list_Z_nonneg.
    intros p Hp. destruct (Hreq p Hp) as (v & G1 & _ & G3 & _). unfold cost_at. rewrite G1. apply fill_cost_nonneg. nia.
Qed.
End plan_exact.

(** ** Snapshots and depth views price alike *)

(** A snapshot as the publisher builds it, with a depth that fits in 64 bits. *)
Record book_wf (s : MarketStateSnapshot) : Prop := {
  bw_length : length (ms_asks s) = kMaxSnapshotDepth;
  bw_count : (ms_ask_count s <= kMaxSnapshotDepth)%nat;
  bw_has_ask : ms_has_ask s = negb (ms_ask_count s =? 0)%nat;
  bw_sorted : asks_sorted (take (ms_ask_count s) (ms_asks s));
  bw_depth : exact_qty (take (ms_ask_count s) (ms_asks s)) <= i64_max
}.

Section views_agree.
Context (s : MarketStateSnapshot) (index : Z) (Hwf : book_wf s).
Let v := market_depth_view_from_snapshot s index.

Lemma view_asks : dv_ask_count v = ms_ask_count s ∧ length (dv_asks v) = kMaxSnapshotDepth ∧
  take (ms_ask_count s) (dv_asks v) = take (ms_ask_count s) (ms_asks s) ∧
  dv_prefix v = build_depth_prefix (dv_bids v) (dv_bid_count v) (dv_asks v) (ms_ask_count s).
Proof.
  destruct Hwf as [Hlen Hcnt _ _ _]. unfold v, market_depth_view_from_snapshot. cbn [dv_ask_count dv_asks dv_prefix dv_bids dv_bid_count].
  rewrite (Nat.min_l _ _ Hcnt). split_and!; [done|apply (length_std_array kMaxSnapshotDepth)| |done].
  unfold std_array. rewrite take_app_le by (rewrite !length_take; lia). rewrite !take_take. f_equal. lia.
Qed.

Lemma capacity_agrees asset target side : calculate_buy_capacity_depth asset target side (Some v) = calculate_buy_capacity_snapshot asset target side (Some s).
Proof.
  destruct view_asks as (Hc & Hl & Ht & Hp). destruct Hwf as [Hlen Hcnt Hhas Hsort Hdepth].
  unfold calculate_buy_capacity_depth, calculate_buy_capacity_snapshot.
  do 2 (step_if; [done|]). rewrite Hc, Hhas. destruct (Nat.eqb_spec (ms_ask_count s) 0) as [|Hn]; [done|]. cbn [negb orb].
  rewrite Hp, prefix_ask_count, (proj2 (Nat.ltb_lt _ _)) by lia.
  unfold ask_depth_from_prefix. rewrite prefix_ask_count, (proj2 (Nat.eqb_neq _ _)) by lia.
  rewrite prefix_last, best_ask_prefix, Ht by (done || lia). rewrite (Nat.min_l _ _ Hcnt), Z.min_r by done. unfold walk_capacity.
  destruct (capacity_loop_spec (take (ms_ask_count s) (ms_asks s)) 0 0 ltac:(lia)) as [-> _]; [|done]. by rewrite Z.add_0_l.
Qed.

Lemma price_agrees asset quantity out :
  quantity <= i64_max → (0 < ms_ask_count s)%nat → price_buy_leg_depth asset (Some v) quantity out = price_buy_leg_snapshot asset (Some s) quantity out.
Proof.
  intros Hq Hn. destruct view_asks as (Hc & Hl & Ht & Hp). destruct Hwf as [Hlen Hcnt Hhas Hsort Hdepth].
  unfold price_buy_leg_depth, price_buy_leg_snapshot. destruct (Z.leb_spec quantity 0); [done|].
  rewrite Hp, prefix_ask_count, (proj2 (Nat.ltb_lt _ _)) by lia. rewrite Hc, (Nat.min_l _ _ Hcnt).
  pose proof (buy_vwap_prefix_linear (dv_bids v) (dv_bid_count v) (dv_asks v) (ms_ask_count s) quantity Hl ltac:(lia) ltac:(lia)) as E.
  rewrite Ht in E. specialize (E Hsort Hdepth). cbv zeta in E. destruct E as [Eok E].
  assert (Hlin : buy_vwap_linear (Some (dv_asks v)) (ms_ask_count s) quantity = buy_vwap_linear (Some (ms_asks s)) (ms_ask_count s) quantity).
  { rewrite !buy_vwap_linear_spec, Ht by (done || lia). done. }
  rewrite Hlin in *. unfold priced_leg. rewrite Eok.
  destruct (vm_ok (buy_vwap_linear _ _ _)) eqn:Ev; [|done]. destruct (E Eok) as [-> _]. done.
Qed.
End views_agree.

(** Requests that only differ in the kind of their evidence. *)
Record same_request {V W} `{PricingView V, PricingView W} (p : LegRequest V * LegCapacity) (p' : LegRequest W * LegCapacity) : Prop := {
  sq_asset : lq_asset_id p.1 = lq_asset_id p'.1;
  sq_target : lq_target_qty_lots p.1 = lq_target_qty_lots p'.1;
  sq_capacity : p.2 = p'.2;
  sq_price quantity out : quantity <= i64_max →
    pv_price (lq_asset_id p.1) (lq_view p.1) quantity out = pv_price (lq_asset_id p'.1) (lq_view p'.1) quantity out
}.

Section same_requests.
Context {V W : Type} `{PricingView V, PricingView W}.
Context (legs_of : CostResult → list FillSimulationLeg) (set_leg : nat → FillSimulationLeg → CostResult → CostResult).

Lemma price_legs_same i (l1 : list (LegRequest V * LegCapacity)) (l2 : list (LegRequest W * LegCapacity)) r lots :
  Forall2 same_request l1 l2 → price_legs legs_of set_leg i l1 r lots = price_legs legs_of set_leg i l2 r lots.
Proof.
  intros Hall. revert i r lots. induction Hall as [|[q1 c1] [q2 c2] l1 l2 [Ha Ht Hc Hp] _ IH]; intros i r lots; cbn [price_legs fst snd] in *; [done|].
  assert (price_leg legs_of set_leg i q1 c1 r lots = price_leg legs_of set_leg i q2 c2 r lots) as ->.
  { unfold price_leg. rewrite Ht. destruct (checked_mul_i64 _ _) as [planned|] eqn:E; [|done].
    apply checked_mul_i64_Some in E as [? ->]. by rewrite Hp, Hc by rlia. }
  destruct (price_leg _ _ _ _ _ _ _) as [|[r1 lots1]]; [done|apply IH].
Qed.

Lemma price_requests_same (l1 : list (LegRequest V * LegCapacity)) (l2 : list (LegRequest W * LegCapacity)) r :
  Forall2 same_request l1 l2 → price_requests legs_of set_leg l1 r = price_requests legs_of set_leg l2 r.
Proof.
  intros Hall. unfold price_requests.
  assert ((lp_leg ∘ snd <$> l1) = (lp_leg ∘ snd <$> l2)) as ->.
  { induction Hall as [|? ? ? ? [_ _ Hc _] _ IH]; cbn; [done|]. by rewrite Hc, IH. }
  destruct (legs_quantity _ _) as [ok q]. step_if; [done|]. by rewrite (price_legs_same _ l1 l2).
Qed.
End same_requests.

(** The evidence of a plan read as snapshots and as depth views. *)
Definition same_evidence (plan : BundleRuntimePlan) (snapshots : list MarketStateSnapshot) (views : list MarketDepthView) : Prop :=
  ∀ i asset, pn_asset_ids plan !!! i = Some asset →
    depth_for_asset views (pn_asset_indices plan !!! i) =
    (λ s, market_depth_view_from_snapshot s (pn_asset_indices plan !!! i)) <$> snapshot_for_asset snapshots asset.

Lemma plan_capacities_same plan snapshots views i n r :
  same_evidence plan snapshots views → (∀ s, s ∈ snapshots → book_wf s) →
  match plan_capacities plan snapshots i n r, plan_capacities plan views i n r with
  | inl early, inl early' => early = early'
  | inr (r1, l1), inr (r2, l2) => r1 = r2 ∧ Forall2 same_request l1 l2
  | _, _ => False
  end.
Proof.
  intros Hsame Hwf. revert i r; induction n as [|n IH]; intros i r; cbn [plan_capacities]; [by split|].
  destruct (pn_asset_ids plan !!! i) as [asset|] eqn:Ea; [|done]. cbn [pv_find snapshot_pricing depth_pricing].
  rewrite (Hsame i asset Ea). destruct (snapshot_for_asset snapshots asset) as [s|] eqn:Es; cbn [fmap option_fmap option_map]; [|done].
  assert (Hs : book_wf s) by (apply Hwf; by eapply list_find_elem). cbn [pv_capacity snapshot_pricing depth_pricing].
  rewrite (capacity_agrees s _ Hs). destruct (calculate_buy_capacity_snapshot _ _ _ _) as [reason cap] eqn:Ec.
  case_bool_decide as Hr; cbn [negb]; [|done]. subst reason.
  specialize (IH (S i) (set_fixed_leg i (lp_leg cap) r <| cs_fixed_leg_count := S i |>)).
  destruct (plan_capacities plan snapshots _ _ _) as [|[r1 l1]], (plan_capacities plan views _ _ _) as [|[r2 l2]]; try done.
  destruct IH as [-> Hall]. split; [done|]. constructor; [|done]. constructor; try done.
  intros quantity out Hq. cbn. symmetry. apply price_agrees; [done..|].
  unfold calculate_buy_capacity_snapshot in Ec. step_if_in Ec; [done|]. step_if_in Ec; [done|]. step_if_in Ec; [done|]. breflect. lia.
Qed.

(** Pricing a plan on depth views is pricing it on the snapshots the
    views were taken from: when every leg finds the same book either way and
    the books are as the publisher builds them (asks in price order, a depth
    that fits in 64 bits), the prefix-based evaluation returns the same
    [CostResult] as the walk over the levels, failures included. *)
Theorem plan_pricing_equivalent plan views_ok snapshots views :
  same_evidence plan snapshots views → (∀ s, s ∈ snapshots → book_wf s) →
  price_runtime_plan plan views_ok views = price_runtime_plan plan views_ok snapshots.
Proof.
  intros Hsame Hwf. unfold price_runtime_plan. step_if; [done|].
  pose proof (plan_capacities_same plan snapshots views 0 (pn_leg_count plan) cost_result0 Hsame Hwf) as E.
  destruct (plan_capacities plan snapshots _ _ _) as [|[r1 l1]], (plan_capacities plan views _ _ _) as [|[r2 l2]]; try done.
  destruct E as [-> Hall]. symmetry. by apply price_requests_same.
Qed.

(** ** The edge of a cost *)

(** An edge passes exactly when its cost is executable and it meets the four
    thresholds, the unit edge against the larger of the configuration's and
    the bundle's; it is then the exact payout less cost, fee and buffers, and
    its total is that times the quantity. *)
Lemma edge_passed_exact calculator bundle cost config :
  eb_passed (calculate_edge calculator bundle cost config) = true →
  let e := calculate_edge calculator bundle cost config in
  cs_executable cost = true ∧ 0 < cs_bundle_qty cost ∧ eb_failure_reason e = EfNone ∧
  eb_bundle_qty e = cs_bundle_qty cost ∧ sc_min_bundle_qty config <= eb_bundle_qty e ∧
  eb_unit_edge_tick e = cb_guaranteed_payout_tick bundle - cs_avg_cost_tick cost - estimate_fee_tick calculator -
    estimate_latency_buffer_tick calculator - estimate_slippage_buffer_tick calculator config ∧
  eb_total_edge_tick e = eb_unit_edge_tick e * cs_bundle_qty cost ∧
  sc_min_unit_edge_tick config <= eb_unit_edge_tick e ∧ cb_min_edge_tick bundle <= eb_unit_edge_tick e ∧
  sc_min_total_edge_tick config <= eb_total_edge_tick e ∧ sc_min_edge_bps config <= eb_edge_bps e.
Proof.
  unfold calculate_edge. destruct (cs_executable cost); cbn [negb orb]; [|done].
  destruct (Z.leb_spec (cs_bundle_qty cost) 0); [done|].
  cbn [eb_guaranteed_payout_per_bundle_tick eb_vwap_cost_per_bundle_tick eb_fee_per_bundle_tick
       eb_latency_buffer_per_bundle_tick eb_slippage_buffer_per_bundle_tick eb_bundle_qty].
  destruct (compute_edge _) as [ok u t b] eqn:E. cbn [er_ok er_unit_edge_tick er_total_edge_tick er_edge_bps].
  destruct ok; cbn [negb]; [|done].
  unfold compute_edge in E. cbn [em_guaranteed_payout_tick em_total_cost_tick em_fee_tick em_latency_buffer_tick em_slippage_buffer_tick em_bundle_qty] in E.
  destruct (checked_sub_i64 _ _) as [v|] eqn:Ev; [|done]. apply checked_sub_i64_Some in Ev as [_ ->].
  destruct (checked_sub_chain _ _) as [w okc] eqn:Ec. destruct okc; cbn [negb] in E; [|done].
  apply checked_sub_chain_true in Ec. cbn [sum_list_Z] in Ec.
  destruct (checked_mul_i64 _ _) as [total|] eqn:Em; [|done]. apply checked_mul_i64_Some in Em as [_ ->]. injection E as <- <- <-.
  match goal with |- context [edge_verdict config bundle ?o] => set (out := o) end.
  destruct (edge_verdict config bundle out) eqn:Ed; try done. intros _. cbn. unfold edge_verdict in Ed. cbn in Ed.
  repeat (step_if_in Ed; [done|]). breflect. split_and!; (done || lia).
Qed.

(** ** Witnesses *)

Definition demo_bundle : CandidateBundle :=
  candidate_bundle0 <| cb_bundle_id := 3 |> <| cb_guaranteed_payout_tick := 1500000 |> <| cb_leg_count := 1%nat |>
    <| cb_legs := std_array kMaxBundleLegs bundle_leg0 [mkBundleLeg "m1" "yes" Buy 3 1000000] |>.

Definition demo_plan : BundleRuntimePlan :=
  plan0 <| pn_bundle := Some demo_bundle |> <| pn_bundle_id := 3 |> <| pn_leg_count := 1%nat |> <| pn_unique_asset_count := 1%nat |>
    <| pn_market_ids ::= <[0%nat := Some "m1"%string]> |> <| pn_asset_ids ::= <[0%nat := Some "yes"%string]> |>
    <| pn_asset_indices ::= <[0%nat := 7]> |> <| pn_executable_sides ::= <[0%nat := SideAsks]> |>
    <| pn_ratio_qty_lots ::= <[0%nat := 3]> |> <| pn_unique_asset_ids ::= <[0%nat := Some "yes"%string]> |>
    <| pn_unique_asset_indices ::= <[0%nat := 7]> |> <| pn_guaranteed_payout_tick := 1500000 |>.

Lemma demo_snapshot_wf : book_wf demo_snapshot.
Proof. constructor; try (vm_compute; congruence); [vm_compute; lia|]. repeat constructor; vm_compute; congruence. Qed.

Lemma demo_priceable s : s ∈ [demo_snapshot] → priceable s.
Proof.
  intros ->%list_elem_of_singleton. split; [exact I|].
  apply (bw_sorted _ demo_snapshot_wf).
Qed.

Lemma plan_cost_exact_witness :
  let r := price_runtime_plan demo_plan true [demo_snapshot] in
  cs_bundle_qty r = 5 ∧ cs_total_cost_tick r = 6250000 ∧
  cs_bundle_qty r * (cs_avg_cost_tick r - 1) < cs_total_cost_tick r <= cs_bundle_qty r * cs_avg_cost_tick r.
Proof.
  assert (Hx : cs_executable (price_runtime_plan demo_plan true [demo_snapshot]) = true) by (vm_compute; reflexivity).
  destruct (plan_cost_exact demo_plan true [demo_snapshot] demo_priceable Hx) as [_ _ _ _ _ Havg].
  split; [vm_compute; reflexivity|]. split; [vm_compute; reflexivity|exact Havg].
Defined.

Lemma demo_same_evidence : same_evidence demo_plan [demo_snapshot] [market_depth_view_from_snapshot demo_snapshot 7].
Proof.
  intros [|i] asset H.
  - assert (asset = "yes"%string) as -> by (cbn in H; congruence). vm_compute. reflexivity.
  - change (replicate 15 (@None string) !!! i = Some asset) in H. rewrite list_lookup_total_alt in H.
    destruct (replicate 15 None !! i) eqn:E; [apply lookup_replicate in E as [-> _]|]; done.
Qed.

Lemma plan_pricing_equivalent_witness :
  let views := [market_depth_view_from_snapshot demo_snapshot 7] in
  price_runtime_plan demo_plan true views = price_runtime_plan demo_plan true [demo_snapshot] ∧
  cs_total_cost_tick (price_runtime_plan demo_plan true views) = 6250000.
Proof.
  split; [|vm_compute; reflexivity].
  apply (plan_pricing_equivalent demo_plan true [demo_snapshot] _ demo_same_evidence).
  intros s Hs. apply list_elem_of_singleton in Hs. subst s. exact demo_snapshot_wf.
Defined.
