(* ===== verification/SignalReader.v ===== *)
(** * SignalReader: the evidence the signal engine accepts

    [engine/signal/reader].  A reader copies the published books of the assets
    of a bundle or a plan and the consistency guard decides whether they may be
    priced: every asset present, every book in a good state and recent, their
    versions close together.  The guard exists twice, for snapshots and for
    depth views, with different tests; the last section reads the books of the
    market state ([MarketView]). *)

From S2P Require Import Prelude Hashing Doubles Depth RiskTypes Bundles SignalTypes SignalPricing Reprice OrderedMap EntityStore MarketSnapshot MarketShard MarketView.
#[local] Open Scope Z_scope.

#[local] Arguments constant {_} _ _ /.

(** ** Staleness *)

(** [engine/signal/reader/LOBStalenessChecker.cpp:7-18] age_ns. *)
Definition book_age_ns (last_book_update_ns now_ns : Z) : Z :=
  if (last_book_update_ns =? 0) || (now_ns =? 0) then 0
  else if now_ns <? last_book_update_ns then u64_max
  else now_ns - last_book_update_ns.

(** [engine/signal/reader/LOBStalenessChecker.cpp:20-29] is_stale. *)
Definition is_stale (snapshot : MarketStateSnapshot) (now_ns max_age_ns : Z) : bool :=
  if (ms_last_book_update_ns snapshot =? 0) || (now_ns =? 0) || (max_age_ns <? 0) then false
  else max_age_ns <? book_age_ns (ms_last_book_update_ns snapshot) now_ns.

(** ** The consistency guard *)

(** [engine/signal/reader/SnapshotConsistencyGuard.h:14-19] SnapshotConsistencyResult. *)
Record SnapshotConsistencyResult := mkConsistency {
  ry_ok : bool;
  ry_rejection_status : IntentStatus;
  ry_error : string;
  ry_version : SnapshotVersion
}.

(** [engine/signal/reader/SnapshotConsistencyGuard.cpp:30-41] reject. *)
Definition guard_reject (status : IntentStatus) (error : string) (version : SnapshotVersion) : SnapshotConsistencyResult :=
  mkConsistency false status error version.

(** [engine/signal/reader/SnapshotConsistencyGuard.cpp:43-52] quality_rejects. *)
Definition quality_rejects (snapshot : MarketStateSnapshot) : bool :=
  match ms_quality snapshot with
  | BqStale | BqRecovering | BqCrossed | BqClosed | BqResolved => true
  | _ => false
  end.

(** [engine/signal/reader/SnapshotConsistencyGuard.cpp:54-60] evidence_hash. *)
Definition evidence_hash (snapshot : MarketStateSnapshot) : Z :=
  if negb (ms_snapshot_version_hash snapshot =? 0) then ms_snapshot_version_hash snapshot else ms_state_hash snapshot.

(** [engine/signal/reader/SnapshotConsistencyGuard.cpp:72-81] make_version, the hash of one snapshot. *)
Definition mix_snapshot (hash : Z) (s : MarketStateSnapshot) : Z :=
  let hash := mix_string hash (ms_entity_id s) in
  let hash := mix_u64 hash (ms_version s) in
  let hash := mix_u64 hash (evidence_hash s) in
  mix_u64 hash (ms_last_book_update_ns s).

(** [engine/signal/reader/SnapshotConsistencyGuard.cpp:100-109] make_version, the hash of one depth view. *)
Definition mix_depth_view (hash : Z) (v : MarketDepthView) : Z :=
  let hash := mix_u64 hash (dv_asset_index v) in
  let hash := mix_u64 hash (dv_book_version v) in
  let hash := mix_u64 hash (dv_snapshot_version_hash v) in
  mix_u64 hash (dv_last_ws_recv_ns v).

(** What the guard reads of a piece of evidence, and the first test it fails. *)
Class GuardView (V : Type) := {
  gv_version : V → Z;
  gv_mix : Z → V → Z;
  gv_update_ns : V → Z;
  gv_defect : SignalConfig → Z → V → option (IntentStatus * string);
  gv_missing : string;
  gv_differ : string;
  gv_skew : string
}.

Section guard.
Context {V : Type} `{GuardView V}.

(** [engine/signal/reader/SnapshotConsistencyGuard.cpp:62-88] make_version on snapshots; the overload on
    depth views has the same body. *)
Definition make_version (views : list V) (now_ns : Z) : SnapshotVersion :=
  mkSnapshotVersion
    (match views with [] => 0 | _ => foldl (λ m v, Z.min m (gv_version v)) u64_max views end)
    (foldl (λ m v, Z.max m (gv_version v)) 0 views)
    (foldl gv_mix fnv_offset views)
    now_ns.

(** The loop of [check]: the first defect of the first defective view. *)
Fixpoint first_defect (config : SignalConfig) (now_ns : Z) (views : list V) : option (IntentStatus * string) :=
  match views with
  | [] => None
  | v :: rest =>
      match gv_defect config now_ns v with
      | Some defect => Some defect
      | None => first_defect config now_ns rest
      end
  end.

(** [engine/signal/reader/SnapshotConsistencyGuard.cpp:202-223] check, the skew of the versions. *)
Definition check_skew (config : SignalConfig) (version : SnapshotVersion) : SnapshotConsistencyResult :=
  let skew := wrap_u64 (sv_max_book_version version - sv_min_book_version version) in
  match sc_consistency_mode config with
  | StrictSameVersion =>
      if negb (skew =? 0) then guard_reject IsRejectedBadMarketState gv_differ version
      else mkConsistency true IsCandidateOnly "" version
  | BoundedSkew =>
      if sc_max_snapshot_version_skew config <? skew then guard_reject IsRejectedBadMarketState gv_skew version
      else mkConsistency true IsCandidateOnly "" version
  end.

Definition guard_check (views : list V) (now_ns : Z) (config : SignalConfig) : SnapshotConsistencyResult :=
  let version := make_version views now_ns in
  match views with
  | [] => guard_reject IsRejectedMissingSnapshot gv_missing version
  | _ =>
      match first_defect config now_ns views with
      | Some (status, error) => guard_reject status error version
      | None => check_skew config version
      end
  end.

(** [engine/signal/reader/SnapshotBatchReader.cpp:76-89] guard_now_ns on snapshots; the overload on depth
    views and that of MarketSnapshotReader.cpp have the same body. *)
Definition guard_now_ns (views : list V) (requested_now_ns : Z) : Z :=
  if negb (requested_now_ns =? 0) then requested_now_ns
  else foldl (λ now v, Z.max now (gv_update_ns v)) 0 views.
End guard.

(** [engine/signal/reader/SnapshotConsistencyGuard.cpp:135-200] check, one snapshot. *)
Definition snapshot_defect (config : SignalConfig) (now_ns : Z) (s : MarketStateSnapshot) : option (IntentStatus * string) :=
  let bad text := Some (IsRejectedBadMarketState, (text ++ ms_entity_id s)%string) in
  if String.eqb (ms_entity_id s) "" then Some (IsRejectedMissingSnapshot, "snapshot missing entity id"%string)
  else if ms_recovering s then bad "snapshot recovering: "%string
  else if ms_crossed s then bad "snapshot crossed: "%string
  else if ms_closed s then bad "snapshot closed: "%string
  else if ms_resolved s then bad "snapshot resolved: "%string
  else if quality_rejects s then bad "bad snapshot quality: "%string
  else if sc_require_usable_for_depth config && negb (ms_usable_for_depth s) then bad "snapshot not usable for depth: "%string
  else if sc_require_usable_for_signal config && negb (ms_usable_for_signal s) then bad "snapshot not usable for signal: "%string
  else if is_stale s now_ns (sc_max_lob_age_ns config) then bad "snapshot stale: "%string
  else None.

(** [engine/signal/reader/SnapshotConsistencyGuard.cpp:241-296] check, one depth view; the age is cast to [std::int64_t]. *)
Definition depth_view_defect (config : SignalConfig) (now_ns : Z) (v : MarketDepthView) : option (IntentStatus * string) :=
  let bad text := Some (IsRejectedBadMarketState, text) in
  let timed := negb (dv_last_ws_recv_ns v =? 0) && negb (now_ns =? 0) in
  if dv_recovering v then bad "depth view recovering"%string
  else if dv_crossed v then bad "depth view crossed"%string
  else if dv_closed v then bad "depth view closed"%string
  else if dv_resolved v then bad "depth view resolved"%string
  else if sc_require_usable_for_depth config && negb (dv_usable_for_depth v) then bad "depth view not usable for depth"%string
  else if timed && (now_ns <? dv_last_ws_recv_ns v) then bad "depth view invalid timestamp"%string
  else
    let age_ns := if timed then wrap_i64 (now_ns - dv_last_ws_recv_ns v) else 0 in
    if timed && (0 <=? sc_max_lob_age_ns config) && (sc_max_lob_age_ns config <? age_ns) then bad "depth view stale"%string
    else None.

#[export] Instance snapshot_guard : GuardView MarketStateSnapshot := {
  gv_version := ms_version;
  gv_mix := mix_snapshot;
  gv_update_ns := ms_last_book_update_ns;
  gv_defect := snapshot_defect;
  gv_missing := "missing snapshot";
  gv_differ := "snapshot versions differ";
  gv_skew := "snapshot version skew too large"
}.

#[export] Instance depth_guard : GuardView MarketDepthView := {
  gv_version := dv_book_version;
  gv_mix := mix_depth_view;
  gv_update_ns := dv_last_ws_recv_ns;
  gv_defect := depth_view_defect;
  gv_missing := "missing depth view";
  gv_differ := "depth view versions differ";
  gv_skew := "depth view version skew too large"
}.

(** [engine/signal/reader/SnapshotConsistencyGuard.cpp:120-224] check on snapshots. *)
Definition check_snapshots : list MarketStateSnapshot → Z → SignalConfig → SnapshotConsistencyResult := guard_check.

(** [engine/signal/reader/SnapshotConsistencyGuard.cpp:226-320] check on depth views. *)
Definition check_depth_views : list MarketDepthView → Z → SignalConfig → SnapshotConsistencyResult := guard_check.

(** ** The evidence of a bundle and of a plan *)

(** [engine/signal/reader/MarketSnapshotReader.h:16-26] SnapshotReadResult. *)
Record SnapshotReadResult := mkSnapshotRead {
  sr_ok : bool;
  sr_rejection_status : IntentStatus;
  sr_error : string;
  sr_snapshot_version : SnapshotVersion;
  sr_snapshots : list MarketStateSnapshot
}.

(** [engine/signal/reader/MarketSnapshotReader.cpp:15-28] reject. *)
Definition reject_snapshots (status : IntentStatus) (error : string) (version : SnapshotVersion) : SnapshotReadResult :=
  mkSnapshotRead false status error version [].

(** [engine/signal/reader/SnapshotBatchReader.cpp:23-35] reject. *)
Definition reject_batch (status : IntentStatus) (error : string) (version : SnapshotVersion) : SnapshotBatchReadResult :=
  mkSnapshotBatch false status error version [].

(** [engine/signal/reader/SnapshotBatchReader.cpp:37-50] reject_depth. *)
Definition reject_depth (status : IntentStatus) (error : string) (version : SnapshotVersion) : DepthReadResult :=
  mkDepthRead false status error version (sv_combined_hash version) [].

(** [engine/signal/reader/MarketSnapshotReader.cpp:40-56] unique_bundle_assets: the assets in order of first appearance. *)
Fixpoint unique_assets (legs : list BundleLeg) (seen : gset string) : list string :=
  match legs with
  | [] => []
  | leg :: rest =>
      let asset_id := bl_asset_id leg in
      if String.eqb asset_id "" || bool_decide (asset_id ∈ seen) then unique_assets rest seen
      else asset_id :: unique_assets rest ({[asset_id]} ∪ seen)
  end.
Definition unique_bundle_assets (bundle : CandidateBundle) : list string := unique_assets (bundle_legs bundle) ∅.

(** [engine/signal/reader/MarketSnapshotReader.cpp:75-126] validate_bundle_snapshots. *)
Definition validate_bundle_snapshots (bundle : CandidateBundle) (config : SignalConfig) (snapshots : list MarketStateSnapshot)
    (now_ns : Z) : SnapshotReadResult :=
  let required_assets := unique_bundle_assets bundle in
  if (length snapshots <? length required_assets)%nat then
    reject_snapshots IsRejectedMissingSnapshot "missing bundle snapshot" snapshot_version0
  else
    match list_find (λ asset_id, asset_id ∉ ms_entity_id <$> snapshots) required_assets with
    | Some (_, asset_id) =>
        reject_snapshots IsRejectedMissingSnapshot ("missing snapshot for asset: " ++ asset_id)%string snapshot_version0
    | None =>
        let guard_result := check_snapshots snapshots (guard_now_ns snapshots now_ns) config in
        if negb (ry_ok guard_result) then
          reject_snapshots (ry_rejection_status guard_result) (ry_error guard_result) (ry_version guard_result)
        else mkSnapshotRead true IsCandidateOnly "" (ry_version guard_result) snapshots
    end.

(** [engine/signal/reader/SnapshotBatchReader.cpp:52-62] has_snapshot_for_asset. *)
Definition has_snapshot_for_asset (snapshots : list MarketStateSnapshot) (asset_id : string) : bool :=
  existsb (λ s, String.eqb (ms_entity_id s) asset_id) snapshots.

(** [engine/signal/reader/SnapshotBatchReader.cpp:64-74] has_depth_for_asset_index. *)
Definition has_depth_for_asset_index (views : list MarketDepthView) (asset_index : Z) : bool :=
  existsb (λ v, dv_asset_index v =? asset_index) views.

(** [engine/signal/reader/SnapshotBatchReader.cpp:127-136] validate_plan_snapshots, the first asset without a snapshot. *)
Fixpoint missing_snapshot (snapshots : list MarketStateSnapshot) (assets : list (option string)) : option string :=
  match assets with
  | [] => None
  | Some asset_id :: rest =>
      if has_snapshot_for_asset snapshots asset_id then missing_snapshot snapshots rest
      else Some ("missing snapshot for asset: " ++ asset_id)%string
  | None :: _ => Some "missing snapshot for asset"%string
  end.

(** [engine/signal/reader/SnapshotBatchReader.cpp:108-162] validate_plan_snapshots. *)
Definition validate_plan_snapshots (plan : BundleRuntimePlan) (config : SignalConfig) (snapshots : list MarketStateSnapshot)
    (now_ns : Z) : SnapshotBatchReadResult :=
  if (length snapshots <? pn_unique_asset_count plan)%nat then
    reject_batch IsRejectedMissingSnapshot "missing bundle snapshot" snapshot_version0
  else
    match missing_snapshot snapshots (take (pn_unique_asset_count plan) (pn_unique_asset_ids plan)) with
    | Some error => reject_batch IsRejectedMissingSnapshot error snapshot_version0
    | None =>
        let guard_result := check_snapshots snapshots (guard_now_ns snapshots now_ns) config in
        if negb (ry_ok guard_result) then
          reject_batch (ry_rejection_status guard_result) (ry_error guard_result) (ry_version guard_result)
        else mkSnapshotBatch true IsCandidateOnly "" (ry_version guard_result) snapshots
    end.

(** [engine/signal/reader/SnapshotBatchReader.cpp:164-222] validate_plan_depth_views. *)
Definition validate_plan_depth_views (plan : BundleRuntimePlan) (config : SignalConfig) (depth_views : list MarketDepthView)
    (now_ns : Z) : DepthReadResult :=
  if (length depth_views <? pn_unique_asset_count plan)%nat then
    reject_depth IsRejectedMissingSnapshot "missing bundle depth view" snapshot_version0
  else if negb (forallb (has_depth_for_asset_index depth_views) (take (pn_unique_asset_count plan) (pn_unique_asset_indices plan))) then
    reject_depth IsRejectedMissingSnapshot "missing depth view for asset" snapshot_version0
  else
    let guard_result := check_depth_views depth_views (guard_now_ns depth_views now_ns) config in
    if negb (ry_ok guard_result) then
      reject_depth (ry_rejection_status guard_result) (ry_error guard_result) (ry_version guard_result)
    else mkDepthRead true IsCandidateOnly "" (ry_version guard_result) (sv_combined_hash (ry_version guard_result)) depth_views.

(** ** Reading the market state *)

(** [engine/signal/reader/MarketStateViewSnapshotReader.cpp:20-30] read_for_bundle, the loop over the legs. *)
Fixpoint read_legs (st : MarketStateStore) (legs : list BundleLeg) (seen : gset string) : list MarketStateSnapshot :=
  match legs with
  | [] => []
  | leg :: rest =>
      if bool_decide (bl_asset_id leg ∈ seen) then read_legs st rest seen
      else
        let snapshot := view_snapshot st (bl_asset_id leg) kMaxSnapshotDepth in
        let rest := read_legs st rest ({[bl_asset_id leg]} ∪ seen) in
        if qr_ok snapshot then qr_value snapshot :: rest else rest
  end.

(** [engine/signal/reader/MarketStateViewSnapshotReader.cpp:13-33] read_for_bundle. *)
Definition read_for_bundle (st : MarketStateStore) (bundle : CandidateBundle) (config : SignalConfig) (now_ns : Z) : SnapshotReadResult :=
  validate_bundle_snapshots bundle config (read_legs st (bundle_legs bundle) ∅) now_ns.

(** [engine/signal/reader/MarketStateViewSnapshotReader.cpp:35-57] read_for_plan. *)
Definition read_for_plan (st : MarketStateStore) (plan : BundleRuntimePlan) (config : SignalConfig) (now_ns : Z) : SnapshotBatchReadResult :=
  let snapshots := store_snapshots st (take (pn_unique_asset_count plan) (pn_unique_asset_ids plan)) kMaxIntentLegs in
  validate_plan_snapshots plan config snapshots now_ns.

(** [engine/signal/reader/MarketStateViewSnapshotReader.cpp:59-86] read_depth_for_plan. *)
Definition read_depth_for_plan (st : MarketStateStore) (plan : BundleRuntimePlan) (config : SignalConfig) (now_ns : Z) : DepthReadResult :=
  let depth_views := store_depth_views st (take (pn_unique_asset_count plan) (pn_unique_asset_ids plan))
    (take (pn_unique_asset_count plan) (pn_unique_asset_indices plan)) kMaxIntentLegs in
  validate_plan_depth_views plan config depth_views now_ns.

(** ** What the guard accepts *)

(** The freshness both guards ask for, when the book and the clock carry a time. *)
Definition fresh (config : SignalConfig) (now_ns update_ns : Z) : Prop :=
  update_ns ≠ 0 → now_ns ≠ 0 → 0 <= sc_max_lob_age_ns config →
  update_ns <= now_ns ∧ now_ns - update_ns <= sc_max_lob_age_ns config.

Record snapshot_good (config : SignalConfig) (now_ns : Z) (s : MarketStateSnapshot) : Prop := {
  sg_named : ms_entity_id s ≠ "";
  sg_state : ms_recovering s = false ∧ ms_crossed s = false ∧ ms_closed s = false ∧ ms_resolved s = false;
  sg_quality : quality_rejects s = false;
  sg_depth : sc_require_usable_for_depth config = true → ms_usable_for_depth s = true;
  sg_signal : sc_require_usable_for_signal config = true → ms_usable_for_signal s = true;
  sg_fresh : fresh config now_ns (ms_last_book_update_ns s)
}.

Record depth_good (config : SignalConfig) (now_ns : Z) (v : MarketDepthView) : Prop := {
  dg_state : dv_recovering v = false ∧ dv_crossed v = false ∧ dv_closed v = false ∧ dv_resolved v = false;
  dg_depth : sc_require_usable_for_depth config = true → dv_usable_for_depth v = true;
  dg_fresh : fresh config now_ns (dv_last_ws_recv_ns v)
}.

Lemma snapshot_defect_none config now_ns s :
  in_i64 (sc_max_lob_age_ns config) → snapshot_defect config now_ns s = None → snapshot_good config now_ns s.
Proof.
  intros Hage. unfold snapshot_defect, is_stale, book_age_ns.
  destruct (String.eqb_spec (ms_entity_id s) ""); [done|].
  destruct (ms_recovering s) eqn:H1; [done|]. destruct (ms_crossed s) eqn:H2; [done|].
  destruct (ms_closed s) eqn:H3; [done|]. destruct (ms_resolved s) eqn:H4; [done|].
  destruct (quality_rejects s) eqn:H5; [done|].
  destruct (sc_require_usable_for_depth config && negb (ms_usable_for_depth s)) eqn:H6; [done|].
  destruct (sc_require_usable_for_signal config && negb (ms_usable_for_signal s)) eqn:H7; [done|].
  intros H8. constructor; try done.
  - intros Hd. rewrite Hd in H6. by apply negb_false_iff in H6.
  - intros Hd. rewrite Hd in H7. by apply negb_false_iff in H7.
  - intros Hu Hn Hm. ranges. rewrite (proj2 (Z.eqb_neq _ _) Hu), (proj2 (Z.eqb_neq _ _) Hn), (proj2 (Z.ltb_ge _ _) Hm) in H8. cbn [orb] in H8.
    destruct (Z.ltb_spec now_ns (ms_last_book_update_ns s)); step_if_in H8; try done; breflect; lia.
Qed.

Lemma depth_view_defect_none config now_ns v :
  now_ns - dv_last_ws_recv_ns v < 2 ^ 63 → depth_view_defect config now_ns v = None → depth_good config now_ns v.
Proof.
  intros Hrange. unfold depth_view_defect.
  destruct (dv_recovering v) eqn:H1; [done|]. destruct (dv_crossed v) eqn:H2; [done|].
  destruct (dv_closed v) eqn:H3; [done|]. destruct (dv_resolved v) eqn:H4; [done|].
  destruct (sc_require_usable_for_depth config && negb (dv_usable_for_depth v)) eqn:H5; [done|].
  intros H6. constructor; try done.
  - intros Hd. rewrite Hd in H5. by apply negb_false_iff in H5.
  - intros Hu Hn Hm. rewrite (proj2 (Z.eqb_neq _ _) Hu), (proj2 (Z.eqb_neq _ _) Hn), (proj2 (Z.leb_le _ _) Hm) in H6. cbn [negb andb] in H6.
    destruct (Z.ltb_spec now_ns (dv_last_ws_recv_ns v)); [done|].
    rewrite wrap_i64_id in H6 by (unfold in_i64; lia). step_if_in H6; [done|]. breflect. lia.
Qed.

Section guard_accepts.
Context {V : Type} `{GuardView V}.

Lemma first_defect_none config now_ns (views : list V) :
  first_defect config now_ns views = None → ∀ v, v ∈ views → gv_defect config now_ns v = None.
Proof.
  induction views as [|v views IH]; cbn [first_defect]; intros Hf w Hw; [set_solver|].
  destruct (gv_defect config now_ns v) eqn:E; [done|]. apply elem_of_cons in Hw as [->|Hw]; auto.
Qed.

Lemma foldl_min_le {A} (f : A → Z) l m : foldl (λ m v, Z.min m (f v)) m l <= m ∧ ∀ v, v ∈ l → foldl (λ m v, Z.min m (f v)) m l <= f v.
Proof.
  revert m; induction l as [|x l IH]; intros m; cbn; [split; [lia|set_solver]|].
  destruct (IH (Z.min m (f x))) as [H1 H2]. split; [lia|]. intros v [->|Hv]%elem_of_cons; [lia|auto].
Qed.

Lemma foldl_max_ge {A} (f : A → Z) l m : m <= foldl (λ m v, Z.max m (f v)) m l ∧ ∀ v, v ∈ l → f v <= foldl (λ m v, Z.max m (f v)) m l.
Proof.
  revert m; induction l as [|x l IH]; intros m; cbn; [split; [lia|set_solver]|].
  destruct (IH (Z.max m (f x))) as [H1 H2]. split; [lia|]. intros v [->|Hv]%elem_of_cons; [lia|auto].
Qed.

Lemma foldl_min_ge {A} (f : A → Z) l m b : b <= m → (∀ v, v ∈ l → b <= f v) → b <= foldl (λ m v, Z.min m (f v)) m l.
Proof. revert m; induction l as [|x l IH]; intros m Hm Hf; cbn; [done|]. apply IH; [|set_solver]. pose proof (Hf x ltac:(left)). lia. Qed.

Lemma foldl_max_le {A} (f : A → Z) l m b : m <= b → (∀ v, v ∈ l → f v <= b) → foldl (λ m v, Z.max m (f v)) m l <= b.
Proof. revert m; induction l as [|x l IH]; intros m Hm Hf; cbn; [done|]. apply IH; [|set_solver]. pose proof (Hf x ltac:(left)). lia. Qed.

(** The versions the configuration lets two views differ by. *)
Definition allowed_skew (config : SignalConfig) : Z :=
  match sc_consistency_mode config with StrictSameVersion => 0 | BoundedSkew => sc_max_snapshot_version_skew config end.

Lemma guard_check_ok views now_ns config :
  (∀ v, v ∈ views → in_u64 (gv_version v)) → ry_ok (guard_check views now_ns config) = true →
  views ≠ [] ∧ ry_version (guard_check views now_ns config) = make_version views now_ns ∧
  (∀ v, v ∈ views → gv_defect config now_ns v = None) ∧
  (∀ v w, v ∈ views → w ∈ views → gv_version v - gv_version w <= allowed_skew config).
Proof.
  intros Hrange. unfold guard_check. destruct views as [|v0 views]; [done|].
  destruct (first_defect config now_ns (v0 :: views)) as [[status error]|] eqn:Ed; [done|].
  intros Hok. split; [done|].
  destruct (foldl_min_le gv_version (v0 :: views) u64_max) as [_ Hmin]. destruct (foldl_max_ge gv_version (v0 :: views) 0) as [Hmax0 Hmax].
  pose proof (Hrange v0 ltac:(left)) as Hr0. pose proof (Hmin v0 ltac:(left)) as Hmin0. pose proof (Hmax v0 ltac:(left)) as Hmax1.
  set (version := make_version (v0 :: views) now_ns) in *.
  change (foldl _ u64_max (v0 :: views)) with (sv_min_book_version version) in *.
  change (foldl _ 0 (v0 :: views)) with (sv_max_book_version version) in *.
  assert (Hb : 0 <= sv_min_book_version version ∧ sv_max_book_version version <= u64_max).
  { split; [apply foldl_min_ge|apply foldl_max_le]; try lia; intros v Hv; destruct (Hrange v Hv); lia. }
  unfold check_skew in *. rewrite wrap_u64_id in * by (ranges; lia). unfold allowed_skew.
  destruct (sc_consistency_mode config); step_if_in Hok; try done; breflect; (split; [done|]);
    (split; [by apply first_defect_none|]); intros v w Hv Hw; specialize (Hmax v Hv); specialize (Hmin w Hw); lia.
Qed.
End guard_accepts.

(** ** From the feed to the evidence *)

#[local] Arguments published : simpl never.
#[local] Arguments build_snapshot : simpl never.

(** A depth view that is read is the view of the snapshot that is read. *)
Lemma shard_buffers_ok event sh :
  routed event → map_Forall (λ _, buffer_ok) (sh_snapshot_publisher sh) →
  map_Forall (λ _, buffer_ok) (sh_snapshot_publisher (shard_apply event sh).2).
Proof.
  intros Hr Hok. pose proof (apply_to_writer_step event sh Hr) as Hstep. unfold shard_apply.
  destruct (apply_to_writer event sh) as [r1 sh1]. destruct Hstep as [Hpub _ _ _ _ _ _].
  pose proof (apply_quality_spec (asset_id_for_event event) r1 sh1) as Hq.
  destruct (apply_quality _ r1 sh1) as [r2 sh2]. destruct Hq as (_ & _ & Hp2 & _).
  pose proof (apply_fingerprint_spec (asset_id_for_event event) r2 sh2) as Hf.
  destruct (apply_fingerprint _ r2 sh2) as [r3 sh3]. destruct Hf as (_ & _ & Hp3 & _).
  assert (H3 : map_Forall (λ _, buffer_ok) (sh_snapshot_publisher sh3)) by (by rewrite Hp3, Hp2, Hpub).
  destruct (negb _); [done|]. destruct (String.eqb _ _); [done|]. unfold publish_asset_snapshot.
  destruct (store_get _ _); [|done]. destruct sh3. by apply publish_snapshot_ok.
Qed.

Lemma run_shard_buffers_ok events sh :
  Forall routed events → map_Forall (λ _, buffer_ok) (sh_snapshot_publisher sh) →
  map_Forall (λ _, buffer_ok) (sh_snapshot_publisher (run_shard events sh)).
Proof.
  intros Hr. revert sh. induction Hr as [|ev events Hr _ IH]; intros sh Hok; [done|].
  apply IH. by apply shard_buffers_ok.
Qed.

Lemma read_depth_many_elem p ids idxs max v :
  v ∈ read_depth_many p ids idxs max → ∃ k id slot, ids !! k = Some (Some id) ∧ published_slot p (Some id) = Some slot ∧
    v = ((sl_depth_view slot) <| dv_asset_index := default 0 (idxs !! k) |>).
Proof.
  unfold read_depth_many. intros Hv. apply elem_of_take in Hv as (j & Hj & _). apply list_elem_of_lookup_2 in Hj.
  apply list_elem_of_omap in Hj as ([k o] & Hk & Hs). apply elem_of_lookup_imap in Hk as (k' & o' & [= <- <-] & Hk).
  cbn [fst snd] in Hs. destruct o as [id|]; [|done].
  destruct (published_slot p (Some id)) as [slot|] eqn:E; [|done]. cbn [fmap option_fmap option_map] in Hs.
  injection Hs as <-. eauto 10.
Qed.

(** What a depth view says about the book of an entity: it is open, and its asks are the first levels of the book. *)
Record depth_shows (v : MarketDepthView) (e : EntityState) : Prop := {
  ds_open : en_closed e = false;
  ds_uncrossed : ob_crossed (en_book e) = false;
  ds_recovered : en_recovering e = false;
  ds_asks : take (dv_ask_count v) (dv_asks v) = make_price_level <$> take kMaxSnapshotDepth (ob_asks (en_book e));
  ds_prefix : bv_wf v
}.

Lemma view_depth_shows s e index config now_ns :
  shows_book s e → depth_good config now_ns (market_depth_view_from_snapshot s index) →
  depth_shows (market_depth_view_from_snapshot s index) e.
Proof.
  intros [_ Hclosed Hrec Hcross _ _ _ _ _ Hcnt _ Hasks] [(G1 & G2 & G3 & _) _ _]. cbn in G1, G2, G3.
  rewrite G3 in Hclosed. rewrite G1 in Hrec. rewrite G2 in Hcross.
  symmetry in Hclosed, Hrec. apply orb_false_iff in Hclosed as [Hclosed _]. apply orb_false_iff in Hrec as [Hrec _].
  constructor; [done|done|done| |apply market_depth_view_wf].
  unfold market_depth_view_from_snapshot. cbn [dv_ask_count dv_asks]. rewrite Hasks, Hcnt. unfold snapshot_levels.
  set (l := take kMaxSnapshotDepth (ob_asks (en_book e))). assert (Hl : (length l <= kMaxSnapshotDepth)%nat) by (unfold l; rewrite length_take; lia).
  rewrite Nat.min_l by done. unfold std_array.
  rewrite (take_ge (make_price_level <$> l)) by (by rewrite length_fmap).
  rewrite !take_app_le by (rewrite ?length_take, ?length_app, ?length_fmap; lia). rewrite !take_take.
  rewrite !take_ge by (rewrite length_fmap; lia). done.
Qed.

(** C24. The evidence of a plan is the live market: after any market events
    that agree about their asset, a depth read the guard accepts contains for
    every asset of the plan, under its index, a view of the order book the
    asset has now, open, uncrossed, not recovering and recent; its levels are
    the first levels of that book; and no two of the views differ by more
    versions than the configuration allows. *)
Theorem accepted_depth_current config events plan sconfig now_ns :
  Forall routed events →
  NoDup (take (pn_unique_asset_count plan) (pn_unique_asset_indices plan)) →
  (pn_unique_asset_count plan <= length (pn_unique_asset_indices plan))%nat →
  let st := run_market events (market_store0 config) in
  let r := read_depth_for_plan st plan sconfig now_ns in
  (∀ v, v ∈ rv_depth_views r → in_u64 (dv_book_version v) ∧ now_ns - dv_last_ws_recv_ns v < 2 ^ 63) →
  now_ns ≠ 0 → rv_ok r = true →
  (∀ i asset index, (i < pn_unique_asset_count plan)%nat → pn_unique_asset_ids plan !! i = Some (Some asset) →
     pn_unique_asset_indices plan !! i = Some index → asset ≠ "" →
     ∃ v e, depth_for_asset (rv_depth_views r) index = Some v ∧
       store_get (sh_book_store (shard_of st asset)) asset = Some e ∧ depth_shows v e ∧ depth_good sconfig now_ns v) ∧
  (∀ v w, v ∈ rv_depth_views r → w ∈ rv_depth_views r → dv_book_version v - dv_book_version w <= allowed_skew sconfig).
Proof.
  intros Hrouted Hnd Hlen st r. unfold r, read_depth_for_plan, validate_plan_depth_views.
  set (ids := take _ (pn_unique_asset_ids plan)). set (idxs := take _ (pn_unique_asset_indices plan)) in *.
  set (views := store_depth_views st ids idxs kMaxIntentLegs). clear r.
  step_if; [done|]. step_if; [done|]. step_if; [done|]. cbn [rv_depth_views]. breflect. intros Hrange Hnow _.
  unfold guard_now_ns in *. rewrite (proj2 (Z.eqb_neq _ _) Hnow) in *. cbn [negb] in *.
  apply guard_check_ok in Hb1 as (_ & _ & Hdef & Hskew); [|intros v Hv; by apply Hrange].
  split; [|done]. intros i asset index Hi Hasset Hindex Hne.
  assert (Hsh : shard_of st "" = run_shard events (shard0 0 config) ∧ shard_of st asset = run_shard events (shard0 0 config))
    by (split; apply run_market_shard). destruct Hsh as [Hsh0 Hsh].
  pose proof (run_shard_buffers_ok events (shard0 0 config) Hrouted (map_Forall_empty _)) as Hbuf.
  rewrite forallb_true_elem in Hb0.
  assert (Hidx : idxs !! i = Some index) by (unfold idxs; by rewrite lookup_take_lt).
  specialize (Hb0 index (list_elem_of_lookup_2 _ _ _ Hidx)). unfold has_depth_for_asset_index in Hb0.
  destruct (depth_for_asset views index) as [v|] eqn:Ev.
  2:{ exfalso. unfold depth_for_asset in Ev. destruct (list_find _ views) as [[? ?]|] eqn:El; [done|].
      apply list_find_None in El. apply existsb_exists in Hb0 as (w & Hw & E). rewrite Forall_forall in El.
      apply (El w); [by apply list_elem_of_In|by apply Z.eqb_eq]. }
  assert (Hv : v ∈ views ∧ dv_asset_index v = index).
  { unfold depth_for_asset in Ev. destruct (list_find _ views) as [[? w]|] eqn:El; [|done]. cbn in Ev. injection Ev as ->.
    apply list_find_Some in El as (Hw & ? & _). split; [by eapply list_elem_of_lookup_2|done]. }
  destruct Hv as [Hv Hvi]. pose proof (depth_view_defect_none _ _ _ (proj2 (Hrange v Hv)) (Hdef v Hv)) as Hgood.
  pose proof Hv as Hel. unfold views, store_depth_views in Hel. rewrite Hsh0 in Hel.
  apply read_depth_many_elem in Hel as (k & id & slot & Hk & Hslot & Heq).
  assert (Hik : k = i ∧ id = asset).
  { assert (k = i) as ->; [|split; [done|]; unfold ids in Hk; rewrite lookup_take_lt in Hk by done; congruence].
    assert (Hkl : (k < pn_unique_asset_count plan)%nat).
    { apply lookup_lt_Some in Hk. unfold ids in Hk. rewrite length_take in Hk. lia. }
    destruct (lookup_lt_is_Some_2 idxs k) as [index' Hk']; [unfold idxs; rewrite length_take; lia|].
    apply (NoDup_lookup idxs _ _ index Hnd); [|done]. rewrite Hk'. f_equal. rewrite <- Hvi, Heq, Hk'. by destruct slot as [? []]. }
  destruct Hik as [-> ->]. rewrite Hidx in Heq. cbn [default from_option id] in Heq.
  pose proof (sk_current _ (run_shard_ok _ _ Hrouted (shard0_ok 0 config)) asset Hne) as Hcur. unfold current, published in Hcur.
  rewrite Hslot in Hcur. cbn [fmap option_fmap option_map] in Hcur. rewrite Hsh.
  destruct (store_get (sh_book_store (run_shard events (shard0 0 config))) asset) as [e|] eqn:He; [|done].
  cbn [fmap option_fmap option_map] in Hcur. apply (inj Some) in Hcur. exists v, e. split; [done|]. split; [done|]. split; [|done].
  assert (Hview : v = market_depth_view_from_snapshot (sl_snapshot slot) index).
  { rewrite Heq. unfold published_slot in Hslot. cbn in Hslot. destruct (sh_snapshot_publisher _ !! asset) as [b|] eqn:Eb; [|done].
    destruct (Hbuf asset b Eb) as [Hpub Hdv]. cbn in Hslot. rewrite Hpub in Hslot. injection Hslot as <-. rewrite Hdv. done. }
  rewrite Hview in Hgood |- *. eapply view_depth_shows; [|done].
  eapply due_shows_book; [|done]. by apply (market_entity_ok events config asset).
Qed.

Definition plan_a : BundleRuntimePlan :=
  demo_plan <| pn_asset_ids ::= <[0%nat := Some "a"%string]> |> <| pn_unique_asset_ids ::= <[0%nat := Some "a"%string]> |>.

Lemma accepted_depth_current_witness :
  let st := run_market (take 2 sample_events) (market_store0 runtime_config0) in
  let r := read_depth_for_plan st plan_a signal_config0 3000 in
  ∃ v e, depth_for_asset (rv_depth_views r) 7 = Some v ∧ store_get (sh_book_store (shard_of st "a")) "a" = Some e ∧
    depth_shows v e ∧ depth_good signal_config0 3000 v.
Proof.
  assert (Hr : Forall routed (take 2 sample_events)).
  { repeat (apply Forall_cons; split; [first [apply feed_event_routed; cbn; auto|by apply fill_event_routed]|]). by apply Forall_nil. }
  assert (Hnd : NoDup (take (pn_unique_asset_count plan_a) (pn_unique_asset_indices plan_a))) by (vm_compute; repeat constructor; set_solver).
  set (st := run_market (take 2 sample_events) (market_store0 runtime_config0)).
  assert (Hviews : ∀ v, v ∈ rv_depth_views (read_depth_for_plan st plan_a signal_config0 3000) →
    in_u64 (dv_book_version v) ∧ 3000 - dv_last_ws_recv_ns v < 2 ^ 63).
  { intros v Hv.
    assert (H : forallb (λ v, (0 <=? dv_book_version v) && (dv_book_version v <=? u64_max) && (3000 - dv_last_ws_recv_ns v <? 2 ^ 63))
      (rv_depth_views (read_depth_for_plan st plan_a signal_config0 3000)) = true) by (vm_compute; reflexivity).
    rewrite forallb_true_elem in H. specialize (H v Hv). cbn beta in H. breflect. split; [split|]; lia. }
  destruct (accepted_depth_current runtime_config0 (take 2 sample_events) plan_a signal_config0 3000 Hr Hnd
    ltac:(vm_compute; lia) Hviews ltac:(lia) ltac:(vm_compute; reflexivity)) as [H _].
  exact (H 0%nat "a"%string 7 ltac:(vm_compute; lia) eq_refl eq_refl ltac:(congruence)).
Defined.

(** The guard on depth views does not look at [require_usable_for_signal], nor at the quality of the book. *)
Lemma depth_guard_ignores_signal_flag config flag views now_ns :
  check_depth_views views now_ns (config <| sc_require_usable_for_signal := flag |>) = check_depth_views views now_ns config.
Proof.
  unfold check_depth_views, guard_check. destruct views as [|v views]; [done|].
  assert (H : ∀ l : list MarketDepthView, first_defect (config <| sc_require_usable_for_signal := flag |>) now_ns l = first_defect config now_ns l).
  { induction l as [|w l IH]; cbn [first_defect]; [done|]. by rewrite IH; destruct config. }
  rewrite H. by destruct config.
Qed.

(** A stale snapshot the guard refuses passes as a depth view. *)
Example stale_quality_as_depth_view :
  let s := demo_snapshot <| ms_quality := BqStale |> in
  ry_ok (check_snapshots [s] 700 signal_config0) = false ∧
  ry_ok (check_depth_views [market_depth_view_from_snapshot s 7] 700 signal_config0) = true.
Proof. by vm_compute. Qed.
