(* ===== verification/BundleCodec.v ===== *)
(** * BundleCodec: candidate bundles as bytes

    The oracle compiler writes the bundles of an artifact with the [append_*]
    functions of [oracle/tools/verify_oracle_workflow.cpp], the signal engine
    reads them back with the [ByteReader] of
    [engine/signal/reader/OracleArtifactReader.cpp].  Numbers are little-endian;
    a [std::byte] is an [ascii]; a reader is the bytes from its offset on.  A
    codec is a writer and a reader with two laws, each the inverse of the
    other; they compose, up to the whole file. *)

From Stdlib Require Import Ascii.
From S2P Require Import Prelude Hashing RiskTypes Bundles.
#[local] Open Scope Z_scope.

#[local] Arguments constant {_} _ _ /.

(** ** Writing *)

(** A byte from the low eight bits of a number, and its value. *)
Definition byte_of (value : Z) : ascii := ascii_of_N (Z.to_N (Z.land value 255)).
Definition byte_value (byte : ascii) : Z := Z.of_N (N_of_ascii byte).

(** The loop over the shifts of an integer of [n] bytes. *)
Fixpoint append_le (n : nat) (shift value : Z) : list ascii :=
  match n with
  | O => []
  | S n => byte_of (Z.shiftr value shift) :: append_le n (shift + 8) value
  end.

(** [oracle/tools/verify_oracle_workflow.cpp:180-182] append_u8. *)
Definition append_u8 (value : Z) : list ascii := [byte_of value].

(** [oracle/tools/verify_oracle_workflow.cpp:184-188] append_u32. *)
Definition append_u32 (value : Z) : list ascii := append_le 4 0 value.

(** [oracle/tools/verify_oracle_workflow.cpp:194-198] append_u64. *)
Definition append_u64 (value : Z) : list ascii := append_le 8 0 value.

(** [oracle/tools/verify_oracle_workflow.cpp:200-202] append_i64. *)
Definition append_i64 (value : Z) : list ascii := append_u64 (wrap_u64 value).

(** [oracle/tools/verify_oracle_workflow.cpp:204-209] append_string; the size is cast to [std::uint32_t]. *)
Definition append_string (value : string) : list ascii :=
  append_u32 (Z.of_nat (String.length value) mod 2 ^ 32) ++ String.list_ascii_of_string value.

(** [oracle/tools/verify_oracle_workflow.cpp:344-349] serialize_candidate_bundles, one leg. *)
Definition append_leg (leg : BundleLeg) : list ascii :=
  append_string (bl_market_id leg) ++ append_string (bl_asset_id leg) ++ append_u8 (side_value (bl_side leg)) ++
  append_i64 (bl_quantity_lots leg) ++ append_i64 (bl_max_price_tick leg).

(** [oracle/tools/verify_oracle_workflow.cpp:336-350] serialize_candidate_bundles, one bundle. *)
Definition append_bundle (bundle : CandidateBundle) : list ascii :=
  append_u64 (cb_bundle_id bundle) ++ append_u64 (cb_required_true_mask bundle) ++ append_u64 (cb_required_false_mask bundle) ++
  append_u64 (cb_invalid_mask bundle) ++ append_i64 (cb_guaranteed_payout_tick bundle) ++
  append_u32 (Z.of_nat (cb_leg_count bundle)) ++ append_i64 (cb_min_edge_tick bundle) ++
  concat (append_leg <$> bundle_legs bundle).

(** [oracle/tools/verify_oracle_workflow.cpp:330-353] serialize_candidate_bundles. *)
Definition serialize_candidate_bundles (bundles : list CandidateBundle) : list ascii :=
  append_u32 (Z.of_nat (length bundles) mod 2 ^ 32) ++ concat (append_bundle <$> bundles).

(** ** Reading *)

(** The loop over the shifts of an integer of [n] bytes. *)
Fixpoint read_le (n : nat) (shift value : Z) (bytes : list ascii) : option (Z * list ascii) :=
  match n with
  | O => Some (value, bytes)
  | S n =>
      match bytes with
      | [] => None
      | byte :: bytes => read_le n (shift + 8) (Z.lor value (Z.shiftl (byte_value byte) shift)) bytes
      end
  end.

(** [engine/signal/reader/OracleArtifactReader.cpp:43-50] read_u8. *)
Definition read_u8 (bytes : list ascii) : option (Z * list ascii) :=
  match bytes with [] => None | byte :: bytes => Some (byte_value byte, bytes) end.

(** [engine/signal/reader/OracleArtifactReader.cpp:52-65] read_u32. *)
Definition read_u32 (bytes : list ascii) : option (Z * list ascii) := read_le 4 0 0 bytes.

(** [engine/signal/reader/OracleArtifactReader.cpp:67-80] read_u64. *)
Definition read_u64 (bytes : list ascii) : option (Z * list ascii) := read_le 8 0 0 bytes.

(** [engine/signal/reader/OracleArtifactReader.cpp:82-89] read_i64. *)
Definition read_i64 (bytes : list ascii) : option (Z * list ascii) :=
  '(value, bytes) ← read_u64 bytes; Some (wrap_i64 value, bytes).

(** [engine/signal/reader/OracleArtifactReader.cpp:91-105] read_string. *)
Definition read_string (bytes : list ascii) : option (string * list ascii) :=
  '(size, bytes) ← read_u32 bytes;
  if (length bytes <? Z.to_nat size)%nat then None
  else Some (String.string_of_list_ascii (take (Z.to_nat size) bytes), drop (Z.to_nat size) bytes).

(** The fields of a leg before the test on its side, and those of a bundle before the test on its legs. *)
Definition read_leg_fields (bytes : list ascii) : option (string * string * Z * Z * Z * list ascii) :=
  '(market_id, bytes) ← read_string bytes;
  '(asset_id, bytes) ← read_string bytes;
  '(side, bytes) ← read_u8 bytes;
  '(quantity_lots, bytes) ← read_i64 bytes;
  '(max_price_tick, bytes) ← read_i64 bytes;
  Some (market_id, asset_id, side, quantity_lots, max_price_tick, bytes).

(** [engine/signal/reader/OracleArtifactReader.cpp:142-156] read_binary_bundle, one leg. *)
Definition read_leg (bytes : list ascii) : string + BundleLeg * list ascii :=
  match read_leg_fields bytes with
  | None => inl "truncated candidate bundle leg"%string
  | Some (market_id, asset_id, side, quantity_lots, max_price_tick, bytes) =>
      if 1 <? side then inl "invalid candidate bundle side"%string
      else inr (mkBundleLeg market_id asset_id (if side =? 0 then Buy else Sell) quantity_lots max_price_tick, bytes)
  end.

(** A loop that reads [n] elements and stops at the first error. *)
Fixpoint read_many {A} (read : list ascii → string + A * list ascii) (n : nat) (bytes : list ascii) : string + list A * list ascii :=
  match n with
  | O => inr ([], bytes)
  | S n =>
      match read bytes with
      | inl error => inl error
      | inr (x, bytes) =>
          match read_many read n bytes with
          | inl error => inl error
          | inr (xs, bytes) => inr (x :: xs, bytes)
          end
      end
  end.

Definition read_bundle_fields (bytes : list ascii) : option (Z * Z * Z * Z * Z * Z * Z * list ascii) :=
  '(bundle_id, bytes) ← read_u64 bytes;
  '(required_true_mask, bytes) ← read_u64 bytes;
  '(required_false_mask, bytes) ← read_u64 bytes;
  '(invalid_mask, bytes) ← read_u64 bytes;
  '(guaranteed_payout_tick, bytes) ← read_i64 bytes;
  '(leg_count, bytes) ← read_u32 bytes;
  '(min_edge_tick, bytes) ← read_i64 bytes;
  Some (bundle_id, required_true_mask, required_false_mask, invalid_mask, guaranteed_payout_tick, leg_count, min_edge_tick, bytes).

(** [engine/signal/reader/OracleArtifactReader.cpp:116-160] read_binary_bundle. *)
Definition read_binary_bundle (bytes : list ascii) : string + CandidateBundle * list ascii :=
  match read_bundle_fields bytes with
  | None => inl "truncated candidate_bundles.bin"%string
  | Some (bundle_id, true_mask, false_mask, invalid_mask, payout, leg_count, min_edge, bytes) =>
      if Z.of_nat kMaxBundleLegs <? leg_count then inl "candidate bundle leg_count exceeds 16"%string
      else
        match read_many read_leg (Z.to_nat leg_count) bytes with
        | inl error => inl error
        | inr (legs, bytes) =>
            inr (mkCandidateBundle bundle_id true_mask false_mask invalid_mask payout (Z.to_nat leg_count)
                   (std_array kMaxBundleLegs bundle_leg0 legs) min_edge, bytes)
        end
  end.

(** [engine/signal/reader/OracleArtifactReader.cpp:162-188] parse_binary_bundles; [inl] is the error it leaves. *)
Definition parse_binary_bundles (bytes : list ascii) : string + list CandidateBundle :=
  match read_u32 bytes with
  | None => inl "truncated candidate_bundles.bin header"%string
  | Some (count, bytes) =>
      match read_many read_binary_bundle (Z.to_nat count) bytes with
      | inl error => inl error
      | inr (bundles, []) => inr bundles
      | inr (_, _ :: _) => inl "candidate_bundles.bin has trailing bytes"%string
      end
  end.

(** ** Codecs *)

(** A writer and a reader that undo each other on the values [ok] allows. *)
Record codec {A} (enc : A → list ascii) (dec : list ascii → option (A * list ascii)) (ok : A → Prop) : Prop := {
  dec_enc a rest : ok a → dec (enc a ++ rest) = Some (a, rest);
  enc_dec bytes a rest : dec bytes = Some (a, rest) → ok a ∧ bytes = enc a ++ rest
}.

(** The same for readers that say why they fail. *)
Definition to_option {A} (r : string + A) : option A := match r with inl _ => None | inr a => Some a end.

Lemma byte_value_range b : 0 <= byte_value b < 256.
Proof. unfold byte_value. pose proof (N_ascii_bounded b). lia. Qed.

Lemma byte_of_value b : byte_of (byte_value b) = b.
Proof.
  unfold byte_of. change 255 with (Z.ones 8). rewrite Z.land_ones, Z.mod_small by (pose proof (byte_value_range b); lia).
  unfold byte_value. by rewrite N2Z.id, ascii_N_embedding.
Qed.

Lemma byte_value_of z : byte_value (byte_of z) = z mod 256.
Proof.
  unfold byte_value, byte_of. change 255 with (Z.ones 8). rewrite Z.land_ones by lia. change (2 ^ 8) with 256.
  pose proof (Z.mod_pos_bound z 256 ltac:(lia)). rewrite N_ascii_embedding by lia. lia.
Qed.

(** One step of the reader: the bits below [shift] and the next eight. *)
Lemma lor_shiftl_add acc b shift : 0 <= shift → 0 <= acc < 2 ^ shift → 0 <= b → Z.lor acc (Z.shiftl b shift) = acc + b * 2 ^ shift.
Proof.
  intros Hs Hacc Hb. assert (Hland : Z.land acc (Z.shiftl b shift) = 0).
  { apply Z.bits_inj'. intros i Hi. rewrite Z.land_spec, Z.shiftl_spec, Z.bits_0 by lia. destruct (Z.ltb_spec i shift).
    - rewrite (Z.testbit_neg_r b) by lia. apply andb_false_r.
    - rewrite <- (Z.mod_small acc (2 ^ shift)) by lia. by rewrite Z.mod_pow2_bits_high by lia. }
  rewrite <- Z.lxor_lor, <- Z.add_nocarry_lxor, Z.shiftl_mul_pow2 by done. done.
Qed.

Lemma mod_next_byte v shift : 0 <= shift → v mod 2 ^ (shift + 8) = v mod 2 ^ shift + (Z.shiftr v shift mod 256) * 2 ^ shift.
Proof.
  intros Hs. rewrite Z.pow_add_r, Z.rem_mul_r, Z.shiftr_div_pow2 by lia. change (2 ^ 8) with 256. lia.
Qed.

Lemma read_append_le n shift v rest :
  0 <= shift → read_le n shift (v mod 2 ^ shift) (append_le n shift v ++ rest) = Some (v mod 2 ^ (shift + 8 * Z.of_nat n), rest).
Proof.
  revert shift; induction n as [|n IH]; intros shift Hs; cbn [append_le read_le app].
  { by rewrite Z.add_0_r. }
  pose proof (Z.mod_pos_bound v (2 ^ shift) ltac:(lia)). pose proof (Z.mod_pos_bound (Z.shiftr v shift) 256 ltac:(lia)).
  rewrite byte_value_of, lor_shiftl_add, <- mod_next_byte, IH by lia. by replace (shift + 8 + 8 * Z.of_nat n) with (shift + 8 * Z.of_nat (S n)) by lia.
Qed.

Lemma append_read_le n shift acc bytes v rest :
  0 <= shift → 0 <= acc < 2 ^ shift → read_le n shift acc bytes = Some (v, rest) →
  bytes = append_le n shift v ++ rest ∧ 0 <= v < 2 ^ (shift + 8 * Z.of_nat n) ∧ v mod 2 ^ shift = acc.
Proof.
  revert shift acc bytes; induction n as [|n IH]; intros shift acc bytes Hs Hacc Hr; cbn [append_le read_le app] in *.
  { injection Hr as <- <-. rewrite Z.add_0_r, Z.mod_small by lia. done. }
  destruct bytes as [|b bytes]; [done|]. pose proof (byte_value_range b) as Hb.
  assert (Hpow : 2 ^ (shift + 8) = 256 * 2 ^ shift) by (rewrite Z.pow_add_r by lia; lia).
  rewrite lor_shiftl_add in Hr by lia. apply IH in Hr as (-> & Hv & Hmod); [|lia|rewrite Hpow; nia].
  rewrite mod_next_byte in Hmod by lia. pose proof (Z.mod_pos_bound v (2 ^ shift) ltac:(lia)). pose proof (Z.mod_pos_bound (Z.shiftr v shift) 256 ltac:(lia)).
  assert (Z.shiftr v shift mod 256 = byte_value b ∧ v mod 2 ^ shift = acc) as [Hbyte Hacc'].
  { apply (Z.div_mod_unique (2 ^ shift)); lia. }
  replace (shift + 8 * Z.of_nat (S n)) with (shift + 8 + 8 * Z.of_nat n) by lia.
  split_and!; [|lia|lia|done]. cbn [app]. f_equal. unfold byte_of. change 255 with (Z.ones 8). rewrite Z.land_ones by lia. change (2 ^ 8) with 256.
  rewrite Hbyte. rewrite <- (byte_of_value b) at 1. unfold byte_of. change 255 with (Z.ones 8). rewrite Z.land_ones, Z.mod_small by lia. done.
Qed.

(** ** The codecs of the parts *)

Lemma u8_codec : codec append_u8 read_u8 (λ v, 0 <= v < 256).
Proof.
  split.
  - intros v rest Hv. cbn. by rewrite byte_value_of, Z.mod_small.
  - intros [|b bytes] v rest; cbn; [done|]. intros [= <- <-]. split; [apply byte_value_range|]. by rewrite byte_of_value.
Qed.

Lemma le_codec n : codec (append_le n 0) (read_le n 0 0) (λ v, 0 <= v < 2 ^ (8 * Z.of_nat n)).
Proof.
  split.
  - intros v rest Hv. pose proof (read_append_le n 0 v rest ltac:(lia)) as H. rewrite Z.mod_1_r, Z.add_0_l, (Z.mod_small v) in H by lia. done.
  - intros bytes v rest H. apply append_read_le in H as (-> & Hv & _); [done|lia|lia].
Qed.

Lemma u32_codec : codec append_u32 read_u32 (λ v, 0 <= v < 2 ^ 32).
Proof. apply (le_codec 4). Qed.

Lemma u64_codec : codec append_u64 read_u64 in_u64.
Proof.
  split.
  - intros v rest Hv. apply (le_codec 8). ranges. lia.
  - intros bytes v rest H. apply (le_codec 8) in H as [Hv ->]. split; [ranges; lia|done].
Qed.

Lemma i64_codec : codec append_i64 read_i64 in_i64.
Proof.
  split.
  - intros v rest Hv. unfold read_i64, append_i64. rewrite (dec_enc _ _ _ u64_codec) by apply wrap_u64_range. cbn.
    do 2 f_equal. rewrite <- (wrap_i64_id v Hv) at 2. apply wrap_i64_eq_mod. unfold wrap_u64. by rewrite Zmod_mod.
  - intros bytes v rest H. unfold read_i64 in H. destruct (read_u64 bytes) as [[u bytes']|] eqn:E; [|done]. cbn in H. injection H as <- <-.
    apply (enc_dec _ _ _ u64_codec) in E as [Hu ->]. split; [apply wrap_i64_range|]. unfold append_i64. do 2 f_equal.
    rewrite <- (wrap_u64_id u Hu) at 1. unfold wrap_u64. by rewrite wrap_i64_mod.
Qed.

Lemma string_codec : codec append_string read_string (λ s, Z.of_nat (String.length s) < 2 ^ 32).
Proof.
  assert (Hlen : ∀ s, length (String.list_ascii_of_string s) = String.length s) by (induction s; cbn; auto).
  split.
  - intros s rest Hs. unfold read_string, append_string. rewrite <- app_assoc, Z.mod_small by lia.
    rewrite (dec_enc _ _ _ u32_codec) by lia. cbn [mbind option_bind]. rewrite Nat2Z.id, length_app, Hlen, (proj2 (Nat.ltb_ge _ _)) by lia.
    rewrite <- Hlen, take_app_length, drop_app_length, String.string_of_list_ascii_of_string. done.
  - intros bytes s rest H. unfold read_string in H. destruct (read_u32 bytes) as [[size bytes']|] eqn:E; [|done]. cbn [mbind option_bind] in H.
    apply (enc_dec _ _ _ u32_codec) in E as [Hsize ->]. step_if_in H; [done|]. breflect. injection H as <- <-.
    assert (Hl : String.length (String.string_of_list_ascii (take (Z.to_nat size) bytes')) = Z.to_nat size).
    { rewrite <- Hlen, String.list_ascii_of_string_of_list_ascii, length_take. lia. }
    unfold append_string. rewrite Hl, Z2Nat.id, Z.mod_small by lia. split; [lia|].
    by rewrite String.list_ascii_of_string_of_list_ascii, <- app_assoc, take_drop.
Qed.

(** ** The file *)

(** What the writer can write so that the reader reads it back. *)
Definition leg_ok (leg : BundleLeg) : Prop :=
  Z.of_nat (String.length (bl_market_id leg)) < 2 ^ 32 ∧ Z.of_nat (String.length (bl_asset_id leg)) < 2 ^ 32 ∧
  in_i64 (bl_quantity_lots leg) ∧ in_i64 (bl_max_price_tick leg).

Record bundle_ok (bundle : CandidateBundle) : Prop := {
  bo_masks : in_u64 (cb_bundle_id bundle) ∧ in_u64 (cb_required_true_mask bundle) ∧
             in_u64 (cb_required_false_mask bundle) ∧ in_u64 (cb_invalid_mask bundle);
  bo_ticks : in_i64 (cb_guaranteed_payout_tick bundle) ∧ in_i64 (cb_min_edge_tick bundle);
  bo_count : (cb_leg_count bundle <= kMaxBundleLegs)%nat;
  bo_slots : cb_legs bundle = std_array kMaxBundleLegs bundle_leg0 (bundle_legs bundle);
  bo_legs : Forall leg_ok (bundle_legs bundle)
}.

(** A value read back is followed by the rest; what is read was written by a value in range. *)
Ltac read_back c := rewrite (dec_enc _ _ _ c) by (done || lia); cbn [mbind option_bind].
Ltac was_written c H :=
  match type of H with
  | context [mbind _ (?dec ?bytes)] =>
      let E := fresh "E" in destruct (dec bytes) as [[? ?]|] eqn:E; [|done]; cbn [mbind option_bind] in H;
      apply (enc_dec _ _ _ c) in E as [? ->]
  end.

Lemma side_codec side : (if side_value side =? 0 then Buy else Sell) = side ∧ 0 <= side_value side <= 1.
Proof. by destruct side. Qed.

Lemma leg_codec : codec append_leg (to_option ∘ read_leg) leg_ok.
Proof.
  split.
  - intros leg rest (Hm & Ha & Hq & Hp). cbn [compose]. unfold read_leg, append_leg, read_leg_fields. rewrite <- !app_assoc.
    destruct (side_codec (bl_side leg)) as [Hside ?].
    read_back string_codec. read_back string_codec. read_back u8_codec. read_back i64_codec. read_back i64_codec.
    rewrite (proj2 (Z.ltb_ge _ _)), Hside by lia. by destruct leg.
  - intros bytes leg rest H. cbn [compose] in H. unfold read_leg in H. destruct (read_leg_fields bytes) as [[[[[[m a] s] q] p] bytes']|] eqn:Ef; [|done].
    unfold read_leg_fields in Ef. was_written string_codec Ef. was_written string_codec Ef. was_written u8_codec Ef.
    was_written i64_codec Ef. was_written i64_codec Ef. simplify_eq.
    destruct (Z.ltb_spec 1 s); [done|]. cbn [to_option] in H. injection H as <- <-. unfold append_leg.
    cbn [bl_market_id bl_asset_id bl_side bl_quantity_lots bl_max_price_tick]. rewrite <- !app_assoc. split; [by split_and!|].
    assert (s = 0 ∨ s = 1) as [-> | ->] by lia; done.
Qed.

Lemma read_many_codec {A} (enc : A → list ascii) read ok n :
  codec enc (to_option ∘ read) ok → codec (λ l, concat (enc <$> l)) (to_option ∘ read_many read n) (λ l, length l = n ∧ Forall ok l).
Proof.
  intros [Hde Hed]. cbn [compose] in *. induction n as [|n [IHde IHed]]; split; cbn [compose read_many].
  - intros [|x l] rest [? ?]; done.
  - intros bytes l rest. cbn. by intros [= <- <-].
  - intros [|x l] rest [Hl Hok]; [done|]. apply Forall_cons in Hok as [Hx Hok].
    rewrite fmap_cons. cbn [concat read_many]. rewrite <- app_assoc.
    specialize (Hde x (concat (enc <$> l) ++ rest) Hx). destruct (read _) as [e|[x' bytes']]; [done|]. cbn in Hde. injection Hde as -> ->.
    specialize (IHde l rest ltac:(split; [cbn in Hl; lia|done])). cbn in IHde. destruct (read_many _ _ _) as [e|[l' bytes'']]; [done|].
    cbn in IHde. injection IHde as -> ->. done.
  - intros bytes l rest H. destruct (read bytes) as [e|[x bytes']] eqn:E; [done|].
    destruct (Hed bytes x bytes') as [Hx ->]; [by rewrite E|].
    destruct (read_many read n bytes') as [e|[l' bytes'']] eqn:El; [done|]. cbn in H. injection H as <- <-.
    destruct (IHed bytes' l' bytes'') as [[Hl Hok] ->]; [by cbn; rewrite El|]. cbn. rewrite <- app_assoc. split; [|done].
    split; [by rewrite Hl|by constructor].
Qed.

Lemma bundle_codec : codec append_bundle (to_option ∘ read_binary_bundle) bundle_ok.
Proof.
  split.
  - intros b rest [(H1 & H2 & H3 & H4) (H5 & H6) Hc Hslots Hlegs]. cbn [compose]. unfold read_binary_bundle, append_bundle, read_bundle_fields.
    rewrite <- !app_assoc. unfold kMaxBundleLegs in *.
    do 4 read_back u64_codec. read_back i64_codec. read_back u32_codec. read_back i64_codec.
    rewrite (proj2 (Z.ltb_ge _ _)), Nat2Z.id by lia.
    pose proof (dec_enc _ _ _ (read_many_codec _ _ _ (cb_leg_count b) leg_codec) (bundle_legs b) rest) as Hr. cbn [compose] in Hr.
    assert (Hl : length (bundle_legs b) = cb_leg_count b).
    { unfold bundle_legs in *. rewrite Hslots, length_take, (length_std_array 16). lia. }
    specialize (Hr (conj Hl Hlegs)). destruct (read_many _ _ _) as [e|[l bytes]]; [done|]. cbn in Hr. injection Hr as -> ->.
    cbn [to_option]. rewrite <- Hslots. by destruct b.
  - intros bytes b rest H. cbn [compose] in H. unfold read_binary_bundle in H.
    destruct (read_bundle_fields bytes) as [[[[[[[[id tm] fm] im] pay] count] me] bytes']|] eqn:Ef; [|done].
    unfold read_bundle_fields in Ef. do 4 was_written u64_codec Ef. was_written i64_codec Ef. was_written u32_codec Ef. was_written i64_codec Ef.
    simplify_eq. destruct (Z.ltb_spec (Z.of_nat kMaxBundleLegs) count) as [|Hc]; [done|].
    destruct (read_many read_leg (Z.to_nat count) bytes') as [e|[l bytes'']] eqn:El; [done|]. cbn [to_option] in H. injection H as <- <-.
    destruct (enc_dec _ _ _ (read_many_codec _ _ _ (Z.to_nat count) leg_codec) bytes' l bytes'') as [[Hl Hok] ->]; [by cbn [compose]; rewrite El|].
    unfold kMaxBundleLegs in *. assert (Hlegs : take (Z.to_nat count) (std_array 16 bundle_leg0 l) = l).
    { unfold std_array. rewrite (take_ge l) by lia. by rewrite <- Hl, take_app_length. }
    unfold append_bundle, bundle_legs. cbn [cb_leg_count cb_legs cb_bundle_id cb_required_true_mask cb_required_false_mask cb_invalid_mask
      cb_guaranteed_payout_tick cb_min_edge_tick]. rewrite Hlegs, Z2Nat.id, <- !app_assoc by lia. split; [|done].
    constructor; unfold bundle_legs; cbn [cb_leg_count cb_legs cb_bundle_id cb_required_true_mask cb_required_false_mask cb_invalid_mask
      cb_guaranteed_payout_tick cb_min_edge_tick]; rewrite ?Hlegs; try done. unfold kMaxBundleLegs. lia.
Qed.

(** C25. The bundles the oracle writes are the bundles the engine reads, and
    conversely: parsing the bytes of a list of bundles whose fields fit their
    widths gives the list back, and any bytes that parse are exactly the bytes
    the writer makes of what was parsed.  There is no second encoding and
    nothing trails. *)
Theorem bundle_file_roundtrip bytes bundles :
  parse_binary_bundles bytes = inr bundles ↔
  bytes = serialize_candidate_bundles bundles ∧ Z.of_nat (length bundles) < 2 ^ 32 ∧ Forall bundle_ok bundles.
Proof.
  unfold parse_binary_bundles, serialize_candidate_bundles. split.
  - destruct (read_u32 bytes) as [[count bytes']|] eqn:E; [|done]. apply (enc_dec _ _ _ u32_codec) in E as [Hcount ->].
    destruct (read_many read_binary_bundle (Z.to_nat count) bytes') as [e|[l rest]] eqn:El; [done|]. destruct rest; [|done]. intros [= ->].
    destruct (enc_dec _ _ _ (read_many_codec _ _ _ (Z.to_nat count) bundle_codec) bytes' bundles []) as [[Hl Hok] ->]; [by cbn [compose]; rewrite El|].
    rewrite app_nil_r, Hl, Z2Nat.id, Z.mod_small by lia. split_and!; [done|lia|done].
  - intros (-> & Hlen & Hok). rewrite Z.mod_small, (dec_enc _ _ _ u32_codec), Nat2Z.id by lia.
    pose proof (dec_enc _ _ _ (read_many_codec _ _ _ (length bundles) bundle_codec) bundles [] (conj eq_refl Hok)) as Hr.
    cbn [compose] in Hr. rewrite app_nil_r in Hr. destruct (read_many _ _ _) as [e|[l rest]]; [done|]. cbn in Hr. by injection Hr as -> ->.
Qed.
