(* ===== verification/RuntimePlans.v ===== *)
(** * RuntimePlans: the bundles the signal engine scans

    [OracleArtifactReader] compiles the bundles of an artifact into runtime
    plans: every asset gets one index, shared by all plans, and a plan lists
    its distinct assets once.  [engine/signal/scan] keeps the bundles by id and
    by asset and picks those a set of changed assets touches. *)

From stdpp Require Import sorting.
From S2P Require Import Prelude Hashing RiskTypes Bundles Depth SignalTypes.
#[local] Open Scope Z_scope.

#[local] Arguments constant {_} _ _ /.

(** ** Plans *)

(** [engine/signal/reader/OracleArtifactReader.cpp:373-400] build_runtime_plans, one leg of a plan; the size of
    the map is cast to [std::uint32_t]. *)
Definition plan_leg (i : nat) (leg : BundleLeg) (asset_indices : gmap string Z) (plan : BundleRuntimePlan)
    : gmap string Z * BundleRuntimePlan :=
  let asset_id := bl_asset_id leg in
  let index := default (Z.of_nat (size asset_indices) mod 2 ^ 32) (asset_indices !! asset_id) in
  let asset_indices := <[asset_id := index]> asset_indices in
  let plan := plan <| pn_market_ids ::= <[i := Some (bl_market_id leg)]> |> <| pn_asset_ids ::= <[i := Some asset_id]> |>
    <| pn_sides ::= <[i := bl_side leg]> |> <| pn_executable_sides ::= <[i := resolve_side (bl_side leg)]> |>
    <| pn_ratio_qty_lots ::= <[i := bl_quantity_lots leg]> |> <| pn_max_price_ticks ::= <[i := bl_max_price_tick leg]> |>
    <| pn_asset_indices ::= <[i := index]> |> in
  let count := pn_unique_asset_count plan in
  let already_unique := bool_decide (index ∈ take count (pn_unique_asset_indices plan)) in
  (asset_indices,
   if negb already_unique && (count <? kMaxIntentLegs)%nat then
     plan <| pn_unique_asset_ids ::= <[count := Some asset_id]> |> <| pn_unique_asset_indices ::= <[count := index]> |>
          <| pn_unique_asset_count := S count |>
   else plan).

Fixpoint plan_legs (i : nat) (legs : list BundleLeg) (asset_indices : gmap string Z) (plan : BundleRuntimePlan)
    : gmap string Z * BundleRuntimePlan :=
  match legs with
  | [] => (asset_indices, plan)
  | leg :: rest =>
      let '(asset_indices, plan) := plan_leg i leg asset_indices plan in
      plan_legs (S i) rest asset_indices plan
  end.

(** [engine/signal/reader/OracleArtifactReader.cpp:357-403] build_runtime_plans, one bundle. *)
Definition build_runtime_plan (artifact_hash constraint_hash : Z) (bundle : CandidateBundle) (asset_indices : gmap string Z)
    : gmap string Z * BundleRuntimePlan :=
  let leg_count := Nat.min (cb_leg_count bundle) kMaxIntentLegs in
  plan_legs 0 (take leg_count (cb_legs bundle)) asset_indices
    (plan0 <| pn_bundle := Some bundle |> <| pn_bundle_id := cb_bundle_id bundle |>
       <| pn_bundle_hash := hash_candidate_bundle bundle |> <| pn_oracle_artifact_hash := artifact_hash |>
       <| pn_constraint_hash := constraint_hash |> <| pn_leg_count := leg_count |>
       <| pn_guaranteed_payout_tick := cb_guaranteed_payout_tick bundle |>
       <| pn_min_unit_edge_tick := cb_min_edge_tick bundle |> <| pn_min_total_edge_tick := cb_min_edge_tick bundle |>).

Fixpoint build_plans (artifact_hash constraint_hash : Z) (bundles : list CandidateBundle) (asset_indices : gmap string Z)
    : list BundleRuntimePlan :=
  match bundles with
  | [] => []
  | bundle :: rest =>
      let '(asset_indices, plan) := build_runtime_plan artifact_hash constraint_hash bundle asset_indices in
      plan :: build_plans artifact_hash constraint_hash rest asset_indices
  end.

(** [engine/signal/reader/OracleArtifactReader.cpp:347-406] build_runtime_plans. *)
Definition build_runtime_plans (bundles : list CandidateBundle) (artifact_hash constraint_hash : Z) : list BundleRuntimePlan :=
  build_plans artifact_hash constraint_hash bundles ∅.

(** ** The reader *)

(** [engine/signal/reader/OracleArtifactReader.h:40-45] OracleArtifactReader: what a successful load leaves. *)
Record OracleArtifactReader := mkArtifactReader {
  ar_bundles : list CandidateBundle;
  ar_runtime_plans : list BundleRuntimePlan;
  ar_artifact_version : Z;
  ar_artifact_hash : Z;
  ar_constraint_hash : Z;
  ar_bundle_hash : Z
}.
Definition artifact_reader0 : OracleArtifactReader := mkArtifactReader [] [] 0 0 0 0.

(** ** The registry *)

(** [engine/signal/scan/BundleRegistry.h:34-39] BundleRegistry. *)
Record BundleRegistry := mkBundleRegistry {
  bg_registered : list CandidateBundle;
  bg_bundle_index : gmap Z nat;
  bg_asset_to_bundles : gmap string (list Z);
  bg_artifact_hash : Z
}.
Definition registry0 : BundleRegistry := mkBundleRegistry [] ∅ ∅ 0.

(** [engine/signal/scan/BundleRegistry.cpp:20-27] registry_artifact_hash. *)
Definition registry_artifact_hash (reader : OracleArtifactReader) : Z :=
  mix_u64 (mix_u64 fnv_offset (ar_artifact_version reader)) (ar_bundle_hash reader).

(** [engine/signal/scan/BundleRegistry.cpp:46-52] the order of [std::sort]. *)
Definition bundle_before (lhs rhs : CandidateBundle) : Prop := cb_bundle_id lhs <= cb_bundle_id rhs.
#[export] Instance bundle_before_dec lhs rhs : Decision (bundle_before lhs rhs).
Proof. unfold bundle_before. apply _. Defined.
#[export] Instance bundle_before_trans : Transitive bundle_before.
Proof. intros b1 b2 b3. unfold bundle_before. lia. Qed.
#[export] Instance bundle_before_total : Total bundle_before.
Proof. intros b1 b2. unfold bundle_before. lia. Qed.

(** [engine/signal/scan/BundleRegistry.cpp:68-76] load_from_oracle_reader, the legs of one bundle. *)
Definition index_legs (bundle : CandidateBundle) (assets : gmap string (list Z)) : gmap string (list Z) :=
  foldl (λ assets leg,
    let asset_id := bl_asset_id leg in
    if String.eqb asset_id "" then assets
    else <[asset_id := default [] (assets !! asset_id) ++ [cb_bundle_id bundle]]> assets)
    assets (take (Nat.min (cb_leg_count bundle) kMaxBundleLegs) (cb_legs bundle)).

(** [engine/signal/scan/BundleRegistry.cpp:58-77] load_from_oracle_reader, the loop; [None] when an id comes twice. *)
Fixpoint index_bundles (i : nat) (bundles : list CandidateBundle) (index : gmap Z nat) (assets : gmap string (list Z))
    : option (gmap Z nat * gmap string (list Z)) :=
  match bundles with
  | [] => Some (index, assets)
  | bundle :: rest =>
      match index !! cb_bundle_id bundle with
      | Some _ => None
      | None => index_bundles (S i) rest (<[cb_bundle_id bundle := i]> index) (index_legs bundle assets)
      end
  end.

(** [std::unique] on a list: the first of each run of equal elements. *)
Fixpoint std_unique (l : list Z) : list Z :=
  match l with
  | [] => []
  | x :: rest =>
      match rest with
      | y :: _ => if x =? y then std_unique rest else x :: std_unique rest
      | [] => [x]
      end
  end.

(** [engine/signal/scan/BundleRegistry.cpp:31-89] load_from_oracle_reader. *)
Definition load_from_oracle_reader (reader : OracleArtifactReader) : bool * BundleRegistry :=
  if ar_artifact_version reader =? 0 then (false, registry0)
  else
    let bundles := merge_sort bundle_before (ar_bundles reader) in
    match index_bundles 0 bundles ∅ ∅ with
    | None => (false, registry0)
    | Some (index, assets) =>
        (true, mkBundleRegistry bundles index ((λ ids, std_unique (merge_sort Z.le ids)) <$> assets)
                 (registry_artifact_hash reader))
    end.

(** [engine/signal/scan/BundleRegistry.cpp:95-103] find_bundle. *)
Definition find_bundle (registry : BundleRegistry) (bundle_id : Z) : option CandidateBundle :=
  i ← bg_bundle_index registry !! bundle_id; bg_registered registry !! i.

(** [engine/signal/scan/BundleRegistry.cpp:105-113] bundles_for_asset. *)
Definition bundles_for_asset (registry : BundleRegistry) (asset_id : string) : list Z :=
  default [] (bg_asset_to_bundles registry !! asset_id).

(** [engine/signal/scan/BundleRegistry.cpp:119-125] bundle_hash. *)
Definition registered_bundle_hash (registry : BundleRegistry) (bundle_id : Z) : Z :=
  match find_bundle registry bundle_id with Some bundle => hash_candidate_bundle bundle | None => 0 end.

(** ** Scans *)

(** [engine/signal/scan/DirtyAssetSet.h:36-37] DirtyAssetSet. *)
Record DirtyAssetSet := mkDirtyAssets { da_assets : list string; da_seen : gset string }.
Definition dirty0 : DirtyAssetSet := mkDirtyAssets [] ∅.

(** [engine/signal/scan/DirtyAssetSet.h:12-20] mark_dirty. *)
Definition mark_dirty (asset_id : string) (dirty : DirtyAssetSet) : DirtyAssetSet :=
  if String.eqb asset_id "" then dirty
  else if bool_decide (asset_id ∈ da_seen dirty) then dirty
  else mkDirtyAssets (da_assets dirty ++ [asset_id]) ({[asset_id]} ∪ da_seen dirty).

(** [engine/signal/scan/DirtyAssetSet.h:22-25] clear. *)
Definition clear_dirty (dirty : DirtyAssetSet) : DirtyAssetSet := dirty0.

(** [engine/signal/scan/CandidateBundleScanner.cpp:8-18] full_scan. *)
Definition full_scan (registry : BundleRegistry) : list CandidateBundle := bg_registered registry.

(** [engine/signal/scan/CandidateBundleScanner.cpp:27-34] dirty_asset_scan, the ids in order of discovery. *)
Fixpoint new_ids (ids : list Z) (seen : gset Z) : list Z :=
  match ids with
  | [] => []
  | id :: rest => if bool_decide (id ∈ seen) then new_ids rest seen else id :: new_ids rest ({[id]} ∪ seen)
  end.

(** [engine/signal/scan/CandidateBundleScanner.cpp:20-46] dirty_asset_scan. *)
Definition dirty_asset_scan (registry : BundleRegistry) (dirty : DirtyAssetSet) : list CandidateBundle :=
  let bundle_ids := new_ids (concat (bundles_for_asset registry <$> da_assets dirty)) ∅ in
  omap (find_bundle registry) (merge_sort Z.le bundle_ids).

(** ** Plans know their assets *)

(** Indices are given out once: two assets never share one. *)
Definition indices_ok (m : gmap string Z) : Prop :=
  (∀ a i, m !! a = Some i → 0 <= i < Z.of_nat (size m)) ∧
  (∀ a b i, m !! a = Some i → m !! b = Some i → a = b).

(** What a plan says about the legs it was built from, with the indices of [m]. *)
Record plan_ok (m : gmap string Z) (legs : list BundleLeg) (plan : BundleRuntimePlan) : Prop := {
  po_lengths : length (pn_asset_ids plan) = kMaxIntentLegs ∧ length (pn_asset_indices plan) = kMaxIntentLegs ∧
    length (pn_executable_sides plan) = kMaxIntentLegs ∧ length (pn_ratio_qty_lots plan) = kMaxIntentLegs ∧
    length (pn_unique_asset_ids plan) = kMaxIntentLegs ∧ length (pn_unique_asset_indices plan) = kMaxIntentLegs;
  po_count : (pn_unique_asset_count plan <= length legs)%nat;
  po_unique : NoDup (take (pn_unique_asset_count plan) (pn_unique_asset_indices plan));
  po_known j : (j < pn_unique_asset_count plan)%nat → ∃ a i, pn_unique_asset_ids plan !! j = Some (Some a) ∧
    pn_unique_asset_indices plan !! j = Some i ∧ m !! a = Some i;
  po_legs j leg : legs !! j = Some leg →
    pn_asset_ids plan !! j = Some (Some (bl_asset_id leg)) ∧ pn_ratio_qty_lots plan !! j = Some (bl_quantity_lots leg) ∧
    pn_executable_sides plan !! j = Some (resolve_side (bl_side leg)) ∧
    ∃ i, pn_asset_indices plan !! j = Some i ∧ m !! bl_asset_id leg = Some i ∧
      i ∈ take (pn_unique_asset_count plan) (pn_unique_asset_indices plan)
}.

Lemma indices_ok_insert m a i :
  indices_ok m → Z.of_nat (size m) < 2 ^ 32 → i = default (Z.of_nat (size m) mod 2 ^ 32) (m !! a) →
  indices_ok (<[a := i]> m) ∧ m ⊆ <[a := i]> m.
Proof.
  intros [Hr Hinj] Hsize ->. destruct (m !! a) as [j|] eqn:E; cbn [default from_option].
  { unfold id. rewrite insert_id by done. split; [by split|done]. }
  rewrite Z.mod_small by lia. split; [split|by apply insert_subseteq].
  - intros b k. rewrite map_size_insert_None by done. rewrite lookup_insert_Some. intros [[<- <-]|[_ Hk]]; [lia|]. specialize (Hr b k Hk). lia.
  - intros b c k. rewrite !lookup_insert_Some. intros [[<- <-]|[? Hb]] [[<- E2]|[? Hc]]; try done; [|..|by eapply Hinj].
    + specialize (Hr _ _ Hc). lia.
    + subst. specialize (Hr _ _ Hb). lia.
Qed.

Lemma plan_ok_mono m m' legs plan : m ⊆ m' → plan_ok m legs plan → plan_ok m' legs plan.
Proof.
  intros Hm [H1 H2 H3 H4 H5]. constructor; try done.
  - intros j Hj. destruct (H4 j Hj) as (a & i & ? & ? & ?). exists a, i. eauto using lookup_weaken.
  - intros j leg Hj. destruct (H5 j leg Hj) as (? & ? & ? & i & ? & ? & ?). split_and!; try done. exists i. eauto using lookup_weaken.
Qed.

Lemma take_S_insert {A} (l : list A) n x : (n < length l)%nat → take (S n) (<[n := x]> l) = take n l ++ [x].
Proof.
  intros Hn. rewrite (take_S_r _ _ x); [by rewrite take_insert_ge by lia|by rewrite list_lookup_insert_eq].
Qed.

Lemma plan_leg_ok legs leg m plan :
  indices_ok m → Z.of_nat (size m) < 2 ^ 32 → (length legs < kMaxIntentLegs)%nat → plan_ok m legs plan →
  let '(m', plan') := plan_leg (length legs) leg m plan in
  indices_ok m' ∧ m ⊆ m' ∧ (size m' <= S (size m))%nat ∧ plan_ok m' (legs ++ [leg]) plan'.
Proof.
  intros Hm Hsize Hlen Hplan. unfold plan_leg. set (i := default _ (m !! bl_asset_id leg)).
  destruct (indices_ok_insert m (bl_asset_id leg) i Hm Hsize eq_refl) as [Hm' Hsub].
  split; [done|]. split; [done|]. split; [rewrite map_size_insert; clear; destruct (m !! bl_asset_id leg); unfold id; lia|].
  apply (plan_ok_mono _ _ _ _ Hsub) in Hplan. set (m' := <[_ := i]> m) in *.
  assert (Hi : m' !! bl_asset_id leg = Some i) by apply lookup_insert_eq. clearbody m' i. clear Hm Hsize Hsub m.
  destruct Hplan as [(L1 & L2 & L3 & L4 & L5 & L6) Hc Hnd Hk Hlegs].
  destruct plan as [pb pid pbh poh pch plc uc mids aids aidx sides xsides ratios maxp uids uidx payout mu mt mb]. cbn in *. unfold kMaxIntentLegs in *.
  assert (Hold : ∀ uc' uidx', (∀ x, x ∈ take uc uidx → x ∈ take uc' uidx') → i ∈ take uc' uidx' →
    ∀ j l, (legs ++ [leg]) !! j = Some l →
    <[length legs := Some (bl_asset_id leg)]> aids !! j = Some (Some (bl_asset_id l)) ∧
    <[length legs := bl_quantity_lots leg]> ratios !! j = Some (bl_quantity_lots l) ∧
    <[length legs := resolve_side (bl_side leg)]> xsides !! j = Some (resolve_side (bl_side l)) ∧
    ∃ k, <[length legs := i]> aidx !! j = Some k ∧ m' !! bl_asset_id l = Some k ∧ k ∈ take uc' uidx').
  { intros uc' uidx' Hin Hnew j l. destruct (decide (j = length legs)) as [->|Hne].
    - rewrite list_lookup_middle by done. intros [= <-]. rewrite !list_lookup_insert_eq by lia. eauto 10.
    - intros Hj. assert (legs !! j = Some l) as Hj'.
      { apply lookup_app_Some in Hj as [?|[Hge Hj]]; [done|]. apply list_lookup_singleton_Some in Hj as [? _]. lia. }
      rewrite !list_lookup_insert_ne by done. destruct (Hlegs j l Hj') as (? & ? & ? & k & ? & ? & ?). split_and!; try done. exists k. auto. }
  case_bool_decide as Hdup; cbn [negb andb].
  - constructor; cbn; rewrite ?length_insert; try done.
    + rewrite length_app. cbn. lia.
    + by apply (Hold uc uidx).
  - rewrite (proj2 (Nat.leb_le _ _)) by lia.
    assert (Htake : take (S uc) (<[uc := i]> uidx) = take uc uidx ++ [i]) by (apply take_S_insert; lia).
    constructor; cbn; rewrite ?length_insert; try done.
    + rewrite length_app. cbn. lia.
    + rewrite Htake. apply NoDup_app. split; [done|]. split; [|apply NoDup_singleton]. intros x Hx ->%list_elem_of_singleton. done.
    + intros j Hj. destruct (decide (j = uc)) as [->|Hne].
      * rewrite !list_lookup_insert_eq by lia. eauto.
      * rewrite !list_lookup_insert_ne by done. apply Hk. lia.
    + apply Hold; rewrite Htake; set_solver.
Qed.

(** The fields of a plan that do not depend on its legs. *)
Definition plan_header (plan : BundleRuntimePlan) :=
  (pn_bundle plan, pn_bundle_id plan, pn_bundle_hash plan, pn_oracle_artifact_hash plan, pn_constraint_hash plan, pn_leg_count plan,
   (pn_guaranteed_payout_tick plan, pn_min_unit_edge_tick plan, pn_min_total_edge_tick plan, pn_min_edge_bps plan)).

Lemma plan_leg_header i leg m plan : plan_header (plan_leg i leg m plan).2 = plan_header plan.
Proof. unfold plan_leg. cbv zeta. cbn [snd]. match goal with |- context [if ?b then _ else _] => destruct b end; by destruct plan. Qed.

Lemma plan_legs_ok rest legs m plan :
  indices_ok m → Z.of_nat (size m + length rest) < 2 ^ 32 → (length legs + length rest <= kMaxIntentLegs)%nat → plan_ok m legs plan →
  let '(m', plan') := plan_legs (length legs) rest m plan in
  indices_ok m' ∧ m ⊆ m' ∧ (size m' <= size m + length rest)%nat ∧ plan_ok m' (legs ++ rest) plan' ∧ plan_header plan' = plan_header plan.
Proof.
  revert legs m plan; induction rest as [|leg rest IH]; intros legs m plan Hm Hsize Hlen Hp; cbn [plan_legs length] in *.
  { rewrite app_nil_r. split_and!; try done. lia. }
  pose proof (plan_leg_ok legs leg m plan Hm ltac:(lia) ltac:(lia) Hp) as H1.
  pose proof (plan_leg_header (length legs) leg m plan) as Hh. destruct (plan_leg _ _ _ _) as [m1 plan1]. cbn [snd] in Hh.
  destruct H1 as (Hm1 & Hs1 & Hz1 & Hp1). specialize (IH (legs ++ [leg]) m1 plan1 Hm1 ltac:(lia)).
  assert (Hl : length (legs ++ [leg]) = S (length legs)) by (rewrite length_app; cbn; lia). rewrite Hl in IH.
  specialize (IH ltac:(lia) Hp1). destruct (plan_legs _ _ _ _) as [m2 plan2]. destruct IH as (? & ? & ? & Hp2 & Hh2).
  rewrite <- app_assoc in Hp2. split; [done|]. split_and!; try done; [by trans m1|lia|congruence].
Qed.

(** What is said of the plan of a bundle. *)
Record plan_of (m : gmap string Z) (artifact_hash constraint_hash : Z) (bundle : CandidateBundle) (plan : BundleRuntimePlan) : Prop := {
  pf_bundle : pn_bundle plan = Some bundle ∧ pn_bundle_id plan = cb_bundle_id bundle;
  pf_hashes : pn_bundle_hash plan = hash_candidate_bundle bundle ∧ pn_oracle_artifact_hash plan = artifact_hash ∧
    pn_constraint_hash plan = constraint_hash;
  pf_count : pn_leg_count plan = Nat.min (cb_leg_count bundle) kMaxIntentLegs;
  pf_legs : plan_ok m (take (pn_leg_count plan) (cb_legs bundle)) plan
}.

Lemma plan_of_mono m m' ah ch bundle plan : m ⊆ m' → plan_of m ah ch bundle plan → plan_of m' ah ch bundle plan.
Proof. intros Hm [? ? ? ?]. split; eauto using plan_ok_mono. Qed.

Lemma build_runtime_plan_ok ah ch bundle m :
  indices_ok m → Z.of_nat (size m + kMaxIntentLegs) < 2 ^ 32 →
  let '(m', plan) := build_runtime_plan ah ch bundle m in
  indices_ok m' ∧ m ⊆ m' ∧ (size m' <= size m + kMaxIntentLegs)%nat ∧ plan_of m' ah ch bundle plan.
Proof.
  intros Hm Hsize. unfold build_runtime_plan. set (legs := take _ (cb_legs bundle)).
  assert (Hl : (length legs <= kMaxIntentLegs)%nat) by (unfold legs; rewrite length_take; lia).
  remember (hash_candidate_bundle bundle) as bundle_hash eqn:Ehash. match goal with |- context [plan_legs 0 legs m ?p] => set (plan := p) end.
  assert (Hp : plan_ok m [] plan) by (constructor; cbn; try done; try lia; by apply NoDup_nil).
  pose proof (plan_legs_ok legs [] m plan Hm ltac:(lia) Hl Hp) as H. cbn [length] in H.
  destruct (plan_legs 0 legs m plan) as [m' plan']. destruct H as (? & ? & ? & Hp' & Hh). cbn [app] in Hp'.
  unfold plan_header in Hh. subst plan. cbn in Hh. injection Hh as E1 E2 E3 E4 E5 E6 _ _ _ _.
  split_and!; try done; [lia|]. constructor; try done; [by rewrite <- Ehash|by rewrite E6].
Qed.

Lemma build_plans_ok ah ch bundles m :
  indices_ok m → Z.of_nat (size m + kMaxIntentLegs * length bundles) < 2 ^ 32 →
  ∃ m', indices_ok m' ∧ m ⊆ m' ∧ Forall2 (plan_of m' ah ch) bundles (build_plans ah ch bundles m).
Proof.
  revert m; induction bundles as [|bundle bundles IH]; intros m Hm Hsize; cbn [build_plans length] in *.
  { exists m. by split_and!. }
  pose proof (build_runtime_plan_ok ah ch bundle m Hm ltac:(lia)) as H. destruct (build_runtime_plan _ _ _ _) as [m1 plan].
  destruct H as (Hm1 & Hs1 & Hz1 & Hp). destruct (IH m1 Hm1 ltac:(lia)) as (m2 & Hm2 & Hs2 & Hall).
  exists m2. split; [done|]. split; [by trans m1|]. constructor; [|done]. by eapply plan_of_mono.
Qed.

(** Assets keep one index across all plans: with fewer than 2^32 legs in
    the artifact there is a single injective numbering of the assets such that
    the plan of every bundle carries the bundle and its hashes, gives every leg
    the index of its asset, its lots and its executable side, and lists the
    indices of its legs exactly once each, next to the assets they stand for. *)
Theorem runtime_plans_exact bundles artifact_hash constraint_hash :
  Z.of_nat (kMaxIntentLegs * length bundles) < 2 ^ 32 →
  ∃ m, indices_ok m ∧
    Forall2 (plan_of m artifact_hash constraint_hash) bundles (build_runtime_plans bundles artifact_hash constraint_hash).
Proof.
  intros Hsize. destruct (build_plans_ok artifact_hash constraint_hash bundles ∅) as (m & Hm & _ & Hall).
  - split; [intros a i Hi|intros a b i Hi]; by rewrite lookup_empty in Hi.
  - rewrite map_size_empty. lia.
  - by exists m.
Qed.

Definition two_bundles : list CandidateBundle :=
  [candidate_bundle0 <| cb_bundle_id := 2 |> <| cb_leg_count := 2%nat |>
     <| cb_legs := std_array kMaxBundleLegs bundle_leg0 [mkBundleLeg "m1" "yes" Buy 3 1000000; mkBundleLeg "m1" "no" Buy 1 1000000] |>;
   candidate_bundle0 <| cb_bundle_id := 1 |> <| cb_leg_count := 1%nat |>
     <| cb_legs := std_array kMaxBundleLegs bundle_leg0 [mkBundleLeg "m2" "no" Buy 2 1000000] |>].

Lemma runtime_plans_exact_witness :
  ∃ m, indices_ok m ∧ Forall2 (plan_of m 5 6) two_bundles (build_runtime_plans two_bundles 5 6) ∧
    (pn_asset_indices <$> build_runtime_plans two_bundles 5 6) = [0 :: 1 :: replicate 14 0; 1 :: replicate 15 0].
Proof.
  destruct (runtime_plans_exact two_bundles 5 6 ltac:(vm_compute; reflexivity)) as (m & Hm & Hall).
  exists m. split; [exact Hm|]. split; [exact Hall|]. vm_compute. reflexivity.
Defined.

(** ** The registry finds its bundles *)

(** A bundle has a leg on the asset. *)
Definition touches (asset_id : string) (bundle : CandidateBundle) : Prop :=
  asset_id ≠ "" ∧ asset_id ∈ bl_asset_id <$> take (Nat.min (cb_leg_count bundle) kMaxBundleLegs) (cb_legs bundle).
#[export] Instance touches_dec asset_id bundle : Decision (touches asset_id bundle).
Proof. unfold touches. apply _. Defined.

Definition listed (assets : gmap string (list Z)) (asset_id : string) (bid : Z) : Prop := bid ∈ default [] (assets !! asset_id).

Lemma index_legs_listed bundle assets asset_id bid :
  listed (index_legs bundle assets) asset_id bid ↔ listed assets asset_id bid ∨ (touches asset_id bundle ∧ bid = cb_bundle_id bundle).
Proof.
  unfold touches, index_legs. generalize (take (Nat.min (cb_leg_count bundle) kMaxBundleLegs) (cb_legs bundle)) as legs.
  intros legs. revert assets; induction legs as [|leg legs IH]; intros assets; cbn [foldl fmap list_fmap]; [set_solver|].
  rewrite IH. clear IH. destruct (String.eqb_spec (bl_asset_id leg) "") as [E|E].
  { rewrite E. set_solver. }
  destruct (decide (asset_id = bl_asset_id leg)) as [->|Hne].
  - unfold listed. rewrite lookup_insert_eq. unfold default, id, from_option. cbn. destruct (assets !! bl_asset_id leg); cbn; set_solver.
  - unfold listed. rewrite lookup_insert_ne by done. set_solver.
Qed.

Lemma index_bundles_ok i bundles index assets index' assets' :
  index_bundles i bundles index assets = Some (index', assets') →
  NoDup (cb_bundle_id <$> bundles) ∧
  (∀ bundle, bundle ∈ bundles → index !! cb_bundle_id bundle = None) ∧
  (∀ k bundle, bundles !! k = Some bundle → index' !! cb_bundle_id bundle = Some (i + k)%nat) ∧
  (∀ bid, bid ∉ cb_bundle_id <$> bundles → index' !! bid = index !! bid) ∧
  (∀ asset_id bid, listed assets' asset_id bid ↔
     listed assets asset_id bid ∨ ∃ bundle, bundle ∈ bundles ∧ touches asset_id bundle ∧ bid = cb_bundle_id bundle).
Proof.
  revert i index assets; induction bundles as [|bundle bundles IH]; intros i index assets H; cbn [index_bundles] in H.
  { injection H as <- <-. split_and!; try done; [apply NoDup_nil_2|set_solver|set_solver]. }
  destruct (index !! cb_bundle_id bundle) eqn:E; [done|]. apply IH in H as (Hnd & Hnone & Hidx & Hkeep & Hlist).
  assert (Hnew : cb_bundle_id bundle ∉ cb_bundle_id <$> bundles).
  { intros (b & Heq & Hb)%list_elem_of_fmap. specialize (Hnone b Hb). by rewrite <- Heq, lookup_insert_eq in Hnone. }
  split_and!.
  - rewrite fmap_cons. by apply NoDup_cons.
  - intros b [->|Hb]%elem_of_cons; [done|]. specialize (Hnone b Hb). apply lookup_insert_None in Hnone. by destruct Hnone.
  - intros [|k] b Hb; cbn in Hb.
    + injection Hb as <-. rewrite Hkeep, lookup_insert_eq by done. do 2 f_equal. lia.
    + rewrite (Hidx k b Hb). f_equal. lia.
  - intros bid Hid. rewrite fmap_cons, not_elem_of_cons in Hid. destruct Hid as [Hid1 Hid2]. by rewrite Hkeep, lookup_insert_ne.
  - intros asset_id bid. rewrite Hlist, index_legs_listed. set_solver.
Qed.

Lemma std_unique_spec l : StronglySorted Z.le l → (∀ x, x ∈ std_unique l ↔ x ∈ l) ∧ StronglySorted Z.lt (std_unique l).
Proof.
  induction l as [|x l IH]; cbn; intros Hs; [split; [done|constructor]|].
  apply StronglySorted_inv in Hs as [Hs Hall]. destruct (IH Hs) as [Hin Hss]. destruct l as [|y l]; [split; [done|by repeat constructor]|].
  apply Forall_cons in Hall as Hxy. destruct Hxy as [Hxy _]. destruct (Z.eqb_spec x y) as [->|Hne].
  - split; [|done]. intros z. rewrite Hin. set_solver.
  - split; [intros z; rewrite !elem_of_cons in *; rewrite Hin; set_solver|]. constructor; [done|]. apply Forall_forall. intros z Hz%Hin.
    rewrite Forall_forall in Hall. specialize (Hall z Hz). apply StronglySorted_inv in Hs as [_ Hy]. rewrite Forall_forall in Hy.
    apply elem_of_cons in Hz as [->|Hz]; [lia|]. specialize (Hy z Hz). lia.
Qed.

(** What a loaded registry holds of the bundles of its reader, in the order of their ids. *)
Record registry_of (bundles : list CandidateBundle) (registry : BundleRegistry) : Prop := {
  rg_sorted : bg_registered registry = merge_sort bundle_before bundles;
  rg_nodup : NoDup (cb_bundle_id <$> bg_registered registry);
  rg_find bid bundle : find_bundle registry bid = Some bundle ↔ bundle ∈ bundles ∧ cb_bundle_id bundle = bid;
  rg_assets asset_id bid : bid ∈ bundles_for_asset registry asset_id ↔
    ∃ bundle, bundle ∈ bundles ∧ touches asset_id bundle ∧ bid = cb_bundle_id bundle;
  rg_ordered asset_id : StronglySorted Z.lt (bundles_for_asset registry asset_id)
}.

Lemma load_registry_of reader registry : load_from_oracle_reader reader = (true, registry) → registry_of (ar_bundles reader) registry.
Proof.
  unfold load_from_oracle_reader. destruct (_ =? 0); [done|]. generalize (registry_artifact_hash reader) as hash. intros hash.
  destruct (index_bundles _ _ _ _) as [[index assets]|] eqn:E; [|done]. intros [= <-].
  apply index_bundles_ok in E as (Hnd & _ & Hidx & Hkeep & Hlist).
  assert (Hperm : merge_sort bundle_before (ar_bundles reader) ≡ₚ ar_bundles reader) by apply merge_sort_Permutation.
  set (sorted := merge_sort bundle_before (ar_bundles reader)) in *.
  set (registry := mkBundleRegistry _ _ _ _).
  assert (Hassets : ∀ asset_id, bundles_for_asset registry asset_id = std_unique (merge_sort Z.le (default [] (assets !! asset_id)))).
  { intros asset_id. unfold bundles_for_asset, registry. cbn [bg_asset_to_bundles]. rewrite lookup_fmap. by destruct (assets !! asset_id). }
  assert (Huniq : ∀ l, (∀ x, x ∈ std_unique (merge_sort Z.le l) ↔ x ∈ l) ∧ StronglySorted Z.lt (std_unique (merge_sort Z.le l))).
  { intros l. destruct (std_unique_spec (merge_sort Z.le l) (StronglySorted_merge_sort _ _)) as [H1 H2]. split; [|done].
    intros x. by rewrite H1, (merge_sort_Permutation Z.le). }
  assert (Hfind : ∀ bid bundle, find_bundle registry bid = Some bundle ↔ bundle ∈ ar_bundles reader ∧ cb_bundle_id bundle = bid).
  { intros bid bundle. unfold find_bundle, registry; cbn [bg_bundle_index bg_registered]. split.
    + destruct (index !! bid) as [k|] eqn:Ek; [|done]. intros Hb. cbn in Hb.
      assert (Hin : bid ∈ cb_bundle_id <$> sorted).
      { destruct (decide (bid ∈ cb_bundle_id <$> sorted)); [done|]. by rewrite Hkeep in Ek. }
      apply list_elem_of_fmap in Hin as (b & -> & [j Hj]%list_elem_of_lookup). rewrite (Hidx j b Hj) in Ek. injection Ek as <-. cbn in Hb.
      rewrite Hj in Hb. injection Hb as <-. split; [|done]. rewrite <- Hperm. by eapply list_elem_of_lookup_2.
    + intros [Hb <-]. rewrite <- Hperm in Hb. apply list_elem_of_lookup in Hb as [k Hk]. by rewrite (Hidx k bundle Hk). }
  constructor.
  - done.
  - done.
  - apply Hfind.
  - intros asset_id bid. rewrite Hassets. rewrite (proj1 (Huniq _) bid).
    fold (listed assets asset_id bid). rewrite Hlist. unfold listed. rewrite lookup_empty. cbn [default from_option].
    split; [intros [[]%elem_of_nil|(b & Hb & H)]|intros (b & Hb & H); right]; exists b; (split; [|exact H]).
    + by rewrite <- Hperm.
    + by rewrite Hperm.
  - intros asset_id. rewrite Hassets. apply Huniq.
Qed.

(** ** Dirty scans *)

Lemma new_ids_spec ids seen :
  NoDup (new_ids ids seen) ∧ ∀ bid, bid ∈ new_ids ids seen ↔ bid ∈ ids ∧ bid ∉ seen.
Proof.
  revert seen; induction ids as [|i ids IH]; intros seen; cbn [new_ids]; [split; [constructor|set_solver]|].
  case_bool_decide as Hi.
  - destruct (IH seen) as [Hnd Hin]. split; [done|]. intros bid. rewrite Hin. set_solver.
  - destruct (IH ({[i]} ∪ seen)) as [Hnd Hin]. split.
    + constructor; [rewrite Hin; set_solver|done].
    + intros bid. rewrite elem_of_cons, Hin. destruct (decide (bid = i)) as [->|]; set_solver.
Qed.

(** A bundle is touched by a set of changed assets. *)
Definition dirty_bundle (dirty : DirtyAssetSet) (bundle : CandidateBundle) : Prop :=
  Exists (λ asset_id, touches asset_id bundle) (da_assets dirty).
#[export] Instance dirty_bundle_dec dirty bundle : Decision (dirty_bundle dirty bundle).
Proof. unfold dirty_bundle. apply _. Defined.

Lemma omap_find (bundles : list CandidateBundle) registry (l : list CandidateBundle) :
  registry_of bundles registry → (∀ bundle, bundle ∈ l → bundle ∈ bundles) →
  omap (find_bundle registry) (cb_bundle_id <$> l) = l.
Proof.
  intros Hr. induction l as [|b l IH]; intros Hl; [done|]. cbn.
  rewrite (proj2 (rg_find _ _ Hr (cb_bundle_id b) b)) by (split; [apply Hl; set_solver|done]).
  f_equal. apply IH. set_solver.
Qed.

Lemma sorted_ids (l : list CandidateBundle) : StronglySorted bundle_before l → StronglySorted Z.le (cb_bundle_id <$> l).
Proof.
  induction 1 as [|b l Hs IH Hall]; cbn; constructor; [done|]. by apply Forall_fmap.
Qed.

Lemma StronglySorted_filter {A} (R : relation A) (P : A → Prop) `{!∀ x, Decision (P x)} l :
  StronglySorted R l → StronglySorted R (filter P l).
Proof.
  induction 1 as [|x l Hs IH Hall]; [constructor|]. rewrite filter_cons. destruct (decide (P x)); [|done].
  constructor; [done|]. apply Forall_forall. intros y [_ Hy]%list_elem_of_filter. rewrite Forall_forall in Hall. by apply Hall.
Qed.

Lemma NoDup_fmap_filter {A B} (f : A → B) (P : A → Prop) `{!∀ x, Decision (P x)} l :
  NoDup (f <$> l) → NoDup (f <$> filter P l).
Proof.
  induction l as [|x l IH]; [done|]. rewrite fmap_cons, NoDup_cons, filter_cons. intros [Hx Hnd].
  destruct (decide (P x)); [|auto]. rewrite fmap_cons, NoDup_cons. split; [|auto].
  intros (y & Hy & [_ Hin]%list_elem_of_filter)%list_elem_of_fmap. apply Hx. rewrite Hy. by apply list_elem_of_fmap_2.
Qed.

(** A dirty scan looks at exactly the bundles it has to: on a registry
    loaded from an artifact it returns, in the order of their ids and each
    once, the artifact's bundles that have a leg on one of the changed assets,
    and no other bundle; a full scan returns all of them in the same order. *)
Theorem dirty_scan_exact reader registry dirty :
  load_from_oracle_reader reader = (true, registry) →
  full_scan registry = merge_sort bundle_before (ar_bundles reader) ∧
  dirty_asset_scan registry dirty = filter (dirty_bundle dirty) (full_scan registry).
Proof.
  intros Hr%load_registry_of. split; [by rewrite <- (rg_sorted _ _ Hr)|]. unfold full_scan, dirty_asset_scan.
  set (ids := new_ids _ ∅). set (kept := filter _ _).
  assert (Hmem : ∀ bundle, bundle ∈ bg_registered registry ↔ bundle ∈ ar_bundles reader).
  { intros b. rewrite (rg_sorted _ _ Hr). by rewrite (merge_sort_Permutation bundle_before). }
  enough (Heq : merge_sort Z.le ids = cb_bundle_id <$> kept).
  { rewrite Heq. apply (omap_find (ar_bundles reader)); [done|]. intros b [_ Hb]%list_elem_of_filter. by apply Hmem. }
  destruct (new_ids_spec (concat (bundles_for_asset registry <$> da_assets dirty)) ∅) as [Hnd Hin].
  apply (StronglySorted_unique Z.le).
  - apply (StronglySorted_merge_sort _ _).
  - apply sorted_ids, StronglySorted_filter. rewrite (rg_sorted _ _ Hr). apply (StronglySorted_merge_sort _ _).
  - rewrite merge_sort_Permutation. apply NoDup_Permutation; [done|apply NoDup_fmap_filter, (rg_nodup _ _ Hr)|].
    intros bid. unfold ids. rewrite Hin, list_elem_of_fmap. unfold kept. setoid_rewrite list_elem_of_filter. setoid_rewrite Hmem.
    rewrite list_elem_of_In, in_concat. setoid_rewrite <- list_elem_of_In. setoid_rewrite list_elem_of_fmap.
    unfold dirty_bundle. setoid_rewrite Exists_exists. split.
    + intros [(l & (a & -> & Ha) & Hb) _]. apply (rg_assets _ _ Hr) in Hb as (b & Hb & Ht & ->). eauto 10.
    + intros (b & -> & (a & Ha & Ht) & Hb). split; [|set_solver]. exists (bundles_for_asset registry a). split; [eauto|].
      apply (rg_assets _ _ Hr). eauto.
Qed.

Definition two_bundle_reader : OracleArtifactReader := mkArtifactReader two_bundles (build_runtime_plans two_bundles 5 6) 1 5 6 7.
Definition two_bundle_registry : BundleRegistry := (load_from_oracle_reader two_bundle_reader).2.

Lemma dirty_scan_exact_witness :
  load_from_oracle_reader two_bundle_reader = (true, two_bundle_registry) ∧
  dirty_asset_scan two_bundle_registry (mark_dirty "yes" dirty0) =
    filter (dirty_bundle (mark_dirty "yes" dirty0)) (full_scan two_bundle_registry) ∧
  (cb_bundle_id <$> dirty_asset_scan two_bundle_registry (mark_dirty "yes" dirty0)) = [2] ∧
  (cb_bundle_id <$> full_scan two_bundle_registry) = [1; 2].
Proof.
  assert (H : load_from_oracle_reader two_bundle_reader = (true, two_bundle_registry)) by (vm_compute; reflexivity).
  split; [exact H|]. split; [apply (dirty_scan_exact _ _ _ H)|]. split; vm_compute; reflexivity.
Defined.
