(* ===== verification/SignalIntent.v ===== *)
(** * SignalIntent: opportunity intents from building to publishing

    [engine/signal/publish], [rank] and the intent helpers of
    [core/SignalEngine.cpp]: how a priced bundle becomes an intent with its
    identity and proof hashes, and the ranking order, the duplicate filter,
    the rate limit and the publishers an intent passes on its way out. *)

From Stdlib Require Import Ascii.
From stdpp Require Import sorting strings.
From S2P Require Import Prelude FixedPoint Hashing RiskTypes Bundles Depth Reprice SignalTypes SignalPricing SignalReader.
#[local] Open Scope Z_scope.

#[local] Arguments constant {_} _ _ /.

(** ** Saturating arithmetic *)

(** [engine/signal/publish/IntentBuilder.cpp:29-40] saturating_add_u64. *)
Definition saturating_add_u64 (lhs rhs : Z) : Z :=
  let value := lhs + rhs in if u64_max <? value then u64_max else value.

(** [engine/signal/publish/IntentBuilder.cpp:42-55] saturating_mul_i64: a product in 128 bits, clamped. *)
Definition intent_saturating_mul_i64 (lhs rhs : Z) : Z :=
  let value := lhs * rhs in
  if i64_max <? value then i64_max else if value <? i64_min then i64_min else value.

(** ** Identities *)

(** [engine/signal/publish/IntentBuilder.cpp:169-173] hex_u64: sixteen digits, the most significant first. *)
Definition hex_digit (d : Z) : ascii :=
  if d <? 10 then ascii_of_nat (Z.to_nat (48 + d)) else ascii_of_nat (Z.to_nat (87 + d)).
Definition hex_u64 (value : Z) : string :=
  String.string_of_list_ascii ((λ k, hex_digit (Z.land (Z.shiftr value (4 * Z.of_nat k)) 15)) <$> rev (seq 0 16)).

(** [engine/signal/publish/IntentId.h:8-14] IntentIdentityInput. *)
Record IntentIdentityInput := mkIntentIdentity {
  iy_bundle_id : Z;
  iy_bundle_hash : Z;
  iy_snapshot_version_hash : Z;
  iy_bundle_qty : Z;
  iy_unit_edge_tick : Z
}.

(** [engine/signal/publish/IntentBuilder.cpp:175-185] make_intent_id. *)
Definition identity_intent_id (input : IntentIdentityInput) : Z :=
  let hash := mix_u64 fnv_offset (iy_bundle_id input) in
  let hash := mix_u64 hash (iy_bundle_hash input) in
  let hash := mix_u64 hash (iy_snapshot_version_hash input) in
  let hash := mix_i64 hash (iy_bundle_qty input) in
  mix_i64 hash (iy_unit_edge_tick input).

(** [engine/signal/publish/IntentBuilder.cpp:187-191] make_idempotency_key. *)
Definition make_idempotency_key (input : IntentIdentityInput) : string := hex_u64 (identity_intent_id input).

Definition identity_of (intent : OpportunityIntent) : IntentIdentityInput :=
  mkIntentIdentity (oi_bundle_id intent) (oi_bundle_hash intent) (oi_snapshot_version_hash intent)
    (oi_bundle_qty intent) (oi_unit_edge_tick intent).

(** [engine/signal/publish/IntentBuilder.cpp:96-105] make_proof_hash; [proof_hash_for] of SignalEngine.cpp is the same function. *)
Definition make_proof_hash (intent : OpportunityIntent) : Z :=
  let hash := mix_u64 fnv_offset (oi_oracle_artifact_hash intent) in
  let hash := mix_u64 hash (oi_constraint_hash intent) in
  let hash := mix_u64 hash (oi_bundle_hash intent) in
  mix_u64 hash (oi_snapshot_version_hash intent).

(** [engine/signal/publish/IntentBuilder.cpp:158-165] proof_ref. *)
Definition proof_ref (intent : OpportunityIntent) : string :=
  ("oracle:" ++ hex_u64 (oi_oracle_artifact_hash intent) ++ ":constraint:" ++ hex_u64 (oi_constraint_hash intent) ++
   ":bundle:" ++ hex_u64 (oi_bundle_hash intent) ++ ":snapshot:" ++ hex_u64 (oi_snapshot_version_hash intent))%string.

(** ** Legs *)

(** [engine/signal/publish/IntentBuilder.cpp:107-123] copy_bundle_legs; SignalEngine.cpp has the same function. *)
Definition copy_bundle_legs (bundle : CandidateBundle) (intent : OpportunityIntent) : OpportunityIntent :=
  let leg_count := Nat.min (cb_leg_count bundle) kMaxIntentLegs in
  intent <| oi_leg_count := leg_count |>
    <| oi_legs ::= imap (λ i target,
         if (i <? leg_count)%nat then
           let source := cb_legs bundle !!! i in
           target <| il_market_id := bl_market_id source |> <| il_asset_id := bl_asset_id source |>
             <| il_side := bl_side source |> <| il_quantity_lots := bl_quantity_lots source |>
         else target) |>.

(** [engine/signal/core/SignalEngine.cpp:124-136] copy_plan_asset_indices. *)
Definition copy_plan_asset_indices (plan : BundleRuntimePlan) (intent : OpportunityIntent) : OpportunityIntent :=
  intent <| oi_legs ::= imap (λ i target,
    if (i <? oi_leg_count intent)%nat && (i <? pn_leg_count plan)%nat && (i <? kMaxIntentLegs)%nat then
      target <| il_asset_index := pn_asset_indices plan !!! i |>
    else target) |>.

(** [engine/signal/publish/IntentBuilder.cpp:134-155] copy_priced_legs, one leg. *)
Definition copy_priced_leg (bundle_qty : Z) (source : FillSimulationLeg) (target : IntentLeg) : IntentLeg :=
  if String.eqb (fs_asset_id source) "" then target
  else
    let requested := intent_saturating_mul_i64 (fs_requested_qty_lots source) bundle_qty in
    target <| il_asset_id := fs_asset_id source |>
      <| il_quantity_lots := fs_requested_qty_lots source |>
      <| il_estimated_vwap_tick := fs_vwap_price_tick source |>
      <| il_worst_price_tick := fs_worst_price_tick source |>
      <| il_estimated_cost_tick := fs_total_cost_tick source |>
      <| il_requested_qty_lots := requested |>
      <| il_executable_qty_lots := fs_executable_qty_lots source |>
      <| il_depth_margin_bps := depth_margin_bps (fs_executable_qty_lots source) requested |>
      <| il_enough_depth := fs_enough_depth source |>.

(** [engine/signal/publish/IntentBuilder.cpp:125-156] copy_priced_legs. *)
Definition copy_priced_legs (cost : CostResult) (intent : OpportunityIntent) : OpportunityIntent :=
  let priced_count := cost_leg_count cost in
  let leg_count := Nat.max (oi_leg_count intent) priced_count in
  intent <| oi_leg_count := leg_count |>
    <| oi_legs ::= imap (λ i target,
         if (i <? leg_count)%nat && (i <? priced_count)%nat then copy_priced_leg (cs_bundle_qty cost) (cost_leg_at cost i) target
         else target) |>.

(** [engine/signal/core/SignalEngine.cpp:247-284] copy_cost_fields. *)
Definition copy_cost_fields (cost : CostResult) (intent : OpportunityIntent) : OpportunityIntent :=
  copy_priced_legs cost
    (intent <| oi_enough_depth := cs_executable cost |> <| oi_bundle_qty := cs_bundle_qty cost |>
       <| oi_original_bundle_qty := cs_bundle_qty cost |> <| oi_estimated_cost_tick := cs_total_cost_tick cost |>
       <| oi_slippage_buffer_tick := cs_max_leg_slippage_tick cost |>
       <| oi_max_leg_slippage_tick := cs_max_leg_slippage_tick cost |>).

(** ** Building *)

(** [engine/signal/publish/IntentBuilder.h:12-29] IntentBuildInput; [snapshot] is the version of the read result it points to. *)
Record IntentBuildInput := mkIntentBuildInput {
  ib_bundle : option CandidateBundle;
  ib_snapshot : option SnapshotVersion;
  ib_snapshot_version : SnapshotVersion;
  ib_cost : option CostResult;
  ib_edge : option EdgeBreakdown;
  ib_now_ns : Z;
  ib_ttl_ns : Z;
  ib_oracle_artifact_version : Z;
  ib_oracle_artifact_hash : Z;
  ib_constraint_hash : Z;
  ib_bundle_hash : Z;
  ib_valid_under_settlement : bool;
  ib_passed_quality_gate : bool
}.

(** [engine/signal/publish/IntentBuilder.cpp:73-80] effective_bundle_hash. *)
Definition effective_bundle_hash (input : IntentBuildInput) : Z :=
  if negb (ib_bundle_hash input =? 0) then ib_bundle_hash input
  else match ib_bundle input with None => ib_bundle_hash input | Some bundle => hash_candidate_bundle bundle end.

(** [engine/signal/publish/IntentBuilder.cpp:82-94] effective_artifact_hash. *)
Definition effective_artifact_hash (input : IntentBuildInput) (bundle_hash : Z) : Z :=
  if negb (ib_oracle_artifact_hash input =? 0) then ib_oracle_artifact_hash input
  else mix_u64 (mix_u64 (mix_u64 fnv_offset (ib_oracle_artifact_version input)) (ib_constraint_hash input)) bundle_hash.

(** [engine/signal/publish/IntentBuilder.cpp:205-256] build, the fields that do not come from the legs. *)
Definition build_fields (input : IntentBuildInput) (bundle : CandidateBundle) (cost : CostResult) (edge : EdgeBreakdown)
    : OpportunityIntent :=
  let snapshot_version := default (ib_snapshot_version input) (ib_snapshot input) in
  let bundle_hash := effective_bundle_hash input in
  let per_bundle tick := intent_saturating_mul_i64 tick (eb_bundle_qty edge) in
  intent0 <| oi_bundle_id := cb_bundle_id bundle |>
    <| oi_status := if eb_passed edge then IsPaperOpportunity else IsRejectedLowEdge |>
    <| oi_reject_code := if eb_passed edge then IrcNone else IrcLowEdge |>
    <| oi_valid_under_settlement := ib_valid_under_settlement input |>
    <| oi_passed_quality_gate := ib_passed_quality_gate input |>
    <| oi_enough_depth := cs_executable cost |>
    <| oi_oracle_artifact_version := ib_oracle_artifact_version input |>
    <| oi_bundle_hash := bundle_hash |>
    <| oi_constraint_hash := ib_constraint_hash input |>
    <| oi_oracle_artifact_hash := effective_artifact_hash input bundle_hash |>
    <| oi_snapshot_version := sv_max_book_version snapshot_version |>
    <| oi_snapshot_version_hash := sv_combined_hash snapshot_version |>
    <| oi_bundle_qty := eb_bundle_qty edge |>
    <| oi_original_bundle_qty := eb_bundle_qty edge |>
    <| oi_guaranteed_payout_tick := per_bundle (eb_guaranteed_payout_per_bundle_tick edge) |>
    <| oi_estimated_cost_tick := cs_total_cost_tick cost |>
    <| oi_estimated_fee_tick := per_bundle (eb_fee_per_bundle_tick edge) |>
    <| oi_latency_buffer_tick := per_bundle (eb_latency_buffer_per_bundle_tick edge) |>
    <| oi_slippage_buffer_tick := per_bundle (eb_slippage_buffer_per_bundle_tick edge) |>
    <| oi_max_leg_slippage_tick := cs_max_leg_slippage_tick cost |>
    <| oi_unit_edge_tick := eb_unit_edge_tick edge |>
    <| oi_total_edge_tick := eb_total_edge_tick edge |>
    <| oi_estimated_edge_tick := eb_total_edge_tick edge |>
    <| oi_edge_bps := eb_edge_bps edge |>
    <| oi_min_edge_tick := cb_min_edge_tick bundle |>
    <| oi_created_ts_ns := ib_now_ns input |>
    <| oi_expires_at_ns := saturating_add_u64 (ib_now_ns input) (ib_ttl_ns input) |>.

(** [engine/signal/publish/IntentBuilder.cpp:261-271] build, the hashes set last. *)
Definition build_identity (intent : OpportunityIntent) : OpportunityIntent :=
  let intent_id := identity_intent_id (identity_of intent) in
  let proof_hash := make_proof_hash intent in
  intent <| oi_intent_id := intent_id |> <| oi_idempotency_hash := intent_id |> <| oi_proof_hash := proof_hash |>.

(** [engine/signal/publish/IntentBuilder.cpp:193-272] build. *)
Definition build_intent (input : IntentBuildInput) : OpportunityIntent :=
  match ib_bundle input, ib_cost input, ib_edge input with
  | Some bundle, Some cost, Some edge =>
      build_identity (copy_priced_legs cost (copy_bundle_legs bundle (build_fields input bundle cost edge)))
  | _, _, _ => intent0
  end.

(** [engine/signal/publish/IntentBuilder.cpp:274-284] materialize_intent_strings. *)
Definition materialize_intent_strings (intent : OpportunityIntent) : OpportunityIntent :=
  let intent :=
    if String.eqb (oi_idempotency_key intent) "" && negb (oi_idempotency_hash intent =? 0)
    then intent <| oi_idempotency_key := hex_u64 (oi_idempotency_hash intent) |> else intent in
  if String.eqb (oi_proof_ref intent) "" && negb (oi_proof_hash intent =? 0)
  then intent <| oi_proof_ref := proof_ref intent |> else intent.

(** ** Ranking *)

(** [engine/signal/rank/OpportunityRanker.cpp:9-11] status_priority. *)
Definition status_priority (status : IntentStatus) : Z := if decide (status = IsPaperOpportunity) then 0 else 1.

(** [engine/signal/rank/OpportunityRanker.cpp:13-35] intent_less; [candidate_less] of SignalEngine.cpp compares the intents alike. *)
Definition intent_less (left right : OpportunityIntent) : bool :=
  let left_status := status_priority (oi_status left) in
  let right_status := status_priority (oi_status right) in
  if negb (left_status =? right_status) then left_status <? right_status
  else if negb (oi_total_edge_tick left =? oi_total_edge_tick right) then oi_total_edge_tick right <? oi_total_edge_tick left
  else if negb (oi_edge_bps left =? oi_edge_bps right) then oi_edge_bps right <? oi_edge_bps left
  else if negb (oi_bundle_qty left =? oi_bundle_qty right) then oi_bundle_qty right <? oi_bundle_qty left
  else if negb (oi_bundle_id left =? oi_bundle_id right) then oi_bundle_id left <? oi_bundle_id right
  else oi_intent_id left <? oi_intent_id right.

(** [left] may stand before [right] in a sorted list. *)
Definition ranked_before (left right : OpportunityIntent) : Prop := intent_less right left = false.
#[export] Instance ranked_before_dec left right : Decision (ranked_before left right).
Proof. unfold ranked_before. apply _. Defined.

(** [engine/signal/rank/OpportunityRanker.cpp:39-46] rank; among intents that compare equal [std::sort] may keep any order. *)
Definition rank_intents (intents : list OpportunityIntent) : list OpportunityIntent := merge_sort ranked_before intents.

(** ** Duplicates *)

(** [engine/signal/publish/IntentDeduper.h:33-36] IntentDeduper. *)
Record IntentDeduper := mkIntentDeduper {
  dd_ttl_ns : Z;
  dd_seen : gmap string Z;
  dd_seen_hashes : gmap Z Z
}.

(** [engine/signal/publish/IntentDeduper.cpp:21-24] seen_recently, the age test; a [std::uint64_t] difference. *)
Definition seen_within (ttl_ns now_ns seen_at_ns : Z) : bool := (seen_at_ns <=? now_ns) && (now_ns - seen_at_ns <? ttl_ns).

(** [engine/signal/publish/IntentDeduper.cpp:8-28] seen_recently, by key. *)
Definition seen_key_recently (idempotency_key : string) (now_ns : Z) (deduper : IntentDeduper) : bool * IntentDeduper :=
  if String.eqb idempotency_key "" then (false, deduper)
  else
    match dd_seen deduper !! idempotency_key with
    | None => (false, deduper)
    | Some seen_at_ns =>
        if seen_within (dd_ttl_ns deduper) now_ns seen_at_ns then (true, deduper)
        else (false, deduper <| dd_seen ::= delete idempotency_key |>)
    end.

(** [engine/signal/publish/IntentDeduper.cpp:30-50] seen_recently, by hash. *)
Definition seen_recently (idempotency_hash now_ns : Z) (deduper : IntentDeduper) : bool * IntentDeduper :=
  if idempotency_hash =? 0 then (false, deduper)
  else
    match dd_seen_hashes deduper !! idempotency_hash with
    | None => (false, deduper)
    | Some seen_at_ns =>
        if seen_within (dd_ttl_ns deduper) now_ns seen_at_ns then (true, deduper)
        else (false, deduper <| dd_seen_hashes ::= delete idempotency_hash |>)
    end.

(** [engine/signal/publish/IntentDeduper.cpp:52-60] mark_seen, by key. *)
Definition mark_key_seen (idempotency_key : string) (now_ns : Z) (deduper : IntentDeduper) : IntentDeduper :=
  if String.eqb idempotency_key "" then deduper else deduper <| dd_seen ::= <[idempotency_key := now_ns]> |>.

(** [engine/signal/publish/IntentDeduper.cpp:62-70] mark_seen, by hash. *)
Definition mark_seen (idempotency_hash now_ns : Z) (deduper : IntentDeduper) : IntentDeduper :=
  if idempotency_hash =? 0 then deduper else deduper <| dd_seen_hashes ::= <[idempotency_hash := now_ns]> |>.

(** ** The rate limit *)

(** [engine/signal/publish/IntentRateLimiter.h:14-17] IntentRateLimiter. *)
Record IntentRateLimiter := mkIntentRateLimiter {
  rl_max_intents_per_second : Z;
  rl_current_second : Z;
  rl_emitted_this_second : Z;
  rl_has_window : bool
}.

(** [engine/signal/publish/IntentRateLimiter.cpp:11-13] IntentRateLimiter. *)
Definition rate_limiter (max_intents_per_second : Z) : IntentRateLimiter := mkIntentRateLimiter max_intents_per_second 0 0 false.

(** [engine/signal/publish/IntentRateLimiter.cpp:7-7] kNsPerSecond. *)
Definition kNsPerSecond : Z := 1000000000.

(** [engine/signal/publish/IntentRateLimiter.cpp:15-32] allow. *)
Definition allow (now_ns : Z) (limiter : IntentRateLimiter) : bool * IntentRateLimiter :=
  let second := now_ns / kNsPerSecond in
  let limiter :=
    if negb (rl_has_window limiter) || negb (second =? rl_current_second limiter)
    then limiter <| rl_current_second := second |> <| rl_emitted_this_second := 0 |> <| rl_has_window := true |>
    else limiter in
  if rl_max_intents_per_second limiter <=? 0 then (false, limiter)
  else if rl_max_intents_per_second limiter <=? rl_emitted_this_second limiter then (false, limiter)
  else (true, limiter <| rl_emitted_this_second ::= Z.succ |>).

(** ** Evidence and publishers *)

(** [engine/signal/core/SignalEngine.h:24-46] SignalPublishedEvidence: the first [snapshot_count] snapshots and
    [depth_view_count] views of its arrays. *)
Record SignalPublishedEvidence := mkPublishedEvidence {
  pe_snapshots : list MarketStateSnapshot;
  pe_depth_views : list MarketDepthView;
  pe_snapshot_version_hash : Z;
  pe_read_ts_ns : Z
}.
Definition published_evidence0 : SignalPublishedEvidence := mkPublishedEvidence [] [] 0 0.

(** [engine/signal/public/SignalEvidenceView.h:10-19] SignalEvidenceView: the arrays it points into, up to their counts. *)
Abbreviation SignalEvidenceView := SignalPublishedEvidence.

(** [engine/signal/core/SignalEngine.cpp:36-52] evidence_from_depth. *)
Definition evidence_from_depth (depth : DepthReadResult) (read_ts_ns : Z) : SignalPublishedEvidence :=
  mkPublishedEvidence [] (take kMaxIntentLegs (rv_depth_views depth)) (sv_combined_hash (rv_snapshot_version depth)) read_ts_ns.

(** [engine/signal/core/SignalEngine.cpp:19-34] evidence_from_batch. *)
Definition evidence_from_batch (snapshots : SnapshotBatchReadResult) (read_ts_ns : Z) : SignalPublishedEvidence :=
  mkPublishedEvidence (take kMaxIntentLegs (rd_snapshots snapshots)) [] (sv_combined_hash (rd_snapshot_version snapshots)) read_ts_ns.

(** [engine/signal/core/SignalEngine.cpp:54-69] evidence_from_snapshots. *)
Definition evidence_from_snapshots (snapshots : SnapshotReadResult) (read_ts_ns : Z) : SignalPublishedEvidence :=
  mkPublishedEvidence (take kMaxIntentLegs (sr_snapshots snapshots)) [] (sv_combined_hash (sr_snapshot_version snapshots)) read_ts_ns.

(** [engine/signal/publish/IIntentPublisher.h:8-25] IIntentPublisher: what a publisher does with an intent and its evidence, and
    whether it wants the strings of an intent filled in. *)
Class IIntentPublisher (P : Type) := {
  publish : OpportunityIntent → SignalEvidenceView → P → P;
  requires_materialized_strings : bool
}.

(** [engine/signal/publish/CapturingIntentPublisher.h:47-48] CapturingIntentPublisher. *)
Record CapturingIntentPublisher := mkCapturing {
  cp_intents : list OpportunityIntent;
  cp_evidence : list SignalPublishedEvidence
}.

(** [engine/signal/publish/CapturingIntentPublisher.cpp:23-51] publish. *)
Definition capture (intent : OpportunityIntent) (evidence : SignalEvidenceView) (publisher : CapturingIntentPublisher) : CapturingIntentPublisher :=
  mkCapturing (cp_intents publisher ++ [intent])
    (cp_evidence publisher ++ [mkPublishedEvidence (take kMaxIntentLegs (pe_snapshots evidence)) (take kMaxIntentLegs (pe_depth_views evidence))
       (pe_snapshot_version_hash evidence) (pe_read_ts_ns evidence)]).
#[export] Instance capturing_publisher : IIntentPublisher CapturingIntentPublisher := {| publish := capture; requires_materialized_strings := true |}.

(** [engine/signal/publish/HashOnlySignalPublisher.h:11-27] HashOnlySignalRecord. *)
Record HashOnlySignalRecord := mkHashOnlyRecord {
  ho_intent_id : Z;
  ho_bundle_id : Z;
  ho_status : IntentStatus;
  ho_idempotency_hash : Z;
  ho_proof_hash : Z;
  ho_snapshot_version_hash : Z;
  ho_oracle_artifact_hash : Z;
  ho_bundle_hash : Z;
  ho_bundle_qty : Z;
  ho_unit_edge_tick : Z;
  ho_total_edge_tick : Z;
  ho_edge_bps : Z
}.

(** [engine/signal/publish/HashOnlySignalPublisher.cpp:31-46] publish. *)
Definition hash_only_record (intent : OpportunityIntent) : HashOnlySignalRecord :=
  mkHashOnlyRecord (oi_intent_id intent) (oi_bundle_id intent) (oi_status intent) (oi_idempotency_hash intent) (oi_proof_hash intent)
    (oi_snapshot_version_hash intent) (oi_oracle_artifact_hash intent) (oi_bundle_hash intent) (oi_bundle_qty intent)
    (oi_unit_edge_tick intent) (oi_total_edge_tick intent) (oi_edge_bps intent).
#[export] Instance hash_only_publisher : IIntentPublisher (list HashOnlySignalRecord) :=
  {| publish intent _ records := records ++ [hash_only_record intent]; requires_materialized_strings := false |}.

(** The value of the enumerator. *)
Definition intent_status_code (status : IntentStatus) : Z :=
  match status with
  | IsCandidateOnly => 0 | IsRejectedInvalidSettlement => 1 | IsRejectedBadMarketState => 2 | IsRejectedMissingSnapshot => 3
  | IsRejectedInsufficientDepth => 4 | IsRejectedLowEdge => 5 | IsDuplicateIntent => 6 | IsPaperOpportunity => 7
  end.

(** [engine/signal/publish/HashOnlySignalPublisher.cpp:67-80] output_hash, one record. *)
Definition hash_record (hash : Z) (record : HashOnlySignalRecord) : Z :=
  let hash := foldl mix_u64 hash
    [ho_intent_id record; ho_bundle_id record; intent_status_code (ho_status record); ho_idempotency_hash record; ho_proof_hash record;
     ho_snapshot_version_hash record; ho_oracle_artifact_hash record; ho_bundle_hash record] in
  foldl mix_i64 hash [ho_bundle_qty record; ho_unit_edge_tick record; ho_total_edge_tick record; ho_edge_bps record].

(** [engine/signal/publish/HashOnlySignalPublisher.cpp:61-82] output_hash. *)
Definition hash_only_output (records : list HashOnlySignalRecord) : Z :=
  match records with [] => 0 | _ => foldl hash_record fnv_offset records end.

(** ** The ranking is a total preorder *)

(** What an intent is ranked by, best first. *)
Definition rank_key (intent : OpportunityIntent) : list Z :=
  [status_priority (oi_status intent); - oi_total_edge_tick intent; - oi_edge_bps intent; - oi_bundle_qty intent;
   oi_bundle_id intent; oi_intent_id intent].

Fixpoint lex_lt (k l : list Z) : Prop :=
  match k, l with
  | x :: k, y :: l => x < y ∨ (x = y ∧ lex_lt k l)
  | _, _ => False
  end.

Lemma lex_lt_trans k l m : lex_lt k l → lex_lt l m → lex_lt k m.
Proof.
  revert l m; induction k as [|x k IH]; intros [|y l] [|z m]; cbn; try done.
  intros [?|[-> ?]] [?|[-> ?]]; [left; lia..|]. right. eauto.
Qed.

Lemma lex_lt_irrefl k : ¬ lex_lt k k.
Proof. induction k as [|x k IH]; cbn; [tauto|]. intros [?|[_ ?]]; [lia|tauto]. Qed.

Lemma lex_lt_trichotomy k l : length k = length l → lex_lt k l ∨ k = l ∨ lex_lt l k.
Proof.
  revert l; induction k as [|x k IH]; intros [|y l]; cbn; try done; [auto|]. intros [= Hl].
  destruct (IH l Hl) as [?|[->|?]], (Z.lt_trichotomy x y) as [?|[->|?]]; auto.
Qed.

(** [intent_less] is the lexicographic order of the keys. *)
Lemma intent_less_key left right : intent_less left right = true ↔ lex_lt (rank_key left) (rank_key right).
Proof.
  unfold intent_less, rank_key. cbv zeta. cbn [lex_lt].
  generalize (status_priority (oi_status left)) (status_priority (oi_status right)). intros s1 s2.
  repeat match goal with
  | |- context [negb (?x =? ?y)] => destruct (Z.eqb_spec x y); cbn [negb]; [|rewrite Z.ltb_lt; lia]
  end.
  rewrite Z.ltb_lt. lia.
Qed.

Lemma intent_less_false left right : intent_less left right = false ↔ ¬ lex_lt (rank_key left) (rank_key right).
Proof. rewrite <- intent_less_key. by destruct (intent_less left right). Qed.

#[export] Instance ranked_before_trans : Transitive ranked_before.
Proof.
  intros a b c. unfold ranked_before. rewrite !intent_less_false. intros Hab Hbc Hac.
  destruct (lex_lt_trichotomy (rank_key a) (rank_key b) eq_refl) as [H|[H|H]].
  - apply Hbc. by eapply lex_lt_trans.
  - apply Hbc. by rewrite <- H.
  - done.
Qed.
#[export] Instance ranked_before_total : Total ranked_before.
Proof.
  intros a b. unfold ranked_before. rewrite !intent_less_false.
  destruct (lex_lt_trichotomy (rank_key a) (rank_key b) eq_refl) as [H|[H|H]].
  - left. intros H'. eapply lex_lt_irrefl, lex_lt_trans; done.
  - left. rewrite H. apply lex_lt_irrefl.
  - right. intros H'. eapply lex_lt_irrefl, lex_lt_trans; done.
Qed.

(** ** The duplicate filter and the rate limit, one call at a time *)

Lemma seen_within_true ttl now t : seen_within ttl now t = true ↔ t <= now ∧ now - t < ttl.
Proof. unfold seen_within. rewrite andb_true_iff, Z.leb_le, Z.ltb_lt. done. Qed.

(** After asking for and marking a hash, the deduper remembers every hash it should: those it held that are not this one. *)
Lemma seen_recently_false h now d d' :
  h ≠ 0 → seen_recently h now d = (false, d') →
  (∀ t, dd_seen_hashes d !! h = Some t → ¬ (t <= now ∧ now - t < dd_ttl_ns d)) ∧
  dd_ttl_ns (mark_seen h now d') = dd_ttl_ns d ∧
  dd_seen_hashes (mark_seen h now d') = <[h := now]> (dd_seen_hashes d).
Proof.
  intros Hh. unfold seen_recently, mark_seen. rewrite (proj2 (Z.eqb_neq h 0)) by done.
  destruct (dd_seen_hashes d !! h) as [t|] eqn:E.
  - destruct (seen_within _ _ _) eqn:Es; [done|]. intros [= <-]. split_and!; [|by destruct d|].
    + intros ? [= <-]. rewrite <- seen_within_true. by rewrite Es.
    + destruct d; cbn. by rewrite insert_delete_eq.
  - intros [= <-]. by destruct d.
Qed.

Lemma seen_recently_true h now d d' :
  seen_recently h now d = (true, d') → d' = d ∧ ∃ t, dd_seen_hashes d !! h = Some t ∧ t <= now ∧ now - t < dd_ttl_ns d.
Proof.
  unfold seen_recently. destruct (h =? 0); [done|]. destruct (dd_seen_hashes d !! h) as [t|]; [|done].
  destruct (seen_within _ _ _) eqn:Es; [|done]. intros [= <-]. split; [done|]. exists t. split; [done|]. by apply seen_within_true.
Qed.

Lemma key_recently_hashes k now d : dd_seen_hashes (seen_key_recently k now d).2 = dd_seen_hashes d ∧ dd_ttl_ns (seen_key_recently k now d).2 = dd_ttl_ns d.
Proof.
  unfold seen_key_recently. destruct (String.eqb k ""); [done|]. destruct (dd_seen d !! k); [|done]. destruct (seen_within _ _ _); [done|]. by destruct d.
Qed.

Lemma mark_key_hashes k now d : dd_seen_hashes (mark_key_seen k now d) = dd_seen_hashes d ∧ dd_ttl_ns (mark_key_seen k now d) = dd_ttl_ns d.
Proof. unfold mark_key_seen. destruct (String.eqb k ""); [done|]. by destruct d. Qed.

(** ** Intents fit their types *)

(** Every field within the width of its C++ type. *)
Definition leg_typed (leg : IntentLeg) : Prop :=
  0 <= il_asset_index leg < 2 ^ 32 ∧
  Forall in_i64 [il_quantity_lots leg; il_estimated_vwap_tick leg; il_worst_price_tick leg; il_estimated_cost_tick leg;
    il_requested_qty_lots leg; il_executable_qty_lots leg; il_depth_margin_bps leg].
Record intent_typed (intent : OpportunityIntent) : Prop := {
  ty_u64 : Forall in_u64 [oi_intent_id intent; oi_bundle_id intent; oi_oracle_artifact_hash intent; oi_constraint_hash intent;
    oi_bundle_hash intent; oi_snapshot_version intent; oi_snapshot_version_hash intent; oi_idempotency_hash intent; oi_proof_hash intent;
    oi_created_ts_ns intent; oi_expires_at_ns intent; oi_oracle_artifact_version intent];
  ty_i64 : Forall in_i64 [oi_guaranteed_payout_tick intent; oi_estimated_cost_tick intent; oi_estimated_fee_tick intent;
    oi_latency_buffer_tick intent; oi_estimated_edge_tick intent; oi_min_edge_tick intent; oi_bundle_qty intent;
    oi_original_bundle_qty intent; oi_unit_edge_tick intent; oi_total_edge_tick intent; oi_edge_bps intent;
    oi_slippage_buffer_tick intent; oi_max_leg_slippage_tick intent];
  ty_leg_count : (oi_leg_count intent <= kMaxIntentLegs)%nat;
  ty_length : length (oi_legs intent) = kMaxIntentLegs;
  ty_legs : Forall leg_typed (oi_legs intent)
}.

Record bundle_typed (bundle : CandidateBundle) : Prop := {
  bt_id : in_u64 (cb_bundle_id bundle);
  bt_ticks : in_i64 (cb_guaranteed_payout_tick bundle) ∧ in_i64 (cb_min_edge_tick bundle);
  bt_legs : Forall (λ leg, in_i64 (bl_quantity_lots leg)) (cb_legs bundle)
}.

Definition sim_leg_typed (leg : FillSimulationLeg) : Prop :=
  Forall in_i64 [fs_requested_qty_lots leg; fs_executable_qty_lots leg; fs_vwap_price_tick leg; fs_total_cost_tick leg; fs_worst_price_tick leg].
Record cost_typed (cost : CostResult) : Prop := {
  ct_i64 : Forall in_i64 [cs_bundle_qty cost; cs_total_cost_tick cost; cs_avg_cost_tick cost; cs_max_leg_slippage_tick cost];
  ct_count : (cost_leg_count cost <= kMaxIntentLegs)%nat;
  ct_legs : Forall sim_leg_typed (cs_fixed_legs cost) ∧ Forall sim_leg_typed (cs_legs cost)
}.

Record edge_typed (edge : EdgeBreakdown) : Prop := {
  et_i64 : Forall in_i64 [eb_guaranteed_payout_per_bundle_tick edge; eb_vwap_cost_per_bundle_tick edge; eb_fee_per_bundle_tick edge;
    eb_latency_buffer_per_bundle_tick edge; eb_slippage_buffer_per_bundle_tick edge; eb_unit_edge_tick edge; eb_total_edge_tick edge;
    eb_edge_bps edge; eb_bundle_qty edge]
}.

Record input_typed (input : IntentBuildInput) : Prop := {
  it_u64 : Forall in_u64 [ib_now_ns input; ib_ttl_ns input; ib_oracle_artifact_version input; ib_oracle_artifact_hash input;
    ib_constraint_hash input; ib_bundle_hash input];
  it_version : ∀ v, Some v = ib_snapshot input ∨ v = ib_snapshot_version input → in_u64 (sv_max_book_version v) ∧ in_u64 (sv_combined_hash v);
  it_bundle bundle : ib_bundle input = Some bundle → bundle_typed bundle;
  it_cost cost : ib_cost input = Some cost → cost_typed cost;
  it_edge edge : ib_edge input = Some edge → edge_typed edge
}.

Lemma intent_saturating_mul_clamp a b : intent_saturating_mul_i64 a b = clamp_i64 (a * b).
Proof. unfold intent_saturating_mul_i64, clamp_i64. destruct (Z.ltb_spec i64_max (a * b)), (Z.ltb_spec (a * b) i64_min); lia. Qed.

Lemma intent_saturating_mul_typed a b : in_i64 (intent_saturating_mul_i64 a b).
Proof. rewrite intent_saturating_mul_clamp. apply clamp_i64_range. Qed.

Lemma saturating_add_typed a b : in_u64 a → in_u64 b → in_u64 (saturating_add_u64 a b).
Proof. unfold saturating_add_u64, in_u64. destruct (Z.ltb_spec u64_max (a + b)); lia. Qed.

Lemma depth_margin_typed a b : in_i64 (depth_margin_bps a b).
Proof.
  unfold depth_margin_bps. destruct (_ || _) eqn:E; [rlia|]. apply orb_false_iff in E as [E1%Z.leb_gt E2%Z.leb_gt]. cbv zeta.
  pose proof (Z.quot_pos (a * 10000) b ltac:(lia) ltac:(lia)). destruct (Z.ltb_spec i64_max (Z.quot (a * 10000) b)); rlia.
Qed.

Lemma hash_bundle_typed bundle : in_u64 (hash_candidate_bundle bundle).
Proof. unfold hash_candidate_bundle, mix_i64. cbv zeta. apply mix_u64_range. Qed.

Lemma intent_hashes_typed intent : in_u64 (identity_intent_id (identity_of intent)) ∧ in_u64 (make_proof_hash intent).
Proof. unfold identity_intent_id, make_proof_hash, mix_i64. cbv zeta. split; apply mix_u64_range. Qed.

Lemma Forall_total `{Inhabited A} (P : A → Prop) l i : P inhabitant → Forall P l → P (l !!! i).
Proof. intros Hd Hl. rewrite list_lookup_total_alt. destruct (l !! i) eqn:E; [by eapply Forall_lookup_1|done]. Qed.

Lemma Forall_imap {A} (P : A → Prop) (f : nat → A → A) l : (∀ i x, P x → P (f i x)) → Forall P l → Forall P (imap f l).
Proof.
  intros Hf Hl. apply Forall_lookup_2. intros i y. rewrite list_lookup_imap, fmap_Some. intros (x & Hx & ->).
  apply Hf. by eapply Forall_lookup_1.
Qed.

Ltac typed_fields := repeat (apply Forall_cons; split); try apply Forall_nil; try done.

Lemma copy_priced_leg_typed qty source target : sim_leg_typed source → leg_typed target → leg_typed (copy_priced_leg qty source target).
Proof.
  intros Hs Ht. unfold copy_priced_leg. destruct (String.eqb _ _); [done|]. destruct target. destruct Ht as [Hi _]. split; [done|]. cbn.
  unfold sim_leg_typed in Hs. repeat (apply Forall_cons in Hs as [? Hs]). typed_fields; [apply intent_saturating_mul_typed|apply depth_margin_typed].
Qed.

Lemma copy_legs_typed bundle cost intent :
  bundle_typed bundle → cost_typed cost → Forall leg_typed (oi_legs intent) →
  Forall leg_typed (oi_legs (copy_priced_legs cost (copy_bundle_legs bundle intent))).
Proof.
  intros [_ _ Hb] [_ _ [Hf Hv]] Hl. unfold copy_priced_legs, copy_bundle_legs. cbn. apply Forall_imap; [|apply Forall_imap; [|done]].
  - intros i leg Hleg. destruct (_ && _); [|done]. apply copy_priced_leg_typed; [|done]. unfold cost_leg_at.
    destruct (_ =? _)%nat; apply Forall_total; (done || (cbn; typed_fields; rlia)).
  - intros i leg [Hi Hleg]. match goal with |- context [if ?b then _ else _] => destruct b end; [|by split]. destruct leg. split; [done|]. cbn in *.
    apply Forall_cons in Hleg as [_ Hleg]. apply Forall_cons. split; [|done].
    apply (Forall_total (λ leg, in_i64 (bl_quantity_lots leg))); [cbn; rlia|done].
Qed.

(** An intent fits its types: built from a bundle, a cost, an edge and
    hashes whose fields lie within their widths, every field of it does, the
    products included, which saturate; it has sixteen legs of which at most
    sixteen are in use. *)
Theorem built_intent_typed input : input_typed input → intent_typed (build_intent input).
Proof.
  intros [Hu Hv Hb Hc He]. unfold build_intent.
  assert (Hz : in_u64 0 ∧ in_i64 0) by (split; rlia). destruct Hz as [Hz1 Hz2].
  assert (H0 : Forall leg_typed (oi_legs intent0)).
  { apply Forall_replicate. split; [cbn; lia|]. cbn. typed_fields. }
  destruct (ib_bundle input) as [bundle|] eqn:Eb; [|constructor; (done || typed_fields); cbn; lia].
  destruct (ib_cost input) as [cost|] eqn:Ec; [|constructor; (done || typed_fields); cbn; lia].
  destruct (ib_edge input) as [edge|] eqn:Ee; [|constructor; (done || typed_fields); cbn; lia].
  specialize (Hb _ eq_refl). specialize (Hc _ eq_refl). specialize (He _ eq_refl).
  pose proof (copy_legs_typed bundle cost (build_fields input bundle cost edge) Hb Hc H0) as Hlegs.
  pose proof Hb as [Hb1 [Hb2 Hb3] _]. destruct Hc as [Hc1 Hc2 _], He as [He].
  repeat (apply Forall_cons in Hc1 as [? Hc1]). repeat (apply Forall_cons in He as [? He]). repeat (apply Forall_cons in Hu as [? Hu]).
  assert (Hbh : in_u64 (effective_bundle_hash input)).
  { unfold effective_bundle_hash. rewrite Eb. destruct (negb _); [done|apply hash_bundle_typed]. }
  assert (Hah : in_u64 (effective_artifact_hash input (effective_bundle_hash input))).
  { unfold effective_artifact_hash. destruct (negb _); [done|apply mix_u64_range]. }
  assert (Hver : in_u64 (sv_max_book_version (default (ib_snapshot_version input) (ib_snapshot input))) ∧
                 in_u64 (sv_combined_hash (default (ib_snapshot_version input) (ib_snapshot input)))).
  { apply Hv. destruct (ib_snapshot input); auto. }
  destruct Hver. set (intent := copy_priced_legs _ _) in *.
  destruct (intent_hashes_typed intent). unfold build_identity. remember (identity_intent_id (identity_of intent)) as hash1. remember (make_proof_hash intent) as hash2.
  clear Heqhash1 Heqhash2. subst intent. unfold build_fields in *. set (bh := effective_bundle_hash input) in *. clearbody bh.
  set (ah := effective_artifact_hash input bh) in *. clearbody ah.
  constructor; cbn [oi_legs oi_leg_count].
  - cbn. typed_fields. by apply saturating_add_typed.
  - cbn. typed_fields; apply intent_saturating_mul_typed.
  - unfold copy_priced_legs, copy_bundle_legs. cbn. lia.
  - reflexivity.
  - exact Hlegs.
Qed.

(** The edge of a typed cost is typed. *)
Lemma ratio_bps_typed a b : in_i64 (ratio_bps a b).
Proof. unfold ratio_bps. cbv zeta. repeat step_if; breflect; rlia. Qed.

Lemma compute_edge_typed input :
  in_i64 (er_unit_edge_tick (compute_edge input)) ∧ in_i64 (er_total_edge_tick (compute_edge input)) ∧ in_i64 (er_edge_bps (compute_edge input)).
Proof.
  assert (Hz : in_i64 0) by rlia. unfold compute_edge.
  destruct (match checked_sub_i64 _ _ with Some _ => _ | None => _ end) as [unit_edge ok] eqn:E.
  assert (Hu : in_i64 unit_edge).
  { destruct (checked_sub_i64 _ _) as [v|] eqn:Ev in E; [|by simplify_eq]. apply checked_sub_i64_Some in Ev as [Hv ->].
    by apply checked_sub_chain_range in E. }
  destruct ok; cbn [negb]; [|done]. destruct (checked_mul_i64 _ _) as [total|] eqn:Em; [|done].
  apply checked_mul_i64_Some in Em as [Hm ->]. cbn. split_and!; [done|done|apply ratio_bps_typed].
Qed.

Lemma calculated_edge_typed calculator bundle cost config :
  bundle_typed bundle → cost_typed cost →
  Forall in_i64 [ec_default_fee_tick calculator; ec_default_latency_buffer_tick calculator; ec_default_slippage_buffer_tick calculator;
    sc_slippage_buffer_tick config] →
  edge_typed (calculate_edge calculator bundle cost config).
Proof.
  intros [_ [Hp _] _] [Hc _ _] Hk. repeat (apply Forall_cons in Hc as [? Hc]). repeat (apply Forall_cons in Hk as [? Hk]).
  assert (Hz : in_i64 0) by rlia.
  assert (Hs : in_i64 (estimate_slippage_buffer_tick calculator config)) by (unfold estimate_slippage_buffer_tick; by case_match).
  unfold calculate_edge. cbv zeta. step_if; [constructor; cbn; by typed_fields|].
  match goal with |- context [compute_edge ?i] => destruct (compute_edge_typed i) as (? & ? & ?); destruct (compute_edge i) as [ok u t b] end.
  cbn [er_ok er_unit_edge_tick er_total_edge_tick er_edge_bps] in *. destruct ok; cbn [negb]; [|constructor; cbn; by typed_fields].
  match goal with |- context [edge_verdict ?c ?b ?e] => destruct (edge_verdict c b e) end; constructor; cbn; by typed_fields.
Qed.

(** An intent of the demo bundle, priced at five bundles. *)
Definition demo_calculator : TheoreticalEdgeCalculator := mkEdgeCalculator 10 5 5.
Definition demo_cost : CostResult := price_runtime_plan demo_plan true [demo_snapshot].
Definition demo_input : IntentBuildInput :=
  mkIntentBuildInput (Some demo_bundle) None snapshot_version0 (Some demo_cost)
    (Some (calculate_edge demo_calculator demo_bundle demo_cost signal_config0)) 1000 500 1 5 6 7 true true.

Lemma built_intent_typed_witness :
  intent_typed (build_intent demo_input) ∧ oi_status (build_intent demo_input) = IsPaperOpportunity ∧
  oi_total_edge_tick (build_intent demo_input) = 1249900.
Proof.
  assert (Hin : ∀ l, forallb (λ z, (i64_min <=? z) && (z <=? i64_max)) l = true → Forall in_i64 l).
  { intros l Hl. rewrite forallb_true_elem in Hl. apply Forall_forall. intros z Hz. specialize (Hl z Hz). cbn beta in Hl. breflect. rlia. }
  assert (Hb : bundle_typed demo_bundle).
  { constructor; [cbn; rlia|cbn; rlia|]. apply Forall_forall. intros leg Hleg. 
    assert (Hl : Forall in_i64 (bl_quantity_lots <$> cb_legs demo_bundle)) by (apply Hin; vm_compute; reflexivity).
    rewrite Forall_fmap, Forall_forall in Hl. by apply Hl. }
  assert (Hsim : ∀ l, forallb (λ leg, forallb (λ z, (i64_min <=? z) && (z <=? i64_max)) [fs_requested_qty_lots leg; fs_executable_qty_lots leg;
     fs_vwap_price_tick leg; fs_total_cost_tick leg; fs_worst_price_tick leg]) l = true → Forall sim_leg_typed l).
  { intros l Hl. rewrite forallb_true_elem in Hl. apply Forall_forall. intros leg Hleg. by apply Hin, Hl. }
  assert (Hc : cost_typed demo_cost).
  { constructor; [apply Hin; vm_compute; reflexivity|vm_compute; lia|split; apply Hsim; vm_compute; reflexivity]. }
  assert (He : edge_typed (calculate_edge demo_calculator demo_bundle demo_cost signal_config0)).
  { apply calculated_edge_typed; [exact Hb|exact Hc|apply Hin; vm_compute; reflexivity]. }
  split; [|split; vm_compute; reflexivity]. apply (built_intent_typed demo_input). constructor.
  - change (Forall in_u64 [1000; 500; 1; 5; 6; 7]). typed_fields; rlia.
  - intros v [Hv| ->]; [discriminate Hv|]. change (in_u64 0 ∧ in_u64 0). rlia.
  - intros bundle Hx. change (Some demo_bundle = Some bundle) in Hx. apply Some_inj in Hx. rewrite <- Hx. exact Hb.
  - intros cost Hx. change (Some demo_cost = Some cost) in Hx. apply Some_inj in Hx. rewrite <- Hx. exact Hc.
  - intros edge Hx. change (Some (calculate_edge demo_calculator demo_bundle demo_cost signal_config0) = Some edge) in Hx.
    apply Some_inj in Hx. rewrite <- Hx. exact He.
Defined.
