(* ===== verification/SignalEngine.v ===== *)
(** * SignalEngine: one scan, from runtime plans to published intents

    [engine/signal/core]: [scan_once] walks the plans (or the bundles) of an
    artifact, builds an intent for each, completes and ranks them, drops
    duplicates, applies the rate limit and publishes the rest.  The scan is a
    function of the engine and its context; the durations the code measures
    are left out, except the scan latency, which is an argument. *)

From Stdlib Require Import Ascii.
From stdpp Require Import sorting strings.
From S2P Require Import Prelude FixedPoint Hashing RiskTypes Bundles Depth Reprice MarketSnapshot MarketShard MarketView SignalTypes SignalPricing SignalReader RuntimePlans SignalIntent.
#[local] Open Scope Z_scope.

#[local] Arguments constant {_} _ _ /.

(** ** Contexts, results and metrics *)

(** [engine/signal/core/SignalWorkflow.h:12-20] SignalScanContext. *)
Record SignalScanContext := mkScanContext {
  sx_scan_id : Z;
  sx_now_monotonic_ns : Z;
  sx_current_true_mask : Z;
  sx_current_false_mask : Z;
  sx_settlement_masks_available : bool
}.

(** [engine/signal/metrics/SignalMetrics.h:7-13] SignalLatencyMetric. *)
Record SignalLatencyMetric := mkLatencyMetric { lm_count : Z; lm_last_ns : Z; lm_min_ns : Z; lm_max_ns : Z; lm_total_ns : Z }.

(** [engine/signal/metrics/SignalMetrics.cpp:7-20] observe_scan_latency. *)
Definition observe_scan_latency (latency_ns : Z) (m : SignalLatencyMetric) : SignalLatencyMetric :=
  let m := m <| lm_count := wrap_u64 (lm_count m + 1) |> <| lm_last_ns := latency_ns |> <| lm_total_ns := wrap_u64 (lm_total_ns m + latency_ns) |> in
  if lm_count m =? 1 then m <| lm_min_ns := latency_ns |> <| lm_max_ns := latency_ns |>
  else m <| lm_min_ns := Z.min (lm_min_ns m) latency_ns |> <| lm_max_ns := Z.max (lm_max_ns m) latency_ns |>.

(** [engine/signal/metrics/SignalMetrics.h:15-35] SignalMetrics. *)
Record SignalMetrics := mkSignalMetrics {
  sm_scan_count : Z;
  sm_bundle_scanned : Z;
  sm_bundle_rejected : Z;
  sm_bundle_passed : Z;
  sm_reject_settled : Z;
  sm_reject_missing_snapshot : Z;
  sm_reject_stale_lob : Z;
  sm_reject_snapshot_skew : Z;
  sm_reject_insufficient_depth : Z;
  sm_reject_edge_below_threshold : Z;
  sm_reject_duplicate : Z;
  sm_reject_rate_limited : Z;
  sm_intent_published : Z;
  sm_scan_latency_ns : SignalLatencyMetric
}.
Definition metrics0 : SignalMetrics := mkSignalMetrics 0 0 0 0 0 0 0 0 0 0 0 0 0 (mkLatencyMetric 0 0 0 0 0).

(** [engine/signal/public/SignalResult.h:23-47] SignalRunResult. *)
Record SignalRunResult := mkRunResult {
  rn_bundles_scanned : Z;
  rn_rejected_invalid_settlement : Z;
  rn_rejected_bad_market_state : Z;
  rn_rejected_missing_snapshot : Z;
  rn_rejected_insufficient_depth : Z;
  rn_rejected_low_edge : Z;
  rn_duplicate_intents : Z;
  rn_rate_limited : Z;
  rn_rejected_duplicate : Z;
  rn_rejected_rate_limited : Z;
  rn_rejected_snapshot_skew : Z;
  rn_rejected_stale_snapshot : Z;
  rn_vwap_checked : Z;
  rn_edge_computed : Z;
  rn_paper_opportunities : Z;
  rn_intents_published : Z;
  rn_output_hash : Z;
  rn_metrics : SignalMetrics
}.
Definition run_result0 : SignalRunResult := mkRunResult 0 0 0 0 0 0 0 0 0 0 0 0 0 0 0 0 0 metrics0.

(** [engine/signal/core/SignalEngine.cpp:362-392] populate_metrics. *)
Definition populate_metrics (scan_latency_ns : Z) (result : SignalRunResult) : SignalRunResult :=
  result <| rn_metrics := mkSignalMetrics 1 (rn_bundles_scanned result)
    (wrap_u64 (rn_rejected_invalid_settlement result + rn_rejected_bad_market_state result + rn_rejected_missing_snapshot result +
       rn_rejected_insufficient_depth result + rn_rejected_low_edge result + rn_rejected_duplicate result + rn_rejected_rate_limited result))
    (rn_paper_opportunities result) (rn_rejected_invalid_settlement result) (rn_rejected_missing_snapshot result)
    (rn_rejected_stale_snapshot result) (rn_rejected_snapshot_skew result) (rn_rejected_insufficient_depth result)
    (rn_rejected_low_edge result) (rn_rejected_duplicate result) (rn_rejected_rate_limited result) (rn_intents_published result)
    (observe_scan_latency scan_latency_ns (sm_scan_latency_ns (rn_metrics result))) |>.

(** ** The workflow's helpers *)

(** [engine/signal/core/SignalWorkflow.cpp:28-46] is_valid. *)
Definition settlement_is_valid (bundle : CandidateBundle) (context : SignalScanContext) : bool :=
  if negb (sx_settlement_masks_available context) then true
  else if negb (Z.ldiff (cb_required_true_mask bundle) (sx_current_true_mask context) =? 0) then false
  else if negb (Z.ldiff (cb_required_false_mask bundle) (sx_current_false_mask context) =? 0) then false
  else
    let resolved_mask := Z.lor (sx_current_true_mask context) (sx_current_false_mask context) in
    Z.land (cb_invalid_mask bundle) resolved_mask =? 0.

(** [engine/signal/core/SignalWorkflow.cpp:48-82] increment_counter_for_status. *)
Definition increment_counter_for_status (status : IntentStatus) (result : SignalRunResult) : SignalRunResult :=
  match status with
  | IsRejectedInvalidSettlement => result <| rn_rejected_invalid_settlement ::= Z.succ |>
  | IsRejectedBadMarketState => result <| rn_rejected_bad_market_state ::= Z.succ |>
  | IsRejectedMissingSnapshot => result <| rn_rejected_missing_snapshot ::= Z.succ |>
  | IsRejectedInsufficientDepth => result <| rn_rejected_insufficient_depth ::= Z.succ |>
  | IsRejectedLowEdge => result <| rn_rejected_low_edge ::= Z.succ |>
  | IsDuplicateIntent => result <| rn_duplicate_intents ::= Z.succ |> <| rn_rejected_duplicate ::= Z.succ |>
  | IsPaperOpportunity => result <| rn_paper_opportunities ::= Z.succ |>
  | IsCandidateOnly => result
  end.

(** [engine/signal/core/SignalWorkflow.cpp:119-127] hash_published_intents, one leg. *)
Definition hash_intent_leg (hash : Z) (leg : IntentLeg) : Z :=
  let hash := mix_u64 hash (side_value (il_side leg)) in
  let hash := foldl mix_i64 hash [il_quantity_lots leg; il_estimated_vwap_tick leg; il_worst_price_tick leg; il_estimated_cost_tick leg] in
  mix_bool hash (il_enough_depth leg).

(** [engine/signal/core/SignalWorkflow.cpp:92-130] hash_published_intents, one intent. *)
Definition hash_intent (hash : Z) (intent : OpportunityIntent) : Z :=
  let hash := foldl mix_u64 hash [oi_intent_id intent; oi_bundle_id intent; intent_status_code (oi_status intent)] in
  let hash := foldl mix_bool hash [oi_valid_under_settlement intent; oi_passed_quality_gate intent; oi_enough_depth intent] in
  let hash := foldl mix_i64 hash [oi_guaranteed_payout_tick intent; oi_estimated_cost_tick intent; oi_estimated_fee_tick intent;
    oi_latency_buffer_tick intent; oi_estimated_edge_tick intent; oi_min_edge_tick intent] in
  let hash := foldl mix_u64 hash [oi_oracle_artifact_hash intent; oi_constraint_hash intent; oi_bundle_hash intent; oi_snapshot_version intent] in
  let hash := foldl mix_i64 hash [oi_bundle_qty intent; oi_original_bundle_qty intent; oi_unit_edge_tick intent; oi_total_edge_tick intent;
    oi_edge_bps intent; oi_slippage_buffer_tick intent; oi_max_leg_slippage_tick intent] in
  let hash := foldl mix_u64 hash [oi_created_ts_ns intent; oi_expires_at_ns intent; Z.of_nat (oi_leg_count intent)] in
  let hash := foldl hash_intent_leg hash (intent_legs intent) in
  foldl mix_u64 hash [oi_snapshot_version_hash intent; oi_oracle_artifact_version intent].

(** [engine/signal/core/SignalWorkflow.cpp:84-132] hash_published_intents. *)
Definition hash_published_intents (intents : list OpportunityIntent) : Z :=
  match intents with [] => 0 | _ => foldl hash_intent fnv_offset intents end.

(** [engine/signal/core/SignalEngine.cpp:99-104] make_intent_id; the shift drops the bits that leave 64. *)
Definition make_intent_id (context : SignalScanContext) (ordinal : Z) : Z :=
  Z.lxor (wrap_u64 (Z.shiftl (sx_scan_id context) 32)) ordinal.

(** [engine/signal/core/SignalEngine.cpp:286-301] status_from_cost_failure. *)
Definition status_from_cost_failure (reason : CostFailureReason) : IntentStatus :=
  match reason with
  | CfMissingSnapshot => IsRejectedMissingSnapshot
  | CfMissingBookSide | CfInsufficientDepth | CfInvalidQuantity | CfInvalidLeg => IsRejectedInsufficientDepth
  | CfNone => IsCandidateOnly
  end.

(** [engine/signal/core/SignalEngine.cpp:338-343] should_publish. *)
Definition should_publish (config : SignalConfig) (status : IntentStatus) : bool :=
  bool_decide (status = IsPaperOpportunity) || sc_emit_rejections config.

(** [std::string::find] is not [npos]. *)
Definition mentions (word error : string) : bool := match String.index 0 word error with Some _ => true | None => false end.

(** [engine/signal/core/SignalEngine.cpp:303-308] is_stale_snapshot_rejection. *)
Definition is_stale_snapshot_rejection (status : IntentStatus) (error : string) : bool :=
  bool_decide (status = IsRejectedBadMarketState) && mentions "stale" error.

(** [engine/signal/core/SignalEngine.cpp:345-350] is_snapshot_skew_rejection. *)
Definition is_snapshot_skew_rejection (status : IntentStatus) (error : string) : bool :=
  bool_decide (status = IsRejectedBadMarketState) && mentions "version" error.

(** [engine/signal/core/SignalEngine.cpp:210-216] complete_intent_lifecycle, the times. *)
Definition complete_times (config : SignalConfig) (now_ns : Z) (intent : OpportunityIntent) : OpportunityIntent :=
  let intent := if oi_created_ts_ns intent =? 0 then intent <| oi_created_ts_ns := now_ns |> else intent in
  if oi_expires_at_ns intent <=? now_ns then
    let ttl_ns := if sc_intent_ttl_ns config =? 0 then 1 else sc_intent_ttl_ns config in
    intent <| oi_expires_at_ns := saturating_add_u64 now_ns ttl_ns |>
  else intent.

(** [engine/signal/core/SignalEngine.cpp:217-228] complete_intent_lifecycle, the artifact. *)
Definition complete_origin (artifact : OracleArtifactReader) (intent : OpportunityIntent) : OpportunityIntent :=
  let intent := if oi_oracle_artifact_version intent =? 0 then intent <| oi_oracle_artifact_version := ar_artifact_version artifact |> else intent in
  let intent := if oi_oracle_artifact_hash intent =? 0 then intent <| oi_oracle_artifact_hash := ar_artifact_hash artifact |> else intent in
  let intent := if oi_constraint_hash intent =? 0 then intent <| oi_constraint_hash := ar_constraint_hash artifact |> else intent in
  if oi_bundle_hash intent =? 0 then intent <| oi_bundle_hash := ar_bundle_hash artifact |> else intent.

(** [engine/signal/core/SignalEngine.cpp:229-244] complete_intent_lifecycle, the identities. *)
Definition complete_identity (intent : OpportunityIntent) : OpportunityIntent :=
  let intent := if oi_intent_id intent =? 0 then intent <| oi_intent_id := identity_intent_id (identity_of intent) |> else intent in
  let intent := if oi_idempotency_hash intent =? 0 then intent <| oi_idempotency_hash := oi_intent_id intent |> else intent in
  if oi_proof_hash intent =? 0 then intent <| oi_proof_hash := make_proof_hash intent |> else intent.

(** [engine/signal/core/SignalEngine.cpp:200-245] complete_intent_lifecycle. *)
Definition complete_intent_lifecycle (config : SignalConfig) (artifact : OracleArtifactReader) (now_ns : Z) (intent : OpportunityIntent)
    : OpportunityIntent :=
  complete_identity (complete_origin artifact (complete_times config now_ns intent)).

(** ** Readers and the engine *)

(** [engine/signal/reader/MarketSnapshotReader.h:28-37] IMarketSnapshotReader, with the two interfaces of
    [SnapshotBatchReader.h] the engine looks for by [dynamic_cast]. *)
Record IMarketSnapshotReader := mkSnapshotReader {
  rr_read_for_bundle : CandidateBundle → SignalConfig → Z → SnapshotReadResult;
  rr_read_for_plan : option (BundleRuntimePlan → SignalConfig → Z → SnapshotBatchReadResult);
  rr_read_depth_for_plan : option (BundleRuntimePlan → SignalConfig → Z → DepthReadResult)
}.

(** [engine/signal/reader/MarketStateViewSnapshotReader.h:9-38] MarketStateViewSnapshotReader, over the store it reads. *)
Definition MarketStateViewSnapshotReader (st : MarketStateStore) : IMarketSnapshotReader :=
  mkSnapshotReader (read_for_bundle st) (Some (read_for_plan st)) (Some (read_depth_for_plan st)).

(** What reading and pricing a plan or a bundle gives: a rejection, or evidence, its version and a cost. *)
Definition Reading : Type := (IntentStatus * string) + (SignalPublishedEvidence * SnapshotVersion * CostResult).

(** [engine/signal/core/SignalEngine.cpp:547-652] scan_once, reading and pricing a plan: depth views when the reader has them. *)
Definition read_plan (reader : IMarketSnapshotReader) (config : SignalConfig) (now_ns : Z) : option (BundleRuntimePlan → Reading) :=
  match rr_read_depth_for_plan reader with
  | Some read => Some (λ plan,
      let depth := read plan config now_ns in
      if negb (rv_ok depth) then inl (rv_rejection_status depth, rv_error depth)
      else inr (evidence_from_depth depth now_ns, rv_snapshot_version depth, price_plan_depth plan depth))
  | None =>
      match rr_read_for_plan reader with
      | Some read => Some (λ plan,
          let snapshots := read plan config now_ns in
          if negb (rd_ok snapshots) then inl (rd_rejection_status snapshots, rd_error snapshots)
          else inr (evidence_from_batch snapshots now_ns, rd_snapshot_version snapshots, price_plan_snapshots plan snapshots))
      | None => None
      end
  end.

(** [engine/signal/core/SignalScratch.h:19-22] SignalPublishCandidate; no index is [kSignalScratchNoEvidenceIndex]. *)
Record SignalPublishCandidate := mkCandidate { pc_intent : OpportunityIntent; pc_evidence_index : option nat }.

(** [engine/signal/core/SignalScratch.h:15-15] kSignalScratchMaxIntents. *)
Definition kSignalScratchMaxIntents : Z := 1024.

Section Engine.
Context {P : Type} `{IIntentPublisher P}.

(** [engine/signal/core/SignalEngine.h:48-93] SignalEngine.  A pointer to a component without state is whether it is there; the
    deduper, the limiter and the publisher are the engine's own. *)
Record SignalEngine := mkSignalEngine {
  sg_config : SignalConfig;
  sg_snapshot_reader : option IMarketSnapshotReader;
  sg_artifact_reader : option OracleArtifactReader;
  sg_settlement_checker : bool;
  sg_vwap : bool;
  sg_edge_calculator : option TheoreticalEdgeCalculator;
  sg_ranker : bool;
  sg_publisher : option P;
  sg_deduper : option IntentDeduper;
  sg_default_rate_limiter : IntentRateLimiter;
  sg_external_rate_limiter : option IntentRateLimiter;
  sg_last_published_intents : list OpportunityIntent;
  sg_last_published_evidence : list SignalPublishedEvidence;
  sg_last_published_evidence_indices : list (option nat)
}.

(** [engine/signal/core/SignalEngine.cpp:437-448] last_published_evidence_at. *)
Definition evidence_at (evidence : list SignalPublishedEvidence) (indices : list (option nat)) (index : nat) : SignalEvidenceView :=
  match indices !! index with
  | Some (Some evidence_index) => default published_evidence0 (evidence !! evidence_index)
  | _ => published_evidence0
  end.

(** What the loop over the plans accumulates. *)
Record ScanState := mkScanState {
  ss_result : SignalRunResult;
  ss_candidates : list SignalPublishCandidate;
  ss_evidence : list SignalPublishedEvidence
}.
Definition scan_state0 : ScanState := mkScanState run_result0 [] [].

(** [engine/signal/core/SignalEngine.cpp:485-488] publish_limit. *)
Definition publish_limit (config : SignalConfig) : Z := Z.min (sc_max_intents_per_scan config) kSignalScratchMaxIntents.

(** [engine/signal/core/SignalEngine.cpp:489-497] try_publish, behind [should_publish]. *)
Definition try_publish (config : SignalConfig) (intent : OpportunityIntent) (evidence_index : option nat) (st : ScanState) : ScanState :=
  if should_publish config (oi_status intent) then
    if publish_limit config <=? Z.of_nat (length (ss_candidates st)) then st
    else st <| ss_candidates ::= λ l, l ++ [mkCandidate intent evidence_index] |>
  else st.

(** A rejected intent is counted under its status and offered without evidence. *)
Definition reject_intent (config : SignalConfig) (intent : OpportunityIntent) (st : ScanState) : ScanState :=
  try_publish config intent None (st <| ss_result ::= increment_counter_for_status (oi_status intent) |>).

(** [engine/signal/core/SignalEngine.cpp:565-586] scan_once, an unreadable plan or bundle. *)
Definition reject_reading (config : SignalConfig) (intent : OpportunityIntent) (status : IntentStatus) (error : string) (st : ScanState) : ScanState :=
  let st := st <| ss_result ::= increment_counter_for_status status |> in
  let st := if is_stale_snapshot_rejection status error then st <| ss_result ::= λ r, r <| rn_rejected_stale_snapshot ::= Z.succ |> |> else st in
  let st := if is_snapshot_skew_rejection status error then st <| ss_result ::= λ r, r <| rn_rejected_snapshot_skew ::= Z.succ |> |> else st in
  try_publish config intent None st.

Definition missing_or (code : IntentRejectCode) (status : IntentStatus) : IntentRejectCode :=
  if decide (status = IsRejectedMissingSnapshot) then IrcMissingSnapshot else code.

(** [engine/signal/core/SignalEngine.cpp:515-525] scan_once, the intent a plan starts from. *)
Definition plan_intent (artifact : OracleArtifactReader) (context : SignalScanContext) (ordinal : Z) (plan : BundleRuntimePlan)
    (bundle : CandidateBundle) : OpportunityIntent :=
  copy_plan_asset_indices plan (copy_bundle_legs bundle
    (intent0 <| oi_intent_id := make_intent_id context ordinal |> <| oi_bundle_id := cb_bundle_id bundle |>
       <| oi_guaranteed_payout_tick := cb_guaranteed_payout_tick bundle |> <| oi_min_edge_tick := cb_min_edge_tick bundle |>
       <| oi_oracle_artifact_version := ar_artifact_version artifact |> <| oi_bundle_hash := pn_bundle_hash plan |>
       <| oi_oracle_artifact_hash := pn_oracle_artifact_hash plan |> <| oi_constraint_hash := pn_constraint_hash plan |>)).

(** [engine/signal/core/SignalEngine.cpp:684-697] scan_once, the input of the builder for a plan. *)
Definition plan_build_input (config : SignalConfig) (artifact : OracleArtifactReader) (now_ns : Z) (plan : BundleRuntimePlan)
    (bundle : CandidateBundle) (version : SnapshotVersion) (cost : CostResult) (edge : EdgeBreakdown) : IntentBuildInput :=
  mkIntentBuildInput (Some bundle) None version (Some cost) (Some edge) now_ns (sc_intent_ttl_ns config)
    (ar_artifact_version artifact) (pn_oracle_artifact_hash plan) (pn_constraint_hash plan) (pn_bundle_hash plan) true true.

(** [engine/signal/core/SignalEngine.cpp:653-706] scan_once, a plan that was read and priced. *)
Definition scan_priced_plan (config : SignalConfig) (artifact : OracleArtifactReader) (calculator : TheoreticalEdgeCalculator)
    (now_ns : Z) (plan : BundleRuntimePlan) (bundle : CandidateBundle) (intent : OpportunityIntent)
    (evidence : SignalPublishedEvidence) (version : SnapshotVersion) (cost : CostResult) (st : ScanState) : ScanState :=
  let st := st <| ss_result ::= λ r, r <| rn_vwap_checked ::= Z.succ |> |> in
  let intent := intent <| oi_passed_quality_gate := true |> <| oi_snapshot_version := sv_max_book_version version |>
    <| oi_snapshot_version_hash := sv_combined_hash version |> in
  let intent := copy_cost_fields cost intent in
  if negb (cs_executable cost) then
    let status := status_from_cost_failure (cs_failure_reason cost) in
    reject_intent config (intent <| oi_status := status |> <| oi_reject_code := missing_or IrcInsufficientDepth status |>) st
  else
    let st := st <| ss_result ::= λ r, r <| rn_edge_computed ::= Z.succ |> |> in
    let edge := calculate_edge calculator bundle cost config in
    let intent := copy_plan_asset_indices plan (build_intent (plan_build_input config artifact now_ns plan bundle version cost edge)) in
    let st := st <| ss_result ::= increment_counter_for_status (oi_status intent) |> in
    if should_publish config (oi_status intent) then
      try_publish config intent (Some (length (ss_evidence st))) (st <| ss_evidence ::= λ l, l ++ [evidence] |>)
    else st.

(** [engine/signal/core/SignalEngine.cpp:506-707] scan_once, one plan. *)
Definition scan_plan (config : SignalConfig) (artifact : OracleArtifactReader) (calculator : TheoreticalEdgeCalculator)
    (read : BundleRuntimePlan → Reading) (context : SignalScanContext) (plan : BundleRuntimePlan) (acc : Z * ScanState) : Z * ScanState :=
  match pn_bundle plan with
  | None => acc
  | Some bundle =>
      let ordinal := acc.1 + 1 in
      let st := (acc.2) <| ss_result ::= λ r, r <| rn_bundles_scanned ::= Z.succ |> |> in
      let intent := plan_intent artifact context ordinal plan bundle in
      if negb (settlement_is_valid bundle context) then
        (ordinal, reject_intent config (intent <| oi_status := IsRejectedInvalidSettlement |> <| oi_reject_code := IrcInvalidSettlement |>) st)
      else
        let intent := intent <| oi_valid_under_settlement := true |> in
        match read plan with
        | inl (status, error) =>
            (ordinal, reject_reading config (intent <| oi_status := status |> <| oi_reject_reason := error |>
               <| oi_reject_code := missing_or IrcBadMarketState status |>) status error st)
        | inr (evidence, version, cost) =>
            (ordinal, scan_priced_plan config artifact calculator (sx_now_monotonic_ns context) plan bundle intent evidence version cost st)
        end
  end.

(** [engine/signal/core/SignalEngine.cpp:714-720] scan_once, the intent a bundle starts from. *)
Definition bundle_intent (artifact : OracleArtifactReader) (context : SignalScanContext) (ordinal : Z) (bundle : CandidateBundle) : OpportunityIntent :=
  copy_bundle_legs bundle
    (intent0 <| oi_intent_id := make_intent_id context ordinal |> <| oi_bundle_id := cb_bundle_id bundle |>
       <| oi_guaranteed_payout_tick := cb_guaranteed_payout_tick bundle |> <| oi_min_edge_tick := cb_min_edge_tick bundle |>
       <| oi_oracle_artifact_version := ar_artifact_version artifact |>).

(** [engine/signal/core/SignalEngine.cpp:809-822] scan_once, the input of the builder for a bundle. *)
Definition bundle_build_input (config : SignalConfig) (artifact : OracleArtifactReader) (now_ns : Z) (bundle : CandidateBundle)
    (version : SnapshotVersion) (cost : CostResult) (edge : EdgeBreakdown) : IntentBuildInput :=
  mkIntentBuildInput (Some bundle) (Some version) snapshot_version0 (Some cost) (Some edge) now_ns (sc_intent_ttl_ns config)
    (ar_artifact_version artifact) (ar_artifact_hash artifact) (ar_constraint_hash artifact) 0 true true.

(** [engine/signal/core/SignalEngine.cpp:709-831] scan_once, one bundle. *)
Definition scan_bundle (config : SignalConfig) (artifact : OracleArtifactReader) (calculator : TheoreticalEdgeCalculator)
    (reader : IMarketSnapshotReader) (context : SignalScanContext) (bundle : CandidateBundle) (acc : Z * ScanState) : Z * ScanState :=
  let ordinal := acc.1 + 1 in
  let now_ns := sx_now_monotonic_ns context in
  let st := (acc.2) <| ss_result ::= λ r, r <| rn_bundles_scanned ::= Z.succ |> |> in
  let intent := bundle_intent artifact context ordinal bundle in
  if negb (settlement_is_valid bundle context) then
    (ordinal, reject_intent config (intent <| oi_status := IsRejectedInvalidSettlement |>) st)
  else
    let intent := intent <| oi_valid_under_settlement := true |> in
    let snapshots := rr_read_for_bundle reader bundle config now_ns in
    if negb (sr_ok snapshots) then
      let status := sr_rejection_status snapshots in
      (ordinal, reject_reading config (intent <| oi_status := status |> <| oi_reject_reason := sr_error snapshots |>) status (sr_error snapshots) st)
    else
      let version := sr_snapshot_version snapshots in
      let intent := intent <| oi_passed_quality_gate := true |> <| oi_snapshot_version := sv_max_book_version version |>
        <| oi_snapshot_version_hash := sv_combined_hash version |> in
      let st := st <| ss_result ::= λ r, r <| rn_vwap_checked ::= Z.succ |> |> in
      let cost := price_bundle bundle (sr_snapshots snapshots) in
      let intent := copy_cost_fields cost intent in
      if negb (cs_executable cost) then
        (ordinal, reject_intent config (intent <| oi_status := status_from_cost_failure (cs_failure_reason cost) |>) st)
      else
        let st := st <| ss_result ::= λ r, r <| rn_edge_computed ::= Z.succ |> |> in
        let edge := calculate_edge calculator bundle cost config in
        let intent := build_intent (bundle_build_input config artifact now_ns bundle version cost edge) in
        let st := st <| ss_result ::= increment_counter_for_status (oi_status intent) |> in
        (ordinal,
         if should_publish config (oi_status intent) then
           try_publish config intent (Some (length (ss_evidence st)))
             (st <| ss_evidence ::= λ l, l ++ [evidence_from_snapshots snapshots now_ns] |>)
         else st).

(** [engine/signal/core/SignalEngine.cpp:498-832] scan_once, the loop over the plans or, when there are none to read, the bundles. *)
Definition scan_all (config : SignalConfig) (artifact : OracleArtifactReader) (calculator : TheoreticalEdgeCalculator)
    (reader : IMarketSnapshotReader) (context : SignalScanContext) : ScanState :=
  let bundles := foldl (λ acc bundle, scan_bundle config artifact calculator reader context bundle acc) (0, scan_state0) (ar_bundles artifact) in
  match read_plan reader config (sx_now_monotonic_ns context), ar_runtime_plans artifact with
  | Some read, (_ :: _) as plans => (foldl (λ acc plan, scan_plan config artifact calculator read context plan acc) (0, scan_state0) plans).2
  | _, _ => bundles.2
  end.

(** Candidates are compared by their intents. *)
Definition candidate_before (left right : SignalPublishCandidate) : Prop := ranked_before (pc_intent left) (pc_intent right).
#[export] Instance candidate_before_dec left right : Decision (candidate_before left right).
Proof. unfold candidate_before. apply _. Defined.

(** [engine/signal/core/SignalEngine.cpp:844-853] scan_once, the sort; among candidates that compare equal [std::sort] may keep any order. *)
Definition rank_candidates (ranker : bool) (candidates : list SignalPublishCandidate) : list SignalPublishCandidate :=
  if ranker then merge_sort candidate_before candidates else candidates.

(** [engine/signal/core/SignalEngine.cpp:856-885] scan_once, whether a candidate is a duplicate; one that is not is marked. *)
Definition dedupe_one (now_ns : Z) (intent : OpportunityIntent) (deduper : option IntentDeduper) : bool * option IntentDeduper :=
  match deduper with
  | Some d =>
      if decide (oi_status intent = IsPaperOpportunity) then
        if negb (oi_idempotency_hash intent =? 0) then
          let '(seen, d) := seen_recently (oi_idempotency_hash intent) now_ns d in
          if seen then (true, Some d) else (false, Some (mark_seen (oi_idempotency_hash intent) now_ns d))
        else
          let '(seen, d) := seen_key_recently (oi_idempotency_key intent) now_ns d in
          if seen then (true, Some d) else (false, Some (mark_key_seen (oi_idempotency_key intent) now_ns d))
      else (false, Some d)
  | None => (false, None)
  end.

(** [engine/signal/core/SignalEngine.cpp:855-895] scan_once, the duplicates dropped: what is kept, the deduper and how many were dropped. *)
Fixpoint dedupe (now_ns : Z) (candidates : list SignalPublishCandidate) (deduper : option IntentDeduper)
    : list SignalPublishCandidate * option IntentDeduper * Z :=
  match candidates with
  | [] => ([], deduper, 0)
  | candidate :: rest =>
      let '(duplicate, deduper) := dedupe_one now_ns (pc_intent candidate) deduper in
      let '(kept, deduper, dropped) := dedupe now_ns rest deduper in
      if duplicate then (kept, deduper, dropped + 1) else (candidate :: kept, deduper, dropped)
  end.

(** [engine/signal/core/SignalEngine.cpp:897-918] scan_once, the rate limit: what is allowed, the limiter and how many were not. *)
Fixpoint limit_rate (now_ns : Z) (candidates : list SignalPublishCandidate) (limiter : IntentRateLimiter)
    : list SignalPublishCandidate * IntentRateLimiter * Z :=
  match candidates with
  | [] => ([], limiter, 0)
  | candidate :: rest =>
      let '(allowed, limiter) := allow now_ns limiter in
      let '(kept, limiter, dropped) := limit_rate now_ns rest limiter in
      if allowed then (candidate :: kept, limiter, dropped) else (kept, limiter, dropped + 1)
  end.

(** [engine/signal/core/SignalEngine.cpp:927-946] scan_once, the publishing loop. *)
Definition publish_all (intents : list OpportunityIntent) (evidence : list SignalPublishedEvidence) (indices : list (option nat)) (publisher : P) : P :=
  foldl (λ publisher p, let '(i, intent) := p in
    publish (if requires_materialized_strings then materialize_intent_strings intent else intent) (evidence_at evidence indices i) publisher)
    publisher (imap pair intents).

(** The limiter in use, and putting it back. *)
Definition engine_limiter (engine : SignalEngine) : IntentRateLimiter := default (sg_default_rate_limiter engine) (sg_external_rate_limiter engine).
Definition set_engine_limiter (limiter : IntentRateLimiter) (engine : SignalEngine) : SignalEngine :=
  match sg_external_rate_limiter engine with
  | Some _ => engine <| sg_external_rate_limiter := Some limiter |>
  | None => engine <| sg_default_rate_limiter := limiter |>
  end.

(** [engine/signal/core/SignalEngine.cpp:834-948] scan_once, from the candidates to the published intents. *)
Definition publish_scan (engine : SignalEngine) (artifact : OracleArtifactReader) (context : SignalScanContext) (scan_latency_ns : Z)
    (st : ScanState) : SignalRunResult * SignalEngine :=
  let now_ns := sx_now_monotonic_ns context in
  let completed := (λ c, c <| pc_intent ::= complete_intent_lifecycle (sg_config engine) artifact now_ns |>) <$> ss_candidates st in
  let ranked := rank_candidates (sg_ranker engine) completed in
  let '(kept, deduper, duplicates) := dedupe now_ns ranked (sg_deduper engine) in
  let '(allowed, limiter, limited) := limit_rate now_ns kept (engine_limiter engine) in
  let intents := pc_intent <$> allowed in
  let indices := pc_evidence_index <$> allowed in
  let result := (ss_result st) <| rn_duplicate_intents ::= Z.add duplicates |> <| rn_rejected_duplicate ::= Z.add duplicates |>
    <| rn_rate_limited ::= Z.add limited |> <| rn_rejected_rate_limited ::= Z.add limited |>
    <| rn_output_hash := hash_published_intents intents |>
    <| rn_intents_published := match sg_publisher engine with Some _ => Z.of_nat (length intents) | None => 0 end |> in
  (populate_metrics scan_latency_ns result,
   (set_engine_limiter limiter engine) <| sg_deduper := deduper |>
     <| sg_last_published_intents := intents |> <| sg_last_published_evidence := ss_evidence st |>
     <| sg_last_published_evidence_indices := indices |>
     <| sg_publisher ::= fmap (publish_all intents (ss_evidence st) indices) |>).

(** [engine/signal/core/SignalEngine.cpp:450-949] scan_once. *)
Definition scan_once (engine : SignalEngine) (context : SignalScanContext) (scan_latency_ns : Z) : SignalRunResult * SignalEngine :=
  match sg_snapshot_reader engine, sg_artifact_reader engine, sg_edge_calculator engine with
  | Some reader, Some artifact, Some calculator =>
      if sg_settlement_checker engine && sg_vwap engine then
        publish_scan engine artifact context scan_latency_ns (scan_all (sg_config engine) artifact calculator reader context)
      else (populate_metrics scan_latency_ns run_result0,
            engine <| sg_last_published_intents := [] |> <| sg_last_published_evidence := [] |> <| sg_last_published_evidence_indices := [] |>)
  | _, _, _ =>
      (populate_metrics scan_latency_ns run_result0,
       engine <| sg_last_published_intents := [] |> <| sg_last_published_evidence := [] |> <| sg_last_published_evidence_indices := [] |>)
  end.

End Engine.
