(* ===== verification/SignalScan.v ===== *)
(** * SignalScan: what a scan publishes

    Theorems about [scan_once] of SignalEngine.v and about sequences of scans:
    every published opportunity went through all the gates and carries the
    evidence it was priced on, duplicates and the rate are held across scans,
    every scanned plan is accounted for, and an opportunity the limits leave
    room for is published. *)

From stdpp Require Import sorting strings.
From S2P Require Import Prelude FixedPoint Hashing RiskTypes Bundles Depth Reprice MarketSnapshot MarketShard MarketView SignalTypes SignalPricing SignalReader RuntimePlans SignalIntent SignalEngine.
#[local] Open Scope Z_scope.

#[local] Arguments constant {_} _ _ /.

(** ** Readings that reject say why *)

(** A rejection names a missing snapshot or a bad market state. *)
Definition honest_rejection (status : IntentStatus) : Prop :=
  status = IsRejectedMissingSnapshot ∨ status = IsRejectedBadMarketState.
Definition honest (read : BundleRuntimePlan → Reading) : Prop :=
  ∀ plan status error, read plan = inl (status, error) → honest_rejection status.

Definition explained (read : BundleRuntimePlan → Reading) : Prop :=
  ∀ plan evidence version cost, read plan = inr (evidence, version, cost) → cs_executable cost = false → cs_failure_reason cost ≠ CfNone.

Section guards.
Context {V : Type} `{GuardView V}.
Hypothesis defects : ∀ config now_ns v status error, gv_defect config now_ns v = Some (status, error) → honest_rejection status.

Lemma first_defect_honest config now_ns (views : list V) status error :
  first_defect config now_ns views = Some (status, error) → honest_rejection status.
Proof.
  induction views as [|v views IH]; cbn; [done|]. destruct (gv_defect config now_ns v) as [[s e]|] eqn:E; [|done].
  intros [= <- <-]. by apply defects in E.
Qed.

Lemma guard_check_honest (views : list V) now_ns config :
  ry_ok (guard_check views now_ns config) = false → honest_rejection (ry_rejection_status (guard_check views now_ns config)).
Proof.
  unfold guard_check. destruct views as [|v views]; [by left|].
  destruct (first_defect config now_ns (v :: views)) as [[s e]|] eqn:E; [intros _; cbn; by eapply first_defect_honest|].
  unfold check_skew. destruct (sc_consistency_mode config); (step_if; [by right|done]).
Qed.
End guards.

Lemma snapshot_defect_honest config now_ns s status error : snapshot_defect config now_ns s = Some (status, error) → honest_rejection status.
Proof. unfold snapshot_defect. cbv zeta. unfold honest_rejection. repeat (step_if; [intros [= <- _]; by auto|]). done. Qed.

Lemma depth_view_defect_honest config now_ns v status error : depth_view_defect config now_ns v = Some (status, error) → honest_rejection status.
Proof. unfold depth_view_defect. cbv zeta. unfold honest_rejection. repeat (step_if; [intros [= <- _]; by auto|]). done. Qed.

(** A cost that is not executable names the reason. *)
Lemma price_requests_explained {V} `{PricingView V} legs_of set_leg (requests : list (LegRequest V * LegCapacity)) result :
  (∀ i leg r, cs_failure_reason (set_leg i leg r) = cs_failure_reason r) → cs_executable result = false →
  cs_executable (price_requests legs_of set_leg requests result) = false →
  cs_failure_reason (price_requests legs_of set_leg requests result) ≠ CfNone.
Proof.
  intros Hset Hx. unfold price_requests. destruct (legs_quantity _ _) as [ok quantity]. step_if; [intros _; by destruct result|].
  destruct (price_legs _ _ _ _ _ _) as [early|[r lots]] eqn:E.
  - intros _. revert E. generalize (result <| cs_bundle_qty := quantity |>) 0%nat 0. clear -Hset.
    induction requests as [|[request capacity] requests IH]; intros r i lots; cbn; [done|].
    destruct (price_leg _ _ _ _ _ _ _) as [e|[r' lots']] eqn:El; [|by apply IH].
    intros [= ->]. unfold price_leg in El. destruct (checked_mul_i64 _ _) as [planned|]; [|by injection El as <-].
    destruct (pv_price _ _ _ _) as [reason priced]. case_bool_decide as Hr; cbn [negb] in El.
    + destruct (checked_add_i64 _ _); [|by injection El as <-]. destruct (checked_add_i64 _ _); [done|by injection El as <-].
    + injection El as <-. rewrite Hset. by destruct r.
  - step_if; [done|]. by destruct r.
Qed.

Lemma failed_plan_cost_named {V} `{PricingView V} plan views_ok (views : list V) :
  cs_executable (price_runtime_plan plan views_ok views) = false → cs_failure_reason (price_runtime_plan plan views_ok views) ≠ CfNone.
Proof.
  unfold price_runtime_plan. step_if; [done|].
  assert (Hrest : ∀ n i r, cs_executable r = false →
    match plan_capacities plan views i n r with
    | inl early => cs_failure_reason early ≠ CfNone
    | inr (r', _) => cs_executable r' = false
    end).
  { induction n as [|n IH]; intros i r Hr; cbn; [done|]. destruct (pn_asset_ids plan !!! i); [|done]. destruct (pv_find _ _ _); [|done].
    destruct (pv_capacity _ _ _ _) as [reason cap]. destruct (bool_decide_reflect (reason = CfNone)); cbn [negb]; [|by destruct r].
    match goal with |- context [plan_capacities plan views (S i) n ?r'] => specialize (IH (S i) r' ltac:(by destruct r)) end.
    destruct (plan_capacities _ _ _ _ _) as [early|[? ?]]; done. }
  specialize (Hrest (pn_leg_count plan) 0%nat cost_result0 eq_refl).
  destruct (plan_capacities _ _ _ _ _) as [early|[r requests]]; [done|]. apply price_requests_explained; [by intros i leg []|done].
Qed.

(** What the reader of the market state store reads is honest and explained. *)
Lemma store_reading st config now_ns read :
  read_plan (MarketStateViewSnapshotReader st) config now_ns = Some read → honest read ∧ explained read.
Proof.
  unfold read_plan. cbn [rr_read_depth_for_plan MarketStateViewSnapshotReader]. intros [= <-]. split; intros plan.
  - intros status error. destruct (rv_ok _) eqn:E; cbn [negb]; [done|]. intros [= <- _]. revert E.
    unfold read_depth_for_plan, validate_plan_depth_views. step_if; [by left|]. step_if; [by left|]. step_if; [|done].
    intros _. apply guard_check_honest; [exact depth_view_defect_honest|by apply negb_true_iff].
  - intros evidence version cost. destruct (rv_ok _) eqn:E; cbn [negb]; [|done]. intros [= _ _ <-]. apply failed_plan_cost_named.
Qed.

(** ** What one plan adds to a scan *)

Section scan.
Context (config : SignalConfig) (artifact : OracleArtifactReader) (calculator : TheoreticalEdgeCalculator).
Context (read : BundleRuntimePlan → Reading) (context : SignalScanContext).

(** The opportunity a plan makes of a cost. *)
Definition opportunity_of (plan : BundleRuntimePlan) (bundle : CandidateBundle) (version : SnapshotVersion) (cost : CostResult) : OpportunityIntent :=
  copy_plan_asset_indices plan (build_intent (plan_build_input config artifact (sx_now_monotonic_ns context) plan bundle version cost
    (calculate_edge calculator bundle cost config))).

(** A plan that passes every gate, with the evidence it was priced on and the intent it makes. *)
Record passes (plan : BundleRuntimePlan) (intent : OpportunityIntent) (evidence : SignalPublishedEvidence) : Prop := {
  ps_gates : ∃ bundle version cost,
    pn_bundle plan = Some bundle ∧ settlement_is_valid bundle context = true ∧ read plan = inr (evidence, version, cost) ∧
    cs_executable cost = true ∧ eb_passed (calculate_edge calculator bundle cost config) = true ∧
    intent = opportunity_of plan bundle version cost
}.

(** The intent a plan ends as, and the evidence it keeps. *)
Definition verdict (ordinal : Z) (plan : BundleRuntimePlan) (bundle : CandidateBundle) : OpportunityIntent * option SignalPublishedEvidence :=
  let intent := plan_intent artifact context ordinal plan bundle in
  if negb (settlement_is_valid bundle context) then
    (intent <| oi_status := IsRejectedInvalidSettlement |> <| oi_reject_code := IrcInvalidSettlement |>, None)
  else
    let intent := intent <| oi_valid_under_settlement := true |> in
    match read plan with
    | inl (status, error) =>
        (intent <| oi_status := status |> <| oi_reject_reason := error |> <| oi_reject_code := missing_or IrcBadMarketState status |>, None)
    | inr (evidence, version, cost) =>
        if cs_executable cost then (opportunity_of plan bundle version cost, Some evidence)
        else
          let status := status_from_cost_failure (cs_failure_reason cost) in
          ((copy_cost_fields cost (intent <| oi_passed_quality_gate := true |> <| oi_snapshot_version := sv_max_book_version version |>
             <| oi_snapshot_version_hash := sv_combined_hash version |>)) <| oi_status := status |>
             <| oi_reject_code := missing_or IrcInsufficientDepth status |>, None)
    end.

Definition kept_index (evidence : option SignalPublishedEvidence) (st : ScanState) : option nat :=
  match evidence with Some _ => Some (length (ss_evidence st)) | None => None end.

(** [offer] puts an intent behind the candidates when it is to be published and there is room. *)
Definition offer (intent : OpportunityIntent) (index : option nat) (candidates : list SignalPublishCandidate) : list SignalPublishCandidate :=
  if should_publish config (oi_status intent) && (Z.of_nat (length candidates) <? publish_limit config)
  then candidates ++ [mkCandidate intent index] else candidates.

Lemma try_publish_offer intent index st :
  ss_candidates (try_publish config intent index st) = offer intent index (ss_candidates st) ∧
  ss_evidence (try_publish config intent index st) = ss_evidence st ∧ ss_result (try_publish config intent index st) = ss_result st.
Proof.
  unfold try_publish, offer. destruct (should_publish _ _); cbn [andb]; [|done]. rewrite Z.ltb_antisym.
  destruct (publish_limit config <=? _); cbn [negb]; [done|]. by destruct st.
Qed.

(** The counters of the six ends of a plan, and the others the loop leaves alone. *)
Definition counted (r : SignalRunResult) : Z :=
  rn_rejected_invalid_settlement r + rn_rejected_bad_market_state r + rn_rejected_missing_snapshot r +
  rn_rejected_insufficient_depth r + rn_rejected_low_edge r + rn_paper_opportunities r.
Definition untouched (r : SignalRunResult) := (rn_duplicate_intents r, rn_rate_limited r, rn_rejected_duplicate r, rn_rejected_rate_limited r, rn_intents_published r).

Definition ended (status : IntentStatus) : Prop := status ≠ IsCandidateOnly ∧ status ≠ IsDuplicateIntent.

Lemma increment_counted status r :
  ended status → counted (increment_counter_for_status status r) = counted r + 1 ∧
  untouched (increment_counter_for_status status r) = untouched r ∧
  rn_bundles_scanned (increment_counter_for_status status r) = rn_bundles_scanned r ∧
  rn_paper_opportunities (increment_counter_for_status status r) =
    rn_paper_opportunities r + (if decide (status = IsPaperOpportunity) then 1 else 0).
Proof.
  intros [? ?]. unfold counted, untouched. destruct r. case_decide as E; [subst; cbn; split_and!; (done || lia)|].
  destruct status; try done; cbn; split_and!; (done || lia).
Qed.

(** [r'] is [r] after one more plan, which ended with [status]. *)
Definition one_more (status : IntentStatus) (r r' : SignalRunResult) : Prop :=
  ended status → counted r' = counted r + 1 ∧ untouched r' = untouched r ∧ rn_bundles_scanned r' = rn_bundles_scanned r + 1 ∧
    rn_paper_opportunities r' = rn_paper_opportunities r + (if decide (status = IsPaperOpportunity) then 1 else 0).

Lemma increment_one_more status r r1 :
  counted r1 = counted r → untouched r1 = untouched r → rn_bundles_scanned r1 = rn_bundles_scanned r + 1 →
  rn_paper_opportunities r1 = rn_paper_opportunities r → one_more status r (increment_counter_for_status status r1).
Proof. intros H1 H2 H3 H4 He. destruct (increment_counted status r1 He) as (-> & -> & -> & ->). by rewrite H1, H2, H3, H4. Qed.

Ltac offered := unfold reject_intent; match goal with |- context [try_publish config ?i ?x ?s] => destruct (try_publish_offer i x s) as (-> & -> & ->) end.

Lemma set_result f r cands evs : (mkScanState r cands evs) <| ss_result ::= f |> = mkScanState (f r) cands evs.
Proof. done. Qed.

Lemma scan_plan_verdict plan bundle n st intent evidence :
  pn_bundle plan = Some bundle → verdict (n + 1) plan bundle = (intent, evidence) →
  ∃ st', scan_plan config artifact calculator read context plan (n, st) = (n + 1, st') ∧
  ss_candidates st' = offer intent (kept_index evidence st) (ss_candidates st) ∧
  ss_evidence st' = ss_evidence st ++ (if should_publish config (oi_status intent) then option_list evidence else []) ∧
  one_more (oi_status intent) (ss_result st) (ss_result st').
Proof.
  intros Hb. unfold scan_plan, verdict. rewrite Hb. cbn [fst snd]. destruct st as [r cands evs]. rewrite !set_result. cbv beta.
  assert (Hr : counted (r <| rn_bundles_scanned ::= Z.succ |>) = counted r ∧ untouched (r <| rn_bundles_scanned ::= Z.succ |>) = untouched r ∧
    rn_bundles_scanned (r <| rn_bundles_scanned ::= Z.succ |>) = rn_bundles_scanned r + 1 ∧
    rn_paper_opportunities (r <| rn_bundles_scanned ::= Z.succ |>) = rn_paper_opportunities r) by by destruct r.
  revert Hr. generalize (r <| rn_bundles_scanned ::= Z.succ |>). intros r1 (R1 & R2 & R3 & R4).
  set (start := plan_intent artifact context (n + 1) plan bundle). clearbody start.
  destruct (settlement_is_valid bundle context); cbn [negb].
  2:{ intros [<- <-]%pair_eq. eexists. split; [done|]. offered. split; [done|]. split; [by case_match; rewrite app_nil_r|].
      assert (∀ i c, oi_status (i <| oi_status := IsRejectedInvalidSettlement |> <| oi_reject_code := c |>) = IsRejectedInvalidSettlement) as -> by by intros [].
      by apply increment_one_more. }
  destruct (read plan) as [[status error]|[[evidence' version] cost]].
  - intros [<- <-]%pair_eq. eexists. split; [done|]. unfold reject_reading. rewrite !set_result. offered.
    assert (∀ i e c, oi_status (i <| oi_status := status |> <| oi_reject_reason := e |> <| oi_reject_code := c |>) = status) as -> by by intros [].
    pose proof (increment_one_more status r r1 R1 R2 R3 R4) as Hone. revert Hone. generalize (increment_counter_for_status status r1). intros r2 Hone.
    split; [by repeat case_match|]. split; [by repeat case_match; rewrite app_nil_r|].
    repeat case_match; intros He; destruct (Hone He) as (? & ? & ? & ?); split_and!; by destruct r2.
  - unfold scan_priced_plan. rewrite !set_result.
    assert (Hst : ∀ i s c, oi_status (i <| oi_status := s |> <| oi_reject_code := c |>) = s) by by intros [].
    destruct (cs_executable cost) eqn:Ex; cbn [negb].
    2:{ intros [<- <-]%pair_eq. eexists. split; [done|]. offered. rewrite !Hst. split; [done|]. split; [by case_match; rewrite app_nil_r|].
        apply increment_one_more; by destruct r1. }
    intros [<- <-]%pair_eq. eexists. split; [done|]. fold (opportunity_of plan bundle version cost).
    set (intent := opportunity_of plan bundle version cost). clearbody intent.
    destruct (should_publish config (oi_status intent)) eqn:Es.
    + offered. split; [done|]. split; [done|]. apply increment_one_more; by destruct r1.
    + unfold offer. rewrite Es. split; [done|]. split; [by rewrite app_nil_r|]. apply increment_one_more; by destruct r1.
Qed.

Hypothesis read_honest : honest read.
Hypothesis read_explained : explained read.

Lemma opportunity_status plan bundle version cost :
  oi_status (opportunity_of plan bundle version cost) =
    if eb_passed (calculate_edge calculator bundle cost config) then IsPaperOpportunity else IsRejectedLowEdge.
Proof. done. Qed.

Lemma status_of_rejected (start : OpportunityIntent) status code : oi_status (start <| oi_status := status |> <| oi_reject_code := code |>) = status.
Proof. by destruct start. Qed.

Lemma verdict_spec n plan bundle intent evidence :
  pn_bundle plan = Some bundle → verdict n plan bundle = (intent, evidence) →
  ended (oi_status intent) ∧
  (oi_status intent = IsPaperOpportunity → ∃ e, evidence = Some e ∧ passes plan intent e) ∧
  (∀ i e, passes plan i e → intent = i ∧ evidence = Some e).
Proof.
  intros Hb. unfold verdict. destruct (settlement_is_valid bundle context) eqn:Es; cbn [negb].
  2:{ intros [<- <-]%pair_eq. rewrite status_of_rejected. split_and!; [by split|done|].
      intros i e [(b & v & c & Hb' & Hv & _)]. congruence. }
  destruct (read plan) as [[status error]|[[e version] cost]] eqn:Er.
  - intros [<- <-]%pair_eq. match goal with |- context [oi_status ?i] => assert (oi_status i = status) as -> by by destruct (plan_intent artifact context n plan bundle) end.
    destruct (read_honest _ _ _ Er) as [-> | ->]; (split_and!; [by split|done|]);
      intros i e [(b & v & c & _ & _ & Hr & _)]; congruence.
  - destruct (cs_executable cost) eqn:Ex.
    + intros [<- <-]%pair_eq. rewrite opportunity_status. split_and!; [by case_match|..].
      * intros Hp. exists e. split; [done|]. split. exists bundle, version, cost. split_and!; try done. by destruct (eb_passed _).
      * intros i e' [(b & v & c & Hb' & _ & Hr & _ & _ & ->)]. simplify_eq. rewrite Hr in Er. by injection Er as <- <- <-.
    + intros [<- <-]%pair_eq. rewrite status_of_rejected. pose proof (read_explained _ _ _ _ Er Ex).
      split_and!; [destruct (cs_failure_reason cost); (done || by split)|by destruct (cs_failure_reason cost)|].
      intros i e' [(b & v & c & _ & _ & Hr & Hx & _)]. congruence.
Qed.

Lemma elem_of_offer c intent index candidates :
  c ∈ offer intent index candidates ↔ c ∈ candidates ∨
    (c = mkCandidate intent index ∧ should_publish config (oi_status intent) = true ∧ Z.of_nat (length candidates) < publish_limit config).
Proof.
  unfold offer. destruct (should_publish _ _); cbn [andb]; [|naive_solver]. destruct (Z.ltb_spec (Z.of_nat (length candidates)) (publish_limit config)).
  - rewrite elem_of_app, list_elem_of_singleton. naive_solver.
  - split; [by left|]. intros [?|(_ & _ & ?)]; [done|lia].
Qed.

(** What holds of the state once [plans] were scanned. *)
Record scanned (plans : list BundleRuntimePlan) (st : ScanState) : Prop := {
  so_sound c : c ∈ ss_candidates st → oi_status (pc_intent c) = IsPaperOpportunity →
    ∃ plan e k, plan ∈ plans ∧ passes plan (pc_intent c) e ∧ pc_evidence_index c = Some k ∧ ss_evidence st !! k = Some e;
  so_complete plan i e : plan ∈ plans → passes plan i e →
    (∃ c, c ∈ ss_candidates st ∧ pc_intent c = i) ∨ publish_limit config < Z.of_nat (length plans);
  so_bound : Z.of_nat (length (ss_candidates st)) <= Z.max 0 (publish_limit config) ∧ (length (ss_candidates st) <= length plans)%nat;
  so_published c : c ∈ ss_candidates st → should_publish config (oi_status (pc_intent c)) = true;
  so_counted : counted (ss_result st) = rn_bundles_scanned (ss_result st) ∧ untouched (ss_result st) = (0, 0, 0, 0, 0);
  so_scanned : rn_bundles_scanned (ss_result st) = Z.of_nat (length (omap pn_bundle plans));
  so_offered : sc_emit_rejections config = true →
    Z.of_nat (length (ss_candidates st)) = Z.min (Z.max 0 (publish_limit config)) (Z.of_nat (length (omap pn_bundle plans)))
}.

Lemma scanned_step plans plan n st :
  scanned plans st → scanned (plans ++ [plan]) (scan_plan config artifact calculator read context plan (n, st)).2.
Proof.
  intros [S1 S2 [S3 S3'] S4 [S5 S5'] S6 S7]. destruct (pn_bundle plan) as [bundle|] eqn:Hb.
  2:{ unfold scan_plan. rewrite Hb. cbn [snd]. split; try done.
      - intros c Hc Hp. destruct (S1 c Hc Hp) as (p & e & k & ? & ?). exists p, e, k. by rewrite elem_of_app; auto.
      - rewrite length_app. intros p i e [Hp| ->%list_elem_of_singleton]%elem_of_app Hpass; [destruct (S2 p i e Hp Hpass); [by left|right; lia]|].
        destruct Hpass as [(b & ? & ? & ? & _)]. congruence.
      - rewrite length_app. split; [done|lia].
      - rewrite omap_app, length_app, S6. cbn. rewrite Hb. cbn. lia.
      - intros Hemit. rewrite (S7 Hemit), omap_app, length_app. cbn. rewrite Hb. cbn. lia. }
  destruct (verdict (n + 1) plan bundle) as [intent evidence] eqn:Ev.
  destruct (scan_plan_verdict _ _ n st _ _ Hb Ev) as (st' & -> & Hc & He & Hone). cbn [snd].
  destruct (verdict_spec _ _ _ _ _ Hb Ev) as (Hend & Hsound & Hcomplete). destruct (Hone Hend) as (R1 & R2 & R3 & R4).
  assert (Hpub : oi_status intent = IsPaperOpportunity → should_publish config (oi_status intent) = true) by (by intros ->).
  split.
  - intros c. rewrite Hc, He, elem_of_offer. intros [Hold|(-> & Hs & _)] Hp.
    + destruct (S1 c Hold Hp) as (p & e & k & ? & ? & ? & ?). exists p, e, k. rewrite elem_of_app. split_and!; auto. by apply lookup_app_l_Some.
    + cbn in Hp |- *. destruct (Hsound Hp) as (e & -> & Hpass). exists plan, e, (length (ss_evidence st)).
      rewrite Hs. split_and!; [set_solver|done|done|]. cbn. rewrite lookup_app_r, Nat.sub_diag by lia. done.
  - intros p i e Hp Hpass. rewrite (length_app plans). cbn [length].
    apply elem_of_app in Hp as [Hp| ->%list_elem_of_singleton].
    + destruct (S2 p i e Hp Hpass) as [(c & ? & ?)|?]; [|right; lia]. left. exists c. by rewrite Hc, elem_of_offer; auto.
    + destruct (Hcomplete i e Hpass) as [<- ->]. destruct (Z.lt_ge_cases (Z.of_nat (length (ss_candidates st))) (publish_limit config)); [|right; lia].
      left. eexists. rewrite Hc, elem_of_offer. split; [right; split; [done|]|done]. split; [|done]. apply Hpub.
      destruct Hpass as [(b & v & c & _ & _ & _ & _ & Hedge & ->)]. by rewrite opportunity_status, Hedge.
  - rewrite Hc, (length_app plans). unfold offer. cbn [length]. destruct (should_publish _ _); cbn [andb]; [|lia].
    destruct (Z.ltb_spec (Z.of_nat (length (ss_candidates st))) (publish_limit config)); rewrite ?length_app; cbn [length]; lia.
  - intros c. rewrite Hc, elem_of_offer. intros [?|(-> & ? & _)]; auto.
  - split; [lia|congruence].
  - rewrite R3, S6, omap_app, length_app. cbn. rewrite Hb. cbn. lia.
  - intros Hemit. specialize (S7 Hemit). rewrite Hc, omap_app, (length_app (omap pn_bundle plans)). cbn. rewrite Hb. cbn [length]. unfold offer.
    unfold should_publish at 1. rewrite Hemit, orb_true_r. cbn [andb].
    destruct (Z.ltb_spec (Z.of_nat (length (ss_candidates st))) (publish_limit config)); rewrite ?length_app; cbn [length]; lia.
Qed.

Lemma scanned_all plans st n :
  scanned [] st → scanned plans (foldl (λ acc plan, scan_plan config artifact calculator read context plan acc) (n, st) plans).2.
Proof.
  intros H0. induction plans as [|plan plans IH] using rev_ind; [done|]. rewrite foldl_app. cbn [foldl].
  destruct (foldl _ _ plans) as [m st']. by apply scanned_step.
Qed.

Lemma scanned_nil : scanned [] scan_state0.
Proof. split; cbn; try done; try (intros; set_solver); try lia. Qed.
End scan.

(** ** From the candidates to the published intents *)

(** What the lifecycle never changes. *)
Definition kept_fields (intent : OpportunityIntent) :=
  (oi_status intent, oi_valid_under_settlement intent, oi_passed_quality_gate intent, oi_enough_depth intent,
   (oi_bundle_qty intent, oi_unit_edge_tick intent, oi_total_edge_tick intent, oi_edge_bps intent, oi_bundle_id intent),
   (oi_legs intent, oi_leg_count intent)).

Lemma complete_keeps config artifact now_ns intent :
  kept_fields (complete_intent_lifecycle config artifact now_ns intent) = kept_fields intent.
Proof.
  assert (Hf : ∀ (b : bool) i j, kept_fields j = kept_fields i → kept_fields (if b then j else i) = kept_fields i) by by intros [].
  unfold complete_intent_lifecycle. transitivity (kept_fields (complete_origin artifact (complete_times config now_ns intent))).
  { generalize (complete_origin artifact (complete_times config now_ns intent)). intros i. unfold complete_identity. cbv zeta.
    do 3 (rewrite Hf; [|match goal with |- _ = kept_fields ?x => by generalize x; intros [] end]). done. }
  transitivity (kept_fields (complete_times config now_ns intent)).
  { generalize (complete_times config now_ns intent). intros i. unfold complete_origin. cbv zeta.
    do 4 (rewrite Hf; [|match goal with |- _ = kept_fields ?x => by generalize x; intros [] end]). done. }
  unfold complete_times. cbv zeta.
  do 2 (rewrite Hf; [|match goal with |- _ = kept_fields ?x => by generalize x; intros [] end]). done.
Qed.

Lemma dedupe_sublist now_ns candidates deduper :
  let '(kept, deduper', dropped) := dedupe now_ns candidates deduper in
  sublist kept candidates ∧ Z.of_nat (length kept) + dropped = Z.of_nat (length candidates) ∧ 0 <= dropped.
Proof.
  revert deduper; induction candidates as [|c cs IH]; intros deduper; cbn [dedupe]; [done|].
  destruct (dedupe_one _ _ _) as [dup d]. specialize (IH d). destruct (dedupe now_ns cs d) as [[kept d'] dropped].
  destruct IH as (? & ? & ?). destruct dup; cbn [length]; split_and!; try lia; by constructor.
Qed.

Lemma limit_sublist now_ns candidates limiter :
  let '(kept, limiter', dropped) := limit_rate now_ns candidates limiter in
  sublist kept candidates ∧ Z.of_nat (length kept) + dropped = Z.of_nat (length candidates) ∧ 0 <= dropped.
Proof.
  revert limiter; induction candidates as [|c cs IH]; intros limiter; cbn [limit_rate]; [done|].
  destruct (allow _ _) as [ok l]. specialize (IH l). destruct (limit_rate now_ns cs l) as [[kept l'] dropped].
  destruct IH as (? & ? & ?). destruct ok; cbn [length]; split_and!; try lia; by constructor.
Qed.

#[export] Instance candidate_before_trans : Transitive candidate_before.
Proof. intros a b c. unfold candidate_before. apply ranked_before_trans. Qed.
#[export] Instance candidate_before_total : Total candidate_before.
Proof. intros a b. unfold candidate_before. apply ranked_before_total. Qed.

Lemma StronglySorted_sublist {A} (R : relation A) l k : sublist l k → StronglySorted R k → StronglySorted R l.
Proof.
  induction 1 as [|x l k Hs IH|x l k Hs IH]; intros Hk; [done|..]; apply StronglySorted_inv in Hk as [Hk Hx]; [|auto].
  constructor; [auto|]. apply Forall_forall. intros y Hy. rewrite Forall_forall in Hx. by apply Hx, (sublist_subseteq _ _ Hs).
Qed.

(** ** The duplicate filter and the rate limit over a list *)

Definition is_opportunity (intent : OpportunityIntent) : Prop := oi_status intent = IsPaperOpportunity.

(** Asking for and marking one intent changes what is known of its own hash only. *)
Lemma dedupe_one_spec now_ns intent d :
  let '(duplicate, d') := dedupe_one now_ns intent (Some d) in
  ∃ e, d' = Some e ∧ dd_ttl_ns e = dd_ttl_ns d ∧
    (∀ h, (is_opportunity intent → oi_idempotency_hash intent ≠ h) → dd_seen_hashes e !! h = dd_seen_hashes d !! h) ∧
    (is_opportunity intent → oi_idempotency_hash intent ≠ 0 →
      if duplicate then e = d else
        (∀ t, dd_seen_hashes d !! oi_idempotency_hash intent = Some t → ¬ (t <= now_ns ∧ now_ns - t < dd_ttl_ns d)) ∧
        dd_seen_hashes e !! oi_idempotency_hash intent = Some now_ns).
Proof.
  unfold dedupe_one, is_opportunity. case_decide as Hp.
  2:{ exists d. split_and!; try done. }
  destruct (Z.eqb_spec (oi_idempotency_hash intent) 0) as [Hz|Hz]; cbn [negb].
  - pose proof (key_recently_hashes (oi_idempotency_key intent) now_ns d) as [H1 H2].
    destruct (seen_key_recently _ _ _) as [[] e]; cbn [snd] in *; [exists e; by rewrite H1, H2|].
    destruct (mark_key_hashes (oi_idempotency_key intent) now_ns e) as [M1 M2]. eexists. split; [done|]. by rewrite M1, M2, H1, H2.
  - destruct (seen_recently _ _ _) as [[] e] eqn:E.
    + apply seen_recently_true in E as [-> _]. by exists d.
    + apply seen_recently_false in E as (E1 & E2 & E3); [|done]. eexists. split; [done|]. rewrite E2, E3. split_and!; [done|..].
      * intros h Hh. rewrite lookup_insert_ne; [done|]. by apply Hh.
      * intros _ _. split; [done|]. apply lookup_insert_eq.
Qed.

(** An opportunity the deduper does not remember survives, or another with its hash does. *)
Lemma dedupe_keeps now_ns candidates d c :
  c ∈ candidates → is_opportunity (pc_intent c) → oi_idempotency_hash (pc_intent c) ≠ 0 →
  (∀ t, dd_seen_hashes d !! oi_idempotency_hash (pc_intent c) = Some t → ¬ (t <= now_ns ∧ now_ns - t < dd_ttl_ns d)) →
  ∃ c', c' ∈ (dedupe now_ns candidates (Some d)).1.1 ∧ is_opportunity (pc_intent c') ∧
    oi_idempotency_hash (pc_intent c') = oi_idempotency_hash (pc_intent c).
Proof.
  intros Hin Hp Hz. revert d; induction candidates as [|c0 cs IH]; intros d Hd; [by apply elem_of_nil in Hin|]. cbn [dedupe].
  pose proof (dedupe_one_spec now_ns (pc_intent c0) d) as Hs. destruct (dedupe_one _ _ _) as [dup d'] eqn:E1.
  destruct Hs as (e & -> & Ht & Hother & Hown). specialize (IH). destruct (dedupe now_ns cs (Some e)) as [[kept d''] n] eqn:E2.
  destruct (decide (is_opportunity (pc_intent c0) ∧ oi_idempotency_hash (pc_intent c0) = oi_idempotency_hash (pc_intent c))) as [[Hp0 Hh0]|Hne].
  - destruct dup.
    + exfalso. unfold dedupe_one in E1. rewrite decide_True in E1 by done. rewrite (proj2 (Z.eqb_neq _ 0)) in E1 by congruence. cbn [negb] in E1.
      rewrite Hh0 in E1. destruct (seen_recently _ _ _) as [[] ?] eqn:E3; [|done]. apply seen_recently_true in E3 as (_ & t & Hlk & ?). by eapply Hd.
    + exists c0. split; [apply elem_of_cons; by left|done].
  - apply elem_of_cons in Hin as [->|Hin]; [by destruct Hne|]. destruct (IH Hin e) as (c' & Hc' & ?).
    { rewrite Ht, Hother; [done|]. intros Hp0 Hh. by apply Hne. }
    exists c'. rewrite E2 in Hc'. cbn in Hc'. split; [|done]. destruct dup; cbn; [done|]. apply elem_of_cons. by right.
Qed.

(** What the window of a second has used. *)
Definition used (limiter : IntentRateLimiter) (second : Z) : Z :=
  if rl_has_window limiter && (second =? rl_current_second limiter) then rl_emitted_this_second limiter else 0.
(** There is budget left for [n] intents. *)
Definition room (limiter : IntentRateLimiter) (now_ns : Z) (n : nat) : Prop :=
  0 <= used limiter (now_ns / kNsPerSecond) ∧ used limiter (now_ns / kNsPerSecond) + Z.of_nat n <= rl_max_intents_per_second limiter.

Lemma allow_spec now_ns limiter :
  let second := now_ns / kNsPerSecond in
  let '(ok, limiter') := allow now_ns limiter in
  rl_max_intents_per_second limiter' = rl_max_intents_per_second limiter ∧ rl_has_window limiter' = true ∧ rl_current_second limiter' = second ∧
  ok = (0 <? rl_max_intents_per_second limiter) && (used limiter second <? rl_max_intents_per_second limiter) ∧
  rl_emitted_this_second limiter' = used limiter second + (if ok then 1 else 0).
Proof.
  cbv zeta. unfold allow. generalize (now_ns / kNsPerSecond). intros second.
  assert ((if negb (rl_has_window limiter) || negb (second =? rl_current_second limiter)
    then limiter <| rl_current_second := second |> <| rl_emitted_this_second := 0 |> <| rl_has_window := true |> else limiter) =
    mkIntentRateLimiter (rl_max_intents_per_second limiter) second (used limiter second) true) as ->.
  { unfold used. destruct limiter as [m cur em []]; cbn; [|done]. destruct (Z.eqb_spec second cur) as [->|]; done. }
  generalize (used limiter second) (rl_max_intents_per_second limiter). intros u m. cbn. rewrite !Z.ltb_antisym.
  destruct (m <=? 0); cbn; [split_and!; (done || lia)|]. destruct (m <=? u); cbn; split_and!; (done || lia).
Qed.

Lemma limit_rate_room now_ns candidates limiter :
  room limiter now_ns (length candidates) → (limit_rate now_ns candidates limiter).1.1 = candidates.
Proof.
  revert limiter; induction candidates as [|c cs IH]; intros limiter [H1 H2]; [done|]. cbn [limit_rate length] in *.
  pose proof (allow_spec now_ns limiter) as Ha. cbv zeta in Ha. destruct (allow _ _) as [ok l]. destruct Ha as (A1 & A2 & A3 & A4 & A5).
  assert (ok = true) as ->. { rewrite A4. apply andb_true_intro. rewrite !Z.ltb_lt. lia. }
  specialize (IH l). destruct (limit_rate now_ns cs l) as [[kept l'] n]. cbn in *. rewrite IH; [done|].
  unfold room, used. rewrite A2, A3, Z.eqb_refl, A1, A5. cbn. lia.
Qed.

(** What the filter lets through is apart from what came before and from itself. *)
Definition remembers (d : IntentDeduper) (now_ns t h : Z) : Prop :=
  (∃ t', dd_seen_hashes d !! h = Some t' ∧ t <= t' <= now_ns) ∨ dd_ttl_ns d <= now_ns - t.
Definition apart (ttl : Z) (x y : Z * OpportunityIntent) : Prop :=
  is_opportunity x.2 → is_opportunity y.2 → oi_idempotency_hash x.2 = oi_idempotency_hash y.2 → oi_idempotency_hash x.2 ≠ 0 → ttl <= y.1 - x.1.

Lemma remembers_later d now now' t h : now <= now' → remembers d now t h → remembers d now' t h.
Proof. intros Hn [(t' & ? & ?)|?]; [left; exists t'; split; [done|lia]|right; lia]. Qed.

Lemma dedupe_apart now_ns candidates d :
  let '(kept, d', _) := dedupe now_ns candidates (Some d) in
  ∃ e, d' = Some e ∧ dd_ttl_ns e = dd_ttl_ns d ∧
    (∀ t h, h ≠ 0 → remembers d now_ns t h → remembers e now_ns t h) ∧
    (∀ t h c, remembers d now_ns t h → c ∈ kept → is_opportunity (pc_intent c) → oi_idempotency_hash (pc_intent c) = h → h ≠ 0 →
       dd_ttl_ns d <= now_ns - t) ∧
    (∀ c, c ∈ kept → is_opportunity (pc_intent c) → oi_idempotency_hash (pc_intent c) ≠ 0 → remembers e now_ns now_ns (oi_idempotency_hash (pc_intent c))) ∧
    StronglySorted (apart (dd_ttl_ns d)) ((λ c, (now_ns, pc_intent c)) <$> kept).
Proof.
  revert d; induction candidates as [|c cs IH]; intros d; cbn [dedupe].
  { exists d. split_and!; try done; [set_solver|set_solver|constructor]. }
  pose proof (dedupe_one_spec now_ns (pc_intent c) d) as Hs. destruct (dedupe_one _ _ _) as [dup d1].
  destruct Hs as (e1 & -> & T1 & O1 & W1). specialize (IH e1). destruct (dedupe now_ns cs (Some e1)) as [[kept d2] n].
  destruct IH as (e & -> & T2 & R2 & A2 & N2 & S2). rewrite T1 in *.
  assert (Hstep : ∀ t h, h ≠ 0 → remembers d now_ns t h → remembers e1 now_ns t h).
  { intros t h Hh Hr. destruct (decide (is_opportunity (pc_intent c) ∧ oi_idempotency_hash (pc_intent c) = h)) as [[Hp Hc]|Hne].
    - specialize (W1 Hp ltac:(congruence)). destruct dup; [by subst e1|]. destruct W1 as [_ W1].
      destruct Hr as [(t' & ? & ?)|?]; [|right; by rewrite T1]. left. exists now_ns. rewrite <- Hc, W1. split; [done|lia].
    - unfold remembers. rewrite T1, O1; [done|]. intros Hp Hc. by apply Hne. }
  assert (Hgap : ∀ t h, remembers d now_ns t h → dup = false → is_opportunity (pc_intent c) → oi_idempotency_hash (pc_intent c) = h → h ≠ 0 →
    dd_ttl_ns d <= now_ns - t).
  { intros t h Hr -> Hp Hc Hh. destruct (W1 Hp ltac:(congruence)) as [W _]. destruct Hr as [(t' & Ht' & ?)|?]; [|done].
    rewrite <- Hc in Ht'. specialize (W t' Ht'). lia. }
  assert (Hkeep : ∀ t h c', remembers d now_ns t h → c' ∈ kept → is_opportunity (pc_intent c') → oi_idempotency_hash (pc_intent c') = h → h ≠ 0 →
    dd_ttl_ns d <= now_ns - t) by eauto.
  destruct dup; exists e; (split; [done|]; split; [congruence|]; split; [eauto|]).
  - split_and!; eauto.
  - assert (Hown : is_opportunity (pc_intent c) → oi_idempotency_hash (pc_intent c) ≠ 0 → remembers e1 now_ns now_ns (oi_idempotency_hash (pc_intent c))).
    { intros Hp Hh. destruct (W1 Hp Hh) as [_ W]. left. exists now_ns. split; [done|lia]. }
    split_and!.
    + intros t h c' Hr [->|Hc']%elem_of_cons; eauto.
    + intros c' [->|Hc']%elem_of_cons; eauto.
    + rewrite fmap_cons. constructor; [done|]. apply Forall_fmap, Forall_forall. intros c' Hc' Hp Hp' Hh Hz. cbn in *. eauto.
Qed.

(** The rate limit lets through at most what is left of its window. *)
Lemma limit_rate_used now_ns candidates limiter :
  let second := now_ns / kNsPerSecond in
  let '(kept, limiter', _) := limit_rate now_ns candidates limiter in
  rl_max_intents_per_second limiter' = rl_max_intents_per_second limiter ∧
  (candidates ≠ [] → rl_has_window limiter' = true ∧ rl_current_second limiter' = second) ∧
  (candidates = [] → limiter' = limiter) ∧
  used limiter' second = used limiter second + Z.of_nat (length kept) ∧
  (used limiter second <= Z.max 0 (rl_max_intents_per_second limiter) → used limiter' second <= Z.max 0 (rl_max_intents_per_second limiter)).
Proof.
  cbv zeta. revert limiter; induction candidates as [|c cs IH]; intros limiter; cbn [limit_rate].
  { cbn. split_and!; try done. lia. }
  pose proof (allow_spec now_ns limiter) as Ha. cbv zeta in Ha. destruct (allow _ _) as [ok l]. destruct Ha as (A1 & A2 & A3 & A4 & A5).
  specialize (IH l). destruct (limit_rate now_ns cs l) as [[kept l'] n]. destruct IH as (I1 & I2 & I3 & I4 & I5).
  assert (Hu : used l (now_ns / kNsPerSecond) = used limiter (now_ns / kNsPerSecond) + (if ok then 1 else 0)).
  { unfold used at 1. by rewrite A2, A3, Z.eqb_refl. }
  assert (Hb : used limiter (now_ns / kNsPerSecond) <= Z.max 0 (rl_max_intents_per_second limiter) →
    used l (now_ns / kNsPerSecond) <= Z.max 0 (rl_max_intents_per_second limiter)).
  { rewrite Hu. destruct ok; [|lia]. symmetry in A4. apply andb_true_iff in A4 as [? ?%Z.ltb_lt]. lia. }
  rewrite A1 in *. destruct ok; cbn [length]; split_and!; try done; try lia; intros _;
    (destruct cs as [|c' cs']; [by rewrite I3|by apply I2]).
Qed.

Lemma StronglySorted_pair {A} (R : relation A) l i j x y :
  StronglySorted R l → (i < j)%nat → l !! i = Some x → l !! j = Some y → R x y.
Proof.
  intros Hs. revert i j. induction Hs as [|z l Hs IH Hall]; intros [|i] [|j] Hij Hi Hj; cbn in *; try done; try lia.
  - injection Hi as ->. by apply (Forall_lookup_1 _ _ _ _ Hall Hj).
  - apply (IH i j); [lia|done..].
Qed.

Section engine.
Context {P : Type} `{IIntentPublisher P}.

(** The candidates of a scan, completed and ranked. *)
Definition ranked_candidates (engine : SignalEngine (P := P)) (artifact : OracleArtifactReader) (context : SignalScanContext) (st : ScanState)
    : list SignalPublishCandidate :=
  rank_candidates (sg_ranker engine)
    ((λ c, c <| pc_intent ::= complete_intent_lifecycle (sg_config engine) artifact (sx_now_monotonic_ns context) |>) <$> ss_candidates st).

(** What publishing leaves: the intents allowed through and their evidence indices. *)
Record published_as (engine : SignalEngine (P := P)) (artifact : OracleArtifactReader) (context : SignalScanContext) (st : ScanState)
    (out : SignalRunResult * SignalEngine (P := P)) (allowed : list SignalPublishCandidate) : Prop := {
  pb_sublist : sublist allowed (ranked_candidates engine artifact context st);
  pb_intents : sg_last_published_intents out.2 = pc_intent <$> allowed;
  pb_indices : sg_last_published_evidence_indices out.2 = pc_evidence_index <$> allowed;
  pb_evidence : sg_last_published_evidence out.2 = ss_evidence st
}.

Lemma publish_scan_published engine artifact context latency st :
  ∃ allowed, published_as engine artifact context st (publish_scan engine artifact context latency st) allowed.
Proof.
  unfold publish_scan. fold (ranked_candidates engine artifact context st).
  pose proof (dedupe_sublist (sx_now_monotonic_ns context) (ranked_candidates engine artifact context st) (sg_deduper engine)) as Hd.
  destruct (dedupe _ _ _) as [[kept deduper] duplicates].
  pose proof (limit_sublist (sx_now_monotonic_ns context) kept (engine_limiter engine)) as Hl.
  destruct (limit_rate _ _ _) as [[allowed limiter] limited]. exists allowed.
  split; [by etrans; [apply Hl|apply Hd]|..]; cbn; unfold set_engine_limiter; by destruct (sg_external_rate_limiter engine), engine.
Qed.

(** An engine whose parts are all there and whose reader reads plans, over an artifact that has some. *)
Record plan_engine (engine : SignalEngine (P := P)) (context : SignalScanContext) (artifact : OracleArtifactReader)
    (calculator : TheoreticalEdgeCalculator) (read : BundleRuntimePlan → Reading) : Prop := {
  pg_reader : ∃ reader, sg_snapshot_reader engine = Some reader ∧ read_plan reader (sg_config engine) (sx_now_monotonic_ns context) = Some read;
  pg_artifact : sg_artifact_reader engine = Some artifact ∧ ar_runtime_plans artifact ≠ [];
  pg_calculator : sg_edge_calculator engine = Some calculator;
  pg_checks : sg_settlement_checker engine = true ∧ sg_vwap engine = true;
  pg_honest : honest read;
  pg_explained : explained read
}.

Lemma scan_once_plans engine context artifact calculator read latency :
  plan_engine engine context artifact calculator read →
  ∃ st, scanned (sg_config engine) artifact calculator read context (ar_runtime_plans artifact) st ∧
    scan_once engine context latency = publish_scan engine artifact context latency st.
Proof.
  intros [(reader & Hr & Hread) [Ha Hplans] Hc [Hs Hv] Hh He]. unfold scan_once. rewrite Hr, Ha, Hc, Hs, Hv. cbn [andb].
  unfold scan_all. rewrite Hread. destruct (ar_runtime_plans artifact) as [|plan plans] eqn:E; [done|].
  eexists. split; [|done]. apply (scanned_all _ _ _ _ _ Hh He). by apply scanned_nil.
Qed.

(** What passing the gates says of the intent. *)
Lemma passes_facts config artifact calculator read context plan intent evidence :
  passes config artifact calculator read context plan intent evidence →
  oi_status intent = IsPaperOpportunity ∧ oi_valid_under_settlement intent = true ∧ oi_passed_quality_gate intent = true ∧
  oi_enough_depth intent = true ∧ sc_min_bundle_qty config <= oi_bundle_qty intent ∧ 0 < oi_bundle_qty intent ∧
  sc_min_unit_edge_tick config <= oi_unit_edge_tick intent ∧ sc_min_total_edge_tick config <= oi_total_edge_tick intent ∧
  sc_min_edge_bps config <= oi_edge_bps intent ∧ oi_total_edge_tick intent = oi_unit_edge_tick intent * oi_bundle_qty intent.
Proof.
  intros [(bundle & version & cost & Hb & Hv & Hr & Hx & He & ->)]. rewrite opportunity_status, He.
  destruct (edge_passed_exact calculator bundle cost config He) as (E1 & E2 & E3 & E4 & E5 & E6 & E7 & E8 & E9 & E10 & E11).
  unfold opportunity_of. generalize dependent (calculate_edge calculator bundle cost config). intros edge He E3 E4 E5 E6 E7 E8 E9 E10 E11.
  change (oi_valid_under_settlement _) with true. change (oi_passed_quality_gate _) with true. change (oi_enough_depth _) with (cs_executable cost).
  change (oi_bundle_qty _) with (eb_bundle_qty edge). change (oi_unit_edge_tick _) with (eb_unit_edge_tick edge).
  change (oi_total_edge_tick _) with (eb_total_edge_tick edge). change (oi_edge_bps _) with (eb_edge_bps edge).
  rewrite E7, E4 in *. split_and!; (done || lia).
Qed.

(** C20. Every published opportunity is sound: it is the completed intent of a
    runtime plan of the artifact whose bundle is valid under the settlement
    masks, which the reader had current evidence for, whose cost was
    executable and whose edge passed; it says so in its flags, meets all four
    thresholds of the configuration, and its total edge is the unit edge times
    the quantity; the evidence published with it is the evidence its plan was
    priced on; the published intents are ranked best first. *)
Theorem published_opportunities_sound engine context latency artifact calculator read :
  plan_engine engine context artifact calculator read →
  let '(_, engine') := scan_once engine context latency in
  (∀ i intent, sg_last_published_intents engine' !! i = Some intent → oi_status intent = IsPaperOpportunity →
     ∃ plan built, plan ∈ ar_runtime_plans artifact ∧
       passes (sg_config engine) artifact calculator read context plan built
         (evidence_at (sg_last_published_evidence engine') (sg_last_published_evidence_indices engine') i) ∧
       intent = complete_intent_lifecycle (sg_config engine) artifact (sx_now_monotonic_ns context) built ∧
       oi_valid_under_settlement intent = true ∧ oi_passed_quality_gate intent = true ∧ oi_enough_depth intent = true ∧
       sc_min_bundle_qty (sg_config engine) <= oi_bundle_qty intent ∧ sc_min_unit_edge_tick (sg_config engine) <= oi_unit_edge_tick intent ∧
       sc_min_total_edge_tick (sg_config engine) <= oi_total_edge_tick intent ∧ sc_min_edge_bps (sg_config engine) <= oi_edge_bps intent ∧
       oi_total_edge_tick intent = oi_unit_edge_tick intent * oi_bundle_qty intent) ∧
  (sg_ranker engine = true → StronglySorted ranked_before (sg_last_published_intents engine')).
Proof.
  intros Hp. destruct (scan_once_plans engine context artifact calculator read latency Hp) as (st & Hst & ->).
  destruct (publish_scan_published engine artifact context latency st) as (allowed & [B1 B2 B3 B4]).
  destruct (publish_scan engine artifact context latency st) as [result engine']. cbn [snd] in *. rewrite B2, B3, B4. split.
  - intros i intent. rewrite list_lookup_fmap, fmap_Some. intros (c & Hc & ->) Hpaper.
    assert (Hin : c ∈ ranked_candidates engine artifact context st).
    { apply (sublist_subseteq _ _ B1). by eapply list_elem_of_lookup_2. }
    unfold ranked_candidates, rank_candidates in Hin.
    assert (Hin' : c ∈ (λ c, c <| pc_intent ::= complete_intent_lifecycle (sg_config engine) artifact (sx_now_monotonic_ns context) |>) <$> ss_candidates st).
    { destruct (sg_ranker engine); [|done]. by rewrite merge_sort_Permutation in Hin. }
    clear Hin. apply list_elem_of_fmap in Hin' as (c0 & -> & Hin). destruct c0 as [built index]. cbn in Hpaper, Hc |- *.
    pose proof (complete_keeps (sg_config engine) artifact (sx_now_monotonic_ns context) built) as Hk. unfold kept_fields in Hk.
    remember (complete_intent_lifecycle (sg_config engine) artifact (sx_now_monotonic_ns context) built) as completed eqn:Hcompleted.
    injection Hk as K1 K2 K3 K4 K5 K6 K7 K8 _ _ _. rewrite K1 in Hpaper.
    destruct (so_sound _ _ _ _ _ _ _ Hst _ Hin Hpaper) as (plan & e & k & Hplan & Hpass & Hk & He). cbn in Hpass, Hk.
    exists plan, built. pose proof (passes_facts _ _ _ _ _ _ _ _ Hpass) as (F1 & F2 & F3 & F4 & F5 & F6 & F7 & F8 & F9 & F10).
    rewrite K2, K3, K4, K5, K6, K7, K8. split_and!; try done.
    unfold evidence_at. rewrite list_lookup_fmap, Hc. cbn. rewrite Hk, He. done.
  - intros Hr. apply (StronglySorted_fmap _ candidate_before); [done|]. eapply StronglySorted_sublist; [exact B1|].
    unfold ranked_candidates, rank_candidates. rewrite Hr. apply (StronglySorted_merge_sort _ _).
Qed.

(** Every scanned plan is accounted for: the counters of the six ways a
    plan can end add up to the number of plans with a bundle, and the intents
    published, dropped as duplicates and held back by the rate limit add up to
    those offered, which are at most the configured number per scan (1024 at
    most) and, when rejections are emitted, as many of the scanned plans as
    that number allows. *)
Theorem scan_accounts engine context latency artifact calculator read :
  plan_engine engine context artifact calculator read →
  let '(result, engine') := scan_once engine context latency in
  let scanned_plans := Z.of_nat (length (omap pn_bundle (ar_runtime_plans artifact))) in
  let offered := Z.of_nat (length (sg_last_published_intents engine')) + rn_rejected_duplicate result + rn_rejected_rate_limited result in
  rn_bundles_scanned result = scanned_plans ∧ counted result = scanned_plans ∧
  0 <= rn_rejected_duplicate result ∧ 0 <= rn_rejected_rate_limited result ∧
  offered <= Z.max 0 (publish_limit (sg_config engine)) ∧
  (sc_emit_rejections (sg_config engine) = true → offered = Z.min (Z.max 0 (publish_limit (sg_config engine))) scanned_plans) ∧
  sm_bundle_passed (rn_metrics result) = rn_paper_opportunities result ∧
  (sg_publisher engine ≠ None → sm_intent_published (rn_metrics result) = Z.of_nat (length (sg_last_published_intents engine'))).
Proof.
  intros Hp. destruct (scan_once_plans engine context artifact calculator read latency Hp) as (st & Hst & ->).
  destruct Hst as [_ _ [S3 _] _ [S5 S5'] S6 S7]. unfold publish_scan. fold (ranked_candidates engine artifact context st).
  pose proof (dedupe_sublist (sx_now_monotonic_ns context) (ranked_candidates engine artifact context st) (sg_deduper engine)) as Hd.
  destruct (dedupe _ _ _) as [[kept deduper] duplicates].
  pose proof (limit_sublist (sx_now_monotonic_ns context) kept (engine_limiter engine)) as Hl.
  destruct (limit_rate _ _ _) as [[allowed limiter] limited]. destruct Hd as (_ & Hd & Hd0), Hl as (_ & Hl & Hl0).
  assert (Hlen : length (ranked_candidates engine artifact context st) = length (ss_candidates st)).
  { unfold ranked_candidates, rank_candidates. destruct (sg_ranker engine); [rewrite merge_sort_Permutation|]; by rewrite length_fmap. }
  rewrite Hlen in Hd. destruct (ss_result st) as [sc inv bad miss ins low dup rl rdup rrl sk stl vw ed paper pub oh mt]. unfold untouched in S5'. cbn in S5'.
  injection S5' as -> -> -> -> ->. unfold counted in *. cbn in S5, S6. cbv zeta.
  assert (Hpub : ∀ e d l m n (x : option P → option P), sg_last_published_intents ((set_engine_limiter l e) <| sg_deduper := d |> <| sg_last_published_intents := pc_intent <$> allowed |>
    <| sg_last_published_evidence := m |> <| sg_last_published_evidence_indices := n |> <| sg_publisher ::= x |>) = pc_intent <$> allowed).
  { intros e d l m n x. unfold set_engine_limiter. by destruct (sg_external_rate_limiter e), e. }
  rewrite Hpub, length_fmap. cbn [rn_bundles_scanned rn_rejected_duplicate rn_rejected_rate_limited rn_metrics populate_metrics sm_bundle_passed
    sm_intent_published rn_paper_opportunities].
  cbn. split_and!; try lia; try done; [intros He; specialize (S7 He); lia|].
  by destruct (sg_publisher engine).
Qed.


(** C21. No opportunity is lost that the limits leave room for: when the plans
    fit the publish limit and the budget left in the rate window, the intent
    of a plan that passes every gate is published by the very same scan - or,
    if a deduper is in use and does not remember its identity within the TTL,
    an opportunity with the same identity is. *)
Theorem passing_opportunity_published engine context latency artifact calculator read plan built evidence :
  plan_engine engine context artifact calculator read →
  plan ∈ ar_runtime_plans artifact → passes (sg_config engine) artifact calculator read context plan built evidence →
  Z.of_nat (length (ar_runtime_plans artifact)) <= publish_limit (sg_config engine) →
  room (engine_limiter engine) (sx_now_monotonic_ns context) (length (ar_runtime_plans artifact)) →
  let intent := complete_intent_lifecycle (sg_config engine) artifact (sx_now_monotonic_ns context) built in
  let published := sg_last_published_intents (scan_once engine context latency).2 in
  match sg_deduper engine with
  | None => intent ∈ published
  | Some d => oi_idempotency_hash intent ≠ 0 → (seen_recently (oi_idempotency_hash intent) (sx_now_monotonic_ns context) d).1 = false →
      ∃ other, other ∈ published ∧ oi_status other = IsPaperOpportunity ∧ oi_idempotency_hash other = oi_idempotency_hash intent
  end.
Proof.
  intros Hp Hplan Hpass Hfit Hroom intent published.
  destruct (scan_once_plans engine context artifact calculator read latency Hp) as (st & [_ S2 [_ S3] _ _ _ _] & Hscan).
  assert (Hc : ∃ c, c ∈ ranked_candidates engine artifact context st ∧ pc_intent c = intent).
  { destruct (S2 plan built evidence Hplan Hpass) as [(c & Hc & <-)|Hfull].
    - exists (c <| pc_intent ::= complete_intent_lifecycle (sg_config engine) artifact (sx_now_monotonic_ns context) |>).
      split; [|by destruct c]. unfold ranked_candidates, rank_candidates.
      destruct (sg_ranker engine); [rewrite merge_sort_Permutation|]; apply list_elem_of_fmap; by exists c.
    - lia. }
  destruct Hc as (c & Hc & Hci). assert (Hpaper : is_opportunity (pc_intent c)).
  { unfold is_opportunity. rewrite Hci. unfold intent.
    pose proof (complete_keeps (sg_config engine) artifact (sx_now_monotonic_ns context) built) as Hk. apply (f_equal (λ t, t.1.1.1.1.1)) in Hk.
    cbn in Hk. rewrite Hk. by destruct (passes_facts _ _ _ _ _ _ _ _ Hpass). }
  unfold published. rewrite Hscan.
  assert (Hout : ∃ kept d n, dedupe (sx_now_monotonic_ns context) (ranked_candidates engine artifact context st) (sg_deduper engine) = (kept, d, n) ∧
    sg_last_published_intents (publish_scan engine artifact context latency st).2 =
      pc_intent <$> (limit_rate (sx_now_monotonic_ns context) kept (engine_limiter engine)).1.1).
  { unfold publish_scan. fold (ranked_candidates engine artifact context st). destruct (dedupe _ _ _) as [[kept d] n].
    exists kept, d, n. split; [done|]. destruct (limit_rate _ _ _) as [[allowed l] m]. cbn. unfold set_engine_limiter.
    by destruct (sg_external_rate_limiter engine), engine. }
  destruct Hout as (kept & d & n & Hd & ->).
  pose proof (dedupe_sublist (sx_now_monotonic_ns context) (ranked_candidates engine artifact context st) (sg_deduper engine)) as Hsub.
  rewrite Hd in Hsub. destruct Hsub as (Hsub & _ & _).
  assert (Hlen : (length kept <= length (ar_runtime_plans artifact))%nat).
  { apply sublist_length in Hsub. unfold ranked_candidates, rank_candidates in Hsub.
    destruct (sg_ranker engine); [rewrite merge_sort_Permutation in Hsub|]; rewrite length_fmap in Hsub; lia. }
  rewrite limit_rate_room by (destruct Hroom; split; lia).
  destruct (sg_deduper engine) as [dd|].
  - intros Hz Hseen. destruct (dedupe_keeps (sx_now_monotonic_ns context) _ dd c Hc Hpaper) as (c' & Hc' & Hp' & Hh').
    + by rewrite Hci.
    + rewrite Hci. intros t Ht Hrange. unfold seen_recently in Hseen. rewrite (proj2 (Z.eqb_neq _ 0) Hz), Ht in Hseen.
      apply seen_within_true in Hrange. by rewrite Hrange in Hseen.
    + rewrite Hd in Hc'. cbn in Hc'. exists (pc_intent c'). split; [apply list_elem_of_fmap; by exists c'|]. split; [done|]. by rewrite Hh', Hci.
  - rewrite <- Hci. apply list_elem_of_fmap. exists c. split; [done|].
    assert (Hnone : ∀ l, dedupe (sx_now_monotonic_ns context) l None = (l, None, 0)) by (induction l as [|x l IH]; cbn; [done|by rewrite IH]).
    rewrite Hnone in Hd. by injection Hd as <- _ _.
Qed.

(** ** Many scans *)

(** What a sequence of scans publishes, each intent with the time of its scan. *)
Fixpoint scan_log (engine : SignalEngine (P := P)) (scans : list (SignalScanContext * Z)) : list (Z * OpportunityIntent) :=
  match scans with
  | [] => []
  | (context, latency) :: rest =>
      let engine' := (scan_once engine context latency).2 in
      (pair (sx_now_monotonic_ns context) <$> sg_last_published_intents engine') ++ scan_log engine' rest
  end.
Definition scan_times (scans : list (SignalScanContext * Z)) : list Z := (λ s, sx_now_monotonic_ns s.1) <$> scans.

Lemma scan_once_step engine context latency :
  ∃ candidates, let now_ns := sx_now_monotonic_ns context in
    let '(kept, deduper, _) := dedupe now_ns candidates (sg_deduper engine) in
    let '(allowed, limiter, _) := limit_rate now_ns kept (engine_limiter engine) in
    sg_last_published_intents (scan_once engine context latency).2 = pc_intent <$> allowed ∧
    sg_deduper (scan_once engine context latency).2 = deduper ∧ engine_limiter (scan_once engine context latency).2 = limiter.
Proof.
  assert (Hp : ∀ artifact st, let now_ns := sx_now_monotonic_ns context in
    let '(kept, deduper, _) := dedupe now_ns (ranked_candidates engine artifact context st) (sg_deduper engine) in
    let '(allowed, limiter, _) := limit_rate now_ns kept (engine_limiter engine) in
    let engine' := (publish_scan engine artifact context latency st).2 in
    sg_last_published_intents engine' = pc_intent <$> allowed ∧ sg_deduper engine' = deduper ∧ engine_limiter engine' = limiter).
  { intros artifact st. cbv zeta. unfold publish_scan. fold (ranked_candidates engine artifact context st).
    destruct (dedupe _ _ _) as [[kept d] n]. destruct (limit_rate _ _ _) as [[allowed l] m]. cbn. unfold set_engine_limiter, engine_limiter.
    by destruct (sg_external_rate_limiter engine) eqn:E, engine; cbn in *; subst. }
  unfold scan_once.
  destruct (sg_snapshot_reader engine) as [reader|]; [|exists []; by destruct engine].
  destruct (sg_artifact_reader engine) as [artifact|]; [|exists []; by destruct engine].
  destruct (sg_edge_calculator engine) as [calculator|]; [|exists []; by destruct engine].
  destruct (_ && _); [|exists []; by destruct engine].
  specialize (Hp artifact (scan_all (sg_config engine) artifact calculator reader context)). eexists. exact Hp.
Qed.

Lemma scan_log_apart scans engine d now_ns :
  sg_deduper engine = Some d → StronglySorted Z.le (now_ns :: scan_times scans) →
  StronglySorted (apart (dd_ttl_ns d)) (scan_log engine scans) ∧
  (∀ t h, h ≠ 0 → remembers d now_ns t h → ∀ x, x ∈ scan_log engine scans → is_opportunity x.2 → oi_idempotency_hash x.2 = h → dd_ttl_ns d <= x.1 - t).
Proof.
  revert engine d now_ns; induction scans as [|[context latency] scans IH]; intros engine d now_ns Hd Hs; cbn [scan_log]; [split; [constructor|set_solver]|].
  apply StronglySorted_inv in Hs as [Hs Hnow]. apply Forall_cons in Hnow as [Hnow _]. cbn [fst] in Hnow.
  destruct (scan_once_step engine context latency) as (candidates & Hstep). cbv zeta in Hstep. rewrite Hd in Hstep.
  pose proof (dedupe_apart (sx_now_monotonic_ns context) candidates d) as Ha. destruct (dedupe _ _ _) as [[kept deduper] n].
  destruct Ha as (e & -> & T & R & A & N & S). pose proof (limit_sublist (sx_now_monotonic_ns context) kept (engine_limiter engine)) as Hl.
  destruct (limit_rate _ _ _) as [[allowed limiter] m]. destruct Hstep as (Hpub & He & _), Hl as (Hl & _ & _).
  rewrite Hpub, <- list_fmap_compose. destruct (IH _ e _ He Hs) as [IH1 IH2]. rewrite T in *.
  assert (Hin : ∀ c, c ∈ allowed → c ∈ kept) by (intros c Hc; by apply (sublist_subseteq _ _ Hl)). split.
  - apply StronglySorted_app. split_and!; [|by eapply StronglySorted_sublist; [apply fmap_sublist|]|done].
    intros x y (c & -> & Hc)%list_elem_of_fmap Hy Hp Hp' Hh Hz. cbn in *. eapply IH2; eauto.
  - intros t h Hh Hr x [(c & -> & Hc)%list_elem_of_fmap|Hx]%elem_of_app Hp Hx'; cbn in *.
    + eapply A; eauto using remembers_later.
    + eapply IH2; eauto using remembers_later.
Qed.

(** C22. An opportunity is not published twice within the time to live of the
    deduper, over any sequence of scans whose times do not go back: of two
    published opportunities with the same non-zero identity, the later one
    comes at least [ttl] nanoseconds after the earlier - so never in the same
    scan when the time to live is positive. *)
Theorem no_duplicate_within_ttl scans engine d :
  sg_deduper engine = Some d → StronglySorted Z.le (scan_times scans) →
  ∀ i j t t' x y, (i < j)%nat → scan_log engine scans !! i = Some (t, x) → scan_log engine scans !! j = Some (t', y) →
    oi_status x = IsPaperOpportunity → oi_status y = IsPaperOpportunity →
    oi_idempotency_hash x = oi_idempotency_hash y → oi_idempotency_hash x ≠ 0 → dd_ttl_ns d <= t' - t.
Proof.
  intros Hd Hs i j t t' x y Hij Hi Hj Hx Hy Hh Hz.
  destruct scans as [|[context latency] scans]; [done|].
  assert (Hs' : StronglySorted Z.le (sx_now_monotonic_ns context :: scan_times ((context, latency) :: scans))).
  { constructor; [done|]. apply StronglySorted_inv in Hs as [_ Hs]. by constructor. }
  destruct (scan_log_apart _ engine d _ Hd Hs') as [Hlog _].
  by apply (StronglySorted_pair _ _ i j (t, x) (t', y) Hlog Hij Hi Hj).
Qed.

(** The published intents of one second. *)
Definition in_second (second : Z) (log : list (Z * OpportunityIntent)) : list (Z * OpportunityIntent) :=
  filter (λ e, e.1 / kNsPerSecond = second) log.

Lemma in_second_app second l k : in_second second (l ++ k) = in_second second l ++ in_second second k.
Proof. apply filter_app. Qed.

Lemma in_second_same second t (l : list OpportunityIntent) :
  length (in_second second (pair t <$> l)) = if decide (t / kNsPerSecond = second) then length l else 0%nat.
Proof.
  unfold in_second. induction l as [|x l IH]; [by case_decide|]. rewrite fmap_cons, filter_cons. cbn [fst].
  case_decide; cbn [length]; [by rewrite IH|done].
Qed.

Lemma scan_log_times scans engine x : x ∈ scan_log engine scans → x.1 ∈ scan_times scans.
Proof.
  revert engine; induction scans as [|[context latency] scans IH]; intros engine; cbn [scan_log]; [set_solver|].
  intros [(i & -> & _)%list_elem_of_fmap|Hx]%elem_of_app; [by left|]. right. by eapply IH.
Qed.

Lemma in_second_past scans engine now_ns second :
  StronglySorted Z.le (now_ns :: scan_times scans) → second < now_ns / kNsPerSecond → in_second second (scan_log engine scans) = [].
Proof.
  intros Hs Hlt. apply StronglySorted_inv in Hs as [_ Hs]. rewrite Forall_forall in Hs. unfold in_second.
  assert (Hno : ∀ l : list (Z * OpportunityIntent), (∀ x, x ∈ l → x.1 / kNsPerSecond ≠ second) → filter (λ e, e.1 / kNsPerSecond = second) l = []).
  { induction l as [|x l IH]; intros Hl; [done|]. rewrite filter_cons, decide_False by (apply Hl; set_solver). apply IH. set_solver. }
  apply Hno. intros x Hx%scan_log_times. specialize (Hs _ Hx). pose proof (Z.div_le_mono now_ns x.1 kNsPerSecond ltac:(done) Hs). lia.
Qed.

Lemma scan_log_rate scans engine now_ns second :
  StronglySorted Z.le (now_ns :: scan_times scans) →
  (rl_has_window (engine_limiter engine) = true → rl_current_second (engine_limiter engine) <= now_ns / kNsPerSecond) →
  used (engine_limiter engine) second <= Z.max 0 (rl_max_intents_per_second (engine_limiter engine)) →
  used (engine_limiter engine) second + Z.of_nat (length (in_second second (scan_log engine scans))) <=
    Z.max 0 (rl_max_intents_per_second (engine_limiter engine)).
Proof.
  revert engine now_ns; induction scans as [|[context latency] scans IH]; intros engine now_ns Hs Hwin Hused; cbn [scan_log].
  { cbn. lia. }
  apply StronglySorted_inv in Hs as [Hs Hnow]. apply Forall_cons in Hnow as [Hnow _]. cbn [fst] in Hnow.
  destruct (scan_once_step engine context latency) as (candidates & Hstep). cbv zeta in Hstep.
  destruct (dedupe _ _ _) as [[kept deduper] n].
  pose proof (limit_rate_used (sx_now_monotonic_ns context) kept (engine_limiter engine)) as Hl. cbv zeta in Hl.
  destruct (limit_rate _ _ _) as [[allowed limiter] m]. destruct Hstep as (Hpub & _ & Hlim), Hl as (L1 & L2 & L3 & L4 & L5).
  set (engine' := (scan_once engine context latency).2) in *. specialize (IH engine' (sx_now_monotonic_ns context) Hs).
  rewrite Hlim, L1 in IH. rewrite Hpub. set (sec := sx_now_monotonic_ns context / kNsPerSecond) in *.
  assert (Hmono : now_ns / kNsPerSecond <= sec) by (apply Z.div_le_mono; [done|lia]).
  rewrite in_second_app, length_app, in_second_same, length_fmap. fold sec.
  destruct (decide (kept = [])) as [->|Hkept].
  { rewrite L3 in * by done. assert (length allowed = 0%nat) as -> by (apply Nat2Z.inj; lia).
    specialize (IH ltac:(intros Hw; specialize (Hwin Hw); lia) Hused). case_decide; lia. }
  destruct (L2 Hkept) as [W1 W2]. specialize (IH ltac:(intros _; rewrite W2; lia)). case_decide as Hsec.
  - subst second. specialize (IH (L5 Hused)). lia.
  - assert (Hz : used limiter second = 0).
    { unfold used. rewrite W1, W2. cbn [andb]. destruct (Z.eqb_spec second sec); [by subst|done]. }
    rewrite Hz in IH. specialize (IH ltac:(lia)). destruct (decide (used (engine_limiter engine) second = 0)) as [->|Hne]; [lia|].
    assert (Hpast : second < sec).
    { unfold used in Hne. destruct (rl_has_window (engine_limiter engine)); [|done]. specialize (Hwin eq_refl). cbn [andb] in Hne.
      destruct (Z.eqb_spec second (rl_current_second (engine_limiter engine))); [lia|done]. }
    rewrite (in_second_past scans engine' (sx_now_monotonic_ns context) second Hs Hpast). cbn [length]. lia.
Qed.

(** The rate limit holds over any sequence of scans whose times do not go
    back: starting from a fresh limiter, at most [max_intents_per_second]
    intents (none if it is not positive) are published with scan times in the
    same second, opportunities and rejections together. *)
Theorem rate_limit_respected scans engine limit second :
  engine_limiter engine = rate_limiter limit → StronglySorted Z.le (scan_times scans) →
  Z.of_nat (length (in_second second (scan_log engine scans))) <= Z.max 0 limit.
Proof.
  intros Hl Hs. destruct scans as [|[context latency] scans]; [cbn; lia|].
  assert (Hs' : StronglySorted Z.le (sx_now_monotonic_ns context :: scan_times ((context, latency) :: scans))).
  { constructor; [done|]. apply StronglySorted_inv in Hs as [_ Hs]. by constructor. }
  pose proof (scan_log_rate _ engine _ second Hs') as H1. rewrite Hl in H1. unfold used, rate_limiter in H1.
  cbn [rl_has_window rl_max_intents_per_second andb] in H1. specialize (H1 ltac:(done) ltac:(lia)). lia.
Qed.
End engine.

(** ** Witnesses *)

Definition scan_reader : IMarketSnapshotReader := MarketStateViewSnapshotReader (run_market (take 2 sample_events) (market_store0 runtime_config0)).
Definition scan_read : BundleRuntimePlan → Reading := default (λ _, inl (IsRejectedMissingSnapshot, ""%string)) (read_plan scan_reader signal_config0 3000).
Definition rich_bundle : CandidateBundle := demo_bundle <| cb_guaranteed_payout_tick := 2000000 |>.
Definition rich_plan : BundleRuntimePlan := plan_a <| pn_bundle := Some rich_bundle |>.
Definition scan_artifact : OracleArtifactReader := mkArtifactReader [rich_bundle] [rich_plan] 1 5 6 7.
Definition scan_engine : SignalEngine :=
  mkSignalEngine signal_config0 (Some scan_reader) (Some scan_artifact) true true (Some demo_calculator) true (Some (mkCapturing [] []))
    (Some (mkIntentDeduper 5000 ∅ ∅)) (rate_limiter 100) None [] [] [].
Definition scan_at (now_ns : Z) : SignalScanContext := mkScanContext 1 now_ns 0 0 false.

Lemma scan_plan_engine now_ns : plan_engine scan_engine (scan_at now_ns) scan_artifact demo_calculator
  (default (λ _, inl (IsRejectedMissingSnapshot, ""%string)) (read_plan scan_reader signal_config0 now_ns)).
Proof.
  destruct (store_reading (run_market (take 2 sample_events) (market_store0 runtime_config0)) signal_config0 now_ns _ eq_refl) as [H1 H2].
  constructor; [|done|done|done|exact H1|exact H2]. exists scan_reader. done.
Qed.

Definition scan_result : SignalRunResult * SignalEngine := scan_once scan_engine (scan_at 3000) 17.
Definition scan_intent : OpportunityIntent := default intent0 (head (sg_last_published_intents scan_result.2)).

Lemma published_opportunities_sound_witness :
  sg_last_published_intents scan_result.2 = [scan_intent] ∧ oi_status scan_intent = IsPaperOpportunity ∧
  oi_total_edge_tick scan_intent = 599940 ∧
  ∃ plan built, plan ∈ [rich_plan] ∧
    passes signal_config0 scan_artifact demo_calculator scan_read (scan_at 3000) plan built
      (evidence_at (sg_last_published_evidence scan_result.2) (sg_last_published_evidence_indices scan_result.2) 0).
Proof.
  assert (Hi : sg_last_published_intents scan_result.2 !! 0%nat = Some scan_intent) by (vm_compute; reflexivity).
  split; [vm_compute; reflexivity|]. split; [vm_compute; reflexivity|]. split; [vm_compute; reflexivity|].
  pose proof (published_opportunities_sound scan_engine (scan_at 3000) 17 scan_artifact demo_calculator scan_read (scan_plan_engine 3000)) as H.
  fold scan_result in H. rewrite (surjective_pairing scan_result) in H. destruct H as [H _].
  destruct (H 0%nat scan_intent Hi ltac:(vm_compute; reflexivity)) as (plan & built & Hplan & Hpass & _).
  exists plan, built. split; [exact Hplan|exact Hpass].
Defined.

Lemma scan_accounts_witness :
  rn_bundles_scanned scan_result.1 = 1 ∧ counted scan_result.1 = 1 ∧
  sm_intent_published (rn_metrics scan_result.1) = 1.
Proof.
  pose proof (scan_accounts scan_engine (scan_at 3000) 17 scan_artifact demo_calculator scan_read (scan_plan_engine 3000)) as H.
  fold scan_result in H. rewrite (surjective_pairing scan_result) in H. destruct H as (H1 & H2 & _).
  split; [exact H1|]. split; [exact H2|]. vm_compute. reflexivity.
Defined.

Definition scan_parts : SignalPublishedEvidence * SnapshotVersion * CostResult :=
  match scan_read rich_plan with inr parts => parts | inl _ => (published_evidence0, snapshot_version0, cost_result0) end.
Definition scan_built : OpportunityIntent :=
  opportunity_of signal_config0 scan_artifact demo_calculator (scan_at 3000) rich_plan rich_bundle scan_parts.1.2 scan_parts.2.

Lemma rich_plan_passes : passes signal_config0 scan_artifact demo_calculator scan_read (scan_at 3000) rich_plan scan_built scan_parts.1.1.
Proof.
  constructor. exists rich_bundle, scan_parts.1.2, scan_parts.2. split; [done|]. split; [done|]. split; [vm_compute; reflexivity|].
  split; [vm_compute; reflexivity|]. split; [vm_compute; reflexivity|done].
Qed.

Lemma passing_opportunity_published_witness :
  ∃ other, other ∈ sg_last_published_intents scan_result.2 ∧ oi_status other = IsPaperOpportunity ∧
    oi_idempotency_hash other = oi_idempotency_hash (complete_intent_lifecycle signal_config0 scan_artifact 3000 scan_built).
Proof.
  assert (Hroom : room (engine_limiter scan_engine) 3000 1) by (vm_compute; split; discriminate).
  apply (passing_opportunity_published scan_engine (scan_at 3000) 17 scan_artifact demo_calculator scan_read rich_plan scan_built scan_parts.1.1
    (scan_plan_engine 3000) ltac:(left) rich_plan_passes ltac:(vm_compute; discriminate) Hroom); [vm_compute; discriminate|vm_compute; reflexivity].
Defined.

Definition two_scans : list (SignalScanContext * Z) := [(scan_at 3000, 17); (scan_at 3500, 18); (scan_at 9000, 19)].

Lemma two_scans_ordered : StronglySorted Z.le (scan_times two_scans).
Proof. repeat constructor; vm_compute; discriminate. Qed.

Lemma no_duplicate_within_ttl_witness :
  fst <$> scan_log scan_engine two_scans = [3000; 9000] ∧ 5000 <= 9000 - 3000.
Proof.
  split; [vm_compute; reflexivity|].
  set (x := default intent0 ((snd <$> scan_log scan_engine two_scans) !! 0%nat)).
  set (y := default intent0 ((snd <$> scan_log scan_engine two_scans) !! 1%nat)).
  apply (no_duplicate_within_ttl two_scans scan_engine (mkIntentDeduper 5000 ∅ ∅) eq_refl two_scans_ordered 0 1 3000 9000 x y);
    [lia|..]; vm_compute; (reflexivity || discriminate).
Defined.

Lemma rate_limit_respected_witness :
  length (in_second 0 (scan_log scan_engine two_scans)) = 2%nat ∧ Z.of_nat (length (in_second 0 (scan_log scan_engine two_scans))) <= 100.
Proof. split; [vm_compute; reflexivity|]. apply (rate_limit_respected two_scans scan_engine 100 0 eq_refl two_scans_ordered). Defined.

(** ** What the order of the stages costs *)

(** The number of intents per scan is cut before the ranking: a rejected intent scanned first takes the only place. *)
Example cap_before_ranking :
  let artifact := mkArtifactReader [rich_bundle] [plan_a; rich_plan] 1 5 6 7 in
  let engine := scan_engine <| sg_artifact_reader := Some artifact |> <| sg_config := signal_config0 <| sc_max_intents_per_scan := 1 |> |> in
  let '(result, engine') := scan_once engine (scan_at 3000) 17 in
  rn_paper_opportunities result = 1 ∧ (oi_status <$> sg_last_published_intents engine') = [IsRejectedLowEdge].
Proof. vm_compute. split; reflexivity. Qed.

(** The deduper marks an opportunity before the rate limit holds it back: it is then suppressed as a duplicate of
    an intent that was never published. *)
Example rate_limited_counts_as_seen :
  let engine := scan_engine <| sg_config := signal_config0 <| sc_max_lob_age_ns := 10000000000 |> |>
    <| sg_deduper := Some (mkIntentDeduper 5000000000 ∅ ∅) |> <| sg_default_rate_limiter := mkIntentRateLimiter 1 0 1 true |> in
  let '(first, engine') := scan_once engine (scan_at 3000) 17 in
  let '(second, engine'') := scan_once engine' (scan_at 1000003000) 17 in
  rn_rejected_rate_limited first = 1 ∧ sg_last_published_intents engine' = [] ∧
  rn_rejected_duplicate second = 1 ∧ sg_last_published_intents engine'' = [].
Proof. vm_compute. repeat split; reflexivity. Qed.
