(* ===== verification/QuoteRisk.v ===== *)
(** * QuoteRisk: the approval of market-making quotes

    [engine/risk/quote], [engine/risk/public/ApprovedQuote.h] and
    [QuoteRiskDecision.h]: a quote passes a fixed sequence of checks against the
    book, the inventory and the quote policy; the first that fails names the
    rejection, and a quote that passes them all becomes an approved quote. *)

From Stdlib Require Import ZifyBool.
From stdpp Require Import strings.
From S2P Require Import Prelude FixedPoint Hashing Doubles RiskTypes Depth QuoteTypes.
#[local] Open Scope Z_scope.

#[local] Arguments constant {_} _ _ /.

(** ** Decisions *)

(** [engine/risk/public/QuoteRiskDecision.h:9-34] QuoteRiskDecisionType. *)
Inductive QuoteRiskDecisionType :=
| QdApprove | QdRejectInvalidQuote | QdRejectExpiredQuote | QdRejectStaleBook | QdRejectCrossedBook
| QdRejectBookNotUsable | QdRejectInventoryLimit | QdRejectExposureLimit | QdRejectDuplicateQuote
| QdRejectQuoteTooFrequent | QdRejectKillSwitch | QdRejectLowEdgeToFair | QdRejectUnsupportedSide
| QdRejectSpreadTooTight | QdRejectSpreadTooWide | QdRejectFairValueDeviation | QdRejectRewardConfigMissing
| QdRejectRewardSpreadTooWide | QdRejectRewardSizeTooSmall | QdRejectStaleSpot | QdRejectStaleVol
| QdRejectLowExternalConfidence | QdRejectCanonicalExposureLimit | QdRejectPortfolioTouchLimit.

#[export] Instance QuoteRiskDecisionType_eq_dec : EqDecision QuoteRiskDecisionType.
Proof. solve_decision. Defined.

(** The number the cast to [std::uint8_t] sees: the order of declaration. *)
Definition quote_decision_code (d : QuoteRiskDecisionType) : Z :=
  match d with
  | QdApprove => 0 | QdRejectInvalidQuote => 1 | QdRejectExpiredQuote => 2 | QdRejectStaleBook => 3
  | QdRejectCrossedBook => 4 | QdRejectBookNotUsable => 5 | QdRejectInventoryLimit => 6 | QdRejectExposureLimit => 7
  | QdRejectDuplicateQuote => 8 | QdRejectQuoteTooFrequent => 9 | QdRejectKillSwitch => 10 | QdRejectLowEdgeToFair => 11
  | QdRejectUnsupportedSide => 12 | QdRejectSpreadTooTight => 13 | QdRejectSpreadTooWide => 14
  | QdRejectFairValueDeviation => 15 | QdRejectRewardConfigMissing => 16 | QdRejectRewardSpreadTooWide => 17
  | QdRejectRewardSizeTooSmall => 18 | QdRejectStaleSpot => 19 | QdRejectStaleVol => 20
  | QdRejectLowExternalConfidence => 21 | QdRejectCanonicalExposureLimit => 22 | QdRejectPortfolioTouchLimit => 23
  end.

(** [engine/risk/public/QuoteRiskDecision.h:96-108] quote_risk_rejection_reason_code. *)
Definition quote_risk_rejection_reason_code (decision : QuoteRiskDecisionType) : Z :=
  match decision with
  | QdRejectInventoryLimit | QdRejectExposureLimit | QdRejectCanonicalExposureLimit | QdRejectPortfolioTouchLimit => 3
  | _ => 0
  end.

(** [engine/risk/public/QuoteRiskDecision.h:110-128] QuoteRiskDecision. *)
Record QuoteRiskDecision := mkQuoteRiskDecision {
  qd_decision_id : Z;
  qd_quote_intent_id : Z;
  qd_quote_group_id : Z;
  qd_decision : QuoteRiskDecisionType;
  qd_policy_hash : Z;
  qd_snapshot_version_hash : Z;
  qd_idempotency_hash : Z;
  qd_decision_ts_ns : Z;
  qd_bid_notional_tick : Z;
  qd_ask_notional_tick : Z;
  qd_total_notional_tick : Z;
  qd_reason : string
}.

(** [engine/risk/public/ApprovedQuote.h:11-28] ApprovedQuote. *)
Record ApprovedQuote := mkApprovedQuote {
  apq_approved_quote_id : Z;
  apq_quote_intent_id : Z;
  apq_quote_group_id : Z;
  apq_has_bid : bool;
  apq_has_ask : bool;
  apq_bid : QuoteLeg;
  apq_ask : QuoteLeg;
  apq_approved_ts_ns : Z;
  apq_expires_at_ns : Z;
  apq_idempotency_hash : Z;
  apq_policy_hash : Z;
  apq_snapshot_version_hash : Z
}.

(** [engine/risk/quote/QuoteRiskTypes.h:16-33] QuoteRiskInput. *)
Record QuoteRiskInput := mkQuoteRiskInput {
  qr_quote : option QuoteIntent;
  qr_depth : option MarketDepthView;
  qr_policy : option QuoteRiskPolicy;
  qr_current_position_lots : Z;
  qr_current_asset_exposure_tick : Z;
  qr_current_canonical_yes_position_lots : Z;
  qr_projected_canonical_yes_position_lots : Z;
  qr_portfolio_touch_exposure_lots : Z;
  qr_spot_age_ms : Z;
  qr_vol_age_ms : Z;
  qr_external_confidence_bps : Z;
  qr_active_quotes_for_asset : Z;
  qr_last_replace_ts_ns : Z;
  qr_now_ns : Z
}.

(** [engine/risk/quote/QuoteRiskTypes.h:35-38] QuoteRiskResult. *)
Record QuoteRiskResult := mkQuoteRiskResult {
  qrr_decision : QuoteRiskDecision;
  qrr_approved_quote : option ApprovedQuote
}.

(** [engine/risk/quote/QuoteRiskEvaluator.cpp:259-274] compute_quote_risk_decision_hash. *)
Definition compute_quote_risk_decision_hash (decision : QuoteRiskDecision) : Z :=
  foldl quote_mix fnv_offset
    [Qu (qd_quote_intent_id decision); Qu (qd_quote_group_id decision); Qu (quote_decision_code (qd_decision decision));
     Qu (qd_policy_hash decision); Qu (qd_snapshot_version_hash decision); Qu (qd_idempotency_hash decision);
     Qu (qd_decision_ts_ns decision); Qi (qd_bid_notional_tick decision); Qi (qd_ask_notional_tick decision);
     Qi (qd_total_notional_tick decision)].

(** [engine/risk/quote/QuoteRiskEvaluator.cpp:276-294] compute_approved_quote_hash. *)
Definition compute_approved_quote_hash (quote : ApprovedQuote) : Z :=
  foldl quote_mix fnv_offset
    ([Qu (apq_quote_intent_id quote); Qu (apq_quote_group_id quote); Qb (apq_has_bid quote); Qb (apq_has_ask quote)]
     ++ (if apq_has_bid quote then [Qu (compute_quote_leg_hash (apq_bid quote))] else [])
     ++ (if apq_has_ask quote then [Qu (compute_quote_leg_hash (apq_ask quote))] else [])
     ++ [Qu (apq_approved_ts_ns quote); Qu (apq_expires_at_ns quote); Qu (apq_idempotency_hash quote);
         Qu (apq_policy_hash quote); Qu (apq_snapshot_version_hash quote)]).

(** [engine/risk/quote/QuoteRiskEvaluator.cpp:38-56] base_decision. *)
Definition base_decision (input : QuoteRiskInput) : QuoteRiskDecision :=
  let of_quote (f : QuoteIntent → Z) := default 0 (f <$> qr_quote input) in
  mkQuoteRiskDecision 0 (of_quote qi_quote_intent_id) (of_quote qi_quote_group_id) QdRejectInvalidQuote
    (default 0 ((λ policy, compute_policy_hash (policy0 <| rp_quote_risk := policy |>)) <$> qr_policy input))
    (of_quote qi_snapshot_version_hash) (of_quote qi_idempotency_hash) (qr_now_ns input) 0 0 0 "".

(** What both outcomes do with the base decision: fill in verdict and notionals, then the id. *)
Definition finish_decision (input : QuoteRiskInput) (type : QuoteRiskDecisionType) (reason : string)
    (bid_notional ask_notional : Z) : QuoteRiskDecision :=
  let decision := (base_decision input) <| qd_decision := type |> <| qd_reason := reason |>
                    <| qd_bid_notional_tick := bid_notional |> <| qd_ask_notional_tick := ask_notional |>
                    <| qd_total_notional_tick := bid_notional +i ask_notional |> in
  decision <| qd_decision_id := compute_quote_risk_decision_hash decision |>.

(** [engine/risk/quote/QuoteRiskEvaluator.cpp:58-75] reject. *)
Definition quote_reject (input : QuoteRiskInput) (type : QuoteRiskDecisionType) (reason : string)
    (bid_notional ask_notional : Z) : QuoteRiskResult :=
  mkQuoteRiskResult (finish_decision input type reason bid_notional ask_notional) None.

(** ** The pieces of the checks *)

(** [engine/risk/quote/QuoteRiskEvaluator.cpp:77-79] active_side_valid. *)
Definition active_side_valid (leg : QuoteLeg) : bool := (0 <? ql_price_tick leg) && (0 <? ql_quantity_lots leg).

(** [engine/risk/quote/QuoteRiskEvaluator.cpp:81-86] notional. *)
Definition quote_notional (leg : QuoteLeg) : Z :=
  if negb (active_side_valid leg) then 0 else saturating_mul_i64 (ql_price_tick leg) (ql_quantity_lots leg).

(** [engine/risk/quote/QuoteRiskEvaluator.cpp:88-107] fair_deviation_threshold. *)
Definition fair_deviation_threshold (fair_value_tick max_deviation_tick max_deviation_bps : Z) : Z :=
  let threshold := if 0 <? max_deviation_tick then max_deviation_tick else 0 in
  if (0 <? fair_value_tick) && (0 <? max_deviation_bps) then
    let bps_threshold := Z.max 1 (wrap_i64 (Z.quot (fair_value_tick * max_deviation_bps) 10000)) in
    if 0 <? threshold then Z.min threshold bps_threshold else bps_threshold
  else threshold.

(** [engine/risk/quote/QuoteRiskEvaluator.cpp:109-125] quote_deviates_too_far. *)
Definition quote_deviates_too_far (leg : QuoteLeg) (fair_value_tick max_deviation_tick max_deviation_bps : Z) : bool :=
  let threshold := fair_deviation_threshold fair_value_tick max_deviation_tick max_deviation_bps in
  if threshold <=? 0 then false else threshold <? llabs (ql_price_tick leg -i fair_value_tick).

(** [engine/risk/quote/QuoteRiskEvaluator.cpp:127-133] bid_reduces_inventory. *)
Definition bid_reduces_inventory (input : QuoteRiskInput) (quote : QuoteIntent) : bool :=
  qi_has_bid quote && (qr_current_position_lots input <? qi_target_position_lots quote).

(** [engine/risk/quote/QuoteRiskEvaluator.cpp:135-141] ask_reduces_inventory. *)
Definition ask_reduces_inventory (input : QuoteRiskInput) (quote : QuoteIntent) : bool :=
  qi_has_ask quote && (qi_target_position_lots quote <? qr_current_position_lots input).

(** [engine/risk/quote/QuoteRiskEvaluator.cpp:212-215] is_unwind_quote. *)
Definition is_unwind_quote (quote : QuoteIntent) : bool :=
  match qi_type quote with QtPassiveUnwind | QtForcedUnwind => true | _ => false end.

(** [engine/risk/quote/QuoteRiskEvaluator.cpp:143-152] bid_allows_fair_exemption. *)
Definition bid_allows_fair_exemption (quote : QuoteIntent) (derived_risk_reducing : bool) : bool :=
  qi_has_bid quote && derived_risk_reducing &&
  (ql_risk_reducing (qi_bid quote) || ql_allow_fair_deviation_exemption (qi_bid quote) || is_unwind_quote quote).

(** [engine/risk/quote/QuoteRiskEvaluator.cpp:154-163] ask_allows_fair_exemption. *)
Definition ask_allows_fair_exemption (quote : QuoteIntent) (derived_risk_reducing : bool) : bool :=
  qi_has_ask quote && derived_risk_reducing &&
  (ql_risk_reducing (qi_ask quote) || ql_allow_fair_deviation_exemption (qi_ask quote) || is_unwind_quote quote).

(** [engine/risk/quote/QuoteRiskEvaluator.cpp:165-172] bid_allows_spread_exemption. *)
Definition bid_allows_spread_exemption (quote : QuoteIntent) (derived_risk_reducing : bool) : bool :=
  qi_has_bid quote && derived_risk_reducing && ql_risk_reducing (qi_bid quote) && ql_allow_spread_exemption (qi_bid quote).

(** [engine/risk/quote/QuoteRiskEvaluator.cpp:174-181] ask_allows_spread_exemption. *)
Definition ask_allows_spread_exemption (quote : QuoteIntent) (derived_risk_reducing : bool) : bool :=
  qi_has_ask quote && derived_risk_reducing && ql_risk_reducing (qi_ask quote) && ql_allow_spread_exemption (qi_ask quote).

(** [engine/risk/quote/QuoteRiskEvaluator.cpp:183-210] reducible_qty_lots. *)
Definition reducible_qty_lots (input : QuoteRiskInput) (quote : QuoteIntent) (side : QuoteSide)
    (derived_risk_reducing : bool) : Z :=
  let current := qr_current_position_lots input in
  let target := qi_target_position_lots quote in
  let forced := match qi_type quote with QtForcedUnwind => true | _ => false end in
  if negb derived_risk_reducing then 0
  else
    match side with
    | QsAsk =>
        if current <=? target then 0
        else if forced then Z.max 0 current
        else current -i target
    | QsBid =>
        if target <=? current then 0
        else if forced && (current <? 0) then wrap_i64 (- current)
        else target -i current
    end.

(** [engine/risk/quote/QuoteRiskEvaluator.cpp:217-225] reward_gate_exempt. *)
Definition reward_gate_exempt (policy : QuoteRiskPolicy) (quote : QuoteIntent) : bool :=
  qp_allow_reward_exemption_for_reduce_only policy &&
  (match qi_risk_mode quote with QmReduceOnly | QmForcedReduce => true | _ => false end || is_unwind_quote quote).

(** [engine/risk/quote/QuoteRiskEvaluator.cpp:227-243] opening_side_below_reward_min_size. *)
Definition opening_side_below_reward_min_size (quote : QuoteIntent) (min_size_lots : Z) : bool :=
  if min_size_lots <=? 0 then false
  else if qi_has_bid quote && negb (ql_risk_reducing (qi_bid quote)) && (ql_quantity_lots (qi_bid quote) <? min_size_lots)
  then true
  else if qi_has_ask quote && negb (ql_risk_reducing (qi_ask quote)) && (ql_quantity_lots (qi_ask quote) <? min_size_lots)
  then true
  else false.

(** [engine/risk/quote/QuoteRiskEvaluator.cpp:245-255] spread_bps. *)
Definition spread_bps (spread_tick fair_value_tick : Z) : Z :=
  if (spread_tick <=? 0) || (fair_value_tick <=? 0) then 0
  else wrap_i64 (Z.quot (spread_tick * 10000) fair_value_tick).

(** ** The checks, in order

    A check is the condition of an [if] of [evaluate] with the rejection its
    body returns. *)
Definition check : Type := bool * (QuoteRiskDecisionType * string).

(** The first check whose condition holds. *)
Fixpoint first_failure (checks : list check) : option (QuoteRiskDecisionType * string) :=
  match checks with
  | [] => None
  | (true, failure) :: _ => Some failure
  | (false, _) :: checks => first_failure checks
  end.

(** [engine/risk/quote/QuoteRiskEvaluator.cpp:311-377] QuoteRiskEvaluator::evaluate: the switch, the ages and the exposures. *)
Definition external_checks (input : QuoteRiskInput) (policy : QuoteRiskPolicy) : list check :=
  [ (qp_quote_kill_switch_enabled policy, (QdRejectKillSwitch, "quote kill switch enabled"%string));
    ((0 <? qp_max_spot_age_ms policy) && (wrap_i64 (qp_max_spot_age_ms policy) <? qr_spot_age_ms input),
     (QdRejectStaleSpot, "stale spot"%string));
    ((0 <? qp_max_vol_age_ms policy) && (wrap_i64 (qp_max_vol_age_ms policy) <? qr_vol_age_ms input),
     (QdRejectStaleVol, "stale vol"%string));
    ((0 <? qp_min_external_confidence_bps policy) &&
     (qr_external_confidence_bps input <? qp_min_external_confidence_bps policy),
     (QdRejectLowExternalConfidence, "external fair confidence below policy minimum"%string));
    ((0 <? qp_max_canonical_yes_exposure_lots policy) &&
     (qp_max_canonical_yes_exposure_lots policy <? llabs (qr_projected_canonical_yes_position_lots input)),
     (QdRejectCanonicalExposureLimit, "canonical yes exposure limit exceeded"%string));
    ((0 <? qp_max_portfolio_touch_exposure_lots policy) &&
     (qp_max_portfolio_touch_exposure_lots policy <? llabs (qr_portfolio_touch_exposure_lots input)),
     (QdRejectPortfolioTouchLimit, "portfolio touch exposure limit exceeded"%string)) ].

(** [engine/risk/quote/QuoteRiskEvaluator.cpp:379-387] QuoteRiskEvaluator::evaluate: the quote's own deadline. *)
Definition expiry_check (input : QuoteRiskInput) (quote : QuoteIntent) : check :=
  (qi_expires_at_ns quote <=? qr_now_ns input, (QdRejectExpiredQuote, "quote expired"%string)).

Definition best_bid (depth : MarketDepthView) : Z := pl_price_tick (default no_level (dv_bids depth !! 0%nat)).
Definition best_ask (depth : MarketDepthView) : Z := pl_price_tick (default no_level (dv_asks depth !! 0%nat)).

(** [engine/risk/quote/QuoteRiskEvaluator.cpp:436-437] QuoteRiskEvaluator::evaluate: [book_spread_tick]. *)
Definition book_spread_tick (depth : MarketDepthView) : Z := best_ask depth -i best_bid depth.

(** [engine/risk/quote/QuoteRiskEvaluator.cpp:389-469] QuoteRiskEvaluator::evaluate: the book, once there is one. *)
Definition book_checks (input : QuoteRiskInput) (quote : QuoteIntent) (policy : QuoteRiskPolicy) (depth : MarketDepthView) :
    list check :=
  [ (negb (dv_usable_for_depth depth), (QdRejectBookNotUsable, "book not usable"%string));
    (dv_crossed depth, (QdRejectCrossedBook, "crossed book"%string));
    (dv_recovering depth || dv_closed depth || dv_resolved depth, (QdRejectBookNotUsable, "bad book state"%string));
    ((dv_bid_count depth =? 0)%nat || (dv_ask_count depth =? 0)%nat || (best_bid depth <=? 0) || (best_ask depth <=? 0),
     (QdRejectBookNotUsable, "missing or invalid top of book"%string));
    (best_ask depth <=? best_bid depth, (QdRejectCrossedBook, "crossed top of book"%string));
    ((0 <? qp_max_book_spread_tick policy) && (qp_max_book_spread_tick policy <? book_spread_tick depth),
     (QdRejectSpreadTooWide, "book spread above quote risk maximum"%string));
    ((0 <? qp_max_book_spread_bps policy) &&
     (qp_max_book_spread_bps policy <? spread_bps (book_spread_tick depth) (qi_fair_value_tick quote)),
     (QdRejectSpreadTooWide, "book spread bps above quote risk maximum"%string));
    ((0 <? qp_max_book_age_ns policy) && (dv_last_ws_recv_ns depth <? qr_now_ns input) &&
     (qp_max_book_age_ns policy <? qr_now_ns input - dv_last_ws_recv_ns depth),
     (QdRejectStaleBook, "stale book"%string)) ].

(** [engine/risk/quote/QuoteRiskEvaluator.cpp:471-525] QuoteRiskEvaluator::evaluate: the sides of the quote. *)
Definition side_checks (input : QuoteRiskInput) (quote : QuoteIntent) : list check :=
  let bid_is_risk_reducing := bid_reduces_inventory input quote in
  let ask_is_risk_reducing := ask_reduces_inventory input quote in
  [ (negb (qi_has_bid quote) && negb (qi_has_ask quote), (QdRejectInvalidQuote, "quote has no active sides"%string));
    ((qi_has_bid quote && negb (active_side_valid (qi_bid quote))) ||
     (qi_has_ask quote && negb (active_side_valid (qi_ask quote))),
     (QdRejectInvalidQuote, "invalid side price or quantity"%string));
    (qi_has_bid quote && qi_has_ask quote && (ql_price_tick (qi_ask quote) <=? ql_price_tick (qi_bid quote)),
     (QdRejectCrossedBook, "quote crosses itself"%string));
    (is_unwind_quote quote &&
     ((qi_has_bid quote && negb bid_is_risk_reducing) || (qi_has_ask quote && negb ask_is_risk_reducing)),
     (QdRejectInvalidQuote, "unwind quote contains non-reducing side"%string)) ].

(** [engine/risk/quote/QuoteRiskEvaluator.cpp:527-567] QuoteRiskEvaluator::evaluate: the reward gate. *)
Definition reward_checks (quote : QuoteIntent) (policy : QuoteRiskPolicy) : list check :=
  if qp_reward_eligibility_required policy && negb (reward_gate_exempt policy quote) then
    let reward_spread_limit :=
      if 0 <? qp_reward_max_spread_tick policy then qp_reward_max_spread_tick policy else qi_reward_max_spread_tick quote in
    let reward_min_size :=
      if 0 <? qp_reward_min_quote_size_lots policy then qp_reward_min_quote_size_lots policy
      else qi_reward_min_size_lots quote in
    [ (negb (qi_reward_config_present quote), (QdRejectRewardConfigMissing, "reward config required but missing"%string));
      (qi_has_bid quote && qi_has_ask quote && (0 <? reward_spread_limit) &&
       (reward_spread_limit <? ql_price_tick (qi_ask quote) -i ql_price_tick (qi_bid quote)),
       (QdRejectRewardSpreadTooWide, "quote spread exceeds reward spread cap"%string));
      (opening_side_below_reward_min_size quote reward_min_size,
       (QdRejectRewardSizeTooSmall, "quote size below reward minimum"%string)) ]
  else [].

(** [engine/risk/quote/QuoteRiskEvaluator.cpp:569-633] QuoteRiskEvaluator::evaluate: spread, fair value and permitted sides. *)
Definition price_checks (input : QuoteRiskInput) (quote : QuoteIntent) (policy : QuoteRiskPolicy) (depth : MarketDepthView) :
    list check :=
  let bid_is_risk_reducing := bid_reduces_inventory input quote in
  let ask_is_risk_reducing := ask_reduces_inventory input quote in
  let bid_fair_exempt := bid_allows_fair_exemption quote bid_is_risk_reducing in
  let ask_fair_exempt := ask_allows_fair_exemption quote ask_is_risk_reducing in
  let all_active_sides_spread_exempt :=
    (negb (qi_has_bid quote) || bid_allows_spread_exemption quote bid_is_risk_reducing) &&
    (negb (qi_has_ask quote) || ask_allows_spread_exemption quote ask_is_risk_reducing) in
  let too_far leg := quote_deviates_too_far leg (qi_fair_value_tick quote) (qp_max_quote_fair_deviation_tick policy)
                       (qp_max_quote_fair_deviation_bps policy) in
  [ ((0 <? qp_min_book_spread_tick policy) && (book_spread_tick depth <? qp_min_book_spread_tick policy) &&
     negb all_active_sides_spread_exempt,
     (QdRejectSpreadTooTight, "book spread below quote risk minimum"%string));
    ((qi_has_bid quote && negb bid_fair_exempt && (qi_fair_value_tick quote <=? ql_price_tick (qi_bid quote))) ||
     (qi_has_ask quote && negb ask_fair_exempt && (ql_price_tick (qi_ask quote) <=? qi_fair_value_tick quote)),
     (QdRejectFairValueDeviation, "quote side crosses fair value"%string));
    ((qi_has_bid quote && negb bid_fair_exempt && too_far (qi_bid quote)) ||
     (qi_has_ask quote && negb ask_fair_exempt && too_far (qi_ask quote)),
     (QdRejectFairValueDeviation, "quote price deviates too far from fair value"%string));
    (((qi_has_bid quote && negb (qp_allow_bid_quotes policy)) || (qi_has_ask quote && negb (qp_allow_ask_quotes policy))) &&
     ((qi_has_bid quote && negb (qp_allow_bid_quotes policy) && negb bid_is_risk_reducing) ||
      (qi_has_ask quote && negb (qp_allow_ask_quotes policy) && negb ask_is_risk_reducing)),
     (QdRejectUnsupportedSide, "quote side disabled by policy"%string)) ].

(** [engine/risk/quote/QuoteRiskEvaluator.cpp:635-636] QuoteRiskEvaluator::evaluate: the quantities of the active sides. *)
Definition max_bid_qty (quote : QuoteIntent) : Z := if qi_has_bid quote then ql_quantity_lots (qi_bid quote) else 0.
Definition max_ask_qty (quote : QuoteIntent) : Z := if qi_has_ask quote then ql_quantity_lots (qi_ask quote) else 0.
Definition bid_notional (quote : QuoteIntent) : Z := if qi_has_bid quote then quote_notional (qi_bid quote) else 0.
Definition ask_notional (quote : QuoteIntent) : Z := if qi_has_ask quote then quote_notional (qi_ask quote) else 0.

(** [engine/risk/quote/QuoteRiskEvaluator.cpp:635-713] QuoteRiskEvaluator::evaluate: quantities, inventory and notional. *)
Definition size_checks (input : QuoteRiskInput) (quote : QuoteIntent) (policy : QuoteRiskPolicy) : list check :=
  let bid_is_risk_reducing := bid_reduces_inventory input quote in
  let ask_is_risk_reducing := ask_reduces_inventory input quote in
  let bid_qty_exempt := qi_has_bid quote && bid_is_risk_reducing && ql_risk_reducing (qi_bid quote) in
  let ask_qty_exempt := qi_has_ask quote && ask_is_risk_reducing && ql_risk_reducing (qi_ask quote) in
  let opening_notional :=
    (if qi_has_bid quote && negb bid_qty_exempt then bid_notional quote else 0) +i
    (if qi_has_ask quote && negb ask_qty_exempt then ask_notional quote else 0) in
  [ ((qi_has_bid quote && bid_is_risk_reducing &&
      (reducible_qty_lots input quote QsBid bid_is_risk_reducing <? max_bid_qty quote)) ||
     (qi_has_ask quote && ask_is_risk_reducing &&
      (reducible_qty_lots input quote QsAsk ask_is_risk_reducing <? max_ask_qty quote)),
     (QdRejectInvalidQuote, "reduce-only quantity exceeds reducible inventory"%string));
    ((0 <? qp_max_quote_qty_lots policy) &&
     (((qp_max_quote_qty_lots policy <? max_bid_qty quote) && negb bid_qty_exempt) ||
      ((qp_max_quote_qty_lots policy <? max_ask_qty quote) && negb ask_qty_exempt)),
     (QdRejectExposureLimit, "quote quantity exceeds limit"%string));
    ((0 <? qp_max_asset_inventory_lots policy) &&
     ((qi_has_bid quote && negb bid_is_risk_reducing &&
       (qp_max_asset_inventory_lots policy <? llabs (qr_current_position_lots input +i max_bid_qty quote))) ||
      (qi_has_ask quote && negb ask_is_risk_reducing &&
       (qp_max_asset_inventory_lots policy <? llabs (qr_current_position_lots input -i max_ask_qty quote)))),
     (QdRejectInventoryLimit, "inventory limit exceeded"%string));
    ((0 <? qp_max_quote_notional_tick policy) && (qp_max_quote_notional_tick policy <? opening_notional),
     (QdRejectExposureLimit, "quote notional exceeds limit"%string)) ].

(** [engine/risk/quote/QuoteRiskEvaluator.cpp:715-753] QuoteRiskEvaluator::evaluate: how many, how often, with what edge. *)
Definition activity_checks (input : QuoteRiskInput) (quote : QuoteIntent) (policy : QuoteRiskPolicy) : list check :=
  let replacing := match qi_type quote with QtReplaceQuote => true | _ => false end in
  [ (qp_max_active_quotes_per_asset policy <=? qr_active_quotes_for_asset input,
     (QdRejectDuplicateQuote, "too many active quotes for asset"%string));
    (replacing && (0 <? qr_last_replace_ts_ns input) && (qr_last_replace_ts_ns input <? qr_now_ns input) &&
     (qr_now_ns input - qr_last_replace_ts_ns input <? qp_min_replace_interval_ns policy),
     (QdRejectQuoteTooFrequent, "replace interval too short"%string));
    ((qi_has_bid quote && negb (bid_reduces_inventory input quote) && negb (is_unwind_quote quote) &&
      (qi_fair_value_tick quote -i ql_price_tick (qi_bid quote) <? qp_min_edge_to_fair_tick policy)) ||
     (qi_has_ask quote && negb (ask_reduces_inventory input quote) && negb (is_unwind_quote quote) &&
      (ql_price_tick (qi_ask quote) -i qi_fair_value_tick quote <? qp_min_edge_to_fair_tick policy)),
     (QdRejectLowEdgeToFair, "edge to fair below threshold"%string)) ].

(** [engine/risk/quote/QuoteRiskEvaluator.cpp:311-753] QuoteRiskEvaluator::evaluate: every check after the first, in order. *)
Definition quote_checks (input : QuoteRiskInput) (quote : QuoteIntent) (policy : QuoteRiskPolicy) : list check :=
  external_checks input policy ++ [expiry_check input quote] ++
  match qr_depth input with
  | None => [(true, (QdRejectBookNotUsable, "book not usable"%string))]
  | Some depth =>
      book_checks input quote policy depth ++ side_checks input quote ++ reward_checks quote policy ++
      price_checks input quote policy depth ++ size_checks input quote policy ++ activity_checks input quote policy
  end.

(** [engine/risk/quote/QuoteRiskEvaluator.cpp:298-301] QuoteRiskEvaluator::evaluate: the types that can be approved. *)
Definition quote_type_accepted (type : QuoteIntentType) : bool :=
  match type with QtPlaceQuote | QtReplaceQuote | QtPassiveUnwind | QtForcedUnwind => true | _ => false end.

(** [engine/risk/quote/QuoteRiskEvaluator.cpp:765-777] QuoteRiskEvaluator::evaluate: the approved quote. *)
Definition approve_quote (input : QuoteRiskInput) (quote : QuoteIntent) (decision : QuoteRiskDecision) : ApprovedQuote :=
  let approved :=
    mkApprovedQuote 0 (qi_quote_intent_id quote) (qi_quote_group_id quote) (qi_has_bid quote) (qi_has_ask quote)
      (qi_bid quote) (qi_ask quote) (qr_now_ns input) (qi_expires_at_ns quote) (qi_idempotency_hash quote)
      (qd_policy_hash decision) (qi_snapshot_version_hash quote) in
  approved <| apq_approved_quote_id := compute_approved_quote_hash approved |>.

(** [engine/risk/quote/QuoteRiskEvaluator.cpp:296-780] QuoteRiskEvaluator::evaluate. *)
Definition quote_evaluate (input : QuoteRiskInput) : QuoteRiskResult :=
  match qr_quote input, qr_policy input with
  | Some quote, Some policy =>
      if (qi_quote_intent_id quote =? 0) || negb (quote_type_accepted (qi_type quote))
      then quote_reject input QdRejectInvalidQuote "invalid quote input" 0 0
      else
        match first_failure (quote_checks input quote policy) with
        | Some (type, reason) => quote_reject input type reason (bid_notional quote) (ask_notional quote)
        | None =>
            let decision := finish_decision input QdApprove "approved" (bid_notional quote) (ask_notional quote) in
            mkQuoteRiskResult decision (Some (approve_quote input quote decision))
        end
  | _, _ => quote_reject input QdRejectInvalidQuote "invalid quote input" 0 0
  end.

(** ** What a quote must satisfy

    The requirements of the policy in exact integers, group by group.  The code
    computes them at 64 bits; [QuoteRiskTyped] keeps its sums from wrapping. *)

Definition ticks_ok (z : Z) : Prop := - 2 ^ 40 <= z <= 2 ^ 40.
Definition lots_ok (z : Z) : Prop := - 2 ^ 61 <= z <= 2 ^ 61.

Record QuoteRiskTyped (input : QuoteRiskInput) (quote : QuoteIntent) (policy : QuoteRiskPolicy) (depth : MarketDepthView) :
    Prop := {
  qt_bid_price : ticks_ok (ql_price_tick (qi_bid quote));
  qt_ask_price : ticks_ok (ql_price_tick (qi_ask quote));
  qt_fair : ticks_ok (qi_fair_value_tick quote);
  qt_best_bid : ticks_ok (best_bid depth);
  qt_best_ask : ticks_ok (best_ask depth);
  qt_bid_qty : lots_ok (ql_quantity_lots (qi_bid quote));
  qt_ask_qty : lots_ok (ql_quantity_lots (qi_ask quote));
  qt_position : lots_ok (qr_current_position_lots input);
  qt_target : lots_ok (qi_target_position_lots quote);
  qt_projected : lots_ok (qr_projected_canonical_yes_position_lots input);
  qt_touch : lots_ok (qr_portfolio_touch_exposure_lots input);
  qt_spot_age : 0 <= qp_max_spot_age_ms policy <= i64_max;
  qt_vol_age : 0 <= qp_max_vol_age_ms policy <= i64_max;
  qt_deviation_bps : qp_max_quote_fair_deviation_bps policy <= 2 ^ 30;
  qt_bid_notional : ql_price_tick (qi_bid quote) * ql_quantity_lots (qi_bid quote) <= 2 ^ 61;
  qt_ask_notional : ql_price_tick (qi_ask quote) * ql_quantity_lots (qi_ask quote) <= 2 ^ 61
}.

(** A limit of zero or less is no limit. *)
Definition within (value limit : Z) : Prop := 0 < limit → value <= limit.

Record ExternalFit (input : QuoteRiskInput) (policy : QuoteRiskPolicy) : Prop := {
  ef_switch : qp_quote_kill_switch_enabled policy = false;
  ef_spot : within (qr_spot_age_ms input) (qp_max_spot_age_ms policy);
  ef_vol : within (qr_vol_age_ms input) (qp_max_vol_age_ms policy);
  ef_confidence : 0 < qp_min_external_confidence_bps policy →
    qp_min_external_confidence_bps policy <= qr_external_confidence_bps input;
  ef_canonical : within (Z.abs (qr_projected_canonical_yes_position_lots input)) (qp_max_canonical_yes_exposure_lots policy);
  ef_touch : within (Z.abs (qr_portfolio_touch_exposure_lots input)) (qp_max_portfolio_touch_exposure_lots policy)
}.

Record BookFit (input : QuoteRiskInput) (quote : QuoteIntent) (policy : QuoteRiskPolicy) (depth : MarketDepthView) : Prop := {
  bf_usable : dv_usable_for_depth depth = true;
  bf_crossed : dv_crossed depth = false;
  bf_recovering : dv_recovering depth = false;
  bf_open : dv_closed depth = false ∧ dv_resolved depth = false;
  bf_sides : (0 < dv_bid_count depth)%nat ∧ (0 < dv_ask_count depth)%nat;
  bf_prices : 0 < best_bid depth < best_ask depth;
  bf_spread : within (best_ask depth - best_bid depth) (qp_max_book_spread_tick policy);
  bf_spread_bps : 0 < qi_fair_value_tick quote →
    within ((best_ask depth - best_bid depth) * 10000 / qi_fair_value_tick quote) (qp_max_book_spread_bps policy);
  bf_age : within (qr_now_ns input - dv_last_ws_recv_ns depth) (qp_max_book_age_ns policy)
}.

Record SidesFit (input : QuoteRiskInput) (quote : QuoteIntent) : Prop := {
  sf_some : qi_has_bid quote = true ∨ qi_has_ask quote = true;
  sf_bid : qi_has_bid quote = true → 0 < ql_price_tick (qi_bid quote) ∧ 0 < ql_quantity_lots (qi_bid quote);
  sf_ask : qi_has_ask quote = true → 0 < ql_price_tick (qi_ask quote) ∧ 0 < ql_quantity_lots (qi_ask quote);
  sf_uncrossed : qi_has_bid quote = true → qi_has_ask quote = true → ql_price_tick (qi_bid quote) < ql_price_tick (qi_ask quote);
  sf_unwind : is_unwind_quote quote = true →
    (qi_has_bid quote = true → qr_current_position_lots input < qi_target_position_lots quote) ∧
    (qi_has_ask quote = true → qi_target_position_lots quote < qr_current_position_lots input)
}.

(** What the reward gate asks of a quote it applies to: the first limit that is set counts. *)
Definition first_positive (a b : Z) : Z := if 0 <? a then a else b.
Record RewardFit (quote : QuoteIntent) (policy : QuoteRiskPolicy) : Prop := {
  wf_present : qi_reward_config_present quote = true;
  wf_spread : qi_has_bid quote = true → qi_has_ask quote = true →
    within (ql_price_tick (qi_ask quote) - ql_price_tick (qi_bid quote))
      (first_positive (qp_reward_max_spread_tick policy) (qi_reward_max_spread_tick quote));
  wf_bid_size : qi_has_bid quote = true → ql_risk_reducing (qi_bid quote) = false →
    0 < first_positive (qp_reward_min_quote_size_lots policy) (qi_reward_min_size_lots quote) →
    first_positive (qp_reward_min_quote_size_lots policy) (qi_reward_min_size_lots quote) <= ql_quantity_lots (qi_bid quote);
  wf_ask_size : qi_has_ask quote = true → ql_risk_reducing (qi_ask quote) = false →
    0 < first_positive (qp_reward_min_quote_size_lots policy) (qi_reward_min_size_lots quote) →
    first_positive (qp_reward_min_quote_size_lots policy) (qi_reward_min_size_lots quote) <= ql_quantity_lots (qi_ask quote)
}.

(** A limit on the distance to the fair value: the smaller of the two that are set. *)
Definition deviation_limits (policy : QuoteRiskPolicy) (fair distance : Z) : Prop :=
  within distance (qp_max_quote_fair_deviation_tick policy) ∧
  (0 < fair → 0 < qp_max_quote_fair_deviation_bps policy →
   distance <= Z.max 1 (fair * qp_max_quote_fair_deviation_bps policy / 10000)).

(** A side is exempt from the price limits when it reduces the inventory and says so. *)
Definition fair_exempt (quote : QuoteIntent) (leg : QuoteLeg) : bool :=
  ql_risk_reducing leg || ql_allow_fair_deviation_exemption leg || is_unwind_quote quote.
Definition spread_exempt (leg : QuoteLeg) : bool := ql_risk_reducing leg && ql_allow_spread_exemption leg.

Record PricesFit (input : QuoteRiskInput) (quote : QuoteIntent) (policy : QuoteRiskPolicy) (depth : MarketDepthView) :
    Prop := {
  pf_spread : 0 < qp_min_book_spread_tick policy → qp_min_book_spread_tick policy <= best_ask depth - best_bid depth ∨
    (qi_has_bid quote = true → qr_current_position_lots input < qi_target_position_lots quote ∧ spread_exempt (qi_bid quote) = true) ∧
    (qi_has_ask quote = true → qi_target_position_lots quote < qr_current_position_lots input ∧ spread_exempt (qi_ask quote) = true);
  pf_bid : qi_has_bid quote = true →
    qr_current_position_lots input < qi_target_position_lots quote ∧ fair_exempt quote (qi_bid quote) = true ∨
    ql_price_tick (qi_bid quote) < qi_fair_value_tick quote ∧
    deviation_limits policy (qi_fair_value_tick quote) (qi_fair_value_tick quote - ql_price_tick (qi_bid quote));
  pf_ask : qi_has_ask quote = true →
    qi_target_position_lots quote < qr_current_position_lots input ∧ fair_exempt quote (qi_ask quote) = true ∨
    qi_fair_value_tick quote < ql_price_tick (qi_ask quote) ∧
    deviation_limits policy (qi_fair_value_tick quote) (ql_price_tick (qi_ask quote) - qi_fair_value_tick quote);
  pf_allowed_bid : qi_has_bid quote = true → qp_allow_bid_quotes policy = true ∨
    qr_current_position_lots input < qi_target_position_lots quote;
  pf_allowed_ask : qi_has_ask quote = true → qp_allow_ask_quotes policy = true ∨
    qi_target_position_lots quote < qr_current_position_lots input
}.

(** The lots a side may trade without leaving its way to the target, or to zero when the unwind is forced. *)
Definition is_forced (quote : QuoteIntent) : bool := match qi_type quote with QtForcedUnwind => true | _ => false end.
Definition bid_room (input : QuoteRiskInput) (quote : QuoteIntent) : Z :=
  (if is_forced quote && (qr_current_position_lots input <? 0) then 0 else qi_target_position_lots quote)
  - qr_current_position_lots input.
Definition ask_room (input : QuoteRiskInput) (quote : QuoteIntent) : Z :=
  qr_current_position_lots input - (if is_forced quote then Z.min 0 (qr_current_position_lots input)
                                    else qi_target_position_lots quote).
Definition leg_notional (leg : QuoteLeg) : Z := ql_price_tick leg * ql_quantity_lots leg.
Definition opening_notional (has reducing : bool) (leg : QuoteLeg) : Z :=
  if has && negb (reducing && ql_risk_reducing leg) then leg_notional leg else 0.

Record SizesFit (input : QuoteRiskInput) (quote : QuoteIntent) (policy : QuoteRiskPolicy) : Prop := {
  zf_bid_room : bid_reduces_inventory input quote = true → ql_quantity_lots (qi_bid quote) <= bid_room input quote;
  zf_ask_room : ask_reduces_inventory input quote = true → ql_quantity_lots (qi_ask quote) <= ask_room input quote;
  zf_bid_qty : qi_has_bid quote = true → bid_reduces_inventory input quote && ql_risk_reducing (qi_bid quote) = false →
    within (ql_quantity_lots (qi_bid quote)) (qp_max_quote_qty_lots policy);
  zf_ask_qty : qi_has_ask quote = true → ask_reduces_inventory input quote && ql_risk_reducing (qi_ask quote) = false →
    within (ql_quantity_lots (qi_ask quote)) (qp_max_quote_qty_lots policy);
  zf_bid_inventory : qi_has_bid quote = true → bid_reduces_inventory input quote = false →
    within (Z.abs (qr_current_position_lots input + ql_quantity_lots (qi_bid quote))) (qp_max_asset_inventory_lots policy);
  zf_ask_inventory : qi_has_ask quote = true → ask_reduces_inventory input quote = false →
    within (Z.abs (qr_current_position_lots input - ql_quantity_lots (qi_ask quote))) (qp_max_asset_inventory_lots policy);
  zf_notional : within (opening_notional (qi_has_bid quote) (bid_reduces_inventory input quote) (qi_bid quote) +
                        opening_notional (qi_has_ask quote) (ask_reduces_inventory input quote) (qi_ask quote))
                  (qp_max_quote_notional_tick policy)
}.

Record ActivityFit (input : QuoteRiskInput) (quote : QuoteIntent) (policy : QuoteRiskPolicy) : Prop := {
  af_count : qr_active_quotes_for_asset input < qp_max_active_quotes_per_asset policy;
  af_interval : qi_type quote = QtReplaceQuote → 0 < qr_last_replace_ts_ns input < qr_now_ns input →
    qp_min_replace_interval_ns policy <= qr_now_ns input - qr_last_replace_ts_ns input;
  af_bid_edge : qi_has_bid quote = true → bid_reduces_inventory input quote = false → is_unwind_quote quote = false →
    qp_min_edge_to_fair_tick policy <= qi_fair_value_tick quote - ql_price_tick (qi_bid quote);
  af_ask_edge : qi_has_ask quote = true → ask_reduces_inventory input quote = false → is_unwind_quote quote = false →
    qp_min_edge_to_fair_tick policy <= ql_price_tick (qi_ask quote) - qi_fair_value_tick quote
}.

Record QuoteAdmissible (input : QuoteRiskInput) (quote : QuoteIntent) (policy : QuoteRiskPolicy) (depth : MarketDepthView) :
    Prop := {
  qa_id : qi_quote_intent_id quote ≠ 0;
  qa_type : quote_type_accepted (qi_type quote) = true;
  qa_external : ExternalFit input policy;
  qa_alive : qr_now_ns input < qi_expires_at_ns quote;
  qa_book : BookFit input quote policy depth;
  qa_sides : SidesFit input quote;
  qa_reward : qp_reward_eligibility_required policy = true → reward_gate_exempt policy quote = false → RewardFit quote policy;
  qa_prices : PricesFit input quote policy depth;
  qa_sizes : SizesFit input quote policy;
  qa_activity : ActivityFit input quote policy
}.

(** ** The checks decide the requirements *)

Lemma first_failure_none checks : first_failure checks = None ↔ Forall (λ c : check, c.1 = false) checks.
Proof.
  induction checks as [|[[] f] checks IH]; cbn.
  - split; [by constructor | done].
  - split; [done | by intros [? _]%Forall_cons].
  - rewrite IH, Forall_cons. cbn. tauto.
Qed.

(** Boolean conditions that are false, as propositions. *)
Ltac falses :=
  rewrite ?Forall_cons, ?Forall_nil; cbn [fst];
  repeat progress rewrite ?andb_false_iff, ?orb_false_iff, ?negb_false_iff, ?Z.ltb_ge, ?Z.leb_gt, ?Nat.eqb_neq.

(** Case analysis on every comparison of the goal, the innermost first. *)
Ltac compare_all :=
  repeat match goal with
  | |- context [?a <? ?b] =>
      lazymatch constr:((a, b)) with context [if _ then _ else _] => fail | _ => destruct (Z.ltb_spec a b) end
  | |- context [?a <=? ?b] =>
      lazymatch constr:((a, b)) with context [if _ then _ else _] => fail | _ => destruct (Z.leb_spec a b) end
  end; cbn [andb orb negb].

Lemma llabs_exact z : lots_ok z → llabs z = Z.abs z.
Proof. unfold lots_ok, llabs. intros. apply wrap_i64_id. rlia. Qed.

Lemma llabs_small z : - 2 ^ 62 <= z <= 2 ^ 62 → llabs z = Z.abs z.
Proof. unfold llabs. intros. apply wrap_i64_id. rlia. Qed.

Section Exact.
Context (input : QuoteRiskInput) (quote : QuoteIntent) (policy : QuoteRiskPolicy) (depth : MarketDepthView).
Hypothesis typed : QuoteRiskTyped input quote policy depth.

Lemma external_checks_pass : Forall (λ c : check, c.1 = false) (external_checks input policy) ↔ ExternalFit input policy.
Proof using typed.
  destruct typed. unfold external_checks.
  rewrite !llabs_exact by done. rewrite !wrap_i64_id by (unfold in_i64; lia).
  falses. split.
  - intros (?&?&?&?&?&?&_). constructor; unfold within; intros; try done; lia.
  - intros []. unfold within in *. repeat split; lia || done.
Qed.

Lemma book_spread_exact : book_spread_tick depth = best_ask depth - best_bid depth.
Proof using typed. destruct typed. unfold ticks_ok in *. apply wrap_i64_id. rlia. Qed.

Lemma spread_bps_exact : 0 < best_bid depth < best_ask depth → 0 < qi_fair_value_tick quote →
  spread_bps (book_spread_tick depth) (qi_fair_value_tick quote)
  = (best_ask depth - best_bid depth) * 10000 / qi_fair_value_tick quote.
Proof using typed.
  intros Hp Hf. rewrite book_spread_exact. destruct typed. unfold spread_bps, ticks_ok in *.
  destruct (Z.leb_spec (best_ask depth - best_bid depth) 0), (Z.leb_spec (qi_fair_value_tick quote) 0); try lia. cbn [orb].
  rewrite Z.quot_div_nonneg by lia. apply wrap_i64_id.
  pose proof (Z.div_pos ((best_ask depth - best_bid depth) * 10000) (qi_fair_value_tick quote)).
  pose proof (Z.div_le_upper_bound ((best_ask depth - best_bid depth) * 10000) (qi_fair_value_tick quote) (2 ^ 60)).
  assert ((best_ask depth - best_bid depth) * 10000 <= qi_fair_value_tick quote * 2 ^ 60) by nia. rlia.
Qed.

Lemma book_checks_pass :
  Forall (λ c : check, c.1 = false) (book_checks input quote policy depth) ↔ BookFit input quote policy depth.
Proof using typed.
  unfold book_checks. falses. split.
  - intros (Hu & Hc & [[? ?] ?] & [[[? ?] ?] ?] & Hx & Hs & Hb & Ha & _). rewrite book_spread_exact in Hs.
    constructor; unfold within; try done; try lia; try (split; lia || done).
    intros Hf Hlim. rewrite spread_bps_exact in Hb by (done || lia). lia.
  - intros [Hu Hc Hr [? ?] [? ?] Hp Hs Hb Ha]. unfold within in *. rewrite book_spread_exact.
    repeat split; try done; try lia.
    destruct (Z.ltb_spec 0 (qi_fair_value_tick quote)) as [Hf|Hf].
    + rewrite <- book_spread_exact, spread_bps_exact by done. specialize (Hb Hf). lia.
    + destruct (Z.leb_spec (qp_max_book_spread_bps policy) 0); [by left|right]. unfold spread_bps.
      destruct (Z.leb_spec (best_ask depth - best_bid depth) 0), (Z.leb_spec (qi_fair_value_tick quote) 0); cbn; lia.
Qed.

Lemma active_side_valid_true leg : active_side_valid leg = true ↔ 0 < ql_price_tick leg ∧ 0 < ql_quantity_lots leg.
Proof using Type. unfold active_side_valid. rewrite andb_true_iff, !Z.ltb_lt. done. Qed.

Lemma side_checks_pass : Forall (λ c : check, c.1 = false) (side_checks input quote) ↔ SidesFit input quote.
Proof using Type.
  unfold side_checks, bid_reduces_inventory, ask_reduces_inventory. falses.
  rewrite !active_side_valid_true, !andb_true_iff, !Z.ltb_lt.
  split.
  - intros (Hs & [Hb Ha] & Hx & Hu & _). constructor; intros; destruct (qi_has_bid quote), (qi_has_ask quote); intuition (congruence || lia).
  - intros [Hs Hb Ha Hx Hu]. destruct (qi_has_bid quote), (qi_has_ask quote), (is_unwind_quote quote); intuition (congruence || lia).
Qed.

Lemma reward_checks_pass : Forall (λ c : check, c.1 = false) (reward_checks quote policy) ↔
  (qp_reward_eligibility_required policy = true → reward_gate_exempt policy quote = false → RewardFit quote policy).
Proof using typed.
  assert (Hw : in_i64 (ql_price_tick (qi_ask quote) - ql_price_tick (qi_bid quote))).
  { destruct typed. unfold ticks_ok in *. rlia. }
  unfold reward_checks.
  destruct (qp_reward_eligibility_required policy), (reward_gate_exempt policy quote); cbn [andb negb];
    try (split; [done | intros _; constructor]).
  fold (first_positive (qp_reward_max_spread_tick policy) (qi_reward_max_spread_tick quote)).
  fold (first_positive (qp_reward_min_quote_size_lots policy) (qi_reward_min_size_lots quote)).
  rewrite wrap_i64_id by done. falses. unfold opening_side_below_reward_min_size.
  transitivity (RewardFit quote policy); [|tauto].
  set (l := first_positive _ (qi_reward_max_spread_tick quote)).
  set (m := first_positive _ (qi_reward_min_size_lots quote)).
  assert (Hfit : RewardFit quote policy ↔ qi_reward_config_present quote = true ∧
    (qi_has_bid quote = true → qi_has_ask quote = true →
     within (ql_price_tick (qi_ask quote) - ql_price_tick (qi_bid quote)) l) ∧
    (qi_has_bid quote = true → ql_risk_reducing (qi_bid quote) = false → 0 < m → m <= ql_quantity_lots (qi_bid quote)) ∧
    (qi_has_ask quote = true → ql_risk_reducing (qi_ask quote) = false → 0 < m → m <= ql_quantity_lots (qi_ask quote))).
  { split; [by intros [] | by intros (?&?&?&?)]. }
  rewrite Hfit. unfold within. clearbody l m.
  clear. destruct (qi_has_bid quote), (qi_has_ask quote), (ql_risk_reducing (qi_bid quote)), (ql_risk_reducing (qi_ask quote));
    cbn [andb negb]; destruct (Z.leb_spec m 0), (Z.ltb_spec (ql_quantity_lots (qi_bid quote)) m),
      (Z.ltb_spec (ql_quantity_lots (qi_ask quote)) m); try lia; naive_solver lia.
Qed.

(** With the side of the fair value settled, the threshold test is the pair of limits. *)
Lemma deviation_exact price distance :
  ticks_ok price → distance = Z.abs (price - qi_fair_value_tick quote) → 0 < distance →
  (let threshold := fair_deviation_threshold (qi_fair_value_tick quote) (qp_max_quote_fair_deviation_tick policy)
                      (qp_max_quote_fair_deviation_bps policy) in
   if threshold <=? 0 then false else threshold <? llabs (price -i qi_fair_value_tick quote)) = false ↔
  deviation_limits policy (qi_fair_value_tick quote) distance.
Proof using typed.
  intros Hp Hd Hpos. destruct typed as [_ _ Hf _ _ _ _ _ _ _ _ _ _ Hbps _ _]. unfold ticks_ok in *.
  rewrite wrap_i64_id by rlia. rewrite llabs_small by lia. rewrite <- Hd.
  unfold fair_deviation_threshold, deviation_limits, within.
  set (mt := qp_max_quote_fair_deviation_tick policy) in *. set (mb := qp_max_quote_fair_deviation_bps policy) in *.
  set (f := qi_fair_value_tick quote) in *. clearbody mt mb f. clear typed.
  destruct (Z.ltb_spec 0 f), (Z.ltb_spec 0 mb); cbn [andb]; cbv zeta.
  2-4: compare_all; intuition lia.
  rewrite Z.quot_div_nonneg by nia. rewrite wrap_i64_id.
  2:{ pose proof (Z.div_pos (f * mb) 10000). pose proof (Z.div_le_upper_bound (f * mb) 10000 (2 ^ 62)).
      assert (f * mb <= 10000 * 2 ^ 62) by nia. rlia. }
  set (q := f * mb / 10000). clearbody q. compare_all; intuition lia.
Qed.

Lemma too_far_bid : ql_price_tick (qi_bid quote) < qi_fair_value_tick quote →
  quote_deviates_too_far (qi_bid quote) (qi_fair_value_tick quote) (qp_max_quote_fair_deviation_tick policy)
    (qp_max_quote_fair_deviation_bps policy) = false ↔
  deviation_limits policy (qi_fair_value_tick quote) (qi_fair_value_tick quote - ql_price_tick (qi_bid quote)).
Proof using typed. intros H. apply deviation_exact; [apply typed|lia..]. Qed.

Lemma too_far_ask : qi_fair_value_tick quote < ql_price_tick (qi_ask quote) →
  quote_deviates_too_far (qi_ask quote) (qi_fair_value_tick quote) (qp_max_quote_fair_deviation_tick policy)
    (qp_max_quote_fair_deviation_bps policy) = false ↔
  deviation_limits policy (qi_fair_value_tick quote) (ql_price_tick (qi_ask quote) - qi_fair_value_tick quote).
Proof using typed. intros H. apply deviation_exact; [apply typed|lia..]. Qed.

Lemma price_checks_pass :
  Forall (λ c : check, c.1 = false) (price_checks input quote policy depth) ↔ PricesFit input quote policy depth.
Proof using typed.
  pose proof too_far_bid as Hbid. pose proof too_far_ask as Hask.
  unfold price_checks, bid_reduces_inventory, ask_reduces_inventory, bid_allows_fair_exemption, ask_allows_fair_exemption,
    bid_allows_spread_exemption, ask_allows_spread_exemption. rewrite book_spread_exact.
  fold (fair_exempt quote (qi_bid quote)). fold (fair_exempt quote (qi_ask quote)).
  falses. clear typed. split.
  - intros (Hs & Hx & Hd & Ha & _). constructor; unfold spread_exempt.
    + clear Hx Hd Ha Hbid Hask. destruct (qi_has_bid quote), (qi_has_ask quote); cbn [andb negb orb] in *; lia.
    + clear Hs Ha Hask. intros Hb. rewrite Hb in *. cbn [andb negb orb] in *.
      destruct (decide (qr_current_position_lots input < qi_target_position_lots quote ∧ fair_exempt quote (qi_bid quote) = true))
        as [?|Hno]; [by left | right].
      assert (Hlt : ql_price_tick (qi_bid quote) < qi_fair_value_tick quote) by (clear Hd Hbid; lia).
      split; [done|]. apply (Hbid Hlt). clear Hx Hbid. lia.
    + clear Hs Ha Hbid. intros Hb. rewrite Hb in *. cbn [andb negb orb] in *.
      destruct (decide (qi_target_position_lots quote < qr_current_position_lots input ∧ fair_exempt quote (qi_ask quote) = true))
        as [?|Hno]; [by left | right].
      assert (Hlt : qi_fair_value_tick quote < ql_price_tick (qi_ask quote)) by (clear Hd Hask; lia).
      split; [done|]. apply (Hask Hlt). clear Hx Hask. lia.
    + clear Hs Hx Hd Hbid Hask. lia.
    + clear Hs Hx Hd Hbid Hask. lia.
  - intros [Hs Hb Ha Hpb Hpa]. unfold spread_exempt in *. split; [|split; [|split; [|split; [|done]]]].
    + clear Hbid Hask Hb Ha Hpb Hpa. lia.
    + clear Hbid Hask Hs Hpb Hpa. lia.
    + clear Hs Hpb Hpa. split.
      * destruct (qi_has_bid quote); [|by left; left]. destruct (Hb eq_refl) as [[Hl He]|[Hlt Hdev]].
        -- left; right. clear Hb Ha Hbid Hask. lia.
        -- right. by apply Hbid.
      * destruct (qi_has_ask quote); [|by left; left]. destruct (Ha eq_refl) as [[Hl He]|[Hlt Hdev]].
        -- left; right. clear Hb Ha Hbid Hask. lia.
        -- right. by apply Hask.
    + clear Hbid Hask Hs Hb Ha. lia.
Qed.

Lemma notional_exact leg : 0 < ql_price_tick leg ∧ 0 < ql_quantity_lots leg → leg_notional leg <= 2 ^ 61 →
  quote_notional leg = leg_notional leg.
Proof using Type.
  intros Hp Hn. unfold quote_notional. rewrite (proj2 (active_side_valid_true leg)) by done. cbn [negb].
  rewrite saturating_mul_clamp. apply clamp_i64_id. unfold leg_notional in *.
  assert (0 < ql_price_tick leg * ql_quantity_lots leg) by nia. rlia.
Qed.

Lemma bid_room_exact : bid_reduces_inventory input quote = true →
  reducible_qty_lots input quote QsBid true = bid_room input quote.
Proof using typed.
  destruct typed as [_ _ _ _ _ _ _ Hp Ht _ _ _ _ _ _ _]. unfold lots_ok, bid_reduces_inventory in *. intros Hr. breflect.
  unfold reducible_qty_lots, bid_room, is_forced. cbn [negb].
  destruct (Z.leb_spec (qi_target_position_lots quote) (qr_current_position_lots input)); [lia|].
  destruct (qi_type quote); cbn [andb]; try (rewrite wrap_i64_id by rlia; lia).
  destruct (Z.ltb_spec (qr_current_position_lots input) 0); rewrite wrap_i64_id by rlia; lia.
Qed.

Lemma ask_room_exact : ask_reduces_inventory input quote = true →
  reducible_qty_lots input quote QsAsk true = ask_room input quote.
Proof using typed.
  destruct typed as [_ _ _ _ _ _ _ Hp Ht _ _ _ _ _ _ _]. unfold lots_ok, ask_reduces_inventory in *. intros Hr. breflect.
  unfold reducible_qty_lots, ask_room, is_forced. cbn [negb].
  destruct (Z.leb_spec (qr_current_position_lots input) (qi_target_position_lots quote)); [lia|].
  destruct (qi_type quote); try (rewrite wrap_i64_id by rlia; lia). lia.
Qed.

(** Each side's share of the notional that is counted against the limit. *)
Lemma opening_notional_exact has reducing leg :
  (has = true → 0 < ql_price_tick leg ∧ 0 < ql_quantity_lots leg) → leg_notional leg <= 2 ^ 61 →
  (if has && negb (has && reducing && ql_risk_reducing leg) then (if has then quote_notional leg else 0) else 0)
  = opening_notional has reducing leg ∧ 0 <= opening_notional has reducing leg <= 2 ^ 61.
Proof using Type.
  intros Hp Hn. unfold opening_notional. destruct has; [|cbn; lia]. cbn [andb]. specialize (Hp eq_refl).
  rewrite notional_exact by done. destruct (negb _); [|lia]. split; [done|].
  split; [|done]. unfold leg_notional. nia.
Qed.

Lemma size_checks_pass : SidesFit input quote →
  Forall (λ c : check, c.1 = false) (size_checks input quote policy) ↔ SizesFit input quote policy.
Proof using typed.
  intros Hsides. pose proof bid_room_exact as Hbr. pose proof ask_room_exact as Har.
  destruct (opening_notional_exact (qi_has_bid quote) (bid_reduces_inventory input quote) (qi_bid quote)) as [Hob Hob'];
    [apply Hsides|apply typed|].
  destruct (opening_notional_exact (qi_has_ask quote) (ask_reduces_inventory input quote) (qi_ask quote)) as [Hoa Hoa'];
    [apply Hsides|apply typed|].
  unfold size_checks, bid_notional, ask_notional. rewrite Hob, Hoa,
    (wrap_i64_id (opening_notional _ _ (qi_bid quote) + opening_notional _ _ (qi_ask quote))) by rlia. clear Hob Hoa.
  assert (Hib : llabs (qr_current_position_lots input +i max_bid_qty quote)
                = Z.abs (qr_current_position_lots input + max_bid_qty quote) ∧
                llabs (qr_current_position_lots input -i max_ask_qty quote)
                = Z.abs (qr_current_position_lots input - max_ask_qty quote)).
  { destruct typed. unfold lots_ok, max_bid_qty, max_ask_qty in *.
    destruct (qi_has_bid quote), (qi_has_ask quote); rewrite !wrap_i64_id by rlia; rewrite !llabs_small by lia; done. }
  destruct Hib as [-> ->]. clear Hob' Hoa' Hsides.
  assert (Hnb : bid_reduces_inventory input quote = true → qi_has_bid quote = true)
    by (unfold bid_reduces_inventory; clear; lia).
  assert (Hna : ask_reduces_inventory input quote = true → qi_has_ask quote = true)
    by (unfold ask_reduces_inventory; clear; lia).
  falses. unfold max_bid_qty, max_ask_qty. clear typed.
  destruct (bid_reduces_inventory input quote) eqn:Eb; [rewrite Hbr by done; specialize (Hnb eq_refl)|clear Hbr Hnb];
    (destruct (ask_reduces_inventory input quote) eqn:Ea; [rewrite Har by done; specialize (Hna eq_refl)|clear Har Hna]).
  all: split; [intros (H1 & H2 & H3 & H4 & _); constructor | intros [S1 S2 S3 S4 S5 S6 S7]]; rewrite ?Eb, ?Ea in *;
    clear Eb Ea; unfold within in *.
  all: set (bn := opening_notional _ _ (qi_bid quote)) in *; set (an := opening_notional _ _ (qi_ask quote)) in *;
    clearbody bn an; cbn [andb negb orb] in *.
  all: repeat split; lia.
Qed.

Lemma activity_checks_pass :
  Forall (λ c : check, c.1 = false) (activity_checks input quote policy) ↔ ActivityFit input quote policy.
Proof using typed.
  unfold activity_checks.
  assert (Hw : qi_fair_value_tick quote -i ql_price_tick (qi_bid quote) = qi_fair_value_tick quote - ql_price_tick (qi_bid quote) ∧
    ql_price_tick (qi_ask quote) -i qi_fair_value_tick quote = ql_price_tick (qi_ask quote) - qi_fair_value_tick quote).
  { destruct typed. unfold ticks_ok in *. rewrite !wrap_i64_id by rlia. done. }
  destruct Hw as [-> ->]. falses. clear typed. split.
  - intros (H1 & H2 & [H3 H4] & _). constructor; intros.
    + done.
    + rewrite H in H2. lia.
    + lia.
    + lia.
  - intros [A1 A2 A3 A4]. split; [done|]. split; [|split; [split|done]].
    + destruct (qi_type quote); try (left; left; left; done). specialize (A2 eq_refl). lia.
    + clear A2 A4. lia.
    + clear A2 A3. lia.
Qed.

Lemma expiry_check_pass : (expiry_check input quote).1 = false ↔ qr_now_ns input < qi_expires_at_ns quote.
Proof using Type. cbn. lia. Qed.

Lemma quote_checks_pass : qr_depth input = Some depth →
  qi_quote_intent_id quote ≠ 0 → quote_type_accepted (qi_type quote) = true →
  first_failure (quote_checks input quote policy) = None ↔ QuoteAdmissible input quote policy depth.
Proof using typed.
  intros Hd Hid Hty. unfold quote_checks. rewrite Hd, first_failure_none, !Forall_app, Forall_cons, Forall_nil.
  rewrite external_checks_pass, expiry_check_pass, book_checks_pass, side_checks_pass, reward_checks_pass, price_checks_pass,
    activity_checks_pass.
  split.
  - intros (? & [? _] & ? & Hs & ? & ? & Hz & ?). apply size_checks_pass in Hz; [|done]. by constructor.
  - intros [? ? ? ? ? Hs ? ? Hz ?]. apply size_checks_pass in Hz; [|done]. tauto.
Qed.
End Exact.

Lemma evaluate_approves input quote policy depth a :
  qr_quote input = Some quote → qr_policy input = Some policy → qr_depth input = Some depth →
  QuoteRiskTyped input quote policy depth →
  qrr_approved_quote (quote_evaluate input) = Some a ↔
  QuoteAdmissible input quote policy depth ∧
  a = approve_quote input quote (qrr_decision (quote_evaluate input)).
Proof.
  intros Hq Hp Hd Ht. unfold quote_evaluate. rewrite Hq, Hp.
  destruct (Z.eqb_spec (qi_quote_intent_id quote) 0) as [Hid|Hid]; cbn [orb].
  { split; [done | intros [[] _]; done]. }
  destruct (quote_type_accepted (qi_type quote)) eqn:Hty; cbn [negb].
  2:{ split; [done | intros [[] _]; congruence]. }
  pose proof (quote_checks_pass _ _ _ _ Ht Hd Hid Hty) as Hc.
  destruct (first_failure (quote_checks input quote policy)) as [[type reason]|].
  - split; [done | intros [Ha _]; by apply Hc in Ha].
  - cbn [qrr_approved_quote qrr_decision]. split; [intros [= <-] | intros [_ ->]; done].
    split; [by apply Hc | done].
Qed.

(** C26. Approval is exactly admissibility.  With values small enough that no
    sum wraps, the evaluator approves a quote exactly when every requirement of
    the policy holds: the switch is off, prices and volatility are fresh, the
    exposures are within their limits, the book is usable, fresh and neither
    crossed nor too wide, each side is priced away from the fair value or
    reduces the inventory, and quantities, inventory, notional, replacement
    interval and edge respect their limits.  What is approved is the quote. *)
Theorem quote_approved_iff input quote policy depth a :
  qr_quote input = Some quote → qr_policy input = Some policy → qr_depth input = Some depth →
  QuoteRiskTyped input quote policy depth →
  qrr_approved_quote (quote_evaluate input) = Some a ↔
  QuoteAdmissible input quote policy depth ∧
  a = approve_quote input quote (qrr_decision (quote_evaluate input)).
Proof. apply evaluate_approves. Qed.

(** Where approved quotes can take the position.  Whatever parts of an approved
    quote's two sides fill, in any order, the position afterwards is within the
    policy's inventory limit, or no further from zero than it was before or than
    the quote's own target is: a side that moves the position towards the target is
    not held against the limit. *)
Theorem approved_position_bounded input quote policy depth a bought sold :
  qr_quote input = Some quote → qr_policy input = Some policy → qr_depth input = Some depth →
  QuoteRiskTyped input quote policy depth →
  qrr_approved_quote (quote_evaluate input) = Some a →
  0 <= bought <= (if apq_has_bid a then ql_quantity_lots (apq_bid a) else 0) →
  0 <= sold <= (if apq_has_ask a then ql_quantity_lots (apq_ask a) else 0) →
  0 < qp_max_asset_inventory_lots policy →
  Z.abs (qr_current_position_lots input + bought - sold)
  <= Z.max (qp_max_asset_inventory_lots policy) (Z.max (Z.abs (qr_current_position_lots input)) (Z.abs (qi_target_position_lots quote))).
Proof.
  intros Hq Hp Hd Ht Ha Hb Hs HL.
  apply (evaluate_approves _ _ _ _ _ Hq Hp Hd Ht) in Ha.
  destruct Ha as [[_ _ _ _ _ _ _ _ [Hbr Har _ _ Hbi Hai _] _] ->]. cbn in Hb, Hs.
  unfold bid_room, ask_room, bid_reduces_inventory, ask_reduces_inventory, within in *. clear Ht Hq Hp Hd.
  set (p := qr_current_position_lots input) in *. set (t := qi_target_position_lots quote) in *.
  set (L := qp_max_asset_inventory_lots policy) in *. set (fo := is_forced quote) in *.
  set (qb := ql_quantity_lots (qi_bid quote)) in *. set (qa := ql_quantity_lots (qi_ask quote)) in *.
  assert (p + bought <= Z.max L (Z.max (Z.abs p) (Z.abs t))).
  { clear Har Hai Hs. clearbody p t L fo qb. destruct (qi_has_bid quote); [|lia]. cbn [andb] in *.
    destruct (Z.ltb_spec p t); [specialize (Hbr eq_refl); destruct fo, (Z.ltb_spec p 0); cbn [andb] in Hbr; lia|].
    specialize (Hbi eq_refl eq_refl HL). lia. }
  assert (- Z.max L (Z.max (Z.abs p) (Z.abs t)) <= p - sold).
  { clear Hbr Hbi Hb. clearbody p t L fo qa. destruct (qi_has_ask quote); [|lia]. cbn [andb] in *.
    destruct (Z.ltb_spec t p); [specialize (Har eq_refl); destruct fo; lia|].
    specialize (Hai eq_refl eq_refl HL). lia. }
  lia.
Qed.

(** ** Concrete quotes *)

Definition quote_depth : MarketDepthView :=
  let bids := std_array kMaxSnapshotDepth no_level [mkPriceLevel 400000 d0_0 (double_of_pos 50)] in
  let asks := std_array kMaxSnapshotDepth no_level [mkPriceLevel 600000 d0_0 (double_of_pos 50)] in
  mkMarketDepthView 7 3 99 1000 true false false false false 1 1 bids asks (build_depth_prefix bids 1 asks 1).

Definition quote_leg_at (side : QuoteSide) (price qty : Z) : QuoteLeg :=
  quote_leg0 <| ql_side := side |> <| ql_price_tick := price |> <| ql_quantity_lots := qty |>.

Definition two_sided_quote (bid ask qty : Z) : QuoteIntent :=
  quote_intent0 <| qi_quote_intent_id := 5 |> <| qi_type := QtPlaceQuote |> <| qi_has_bid := true |> <| qi_has_ask := true |>
    <| qi_bid := quote_leg_at QsBid bid qty |> <| qi_ask := quote_leg_at QsAsk ask qty |>
    <| qi_fair_value_tick := 500000 |> <| qi_expires_at_ns := 9000 |>.

Definition strict_policy : QuoteRiskPolicy :=
  quote_policy0 <| qp_max_asset_inventory_lots := 20 |> <| qp_max_quote_qty_lots := 10 |>
    <| qp_max_quote_notional_tick := 10000000 |> <| qp_min_edge_to_fair_tick := 20000 |>.

Definition risk_input (quote : QuoteIntent) (policy : QuoteRiskPolicy) (position : Z) : QuoteRiskInput :=
  mkQuoteRiskInput (Some quote) (Some quote_depth) (Some policy) position 0 0 0 0 0 0 0 0 0 2000.

Definition approved_input : QuoteRiskInput := risk_input (two_sided_quote 460000 540000 9) strict_policy 0.

Lemma risk_input_typed : QuoteRiskTyped approved_input
  (two_sided_quote 460000 540000 9) strict_policy quote_depth.
Proof. constructor; vm_compute; split || idtac; discriminate. Defined.

Lemma quote_approved_iff_witness :
  ∃ a, qrr_approved_quote (quote_evaluate approved_input) = Some a ∧
    QuoteAdmissible approved_input (two_sided_quote 460000 540000 9)
      strict_policy quote_depth.
Proof.
  eexists. split; [vm_compute; reflexivity|].
  eapply (quote_approved_iff approved_input _ _ _ _ eq_refl eq_refl eq_refl risk_input_typed). vm_compute; reflexivity.
Defined.

Lemma approved_position_bounded_witness : Z.abs (0 + 9 - 4) <= 20.
Proof.
  eapply (approved_position_bounded approved_input _ _ _ _ 9 4 eq_refl eq_refl
    eq_refl risk_input_typed); [vm_compute; reflexivity|..]; vm_compute; try split; discriminate || reflexivity.
Defined.

(** The inventory limit refuses what the theorem excludes; a side that reduces
    the inventory may not pass the target. *)
Example inventory_limit_bites :
  let verdict position target :=
    qd_decision (qrr_decision (quote_evaluate
      (risk_input ((two_sided_quote 460000 540000 9) <| qi_target_position_lots := target |>) strict_policy position))) in
  verdict 11 11 = QdApprove ∧ verdict 12 12 = QdRejectInventoryLimit ∧
  verdict 8 0 = QdRejectInvalidQuote.
Proof. vm_compute. auto. Qed.

(** The verdict is that of the first check that fails. *)
Lemma quote_verdict input quote policy :
  qr_quote input = Some quote → qr_policy input = Some policy →
  qd_decision (qrr_decision (quote_evaluate input)) =
    if (qi_quote_intent_id quote =? 0) || negb (quote_type_accepted (qi_type quote)) then QdRejectInvalidQuote
    else from_option fst QdApprove (first_failure (quote_checks input quote policy)).
Proof.
  intros Hq Hp. unfold quote_evaluate. rewrite Hq, Hp. destruct (_ || _); [done|].
  by destruct (first_failure (quote_checks input quote policy)) as [[]|].
Qed.

(** The policy's switch [quote_risk_enabled] and its [max_quote_age_ns] are hashed
    but never consulted: the verdict is the same whatever they say. *)
Lemma enabled_flag_unused input quote policy enabled age :
  qr_quote input = Some quote → qr_policy input = Some policy →
  let policy' := policy <| qp_quote_risk_enabled := enabled |> <| qp_max_quote_age_ns := age |> in
  qd_decision (qrr_decision (quote_evaluate (input <| qr_policy := Some policy' |>)))
  = qd_decision (qrr_decision (quote_evaluate input)).
Proof.
  intros Hq Hp policy'. rewrite (quote_verdict input quote policy) by done.
  rewrite (quote_verdict (input <| qr_policy := Some policy' |>) quote policy') by done.
  assert (Hc : quote_checks (input <| qr_policy := Some policy' |>) quote policy' = quote_checks input quote policy)
    by (by destruct policy).
  by rewrite Hc.
Qed.

(** The two notionals saturate, their sum wraps: the largest quotes pass the notional limit. *)
Example notional_wraps_past_limit :
  let huge := 2 ^ 46 in
  let policy := quote_policy0 <| qp_max_quote_notional_tick := 10000000 |> in
  qd_decision (qrr_decision (quote_evaluate (risk_input (two_sided_quote 460000 540000 huge) policy 0))) = QdApprove ∧
  qd_decision (qrr_decision (quote_evaluate (risk_input (two_sided_quote 460000 540000 1000) policy 0))) = QdRejectExposureLimit.
Proof. vm_compute. auto. Qed.
