(* ===== verification/QuoteEngine.v ===== *)
(** * QuoteEngine: from a fair value to a quote

    [engine/strategy/market_making/quote]: prices around the fair value shifted
    by the inventory skew, opening sides that must earn their edge, reducing
    sides that may give it up, the unwinding of excess inventory, and the
    adjustment of a quote to the constraints of a reward programme. *)

From Stdlib Require Import ZifyBool.
From stdpp Require Import strings.
From S2P Require Import Prelude FixedPoint Hashing Doubles RiskTypes Depth QuoteTypes QuoteRisk.
#[local] Open Scope Z_scope.

#[local] Arguments constant {_} _ _ /.

(** ** Inputs *)

(** [engine/reward/public/RewardTypes.h:23-27] RewardTokenConfig. *)
Record RewardTokenConfig := mkRewardToken {
  rt_token_id : string;
  rt_outcome : string;
  rt_eligible : bool
}.

(** [engine/reward/public/RewardTypes.h:29-51] RewardMarketConfig: the fields the quote constraint reads. *)
Record RewardMarketConfig := mkRewardMarket {
  rm_condition_id : string;
  rm_rewards_max_spread_tick : Z;
  rm_rewards_min_size_lots : Z;
  rm_tokens : list RewardTokenConfig
}.

(** [engine/reward/public/RewardTypes.h:53-61] RewardConfigSnapshot: [markets]. *)
Record RewardConfigSnapshot := mkRewardConfig { rc_markets : list RewardMarketConfig }.

(** [engine/strategy/market_making/fair/FairValueModel.h:11-26] FairValueResult. *)
Record FairValueResult := mkFairValue {
  fv_ok : bool;
  fv_fair_value_tick : Z;
  fv_midpoint_tick : Z;
  fv_microprice_tick : Z;
  fv_vwap_mid_tick : Z;
  fv_complement_midpoint_tick : Z;
  fv_complement_implied_tick : Z;
  fv_external_fair_value_tick : Z;
  fv_book_spread_tick : Z;
  fv_confidence_bps : Z;
  fv_top_bid_qty_lots : Z;
  fv_top_ask_qty_lots : Z;
  fv_quality : FairValueQuality;
  fv_source : FairValueSourceKind
}.

Definition fair_value0 : FairValueResult := mkFairValue false 0 0 0 0 0 0 0 0 0 0 0 FvDisabled FsMid.

(** [engine/strategy/market_making/quote/SpreadModel.h:10-17] SpreadResult. *)
Record SpreadResult := mkSpread {
  sp_half_spread_tick : Z;
  sp_fee_buffer_tick : Z;
  sp_latency_buffer_tick : Z;
  sp_volatility_buffer_tick : Z;
  sp_liquidity_buffer_tick : Z;
  sp_uncertainty_buffer_tick : Z
}.

(** [engine/strategy/market_making/quote/SpreadModel.h:20-39] SpreadModel::compute: the largest of the buffers. *)
Definition spread_compute (config : MarketMakingConfig) : SpreadResult :=
  mkSpread
    (Z.max (mc_min_half_spread_tick config) (Z.max (mc_fee_buffer_tick config) (Z.max (mc_latency_buffer_tick config)
      (Z.max (mc_volatility_buffer_tick config) (Z.max (mc_liquidity_buffer_tick config) (mc_uncertainty_buffer_tick config))))))
    (mc_fee_buffer_tick config) (mc_latency_buffer_tick config) (mc_volatility_buffer_tick config)
    (mc_liquidity_buffer_tick config) (mc_uncertainty_buffer_tick config).

(** [engine/strategy/market_making/quote/QuoteSizeModel.h:13-18] QuoteSizeResult. *)
Record QuoteSizeResult := mkQuoteSize {
  qz_ok : bool;
  qz_bid_qty_lots : Z;
  qz_ask_qty_lots : Z;
  qz_reason : string
}.

(** [engine/strategy/market_making/quote/QuotePriceClamp.h:7-11] QuotePriceClampResult. *)
Record QuotePriceClampResult := mkPriceClamp { pc_ok : bool; pc_bid_tick : Z; pc_ask_tick : Z }.

(** [engine/strategy/market_making/quote/QuotePriceClamp.h:13-26] clamp_quote_prices. *)
Definition clamp_quote_prices (bid_tick ask_tick : Z) (config : MarketMakingConfig) : QuotePriceClampResult :=
  let bid := clamp_tick bid_tick (mc_min_price_tick config) (mc_max_price_tick config) in
  let ask := clamp_tick ask_tick (mc_min_price_tick config) (mc_max_price_tick config) in
  mkPriceClamp ((0 <? bid) && (0 <? ask) && (bid <? ask)) bid ask.

(** [engine/strategy/market_making/quote/QuoteEngine.h:16-35] QuoteBuildInput. *)
Record QuoteBuildInput := mkQuoteBuild {
  qb_market_id : string;
  qb_asset_id : string;
  qb_market_index : Z;
  qb_asset_index : Z;
  qb_depth : option MarketDepthView;
  qb_config : option MarketMakingConfig;
  qb_fair_value : FairValueResult;
  qb_spread : SpreadResult;
  qb_size : QuoteSizeResult;
  qb_reward_config : option RewardConfigSnapshot;
  qb_inventory_skew_tick : Z;
  qb_canonical_yes_fair_tick : Z;
  qb_canonical_yes_position_lots : Z;
  qb_target_canonical_yes_lots : Z;
  qb_current_position_lots : Z;
  qb_now_ns : Z;
  qb_intent_type : QuoteIntentType
}.

(** ** The reward constraint *)

(** [engine/strategy/market_making/quote/RewardAwareQuoteConstraint.cpp:10-20] token_matches. *)
Definition token_matches (market : RewardMarketConfig) (asset_id : string) : bool :=
  existsb (λ token, String.eqb (rt_token_id token) asset_id && rt_eligible token) (rm_tokens market).

(** [engine/strategy/market_making/quote/RewardAwareQuoteConstraint.cpp:22-35] find_reward_market. *)
Definition find_reward_market (snapshot : RewardConfigSnapshot) (quote : QuoteIntent) : option RewardMarketConfig :=
  List.find (λ market,
    (negb (String.eqb (qi_asset_id quote) "") && token_matches market (qi_asset_id quote)) ||
    (negb (String.eqb (qi_market_id quote) "") && String.eqb (rm_condition_id market) (qi_market_id quote)))
    (rc_markets snapshot).

(** [engine/strategy/market_making/quote/RewardAwareQuoteConstraint.cpp:49-56] raise_opening_size: one side. *)
Definition raise_opening_leg (min_size_lots : Z) (has : bool) (leg : QuoteLeg) : QuoteLeg :=
  if has && negb (ql_risk_reducing leg) then leg <| ql_quantity_lots := Z.max (ql_quantity_lots leg) min_size_lots |> else leg.

(** [engine/strategy/market_making/quote/RewardAwareQuoteConstraint.cpp:42-57] raise_opening_size. *)
Definition raise_opening_size (quote : QuoteIntent) (min_size_lots : Z) : QuoteIntent :=
  if min_size_lots <=? 0 then quote
  else
    quote <| qi_bid := raise_opening_leg min_size_lots (qi_has_bid quote) (qi_bid quote) |>
      <| qi_ask := raise_opening_leg min_size_lots (qi_has_ask quote) (qi_ask quote) |>.

(** [engine/strategy/market_making/quote/RewardAwareQuoteConstraint.cpp:59-103] clamp_two_sided_spread: the two prices tried. *)
Definition reward_prices (fair : Z) (config : MarketMakingConfig) (max_spread_tick : Z) : Z * Z :=
  let clamp value := clamp_tick value (mc_min_price_tick config) (mc_max_price_tick config) in
  let half := Z.max 1 (Z.quot max_spread_tick 2) in
  let bid := clamp (fair -i half) in
  let ask := clamp (bid +i max_spread_tick) in
  if max_spread_tick <? ask -i bid then
    let ask := clamp (fair +i half) in
    (clamp (ask -i max_spread_tick), ask)
  else (bid, ask).

(** [engine/strategy/market_making/quote/RewardAwareQuoteConstraint.cpp:59-103] clamp_two_sided_spread; [None] when it fails. *)
Definition clamp_two_sided_spread (quote : QuoteIntent) (config : MarketMakingConfig) (max_spread_tick : Z) :
    option QuoteIntent :=
  if negb (qi_has_bid quote) || negb (qi_has_ask quote) || (max_spread_tick <=? 0) then Some quote
  else if ql_price_tick (qi_ask quote) -i ql_price_tick (qi_bid quote) <=? max_spread_tick then Some quote
  else
    let '(bid, ask) := reward_prices (qi_fair_value_tick quote) config max_spread_tick in
    if ask <=? bid then None
    else
      let bid_leg := (qi_bid quote) <| ql_price_tick := bid |> <| ql_edge_to_fair_tick := qi_fair_value_tick quote -i bid |> in
      let ask_leg := (qi_ask quote) <| ql_price_tick := ask |> <| ql_edge_to_fair_tick := ask -i qi_fair_value_tick quote |> in
      Some (quote <| qi_bid := bid_leg |> <| qi_ask := ask_leg |> <| qi_half_spread_tick := Z.quot (ask -i bid) 2 |>).

(** [engine/strategy/market_making/quote/RewardAwareQuoteConstraint.cpp:105-123] active_opening_sides_eligible. *)
Definition active_opening_sides_eligible (quote : QuoteIntent) (min_size_lots max_spread_tick : Z) : bool :=
  if qi_has_bid quote && negb (ql_risk_reducing (qi_bid quote)) && (ql_quantity_lots (qi_bid quote) <? min_size_lots) then false
  else if qi_has_ask quote && negb (ql_risk_reducing (qi_ask quote)) && (ql_quantity_lots (qi_ask quote) <? min_size_lots)
  then false
  else if qi_has_bid quote && qi_has_ask quote && (0 <? max_spread_tick) &&
          (max_spread_tick <? ql_price_tick (qi_ask quote) -i ql_price_tick (qi_bid quote)) then false
  else true.

(** [engine/strategy/market_making/quote/RewardAwareQuoteConstraint.cpp:127-182] apply: the spread the programme allows. *)
Definition reward_max_spread (config : MarketMakingConfig) (market : RewardMarketConfig) : Z :=
  if 0 <? rm_rewards_max_spread_tick market
  then Z.max 1 (rm_rewards_max_spread_tick market -i mc_reward_max_spread_tick_buffer config) else 0.

(** [engine/strategy/market_making/quote/RewardAwareQuoteConstraint.cpp:127-182] RewardAwareQuoteConstraint::apply; [None] when it fails. *)
Definition reward_apply (quote : QuoteIntent) (config : MarketMakingConfig) (reward_config : option RewardConfigSnapshot) :
    option QuoteIntent :=
  if negb (mc_reward_aware_quotes_enabled config) then Some quote
  else if is_unwind_quote quote && mc_reward_allow_unwind_exemption config
  then Some (quote <| qi_reward_reason := "reward_exempt_unwind" |>)
  else
    match reward_config with
    | None => Some (quote <| qi_reward_reason := "reward_config_missing" |>)
    | Some reward_config =>
        match find_reward_market reward_config quote with
        | None => Some (quote <| qi_reward_reason := "reward_market_missing" |>)
        | Some market =>
            let min_size := Z.max (rm_rewards_min_size_lots market) (mc_reward_min_size_lots_floor config) in
            let max_spread := reward_max_spread config market in
            let quote := quote <| qi_reward_config_present := true |> <| qi_reward_condition_id := rm_condition_id market |>
                           <| qi_reward_max_spread_tick := rm_rewards_max_spread_tick market |>
                           <| qi_reward_min_size_lots := min_size |> in
            match clamp_two_sided_spread (raise_opening_size quote min_size) config max_spread with
            | None => None
            | Some quote =>
                let eligible := active_opening_sides_eligible quote min_size max_spread in
                Some (quote <| qi_reward_eligible := eligible |>
                        <| qi_reward_reason := if eligible then "reward_eligible" else "reward_not_eligible" |>)
            end
        end
    end.

(** ** Building a quote *)

(** [engine/strategy/market_making/quote/QuoteEngine.cpp:12-20] quote_group_id. *)
Definition quote_group_id (strategy_id asset_index : Z) : Z := mix_u64 (mix_u64 fnv_offset strategy_id) asset_index.

(** The state the build works in: the input with its depth and configuration, once they are known to be there. *)
Record BuildContext := mkBuildContext {
  bx_input : QuoteBuildInput;
  bx_depth : MarketDepthView;
  bx_config : MarketMakingConfig
}.

Section Build.
  Context (ctx : BuildContext).
  Local Abbreviation input := (bx_input ctx).
  Local Abbreviation depth := (bx_depth ctx).
  Local Abbreviation config := (bx_config ctx).
  Local Abbreviation fair := (fv_fair_value_tick (qb_fair_value (bx_input ctx))).

(** [engine/strategy/market_making/quote/QuoteEngine.cpp:22-47] make_leg. *)
Definition make_leg (side : QuoteSide) (price_tick qty_lots : Z) (risk_reducing : bool) : QuoteLeg :=
  mkQuoteLeg (qb_market_id input) (qb_asset_id input) (qb_market_index input) (qb_asset_index input) side price_tick qty_lots
    fair (match side with QsBid => fair -i price_tick | QsAsk => price_tick -i fair end)
    risk_reducing risk_reducing risk_reducing (dv_book_version depth) (dv_snapshot_version_hash depth).

(** [engine/strategy/market_making/quote/QuoteEngine.cpp:49-55] best_bid_tick. *)
Definition best_bid_tick : Z := if (0 <? dv_bid_count depth)%nat then best_bid depth else 0.

(** [engine/strategy/market_making/quote/QuoteEngine.cpp:57-63] best_ask_tick. *)
Definition best_ask_tick : Z := if (0 <? dv_ask_count depth)%nat then best_ask depth else 0.

(** [engine/strategy/market_making/quote/QuoteEngine.cpp:65-71] midpoint_tick. *)
Definition midpoint_tick : Z :=
  if (0 <? best_bid_tick) && (0 <? best_ask_tick) && (best_bid_tick <=? best_ask_tick)
  then Z.quot (best_bid_tick +i best_ask_tick) 2 else 0.

(** [engine/strategy/market_making/quote/QuoteEngine.cpp:73-77] bid_reduces_inventory. *)
Definition build_bid_reduces : bool := qb_current_position_lots input <? mc_target_position_lots config.

(** [engine/strategy/market_making/quote/QuoteEngine.cpp:79-83] ask_reduces_inventory. *)
Definition build_ask_reduces : bool := mc_target_position_lots config <? qb_current_position_lots input.

(** [engine/strategy/market_making/quote/QuoteEngine.cpp:85-108] inventory_error_bps. *)
Definition inventory_error_bps : Z :=
  let error := qb_current_position_lots input -i mc_target_position_lots config in
  let denominator :=
    if 0 <=? error then Z.max 1 (mc_max_inventory_lots config -i mc_target_position_lots config)
    else Z.max 1 (mc_target_position_lots config -i mc_min_inventory_lots config) in
  Z.min 10000 (Z.quot (llabs error * 10000) denominator).

(** [engine/strategy/market_making/quote/QuoteEngine.cpp:110-116] inventory_excess_lots. *)
Definition inventory_excess_lots : Z := llabs (qb_current_position_lots input -i mc_target_position_lots config).

(** [engine/strategy/market_making/quote/QuoteEngine.cpp:118-140] reduce_qty_cap. *)
Definition reduce_qty_cap (side : QuoteSide) (forced_unwind : bool) : Z :=
  let current := qb_current_position_lots input in
  match side with
  | QsAsk =>
      if current <=? mc_target_position_lots config then 0
      else
        let floor := if forced_unwind || negb (mc_reduce_only_quote_to_target config)
                     then mc_min_inventory_lots config else mc_target_position_lots config in
        Z.max 0 (current -i floor)
  | QsBid =>
      if mc_target_position_lots config <=? current then 0
      else
        let ceiling := if forced_unwind || negb (mc_reduce_only_quote_to_target config)
                       then mc_max_inventory_lots config else mc_target_position_lots config in
        Z.max 0 (ceiling -i current)
  end.

(** [engine/strategy/market_making/quote/QuoteEngine.cpp:142-154] passive_join_ask_tick. *)
Definition passive_join_ask_tick : Z :=
  if best_ask_tick <=? 0 then 0
  else Z.max (mc_min_price_tick config) (best_ask_tick -i Z.max 1 (mc_passive_reduce_join_tick config)).

(** [engine/strategy/market_making/quote/QuoteEngine.cpp:156-168] passive_join_bid_tick. *)
Definition passive_join_bid_tick : Z :=
  if best_bid_tick <=? 0 then 0
  else Z.min (mc_max_price_tick config) (best_bid_tick +i Z.max 1 (mc_passive_reduce_join_tick config)).

(** [engine/strategy/market_making/quote/QuoteEngine.cpp:223-233] required_edge_tick. *)
Definition required_edge_tick : Z :=
  Z.max 0 (mc_min_quote_edge_tick config +i mc_fee_buffer_tick config +i mc_latency_buffer_tick config
           +i mc_adverse_selection_buffer_tick config).

(** [engine/strategy/market_making/quote/QuoteEngine.cpp:271-283] QuoteEngine::build: how urgently the inventory must go. *)
Definition forced_unwind : bool :=
  (0 <? mc_forced_unwind_position_bps config) && (mc_forced_unwind_position_bps config <=? inventory_error_bps).
Definition urgent_unwind : bool :=
  negb forced_unwind && (0 <? mc_urgent_reduce_excess_lots config) &&
  (mc_urgent_reduce_excess_lots config <=? inventory_excess_lots).
Definition passive_unwind : bool :=
  negb forced_unwind && negb urgent_unwind &&
  (((0 <? mc_passive_unwind_position_bps config) && (mc_passive_unwind_position_bps config <=? inventory_error_bps)) ||
   ((0 <? mc_passive_reduce_excess_lots config) && (mc_passive_reduce_excess_lots config <=? inventory_excess_lots))).
Definition unwinding : bool := passive_unwind || urgent_unwind || forced_unwind.

(** [engine/strategy/market_making/quote/QuoteEngine.cpp:287-289] QuoteEngine::build: [external_fair_opening_ok]. *)
Definition external_fair_opening_ok : bool :=
  negb (mc_require_external_fair_for_opening_quotes config) || (0 <? fv_external_fair_value_tick (qb_fair_value input)).

(** [engine/strategy/market_making/quote/QuoteEngine.cpp:291-324] QuoteEngine::build: the quote before its sides. *)
Definition quote_header : QuoteIntent :=
  quote_intent0
    <| qi_type := if forced_unwind then QtForcedUnwind
                  else if urgent_unwind || passive_unwind then QtPassiveUnwind else qb_intent_type input |>
    <| qi_strategy_id := mc_strategy_id config |>
    <| qi_quote_group_id := quote_group_id (mc_strategy_id config) (qb_asset_index input) |>
    <| qi_market_id := qb_market_id input |> <| qi_asset_id := qb_asset_id input |>
    <| qi_market_index := qb_market_index input |> <| qi_asset_index := qb_asset_index input |>
    <| qi_fair_value_tick := fair |> <| qi_asset_fair_tick := fair |>
    <| qi_canonical_yes_fair_tick := qb_canonical_yes_fair_tick input |>
    <| qi_canonical_yes_position_lots := qb_canonical_yes_position_lots input |>
    <| qi_target_canonical_yes_lots := qb_target_canonical_yes_lots input |>
    <| qi_edge_tick := if 0 <? qb_canonical_yes_fair_tick input then qb_canonical_yes_fair_tick input -i fair else 0 |>
    <| qi_half_spread_tick := sp_half_spread_tick (qb_spread input) |>
    <| qi_inventory_skew_tick := qb_inventory_skew_tick input |>
    <| qi_target_position_lots := mc_target_position_lots config |>
    <| qi_current_position_lots := qb_current_position_lots input |>
    <| qi_created_ts_ns := qb_now_ns input |>
    <| qi_expires_at_ns := wrap_u64 (qb_now_ns input + mc_quote_ttl_ns config) |>
    <| qi_snapshot_version_hash := dv_snapshot_version_hash depth |>
    <| qi_oracle_artifact_hash := mc_oracle_artifact_hash config |>
    <| qi_policy_hash := mc_policy_hash config |>
    <| qi_reason := if forced_unwind then "forced_unwind_quote"
                    else if urgent_unwind then "urgent_unwind_quote"
                    else if passive_unwind then "passive_unwind_quote" else "reservation_fair_quote" |>.

(** [engine/strategy/market_making/quote/QuoteEngine.cpp:338-369] QuoteEngine::build: the price of a bid. *)
Definition final_bid_tick (bid_tick : Z) : Z :=
  let tick :=
    if forced_unwind && build_bid_reduces && (0 <? dv_ask_count depth)%nat && (0 <? best_ask depth) then best_ask depth
    else if urgent_unwind && build_bid_reduces then
      let mid := midpoint_tick in
      let tick := if 0 <? mid then Z.max bid_tick mid else bid_tick in
      if 0 <? mc_urgent_unwind_aggression_tick config
      then Z.min (mc_max_price_tick config) (tick +i mc_urgent_unwind_aggression_tick config) else tick
    else if (passive_unwind || build_bid_reduces) && build_bid_reduces then
      if 0 <? passive_join_bid_tick then Z.max bid_tick passive_join_bid_tick else bid_tick
    else bid_tick in
  if passive_unwind && build_bid_reduces && (0 <? mc_passive_unwind_aggression_tick config)
  then Z.min (mc_max_price_tick config) (tick +i mc_passive_unwind_aggression_tick config) else tick.

(** [engine/strategy/market_making/quote/QuoteEngine.cpp:409-440] QuoteEngine::build: the price of an ask. *)
Definition final_ask_tick (ask_tick : Z) : Z :=
  let tick :=
    if forced_unwind && build_ask_reduces && (0 <? dv_bid_count depth)%nat && (0 <? best_bid depth) then best_bid depth
    else if urgent_unwind && build_ask_reduces then
      let mid := midpoint_tick in
      let tick := if 0 <? mid then Z.min ask_tick mid else ask_tick in
      if 0 <? mc_urgent_unwind_aggression_tick config
      then Z.max (mc_min_price_tick config) (tick -i mc_urgent_unwind_aggression_tick config) else tick
    else if (passive_unwind || build_ask_reduces) && build_ask_reduces then
      if 0 <? passive_join_ask_tick then Z.min ask_tick passive_join_ask_tick else ask_tick
    else ask_tick in
  if passive_unwind && build_ask_reduces && (0 <? mc_passive_unwind_aggression_tick config)
  then Z.max (mc_min_price_tick config) (tick -i mc_passive_unwind_aggression_tick config) else tick.

(** [engine/strategy/market_making/quote/QuoteEngine.cpp:331-336] QuoteEngine::build: whether a side may be quoted. *)
Definition side_allowed (reduces : bool) (opening_edge : Z) (away_from_target : bool) : bool :=
  (negb forced_unwind && negb urgent_unwind && negb passive_unwind && (external_fair_opening_ok || reduces) &&
   (required_edge_tick <=? opening_edge)) ||
  (away_from_target && unwinding).

(** [engine/strategy/market_making/quote/QuoteEngine.cpp:370-394] QuoteEngine::build: the leg of a side, if any is left to quote. *)
Definition finish_side (side : QuoteSide) (tick size cap : Z) (reduces : bool) : option QuoteLeg :=
  let qty := if reduces then Z.min size cap else size in
  let tick := if qty <=? 0 then 0 else tick in
  if 0 <? tick
  then Some (make_leg side (clamp_tick tick (mc_min_price_tick config) (mc_max_price_tick config)) qty reduces)
  else None.

(** [engine/strategy/market_making/quote/QuoteEngine.cpp:326-396] QuoteEngine::build: the bid. *)
Definition build_bid (bid_tick : Z) : option QuoteLeg :=
  let position_error := qb_current_position_lots input -i mc_target_position_lots config in
  if mc_enable_bid_quotes config && (0 <? qz_bid_qty_lots (qb_size input)) && (mc_min_price_tick config <=? bid_tick) &&
     side_allowed build_bid_reduces (fair -i bid_tick) (position_error <? 0)
  then finish_side QsBid (final_bid_tick bid_tick) (qz_bid_qty_lots (qb_size input)) (reduce_qty_cap QsBid forced_unwind)
         build_bid_reduces
  else None.

(** [engine/strategy/market_making/quote/QuoteEngine.cpp:397-467] QuoteEngine::build: the ask. *)
Definition build_ask (ask_tick : Z) : option QuoteLeg :=
  let position_error := qb_current_position_lots input -i mc_target_position_lots config in
  if mc_enable_ask_quotes config && (0 <? qz_ask_qty_lots (qb_size input)) && (ask_tick <=? mc_max_price_tick config) &&
     side_allowed build_ask_reduces (ask_tick -i fair) (0 <? position_error)
  then finish_side QsAsk (final_ask_tick ask_tick) (qz_ask_qty_lots (qb_size input)) (reduce_qty_cap QsAsk forced_unwind)
         build_ask_reduces
  else None.

End Build.

(** [engine/strategy/market_making/quote/QuoteEngine.cpp:170-188] classify_risk_mode. *)
Definition classify_risk_mode (quote : QuoteIntent) : QuoteIntentRiskMode :=
  let bid_reducing := qi_has_bid quote && ql_risk_reducing (qi_bid quote) in
  let ask_reducing := qi_has_ask quote && ql_risk_reducing (qi_ask quote) in
  let bid_opening := qi_has_bid quote && negb (ql_risk_reducing (qi_bid quote)) in
  let ask_opening := qi_has_ask quote && negb (ql_risk_reducing (qi_ask quote)) in
  if is_forced quote && (bid_reducing || ask_reducing) && negb bid_opening && negb ask_opening then QmForcedReduce
  else if (bid_reducing || ask_reducing) && negb bid_opening && negb ask_opening then QmReduceOnly
  else if (bid_reducing || ask_reducing) && (bid_opening || ask_opening) then QmMixed
  else QmOpening.

(** [engine/strategy/market_making/quote/QuoteEngine.cpp:190-193] clear_bid. *)
Definition clear_bid (quote : QuoteIntent) : QuoteIntent := quote <| qi_has_bid := false |> <| qi_bid := quote_leg0 |>.

(** [engine/strategy/market_making/quote/QuoteEngine.cpp:195-198] clear_ask. *)
Definition clear_ask (quote : QuoteIntent) : QuoteIntent := quote <| qi_has_ask := false |> <| qi_ask := quote_leg0 |>.

(** [engine/strategy/market_making/quote/QuoteEngine.cpp:200-221] resolve_self_crossed_mixed_quote; [None] when it fails. *)
Definition resolve_self_crossed_mixed_quote (quote : QuoteIntent) : option QuoteIntent :=
  if negb (qi_has_bid quote) || negb (qi_has_ask quote) || (ql_price_tick (qi_bid quote) <? ql_price_tick (qi_ask quote))
  then Some quote
  else
    let bid_reducing := ql_risk_reducing (qi_bid quote) in
    let ask_reducing := ql_risk_reducing (qi_ask quote) in
    if bid_reducing && negb ask_reducing then Some (clear_ask quote <| qi_reason := "reduce_only_bid_self_cross_resolved" |>)
    else if ask_reducing && negb bid_reducing
    then Some (clear_bid quote <| qi_reason := "reduce_only_ask_self_cross_resolved" |>)
    else None.

(** [engine/strategy/market_making/quote/QuoteEngine.cpp:252-266] QuoteEngine::build: the prices the sides start from. *)
Definition start_prices (ctx : BuildContext) : option (Z * Z) :=
  let input := bx_input ctx in
  let fair := fv_fair_value_tick (qb_fair_value input) in
  let reservation_tick := fair -i qb_inventory_skew_tick input in
  let half := sp_half_spread_tick (qb_spread input) in
  let prices := clamp_quote_prices (reservation_tick -i half) (reservation_tick +i half) (bx_config ctx) in
  if negb (pc_ok prices) then None
  else
    Some (if build_bid_reduces ctx then pc_bid_tick prices else Z.min (pc_bid_tick prices) (fair -i 1),
          if build_ask_reduces ctx then pc_ask_tick prices else Z.max (pc_ask_tick prices) (fair +i 1)).

(** What the two blocks do with the legs they built: a side that was quoted is set on the quote. *)
Definition with_bid (leg : option QuoteLeg) (quote : QuoteIntent) : QuoteIntent :=
  match leg with Some leg => quote <| qi_has_bid := true |> <| qi_bid := leg |> | None => quote end.
Definition with_ask (leg : option QuoteLeg) (quote : QuoteIntent) : QuoteIntent :=
  match leg with Some leg => quote <| qi_has_ask := true |> <| qi_ask := leg |> | None => quote end.

(** [engine/strategy/market_making/quote/QuoteEngine.cpp:486-488] QuoteEngine::build: mode, hash and id. *)
Definition finish_quote (quote : QuoteIntent) : QuoteIntent :=
  let quote := quote <| qi_risk_mode := classify_risk_mode quote |> in
  let quote := quote <| qi_idempotency_hash := compute_quote_intent_hash quote |> in
  quote <| qi_quote_intent_id := qi_idempotency_hash quote |>.

(** [engine/strategy/market_making/quote/QuoteEngine.h:37-41] QuoteBuildResult: the reason of a failure or the quote. *)
Definition QuoteBuildResult : Type := string + QuoteIntent.

(** [engine/strategy/market_making/quote/QuoteEngine.cpp:252-491] QuoteEngine::build: once the inputs are there. *)
Definition build_from (ctx : BuildContext) : QuoteBuildResult :=
  match start_prices ctx with
  | None => inl "crossed or invalid quote prices"%string
  | Some (bid_tick, ask_tick) =>
      let quote := with_ask (build_ask ctx ask_tick) (with_bid (build_bid ctx bid_tick) (quote_header ctx)) in
      match resolve_self_crossed_mixed_quote quote with
      | None => inl "crossed or invalid quote prices"%string
      | Some quote =>
          if negb (qi_has_bid quote) && negb (qi_has_ask quote) then inl "no quote sides"%string
          else
            match reward_apply quote (bx_config ctx) (qb_reward_config (bx_input ctx)) with
            | None => inl "reward quote constraint failed"%string
            | Some quote =>
                match resolve_self_crossed_mixed_quote quote with
                | None => inl "crossed or invalid quote prices"%string
                | Some quote => inr (finish_quote quote)
                end
            end
      end
  end.

(** [engine/strategy/market_making/quote/QuoteEngine.cpp:237-492] QuoteEngine::build. *)
Definition quote_build (input : QuoteBuildInput) : QuoteBuildResult :=
  match qb_depth input, qb_config input with
  | Some depth, Some config =>
      if negb (fv_ok (qb_fair_value input)) then inl "fair value unavailable"%string
      else if negb (qz_ok (qb_size input)) then inl (qz_reason (qb_size input))
      else build_from (mkBuildContext input depth config)
  | _, _ => inl "missing depth or config"%string
  end.

(** ** What a quote promises

    The bounds below keep the arithmetic of the build from wrapping. *)
Record BuildSane (ctx : BuildContext) : Prop := {
  bs_min : 0 < mc_min_price_tick (bx_config ctx);
  bs_max : mc_min_price_tick (bx_config ctx) <= mc_max_price_tick (bx_config ctx) <= 2 ^ 40;
  bs_fair : ticks_ok (fv_fair_value_tick (qb_fair_value (bx_input ctx)));
  bs_position : lots_ok (qb_current_position_lots (bx_input ctx));
  bs_target : lots_ok (mc_target_position_lots (bx_config ctx));
  bs_intent : qb_intent_type (bx_input ctx) = QtPlaceQuote ∨ qb_intent_type (bx_input ctx) = QtReplaceQuote
}.

(** A leg on [side] of the quote: priced within the configured band, a positive
    size, marked as reducing exactly when it brings the position towards the
    target, which it must when the quote unwinds, and then within the cap; only a
    reward programme can raise its size over what the size model allowed. *)
Definition size_of (ctx : BuildContext) (side : QuoteSide) : Z :=
  match side with
  | QsBid => qz_bid_qty_lots (qb_size (bx_input ctx))
  | QsAsk => qz_ask_qty_lots (qb_size (bx_input ctx))
  end.

Record LegOk (ctx : BuildContext) (side : QuoteSide) (leg : QuoteLeg) : Prop := {
  lo_price : mc_min_price_tick (bx_config ctx) <= ql_price_tick leg <= mc_max_price_tick (bx_config ctx);
  lo_qty : 0 < ql_quantity_lots leg;
  lo_reducing : ql_risk_reducing leg = match side with QsBid => build_bid_reduces ctx | QsAsk => build_ask_reduces ctx end;
  lo_unwind : unwinding ctx = true → ql_risk_reducing leg = true;
  lo_cap : ql_risk_reducing leg = true → ql_quantity_lots leg <= reduce_qty_cap ctx side (forced_unwind ctx);
  lo_size : mc_reward_aware_quotes_enabled (bx_config ctx) = false → ql_quantity_lots leg <= size_of ctx side
}.

(** An opening leg is priced strictly on its own side of the fair value. *)
Definition opens_away (side : QuoteSide) (fair : Z) (leg : QuoteLeg) : Prop :=
  ql_risk_reducing leg = false →
  match side with QsBid => ql_price_tick leg < fair | QsAsk => fair < ql_price_tick leg end.

Definition uncrossed (quote : QuoteIntent) : Prop :=
  qi_has_bid quote = true → qi_has_ask quote = true → ql_price_tick (qi_bid quote) < ql_price_tick (qi_ask quote).

Record Draft (ctx : BuildContext) (away : bool) (quote : QuoteIntent) : Prop := {
  dr_type : qi_type quote = qi_type (quote_header ctx);
  dr_fair : qi_fair_value_tick quote = fv_fair_value_tick (qb_fair_value (bx_input ctx));
  dr_target : qi_target_position_lots quote = mc_target_position_lots (bx_config ctx);
  dr_bid : qi_has_bid quote = true → LegOk ctx QsBid (qi_bid quote);
  dr_ask : qi_has_ask quote = true → LegOk ctx QsAsk (qi_ask quote);
  dr_away : away = true →
    (qi_has_bid quote = true → opens_away QsBid (qi_fair_value_tick quote) (qi_bid quote)) ∧
    (qi_has_ask quote = true → opens_away QsAsk (qi_fair_value_tick quote) (qi_ask quote))
}.

Lemma clamp_tick_range v lo hi : lo <= hi → lo <= clamp_tick v lo hi <= hi.
Proof. unfold clamp_tick. lia. Qed.

Lemma clamp_tick_id v lo hi : lo <= v <= hi → clamp_tick v lo hi = v.
Proof. unfold clamp_tick. lia. Qed.

(** Only reducing sides are priced by the inventory. *)
Lemma final_bid_opening ctx tick : build_bid_reduces ctx = false → final_bid_tick ctx tick = tick.
Proof. intros H. unfold final_bid_tick. by rewrite H, !andb_false_r. Qed.
Lemma final_ask_opening ctx tick : build_ask_reduces ctx = false → final_ask_tick ctx tick = tick.
Proof. intros H. unfold final_ask_tick. by rewrite H, !andb_false_r. Qed.

Section Sane.
Context (ctx : BuildContext).
Hypothesis sane : BuildSane ctx.
Local Abbreviation input := (bx_input ctx).
Local Abbreviation config := (bx_config ctx).
Local Abbreviation fair := (fv_fair_value_tick (qb_fair_value (bx_input ctx))).

Lemma position_error_exact :
  qb_current_position_lots input -i mc_target_position_lots config
  = qb_current_position_lots input - mc_target_position_lots config.
Proof using sane. destruct sane. unfold lots_ok in *. apply wrap_i64_id. rlia. Qed.

Lemma start_prices_spec bid ask : start_prices ctx = Some (bid, ask) →
  bid <= mc_max_price_tick config ∧ mc_min_price_tick config <= ask ∧
  (build_bid_reduces ctx = false → bid < fair) ∧ (build_ask_reduces ctx = false → fair < ask).
Proof using sane.
  destruct sane as [Hmin Hmax Hf _ _ _]. unfold ticks_ok in Hf. unfold start_prices, clamp_quote_prices. cbv zeta.
  set (b := clamp_tick _ _ _). set (a := clamp_tick (_ +i _) _ _). cbn [pc_ok pc_bid_tick pc_ask_tick].
  destruct (negb _); [done|]. intros [<- <-]%Some_inj%pair_eq.
  assert (mc_min_price_tick config <= b <= mc_max_price_tick config) by (apply clamp_tick_range; lia).
  assert (mc_min_price_tick config <= a <= mc_max_price_tick config) by (apply clamp_tick_range; lia).
  assert (Hw : fair -i 1 = fair - 1 ∧ fair +i 1 = fair + 1) by (rewrite !wrap_i64_id by rlia; done).
  destruct Hw as [-> ->]. destruct (build_bid_reduces ctx), (build_ask_reduces ctx); repeat split; intros; try done; lia.
Qed.

Lemma side_allowed_spec reduces edge err : (err = true → reduces = true) →
  side_allowed ctx reduces edge err = true →
  (unwinding ctx = true → reduces = true) ∧ (reduces = false → required_edge_tick ctx <= edge).
Proof using Type.
  unfold side_allowed, unwinding. intros Herr H.
  destruct (forced_unwind ctx), (urgent_unwind ctx), (passive_unwind ctx), reduces, err; cbn in *; split; intros; try done; lia.
Qed.

Lemma finish_side_spec side tick size cap reduces leg :
  (match side with QsBid => build_bid_reduces ctx | QsAsk => build_ask_reduces ctx end) = reduces →
  cap = reduce_qty_cap ctx side (forced_unwind ctx) → size = size_of ctx side →
  (unwinding ctx = true → reduces = true) →
  finish_side ctx side tick size cap reduces = Some leg →
  LegOk ctx side leg ∧ ql_risk_reducing leg = reduces ∧
  ql_price_tick leg = clamp_tick tick (mc_min_price_tick config) (mc_max_price_tick config).
Proof using sane.
  intros Hr -> Hsize Hu. unfold finish_side. cbv zeta. set (qty := if reduces then _ else size).
  destruct (Z.leb_spec qty 0) as [Hq|Hq]; [done|].
  destruct (Z.ltb_spec 0 tick); [|done]. intros <-%Some_inj. unfold make_leg. cbn.
  split; [|done]. split; cbn; try done.
  - apply clamp_tick_range. destruct sane. lia.
  - subst qty. intros ->. lia.
  - subst qty. intros _. destruct reduces; lia.
Qed.

Lemma build_bid_spec tick leg :
  tick <= mc_max_price_tick config → (build_bid_reduces ctx = false → tick < fair) →
  build_bid ctx tick = Some leg → LegOk ctx QsBid leg ∧ opens_away QsBid fair leg.
Proof using sane.
  intros Hmax Hfair. unfold build_bid. cbv zeta. rewrite position_error_exact.
  match goal with |- (if ?b then _ else _) = _ → _ => destruct b eqn:Hb; [|done] end. breflect.
  match goal with H : side_allowed _ _ _ _ = true |- _ => apply side_allowed_spec in H as [Hu _] end.
  2:{ unfold build_bid_reduces. lia. }
  intros (Hleg & Hred & Hprice)%finish_side_spec; try done. split; [done|]. unfold opens_away. rewrite Hred, Hprice.
  intros Hop. rewrite final_bid_opening by done. rewrite clamp_tick_id by lia. by apply Hfair.
Qed.

Lemma build_ask_spec tick leg :
  mc_min_price_tick config <= tick → (build_ask_reduces ctx = false → fair < tick) →
  build_ask ctx tick = Some leg → LegOk ctx QsAsk leg ∧ opens_away QsAsk fair leg.
Proof using sane.
  intros Hmax Hfair. unfold build_ask. cbv zeta. rewrite position_error_exact.
  match goal with |- (if ?b then _ else _) = _ → _ => destruct b eqn:Hb; [|done] end. breflect.
  match goal with H : side_allowed _ _ _ _ = true |- _ => apply side_allowed_spec in H as [Hu _] end.
  2:{ unfold build_ask_reduces. lia. }
  intros (Hleg & Hred & Hprice)%finish_side_spec; try done. split; [done|]. unfold opens_away. rewrite Hred, Hprice.
  intros Hop. rewrite final_ask_opening by done. rewrite clamp_tick_id by lia. by apply Hfair.
Qed.

Lemma draft_start bid ask : start_prices ctx = Some (bid, ask) →
  Draft ctx true (with_ask (build_ask ctx ask) (with_bid (build_bid ctx bid) (quote_header ctx))).
Proof using sane.
  intros (Hb & Ha & Hbf & Haf)%start_prices_spec.
  destruct (build_bid ctx bid) as [b|] eqn:Eb; [apply build_bid_spec in Eb as [? ?]; try done|];
    (destruct (build_ask ctx ask) as [a|] eqn:Ea; [apply build_ask_spec in Ea as [? ?]; try done|]);
    split; cbn; try done; by split.
Qed.

(** Resolving a crossed quote drops a side or nothing. *)
Lemma resolve_draft away quote quote' : Draft ctx away quote → resolve_self_crossed_mixed_quote quote = Some quote' →
  Draft ctx away quote' ∧ uncrossed quote'.
Proof using Type.
  intros Hd. unfold resolve_self_crossed_mixed_quote, uncrossed.
  destruct (qi_has_bid quote) eqn:Eb, (qi_has_ask quote) eqn:Ea; cbn [negb orb].
  2-4: intros <-%Some_inj; split; [done|]; congruence.
  destruct (Z.ltb_spec (ql_price_tick (qi_bid quote)) (ql_price_tick (qi_ask quote))); [intros <-%Some_inj; by split|].
  destruct Hd as [H1 H2 H3 H4 H5 H6]. specialize (H4 Eb). specialize (H5 Ea).
  destruct (ql_risk_reducing (qi_bid quote)) eqn:Erb, (ql_risk_reducing (qi_ask quote)) eqn:Era; cbn [andb negb]; try done.
  all: intros <-%Some_inj; split; [split|]; cbn; try done; intros Haway; specialize (H6 Haway) as [H6 H7]; split; try done; auto.
Qed.

Lemma raise_leg_ok side min_size has leg : mc_reward_aware_quotes_enabled config = true → LegOk ctx side leg → LegOk ctx side (raise_opening_leg min_size has leg).
Proof using Type.
  intros Hen Hl. unfold raise_opening_leg. destruct has; [|done]. destruct (ql_risk_reducing leg) eqn:E; [done|].
  destruct Hl as [L1 L2 L3 L4 L5 L6].
  split; try done; [cbn; lia | intros Hr; change (ql_risk_reducing leg = true) in Hr; congruence | congruence].
Qed.

Lemma raise_leg_away side fair' min_size has leg :
  opens_away side fair' leg → opens_away side fair' (raise_opening_leg min_size has leg).
Proof using Type.
  intros H. unfold raise_opening_leg. by destruct (has && negb (ql_risk_reducing leg)).
Qed.

Lemma raise_draft away quote min_size : mc_reward_aware_quotes_enabled config = true → Draft ctx away quote → Draft ctx away (raise_opening_size quote min_size).
Proof using Type.
  intros Hen Hd. unfold raise_opening_size. destruct (min_size <=? 0); [done|].
  destruct Hd as [H1 H2 H3 H4 H5 H6]. split; try done.
  - intros Hb. by apply raise_leg_ok, H4.
  - intros Ha. by apply raise_leg_ok, H5.
  - intros Haway. specialize (H6 Haway) as [H6 H7]. split; intros Hs; apply raise_leg_away; auto.
Qed.

(** The reward spread is met around the fair value: the second pair of prices is never needed. *)
Lemma reward_prices_spec max_spread : 0 < max_spread <= 2 ^ 41 →
  let '(bid, ask) := reward_prices fair config max_spread in
  mc_min_price_tick config <= bid <= mc_max_price_tick config ∧
  mc_min_price_tick config <= ask <= mc_max_price_tick config ∧ ask - bid <= max_spread ∧
  (mc_min_price_tick config < fair → bid < fair) ∧
  (1 < max_spread → fair < mc_max_price_tick config → fair < ask).
Proof using sane.
  destruct sane as [Hmin Hmax Hf _ _ _]. unfold ticks_ok in Hf. intros Hms. unfold reward_prices. cbv zeta.
  set (half := Z.max 1 (Z.quot max_spread 2)).
  assert (Hhalf : 1 <= half ∧ (1 < max_spread → half < max_spread) ∧ half <= 2 ^ 41).
  { subst half. rewrite Z.quot_div_nonneg by lia. pose proof (Z.div_lt_upper_bound max_spread 2 max_spread).
    pose proof (Z.div_lt max_spread 2). lia. }
  clearbody half. rewrite (wrap_i64_id (fair - half)) by rlia.
  set (b := clamp_tick (fair - half) _ _).
  assert (Hb : mc_min_price_tick config <= b <= mc_max_price_tick config) by (apply clamp_tick_range; lia).
  rewrite (wrap_i64_id (b + max_spread)) by rlia.
  set (a := clamp_tick (b + max_spread) _ _).
  assert (Ha : mc_min_price_tick config <= a <= mc_max_price_tick config) by (apply clamp_tick_range; lia).
  rewrite (wrap_i64_id (a - b)) by rlia.
  assert (Hspread : a - b <= max_spread) by (unfold a, clamp_tick; lia).
  destruct (Z.ltb_spec max_spread (a - b)); [lia|]. unfold a, b, clamp_tick in *. repeat split; try done; lia.
Qed.

Lemma clamp_spread_draft away quote quote' max_spread : Draft ctx away quote → max_spread ≠ 1 ∨ away = false →
  clamp_two_sided_spread quote config max_spread = Some quote' →
  Draft ctx away quote' ∧ (0 < max_spread → qi_has_bid quote' = true → qi_has_ask quote' = true →
    ql_price_tick (qi_ask quote') - ql_price_tick (qi_bid quote') <= max_spread).
Proof using sane.
  intros Hd Hone. unfold clamp_two_sided_spread.
  destruct (qi_has_bid quote) eqn:Eb, (qi_has_ask quote) eqn:Ea; cbn [negb orb].
  2-4: intros <-%Some_inj; split; [done|]; congruence.
  destruct (Z.leb_spec max_spread 0) as [Hle|Hle]; [intros <-%Some_inj; split; [done|lia]|].
  destruct Hd as [H1 H2 H3 H4 H5 H6]. specialize (H4 Eb). specialize (H5 Ea). specialize (reward_prices_spec max_spread).
  pose proof (lo_price _ _ _ H4) as Hpb. pose proof (lo_price _ _ _ H5) as Hpa. destruct sane as [Hmin Hmax Hf _ _ _].
  rewrite wrap_i64_id by rlia.
  destruct (Z.leb_spec (ql_price_tick (qi_ask quote) - ql_price_tick (qi_bid quote)) max_spread) as [Hw|Hw].
  { intros _ <-%Some_inj. by split; [split|]. }
  rewrite H2. destruct (reward_prices fair config max_spread) as [bid ask]. intros (Hrb & Hra & Hrs & Hbf & Haf); [lia|].
  destruct (ask <=? bid); [done|]. intros <-%Some_inj. split; [split|]; cbn; try done.
  - intros _. destruct H4. by split.
  - intros _. destruct H5. by split.
  - intros Haway. specialize (H6 Haway) as [H6 H7]. specialize (H6 Eb). specialize (H7 Ea).
    rewrite H2 in H6, H7. destruct Hone as [Hone|]; [|congruence]. unfold opens_away in *.
    split; intros _ Hop.
    + specialize (H6 Hop). assert (Hlt : bid < fair) by (apply Hbf; lia). rewrite <- H2 in Hlt. exact Hlt.
    + specialize (H7 Hop). assert (Hlt : fair < ask) by (apply Haf; lia). rewrite <- H2 in Hlt. exact Hlt.
Qed.
End Sane.

(** A quote that only differs in its reward fields keeps its promises. *)
Lemma draft_same_sides ctx away q q' : Draft ctx away q →
  qi_type q' = qi_type q → qi_fair_value_tick q' = qi_fair_value_tick q →
  qi_target_position_lots q' = qi_target_position_lots q → qi_has_bid q' = qi_has_bid q → qi_has_ask q' = qi_has_ask q →
  qi_bid q' = qi_bid q → qi_ask q' = qi_ask q → Draft ctx away q'.
Proof. intros [] E1 E2 E3 E4 E5 E6 E7. split; rewrite ?E1, ?E2, ?E3, ?E4, ?E5, ?E6, ?E7; done. Qed.

Definition reward_spread_of (ctx : BuildContext) (market : RewardMarketConfig) : Z := reward_max_spread (bx_config ctx) market.

(** No market of the reward programme narrows the spread to a single tick. *)
Definition no_tick_spread (ctx : BuildContext) : Prop :=
  ∀ snapshot market, qb_reward_config (bx_input ctx) = Some snapshot → market ∈ rc_markets snapshot →
    reward_spread_of ctx market ≠ 1.

Lemma reward_draft ctx away quote quote' : BuildSane ctx → Draft ctx away quote → no_tick_spread ctx ∨ away = false →
  reward_apply quote (bx_config ctx) (qb_reward_config (bx_input ctx)) = Some quote' → Draft ctx away quote'.
Proof.
  intros Hs Hd Hone. unfold reward_apply.
  destruct (mc_reward_aware_quotes_enabled (bx_config ctx)) eqn:Hen; cbn [negb]; [|by intros <-%Some_inj].
  destruct (is_unwind_quote quote && _).
  { intros <-%Some_inj. by eapply draft_same_sides. }
  destruct (qb_reward_config (bx_input ctx)) as [snapshot|] eqn:Es; [|intros <-%Some_inj; by eapply draft_same_sides].
  destruct (find_reward_market snapshot quote) as [market|] eqn:Em; [|intros <-%Some_inj; by eapply draft_same_sides].
  cbv zeta. set (q1 := quote <| qi_reward_config_present := true |> <| qi_reward_condition_id := _ |>
    <| qi_reward_max_spread_tick := _ |> <| qi_reward_min_size_lots := _ |>).
  assert (H1 : Draft ctx away q1) by (by eapply draft_same_sides). clearbody q1.
  set (m := Z.max _ _). pose proof (raise_draft ctx away q1 m Hen H1) as H2.
  destruct (clamp_two_sided_spread _ _ _) as [q2|] eqn:Ec; [|done]. intros <-%Some_inj.
  apply (clamp_spread_draft ctx Hs away) in Ec as [H3 _]; [by eapply draft_same_sides|done|].
  destruct Hone as [Hone|]; [left|by right].
  apply (Hone snapshot); [done|]. apply List.find_some in Em as [Em _]. by apply list_elem_of_In.
Qed.

Lemma built_draft ctx away quote : BuildSane ctx → no_tick_spread ctx ∨ away = false → build_from ctx = inr quote →
  Draft ctx away quote ∧ uncrossed quote.
Proof.
  intros Hs Hone. unfold build_from. destruct (start_prices ctx) as [[b a]|] eqn:Ep; [|done].
  pose proof (draft_start ctx Hs b a Ep) as Hd. set (q0 := with_ask _ _) in *. clearbody q0.
  destruct (resolve_self_crossed_mixed_quote q0) as [q1|] eqn:E1; [|done].
  apply (resolve_draft ctx true) in E1 as [Hd1 _]; [|done].
  destruct (negb (qi_has_bid q1) && negb (qi_has_ask q1)) eqn:Hsides; [done|].
  assert (Hd1' : Draft ctx away q1).
  { destruct Hd1. split; try done. intros _. by auto. }
  destruct (reward_apply q1 _ _) as [q2|] eqn:E2; [|done]. apply (reward_draft ctx away) in E2 as Hd2; [|done..].
  destruct (resolve_self_crossed_mixed_quote q2) as [q3|] eqn:E3; [|done].
  apply (resolve_draft ctx away) in E3 as [Hd3 Hu]; [|done].
  intros [= <-]. split; [by eapply draft_same_sides | done].
Qed.

Definition has_side (quote : QuoteIntent) : Prop := qi_has_bid quote = true ∨ qi_has_ask quote = true.

Lemma resolve_has_side quote quote' : has_side quote → resolve_self_crossed_mixed_quote quote = Some quote' → has_side quote'.
Proof.
  unfold has_side, resolve_self_crossed_mixed_quote. intros Hs.
  destruct (qi_has_bid quote) eqn:Eb, (qi_has_ask quote) eqn:Ea; cbn [negb orb].
  2-4: intros <-%Some_inj; rewrite ?Eb, ?Ea; destruct Hs; auto.
  destruct (_ <? _); [intros <-%Some_inj; rewrite Eb; auto|].
  destruct (ql_risk_reducing (qi_bid quote)), (ql_risk_reducing (qi_ask quote)); cbn [andb negb]; try done;
    intros <-%Some_inj; cbn; auto.
Qed.

Lemma clamp_spread_has_side quote config max_spread quote' :
  clamp_two_sided_spread quote config max_spread = Some quote' → has_side quote → has_side quote'.
Proof.
  unfold clamp_two_sided_spread. destruct (_ || _); [by intros <-%Some_inj|]. destruct (_ <=? _); [by intros <-%Some_inj|].
  destruct (reward_prices _ _ _) as [b a]. destruct (_ <=? _); [done|]. by intros <-%Some_inj.
Qed.

Lemma reward_has_side quote config rewards quote' :
  reward_apply quote config rewards = Some quote' → has_side quote → has_side quote'.
Proof.
  unfold reward_apply. destruct (negb _); [by intros <-%Some_inj|]. destruct (_ && _); [by intros <-%Some_inj|].
  destruct rewards as [snapshot|]; [|by intros <-%Some_inj].
  destruct (find_reward_market _ _) as [market|]; [|by intros <-%Some_inj]. cbv zeta.
  destruct (clamp_two_sided_spread _ _ _) as [q2|] eqn:Ec; [|done]. intros <-%Some_inj Hs.
  apply clamp_spread_has_side in Ec; [done|]. unfold raise_opening_size. by destruct (_ <=? 0).
Qed.

Lemma built_has_side ctx quote : build_from ctx = inr quote → has_side quote.
Proof.
  unfold build_from. destruct (start_prices ctx) as [[b a]|]; [|done]. set (q0 := with_ask _ _). clearbody q0.
  destruct (resolve_self_crossed_mixed_quote q0) as [q1|]; [|done].
  destruct (negb (qi_has_bid q1) && negb (qi_has_ask q1)) eqn:Hsides; [done|].
  assert (Hs1 : has_side q1) by (unfold has_side; lia).
  destruct (reward_apply q1 _ _) as [q2|] eqn:E2; [|done]. apply reward_has_side in E2; [|done].
  destruct (resolve_self_crossed_mixed_quote q2) as [q3|] eqn:E3; [|done].
  apply resolve_has_side in E3; [|done]. intros [= <-]. exact E3.
Qed.

Lemma quote_build_inr input depth config quote : qb_depth input = Some depth → qb_config input = Some config →
  quote_build input = inr quote → build_from (mkBuildContext input depth config) = inr quote.
Proof. unfold quote_build. intros -> ->. destruct (negb _); [done|]. by destruct (negb _). Qed.

(** A quote is for the asset of its input. *)
Lemma resolve_asset quote quote' : resolve_self_crossed_mixed_quote quote = Some quote' →
  qi_asset_index quote' = qi_asset_index quote.
Proof.
  unfold resolve_self_crossed_mixed_quote. destruct (_ || _); [by intros <-%Some_inj|].
  destruct (ql_risk_reducing (qi_bid quote)), (ql_risk_reducing (qi_ask quote)); cbn [andb negb];
    try done; by intros <-%Some_inj.
Qed.

Lemma reward_asset quote config rewards quote' : reward_apply quote config rewards = Some quote' →
  qi_asset_index quote' = qi_asset_index quote.
Proof.
  unfold reward_apply. destruct (negb _); [by intros <-%Some_inj|]. destruct (_ && _); [by intros <-%Some_inj|].
  destruct rewards as [snapshot|]; [|by intros <-%Some_inj].
  destruct (find_reward_market _ _) as [market|]; [|by intros <-%Some_inj]. cbv zeta. unfold clamp_two_sided_spread.
  set (q1 := raise_opening_size _ _).
  assert (H1 : qi_asset_index q1 = qi_asset_index quote) by (unfold q1, raise_opening_size; by destruct (_ <=? 0)).
  clearbody q1. rewrite <- H1. clear H1. destruct (_ || _); [by intros <-%Some_inj|]. destruct (_ <=? _); [by intros <-%Some_inj|].
  destruct (reward_prices _ _ _) as [b a]. by destruct (_ <=? _); [|intros <-%Some_inj].
Qed.

Lemma built_asset input quote : quote_build input = inr quote → qi_asset_index quote = qb_asset_index input.
Proof.
  unfold quote_build. destruct (qb_depth input) as [depth|], (qb_config input) as [config|]; try done.
  destruct (negb _); [done|]. destruct (negb _); [done|]. unfold build_from. destruct (start_prices _) as [[b a]|]; [|done].
  set (q0 := with_ask _ _).
  assert (H0 : qi_asset_index q0 = qb_asset_index input) by (unfold q0; by destruct (build_ask _ _), (build_bid _ _)).
  clearbody q0. destruct (resolve_self_crossed_mixed_quote q0) as [q1|] eqn:E1; [|done]. apply resolve_asset in E1.
  destruct (_ && _); [done|]. destruct (reward_apply _ _ _) as [q2|] eqn:E2; [|done]. apply reward_asset in E2.
  destruct (resolve_self_crossed_mixed_quote q2) as [q3|] eqn:E3; [|done]. apply resolve_asset in E3.
  intros [= <-]. change (qi_asset_index q3 = qb_asset_index input). congruence.
Qed.

(** C29. Every quote the engine builds is well formed: it has a side, its prices
    lie in the configured band, its sizes are positive, its sides do not cross,
    a side is marked as reducing exactly when it moves the position towards the
    target and then stays within the cap, a quote that unwinds has no opening
    side, and an opening side is priced strictly away from the fair value,
    provided no reward market narrows the spread to one tick. *)
Theorem built_quote_sound input depth config quote :
  qb_depth input = Some depth → qb_config input = Some config →
  let ctx := mkBuildContext input depth config in
  BuildSane ctx → quote_build input = inr quote →
  has_side quote ∧ uncrossed quote ∧
  (qi_has_bid quote = true → LegOk ctx QsBid (qi_bid quote)) ∧
  (qi_has_ask quote = true → LegOk ctx QsAsk (qi_ask quote)) ∧
  (no_tick_spread ctx →
   (qi_has_bid quote = true → opens_away QsBid (qi_fair_value_tick quote) (qi_bid quote)) ∧
   (qi_has_ask quote = true → opens_away QsAsk (qi_fair_value_tick quote) (qi_ask quote))).
Proof.
  intros Hd Hc ctx Hs Hq%(quote_build_inr input depth config); try done.
  destruct (built_draft ctx false quote Hs (or_intror eq_refl) Hq) as [Hdraft Hu]. destruct Hdraft.
  split; [by eapply built_has_side|]. split; [done|]. split; [done|]. split; [done|].
  intros Hone. destruct (built_draft ctx true quote Hs (or_introl Hone) Hq) as [[_ _ _ _ _ Haway] _]. by apply Haway.
Qed.

(** ** A built quote meets the risk checks on its shape *)

Lemma header_unwinds ctx : BuildSane ctx → ∀ quote, qi_type quote = qi_type (quote_header ctx) →
  is_unwind_quote quote = unwinding ctx ∧ quote_type_accepted (qi_type quote) = true ∧
  is_forced quote = forced_unwind ctx.
Proof.
  intros Hs quote Ht. unfold is_unwind_quote, is_forced, unwinding. rewrite Ht. cbn.
  assert (Hu : forced_unwind ctx = true → urgent_unwind ctx = false ∧ passive_unwind ctx = false).
  { intros Hf. unfold passive_unwind, urgent_unwind. by rewrite Hf. }
  destruct (forced_unwind ctx); [destruct (Hu eq_refl) as [-> ->]; done|].
  destruct (urgent_unwind ctx), (passive_unwind ctx); cbn; try done.
  destruct (bs_intent _ Hs) as [-> | ->]; done.
Qed.

Lemma first_failure_in checks f : first_failure checks = Some f → (true, f) ∈ checks.
Proof.
  induction checks as [|[[] g] checks IH]; cbn; [done|intros <-%Some_inj; left|]. intros H. right. by apply IH.
Qed.

(** The only checks that call a quote invalid are those on its sides and on what it may reduce. *)
Lemma invalid_checks input quote policy reason :
  first_failure (quote_checks input quote policy) = Some (QdRejectInvalidQuote, reason) →
  Exists (λ c : check, c.1 = true) (side_checks input quote) ∨
  (bid_reduces_inventory input quote = true ∧ reducible_qty_lots input quote QsBid true < max_bid_qty quote) ∨
  (ask_reduces_inventory input quote = true ∧ reducible_qty_lots input quote QsAsk true < max_ask_qty quote).
Proof.
  intros Hin%first_failure_in. unfold quote_checks in Hin. rewrite !elem_of_app in Hin.
  destruct Hin as [Hin|[Hin|Hin]].
  { unfold external_checks in Hin. rewrite !elem_of_cons, elem_of_nil in Hin. destruct_or!; done. }
  { apply list_elem_of_singleton in Hin. done. }
  destruct (qr_depth input) as [depth|]; [|apply list_elem_of_singleton in Hin; done].
  rewrite !elem_of_app in Hin. destruct Hin as [Hin|[Hin|[Hin|[Hin|[Hin|Hin]]]]].
  - unfold book_checks in Hin. rewrite !elem_of_cons, elem_of_nil in Hin. destruct_or!; done.
  - left. apply Exists_exists. by exists (true, (QdRejectInvalidQuote, reason)).
  - unfold reward_checks in Hin. destruct (_ && _); [|set_solver].
    rewrite !elem_of_cons, elem_of_nil in Hin. destruct_or!; done.
  - unfold price_checks in Hin. rewrite !elem_of_cons, elem_of_nil in Hin. destruct_or!; done.
  - right. unfold size_checks in Hin. rewrite !elem_of_cons, elem_of_nil in Hin. destruct_or!; try done.
    injection Hin as Hb _. destruct (bid_reduces_inventory input quote), (ask_reduces_inventory input quote); lia.
  - unfold activity_checks in Hin. rewrite !elem_of_cons, elem_of_nil in Hin. destruct_or!; done.
Qed.

Lemma draft_sides_fit ctx quote (r : QuoteRiskInput) : BuildSane ctx → Draft ctx false quote → uncrossed quote → has_side quote →
  qr_current_position_lots r = qb_current_position_lots (bx_input ctx) → SidesFit r quote.
Proof.
  intros Hs [Ht _ Htg Hb Ha _] Hu Hside Hp. destruct (header_unwinds ctx Hs quote Ht) as [Hun _].
  pose proof (bs_min _ Hs). split; try done.
  - intros Hh. destruct (Hb Hh) as [? ? _ _ _ _]. lia.
  - intros Hh. destruct (Ha Hh) as [? ? _ _ _ _]. lia.
  - rewrite Hun. intros Hw. rewrite Hp, Htg. split; intros Hh.
    + destruct (Hb Hh) as [_ _ Hr Hred _ _]. specialize (Hred Hw). rewrite Hr in Hred. unfold build_bid_reduces in Hred. lia.
    + destruct (Ha Hh) as [_ _ Hr Hred _ _]. specialize (Hred Hw). rewrite Hr in Hred. unfold build_ask_reduces in Hred. lia.
Qed.

(** A reducing side of a quote that is not forced stays within what risk lets it reduce. *)
Lemma draft_within_reducible ctx quote (r : QuoteRiskInput) : BuildSane ctx → Draft ctx false quote →
  forced_unwind ctx = false → mc_reduce_only_quote_to_target (bx_config ctx) = true →
  qr_current_position_lots r = qb_current_position_lots (bx_input ctx) →
  (bid_reduces_inventory r quote = true → max_bid_qty quote <= reducible_qty_lots r quote QsBid true) ∧
  (ask_reduces_inventory r quote = true → max_ask_qty quote <= reducible_qty_lots r quote QsAsk true).
Proof.
  intros Hs [Ht _ Htg Hb Ha _] Hf Hto Hp. destruct (header_unwinds ctx Hs quote Ht) as (_ & _ & Hforced).
  rewrite Hf in Hforced. unfold is_forced in Hforced. destruct Hs as [_ _ _ Hpos Htarget _]. unfold lots_ok in *.
  unfold bid_reduces_inventory, ask_reduces_inventory, reducible_qty_lots, max_bid_qty, max_ask_qty. rewrite Hp, Htg. cbn [negb].
  split; intros Hr; breflect.
  - destruct (Hb ltac:(done)) as [_ _ Hred _ Hcap _]. rewrite Hred in Hcap. unfold build_bid_reduces, reduce_qty_cap in *.
    rewrite Hf, Hto in Hcap. cbn in Hcap. destruct (qi_type quote); try done;
      destruct (qi_has_bid quote), (Z.ltb_spec (qb_current_position_lots (bx_input ctx)) (mc_target_position_lots (bx_config ctx))),
        (Z.leb_spec (mc_target_position_lots (bx_config ctx)) (qb_current_position_lots (bx_input ctx))); try lia; try done;
      cbn [andb] in *; rewrite ?wrap_i64_id in * by rlia; specialize (Hcap eq_refl); lia.
  - destruct (Ha ltac:(done)) as [_ _ Hred _ Hcap _]. rewrite Hred in Hcap. unfold build_ask_reduces, reduce_qty_cap in *.
    rewrite Hf, Hto in Hcap. cbn in Hcap. destruct (qi_type quote); try done;
      destruct (qi_has_ask quote), (Z.ltb_spec (mc_target_position_lots (bx_config ctx)) (qb_current_position_lots (bx_input ctx))),
        (Z.leb_spec (qb_current_position_lots (bx_input ctx)) (mc_target_position_lots (bx_config ctx))); try lia; try done;
      cbn [andb] in *; rewrite ?wrap_i64_id in * by rlia; specialize (Hcap eq_refl); lia.
Qed.

(** Risk never finds a built quote invalid.  A quote that the engine built
    for a position, and that does not force the inventory out, is judged by risk
    at that position on its merits: whatever the policy and the book, the
    verdict is not that the quote is invalid. *)
Theorem built_quote_never_invalid input depth config quote r policy rdepth :
  qb_depth input = Some depth → qb_config input = Some config →
  let ctx := mkBuildContext input depth config in
  BuildSane ctx → quote_build input = inr quote →
  forced_unwind ctx = false → mc_reduce_only_quote_to_target config = true → qi_quote_intent_id quote ≠ 0 →
  qr_quote r = Some quote → qr_policy r = Some policy → qr_depth r = Some rdepth →
  qr_current_position_lots r = qb_current_position_lots input →
  qd_decision (qrr_decision (quote_evaluate r)) ≠ QdRejectInvalidQuote.
Proof.
  intros Hd Hc ctx Hs Hq%(quote_build_inr input depth config) Hf Hto Hid Hrq Hrp Hrd Hpos; try done.
  destruct (built_draft ctx false quote Hs (or_intror eq_refl) Hq) as [Hdraft Hu].
  rewrite (quote_verdict r quote policy) by done. apply Z.eqb_neq in Hid. rewrite Hid.
  destruct (header_unwinds ctx Hs quote (dr_type _ _ _ Hdraft)) as (_ & -> & _). cbn [negb orb].
  destruct (first_failure (quote_checks r quote policy)) as [[type reason]|] eqn:Ef; [|done]. cbn. intros ->.
  apply invalid_checks in Ef as [Hside|Hred].
  - apply (draft_sides_fit ctx quote r) in Hdraft; try done; [|by eapply built_has_side].
    apply side_checks_pass in Hdraft. rewrite Exists_exists in Hside. destruct Hside as (c & Hin & Hc1).
    rewrite Forall_forall in Hdraft. specialize (Hdraft c Hin). congruence.
  - destruct (draft_within_reducible ctx quote r Hs Hdraft Hf Hto Hpos) as [Hb Ha].
    destruct Hred as [[Hb1 Hb2]|[Ha1 Ha2]]; [specialize (Hb Hb1)|specialize (Ha Ha1)]; lia.
Qed.

(** ** Concrete builds *)

Definition build_config : MarketMakingConfig := mm_config0 <| mc_target_position_lots := 10 |> <| mc_max_inventory_lots := 50 |>.

Definition fair_at (tick : Z) : FairValueResult :=
  fair_value0 <| fv_ok := true |> <| fv_fair_value_tick := tick |> <| fv_quality := FvValid |>.

Definition build_input (config : MarketMakingConfig) (rewards : option RewardConfigSnapshot) (position bid_qty ask_qty : Z) :
    QuoteBuildInput :=
  mkQuoteBuild "m" "a" 1 7 (Some quote_depth) (Some config) (fair_at 500000) (spread_compute config)
    (mkQuoteSize true bid_qty ask_qty "") rewards 0 0 0 0 position 2000 QtPlaceQuote.

Definition sides_of (result : QuoteBuildResult) : option (QuoteIntentType * option (Z * Z) * option (Z * Z)) :=
  match result with
  | inl _ => None
  | inr q => Some (qi_type q,
      if qi_has_bid q then Some (ql_price_tick (qi_bid q), ql_quantity_lots (qi_bid q)) else None,
      if qi_has_ask q then Some (ql_price_tick (qi_ask q), ql_quantity_lots (qi_ask q)) else None)
  end.

Lemma build_input_sane : BuildSane (mkBuildContext (build_input build_config None 14 9 9) quote_depth build_config).
Proof. constructor; first [reflexivity | left; reflexivity | vm_compute; split; discriminate]. Defined.

(** A long position of four lots over the target: a full opening bid and a reducing ask of four lots. *)
Example two_sides_built :
  sides_of (quote_build (build_input build_config None 14 9 9)) = Some (QtPlaceQuote, Some (475000, 9), Some (525000, 4)).
Proof. vm_compute. reflexivity. Qed.

Lemma built_quote_sound_witness : ∃ quote, quote_build (build_input build_config None 14 9 9) = inr quote ∧ has_side quote.
Proof.
  eexists. split; [vm_compute; reflexivity|].
  eapply (built_quote_sound (build_input build_config None 14 9 9) _ _ _ eq_refl eq_refl build_input_sane).
  vm_compute. reflexivity.
Defined.

Lemma built_quote_never_invalid_witness : ∃ quote, quote_build (build_input build_config None 14 9 9) = inr quote ∧
  qd_decision (qrr_decision (quote_evaluate (risk_input quote strict_policy 14))) ≠ QdRejectInvalidQuote.
Proof.
  eexists. split; [vm_compute; reflexivity|].
  eapply (built_quote_never_invalid (build_input build_config None 14 9 9) _ _ _ _ _ _ eq_refl eq_refl build_input_sane);
    [vm_compute; reflexivity|vm_compute; reflexivity|reflexivity|vm_compute; discriminate|reflexivity..].
Defined.

Definition one_market (max_spread min_size : Z) : option RewardConfigSnapshot :=
  Some (mkRewardConfig [mkRewardMarket "m" max_spread min_size [mkRewardToken "a" "Yes" true]]).

(** A reward spread of one tick puts the opening ask on the fair value, which risk refuses. *)
Example tick_spread_crosses_fair :
  let config := build_config <| mc_reward_aware_quotes_enabled := true |> in
  sides_of (quote_build (build_input config (one_market 1 0) 10 9 9)) = Some (QtPlaceQuote, Some (499999, 9), Some (500000, 9)).
Proof. vm_compute. reflexivity. Qed.

(** The reward constraint comes after the edge was checked: an opening bid that had
    to earn 20000 ticks is moved to 250 ticks from the fair value. *)
Example reward_spread_gives_up_edge :
  let config := build_config <| mc_reward_aware_quotes_enabled := true |> <| mc_min_quote_edge_tick := 20000 |> in
  sides_of (quote_build (build_input config None 10 9 9)) = Some (QtPlaceQuote, Some (475000, 9), Some (525000, 9)) ∧
  sides_of (quote_build (build_input config (one_market 500 0) 10 9 9)) = Some (QtPlaceQuote, Some (499750, 9), Some (500250, 9)).
Proof. vm_compute. auto. Qed.

(** The reward minimum raises a size past the room the size model left: at 45 of at most 50 lots a bid of 5 becomes 30. *)
Example reward_size_passes_inventory :
  let config := build_config <| mc_reward_aware_quotes_enabled := true |> <| mc_target_position_lots := 45 |> in
  sides_of (quote_build (build_input config (one_market 0 30) 45 5 9)) = Some (QtPlaceQuote, Some (475000, 30), Some (525000, 30)).
Proof. vm_compute. reflexivity. Qed.

(** A forced unwind is capped by the inventory limits, not by the target: risk refuses it. *)
Example forced_unwind_overshoots :
  let config := build_config <| mc_target_position_lots := 10 |> <| mc_min_inventory_lots := 0 |> in
  sides_of (quote_build (build_input config None 0 18 0)) = Some (QtForcedUnwind, Some (600000, 18), None) ∧
  match quote_build (build_input config None 0 18 0) with
  | inr quote => qd_decision (qrr_decision (quote_evaluate (risk_input quote quote_policy0 0))) = QdRejectInvalidQuote
  | inl _ => False
  end.
Proof. vm_compute. auto. Qed.
