(* ===== verification/MarketMaking.v ===== *)
(** * MarketMaking: the market-making engine

    [engine/strategy/market_making/fair], [quote], [inventory], [risk] and
    [core]: the fair value of a book, the sizes and the skew of a quote, the
    targets for the inventory, and the engine that turns market updates into
    quotes and cancels and keeps the book of its active quotes. *)

From Stdlib Require Import ZifyBool.
From stdpp Require Import sorting strings.
From S2P Require Import Prelude FixedPoint Hashing Doubles RiskTypes Depth QuoteTypes QuoteRisk QuoteEngine.
#[local] Open Scope Z_scope.

#[local] Arguments constant {_} _ _ /.

(** ** Extended precision

    [long double] is the 80-bit format of x87: the same specification of IEEE
    arithmetic as [Doubles], at 64 bits of precision. *)
Abbreviation long_double := spec_float.
Definition ld_prec : Z := 64.
Definition ld_emax : Z := 16384.

Definition ld_add (x y : long_double) : long_double := SFadd ld_prec ld_emax x y.
Definition ld_sub (x y : long_double) : long_double := SFsub ld_prec ld_emax x y.
Definition ld_mul (x y : long_double) : long_double := SFmul ld_prec ld_emax x y.
Definition ld_div (x y : long_double) : long_double := SFdiv ld_prec ld_emax x y.
Definition ld_lt (x y : long_double) : bool := SFltb x y.
Definition ld_le (x y : long_double) : bool := SFleb x y.

(** Every 64-bit integer is exact, and so is every [double]. *)
Definition ld_of_Z (z : Z) : long_double := binary_normalize ld_prec ld_emax z 0 false.
Definition ld_of_double (x : double) : long_double :=
  match x with
  | S754_finite s m e => binary_normalize ld_prec ld_emax (if s then Z.neg m else Z.pos m) e s
  | x => x
  end.
Definition ld0 : long_double := S754_zero false.
Definition ld1 : long_double := ld_of_Z 1.

(** [std::max], [std::min] and [std::clamp] as the library specifies them. *)
Definition ld_max (x y : long_double) : long_double := if ld_lt x y then y else x.
Definition ld_clamp (x lo hi : long_double) : long_double := if ld_lt x lo then lo else if ld_lt hi x then hi else x.

(** [std::llround]: to the nearest integer, halves away from zero.  Outside the
    range of the result its value is unspecified; here it is the least integer,
    what the instruction stores. *)
Definition llround (x : long_double) : Z :=
  match x with
  | S754_zero _ => 0
  | S754_finite s m e =>
      let magnitude := if 0 <=? e then Z.shiftl (Z.pos m) e else Z.shiftr (Z.pos m + Z.shiftl 1 (- e - 1)) (- e) in
      let value := if s then - magnitude else magnitude in
      if bool_decide (in_i64 value) then value else i64_min
  | _ => i64_min
  end.

(** ** The fair value of a book *)

(** [engine/strategy/market_making/fair/FairValueModel.cpp:12-25] bps_to_tick. *)
Definition bps_to_tick (fair_tick bps : Z) : Z :=
  if (fair_tick <=? 0) || (bps <=? 0) then 0 else Z.max 1 (wrap_i64 (Z.quot (fair_tick * bps) 10000)).

(** [engine/strategy/market_making/fair/FairValueModel.cpp:31-87] sell_vwap_from_prefix. *)
Definition sell_vwap_from_prefix (depth : MarketDepthView) (qty_lots : Z) : PrefixVwapResult :=
  let prefix := dv_prefix depth in
  let result := mkPrefixVwapResult false qty_lots 0 0 0 in
  if (qty_lots <=? 0) || (dp_bid_count prefix =? 0)%nat then result
  else if dp_bid_cum_qty prefix !!! (dp_bid_count prefix - 1)%nat <? qty_lots then result
  else
    let level_index := first_reaching qty_lots (dp_bid_count prefix) (dp_bid_cum_qty prefix) in
    if (dp_bid_count prefix <=? level_index)%nat then result
    else
      let qty_before := cum_before (dp_bid_cum_qty prefix) level_index in
      let proceeds_before := cum_before (dp_bid_cum_proceeds prefix) level_index in
      let remaining := qty_lots -i qty_before in
      let price_tick := pl_price_tick (dv_bids depth !!! level_index) in
      if (remaining <? 0) || (price_tick <=? 0) then result
      else
        match checked_mul_i64 price_tick remaining with
        | None => result
        | Some partial_proceeds =>
            match checked_add_i64 proceeds_before partial_proceeds with
            | None => result
            | Some total_proceeds =>
                mkPrefixVwapResult true qty_lots total_proceeds (Z.quot total_proceeds qty_lots) price_tick
            end
        end.

(** [engine/strategy/market_making/fair/FairValueModel.cpp:89-128] fair_confidence_bps. *)
Definition fair_confidence_bps (config : MarketMakingConfig) (midpoint_tick spread_tick bid_qty ask_qty bid_depth ask_depth : Z) : Z :=
  let confidence := 10000 in
  let confidence :=
    if 0 <? midpoint_tick
    then confidence -i Z.min 4000 (wrap_i64 (Z.quot (spread_tick * 10000) midpoint_tick) *i 50) else confidence in
  let top_total := bid_qty +i ask_qty in
  let confidence :=
    if 0 <? top_total
    then confidence -i Z.min 2000 (Z.quot (wrap_i64 (Z.quot (llabs (bid_qty -i ask_qty) * 10000) top_total)) 4) else confidence in
  let min_depth := Z.min bid_depth ask_depth in
  let confidence :=
    if (0 <? mc_min_total_depth_lots config) && (min_depth <? mc_min_total_depth_lots config)
    then confidence -i 3000 else confidence in
  let confidence :=
    if (0 <? mc_min_top_depth_lots config) && (Z.min bid_qty ask_qty <? mc_min_top_depth_lots config)
    then confidence -i 3000 else confidence in
  Z.max 0 (Z.min 10000 confidence).

Definition level_at (levels : list PriceLevel) : PriceLevel := default no_level (levels !! 0%nat).

(** [engine/strategy/market_making/fair/FairValueModel.cpp:199-208] compute_book_fair: the price weighted by the opposite sizes. *)
Definition microprice (bid_price ask_price bid_qty ask_qty midpoint : Z) : Z :=
  let top_qty_sum := bid_qty +i ask_qty in
  if 0 <? top_qty_sum then
    llround (ld_div (ld_add (ld_mul (ld_of_Z bid_price) (ld_of_Z ask_qty)) (ld_mul (ld_of_Z ask_price) (ld_of_Z bid_qty)))
               (ld_of_Z top_qty_sum))
  else midpoint.

(** [engine/strategy/market_making/fair/FairValueModel.cpp:210-220] compute_book_fair: the middle of what buying and selling costs. *)
Definition vwap_mid (depth : MarketDepthView) (config : MarketMakingConfig) (bid_depth ask_depth midpoint : Z) : Z :=
  let vwap_qty := Z.min (Z.max 1 (mc_fair_vwap_lots config)) (Z.min bid_depth ask_depth) in
  let buy_vwap := buy_vwap_from_view depth vwap_qty in
  let sell_vwap := sell_vwap_from_prefix depth vwap_qty in
  if pv_ok buy_vwap && pv_ok sell_vwap then Z.quot (pv_vwap_tick buy_vwap +i pv_vwap_tick sell_vwap) 2 else midpoint.

(** [engine/strategy/market_making/fair/FairValueModel.cpp:222-238] compute_book_fair: the three prices, weighted. *)
Definition total_fair_weight (config : MarketMakingConfig) : Z :=
  mc_fair_mid_weight_bps config +i mc_fair_microprice_weight_bps config +i mc_fair_vwap_weight_bps config.
Definition weighted_fair (config : MarketMakingConfig) (midpoint micro vwap : Z) : Z :=
  llround (ld_div
    (ld_add (ld_add (ld_mul (ld_of_Z midpoint) (ld_of_Z (mc_fair_mid_weight_bps config)))
                    (ld_mul (ld_of_Z micro) (ld_of_Z (mc_fair_microprice_weight_bps config))))
            (ld_mul (ld_of_Z vwap) (ld_of_Z (mc_fair_vwap_weight_bps config))))
    (ld_of_Z (total_fair_weight config))).

(** [engine/strategy/market_making/fair/FairValueModel.cpp:134-256] compute_book_fair. *)
Definition compute_book_fair (depth : MarketDepthView) (config : MarketMakingConfig) (now_ns : Z) : FairValueResult :=
  let result := fair_value0 <| fv_source := FsMicropriceVwap |> in
  if negb (dv_usable_for_depth depth) || dv_recovering depth || dv_closed depth || dv_resolved depth
  then result <| fv_quality := FvStaleBook |>
  else if dv_crossed depth then result <| fv_quality := FvCrossedBook |>
  else if (dv_bid_count depth =? 0)%nat || (dv_ask_count depth =? 0)%nat || (best_bid depth <=? 0) || (best_ask depth <=? 0)
  then result <| fv_quality := FvMissingBidAsk |>
  else if best_ask depth <=? best_bid depth then result <| fv_quality := FvCrossedBook |>
  else
    let spread := best_ask depth -i best_bid depth in
    let midpoint := Z.quot (best_bid depth +i best_ask depth) 2 in
    let result := result <| fv_book_spread_tick := spread |> <| fv_midpoint_tick := midpoint |> in
    if (0 <? mc_max_book_spread_tick config) && (mc_max_book_spread_tick config <? spread)
    then result <| fv_quality := FvLowConfidence |>
    else
      let max_spread_by_bps := bps_to_tick midpoint (mc_max_book_spread_bps config) in
      if (0 <? max_spread_by_bps) && (max_spread_by_bps <? spread) then result <| fv_quality := FvLowConfidence |>
      else if (0 <? mc_max_book_age_ns config) && (0 <? dv_last_ws_recv_ns depth) && (dv_last_ws_recv_ns depth <? now_ns) &&
              (mc_max_book_age_ns config <? wrap_i64 (now_ns - dv_last_ws_recv_ns depth))
      then result <| fv_quality := FvStaleBook |>
      else
        let bid_qty := depth_prefix_level_size_lots (level_at (dv_bids depth)) in
        let ask_qty := depth_prefix_level_size_lots (level_at (dv_asks depth)) in
        let result := result <| fv_top_bid_qty_lots := bid_qty |> <| fv_top_ask_qty_lots := ask_qty |> in
        let bid_depth := bid_depth_from_prefix (dv_prefix depth) in
        let ask_depth := ask_depth_from_prefix (dv_prefix depth) in
        if ((0 <? mc_min_top_depth_lots config) && (Z.min bid_qty ask_qty <? mc_min_top_depth_lots config)) ||
           ((0 <? mc_min_total_depth_lots config) && (Z.min bid_depth ask_depth <? mc_min_total_depth_lots config))
        then result <| fv_quality := FvLowConfidence |>
        else
          let micro := microprice (best_bid depth) (best_ask depth) bid_qty ask_qty midpoint in
          let vwap := vwap_mid depth config bid_depth ask_depth midpoint in
          let result := result <| fv_microprice_tick := micro |> <| fv_vwap_mid_tick := vwap |> in
          if total_fair_weight config <=? 0 then result <| fv_quality := FvLowConfidence |>
          else
            let confidence := fair_confidence_bps config midpoint spread bid_qty ask_qty bid_depth ask_depth in
            let result := result <| fv_fair_value_tick := weighted_fair config midpoint micro vwap |>
                            <| fv_confidence_bps := confidence |> in
            if confidence <? mc_min_fair_confidence_bps config then result <| fv_quality := FvLowConfidence |>
            else result <| fv_ok := true |> <| fv_quality := FvValid |>.

(** [engine/strategy/market_making/fair/FairValueModel.cpp:262-274] external_fair_tick. *)
Definition external_fair_tick (config : MarketMakingConfig) : Z :=
  if (mc_external_fair_weight_bps config <=? 0) || (mc_external_fair_value_tick config <=? 0) then 0
  else clamp_tick (mc_external_fair_value_tick config) (mc_min_price_tick config) (mc_max_price_tick config).

(** [engine/strategy/market_making/fair/FairValueModel.cpp:276-292] external_reference_book_config. *)
Definition external_reference_book_config (config : MarketMakingConfig) : MarketMakingConfig :=
  let config := config <| mc_max_book_spread_tick := 0 |> <| mc_max_book_spread_bps := 0 |> <| mc_min_top_depth_lots := 0 |>
                  <| mc_min_total_depth_lots := 0 |> <| mc_min_fair_confidence_bps := 0 |> in
  if total_fair_weight config <=? 0
  then config <| mc_fair_mid_weight_bps := 10000 |> <| mc_fair_microprice_weight_bps := 0 |> <| mc_fair_vwap_weight_bps := 0 |>
  else config.

(** [engine/strategy/market_making/fair/FairValueModel.cpp:294-304] apply_external_fair. *)
Definition apply_external_fair (result : FairValueResult) (external_tick : Z) : FairValueResult :=
  result <| fv_ok := true |> <| fv_quality := FvValid |> <| fv_external_fair_value_tick := external_tick |>
    <| fv_fair_value_tick := external_tick |> <| fv_source := FsExternal |>.

(** [engine/strategy/market_making/fair/FairValueModel.cpp:335-371] compute: the blend with the complement's book. *)
Definition blend_complement (result : FairValueResult) (complement_depth : option MarketDepthView) (config : MarketMakingConfig)
    (now_ns : Z) : FairValueResult :=
  match complement_depth with
  | Some complement_depth =>
      if 0 <? mc_complement_fair_weight_bps config then
        let complement := compute_book_fair complement_depth config now_ns in
        if fv_ok complement then
          let complement_weight := Z.max 0 (Z.min 10000 (mc_complement_fair_weight_bps config)) in
          let primary_weight := 10000 - complement_weight in
          let clamp value := clamp_tick value (mc_min_price_tick config) (mc_max_price_tick config) in
          let implied_tick := clamp (kPriceOneTick -i fv_fair_value_tick complement) in
          let blended :=
            llround (ld_div (ld_add (ld_mul (ld_of_Z (fv_fair_value_tick result)) (ld_of_Z primary_weight))
                                    (ld_mul (ld_of_Z implied_tick) (ld_of_Z complement_weight)))
                       (ld_of_Z 10000)) in
          result <| fv_complement_midpoint_tick := fv_midpoint_tick complement |> <| fv_complement_implied_tick := implied_tick |>
            <| fv_fair_value_tick := clamp blended |>
            <| fv_confidence_bps ::= λ c, Z.min c (fv_confidence_bps complement) |> <| fv_source := FsComplementMarket |>
        else result
      else result
  | None => result
  end.

(** [engine/strategy/market_making/fair/FairValueModel.cpp:308-377] FairValueModel::compute. *)
Definition fair_compute (depth : MarketDepthView) (config : MarketMakingConfig) (now_ns : Z)
    (complement_depth : option MarketDepthView) : FairValueResult :=
  let external_tick := external_fair_tick config in
  if (0 <? mc_external_fair_weight_bps config) && (external_tick <=? 0) && mc_require_external_fair_for_opening_quotes config
  then fair_value0 <| fv_quality := FvExternalStale |>
  else
    let result := compute_book_fair depth config now_ns in
    let result :=
      if negb (fv_ok result) && bool_decide (fv_quality result = FvLowConfidence) && (0 <? external_tick)
      then compute_book_fair depth (external_reference_book_config config) now_ns else result in
    if negb (fv_ok result) then result
    else
      let result := blend_complement result complement_depth config now_ns in
      if 0 <? external_tick then apply_external_fair result external_tick else result.

(** ** Sizes, skew and targets *)

(** [engine/strategy/market_making/quote/QuoteSizeModel.h:41-79] compute: how far the inventory is from its target, and the size it scales to. *)
Definition inventory_ratio (config : MarketMakingConfig) (current_position_lots : Z) : long_double :=
  let long_room := Z.max 1 (mc_max_inventory_lots config -i mc_target_position_lots config) in
  let short_room := Z.max 1 (mc_target_position_lots config -i mc_min_inventory_lots config) in
  let inventory_error := current_position_lots -i mc_target_position_lots config in
  let denominator := if 0 <=? inventory_error then long_room else short_room in
  ld_clamp (ld_div (ld_of_Z inventory_error) (ld_of_Z denominator)) (ld_of_Z (-1)) ld1.

Definition scaled_size (config : MarketMakingConfig) (multiplier : long_double) : Z :=
  let max_multiplier := ld_max ld1 (ld_div (ld_of_Z (mc_max_quote_size_multiplier_bps config)) (ld_of_Z 10000)) in
  llround (ld_mul (ld_of_Z (mc_base_quote_size_lots config)) (ld_clamp multiplier ld0 max_multiplier)).

(** [engine/strategy/market_making/quote/QuoteSizeModel.h:21-96] QuoteSizeModel::compute. *)
Definition size_compute (config : MarketMakingConfig) (depth : MarketDepthView) (current_position_lots : Z) : QuoteSizeResult :=
  if mc_base_quote_size_lots config <=? 0 then mkQuoteSize false 0 0 "base quote size <= 0"
  else
    let ask_depth := ask_depth_from_prefix (dv_prefix depth) in
    let bid_depth := bid_depth_from_prefix (dv_prefix depth) in
    let bid_room := Z.max 0 (mc_max_inventory_lots config -i current_position_lots) in
    let ask_room := Z.max 0 (current_position_lots -i mc_min_inventory_lots config) in
    let ratio := inventory_ratio config current_position_lots in
    let scaled_bid_size := scaled_size config (ld_sub ld1 ratio) in
    let scaled_ask_size := scaled_size config (ld_add ld1 ratio) in
    let bid_qty :=
      if mc_enable_bid_quotes config && (0 <? bid_room) && (0 <? ask_depth) && (0 <? scaled_bid_size)
      then Z.min scaled_bid_size (Z.min bid_room ask_depth) else 0 in
    let ask_qty :=
      if mc_enable_ask_quotes config && (0 <? ask_room) && (0 <? bid_depth) && (0 <? scaled_ask_size)
      then Z.min scaled_ask_size (Z.min ask_room bid_depth) else 0 in
    let ok := (0 <? bid_qty) || (0 <? ask_qty) in
    mkQuoteSize ok bid_qty ask_qty (if ok then "" else "no inventory room or depth").

(** The functions of the mathematical library the skew uses; their accuracy is the implementation's. *)
Record LongMath := mkLongMath {
  lm_pow : long_double → long_double → long_double;
  lm_exp : long_double → long_double
}.

Section Skew.
  Context (lm : LongMath).

(** [engine/strategy/market_making/quote/InventorySkewModel.h:49-85] nonlinear_pressure. *)
Definition nonlinear_pressure (config : MarketMakingConfig) (pressure : long_double) : long_double :=
  let pressure := ld_clamp pressure ld0 ld1 in
  let exponent := ld_max ld1 (ld_of_double (mc_inventory_skew_exponent config)) in
  if ld_le exponent ld1 then pressure
  else
    let start := ld_clamp (ld_div (ld_of_Z (mc_inventory_skew_nonlinear_start_bps config)) (ld_of_Z 10000)) ld0 ld1 in
    if ld_le pressure start then pressure
    else if ld_le ld1 start then pressure
    else
      let normalized := ld_div (ld_sub pressure start) (ld_sub ld1 start) in
      let curved := ld_sub ld1 (lm_pow lm (ld_sub ld1 normalized) exponent) in
      ld_clamp (ld_add start (ld_mul curved (ld_sub ld1 start))) ld0 ld1.

(** [engine/strategy/market_making/quote/InventorySkewModel.h:87-124] tte_multiplier. *)
Definition tte_multiplier (config : MarketMakingConfig) (time_to_expiry_ns : Z) : long_double :=
  if (time_to_expiry_ns =? 0) || (mc_tte_skew_start_ns config =? 0) || ld_le (ld_of_double (mc_tte_max_skew_multiplier config)) ld1
  then ld1
  else if mc_tte_skew_start_ns config <? time_to_expiry_ns then ld1
  else
    let max_multiplier := ld_max ld1 (ld_of_double (mc_tte_max_skew_multiplier config)) in
    let puke_start := Z.min (mc_tte_puke_start_ns config) (mc_tte_skew_start_ns config) in
    if (0 <? puke_start) && (time_to_expiry_ns <=? puke_start) then max_multiplier
    else
      let denominator_ns := mc_tte_skew_start_ns config - puke_start in
      let progress :=
        if denominator_ns =? 0 then ld1
        else ld_clamp (ld_div (ld_of_Z (mc_tte_skew_start_ns config - time_to_expiry_ns)) (ld_of_Z denominator_ns)) ld0 ld1 in
      let curve := ld_div (ld_sub (lm_exp lm (ld_mul (ld_of_Z 4) progress)) ld1) (ld_sub (lm_exp lm (ld_of_Z 4)) ld1) in
      ld_add ld1 (ld_mul curve (ld_sub max_multiplier ld1)).

(** [engine/strategy/market_making/quote/InventorySkewModel.h:126-142] clamp_round. *)
Definition skew_clamp_round (value : long_double) : Z :=
  if ld_le (ld_of_Z i64_max) value then i64_max
  else if ld_le value (ld_of_Z i64_min) then i64_min
  else llround value.

(** [engine/strategy/market_making/quote/InventorySkewModel.h:13-47] InventorySkewModel::compute. *)
Definition skew_compute (config : MarketMakingConfig) (current_position_lots time_to_expiry_ns : Z) : Z :=
  if (mc_max_inventory_lots config <=? 0) || (mc_max_inventory_skew_tick config =? 0) then 0
  else
    let delta := current_position_lots -i mc_target_position_lots config in
    let denominator :=
      if 0 <=? delta then Z.max 1 (mc_max_inventory_lots config -i mc_target_position_lots config)
      else Z.max 1 (mc_target_position_lots config -i mc_min_inventory_lots config) in
    let ratio := ld_clamp (ld_div (ld_of_Z delta) (ld_of_Z denominator)) (ld_of_Z (-1)) ld1 in
    let pressure := nonlinear_pressure config (SFabs ratio) in
    let raw_skew := ld_mul (if ld_lt ratio ld0 then SFopp pressure else pressure) (ld_of_Z (mc_max_inventory_skew_tick config)) in
    skew_clamp_round (ld_mul raw_skew (tte_multiplier config time_to_expiry_ns)).
End Skew.

(** [engine/strategy/market_making/inventory/DynamicInventoryTargeter.h:10-23] InventoryTargetInput: the fields that are read. *)
Record InventoryTargetInput := mkInventoryTargetInput {
  nt_event_type : ExternalFairEventType;
  nt_canonical_yes_market_mid_tick : Z;
  nt_canonical_yes_tradable_fair_tick : Z;
  nt_confidence_bps : Z;
  nt_current_canonical_yes_position_lots : Z
}.

(** [engine/strategy/market_making/inventory/DynamicInventoryTargeter.h:25-31] InventoryTargetOutput. *)
Record InventoryTargetOutput := mkInventoryTargetOutput {
  no_target_canonical_yes_lots : Z;
  no_min_canonical_yes_lots : Z;
  no_max_canonical_yes_lots : Z;
  no_inventory_skew_tick : Z;
  no_reason : string
}.

Definition is_up_touch (event_type : ExternalFairEventType) : bool := match event_type with EvUpTouch => true | _ => false end.

(** [engine/strategy/market_making/inventory/DynamicInventoryTargeter.cpp:20-38] compute: the size of the target by the size of the edge. *)
Definition target_by_edge (abs_edge confidence_bps : Z) : Z * string :=
  if abs_edge <? 10000 then (0, "edge_lt_1c"%string)
  else if abs_edge <? 2 * 10000 then (5, "edge_1c_2c"%string)
  else if abs_edge <? 4 * 10000 then (15, "edge_2c_4c"%string)
  else if abs_edge <? 8 * 10000 then (25, "edge_4c_8c"%string)
  else if 8000 <=? confidence_bps then (25, "edge_gt_8c_high_confidence"%string)
  else (0, "edge_gt_8c_low_confidence"%string).

(** [engine/strategy/market_making/inventory/DynamicInventoryTargeter.cpp:8-57] DynamicInventoryTargeter::compute. *)
Definition target_compute (input : InventoryTargetInput) : InventoryTargetOutput :=
  let min_lots := -25 in
  let max_lots := if is_up_touch (nt_event_type input) then 15 else 25 in
  let edge_tick := nt_canonical_yes_tradable_fair_tick input -i nt_canonical_yes_market_mid_tick input in
  let '(target_abs, reason) := target_by_edge (llabs edge_tick) (nt_confidence_bps input) in
  let target_abs := if is_up_touch (nt_event_type input) then Z.min target_abs 15 else target_abs in
  let signed_target := if 0 <? edge_tick then target_abs else - target_abs in
  let target := clamp_tick signed_target min_lots max_lots in
  mkInventoryTargetOutput target min_lots max_lots
    (clamp_tick ((nt_current_canonical_yes_position_lots input -i target) *i 1000) (-75000) 75000) reason.

(** [engine/strategy/market_making/risk/PortfolioTouchRiskManager.h:10-17] PortfolioTouchRiskInput. *)
Record PortfolioTouchRiskInput := mkTouchInput {
  tr_event_type : ExternalFairEventType;
  tr_current_canonical_yes_position_lots : Z;
  tr_proposed_canonical_yes_delta_lots : Z;
  tr_max_total_touch_yes_lots : Z;
  tr_max_upside_touch_lots : Z;
  tr_max_downside_touch_lots : Z
}.

(** [engine/strategy/market_making/risk/PortfolioTouchRiskManager.h:19-25] PortfolioTouchRiskOutput. *)
Record PortfolioTouchRiskOutput := mkTouchOutput {
  to_ok : bool;
  to_projected_total_touch_yes_lots : Z;
  to_projected_upside_touch_lots : Z;
  to_projected_downside_touch_lots : Z;
  to_reason : string
}.

(** [engine/strategy/market_making/risk/PortfolioTouchRiskManager.cpp:7-41] PortfolioTouchRiskManager::evaluate. *)
Definition touch_evaluate (input : PortfolioTouchRiskInput) : PortfolioTouchRiskOutput :=
  let projected := llabs (tr_current_canonical_yes_position_lots input +i tr_proposed_canonical_yes_delta_lots input) in
  let upside := match tr_event_type input with EvUpTouch => projected | _ => 0 end in
  let downside := match tr_event_type input with EvDownTouch => projected | _ => 0 end in
  if tr_max_total_touch_yes_lots input <? projected then mkTouchOutput false projected upside downside "max_total_touch_yes_lots"
  else if tr_max_upside_touch_lots input <? upside then mkTouchOutput false projected upside downside "max_upside_touch_lots"
  else if tr_max_downside_touch_lots input <? downside
  then mkTouchOutput false projected upside downside "max_downside_touch_lots"
  else mkTouchOutput true projected upside downside "ok".

(** ** The engine *)

(** [engine/strategy/market_making/core/MarketMakingWorkflow.h:11-34] MarketMakingInput. *)
Record MarketMakingInput := mkMarketMakingInput {
  mi_market_id : string;
  mi_asset_id : string;
  mi_market_index : Z;
  mi_asset_index : Z;
  mi_depth : option MarketDepthView;
  mi_complement_depth : option MarketDepthView;
  mi_current_position_lots : Z;
  mi_external_fair_value_tick : Z;
  mi_dynamic_target_position_lots : Z;
  mi_dynamic_min_inventory_lots : Z;
  mi_dynamic_max_inventory_lots : Z;
  mi_canonical_yes_fair_value_tick : Z;
  mi_canonical_yes_position_lots : Z;
  mi_target_canonical_yes_lots : Z;
  mi_dynamic_half_spread_tick : Z;
  mi_dynamic_min_half_spread_tick : Z;
  mi_dynamic_max_inventory_skew_tick : Z;
  mi_disable_bid_quotes : bool;
  mi_disable_ask_quotes : bool;
  mi_reward_config : option RewardConfigSnapshot;
  mi_now_ns : Z;
  mi_time_to_expiry_ns : Z
}.

(** [engine/strategy/market_making/public/MarketMakingResult.h:11-45] MarketMakingResult; the arrays hold what was emitted. *)
Record MarketMakingResult := mkMarketMakingResult {
  mr_ok : bool;
  mr_snapshots_seen : Z;
  mr_quotes_emitted : Z;
  mr_cancels_emitted : Z;
  mr_replacements : Z;
  mr_rejected_no_quote : Z;
  mr_no_quote_reason : NoQuoteReason;
  mr_fair_value_quality : FairValueQuality;
  mr_fair_confidence_bps : Z;
  mr_fair_book_spread_tick : Z;
  mr_fair_value_tick : Z;
  mr_active_quotes : Z;
  mr_approved_quotes : Z;
  mr_rejected_quotes : Z;
  mr_maker_fills : Z;
  mr_avg_half_spread_tick : Z;
  mr_avg_inventory_skew_tick : Z;
  mr_quote_uptime_ns : Z;
  mr_maker_realized_pnl_tick : Z;
  mr_maker_unrealized_pnl_tick : Z;
  mr_spread_capture_tick : Z;
  mr_adverse_selection_5s_tick : Z;
  mr_quotes : list QuoteIntent;
  mr_cancels : list CancelQuoteIntent;
  mr_output_hash : Z
}.

Definition mm_result0 : MarketMakingResult :=
  mkMarketMakingResult true 0 0 0 0 0 NqNone FvDisabled 0 0 0 0 0 0 0 0 0 0 0 0 0 0 [] [] 0.

(** [engine/strategy/market_making/public/MarketMakingResult.cpp:5-70] compute_market_making_result_hash. *)
Definition compute_market_making_result_hash (result : MarketMakingResult) : Z :=
  foldl quote_mix fnv_offset
    ([Qb (mr_ok result); Qu (mr_snapshots_seen result); Qu (mr_quotes_emitted result); Qu (mr_cancels_emitted result);
      Qu (mr_replacements result); Qu (mr_rejected_no_quote result); Qu (no_quote_reason_code (mr_no_quote_reason result));
      Qu (fair_quality_code (mr_fair_value_quality result)); Qi (mr_fair_confidence_bps result);
      Qi (mr_fair_book_spread_tick result); Qi (mr_fair_value_tick result); Qu (mr_active_quotes result);
      Qu (mr_approved_quotes result); Qu (mr_rejected_quotes result); Qu (mr_maker_fills result);
      Qi (mr_avg_half_spread_tick result); Qi (mr_avg_inventory_skew_tick result); Qu (mr_quote_uptime_ns result);
      Qi (mr_maker_realized_pnl_tick result); Qi (mr_maker_unrealized_pnl_tick result); Qi (mr_spread_capture_tick result);
      Qi (mr_adverse_selection_5s_tick result); Qu (Z.of_nat (length (mr_quotes result)))]
     ++ ((λ quote, Qu (compute_quote_intent_hash quote)) <$> mr_quotes result)
     ++ [Qu (Z.of_nat (length (mr_cancels result)))]
     ++ ((λ cancel, Qu (compute_cancel_quote_intent_hash cancel)) <$> mr_cancels result)).

(** [engine/strategy/market_making/core/MarketMakingEngine.cpp:12-29] reason_from_quote_build. *)
Definition reason_from_quote_build (reason : string) : NoQuoteReason :=
  if String.eqb reason "fair value unavailable" then NqFairValueUnavailable
  else if String.eqb reason "base quote size <= 0" || String.eqb reason "no inventory room or depth" then NqQuoteSizeUnavailable
  else if String.eqb reason "crossed or invalid quote prices" then NqInvalidQuotePrices
  else if String.eqb reason "no quote sides" then NqNoQuoteSides
  else NqQuoteBuildFailed.

(** [engine/strategy/market_making/core/MarketMakingEngine.cpp:31-50] reason_from_fair_quality. *)
Definition reason_from_fair_quality (quality : FairValueQuality) : NoQuoteReason :=
  match quality with
  | FvStaleBook => NqFairStaleBook
  | FvCrossedBook => NqFairCrossedBook
  | FvMissingBidAsk => NqFairMissingLiquidity
  | FvLowConfidence => NqFairLowConfidence
  | FvExternalStale => NqFairExternalStale
  | FvValid | FvDisabled => NqFairUnavailableUnknown
  end.

(** [engine/strategy/market_making/core/MarketMakingEngine.cpp:79-112] on_market_update: the configuration with the input's overrides. *)
Definition effective_config (config : MarketMakingConfig) (input : MarketMakingInput) : MarketMakingConfig :=
  let config := if 0 <? mi_external_fair_value_tick input
                then config <| mc_external_fair_value_tick := mi_external_fair_value_tick input |> else config in
  let config :=
    if negb (mi_dynamic_target_position_lots input =? 0) || negb (mi_dynamic_min_inventory_lots input =? 0) ||
       negb (mi_dynamic_max_inventory_lots input =? 0)
    then config <| mc_target_position_lots := mi_dynamic_target_position_lots input |>
           <| mc_min_inventory_lots := mi_dynamic_min_inventory_lots input |>
           <| mc_max_inventory_lots := mi_dynamic_max_inventory_lots input |>
    else config in
  let config :=
    if 0 <? mi_dynamic_half_spread_tick input then config <| mc_min_half_spread_tick := mi_dynamic_half_spread_tick input |>
    else if 0 <? mi_dynamic_min_half_spread_tick input
    then config <| mc_min_half_spread_tick ::= λ half, Z.max half (mi_dynamic_min_half_spread_tick input) |> else config in
  let config := if 0 <? mi_dynamic_max_inventory_skew_tick input
                then config <| mc_max_inventory_skew_tick := mi_dynamic_max_inventory_skew_tick input |> else config in
  let config := if mi_disable_bid_quotes input then config <| mc_enable_bid_quotes := false |> else config in
  if mi_disable_ask_quotes input then config <| mc_enable_ask_quotes := false |> else config.

(** [engine/strategy/market_making/core/MarketMakingEngine.h:18-38] MarketMakingEngine. *)
Record MarketMakingEngine := mkMarketMakingEngine {
  mm_config : MarketMakingConfig;
  mm_quote_book : QuoteBook
}.

(** [engine/strategy/market_making/core/MarketMakingEngine.cpp:61-63] remove_active_quote. *)
Definition remove_active_quote (asset_index : Z) (engine : MarketMakingEngine) : MarketMakingEngine * bool :=
  let '(book, removed) := quote_book_remove asset_index (mm_quote_book engine) in
  (engine <| mm_quote_book := book |>, removed).

Section Engine.
  Context (lm : LongMath).

(** [engine/strategy/market_making/core/MarketMakingEngine.cpp:126-163] on_market_update: the input of the quote engine. *)
Definition build_input_of (input : MarketMakingInput) (depth : MarketDepthView) (config : MarketMakingConfig)
    (fair : FairValueResult) (replacing : bool) : QuoteBuildInput :=
  mkQuoteBuild (mi_market_id input) (mi_asset_id input) (mi_market_index input) (mi_asset_index input)
    (Some depth) (Some config) fair (spread_compute config)
    (size_compute config depth (mi_current_position_lots input)) (mi_reward_config input)
    (skew_compute lm config (mi_current_position_lots input) (mi_time_to_expiry_ns input))
    (mi_canonical_yes_fair_value_tick input) (mi_canonical_yes_position_lots input) (mi_target_canonical_yes_lots input)
    (mi_current_position_lots input) (mi_now_ns input) (if replacing then QtReplaceQuote else QtPlaceQuote).

Definition build_of (input : MarketMakingInput) (depth : MarketDepthView) (config : MarketMakingConfig)
    (fair : FairValueResult) (replacing : bool) : QuoteBuildResult :=
  if fv_ok fair then quote_build (build_input_of input depth config fair replacing)
  else inl (fair_value_quality_name (fv_quality fair)).

(** [engine/strategy/market_making/core/MarketMakingEngine.cpp:65-197] MarketMakingEngine::on_market_update. *)
Definition on_market_update (input : MarketMakingInput) (engine : MarketMakingEngine) : MarketMakingEngine * MarketMakingResult :=
  let hashed result := result <| mr_output_hash := compute_market_making_result_hash result |> in
  let result := mm_result0 <| mr_snapshots_seen := 1 |> in
  match mi_depth input with
  | None => (engine, hashed (result <| mr_ok := false |> <| mr_rejected_no_quote := 1 |> <| mr_no_quote_reason := NqMissingDepth |>))
  | Some depth =>
      let config := effective_config (mm_config engine) input in
      let book := mm_quote_book engine in
      let active := quote_book_find (mi_asset_index input) book in
      let fair := fair_compute depth config (mi_now_ns input) (mi_complement_depth input) in
      let result := result <| mr_fair_value_quality := fv_quality fair |> <| mr_fair_confidence_bps := fv_confidence_bps fair |>
                      <| mr_fair_book_spread_tick := fv_book_spread_tick fair |> <| mr_fair_value_tick := fv_fair_value_tick fair |> in
      let build := build_of input depth config fair (bool_decide (is_Some active)) in
      let candidate := match build with inl _ => None | inr quote => Some quote end in
      let refresh := refresh_evaluate active candidate depth config (mi_current_position_lots input) (mi_now_ns input) in
      let '(book, result) :=
        match active with
        | Some quote =>
            if rf_should_cancel refresh then
              ((quote_book_remove (mi_asset_index input) book).1,
               result <| mr_cancels := [make_cancel_intent quote (rf_reason refresh) (mi_now_ns input)] |>
                 <| mr_cancels_emitted := 1 |>)
            else (book, result)
        | None => (book, result)
        end in
      let '(book, result) :=
        match build with
        | inr quote =>
            if negb (bool_decide (is_Some active)) || rf_should_replace refresh then
              (quote_book_upsert (active_quote_from_intent quote QsActivePaper) book,
               (if bool_decide (is_Some active) && rf_should_replace refresh then result <| mr_replacements := 1 |> else result)
                 <| mr_quotes := [quote] |> <| mr_quotes_emitted := 1 |>)
            else (book, result)
        | inl reason =>
            (book, result <| mr_rejected_no_quote := 1 |>
               <| mr_no_quote_reason := if fv_ok fair then reason_from_quote_build reason else reason_from_fair_quality (fv_quality fair) |>)
        end in
      (engine <| mm_quote_book := book |>, hashed result)
  end.
End Engine.

(** ** Selling is buying from the other side

    The two walks of the cumulative arrays are the same, so the results of
    [Depth] about buying hold for selling. *)
Definition swap_prefix (prefix : DepthPrefix) : DepthPrefix :=
  mkDepthPrefix (dp_bid_count prefix) (dp_ask_count prefix) (dp_bid_cum_qty prefix) (dp_bid_cum_proceeds prefix)
    (dp_ask_cum_qty prefix) (dp_ask_cum_cost prefix).

Lemma sell_is_buy_on_bids depth qty :
  sell_vwap_from_prefix depth qty = buy_vwap_from_prefix (dv_bids depth) (swap_prefix (dv_prefix depth)) qty.
Proof. reflexivity. Qed.

Lemma swap_build_prefix bids bid_count asks ask_count :
  swap_prefix (build_depth_prefix bids bid_count asks ask_count) = build_depth_prefix asks ask_count bids bid_count.
Proof. reflexivity. Qed.

(** ** Canonical exposure *)

(** Prices and positions translate to the yes outcome and back without loss. *)
Lemma canonical_price_roundtrip side price scale : 0 <= price <= scale → scale <= i64_max →
  canonical_yes_to_asset_tick side (asset_to_canonical_yes_tick side price scale) scale = price.
Proof.
  intros Hp Hs. unfold canonical_yes_to_asset_tick, asset_to_canonical_yes_tick, clamp_price_tick. cbv zeta.
  destruct side; [lia|]. rewrite !wrap_i64_id by rlia. lia.
Qed.

Lemma canonical_position_roundtrip side lots : - i64_max <= lots <= i64_max →
  canonical_yes_target_to_asset_position side (to_canonical_yes_exposure side lots) = lots.
Proof.
  intros Hl. unfold canonical_yes_target_to_asset_position, to_canonical_yes_exposure. destruct side; [done|].
  rewrite (wrap_i64_id (- lots)) by rlia. rewrite wrap_i64_id by rlia. lia.
Qed.

(** The canonical top of a book that is not crossed is not crossed, and as wide. *)
Lemma canonical_top_spec side bid ask scale : 0 < bid <= ask → ask <= scale → scale <= 2 ^ 40 →
  let top := canonical_yes_top_of_book side bid ask scale in
  0 <= ct_bid_tick top <= ct_ask_tick top ∧ ct_ask_tick top <= scale ∧ ct_spread_tick top = ask - bid.
Proof.
  intros Hb Ha Hs. unfold canonical_yes_top_of_book, clamp_price_tick.
  assert (Ht : (bid <=? 0) || (ask <=? 0) || (ask <? bid) || (scale <=? 0) = false) by lia. rewrite Ht. clear Ht.
  destruct side; cbv zeta beta iota.
  - destruct (Z.ltb_spec (Z.max 0 (Z.min scale ask)) (Z.max 0 (Z.min scale bid))); [lia|]. cbn.
    rewrite wrap_i64_id by rlia. lia.
  - rewrite !(wrap_i64_id (scale - _)) by rlia.
    destruct (Z.ltb_spec (Z.max 0 (Z.min scale (scale - bid))) (Z.max 0 (Z.min scale (scale - ask)))); [lia|]. cbn.
    rewrite wrap_i64_id by rlia. lia.
Qed.

(** ** Targets and touch limits *)

Lemma target_within_limits input :
  let out := target_compute input in
  no_min_canonical_yes_lots out <= no_target_canonical_yes_lots out <= no_max_canonical_yes_lots out ∧
  -75000 <= no_inventory_skew_tick out <= 75000.
Proof.
  unfold target_compute, clamp_tick. destruct (target_by_edge _ _) as [t r]. cbn. destruct (is_up_touch _); lia.
Qed.

(** The touch limits pass exactly when each limit that applies is respected. *)
Lemma touch_ok_iff input :
  lots_ok (tr_current_canonical_yes_position_lots input + tr_proposed_canonical_yes_delta_lots input) →
  0 <= tr_max_upside_touch_lots input → 0 <= tr_max_downside_touch_lots input →
  let projected := Z.abs (tr_current_canonical_yes_position_lots input + tr_proposed_canonical_yes_delta_lots input) in
  to_ok (touch_evaluate input) = true ↔
    projected <= tr_max_total_touch_yes_lots input ∧
    (tr_event_type input = EvUpTouch → projected <= tr_max_upside_touch_lots input) ∧
    (tr_event_type input = EvDownTouch → projected <= tr_max_downside_touch_lots input).
Proof.
  intros Hl Hu Hd projected. unfold lots_ok in Hl.
  assert (Hok : to_ok (touch_evaluate input) = true ↔
    projected <= tr_max_total_touch_yes_lots input ∧
    match tr_event_type input with EvUpTouch => projected | _ => 0 end <= tr_max_upside_touch_lots input ∧
    match tr_event_type input with EvDownTouch => projected | _ => 0 end <= tr_max_downside_touch_lots input).
  { unfold touch_evaluate. rewrite wrap_i64_id by rlia. rewrite llabs_exact by (unfold lots_ok; lia). fold projected.
    clearbody projected. clear Hl. cbv zeta. set (up := match tr_event_type input with EvUpTouch => _ | _ => _ end).
    set (down := match tr_event_type input with EvDownTouch => _ | _ => _ end). clearbody up down.
    destruct (Z.ltb_spec (tr_max_total_touch_yes_lots input) projected), (Z.ltb_spec (tr_max_upside_touch_lots input) up),
      (Z.ltb_spec (tr_max_downside_touch_lots input) down); cbn; split; (done || lia). }
  rewrite Hok. destruct (tr_event_type input); naive_solver lia.
Qed.

(** ** Sizes stay within the room and the depth *)

Lemma size_within_room config depth position :
  lots_ok position → lots_ok (mc_max_inventory_lots config) → lots_ok (mc_min_inventory_lots config) →
  let size := size_compute config depth position in
  0 <= qz_bid_qty_lots size ∧ 0 <= qz_ask_qty_lots size ∧
  (0 < qz_bid_qty_lots size → position + qz_bid_qty_lots size <= mc_max_inventory_lots config ∧
     qz_bid_qty_lots size <= ask_depth_from_prefix (dv_prefix depth)) ∧
  (0 < qz_ask_qty_lots size → mc_min_inventory_lots config <= position - qz_ask_qty_lots size ∧
     qz_ask_qty_lots size <= bid_depth_from_prefix (dv_prefix depth)).
Proof.
  unfold lots_ok. intros Hp Hmax Hmin. unfold size_compute. destruct (_ <=? 0); [cbn; lia|]. cbv zeta.
  cbn [qz_bid_qty_lots qz_ask_qty_lots].
  set (sb := scaled_size config (ld_sub _ _)). set (sa := scaled_size config (ld_add _ _)).
  rewrite (wrap_i64_id (mc_max_inventory_lots config - position)) by rlia.
  rewrite (wrap_i64_id (position - mc_min_inventory_lots config)) by rlia.
  clearbody sb sa. destruct (mc_enable_bid_quotes config && _ && _ && _) eqn:Eb, (mc_enable_ask_quotes config && _ && _ && _) eqn:Ea;
    breflect; repeat split; lia.
Qed.

(** ** A bad book has no fair value *)

Definition bad_book (depth : MarketDepthView) : bool :=
  negb (dv_usable_for_depth depth) || dv_recovering depth || dv_crossed depth || dv_closed depth || dv_resolved depth.

Lemma bad_book_unpriced depth config now_ns : bad_book depth = true →
  let fair := compute_book_fair depth config now_ns in fv_ok fair = false ∧ fv_quality fair ≠ FvLowConfidence.
Proof.
  unfold bad_book, compute_book_fair. intros Hb. cbv zeta.
  destruct (negb (dv_usable_for_depth depth) || dv_recovering depth || dv_closed depth || dv_resolved depth) eqn:E; [done|].
  destruct (dv_crossed depth) eqn:Ec; [done|]. exfalso. clear -Hb E Ec. lia.
Qed.

Lemma bad_book_no_fair depth config now_ns complement : bad_book depth = true →
  fv_ok (fair_compute depth config now_ns complement) = false.
Proof.
  intros Hb. destruct (bad_book_unpriced depth config now_ns Hb) as [Hok Hq]. unfold fair_compute.
  destruct ((0 <? mc_external_fair_weight_bps config) && _ && _); [done|]. cbv zeta. rewrite Hok. cbn [negb andb].
  rewrite bool_decide_false by done. cbn [andb]. by rewrite Hok.
Qed.

(** ** The engine *)

Section Engine.
Context (lm : LongMath).

(** What an update emits and does to the book of active quotes. *)
Lemma update_cases input engine depth engine' result :
  mi_depth input = Some depth → on_market_update lm input engine = (engine', result) →
  let config := effective_config (mm_config engine) input in
  let active := mm_quote_book engine !! mi_asset_index input in
  let build := build_of lm input depth config (fair_compute depth config (mi_now_ns input) (mi_complement_depth input))
                 (bool_decide (is_Some active)) in
  let refresh := refresh_evaluate active (match build with inl _ => None | inr quote => Some quote end) depth config
                   (mi_current_position_lots input) (mi_now_ns input) in
  mm_config engine' = mm_config engine ∧
  mr_cancels result =
    (match active with
     | Some quote => if rf_should_cancel refresh then [make_cancel_intent quote (rf_reason refresh) (mi_now_ns input)] else []
     | None => []
     end) ∧
  mr_quotes result =
    (match build with
     | inr quote => if negb (bool_decide (is_Some active)) || rf_should_replace refresh then [quote] else []
     | inl _ => []
     end) ∧
  mm_quote_book engine' =
    (let book := if bool_decide (is_Some active) && rf_should_cancel refresh
                 then delete (mi_asset_index input) (mm_quote_book engine) else mm_quote_book engine in
     foldl (λ book quote, quote_book_upsert (active_quote_from_intent quote QsActivePaper) book) book (mr_quotes result)).
Proof using Type.
  intros Hd. unfold on_market_update. rewrite Hd. unfold quote_book_find. cbv zeta.
  set (config := effective_config _ _). set (active := mm_quote_book engine !! _).
  set (fair := fair_compute _ _ _ _). set (build := build_of _ _ _ _ _ _). set (refresh := refresh_evaluate _ _ _ _ _ _).
  clearbody refresh build fair. destruct active as [quote|].
  - rewrite bool_decide_true by done. cbn [negb orb andb].
    destruct (rf_should_cancel refresh), build as [reason|q], (rf_should_replace refresh); intros [<- <-]%pair_eq; done.
  - rewrite bool_decide_false by (by intros []). cbn [negb orb andb].
    destruct build as [reason|q]; intros [<- <-]%pair_eq; done.
Qed.

(** A replacement is always preceded by a cancel. *)
Lemma replace_cancels active candidate depth config position now_ns :
  is_Some active → let refresh := refresh_evaluate active candidate depth config position now_ns in
  rf_should_replace refresh = true → rf_should_cancel refresh = true.
Proof using Type.
  intros [quote ->]. unfold refresh_evaluate. cbv zeta.
  destruct (_ || _); [done|]. destruct (quote_expired _ _); [done|]. destruct candidate as [candidate|]; [|done].
  repeat match goal with |- context [if ?b then _ else _] => destruct b end; done.
Qed.
End Engine.

(** ** The quotes at the venue

    What the emitted intents do elsewhere: an asset has at most one resting
    quote, known by its group and its id.  Placing needs a free asset, a cancel
    must name the resting quote, and a resting quote may also be taken away
    (it filled or expired, and the caller removed it). *)
Definition Venue := gmap Z (Z * Z).

Inductive MmEvent :=
| EvQuote (quote : QuoteIntent)
| EvCancel (cancel : CancelQuoteIntent)
| EvRemoved (asset_index : Z).

Inductive venue_step : Venue → MmEvent → Venue → Prop :=
| venue_place v quote :
    v !! qi_asset_index quote = None →
    venue_step v (EvQuote quote) (<[qi_asset_index quote := (qi_quote_group_id quote, qi_quote_intent_id quote)]> v)
| venue_cancel v cancel :
    v !! cq_asset_index cancel = Some (cq_quote_group_id cancel, cq_active_quote_id cancel) →
    venue_step v (EvCancel cancel) (delete (cq_asset_index cancel) v)
| venue_take v asset_index resting :
    v !! asset_index = Some resting → venue_step v (EvRemoved asset_index) (delete asset_index v).

Inductive venue_run : Venue → list MmEvent → Venue → Prop :=
| venue_done v : venue_run v [] v
| venue_more v1 e v2 es v3 : venue_step v1 e v2 → venue_run v2 es v3 → venue_run v1 (e :: es) v3.

Lemma venue_run_app v1 es1 v2 es2 v3 : venue_run v1 es1 v2 → venue_run v2 es2 v3 → venue_run v1 (es1 ++ es2) v3.
Proof. induction 1; intros H2; [done|]. econstructor; eauto. Qed.

Lemma venue_run_one v e v' : venue_step v e v' → venue_run v [e] v'.
Proof. intros H. econstructor; [done | constructor]. Qed.

(** The operations of the engine, and the events each of them emits. *)
Inductive MmOp := OpUpdate (input : MarketMakingInput) | OpRemove (asset_index : Z).

Definition mm_op (lm : LongMath) (op : MmOp) (engine : MarketMakingEngine) : MarketMakingEngine * list MmEvent :=
  match op with
  | OpUpdate input =>
      let '(engine, result) := on_market_update lm input engine in
      (engine, (EvCancel <$> mr_cancels result) ++ (EvQuote <$> mr_quotes result))
  | OpRemove asset_index =>
      let '(engine, removed) := remove_active_quote asset_index engine in
      (engine, if removed then [EvRemoved asset_index] else [])
  end.

Fixpoint mm_run (lm : LongMath) (ops : list MmOp) (engine : MarketMakingEngine) : MarketMakingEngine * list MmEvent :=
  match ops with
  | [] => (engine, [])
  | op :: ops =>
      let '(engine, events) := mm_op lm op engine in
      let '(engine, later) := mm_run lm ops engine in
      (engine, events ++ later)
  end.

Definition resting (quote : ActiveQuoteState) : Z * Z := (aq_quote_group_id quote, aq_quote_intent_id quote).
Definition venue_of (book : QuoteBook) : Venue := resting <$> book.

(** Every active quote is stored under its own asset. *)
Definition book_keyed (book : QuoteBook) : Prop := ∀ asset quote, book !! asset = Some quote → aq_asset_index quote = asset.

Lemma venue_of_upsert quote book :
  venue_of (quote_book_upsert quote book) = <[aq_asset_index quote := resting quote]> (venue_of book).
Proof. apply (fmap_insert (M := gmap Z) resting). Qed.

Lemma venue_of_delete asset book : venue_of (delete asset book) = delete asset (venue_of book).
Proof. apply (fmap_delete (M := gmap Z) resting). Qed.

Lemma venue_of_lookup asset (book : QuoteBook) : venue_of book !! asset = resting <$> (book !! asset).
Proof. apply (lookup_fmap (M := gmap Z) resting). Qed.

(** One operation: its events are possible at the venue and lead to the engine's new book. *)
Lemma op_refines_venue lm op engine engine' events :
  book_keyed (mm_quote_book engine) → mm_op lm op engine = (engine', events) →
  book_keyed (mm_quote_book engine') ∧
  venue_run (venue_of (mm_quote_book engine)) events (venue_of (mm_quote_book engine')).
Proof.
  intros Hk. destruct op as [input|asset]; cbn [mm_op].
  2:{ unfold remove_active_quote, quote_book_remove. intros [<- <-]%pair_eq.
      change (mm_quote_book (engine <| mm_quote_book := delete asset (mm_quote_book engine) |>))
        with (delete asset (mm_quote_book engine)).
      destruct (mm_quote_book engine !! asset) as [quote|] eqn:E.
      - rewrite bool_decide_true by done. split.
        + intros a q [_ Hq]%lookup_delete_Some. by apply Hk.
        + rewrite venue_of_delete. apply venue_run_one. apply (venue_take _ _ (resting quote)).
          by rewrite venue_of_lookup, E.
      - rewrite bool_decide_false by (by intros []). 
        replace (delete asset (mm_quote_book engine)) with (mm_quote_book engine)
          by (symmetry; by apply (delete_id (M := gmap Z))). split; [done|constructor]. }
  destruct (on_market_update lm input engine) as [e r] eqn:Hup. intros [<- <-]%pair_eq.
  destruct (mi_depth input) as [depth|] eqn:Hd.
  2:{ unfold on_market_update in Hup. rewrite Hd in Hup. apply pair_eq in Hup as [<- <-]. split; [done|constructor]. }
  destruct (update_cases lm input engine depth e r Hd Hup) as (_ & Hc & Hq & Hb).
  set (config := effective_config (mm_config engine) input) in *.
  set (fair := fair_compute depth config (mi_now_ns input) (mi_complement_depth input)) in *.
  set (active := mm_quote_book engine !! mi_asset_index input) in *.
  set (build := build_of lm input depth config fair (bool_decide (is_Some active))) in *.
  pose proof (replace_cancels active (match build with inl _ => None | inr quote => Some quote end) depth config
    (mi_current_position_lots input) (mi_now_ns input)) as Hrc. cbv zeta in Hrc.
  set (refresh := refresh_evaluate _ _ _ _ _ _) in *.
  assert (Hasset : ∀ quote, build = inr quote → qi_asset_index quote = mi_asset_index input).
  { intros quote. unfold build, build_of. destruct (fv_ok fair); [|done]. by intros ->%built_asset. }
  clearbody build refresh fair. rewrite Hq in Hb. rewrite Hc, Hq. clear Hup Hc Hq.
  (* the cancel *)
  set (mid := if bool_decide (is_Some active) && rf_should_cancel refresh
              then delete (mi_asset_index input) (mm_quote_book engine) else mm_quote_book engine) in *.
  assert (Hmid : book_keyed mid ∧ venue_run (venue_of (mm_quote_book engine))
    (EvCancel <$> match active with
      | Some quote => if rf_should_cancel refresh then [make_cancel_intent quote (rf_reason refresh) (mi_now_ns input)] else []
      | None => [] end) (venue_of mid) ∧
    (active = None ∨ rf_should_cancel refresh = true → mid !! mi_asset_index input = None)).
  { unfold mid. destruct active as [quote|] eqn:Ea.
    - rewrite bool_decide_true by done. cbn [andb]. destruct (rf_should_cancel refresh).
      + split; [intros a q [_ Ha]%lookup_delete_Some; by apply Hk|]. split; [|intros _; apply lookup_delete_eq].
        rewrite venue_of_delete. apply venue_run_one.
        assert (Hai : aq_asset_index quote = mi_asset_index input) by (by apply Hk). rewrite <- Hai.
        apply (venue_cancel _ (make_cancel_intent quote _ _)). cbn.
        rewrite venue_of_lookup, Hai. fold active. by rewrite Ea.
      + split; [done|]. split; [constructor|]. by intros [|].
    - rewrite bool_decide_false by (by intros []). cbn [andb]. split; [done|]. split; [constructor|]. by intros _. }
  destruct Hmid as (Hkm & Hrun & Hfree). clearbody mid.
  (* the quote *)
  destruct build as [reason|quote]; [cbn in Hb; rewrite Hb, app_nil_r; done|].
  specialize (Hasset quote eq_refl).
  destruct (negb (bool_decide (is_Some active)) || rf_should_replace refresh) eqn:Hemit;
    [|cbn in Hb; rewrite Hb, app_nil_r; done].
  cbn [foldl] in Hb. rewrite Hb. split.
  { intros a q Hl. unfold quote_book_upsert in Hl. apply (lookup_insert_Some (M := gmap Z)) in Hl as [[<- <-]|[_ Hl]]; [done|by apply Hkm]. }
  eapply venue_run_app; [exact Hrun|]. rewrite venue_of_upsert. apply venue_run_one. cbn.
  apply venue_place. rewrite venue_of_lookup, Hasset, Hfree; [done|].
  destruct active as [aq|]; [right|by left]. apply Hrc; [done|].
  rewrite bool_decide_true in Hemit by done. by cbn in Hemit.
Qed.

Lemma run_refines_venue lm ops engine engine' events :
  book_keyed (mm_quote_book engine) → mm_run lm ops engine = (engine', events) →
  book_keyed (mm_quote_book engine') ∧
  venue_run (venue_of (mm_quote_book engine)) events (venue_of (mm_quote_book engine')).
Proof.
  revert engine engine' events. induction ops as [|op ops IH]; intros engine engine' events Hk; cbn.
  { intros [<- <-]%pair_eq. split; [done|constructor]. }
  destruct (mm_op lm op engine) as [e1 es1] eqn:E1. destruct (mm_run lm ops e1) as [e2 es2] eqn:E2. intros [<- <-]%pair_eq.
  destruct (op_refines_venue lm op engine e1 es1 Hk E1) as [Hk1 H1]. destruct (IH e1 e2 es2 Hk1 E2) as [Hk2 H2].
  split; [done|]. by eapply venue_run_app.
Qed.

(** C30. The engine's book is the venue's.  Over any market updates and removals,
    from an engine without quotes, the emitted intents can be carried out one
    after the other at a venue that holds at most one quote per asset: no quote
    is placed where one rests, every cancel names the resting quote, and what
    rests at the end is exactly the engine's book of active quotes. *)
Theorem updates_refine_venue lm config ops engine events :
  mm_run lm ops (mkMarketMakingEngine config ∅) = (engine, events) →
  venue_run ∅ events (venue_of (mm_quote_book engine)).
Proof.
  intros Hrun. apply run_refines_venue in Hrun as [_ H]; [|intros a q Hl; cbn [mm_quote_book] in Hl; by apply (lookup_empty_Some (M := gmap Z)) in Hl].
  exact H.
Qed.

Lemma refresh_bad active candidate depth config position now_ns : bad_book depth = true →
  refresh_evaluate active candidate depth config position now_ns
  = mkRefresh (bool_decide (is_Some active)) false (if dv_closed depth || dv_resolved depth then CrMarketHalted else CrBookStale).
Proof. unfold bad_book, refresh_evaluate. by intros ->. Qed.

(** A bad book has no quotes.  When the book of an asset is unusable,
    recovering, crossed, closed or resolved, the next update leaves no active
    quote for the asset and emits none, and it emits the cancel of the one that
    was active. *)
Theorem bad_book_withdraws lm input engine depth engine' result :
  mi_depth input = Some depth → bad_book depth = true → on_market_update lm input engine = (engine', result) →
  mm_quote_book engine' !! mi_asset_index input = None ∧ mr_quotes result = [] ∧
  mr_cancels result =
    (match mm_quote_book engine !! mi_asset_index input with
     | Some quote =>
         [make_cancel_intent quote (if dv_closed depth || dv_resolved depth then CrMarketHalted else CrBookStale) (mi_now_ns input)]
     | None => []
     end).
Proof.
  intros Hd Hbad Hup. destruct (update_cases lm input engine depth engine' result Hd Hup) as (_ & Hc & Hq & Hb). revert Hc Hq Hb.
  set (config := effective_config _ _). set (active := mm_quote_book engine !! _). rewrite refresh_bad by done.
  unfold build_of. rewrite bad_book_no_fair by done. cbn [rf_should_cancel rf_reason]. intros -> Hq ->. rewrite Hq. cbn [foldl].
  destruct active as [quote|] eqn:E.
  - rewrite bool_decide_true by done. cbn [andb]. split; [apply (lookup_delete_eq (M := gmap Z)) | done].
  - rewrite bool_decide_false by (by intros []). done.
Qed.

(** The bounds that keep the engine's arithmetic from wrapping on an update. *)
Record UpdateSane (config : MarketMakingConfig) (input : MarketMakingInput) (fair_tick : Z) : Prop := {
  us_min : 0 < mc_min_price_tick config;
  us_max : mc_min_price_tick config <= mc_max_price_tick config <= 2 ^ 40;
  us_fair : ticks_ok fair_tick;
  us_position : lots_ok (mi_current_position_lots input);
  us_target : lots_ok (mc_target_position_lots config);
  us_limits : lots_ok (mc_min_inventory_lots config) ∧ lots_ok (mc_max_inventory_lots config)
}.

(** Quotes stay within the inventory limits.  Without a reward programme,
    every quote the engine emits is uncrossed and priced within the configured
    band, its bid cannot take the position over the configured maximum nor its
    ask take it under the minimum, and neither is larger than the depth it can
    trade against. *)
Theorem emitted_quotes_fit lm input engine depth engine' result quote :
  mi_depth input = Some depth →
  let config := effective_config (mm_config engine) input in
  mc_reward_aware_quotes_enabled config = false →
  UpdateSane config input (fv_fair_value_tick (fair_compute depth config (mi_now_ns input) (mi_complement_depth input))) →
  on_market_update lm input engine = (engine', result) → quote ∈ mr_quotes result →
  uncrossed quote ∧
  (qi_has_bid quote = true →
   mc_min_price_tick config <= ql_price_tick (qi_bid quote) <= mc_max_price_tick config ∧
   0 < ql_quantity_lots (qi_bid quote) <= ask_depth_from_prefix (dv_prefix depth) ∧
   mi_current_position_lots input + ql_quantity_lots (qi_bid quote) <= mc_max_inventory_lots config) ∧
  (qi_has_ask quote = true →
   mc_min_price_tick config <= ql_price_tick (qi_ask quote) <= mc_max_price_tick config ∧
   0 < ql_quantity_lots (qi_ask quote) <= bid_depth_from_prefix (dv_prefix depth) ∧
   mc_min_inventory_lots config <= mi_current_position_lots input - ql_quantity_lots (qi_ask quote)).
Proof.
  intros Hd config Hrew [Hmin Hmax Hfair Hpos Htarget [Hlmin Hlmax]] Hup Hin.
  destruct (update_cases lm input engine depth engine' result Hd Hup) as (_ & _ & Hq & _). fold config in Hq.
  set (fair := fair_compute depth config (mi_now_ns input) (mi_complement_depth input)) in *.
  set (replacing := bool_decide (is_Some (mm_quote_book engine !! mi_asset_index input))) in *.
  destruct (build_of lm input depth config fair replacing) as [reason|q] eqn:Eb; [rewrite Hq in Hin; set_solver|].
  assert (quote = q) as ->.
  { rewrite Hq in Hin. destruct (_ || _) in Hin; [by apply list_elem_of_singleton in Hin|set_solver]. }
  unfold build_of in Eb. destruct (fv_ok fair); [|done].
  set (bi := build_input_of lm input depth config fair replacing) in *.
  apply (quote_build_inr bi depth config) in Eb; [|done..].
  assert (Hs : BuildSane (mkBuildContext bi depth config)).
  { split; try done. cbn. destruct replacing; auto. }
  destruct (built_draft _ false q Hs (or_intror eq_refl) Eb) as [[_ _ _ Hbid Hask _] Hu].
  destruct (size_within_room config depth (mi_current_position_lots input) Hpos Hlmax Hlmin) as (_ & _ & Hrb & Hra).
  split; [done|]. split; intros Hh.
  - destruct (Hbid Hh) as [? ? _ _ _ Hsz]. specialize (Hsz Hrew). cbn in Hsz. cbn in *. lia.
  - destruct (Hask Hh) as [? ? _ _ _ Hsz]. specialize (Hsz Hrew). cbn in Hsz. cbn in *. lia.
Qed.

(** ** A concrete session *)

Definition plain_math : LongMath := mkLongMath (λ x _, x) (λ x, x).

Definition mm_input (depth : MarketDepthView) (position now_ns : Z) : MarketMakingInput :=
  mkMarketMakingInput "m" "a" 1 7 (Some depth) None position 0 0 0 0 0 0 0 0 0 0 false false None now_ns 0.

Definition mm_engine0 : MarketMakingEngine := mkMarketMakingEngine build_config ∅.

Definition halted_depth : MarketDepthView := quote_depth <| dv_closed := true |>.

(** A quote is placed, kept while nothing changes, replaced when the inventory moves, and withdrawn with the market. *)
Example session_emits :
  let '(engine, events) := mm_run plain_math [OpUpdate (mm_input quote_depth 10 2000); OpUpdate (mm_input quote_depth 10 3000);
    OpUpdate (mm_input quote_depth 14 4000); OpUpdate (mm_input halted_depth 14 5000)] mm_engine0 in
  mm_quote_book engine = ∅ ∧
  map (λ e, match e with EvQuote q => (0, qi_created_ts_ns q) | EvCancel c => (cancel_reason_code (cq_reason c), cq_created_ts_ns c)
                    | EvRemoved a => (9, a) end) events
  = [(0, 2000); (3, 4000); (0, 4000); (5, 5000)].
Proof. vm_compute. auto. Qed.

Definition two_updates : list MmOp := [OpUpdate (mm_input quote_depth 10 2000); OpUpdate (mm_input quote_depth 14 4000)].

Lemma updates_refine_venue_witness :
  let run := mm_run plain_math two_updates mm_engine0 in
  length run.2 = 3%nat ∧ venue_run ∅ run.2 (venue_of (mm_quote_book run.1)).
Proof.
  split; [vm_compute; reflexivity|]. apply (updates_refine_venue plain_math build_config two_updates), surjective_pairing.
Defined.

Lemma bad_book_withdraws_witness :
  let engine := (on_market_update plain_math (mm_input quote_depth 10 2000) mm_engine0).1 in
  is_Some (mm_quote_book engine !! 7) ∧
  mm_quote_book (on_market_update plain_math (mm_input halted_depth 10 3000) engine).1 !! 7 = None.
Proof.
  split; [vm_compute; eexists; reflexivity|].
  eapply (bad_book_withdraws plain_math (mm_input halted_depth 10 3000)); [reflexivity|reflexivity|apply surjective_pairing].
Defined.

Lemma emitted_quotes_fit_witness :
  let result := (on_market_update plain_math (mm_input quote_depth 10 2000) mm_engine0).2 in
  let quote := default quote_intent0 (head (mr_quotes result)) in
  length (mr_quotes result) = 1%nat ∧ (qi_has_bid quote = true → 10 + ql_quantity_lots (qi_bid quote) <= 50).
Proof.
  split; [vm_compute; reflexivity|]. intros Hb. set (quote := default quote_intent0 _) in *.
  destruct (emitted_quotes_fit plain_math (mm_input quote_depth 10 2000) mm_engine0 quote_depth
    (on_market_update plain_math (mm_input quote_depth 10 2000) mm_engine0).1
    (on_market_update plain_math (mm_input quote_depth 10 2000) mm_engine0).2 quote eq_refl eq_refl) as (_ & Hbid & _).
  - constructor; vm_compute; repeat split; (discriminate || reflexivity).
  - apply surjective_pairing.
  - vm_compute. left.
  - destruct (Hbid Hb) as (_ & _ & Hroom). exact Hroom.
Defined.
