(* ===== verification/MakerExecution.v ===== *)
(** * MakerExecution: quotes that rest at a simulated venue

    [engine/execution/public/MakerExecutionTypes], [state/ActivePaperQuoteBook.cpp],
    [adapter/PaperMakerFillModel.cpp] and [adapter/PaperMakerExecutionAdapter.cpp]:
    approved quotes are kept in a book with two indices, market events fill them
    by one of four rules, and every fill is recorded and reported.  The theorems
    say that the indices agree with the book, that a report has evidence in the
    market event and is what the book recorded, that no more is ever filled than
    was approved, and that the position of an approved quote stays within the
    limit risk approved it under. *)

From Stdlib Require Import ZifyBool.
From stdpp Require Import sorting strings.
From S2P Require Import Prelude FixedPoint Hashing Doubles RiskTypes Depth QuoteTypes ExecutionTypes PaperLedger QuoteRisk.
#[local] Open Scope Z_scope.

#[local] Arguments constant {_} _ _ /.

(** ** Data *)

(** [engine/execution/public/MakerExecutionTypes.h:14-20] PaperMakerFillMode. *)
Inductive PaperMakerFillMode := FmNoFill | FmConservative | FmBookCross | FmMidCross | FmQueueAware.
#[export] Instance PaperMakerFillMode_eq_dec : EqDecision PaperMakerFillMode.
Proof. solve_decision. Defined.

(** [engine/execution/public/MakerExecutionTypes.h:40-64] PaperMakerQuote. *)
Record PaperMakerQuote := mkPaperMakerQuote {
  pm_quote_id : Z;
  pm_approved_quote_id : Z;
  pm_quote_intent_id : Z;
  pm_quote_group_id : Z;
  pm_asset_index : Z;
  pm_asset_id : string;
  pm_has_bid : bool;
  pm_has_ask : bool;
  pm_bid : QuoteLeg;
  pm_ask : QuoteLeg;
  pm_status : MakerQuoteStatus;
  pm_filled_bid_qty_lots : Z;
  pm_filled_ask_qty_lots : Z;
  pm_created_ts_ns : Z;
  pm_expires_at_ns : Z;
  pm_idempotency_hash : Z
}.

(** [engine/execution/public/MakerExecutionTypes.h:90-96] MakerSubmitResult. *)
Record MakerSubmitResult := mkMakerSubmitResult {
  mu_ok : bool;
  mu_duplicate_ignored : bool;
  mu_replaced : bool;
  mu_quote_id : Z;
  mu_error : string
}.

(** [engine/execution/public/MakerExecutionTypes.h:98-102] MakerCancelResult. *)
Record MakerCancelResult := mkMakerCancelResult {
  mx_ok : bool;
  mx_quote_id : Z;
  mx_error : string
}.

(** [engine/execution/public/MakerExecutionTypes.cpp:20-31] compute_paper_maker_quote_id. *)
Definition compute_paper_maker_quote_id (quote : ApprovedQuote) : Z :=
  nonzero_hash (foldl mix_u64 fnv_offset
    [apq_approved_quote_id quote; apq_quote_intent_id quote; apq_quote_group_id quote; apq_idempotency_hash quote;
     apq_policy_hash quote; apq_snapshot_version_hash quote]).

Lemma quote_id_nonzero quote : compute_paper_maker_quote_id quote ≠ 0.
Proof. apply nonzero_hash_nonzero. Qed.

(** [engine/execution/adapter/PaperMakerFillModel.h:13-22] PaperMakerMarketEvent. *)
Record PaperMakerMarketEvent := mkPaperMakerMarketEvent {
  pe_ts_ns : Z;
  pe_asset_index : Z;
  pe_depth : option MarketDepthView;
  pe_has_trade : bool;
  pe_trade_price_tick : Z;
  pe_trade_qty_lots : Z;
  pe_trade_aggressor_side : OrderSide
}.

(** [engine/execution/adapter/PaperMakerFillModel.h:24-42] MakerFillResult. *)
Record MakerFillResult := mkMakerFillResult {
  mf_filled : bool;
  mf_quote_id : Z;
  mf_approved_quote_id : Z;
  mf_quote_group_id : Z;
  mf_asset_index : Z;
  mf_asset_id : string;
  mf_side : QuoteSide;
  mf_filled_qty_lots : Z;
  mf_fill_price_tick : Z;
  mf_ts_ns : Z;
  mf_reason : string
}.

(** [engine/execution/adapter/PaperMakerExecutionAdapter.h:11-16] PaperMakerExecutionConfig. *)
Record PaperMakerExecutionConfig := mkPaperMakerExecutionConfig {
  pk_fill_mode : PaperMakerFillMode;
  pk_allow_partial_fills : bool;
  pk_max_fill_qty_per_trade : Z;
  pk_queue_min_rest_ns : Z
}.
Definition paper_maker_config0 : PaperMakerExecutionConfig := mkPaperMakerExecutionConfig FmConservative true 0 250000000.

(** The two sides of a quote and of an approved quote. *)
Definition pm_has (side : QuoteSide) (q : PaperMakerQuote) : bool := match side with QsBid => pm_has_bid q | QsAsk => pm_has_ask q end.
Definition pm_leg (side : QuoteSide) (q : PaperMakerQuote) : QuoteLeg := match side with QsBid => pm_bid q | QsAsk => pm_ask q end.
Definition pm_filled (side : QuoteSide) (q : PaperMakerQuote) : Z :=
  match side with QsBid => pm_filled_bid_qty_lots q | QsAsk => pm_filled_ask_qty_lots q end.

(** ** The book of active quotes *)

(** [engine/execution/state/ActivePaperQuoteBook.h:12-58] ActivePaperQuoteBook. *)
Record ActivePaperQuoteBook := mkActivePaperQuoteBook {
  ab_quotes_by_id : gmap Z PaperMakerQuote;
  ab_quote_id_by_group : gmap Z Z;
  ab_quote_id_by_idempotency_hash : gmap Z Z;
  ab_duplicate_ignored_count : nat;
  ab_cancelled_quote_count : nat;
  ab_expired_quote_count : nat;
  ab_replaced_quote_count : nat;
  ab_last_add_replaced : bool
}.
Definition quote_book0 : ActivePaperQuoteBook := mkActivePaperQuoteBook ∅ ∅ ∅ 0 0 0 0 false.

(** [engine/execution/state/ActivePaperQuoteBook.cpp:9-15] quote_fully_filled. *)
Definition quote_fully_filled (q : PaperMakerQuote) : bool :=
  let bid_done := negb (pm_has_bid q) || (ql_quantity_lots (pm_bid q) <=? pm_filled_bid_qty_lots q) in
  let ask_done := negb (pm_has_ask q) || (ql_quantity_lots (pm_ask q) <=? pm_filled_ask_qty_lots q) in
  bid_done && ask_done.

(** [engine/execution/state/ActivePaperQuoteBook.cpp:19-44] ActivePaperQuoteBook::make_quote. *)
Definition make_quote (quote : ApprovedQuote) (now_ns : Z) : PaperMakerQuote :=
  mkPaperMakerQuote (compute_paper_maker_quote_id quote) (apq_approved_quote_id quote) (apq_quote_intent_id quote)
    (apq_quote_group_id quote)
    (if apq_has_bid quote then ql_asset_index (apq_bid quote) else if apq_has_ask quote then ql_asset_index (apq_ask quote) else 0)
    (if apq_has_bid quote then ql_asset_id (apq_bid quote) else if apq_has_ask quote then ql_asset_id (apq_ask quote) else "")
    (apq_has_bid quote) (apq_has_ask quote) (apq_bid quote) (apq_ask quote) MqActivePaper 0 0 now_ns
    (apq_expires_at_ns quote) (apq_idempotency_hash quote).

(** The entry of an idempotency hash goes, unless the hash is zero. *)
Definition erase_idempotency (hash : Z) (b : ActivePaperQuoteBook) : ActivePaperQuoteBook :=
  if hash =? 0 then b else b <| ab_quote_id_by_idempotency_hash ::= delete hash |>.

(** [engine/execution/state/ActivePaperQuoteBook.cpp:115-119] cancel_by_quote_id: the quote leaves the three maps; [expire_old] and
    [apply_fill] do the same. *)
Definition drop_quote (quote_id : Z) (q : PaperMakerQuote) (b : ActivePaperQuoteBook) : ActivePaperQuoteBook :=
  erase_idempotency (pm_idempotency_hash q) (b <| ab_quote_id_by_group ::= delete (pm_quote_group_id q) |>)
    <| ab_quotes_by_id ::= delete quote_id |>.

(** [engine/execution/state/ActivePaperQuoteBook.cpp:62-70] add_or_replace: the quote of a group leaves the three maps;
    [cancel_by_group] does the same. *)
Definition drop_group (quote_group_id quote_id : Z) (b : ActivePaperQuoteBook) : ActivePaperQuoteBook :=
  let b := match ab_quotes_by_id b !! quote_id with
           | Some old => erase_idempotency (pm_idempotency_hash old) b
           | None => b
           end in
  b <| ab_quotes_by_id ::= delete quote_id |> <| ab_quote_id_by_group ::= delete quote_group_id |>.

(** [engine/execution/state/ActivePaperQuoteBook.cpp:79-84] ActivePaperQuoteBook::add_or_replace: the quote enters the maps. *)
Definition enter_quote (q : PaperMakerQuote) (b : ActivePaperQuoteBook) : ActivePaperQuoteBook :=
  let b := b <| ab_quote_id_by_group ::= <[pm_quote_group_id q := pm_quote_id q]> |> in
  let b := if pm_idempotency_hash q =? 0 then b
           else b <| ab_quote_id_by_idempotency_hash ::= <[pm_idempotency_hash q := pm_quote_id q]> |> in
  b <| ab_quotes_by_id ::= <[pm_quote_id q := q]> |>.

(** [engine/execution/state/ActivePaperQuoteBook.cpp:46-86] ActivePaperQuoteBook::add_or_replace. *)
Definition add_or_replace (quote : ApprovedQuote) (now_ns : Z) (b : ActivePaperQuoteBook) : bool * ActivePaperQuoteBook :=
  let b := b <| ab_last_add_replaced := false |> in
  if negb (apq_has_bid quote) && negb (apq_has_ask quote) then (false, b)
  else if negb (apq_idempotency_hash quote =? 0) &&
          bool_decide (is_Some (ab_quote_id_by_idempotency_hash b !! apq_idempotency_hash quote))
  then (false, b <| ab_duplicate_ignored_count ::= S |>)
  else
    let b := match ab_quote_id_by_group b !! apq_quote_group_id quote with
             | Some id => (drop_group (apq_quote_group_id quote) id b) <| ab_replaced_quote_count ::= S |>
                            <| ab_last_add_replaced := true |>
             | None => b
             end in
    let paper_quote := make_quote quote now_ns in
    if pm_quote_id paper_quote =? 0 then (false, b) else (true, enter_quote paper_quote b).

(** [engine/execution/state/ActivePaperQuoteBook.cpp:88-105] ActivePaperQuoteBook::cancel_by_group. *)
Definition cancel_by_group (quote_group_id : Z) (b : ActivePaperQuoteBook) : bool * ActivePaperQuoteBook :=
  match ab_quote_id_by_group b !! quote_group_id with
  | None => (false, b)
  | Some quote_id => (true, (drop_group quote_group_id quote_id b) <| ab_cancelled_quote_count ::= S |>)
  end.

(** [engine/execution/state/ActivePaperQuoteBook.cpp:107-122] ActivePaperQuoteBook::cancel_by_quote_id. *)
Definition cancel_by_quote_id (quote_id : Z) (b : ActivePaperQuoteBook) : bool * ActivePaperQuoteBook :=
  match ab_quotes_by_id b !! quote_id with
  | None => (false, b)
  | Some q => (true, (drop_quote quote_id q b) <| ab_cancelled_quote_count ::= S |>)
  end.

(** [engine/execution/state/ActivePaperQuoteBook.cpp:127-127] ActivePaperQuoteBook::expire_old: the condition. *)
Definition quote_expired (now_ns : Z) (q : PaperMakerQuote) : bool :=
  negb (pm_expires_at_ns q =? 0) && (pm_expires_at_ns q <=? now_ns).

(** [engine/execution/state/ActivePaperQuoteBook.cpp:133-142] ActivePaperQuoteBook::expire_old: one expired id. *)
Definition expire_one (b : ActivePaperQuoteBook) (quote_id : Z) : ActivePaperQuoteBook :=
  match ab_quotes_by_id b !! quote_id with
  | None => b
  | Some q => (drop_quote quote_id q b) <| ab_expired_quote_count ::= S |>
  end.

(** [engine/execution/state/ActivePaperQuoteBook.cpp:124-144] ActivePaperQuoteBook::expire_old. *)
Definition expire_old (now_ns : Z) (b : ActivePaperQuoteBook) : ActivePaperQuoteBook :=
  let expired := (filter (λ kv, quote_expired now_ns kv.2 = true) (map_to_list (ab_quotes_by_id b))).*1 in
  foldl expire_one b (merge_sort Z.le expired).

(** [engine/execution/state/ActivePaperQuoteBook.cpp:159-167] ActivePaperQuoteBook::apply_fill: the filled quantity of a side. *)
Definition fill_side (side : QuoteSide) (qty_lots : Z) (q : PaperMakerQuote) : PaperMakerQuote :=
  match side with
  | QsBid => q <| pm_filled_bid_qty_lots ::= λ f, Z.min (ql_quantity_lots (pm_bid q)) (f +i qty_lots) |>
  | QsAsk => q <| pm_filled_ask_qty_lots ::= λ f, Z.min (ql_quantity_lots (pm_ask q)) (f +i qty_lots) |>
  end.

(** [engine/execution/state/ActivePaperQuoteBook.cpp:146-178] ActivePaperQuoteBook::apply_fill. *)
Definition apply_fill (quote_id : Z) (side : QuoteSide) (qty_lots : Z) (b : ActivePaperQuoteBook) : bool * ActivePaperQuoteBook :=
  if qty_lots <=? 0 then (false, b)
  else
    match ab_quotes_by_id b !! quote_id with
    | None => (false, b)
    | Some q =>
        if pm_has side q then
          let q := fill_side side qty_lots q in
          let full := quote_fully_filled q in
          let q := q <| pm_status := if full then MqFilled else MqPartiallyFilled |> in
          (true, if full then drop_quote quote_id q b else b <| ab_quotes_by_id ::= <[quote_id := q]> |>)
        else (false, b)
    end.

(** The order of [std::sort] on quotes. *)
Definition quote_le (p q : PaperMakerQuote) : Prop := pm_quote_id p <= pm_quote_id q.
#[export] Instance quote_le_dec p q : Decision (quote_le p q).
Proof. unfold quote_le. apply _. Defined.

(** [engine/execution/state/ActivePaperQuoteBook.cpp:180-193] ActivePaperQuoteBook::active_quotes_for_asset. *)
Definition active_quotes_for_asset (asset_index : Z) (b : ActivePaperQuoteBook) : list PaperMakerQuote :=
  merge_sort quote_le (filter (λ q, pm_asset_index q = asset_index) (map_to_list (ab_quotes_by_id b)).*2).

(** [engine/execution/state/ActivePaperQuoteBook.cpp:195-200] ActivePaperQuoteBook::find_by_quote_id. *)
Definition find_by_quote_id (quote_id : Z) (b : ActivePaperQuoteBook) : option PaperMakerQuote := ab_quotes_by_id b !! quote_id.

(** [engine/execution/state/ActivePaperQuoteBook.cpp:202-204] ActivePaperQuoteBook::active_quote_count. *)
Definition active_quote_count (b : ActivePaperQuoteBook) : nat := size (ab_quotes_by_id b).

(** ** When a quote is filled *)

(** [engine/execution/adapter/PaperMakerFillModel.cpp:10-17] level_size_lots; out of the range of 64 bits the
    conversion of the machine answers its least integer. *)
Definition level_size_lots (level : PriceLevel) : Z :=
  if negb (isfinite (pl_size level)) || le_zero (pl_size level) then 0
  else if ge_int (pl_size level) (2 ^ 63) then i64_min else floor_Z (pl_size level).

(** [engine/execution/adapter/PaperMakerFillModel.cpp:19-36] remaining_for. *)
Definition remaining_for (q : PaperMakerQuote) (side : QuoteSide) : Z :=
  if pm_has side q then Z.max 0 (ql_quantity_lots (pm_leg side q) -i pm_filled side q) else 0.

(** [engine/execution/adapter/PaperMakerFillModel.cpp:38-59] make_fill. *)
Definition make_fill (q : PaperMakerQuote) (side : QuoteSide) (qty price ts : Z) (reason : string) : MakerFillResult :=
  mkMakerFillResult (0 <? qty) (pm_quote_id q) (pm_approved_quote_id q) (pm_quote_group_id q) (pm_asset_index q)
    (pm_asset_id q) side qty price ts reason.

(** [engine/execution/adapter/PaperMakerFillModel.cpp:61-76] capped_qty. *)
Definition capped_qty (config : PaperMakerExecutionConfig) (remaining evidence_qty : Z) : Z :=
  if (remaining <=? 0) || (evidence_qty <=? 0) then 0
  else
    let qty := if pk_allow_partial_fills config then Z.min remaining evidence_qty
               else if remaining <=? evidence_qty then remaining else 0 in
    if 0 <? pk_max_fill_qty_per_trade config then Z.min qty (pk_max_fill_qty_per_trade config) else qty.

(** [engine/execution/adapter/PaperMakerFillModel.cpp:102-119] PaperMakerFillModel::evaluate: the fill of one side
    when its price was reached; the other branches repeat it. *)
Definition side_fill (config : PaperMakerExecutionConfig) (q : PaperMakerQuote) (event : PaperMakerMarketEvent)
    (side : QuoteSide) (reached : bool) (evidence_qty : Z) (reason : string) : list MakerFillResult :=
  if pm_has side q && reached then
    let qty := capped_qty config (remaining_for q side) evidence_qty in
    if 0 <? qty then [make_fill q side qty (ql_price_tick (pm_leg side q)) (pe_ts_ns event) reason] else []
  else [].

(** The first level of each side of a book. *)
Definition top_level (levels : list PriceLevel) : PriceLevel := default no_level (levels !! 0%nat).

(** [engine/execution/adapter/PaperMakerFillModel.cpp:97-139] evaluate: the Conservative rule. *)
Definition conservative_fills (config : PaperMakerExecutionConfig) (q : PaperMakerQuote) (event : PaperMakerMarketEvent) :
    list MakerFillResult :=
  if negb (pe_has_trade event) || (pe_trade_qty_lots event <=? 0) || (pe_trade_price_tick event <=? 0) then []
  else
    side_fill config q event QsBid (pe_trade_price_tick event <=? ql_price_tick (pm_bid q)) (pe_trade_qty_lots event)
      "trade_through_bid"
    ++ side_fill config q event QsAsk (ql_price_tick (pm_ask q) <=? pe_trade_price_tick event) (pe_trade_qty_lots event)
      "trade_through_ask".

(** [engine/execution/adapter/PaperMakerFillModel.cpp:141-185] evaluate: the BookCross rule. *)
Definition book_cross_fills (config : PaperMakerExecutionConfig) (q : PaperMakerQuote) (event : PaperMakerMarketEvent)
    (depth : MarketDepthView) : list MakerFillResult :=
  let ask := top_level (dv_asks depth) in
  let bid := top_level (dv_bids depth) in
  side_fill config q event QsBid
    ((0 <? dv_ask_count depth)%nat && (0 <? pl_price_tick ask) && (pl_price_tick ask <=? ql_price_tick (pm_bid q)))
    (level_size_lots ask) "book_cross_bid"
  ++ side_fill config q event QsAsk
    ((0 <? dv_bid_count depth)%nat && (0 <? pl_price_tick bid) && (ql_price_tick (pm_ask q) <=? pl_price_tick bid))
    (level_size_lots bid) "book_cross_ask".

(** [engine/execution/adapter/PaperMakerFillModel.cpp:186-232] evaluate: the QueueAware rule. *)
Definition queue_aware_fills (config : PaperMakerExecutionConfig) (q : PaperMakerQuote) (event : PaperMakerMarketEvent)
    (depth : MarketDepthView) : list MakerFillResult :=
  if (pe_ts_ns event <? pm_created_ts_ns q) || (pe_ts_ns event - pm_created_ts_ns q <? pk_queue_min_rest_ns config) then []
  else
    let ask := top_level (dv_asks depth) in
    let bid := top_level (dv_bids depth) in
    side_fill config q event QsBid
      ((0 <? dv_ask_count depth)%nat && (0 <? pl_price_tick ask) && (pl_price_tick ask <? ql_price_tick (pm_bid q)))
      (level_size_lots ask) "queue_aware_cross_bid"
    ++ side_fill config q event QsAsk
      ((0 <? dv_bid_count depth)%nat && (0 <? pl_price_tick bid) && (ql_price_tick (pm_ask q) <? pl_price_tick bid))
      (level_size_lots bid) "queue_aware_cross_ask".

(** [engine/execution/adapter/PaperMakerFillModel.cpp:233-280] evaluate: the MidCross rule. *)
Definition mid_cross_fills (config : PaperMakerExecutionConfig) (q : PaperMakerQuote) (event : PaperMakerMarketEvent)
    (depth : MarketDepthView) : list MakerFillResult :=
  let ask := top_level (dv_asks depth) in
  let bid := top_level (dv_bids depth) in
  if (dv_bid_count depth =? 0)%nat || (dv_ask_count depth =? 0)%nat || (pl_price_tick bid <=? 0) || (pl_price_tick ask <=? 0)
  then []
  else
    let mid_tick := Z.quot (pl_price_tick bid +i pl_price_tick ask) 2 in
    side_fill config q event QsBid (mid_tick <=? ql_price_tick (pm_bid q)) (Z.max 1 (level_size_lots ask)) "mid_cross_bid"
    ++ side_fill config q event QsAsk (ql_price_tick (pm_ask q) <=? mid_tick) (Z.max 1 (level_size_lots bid)) "mid_cross_ask".

(** [engine/execution/adapter/PaperMakerFillModel.cpp:89-95] evaluate: when a quote cannot fill at all. *)
Definition cannot_fill (config : PaperMakerExecutionConfig) (q : PaperMakerQuote) (event : PaperMakerMarketEvent) : bool :=
  bool_decide (pk_fill_mode config = FmNoFill)
  || match pm_status q with MqCancelled | MqExpired | MqFilled => true | _ => false end
  || quote_expired (pe_ts_ns event) q.

(** [engine/execution/adapter/PaperMakerFillModel.cpp:80-282] PaperMakerFillModel::evaluate. *)
Definition evaluate (config : PaperMakerExecutionConfig) (q : PaperMakerQuote) (event : PaperMakerMarketEvent) :
    list MakerFillResult :=
  if cannot_fill config q event then []
  else
    match pk_fill_mode config, pe_depth event with
    | FmConservative, _ => conservative_fills config q event
    | FmBookCross, Some depth => book_cross_fills config q event depth
    | FmQueueAware, Some depth => queue_aware_fills config q event depth
    | FmMidCross, Some depth => mid_cross_fills config q event depth
    | _, _ => []
    end.

(** ** The adapter *)

(** [engine/execution/adapter/PaperMakerExecutionAdapter.h:18-51] PaperMakerExecutionAdapter. *)
Record PaperMakerExecutionAdapter := mkPaperMakerExecutionAdapter {
  pa_config : PaperMakerExecutionConfig;
  pa_quote_book : ActivePaperQuoteBook
}.

(** [engine/execution/adapter/PaperMakerExecutionAdapter.cpp:12-37] submit_approved_quote. *)
Definition submit_approved_quote (quote : ApprovedQuote) (now_ns : Z) (a : PaperMakerExecutionAdapter) :
    MakerSubmitResult * PaperMakerExecutionAdapter :=
  if negb (apq_has_bid quote) && negb (apq_has_ask quote)
  then (mkMakerSubmitResult false false false 0 "approved quote has no active sides", a)
  else if negb (apq_expires_at_ns quote =? 0) && (apq_expires_at_ns quote <=? now_ns)
  then (mkMakerSubmitResult false false false 0 "approved quote expired", a)
  else
    let before_duplicates := ab_duplicate_ignored_count (pa_quote_book a) in
    let '(ok, book) := add_or_replace quote now_ns (pa_quote_book a) in
    let duplicate := (before_duplicates <? ab_duplicate_ignored_count book)%nat in
    (mkMakerSubmitResult (ok || duplicate) duplicate (ab_last_add_replaced book) (compute_paper_maker_quote_id quote)
       (if ok || duplicate then "" else "failed to add paper maker quote"),
     a <| pa_quote_book := book |>).

(** [engine/execution/adapter/PaperMakerExecutionAdapter.cpp:39-49] cancel_quote_group. *)
Definition cancel_quote_group (quote_group_id : Z) (a : PaperMakerExecutionAdapter) :
    MakerCancelResult * PaperMakerExecutionAdapter :=
  let '(ok, book) := cancel_by_group quote_group_id (pa_quote_book a) in
  (mkMakerCancelResult ok 0 (if ok then "" else "quote group not active"), a <| pa_quote_book := book |>).

(** [engine/execution/adapter/PaperMakerExecutionAdapter.cpp:99-121] make_report. *)
Definition make_report (fill : MakerFillResult) (remaining_qty_lots : Z) : MakerExecutionReport :=
  let report := mkMakerExecutionReport 0 (mf_quote_id fill) (mf_approved_quote_id fill) (mf_quote_group_id fill)
    (mf_asset_index fill) (mf_asset_id fill) (mf_side fill)
    (if remaining_qty_lots =? 0 then MqFilled else MqPartiallyFilled) FlMaker (mf_filled_qty_lots fill)
    (mf_fill_price_tick fill) remaining_qty_lots (mf_ts_ns fill) (mf_ts_ns fill) (mf_reason fill) in
  report <| mr_report_id := compute_maker_execution_report_hash report |>.

(** [engine/execution/adapter/PaperMakerExecutionAdapter.cpp:65-81] on_market_event: one fill of a quote is recorded
    and reported. *)
Definition record_fill (q : PaperMakerQuote) (acc : ActivePaperQuoteBook * list MakerExecutionReport) (fill : MakerFillResult) :
    ActivePaperQuoteBook * list MakerExecutionReport :=
  let remaining_before := ql_quantity_lots (pm_leg (mf_side fill) q) -i pm_filled (mf_side fill) q in
  let remaining_after := if mf_filled_qty_lots fill <? remaining_before then remaining_before -i mf_filled_qty_lots fill else 0 in
  let '(ok, book) := apply_fill (mf_quote_id fill) (mf_side fill) (mf_filled_qty_lots fill) acc.1 in
  (book, if ok then acc.2 ++ [make_report fill remaining_after] else acc.2).

(** [engine/execution/adapter/PaperMakerExecutionAdapter.cpp:56-82] on_market_event: one quote of the asset. *)
Definition fill_quote (config : PaperMakerExecutionConfig) (event : PaperMakerMarketEvent)
    (acc : ActivePaperQuoteBook * list MakerExecutionReport) (q : PaperMakerQuote) :
    ActivePaperQuoteBook * list MakerExecutionReport :=
  foldl (record_fill q) acc (evaluate config q event).

(** [engine/execution/adapter/PaperMakerExecutionAdapter.cpp:51-84] on_market_event. *)
Definition on_market_event (event : PaperMakerMarketEvent) (a : PaperMakerExecutionAdapter) :
    list MakerExecutionReport * PaperMakerExecutionAdapter :=
  let book := expire_old (pe_ts_ns event) (pa_quote_book a) in
  let '(book, reports) := foldl (fill_quote (pa_config a) event) (book, []) (active_quotes_for_asset (pe_asset_index event) book) in
  (reports, a <| pa_quote_book := book |>).

(** [engine/execution/adapter/PaperMakerExecutionAdapter.cpp:86-88] PaperMakerExecutionAdapter::expire_old. *)
Definition adapter_expire_old (now_ns : Z) (a : PaperMakerExecutionAdapter) : PaperMakerExecutionAdapter :=
  a <| pa_quote_book ::= expire_old now_ns |>.

(** ** The book agrees with its indices *)

(** The lots of a side, none where the quote has no such side. *)
Definition pm_lots (side : QuoteSide) (q : PaperMakerQuote) : Z := if pm_has side q then Z.max 0 (ql_quantity_lots (pm_leg side q)) else 0.

(** A quote as the book holds it: nothing is filled past its lots, and it is not filled up. *)
Record LiveQuote (q : PaperMakerQuote) : Prop := {
  lq_typed side : in_i64 (ql_quantity_lots (pm_leg side q));
  lq_filled side : 0 <= pm_filled side q <= pm_lots side q;
  lq_status : (pm_status q = MqActivePaper ∧ ∀ side, pm_filled side q = 0)
              ∨ (pm_status q = MqPartiallyFilled ∧ quote_fully_filled q = false)
}.

(** The quotes are live and filed under their ids, and the two indices list
    exactly the groups and the idempotency hashes of the quotes. *)
Record BookSound (b : ActivePaperQuoteBook) : Prop := {
  bs_key id q : ab_quotes_by_id b !! id = Some q → pm_quote_id q = id ∧ LiveQuote q;
  bs_group g id : ab_quote_id_by_group b !! g = Some id ↔ ∃ q, ab_quotes_by_id b !! id = Some q ∧ pm_quote_group_id q = g;
  bs_idempotency h id : ab_quote_id_by_idempotency_hash b !! h = Some id ↔
    h ≠ 0 ∧ ∃ q, ab_quotes_by_id b !! id = Some q ∧ pm_idempotency_hash q = h
}.

Lemma erase_idempotency_spec hash b :
  erase_idempotency hash b = b <| ab_quote_id_by_idempotency_hash ::= λ m, if hash =? 0 then m else delete hash m |>.
Proof. unfold erase_idempotency. destruct b; by destruct (hash =? 0). Qed.

(** Two quotes of a sound book with the same group, or the same hash, are one. *)
Lemma same_group b p q idp idq : BookSound b → ab_quotes_by_id b !! idp = Some p → ab_quotes_by_id b !! idq = Some q →
  pm_quote_group_id p = pm_quote_group_id q → idp = idq.
Proof.
  intros Hb Hp Hq He.
  assert (ab_quote_id_by_group b !! pm_quote_group_id p = Some idp) as H1 by (apply (bs_group _ Hb); eauto).
  assert (ab_quote_id_by_group b !! pm_quote_group_id p = Some idq) as H2 by (apply (bs_group _ Hb); eauto).
  congruence.
Qed.
Lemma same_idempotency b p q idp idq : BookSound b → ab_quotes_by_id b !! idp = Some p → ab_quotes_by_id b !! idq = Some q →
  pm_idempotency_hash p = pm_idempotency_hash q → pm_idempotency_hash p ≠ 0 → idp = idq.
Proof.
  intros Hb Hp Hq He H0.
  assert (ab_quote_id_by_idempotency_hash b !! pm_idempotency_hash p = Some idp) as H1 by (apply (bs_idempotency _ Hb); eauto).
  assert (ab_quote_id_by_idempotency_hash b !! pm_idempotency_hash p = Some idq) as H2 by (apply (bs_idempotency _ Hb); eauto).
  congruence.
Qed.

(** Dropping a quote of the book, under its group and hash, keeps the book sound. *)
Lemma drop_quote_sound b id p q : BookSound b → ab_quotes_by_id b !! id = Some p →
  pm_quote_group_id q = pm_quote_group_id p → pm_idempotency_hash q = pm_idempotency_hash p →
  BookSound (drop_quote id q b) ∧ ab_quotes_by_id (drop_quote id q b) = delete id (ab_quotes_by_id b).
Proof.
  intros Hb Hp Hg Hi. unfold drop_quote. rewrite erase_idempotency_spec, Hg, Hi. split; [|done].
  constructor; cbn.
  - intros id' q' [_ H]%lookup_delete_Some. by apply (bs_key _ Hb).
  - intros g id'. rewrite lookup_delete_Some, (bs_group _ Hb). split.
    + intros [Hne (q' & Hq' & <-)]. exists q'. rewrite lookup_delete_ne; [done|]. intros ->. congruence.
    + intros (q' & [Hne Hq']%lookup_delete_Some & <-). split; [|eauto]. intros E. by apply Hne, (same_group b p q').
  - intros h id'. destruct (Z.eqb_spec (pm_idempotency_hash p) 0) as [H0|H0].
    + rewrite (bs_idempotency _ Hb). split.
      * intros [Hh (q' & Hq' & <-)]. split; [done|]. exists q'. rewrite lookup_delete_ne; [done|]. intros ->. congruence.
      * intros [Hh (q' & [Hne Hq']%lookup_delete_Some & <-)]. eauto.
    + rewrite lookup_delete_Some, (bs_idempotency _ Hb). split.
      * intros [Hne [Hh (q' & Hq' & <-)]]. split; [done|]. exists q'. rewrite lookup_delete_ne; [done|]. intros ->. congruence.
      * intros [Hh (q' & [Hne Hq']%lookup_delete_Some & <-)]. split; [|eauto]. intros E. by apply Hne, (same_idempotency b p q').
Qed.

Lemma drop_group_drop_quote b id q : ab_quotes_by_id b !! id = Some q →
  drop_group (pm_quote_group_id q) id b = drop_quote id q b.
Proof. intros Hq. unfold drop_group, drop_quote. rewrite Hq, !erase_idempotency_spec. by destruct b. Qed.

(** A quote enters a book that has neither its id nor its group nor its hash. *)
Lemma enter_quote_sound b q : BookSound b → LiveQuote q → ab_quotes_by_id b !! pm_quote_id q = None →
  ab_quote_id_by_group b !! pm_quote_group_id q = None →
  (pm_idempotency_hash q ≠ 0 → ab_quote_id_by_idempotency_hash b !! pm_idempotency_hash q = None) →
  BookSound (enter_quote q b) ∧ ab_quotes_by_id (enter_quote q b) = <[pm_quote_id q := q]> (ab_quotes_by_id b).
Proof.
  intros Hb Hl Hid Hg Hi.
  assert (enter_quote q b = b <| ab_quotes_by_id ::= <[pm_quote_id q := q]> |>
    <| ab_quote_id_by_group ::= <[pm_quote_group_id q := pm_quote_id q]> |>
    <| ab_quote_id_by_idempotency_hash ::= λ m, if pm_idempotency_hash q =? 0 then m else <[pm_idempotency_hash q := pm_quote_id q]> m |>)
    as -> by (unfold enter_quote; destruct b; by destruct (_ =? 0)).
  split; [|done]. constructor; cbn.
  - intros id q' [[<- <-]|[_ H]]%lookup_insert_Some; [done|]. by apply (bs_key _ Hb).
  - intros g id. rewrite lookup_insert_Some, (bs_group _ Hb). split.
    + intros [[<- <-]|[Hne (q' & Hq' & <-)]]; [exists q; by rewrite lookup_insert_eq|].
      exists q'. rewrite lookup_insert_ne; [done|]. congruence.
    + intros (q' & [[<- <-]|[Hne Hq']]%lookup_insert_Some & <-); [by left|]. right. split; [|eauto].
      intros E. assert (ab_quote_id_by_group b !! pm_quote_group_id q' = Some id) by (apply (bs_group _ Hb); eauto). congruence.
  - intros h id. destruct (Z.eqb_spec (pm_idempotency_hash q) 0) as [H0|H0].
    + rewrite (bs_idempotency _ Hb). split; intros [Hh (q' & Hq' & <-)]; (split; [done|]).
      * exists q'. rewrite lookup_insert_ne; [done|]. congruence.
      * apply lookup_insert_Some in Hq' as [[<- <-]|[Hne Hq']]; [done|eauto].
    + rewrite lookup_insert_Some, (bs_idempotency _ Hb). split.
      * intros [[<- <-]|[Hne [Hh (q' & Hq' & <-)]]]; [split; [done|]; exists q; by rewrite lookup_insert_eq|].
        split; [done|]. exists q'. rewrite lookup_insert_ne; [done|]. congruence.
      * intros [Hh (q' & [[<- <-]|[Hne Hq']]%lookup_insert_Some & <-)]; [by left|]. right. split; [|eauto].
        intros E. specialize (Hi H0).
        assert (ab_quote_id_by_idempotency_hash b !! pm_idempotency_hash q' = Some id) by (apply (bs_idempotency _ Hb); eauto). congruence.
Qed.

(** A quote of the book is replaced by one of the same id, group and hash. *)
Lemma update_quote_sound b id p q : BookSound b → ab_quotes_by_id b !! id = Some p → pm_quote_id q = pm_quote_id p →
  pm_quote_group_id q = pm_quote_group_id p → pm_idempotency_hash q = pm_idempotency_hash p → LiveQuote q →
  BookSound (b <| ab_quotes_by_id ::= <[id := q]> |>).
Proof.
  intros Hb Hp Hid Hg Hi Hl. destruct (bs_key _ Hb _ _ Hp) as [Hkey _].
  assert (Hsame : ∀ (P : PaperMakerQuote → Prop), (P q ↔ P p) → ∀ id',
    (∃ q', <[id := q]> (ab_quotes_by_id b) !! id' = Some q' ∧ P q') ↔ (∃ q', ab_quotes_by_id b !! id' = Some q' ∧ P q')).
  { intros P HP id'. destruct (decide (id' = id)) as [->|Hne].
    - rewrite lookup_insert_eq, Hp. naive_solver.
    - by rewrite lookup_insert_ne by done. }
  constructor; cbn.
  - intros id' q' [[<- <-]|[_ H]]%lookup_insert_Some; [split; [congruence|done]|]. by apply (bs_key _ Hb).
  - intros g id'. rewrite (bs_group _ Hb). symmetry. apply (Hsame (λ q, pm_quote_group_id q = g)). by rewrite Hg.
  - intros h id'. rewrite (bs_idempotency _ Hb). f_equiv. symmetry. apply (Hsame (λ q, pm_idempotency_hash q = h)). by rewrite Hi.
Qed.

Lemma counters_sound b b' : ab_quotes_by_id b' = ab_quotes_by_id b → ab_quote_id_by_group b' = ab_quote_id_by_group b →
  ab_quote_id_by_idempotency_hash b' = ab_quote_id_by_idempotency_hash b → BookSound b → BookSound b'.
Proof. intros H1 H2 H3 []. constructor; intros *; rewrite ?H1, ?H2, ?H3; auto. Qed.

(** ** Every operation keeps the book sound *)

Definition approved_leg (side : QuoteSide) (quote : ApprovedQuote) : QuoteLeg :=
  match side with QsBid => apq_bid quote | QsAsk => apq_ask quote end.
Definition approved_has (side : QuoteSide) (quote : ApprovedQuote) : bool :=
  match side with QsBid => apq_has_bid quote | QsAsk => apq_has_ask quote end.
Definition approved_lots (side : QuoteSide) (quote : ApprovedQuote) : Z :=
  if approved_has side quote then Z.max 0 (ql_quantity_lots (approved_leg side quote)) else 0.

(** The quantities of an approved quote fit their type. *)
Definition approved_typed (quote : ApprovedQuote) : Prop := ∀ side, in_i64 (ql_quantity_lots (approved_leg side quote)).

(** The id of a quote is not that of an active quote of another group. *)
Definition id_free (b : ActivePaperQuoteBook) (quote : ApprovedQuote) : Prop :=
  ∀ q, ab_quotes_by_id b !! compute_paper_maker_quote_id quote = Some q → pm_quote_group_id q = apq_quote_group_id quote.

#[local] Opaque compute_paper_maker_quote_id.

Lemma make_quote_live quote now_ns : approved_typed quote → LiveQuote (make_quote quote now_ns).
Proof.
  intros Ht. constructor.
  - intros []; [apply (Ht QsBid)|apply (Ht QsAsk)].
  - intros []; unfold pm_lots; destruct (pm_has _ _); cbn; lia.
  - left. split; [done|]. by intros [].
Qed.

(** A quote that is added is the book's only quote of its group; everything else
    stays as it was. *)
Lemma add_or_replace_spec b quote now_ns ok b' : BookSound b → approved_typed quote → id_free b quote →
  add_or_replace quote now_ns b = (ok, b') →
  BookSound b' ∧
  ab_quotes_by_id b' =
    (if ok then
       let others := match ab_quote_id_by_group b !! apq_quote_group_id quote with
                     | Some id => delete id (ab_quotes_by_id b) | None => ab_quotes_by_id b end in
       <[compute_paper_maker_quote_id quote := make_quote quote now_ns]> others
     else ab_quotes_by_id b) ∧
  ab_duplicate_ignored_count b' =
    (if ok || negb (apq_has_bid quote || apq_has_ask quote) then ab_duplicate_ignored_count b else S (ab_duplicate_ignored_count b)).
Proof.
  intros Hb Ht Hfree. unfold add_or_replace. set (b0 := b <| ab_last_add_replaced := false |>).
  assert (Hb0 : BookSound b0) by (by apply (counters_sound b)).
  destruct (apq_has_bid quote || apq_has_ask quote) eqn:Eside;
    [|apply orb_false_iff in Eside as [-> ->]; cbn [negb andb orb]; by intros [<- <-]%pair_eq].
  replace (negb (apq_has_bid quote) && negb (apq_has_ask quote)) with false by (by rewrite <- negb_orb, Eside).
  destruct (negb (apq_idempotency_hash quote =? 0) && _) eqn:Edup.
  { intros [<- <-]%pair_eq. split; [by apply (counters_sound b)|done]. }
  set (b1 := match ab_quote_id_by_group b0 !! _ with Some _ => _ | None => _ end).
  assert (BookSound b1 ∧
    ab_quotes_by_id b1 = (match ab_quote_id_by_group b !! apq_quote_group_id quote with
                          | Some id => delete id (ab_quotes_by_id b) | None => ab_quotes_by_id b end) ∧
    ab_quote_id_by_group b1 !! apq_quote_group_id quote = None ∧
    (∀ h, ab_quote_id_by_idempotency_hash b !! h = None → ab_quote_id_by_idempotency_hash b1 !! h = None) ∧
    ab_duplicate_ignored_count b1 = ab_duplicate_ignored_count b) as (Hb1 & Hq1 & Hg1 & Hi1 & Hc1).
  { subst b1. change (ab_quote_id_by_group b0) with (ab_quote_id_by_group b).
    destruct (ab_quote_id_by_group b !! apq_quote_group_id quote) as [id|] eqn:Eg; [|done].
    apply (bs_group _ Hb) in Eg as (q & Hq & Hqg). rewrite <- Hqg, (drop_group_drop_quote b0 id q Hq).
    destruct (drop_quote_sound b0 id q q Hb0 Hq eq_refl eq_refl) as [Hs He].
    split; [by apply (counters_sound (drop_quote id q b0))|]. split; [exact He|].
    unfold drop_quote. rewrite erase_idempotency_spec. cbn. split; [by rewrite lookup_delete_eq|]. split; [|done].
    intros h Hh. clear -Hh. destruct b. cbn in *. destruct (_ =? 0); [done|]. by apply lookup_delete_None; right. }
  clearbody b1. change (pm_quote_id (make_quote quote now_ns)) with (compute_paper_maker_quote_id quote).
  destruct (Z.eqb_spec (compute_paper_maker_quote_id quote) 0) as [E|_]; [by apply quote_id_nonzero in E|].
  intros [<- <-]%pair_eq.
  assert (Hid1 : ab_quotes_by_id b1 !! compute_paper_maker_quote_id quote = None).
  { destruct (ab_quotes_by_id b1 !! _) as [q|] eqn:Eq; [exfalso|done].
    assert (ab_quotes_by_id b !! compute_paper_maker_quote_id quote = Some q) as Hq.
    { rewrite Hq1 in Eq. destruct (ab_quote_id_by_group b !! _); [|done]. by apply lookup_delete_Some in Eq as [_ ?]. }
    assert (ab_quote_id_by_group b1 !! apq_quote_group_id quote = Some (compute_paper_maker_quote_id quote)) by
      (apply (bs_group _ Hb1); eauto). congruence. }
  destruct (enter_quote_sound b1 (make_quote quote now_ns)) as [Hs He]; try done.
  { by apply make_quote_live. }
  { intros H0. apply Hi1. change (pm_idempotency_hash _) with (apq_idempotency_hash quote) in *.
    apply Z.eqb_neq in H0. rewrite H0 in Edup. cbn [negb andb] in Edup. apply bool_decide_eq_false in Edup.
    by apply eq_None_not_Some. }
  split; [done|]. rewrite He, Hq1. split; [done|]. unfold enter_quote. by destruct (_ =? 0).
Qed.

Lemma cancel_by_group_spec b g ok b' : BookSound b → cancel_by_group g b = (ok, b') →
  BookSound b' ∧ ab_quotes_by_id b' = match ab_quote_id_by_group b !! g with
                                      | Some id => delete id (ab_quotes_by_id b) | None => ab_quotes_by_id b end.
Proof.
  intros Hb. unfold cancel_by_group. destruct (ab_quote_id_by_group b !! g) as [id|] eqn:Eg; [|by intros [<- <-]%pair_eq].
  intros [<- <-]%pair_eq. apply (bs_group _ Hb) in Eg as (q & Hq & <-). rewrite (drop_group_drop_quote b id q Hq).
  destruct (drop_quote_sound b id q q Hb Hq eq_refl eq_refl) as [Hs He]. split; [|exact He].
  by apply (counters_sound (drop_quote id q b)).
Qed.

Lemma cancel_by_quote_id_sound b id ok b' : BookSound b → cancel_by_quote_id id b = (ok, b') →
  BookSound b' ∧ ab_quotes_by_id b' = delete id (ab_quotes_by_id b).
Proof.
  intros Hb. unfold cancel_by_quote_id. destruct (ab_quotes_by_id b !! id) as [q|] eqn:Eq.
  - intros [<- <-]%pair_eq. destruct (drop_quote_sound b id q q Hb Eq eq_refl eq_refl) as [Hs He].
    split; [by apply (counters_sound (drop_quote id q b))|exact He].
  - intros [<- <-]%pair_eq. by rewrite delete_id.
Qed.

Lemma expire_one_spec b id : BookSound b →
  BookSound (expire_one b id) ∧ ab_quotes_by_id (expire_one b id) = delete id (ab_quotes_by_id b).
Proof.
  intros Hb. unfold expire_one. destruct (ab_quotes_by_id b !! id) as [q|] eqn:Eq; [|by rewrite delete_id].
  destruct (drop_quote_sound b id q q Hb Eq eq_refl eq_refl) as [Hs He].
  split; [by apply (counters_sound (drop_quote id q b))|exact He].
Qed.

Lemma expire_all_spec ids : ∀ b, BookSound b →
  BookSound (foldl expire_one b ids) ∧
  (∀ id, ab_quotes_by_id (foldl expire_one b ids) !! id = if bool_decide (id ∈ ids) then None else ab_quotes_by_id b !! id).
Proof.
  induction ids as [|i ids IH]; intros b Hb; cbn [foldl]; [done|].
  destruct (expire_one_spec b i Hb) as [Hs He]. destruct (IH _ Hs) as [Hs' He']. split; [done|].
  intros id. rewrite He', He. destruct (decide (id = i)) as [->|Hne].
  - rewrite lookup_delete_eq, (bool_decide_true (i ∈ i :: ids)) by set_solver. by destruct (bool_decide _).
  - rewrite lookup_delete_ne by done. by rewrite (bool_decide_ext (id ∈ i :: ids) (id ∈ ids)) by set_solver.
Qed.

(** Exactly the expired quotes leave. *)
Lemma expire_old_spec now_ns b : BookSound b →
  BookSound (expire_old now_ns b) ∧
  (∀ id, ab_quotes_by_id (expire_old now_ns b) !! id =
    match ab_quotes_by_id b !! id with Some q => if quote_expired now_ns q then None else Some q | None => None end).
Proof.
  intros Hb. unfold expire_old. set (ids := merge_sort _ _). destruct (expire_all_spec ids b Hb) as [Hs He].
  split; [done|]. intros id. rewrite He.
  assert (Hin : id ∈ ids ↔ ∃ q, ab_quotes_by_id b !! id = Some q ∧ quote_expired now_ns q = true).
  { subst ids. rewrite merge_sort_Permutation, list_elem_of_fmap. split.
    - intros ([i q] & -> & [H1 H2]%list_elem_of_filter). exists q. by rewrite <- elem_of_map_to_list.
    - intros (q & Hq & Hx). exists (id, q). split; [done|]. apply list_elem_of_filter. by rewrite elem_of_map_to_list. }
  case_bool_decide as Hd.
  - apply Hin in Hd as (q & -> & ->). done.
  - destruct (ab_quotes_by_id b !! id) as [q|] eqn:Eq; [|done]. destruct (quote_expired now_ns q) eqn:Ex; [|done].
    exfalso. apply Hd, Hin. eauto.
Qed.

(** ** Fills *)

Lemma remaining_live q side : LiveQuote q → remaining_for q side = pm_lots side q - pm_filled side q.
Proof.
  intros Hl. pose proof (lq_filled _ Hl side) as Hf. pose proof (lq_typed _ Hl side) as Ht. unfold remaining_for, pm_lots in *.
  destruct (pm_has side q); [|lia]. rewrite wrap_i64_id; rlia.
Qed.

(** A fill that fits what is left of its quote. *)
Record FillFits (q : PaperMakerQuote) (fill : MakerFillResult) : Prop := {
  ff_id : mf_quote_id fill = pm_quote_id q;
  ff_has : pm_has (mf_side fill) q = true;
  ff_qty : 0 < mf_filled_qty_lots fill <= remaining_for q (mf_side fill)
}.

(** The quote after a fill. *)
Definition filled_quote (side : QuoteSide) (qty : Z) (q : PaperMakerQuote) : PaperMakerQuote :=
  let q := fill_side side qty q in q <| pm_status := if quote_fully_filled q then MqFilled else MqPartiallyFilled |>.

Definition other_side (side : QuoteSide) : QuoteSide := match side with QsBid => QsAsk | QsAsk => QsBid end.

(** A fill that fits adds to its side and to nothing else. *)
Lemma filled_quote_spec side qty q : LiveQuote q → pm_has side q = true → 0 < qty <= remaining_for q side →
  let q' := filled_quote side qty q in
  pm_filled side q' = pm_filled side q + qty ∧ pm_filled (other_side side) q' = pm_filled (other_side side) q ∧
  (∀ s, pm_has s q' = pm_has s q ∧ pm_leg s q' = pm_leg s q ∧ pm_lots s q' = pm_lots s q) ∧
  pm_quote_id q' = pm_quote_id q ∧ pm_quote_group_id q' = pm_quote_group_id q ∧ pm_idempotency_hash q' = pm_idempotency_hash q ∧
  quote_fully_filled q' = quote_fully_filled (fill_side side qty q).
Proof.
  intros Hl Hhas. rewrite remaining_live by done. intros Hq q'.
  pose proof (lq_filled _ Hl side) as Hf. pose proof (lq_typed _ Hl side) as Ht.
  assert (pm_filled side q + qty <= ql_quantity_lots (pm_leg side q)) by (unfold pm_lots in *; rewrite Hhas in *; lia).
  split; [|split; [|split; [|by destruct side]]].
  - subst q'. unfold filled_quote. transitivity (Z.min (ql_quantity_lots (pm_leg side q)) (pm_filled side q +i qty)); [by destruct side|].
    rewrite wrap_i64_id by rlia. lia.
  - by destruct side.
  - by intros s; destruct side, s.
Qed.

Lemma filled_quote_live side qty q : LiveQuote q → pm_has side q = true → 0 < qty <= remaining_for q side →
  quote_fully_filled (filled_quote side qty q) = false → LiveQuote (filled_quote side qty q).
Proof.
  intros Hl Hhas Hq Hfull. destruct (filled_quote_spec side qty q Hl Hhas Hq) as (H1 & H2 & H3 & _ & _ & _ & H7).
  rewrite remaining_live in Hq by done. constructor.
  - intros s. destruct (H3 s) as (_ & -> & _). apply (lq_typed _ Hl).
  - intros s. destruct (H3 s) as (_ & _ & ->). pose proof (lq_filled _ Hl s). destruct (decide (s = side)) as [->|Hne]; [lia|].
    assert (s = other_side side) as -> by (by destruct s, side). lia.
  - right. split; [|done]. rewrite H7 in Hfull. unfold filled_quote. by rewrite Hfull.
Qed.

(** Recording a fill that fits succeeds, updates the quote, and drops it when nothing is left. *)
Lemma apply_fill_spec b q side qty : BookSound b → ab_quotes_by_id b !! pm_quote_id q = Some q → pm_has side q = true →
  0 < qty <= remaining_for q side →
  ∃ b', apply_fill (pm_quote_id q) side qty b = (true, b') ∧ BookSound b' ∧
    ab_quotes_by_id b' = if quote_fully_filled (filled_quote side qty q) then delete (pm_quote_id q) (ab_quotes_by_id b)
                         else <[pm_quote_id q := filled_quote side qty q]> (ab_quotes_by_id b).
Proof.
  intros Hb Hq Hhas Hqty. destruct (bs_key _ Hb _ _ Hq) as [_ Hl].
  destruct (filled_quote_spec side qty q Hl Hhas Hqty) as (_ & _ & _ & Hid & Hg & Hi & Hfull).
  unfold apply_fill. rewrite (proj2 (Z.leb_gt qty 0)) by lia. rewrite Hq, Hhas. fold (filled_quote side qty q). rewrite <- Hfull.
  eexists. split; [reflexivity|]. destruct (quote_fully_filled (filled_quote side qty q)) eqn:Ef.
  - by apply (drop_quote_sound b _ q).
  - split; [|done]. apply (update_quote_sound b _ q); try done. by apply filled_quote_live.
Qed.

(** A side that has lots left keeps the quote from being full. *)
Lemma open_not_full q side : LiveQuote q → pm_has side q = true → 0 < remaining_for q side → quote_fully_filled q = false.
Proof.
  intros Hl Hhas. rewrite remaining_live by done. pose proof (lq_filled _ Hl side) as Hf. revert Hf.
  unfold pm_lots. rewrite Hhas. unfold quote_fully_filled. intros Hf.
  intros H. apply andb_false_iff.
  destruct side; cbn [pm_has pm_leg pm_filled] in *; rewrite Hhas in *; cbn [negb orb]; [left|right]; clear -H Hf; lia.
Qed.

(** *** The evidence a fill needs *)

(** Whether a market event reaches a side of a quote under the rule, and for how many lots. *)
Definition reached (config : PaperMakerExecutionConfig) (q : PaperMakerQuote) (event : PaperMakerMarketEvent)
    (side : QuoteSide) (lots : Z) : Prop :=
  let price := ql_price_tick (pm_leg side q) in
  let at_or_better p := match side with QsBid => p <= price | QsAsk => price <= p end in
  let top d := match side with QsBid => top_level (dv_asks d) | QsAsk => top_level (dv_bids d) end in
  let levels d := match side with QsBid => dv_ask_count d | QsAsk => dv_bid_count d end in
  match pk_fill_mode config with
  | FmNoFill => False
  | FmConservative =>
      pe_has_trade event = true ∧ 0 < pe_trade_qty_lots event ∧ 0 < pe_trade_price_tick event ∧
      at_or_better (pe_trade_price_tick event) ∧ lots = pe_trade_qty_lots event
  | FmBookCross => ∃ d, pe_depth event = Some d ∧ levels d ≠ 0%nat ∧ 0 < pl_price_tick (top d) ∧
      at_or_better (pl_price_tick (top d)) ∧ lots = level_size_lots (top d)
  | FmQueueAware => ∃ d, pe_depth event = Some d ∧ pm_created_ts_ns q <= pe_ts_ns event ∧
      pk_queue_min_rest_ns config <= pe_ts_ns event - pm_created_ts_ns q ∧ levels d ≠ 0%nat ∧ 0 < pl_price_tick (top d) ∧
      at_or_better (pl_price_tick (top d)) ∧ pl_price_tick (top d) ≠ price ∧ lots = level_size_lots (top d)
  | FmMidCross => ∃ d, pe_depth event = Some d ∧ dv_bid_count d ≠ 0%nat ∧ dv_ask_count d ≠ 0%nat ∧
      0 < pl_price_tick (top_level (dv_bids d)) ∧ 0 < pl_price_tick (top_level (dv_asks d)) ∧
      at_or_better (Z.quot (pl_price_tick (top_level (dv_bids d)) +i pl_price_tick (top_level (dv_asks d))) 2) ∧
      lots = Z.max 1 (level_size_lots (top d))
  end.

(** The lots a side fills on evidence for [lots]. *)
Definition fill_lots (config : PaperMakerExecutionConfig) (q : PaperMakerQuote) (side : QuoteSide) (lots : Z) : Z :=
  capped_qty config (remaining_for q side) lots.

Lemma capped_qty_bounds config remaining lots : 0 < capped_qty config remaining lots →
  capped_qty config remaining lots <= remaining ∧ capped_qty config remaining lots <= lots ∧
  (0 < pk_max_fill_qty_per_trade config → capped_qty config remaining lots <= pk_max_fill_qty_per_trade config).
Proof.
  unfold capped_qty. destruct (remaining <=? 0) eqn:?, (lots <=? 0) eqn:?; cbn [orb]; try lia.
  destruct (pk_allow_partial_fills config), (remaining <=? lots) eqn:?, (0 <? pk_max_fill_qty_per_trade config) eqn:?; lia.
Qed.

(** The fills of one side: at most one, exactly on evidence. *)
Definition SideFills (config : PaperMakerExecutionConfig) (q : PaperMakerQuote) (event : PaperMakerMarketEvent)
    (side : QuoteSide) (fills : list MakerFillResult) : Prop :=
  (∃ lots reason, fills = [make_fill q side (fill_lots config q side lots) (ql_price_tick (pm_leg side q)) (pe_ts_ns event) reason] ∧
     pm_has side q = true ∧ reached config q event side lots ∧ 0 < fill_lots config q side lots)
  ∨ (fills = [] ∧ ∀ lots, pm_has side q = true → reached config q event side lots → fill_lots config q side lots <= 0).

Lemma side_fill_spec config q event side r lots reason :
  (r = true → reached config q event side lots) →
  (∀ lots', reached config q event side lots' → r = true ∧ lots' = lots) →
  SideFills config q event side (side_fill config q event side r lots reason).
Proof.
  intros H1 H2. unfold side_fill, SideFills, fill_lots. destruct (pm_has side q) eqn:Eh; cbn [andb]; [|by right].
  destruct r; cbn [andb].
  - destruct (0 <? capped_qty _ _ _) eqn:Eq.
    + left. exists lots, reason. split_and!; try done; [auto|lia].
    + right. split; [done|]. intros l' _ [_ ->]%H2. lia.
  - right. split; [done|]. by intros l' _ [[=] _]%H2.
Qed.

Lemma no_fills_spec config q event : (∀ side lots, ¬ reached config q event side lots) →
  ∃ bids asks, [] = bids ++ asks ∧ SideFills config q event QsBid bids ∧ SideFills config q event QsAsk asks.
Proof. intros H. exists [], []. split; [done|]. split; right; (split; [done|]); intros l _ Hr; by apply H in Hr. Qed.

(** The rules fill each side of a live quote at most once, exactly on evidence. *)
Lemma maker_evaluate_spec config q event : LiveQuote q → quote_expired (pe_ts_ns event) q = false →
  ∃ bids asks, evaluate config q event = bids ++ asks ∧
    SideFills config q event QsBid bids ∧ SideFills config q event QsAsk asks.
Proof.
  intros Hl Hx. unfold evaluate, cannot_fill. rewrite Hx, orb_false_r.
  assert (match pm_status q with MqCancelled | MqExpired | MqFilled => true | _ => false end = false) as ->
    by (by destruct (lq_status _ Hl) as [[-> _]|[-> _]]).
  rewrite orb_false_r. case_bool_decide as Hm; [apply no_fills_spec; intros ??; unfold reached; rewrite Hm; by intros []|]; cbn [orb].
  destruct (pk_fill_mode config) eqn:Em; [done|..].
  - unfold conservative_fills. destruct (pe_has_trade event) eqn:Et; cbn [negb orb];
      [|apply no_fills_spec; intros ??; unfold reached; rewrite Em; by intros (H & _); congruence].
    destruct (_ || _) eqn:E; [apply no_fills_spec; intros ? l; unfold reached; rewrite Em; intros (_ & H2 & H3 & _); clear -E H2 H3; lia|].
    eexists _, _. split; [reflexivity|]. split; apply side_fill_spec; unfold reached; rewrite Em; cbn [pm_leg].
    + intros H. split_and!; try done; clear -E H; lia.
    + intros l' (_ & _ & _ & H & ->). split; [clear -H; lia|done].
    + intros H. split_and!; try done; clear -E H; lia.
    + intros l' (_ & _ & _ & H & ->). split; [clear -H; lia|done].
  - destruct (pe_depth event) as [d|] eqn:Ed; [|apply no_fills_spec; intros ??; unfold reached; rewrite Em, Ed; by intros (? & ? & _)].
    eexists _, _. split; [reflexivity|]. split; apply side_fill_spec; unfold reached; rewrite Em, Ed; cbn [pm_leg].
    + intros H. exists d. split_and!; try done; lia.
    + intros l' (? & [= <-] & ? & ? & ? & ->). split; [lia|done].
    + intros H. exists d. split_and!; try done; lia.
    + intros l' (? & [= <-] & ? & ? & ? & ->). split; [lia|done].
  - destruct (pe_depth event) as [d|] eqn:Ed; [|apply no_fills_spec; intros ??; unfold reached; rewrite Em, Ed; by intros (? & ? & _)].
    unfold mid_cross_fills. destruct ((dv_bid_count d =? 0)%nat || _ || _ || _) eqn:E.
    { apply no_fills_spec. intros [] l; unfold reached; rewrite Em, Ed; intros (? & [= <-] & ? & ? & ? & ? & _); lia. }
    eexists _, _. split; [reflexivity|]. split; apply side_fill_spec; unfold reached; rewrite Em, Ed; cbn [pm_leg].
    + intros H. exists d. split_and!; try done; lia.
    + intros l' (? & [= <-] & ? & ? & ? & ? & ? & ->). split; [lia|done].
    + intros H. exists d. split_and!; try done; lia.
    + intros l' (? & [= <-] & ? & ? & ? & ? & ? & ->). split; [lia|done].
  - destruct (pe_depth event) as [d|] eqn:Ed; [|apply no_fills_spec; intros ??; unfold reached; rewrite Em, Ed; by intros (? & ? & _)].
    unfold queue_aware_fills. destruct (_ || _) eqn:E.
    { apply no_fills_spec. intros s l; unfold reached; rewrite Em, Ed. intros (? & [= <-] & ? & ? & _); lia. }
    eexists _, _. split; [reflexivity|]. split; apply side_fill_spec; unfold reached; rewrite Em, Ed; cbn [pm_leg].
    + intros H. exists d. split_and!; try done; lia.
    + intros l' (? & [= <-] & ? & ? & ? & ? & ? & ? & ->). split; [lia|done].
    + intros H. exists d. split_and!; try done; lia.
    + intros l' (? & [= <-] & ? & ? & ? & ? & ? & ? & ->). split; [lia|done].
Qed.

(** *** Fills are recorded, reported, and nothing else happens *)

Lemma full_sides q : quote_fully_filled q = true → ∀ side, pm_has side q = true → ql_quantity_lots (pm_leg side q) <= pm_filled side q.
Proof. unfold quote_fully_filled. intros [Hb Ha]%andb_true_iff [] Hh; cbn in *; rewrite Hh in *; cbn in *; lia. Qed.

(** The lots of a side that can still fill. *)
Definition open_lots (id : Z) (side : QuoteSide) (b : ActivePaperQuoteBook) : Z :=
  from_option (λ q, remaining_for q side) 0 (ab_quotes_by_id b !! id).

(** The lots reported for a side of a quote. *)
Definition reported (id : Z) (side : QuoteSide) (reports : list MakerExecutionReport) : Z :=
  sum_list_Z (λ r, if bool_decide (mr_quote_id r = id ∧ mr_side r = side) then mr_filled_qty_lots r else 0) reports.

(** A book that lost lots but gained no quote. *)
Definition only_fills (b b' : ActivePaperQuoteBook) (reports : list MakerExecutionReport) : Prop :=
  (∀ id side, open_lots id side b' = open_lots id side b - reported id side reports) ∧
  (∀ id p, ab_quotes_by_id b' !! id = Some p → ∃ q, ab_quotes_by_id b !! id = Some q ∧ pm_quote_group_id p = pm_quote_group_id q) ∧
  (∀ id, (∀ r, r ∈ reports → mr_quote_id r ≠ id) → ab_quotes_by_id b' !! id = ab_quotes_by_id b !! id).

Lemma reported_app id side l1 l2 : reported id side (l1 ++ l2) = reported id side l1 + reported id side l2.
Proof. apply sum_list_Z_app. Qed.

Lemma only_fills_nil b : only_fills b b [].
Proof. split_and!; [intros; unfold reported; cbn; lia|eauto|done]. Qed.
Lemma only_fills_app b b1 b2 l1 l2 : only_fills b b1 l1 → only_fills b1 b2 l2 → only_fills b b2 (l1 ++ l2).
Proof.
  intros (H1 & H2 & H3) (H1' & H2' & H3'). split_and!.
  - intros. rewrite H1', H1, reported_app. lia.
  - intros id p (q & Hq & E)%H2'. apply H2 in Hq as (q' & Hq' & E'). exists q'. by rewrite E.
  - intros id Hid. rewrite H3', H3; [done|..]; intros r Hr; apply Hid; set_solver.
Qed.

(** The report of a fill. *)
Definition report_of (q : PaperMakerQuote) (fill : MakerFillResult) : MakerExecutionReport :=
  make_report fill (remaining_for q (mf_side fill) - mf_filled_qty_lots fill).

(** What is left of a quote after a fill: the lots of that side less, and nothing when it is full. *)
Lemma filled_open side qty p : LiveQuote p → pm_has side p = true → 0 < qty <= remaining_for p side → ∀ s,
  (if quote_fully_filled (filled_quote side qty p) then 0 else remaining_for (filled_quote side qty p) s)
  = remaining_for p s - (if bool_decide (side = s) then qty else 0).
Proof.
  intros Hl Hhas Hqty s. destruct (filled_quote_spec side qty p Hl Hhas Hqty) as (F1 & F2 & F3 & _).
  assert (Hleft : pm_lots s p - pm_filled s (filled_quote side qty p) = remaining_for p s - (if bool_decide (side = s) then qty else 0)).
  { rewrite remaining_live by done. case_bool_decide as Hs; [subst; rewrite F1; lia|].
    assert (s = other_side side) as -> by (by destruct side, s). rewrite F2. lia. }
  rewrite <- Hleft. destruct (F3 s) as (E1 & E2 & E3). destruct (quote_fully_filled (filled_quote side qty p)) eqn:Ef.
  - pose proof (full_sides _ Ef s) as Hfull. rewrite E1, E2 in Hfull. rewrite (remaining_live p side Hl) in Hqty.
    rewrite (remaining_live p s Hl) in Hleft. pose proof (lq_filled _ Hl s). unfold pm_lots in *.
    destruct (pm_has s p) eqn:Eh; [specialize (Hfull eq_refl)|]; case_bool_decide; subst; rewrite ?Eh in *; first [lia|congruence].
  - by rewrite remaining_live, E3 by (by apply filled_quote_live).
Qed.

(** Recording a fill of [p], the quote as the book holds it. *)
Lemma apply_fill_only b p side qty : BookSound b → ab_quotes_by_id b !! pm_quote_id p = Some p → pm_has side p = true →
  0 < qty <= remaining_for p side → ∃ b', apply_fill (pm_quote_id p) side qty b = (true, b') ∧ BookSound b' ∧
  ab_quotes_by_id b' !! pm_quote_id p =
    (if quote_fully_filled (filled_quote side qty p) then None else Some (filled_quote side qty p)) ∧
  ∀ r, mr_quote_id r = pm_quote_id p → mr_side r = side → mr_filled_qty_lots r = qty → only_fills b b' [r].
Proof.
  intros Hb Hp Hhas Hqty. destruct (bs_key _ Hb _ _ Hp) as [_ Hl].
  destruct (apply_fill_spec b p side qty Hb Hp Hhas Hqty) as (b' & Happ & Hb' & Hq'). exists b'.
  destruct (filled_quote_spec side qty p Hl Hhas Hqty) as (_ & _ & _ & _ & Hg & _ & _).
  pose proof (filled_open side qty p Hl Hhas Hqty) as Hopen. set (p' := filled_quote side qty p) in *.
  split; [done|]. split; [done|]. rewrite Hq'. split; [destruct (quote_fully_filled p'); by rewrite ?lookup_delete_eq, ?lookup_insert_eq|].
  intros r Hid Hs Hr. split_and!.
  - intros id s. unfold open_lots, reported. cbn [sum_list_Z]. rewrite Hq', Hid, Hs, Hr. destruct (decide (pm_quote_id p = id)) as [<-|Hne].
    + rewrite (bool_decide_ext (pm_quote_id p = pm_quote_id p ∧ side = s) (side = s)) by naive_solver.
      specialize (Hopen s). rewrite Hp. cbn [from_option].
      destruct (quote_fully_filled p'); rewrite ?lookup_delete_eq, ?lookup_insert_eq; cbn [from_option]; lia.
    + rewrite bool_decide_false by naive_solver.
      destruct (quote_fully_filled p'); rewrite ?lookup_delete_ne, ?lookup_insert_ne by done; lia.
  - intros id q Hq. rewrite Hq' in Hq. destruct (quote_fully_filled p').
    + apply lookup_delete_Some in Hq as [_ Hq]. eauto.
    + apply lookup_insert_Some in Hq as [[<- <-]|[_ Hq]]; eauto.
  - intros id Hn. assert (pm_quote_id p ≠ id) by (rewrite <- Hid; apply Hn; set_solver).
    rewrite Hq'. destruct (quote_fully_filled p'); by rewrite ?lookup_delete_ne, ?lookup_insert_ne by done.
Qed.

(** The quote a fill was made for may have filled on its other side since; [p]
    is the quote as the book holds it now. *)
Lemma record_fill_spec b q p fill reports : BookSound b → LiveQuote q → ab_quotes_by_id b !! pm_quote_id q = Some p →
  pm_has (mf_side fill) p = pm_has (mf_side fill) q → remaining_for p (mf_side fill) = remaining_for q (mf_side fill) →
  FillFits q fill →
  ∃ b', record_fill q (b, reports) fill = (b', reports ++ [report_of q fill]) ∧ BookSound b' ∧ only_fills b b' [report_of q fill] ∧
    (ab_quotes_by_id b' !! pm_quote_id q =
       let p' := filled_quote (mf_side fill) (mf_filled_qty_lots fill) p in if quote_fully_filled p' then None else Some p').
Proof.
  intros Hb Hl Hp Hhas Hrem [Hid Hh Hqty]. destruct (bs_key _ Hb _ _ Hp) as [Hkey _]. rewrite <- Hkey in Hp.
  assert (Hqty' := Hqty). rewrite <- Hrem in Hqty'.
  destruct (apply_fill_only b p (mf_side fill) (mf_filled_qty_lots fill) Hb Hp) as (b' & Happ & Hb' & Hlook & Honly); [congruence|done|].
  exists b'. unfold record_fill. rewrite Hid, <- Hkey. cbn [fst snd]. rewrite Happ.
  split; [|split; [done|split; [apply Honly; [transitivity (mf_quote_id fill); [done|congruence]|done..]|done]]].
  do 3 f_equal. unfold report_of. f_equal. rewrite (remaining_live q) in * by done.
  pose proof (lq_filled _ Hl (mf_side fill)). pose proof (lq_typed _ Hl (mf_side fill)). unfold pm_lots in *. rewrite Hh in *.
  rewrite (wrap_i64_id (ql_quantity_lots _ - _)) by rlia. destruct (_ <? _) eqn:E; [rewrite wrap_i64_id; rlia|lia].
Qed.

Lemma side_fills_fit config q event side fills : SideFills config q event side fills →
  fills = [] ∨ ∃ fill, fills = [fill] ∧ mf_side fill = side ∧ FillFits q fill.
Proof.
  intros [(lots & reason & -> & Hh & _ & Hpos)|[-> _]]; [right|by left]. eexists. split; [done|]. split; [done|].
  constructor; [done..|]. cbn. split; [done|]. by apply capped_qty_bounds.
Qed.

Definition quote_reports (config : PaperMakerExecutionConfig) (event : PaperMakerMarketEvent) (q : PaperMakerQuote) :
    list MakerExecutionReport := report_of q <$> evaluate config q event.

Lemma fill_quote_spec config event b q reports : BookSound b → ab_quotes_by_id b !! pm_quote_id q = Some q →
  quote_expired (pe_ts_ns event) q = false →
  ∃ b', fill_quote config event (b, reports) q = (b', reports ++ quote_reports config event q) ∧ BookSound b' ∧
    only_fills b b' (quote_reports config event q).
Proof.
  intros Hb Hq Hx. destruct (bs_key _ Hb _ _ Hq) as [_ Hl].
  destruct (maker_evaluate_spec config q event Hl Hx) as (bids & asks & E & HB & HA).
  unfold fill_quote, quote_reports. rewrite E.
  apply side_fills_fit in HB as [->|(fb & -> & Sb & Fb)], HA as [->|(fa & -> & Sa & Fa)]; cbn [app fmap list_fmap foldl].
  - exists b. rewrite app_nil_r. eauto using only_fills_nil.
  - destruct (record_fill_spec b q q fa reports) as (b' & -> & Hb' & Ho & _); eauto.
  - destruct (record_fill_spec b q q fb reports) as (b' & -> & Hb' & Ho & _); eauto.
  - destruct (record_fill_spec b q q fb reports) as (b1 & -> & Hb1 & Ho1 & Hq1); try done.
    pose proof (ff_has _ _ Fb) as Hh. pose proof (ff_qty _ _ Fb) as Hqty. pose proof (ff_qty _ _ Fa) as Hqa. rewrite Sa in Hqa.
    destruct (filled_quote_spec _ _ q Hl Hh Hqty) as (_ & _ & F3 & _).
    pose proof (filled_open _ _ q Hl Hh Hqty QsAsk) as Hopen. rewrite (bool_decide_false (mf_side fb = QsAsk)) in Hopen by (by rewrite Sb).
    cbn zeta in Hq1. destruct (quote_fully_filled (filled_quote (mf_side fb) (mf_filled_qty_lots fb) q)); [lia|].
    destruct (record_fill_spec b1 q _ fa (reports ++ [report_of q fb]) Hb1 Hl Hq1) as (b2 & -> & Hb2 & Ho2 & _); try done.
    + apply F3.
    + rewrite Sa, Hopen. lia.
    + exists b2. rewrite <- (assoc_L (++)). split; [done|]. split; [done|].
      by apply (only_fills_app b b1 b2 [report_of q fb] [report_of q fa]).
Qed.

Lemma quote_reports_id config event q r : LiveQuote q → quote_expired (pe_ts_ns event) q = false →
  r ∈ quote_reports config event q → mr_quote_id r = pm_quote_id q.
Proof.
  intros Hl Hx (f & -> & Hf)%list_elem_of_fmap. destruct (maker_evaluate_spec config q event Hl Hx) as (bids & asks & E & HB & HA).
  rewrite E in Hf. apply elem_of_app in Hf.
  destruct (side_fills_fit _ _ _ _ _ HB) as [->|(fb & -> & _ & [Fb _ _])], (side_fills_fit _ _ _ _ _ HA) as [->|(fa & -> & _ & [Fa _ _])];
    destruct Hf as [Hf|Hf]; try (by apply elem_of_nil in Hf); apply list_elem_of_singleton in Hf as ->; assumption.
Qed.

Lemma fill_quotes_spec config event qs : ∀ b reports, BookSound b → NoDup (pm_quote_id <$> qs) →
  (∀ q, q ∈ qs → ab_quotes_by_id b !! pm_quote_id q = Some q ∧ quote_expired (pe_ts_ns event) q = false) →
  ∃ b', foldl (fill_quote config event) (b, reports) qs = (b', reports ++ concat (quote_reports config event <$> qs)) ∧
    BookSound b' ∧ only_fills b b' (concat (quote_reports config event <$> qs)).
Proof.
  induction qs as [|q qs IH]; intros b reports Hb Hnd Hin; cbn [foldl fmap list_fmap concat].
  { exists b. rewrite app_nil_r. eauto using only_fills_nil. }
  cbn [fmap list_fmap] in Hnd. apply NoDup_cons in Hnd as [Hq Hnd]. destruct (Hin q) as [Hlook Hx]; [set_solver|].
  destruct (fill_quote_spec config event b q reports Hb Hlook Hx) as (b1 & -> & Hb1 & Ho1).
  destruct (IH b1 (reports ++ quote_reports config event q)) as (b2 & -> & Hb2 & Ho2); try done.
  - intros q' Hq'. destruct (Hin q') as [Hlook' Hx']; [set_solver|]. split; [|done].
    destruct Ho1 as (_ & _ & Hsame). rewrite Hsame; [done|]. destruct (bs_key _ Hb _ _ Hlook) as [_ Hl].
    intros r Hr. rewrite (quote_reports_id config event q r) by done. intros E. apply Hq. rewrite E. by apply list_elem_of_fmap_2.
  - exists b2. rewrite <- (assoc_L (++)). split; [done|]. split; [done|]. by eapply only_fills_app.
Qed.

Lemma active_quotes_spec asset b q : q ∈ active_quotes_for_asset asset b ↔
  (∃ id, ab_quotes_by_id b !! id = Some q) ∧ pm_asset_index q = asset.
Proof.
  unfold active_quotes_for_asset. rewrite merge_sort_Permutation, list_elem_of_filter, list_elem_of_fmap. split.
  - intros [H ([i q'] & -> & Hq%elem_of_map_to_list)]. eauto.
  - intros [[id Hq] H]. split; [done|]. exists (id, q). by rewrite elem_of_map_to_list.
Qed.

Lemma active_quotes_NoDup asset b : BookSound b → NoDup (pm_quote_id <$> active_quotes_for_asset asset b).
Proof.
  intros Hb. unfold active_quotes_for_asset. rewrite merge_sort_Permutation.
  apply (sublist_NoDup _ (pm_quote_id <$> (map_to_list (ab_quotes_by_id b)).*2)); [|apply fmap_sublist, sublist_filter].
  rewrite <- list_fmap_compose. erewrite (Forall_fmap_ext_1 _ fst); [apply NoDup_fst_map_to_list|].
  apply Forall_forall. intros [i q] Hq%elem_of_map_to_list. by destruct (bs_key _ Hb _ _ Hq) as [<- _].
Qed.

(** A market event first drops the expired quotes, then fills the quotes of its
    asset one by one; the reports are those of the fills, in the order of the ids. *)
Lemma on_market_event_spec event a : BookSound (pa_quote_book a) →
  let b := expire_old (pe_ts_ns event) (pa_quote_book a) in
  let reports := concat (quote_reports (pa_config a) event <$> active_quotes_for_asset (pe_asset_index event) b) in
  ∃ b', on_market_event event a = (reports, a <| pa_quote_book := b' |>) ∧ BookSound b' ∧ only_fills b b' reports.
Proof.
  intros Ha b reports. destruct (expire_old_spec (pe_ts_ns event) _ Ha) as [Hb He]. fold b in Hb, He.
  unfold on_market_event. fold b.
  destruct (fill_quotes_spec (pa_config a) event (active_quotes_for_asset (pe_asset_index event) b) b []) as (b' & -> & Hb' & Ho).
  - done.
  - by apply active_quotes_NoDup.
  - intros q [[id Hq] _]%active_quotes_spec. destruct (bs_key _ Hb _ _ Hq) as [-> _]. split; [done|].
    rewrite He in Hq. destruct (ab_quotes_by_id (pa_quote_book a) !! id) as [q'|]; [|done].
    destruct (quote_expired _ q') eqn:Ex; [done|]. by injection Hq as <-.
  - exists b'. done.
Qed.

(** ** Runs of the adapter *)

(** The calls an adapter receives. *)
Inductive MakerOp :=
| MoSubmit (quote : ApprovedQuote) (now_ns : Z)
| MoCancel (quote_group_id : Z)
| MoEvent (event : PaperMakerMarketEvent)
| MoExpire (now_ns : Z).

(** What its callers see. *)
Inductive MakerObs :=
| ObSubmitted (quote : ApprovedQuote) (result : MakerSubmitResult)
| ObCancelled (quote_group_id : Z) (result : MakerCancelResult)
| ObReport (report : MakerExecutionReport).

Definition maker_step (op : MakerOp) (a : PaperMakerExecutionAdapter) : list MakerObs * PaperMakerExecutionAdapter :=
  match op with
  | MoSubmit quote now_ns => let '(result, a) := submit_approved_quote quote now_ns a in ([ObSubmitted quote result], a)
  | MoCancel g => let '(result, a) := cancel_quote_group g a in ([ObCancelled g result], a)
  | MoEvent event => let '(reports, a) := on_market_event event a in (ObReport <$> reports, a)
  | MoExpire now_ns => ([], adapter_expire_old now_ns a)
  end.

Fixpoint maker_run (ops : list MakerOp) (a : PaperMakerExecutionAdapter) : list MakerObs * PaperMakerExecutionAdapter :=
  match ops with
  | [] => ([], a)
  | op :: ops => let '(obs, a) := maker_step op a in let '(rest, a) := maker_run ops a in (obs ++ rest, a)
  end.

Definition maker_adapter0 (config : PaperMakerExecutionConfig) : PaperMakerExecutionAdapter :=
  mkPaperMakerExecutionAdapter config quote_book0.

Definition obs_reports (obs : list MakerObs) : list MakerExecutionReport :=
  omap (λ o, match o with ObReport r => Some r | _ => None end) obs.

(** The submissions that put a quote into the book. *)
Definition obs_accepted (obs : list MakerObs) : list ApprovedQuote :=
  omap (λ o, match o with
             | ObSubmitted quote result => if mu_ok result && negb (mu_duplicate_ignored result) then Some quote else None
             | _ => None end) obs.

Definition submitted (ops : list MakerOp) : list ApprovedQuote :=
  omap (λ op, match op with MoSubmit quote _ => Some quote | _ => None end) ops.

(** The lots accepted for a side of the quote with an id. *)
Definition accepted_lots (id : Z) (side : QuoteSide) (quotes : list ApprovedQuote) : Z :=
  sum_list_Z (λ quote, if bool_decide (compute_paper_maker_quote_id quote = id) then approved_lots side quote else 0) quotes.

Lemma approved_lots_nonneg side quote : 0 <= approved_lots side quote.
Proof. unfold approved_lots. destruct (approved_has _ _); lia. Qed.

Lemma open_lots_nonneg id side b : 0 <= open_lots id side b.
Proof.
  unfold open_lots. destruct (_ !! id) as [q|]; cbn; [|lia]. unfold remaining_for. destruct (pm_has _ _); lia.
Qed.

(** Quotes of different groups have different ids, as long as the hash of the
    identifying fields does not collide. *)
Definition ids_apart (quotes : list ApprovedQuote) : Prop :=
  ∀ p q, p ∈ quotes → q ∈ quotes → compute_paper_maker_quote_id p = compute_paper_maker_quote_id q →
    apq_quote_group_id p = apq_quote_group_id q.

Lemma reported_nonneg id side reports : (∀ r, r ∈ reports → 0 <= mr_filled_qty_lots r) → 0 <= reported id side reports.
Proof.
  intros H. unfold reported. induction reports as [|r l IH]; cbn [sum_list_Z]; [lia|].
  assert (0 <= mr_filled_qty_lots r) by (apply H; set_solver). specialize (IH (λ r Hr, H r (list_elem_of_further _ _ _ Hr))).
  case_bool_decide; lia.
Qed.

Lemma reported_step q config event : LiveQuote q → quote_expired (pe_ts_ns event) q = false →
  ∀ r, r ∈ quote_reports config event q → 0 < mr_filled_qty_lots r.
Proof.
  intros Hl Hx r (f & -> & Hf)%list_elem_of_fmap. destruct (maker_evaluate_spec config q event Hl Hx) as (bids & asks & E & HB & HA).
  rewrite E in Hf. apply elem_of_app in Hf.
  destruct (side_fills_fit _ _ _ _ _ HB) as [->|(fb & -> & _ & [_ _ [Fb _]])], (side_fills_fit _ _ _ _ _ HA) as [->|(fa & -> & _ & [_ _ [Fa _]])];
    destruct Hf as [Hf|Hf]; try (by apply elem_of_nil in Hf); apply list_elem_of_singleton in Hf as ->; assumption.
Qed.

(** The quotes that an event can fill are live and unexpired. *)
Lemma event_quotes event b q : BookSound b →
  q ∈ active_quotes_for_asset (pe_asset_index event) (expire_old (pe_ts_ns event) b) →
  ab_quotes_by_id b !! pm_quote_id q = Some q ∧ LiveQuote q ∧ quote_expired (pe_ts_ns event) q = false ∧
  pm_asset_index q = pe_asset_index event.
Proof.
  intros Hb [[id Hq] Ha]%active_quotes_spec. destruct (expire_old_spec (pe_ts_ns event) b Hb) as [_ He].
  rewrite He in Hq. destruct (ab_quotes_by_id b !! id) as [q'|] eqn:E; [|done].
  destruct (quote_expired _ q') eqn:Ex; [done|]. injection Hq as <-. destruct (bs_key _ Hb _ _ E) as [-> Hl]. done.
Qed.

Section Run.
Context (all : list ApprovedQuote) (Happart : ids_apart all) (Htyped : ∀ p, p ∈ all → approved_typed p).

(** What a run keeps: a sound book of quotes that were submitted. *)
Definition RunSound (b : ActivePaperQuoteBook) : Prop :=
  BookSound b ∧ ∀ id q, ab_quotes_by_id b !! id = Some q →
    ∃ p, p ∈ all ∧ compute_paper_maker_quote_id p = id ∧ pm_quote_group_id q = apq_quote_group_id p.

Lemma run_id_free b quote : RunSound b → quote ∈ all → id_free b quote.
Proof. intros [_ Hb] Hin q (p & Hp & Hid & ->)%Hb. by apply Happart. Qed.

Lemma submit_step quote now_ns a result a' : RunSound (pa_quote_book a) → quote ∈ all →
  submit_approved_quote quote now_ns a = (result, a') →
  RunSound (pa_quote_book a') ∧
  ∀ id side, open_lots id side (pa_quote_book a') <=
    open_lots id side (pa_quote_book a) + accepted_lots id side (obs_accepted [ObSubmitted quote result]).
Proof using Happart Htyped.
  intros Hr Hin. unfold submit_approved_quote.
  destruct (negb (apq_has_bid quote) && _) eqn:Eside; [intros [<- <-]%pair_eq; split; [done|]; intros; cbn; lia|].
  destruct (negb (apq_expires_at_ns quote =? 0) && _); [intros [<- <-]%pair_eq; split; [done|]; intros; cbn; lia|].
  destruct (add_or_replace quote now_ns (pa_quote_book a)) as [ok b'] eqn:Ea. intros [<- <-]%pair_eq.
  destruct (add_or_replace_spec _ quote now_ns ok b' (proj1 Hr) (Htyped _ Hin) (run_id_free _ _ Hr Hin) Ea) as (Hb' & Hq' & Hd).
  rewrite <- negb_orb in Eside. apply negb_false_iff in Eside. rewrite Eside in Hd. cbn [negb] in Hd. rewrite orb_false_r in Hd.
  cbn [pa_quote_book]. change (pa_quote_book (a <| pa_quote_book := b' |>)) with b'. destruct ok.
  - replace (ab_duplicate_ignored_count (pa_quote_book a) <? ab_duplicate_ignored_count b')%nat with false by (rewrite Hd; symmetry; apply Nat.ltb_irrefl).
    set (others := match ab_quote_id_by_group _ !! _ with Some _ => _ | None => _ end) in Hq'.
    assert (Hothers : ∀ id q, others !! id = Some q → ab_quotes_by_id (pa_quote_book a) !! id = Some q).
    { intros id q. subst others. destruct (_ !! apq_quote_group_id quote); [|done]. by intros [_ ?]%lookup_delete_Some. }
    split.
    + split; [done|]. intros id q. rewrite Hq'. intros [[<- <-]|[_ Hl]]%lookup_insert_Some; [by exists quote|].
      by apply Hr, Hothers.
    + intros id side. cbn. unfold accepted_lots, open_lots at 1. cbn [sum_list_Z]. rewrite Hq'. case_bool_decide as Hid.
      * subst id. rewrite lookup_insert_eq. cbn [from_option]. rewrite remaining_live by (by apply make_quote_live, Htyped).
        pose proof (open_lots_nonneg (compute_paper_maker_quote_id quote) side (pa_quote_book a)).
        assert (pm_lots side (make_quote quote now_ns) - pm_filled side (make_quote quote now_ns) = approved_lots side quote)
          by (destruct side; unfold pm_lots, approved_lots; cbn; destruct (_ : bool); lia). lia.
      * rewrite lookup_insert_ne by done. pose proof (open_lots_nonneg id side (pa_quote_book a)) as H0.
        destruct (others !! id) as [q|] eqn:El; cbn [from_option]; [|lia]. apply Hothers in El. unfold open_lots. rewrite El. cbn. lia.
  - assert (Hsame : ∀ id, ab_quotes_by_id b' !! id = ab_quotes_by_id (pa_quote_book a) !! id) by (intros; by rewrite Hq').
    split; [split; [done|]; intros id q; rewrite Hsame; apply Hr|]. intros id side. unfold open_lots. rewrite Hsame.
    cbn. destruct (_ && _); cbn; [|lia]. unfold accepted_lots. cbn. pose proof (approved_lots_nonneg side quote). case_bool_decide; lia.
Qed.

(** A book with fewer quotes is as sound and has no more open lots. *)
Lemma fewer_quotes b b' : RunSound b → BookSound b' →
  (∀ id q, ab_quotes_by_id b' !! id = Some q → ab_quotes_by_id b !! id = Some q) →
  RunSound b' ∧ ∀ id side, open_lots id side b' <= open_lots id side b.
Proof.
  intros [Hb Hall] Hb' Hsub. split; [split; [done|]; intros id q Hq; by apply Hall, Hsub|]. intros id side.
  pose proof (open_lots_nonneg id side b). unfold open_lots in *. destruct (ab_quotes_by_id b' !! id) as [q|] eqn:E; cbn; [|lia].
  apply Hsub in E. rewrite E in *. done.
Qed.

Lemma event_step event a reports a' : RunSound (pa_quote_book a) → on_market_event event a = (reports, a') →
  RunSound (pa_quote_book a') ∧
  (∀ r, r ∈ reports → 0 < mr_filled_qty_lots r) ∧
  ∀ id side, open_lots id side (pa_quote_book a') + reported id side reports <= open_lots id side (pa_quote_book a).
Proof.
  intros Hr Hev. destruct (on_market_event_spec event a (proj1 Hr)) as (b' & Hev' & Hb' & Hopen & Hback & _).
  rewrite Hev in Hev'. apply pair_eq in Hev' as [Hrep ->]. change (pa_quote_book (a <| pa_quote_book := b' |>)) with b'.
  destruct (expire_old_spec (pe_ts_ns event) _ (proj1 Hr)) as [Hbx Hx].
  destruct (fewer_quotes (pa_quote_book a) (expire_old (pe_ts_ns event) (pa_quote_book a)) Hr Hbx) as [[_ Hall] Hle].
  { intros id q. rewrite Hx. destruct (ab_quotes_by_id (pa_quote_book a) !! id); [|done]. by destruct (quote_expired _ _). }
  split; [|split].
  - split; [done|]. intros id p (q & Hq & ->)%Hback. by apply Hall.
  - intros r. rewrite Hrep. intros (l & (l' & -> & Hl')%list_elem_of_fmap & Hin)%elem_of_concat.
    revert Hin. destruct (event_quotes event (pa_quote_book a) l' (proj1 Hr) Hl') as (_ & Hlive & Hnx & _). by apply reported_step.
  - intros id side. rewrite Hopen, Hrep. specialize (Hle id side). lia.
Qed.

Lemma maker_step_sound op a obs a' : RunSound (pa_quote_book a) → (∀ p, p ∈ submitted [op] → p ∈ all) → maker_step op a = (obs, a') →
  RunSound (pa_quote_book a') ∧
  (∀ r, r ∈ obs_reports obs → 0 < mr_filled_qty_lots r) ∧
  ∀ id side, open_lots id side (pa_quote_book a') + reported id side (obs_reports obs)
             <= open_lots id side (pa_quote_book a) + accepted_lots id side (obs_accepted obs).
Proof using Happart Htyped.
  intros Hr Hin. destruct op as [quote now_ns|g|event|now_ns]; cbn [maker_step].
  - destruct (submit_approved_quote quote now_ns a) as [result a1] eqn:E. intros [<- <-]%pair_eq.
    destruct (submit_step _ _ _ _ _ Hr (Hin _ (list_elem_of_here _ _)) E) as [Hr' Hle].
    split; [done|]. split; [intros r []%elem_of_nil|]. intros id side. specialize (Hle id side).
    unfold reported, obs_reports. cbn [omap list_omap sum_list_Z] in *. lia.
  - unfold cancel_quote_group. destruct (cancel_by_group g (pa_quote_book a)) as [ok b'] eqn:E. intros [<- <-]%pair_eq.
    destruct (cancel_by_group_spec _ _ _ _ (proj1 Hr) E) as [Hb' Hq'].
    destruct (fewer_quotes (pa_quote_book a) b' Hr Hb') as [Hr' Hle].
    { intros id q. rewrite Hq'. destruct (_ !! g); [|done]. by intros [_ ?]%lookup_delete_Some. }
    split; [done|]. split; [intros r []%elem_of_nil|]. intros id side. specialize (Hle id side).
    change (open_lots id side b' + 0 <= open_lots id side (pa_quote_book a) + 0). lia.
  - destruct (on_market_event event a) as [reports a1] eqn:E. intros [<- <-]%pair_eq.
    assert (obs_reports (ObReport <$> reports) = reports) as Hrep
      by (unfold obs_reports; clear; induction reports as [|r l IH]; cbn; by rewrite ?IH).
    assert (obs_accepted (ObReport <$> reports) = []) as -> by (unfold obs_accepted; clear; by induction reports).
    rewrite Hrep. destruct (event_step _ _ _ _ Hr E) as (Hr' & Hpos & Hle). split; [done|]. split; [done|].
    intros id side. specialize (Hle id side). unfold accepted_lots. cbn [sum_list_Z]. lia.
  - intros [<- <-]%pair_eq. destruct (expire_old_spec now_ns _ (proj1 Hr)) as [Hbx Hx].
    destruct (fewer_quotes (pa_quote_book a) (expire_old now_ns (pa_quote_book a)) Hr Hbx) as [Hr' Hle].
    { intros id q. rewrite Hx. destruct (ab_quotes_by_id (pa_quote_book a) !! id); [|done]. by destruct (quote_expired _ _). }
    split; [done|]. split; [intros r []%elem_of_nil|]. intros id side. specialize (Hle id side).
    change (open_lots id side (expire_old now_ns (pa_quote_book a)) + 0 <= open_lots id side (pa_quote_book a) + 0). lia.
Qed.

Lemma maker_run_sound ops : ∀ a obs a', RunSound (pa_quote_book a) → (∀ p, p ∈ submitted ops → p ∈ all) → maker_run ops a = (obs, a') →
  RunSound (pa_quote_book a') ∧
  (∀ r, r ∈ obs_reports obs → 0 < mr_filled_qty_lots r) ∧
  ∀ id side, open_lots id side (pa_quote_book a') + reported id side (obs_reports obs)
             <= open_lots id side (pa_quote_book a) + accepted_lots id side (obs_accepted obs).
Proof using Happart Htyped.
  induction ops as [|op ops IH]; intros a obs a' Hr Hin; cbn [maker_run].
  { intros [<- <-]%pair_eq. split; [done|]. split; [intros r []%elem_of_nil|]. intros; cbn; lia. }
  destruct (maker_step op a) as [obs1 a1] eqn:E1, (maker_run ops a1) as [obs2 a2] eqn:E2. intros [<- <-]%pair_eq.
  destruct (maker_step_sound op a obs1 a1 Hr) as (Hr1 & Hpos1 & Hle1); [|done|].
  { intros p Hp. apply Hin. unfold submitted in *. destruct op; cbn in *; set_solver. }
  destruct (IH a1 obs2 a2 Hr1) as (Hr2 & Hpos2 & Hle2); [|done|].
  { intros p Hp. apply Hin. unfold submitted in *. destruct op; cbn in *; set_solver. }
  unfold obs_reports, obs_accepted in *. rewrite !omap_app. split; [done|]. split.
  - intros r [Hr'|Hr']%elem_of_app; auto.
  - intros id side. rewrite reported_app. unfold accepted_lots in *. rewrite sum_list_Z_app. specialize (Hle1 id side). specialize (Hle2 id side). lia.
Qed.
End Run.

(** A quote that a market event may fill. *)
Definition fillable (event : PaperMakerMarketEvent) (b : ActivePaperQuoteBook) (q : PaperMakerQuote) : Prop :=
  ab_quotes_by_id b !! pm_quote_id q = Some q ∧ pm_asset_index q = pe_asset_index event ∧
  (pm_expires_at_ns q = 0 ∨ pe_ts_ns event < pm_expires_at_ns q).

Lemma fillable_active event b q : BookSound b →
  fillable event b q ↔ q ∈ active_quotes_for_asset (pe_asset_index event) (expire_old (pe_ts_ns event) b).
Proof.
  intros Hb. destruct (expire_old_spec (pe_ts_ns event) b Hb) as [_ He]. split.
  - intros (Hq & Ha & Hx). apply active_quotes_spec. split; [|done]. exists (pm_quote_id q). rewrite He, Hq.
    unfold quote_expired. destruct (negb _ && _) eqn:E; [lia|done].
  - intros (Hq & _ & Hx & Ha)%event_quotes; [|done]. split; [done|]. split; [done|]. unfold quote_expired in Hx. lia.
Qed.

(** What the report of a fill says. *)
Record FillReport (config : PaperMakerExecutionConfig) (q : PaperMakerQuote) (event : PaperMakerMarketEvent)
    (side : QuoteSide) (lots : Z) (r : MakerExecutionReport) : Prop := {
  fr_quote : mr_quote_id r = pm_quote_id q ∧ mr_approved_quote_id r = pm_approved_quote_id q ∧
             mr_quote_group_id r = pm_quote_group_id q ∧ mr_asset_id r = pm_asset_id q ∧ mr_side r = side;
  fr_lots : mr_filled_qty_lots r = fill_lots config q side lots ∧ 0 < mr_filled_qty_lots r <= remaining_for q side;
  fr_price : mr_avg_fill_price_tick r = ql_price_tick (pm_leg side q);
  fr_left : mr_remaining_qty_lots r = remaining_for q side - mr_filled_qty_lots r;
  fr_status : mr_status r = if mr_remaining_qty_lots r =? 0 then MqFilled else MqPartiallyFilled;
  fr_maker : mr_liquidity_role r = FlMaker ∧ mr_recv_ts_ns r = pe_ts_ns event
}.

Lemma side_reports config q event side fills : SideFills config q event side fills →
  (∀ f, f ∈ fills → ∃ lots, pm_has side q = true ∧ reached config q event side lots ∧ FillReport config q event side lots (report_of q f)) ∧
  (∀ lots, pm_has side q = true → reached config q event side lots → 0 < fill_lots config q side lots →
    ∃ f lots', f ∈ fills ∧ reached config q event side lots' ∧ FillReport config q event side lots' (report_of q f)).
Proof.
  intros [(lots & reason & -> & Hh & Hr & Hpos)|[-> Hnone]]; split.
  - intros f ->%list_elem_of_singleton. exists lots. split; [done|]. split; [done|].
    constructor; try done. cbn. split; [done|]. split; [done|]. by apply capped_qty_bounds.
  - intros l _ _ _. eexists _, lots. split; [apply list_elem_of_here|]. split; [done|].
    constructor; try done. cbn. split; [done|]. split; [done|]. by apply capped_qty_bounds.
  - by intros f ?%elem_of_nil.
  - intros l Hh Hr Hpos. specialize (Hnone l Hh Hr). lia.
Qed.

(** C28. Fills are exactly those with evidence.  A market event reports a fill of
    a side of a quote exactly when the quote is active, unexpired and of the
    event's asset and the event reaches its price under the configured rule; the
    report carries the quote's own price, the lots that the rule allows, never
    more than were left, and what is left afterwards. *)
Theorem maker_reports_exact event a reports a' :
  BookSound (pa_quote_book a) → on_market_event event a = (reports, a') →
  (∀ r, r ∈ reports → ∃ q lots, fillable event (pa_quote_book a) q ∧ pm_has (mr_side r) q = true ∧
     reached (pa_config a) q event (mr_side r) lots ∧ FillReport (pa_config a) q event (mr_side r) lots r) ∧
  (∀ q side lots, fillable event (pa_quote_book a) q → pm_has side q = true →
     reached (pa_config a) q event side lots → 0 < fill_lots (pa_config a) q side lots →
     ∃ r lots', r ∈ reports ∧ reached (pa_config a) q event side lots' ∧ FillReport (pa_config a) q event side lots' r).
Proof.
  intros Hb Hev. destruct (on_market_event_spec event a Hb) as (b' & Hev' & _). rewrite Hev in Hev'.
  apply pair_eq in Hev' as [-> _]. split.
  - intros r (l & (q & -> & Hq)%list_elem_of_fmap & Hin)%elem_of_concat.
    pose proof (proj2 (fillable_active _ _ q Hb) Hq) as Hf. destruct (event_quotes _ _ _ Hb Hq) as (_ & Hl & Hx & _).
    apply list_elem_of_fmap in Hin as (f & -> & Hin). destruct (maker_evaluate_spec (pa_config a) q event Hl Hx) as (bids & asks & E & HB & HA).
    rewrite E in Hin. apply elem_of_app in Hin as [Hin|Hin];
      [destruct (proj1 (side_reports _ _ _ _ _ HB) f Hin) as (lots & ? & ? & Hr)
      |destruct (proj1 (side_reports _ _ _ _ _ HA) f Hin) as (lots & ? & ? & Hr)];
      exists q, lots; by destruct (fr_quote _ _ _ _ _ _ Hr) as (_ & _ & _ & _ & ->).
  - intros q side lots Hf Hh Hr Hpos. apply fillable_active in Hf; [|done]. destruct (event_quotes _ _ _ Hb Hf) as (_ & Hl & Hx & _).
    destruct (maker_evaluate_spec (pa_config a) q event Hl Hx) as (bids & asks & E & HB & HA).
    assert (∃ f lots', f ∈ bids ++ asks ∧ reached (pa_config a) q event side lots' ∧
      FillReport (pa_config a) q event side lots' (report_of q f)) as (f & l' & Hin & Hr' & Hrep).
    { destruct side; [destruct (proj2 (side_reports _ _ _ _ _ HB) lots Hh Hr Hpos) as (f & l' & ? & ? & ?)
                     |destruct (proj2 (side_reports _ _ _ _ _ HA) lots Hh Hr Hpos) as (f & l' & ? & ? & ?)];
        exists f, l'; split; [|done| |done]; apply elem_of_app; auto. }
    exists (report_of q f), l'. split; [|done]. apply elem_of_concat. exists (quote_reports (pa_config a) event q).
    split; [by apply list_elem_of_fmap_2|]. unfold quote_reports. rewrite E. by apply list_elem_of_fmap_2.
Qed.

Lemma maker_run_initial config ops obs a : ids_apart (submitted ops) → (∀ p, p ∈ submitted ops → approved_typed p) →
  maker_run ops (maker_adapter0 config) = (obs, a) →
  BookSound (pa_quote_book a) ∧ (∀ r, r ∈ obs_reports obs → 0 < mr_filled_qty_lots r) ∧
  ∀ id side, open_lots id side (pa_quote_book a) + reported id side (obs_reports obs) <= accepted_lots id side (obs_accepted obs).
Proof.
  intros Ha Ht Hrun. destruct (maker_run_sound (submitted ops) Ha Ht ops (maker_adapter0 config) obs a) as ([Hb _] & Hpos & Hle); try done.
  split; [|intros id q H; change ((∅ : gmap Z PaperMakerQuote) !! id = Some q) in H; by rewrite lookup_empty in H]. constructor; cbn.
  - intros id q. by rewrite lookup_empty.
  - intros g id. rewrite !lookup_empty. split; [done|]. by intros (q & [=] & _).
  - intros h id. rewrite !lookup_empty. split; [done|]. by intros (_ & q & [=] & _).
Qed.

(** The book of active quotes is consistent.  After any submissions,
    cancels, market events and expiries, the indices by group and by idempotency
    hash list exactly the active quotes, so that a group and a hash have at most
    one, and every active quote has something left to fill and is filled within
    its size. *)
Theorem active_book_invariant config ops obs a :
  ids_apart (submitted ops) → (∀ p, p ∈ submitted ops → approved_typed p) →
  maker_run ops (maker_adapter0 config) = (obs, a) → BookSound (pa_quote_book a).
Proof. intros Ha Ht Hrun. by apply (maker_run_initial config ops obs a). Qed.

(** Nothing is overfilled.  Over any run the lots reported as filled for a
    side of a quote, together with the lots that are still open, are at most the
    lots of the submissions of that quote that were accepted. *)
Theorem maker_never_overfills config ops obs a id side :
  ids_apart (submitted ops) → (∀ p, p ∈ submitted ops → approved_typed p) →
  maker_run ops (maker_adapter0 config) = (obs, a) →
  0 <= reported id side (obs_reports obs) ∧ 0 <= open_lots id side (pa_quote_book a) ∧
  open_lots id side (pa_quote_book a) + reported id side (obs_reports obs) <= accepted_lots id side (obs_accepted obs).
Proof.
  intros Ha Ht Hrun. destruct (maker_run_initial config ops obs a Ha Ht Hrun) as (_ & Hpos & Hle).
  split; [apply reported_nonneg; intros r Hr%Hpos; lia|]. split; [apply open_lots_nonneg|]. apply Hle.
Qed.

(** ** From the approval to the position *)

Lemma accepted_once quote side quotes :
  (∀ p, p ∈ quotes → compute_paper_maker_quote_id p = compute_paper_maker_quote_id quote → p = quote) →
  (length (filter (λ p, compute_paper_maker_quote_id p = compute_paper_maker_quote_id quote) quotes) <= 1)%nat →
  accepted_lots (compute_paper_maker_quote_id quote) side quotes <= approved_lots side quote.
Proof.
  intros Hsame. unfold accepted_lots. pose proof (approved_lots_nonneg side quote) as H0.
  induction quotes as [|p l IH]; cbn [sum_list_Z]; [lia|]. rewrite filter_cons. case_bool_decide as Hid.
  - rewrite decide_True by done. cbn [length]. intros Hlen. rewrite (Hsame p (list_elem_of_here _ _) Hid).
    assert (sum_list_Z (λ q, if bool_decide (compute_paper_maker_quote_id q = compute_paper_maker_quote_id quote)
      then approved_lots side q else 0) l = 0) as ->; [|lia].
    assert (filter (λ q, compute_paper_maker_quote_id q = compute_paper_maker_quote_id quote) l = []) as Hnil by (apply nil_length_inv; lia).
    clear -Hnil. induction l as [|q l IH]; cbn [sum_list_Z]; [done|]. rewrite filter_cons in Hnil.
    destruct (decide _) in Hnil; [done|]. rewrite bool_decide_false by done. by rewrite IH.
  - rewrite decide_False by done. intros Hlen. rewrite Z.add_0_l. apply IH; [|done]. intros q Hq. apply Hsame. set_solver.
Qed.

Lemma approved_quantities input quote policy depth a :
  qr_quote input = Some quote → qr_policy input = Some policy → qr_depth input = Some depth →
  QuoteRiskTyped input quote policy depth → qrr_approved_quote (quote_evaluate input) = Some a →
  ∀ side, approved_has side a = true → 0 < ql_quantity_lots (approved_leg side a).
Proof.
  intros Hq Hp Hd Ht Ha. apply (evaluate_approves _ _ _ _ _ Hq Hp Hd Ht) in Ha as [Hadm ->].
  destruct Hadm as [_ _ _ _ _ [_ Hb Hk _ _] _ _ _ _]. intros [] Hs; [by apply Hb|by apply Hk].
Qed.

(** C27. How far a quote can fill the position.  A quote approved by risk at a
    position, under a policy with an inventory limit, is submitted to the adapter
    among any other calls.  As long as it is accepted at most once (ids are hashes:
    no other accepted quote has its id), the position plus everything reported for
    its bid minus everything reported for its ask is within the inventory limit, or
    no further from zero than the position was or than the target of the quote is.
    A target within the limit therefore keeps the fills within it, and a target
    beyond it does not ([target_passes_limit]). *)
Theorem filled_position_bounded input quote policy depth a config ops obs adapter :
  qr_quote input = Some quote → qr_policy input = Some policy → qr_depth input = Some depth →
  QuoteRiskTyped input quote policy depth →
  qrr_approved_quote (quote_evaluate input) = Some a →
  0 < qp_max_asset_inventory_lots policy →
  ids_apart (submitted ops) → (∀ p, p ∈ submitted ops → approved_typed p) →
  maker_run ops (maker_adapter0 config) = (obs, adapter) →
  let id := compute_paper_maker_quote_id a in
  (∀ p, p ∈ obs_accepted obs → compute_paper_maker_quote_id p = id → p = a) →
  (length (filter (λ p, compute_paper_maker_quote_id p = id) (obs_accepted obs)) <= 1)%nat →
  Z.abs (qr_current_position_lots input + reported id QsBid (obs_reports obs) - reported id QsAsk (obs_reports obs))
  <= Z.max (qp_max_asset_inventory_lots policy) (Z.max (Z.abs (qr_current_position_lots input)) (Z.abs (qi_target_position_lots quote))).
Proof.
  intros Hq Hp Hd Ht Happ HL Hapart Htyped Hrun id Hsame Hlen.
  destruct (maker_run_initial config ops obs adapter Hapart Htyped Hrun) as (_ & Hpos & Hle).
  assert (Hside : ∀ side, 0 <= reported id side (obs_reports obs) <= approved_lots side a).
  { intros side. split; [apply reported_nonneg; intros r Hr%Hpos; lia|]. specialize (Hle id side).
    pose proof (open_lots_nonneg id side (pa_quote_book adapter)). pose proof (accepted_once a side _ Hsame Hlen). fold id in H0. lia. }
  pose proof (approved_quantities input quote policy depth a Hq Hp Hd Ht Happ) as Hqty.
  apply (approved_position_bounded input quote policy depth a); try done.
  - specialize (Hside QsBid). specialize (Hqty QsBid). unfold approved_lots in Hside. cbn in *. destruct (apq_has_bid a); [specialize (Hqty eq_refl)|]; lia.
  - specialize (Hside QsAsk). specialize (Hqty QsAsk). unfold approved_lots in Hside. cbn in *. destruct (apq_has_ask a); [specialize (Hqty eq_refl)|]; lia.
Qed.

(** ** Concrete runs *)

(** A quote that risk approves, submitted twice, and the trades that reach it. *)
Definition maker_intent : QuoteIntent := (two_sided_quote 460000 540000 9) <| qi_idempotency_hash := 77 |>.
Definition maker_input : QuoteRiskInput := risk_input maker_intent strict_policy 0.
Lemma maker_input_typed : QuoteRiskTyped maker_input maker_intent strict_policy quote_depth.
Proof. constructor; vm_compute; split || idtac; discriminate. Defined.
Definition approved_maker_quote : ApprovedQuote :=
  default (mkApprovedQuote 0 0 0 false false quote_leg0 quote_leg0 0 0 0 0 0) (qrr_approved_quote (quote_evaluate maker_input)).
Definition trade_event (ts price qty : Z) : PaperMakerMarketEvent := mkPaperMakerMarketEvent ts 0 None true price qty OsSell.
Definition maker_ops : list MakerOp :=
  [MoSubmit approved_maker_quote 2000; MoSubmit approved_maker_quote 2100; MoEvent (trade_event 2500 450000 4);
   MoEvent (trade_event 2600 550000 20); MoEvent (trade_event 2700 400000 20); MoExpire 9500].
Definition maker_result : list MakerObs * PaperMakerExecutionAdapter := maker_run maker_ops (maker_adapter0 paper_maker_config0).
Definition maker_quote_id : Z := compute_paper_maker_quote_id approved_maker_quote.

Lemma maker_ops_apart : ids_apart (submitted maker_ops).
Proof. intros p q Hp Hq _. set_unfold in Hp. set_unfold in Hq. destruct Hp as [->|[->|[]]], Hq as [->|[->|[]]]; reflexivity. Defined.
Lemma maker_ops_typed : ∀ p, p ∈ submitted maker_ops → approved_typed p.
Proof. intros p Hp. set_unfold in Hp. destruct Hp as [->|[->|[]]]; intros []; vm_compute; split; discriminate. Defined.
Lemma maker_ops_run : maker_run maker_ops (maker_adapter0 paper_maker_config0) = (maker_result.1, maker_result.2).
Proof. apply surjective_pairing. Defined.
Lemma maker_ops_accepted : obs_accepted maker_result.1 = [approved_maker_quote].
Proof. vm_compute. reflexivity. Defined.

Lemma active_book_invariant_witness : BookSound (pa_quote_book maker_result.2).
Proof. exact (active_book_invariant _ _ _ _ maker_ops_apart maker_ops_typed maker_ops_run). Defined.

Lemma maker_never_overfills_witness :
  reported maker_quote_id QsBid (obs_reports maker_result.1) = 9 ∧
  open_lots maker_quote_id QsBid (pa_quote_book maker_result.2) + reported maker_quote_id QsBid (obs_reports maker_result.1)
  <= accepted_lots maker_quote_id QsBid (obs_accepted maker_result.1).
Proof.
  split; [vm_compute; reflexivity|].
  apply (maker_never_overfills _ _ _ _ maker_quote_id QsBid maker_ops_apart maker_ops_typed maker_ops_run).
Defined.

Lemma filled_position_bounded_witness :
  reported maker_quote_id QsBid (obs_reports maker_result.1) = 9 ∧
  Z.abs (0 + reported maker_quote_id QsBid (obs_reports maker_result.1) - reported maker_quote_id QsAsk (obs_reports maker_result.1))
  <= Z.max 20 (Z.max (Z.abs 0) (Z.abs 0)).
Proof.
  split; [vm_compute; reflexivity|].
  apply (filled_position_bounded maker_input maker_intent strict_policy quote_depth approved_maker_quote
    paper_maker_config0 maker_ops maker_result.1 maker_result.2 eq_refl eq_refl eq_refl maker_input_typed).
  - vm_compute. reflexivity.
  - reflexivity.
  - exact maker_ops_apart.
  - exact maker_ops_typed.
  - exact maker_ops_run.
  - rewrite maker_ops_accepted. intros p Hp _. by apply list_elem_of_singleton in Hp.
  - rewrite maker_ops_accepted. vm_compute. auto.
Defined.

(** The trade of 4 lots at 450000 fills 4 lots of the bid at its own price of 460000. *)
Definition one_quote : PaperMakerExecutionAdapter := (maker_run [MoSubmit approved_maker_quote 2000] (maker_adapter0 paper_maker_config0)).2.
Lemma one_quote_sound : BookSound (pa_quote_book one_quote).
Proof.
  apply (maker_run_initial paper_maker_config0 [MoSubmit approved_maker_quote 2000]
    (maker_run [MoSubmit approved_maker_quote 2000] (maker_adapter0 paper_maker_config0)).1).
  - intros p q Hp Hq. apply maker_ops_apart; set_unfold in Hp; set_unfold in Hq; set_unfold; tauto.
  - intros p Hp. apply maker_ops_typed. set_unfold in Hp. set_unfold. tauto.
  - apply surjective_pairing.
Defined.

Lemma maker_reports_exact_witness :
  let event := trade_event 2500 450000 4 in
  let reports := (on_market_event event one_quote).1 in
  ((λ r, (mr_side r, mr_filled_qty_lots r, mr_avg_fill_price_tick r, mr_remaining_qty_lots r)) <$> reports = [(QsBid, 4, 460000, 5)]) ∧
  ∀ r, r ∈ reports → ∃ q lots, fillable event (pa_quote_book one_quote) q ∧ pm_has (mr_side r) q = true ∧
    reached (pa_config one_quote) q event (mr_side r) lots ∧ FillReport (pa_config one_quote) q event (mr_side r) lots r.
Proof.
  intros event reports. split; [vm_compute; reflexivity|].
  pose proof (surjective_pairing (on_market_event event one_quote)) as Hev.
  exact (proj1 (maker_reports_exact event one_quote reports (on_market_event event one_quote).2 one_quote_sound Hev)).
Defined.

(** *** What the rules also allow *)

Definition open_quote (group qty : Z) : ApprovedQuote :=
  approved_maker_quote <| apq_quote_group_id := group |> <| apq_idempotency_hash := group |>
    <| apq_bid ::= λ leg, leg <| ql_quantity_lots := qty |> |>.
Definition bid_fills (config : PaperMakerExecutionConfig) (ops : list MakerOp) : list (Z * Z * Z) :=
  (λ r, (mr_quote_group_id r, mr_filled_qty_lots r, mr_avg_fill_price_tick r)) <$> obs_reports (maker_run ops (maker_adapter0 config)).1.

(** A bid that moves the position towards a target beyond the inventory limit
    passes the limit: with a limit of 20 lots and a target of 25, a bid for 9 lots
    is approved at a position of 12, and a trade fills it to 21. *)
Example target_passes_limit :
  let input := risk_input (maker_intent <| qi_target_position_lots := 25 |>) strict_policy 12 in
  qp_max_asset_inventory_lots strict_policy = 20 ∧
  match qrr_approved_quote (quote_evaluate input) with
  | None => False
  | Some quote =>
      bid_fills paper_maker_config0 [MoSubmit quote 2000; MoEvent (trade_event 2500 450000 9)] = [(0, 9, 460000)] ∧ 20 < 12 + 9
  end.
Proof. vm_compute. split_and!; reflexivity. Qed.

(** One trade of five lots fills two quotes with five lots each. *)
Example trade_counts_twice :
  sum_list_Z (λ f, f.1.2) (bid_fills paper_maker_config0
    [MoSubmit (open_quote 1 9) 2000; MoSubmit (open_quote 2 9) 2000; MoEvent (trade_event 2500 450000 5)]) = 10.
Proof. vm_compute. reflexivity. Qed.

(** Without partial fills the cap per trade still fills a part. *)
Example cap_fills_partially :
  bid_fills (mkPaperMakerExecutionConfig FmConservative false 3 0)
    [MoSubmit (open_quote 1 9) 2000; MoEvent (trade_event 2500 450000 9)] = [(1, 3, 460000)].
Proof. vm_compute. reflexivity. Qed.

(** A quote that was cancelled, expired or filled can be submitted again: its
    idempotency hash is forgotten with it. *)
Example cancelled_is_forgotten :
  obs_accepted (maker_run [MoSubmit (open_quote 1 9) 2000; MoSubmit (open_quote 1 9) 2001; MoCancel 1; MoSubmit (open_quote 1 9) 2002]
    (maker_adapter0 paper_maker_config0)).1 = [open_quote 1 9; open_quote 1 9].
Proof. vm_compute. reflexivity. Qed.

(** The direction of the trade is not asked for. *)
Lemma aggressor_unused config q event side :
  evaluate config q (event <| pe_trade_aggressor_side := side |>) = evaluate config q event.
Proof. by destruct event. Qed.
