(* ===== verification/LiveAdapters.v ===== *)
(** * LiveAdapters: orders at the real venue

    [engine/execution/adapter/LiveExecutionAdapter.cpp],
    [LiveMakerExecutionAdapter.cpp] and [SandboxExecutionAdapter.cpp] behind the
    interfaces of [LiveOrderBridge.h].  The signer and the transport are the
    operations of a class over the state of the venue; what the code relies on
    is a class of laws, which a small venue below is proved to obey.  The laws
    leave open what a submission did whose answer is an error: the HTTPS
    transport ([PolymarketLiveOrderTransport.cpp:315-333]) reports every exception
    as an error, also one that is thrown after the request was written.  The
    theorems say which orders the adapters still know of: a group has at most one
    quote, and of the orders open at the venue at most one for every submission
    that was reported as failed is not tracked - such orders exist
    ([lost_answer_forgotten]). *)

From Stdlib Require Import ZifyBool.
From stdpp Require Import strings pretty.
From S2P Require Import Prelude FixedPoint Hashing Doubles RiskTypes Depth QuoteTypes ExecutionTypes PaperLedger FillTracker PaperAdapter QuoteRisk MakerExecution Gateway.
#[local] Open Scope Z_scope.

#[local] Arguments constant {_} _ _ /.

(** ** The bridge to the venue *)

(** [engine/execution/adapter/LiveOrderBridge.h:12-30] LiveExecutionConfig. *)
Record LiveExecutionConfig := mkLiveExecutionConfig {
  lc_enabled : bool;
  lc_require_execution_enabled : bool;
  lc_require_context_live_enabled : bool;
  lc_max_child_orders_per_plan : nat;
  lc_max_quote_orders_per_group : nat;
  lc_max_child_notional_tick : Z;
  lc_allow_buy_orders : bool;
  lc_allow_sell_orders : bool;
  lc_reject_expired_plans : bool;
  lc_maker_post_only : bool;
  lc_maker_require_resting_ack : bool;
  lc_default_order_type : string
}.
Definition live_config0 : LiveExecutionConfig :=
  mkLiveExecutionConfig false true true 1 2 0 true true true true true "GTC".

(** [engine/execution/adapter/LiveOrderBridge.h:32-49] LiveOrderRequest. *)
Record LiveOrderRequest := mkLiveOrderRequest {
  lq_parent_id : Z;
  lq_child_id : Z;
  lq_client_order_id : string;
  lq_market_id : string;
  lq_asset_id : string;
  lq_side : OrderSide;
  lq_quantity_lots : Z;
  lq_price_tick : Z;
  lq_created_ts_ns : Z;
  lq_expire_after_ns : Z;
  lq_order_type : string;
  lq_post_only : bool
}.

(** [engine/execution/adapter/LiveOrderBridge.h:51-54] SignedLiveOrder. *)
Record SignedLiveOrder := mkSignedLiveOrder { sg_request_body_json : string; sg_venue_order_id_hint : string }.

(** [engine/execution/adapter/LiveOrderBridge.h:56-60] LiveOrderSignResult. *)
Record LiveOrderSignResult := mkLiveOrderSignResult { sr_ok : bool; sr_order : SignedLiveOrder; sr_error : string }.

(** [engine/execution/adapter/LiveOrderBridge.h:71-77] LiveTransportSubmitResult. *)
Record LiveTransportSubmitResult := mkLiveTransportSubmitResult {
  ts_ok : bool;
  ts_venue_order_id : string;
  ts_venue_status : string;
  ts_raw_response : string;
  ts_error : string
}.

(** [engine/execution/adapter/LiveOrderBridge.h:79-83] LiveTransportCancelResult. *)
Record LiveTransportCancelResult := mkLiveTransportCancelResult { tc_ok : bool; tc_raw_response : string; tc_error : string }.

(** [engine/execution/adapter/LiveOrderBridge.h:62-96] ILiveOrderSigner and ILiveOrderTransport: their operations over the state [W]
    of what is behind them. *)
Class LiveVenue (W : Type) := {
  sign_order : W → LiveOrderRequest → W * LiveOrderSignResult;
  submit_order : W → string → W * LiveTransportSubmitResult;
  cancel_order : W → string → W * LiveTransportCancelResult
}.

Definition or_default (error fallback : string) : string := if String.eqb error "" then fallback else error.

(** [engine/execution/adapter/LiveMakerExecutionAdapter.cpp:67-82] notional_allowed; the source has the same function for child
    orders [engine/execution/adapter/LiveExecutionAdapter.cpp:116-131]. *)
Definition notional_allowed (config : LiveExecutionConfig) (quantity_lots price_tick : Z) : bool :=
  if lc_max_child_notional_tick config <=? 0 then true
  else if (quantity_lots <=? 0) || (price_tick <=? 0) then false
  else quantity_lots * price_tick <=? lc_max_child_notional_tick config.

(** [engine/execution/adapter/LiveMakerExecutionAdapter.cpp:62-65] side_allowed. *)
Definition side_allowed (config : LiveExecutionConfig) (side : OrderSide) : bool :=
  match side with OsBuy => lc_allow_buy_orders config | OsSell => lc_allow_sell_orders config end.

(** [engine/execution/adapter/LiveExecutionAdapter.cpp:249-278] submit_plan: one request is signed and submitted, with the error or
    the id and the status at the venue; [submit_leg] of the maker does the same. *)
Definition sign_and_submit {W} `{LiveVenue W} (request : LiveOrderRequest) (sign_failed submit_failed : string) (w : W) :
    W * (string + string * string) :=
  let '(w, signed) := sign_order w request in
  if negb (sr_ok signed) then (w, inl (or_default (sr_error signed) sign_failed))
  else
    let '(w, result) := submit_order w (sg_request_body_json (sr_order signed)) in
    if negb (ts_ok result) then (w, inl (or_default (ts_error result) submit_failed))
    else (w, inr (or_default (ts_venue_order_id result) (sg_venue_order_id_hint (sr_order signed)), ts_venue_status result)).

(** [engine/execution/adapter/LiveExecutionAdapter.cpp:358-370] cancel_plan: how many of the orders were cancelled, and the first error;
    [cancel_existing_group] of the maker does the same. *)
Fixpoint cancel_orders {W} `{LiveVenue W} (fallback : string) (ids : list string) (w : W) : W * (nat * string) :=
  match ids with
  | [] => (w, (0%nat, ""))
  | id :: ids =>
      let '(w, result) := cancel_order w id in
      let '(w, (canceled, error)) := cancel_orders fallback ids w in
      if tc_ok result then (w, (S canceled, error)) else (w, (canceled, or_default (tc_error result) fallback))
  end.

(** ** Plans: LiveExecutionAdapter *)

(** [engine/execution/adapter/LiveExecutionAdapter.h:32-36] AcceptedLiveOrder. *)
Record AcceptedLiveOrder := mkAcceptedLiveOrder { al_child_order_id : Z; al_venue_order_id : string }.

(** [engine/execution/adapter/LiveExecutionAdapter.h:12-72] LiveExecutionAdapter, with what is behind its two pointers. *)
Record LiveExecutionAdapter (W : Type) := mkLiveExecutionAdapter {
  la_config : LiveExecutionConfig;
  la_has_signer : bool;
  la_has_transport : bool;
  la_venue : W;
  la_pending_reports : list ExecutionReport;
  la_accepted_orders_by_plan : gmap Z (list AcceptedLiveOrder)
}.
#[global] Arguments mkLiveExecutionAdapter {W}.
#[global] Arguments la_config {W}.
#[global] Arguments la_has_signer {W}.
#[global] Arguments la_has_transport {W}.
#[global] Arguments la_venue {W}.
#[global] Arguments la_pending_reports {W}.
#[global] Arguments la_accepted_orders_by_plan {W}.

(** [engine/execution/adapter/LiveExecutionAdapter.cpp:12-32] live_report; [Rejected] is [Failed]. *)
Definition live_report (plan : OrderPlan) (order : ChildOrder) (status : ChildOrderStatus) (now_ns : Z)
    (venue_order_id reject_reason : string) : ExecutionReport :=
  mkExecutionReport (op_plan_id plan) (co_order_id order) status venue_order_id reject_reason 0
    (if bool_decide (status = CsAcked) then co_quantity_lots order else 0) 0 now_ns.

(** [engine/execution/adapter/LiveExecutionAdapter.cpp:34-48] adapter_error. *)
Definition adapter_error (plan : OrderPlan) (status : PlanStatus) (rejected : Z) (error : string) : AdapterSubmitResult :=
  mkAdapterSubmitResult false (op_plan_id plan) status 0 rejected ArAdapterError error.

(** [engine/execution/adapter/LiveExecutionAdapter.cpp:62-92] disabled_submit. *)
Definition disabled_submit (config : LiveExecutionConfig) (plan : OrderPlan) (context : ExecutionContext) : AdapterSubmitResult :=
  let reason :=
    if negb (lc_enabled config) then "live execution adapter is disabled"%string
    else if negb (bool_decide (ec_mode (xc_config context) = ModeLive)) then "execution context is not live mode"%string
    else if lc_require_execution_enabled config && negb (ec_execution_enabled (xc_config context)) then "execution is not enabled"%string
    else if lc_require_context_live_enabled config && negb (ec_live_enabled (xc_config context)) then "live execution is not enabled"%string
    else "live execution unavailable"%string in
  mkAdapterSubmitResult false (op_plan_id plan) PsFailed 0 0 ArLiveExecutionDisabled reason.

(** [engine/execution/adapter/LiveExecutionAdapter.cpp:94-109] live_context_enabled. *)
Definition live_context_enabled (config : LiveExecutionConfig) (context : ExecutionContext) : bool :=
  if negb (lc_enabled config) || negb (bool_decide (ec_mode (xc_config context) = ModeLive)) then false
  else if lc_require_execution_enabled config && negb (ec_execution_enabled (xc_config context)) then false
  else if lc_require_context_live_enabled config && negb (ec_live_enabled (xc_config context)) then false
  else true.

(** [engine/execution/adapter/LiveExecutionAdapter.cpp:133-151] make_request. *)
Definition make_request (config : LiveExecutionConfig) (plan : OrderPlan) (order : ChildOrder) : LiveOrderRequest :=
  mkLiveOrderRequest (op_plan_id plan) (co_order_id order) (co_client_order_id order) (co_market_id order) (co_asset_id order)
    (co_side order) (co_quantity_lots order) (co_limit_price_tick order) (op_created_ts_ns plan) (op_expire_after_ns plan)
    (lc_default_order_type config) false.

(** [engine/execution/adapter/LiveExecutionAdapter.cpp:153-167] push_rejection. *)
Definition rejection (plan : OrderPlan) (now_ns : Z) (reason : string) (order : ChildOrder) : ExecutionReport :=
  live_report plan order CsFailed now_ns "" reason.

Section Plans.
Context {W : Type} `{LiveVenue W}.

(** [engine/execution/adapter/LiveExecutionAdapter.cpp:228-289] submit_plan: one order at the venue, its id or the reason of its rejection. *)
Definition submit_child (config : LiveExecutionConfig) (plan : OrderPlan) (order : ChildOrder) (w : W) : W * (string + string) :=
  if negb (side_allowed config (co_side order)) then (w, inl "live order side disabled"%string)
  else if negb (notional_allowed config (co_quantity_lots order) (co_limit_price_tick order))
  then (w, inl "live child notional limit exceeded"%string)
  else
    match sign_and_submit (make_request config plan order) "live order signing failed" "live order submit failed" w with
    | (w, inl error) => (w, inl error)
    | (w, inr (id, _)) => (w, if String.eqb id "" then inl "live order submit missing venue_order_id"%string else inr id)
    end.

(** What the loop of [submit_plan] has gathered. *)
Record LiveSubmission := mkLiveSubmission {
  ln_venue : W;
  ln_submitted : Z;
  ln_rejected : Z;
  ln_accepted : list AcceptedLiveOrder;
  ln_reports : list ExecutionReport
}.

(** [engine/execution/adapter/LiveExecutionAdapter.cpp:226-302] submit_plan: one turn of the loop. *)
Definition submit_next (config : LiveExecutionConfig) (plan : OrderPlan) (now_ns : Z) (s : LiveSubmission) (order : ChildOrder) :
    LiveSubmission :=
  match submit_child config plan order (ln_venue s) with
  | (w, inl reason) =>
      mkLiveSubmission w (ln_submitted s) (ln_rejected s + 1) (ln_accepted s) (ln_reports s ++ [rejection plan now_ns reason order])
  | (w, inr id) =>
      mkLiveSubmission w (ln_submitted s + 1) (ln_rejected s) (ln_accepted s ++ [mkAcceptedLiveOrder (co_order_id order) id])
        (ln_reports s ++ [live_report plan order CsAcked now_ns id ""])
  end.

Definition submit_children (config : LiveExecutionConfig) (plan : OrderPlan) (now_ns : Z) (w : W) : LiveSubmission :=
  foldl (submit_next config plan now_ns) (mkLiveSubmission w 0 0 [] []) (plan_orders plan).

(** [engine/execution/adapter/LiveExecutionAdapter.cpp:169-320] submit_plan. *)
Definition live_submit_plan (a : LiveExecutionAdapter W) (plan : OrderPlan) (context : ExecutionContext) :
    LiveExecutionAdapter W * AdapterSubmitResult :=
  let config := la_config a in
  let count := Z.of_nat (op_order_count plan) in
  let a := a <| la_pending_reports := [] |> in
  if negb (live_context_enabled config context) then (a, disabled_submit config plan context)
  else if negb (la_has_signer a) then (a, adapter_error plan PsFailed count "missing live order signer")
  else if negb (la_has_transport a) then (a, adapter_error plan PsFailed count "missing live order transport")
  else if (op_order_count plan =? 0)%nat
          || (Nat.min (lc_max_child_orders_per_plan config) kMaxChildOrdersPerPlan <? op_order_count plan)%nat
  then (a, adapter_error plan PsFailed count "invalid live order_count")
  else if lc_reject_expired_plans config && negb (op_expire_after_ns plan =? 0) && (op_expire_after_ns plan <=? xc_now_ns context)
  then (a <| la_pending_reports := rejection plan (xc_now_ns context) "Expired" <$> plan_orders plan |>,
        adapter_error plan PsFailed count "live plan expired")
  else
    let s := submit_children config plan (xc_now_ns context) (la_venue a) in
    let ok := (ln_rejected s =? 0) && (0 <? ln_submitted s) in
    (a <| la_venue := ln_venue s |> <| la_pending_reports := ln_reports s |>
       <| la_accepted_orders_by_plan ::= λ m, match ln_accepted s with [] => m | accepted => <[op_plan_id plan := accepted]> m end |>,
     mkAdapterSubmitResult ok (op_plan_id plan) (if ok then PsAcked else PsFailed) (ln_submitted s) (ln_rejected s)
       (if ok then ArOk else ArAdapterError) (if ln_rejected s =? 0 then "" else "one or more live child orders failed")).

(** [engine/execution/adapter/LiveExecutionAdapter.cpp:322-326] poll_reports. *)
Definition live_poll_reports (a : LiveExecutionAdapter W) : LiveExecutionAdapter W * list ExecutionReport :=
  (a <| la_pending_reports := [] |>, la_pending_reports a).

(** [engine/execution/adapter/LiveExecutionAdapter.cpp:328-387] cancel_plan. *)
Definition live_cancel_plan (a : LiveExecutionAdapter W) (plan_id : Z) : LiveExecutionAdapter W * AdapterCancelResult :=
  if negb (lc_enabled (la_config a))
  then (a, mkAdapterCancelResult false plan_id ArLiveExecutionDisabled "live execution adapter is disabled")
  else if negb (la_has_transport a) then (a, mkAdapterCancelResult false plan_id ArAdapterError "missing live order transport")
  else
    match la_accepted_orders_by_plan a !! plan_id with
    | None | Some [] => (a, mkAdapterCancelResult false plan_id ArAdapterError "no live venue orders for plan")
    | Some orders =>
        let '(w, (canceled, error)) := cancel_orders "live cancel failed" (al_venue_order_id <$> orders) (la_venue a) in
        let a := a <| la_venue := w |> in
        if (canceled =? length orders)%nat
        then (a <| la_accepted_orders_by_plan ::= delete plan_id |>, mkAdapterCancelResult true plan_id ArOk "")
        else (a, mkAdapterCancelResult false plan_id ArAdapterError (or_default error "live cancel failed"))
    end.

#[export] Instance live_adapter : IExecutionAdapter (LiveExecutionAdapter W) := {|
  submit_plan := live_submit_plan;
  poll_reports := live_poll_reports;
  adapter_cancel_plan := live_cancel_plan
|}.
End Plans.
#[global] Arguments LiveSubmission : clear implicits.

(** ** The sandbox *)

(** [engine/execution/adapter/SandboxExecutionAdapter.h:7-19] SandboxExecutionAdapter: an adapter without state, which refuses
    everything [engine/execution/adapter/SandboxExecutionAdapter.cpp:5-31]. *)
Inductive SandboxExecutionAdapter := Sandbox.
#[export] Instance sandbox_adapter : IExecutionAdapter SandboxExecutionAdapter := {|
  submit_plan a plan _ :=
    (a, mkAdapterSubmitResult false (op_plan_id plan) PsFailed 0 0 ArAdapterError "sandbox execution adapter is not wired");
  poll_reports a := (a, []);
  adapter_cancel_plan a plan_id := (a, mkAdapterCancelResult false plan_id ArAdapterError "sandbox execution adapter is not wired")
|}.

(** ** Quotes: LiveMakerExecutionAdapter *)

(** [engine/execution/adapter/LiveMakerExecutionAdapter.h:32-37] AcceptedMakerOrder. *)
Record AcceptedMakerOrder := mkAcceptedMakerOrder { am_quote_id : Z; am_side : QuoteSide; am_venue_order_id : string }.

(** [engine/execution/adapter/LiveMakerExecutionAdapter.h:13-71] LiveMakerExecutionAdapter, with what is behind its two pointers. *)
Record LiveMakerExecutionAdapter (W : Type) := mkLiveMakerExecutionAdapter {
  lm_config : LiveExecutionConfig;
  lm_has_signer : bool;
  lm_has_transport : bool;
  lm_venue : W;
  lm_accepted_orders_by_group : gmap Z (list AcceptedMakerOrder);
  lm_submitted_idempotency_hashes : gset Z
}.
#[global] Arguments mkLiveMakerExecutionAdapter {W}.
#[global] Arguments lm_config {W}.
#[global] Arguments lm_has_signer {W}.
#[global] Arguments lm_has_transport {W}.
#[global] Arguments lm_venue {W}.
#[global] Arguments lm_accepted_orders_by_group {W}.
#[global] Arguments lm_submitted_idempotency_hashes {W}.

(** [engine/execution/adapter/LiveMakerExecutionAdapter.cpp:12-14] order_side_from_quote_side. *)
Definition order_side_from_quote_side (side : QuoteSide) : OrderSide := match side with QsBid => OsBuy | QsAsk => OsSell end.

(** [engine/execution/adapter/LiveMakerExecutionAdapter.cpp:16-18] side_suffix. *)
Definition side_suffix (side : QuoteSide) : string := match side with QsBid => "bid" | QsAsk => "ask" end.

(** [engine/execution/adapter/LiveMakerExecutionAdapter.cpp:20-26] child_id_for_side. *)
Definition child_id_for_side (quote_id : Z) (side : QuoteSide) : Z :=
  Z.lxor quote_id (match side with QsBid => 0x9e3779b185ebca87 | QsAsk => 0xc2b2ae3d27d4eb4f end).

(** [engine/execution/adapter/LiveMakerExecutionAdapter.cpp:28-38] lower_ascii. *)
Definition lower_char (c : Ascii.ascii) : Ascii.ascii :=
  let n := Ascii.nat_of_ascii c in if (65 <=? n)%nat && (n <=? 90)%nat then Ascii.ascii_of_nat (n + 32) else c.
Fixpoint lower_ascii (value : string) : string :=
  match value with
  | EmptyString => EmptyString
  | String c rest => String (lower_char c) (lower_ascii rest)
  end.

(** [engine/execution/adapter/LiveMakerExecutionAdapter.cpp:40-42] resting_status. *)
Definition resting_status (status : string) : bool := String.eqb (lower_ascii status) "live".

(** [engine/execution/adapter/LiveMakerExecutionAdapter.cpp:84-107] make_request. *)
Definition maker_request (config : LiveExecutionConfig) (quote : ApprovedQuote) (leg : QuoteLeg) (side : QuoteSide) (quote_id : Z) :
    LiveOrderRequest :=
  mkLiveOrderRequest (apq_quote_group_id quote) (child_id_for_side quote_id side)
    ("maker-" +:+ pretty (Z.to_N (apq_approved_quote_id quote)) +:+ "-" +:+ side_suffix side) (ql_market_id leg) (ql_asset_id leg)
    (order_side_from_quote_side side) (ql_quantity_lots leg) (ql_price_tick leg) (apq_approved_ts_ns quote) (apq_expires_at_ns quote)
    (lc_default_order_type config) (lc_maker_post_only config).

Section Maker.
Context {W : Type} `{LiveVenue W}.

(** [engine/execution/adapter/LiveMakerExecutionAdapter.cpp:109-197] submit_leg: the error, or the order enters the group. *)
Definition submit_leg (quote : ApprovedQuote) (leg : QuoteLeg) (side : QuoteSide) (quote_id : Z) (a : LiveMakerExecutionAdapter W) :
    LiveMakerExecutionAdapter W * option string :=
  let config := lm_config a in
  if negb (side_allowed config (order_side_from_quote_side side)) then (a, Some "live maker order side disabled"%string)
  else if String.eqb (ql_market_id leg) "" || String.eqb (ql_asset_id leg) ""
  then (a, Some "live maker quote leg missing market or asset"%string)
  else if (ql_quantity_lots leg <=? 0) || (ql_price_tick leg <=? 0) then (a, Some "live maker quote leg has invalid size or price"%string)
  else if negb (notional_allowed config (ql_quantity_lots leg) (ql_price_tick leg))
  then (a, Some "live maker quote leg notional limit exceeded"%string)
  else
    match sign_and_submit (maker_request config quote leg side quote_id) "live maker signing failed" "live maker submit failed"
            (lm_venue a) with
    | (w, inl error) => (a <| lm_venue := w |>, Some error)
    | (w, inr (id, status)) =>
        let a := a <| lm_venue := w |> in
        if lc_maker_require_resting_ack config && negb (resting_status status)
        then (a, Some "live maker order did not rest on book"%string)
        else if String.eqb id "" then (a, Some "live maker submit missing venue_order_id"%string)
        else
          (a <| lm_accepted_orders_by_group ::= λ m,
               <[apq_quote_group_id quote := default [] (m !! apq_quote_group_id quote) ++ [mkAcceptedMakerOrder quote_id side id]]> m |>,
           None)
    end.

(** [engine/execution/adapter/LiveMakerExecutionAdapter.cpp:199-247] cancel_existing_group. *)
Definition cancel_existing_group (quote_group_id : Z) (a : LiveMakerExecutionAdapter W) :
    LiveMakerExecutionAdapter W * MakerCancelResult :=
  if negb (lm_has_transport a) then (a, mkMakerCancelResult false 0 "missing live order transport")
  else
    match lm_accepted_orders_by_group a !! quote_group_id with
    | None | Some [] => (a, mkMakerCancelResult false 0 "quote group not active")
    | Some orders =>
        let '(w, (canceled, error)) := cancel_orders "live maker cancel failed" (am_venue_order_id <$> orders) (lm_venue a) in
        let quote_id := default 0 (am_quote_id <$> last orders) in
        let a := a <| lm_venue := w |> in
        if (canceled =? length orders)%nat
        then (a <| lm_accepted_orders_by_group ::= delete quote_group_id |>, mkMakerCancelResult true quote_id "")
        else (a, mkMakerCancelResult false quote_id (or_default error "live maker cancel failed"))
    end.

(** [engine/execution/adapter/LiveMakerExecutionAdapter.cpp:319-332] submit_approved_quote: a side that the quote has is submitted;
    when that fails, what the group has so far is cancelled. *)
Definition submit_side (has : bool) (quote : ApprovedQuote) (leg : QuoteLeg) (side : QuoteSide) (quote_id : Z)
    (a : LiveMakerExecutionAdapter W) : LiveMakerExecutionAdapter W * option string :=
  if has then
    match submit_leg quote leg side quote_id a with
    | (a, None) => (a, None)
    | (a, Some error) => ((cancel_existing_group (apq_quote_group_id quote) a).1, Some error)
    end
  else (a, None).

(** [engine/execution/adapter/LiveMakerExecutionAdapter.cpp:294-353] submit_approved_quote, after the duplicates. *)
Definition replace_quote (quote : ApprovedQuote) (quote_id : Z) (a : LiveMakerExecutionAdapter W) :
    LiveMakerExecutionAdapter W * MakerSubmitResult :=
  let replaces := bool_decide (is_Some (lm_accepted_orders_by_group a !! apq_quote_group_id quote)) in
  let '(a, cancel) := if replaces then cancel_existing_group (apq_quote_group_id quote) a
                      else (a, mkMakerCancelResult true 0 "") in
  if negb (mx_ok cancel)
  then (a, mkMakerSubmitResult false false false quote_id ("failed to replace active live quote: " +:+ mx_error cancel))
  else
    let leg_count := ((if apq_has_bid quote then 1 else 0) + (if apq_has_ask quote then 1 else 0))%nat in
    if (leg_count =? 0)%nat || (lc_max_quote_orders_per_group (lm_config a) <? leg_count)%nat
    then (a, mkMakerSubmitResult false false replaces quote_id "invalid live maker quote leg count")
    else
      match submit_side (apq_has_bid quote) quote (apq_bid quote) QsBid quote_id a with
      | (a, Some error) => (a, mkMakerSubmitResult false false replaces quote_id error)
      | (a, None) =>
          match submit_side (apq_has_ask quote) quote (apq_ask quote) QsAsk quote_id a with
          | (a, Some error) => (a, mkMakerSubmitResult false false replaces quote_id error)
          | (a, None) =>
              (a <| lm_submitted_idempotency_hashes ::= λ hashes,
                   if apq_idempotency_hash quote =? 0 then hashes else {[apq_idempotency_hash quote]} ∪ hashes |>,
               mkMakerSubmitResult true false replaces quote_id "")
          end
      end.

(** [engine/execution/adapter/LiveMakerExecutionAdapter.cpp:249-353] submit_approved_quote. *)
Definition live_submit_approved_quote (quote : ApprovedQuote) (now_ns : Z) (a : LiveMakerExecutionAdapter W) :
    LiveMakerExecutionAdapter W * MakerSubmitResult :=
  let quote_id := compute_paper_maker_quote_id quote in
  let failure error := (a, mkMakerSubmitResult false false false quote_id error) in
  if negb (lc_enabled (lm_config a)) then failure "live maker execution adapter is disabled"%string
  else if negb (lm_has_signer a) then failure "missing live order signer"%string
  else if negb (lm_has_transport a) then failure "missing live order transport"%string
  else if negb (apq_has_bid quote) && negb (apq_has_ask quote) then failure "approved quote has no active sides"%string
  else if negb (apq_expires_at_ns quote =? 0) && (apq_expires_at_ns quote <=? now_ns) then failure "approved quote expired"%string
  else if negb (apq_idempotency_hash quote =? 0) && bool_decide (apq_idempotency_hash quote ∈ lm_submitted_idempotency_hashes a)
  then (a, mkMakerSubmitResult true true false quote_id "")
  else replace_quote quote quote_id a.

(** [engine/execution/adapter/LiveMakerExecutionAdapter.cpp:355-366] cancel_quote_group. *)
Definition live_cancel_quote_group (quote_group_id : Z) (a : LiveMakerExecutionAdapter W) :
    LiveMakerExecutionAdapter W * MakerCancelResult :=
  if negb (lc_enabled (lm_config a)) then (a, mkMakerCancelResult false 0 "live maker execution adapter is disabled")
  else cancel_existing_group quote_group_id a.
End Maker.

(** ** What the adapters rely on *)

(** The orders that are open at the venue, or will be because of a request that
    was sent: signing opens none; a submission opens at most one, whatever its
    answer, and when the answer is a success it is the order that is named; a
    cancel that succeeds closes its order, and none opens any. *)
Class LiveVenueLaws (W : Type) `{LiveVenue W} := {
  venue_open : W → gset string;
  sign_opens_none w request : venue_open (sign_order w request).1 ⊆ venue_open w;
  submit_opens_one w body :
    let '(w', result) := submit_order w body in
    ∃ id, venue_open w' ⊆ venue_open w ∪ {[id]} ∧
      (ts_ok result = true → ts_venue_order_id result = id ∧ id ≠ ""%string);
  cancel_closes w id :
    let '(w', result) := cancel_order w id in
    venue_open w' ⊆ if tc_ok result then venue_open w ∖ {[id]} else venue_open w
}.

Lemma or_default_id id fallback : id ≠ "" → or_default id fallback = id.
Proof. intros Hid. unfold or_default. destruct (String.eqb_spec id ""); [done|]. done. Qed.

(** *** What a submission reports *)

Section Submissions.
Context {W : Type} `{LiveVenue W}.

(** What the loop of [submit_plan] maintains, for the orders it has passed. *)
Record SubmissionOk (config : LiveExecutionConfig) (plan : OrderPlan) (now_ns : Z) (done : list ChildOrder)
    (s : LiveSubmission W) : Prop := {
  so_accepted : ln_submitted s = Z.of_nat (length (ln_accepted s));
  so_count : ln_submitted s + ln_rejected s = Z.of_nat (length done);
  so_rejected : ln_rejected s = Z.of_nat (length (filter (λ r, er_status r = CsFailed) (ln_reports s)));
  so_reports : Forall2 (λ o r,
    er_plan_id r = op_plan_id plan ∧ er_child_order_id r = co_order_id o ∧ er_filled_lots r = 0 ∧
    ((er_status r = CsAcked ∧ er_remaining_lots r = co_quantity_lots o ∧
      mkAcceptedLiveOrder (co_order_id o) (er_venue_order_id r) ∈ ln_accepted s ∧
      side_allowed config (co_side o) = true ∧ notional_allowed config (co_quantity_lots o) (co_limit_price_tick o) = true)
     ∨ er_status r = CsFailed)) done (ln_reports s)
}.

Lemma submit_child_allowed config plan order w w' id : submit_child config plan order w = (w', inr id) →
  side_allowed config (co_side order) = true ∧ notional_allowed config (co_quantity_lots order) (co_limit_price_tick order) = true.
Proof.
  unfold submit_child. destruct (side_allowed _ _); [cbn [negb]|done]. by destruct (notional_allowed _ _ _).
Qed.

Lemma submit_next_ok config plan now_ns passed s order : SubmissionOk config plan now_ns passed s →
  SubmissionOk config plan now_ns (passed ++ [order]) (submit_next config plan now_ns s order).
Proof.
  intros [Ha Hc Hr Hrep]. unfold submit_next.
  destruct (submit_child config plan order (ln_venue s)) as [w [reason|id]] eqn:E; constructor; cbn [ln_venue ln_submitted ln_rejected ln_accepted ln_reports].
  - done.
  - rewrite length_app. cbn. lia.
  - rewrite filter_app, length_app, Hr. change (filter _ [rejection plan now_ns reason order]) with [rejection plan now_ns reason order]. cbn. lia.
  - apply Forall2_app; [done|]. constructor; [|done]. cbn. auto.
  - rewrite length_app. cbn. lia.
  - rewrite length_app. cbn. lia.
  - rewrite filter_app. change (filter _ [live_report plan order CsAcked now_ns id ""]) with (@nil ExecutionReport). by rewrite app_nil_r.
  - apply Forall2_app.
    + eapply Forall2_impl; [exact Hrep|]. cbn. intros o r (? & ? & ? & [(? & ? & ? & ?)|?]); split_and!; auto. left. split_and!; try tauto. set_solver.
    + constructor; [|done]. cbn. apply submit_child_allowed in E. split_and!; try done. left. split_and!; try tauto. set_solver.
Qed.

Lemma submit_children_ok config plan now_ns w :
  SubmissionOk config plan now_ns (plan_orders plan) (submit_children config plan now_ns w).
Proof.
  unfold submit_children. set (s0 := mkLiveSubmission w 0 0 [] []).
  assert (Hinit : SubmissionOk config plan now_ns [] s0) by (constructor; cbn; [done|done|done|constructor]).
  assert (Hgen : ∀ orders passed s, SubmissionOk config plan now_ns passed s →
    SubmissionOk config plan now_ns (passed ++ orders) (foldl (submit_next config plan now_ns) s orders)).
  { induction orders as [|o orders IH]; intros passed s Hs; cbn [foldl]; [by rewrite app_nil_r|].
    rewrite (cons_middle o passed orders), (assoc_L (++)). by apply IH, submit_next_ok. }
  exact (Hgen (plan_orders plan) [] s0 Hinit).
Qed.

Lemma all_acked config plan now_ns s orders : SubmissionOk config plan now_ns orders s → ln_rejected s = 0 →
  Forall2 (λ o r, er_child_order_id r = co_order_id o ∧ er_status r = CsAcked ∧ er_remaining_lots r = co_quantity_lots o ∧
    mkAcceptedLiveOrder (co_order_id o) (er_venue_order_id r) ∈ ln_accepted s ∧
    side_allowed config (co_side o) = true ∧ notional_allowed config (co_quantity_lots o) (co_limit_price_tick o) = true)
    orders (ln_reports s).
Proof.
  intros [_ _ Hr Hrep] Hz. rewrite Hz in Hr.
  assert (filter (λ r, er_status r = CsFailed) (ln_reports s) = []) as Hnil by (apply nil_length_inv; lia).
  apply Forall2_same_length_lookup_2; [by eapply Forall2_length|]. intros i o r Ho Hri.
  destruct (Forall2_lookup_lr _ _ _ _ _ _ Hrep Ho Hri) as (_ & Hid & _ & [?|Hf]); [tauto|].
  exfalso. apply (filter_nil_not_elem_of _ _ r Hnil Hf). by apply (list_elem_of_lookup_2 _ i).
Qed.

(** C32. A live submission does what it reports.  When the adapter accepts a
    plan, live trading is enabled and every order of the plan, in order, is
    within the limits, acknowledged with its full quantity open and tracked; any
    other submission is reported as failed.  No report ever says that something
    was filled. *)
Theorem live_submission_exact a plan context a' result :
  live_submit_plan a plan context = (a', result) →
  (as_ok result = true → live_context_enabled (la_config a) context = true ∧ as_status result = PsAcked ∧
     as_child_orders_submitted result = Z.of_nat (length (plan_orders plan)) ∧ as_child_orders_rejected result = 0 ∧
     ∃ accepted, la_accepted_orders_by_plan a' !! op_plan_id plan = Some accepted ∧
       Forall2 (λ o r, er_child_order_id r = co_order_id o ∧ er_status r = CsAcked ∧ er_remaining_lots r = co_quantity_lots o ∧
         mkAcceptedLiveOrder (co_order_id o) (er_venue_order_id r) ∈ accepted ∧ side_allowed (la_config a) (co_side o) = true ∧
         notional_allowed (la_config a) (co_quantity_lots o) (co_limit_price_tick o) = true)
       (plan_orders plan) (la_pending_reports a')) ∧
  (as_ok result = false → as_status result = PsFailed) ∧
  (∀ r, r ∈ la_pending_reports a' → er_filled_lots r = 0).
Proof.
  unfold live_submit_plan. set (cleared := a <| la_pending_reports := [] |>).
  destruct (live_context_enabled (la_config a) context); cbn [negb]; [|intros [<- <-]%pair_eq; split_and!; [done|done|set_solver]].
  do 3 (case_match; [intros [<- <-]%pair_eq; split_and!; [done|done|set_solver]|]).
  case_match; [intros [<- <-]%pair_eq; split_and!; [done|done|]; intros r (o & -> & _)%list_elem_of_fmap; done|].
  pose proof (submit_children_ok (la_config a) plan (xc_now_ns context) (la_venue a)) as Hok.
  change (la_venue cleared) with (la_venue a). set (s := submit_children _ _ _ _) in *.
  intros [<- <-]%pair_eq. cbn [as_ok as_status as_child_orders_submitted as_child_orders_rejected].
  split_and!.
  - intros [Hz%Z.eqb_eq Hpos]%andb_true_iff. rewrite Hz. split; [done|]. rewrite Hpos. split; [done|].
    pose proof (so_accepted _ _ _ _ _ Hok). pose proof (so_count _ _ _ _ _ Hok). split; [lia|]. split; [done|]. exists (ln_accepted s). split.
    + destruct (ln_accepted s) as [|x l] eqn:El; [cbn in *; lia|]. by apply lookup_insert_eq.
    + by apply (all_acked _ _ _ _ _ Hok).
  - by intros ->.
  - intros r Hr. pose proof (so_reports _ _ _ _ _ Hok) as Hrep. apply list_elem_of_lookup in Hr as [i Hi].
    destruct (Forall2_lookup_r _ _ _ _ _ Hrep Hi) as (o & _ & _ & _ & H' & _). done.
Qed.
End Submissions.

Section Laws.
Context {W : Type} `{LiveVenueLaws W}.
Implicit Types w : W.

Lemma size_union_le (X Y : gset string) : (size (X ∪ Y) <= size X + size Y)%nat.
Proof.
  rewrite size_union_alt. assert (size (Y ∖ X) <= size Y)%nat; [|lia]. apply subseteq_size. set_solver.
Qed.

(** Every request opens at most one order, the one it returns if it returns one. *)
Lemma sign_and_submit_open request e1 e2 w :
  let '(w', result) := sign_and_submit request e1 e2 w in
  ∃ id, venue_open w' ⊆ venue_open w ∪ {[id]} ∧ (∀ id' status, result = inr (id', status) → id' = id ∧ id ≠ ""%string).
Proof.
  unfold sign_and_submit. pose proof (sign_opens_none w request) as Hs. destruct (sign_order w request) as [w1 signed]. cbn in Hs.
  destruct (sr_ok signed); cbn [negb]; [|exists ""%string; split; [set_solver|done]].
  pose proof (submit_opens_one w1 (sg_request_body_json (sr_order signed))) as Ho. destruct (submit_order w1 _) as [w2 result].
  destruct Ho as (id & Ho & Hid). destruct (ts_ok result); cbn [negb]; exists id; [|split; [set_solver|done]].
  destruct (Hid eq_refl) as [-> Hne]. rewrite or_default_id by done. split; [set_solver|]. by intros id' status [= <- <-].
Qed.

Lemma cancel_orders_open fallback ids w :
  let '(w', (canceled, _)) := cancel_orders fallback ids w in
  venue_open w' ⊆ venue_open w ∧ (canceled <= length ids)%nat ∧
  (canceled = length ids → ∀ id, id ∈ ids → id ∉ venue_open w').
Proof.
  revert w. induction ids as [|id ids IH]; intros w; cbn [cancel_orders length]; [split_and!; [done|lia|set_solver]|].
  pose proof (cancel_closes w id) as Hc. destruct (cancel_order w id) as [w1 result]. specialize (IH w1).
  destruct (cancel_orders fallback ids w1) as [w2 [canceled error]]. destruct IH as (Hsub & Hle & Hall).
  destruct (tc_ok result); (split_and!; [set_solver|lia|]); intros Hn; [|lia].
  intros id' [->|Hid']%elem_of_cons; [set_solver|]. apply Hall; [lia|done].
Qed.

(** *** Quotes *)

(** The adapter knows of an order. *)
Definition maker_tracked (a : LiveMakerExecutionAdapter W) (id : string) : Prop :=
  ∃ g orders o, lm_accepted_orders_by_group a !! g = Some orders ∧ o ∈ orders ∧ am_venue_order_id o = id.

(** The orders of a group are one quote's, at most one per side. *)
Definition group_ok (orders : list AcceptedMakerOrder) : Prop :=
  orders ≠ [] ∧ (∃ quote_id, ∀ o, o ∈ orders → am_quote_id o = quote_id) ∧ NoDup (am_side <$> orders).

(** Every order open at the venue is one of [open0], orders the adapter does not
    answer for, or is tracked, and every group is one quote. *)
Definition MakerTracks (open0 : gset string) (a : LiveMakerExecutionAdapter W) : Prop :=
  (∀ id, id ∈ venue_open (lm_venue a) → id ∈ open0 ∨ maker_tracked a id) ∧
  (∀ g orders, lm_accepted_orders_by_group a !! g = Some orders → group_ok orders).

Lemma tracks_fewer (open0 : gset string) a w : MakerTracks open0 a → venue_open w ⊆ venue_open (lm_venue a) → MakerTracks open0 (a <| lm_venue := w |>).
Proof. intros [H1 H2] Hsub. split; [|done]. intros id Hid%Hsub. by apply H1. Qed.

Lemma tracks_weaken (open0 open1 : gset string) a : open0 ⊆ open1 → MakerTracks open0 a → MakerTracks open1 a.
Proof. intros Hsub [H1 H2]. split; [|done]. intros id Hid. destruct (H1 id Hid) as [Ho|Ho]; [left; by apply Hsub|by right]. Qed.

(** An order the adapter is not told of is added to those it does not answer for. *)
Lemma tracks_lose (open0 : gset string) a w id : MakerTracks open0 a → venue_open w ⊆ venue_open (lm_venue a) ∪ {[id]} →
  MakerTracks (open0 ∪ {[id]}) (a <| lm_venue := w |>).
Proof.
  intros [H1 H2] Hsub. split; [|done]. intros i Hi%Hsub. apply elem_of_union in Hi as [Hi|Hi]; [|set_solver].
  destruct (H1 i Hi); [set_solver|by right].
Qed.

(** At most [n] orders more than [open0] are neither tracked nor known. *)
Definition Loses (n : nat) (open0 : gset string) (a : LiveMakerExecutionAdapter W) : Prop :=
  ∃ lost : gset string, (size lost <= n)%nat ∧ MakerTracks (open0 ∪ lost) a.

Lemma loses_none n open0 a : MakerTracks open0 a → Loses n open0 a.
Proof. intros Ht. exists ∅. rewrite size_empty, union_empty_r_L. split; [lia|done]. Qed.

Lemma loses_one open0 id a : MakerTracks (open0 ∪ {[id]}) a → Loses 1 open0 a.
Proof. intros Ht. exists {[id]}. by rewrite size_singleton. Qed.

Lemma cancel_group_tracks open0 g a a' result : MakerTracks open0 a → cancel_existing_group g a = (a', result) →
  MakerTracks open0 a' ∧ lm_config a' = lm_config a ∧
  (if mx_ok result then lm_accepted_orders_by_group a' !! g = None ∧
     (∀ orders o, lm_accepted_orders_by_group a !! g = Some orders → o ∈ orders → am_venue_order_id o ∉ venue_open (lm_venue a'))
   else lm_accepted_orders_by_group a' = lm_accepted_orders_by_group a).
Proof.
  intros Ht. unfold cancel_existing_group. destruct (lm_has_transport a); cbn [negb]; [|by intros [<- <-]%pair_eq].
  destruct (lm_accepted_orders_by_group a !! g) as [[|o orders]|] eqn:Eg; [by intros [<- <-]%pair_eq| |by intros [<- <-]%pair_eq].
  pose proof (cancel_orders_open "live maker cancel failed" (am_venue_order_id <$> o :: orders) (lm_venue a)) as Hc.
  destruct (cancel_orders _ _ (lm_venue a)) as [w [canceled error]]. destruct Hc as (Hsub & _ & Hall).
  destruct (Nat.eqb_spec canceled (length (o :: orders))) as [Hn|Hn]; intros [<- <-]%pair_eq; cbn [mx_ok].
  - assert (Hgone : ∀ o', o' ∈ o :: orders → am_venue_order_id o' ∉ venue_open w).
    { intros o' Ho'. apply Hall; [by rewrite length_fmap|]. by apply list_elem_of_fmap_2. }
    split; [|split; [done|split; [by apply lookup_delete_eq|intros ? o' [= <-]; apply Hgone]]].
    destruct Ht as [H1 H2]. split.
    + intros id Hid. change (venue_open _) with (venue_open w) in Hid. destruct (H1 id (Hsub _ Hid)) as [|(g' & os & o' & Hl & Ho' & <-)]; [by left|].
      right. exists g', os, o'. split; [|done]. cbn. rewrite lookup_delete_ne; [done|]. intros <-. rewrite Eg in Hl.
      injection Hl as <-. by apply (Hgone o').
    + intros g' os Hl. change (delete g (lm_accepted_orders_by_group a) !! g' = Some os) in Hl.
      apply lookup_delete_Some in Hl as [_ Hl]. by apply (H2 g').
  - split; [by apply tracks_fewer|done].
Qed.

Lemma submit_leg_tracks open0 quote leg side quote_id a a' error : MakerTracks open0 a →
  group_ok (default [] (lm_accepted_orders_by_group a !! apq_quote_group_id quote) ++ [mkAcceptedMakerOrder quote_id side ""]) →
  submit_leg quote leg side quote_id a = (a', error) →
  match error with
  | Some _ => (∃ id, MakerTracks (open0 ∪ {[id]}) a') ∧ lm_accepted_orders_by_group a' = lm_accepted_orders_by_group a
  | None => MakerTracks open0 a' ∧ ∃ id, lm_accepted_orders_by_group a' =
      <[apq_quote_group_id quote := default [] (lm_accepted_orders_by_group a !! apq_quote_group_id quote) ++ [mkAcceptedMakerOrder quote_id side id]]>
        (lm_accepted_orders_by_group a)
  end.
Proof.
  intros Ht Hok. unfold submit_leg.
  do 4 (case_match; [intros [<- <-]%pair_eq; split; [|done]; exists ""%string; eapply tracks_weaken; [|exact Ht]; set_solver|]).
  pose proof (sign_and_submit_open (maker_request (lm_config a) quote leg side quote_id) "live maker signing failed" "live maker submit failed"
    (lm_venue a)) as Hs. destruct (sign_and_submit _ _ _ (lm_venue a)) as [w result]; destruct Hs as (id & Hsub & Hid).
  pose proof (tracks_lose _ _ _ _ Ht Hsub) as Hlose.
  destruct result as [e|[id' status]]; [intros [<- <-]%pair_eq; split; [by exists id|done]|].
  destruct (Hid id' status eq_refl) as [-> Hne]. change (lm_config (a <| lm_venue := w |>)) with (lm_config a).
  destruct (_ && negb (resting_status status)); [intros [<- <-]%pair_eq; split; [by exists id|done]|].
  destruct (String.eqb_spec id ""); [done|]. intros [<- <-]%pair_eq. split; [|by exists id].
  set (g := apq_quote_group_id quote) in *. set (old := default [] _) in *.
  destruct Ht as [Hopen Hgroups]. split.
  - intros i Hi. change (venue_open _) with (venue_open w) in Hi. apply Hsub, elem_of_union in Hi as [Hi|Hi].
    + destruct (Hopen i Hi) as [|(g' & os & o' & Hl & Ho' & <-)]; [by left|right]. destruct (decide (g' = g)) as [->|Hne'].
      * exists g, (old ++ [mkAcceptedMakerOrder quote_id side id]), o'. cbn. rewrite lookup_insert_eq. split; [done|]. split; [|done].
        subst old. rewrite Hl. cbn. set_solver.
      * exists g', os, o'. cbn. by rewrite lookup_insert_ne.
    + right. apply elem_of_singleton in Hi as ->.
      exists g, (old ++ [mkAcceptedMakerOrder quote_id side id]), (mkAcceptedMakerOrder quote_id side id). cbn.
      rewrite lookup_insert_eq. split; [done|]. split; [set_solver|done].
  - intros g' os. cbn. intros [[<- <-]|[_ Hl]]%lookup_insert_Some; [|by apply (Hgroups g')].
    destruct Hok as (_ & (qid & Hq) & Hnd). split; [intros Ho; destruct (app_eq_nil _ _ Ho); done|]. rewrite fmap_app in *. split; [|done].
    exists qid. intros o' Ho'. apply elem_of_app in Ho' as [Ho'|Ho']; [apply Hq; set_solver|].
    apply list_elem_of_singleton in Ho' as ->.
    cbn. apply (Hq (mkAcceptedMakerOrder quote_id side "")). set_solver.
Qed.

Lemma submit_side_tracks open0 has quote leg side quote_id a a' error : MakerTracks open0 a →
  group_ok (default [] (lm_accepted_orders_by_group a !! apq_quote_group_id quote) ++ [mkAcceptedMakerOrder quote_id side ""]) →
  submit_side has quote leg side quote_id a = (a', error) →
  match error with
  | Some _ => Loses 1 open0 a'
  | None => MakerTracks open0 a' ∧
      (lm_accepted_orders_by_group a' = lm_accepted_orders_by_group a ∨
       ∃ id, lm_accepted_orders_by_group a' =
         <[apq_quote_group_id quote := default [] (lm_accepted_orders_by_group a !! apq_quote_group_id quote) ++ [mkAcceptedMakerOrder quote_id side id]]>
           (lm_accepted_orders_by_group a))
  end.
Proof.
  intros Ht Hok. unfold submit_side. destruct has; [|intros [<- <-]%pair_eq; auto].
  destruct (submit_leg quote leg side quote_id a) as [a1 e] eqn:El.
  pose proof (submit_leg_tracks open0 _ _ _ _ _ _ _ Ht Hok El) as He. destruct e as [e|]; [|destruct He; intros [<- <-]%pair_eq; auto].
  destruct He as [[id Ht1] _].
  destruct (cancel_existing_group (apq_quote_group_id quote) a1) as [a2 r] eqn:Ec. intros [<- <-]%pair_eq. cbn [fst].
  apply (loses_one _ id). by apply (cancel_group_tracks _ _ _ _ _ Ht1 Ec).
Qed.

Lemma single_group_ok quote_id side id : group_ok [mkAcceptedMakerOrder quote_id side id].
Proof.
  split; [done|]. split; [|apply NoDup_singleton]. exists quote_id. intros o Ho. by apply list_elem_of_singleton in Ho as ->.
Qed.
Lemma pair_group_ok quote_id bid ask :
  group_ok ([mkAcceptedMakerOrder quote_id QsBid bid] ++ [mkAcceptedMakerOrder quote_id QsAsk ask]).
Proof.
  split; [done|]. split; [exists quote_id; intros o Ho; set_unfold in Ho; by destruct Ho as [->|[->|[]]]|].
  cbn. apply NoDup_cons. split; [set_solver|apply NoDup_singleton].
Qed.

Lemma replace_quote_tracks open0 quote quote_id a a' result : MakerTracks open0 a → replace_quote quote quote_id a = (a', result) →
  Loses (if mu_ok result then 0 else 1) open0 a'.
Proof.
  intros Ht. unfold replace_quote.
  set (start := if bool_decide _ then cancel_existing_group _ a else (a, mkMakerCancelResult true 0 "")).
  assert (Hstart : MakerTracks open0 start.1 ∧
    (mx_ok start.2 = true → lm_accepted_orders_by_group start.1 !! apq_quote_group_id quote = None)).
  { subst start. case_bool_decide as Hg.
    - destruct (cancel_existing_group _ a) as [a1 c] eqn:Ec. destruct (cancel_group_tracks open0 _ _ _ _ Ht Ec) as (Ht1 & _ & Hc).
      cbn [fst snd]. split; [done|]. intros E. rewrite E in Hc. apply Hc.
    - split; [done|]. intros _. by apply eq_None_not_Some. }
  destruct start as [a1 cancel]. cbn [fst snd] in Hstart. destruct Hstart as [Ht1 Hnone].
  destruct (mx_ok cancel); cbn [negb]; [specialize (Hnone eq_refl)|intros [<- <-]%pair_eq; by apply loses_none].
  destruct (_ || _); [intros [<- <-]%pair_eq; by apply loses_none|].
  destruct (submit_side _ _ _ QsBid _ a1) as [a2 e2] eqn:E2. apply (submit_side_tracks open0) in E2; [|done|].
  2:{ rewrite Hnone. apply single_group_ok. }
  destruct e2 as [e2|]; [by intros [<- <-]%pair_eq|]. destruct E2 as [Ht2 Hg2].
  destruct (submit_side _ _ _ QsAsk _ a2) as [a3 e3] eqn:E3. apply (submit_side_tracks open0) in E3; [|done|].
  2:{ destruct Hg2 as [->|[id ->]]; [rewrite Hnone; apply single_group_ok|]. rewrite lookup_insert_eq, Hnone. apply pair_group_ok. }
  destruct e3 as [e3|]; intros [<- <-]%pair_eq; [done|]. destruct E3 as [Ht3 _]. by apply loses_none.
Qed.

Lemma live_submit_tracks open0 quote now_ns a a' result : MakerTracks open0 a →
  live_submit_approved_quote quote now_ns a = (a', result) → Loses (if mu_ok result then 0 else 1) open0 a'.
Proof.
  intros Ht. unfold live_submit_approved_quote. repeat (case_match; [intros [<- <-]%pair_eq; by apply loses_none|]). by apply replace_quote_tracks.
Qed.

(** The calls of a maker adapter. *)
Inductive LiveMakerOp := LmSubmit (quote : ApprovedQuote) (now_ns : Z) | LmCancel (quote_group_id : Z).
Definition live_maker_step (a : LiveMakerExecutionAdapter W) (op : LiveMakerOp) : LiveMakerExecutionAdapter W :=
  match op with
  | LmSubmit quote now_ns => (live_submit_approved_quote quote now_ns a).1
  | LmCancel g => (live_cancel_quote_group g a).1
  end.
(** The submissions among some calls that the adapter reports as failed. *)
Definition submit_failed (a : LiveMakerExecutionAdapter W) (op : LiveMakerOp) : bool :=
  match op with LmSubmit quote now_ns => negb (mu_ok (live_submit_approved_quote quote now_ns a).2) | LmCancel _ => false end.
Fixpoint failed_submissions (a : LiveMakerExecutionAdapter W) (ops : list LiveMakerOp) : nat :=
  match ops with
  | [] => 0
  | op :: ops => (if submit_failed a op then 1 else 0) + failed_submissions (live_maker_step a op) ops
  end.

Lemma live_cancel_tracks open0 g a a' result : MakerTracks open0 a → live_cancel_quote_group g a = (a', result) → MakerTracks open0 a'.
Proof.
  intros Ht. unfold live_cancel_quote_group. case_match; [by intros [<- <-]%pair_eq|]. intros E. by apply (cancel_group_tracks open0 _ _ _ _ Ht E).
Qed.

Lemma live_maker_step_tracks open0 a op : MakerTracks open0 a →
  Loses (if submit_failed a op then 1 else 0) open0 (live_maker_step a op).
Proof.
  intros Ht. destruct op as [quote now_ns|g]; cbn [live_maker_step submit_failed].
  - destruct (live_submit_approved_quote quote now_ns a) as [a1 r] eqn:E. apply (live_submit_tracks open0) in E; [|done].
    cbn [fst snd]. by destruct (mu_ok r).
  - destruct (live_cancel_quote_group g a) as [a1 r] eqn:E. apply loses_none. by eapply live_cancel_tracks.
Qed.

Lemma live_maker_run_tracks ops : ∀ open0 a, MakerTracks open0 a → Loses (failed_submissions a ops) open0 (foldl live_maker_step a ops).
Proof.
  induction ops as [|op ops IH]; intros open0 a Ht; cbn [foldl failed_submissions]; [by apply loses_none|].
  destruct (live_maker_step_tracks open0 a op Ht) as (lost1 & Hn1 & Ht1). destruct (IH _ _ Ht1) as (lost2 & Hn2 & Ht2).
  exists (lost1 ∪ lost2). rewrite (assoc_L (∪)). split; [|done]. pose proof (size_union_le lost1 lost2). lia.
Qed.

Lemma new_maker_tracks config signer transport w hashes :
  MakerTracks (venue_open w) (mkLiveMakerExecutionAdapter config signer transport w ∅ hashes).
Proof.
  split; [by left|]. intros g orders Hl. change ((∅ : gmap Z (list AcceptedMakerOrder)) !! g = Some orders) in Hl. by rewrite lookup_empty in Hl.
Qed.

(** C31. Which live quotes can be forgotten.  Whatever the venue answers, after
    any submissions and cancels every order that is open there was open before,
    or is tracked by the adapter under its group, or is one of at most as many
    lost orders as submissions were reported as failed; when every submission was
    reported as accepted, none is lost.  The orders tracked for a group are those
    of one quote, at most one per side. *)
Theorem live_quotes_tracked config signer transport w hashes ops :
  let a0 := mkLiveMakerExecutionAdapter config signer transport w ∅ hashes in
  let a := foldl live_maker_step a0 ops in
  (∃ lost : gset string, (size lost <= failed_submissions a0 ops)%nat ∧
     ∀ id, id ∈ venue_open (lm_venue a) → id ∈ venue_open w ∨ maker_tracked a id ∨ id ∈ lost) ∧
  (∀ g orders, lm_accepted_orders_by_group a !! g = Some orders → group_ok orders).
Proof.
  intros a0 a. destruct (live_maker_run_tracks ops (venue_open w) a0 (new_maker_tracks _ _ _ _ _)) as (lost & Hn & Hopen & Hgroups).
  split; [|exact Hgroups]. exists lost. split; [done|]. intros id Hid.
  destruct (Hopen id Hid) as [Ho|Ho]; [apply elem_of_union in Ho as [Ho|Ho]|]; auto.
Qed.

(** A cancelled quote is withdrawn.  When the adapter reports that a group
    was cancelled, none of the orders it tracked for the group is open at the
    venue any more, and the group is forgotten. *)
Theorem live_cancel_withdraws open0 g a a' result :
  MakerTracks open0 a → live_cancel_quote_group g a = (a', result) → mx_ok result = true →
  lm_accepted_orders_by_group a' !! g = None ∧
  ∀ orders o, lm_accepted_orders_by_group a !! g = Some orders → o ∈ orders → am_venue_order_id o ∉ venue_open (lm_venue a').
Proof.
  intros Ht. unfold live_cancel_quote_group. case_match; [by intros [<- <-]%pair_eq|]. intros E Hok.
  destruct (cancel_group_tracks open0 _ _ _ _ Ht E) as (_ & _ & Hc). by rewrite Hok in Hc.
Qed.

(** *** Plans *)

(** The adapter knows of an order of a plan. *)
Definition plan_order_tracked (a : LiveExecutionAdapter W) (id : string) : Prop :=
  ∃ p orders o, la_accepted_orders_by_plan a !! p = Some orders ∧ o ∈ orders ∧ al_venue_order_id o = id.
Definition PlanTracks (open0 : gset string) (a : LiveExecutionAdapter W) : Prop :=
  ∀ id, id ∈ venue_open (la_venue a) → id ∈ open0 ∨ plan_order_tracked a id.

Lemma submit_child_open config plan order w :
  let '(w', result) := submit_child config plan order w in
  ∃ id, venue_open w' ⊆ venue_open w ∪ {[id]} ∧ (∀ id', result = inr id' → id' = id).
Proof.
  unfold submit_child. destruct (negb (side_allowed _ _)); [exists ""%string; split; [set_solver|done]|].
  destruct (negb (notional_allowed _ _ _)); [exists ""%string; split; [set_solver|done]|].
  pose proof (sign_and_submit_open (make_request config plan order) "live order signing failed" "live order submit failed" w) as Hs.
  destruct (sign_and_submit _ _ _ w) as [w1 [e|[id' status]]]; destruct Hs as (id & Hsub & Hid); exists id; (split; [done|]); [done|].
  destruct (Hid id' status eq_refl) as [-> Hne]. destruct (String.eqb_spec id ""); [done|]. by intros id' [= <-].
Qed.

(** Every order the venue took is accepted, or is one of those of the rejections. *)
Definition submission_open (w0 : W) (s : LiveSubmission W) : Prop :=
  ∃ lost : gset string, Z.of_nat (size lost) <= ln_rejected s ∧
    venue_open (ln_venue s) ⊆ venue_open w0 ∪ lost ∪ list_to_set (al_venue_order_id <$> ln_accepted s).

Lemma submit_next_open config plan now_ns w0 s order :
  submission_open w0 s → submission_open w0 (submit_next config plan now_ns s order).
Proof.
  intros (lost & Hn & Hsub). unfold submit_next. pose proof (submit_child_open config plan order (ln_venue s)) as Hopen.
  destruct (submit_child config plan order (ln_venue s)) as [w [reason|id']]; destruct Hopen as (id & Ho & Hid).
  - exists (lost ∪ {[id]}). cbn [ln_venue ln_rejected ln_accepted]. pose proof (size_union_le lost {[id]}) as Hs. rewrite size_singleton in Hs.
    split; [lia|set_solver].
  - exists lost. cbn [ln_venue ln_rejected ln_accepted]. rewrite fmap_app, list_to_set_app_L. split; [done|].
    rewrite (Hid id' eq_refl). cbn. set_solver.
Qed.

Lemma submit_children_open config plan now_ns w : submission_open w (submit_children config plan now_ns w).
Proof.
  unfold submit_children. assert (Hinit : submission_open w (mkLiveSubmission w 0 0 [] [])).
  { exists ∅. rewrite size_empty. cbn. split; [lia|set_solver]. }
  revert Hinit. generalize (mkLiveSubmission w 0 0 [] []). induction (plan_orders plan) as [|o orders IH]; intros s Hs; cbn [foldl]; [done|].
  by apply IH, submit_next_open.
Qed.

Lemma live_submit_plan_tracks open0 a plan context a' result : PlanTracks open0 a →
  la_accepted_orders_by_plan a !! op_plan_id plan = None → live_submit_plan a plan context = (a', result) →
  (∃ lost : gset string, Z.of_nat (size lost) <= as_child_orders_rejected result ∧ PlanTracks (open0 ∪ lost) a') ∧
  ∀ p, p ≠ op_plan_id plan → la_accepted_orders_by_plan a' !! p = la_accepted_orders_by_plan a !! p.
Proof.
  intros Ht Hnew. unfold live_submit_plan. set (cleared := a <| la_pending_reports := [] |>).
  assert (Hkeep : ∀ a1 r, PlanTracks open0 a1 → 0 <= as_child_orders_rejected r →
    ∃ lost : gset string, Z.of_nat (size lost) <= as_child_orders_rejected r ∧ PlanTracks (open0 ∪ lost) a1).
  { intros a1 r Ht1 Hr. exists ∅. rewrite size_empty, union_empty_r_L. split; [lia|done]. }
  destruct (negb (live_context_enabled _ _)); [intros [<- <-]%pair_eq; split; [by apply Hkeep|done]|].
  do 4 (case_match; [intros [<- <-]%pair_eq; split; [apply Hkeep; [exact Ht|cbn; lia]|done]|]).
  destruct (submit_children_open (la_config a) plan (xc_now_ns context) (la_venue a)) as (lost & Hn & Hsub).
  change (la_venue cleared) with (la_venue a). set (s := submit_children _ _ _ _) in *. intros [<- <-]%pair_eq. split.
  - exists lost. split; [done|]. intros id Hid. apply Hsub, elem_of_union in Hid as [[Hid|Hid]%elem_of_union|Hid]; [|set_solver|].
    + destruct (Ht id Hid) as [|(p & orders & o & Hp & Ho & <-)]; [left; set_solver|right]. exists p, orders, o. split; [|done].
      assert (p ≠ op_plan_id plan) by congruence. cbn. destruct (ln_accepted s); [done|]. by rewrite lookup_insert_ne.
    + right. apply elem_of_list_to_set, list_elem_of_fmap in Hid as (o & -> & Ho).
      exists (op_plan_id plan), (ln_accepted s), o. split; [|done]. cbn. destruct (ln_accepted s); [by apply elem_of_nil in Ho|].
      by rewrite lookup_insert_eq.
  - intros p Hp. cbn. destruct (ln_accepted s); [done|]. by rewrite lookup_insert_ne.
Qed.

Lemma live_cancel_plan_tracks open0 a plan_id a' result : PlanTracks open0 a → live_cancel_plan a plan_id = (a', result) →
  PlanTracks open0 a' ∧
  (∀ p, la_accepted_orders_by_plan a !! p = None → la_accepted_orders_by_plan a' !! p = None) ∧
  (ac_ok result = true → la_accepted_orders_by_plan a' !! plan_id = None ∧
     ∀ orders o, la_accepted_orders_by_plan a !! plan_id = Some orders → o ∈ orders → al_venue_order_id o ∉ venue_open (la_venue a')).
Proof.
  intros Ht. unfold live_cancel_plan. do 2 (case_match; [by intros [<- <-]%pair_eq|]).
  destruct (la_accepted_orders_by_plan a !! plan_id) as [[|o orders]|] eqn:Eg; [by intros [<- <-]%pair_eq| |by intros [<- <-]%pair_eq].
  pose proof (cancel_orders_open "live cancel failed" (al_venue_order_id <$> o :: orders) (la_venue a)) as Hc.
  destruct (cancel_orders _ _ (la_venue a)) as [w [canceled error]]. destruct Hc as (Hsub & _ & Hall).
  assert (Hfewer : PlanTracks open0 (a <| la_venue := w |>)) by (intros id Hid%Hsub; by apply Ht).
  destruct (Nat.eqb_spec canceled (length (o :: orders))) as [Hn|Hn]; intros [<- <-]%pair_eq; cbn [ac_ok]; [|done].
  assert (Hgone : ∀ o', o' ∈ o :: orders → al_venue_order_id o' ∉ venue_open w).
  { intros o' Ho'. apply Hall; [by rewrite length_fmap|]. by apply list_elem_of_fmap_2. }
  split; [|split; [|intros _; split; [by apply lookup_delete_eq|intros ? o' [= <-]; apply Hgone]]].
  - intros id Hid. destruct (Hfewer id Hid) as [|(p & os & o' & Hl & Ho' & <-)]; [by left|]. right. exists p, os, o'. split; [|done].
    change (delete plan_id (la_accepted_orders_by_plan a) !! p = Some os). rewrite lookup_delete_ne; [done|]. intros <-.
    change (la_accepted_orders_by_plan a !! plan_id = Some os) in Hl. rewrite Eg in Hl. injection Hl as <-. by apply (Hgone o').
  - intros p Hp. change (delete plan_id (la_accepted_orders_by_plan a) !! p = None). apply lookup_delete_None. by right.
Qed.

(** The calls of a plan adapter. *)
Inductive LivePlanOp := LpSubmit (plan : OrderPlan) (context : ExecutionContext) | LpPoll | LpCancel (plan_id : Z).
Definition live_plan_step (a : LiveExecutionAdapter W) (op : LivePlanOp) : LiveExecutionAdapter W :=
  match op with
  | LpSubmit plan context => (live_submit_plan a plan context).1
  | LpPoll => (live_poll_reports a).1
  | LpCancel plan_id => (live_cancel_plan a plan_id).1
  end.
Definition submitted_plans (ops : list LivePlanOp) : list Z :=
  omap (λ op, match op with LpSubmit plan _ => Some (op_plan_id plan) | _ => None end) ops.

(** The orders that the submissions among some calls report as rejected. *)
Fixpoint rejected_orders (a : LiveExecutionAdapter W) (ops : list LivePlanOp) : Z :=
  match ops with
  | [] => 0
  | op :: ops =>
      (match op with LpSubmit plan context => as_child_orders_rejected (live_submit_plan a plan context).2 | _ => 0 end)
      + rejected_orders (live_plan_step a op) ops
  end.

Lemma live_plan_run_tracks ops : ∀ open0 a, PlanTracks open0 a → NoDup (submitted_plans ops) →
  (∀ p, p ∈ submitted_plans ops → la_accepted_orders_by_plan a !! p = None) →
  ∃ lost : gset string, Z.of_nat (size lost) <= rejected_orders a ops ∧ PlanTracks (open0 ∪ lost) (foldl live_plan_step a ops).
Proof.
  induction ops as [|op ops IH]; intros open0 a Ht Hnd Hnew; cbn [foldl rejected_orders].
  { exists ∅. rewrite size_empty, union_empty_r_L. split; [lia|done]. }
  destruct op as [plan context| |plan_id]; cbn [live_plan_step].
  - cbn in Hnd, Hnew. apply NoDup_cons in Hnd as [Hp Hnd]. destruct (live_submit_plan a plan context) as [a1 r] eqn:E.
    destruct (live_submit_plan_tracks open0 _ _ _ _ _ Ht (Hnew _ (list_elem_of_here _ _)) E) as [(lost1 & Hn1 & Ht1) Hsame].
    destruct (IH _ a1 Ht1) as (lost2 & Hn2 & Ht2); [done|intros p Hin; rewrite Hsame; [set_solver|by intros ->]|].
    exists (lost1 ∪ lost2). rewrite (assoc_L (∪)). pose proof (size_union_le lost1 lost2). cbn [fst snd]. split; [lia|done].
  - apply (IH open0 (live_poll_reports a).1); done.
  - destruct (live_cancel_plan a plan_id) as [a1 r] eqn:E. destruct (live_cancel_plan_tracks open0 _ _ _ _ Ht E) as (Ht1 & Hsame & _).
    apply IH; [done|done|]. intros p Hin. by apply Hsame, Hnew.
Qed.

(** Which live orders can be forgotten.  When every plan is submitted once,
    every order that is open after any submissions, polls and cancels was open
    before, is tracked under its plan, or is one of at most as many lost orders as
    were reported as rejected. *)
Theorem live_orders_tracked config signer transport w reports ops :
  NoDup (submitted_plans ops) →
  let a0 := mkLiveExecutionAdapter config signer transport w reports ∅ in
  ∃ lost : gset string, Z.of_nat (size lost) <= rejected_orders a0 ops ∧
    PlanTracks (venue_open w ∪ lost) (foldl live_plan_step a0 ops).
Proof.
  intros Hnd a0. apply live_plan_run_tracks; [by left|done|]. intros p _.
  change ((∅ : gmap Z (list AcceptedLiveOrder)) !! p = None). apply lookup_empty.
Qed.
End Laws.

(** ** A small venue *)

(** The answer to a submission, and whether the venue takes the order. *)
Record ScriptAnswer := mkScriptAnswer { sa_ok : bool; sa_status : string; sa_takes : bool }.
Definition rests : ScriptAnswer := mkScriptAnswer true "live" true.
Definition refuses : ScriptAnswer := mkScriptAnswer false "" false.
(** The connection breaks after the request was written. *)
Definition answer_lost : ScriptAnswer := mkScriptAnswer false "" true.

(** A venue that numbers its orders and answers from a script: what it says to
    the next orders, and whether it takes the next cancels. *)
Record ScriptVenue := mkScriptVenue { sv_open : gset string; sv_next : N; sv_submits : list ScriptAnswer; sv_cancels : list bool }.

#[export] Instance script_venue : LiveVenue ScriptVenue := {|
  sign_order w request := (w, mkLiveOrderSignResult true (mkSignedLiveOrder (lq_client_order_id request) "") "");
  submit_order w _ :=
    let answer := default rests (head (sv_submits w)) in
    let id := "order" +:+ pretty (sv_next w) in
    (mkScriptVenue (if sa_takes answer then {[id]} ∪ sv_open w else sv_open w) (sv_next w + 1) (tail (sv_submits w)) (sv_cancels w),
     mkLiveTransportSubmitResult (sa_ok answer) (if sa_ok answer then id else "") (sa_status answer) "" "");
  cancel_order w id :=
    let ok := default true (head (sv_cancels w)) && bool_decide (id ∈ sv_open w) in
    (mkScriptVenue (if ok then sv_open w ∖ {[id]} else sv_open w) (sv_next w) (sv_submits w) (tail (sv_cancels w)),
     mkLiveTransportCancelResult ok "" "")
|}.

#[export] Instance script_venue_laws : LiveVenueLaws ScriptVenue.
Proof.
  refine {| venue_open := sv_open |}.
  - done.
  - intros w body. cbn. exists ("order" +:+ pretty (sv_next w)). split; [|by destruct (sa_ok _)]. destruct (sa_takes _); set_solver.
  - intros w id. cbn. by destruct (_ && _).
Defined.

(** ** Concrete sessions *)

Definition live_config : LiveExecutionConfig := live_config0 <| lc_enabled := true |> <| lc_max_child_orders_per_plan := 2%nat |>.
Definition live_leg (leg : QuoteLeg) : QuoteLeg := leg <| ql_market_id := "m" |> <| ql_asset_id := "a" |>.
Definition live_quote (hash : Z) : ApprovedQuote :=
  (open_quote 1 9) <| apq_bid ::= live_leg |> <| apq_ask ::= live_leg |> <| apq_idempotency_hash := hash |>.
Definition live_maker (submits : list ScriptAnswer) (cancels : list bool) : LiveMakerExecutionAdapter ScriptVenue :=
  mkLiveMakerExecutionAdapter live_config true true (mkScriptVenue ∅ 1 submits cancels) ∅ ∅.

(** Two quotes of a group: the second replaces the first. *)
Definition live_maker_ops : list LiveMakerOp := [LmSubmit (live_quote 7) 2000; LmSubmit (live_quote 8) 2001].
Definition replaced_session : LiveMakerExecutionAdapter ScriptVenue := foldl live_maker_step (live_maker [] []) live_maker_ops.

Lemma live_quotes_tracked_witness :
  failed_submissions (live_maker [] []) live_maker_ops = 0%nat ∧
  elements (sv_open (lm_venue replaced_session)) = ["order3"; "order4"]%string ∧
  ∀ id, id ∈ sv_open (lm_venue replaced_session) → maker_tracked replaced_session id.
Proof.
  assert (failed_submissions (live_maker [] []) live_maker_ops = 0%nat) as Hnone by (vm_compute; reflexivity).
  split; [exact Hnone|]. split; [vm_compute; reflexivity|].
  pose proof (live_quotes_tracked live_config true true (mkScriptVenue ∅ 1 [] []) ∅ live_maker_ops) as Ht.
  unfold replaced_session, live_maker in *. cbv zeta in Ht. set (a0 := mkLiveMakerExecutionAdapter _ _ _ _ _ _) in *.
  destruct Ht as [(lost & Hn & Hopen) _]. rewrite Hnone in Hn. assert (lost = ∅) as -> by (apply leibniz_equiv, size_empty_inv; lia).
  cbn [venue_open script_venue_laws sv_open] in Hopen. set (a := foldl _ _ _) in *. clearbody a.
  intros id Hid. destruct (Hopen id Hid) as [Ho|[Ho|Ho]]; [|exact Ho|]; exfalso; exact (not_elem_of_empty _ Ho).
Defined.

Lemma replaced_session_tracks : ∃ open0, MakerTracks open0 replaced_session.
Proof.
  destruct (live_maker_run_tracks live_maker_ops _ _ (new_maker_tracks live_config true true (mkScriptVenue ∅ 1 [] []) ∅)) as (lost & _ & Ht).
  eexists. exact Ht.
Qed.

Lemma live_cancel_withdraws_witness :
  let '(a, result) := live_cancel_quote_group 1 replaced_session in
  sv_open (lm_venue a) = ∅ ∧ lm_accepted_orders_by_group a !! 1 = None.
Proof.
  destruct replaced_session_tracks as [open0 Ht].
  pose proof (live_cancel_withdraws open0 1 replaced_session (live_cancel_quote_group 1 replaced_session).1
    (live_cancel_quote_group 1 replaced_session).2 Ht (surjective_pairing _)) as Hc.
  destruct (live_cancel_quote_group 1 replaced_session) as [a result] eqn:E. split.
  - transitivity (sv_open (lm_venue (live_cancel_quote_group 1 replaced_session).1)); [by rewrite E|vm_compute; reflexivity].
  - apply Hc. transitivity (mx_ok (live_cancel_quote_group 1 replaced_session).2); [by rewrite E|vm_compute; reflexivity].
Defined.

Definition live_order (id : Z) : ChildOrder := child_order0 <| co_order_id := id |> <| co_plan_id := 7 |> <| co_client_order_id := "c" +:+ pretty (Z.to_N id) |> <| co_market_id := "m" |> <| co_asset_id := "a" |>
    <| co_quantity_lots := 5 |> <| co_limit_price_tick := 300000 |> <| co_worst_allowed_price_tick := 300000 |> <| co_status := CsPlanned |>.
Definition live_plan (plan_id : Z) : OrderPlan :=
  order_plan0 <| op_plan_id := plan_id |> <| op_source_intent_id := 1 |> <| op_approved_intent_id := 2 |> <| op_reservation_id := 3 |>
    <| op_max_total_cost_tick := 3000000 |> <| op_idempotency_key := "k" |> <| op_created_ts_ns := 2000 |> <| op_expire_after_ns := 900000 |>
    <| op_order_count := 2%nat |> <| op_status := PsPlanned |>
    <| op_orders := std_array kMaxChildOrdersPerPlan child_order0 [live_order 1; live_order 2] |>.
Definition live_context : ExecutionContext :=
  mkExecutionContext 3000 [] [] (execution_config0 <| ec_mode := ModeLive |> <| ec_execution_enabled := true |> <| ec_live_enabled := true |>).
Definition live_plans (submits : list ScriptAnswer) (cancels : list bool) : LiveExecutionAdapter ScriptVenue :=
  mkLiveExecutionAdapter live_config true true (mkScriptVenue ∅ 1 submits cancels) [] ∅.
Definition live_plan_ops : list (LivePlanOp) :=
  [LpSubmit (live_plan 7) live_context; LpPoll; LpSubmit (live_plan 8) live_context; LpCancel 7].

Lemma live_orders_tracked_witness :
  rejected_orders (live_plans [] []) live_plan_ops = 0 ∧
  size (sv_open (la_venue (foldl live_plan_step (live_plans [] []) live_plan_ops))) = 2%nat ∧
  ∃ lost : gset string, (size lost <= 0)%nat ∧ PlanTracks (∅ ∪ lost) (foldl live_plan_step (live_plans [] []) live_plan_ops).
Proof.
  assert (rejected_orders (live_plans [] []) live_plan_ops = 0) as Hnone by (vm_compute; reflexivity).
  split; [exact Hnone|]. split; [vm_compute; reflexivity|].
  assert (NoDup (submitted_plans live_plan_ops)) as Hnd by (apply (bool_decide_unpack _); vm_compute; exact I).
  destruct (live_orders_tracked live_config true true (mkScriptVenue ∅ 1 [] []) [] live_plan_ops Hnd) as (lost & Hn & Ht).
  fold (live_plans [] []) in Hn, Ht. rewrite Hnone in Hn. exists lost. split; [lia|exact Ht].
Defined.

Lemma live_submission_exact_witness :
  let '(a, result) := live_submit_plan (live_plans [] []) (live_plan 7) live_context in
  as_ok result = true ∧ as_status result = PsAcked.
Proof.
  pose proof (live_submission_exact (live_plans [] []) (live_plan 7) live_context
    (live_submit_plan (live_plans [] []) (live_plan 7) live_context).1
    (live_submit_plan (live_plans [] []) (live_plan 7) live_context).2 (surjective_pairing _)) as [Hok _].
  assert (as_ok (live_submit_plan (live_plans [] []) (live_plan 7) live_context).2 = true) as H by (vm_compute; reflexivity).
  destruct (live_submit_plan _ _ _) as [a result]. split; [exact H|]. apply Hok. exact H.
Defined.

(** *** What can go wrong *)

(** When one of two cancels fails, the group keeps both orders: the retry fails
    on the one that is already cancelled, and the group can neither be cancelled
    nor replaced any more, although nothing is open. *)
Example partial_cancel_sticks :
  let a := foldl live_maker_step (live_maker [] [true; false]) [LmSubmit (live_quote 7) 2000; LmCancel 1; LmCancel 1] in
  sv_open (lm_venue a) = ∅ ∧ mx_ok (live_cancel_quote_group 1 a).2 = false ∧
  mu_error (live_submit_approved_quote (live_quote 8) 2001 a).2 = "failed to replace active live quote: live maker cancel failed"%string.
Proof. vm_compute. auto. Qed.

(** When the connection breaks after the request was written, the order is open
    and the adapter does not know of it: the next quote of the group does not
    replace it, and the group has nothing to cancel. *)
Example lost_answer_forgotten :
  let a := foldl live_maker_step (live_maker [answer_lost] []) [LmSubmit (live_quote 7) 2000] in
  elements (sv_open (lm_venue a)) = ["order1"%string] ∧ lm_accepted_orders_by_group a = ∅ ∧
  mx_ok (live_cancel_quote_group 1 a).2 = false ∧
  (let '(a', result) := live_submit_approved_quote (live_quote 8) 2001 a in
   mu_ok result = true ∧ size (sv_open (lm_venue a')) = 3%nat).
Proof. vm_compute. auto. Qed.

(** An order the venue took without resting it is reported as failed, and is
    neither tracked nor cancelled. *)
Example unrested_order_unknown :
  let '(a, result) := live_submit_approved_quote (live_quote 7) 2000 (live_maker [mkScriptAnswer true "delayed" true] []) in
  mu_ok result = false ∧ lm_accepted_orders_by_group a = ∅ ∧ elements (sv_open (lm_venue a)) = ["order1"%string].
Proof. vm_compute. auto. Qed.

(** The plan adapter forgets such an order too; its plan is reported as failed. *)
Example lost_plan_order_forgotten :
  let '(a, result) := live_submit_plan (live_plans [answer_lost; refuses] []) (live_plan 7) live_context in
  as_ok result = false ∧ la_accepted_orders_by_plan a = ∅ ∧ elements (sv_open (la_venue a)) = ["order1"%string].
Proof. vm_compute. auto. Qed.

(** A plan that is submitted again under its id forgets its first orders. *)
Example resubmitted_plan_forgets :
  let a := foldl live_plan_step (live_plans [] []) [LpSubmit (live_plan 7) live_context; LpSubmit (live_plan 7) live_context; LpCancel 7] in
  size (sv_open (la_venue a)) = 2%nat ∧ la_accepted_orders_by_plan a = ∅.
Proof. vm_compute. auto. Qed.

(** When the venue takes one order of a plan and refuses the other, the gateway
    releases the reservation of the plan while the first order is open. *)
Example open_order_released :
  let gateway := new_gateway (Some (live_plans [rests; refuses] [])) true true in
  match gw_adapter gateway with
  | None => False
  | Some adapter =>
      let g := (submit_built_plan gateway adapter (live_plan 7) "r1" live_context).1 in
      rn_type <$> gw_dispositions g = [RdRelease] ∧
      (λ a, elements (sv_open (la_venue a))) <$> gw_adapter g = Some ["order1"%string]
  end.
Proof. vm_compute. auto. Qed.
