(* ===== verification/FastPath.v ===== *)
(** * FastPath: the gate of the decision fast path and its kernel specifications

    [engine/decision_fastpath/core/FastPathGate.cpp] and
    [engine/decision_fastpath/kernel/FixedShapeKernelSpec.cpp].  The gate says
    whether a bundle may be decided by a kernel of a fixed shape, and counts its
    answers; the registry holds one specification per bundle, compiled from the
    runtime plans, and finds the bundles that an asset touches.  The parallel
    arrays of a specification are one list of legs. *)

From S2P Require Import Prelude Hashing Depth RiskTypes Bundles SignalTypes RuntimePlans.
#[local] Open Scope Z_scope.

(** ** The gate *)

(** [engine/decision_fastpath/core/FastPathGate.h:14-33] FastPathRejectReason. *)
Inductive FastPathRejectReason :=
| FpNone | FpMissingBundlePlan | FpMissingPolicy | FpEmptyBundle | FpTooManyLegs | FpSellLeg
| FpUnsupportedExecutableSide | FpDynamicRuntimeOracleRequired | FpMissingDepthView | FpBadDepthView
| FpArtifactHashMismatch | FpPolicyHashMismatch | FpUniverseVersionMismatch
| FpMissingSettlementMaskDependency | FpPolicyIncompatible | FpKernelSpecHashMismatch | FpRuntimeDisabled.
#[export] Instance FastPathRejectReason_eq_dec : EqDecision FastPathRejectReason.
Proof. solve_decision. Defined.

(** The underlying value of an enumerator. *)
Definition fast_reject_value (r : FastPathRejectReason) : Z :=
  match r with
  | FpNone => 0 | FpMissingBundlePlan => 1 | FpMissingPolicy => 2 | FpEmptyBundle => 3 | FpTooManyLegs => 4
  | FpSellLeg => 5 | FpUnsupportedExecutableSide => 6 | FpDynamicRuntimeOracleRequired => 7
  | FpMissingDepthView => 8 | FpBadDepthView => 9 | FpArtifactHashMismatch => 10 | FpPolicyHashMismatch => 11
  | FpUniverseVersionMismatch => 12 | FpMissingSettlementMaskDependency => 13 | FpPolicyIncompatible => 14
  | FpKernelSpecHashMismatch => 15 | FpRuntimeDisabled => 16
  end.
Definition fast_reject_count : nat := 17.

(** [engine/decision_fastpath/core/FastPathGate.cpp:146-188] fast_path_reject_reason_to_string. *)
Definition fast_path_reject_reason_to_string (r : FastPathRejectReason) : string :=
  match r with
  | FpNone => "None"
  | FpMissingBundlePlan => "MissingBundlePlan"
  | FpMissingPolicy => "MissingPolicy"
  | FpEmptyBundle => "EmptyBundle"
  | FpTooManyLegs => "TooManyLegs"
  | FpSellLeg => "SellLeg"
  | FpUnsupportedExecutableSide => "UnsupportedExecutableSide"
  | FpDynamicRuntimeOracleRequired => "DynamicRuntimeOracleRequired"
  | FpMissingDepthView => "MissingDepthView"
  | FpBadDepthView => "BadDepthView"
  | FpArtifactHashMismatch => "ArtifactHashMismatch"
  | FpPolicyHashMismatch => "PolicyHashMismatch"
  | FpUniverseVersionMismatch => "UniverseVersionMismatch"
  | FpMissingSettlementMaskDependency => "MissingSettlementMaskDependency"
  | FpPolicyIncompatible => "PolicyIncompatible"
  | FpKernelSpecHashMismatch => "KernelSpecHashMismatch"
  | FpRuntimeDisabled => "RuntimeDisabled"
  end.

(** [engine/decision_fastpath/core/FastPathGate.h:35-38] FastPathEligibility. *)
Record FastPathEligibility := mkEligibility { fe_eligible : bool; fe_reason : FastPathRejectReason }.

(** [engine/decision_fastpath/core/FastPathGate.h:40-56] FastPathGateInput. *)
Record FastPathGateInput := mkGateInput {
  fg_plan : option BundleRuntimePlan;
  fg_depth_views : list MarketDepthView;
  fg_policy : option RiskPolicySnapshot;
  fg_expected_oracle_artifact_hash : Z;
  fg_expected_policy_hash : Z;
  fg_expected_universe_version : Z;
  fg_current_universe_version : Z;
  fg_requires_dynamic_runtime_oracle_check : bool;
  fg_settlement_masks_available : bool;
  fg_max_supported_legs : nat
}.

(** [engine/decision_fastpath/core/FastPathGate.h:58-66] FastPathGateStats, the state of the gate. *)
Record FastPathGateStats := mkGateStats {
  gs_evaluated : Z;
  gs_eligible : Z;
  gs_fallback : Z;
  gs_by_reason : list Z
}.
Definition gate_stats0 : FastPathGateStats := mkGateStats 0 0 0 (replicate fast_reject_count 0).

(** [engine/decision_fastpath/core/FastPathGate.cpp:12-21] has_settlement_mask_dependency. *)
Definition has_settlement_mask_dependency (plan : BundleRuntimePlan) : bool :=
  match pn_bundle plan with
  | None => false
  | Some bundle =>
      negb (cb_required_true_mask bundle =? 0) || negb (cb_required_false_mask bundle =? 0) ||
      negb (cb_invalid_mask bundle =? 0)
  end.

(** [engine/decision_fastpath/core/FastPathGate.cpp:23-27] policy_is_fast_path_compatible. *)
Definition policy_is_fast_path_compatible (policy : RiskPolicySnapshot) : bool :=
  rp_risk_enabled policy && negb (rp_kill_switch_enabled policy).

(** [engine/decision_fastpath/core/FastPathGate.cpp:29-39] find_depth_view; [find_depth] of the kernel and of the verifier are
    the same loop. *)
Fixpoint find_depth_view (depth_views : list MarketDepthView) (asset_index : Z) : option MarketDepthView :=
  match depth_views with
  | [] => None
  | view :: rest => if dv_asset_index view =? asset_index then Some view else find_depth_view rest asset_index
  end.

#[export] Instance Side_inhabited : Inhabited Side := populate Buy.

(** What every reader of the fast path asks of a view. *)
Definition depth_flags_bad (view : MarketDepthView) : bool :=
  negb (dv_usable_for_depth view) || dv_recovering view || dv_crossed view || dv_closed view || dv_resolved view ||
  (dv_ask_count view =? 0)%nat.

(** [engine/decision_fastpath/core/FastPathGate.cpp:85-104] first_reject_reason: the loop over the legs, from leg [i] on. *)
Fixpoint leg_reject_reason (plan : BundleRuntimePlan) (depth_views : list MarketDepthView) (i n : nat) : FastPathRejectReason :=
  match n with
  | O => FpNone
  | S n =>
      if negb (bool_decide (pn_sides plan !!! i = Buy)) then FpSellLeg
      else if negb (bool_decide (pn_executable_sides plan !!! i = SideAsks)) then FpUnsupportedExecutableSide
      else
        match find_depth_view depth_views (pn_asset_indices plan !!! i) with
        | None => FpMissingDepthView
        | Some view => if depth_flags_bad view then FpBadDepthView else leg_reject_reason plan depth_views (S i) n
        end
  end.

(** [engine/decision_fastpath/core/FastPathGate.cpp:41-107] first_reject_reason. *)
Definition first_reject_reason (input : FastPathGateInput) : FastPathRejectReason :=
  match fg_plan input, fg_policy input with
  | None, _ => FpMissingBundlePlan
  | Some _, None => FpMissingPolicy
  | Some plan, Some policy =>
      let max_supported_legs := if (fg_max_supported_legs input =? 0)%nat then 16%nat else fg_max_supported_legs input in
      if (pn_leg_count plan =? 0)%nat then FpEmptyBundle
      else if (max_supported_legs <? pn_leg_count plan)%nat || (kMaxIntentLegs <? pn_leg_count plan)%nat then FpTooManyLegs
      else if fg_requires_dynamic_runtime_oracle_check input then FpDynamicRuntimeOracleRequired
      else if (pn_oracle_artifact_hash plan =? 0) || (fg_expected_oracle_artifact_hash input =? 0) ||
              negb (pn_oracle_artifact_hash plan =? fg_expected_oracle_artifact_hash input) then FpArtifactHashMismatch
      else if (rp_policy_hash policy =? 0) || (fg_expected_policy_hash input =? 0) ||
              negb (rp_policy_hash policy =? fg_expected_policy_hash input) then FpPolicyHashMismatch
      else if (fg_current_universe_version input =? 0) || (fg_expected_universe_version input =? 0) ||
              negb (fg_current_universe_version input =? fg_expected_universe_version input) then FpUniverseVersionMismatch
      else if negb (fg_settlement_masks_available input) && has_settlement_mask_dependency plan
      then FpMissingSettlementMaskDependency
      else if negb (policy_is_fast_path_compatible policy) then FpPolicyIncompatible
      else leg_reject_reason plan (fg_depth_views input) 0 (pn_leg_count plan)
  end.

(** [engine/decision_fastpath/core/FastPathGate.cpp:109-123] record. *)
Definition record (stats : FastPathGateStats) (eligibility : FastPathEligibility) : FastPathGateStats :=
  let bump x := wrap_u64 (x + 1) in
  let stats := stats <| gs_evaluated ::= bump |> in
  if fe_eligible eligibility then stats <| gs_eligible ::= bump |>
  else stats <| gs_fallback ::= bump |> <| gs_by_reason ::= alter bump (Z.to_nat (fast_reject_value (fe_reason eligibility))) |>.

(** [engine/decision_fastpath/core/FastPathGate.cpp:127-136] FastPathGate::evaluate. *)
Definition gate_evaluate (stats : FastPathGateStats) (input : FastPathGateInput) : FastPathGateStats * FastPathEligibility :=
  let reason := first_reject_reason input in
  let result := mkEligibility (bool_decide (reason = FpNone)) reason in
  (record stats result, result).

(** ** Specifications *)

(** [engine/decision_fastpath/kernel/FixedShapeKernelSpec.h:18-18] kMaxFixedShapeKernelLegs. *)
Definition kMaxFixedShapeKernelLegs : nat := 16.

(** One index of the arrays of a specification. *)
Record KernelLeg := mkKernelLeg {
  kl_asset_index : Z;
  kl_market_index : Z;
  kl_side : Side;
  kl_ratio_qty_lots : Z
}.
Definition kernel_leg0 : KernelLeg := mkKernelLeg 0 0 Buy 0.

(** [engine/decision_fastpath/kernel/FixedShapeKernelSpec.h:20-44] FixedShapeKernelSpec. *)
Record FixedShapeKernelSpec := mkKernelSpec {
  ks_kernel_spec_hash : Z;
  ks_artifact_hash : Z;
  ks_bundle_hash : Z;
  ks_constraint_hash : Z;
  ks_bundle_id : Z;
  ks_leg_count : nat;
  ks_legs : list KernelLeg;
  ks_guaranteed_payout_tick : Z;
  ks_min_unit_edge_tick : Z;
  ks_min_total_edge_tick : Z;
  ks_min_edge_bps : Z;
  ks_min_bundle_qty : Z
}.
Definition kernel_spec0 : FixedShapeKernelSpec :=
  mkKernelSpec 0 0 0 0 0 0 (std_array kMaxFixedShapeKernelLegs kernel_leg0 []) 0 0 0 0 0.

(** The legs the loops visit. *)
Definition spec_legs (spec : FixedShapeKernelSpec) : list KernelLeg := take (ks_leg_count spec) (ks_legs spec).

(** [engine/decision_fastpath/kernel/FixedShapeKernelSpec.cpp:134-157] hash_fixed_shape_kernel_spec. *)
Definition hash_fixed_shape_kernel_spec (spec : FixedShapeKernelSpec) : Z :=
  let hash := foldl mix_u64 fnv_offset
    [ks_artifact_hash spec; ks_bundle_hash spec; ks_constraint_hash spec; ks_bundle_id spec] in
  let hash := mix_byte hash (Z.of_nat (ks_leg_count spec)) in
  let hash := foldl (λ hash leg,
    let hash := mix_u32 hash (kl_asset_index leg) in
    let hash := mix_u32 hash (kl_market_index leg) in
    let hash := mix_byte hash (side_value (kl_side leg)) in
    mix_i64 hash (kl_ratio_qty_lots leg)) hash (spec_legs spec) in
  foldl mix_i64 hash
    [ks_guaranteed_payout_tick spec; ks_min_unit_edge_tick spec; ks_min_total_edge_tick spec; ks_min_edge_bps spec;
     ks_min_bundle_qty spec].

(** [engine/decision_fastpath/kernel/FixedShapeKernelSpec.cpp:33-45] market_index_for: names are numbered in the order they are
    first seen. *)
Definition market_index_for (market_indices : gmap string Z) (market_id : option string) : gmap string Z * Z :=
  match market_id with
  | None => (market_indices, 0)
  | Some market_id =>
      if String.eqb market_id "" then (market_indices, 0)
      else
        match market_indices !! market_id with
        | Some index => (market_indices, index)
        | None =>
            let index := wrap_u32 (Z.of_nat (size market_indices)) in
            (<[market_id := index]> market_indices, index)
        end
  end.

(** [engine/decision_fastpath/kernel/FixedShapeKernelSpec.cpp:65-71] spec_from_plan: the legs from [i] on. *)
Fixpoint legs_from_plan (plan : BundleRuntimePlan) (i n : nat) (market_indices : gmap string Z) : gmap string Z * list KernelLeg :=
  match n with
  | O => (market_indices, [])
  | S n =>
      let '(market_indices, market_index) := market_index_for market_indices (pn_market_ids plan !!! i) in
      let leg := mkKernelLeg (pn_asset_indices plan !!! i) market_index (pn_sides plan !!! i) (pn_ratio_qty_lots plan !!! i) in
      let '(market_indices, legs) := legs_from_plan plan (S i) n market_indices in
      (market_indices, leg :: legs)
  end.

(** [engine/decision_fastpath/kernel/FixedShapeKernelSpec.cpp:47-75] spec_from_plan. *)
Definition spec_from_plan (plan : BundleRuntimePlan) (market_indices : gmap string Z) : gmap string Z * FixedShapeKernelSpec :=
  let leg_count := Nat.min (pn_leg_count plan) kMaxFixedShapeKernelLegs in
  let '(market_indices, legs) := legs_from_plan plan 0 leg_count market_indices in
  let spec := mkKernelSpec 0 (pn_oracle_artifact_hash plan) (pn_bundle_hash plan) (pn_constraint_hash plan) (pn_bundle_id plan)
    leg_count (std_array kMaxFixedShapeKernelLegs kernel_leg0 legs) (pn_guaranteed_payout_tick plan)
    (pn_min_unit_edge_tick plan) (pn_min_total_edge_tick plan) (pn_min_edge_bps plan) 1 in
  (market_indices, spec <| ks_kernel_spec_hash := hash_fixed_shape_kernel_spec spec |>).

(** [engine/decision_fastpath/kernel/FixedShapeKernelSpec.cpp:171-174] build_from_runtime_plans: one specification per plan. *)
Fixpoint specs_from_plans (plans : list BundleRuntimePlan) (market_indices : gmap string Z) : list FixedShapeKernelSpec :=
  match plans with
  | [] => []
  | plan :: rest =>
      let '(market_indices, spec) := spec_from_plan plan market_indices in
      spec :: specs_from_plans rest market_indices
  end.

(** ** The registry *)

(** [engine/decision_fastpath/kernel/FixedShapeKernelSpec.h:50-73] FixedShapeKernelRegistry. *)
Record FixedShapeKernelRegistry := mkKernelRegistry {
  kr_specs : list FixedShapeKernelSpec;
  kr_bundle_index : gmap Z nat;
  kr_asset_to_specs : gmap Z (list FixedShapeKernelSpec)
}.
Definition kernel_registry0 : FixedShapeKernelRegistry := mkKernelRegistry [] ∅ ∅.

(** The order of both sorts. *)
Definition spec_before (lhs rhs : FixedShapeKernelSpec) : Prop := ks_bundle_id lhs <= ks_bundle_id rhs.
#[export] Instance spec_before_dec : RelDecision spec_before.
Proof. intros x y. unfold spec_before. apply _. Defined.
#[export] Instance spec_before_total : Total spec_before.
Proof. intros x y. unfold spec_before. lia. Qed.
#[export] Instance spec_before_trans : Transitive spec_before.
Proof. intros x y z. unfold spec_before. lia. Qed.

(** [engine/decision_fastpath/kernel/FixedShapeKernelSpec.cpp:104-117] rebuild_indexes: the buckets of the assets of a specification. *)
Definition add_to_bucket (spec : FixedShapeKernelSpec) (buckets : gmap Z (list FixedShapeKernelSpec)) (leg : KernelLeg) :
    gmap Z (list FixedShapeKernelSpec) :=
  let bucket := default [] (buckets !! kl_asset_index leg) in
  let exists_ := existsb (λ existing, ks_bundle_id existing =? ks_bundle_id spec) bucket in
  <[kl_asset_index leg := if exists_ then bucket else bucket ++ [spec]]> buckets.

(** [engine/decision_fastpath/kernel/FixedShapeKernelSpec.cpp:94-118] rebuild_indexes: the loop; [None] is its early return. *)
Fixpoint index_specs (i : nat) (specs : list FixedShapeKernelSpec) (index : gmap Z nat) (buckets : gmap Z (list FixedShapeKernelSpec)) :
    option (gmap Z nat * gmap Z (list FixedShapeKernelSpec)) :=
  match specs with
  | [] => Some (index, buckets)
  | spec :: rest =>
      match index !! ks_bundle_id spec with
      | Some _ => None
      | None => index_specs (S i) rest (<[ks_bundle_id spec := i]> index) (foldl (add_to_bucket spec) buckets (spec_legs spec))
      end
  end.

(** [engine/decision_fastpath/kernel/FixedShapeKernelSpec.cpp:77-130] rebuild_indexes. *)
Definition rebuild_indexes (specs : list FixedShapeKernelSpec) : FixedShapeKernelRegistry :=
  let specs := merge_sort spec_before specs in
  match index_specs 0 specs ∅ ∅ with
  | None => kernel_registry0
  | Some (index, buckets) => mkKernelRegistry specs index (merge_sort spec_before <$> buckets)
  end.

(** [engine/decision_fastpath/kernel/FixedShapeKernelSpec.cpp:165-177] build_from_runtime_plans; what the registry held before is
    cleared. *)
Definition build_from_runtime_plans (plans : list BundleRuntimePlan) : FixedShapeKernelRegistry :=
  rebuild_indexes (specs_from_plans plans ∅).

(** [engine/decision_fastpath/kernel/FixedShapeKernelSpec.cpp:159-163] build_from_oracle_artifact. *)
Definition build_from_oracle_artifact (artifact : OracleArtifactReader) : FixedShapeKernelRegistry :=
  build_from_runtime_plans (ar_runtime_plans artifact).

(** [engine/decision_fastpath/kernel/FixedShapeKernelSpec.cpp:179-187] find. *)
Definition find_spec (registry : FixedShapeKernelRegistry) (bundle_id : Z) : option FixedShapeKernelSpec :=
  i ← kr_bundle_index registry !! bundle_id; kr_specs registry !! i.

(** [engine/decision_fastpath/kernel/FixedShapeKernelSpec.cpp:189-197] specs_for_asset. *)
Definition specs_for_asset (registry : FixedShapeKernelRegistry) (asset_index : Z) : list FixedShapeKernelSpec :=
  default [] (kr_asset_to_specs registry !! asset_index).

(** ** The gate admits what the fast path can decide *)

(** A leg the kernels can buy: a purchase from the asks of a usable view. *)
Definition fast_leg_ok (plan : BundleRuntimePlan) (depth_views : list MarketDepthView) (i : nat) : Prop :=
  pn_sides plan !!! i = Buy ∧ pn_executable_sides plan !!! i = SideAsks ∧
  ∃ view, find_depth_view depth_views (pn_asset_indices plan !!! i) = Some view ∧ depth_flags_bad view = false.

(** What the gate asks of a plan and a policy. *)
Record gate_admits (input : FastPathGateInput) (plan : BundleRuntimePlan) (policy : RiskPolicySnapshot) : Prop := {
  ga_plan : fg_plan input = Some plan;
  ga_policy : fg_policy input = Some policy;
  ga_legs : (0 < pn_leg_count plan <= kMaxIntentLegs)%nat;
  ga_supported : fg_max_supported_legs input = 0%nat ∨ (pn_leg_count plan <= fg_max_supported_legs input)%nat;
  ga_static : fg_requires_dynamic_runtime_oracle_check input = false;
  ga_artifact : pn_oracle_artifact_hash plan ≠ 0 ∧ pn_oracle_artifact_hash plan = fg_expected_oracle_artifact_hash input;
  ga_policy_hash : rp_policy_hash policy ≠ 0 ∧ rp_policy_hash policy = fg_expected_policy_hash input;
  ga_universe : fg_current_universe_version input ≠ 0 ∧ fg_current_universe_version input = fg_expected_universe_version input;
  ga_masks : fg_settlement_masks_available input = true ∨ has_settlement_mask_dependency plan = false;
  ga_enabled : rp_risk_enabled policy = true ∧ rp_kill_switch_enabled policy = false;
  ga_depth i : (i < pn_leg_count plan)%nat → fast_leg_ok plan (fg_depth_views input) i
}.

Lemma leg_reject_none plan views n i :
  leg_reject_reason plan views i n = FpNone ↔ ∀ j, (i <= j < i + n)%nat → fast_leg_ok plan views j.
Proof.
  revert i; induction n as [|n IH]; intros i; cbn [leg_reject_reason]; [split; [lia|done]|].
  case_bool_decide as Hb; cbn [negb]; [|split; [done|]; intros H; by destruct (H i ltac:(lia))].
  case_bool_decide as Ha; cbn [negb]; [|split; [done|]; intros H; by destruct (H i ltac:(lia)) as (_ & ? & _)].
  destruct (find_depth_view _ _) as [view|] eqn:E.
  2:{ split; [done|]. intros H. destruct (H i ltac:(lia)) as (_ & _ & v & Hv & _). congruence. }
  destruct (depth_flags_bad view) eqn:Ef.
  { split; [done|]. intros H. destruct (H i ltac:(lia)) as (_ & _ & v & Hv & Hf). congruence. }
  rewrite IH. split; intros H j Hj; [|apply H; lia]. destruct (decide (j = i)) as [->|]; [by repeat eexists|apply H; lia].
Qed.

(** The three comparisons of versions and hashes: neither is zero and they agree. *)
Lemma hashes_agree a b : (a =? 0) || (b =? 0) || negb (a =? b) = false ↔ a ≠ 0 ∧ a = b.
Proof. destruct (Z.eqb_spec a 0), (Z.eqb_spec b 0), (Z.eqb_spec a b); cbn; naive_solver lia. Qed.

(** A guard that rejects is passed exactly when its test fails. *)
Lemma guard_none (b : bool) r x : r ≠ FpNone → (if b then r else x) = FpNone ↔ b = false ∧ x = FpNone.
Proof. destruct b; naive_solver. Qed.

(** The gate is exact.  It calls an input eligible exactly when the plan and
    the policy are there, the plan has a supported number of legs, needs no
    oracle at run time and no settlement masks that are missing, the artifact,
    the policy and the universe are the expected ones, risk is enabled and not
    stopped, and every leg buys from the asks of a usable view. *)
Theorem gate_eligible_iff stats input :
  fe_eligible (gate_evaluate stats input).2 = true ↔ ∃ plan policy, gate_admits input plan policy.
Proof.
  unfold gate_evaluate. cbn [snd fe_eligible]. rewrite bool_decide_eq_true. unfold first_reject_reason.
  destruct (fg_plan input) as [plan|] eqn:Ep; [|split; [done|]; intros (? & ? & []); congruence].
  destruct (fg_policy input) as [policy|] eqn:Eo; [|split; [done|]; intros (? & ? & []); congruence].
  transitivity (gate_admits input plan policy).
  2:{ split; [eauto|]. intros (p & o & H). pose proof (ga_plan _ _ _ H). pose proof (ga_policy _ _ _ H). by simplify_eq. }
  rewrite !guard_none, !hashes_agree, leg_reject_none by done.
  unfold policy_is_fast_path_compatible. rewrite !orb_false_iff, !andb_false_iff, !negb_false_iff, andb_true_iff, negb_true_iff,
    !Nat.ltb_ge, Nat.eqb_neq.
  split.
  - intros (? & [? ?] & ? & ? & ? & ? & ? & ? & Hl). constructor; try done; [lia| |].
    + destruct (Nat.eqb_spec (fg_max_supported_legs input) 0); tauto.
    + intros i Hi. apply Hl. lia.
  - intros []. split_and!; try tauto; try lia.
    + destruct (Nat.eqb_spec (fg_max_supported_legs input) 0); [unfold kMaxIntentLegs in *; lia|]. by destruct ga_supported0.
    + intros j Hj. apply ga_depth0. lia.
Qed.

(** ** The registry is exact *)

(** A specification buys an asset. *)
Definition spec_touches (asset_index : Z) (spec : FixedShapeKernelSpec) : Prop :=
  asset_index ∈ kl_asset_index <$> spec_legs spec.
#[export] Instance spec_touches_dec asset_index spec : Decision (spec_touches asset_index spec).
Proof. unfold spec_touches. apply _. Defined.

Definition bucket_of (buckets : gmap Z (list FixedShapeKernelSpec)) (asset_index : Z) : list FixedShapeKernelSpec :=
  default [] (buckets !! asset_index).

(** A specification enters a bucket once. *)
Definition join_bucket (spec : FixedShapeKernelSpec) (bucket : list FixedShapeKernelSpec) : list FixedShapeKernelSpec :=
  if existsb (λ existing, ks_bundle_id existing =? ks_bundle_id spec) bucket then bucket else bucket ++ [spec].

Lemma join_bucket_again spec bucket : join_bucket spec (join_bucket spec bucket) = join_bucket spec bucket.
Proof.
  unfold join_bucket at 2 3. destruct (existsb _ bucket) eqn:E; unfold join_bucket; [by rewrite E|].
  rewrite existsb_app. cbn. by rewrite Z.eqb_refl, orb_true_r.
Qed.

Lemma join_bucket_new spec bucket : ks_bundle_id spec ∉ ks_bundle_id <$> bucket → join_bucket spec bucket = bucket ++ [spec].
Proof.
  intros Hnew. unfold join_bucket. rewrite (proj2 (existsb_false_elem _ _)); [done|].
  intros s Hs. apply Z.eqb_neq. intros E. apply Hnew. rewrite <- E. by apply list_elem_of_fmap_2.
Qed.

Lemma add_to_bucket_lookup spec buckets leg a :
  bucket_of (add_to_bucket spec buckets leg) a =
  if decide (a = kl_asset_index leg) then join_bucket spec (bucket_of buckets a) else bucket_of buckets a.
Proof.
  unfold bucket_of, add_to_bucket. case_decide as Ha; [subst a; by rewrite lookup_insert_eq|by rewrite lookup_insert_ne].
Qed.

Lemma add_legs_lookup spec legs buckets a :
  bucket_of (foldl (add_to_bucket spec) buckets legs) a =
  if decide (a ∈ kl_asset_index <$> legs) then join_bucket spec (bucket_of buckets a) else bucket_of buckets a.
Proof.
  revert buckets; induction legs as [|leg legs IH]; intros buckets; cbn [foldl fmap list_fmap].
  { rewrite decide_False; [done|]. by intros ?%elem_of_nil. }
  rewrite IH, add_to_bucket_lookup. destruct (decide (a = kl_asset_index leg)) as [Ha|Ha].
  - rewrite (decide_True (P := a ∈ _ :: _)) by (rewrite Ha; left). case_decide; [apply join_bucket_again|done].
  - destruct (decide (a ∈ kl_asset_index <$> legs)) as [Hl|Hl].
    + rewrite decide_True; [done|by right].
    + rewrite decide_False; [done|]. by intros [?|?]%elem_of_cons.
Qed.

(** What the loop leaves behind when the bundle ids are new and distinct: every
    position in the index, and every specification in the buckets it touches. *)
Lemma index_specs_ok i specs index buckets index' buckets' :
  index_specs i specs index buckets = Some (index', buckets') →
  (∀ a bid, bid ∈ ks_bundle_id <$> bucket_of buckets a → is_Some (index !! bid)) →
  NoDup (ks_bundle_id <$> specs) ∧
  (∀ spec, spec ∈ specs → index !! ks_bundle_id spec = None) ∧
  (∀ k spec, specs !! k = Some spec → index' !! ks_bundle_id spec = Some (i + k)%nat) ∧
  (∀ bid, bid ∉ ks_bundle_id <$> specs → index' !! bid = index !! bid) ∧
  (∀ a, bucket_of buckets' a = bucket_of buckets a ++ filter (spec_touches a) specs).
Proof.
  revert i index buckets; induction specs as [|spec specs IH]; intros i index buckets H Hb; cbn [index_specs] in H.
  { injection H as <- <-. split_and!; try done; [apply NoDup_nil_2|set_solver|]. intros a. by rewrite app_nil_r. }
  destruct (index !! ks_bundle_id spec) eqn:E; [done|].
  assert (Hnotin : ∀ a, ks_bundle_id spec ∉ ks_bundle_id <$> bucket_of buckets a).
  { intros a Ha. apply Hb in Ha as [? ?]. congruence. }
  apply IH in H as (Hnd & Hnone & Hidx & Hkeep & Hlist).
  2:{ intros a bid. rewrite add_legs_lookup. destruct (decide (bid = ks_bundle_id spec)) as [->|Hne]; [by rewrite lookup_insert_eq|].
      rewrite lookup_insert_ne by done. intros Hin. apply (Hb a). revert Hin. case_decide; [|done].
      rewrite join_bucket_new by done. rewrite fmap_app, elem_of_app. intros [?|Hs]; [done|]. set_solver. }
  assert (Hnew : ks_bundle_id spec ∉ ks_bundle_id <$> specs).
  { intros (b & Heq & Hin)%list_elem_of_fmap. specialize (Hnone b Hin). by rewrite <- Heq, lookup_insert_eq in Hnone. }
  split_and!.
  - rewrite fmap_cons. by apply NoDup_cons.
  - intros s [->|Hs]%elem_of_cons; [done|]. specialize (Hnone s Hs). apply lookup_insert_None in Hnone. by destruct Hnone.
  - intros [|k] s Hs; cbn in Hs.
    + injection Hs as <-. rewrite Hkeep, lookup_insert_eq by done. do 2 f_equal. lia.
    + rewrite (Hidx k s Hs). f_equal. lia.
  - intros bid Hid. rewrite fmap_cons, not_elem_of_cons in Hid. destruct Hid as [Hid1 Hid2]. by rewrite Hkeep, lookup_insert_ne.
  - intros a. rewrite Hlist, add_legs_lookup, filter_cons. fold (spec_touches a spec).
    destruct (decide (spec_touches a spec)) as [Ht|Ht]; unfold spec_touches in Ht; [|done].
    by rewrite join_bucket_new, <- app_assoc.
Qed.

(** The loop gives up only over an id it has seen. *)
Lemma index_specs_none i specs index buckets :
  index_specs i specs index buckets = None →
  NoDup (ks_bundle_id <$> specs) → ∃ spec, spec ∈ specs ∧ is_Some (index !! ks_bundle_id spec).
Proof.
  revert i index buckets; induction specs as [|spec specs IH]; intros i index buckets H Hnd; cbn [index_specs] in H; [done|].
  destruct (index !! ks_bundle_id spec) eqn:E; [exists spec; split; [left|by rewrite E]|].
  cbn in Hnd. apply NoDup_cons in Hnd as [Hnew Hnd]. destruct (IH _ _ _ H Hnd) as (s & Hs & Hi).
  exists s. split; [by right|]. rewrite lookup_insert_ne in Hi; [done|]. intros Heq. apply Hnew. rewrite Heq. by apply list_elem_of_fmap_2.
Qed.

(** Two lists in the order of distinct ids that hold the same are equal. *)
Lemma sorted_specs_unique l1 l2 :
  l1 ≡ₚ l2 → StronglySorted spec_before l1 → StronglySorted spec_before l2 → NoDup (ks_bundle_id <$> l1) → l1 = l2.
Proof.
  revert l2; induction l1 as [|x l1 IH]; intros l2 Hp H1 H2 Hnd; [by apply Permutation_nil_l in Hp|].
  destruct l2 as [|y l2]; [by apply symmetry, Permutation_nil_cons in Hp|].
  apply StronglySorted_inv in H1 as [H1 Hx]. apply StronglySorted_inv in H2 as [H2 Hy]. rewrite Forall_forall in Hx, Hy.
  cbn in Hnd. apply NoDup_cons in Hnd as [Hnew Hnd].
  assert (x = y) as ->.
  { assert (y ∈ x :: l1) as [->|Hy1]%elem_of_cons by (rewrite Hp; left); [done|].
    assert (x ∈ y :: l2) as [->|Hx2]%elem_of_cons by (rewrite <- Hp; left); [done|].
    exfalso. apply Hnew. assert (ks_bundle_id x = ks_bundle_id y) as ->; [|by apply list_elem_of_fmap_2].
    specialize (Hx y Hy1). specialize (Hy x Hx2). unfold spec_before in *. lia. }
  f_equal. apply IH; [by eapply Permutation_cons_inv|done..].
Qed.

(** The specification of a plan: its ids, hashes and limits, one leg per slot of
    the plan, sealed by its hash. *)
Record spec_of (plan : BundleRuntimePlan) (spec : FixedShapeKernelSpec) : Prop := {
  so_bundle_id : ks_bundle_id spec = pn_bundle_id plan;
  so_artifact : ks_artifact_hash spec = pn_oracle_artifact_hash plan;
  so_constraint : ks_constraint_hash spec = pn_constraint_hash plan;
  so_bundle : ks_bundle_hash spec = pn_bundle_hash plan;
  so_payout : ks_guaranteed_payout_tick spec = pn_guaranteed_payout_tick plan;
  so_limits : (ks_min_unit_edge_tick spec, ks_min_total_edge_tick spec, ks_min_edge_bps spec) =
              (pn_min_unit_edge_tick plan, pn_min_total_edge_tick plan, pn_min_edge_bps plan);
  so_legs : (λ leg, (kl_asset_index leg, kl_side leg, kl_ratio_qty_lots leg)) <$> spec_legs spec =
    (λ i, (pn_asset_indices plan !!! i, pn_sides plan !!! i, pn_ratio_qty_lots plan !!! i)) <$>
      seq 0 (Nat.min (pn_leg_count plan) kMaxFixedShapeKernelLegs);
  so_sealed : ks_kernel_spec_hash spec = hash_fixed_shape_kernel_spec spec
}.

Lemma legs_from_plan_ok plan i n market_indices :
  (λ leg, (kl_asset_index leg, kl_side leg, kl_ratio_qty_lots leg)) <$> (legs_from_plan plan i n market_indices).2 =
  (λ i, (pn_asset_indices plan !!! i, pn_sides plan !!! i, pn_ratio_qty_lots plan !!! i)) <$> seq i n.
Proof.
  revert i market_indices; induction n as [|n IH]; intros i market_indices; cbn [legs_from_plan seq]; [done|].
  destruct (market_index_for _ _) as [mi index]. specialize (IH (S i) mi). destruct (legs_from_plan _ _ _ _) as [mi' legs].
  cbn [snd] in *. by rewrite !fmap_cons, IH.
Qed.

(** The hash of a specification does not depend on the hash stored in it. *)
#[local] Opaque mix_u64 mix_i64 mix_u32 mix_byte.
Lemma seal_spec_hash spec h : hash_fixed_shape_kernel_spec (spec <| ks_kernel_spec_hash := h |>) = hash_fixed_shape_kernel_spec spec.
Proof. destruct spec. reflexivity. Qed.
#[local] Opaque hash_fixed_shape_kernel_spec.

Lemma spec_from_plan_ok plan market_indices : spec_of plan (spec_from_plan plan market_indices).2.
Proof.
  unfold spec_from_plan. set (n := Nat.min _ _). pose proof (legs_from_plan_ok plan 0 n market_indices) as Hl.
  destruct (legs_from_plan _ _ _ _) as [mi legs]. cbn [snd] in *.
  assert (Hlen : length legs = n) by (apply (f_equal length) in Hl; by rewrite !length_fmap, length_seq in Hl).
  assert (Htake : take n (std_array kMaxFixedShapeKernelLegs kernel_leg0 legs) = legs).
  { unfold std_array. rewrite (take_ge legs) by (subst n; lia). rewrite take_app_le by lia. by rewrite take_ge by lia. }
  constructor; [reflexivity..| |].
  - change (spec_legs _) with (take n (std_array kMaxFixedShapeKernelLegs kernel_leg0 legs)). by rewrite Htake.
  - by rewrite seal_spec_hash.
Qed.

Lemma specs_from_plans_ok plans market_indices : Forall2 spec_of plans (specs_from_plans plans market_indices).
Proof.
  revert market_indices; induction plans as [|plan plans IH]; intros market_indices; cbn [specs_from_plans]; [constructor|].
  pose proof (spec_from_plan_ok plan market_indices) as Hs. destruct (spec_from_plan _ _) as [mi spec]. by constructor.
Qed.

(** The registry is exact.  When the plans have distinct bundle ids, every
    plan has one specification that carries it out, a lookup finds exactly the
    specification of an id, and the specifications of an asset are those that buy
    it, in the order of their ids; when two plans share an id the registry is
    empty. *)
Theorem kernel_registry_exact plans :
  let registry := build_from_runtime_plans plans in
  if decide (NoDup (pn_bundle_id <$> plans)) then
    (∃ specs, Forall2 spec_of plans specs ∧ kr_specs registry ≡ₚ specs) ∧
    StronglySorted spec_before (kr_specs registry) ∧
    (∀ bid spec, find_spec registry bid = Some spec ↔ spec ∈ kr_specs registry ∧ ks_bundle_id spec = bid) ∧
    (∀ a, specs_for_asset registry a = filter (spec_touches a) (kr_specs registry))
  else kr_specs registry = [] ∧ (∀ bid, find_spec registry bid = None) ∧ ∀ a, specs_for_asset registry a = [].
Proof.
  intros registry. subst registry. unfold build_from_runtime_plans, rebuild_indexes.
  pose proof (specs_from_plans_ok plans ∅) as Hof. set (specs := specs_from_plans plans ∅) in *.
  pose proof (merge_sort_Permutation spec_before specs) as Hperm. set (sorted := merge_sort spec_before specs) in *.
  assert (Hids : pn_bundle_id <$> plans = ks_bundle_id <$> specs).
  { clear -Hof. induction Hof as [|plan spec plans specs Hs _ IH]; [done|]. by rewrite !fmap_cons, IH, (so_bundle_id _ _ Hs). }
  assert (Hnd : NoDup (pn_bundle_id <$> plans) ↔ NoDup (ks_bundle_id <$> sorted)) by (by rewrite Hids, Hperm).
  assert (Hsorted : StronglySorted spec_before sorted) by (apply StronglySorted_merge_sort; apply _).
  clearbody sorted. destruct (index_specs 0 sorted ∅ ∅) as [[index buckets]|] eqn:E.
  - apply index_specs_ok in E as (Hnodup & _ & Hidx & Hkeep & Hlist).
    2:{ intros a bid. unfold bucket_of. rewrite lookup_empty. cbn. by intros ?%elem_of_nil. }
    rewrite decide_True by tauto. cbn [kr_specs]. split; [by exists specs|]. split; [done|]. split.
    + intros bid spec. unfold find_spec. cbn [kr_bundle_index kr_specs]. split.
      * destruct (index !! bid) as [k|] eqn:Ek; [|done]. cbn. intros Hs.
        assert (bid ∈ ks_bundle_id <$> sorted) as (s & -> & [j Hj]%list_elem_of_lookup)%list_elem_of_fmap.
        { destruct (decide (bid ∈ ks_bundle_id <$> sorted)); [done|]. by rewrite Hkeep in Ek. }
        rewrite (Hidx j s Hj) in Ek. injection Ek as <-. cbn in Hs. rewrite Hj in Hs. injection Hs as <-.
        split; [by eapply list_elem_of_lookup_2|done].
      * intros [[k Hk]%list_elem_of_lookup <-]. by rewrite (Hidx k spec Hk).
    + intros a. unfold specs_for_asset. cbn [kr_asset_to_specs]. rewrite lookup_fmap.
      specialize (Hlist a). unfold bucket_of in Hlist at 2. rewrite lookup_empty in Hlist. cbn [default from_option app] in Hlist.
      unfold bucket_of in Hlist. destruct (buckets !! a) as [bucket|]; cbn in *; [|done]. subst bucket.
      apply sorted_specs_unique; [apply merge_sort_Permutation|apply StronglySorted_merge_sort; apply _|by apply StronglySorted_filter|].
      rewrite (merge_sort_Permutation spec_before). by apply NoDup_fmap_filter.
  - rewrite decide_False; [by split_and!|]. intros H. apply Hnd in H. apply index_specs_none in E as (s & _ & [x Hx]); [|done].
    by rewrite lookup_empty in Hx.
Qed.
