(* ===== verification/FastKernel.v ===== *)
(** * FastKernel: deciding a bundle of purchases in one pass

    [engine/decision_fastpath/kernel/FixedBuyBundleKernelScalar.cpp] and the
    reference it is compared with, [reference_generic_decision] of
    [engine/decision_fastpath/core/DifferentialVerifier.cpp].  The kernel takes
    books of a single ask level and falls back on everything else; the reference
    prices any books by walking their levels and also asks the ledger.  The
    scratch buffer is reset at the start of every run and is therefore a local
    value here; the kernel's own copy of [risk_limit_rejection] is never called. *)

From S2P Require Import Prelude Hashing Doubles FixedPoint Depth RiskTypes ReservationBook RiskGuards RiskPipeline SignalTypes SignalIntent OrderDecision RiskEngine CostCurve OrderDecisionEngine FastPath.
#[local] Open Scope Z_scope.

(** ** Reading a view *)

(** [engine/decision_fastpath/kernel/FixedBuyBundleKernelScalar.cpp:100-115] depth_is_usable; the verifier's is the same. *)
Definition depth_is_usable (depth : MarketDepthView) (policy : RiskPolicySnapshot) (now_ns : Z) : bool :=
  if depth_flags_bad depth then false
  else negb ((0 <? rp_max_book_age_ns policy) && (dv_last_ws_recv_ns depth <? now_ns) &&
             (rp_max_book_age_ns policy <? now_ns - dv_last_ws_recv_ns depth)).

(** [engine/decision_fastpath/kernel/FixedBuyBundleKernelScalar.cpp:117-142] executable_ask_qty, the function of the order decision's
    fast implementation. *)
Definition kernel_ask_qty (depth : MarketDepthView) : Z := executable_ask_qty depth.

(** [engine/decision_fastpath/kernel/FixedBuyBundleKernelScalar.cpp:153-164] best_ask_tick: the loop without prefix arrays. *)
Fixpoint first_ask_tick (levels : list PriceLevel) : Z :=
  match levels with
  | [] => 0
  | level :: rest =>
      if (0 <? pl_price_tick level) && (0 <? price_level_size_lots level) then pl_price_tick level else first_ask_tick rest
  end.

(** [engine/decision_fastpath/kernel/FixedBuyBundleKernelScalar.cpp:144-165] best_ask_tick. *)
Definition best_ask_tick (depth : MarketDepthView) : Z :=
  if (0 <? dp_ask_count (dv_prefix depth))%nat then best_ask_tick_from_prefix (dv_asks depth) (dv_prefix depth)
  else first_ask_tick (take (Nat.min (dv_ask_count depth) kMaxSnapshotDepth) (dv_asks depth)).

(** [engine/decision_fastpath/kernel/FixedBuyBundleKernelScalar.cpp:167-184] buy_vwap, again that of the order decision. *)
Definition kernel_buy_vwap (depth : MarketDepthView) (quantity_lots : Z) : VwapMathResult := fast_buy_vwap depth quantity_lots.

(** ** Limits *)

(** [engine/decision_fastpath/kernel/FixedBuyBundleKernelScalar.cpp:230-258] risk_reject_reason; the verifier's is the same. *)
Definition risk_reject_reason (type : RiskDecisionType) : RiskRejectReason :=
  match type with
  | RejectLowTotalEdge => RrLowTotalEdge
  | RejectLowUnitEdge => RrLowUnitEdge
  | RejectLowEdgeBps => RrLowEdgeBps
  | RejectCostLimit => RrCostLimit
  | RejectTotalExposureLimit => RrTotalExposureLimit
  | RejectSingleMarketExposureLimit => RrSingleMarketExposureLimit
  | RejectInventoryLimit => RrInventoryLimit
  | RejectInsufficientDepth => RrPartialFillRisk
  | _ => RrInternalError
  end.

(** [engine/decision_fastpath/kernel/FixedBuyBundleKernelScalar.cpp:260-301] edge_rejection; the verifier's is the same. *)
Definition edge_rejection (spec : FixedShapeKernelSpec) (edge : EdgeMathResult) (bundle_qty : Z) (policy : RiskPolicySnapshot) :
    RiskDecisionType :=
  if negb (er_ok edge) then RejectInternalError
  else
    let min_unit := Z.max (ks_min_unit_edge_tick spec) (rp_min_post_risk_unit_edge_tick policy) in
    let min_total := Z.max (ks_min_total_edge_tick spec) (rp_min_post_risk_total_edge_tick policy) in
    let min_bps := Z.max (ks_min_edge_bps spec) (rp_min_edge_bps policy) in
    let min_qty := Z.max (ks_min_bundle_qty spec) 1 in
    if bundle_qty <? min_qty then RejectInsufficientDepth
    else if er_unit_edge_tick edge <? min_unit then RejectLowUnitEdge
    else if er_total_edge_tick edge <? min_total then RejectLowTotalEdge
    else if er_edge_bps edge <? min_bps then RejectLowEdgeBps
    else if negb (passes_edge_thresholds (er_unit_edge_tick edge) (er_total_edge_tick edge) (er_edge_bps edge) policy)
    then RejectLowTotalEdge
    else DtPass.

(** ** The kernel *)

(** [engine/decision_fastpath/kernel/FixedBuyBundleKernelScalar.cpp:18-25] LegWork, after the first loop. *)
Record LegWork := mkLegWork {
  lw_leg : KernelLeg;
  lw_depth : MarketDepthView;
  lw_executable_qty_lots : Z;
  lw_best_price_tick : Z
}.

(** [engine/decision_fastpath/kernel/FixedBuyBundleKernelScalar.cpp:599-634] run: the loop that reads the views.  [first] is the
    quantity of the first leg; the result is a reason to fall back, or the legs with the bundle quantity and the newest version. *)
Fixpoint collect_legs (views : list MarketDepthView) (policy : RiskPolicySnapshot) (now_ns : Z) (legs : list KernelLeg)
    (first : option Z) (bundle_qty version : Z) : FastPathRejectReason + (list LegWork * Z * Z) :=
  match legs with
  | [] => inr ([], bundle_qty, version)
  | leg :: rest =>
      if negb (bool_decide (kl_side leg = Buy)) then inl FpSellLeg
      else if kl_ratio_qty_lots leg <=? 0 then inl FpUnsupportedExecutableSide
      else
        match find_depth_view views (kl_asset_index leg) with
        | None => inl FpMissingDepthView
        | Some depth =>
            if negb (depth_is_usable depth policy now_ns) then inl FpBadDepthView
            else if negb (dv_ask_count depth =? 1)%nat || negb (dp_ask_count (dv_prefix depth) =? 1)%nat
            then inl FpDynamicRuntimeOracleRequired
            else
              let executable := kernel_ask_qty depth in
              let best := best_ask_tick depth in
              if (executable <? kl_ratio_qty_lots leg) || (best <=? 0) then inl FpBadDepthView
              else
                let leg_bundle_qty := Z.quot executable (kl_ratio_qty_lots leg) in
                if negb (leg_bundle_qty =? default leg_bundle_qty first) then inl FpDynamicRuntimeOracleRequired
                else
                  match collect_legs views policy now_ns rest (Some (default leg_bundle_qty first))
                          (Z.min bundle_qty leg_bundle_qty) (Z.max version (dv_book_version depth)) with
                  | inl reason => inl reason
                  | inr (work, bundle_qty, version) => inr (mkLegWork leg depth executable best :: work, bundle_qty, version)
                  end
        end
  end.

(** A leg with its planned quantity, its cost and its margin of depth. *)
Record PricedKernelLeg := mkPricedKernelLeg {
  pk_work : LegWork;
  pk_planned_qty_lots : Z;
  pk_cost : VwapMathResult;
  pk_depth_margin_bps : Z
}.

(** What the second loop of [run] has gathered. *)
Record KernelPricing := mkKernelPricing {
  kp_legs : list PricedKernelLeg;
  kp_total_cost_tick : Z;
  kp_max_leg_slippage_tick : Z;
  kp_partial_fill_reject : bool
}.

(** [engine/decision_fastpath/kernel/FixedBuyBundleKernelScalar.cpp:641-669] run: the loop that prices the legs. *)
Fixpoint price_legs (policy : RiskPolicySnapshot) (bundle_qty : Z) (work : list LegWork) (p : KernelPricing) :
    FastPathRejectReason + KernelPricing :=
  match work with
  | [] => inr p
  | leg :: rest =>
      match checked_mul_i64 (kl_ratio_qty_lots (lw_leg leg)) bundle_qty with
      | None => inl FpUnsupportedExecutableSide
      | Some planned =>
          let cost := kernel_buy_vwap (lw_depth leg) planned in
          if negb (vm_ok cost) then inl FpBadDepthView
          else
            let margin := ratio_bps (lw_executable_qty_lots leg) planned in
            match checked_add_i64 (kp_total_cost_tick p) (vm_total_cost_tick cost) with
            | None => inl FpUnsupportedExecutableSide
            | Some total =>
                price_legs policy bundle_qty rest
                  (mkKernelPricing (kp_legs p ++ [mkPricedKernelLeg leg planned cost margin]) total
                     (Z.max (kp_max_leg_slippage_tick p) (vm_worst_price_tick cost -i lw_best_price_tick leg))
                     (kp_partial_fill_reject p ||
                      ((0 <? rp_min_depth_margin_bps policy) && (margin <? rp_min_depth_margin_bps policy))))
            end
      end
  end.

(** [engine/decision_fastpath/kernel/FixedBuyBundleKernelScalar.h:34-58] FastKernelResult; its plan, approval and risk decision are
    never written, nor is [produced_plan]. *)
Record FastKernelResult := mkKernelResult {
  kx_produced_intent : bool;
  kx_produced_order_decision : bool;
  kx_fallback_required : bool;
  kx_intent : OpportunityIntent;
  kx_order_decision : OrderDecisionLite;
  kx_bundle_qty : Z;
  kx_total_cost_tick : Z;
  kx_avg_cost_tick : Z;
  kx_unit_edge_tick : Z;
  kx_total_edge_tick : Z;
  kx_edge_bps : Z;
  kx_output_hash : Z;
  kx_reject_reason : FastPathRejectReason;
  kx_risk_reject_reason : RiskRejectReason
}.
Definition kernel_result0 : FastKernelResult :=
  mkKernelResult false false false intent0 order_decision_lite0 0 0 0 0 0 0 0 FpNone RrNone.

(** [engine/decision_fastpath/kernel/FixedBuyBundleKernelScalar.cpp:75-82] fallback. *)
Definition kernel_fallback (reason : FastPathRejectReason) : FastKernelResult :=
  kernel_result0 <| kx_fallback_required := true |> <| kx_reject_reason := reason |>.

(** [engine/decision_fastpath/kernel/FixedBuyBundleKernelScalar.cpp:440-452] fill_intent: one leg. *)
Definition kernel_intent_leg (p : PricedKernelLeg) : IntentLeg :=
  let leg := lw_leg (pk_work p) in
  leg0 <| il_asset_index := kl_asset_index leg |> <| il_side := kl_side leg |> <| il_quantity_lots := kl_ratio_qty_lots leg |>
    <| il_estimated_vwap_tick := vm_vwap_tick (pk_cost p) |> <| il_worst_price_tick := vm_worst_price_tick (pk_cost p) |>
    <| il_estimated_cost_tick := vm_total_cost_tick (pk_cost p) |> <| il_requested_qty_lots := pk_planned_qty_lots p |>
    <| il_executable_qty_lots := lw_executable_qty_lots (pk_work p) |> <| il_depth_margin_bps := pk_depth_margin_bps p |>
    <| il_enough_depth := true |>.

(** How long an intent of the kernel lives. *)
Definition kernel_ttl_ns : Z := 1000000000.

(** [engine/decision_fastpath/kernel/FixedBuyBundleKernelScalar.cpp:392-471] fill_intent. *)
Definition kernel_intent (spec : FixedShapeKernelSpec) (p : KernelPricing) (edge : EdgeMathResult)
    (bundle_qty snapshot_version snapshot_version_hash now_ns : Z) (paper_opportunity : bool) : OpportunityIntent :=
  let intent := intent0 <| oi_bundle_id := ks_bundle_id spec |>
    <| oi_status := if paper_opportunity then IsPaperOpportunity else IsRejectedLowEdge |>
    <| oi_reject_code := if paper_opportunity then IrcNone else IrcLowEdge |>
    <| oi_valid_under_settlement := true |> <| oi_passed_quality_gate := true |> <| oi_enough_depth := true |>
    <| oi_oracle_artifact_hash := ks_artifact_hash spec |> <| oi_constraint_hash := ks_constraint_hash spec |>
    <| oi_bundle_hash := ks_bundle_hash spec |> <| oi_snapshot_version := snapshot_version |>
    <| oi_snapshot_version_hash := snapshot_version_hash |>
    <| oi_bundle_qty := bundle_qty |> <| oi_original_bundle_qty := bundle_qty |>
    <| oi_guaranteed_payout_tick := saturating_mul_i64 (ks_guaranteed_payout_tick spec) bundle_qty |>
    <| oi_estimated_cost_tick := kp_total_cost_tick p |> <| oi_max_leg_slippage_tick := kp_max_leg_slippage_tick p |>
    <| oi_unit_edge_tick := er_unit_edge_tick edge |> <| oi_total_edge_tick := er_total_edge_tick edge |>
    <| oi_estimated_edge_tick := er_total_edge_tick edge |> <| oi_edge_bps := er_edge_bps edge |>
    <| oi_min_edge_tick := ks_min_unit_edge_tick spec |>
    <| oi_created_ts_ns := now_ns |> <| oi_expires_at_ns := wrap_u64 (now_ns + kernel_ttl_ns) |>
    <| oi_leg_count := ks_leg_count spec |>
    <| oi_legs := std_array kMaxIntentLegs leg0 (kernel_intent_leg <$> kp_legs p) |> in
  let id := identity_intent_id (identity_of intent) in
  let proof_hash := foldl mix_u64 fnv_offset
    [oi_oracle_artifact_hash intent; oi_constraint_hash intent; oi_bundle_hash intent; oi_snapshot_version_hash intent] in
  intent <| oi_intent_id := id |> <| oi_idempotency_hash := id |> <| oi_proof_hash := nonzero_hash proof_hash |>.

(** [engine/decision_fastpath/kernel/FixedBuyBundleKernelScalar.cpp:502-513] fill_order_decision: one leg. *)
Definition kernel_decision_leg (p : PricedKernelLeg) : OrderDecisionLegLite :=
  let leg := lw_leg (pk_work p) in
  mkOrderDecisionLegLite (kl_market_index leg) (kl_asset_index leg) (kl_side leg) (pk_planned_qty_lots p)
    (vm_vwap_tick (pk_cost p)) (vm_worst_price_tick (pk_cost p)) (vm_worst_price_tick (pk_cost p)) (vm_total_cost_tick (pk_cost p)).

(** [engine/decision_fastpath/kernel/FixedBuyBundleKernelScalar.cpp:473-518] fill_order_decision. *)
Definition kernel_decision (intent : OpportunityIntent) (p : KernelPricing) (policy_hash : Z) : OrderDecisionLite :=
  seal_decision
    (mkOrderDecisionLite 0 (oi_intent_id intent) (oi_bundle_id intent) OtPaperOrderDecision (oi_bundle_qty intent)
       (oi_guaranteed_payout_tick intent) (oi_estimated_cost_tick intent) (oi_estimated_fee_tick intent)
       (oi_latency_buffer_tick intent) (oi_slippage_buffer_tick intent) (oi_unit_edge_tick intent) (oi_total_edge_tick intent)
       (oi_edge_bps intent) (oi_leg_count intent)
       (std_array kMaxOrderDecisionLegs decision_leg_lite0 (kernel_decision_leg <$> kp_legs p))
       (oi_snapshot_version_hash intent) (oi_oracle_artifact_hash intent) (oi_bundle_hash intent) policy_hash
       (oi_created_ts_ns intent) (oi_expires_at_ns intent) 0).

(** [engine/decision_fastpath/kernel/FixedBuyBundleKernelScalar.cpp:186-202] snapshot_hash: the mixes of [hash_depth_views]. *)
Definition kernel_snapshot_hash (work : list LegWork) : Z := nonzero_hash (hash_depth_views (lw_depth <$> work)).

(** [engine/decision_fastpath/kernel/FixedBuyBundleKernelScalar.cpp:520-540] make_output_hash. *)
Definition make_output_hash (r : FastKernelResult) : Z :=
  let bit (b : bool) := if b then 1 else 0 in
  let hash := foldl mix_byte fnv_offset
    [bit (kx_produced_intent r); bit (kx_produced_order_decision r); 0; bit (kx_fallback_required r);
     fast_reject_value (kx_reject_reason r); reject_reason_value (kx_risk_reject_reason r)] in
  let hash := foldl mix_u64 hash
    [oi_intent_id (kx_intent r); oi_bundle_id (kx_intent r); oi_snapshot_version_hash (kx_intent r)] in
  let hash := foldl mix_i64 hash
    [kx_bundle_qty r; kx_total_cost_tick r; kx_unit_edge_tick r; kx_total_edge_tick r; kx_edge_bps r] in
  nonzero_hash (mix_u64 hash (od_decision_hash (kx_order_decision r))).

(** [engine/decision_fastpath/kernel/FixedBuyBundleKernelScalar.cpp:694-704] run: the decision about a priced bundle. *)
Definition kernel_rejection (spec : FixedShapeKernelSpec) (policy : RiskPolicySnapshot) (p : KernelPricing) (edge : EdgeMathResult)
    (bundle_qty : Z) : RiskDecisionType :=
  if kp_partial_fill_reject p then RejectInsufficientDepth
  else if (0 <? rp_max_total_cost_tick policy) && (rp_max_total_cost_tick policy <? kp_total_cost_tick p) then RejectCostLimit
  else edge_rejection spec edge bundle_qty policy.

(** [engine/decision_fastpath/kernel/FixedBuyBundleKernelScalar.cpp:675-682] run: the edge of one bundle at its average cost. *)
Definition kernel_edge (spec : FixedShapeKernelSpec) (avg_cost_tick bundle_qty : Z) : EdgeMathResult :=
  compute_edge (mkEdgeMathInput (ks_guaranteed_payout_tick spec) avg_cost_tick 0 0 0 bundle_qty).

(** [engine/decision_fastpath/kernel/FixedBuyBundleKernelScalar.cpp:671-739] run: the result of a priced bundle. *)
Definition kernel_result (spec : FixedShapeKernelSpec) (policy : RiskPolicySnapshot) (now_ns : Z) (work : list LegWork)
    (bundle_qty version : Z) (p : KernelPricing) : FastKernelResult :=
  let avg_cost := ceil_div_positive (kp_total_cost_tick p) bundle_qty in
  let edge := kernel_edge spec avg_cost bundle_qty in
  let rejection := kernel_rejection spec policy p edge bundle_qty in
  let reason := if bool_decide (rejection = DtPass) then RrNone else risk_reject_reason rejection in
  let paper := bool_decide (reason = RrNone) in
  let intent := kernel_intent spec p edge bundle_qty version (kernel_snapshot_hash work) now_ns paper in
  let result := mkKernelResult true paper false intent
    (if paper then kernel_decision intent p (rp_policy_hash policy) else order_decision_lite0)
    bundle_qty (kp_total_cost_tick p) avg_cost (er_unit_edge_tick edge) (er_total_edge_tick edge) (er_edge_bps edge) 0
    FpNone reason in
  result <| kx_output_hash := make_output_hash result |>.

(** [engine/decision_fastpath/kernel/FixedBuyBundleKernelScalar.cpp:570-740] FixedBuyBundleKernelScalar::run; the views are those
    below their count, none when the pointer is null.  The ledger is not read. *)
Definition kernel_run (spec : FixedShapeKernelSpec) (views : list MarketDepthView) (policy : RiskPolicySnapshot) (now_ns : Z) :
    FastKernelResult :=
  if (ks_leg_count spec =? 0)%nat then kernel_fallback FpEmptyBundle
  else if (kMaxFixedShapeKernelLegs <? ks_leg_count spec)%nat then kernel_fallback FpTooManyLegs
  else if negb (rp_risk_enabled policy) || rp_kill_switch_enabled policy then kernel_fallback FpPolicyIncompatible
  else
    match collect_legs views policy now_ns (spec_legs spec) None i64_max 0 with
    | inl reason => kernel_fallback reason
    | inr (work, bundle_qty, version) =>
        if (bundle_qty <=? 0) || (bundle_qty =? i64_max) then kernel_fallback FpBadDepthView
        else
          match price_legs policy bundle_qty work (mkKernelPricing [] 0 0 false) with
          | inl reason => kernel_fallback reason
          | inr p => kernel_result spec policy now_ns work bundle_qty version p
          end
    end.

(** ** Snapshots of a decision *)

(** The underlying value of an [IntentStatus]. *)
Definition intent_status_value (s : IntentStatus) : Z :=
  match s with
  | IsCandidateOnly => 0 | IsRejectedInvalidSettlement => 1 | IsRejectedBadMarketState => 2 | IsRejectedMissingSnapshot => 3
  | IsRejectedInsufficientDepth => 4 | IsRejectedLowEdge => 5 | IsDuplicateIntent => 6 | IsPaperOpportunity => 7
  end.

(** [engine/decision_fastpath/core/DifferentialVerifier.h:16-46] DecisionPathSnapshot. *)
Record DecisionPathSnapshot := mkPathSnapshot {
  ds_produced_intent : bool;
  ds_produced_plan : bool;
  ds_fallback_required : bool;
  ds_reject_reason : FastPathRejectReason;
  ds_intent_status : IntentStatus;
  ds_risk_reject_reason : RiskRejectReason;
  ds_bundle_id : Z;
  ds_bundle_qty : Z;
  ds_total_cost_tick : Z;
  ds_unit_edge_tick : Z;
  ds_total_edge_tick : Z;
  ds_edge_bps : Z;
  ds_order_count : Z;
  ds_decision_hash : Z;
  ds_plan_id : Z;
  ds_opportunity_hash : Z;
  ds_risk_hash : Z;
  ds_plan_hash : Z;
  ds_combined_hash : Z;
  ds_semantic_hash : Z
}.
Definition path_snapshot0 : DecisionPathSnapshot :=
  mkPathSnapshot false false false FpNone IsCandidateOnly RrNone 0 0 0 0 0 0 0 0 0 0 0 0 0 0.

Definition bit (b : bool) : Z := if b then 1 else 0.

(** [engine/decision_fastpath/core/DifferentialVerifier.cpp:47-65] semantic_hash. *)
Definition semantic_hash (s : DecisionPathSnapshot) : Z :=
  let hash := foldl mix_byte fnv_offset
    [bit (ds_produced_intent s); bit (ds_produced_plan s); bit (ds_fallback_required s); fast_reject_value (ds_reject_reason s);
     intent_status_value (ds_intent_status s); reject_reason_value (ds_risk_reject_reason s)] in
  let hash := mix_u64 hash (ds_bundle_id s) in
  let hash := foldl mix_i64 hash
    [ds_bundle_qty s; ds_total_cost_tick s; ds_unit_edge_tick s; ds_total_edge_tick s; ds_edge_bps s] in
  nonzero_hash (mix_u64 hash (ds_order_count s)).

(** [engine/decision_fastpath/core/DifferentialVerifier.cpp:67-83] opportunity_hash. *)
Definition opportunity_hash (s : DecisionPathSnapshot) : Z :=
  let hash := foldl mix_byte fnv_offset
    [1; bit (ds_produced_intent s); bit (ds_fallback_required s); fast_reject_value (ds_reject_reason s);
     intent_status_value (ds_intent_status s)] in
  let hash := mix_u64 hash (ds_bundle_id s) in
  nonzero_hash (foldl mix_i64 hash
    [ds_bundle_qty s; ds_total_cost_tick s; ds_unit_edge_tick s; ds_total_edge_tick s; ds_edge_bps s]).

(** [engine/decision_fastpath/core/DifferentialVerifier.cpp:85-98] risk_hash. *)
Definition risk_hash (s : DecisionPathSnapshot) : Z :=
  let hash := foldl mix_byte fnv_offset
    [2; bit (ds_produced_intent s); bit (ds_produced_plan s); reject_reason_value (ds_risk_reject_reason s)] in
  let hash := mix_u64 hash (ds_bundle_id s) in
  nonzero_hash (foldl mix_i64 hash [ds_bundle_qty s; ds_total_edge_tick s; ds_edge_bps s]).

(** [engine/decision_fastpath/core/DifferentialVerifier.cpp:100-109] plan_hash. *)
Definition plan_hash (s : DecisionPathSnapshot) : Z :=
  nonzero_hash (foldl mix_u64 (foldl mix_byte fnv_offset [3; bit (ds_produced_plan s)]) [ds_bundle_id s; ds_order_count s]).

(** [engine/decision_fastpath/core/DifferentialVerifier.cpp:111-120] combined_hash. *)
Definition combined_hash (s : DecisionPathSnapshot) : Z :=
  nonzero_hash (foldl mix_u64 (mix_byte fnv_offset 4) [ds_opportunity_hash s; ds_risk_hash s; ds_plan_hash s]).

(** [engine/decision_fastpath/core/DifferentialVerifier.cpp:122-128] finalize. *)
Definition finalize (s : DecisionPathSnapshot) : DecisionPathSnapshot :=
  let s := s <| ds_opportunity_hash := opportunity_hash s |> <| ds_risk_hash := risk_hash s |> <| ds_plan_hash := plan_hash s |> in
  let s := s <| ds_combined_hash := combined_hash s |> in
  s <| ds_semantic_hash := semantic_hash s |>.

(** [engine/decision_fastpath/core/DifferentialVerifier.cpp:390-413] snapshot_from_fast_kernel. *)
Definition snapshot_from_fast_kernel (r : FastKernelResult) : DecisionPathSnapshot :=
  finalize (mkPathSnapshot (kx_produced_intent r) false (kx_fallback_required r) (kx_reject_reason r)
    (oi_status (kx_intent r)) (kx_risk_reject_reason r) (oi_bundle_id (kx_intent r)) (kx_bundle_qty r) (kx_total_cost_tick r)
    (kx_unit_edge_tick r) (kx_total_edge_tick r) (kx_edge_bps r) (Z.of_nat (od_leg_count (kx_order_decision r)))
    (od_decision_hash (kx_order_decision r)) 0 0 0 0 0 0).

(** ** The reference decision *)

(** [engine/decision_fastpath/core/DifferentialVerifier.cpp:19-25] GenericLegWork, after the first loop. *)
Record GenericLegWork := mkGenericLegWork { gw_leg : KernelLeg; gw_depth : MarketDepthView; gw_executable_qty_lots : Z }.

(** [engine/decision_fastpath/core/DifferentialVerifier.cpp:159-181] executable_ask_qty: the levels, never the prefix. *)
Definition reference_ask_qty (depth : MarketDepthView) : Z :=
  sum_ask_lots 0 (take (Nat.min (dv_ask_count depth) kMaxSnapshotDepth) (dv_asks depth)).

(** [engine/decision_fastpath/core/DifferentialVerifier.cpp:471-511] reference_generic_decision: the loop that reads the views. *)
Fixpoint collect_reference (views : list MarketDepthView) (policy : RiskPolicySnapshot) (now_ns : Z) (legs : list KernelLeg)
    (bundle_qty : Z) : FastPathRejectReason + (list GenericLegWork * Z) :=
  match legs with
  | [] => inr ([], bundle_qty)
  | leg :: rest =>
      if negb (bool_decide (kl_side leg = Buy)) then inl FpSellLeg
      else if kl_ratio_qty_lots leg <=? 0 then inl FpUnsupportedExecutableSide
      else
        match find_depth_view views (kl_asset_index leg) with
        | None => inl FpMissingDepthView
        | Some depth =>
            if negb (depth_is_usable depth policy now_ns) then inl FpBadDepthView
            else
              let executable := reference_ask_qty depth in
              if executable <? kl_ratio_qty_lots leg then inl FpBadDepthView
              else
                match collect_reference views policy now_ns rest (Z.min bundle_qty (Z.quot executable (kl_ratio_qty_lots leg))) with
                | inl reason => inl reason
                | inr (work, bundle_qty) => inr (mkGenericLegWork leg depth executable :: work, bundle_qty)
                end
        end
  end.

(** [engine/decision_fastpath/core/DifferentialVerifier.cpp:521-557] reference_generic_decision: the loop that prices the legs: the
    planned lots and the cost of each, and the total. *)
Fixpoint price_reference (bundle_qty : Z) (work : list GenericLegWork) (total : Z) :
    FastPathRejectReason + (list (KernelLeg * Z * VwapMathResult) * Z) :=
  match work with
  | [] => inr ([], total)
  | leg :: rest =>
      match checked_mul_i64 (kl_ratio_qty_lots (gw_leg leg)) bundle_qty with
      | None => inl FpUnsupportedExecutableSide
      | Some planned =>
          let cost := buy_vwap_linear (Some (dv_asks (gw_depth leg))) (dv_ask_count (gw_depth leg)) planned in
          if negb (vm_ok cost) then inl FpBadDepthView
          else
            match checked_add_i64 total (vm_total_cost_tick cost) with
            | None => inl FpUnsupportedExecutableSide
            | Some total =>
                match price_reference bundle_qty rest total with
                | inl reason => inl reason
                | inr (priced, total) => inr ((gw_leg leg, planned, cost) :: priced, total)
                end
            end
      end
  end.

(** [engine/decision_fastpath/core/DifferentialVerifier.cpp:305-322] risk_limit_rejection: an amount joins the entry of its key. *)
Fixpoint add_incoming (key amount : Z) (incoming : list (Z * Z)) : list (Z * Z) :=
  match incoming with
  | [] => [(key, amount)]
  | (k, a) :: rest => if k =? key then (k, a +i amount) :: rest else (k, a) :: add_incoming key amount rest
  end.

(** [engine/decision_fastpath/core/DifferentialVerifier.cpp:183-207] numeric_asset_lots and numeric_market_exposure: the first entry. *)
Fixpoint numeric_entry (entries : list (Z * Z)) (key : Z) : Z :=
  match entries with
  | [] => 0
  | (k, a) :: rest => if k =? key then a else numeric_entry rest key
  end.

(** Some key with what comes in passes a limit. *)
Definition passes_limit (entries incoming : list (Z * Z)) (limit : Z) : bool :=
  existsb (λ '(key, amount), limit <? numeric_entry entries key +i amount) incoming.

(** [engine/decision_fastpath/core/DifferentialVerifier.cpp:283-364] risk_limit_rejection. *)
Definition risk_limit_rejection (priced : list (KernelLeg * Z * VwapMathResult)) (total_cost_tick : Z) (policy : RiskPolicySnapshot)
    (ledger : RiskLedgerSnapshot) : RiskDecisionType :=
  let markets := foldl (λ l '(leg, _, cost), add_incoming (kl_market_index leg) (Z.max 0 (vm_total_cost_tick cost)) l) [] priced in
  let assets := foldl (λ l '(leg, planned, _), add_incoming (kl_asset_index leg) planned l) [] priced in
  if (0 <? rp_max_total_cost_tick policy) && (rp_max_total_cost_tick policy <? total_cost_tick) then RejectCostLimit
  else if (0 <? rp_max_total_exposure_tick policy) &&
          (rp_max_total_exposure_tick policy <? ls_total_reserved_exposure_tick ledger +i total_cost_tick)
  then RejectTotalExposureLimit
  else if (0 <? rp_max_single_market_exposure_tick policy) &&
          passes_limit (ls_numeric_reserved_market_exposure ledger) markets (rp_max_single_market_exposure_tick policy)
  then RejectSingleMarketExposureLimit
  else if (0 <? rp_max_inventory_lots_per_asset policy) &&
          passes_limit (ls_numeric_reserved_asset_lots ledger) assets (rp_max_inventory_lots_per_asset policy)
  then RejectInventoryLimit
  else DtPass.

(** [engine/decision_fastpath/core/DifferentialVerifier.cpp:450-469] reference_generic_decision: falling back. *)
Definition reference_fallback (reason : FastPathRejectReason) : DecisionPathSnapshot :=
  finalize (path_snapshot0 <| ds_fallback_required := true |> <| ds_reject_reason := reason |>).

(** [engine/decision_fastpath/core/DifferentialVerifier.cpp:578-587] reference_generic_decision: the verdict. *)
Definition reference_rejection (spec : FixedShapeKernelSpec) (policy : RiskPolicySnapshot) (ledger : RiskLedgerSnapshot)
    (priced : list (KernelLeg * Z * VwapMathResult)) (total_cost : Z) (edge : EdgeMathResult) (bundle_qty : Z) : RiskDecisionType :=
  let rejection := edge_rejection spec edge bundle_qty policy in
  if bool_decide (rejection = DtPass) then risk_limit_rejection priced total_cost policy ledger else rejection.

(** [engine/decision_fastpath/core/DifferentialVerifier.cpp:559-611] reference_generic_decision: the snapshot of a priced bundle. *)
Definition reference_result (spec : FixedShapeKernelSpec) (policy : RiskPolicySnapshot) (ledger : RiskLedgerSnapshot)
    (bundle_qty : Z) (priced : list (KernelLeg * Z * VwapMathResult)) (total_cost : Z) : DecisionPathSnapshot :=
  let edge := kernel_edge spec (ceil_div_positive total_cost bundle_qty) bundle_qty in
  let rejection := reference_rejection spec policy ledger priced total_cost edge bundle_qty in
  let approved := bool_decide (rejection = DtPass) in
  let low := bool_decide (rejection ∈ [RejectLowUnitEdge; RejectLowTotalEdge; RejectLowEdgeBps; RejectInsufficientDepth]) in
  finalize (mkPathSnapshot true approved false FpNone (if low then IsRejectedLowEdge else IsPaperOpportunity)
    (if approved then RrNone else risk_reject_reason rejection) (ks_bundle_id spec) bundle_qty total_cost
    (er_unit_edge_tick edge) (er_total_edge_tick edge) (er_edge_bps edge)
    (if approved then Z.of_nat (ks_leg_count spec) else 0) 0 0 0 0 0 0 0).

(** [engine/decision_fastpath/core/DifferentialVerifier.cpp:441-612] reference_generic_decision. *)
Definition reference_generic_decision (spec : FixedShapeKernelSpec) (views : list MarketDepthView) (policy : RiskPolicySnapshot)
    (ledger : RiskLedgerSnapshot) (now_ns : Z) : DecisionPathSnapshot :=
  if (ks_leg_count spec =? 0)%nat then reference_fallback FpEmptyBundle
  else if (kMaxFixedShapeKernelLegs <? ks_leg_count spec)%nat then reference_fallback FpTooManyLegs
  else if negb (rp_risk_enabled policy) || rp_kill_switch_enabled policy then reference_fallback FpPolicyIncompatible
  else
    match collect_reference views policy now_ns (spec_legs spec) i64_max with
    | inl reason => reference_fallback reason
    | inr (work, bundle_qty) =>
        if (bundle_qty <=? 0) || (bundle_qty =? i64_max) then reference_fallback FpBadDepthView
        else
          match price_reference bundle_qty work 0 with
          | inl reason => reference_fallback reason
          | inr (priced, total) => reference_result spec policy ledger bundle_qty priced total
          end
    end.

(** ** Comparing two snapshots *)

(** [engine/decision_fastpath/core/DifferentialVerifier.h:48-64] DifferentialCompareResult: the hashes it copies are those of the two
    snapshots it is given. *)
Record DifferentialCompareResult := mkCompareResult {
  dr_match : bool;
  dr_fast : DecisionPathSnapshot;
  dr_generic : DecisionPathSnapshot;
  dr_first_mismatch : string
}.

(** The fields that are compared, in order: the name, and whether they agree. *)
Definition compared_fields (f g : DecisionPathSnapshot) : list (string * bool) :=
  let z name (read : DecisionPathSnapshot → Z) := (name, read f =? read g) in
  let b name (read : DecisionPathSnapshot → bool) := (name, Bool.eqb (read f) (read g)) in
  [ z "opportunity_hash"%string ds_opportunity_hash; z "risk_hash"%string ds_risk_hash; z "plan_hash"%string ds_plan_hash;
    z "combined_hash"%string ds_combined_hash; b "produced_intent"%string ds_produced_intent;
    b "produced_plan"%string ds_produced_plan; b "fallback_required"%string ds_fallback_required;
    ("reject_reason"%string, bool_decide (ds_reject_reason f = ds_reject_reason g));
    ("intent_status"%string, bool_decide (ds_intent_status f = ds_intent_status g));
    ("risk_reject_reason"%string, bool_decide (ds_risk_reject_reason f = ds_risk_reject_reason g));
    z "bundle_id"%string ds_bundle_id; z "bundle_qty"%string ds_bundle_qty; z "total_cost_tick"%string ds_total_cost_tick;
    z "unit_edge_tick"%string ds_unit_edge_tick; z "total_edge_tick"%string ds_total_edge_tick; z "edge_bps"%string ds_edge_bps;
    z "order_count"%string ds_order_count;
    ("decision_hash"%string, (ds_decision_hash f =? 0) || (ds_decision_hash g =? 0) || (ds_decision_hash f =? ds_decision_hash g));
    ("plan_id"%string, (ds_plan_id f =? 0) || (ds_plan_id g =? 0) || (ds_plan_id f =? ds_plan_id g));
    z "semantic_hash"%string ds_semantic_hash ].

(** [engine/decision_fastpath/core/DifferentialVerifier.cpp:366-386] record_mismatch and compare_field: the first name stays. *)
Fixpoint first_mismatch (fields : list (string * bool)) : option string :=
  match fields with
  | [] => None
  | (name, agree) :: rest => if agree then first_mismatch rest else Some name
  end.

(** [engine/decision_fastpath/core/DifferentialVerifier.cpp:614-676] compare_decision_snapshots. *)
Definition compare_decision_snapshots (fast generic : DecisionPathSnapshot) : DifferentialCompareResult :=
  match first_mismatch (compared_fields fast generic) with
  | None => mkCompareResult true fast generic ""
  | Some field => mkCompareResult false fast generic field
  end.

(** ** Books of one level *)

(** The views that quote asks are as the state builds them. *)
Definition fast_views_ok (views : list MarketDepthView) : Prop := Forall (λ v, dv_ask_count v ≠ 0%nat → view_wf v) views.

Lemma snapshot_view_fast_ok snapshot asset_index : fast_views_ok [market_depth_view_from_snapshot snapshot asset_index].
Proof.
  unfold fast_views_ok. rewrite Forall_singleton. intros Hc. constructor; [apply length_std_array| |done].
  cbn in *. lia.
Qed.

Lemma find_depth_view_elem views a v : find_depth_view views a = Some v → v ∈ views ∧ dv_asset_index v = a.
Proof.
  induction views as [|w views IH]; cbn [find_depth_view]; [done|]. destruct (Z.eqb_spec (dv_asset_index w) a).
  - intros [= <-]. by split; [left|].
  - intros H. destruct (IH H). by split; [right|].
Qed.

(** A view of one ask: the lots on offer and the price both readers see. *)
Definition one_ask (view : MarketDepthView) (level : PriceLevel) : Prop :=
  view_wf view ∧ dv_ask_count view = 1%nat ∧ view_asks view = [level].

Lemma one_ask_level view : view_wf view → dv_ask_count view = 1%nat → ∃ level, one_ask view level.
Proof.
  intros Hwf H1. pose proof (vw_asks _ Hwf) as Ha. unfold one_ask, view_asks. rewrite H1.
  destruct (dv_asks view) as [|level rest]; [done|]. exists level. done.
Qed.

Lemma one_ask_reference view level : one_ask view level → reference_ask_qty view = level_available level.
Proof.
  intros (_ & H1 & Hl). unfold reference_ask_qty, view_asks in *. rewrite H1 in *. change (Nat.min 1 kMaxSnapshotDepth) with 1%nat.
  rewrite Hl. cbn [sum_ask_lots]. pose proof (level_size_range level) as Hr. unfold level_available.
  change (depth_prefix_level_size_lots level) with (price_level_size_lots level).
  destruct (Z.leb_spec (pl_price_tick level) 0), (Z.ltb_spec 0 (pl_price_tick level)); try lia.
  rewrite checked_add_i64_ok by rlia. lia.
Qed.

Lemma one_ask_prefix view level : one_ask view level →
  dp_ask_count (dv_prefix view) = 1%nat ∧ dp_ask_cum_qty (dv_prefix view) !!! 0%nat = level_available level.
Proof.
  intros ([Ha Hc Hp] & H1 & Hl). rewrite Hp, prefix_ask_count by lia. split; [done|]. unfold view_asks in Hl.
  pose proof (prefix_last (dv_bids view) (dv_bid_count view) _ _ Ha Hc) as Hq. rewrite H1 in *. cbn [Nat.sub] in Hq.
  rewrite Hq, Hl. unfold exact_qty. cbn [sum_list_Z]. pose proof (level_available_range level). lia.
Qed.

Lemma one_ask_kernel view level : one_ask view level → kernel_ask_qty view = level_available level.
Proof.
  intros H. destruct (one_ask_prefix _ _ H) as [Hc Hq]. unfold kernel_ask_qty, executable_ask_qty, ask_depth_from_prefix.
  by rewrite Hc.
Qed.

Lemma one_ask_best view level : one_ask view level → 0 < best_ask_tick view → best_ask_tick view = pl_price_tick level.
Proof.
  intros H. destruct (one_ask_prefix _ _ H) as [Hc _]. destruct H as ([Ha _ _] & H1 & Hl). unfold view_asks in Hl. rewrite H1 in Hl.
  unfold best_ask_tick. rewrite Hc. cbn [Nat.ltb Nat.leb]. unfold best_ask_tick_from_prefix. rewrite Hc.
  destruct (dv_asks view) as [|l rest]; [done|]. cbn in Hl. injection Hl as ->.
  destruct (dp_ask_cum_qty (dv_prefix view)) as [|c cum]; [done|]. cbn. by destruct (_ && _).
Qed.

(** On one level the prefix price is the price of the walk. *)
Lemma one_ask_price view level q : one_ask view level → 0 < q <= i64_max → vm_ok (kernel_buy_vwap view q) = true →
  kernel_buy_vwap view q = buy_vwap_linear (Some (dv_asks view)) (dv_ask_count view) q ∧
  kernel_buy_vwap view q = vwap_filled (pl_price_tick level * q) (pl_price_tick level) (level_available level) q ∧
  q <= level_available level ∧ 0 < pl_price_tick level.
Proof.
  intros H Hq Hok. destruct (one_ask_prefix _ _ H) as [Hc _]. destruct H as ([Ha Hr Hp] & H1 & Hl). unfold view_asks in Hl.
  pose proof (level_available_range level). destruct (level_live level) as [_ Hlive].
  assert (Hex : exact_qty (take (dv_ask_count view) (dv_asks view)) = level_available level).
  { rewrite Hl. unfold exact_qty. cbn. lia. }
  assert (Hbuy : kernel_buy_vwap view q = buy_vwap_prefix (dv_prefix view) (Some (dv_asks view)) (dv_ask_count view) q).
  { unfold kernel_buy_vwap, fast_buy_vwap. by rewrite Hc. }
  rewrite Hbuy in *. rewrite Hp in *.
  destruct (buy_vwap_prefix_linear (dv_bids view) (dv_bid_count view) (dv_asks view) (dv_ask_count view) q Ha Hr Hq) as [_ Heq];
    [rewrite Hl; repeat constructor|lia|].
  specialize (Heq Hok) as [Heq Hfill]. split; [done|]. rewrite Heq in *.
  rewrite buy_vwap_linear_spec in * by lia. cbv zeta in *. rewrite Hl in *. rewrite Hex in *.
  destruct (bool_decide _ && bool_decide _); [|done]. cbn [fill fill_worst fst snd] in *.
  destruct (Z.ltb_spec 0 (q - Z.min q (level_available level))); [done|].
  assert (Hmin : Z.min q (level_available level) = q) by lia. rewrite Hmin, Z.add_0_r.
  rewrite (proj2 (Z.ltb_lt 0 q)) by lia. destruct Hlive as [Hpos _]; [lia|]. rewrite Z.max_r by lia. split; [done|]. lia.
Qed.

(** ** The loops of the kernel *)

(** What the first loop has found out about a leg. *)
Record leg_read (views : list MarketDepthView) (policy : RiskPolicySnapshot) (now_ns : Z) (leg : KernelLeg) (w : LegWork) : Prop := {
  lr_leg : lw_leg w = leg;
  lr_buy : kl_side leg = Buy;
  lr_ratio : 0 < kl_ratio_qty_lots leg;
  lr_view : find_depth_view views (kl_asset_index leg) = Some (lw_depth w);
  lr_usable : depth_is_usable (lw_depth w) policy now_ns = true;
  lr_count : dv_ask_count (lw_depth w) = 1%nat;
  lr_executable : lw_executable_qty_lots w = kernel_ask_qty (lw_depth w);
  lr_enough : kl_ratio_qty_lots leg <= lw_executable_qty_lots w;
  lr_best : lw_best_price_tick w = best_ask_tick (lw_depth w) ∧ 0 < best_ask_tick (lw_depth w)
}.

(** Every leg read allows the same number of bundles. *)
Lemma collect_legs_read views policy now_ns legs first bundle_qty version work bundle_qty' version' :
  collect_legs views policy now_ns legs first bundle_qty version = inr (work, bundle_qty', version') →
  Forall2 (leg_read views policy now_ns) legs work ∧
  (∀ w, w ∈ work → ∀ f, first = Some f → Z.quot (lw_executable_qty_lots w) (kl_ratio_qty_lots (lw_leg w)) = f) ∧
  (∀ w1 w2, w1 ∈ work → w2 ∈ work → Z.quot (lw_executable_qty_lots w1) (kl_ratio_qty_lots (lw_leg w1)) =
                                     Z.quot (lw_executable_qty_lots w2) (kl_ratio_qty_lots (lw_leg w2))) ∧
  bundle_qty' = foldl (λ q w, Z.min q (Z.quot (lw_executable_qty_lots w) (kl_ratio_qty_lots (lw_leg w)))) bundle_qty work.
Proof.
  revert first bundle_qty version work; induction legs as [|leg legs IH]; intros first bundle_qty version work H; cbn [collect_legs] in H.
  { injection H as <- <- <-. split_and!; [constructor|by intros w ?%elem_of_nil|by intros w1 w2 ?%elem_of_nil|done]. }
  case_bool_decide as Hbuy; cbn [negb] in H; [|done]. step_if_in H; [done|].
  destruct (find_depth_view _ _) as [depth|] eqn:Ev; [|done].
  step_if_in H; [done|]. step_if_in H; [done|]. step_if_in H; [done|]. step_if_in H; [done|]. breflect.
  set (q := Z.quot _ _) in *. destruct (collect_legs _ _ _ legs _ _ _) as [|[[rest q'] v']] eqn:E; [done|].
  injection H as <- <- <-. apply IH in E as (Hread & Hfirst & Hsame & ->).
  assert (Hrest : ∀ w, w ∈ rest → Z.quot (lw_executable_qty_lots w) (kl_ratio_qty_lots (lw_leg w)) = q).
  { intros w Hw. rewrite (Hfirst w Hw _ eq_refl). done. }
  split_and!.
  - constructor; [|done]. constructor; cbn; try done; lia.
  - intros w [->|Hw]%elem_of_cons f ->; cbn in *; [done|]. by rewrite Hrest.
  - intros w1 w2 [->|Hw1]%elem_of_cons [->|Hw2]%elem_of_cons; cbn; rewrite ?Hrest by done; done.
  - done.
Qed.

(** A leg priced for a number of bundles. *)
Record leg_priced (bundle_qty : Z) (w : LegWork) (pk : PricedKernelLeg) : Prop := {
  lp_work : pk_work pk = w;
  lp_planned : pk_planned_qty_lots pk = kl_ratio_qty_lots (lw_leg w) * bundle_qty;
  lp_range : in_i64 (kl_ratio_qty_lots (lw_leg w) * bundle_qty);
  lp_cost : pk_cost pk = kernel_buy_vwap (lw_depth w) (pk_planned_qty_lots pk);
  lp_ok : vm_ok (pk_cost pk) = true;
  lp_margin : pk_depth_margin_bps pk = ratio_bps (lw_executable_qty_lots w) (pk_planned_qty_lots pk)
}.

Definition priced_cost (pk : PricedKernelLeg) : Z := vm_total_cost_tick (pk_cost pk).

Lemma kernel_price_legs_ok policy bundle_qty work p p' : price_legs policy bundle_qty work p = inr p' →
  ∃ priced, kp_legs p' = kp_legs p ++ priced ∧ Forall2 (leg_priced bundle_qty) work priced ∧
    kp_total_cost_tick p' = kp_total_cost_tick p + sum_list_Z priced_cost priced ∧
    (in_i64 (kp_total_cost_tick p) → in_i64 (kp_total_cost_tick p')) ∧
    (kp_partial_fill_reject p' = true → kp_partial_fill_reject p = true ∨ 0 < rp_min_depth_margin_bps policy) ∧
    (kp_partial_fill_reject p' = false → kp_partial_fill_reject p = false ∧
       ∀ pk, pk ∈ priced → 0 < rp_min_depth_margin_bps policy → rp_min_depth_margin_bps policy <= pk_depth_margin_bps pk).
Proof.
  revert p; induction work as [|w work IH]; intros p H; cbn [price_legs] in H.
  { injection H as <-. exists []. rewrite app_nil_r. cbn. split_and!; [done|constructor|lia|done|by left|].
    intros Hf. split; [done|]. by intros pk ?%elem_of_nil. }
  destruct (checked_mul_i64 _ _) as [planned|] eqn:Em; [|done]. apply checked_mul_i64_Some in Em as [Hr ->].
  step_if_in H; [done|]. destruct (checked_add_i64 _ _) as [total|] eqn:Ea; [|done]. apply checked_add_i64_Some in Ea as [Ht ->].
  breflect. apply IH in H as (priced & Hl & Hp & Hsum & Hrange & Hpart & Hfull). cbn [kp_legs kp_total_cost_tick kp_partial_fill_reject] in *.
  eexists (_ :: priced). rewrite Hl, <- app_assoc. split; [done|]. split_and!.
  - constructor; [|done]. by constructor.
  - rewrite Hsum. cbn [sum_list_Z]. unfold priced_cost at 2. cbn. lia.
  - auto.
  - intros Hf. destruct (Hpart Hf) as [[?|[? _]%andb_true_iff]%orb_true_iff|?]; [by left|right; by breflect|by right].
  - intros Hf. destruct (Hfull Hf) as [[Hf0 Hm]%orb_false_iff Hrest]. split; [done|].
    intros pk [->|Hin]%elem_of_cons Hpos; [|by apply Hrest]. cbn. rewrite (proj2 (Z.ltb_lt _ _) Hpos) in Hm. by apply Z.ltb_ge.
Qed.

(** ** The kernel is the reference *)

(** What the reference keeps of a leg the kernel read. *)
Definition generic_work (w : LegWork) : GenericLegWork := mkGenericLegWork (lw_leg w) (lw_depth w) (lw_executable_qty_lots w).

Lemma leg_read_one_ask views policy now_ns leg w : fast_views_ok views → leg_read views policy now_ns leg w →
  ∃ level, one_ask (lw_depth w) level ∧ lw_executable_qty_lots w = level_available level ∧
    lw_best_price_tick w = pl_price_tick level ∧ 0 < pl_price_tick level.
Proof.
  intros Hviews [_ _ _ Hv _ Hc He _ [Hb Hpos]]. apply find_depth_view_elem in Hv as [Hin _].
  unfold fast_views_ok in Hviews. rewrite Forall_forall in Hviews. specialize (Hviews _ Hin). rewrite Hc in Hviews.
  destruct (one_ask_level (lw_depth w) (Hviews ltac:(done)) Hc) as [level Hl].
  pose proof (one_ask_best _ _ Hl Hpos) as Heq. exists level. rewrite He, Hb, (one_ask_kernel _ _ Hl), Heq, <- Heq. done.
Qed.

(** The reference reads every leg the kernel read, with the same quantity. *)
Lemma collect_reference_read views policy now_ns legs work bundle_qty :
  fast_views_ok views → Forall2 (leg_read views policy now_ns) legs work →
  collect_reference views policy now_ns legs bundle_qty =
  inr (generic_work <$> work,
       foldl (λ q w, Z.min q (Z.quot (lw_executable_qty_lots w) (kl_ratio_qty_lots (lw_leg w)))) bundle_qty work).
Proof.
  intros Hviews H. revert bundle_qty. induction H as [|leg w legs work Hr _ IH]; intros bundle_qty; cbn [collect_reference]; [done|].
  destruct (leg_read_one_ask _ _ _ _ _ Hviews Hr) as (level & Hl & He & _ & _). destruct Hr as [Hleg Hbuy Hpos Hv Hu _ _ Hen _].
  rewrite Hbuy, Hv, Hu. cbn [bool_decide negb]. rewrite bool_decide_true by done. cbn [negb]. rewrite (proj2 (Z.leb_gt _ _)) by lia.
  rewrite (one_ask_reference _ _ Hl), <- He, (proj2 (Z.ltb_ge _ _)) by lia. rewrite IH. cbn [foldl fmap list_fmap]. rewrite Hleg. unfold generic_work at 2. by rewrite Hleg.
Qed.

(** A priced leg buys its lots from the one level of its view, at its price; the
    walk over the levels gives the same. *)
Lemma leg_priced_exact views policy now_ns bundle_qty leg w pk :
  fast_views_ok views → 0 < bundle_qty → leg_read views policy now_ns leg w → leg_priced bundle_qty w pk →
  ∃ level, one_ask (lw_depth w) level ∧ lw_executable_qty_lots w = level_available level ∧ 0 < pl_price_tick level ∧
    0 < pk_planned_qty_lots pk <= level_available level ∧
    pk_cost pk = vwap_filled (pl_price_tick level * pk_planned_qty_lots pk) (pl_price_tick level) (level_available level)
                   (pk_planned_qty_lots pk) ∧
    buy_vwap_linear (Some (dv_asks (lw_depth w))) (dv_ask_count (lw_depth w)) (pk_planned_qty_lots pk) = pk_cost pk.
Proof.
  intros Hviews Hq Hr [Hw Hpl Hrange Hc Hok _]. destruct (leg_read_one_ask _ _ _ _ _ Hviews Hr) as (level & Hl & He & _ & _).
  pose proof (lr_ratio _ _ _ _ _ Hr) as Hratio. rewrite <- (lr_leg _ _ _ _ _ Hr) in Hratio.
  assert (0 < pk_planned_qty_lots pk <= i64_max) by (rewrite Hpl; ranges; nia).
  rewrite Hc in *. destruct (one_ask_price _ level (pk_planned_qty_lots pk) Hl) as (Hlin & Hfill & Hle & Hpos); [lia|done|].
  exists level. split_and!; done || lia.
Qed.

Definition generic_priced (pk : PricedKernelLeg) : KernelLeg * Z * VwapMathResult :=
  (lw_leg (pk_work pk), pk_planned_qty_lots pk, pk_cost pk).

(** The reference prices every leg the kernel priced at the same cost. *)
Lemma price_reference_priced views policy now_ns bundle_qty legs work priced total :
  fast_views_ok views → 0 < bundle_qty → Forall2 (leg_read views policy now_ns) legs work →
  Forall2 (leg_priced bundle_qty) work priced → 0 <= total → total + sum_list_Z priced_cost priced <= i64_max →
  price_reference bundle_qty (generic_work <$> work) total =
  inr (generic_priced <$> priced, total + sum_list_Z priced_cost priced).
Proof.
  intros Hviews Hq Hread Hpriced. revert legs Hread total.
  induction Hpriced as [|w pk work priced Hp Hpriced IH]; intros legs Hread total Ht Hsum; cbn [price_reference fmap list_fmap sum_list_Z] in *.
  { by rewrite Z.add_0_r. }
  apply Forall2_cons_inv_r in Hread as (leg & legs' & Hr & Hread & ->).
  destruct (leg_priced_exact _ _ _ _ _ _ _ Hviews Hq Hr Hp) as (level & _ & _ & Hpos & Hplanned & Hcost & Hlin).
  assert (Hnonneg : 0 <= priced_cost pk) by (unfold priced_cost; rewrite Hcost; cbn; nia).
  assert (Hrest : 0 <= sum_list_Z priced_cost priced).
  { apply sum_list_Z_nonneg. intros pk' Hin. clear IH Hsum. revert legs' Hread Hin. induction Hpriced as [|w' pk'' work priced Hp' Hpriced IH].
    - by intros ? ? ?%elem_of_nil.
    - intros legs' (leg' & legs'' & Hr' & Hread & ->)%Forall2_cons_inv_r [->|Hin]%elem_of_cons; [|by eapply IH].
      destruct (leg_priced_exact _ _ _ _ _ _ _ Hviews Hq Hr' Hp') as (level' & _ & _ & ? & ? & Hc' & _).
      unfold priced_cost. rewrite Hc'. cbn. nia. }
  destruct Hp as [Hw Hpl Hrange _ Hok _].
  change (gw_leg (generic_work w)) with (lw_leg w). rewrite checked_mul_i64_ok by done. rewrite <- Hpl.
  change (gw_depth (generic_work w)) with (lw_depth w). rewrite Hlin, Hok. cbn [negb]. fold (priced_cost pk).
  rewrite checked_add_i64_ok by rlia. rewrite (IH legs') by (done || lia). unfold generic_priced at 2. rewrite Hw. by rewrite Z.add_assoc.
Qed.

(** A run of the kernel that does not fall back: what it read, how many bundles
    it decided on and what they cost. *)
Record kernel_ran (spec : FixedShapeKernelSpec) (views : list MarketDepthView) (policy : RiskPolicySnapshot) (now_ns : Z)
    (work : list LegWork) (bundle_qty version : Z) (p : KernelPricing) : Prop := {
  kn_count : (0 < ks_leg_count spec <= kMaxFixedShapeKernelLegs)%nat;
  kn_enabled : rp_risk_enabled policy = true ∧ rp_kill_switch_enabled policy = false;
  kn_read : Forall2 (leg_read views policy now_ns) (spec_legs spec) work;
  kn_qty : bundle_qty = foldl (λ q w, Z.min q (Z.quot (lw_executable_qty_lots w) (kl_ratio_qty_lots (lw_leg w)))) i64_max work;
  kn_same w1 w2 : w1 ∈ work → w2 ∈ work → Z.quot (lw_executable_qty_lots w1) (kl_ratio_qty_lots (lw_leg w1)) =
                                           Z.quot (lw_executable_qty_lots w2) (kl_ratio_qty_lots (lw_leg w2));
  kn_positive : 0 < bundle_qty ∧ bundle_qty ≠ i64_max;
  kn_priced : Forall2 (leg_priced bundle_qty) work (kp_legs p);
  kn_total : kp_total_cost_tick p = sum_list_Z priced_cost (kp_legs p) ∧ in_i64 (kp_total_cost_tick p);
  kn_partial : kp_partial_fill_reject p = true → 0 < rp_min_depth_margin_bps policy;
  kn_margin pk : kp_partial_fill_reject p = false → pk ∈ kp_legs p → 0 < rp_min_depth_margin_bps policy →
    rp_min_depth_margin_bps policy <= pk_depth_margin_bps pk;
  kn_result : kernel_run spec views policy now_ns = kernel_result spec policy now_ns work bundle_qty version p
}.

Lemma kernel_run_inv spec views policy now_ns :
  kx_fallback_required (kernel_run spec views policy now_ns) = false →
  ∃ work bundle_qty version p, kernel_ran spec views policy now_ns work bundle_qty version p.
Proof.
  remember (kernel_run spec views policy now_ns) as k eqn:Hk. intros Hf. pose proof Hk as Hrun. unfold kernel_run in Hk.
  step_if_in Hk; [by subst k|]. step_if_in Hk; [by subst k|]. step_if_in Hk; [by subst k|].
  destruct (collect_legs _ _ _ _ _ _ _) as [|[[work bundle_qty] version]] eqn:Ec; [by subst k|].
  step_if_in Hk; [by subst k|]. destruct (price_legs _ _ _ _) as [|p] eqn:Ep; [by subst k|]. breflect.
  apply collect_legs_read in Ec as (Hread & _ & Hsame & Hq). apply kernel_price_legs_ok in Ep as (priced & Hl & Hp & Hsum & Hr & Hpart & Hfull).
  cbn [kp_legs kp_total_cost_tick kp_partial_fill_reject app] in *. rewrite Z.add_0_l in Hsum. subst priced.
  exists work, bundle_qty, version, p. constructor; try done.
  - lia.
  - split; [done|]. apply Hr. rlia.
  - intros H'. by destruct (Hpart H').
  - intros pk H' Hin Hpos. destruct (Hfull H') as [_ Hm]. by apply Hm.
  - congruence.
Qed.

(** What a limit of exposure or inventory is called. *)
Definition exposure_reason (reason : RiskRejectReason) : Prop :=
  reason = RrTotalExposureLimit ∨ reason = RrSingleMarketExposureLimit ∨ reason = RrInventoryLimit.

Lemma reject_reason_not_none t : risk_reject_reason t ≠ RrNone.
Proof. by destruct t. Qed.

Lemma kernel_result_reason spec policy now_ns work bundle_qty version p :
  let edge := kernel_edge spec (ceil_div_positive (kp_total_cost_tick p) bundle_qty) bundle_qty in
  kx_risk_reject_reason (kernel_result spec policy now_ns work bundle_qty version p) =
  if bool_decide (kernel_rejection spec policy p edge bundle_qty = DtPass) then RrNone
  else risk_reject_reason (kernel_rejection spec policy p edge bundle_qty).
Proof. reflexivity. Qed.

(** The kernel rejects exactly when its verdict is not to pass. *)
Lemma kernel_result_decides spec policy now_ns work bundle_qty version p :
  let edge := kernel_edge spec (ceil_div_positive (kp_total_cost_tick p) bundle_qty) bundle_qty in
  kx_produced_order_decision (kernel_result spec policy now_ns work bundle_qty version p) =
  bool_decide (kernel_rejection spec policy p edge bundle_qty = DtPass).
Proof.
  intros edge. change (bool_decide ((if bool_decide (kernel_rejection spec policy p edge bundle_qty = DtPass) then RrNone
    else risk_reject_reason (kernel_rejection spec policy p edge bundle_qty)) = RrNone) =
    bool_decide (kernel_rejection spec policy p edge bundle_qty = DtPass)).
  apply bool_decide_ext. case_bool_decide; [done|]. split; [|done]. intros H'. by apply reject_reason_not_none in H'.
Qed.

(** The two verdicts: the reference also asks the ledger, the kernel also asks
    for a margin of depth. *)
Lemma verdicts_agree spec policy ledger priced p edge bundle_qty :
  (kernel_rejection spec policy p edge bundle_qty = DtPass →
   let r := reference_rejection spec policy ledger priced (kp_total_cost_tick p) edge bundle_qty in
   r = DtPass ∨ exposure_reason (risk_reject_reason r)) ∧
  (reference_rejection spec policy ledger priced (kp_total_cost_tick p) edge bundle_qty = DtPass →
   kernel_rejection spec policy p edge bundle_qty = DtPass ∨
   kernel_rejection spec policy p edge bundle_qty = RejectInsufficientDepth ∧ kp_partial_fill_reject p = true).
Proof.
  unfold kernel_rejection, reference_rejection, risk_limit_rejection. split.
  - intros H. step_if_in H; [done|]. step_if_in H; [done|]. rewrite H, bool_decide_true by done.
    repeat (step_if; [by right; unfold exposure_reason; tauto|]). by left.
  - intros H. destruct (kp_partial_fill_reject p); [by right|]. left. case_bool_decide as He; [|done].
    step_if_in H; [done|]. done.
Qed.

(** C33. The kernel is the reference.  When the kernel does not fall back on views
    as the state builds them, neither does the reference, and they decide on the
    same bundle, quantity, cost and edges.  What the kernel decides to buy the
    reference approves unless the ledger has no room; what the reference approves
    the kernel buys unless the policy wants a margin of depth the books lack. *)
Theorem kernel_matches_reference spec views policy ledger now_ns :
  fast_views_ok views →
  let k := kernel_run spec views policy now_ns in
  let r := reference_generic_decision spec views policy ledger now_ns in
  kx_fallback_required k = false →
  ds_fallback_required r = false ∧
  (ds_bundle_id r, ds_bundle_qty r, ds_total_cost_tick r) = (oi_bundle_id (kx_intent k), kx_bundle_qty k, kx_total_cost_tick k) ∧
  (ds_unit_edge_tick r, ds_total_edge_tick r, ds_edge_bps r) = (kx_unit_edge_tick k, kx_total_edge_tick k, kx_edge_bps k) ∧
  (kx_produced_order_decision k = true → ds_produced_plan r = true ∨ exposure_reason (ds_risk_reject_reason r)) ∧
  (ds_produced_plan r = true → kx_produced_order_decision k = true ∨
     (kx_risk_reject_reason k = RrPartialFillRisk ∧ 0 < rp_min_depth_margin_bps policy)).
Proof.
  intros Hviews k r Hf. subst k. apply kernel_run_inv in Hf as (work & q & version & p & [Hcount [He Hk] Hread Hq _ [Hpos Hmax] Hpriced [Hsum Hr] Hpart _ ->]).
  assert (Hr' : r = reference_result spec policy ledger q (generic_priced <$> kp_legs p) (kp_total_cost_tick p)).
  { subst r. unfold reference_generic_decision. rewrite (proj2 (Nat.eqb_neq _ _)), (proj2 (Nat.ltb_ge _ _)) by lia. rewrite He, Hk. cbn [negb orb].
    rewrite (collect_reference_read _ _ _ _ _ _ Hviews Hread), <- Hq. rewrite (proj2 (Z.leb_gt _ _)), (proj2 (Z.eqb_neq _ _)) by lia. cbn [orb].
    rewrite (price_reference_priced _ _ _ _ _ _ _ _ Hviews Hpos Hread Hpriced) by (ranges; lia). by rewrite Z.add_0_l, <- Hsum. }
  rewrite Hr'. clear r Hr'. rewrite kernel_result_decides. unfold reference_result.
  set (edge := kernel_edge _ _ _). destruct (verdicts_agree spec policy ledger (generic_priced <$> kp_legs p) p edge q) as [H1 H2].
  set (rej := reference_rejection _ _ _ _ _ _ _) in *.
  split_and!; [done..| |].
  - rewrite bool_decide_eq_true. intros Hd. change (ds_produced_plan _) with (bool_decide (rej = DtPass)).
    change (ds_risk_reject_reason _) with (if bool_decide (rej = DtPass) then RrNone else risk_reject_reason rej).
    case_bool_decide; [by left|right]. by destruct (H1 Hd).
  - change (ds_produced_plan _) with (bool_decide (rej = DtPass)). rewrite !bool_decide_eq_true. intros Hd.
    destruct (H2 Hd) as [?|[Hk' Hp]]; [by left|right]. split; [|auto].
    rewrite kernel_result_reason. fold edge. by rewrite Hk'.
Qed.

(** *** The decisions of the kernel *)

(** A leg of a decision: everything a leg of the specification needs per bundle is
    bought from the one level of its view, at the price of the level, and the
    level allows just the bundles decided on. *)
Definition leg_bought (views : list MarketDepthView) (policy : RiskPolicySnapshot) (now_ns bundle_qty : Z) (leg : KernelLeg)
    (out : OrderDecisionLegLite) : Prop :=
  ∃ view level, find_depth_view views (kl_asset_index leg) = Some view ∧ depth_is_usable view policy now_ns = true ∧
    view_asks view = [level] ∧ dl_asset_index out = kl_asset_index leg ∧ dl_market_index out = kl_market_index leg ∧
    dl_side out = Buy ∧ dl_quantity_lots out = kl_ratio_qty_lots leg * bundle_qty ∧
    dl_limit_price_tick out = pl_price_tick level ∧ dl_estimated_cost_tick out = pl_price_tick level * dl_quantity_lots out ∧
    0 < pl_price_tick level ∧ 0 < dl_quantity_lots out ∧ Z.quot (level_available level) (kl_ratio_qty_lots leg) = bundle_qty.

Lemma foldl_min_same {A} (f : A → Z) l q0 q :
  (∀ x, x ∈ l → f x = q) → l ≠ [] → foldl (λ q x, Z.min q (f x)) q0 l = Z.min q0 q.
Proof.
  intros Hf. revert q0; induction l as [|x l IH]; intros q0 Hne; [done|]. cbn [foldl]. rewrite (Hf x) by left.
  destruct l as [|y l]; [done|]. rewrite IH; [lia| |done]. intros z Hz. apply Hf. by right.
Qed.

Lemma edge_passes spec edge bundle_qty policy : edge_rejection spec edge bundle_qty policy = DtPass →
  er_ok edge = true ∧
  Z.max (ks_min_unit_edge_tick spec) (rp_min_post_risk_unit_edge_tick policy) <= er_unit_edge_tick edge ∧
  Z.max (ks_min_total_edge_tick spec) (rp_min_post_risk_total_edge_tick policy) <= er_total_edge_tick edge ∧
  Z.max (ks_min_edge_bps spec) (rp_min_edge_bps policy) <= er_edge_bps edge ∧ ks_min_bundle_qty spec <= bundle_qty.
Proof. unfold edge_rejection. intros H. repeat (step_if_in H; [done|]). breflect. split_and!; done || lia. Qed.

Lemma compute_edge_exact payout cost q : er_ok (compute_edge (mkEdgeMathInput payout cost 0 0 0 q)) = true →
  let e := compute_edge (mkEdgeMathInput payout cost 0 0 0 q) in
  er_unit_edge_tick e = payout - cost ∧ er_total_edge_tick e = (payout - cost) * q ∧ er_edge_bps e = ratio_bps (payout - cost) cost.
Proof.
  unfold compute_edge. cbn [em_guaranteed_payout_tick em_total_cost_tick em_fee_tick em_latency_buffer_tick em_slippage_buffer_tick em_bundle_qty].
  destruct (checked_sub_i64 payout cost) as [v|] eqn:E; [|done]. apply checked_sub_i64_Some in E as [Hv ->]. cbn [checked_sub_chain].
  rewrite !checked_sub_i64_ok by (ranges; lia). cbn [negb]. replace (payout - cost - 0 - 0 - 0) with (payout - cost) by lia.
  destruct (checked_mul_i64 _ _) as [t|] eqn:Em; [|done]. apply checked_mul_i64_Some in Em as [Ht ->]. done.
Qed.

Lemma produced_not_fallback spec views policy now_ns :
  kx_produced_order_decision (kernel_run spec views policy now_ns) = true → kx_fallback_required (kernel_run spec views policy now_ns) = false.
Proof.
  unfold kernel_run. do 3 (step_if; [done|]). destruct (collect_legs _ _ _ _ _ _ _) as [|[[work q] version]]; [done|].
  step_if; [done|]. by destruct (price_legs _ _ _ _).
Qed.

Lemma Forall2_compose_l {A B C} (P : A → B → Prop) (Q : B → C → Prop) (R : A → C → Prop) l1 l2 l3 :
  Forall2 P l1 l2 → Forall2 Q l2 l3 → (∀ x y z, x ∈ l1 → y ∈ l2 → P x y → Q y z → R x z) → Forall2 R l1 l3.
Proof.
  intros H. revert l3. induction H as [|x y l1 l2 Hxy _ IH]; intros l3 Hq HR; [by apply Forall2_nil_inv_l in Hq as ->|].
  apply Forall2_cons_inv_l in Hq as (z & l3' & Hyz & Hq & ->). constructor; [by eapply HR; [left|left|..]|].
  apply IH; [done|]. intros x' y' z' Hx Hy. apply HR; by right.
Qed.

(** The legs of a decision, below its leg count. *)
Lemma kernel_decision_legs spec views policy now_ns work q version p intent h :
  kernel_ran spec views policy now_ns work q version p → length (ks_legs spec) = kMaxFixedShapeKernelLegs →
  oi_leg_count intent = ks_leg_count spec →
  decision_legs (kernel_decision intent p h) = kernel_decision_leg <$> kp_legs p.
Proof.
  intros [Hcount _ Hread _ _ _ Hpriced _ _ _ _] Hlen Hn. apply Forall2_length in Hread, Hpriced.
  unfold spec_legs in Hread. rewrite length_take in Hread. unfold decision_legs.
  change (od_leg_count _) with (oi_leg_count intent).
  change (od_legs _) with (std_array kMaxOrderDecisionLegs decision_leg_lite0 (kernel_decision_leg <$> kp_legs p)).
  unfold std_array, kMaxOrderDecisionLegs, kMaxFixedShapeKernelLegs in *. rewrite Hn.
  rewrite (take_ge (kernel_decision_leg <$> _)) by (rewrite length_fmap; lia). rewrite take_app_le by (rewrite length_fmap; lia).
  by rewrite take_ge by (rewrite length_fmap; lia).
Qed.

(** Every leg of a run that decided is bought. *)
Lemma kernel_legs_bought spec views policy now_ns work q version p :
  fast_views_ok views → kernel_ran spec views policy now_ns work q version p →
  Forall2 (leg_bought views policy now_ns q) (spec_legs spec) (kernel_decision_leg <$> kp_legs p).
Proof.
  intros Hviews [Hcount _ Hread Hq Hsame [Hpos Hmax] Hpriced _ _ _ _]. apply Forall2_fmap_r.
  eapply (Forall2_compose_l _ _ _ _ _ _ Hread Hpriced). intros leg w pk _ Hw Hr Hp.
  destruct (leg_priced_exact _ _ _ _ _ _ _ Hviews Hpos Hr Hp) as (level & (_ & _ & Hl) & He & Hprice & Hplanned & Hc & _).
  destruct Hp as [Hwk Hpl _ _ _ _]. destruct Hr as [Hleg Hbuy _ Hv Hu _ _ _ _]. unfold leg_bought, kernel_decision_leg. cbn.
  exists (lw_depth w), level. rewrite Hwk, Hleg, Hc. cbn. rewrite Hpl, Hleg in *. split_and!; try done; [lia|].
  assert (Hall : ∀ x, x ∈ work → Z.quot (lw_executable_qty_lots x) (kl_ratio_qty_lots (lw_leg x)) = Z.quot (lw_executable_qty_lots w) (kl_ratio_qty_lots (lw_leg w)))
    by (intros x Hx; by apply Hsame).
  rewrite (foldl_min_same _ _ _ _ Hall) in Hq by (by intros ->; apply elem_of_nil in Hw). rewrite <- He, <- Hleg. lia.
Qed.

(** What a decision takes over from its intent, and an intent from its edge. *)
#[local] Opaque compute_order_decision_hash identity_intent_id nonzero_hash mix_u64 hash_depth_views.
Lemma kernel_decision_fields intent p h :
  let d := kernel_decision intent p h in
  od_type d = OtPaperOrderDecision ∧ od_chosen_bundle_qty d = oi_bundle_qty intent ∧
  od_estimated_total_cost_tick d = oi_estimated_cost_tick intent ∧ od_leg_count d = oi_leg_count intent ∧
  od_unit_edge_tick d = oi_unit_edge_tick intent ∧ od_total_edge_tick d = oi_total_edge_tick intent ∧
  od_edge_bps d = oi_edge_bps intent ∧ od_expires_at_ns d = oi_expires_at_ns intent ∧
  od_source_intent_id d = oi_intent_id intent ∧ od_bundle_id d = oi_bundle_id intent ∧
  od_snapshot_version_hash d = oi_snapshot_version_hash intent ∧ od_policy_hash d = h ∧
  compute_order_decision_hash d = od_decision_hash d.
Proof. intros d. by split_and!. Qed.

Lemma kernel_intent_fields spec p edge bundle_qty version hash now_ns paper :
  let intent := kernel_intent spec p edge bundle_qty version hash now_ns paper in
  oi_bundle_qty intent = bundle_qty ∧ oi_estimated_cost_tick intent = kp_total_cost_tick p ∧ oi_leg_count intent = ks_leg_count spec ∧
  oi_unit_edge_tick intent = er_unit_edge_tick edge ∧ oi_total_edge_tick intent = er_total_edge_tick edge ∧
  oi_edge_bps intent = er_edge_bps edge ∧ oi_expires_at_ns intent = wrap_u64 (now_ns + kernel_ttl_ns).
Proof. intros intent. split_and!; reflexivity. Qed.

(** The intent and the decision of a run that passes. *)
Lemma kernel_result_decided spec policy now_ns work bundle_qty version p :
  let edge := kernel_edge spec (ceil_div_positive (kp_total_cost_tick p) bundle_qty) bundle_qty in
  kernel_rejection spec policy p edge bundle_qty = DtPass →
  let k := kernel_result spec policy now_ns work bundle_qty version p in
  let intent := kernel_intent spec p edge bundle_qty version (kernel_snapshot_hash work) now_ns true in
  kx_order_decision k = kernel_decision intent p (rp_policy_hash policy) ∧ kx_intent k = intent.
Proof.
  intros edge H k intent. subst k. unfold kernel_result. fold edge. rewrite H. rewrite !bool_decide_true by done. done.
Qed.

(** The legs add up to the total, which is positive. *)
Lemma kernel_sum_cost spec views policy now_ns work q version p :
  fast_views_ok views → kernel_ran spec views policy now_ns work q version p → length (ks_legs spec) = kMaxFixedShapeKernelLegs →
  kp_total_cost_tick p = sum_list_Z dl_estimated_cost_tick (kernel_decision_leg <$> kp_legs p) ∧ 0 < kp_total_cost_tick p.
Proof.
  intros Hviews Hran Hlen. pose proof (kernel_legs_bought _ _ _ _ _ _ _ _ Hviews Hran) as Hlegs.
  destruct Hran as [Hcount _ _ _ _ _ _ [Hsum _] _ _ _].
  assert (Heq : sum_list_Z dl_estimated_cost_tick (kernel_decision_leg <$> kp_legs p) = sum_list_Z priced_cost (kp_legs p)).
  { clear. induction (kp_legs p) as [|pk l IH]; [done|]. cbn [fmap list_fmap sum_list_Z]. by rewrite IH. }
  rewrite Hsum, <- Heq. split; [done|]. pose proof (Forall2_length _ _ _ Hlegs) as Hlength.
  unfold spec_legs in Hlength at 1. rewrite length_take in Hlength. clear Heq Hsum.
  destruct (kernel_decision_leg <$> kp_legs p) as [|x l]; [cbn in Hlength; unfold kMaxFixedShapeKernelLegs in *; lia|].
  assert (Hall : ∀ y, y ∈ x :: l → 0 < dl_estimated_cost_tick y).
  { intros y Hy. apply list_elem_of_lookup in Hy as [i Hi].
    destruct (Forall2_lookup_r _ _ _ _ _ Hlegs Hi) as (leg & _ & view & level & _ & _ & _ & _ & _ & _ & _ & _ & -> & ? & ? & _). nia. }
  apply Z.lt_le_trans with (dl_estimated_cost_tick x); [apply Hall; left|].
  apply (sum_list_Z_elem_le dl_estimated_cost_tick (x :: l)); [|left]. intros y Hy. specialize (Hall y Hy). lia.
Qed.

(** C34. The kernel's decisions are exact.  A decision of the kernel buys, for
    every leg, what the bundles need from the single level of a usable view at
    its price, and no view allows another number of bundles; its cost is the sum
    of its legs, its edge is the payout less the average cost, it reaches every
    threshold of the specification, and it passes the decision checks of risk. *)
Theorem kernel_decision_exact spec views policy now_ns :
  fast_views_ok views → length (ks_legs spec) = kMaxFixedShapeKernelLegs →
  0 <= now_ns < u64_mod - kernel_ttl_ns → rp_policy_hash policy ≠ 0 →
  let k := kernel_run spec views policy now_ns in
  let d := kx_order_decision k in
  let q := od_chosen_bundle_qty d in
  kx_produced_order_decision k = true →
  Forall2 (leg_bought views policy now_ns q) (spec_legs spec) (decision_legs d) ∧
  od_estimated_total_cost_tick d = sum_list_Z dl_estimated_cost_tick (decision_legs d) ∧
  od_unit_edge_tick d = ks_guaranteed_payout_tick spec - ceil_div_positive (od_estimated_total_cost_tick d) q ∧
  od_total_edge_tick d = od_unit_edge_tick d * q ∧
  ks_min_unit_edge_tick spec <= od_unit_edge_tick d ∧ ks_min_total_edge_tick spec <= od_total_edge_tick d ∧
  ks_min_edge_bps spec <= od_edge_bps d ∧
  decision_ok (kx_intent k) d now_ns policy.
Proof.
  intros Hviews Hlen Hnow Hpolicy k d q Hd. subst d q k. pose proof (produced_not_fallback _ _ _ _ Hd) as Hf.
  apply kernel_run_inv in Hf as (work & q & version & p & Hran). pose proof (kernel_legs_bought _ _ _ _ _ _ _ _ Hviews Hran) as Hlegs.
  pose proof (kn_result _ _ _ _ _ _ _ _ Hran) as Hres. pose proof (kn_positive _ _ _ _ _ _ _ _ Hran) as [Hpos _].
  pose proof (kn_count _ _ _ _ _ _ _ _ Hran) as Hcount. rewrite Hres in *.
  rewrite kernel_result_decides in Hd. apply bool_decide_eq_true in Hd.
  destruct (kernel_result_decided _ _ now_ns work _ version _ Hd) as [-> ->]. set (edge := kernel_edge _ _ _) in *.
  set (intent := kernel_intent _ _ _ _ _ _ _ _). rewrite (kernel_decision_legs _ _ _ _ _ _ _ _ intent _ Hran Hlen eq_refl).
  destruct (kernel_sum_cost _ _ _ _ _ _ _ _ Hviews Hran Hlen) as [Hcost Hcpos].
  unfold kernel_rejection in Hd. step_if_in Hd; [done|]. step_if_in Hd; [done|]. apply edge_passes in Hd as (Hok & Hu & Ht & Hbps & _).
  pose proof (compute_edge_exact _ _ _ Hok) as (Hunit & Htotal & _).
  change (er_unit_edge_tick edge = ks_guaranteed_payout_tick spec - ceil_div_positive (kp_total_cost_tick p) q) in Hunit.
  change (er_total_edge_tick edge = (ks_guaranteed_payout_tick spec - ceil_div_positive (kp_total_cost_tick p) q) * q) in Htotal.
  destruct (kernel_intent_fields spec p edge q version (kernel_snapshot_hash work) now_ns true) as (Iq & Ic & Il & Iu & It & Ib & Ix).
  fold intent in Iq, Ic, Il, Iu, It, Ib, Ix.
  destruct (kernel_decision_fields intent p (rp_policy_hash policy)) as (Dt & Dq & Dc & Dl & Du & Dtt & Db & Dx & Di & Dbi & Ds & Dp & Dh).
  set (d := kernel_decision _ _ _) in *. clearbody d intent edge.
  rewrite Dq, Dc, Du, Dtt, Db, Iq, Ic, Iu, It, Ib. breflect. split_and!; try done; try lia.
  constructor; try done || lia.
  - rewrite Dl, Il. unfold kMaxOrderDecisionLegs, kMaxFixedShapeKernelLegs in *. lia.
  - rewrite Dx, Ix, wrap_u64_id by (unfold in_u64, kernel_ttl_ns in *; lia). unfold kernel_ttl_ns. lia.
  - rewrite Dp. unfold policy_hash_for. by rewrite (proj2 (Z.eqb_neq _ _)).
Qed.

Lemma quotient_margin a r q bps : 0 < r → 0 < q → 0 <= a → Z.quot a r = q → bps <= ratio_bps a (r * q) → bps * q <= 10000 * (q + 1).
Proof.
  intros Hr Hq Ha Hdiv Hm. rewrite Z.quot_div_nonneg in Hdiv by lia. pose proof (Z.mul_succ_div_gt a r Hr) as Hlt. rewrite Hdiv in Hlt.
  assert (Hrq : 0 < r * q) by nia. unfold ratio_bps in Hm. destruct (Z.eqb_spec (r * q) 0) as [E0|_]; [lia|]. cbv zeta in Hm.
  pose proof (Z.quot_pos (a * 10000) (r * q) ltac:(lia) Hrq). assert (Hv : bps <= Z.quot (a * 10000) (r * q)).
  { destruct (i64_max <? _) eqn:E1; [breflect; lia|]. destruct (_ <? i64_min) eqn:E2; [breflect; lia|]. done. }
  rewrite Z.quot_div_nonneg in Hv by lia. pose proof (Z.mul_div_le (a * 10000) (r * q) Hrq) as Hle.
  assert (bps * (r * q) < 10000 * (r * (q + 1))) by nia. nia.
Qed.

(** The kernel takes all the depth there is, so a margin of depth above one caps
    the number of bundles it can ever decide on: at most five under the 12000
    basis points of the default policy, whatever the books offer. *)
Lemma kernel_margin_caps_size spec views policy now_ns :
  fast_views_ok views → length (ks_legs spec) = kMaxFixedShapeKernelLegs →
  let k := kernel_run spec views policy now_ns in
  kx_produced_order_decision k = true → 0 < rp_min_depth_margin_bps policy →
  rp_min_depth_margin_bps policy * kx_bundle_qty k <= 10000 * (kx_bundle_qty k + 1).
Proof.
  intros Hviews Hlen k Hd Hbps. subst k. pose proof (produced_not_fallback _ _ _ _ Hd) as Hf.
  apply kernel_run_inv in Hf as (work & q & version & p & Hran). rewrite (kn_result _ _ _ _ _ _ _ _ Hran) in *.
  change (kx_bundle_qty _) with q. rewrite kernel_result_decides in Hd. apply bool_decide_eq_true in Hd.
  unfold kernel_rejection in Hd. destruct (kp_partial_fill_reject p) eqn:Hp; [done|].
  pose proof (kn_margin _ _ _ _ _ _ _ _ Hran) as Hm. pose proof (kn_positive _ _ _ _ _ _ _ _ Hran) as [Hpos _].
  pose proof (kernel_legs_bought _ _ _ _ _ _ _ _ Hviews Hran) as Hlegs. destruct Hran as [Hcount _ Hread _ _ _ Hpriced _ _ _ _].
  assert (Hne : spec_legs spec ≠ []).
  { intros E. apply (f_equal length) in E. unfold spec_legs in E. rewrite length_take in E. unfold kMaxFixedShapeKernelLegs in *. cbn in E. lia. }
  destruct (spec_legs spec) as [|leg legs]; [done|].
  apply Forall2_cons_inv_l in Hread as (w & work' & Hr & _ & ->). apply Forall2_cons_inv_l in Hpriced as (pk & ps & Hpk & _ & Eps).
  rewrite Eps in *. specialize (Hm pk Hp ltac:(left) Hbps). apply Forall2_cons_inv_l in Hlegs as (out & outs & Hb & _ & Eout).
  destruct (leg_priced_exact _ _ _ _ _ _ _ Hviews Hpos Hr Hpk) as (level & Hl & He & _ & Hpl & _ & _).
  destruct Hb as (view & level' & Hv & _ & Hl' & _ & _ & _ & _ & _ & _ & _ & _ & Hquot).
  pose proof (lr_view _ _ _ _ _ Hr) as Hv'. rewrite Hv in Hv'. injection Hv' as ->. destruct Hl as (_ & _ & Hl). rewrite Hl in Hl'. injection Hl' as <-.
  destruct Hpk as [_ Hplanned _ _ _ Hmargin]. rewrite Hmargin, He in Hm. rewrite (lr_leg _ _ _ _ _ Hr) in Hplanned.
  pose proof (lr_ratio _ _ _ _ _ Hr) as Hratio. rewrite Hplanned in *. set (r := kl_ratio_qty_lots leg) in *.
  apply (quotient_margin (level_available level) r); [done|done|apply level_available_range|done|done].
Qed.

(** ** A small bundle *)

Definition fast_level (price lots : positive) : PriceLevel := mkPriceLevel (Zpos price) d0_0 (double_of_pos lots).
Definition fast_book (levels : list PriceLevel) : list PriceLevel := std_array kMaxSnapshotDepth no_level levels.
(** Five bundles of two lots at 0.40 and one lot at 0.50. *)
Definition fast_views : list MarketDepthView :=
  [demo_view 1 (fast_book [fast_level 400000 10]) 1; demo_view 2 (fast_book [fast_level 500000 5]) 1].
Definition fast_spec : FixedShapeKernelSpec :=
  let spec := kernel_spec0 <| ks_artifact_hash := 5 |> <| ks_bundle_hash := 6 |> <| ks_constraint_hash := 4 |> <| ks_bundle_id := 9 |>
    <| ks_leg_count := 2%nat |>
    <| ks_legs := std_array kMaxFixedShapeKernelLegs kernel_leg0 [mkKernelLeg 1 0 Buy 2; mkKernelLeg 2 0 Buy 1] |>
    <| ks_guaranteed_payout_tick := 1400000 |> <| ks_min_bundle_qty := 1 |> in
  spec <| ks_kernel_spec_hash := hash_fixed_shape_kernel_spec spec |>.
Definition fast_policy : RiskPolicySnapshot := policy0 <| rp_policy_hash := 77 |> <| rp_min_depth_margin_bps := 0 |>.
Definition empty_ledger : RiskLedgerSnapshot := book_snapshot book0.

Lemma fast_views_are_ok : fast_views_ok fast_views.
Proof. unfold fast_views_ok, fast_views. repeat constructor; unfold kMaxSnapshotDepth; cbn; lia. Qed.

Lemma kernel_matches_reference_witness :
  let r := reference_generic_decision fast_spec fast_views fast_policy empty_ledger 500 in
  ds_bundle_qty r = 5 ∧ ds_total_cost_tick r = 6500000 ∧ ds_produced_plan r = true.
Proof.
  assert (Hf : kx_fallback_required (kernel_run fast_spec fast_views fast_policy 500) = false) by (vm_compute; reflexivity).
  pose proof (kernel_matches_reference fast_spec fast_views fast_policy empty_ledger 500 fast_views_are_ok Hf) as H.
  cbv zeta in H |- *. destruct H as (_ & Heq & _ & _ & _).
  assert (Hk : kx_bundle_qty (kernel_run fast_spec fast_views fast_policy 500) = 5 ∧
               kx_total_cost_tick (kernel_run fast_spec fast_views fast_policy 500) = 6500000) by (vm_compute; split; reflexivity).
  destruct Hk as [Hq Hc]. rewrite Hq, Hc in Heq. apply pair_eq in Heq as [Heq Ec]. apply pair_eq in Heq as [_ Eq]. split; [exact Eq|]. split; [exact Ec|]. vm_compute. reflexivity.
Defined.

Lemma kernel_decision_exact_witness :
  let d := kx_order_decision (kernel_run fast_spec fast_views fast_policy 500) in
  od_unit_edge_tick d = 100000 ∧ od_total_edge_tick d = 500000.
Proof.
  assert (Hd : kx_produced_order_decision (kernel_run fast_spec fast_views fast_policy 500) = true) by (vm_compute; reflexivity).
  assert (Hnow : 0 <= 500 < u64_mod - kernel_ttl_ns) by (unfold kernel_ttl_ns; lia).
  assert (Hp : rp_policy_hash fast_policy ≠ 0) by (vm_compute; discriminate).
  pose proof (kernel_decision_exact fast_spec fast_views fast_policy 500 fast_views_are_ok eq_refl Hnow Hp Hd) as H.
  cbv zeta in H |- *. destruct H as (_ & _ & Hu & Ht & _).
  assert (Hq : od_chosen_bundle_qty (kx_order_decision (kernel_run fast_spec fast_views fast_policy 500)) = 5 ∧
    od_estimated_total_cost_tick (kx_order_decision (kernel_run fast_spec fast_views fast_policy 500)) = 6500000)
    by (vm_compute; split; reflexivity).
  destruct Hq as [Hq Hc]. cbv zeta in Hu, Ht. rewrite Hq, Hc in Hu. rewrite Hq, Hu in Ht. split; [exact Hu|exact Ht].
Defined.

(** Under the default margin of depth six bundles are too many, five are not. *)
Example default_margin_rejects :
  let policy := fast_policy <| rp_min_depth_margin_bps := 12000 |> in
  let views n := [demo_view 1 (fast_book [fast_level 400000 (2 * n)]) 1; demo_view 2 (fast_book [fast_level 500000 n]) 1] in
  kx_risk_reject_reason (kernel_run fast_spec (views 6%positive) policy 500) = RrPartialFillRisk.
Proof. vm_compute. reflexivity. Qed.

(** A bundle over the cost limit is a rejected opportunity to the kernel and an
    accepted one to the reference, which would call that a mismatch. *)
Example cost_limit_status_differs :
  let policy := fast_policy <| rp_max_total_cost_tick := 6000000 |> in
  let k := kernel_run fast_spec fast_views policy 500 in
  let r := reference_generic_decision fast_spec fast_views policy empty_ledger 500 in
  (kx_risk_reject_reason k, ds_risk_reject_reason r) = (RrCostLimit, RrCostLimit) ∧
  (oi_status (kx_intent k), ds_intent_status r) = (IsRejectedLowEdge, IsPaperOpportunity) ∧
  dr_first_mismatch (compare_decision_snapshots (snapshot_from_fast_kernel k) r) = "opportunity_hash"%string.
Proof. vm_compute. auto. Qed.
