(* ===== verification/FastPipeline.v ===== *)
(** * FastPipeline: the fast path from a dirty asset to a plan

    [engine/decision_fastpath/core/EventLocalDecisionPipeline.cpp].  When the book
    of an asset changes the pipeline runs the kernel on every bundle that contains
    the asset, passes what it decides through risk and the planner, keeps the
    candidate with the largest edge, compares it with the decision of the generic
    engine as the rollout mode asks, and counts mismatches until it switches
    itself off.  The line it prints on a mismatch is I/O.

    The generic engine is the one of [OrderDecisionEngine], which runs on fuel:
    [process] returns an option, and [process_returns] shows that it is not [None]
    for views that can be sized.  [pipeline_output_safe] says what may leave the
    pipeline, and [mismatches_disable] when it switches itself off. *)

From S2P Require Import Prelude Hashing Decimals Doubles FixedPoint Depth RiskTypes ReservationBook RiskGuards RiskPipeline Bundles OrderDecision RiskEngine CostCurve SizeCandidates OrderDecisionCache SizeOptimizer OrderDecisionEngine ExecutionTypes ExecutionPlan SignalTypes FastPath FastKernel.
#[local] Open Scope Z_scope.

(** ** Configuration, input, result and state *)

(** [engine/decision_fastpath/core/EventLocalDecisionPipeline.h:20-25] FastPathMode. *)
Inductive FastPathMode := FmDisabled | FmShadowCompare | FmVerifiedPaper | FmPaperAuthoritative.
#[export] Instance FastPathMode_eq_dec : EqDecision FastPathMode.
Proof. solve_decision. Defined.

(** The literal [0.01]. *)
Definition d0_01 : double := S754_finite false 5764607523034235 (-59).

(** [engine/decision_fastpath/core/EventLocalDecisionPipeline.h:29-42] FastPathConfig. *)
Record FastPathConfig := mkFastPathConfig {
  fpc_mode : FastPathMode;
  fpc_enable_fixed_buy_kernel : bool;
  fpc_enable_simd : bool;
  fpc_max_mismatches_before_disable : Z;
  fpc_sample_verify_rate : double;
  fpc_require_kernel_spec_hash_match : bool;
  fpc_require_artifact_hash_match : bool;
  fpc_require_policy_hash_match : bool
}.
Definition fast_path_config0 : FastPathConfig := mkFastPathConfig FmDisabled false false 1 d0_01 true true true.

(** [engine/decision_fastpath/core/EventLocalDecisionPipeline.h:44-66] EventLocalDecisionPipelineConfig. *)
Record EventLocalDecisionPipelineConfig := mkPipelineConfig {
  edc_expected_artifact_hash : Z;
  edc_expected_constraint_hash : Z;
  edc_expected_policy_hash : Z;
  edc_intent_ttl_ns : Z;
  edc_fee_per_bundle_tick : Z;
  edc_latency_buffer_per_bundle_tick : Z;
  edc_slippage_buffer_per_bundle_tick : Z;
  edc_max_supported_legs : nat;
  edc_fast_path : FastPathConfig;
  edc_mode : FastPathMode;
  edc_fast_path_enabled : bool;
  edc_periodic_sample_verification_enabled : bool;
  edc_sample_verification_interval : Z
}.
Definition pipeline_config0 : EventLocalDecisionPipelineConfig :=
  mkPipelineConfig 0 0 0 1000000000 0 0 0 kMaxFixedShapeKernelLegs fast_path_config0 FmDisabled false true 1024.

(** [engine/decision_fastpath/core/EventLocalDecisionPipeline.h:69-82] EventLocalInput; null pointers are [None]. *)
Record EventLocalInput := mkEventLocalInput {
  ev_now_ns : Z;
  ev_dirty_asset_index : Z;
  ev_depth_views : option (list MarketDepthView);
  ev_depth_view_count : nat;
  ev_policy : option RiskPolicySnapshot;
  ev_ledger : option RiskLedgerSnapshot;
  ev_current_true_mask : Z;
  ev_current_false_mask : Z
}.

(** The four hashes a result holds of each path. *)
Record PathHashes := mkPathHashes { ph_opportunity : Z; ph_risk : Z; ph_plan : Z; ph_combined : Z }.
Definition path_hashes0 : PathHashes := mkPathHashes 0 0 0 0.
Definition hashes_of (s : DecisionPathSnapshot) : PathHashes :=
  mkPathHashes (ds_opportunity_hash s) (ds_risk_hash s) (ds_plan_hash s) (ds_combined_hash s).

(** [engine/decision_fastpath/core/EventLocalDecisionPipeline.h:83-117] FastPathResult. *)
Record FastPathResult := mkFastPathResult {
  fr_produced_plan : bool;
  fr_fallback_required : bool;
  fr_mode : FastPathMode;
  fr_publish_allowed : bool;
  fr_reservation_allowed : bool;
  fr_generic_verification_required : bool;
  fr_authoritative : bool;
  fr_sample_verification_required : bool;
  fr_generic_comparison_performed : bool;
  fr_mismatch : bool;
  fr_fast_hashes : PathHashes;
  fr_generic_hashes : PathHashes;
  fr_generic_output_hash : Z;
  fr_mismatch_reason : string;
  fr_intent : OpportunityIntent;
  fr_order_decision : OrderDecisionLite;
  fr_decision : RiskDecision;
  fr_approved : ApprovedIntent;
  fr_plan : OrderPlan;
  fr_output_hash : Z;
  fr_reject_reason : FastPathRejectReason
}.
Definition fast_path_result0 : FastPathResult :=
  mkFastPathResult false false FmDisabled false false true false false false false path_hashes0 path_hashes0 0 "" intent0
    order_decision_lite0 decision0 approved_intent0 order_plan0 0 FpNone.

(** [engine/decision_fastpath/core/EventLocalDecisionPipeline.h:119-125] FastPathRuntimeState. *)
Record FastPathRuntimeState := mkRuntimeState {
  frs_disabled : bool;
  frs_mismatch_count : Z;
  frs_last_fast_hash : Z;
  frs_last_generic_hash : Z;
  frs_last_mismatch_reason : string
}.
Definition runtime_state0 : FastPathRuntimeState := mkRuntimeState false 0 0 0 "".

(** ** Hashes and modes *)

(** The masks and the asset an output hash starts from. *)
Definition mix_event (input : EventLocalInput) : Z :=
  foldl mix_u64 fnv_offset [ev_dirty_asset_index input; ev_current_true_mask input; ev_current_false_mask input].

(** [engine/decision_fastpath/core/EventLocalDecisionPipeline.cpp:41-59] fallback_result. *)
Definition fallback_result (input : EventLocalInput) (reason : FastPathRejectReason) (mode : FastPathMode) : FastPathResult :=
  fast_path_result0 <| fr_mode := mode |> <| fr_fallback_required := true |> <| fr_generic_verification_required := true |>
    <| fr_reject_reason := reason |>
    <| fr_output_hash := nonzero_hash (foldl mix_byte (mix_event input) [1; fast_reject_value reason]) |>.

(** [engine/decision_fastpath/core/EventLocalDecisionPipeline.cpp:61-67] explicit_fast_path_config. *)
Definition explicit_fast_path_config (config : EventLocalDecisionPipelineConfig) : bool :=
  negb (bool_decide (fpc_mode (edc_fast_path config) = FmDisabled)) || fpc_enable_fixed_buy_kernel (edc_fast_path config) ||
  fpc_enable_simd (edc_fast_path config).

(** The quotient [1.0 / interval] of a positive interval. *)
Definition one_over (interval : Z) : double := SFdiv prec64 emax64 d1_0 (double_of_pos (Z.to_pos interval)).

(** [engine/decision_fastpath/core/EventLocalDecisionPipeline.cpp:69-96] effective_fast_path_config. *)
Definition effective_fast_path_config (config : EventLocalDecisionPipelineConfig) : FastPathConfig :=
  let fast_path := edc_fast_path config in
  if explicit_fast_path_config config then fast_path
  else
    mkFastPathConfig (if edc_fast_path_enabled config then edc_mode config else FmDisabled) (edc_fast_path_enabled config) false
      (fpc_max_mismatches_before_disable fast_path)
      (if edc_periodic_sample_verification_enabled config && (0 <? edc_sample_verification_interval config)
       then one_over (edc_sample_verification_interval config) else S754_zero false)
      (fpc_require_kernel_spec_hash_match fast_path) (fpc_require_artifact_hash_match fast_path)
      (fpc_require_policy_hash_match fast_path).

(** [std::clamp] between 0.0 and 1.0. *)
Definition clamp_unit (x : double) : double :=
  if double_lt x (S754_zero false) then S754_zero false else if double_lt d1_0 x then d1_0 else x.

(** [engine/decision_fastpath/core/EventLocalDecisionPipeline.cpp:139-146] apply_rollout_policy: the outputs that are sampled. *)
Definition is_sampled (rate : double) (output_hash : Z) : bool :=
  output_hash mod 1000000 <? ceil_Z (double_mul (clamp_unit rate) (double_of_pos 1000000)).

(** [engine/decision_fastpath/core/EventLocalDecisionPipeline.cpp:98-151] apply_rollout_policy. *)
Definition apply_rollout_policy (fast_path : FastPathConfig) (result : FastPathResult) : FastPathResult :=
  let mode := fpc_mode fast_path in
  let plan := fr_produced_plan result in
  let put publish reservation verify authoritative sample :=
    result <| fr_mode := mode |> <| fr_publish_allowed := publish |> <| fr_reservation_allowed := reservation |>
      <| fr_generic_verification_required := verify |> <| fr_authoritative := authoritative |>
      <| fr_sample_verification_required := sample |> in
  if fr_fallback_required result then put false false true false false
  else
    match mode with
    | FmDisabled | FmShadowCompare => put false false true false false
    | FmVerifiedPaper => put plan false true false false
    | FmPaperAuthoritative =>
        let sample := plan && double_lt (S754_zero false) (fpc_sample_verify_rate fast_path) &&
                      is_sampled (fpc_sample_verify_rate fast_path) (fr_output_hash result) in
        put plan plan sample plan sample
    end.

(** [engine/decision_fastpath/core/EventLocalDecisionPipeline.cpp:153-168] pipeline_output_hash; the kernel never produces a plan. *)
Definition pipeline_output_hash (input : EventLocalInput) (kernel_output_hash : Z) (fallback_required : bool)
    (reject_reason : FastPathRejectReason) : Z :=
  nonzero_hash (foldl mix_byte (mix_u64 (mix_event input) kernel_output_hash)
    [0; bit fallback_required; fast_reject_value reject_reason]).

(** ** Names *)

(** [std::to_string] of an unsigned integer. *)
Definition to_string (n : Z) : string := pretty (Z.to_N n).

(** [engine/decision_fastpath/core/EventLocalDecisionPipeline.cpp:180-189] materialize_execution_strings: one leg. *)
Definition materialize_leg (decision : OrderDecisionLite) (i : nat) (leg : IntentLeg) : IntentLeg :=
  let market_index := dl_market_index (nth i (od_legs decision) decision_leg_lite0) in
  let leg := if String.eqb (il_market_id leg) "" then leg <| il_market_id := ("market_" ++ to_string market_index)%string |> else leg in
  if String.eqb (il_asset_id leg) "" then leg <| il_asset_id := ("asset_" ++ to_string (il_asset_index leg))%string |> else leg.

(** [engine/decision_fastpath/core/EventLocalDecisionPipeline.cpp:170-190] materialize_execution_strings. *)
Definition materialize_execution_strings (decision : OrderDecisionLite) (intent : OpportunityIntent) : OpportunityIntent :=
  let intent :=
    if String.eqb (oi_idempotency_key intent) "" then intent <| oi_idempotency_key := to_string (oi_idempotency_hash intent) |>
    else intent in
  intent <| oi_legs := imap (materialize_leg decision) (intent_legs intent) ++ drop (oi_leg_count intent) (oi_legs intent) |>.

(** [engine/decision_fastpath/core/EventLocalDecisionPipeline.cpp:200-208] bundle_from_spec: one leg. *)
Definition bundle_leg_from_spec (leg : KernelLeg) : BundleLeg :=
  mkBundleLeg ("market_" ++ to_string (kl_market_index leg)) ("asset_" ++ to_string (kl_asset_index leg)) (kl_side leg)
    (kl_ratio_qty_lots leg) 0.

(** [engine/decision_fastpath/core/EventLocalDecisionPipeline.cpp:192-210] bundle_from_spec. *)
Definition bundle_from_spec (spec : FixedShapeKernelSpec) : CandidateBundle :=
  candidate_bundle0 <| cb_bundle_id := ks_bundle_id spec |> <| cb_guaranteed_payout_tick := ks_guaranteed_payout_tick spec |>
    <| cb_min_edge_tick := ks_min_unit_edge_tick spec |> <| cb_leg_count := ks_leg_count spec |>
    <| cb_legs := std_array kMaxBundleLegs bundle_leg0 (bundle_leg_from_spec <$> spec_legs spec) |>.

(** ** Why a decision was refused *)

(** [engine/decision_fastpath/core/EventLocalDecisionPipeline.cpp:212-235] risk_reason_for a type. *)
Definition risk_reason_for_type (type : OrderDecisionType) : RiskRejectReason :=
  match type with
  | OtRejectLowEdge => RrLowTotalEdge
  | OtRejectNoDepth | OtRejectPartialFillRisk => RrPartialFillRisk
  | OtRejectExpiredIntent => RrExpiredIntent
  | OtRejectRiskBudget => RrCostLimit
  | _ => RrInvalidIntent
  end.

(** The three thresholds an edge can miss, as the optimiser counts them. *)
Record EdgeRejects := mkEdgeRejects { ej_unit : bool; ej_total : bool; ej_bps : bool }.
Definition edge_rejects0 : EdgeRejects := mkEdgeRejects false false false.

(** [engine/order_decision/sizing/BundleSizeOptimizer.cpp:516-596] optimize: what [evaluate_candidate] adds to its counters. *)
Definition candidate_rejects (legs : list SizeLeg) (policy : RiskPolicySnapshot) (config : OrderDecisionConfig)
    (guaranteed min_bundle_qty : Z) (s : Search) (q : Z) (e : EdgeRejects) : EdgeRejects :=
  if q <? min_bundle_qty then e
  else
    match advance_incremental_state legs policy q (se_state s) with
    | AdvanceOk state =>
        match bundle_total_cost config q (ie_total_leg_cost_tick state) with
        | Some total_cost =>
            if (0 <? rp_max_total_cost_tick policy) && (rp_max_total_cost_tick policy <? total_cost) then e
            else
              match edge_point guaranteed q total_cost with
              | Some p =>
                  mkEdgeRejects (ej_unit e || (ep_unit_edge_tick p <? rp_min_post_risk_unit_edge_tick policy))
                    (ej_total e || (ep_total_edge_tick p <? rp_min_post_risk_total_edge_tick policy))
                    (ej_bps e || (ep_edge_bps p <? rp_min_edge_bps policy))
              | None => e
              end
        | None => e
        end
    | _ => e
    end.

(** [engine/order_decision/sizing/BundleSizeOptimizer.cpp:641-653] optimize: the counters after the sizes [seen]. *)
Fixpoint collect_rejects (legs : list SizeLeg) (policy : RiskPolicySnapshot) (config : OrderDecisionConfig)
    (guaranteed min_bundle_qty : Z) (s : Search) (seen : list Z) (e : EdgeRejects) : EdgeRejects :=
  match seen with
  | [] => e
  | q :: rest =>
      collect_rejects legs policy config guaranteed min_bundle_qty (evaluate_candidate legs policy config guaranteed min_bundle_qty s q)
        rest (candidate_rejects legs policy config guaranteed min_bundle_qty s q e)
  end.

(** [engine/order_decision/sizing/BundleSizeOptimizer.cpp:464-653] optimize: the counters of a search without a cache.  They are kept
    apart from the search itself, which does not read them. *)
Definition eval_rejects (intent : OpportunityIntent) (bundle : CandidateBundle) (depth_views : list MarketDepthView)
    (policy : RiskPolicySnapshot) (config : OrderDecisionConfig) : EdgeRejects :=
  match prepare_legs intent depth_views 0 (bundle_legs bundle) with
  | inl _ => edge_rejects0
  | inr legs =>
      let min_bundle_qty := Z.max 1 (dc_min_bundle_qty config) in
      let guaranteed := guaranteed_per_bundle intent bundle in
      let s := new_search (length legs) in
      let input := enumeration_input legs min_bundle_qty config in
      match evaluate_stream cursor_fuel (evaluate_candidate legs policy config guaranteed min_bundle_qty) input (new_cursor input) s with
      | None => edge_rejects0
      | Some (_, seen) => collect_rejects legs policy config guaranteed min_bundle_qty s seen edge_rejects0
      end
  end.

(** [engine/decision_fastpath/core/EventLocalDecisionPipeline.cpp:238-253] risk_reason_for a result. *)
Definition risk_reason_for (reason : OrderDecisionType) (rejects : EdgeRejects) : RiskRejectReason :=
  if bool_decide (reason = OtRejectLowEdge) then
    if ej_unit rejects then RrLowUnitEdge
    else if ej_total rejects then RrLowTotalEdge
    else if ej_bps rejects then RrLowEdgeBps
    else risk_reason_for_type reason
  else risk_reason_for_type reason.

(** ** Risk and plan *)

(** [engine/decision_fastpath/core/EventLocalDecisionPipeline.cpp:267-279] complete_risk_and_plan: what the risk engine, made for this
    call, is asked. *)
Definition pipeline_risk_input (input : EventLocalInput) (policy : RiskPolicySnapshot) (intent : OpportunityIntent) : RiskInputView :=
  input0 <| ri_intent := Some intent |> <| ri_depth_views := ev_depth_views input |> <| ri_depth_view_count := ev_depth_view_count input |>
    <| ri_snapshot_version_hash := oi_snapshot_version_hash intent |> <| ri_now_ns := ev_now_ns input |>
    <| ri_policy := Some policy |> <| ri_ledger := ev_ledger input |>.

(** [engine/decision_fastpath/core/EventLocalDecisionPipeline.cpp:286-290] complete_risk_and_plan: the approval with its reservation. *)
Definition approved_of (r : RiskPipelineResult) : ApprovedIntent :=
  if res_reservation_id (pr_reservation r) =? 0 then pr_approved_intent r
  else (pr_approved_intent r) <| ai_reservation_id_hash := res_reservation_id (pr_reservation r) |>.

(** [engine/decision_fastpath/core/EventLocalDecisionPipeline.cpp:255-313] complete_risk_and_plan. *)
Definition complete_risk_and_plan (input : EventLocalInput) (risk_policy : RiskPolicySnapshot) (result : FastPathResult) : FastPathResult :=
  if negb (bool_decide (od_type (fr_order_decision result) = OtPaperOrderDecision)) then result
  else
    let intent := materialize_execution_strings (fr_order_decision result) (fr_intent result) in
    let engine := new_engine (runtime0 <| rx_policy := Some risk_policy |>) in
    let '(_, risk_result, _) :=
      evaluate_decision engine intent (fr_order_decision result) (pipeline_risk_input input risk_policy intent) false false in
    let approved := approved_of risk_result in
    let result := result <| fr_intent := intent |> <| fr_decision := pr_decision risk_result |> <| fr_approved := approved |> in
    if negb (decision_approved (pr_decision risk_result)) || negb (approved_intent_valid approved) then result
    else
      match build_plan (make_approved_order_decision_envelope approved (fr_order_decision result) (ev_now_ns input)) (ev_now_ns input)
              execution_config0 with
      | inl _ => result
      | inr plan => result <| fr_plan := plan |> <| fr_produced_plan := true |>
      end.

(** ** Snapshots of results *)

(** [engine/decision_fastpath/core/DifferentialVerifier.cpp:415-439] snapshot_from_fast_result. *)
Definition snapshot_from_fast_result (r : FastPathResult) : DecisionPathSnapshot :=
  finalize (mkPathSnapshot (negb (oi_intent_id (fr_intent r) =? 0) || negb (oi_bundle_id (fr_intent r) =? 0)) (fr_produced_plan r)
    (fr_fallback_required r) (fr_reject_reason r) (oi_status (fr_intent r))
    (if fr_fallback_required r then RrNone else rd_reject_reason (fr_decision r))
    (oi_bundle_id (fr_intent r)) (oi_bundle_qty (fr_intent r)) (oi_estimated_cost_tick (fr_intent r)) (oi_unit_edge_tick (fr_intent r))
    (oi_total_edge_tick (fr_intent r)) (oi_edge_bps (fr_intent r)) (Z.of_nat (op_order_count (fr_plan r)))
    (od_decision_hash (fr_order_decision r)) (op_plan_id (fr_plan r)) 0 0 0 0 0).

(** [engine/decision_fastpath/core/EventLocalDecisionPipeline.cpp:336-338] apply_fast_hashes_from_result, with apply_fast_hashes. *)
Definition apply_fast_hashes (result : FastPathResult) : FastPathResult :=
  result <| fr_fast_hashes := hashes_of (snapshot_from_fast_result result) |>.

(** [engine/decision_fastpath/core/EventLocalDecisionPipeline.cpp:325-334] apply_generic_hashes. *)
Definition apply_generic_hashes (snapshot : DecisionPathSnapshot) (result : FastPathResult) : FastPathResult :=
  result <| fr_generic_hashes := hashes_of snapshot |> <| fr_generic_output_hash := ds_combined_hash snapshot |>.

(** The approval without its reservation. *)
Definition unreserved (approved : ApprovedIntent) : ApprovedIntent :=
  approved <| ai_reservation_id := ""%string |> <| ai_reservation_id_hash := 0 |>.

(** [engine/decision_fastpath/core/EventLocalDecisionPipeline.cpp:340-347] clear_non_authoritative_reservation. *)
Definition clear_non_authoritative_reservation (result : FastPathResult) : FastPathResult :=
  result <| fr_reservation_allowed := false |> <| fr_approved ::= unreserved |>.

(** ** One candidate *)

(** The risk decision of an intent that was not decided on. *)
Definition refused_decision (reason : RiskRejectReason) (intent : OpportunityIntent) (policy : option RiskPolicySnapshot) : RiskDecision :=
  let d := decision0 <| rd_status := DsRejected |> <| rd_reject_reason := reason |> <| rd_intent_id := oi_intent_id intent |>
    <| rd_bundle_id := oi_bundle_id intent |> <| rd_idempotency_hash := oi_idempotency_hash intent |>
    <| rd_oracle_artifact_hash := oi_oracle_artifact_hash intent |> <| rd_constraint_hash := oi_constraint_hash intent |>
    <| rd_bundle_hash := oi_bundle_hash intent |> <| rd_snapshot_version_hash := oi_snapshot_version_hash intent |> in
  match policy with
  | Some policy => d <| rd_policy_version := rp_policy_version policy |> <| rd_policy_hash := rp_policy_hash policy |>
  | None => d
  end.

(** The copy of the policy that risk is asked with. *)
Definition without_skew (policy : RiskPolicySnapshot) : RiskPolicySnapshot := policy <| rp_max_snapshot_skew_ns := i64_max |>.

(** [engine/decision_fastpath/core/EventLocalDecisionPipeline.cpp:354-385] copy_kernel_result: the result up to its plan. *)
Definition decide_kernel_result (input : EventLocalInput) (kernel_result : FastKernelResult) (fast_path : FastPathConfig) : FastPathResult :=
  let result := fast_path_result0 <| fr_mode := fpc_mode fast_path |> <| fr_fallback_required := kx_fallback_required kernel_result |>
    <| fr_reject_reason := kx_reject_reason kernel_result |> <| fr_intent := kx_intent kernel_result |>
    <| fr_order_decision := kx_order_decision kernel_result |> in
  if kx_fallback_required kernel_result then result
  else if kx_produced_order_decision kernel_result then
    match ev_policy input with
    | Some policy => complete_risk_and_plan input (without_skew policy) result
    | None => result
    end
  else if kx_produced_intent kernel_result then
    result <| fr_decision := refused_decision (kx_risk_reject_reason kernel_result) (fr_intent result) (ev_policy input) |>
  else result.

(** [engine/decision_fastpath/core/EventLocalDecisionPipeline.cpp:395-401] copy_kernel_result: the reservation of a result. *)
Definition settle_reservation (result : FastPathResult) : FastPathResult :=
  if fr_reservation_allowed result && negb (op_reservation_id (fr_plan result) =? 0) then
    result <| fr_approved ::= λ a, a <| ai_decision := fr_decision result |> <| ai_reservation_id_hash := op_reservation_id (fr_plan result) |> |>
  else result <| fr_approved ::= unreserved |>.

(** [engine/decision_fastpath/core/EventLocalDecisionPipeline.cpp:349-404] copy_kernel_result. *)
Definition copy_kernel_result (input : EventLocalInput) (kernel_result : FastKernelResult) (fast_path : FastPathConfig) : FastPathResult :=
  let result := decide_kernel_result input kernel_result fast_path in
  let result := result <| fr_output_hash :=
    pipeline_output_hash input (kx_output_hash kernel_result) (fr_fallback_required result) (fr_reject_reason result) |> in
  let result := apply_rollout_policy fast_path result in
  apply_fast_hashes (settle_reservation result).

(** [engine/decision_fastpath/core/EventLocalDecisionPipeline.cpp:406-411] should_verify_generic. *)
Definition should_verify_generic (result : FastPathResult) : bool :=
  fr_generic_verification_required result || fr_sample_verification_required result.

(** ** The generic decision *)

(** [engine/decision_fastpath/core/EventLocalDecisionPipeline.cpp:431-438] generic_order_decision_result: one leg of the intent. *)
Definition intent_leg_from_spec (leg : KernelLeg) (target : IntentLeg) : IntentLeg :=
  let source := bundle_leg_from_spec leg in
  target <| il_market_id := bl_market_id source |> <| il_asset_id := bl_asset_id source |> <| il_asset_index := kl_asset_index leg |>
    <| il_side := kl_side leg |> <| il_quantity_lots := kl_ratio_qty_lots leg |>.

(** [engine/decision_fastpath/core/EventLocalDecisionPipeline.cpp:421-438] generic_order_decision_result: the intent that is decided. *)
Definition generic_intent (spec : FixedShapeKernelSpec) (source_intent : OpportunityIntent) : OpportunityIntent :=
  source_intent <| oi_status := IsPaperOpportunity |> <| oi_reject_code := IrcNone |> <| oi_leg_count := ks_leg_count spec |>
    <| oi_legs := zip_with intent_leg_from_spec (spec_legs spec) (oi_legs source_intent) ++ drop (ks_leg_count spec) (oi_legs source_intent) |>.

(** [engine/decision_fastpath/core/EventLocalDecisionPipeline.cpp:476-481] generic_order_decision_result: one leg of the decision. *)
Definition decision_leg_from_spec (leg : KernelLeg) (target : OrderDecisionLegLite) : OrderDecisionLegLite :=
  let target := target <| dl_market_index := kl_market_index leg |> in
  if dl_asset_index target =? 0 then target <| dl_asset_index := kl_asset_index leg |> else target.

(** [engine/decision_fastpath/core/EventLocalDecisionPipeline.cpp:475-487] generic_order_decision_result: the decision with the indices
    of the specification; the loop runs over the legs of the decision, within the slots of the specification. *)
Definition generic_order_decision (spec : FixedShapeKernelSpec) (decision : OrderDecisionLite) : OrderDecisionLite :=
  seal_decision (decision <| od_legs :=
    zip_with decision_leg_from_spec (take (od_leg_count decision) (ks_legs spec)) (od_legs decision) ++
    drop (od_leg_count decision) (od_legs decision) |>).

(** [engine/decision_fastpath/core/EventLocalDecisionPipeline.cpp:413-497] generic_order_decision_result. *)
Definition generic_order_decision_result (input : EventLocalInput) (spec : FixedShapeKernelSpec) (source_intent : OpportunityIntent)
    (depth_views : list MarketDepthView) (policy : RiskPolicySnapshot) (mode : FastPathMode) : option FastPathResult :=
  let intent := generic_intent spec source_intent in
  let bundle := bundle_from_spec spec in
  let result := fast_path_result0 <| fr_mode := mode |> <| fr_intent := intent |> in
  '(_, decision_result) ←
    engine_decide (new_decision_engine order_decision_config0) intent bundle depth_views policy (ev_now_ns input);
  match decision_result with
  | inl (reason, _) =>
      let intent := intent <| oi_status := IsRejectedLowEdge |> in
      let rejects := eval_rejects (fr_intent result) bundle depth_views policy order_decision_config0 in
      Some (apply_fast_hashes (result <| fr_intent := intent |>
        <| fr_decision := refused_decision (risk_reason_for reason rejects) intent (Some policy) |>
        <| fr_output_hash := nonzero_hash (oi_intent_id intent) |>))
  | inr decision =>
      let result := complete_risk_and_plan input policy (result <| fr_order_decision := generic_order_decision spec decision |>) in
      Some (apply_fast_hashes (result <| fr_output_hash :=
        nonzero_hash (if fr_produced_plan result then op_plan_id (fr_plan result) else od_decision_hash (fr_order_decision result)) |>))
  end.

(** ** Mismatches *)

(** [engine/decision_fastpath/core/EventLocalDecisionPipeline.cpp:535-539] suppress_fast_output_for_mismatch: the state. *)
Definition count_mismatch (diff : DifferentialCompareResult) (state : FastPathRuntimeState) : FastPathRuntimeState :=
  mkRuntimeState true (wrap_u64 (frs_mismatch_count state + 1)) (ds_combined_hash (dr_fast diff)) (ds_combined_hash (dr_generic diff))
    (dr_first_mismatch diff).

(** The hashes of a comparison in a result. *)
Definition put_diff (diff : DifferentialCompareResult) (result : FastPathResult) : FastPathResult :=
  result <| fr_generic_comparison_performed := true |> <| fr_fast_hashes := hashes_of (dr_fast diff) |>
    <| fr_generic_hashes := hashes_of (dr_generic diff) |> <| fr_generic_output_hash := ds_combined_hash (dr_generic diff) |>.

(** [engine/decision_fastpath/core/EventLocalDecisionPipeline.cpp:541-563] suppress_fast_output_for_mismatch: the result; the order
    decision stays. *)
Definition suppressed (diff : DifferentialCompareResult) (result : FastPathResult) : FastPathResult :=
  (put_diff diff result) <| fr_fallback_required := true |> <| fr_produced_plan := false |> <| fr_publish_allowed := false |>
    <| fr_reservation_allowed := false |> <| fr_authoritative := false |> <| fr_mismatch := true |>
    <| fr_mismatch_reason := dr_first_mismatch diff |> <| fr_reject_reason := FpRuntimeDisabled |>
    <| fr_output_hash := ds_combined_hash (dr_generic diff) |> <| fr_intent := intent0 |> <| fr_decision := decision0 |>
    <| fr_approved := approved_intent0 |> <| fr_plan := order_plan0 |>.

(** [engine/decision_fastpath/core/EventLocalDecisionPipeline.cpp:756-759] process: after a mismatch in authoritative mode. *)
Definition keep_or_disable (fast_path : FastPathConfig) (state : FastPathRuntimeState) : FastPathRuntimeState :=
  if frs_mismatch_count state <? fpc_max_mismatches_before_disable fast_path then state <| frs_disabled := false |> else state.

(** [engine/decision_fastpath/core/EventLocalDecisionPipeline.cpp:743-796] process: the best candidate is compared with the generic
    decision [generic_result], the one of its specification. *)
Definition verify_best (fast_path : FastPathConfig) (state : FastPathRuntimeState) (best generic_result : FastPathResult)
    (generic : DecisionPathSnapshot) : FastPathRuntimeState * FastPathResult :=
  let diff := compare_decision_snapshots (snapshot_from_fast_result best) generic in
  let best := apply_generic_hashes generic (best <| fr_generic_comparison_performed := true |>) in
  if negb (dr_match diff) then
    match fpc_mode fast_path with
    | FmPaperAuthoritative => (keep_or_disable fast_path (count_mismatch diff state), suppressed diff best)
    | mode =>
        let best := (put_diff diff generic_result) <| fr_mismatch := true |> <| fr_mismatch_reason := dr_first_mismatch diff |> in
        let best := best <| fr_publish_allowed := bool_decide (mode = FmVerifiedPaper) && fr_produced_plan best |> in
        (state, (clear_non_authoritative_reservation best) <| fr_authoritative := false |>)
    end
  else
    match fpc_mode fast_path with
    | FmShadowCompare =>
        let best := (put_diff diff generic_result) <| fr_publish_allowed := false |> in
        (state, (clear_non_authoritative_reservation best) <| fr_authoritative := false |> <| fr_generic_verification_required := true |>)
    | _ => (state, best)
    end.

(** ** The pipeline *)

(** [engine/decision_fastpath/core/EventLocalDecisionPipeline.h:127-143] EventLocalDecisionPipeline. *)
Record EventLocalDecisionPipeline := mkEventPipeline {
  fl_registry : option FixedShapeKernelRegistry;
  fl_config : EventLocalDecisionPipelineConfig;
  fl_state : FastPathRuntimeState
}.

(** [engine/decision_fastpath/core/EventLocalDecisionPipeline.cpp:572-575] EventLocalDecisionPipeline. *)
Definition new_event_pipeline (registry : option FixedShapeKernelRegistry) (config : EventLocalDecisionPipelineConfig) :
    EventLocalDecisionPipeline := mkEventPipeline registry config runtime_state0.

(** [engine/decision_fastpath/core/EventLocalDecisionPipeline.cpp:820-822] reset_runtime_state. *)
Definition reset_runtime_state (p : EventLocalDecisionPipeline) : EventLocalDecisionPipeline := p <| fl_state := runtime_state0 |>.

(** [engine/decision_fastpath/core/EventLocalDecisionPipeline.cpp:652-685] process: the checks on a specification. *)
Definition spec_rejection (config : EventLocalDecisionPipelineConfig) (fast_path : FastPathConfig) (spec : FixedShapeKernelSpec) :
    option FastPathRejectReason :=
  if fpc_require_kernel_spec_hash_match fast_path && negb (ks_kernel_spec_hash spec =? hash_fixed_shape_kernel_spec spec)
  then Some FpKernelSpecHashMismatch
  else if fpc_require_artifact_hash_match fast_path &&
          ((edc_expected_artifact_hash config =? 0) || negb (ks_artifact_hash spec =? edc_expected_artifact_hash config))
  then Some FpArtifactHashMismatch
  else if fpc_require_artifact_hash_match fast_path &&
          ((edc_expected_constraint_hash config =? 0) || negb (ks_constraint_hash spec =? edc_expected_constraint_hash config))
  then Some FpArtifactHashMismatch
  else if (edc_max_supported_legs config <? ks_leg_count spec)%nat then Some FpTooManyLegs
  else None.

(** [engine/decision_fastpath/core/EventLocalDecisionPipeline.cpp:706-712] process: the candidate that is kept. *)
Definition better_result (candidate best : FastPathResult) : bool :=
  (oi_total_edge_tick (fr_intent best) <? oi_total_edge_tick (fr_intent candidate)) ||
  ((oi_total_edge_tick (fr_intent candidate) =? oi_total_edge_tick (fr_intent best)) &&
   (oi_bundle_id (fr_intent candidate) <? oi_bundle_id (fr_intent best))).

(** The views the kernel and the generic engine see. *)
Definition visible_views (input : EventLocalInput) : list MarketDepthView :=
  match ev_depth_views input with Some views => take (ev_depth_view_count input) views | None => [] end.

(** [engine/decision_fastpath/core/EventLocalDecisionPipeline.cpp:641-713] process: the loop over the affected specifications; [inl] is
    its early return. *)
Fixpoint best_candidate (config : EventLocalDecisionPipelineConfig) (fast_path : FastPathConfig) (input : EventLocalInput)
    (policy : RiskPolicySnapshot) (specs : list FixedShapeKernelSpec) (best : option FastPathResult) :
    FastPathResult + option FastPathResult :=
  match specs with
  | [] => inr best
  | spec :: rest =>
      match spec_rejection config fast_path spec with
      | Some reason => inl (fallback_result input reason (fpc_mode fast_path))
      | None =>
          let candidate := copy_kernel_result input (kernel_run spec (visible_views input) policy (ev_now_ns input)) fast_path in
          if fr_fallback_required candidate then inl candidate
          else
            best_candidate config fast_path input policy rest
              (match best with
               | None => Some candidate
               | Some b => if better_result candidate b then Some candidate else best
               end)
      end
  end.

(** [engine/decision_fastpath/core/EventLocalDecisionPipeline.cpp:580-613] process: the first reasons to fall back. *)
Definition process_rejection (p : EventLocalDecisionPipeline) (input : EventLocalInput) : option FastPathRejectReason :=
  let fast_path := effective_fast_path_config (fl_config p) in
  if frs_disabled (fl_state p) then Some FpRuntimeDisabled
  else
    match fl_registry p, ev_policy input with
    | Some _, Some policy =>
        if bool_decide (fpc_mode fast_path = FmDisabled) then Some FpRuntimeDisabled
        else if negb (fpc_enable_fixed_buy_kernel fast_path) || negb (rp_risk_enabled policy) || rp_kill_switch_enabled policy
        then Some FpPolicyIncompatible
        else None
    | _, _ => Some FpMissingPolicy
    end.

(** [engine/decision_fastpath/core/EventLocalDecisionPipeline.cpp:631-639] process: the policy must be the expected one. *)
Definition policy_rejected (config : EventLocalDecisionPipelineConfig) (fast_path : FastPathConfig) (policy : RiskPolicySnapshot) : bool :=
  fpc_require_policy_hash_match fast_path &&
  ((edc_expected_policy_hash config =? 0) || negb (rp_policy_hash policy =? edc_expected_policy_hash config)).

(** [engine/decision_fastpath/core/EventLocalDecisionPipeline.cpp:615-629] process: no bundle contains the asset. *)
Definition unaffected_result (input : EventLocalInput) (fast_path : FastPathConfig) : FastPathResult :=
  apply_fast_hashes (fast_path_result0 <| fr_mode := fpc_mode fast_path |>
    <| fr_output_hash := pipeline_output_hash input 0 false FpNone |> <| fr_generic_verification_required := false |>).

(** [engine/decision_fastpath/core/EventLocalDecisionPipeline.cpp:717-742] process: the generic result of the specification of the best
    candidate, and its snapshot. *)
Definition generic_of (input : EventLocalInput) (fast_path : FastPathConfig) (policy : RiskPolicySnapshot)
    (affected : list FixedShapeKernelSpec) (best : FastPathResult) : option (FastPathResult * DecisionPathSnapshot) :=
  match list_find (λ spec, ks_bundle_id spec = oi_bundle_id (fr_intent best)) affected with
  | None => Some (fast_path_result0, path_snapshot0)
  | Some (_, spec) =>
      generic_result ← generic_order_decision_result input spec (fr_intent best) (visible_views input) (without_skew policy) (fpc_mode fast_path);
      Some (generic_result, snapshot_from_fast_result generic_result)
  end.

(** [engine/decision_fastpath/core/EventLocalDecisionPipeline.cpp:577-813] EventLocalDecisionPipeline::process.  The end of the function
    without a candidate is never reached: the loop has at least one. *)
Definition process (p : EventLocalDecisionPipeline) (input : EventLocalInput) : option (EventLocalDecisionPipeline * FastPathResult) :=
  let config := fl_config p in
  let fast_path := effective_fast_path_config config in
  let mode := fpc_mode fast_path in
  match process_rejection p input, fl_registry p, ev_policy input with
  | Some reason, _, _ => Some (p, fallback_result input reason mode)
  | None, Some registry, Some policy =>
      let affected := specs_for_asset registry (ev_dirty_asset_index input) in
      if (length affected =? 0)%nat then Some (p, unaffected_result input fast_path)
      else if policy_rejected config fast_path policy then Some (p, fallback_result input FpPolicyHashMismatch mode)
      else
        match best_candidate config fast_path input policy affected None with
        | inl result => Some (p, result)
        | inr None => Some (p, apply_fast_hashes (apply_rollout_policy fast_path
            (fast_path_result0 <| fr_mode := mode |> <| fr_output_hash := pipeline_output_hash input 0 false FpNone |>)))
        | inr (Some best) =>
            if should_verify_generic best then
              '(generic_result, generic) ← generic_of input fast_path policy affected best;
              let '(state, result) := verify_best fast_path (fl_state p) best generic_result generic in
              Some (p <| fl_state := state |>, result)
            else Some (p, best)
        end
  | None, _, _ => Some (p, fallback_result input FpMissingPolicy mode)
  end.

(** Any number of events. *)
Fixpoint process_all (p : EventLocalDecisionPipeline) (inputs : list EventLocalInput) :
    option (EventLocalDecisionPipeline * list FastPathResult) :=
  match inputs with
  | [] => Some (p, [])
  | input :: rest =>
      '(p, result) ← process p input;
      '(p, results) ← process_all p rest;
      Some (p, result :: results)
  end.

(** ** What a plan rests on *)

#[local] Opaque compute_order_decision_hash nonzero_hash mix_u64 mix_byte foldl finalize kernel_run evaluate_decision
  build_plan compare_decision_snapshots.

(** The order of a leg. *)
Definition carries_out (leg : OrderDecisionLegLite) (o : ChildOrder) : Prop :=
  co_side o = OsBuy ∧ dl_side leg = Buy ∧ co_asset_index o = dl_asset_index leg ∧ co_market_index o = dl_market_index leg ∧
  co_quantity_lots o = dl_quantity_lots leg ∧ co_limit_price_tick o = dl_limit_price_tick leg ∧ 0 < co_quantity_lots o ∧
  0 < co_limit_price_tick o.

(** A plan with what allows it: the decision passes the checks of risk under the
    policy, the policy's risk pipeline approved it, the plan is valid and has one
    order per leg of the decision. *)
Record plan_authorised (input : EventLocalInput) (policy : RiskPolicySnapshot) (r : FastPathResult) : Prop := {
  pa_decision : decision_ok (fr_intent r) (fr_order_decision r) (ev_now_ns input) (without_skew policy);
  pa_approved : decision_approved (fr_decision r) = true;
  pa_orders : Forall2 carries_out (decision_legs (fr_order_decision r)) (plan_orders (fr_plan r));
  pa_plan : plan_valid (fr_plan r) 16 0 true;
  pa_terms : op_source_intent_id (fr_plan r) = od_source_intent_id (fr_order_decision r) ∧
    op_bundle_id (fr_plan r) = od_bundle_id (fr_order_decision r) ∧
    op_chosen_bundle_qty (fr_plan r) = od_chosen_bundle_qty (fr_order_decision r) ∧
    op_max_total_cost_tick (fr_plan r) = od_estimated_total_cost_tick (fr_order_decision r)
}.

#[local] Transparent evaluate_decision.
(** An approval of a decision by the engine. *)
Lemma evaluate_decision_approved e intent decision input publisher full policy e' r published :
  decision_policy e input = Some policy →
  evaluate_decision e intent decision input publisher full = (e', r, published) → decision_approved (pr_decision r) = true →
  decision_ok intent decision (ri_now_ns input) policy.
Proof.
  intros Hpol. unfold evaluate_decision. rewrite Hpol.
  destruct (decision_rejection intent decision input policy) as [[reason detail]|] eqn:Hrej.
  - unfold reject_decision. destruct (ri_policy input); intros [= <- <- <-]; discriminate.
  - intros _ _. by apply decision_rejection_None.
Qed.
#[local] Opaque evaluate_decision.

(** The orders of a built plan. *)
Lemma built_orders header intent skip legs :
  (∀ leg, leg ∈ legs → dl_side leg = Buy ∧ 0 < dl_quantity_lots leg ∧ 0 < dl_limit_price_tick leg) →
  Forall2 carries_out legs (imap (decision_order header intent skip) legs).
Proof.
  intros Hall. apply Forall2_same_length_lookup. split; [by rewrite length_imap|].
  intros i leg o Hi. rewrite list_lookup_imap, Hi. intros [= <-].
  destruct (Hall leg (list_elem_of_lookup_2 _ _ _ Hi)) as (? & ? & ?). by split_and!.
Qed.

(** What completing a result leaves alone, and what it finds. *)
Lemma complete_risk_and_plan_spec input policy r :
  let r' := complete_risk_and_plan input (without_skew policy) r in
  length (od_legs (fr_order_decision r)) = kMaxOrderDecisionLegs → fr_produced_plan r = false →
  fr_order_decision r' = fr_order_decision r ∧ fr_fallback_required r' = fr_fallback_required r ∧
  fr_publish_allowed r' = fr_publish_allowed r ∧ fr_reservation_allowed r' = fr_reservation_allowed r ∧ fr_mismatch r' = fr_mismatch r ∧
  fr_mode r' = fr_mode r ∧
  (fr_produced_plan r' = true → plan_authorised input policy r').
Proof.
  intros r' Hlen Hnone. subst r'. unfold complete_risk_and_plan.
  destruct (negb _); [split_and!; try done; congruence|].
  set (intent := materialize_execution_strings _ _). set (engine := new_engine _).
  destruct (evaluate_decision engine intent (fr_order_decision r) _ false false) as [[e' risk] published] eqn:He.
  set (approved := approved_of risk). cbv zeta.
  destruct (negb (decision_approved (pr_decision risk)) || _) eqn:Ha; [split_and!; try done; intros Hp; change (fr_produced_plan r = true) in Hp; congruence|].
  apply orb_false_iff in Ha as [Ha _]. apply negb_false_iff in Ha.
  destruct (build_plan _ _ _) as [error|plan] eqn:Hb; [split_and!; try done; intros Hp; change (fr_produced_plan r = true) in Hp; congruence|].
  split_and!; try done. intros _.
  assert (Hpol : decision_policy engine (pipeline_risk_input input (without_skew policy) intent) = Some (without_skew policy)) by reflexivity.
  pose proof (evaluate_decision_approved _ _ _ _ _ _ _ _ _ _ Hpol He Ha) as Hok.
  match type of Hb with build_plan ?envelope ?now ?config = _ =>
    change (fr_order_decision _) with (en_decision envelope) in Hlen; pose proof (build_plan_inv envelope now config plan Hlen Hb) as Hinv end.
  destruct Hinv as (_ & Hplan & Horders & Hall & Hvalid).
  constructor; [exact Hok|exact Ha| |by apply Hvalid|].
  - change (Forall2 carries_out (decision_legs (fr_order_decision r)) (plan_orders plan)). rewrite Horders. by apply built_orders.
  - change (op_source_intent_id plan = od_source_intent_id (fr_order_decision r) ∧ op_bundle_id plan = od_bundle_id (fr_order_decision r) ∧
      op_chosen_bundle_qty plan = od_chosen_bundle_qty (fr_order_decision r) ∧
      op_max_total_cost_tick plan = od_estimated_total_cost_tick (fr_order_decision r)).
    by rewrite Hplan.
Qed.

(** ** What leaves the pipeline *)

(** A result that claims no more than it has: a plan that was produced is
    authorised; only such a plan may be published, in the modes that publish;
    only the authoritative mode may reserve, for the reservation of the plan; and
    otherwise the approval holds no reservation. *)
Record output_ok (input : EventLocalInput) (mode : FastPathMode) (r : FastPathResult) : Prop := {
  oo_plan : fr_produced_plan r = true → fr_fallback_required r = false ∧
    ∃ policy, ev_policy input = Some policy ∧ plan_authorised input policy r;
  oo_publish : fr_publish_allowed r = true → fr_produced_plan r = true ∧ (mode = FmVerifiedPaper ∨ mode = FmPaperAuthoritative);
  oo_reserve : fr_reservation_allowed r = true → fr_publish_allowed r = true ∧ mode = FmPaperAuthoritative ∧ fr_mismatch r = false ∧
    ai_reservation_id_hash (fr_approved r) = op_reservation_id (fr_plan r) ∧ op_reservation_id (fr_plan r) ≠ 0;
  oo_unreserved : fr_reservation_allowed r = false → has_reservation (fr_approved r) = false
}.

(** Results without a plan or permissions claim nothing. *)
Lemma idle_output_ok input mode r :
  fr_produced_plan r = false → fr_publish_allowed r = false → fr_reservation_allowed r = false → has_reservation (fr_approved r) = false →
  output_ok input mode r.
Proof. intros H1 H2 H3 H4. by split; rewrite ?H1, ?H2, ?H3. Qed.

Lemma fallback_output_ok input reason mode : output_ok input mode (fallback_result input reason mode).
Proof. by apply idle_output_ok. Qed.

#[local] Transparent kernel_run.
Lemma kernel_run_slots spec views policy now_ns :
  length (od_legs (kx_order_decision (kernel_run spec views policy now_ns))) = kMaxOrderDecisionLegs.
Proof.
  unfold kernel_run, kernel_fallback. step_if; [done|]. step_if; [done|]. step_if; [done|].
  destruct (collect_legs _ _ _ _ _ _ _) as [|[[work q] version]]; [done|]. step_if; [done|].
  destruct (price_legs _ _ _ _) as [|p]; [done|].
  change (length (od_legs (if bool_decide (kx_risk_reject_reason (kernel_result spec policy now_ns work q version p) = RrNone)
    then kernel_decision (kx_intent (kernel_result spec policy now_ns work q version p)) p (rp_policy_hash policy)
    else order_decision_lite0)) = kMaxOrderDecisionLegs).
  case_bool_decide; [|done]. apply length_std_array.
Qed.
#[local] Opaque kernel_run.

(** What the decision on a candidate leaves for the rollout. *)
Lemma decide_kernel_result_spec input spec policy fast_path :
  let k := kernel_run spec (visible_views input) policy (ev_now_ns input) in
  let r := decide_kernel_result input k fast_path in
  ev_policy input = Some policy →
  fr_mismatch r = false ∧ fr_fallback_required r = kx_fallback_required k ∧
  (fr_produced_plan r = true → fr_fallback_required r = false ∧ plan_authorised input policy r).
Proof.
  intros k r Hpol. subst r. unfold decide_kernel_result. pose proof (kernel_run_slots spec (visible_views input) policy (ev_now_ns input)) as Hlen.
  fold k in Hlen. clearbody k. set (r := fast_path_result0 <| fr_mode := _ |> <| _ := _ |> <| _ := _ |> <| _ := _ |> <| _ := _ |>).
  assert (Hf : fr_fallback_required r = kx_fallback_required k) by reflexivity.
  destruct (kx_fallback_required k); [by split_and!|]. destruct (kx_produced_order_decision k); [|by destruct (kx_produced_intent k); split_and!].
  rewrite Hpol. destruct (complete_risk_and_plan_spec input policy r Hlen eq_refl) as (_ & Hfb & _ & _ & Hm & _ & Hp).
  rewrite Hm, Hfb. split_and!; try done. auto.
Qed.

(** Results that say the same about their plan. *)
Definition same_plan (r r' : FastPathResult) : Prop :=
  fr_intent r' = fr_intent r ∧ fr_order_decision r' = fr_order_decision r ∧ fr_decision r' = fr_decision r ∧ fr_plan r' = fr_plan r ∧
  fr_produced_plan r' = fr_produced_plan r ∧ fr_fallback_required r' = fr_fallback_required r.

Lemma plan_authorised_same input policy r r' : same_plan r r' → plan_authorised input policy r → plan_authorised input policy r'.
Proof. intros (Hi & Ho & Hd & Hp & _) [? ? ? ? ?]. by split; rewrite ?Hi, ?Ho, ?Hd, ?Hp. Qed.

Lemma rollout_spec fast_path r :
  let c := apply_rollout_policy fast_path r in
  same_plan r c ∧ fr_mismatch c = fr_mismatch r ∧
  (fr_publish_allowed c = true → fr_produced_plan r = true ∧ (fpc_mode fast_path = FmVerifiedPaper ∨ fpc_mode fast_path = FmPaperAuthoritative)) ∧
  (fr_reservation_allowed c = true → fr_publish_allowed c = true ∧ fpc_mode fast_path = FmPaperAuthoritative) ∧
  (fpc_mode fast_path = FmVerifiedPaper → should_verify_generic c = true).
Proof.
  intros c. subst c. unfold apply_rollout_policy. destruct (fr_fallback_required r) eqn:Hf; [by split_and!|].
  destruct (fpc_mode fast_path) eqn:Hm; try (by split_and!).
  - split_and!; try done. intros H. split; [exact H|by left].
  - split_and!; try done. intros H. split; [exact H|by right].
Qed.

Lemma settle_spec r :
  let c := settle_reservation r in
  same_plan r c ∧ fr_mismatch c = fr_mismatch r ∧ fr_publish_allowed c = fr_publish_allowed r ∧
  fr_reservation_allowed c = fr_reservation_allowed r ∧ should_verify_generic c = should_verify_generic r ∧
  (if fr_reservation_allowed r && negb (op_reservation_id (fr_plan r) =? 0)
   then ai_reservation_id_hash (fr_approved c) = op_reservation_id (fr_plan r) else has_reservation (fr_approved c) = false).
Proof. intros c. subst c. unfold settle_reservation. destruct (_ && _); by split_and!. Qed.

(** A candidate and what the rollout mode allows of it. *)
Lemma candidate_output_ok input spec policy fast_path :
  let c := copy_kernel_result input (kernel_run spec (visible_views input) policy (ev_now_ns input)) fast_path in
  ev_policy input = Some policy →
  fr_mismatch c = false ∧ output_ok input (fpc_mode fast_path) c ∧ (fpc_mode fast_path = FmVerifiedPaper → should_verify_generic c = true).
Proof.
  intros c Hpol. subst c. unfold copy_kernel_result.
  destruct (decide_kernel_result_spec input spec policy fast_path Hpol) as (Hm & _ & Hp).
  set (r := decide_kernel_result _ _ _) in *. clearbody r. set (r1 := r <| fr_output_hash := _ |>).
  destruct (rollout_spec fast_path r1) as (Hsame & Hmis & Hpub & Hres & Hver). set (r2 := apply_rollout_policy fast_path r1) in *.
  change (same_plan r r2) in Hsame. change (fr_mismatch r2 = fr_mismatch r) in Hmis. clearbody r2.
  change (fr_produced_plan r1) with (fr_produced_plan r) in Hpub. clear r1.
  destruct (settle_spec r2) as (Hs3 & Hm3 & Hpub3 & Hr3 & Hv3 & Ha3). set (r3 := settle_reservation r2) in *. clearbody r3.
  assert (Hs : same_plan r r3) by (destruct Hsame as (? & ? & ? & ? & ? & ?), Hs3 as (? & ? & ? & ? & ? & ?); split_and!; congruence).
  assert (Hauth : fr_produced_plan r = true → plan_authorised input policy (apply_fast_hashes r3)).
  { intros [_ H]%Hp. by apply (plan_authorised_same _ _ r). }
  destruct Hs as (_ & _ & _ & Hpl & Hpp & Hfb). destruct Hs3 as (_ & _ & _ & Hpl3 & _).
  split; [change (fr_mismatch r3 = false); congruence|]. split; [|intros H; change (should_verify_generic r3 = true); rewrite Hv3; auto].
  split.
  - change (fr_produced_plan (apply_fast_hashes r3)) with (fr_produced_plan r3).
    change (fr_fallback_required (apply_fast_hashes r3)) with (fr_fallback_required r3). rewrite Hpp, Hfb. intros H.
    split; [by destruct (Hp H)|]. exists policy. auto.
  - change (fr_publish_allowed r3 = true → fr_produced_plan r3 = true ∧ (fpc_mode fast_path = FmVerifiedPaper ∨ fpc_mode fast_path = FmPaperAuthoritative)).
    by rewrite Hpub3, Hpp.
  - change (fr_reservation_allowed r3 = true → fr_publish_allowed r3 = true ∧ fpc_mode fast_path = FmPaperAuthoritative ∧ fr_mismatch r3 = false ∧
      ai_reservation_id_hash (fr_approved r3) = op_reservation_id (fr_plan r3) ∧ op_reservation_id (fr_plan r3) ≠ 0).
    rewrite Hr3. intros H. destruct (Hres H) as [Hp2 Hmode]. destruct (Hpub Hp2) as [Hprod _].
    pose proof (pv_reservation _ _ _ _ (pa_plan _ _ _ (Hauth Hprod)) eq_refl) as Hne.
    change (op_reservation_id (fr_plan r3) ≠ 0) in Hne. rewrite Hpl3 in *. rewrite H, (proj2 (Z.eqb_neq _ _) Hne) in Ha3.
    rewrite Hpub3, Hm3, Hmis. by split_and!.
  - change (fr_reservation_allowed r3 = false → has_reservation (fr_approved r3) = false). rewrite Hr3. intros H. by rewrite H in Ha3.
Qed.

(** ** The generic result *)

Lemma optimize_slots input cache b : optimize input = Some (cache, inr b) → length (bs_legs b) = kMaxOrderDecisionLegs.
Proof.
  assert (Hres : ∀ n legs g count s, search_result n legs g count s = inr b → length (bs_legs b) = kMaxOrderDecisionLegs).
  { intros n legs g count s. unfold search_result. destruct (se_best s) as [[best state]|]; [|done]. destruct (existsb _ _); [done|].
    intros [= <-]. apply length_std_array. }
  unfold optimize. destruct (bi_intent input); [|done]. destruct (bi_bundle input); [|done]. destruct (bi_policy input); [|done].
  destruct (_ || _); [done|]. destruct (_ && _); [done|]. destruct (prepare_legs _ _ _ _); [done|].
  destruct (bi_cache input ≫= _) as [set|].
  - destruct (cs_q_values set); [done|]. intros [= _ H]. by eapply Hres.
  - destruct (evaluate_stream _ _ _ _ _) as [[s seen]|]; [|done]. cbn [mbind option_bind]. intros [= _ H]. by eapply Hres.
Qed.

Lemma limit_legs_length config bundle_legs legs out : limit_legs config bundle_legs legs = inr out → length out = Nat.min (length legs) (length bundle_legs).
Proof.
  revert bundle_legs out. induction legs as [|leg legs IH]; intros [|b bundle_legs] out; cbn [limit_legs]; try by intros [= <-].
  destruct (build_buy_limit _); [done|]. destruct (limit_legs config bundle_legs legs) as [|rest] eqn:Hr; [done|]. intros [= <-].
  cbn [length]. by rewrite (IH _ _ Hr).
Qed.

(** A new engine decides with all the slots of a decision. *)
Lemma new_engine_slots intent bundle views policy now e d :
  length (cb_legs bundle) = kMaxBundleLegs →
  engine_decide (new_decision_engine order_decision_config0) intent bundle views policy now = Some (e, inr d) →
  length (od_legs d) = kMaxOrderDecisionLegs.
Proof.
  intros Hslots. unfold engine_decide, generic_decide, with_memo. cbn [de_config new_decision_engine dc_impl_mode order_decision_config0 de_cache].
  destruct (input_rejection _ _ _); [done|]. change (Some decision_cache0 ≫= _) with (None : option OrderDecisionLite). cbv iota.
  destruct (optimize _) as [[cache [reason|size]]|] eqn:Ho; cbn [mbind option_bind]; [by destruct cache| |done].
  apply optimize_slots in Ho. unfold finish_decision. set (gd := generic_decision _ _ _ _ _ _).
  change (length (od_legs gd) = kMaxOrderDecisionLegs) in Ho. clearbody gd.
  destruct (limit_legs _ _ _) as [reason|legs] eqn:Hl; [by destruct cache|].
  apply limit_legs_length in Hl. unfold decision_legs in Hl. rewrite length_take in Hl.
  intros H. assert (Hd : d = seal_decision (gd <| od_legs := legs ++ drop (od_leg_count gd) (od_legs gd) |>)) 
    by (destruct cache; cbn [mbind option_bind] in H; injection H as _ H; exact (eq_sym H)).
  rewrite Hd. change (length (legs ++ drop (od_leg_count gd) (od_legs gd)) = kMaxOrderDecisionLegs).
  rewrite length_app, length_drop. unfold kMaxOrderDecisionLegs, kMaxBundleLegs in *. lia.
Qed.

(** The generic result asks for nothing; its plan is authorised. *)
Lemma generic_result_spec input spec intent views policy mode g :
  length (ks_legs spec) = kMaxFixedShapeKernelLegs →
  generic_order_decision_result input spec intent views (without_skew policy) mode = Some g →
  fr_mismatch g = false ∧ fr_fallback_required g = false ∧
  (fr_produced_plan g = true → plan_authorised input policy g).
Proof.
  intros Hslots. unfold generic_order_decision_result.
  destruct (engine_decide _ _ _ _ _ _) as [[e [[reason message]|d]]|] eqn:He; cbn [mbind option_bind]; [by intros [= <-]| |done].
  apply new_engine_slots in He; [|apply length_std_array].
  set (r := fast_path_result0 <| fr_mode := mode |> <| fr_intent := _ |>). set (r1 := r <| fr_order_decision := _ |>).
  assert (Hlen : length (od_legs (fr_order_decision r1)) = kMaxOrderDecisionLegs).
  { change (length (zip_with decision_leg_from_spec (take (od_leg_count d) (ks_legs spec)) (od_legs d) ++ drop (od_leg_count d) (od_legs d)) =
      kMaxOrderDecisionLegs).
    rewrite length_app, length_zip_with, length_take, length_drop. unfold kMaxOrderDecisionLegs, kMaxFixedShapeKernelLegs in *. lia. }
  destruct (complete_risk_and_plan_spec input policy r1 Hlen eq_refl) as (_ & Hfb & _ & _ & Hm & _ & Hp).
  set (r2 := complete_risk_and_plan _ _ _) in *. clearbody r2. intros [= <-].
  change (fr_mismatch r2 = false ∧ fr_fallback_required r2 = false ∧ (fr_produced_plan r2 = true → plan_authorised input policy
    (apply_fast_hashes (r2 <| fr_output_hash := nonzero_hash (if fr_produced_plan r2 then op_plan_id (fr_plan r2) else od_decision_hash (fr_order_decision r2)) |>)))).
  rewrite Hm, Hfb. split_and!; try done. intros H. apply (plan_authorised_same _ _ r2); [by split_and!|auto].
Qed.

(** ** The comparison *)

Lemma first_mismatch_None fields name agree : first_mismatch fields = None → (name, agree) ∈ fields → agree = true.
Proof.
  induction fields as [|[n a] fields IH]; cbn [first_mismatch]; [by intros _ ?%elem_of_nil|].
  destruct a; [|done]. intros H [[= -> ->]|?]%elem_of_cons; auto.
Qed.

#[local] Transparent compare_decision_snapshots.
Lemma compare_fields f g :
  dr_fast (compare_decision_snapshots f g) = f ∧ dr_generic (compare_decision_snapshots f g) = g.
Proof. unfold compare_decision_snapshots. by destruct (first_mismatch _). Qed.

(** Snapshots that match agree on whether there is a plan, and on which. *)
Lemma compare_match f g :
  dr_match (compare_decision_snapshots f g) = true →
  ds_produced_plan f = ds_produced_plan g ∧ (ds_plan_id f = 0 ∨ ds_plan_id g = 0 ∨ ds_plan_id f = ds_plan_id g).
Proof.
  unfold compare_decision_snapshots. destruct (first_mismatch _) as [|] eqn:H; [done|]. intros _. split.
  - apply Bool.eqb_prop. apply (first_mismatch_None _ "produced_plan" _ H). unfold compared_fields. do 5 right. left.
  - pose proof (first_mismatch_None _ "plan_id" ((ds_plan_id f =? 0) || (ds_plan_id g =? 0) || (ds_plan_id f =? ds_plan_id g)) H) as Hid.
    rewrite !orb_true_iff, !Z.eqb_eq in Hid. destruct Hid as [[?|?]|?]; auto. unfold compared_fields. do 18 right. left.
Qed.
#[local] Opaque compare_decision_snapshots.

#[local] Transparent finalize.
Lemma finalize_fields s :
  ds_produced_plan (finalize s) = ds_produced_plan s ∧ ds_plan_id (finalize s) = ds_plan_id s.
Proof. done. Qed.
#[local] Opaque finalize.

Lemma snapshot_fields r :
  ds_produced_plan (snapshot_from_fast_result r) = fr_produced_plan r ∧ ds_plan_id (snapshot_from_fast_result r) = op_plan_id (fr_plan r).
Proof. apply finalize_fields. Qed.

Lemma output_ok_same input mode r r' :
  same_plan r r' → fr_publish_allowed r' = fr_publish_allowed r → fr_reservation_allowed r' = fr_reservation_allowed r →
  fr_mismatch r' = fr_mismatch r → fr_approved r' = fr_approved r → output_ok input mode r → output_ok input mode r'.
Proof.
  intros Hs Hp Hr Hm Ha [H1 H2 H3 H4]. pose proof Hs as (_ & _ & _ & Hpl & Hpp & Hfb).
  split; rewrite ?Hp, ?Hr, ?Hm, ?Ha, ?Hpl, ?Hpp, ?Hfb; try done.
  intros (Hf & policy & ? & ?)%H1. split; [done|]. exists policy. split; [done|]. by apply (plan_authorised_same _ _ r).
Qed.

(** A generic result that is passed on: published when the mode publishes, and
    never reserved. *)
Lemma passed_on_output_ok input policy mode g r :
  ev_policy input = Some policy → same_plan g r → fr_fallback_required g = false → (fr_produced_plan g = true → plan_authorised input policy g) →
  fr_publish_allowed r = bool_decide (mode = FmVerifiedPaper) && fr_produced_plan g ∨ fr_publish_allowed r = false →
  fr_reservation_allowed r = false → has_reservation (fr_approved r) = false → output_ok input mode r.
Proof.
  intros Hpol Hs Hfb Hg Hpub Hr Ha. pose proof Hs as (_ & _ & _ & _ & Hpp & Hf). split; rewrite ?Hr; try done; rewrite Hpp, ?Hf.
  - intros H. split; [done|]. exists policy. split; [done|]. apply (plan_authorised_same _ _ g); auto.
  - destruct Hpub as [->| ->]; [|done]. intros [Hm ?]%andb_true_iff. apply bool_decide_eq_true in Hm. auto.
Qed.

(** What the comparison lets out. *)
Lemma verify_best_spec input policy fast_path state best g generic state' r :
  ev_policy input = Some policy → output_ok input (fpc_mode fast_path) best →
  fr_mismatch g = false → fr_fallback_required g = false → (fr_produced_plan g = true → plan_authorised input policy g) →
  verify_best fast_path state best g generic = (state', r) →
  output_ok input (fpc_mode fast_path) r ∧
  (fr_publish_allowed r = true → generic = snapshot_from_fast_result g → fr_produced_plan g = true ∧ op_plan_id (fr_plan r) = op_plan_id (fr_plan g)).
Proof.
  intros Hpol Hbest Hgm Hgf Hg. unfold verify_best. set (diff := compare_decision_snapshots _ _).
  set (best' := apply_generic_hashes _ _).
  assert (Hpass : ∀ publish rest, publish = bool_decide (fpc_mode fast_path = FmVerifiedPaper) && fr_produced_plan g ∨ publish = false →
    same_plan g rest → fr_publish_allowed rest = publish → fr_reservation_allowed rest = false → has_reservation (fr_approved rest) = false →
    output_ok input (fpc_mode fast_path) rest ∧
    (fr_publish_allowed rest = true → generic = snapshot_from_fast_result g → fr_produced_plan g = true ∧ op_plan_id (fr_plan rest) = op_plan_id (fr_plan g))).
  { intros publish rest Hpub Hs Hp Hres Ha. split.
    - apply (passed_on_output_ok _ policy _ g); try done. by rewrite Hp.
    - intros H _. pose proof Hs as (_ & _ & _ & -> & _ & _). split; [|done]. rewrite Hp in H. destruct Hpub as [-> | ->]; [|done].
      by apply andb_true_iff in H as [_ ?]. }
  assert (Hkeep : dr_match diff = true → output_ok input (fpc_mode fast_path) best' ∧
    (fr_publish_allowed best' = true → generic = snapshot_from_fast_result g → fr_produced_plan g = true ∧ op_plan_id (fr_plan best') = op_plan_id (fr_plan g))).
  { intros Hd. assert (Hok : output_ok input (fpc_mode fast_path) best')
      by (apply (output_ok_same input (fpc_mode fast_path) best best'); [by split_and!|done..]). split; [done|].
    intros H ->. subst diff. destruct (compare_match _ _ Hd) as [Hpp Hid]. destruct (snapshot_fields best) as [Eb Ib], (snapshot_fields g) as [Eg Ig].
    rewrite Eb, Eg in Hpp. rewrite Ib, Ig in Hid. destruct (oo_publish _ _ _ Hbest H) as [Hprod _]. rewrite Hprod in Hpp. symmetry in Hpp.
    split; [done|]. destruct (oo_plan _ _ _ Hbest Hprod) as (_ & pol & _ & Hb). pose proof (pv_plan_id _ _ _ _ (pa_plan _ _ _ Hb)).
    pose proof (pv_plan_id _ _ _ _ (pa_plan _ _ _ (Hg Hpp))). change (op_plan_id (fr_plan best) = op_plan_id (fr_plan g)).
    by destruct Hid as [?|[?|?]]. }
  clearbody diff. destruct (negb (dr_match diff)) eqn:Hd.
  - destruct (fpc_mode fast_path) eqn:Hm; intros [= <- <-].
    + eapply Hpass; [by right|by split_and!|done|done|done].
    + eapply Hpass; [by right|by split_and!|done|done|done].
    + eapply Hpass; [by left|by split_and!|done|done|done].
    + split; [by apply idle_output_ok|done].
  - apply negb_false_iff in Hd. destruct (fpc_mode fast_path) eqn:Hm; intros [= <- <-]; auto.
    eapply Hpass; [by right|by split_and!|done|done|done].
Qed.

(** ** The best candidate *)

Lemma materialized_terms decision intent :
  oi_bundle_id (materialize_execution_strings decision intent) = oi_bundle_id intent ∧
  oi_total_edge_tick (materialize_execution_strings decision intent) = oi_total_edge_tick intent.
Proof. unfold materialize_execution_strings. by destruct (String.eqb _ _). Qed.

Lemma complete_terms input policy r :
  oi_bundle_id (fr_intent (complete_risk_and_plan input policy r)) = oi_bundle_id (fr_intent r) ∧
  oi_total_edge_tick (fr_intent (complete_risk_and_plan input policy r)) = oi_total_edge_tick (fr_intent r).
Proof.
  unfold complete_risk_and_plan. destruct (negb _); [done|]. destruct (evaluate_decision _ _ _ _ _ _) as [[e risk] published].
  pose proof (materialized_terms (fr_order_decision r) (fr_intent r)) as Hm. set (intent := materialize_execution_strings _ _) in *. clearbody intent.
  destruct (_ || _); [exact Hm|]. by destruct (build_plan _ _ _).
Qed.

(** The candidate of a specification. *)
Definition candidate (fast_path : FastPathConfig) (input : EventLocalInput) (policy : RiskPolicySnapshot) (spec : FixedShapeKernelSpec) :
    FastPathResult :=
  copy_kernel_result input (kernel_run spec (visible_views input) policy (ev_now_ns input)) fast_path.

Lemma candidate_intent fast_path input policy spec :
  fr_intent (candidate fast_path input policy spec) =
    fr_intent (decide_kernel_result input (kernel_run spec (visible_views input) policy (ev_now_ns input)) fast_path) ∧
  fr_fallback_required (candidate fast_path input policy spec) =
    fr_fallback_required (decide_kernel_result input (kernel_run spec (visible_views input) policy (ev_now_ns input)) fast_path).
Proof.
  unfold candidate, copy_kernel_result. set (r := decide_kernel_result _ _ _). set (r1 := r <| fr_output_hash := _ |>).
  destruct (rollout_spec fast_path r1) as ((Hi & _ & _ & _ & _ & Hf) & _). set (r2 := apply_rollout_policy fast_path r1) in *. clearbody r2.
  destruct (settle_spec r2) as ((Hi3 & _ & _ & _ & _ & Hf3) & _). set (r3 := settle_reservation r2) in *. clearbody r3.
  split; [change (fr_intent r3 = fr_intent r1)|change (fr_fallback_required r3 = fr_fallback_required r1)]; congruence.
Qed.

(** A candidate is of its specification, with the edge the kernel found. *)
Lemma candidate_terms fast_path input policy spec :
  ev_policy input = Some policy → fr_fallback_required (candidate fast_path input policy spec) = false →
  let k := kernel_run spec (visible_views input) policy (ev_now_ns input) in
  kx_fallback_required k = false ∧ oi_bundle_id (fr_intent (candidate fast_path input policy spec)) = ks_bundle_id spec ∧
  oi_total_edge_tick (fr_intent (candidate fast_path input policy spec)) = kx_total_edge_tick k.
Proof.
  intros Hpol Hf k. destruct (candidate_intent fast_path input policy spec) as [-> Hcf]. rewrite Hcf in Hf. fold k in Hf |- *. clear Hcf.
  assert (Hk : kx_fallback_required k = false ∧ oi_bundle_id (fr_intent (decide_kernel_result input k fast_path)) = oi_bundle_id (kx_intent k) ∧
    oi_total_edge_tick (fr_intent (decide_kernel_result input k fast_path)) = oi_total_edge_tick (kx_intent k)).
  { unfold decide_kernel_result in *. clearbody k. destruct (kx_fallback_required k) eqn:E; [done|].
    split; [done|]. destruct (kx_produced_order_decision k); [|by destruct (kx_produced_intent k)]. rewrite Hpol. apply complete_terms. }
  destruct Hk as (Hk & -> & ->). split; [done|]. subst k. apply kernel_run_inv in Hk as (work & q & version & p & Hran).
  rewrite (kn_result _ _ _ _ _ _ _ _ Hran). by split.
Qed.

(** The order of the candidates. *)
Lemma better_result_trans a b c : better_result b a = true → better_result b c = false → better_result a c = false.
Proof. unfold better_result. rewrite orb_true_iff, !orb_false_iff, andb_true_iff, !andb_false_iff. rewrite !Z.ltb_lt, !Z.ltb_ge, !Z.eqb_eq, !Z.eqb_neq. lia. Qed.

Lemma better_result_irrefl a : better_result a a = false.
Proof. unfold better_result. by rewrite !Z.ltb_irrefl, andb_false_r. Qed.

Lemma better_result_weak_trans a b c : better_result a b = false → better_result b c = false → better_result a c = false.
Proof. unfold better_result. rewrite !orb_false_iff, !andb_false_iff. rewrite !Z.ltb_ge, !Z.eqb_neq. lia. Qed.

(** The loop returns early with a fallback, or keeps the best candidate of all. *)
Lemma best_candidate_spec config fast_path input policy specs best :
  match best_candidate config fast_path input policy specs best with
  | inl r => (∃ reason, r = fallback_result input reason (fpc_mode fast_path)) ∨
      (∃ spec, spec ∈ specs ∧ r = candidate fast_path input policy spec ∧ fr_fallback_required r = true)
  | inr None => best = None ∧ specs = []
  | inr (Some b) => (best = Some b ∨ ∃ spec, spec ∈ specs ∧ b = candidate fast_path input policy spec ∧ fr_fallback_required b = false) ∧
      (∀ spec, spec ∈ specs → spec_rejection config fast_path spec = None ∧
         fr_fallback_required (candidate fast_path input policy spec) = false ∧
         better_result (candidate fast_path input policy spec) b = false) ∧
      (∀ b0, best = Some b0 → better_result b0 b = false)
  end.
Proof.
  revert best. induction specs as [|spec specs IH]; intros best; cbn [best_candidate].
  { destruct best as [b|]; [|done]. split; [by left|]. split; [by intros ? ?%elem_of_nil|]. intros b0 [= ->]. apply better_result_irrefl. }
  destruct (spec_rejection config fast_path spec) as [reason|] eqn:Hrej; [left; eauto|]. fold (candidate fast_path input policy spec).
  set (c := candidate fast_path input policy spec). destruct (fr_fallback_required c) eqn:Hf; [right; exists spec; by split_and!; [left| |]|].
  set (next := match best with None => Some c | Some b => if better_result c b then Some c else best end). specialize (IH next).
  destruct (best_candidate config fast_path input policy specs next) as [r|[b|]].
  - destruct IH as [?|(s & ? & ? & ?)]; [by left|right]. exists s. by split_and!; [right| |].
  - destruct IH as (Hfrom & Hall & Hbest). split; [|split].
    + destruct Hfrom as [Hn|(s & ? & ? & ?)]; [|right; exists s; by split_and!; [right| |]].
      assert (best = Some b ∨ c = b) as [?|<-] by (subst next; destruct best as [b0|]; [destruct (better_result c b0)|]; naive_solver); [by left|].
      right. exists spec. by split_and!; [left| |].
    + intros s [->|Hs]%elem_of_cons; [|auto]. split_and!; [done|done|]. fold c.
      subst next. destruct best as [b0|]; [|by apply Hbest]. destruct (better_result c b0) eqn:Hcb; [by apply Hbest|].
      apply (better_result_weak_trans _ b0); [done|by apply Hbest].
    + intros b0 ->. subst next. cbv beta iota in Hbest. destruct (better_result c b0) eqn:Hcb; [|by apply Hbest].
      apply (better_result_trans b0 c b); [done|by apply Hbest].
  - destruct IH as [Hn _]. subst next. destruct best as [b0|]; [destruct (better_result c b0)|]; done.
Qed.

(** ** What the pipeline lets out *)

(** The mode a pipeline runs in. *)
Definition pipeline_mode (p : EventLocalDecisionPipeline) : FastPathMode := fpc_mode (effective_fast_path_config (fl_config p)).

(** Every specification has all its slots. *)
Definition full_specs (p : EventLocalDecisionPipeline) : Prop :=
  ∀ registry asset spec, fl_registry p = Some registry → spec ∈ specs_for_asset registry asset → length (ks_legs spec) = kMaxFixedShapeKernelLegs.

(** The plan of a result is the one the generic engine makes for one of the
    bundles of the asset. *)
Definition generic_agrees (p : EventLocalDecisionPipeline) (input : EventLocalInput) (r : FastPathResult) : Prop :=
  ∃ registry policy spec intent g, fl_registry p = Some registry ∧ ev_policy input = Some policy ∧
    spec ∈ specs_for_asset registry (ev_dirty_asset_index input) ∧
    generic_order_decision_result input spec intent (visible_views input) (without_skew policy) (pipeline_mode p) = Some g ∧
    fr_produced_plan g = true ∧ op_plan_id (fr_plan r) = op_plan_id (fr_plan g).

(** How a call changes the state. *)
Definition state_after (p : EventLocalDecisionPipeline) (r : FastPathResult) (state : FastPathRuntimeState) : Prop :=
  if bool_decide (pipeline_mode p = FmPaperAuthoritative) && fr_mismatch r
  then fr_fallback_required r = true ∧ frs_disabled (fl_state p) = false ∧
    frs_mismatch_count state = wrap_u64 (frs_mismatch_count (fl_state p) + 1) ∧
    frs_disabled state = negb (frs_mismatch_count state <? fpc_max_mismatches_before_disable (effective_fast_path_config (fl_config p)))
  else state = fl_state p.

Lemma verify_best_state fast_path state best g generic state' r :
  fr_mismatch best = false → fr_mismatch g = false → verify_best fast_path state best g generic = (state', r) →
  if bool_decide (fpc_mode fast_path = FmPaperAuthoritative) && fr_mismatch r
  then fr_fallback_required r = true ∧ frs_mismatch_count state' = wrap_u64 (frs_mismatch_count state + 1) ∧
    frs_disabled state' = negb (frs_mismatch_count state' <? fpc_max_mismatches_before_disable fast_path)
  else state' = state.
Proof.
  intros Hb Hg. unfold verify_best. set (diff := compare_decision_snapshots _ _). clearbody diff.
  destruct (negb (dr_match diff)); destruct (fpc_mode fast_path); intros [= <- <-]; try done.
  - cbn [bool_decide]. change (fr_mismatch (suppressed diff _)) with true. cbn [andb]. split; [done|]. unfold keep_or_disable.
    destruct (_ <? _) eqn:E; (split; [done|]); change (frs_mismatch_count _) with (frs_mismatch_count (count_mismatch diff state)) in *; by rewrite ?E.
  - change (fr_mismatch (apply_generic_hashes _ _)) with (fr_mismatch best). by rewrite Hb.
Qed.

(** The generic result the best candidate is compared with is that of its bundle. *)
Lemma generic_of_spec p input policy affected best g generic spec :
  (∀ spec, spec ∈ affected → length (ks_legs spec) = kMaxFixedShapeKernelLegs) →
  spec ∈ affected → oi_bundle_id (fr_intent best) = ks_bundle_id spec →
  generic_of input (effective_fast_path_config (fl_config p)) policy affected best = Some (g, generic) →
  fr_mismatch g = false ∧ fr_fallback_required g = false ∧ (fr_produced_plan g = true → plan_authorised input policy g) ∧
  generic = snapshot_from_fast_result g ∧
  ∃ spec, spec ∈ affected ∧ generic_order_decision_result input spec (fr_intent best) (visible_views input) (without_skew policy) (pipeline_mode p) = Some g.
Proof.
  intros Hfull Hin Hbundle. unfold generic_of. destruct (list_find _ affected) as [[i s]|] eqn:Hfind.
  - apply list_find_Some in Hfind as (Hi & _ & _). apply list_elem_of_lookup_2 in Hi.
    fold (pipeline_mode p). destruct (generic_order_decision_result _ _ _ _ _ _) as [g'|] eqn:Hg; cbn [mbind option_bind]; [|done].
    intros [= <- <-]. destruct (generic_result_spec _ _ _ _ _ _ _ (Hfull s Hi) Hg) as (? & ? & ?). split_and!; try done. by exists s.
  - apply list_find_None in Hfind. rewrite Forall_forall in Hfind. by destruct (Hfind spec Hin).
Qed.

Lemma best_candidate_terms config fast_path input policy specs b :
  ev_policy input = Some policy → best_candidate config fast_path input policy specs None = inr (Some b) →
  ∃ spec, spec ∈ specs ∧ b = candidate fast_path input policy spec ∧ oi_bundle_id (fr_intent b) = ks_bundle_id spec.
Proof.
  intros Hpol Hb. pose proof (best_candidate_spec config fast_path input policy specs None) as Hs. rewrite Hb in Hs.
  destruct Hs as ([?|(spec & Hin & -> & Hf)] & _); [done|]. exists spec. split_and!; [done|done|]. by apply candidate_terms.
Qed.

(** What holds of every call. *)
Record call_safe (p : EventLocalDecisionPipeline) (input : EventLocalInput) (p' : EventLocalDecisionPipeline) (r : FastPathResult) : Prop := {
  cs_output : output_ok input (pipeline_mode p) r;
  cs_verified : pipeline_mode p = FmVerifiedPaper → fr_publish_allowed r = true → generic_agrees p input r;
  cs_disabled : frs_disabled (fl_state p) = true ∨ pipeline_mode p = FmDisabled → fr_fallback_required r = true ∧ fr_mismatch r = false;
  cs_same : fl_registry p' = fl_registry p ∧ fl_config p' = fl_config p;
  cs_state : state_after p r (fl_state p')
}.

Lemma idle_call_safe p input r :
  fr_mismatch r = false → output_ok input (pipeline_mode p) r →
  (pipeline_mode p = FmVerifiedPaper → fr_publish_allowed r = true → generic_agrees p input r) →
  (frs_disabled (fl_state p) = true ∨ pipeline_mode p = FmDisabled → fr_fallback_required r = true) → call_safe p input p r.
Proof. intros Hm Hok Hver Hdis. split; try done; [auto|]. unfold state_after. by rewrite Hm, andb_false_r. Qed.

(** The call after the checks: the best candidate and its comparison. *)
Lemma verified_call_safe p input policy registry best g generic state r spec :
  full_specs p → fl_registry p = Some registry → ev_policy input = Some policy → frs_disabled (fl_state p) = false →
  pipeline_mode p ≠ FmDisabled → spec ∈ specs_for_asset registry (ev_dirty_asset_index input) →
  best = candidate (effective_fast_path_config (fl_config p)) input policy spec → oi_bundle_id (fr_intent best) = ks_bundle_id spec →
  generic_of input (effective_fast_path_config (fl_config p)) policy (specs_for_asset registry (ev_dirty_asset_index input)) best = Some (g, generic) →
  verify_best (effective_fast_path_config (fl_config p)) (fl_state p) best g generic = (state, r) →
  call_safe p input (p <| fl_state := state |>) r.
Proof.
  intros Hfull Hreg Hpol Hon Hmode Hin Hbest Hterms Hg Hv.
  destruct (candidate_output_ok input spec policy (effective_fast_path_config (fl_config p)) Hpol) as (Hm & Hok & _).
  fold (candidate (effective_fast_path_config (fl_config p)) input policy spec) in Hm, Hok. rewrite <- Hbest in Hm, Hok.
  destruct (generic_of_spec p input policy _ best g generic spec (λ s, Hfull registry _ s Hreg) Hin Hterms Hg) as (Hgm & Hgf & Hga & Hsnap & spec' & Hin' & Hrun).
  destruct (verify_best_spec _ _ _ _ _ _ _ _ _ Hpol Hok Hgm Hgf Hga Hv) as [Hout Hpub].
  pose proof (verify_best_state _ _ _ _ _ _ _ Hm Hgm Hv) as Hstate. split.
  - exact Hout.
  - intros _ Hp. destruct (Hpub Hp Hsnap) as [Hprod Hid]. by exists registry, policy, spec', (fr_intent best), g.
  - intros [?|?]; congruence.
  - by destruct p.
  - unfold state_after, pipeline_mode. destruct p as [reg config st]. cbn [fl_config fl_state] in *.
    destruct (bool_decide _ && fr_mismatch r); [|exact Hstate]. destruct Hstate as (? & ? & ?). by split_and!.
Qed.

Lemma process_safe p input p' r : full_specs p → process p input = Some (p', r) → call_safe p input p' r.
Proof.
  intros Hfull. unfold process. fold (pipeline_mode p). set (fast_path := effective_fast_path_config (fl_config p)).
  assert (Hidle : ∀ r0, call_safe p input p r0 → Some (p, r0) = Some (p', r) → call_safe p input p' r) by (by intros r0 Hr0 [= <- <-]).
  assert (Hfall : ∀ reason, Some (p, fallback_result input reason (pipeline_mode p)) = Some (p', r) → call_safe p input p' r).
  { intros reason. apply Hidle, idle_call_safe; [done|apply fallback_output_ok|done|done]. }
  destruct (process_rejection p input) as [reason|] eqn:Hrej; [by apply Hfall|].
  destruct (fl_registry p) as [registry|] eqn:Hreg; [|by apply Hfall].
  destruct (ev_policy input) as [policy|] eqn:Hpol; [|by apply Hfall].
  assert (frs_disabled (fl_state p) = false ∧ pipeline_mode p ≠ FmDisabled) as [Hon Hmode].
  { unfold process_rejection in Hrej. rewrite Hreg, Hpol in Hrej. destruct (frs_disabled (fl_state p)); [done|].
    change (fpc_mode (effective_fast_path_config (fl_config p))) with (pipeline_mode p) in Hrej. by case_bool_decide. }
  set (affected := specs_for_asset registry (ev_dirty_asset_index input)).
  destruct (length affected =? 0)%nat eqn:Hlen; [apply Hidle, idle_call_safe; [done|by apply idle_output_ok|done|intros [?|?]; congruence]|].
  destruct (policy_rejected _ _ _); [by apply Hfall|].
  pose proof (best_candidate_spec (fl_config p) fast_path input policy affected None) as Hbest.
  pose proof (λ b, best_candidate_terms (fl_config p) fast_path input policy affected b Hpol) as Hterms.
  destruct (best_candidate _ _ _ _ _ _) as [r0|[best|]].
  - destruct Hbest as [[reason ->]|(spec & Hin & -> & Hf)]; [by apply Hfall|].
    destruct (candidate_output_ok input spec policy fast_path Hpol) as (Hm & Hok & _). fold (candidate fast_path input policy spec) in Hm, Hok.
    apply Hidle, idle_call_safe; [done|done| |intros [?|?]; congruence].
    intros _ [Hp _]%(oo_publish _ _ _ Hok). by rewrite (proj1 (oo_plan _ _ _ Hok Hp)) in Hf.
  - destruct (Hterms best eq_refl) as (spec & Hin & Hcand & Hid). destruct (should_verify_generic best) eqn:Hver.
    + destruct (generic_of _ _ _ _ _) as [[g generic]|] eqn:Hg; cbn [mbind option_bind]; [|done].
      destruct (verify_best _ _ _ _ _) as [state r1] eqn:Hv. intros [= <- <-]. by eapply verified_call_safe.
    + destruct (candidate_output_ok input spec policy fast_path Hpol) as (Hm & Hok & Hv). fold (candidate fast_path input policy spec) in Hm, Hok, Hv.
      rewrite <- Hcand in Hm, Hok, Hv. apply Hidle, idle_call_safe; [done|done| |intros [?|?]; congruence].
      intros H%Hv. congruence.
  - destruct Hbest as [_ Hnil]. by rewrite Hnil in Hlen.
Qed.

(** What the pipeline lets out.  Whatever mode it runs in and whatever comes
    in, a plan of a result passed the checks of risk, was approved and is valid; only
    such a plan may be published, in the two modes that publish, and reserved only in
    the authoritative one; in the verified mode the generic engine has made the same
    plan; a pipeline that is disabled answers with a fallback; and the state changes
    only with a mismatch in the authoritative mode, which is answered with a
    fallback. *)
Theorem pipeline_output_safe p input p' r : full_specs p → process p input = Some (p', r) → call_safe p input p' r.
Proof. apply process_safe. Qed.

(** ** The pipeline returns *)

(** Views and a policy the generic engine can size from. *)
Definition sizable (input : EventLocalInput) : Prop :=
  Forall size_view_ok (visible_views input) ∧
  ∀ policy, ev_policy input = Some policy →
    Forall (λ view, exact_qty (view_asks view) * rp_min_depth_margin_bps policy <= i64_max) (visible_views input).

Lemma new_engine_decides intent bundle views policy now :
  length (cb_legs bundle) = kMaxBundleLegs → Forall size_view_ok views →
  Forall (λ view, exact_qty (view_asks view) * rp_min_depth_margin_bps policy <= i64_max) views →
  is_Some (engine_decide (new_decision_engine order_decision_config0) intent bundle views policy now).
Proof.
  intros Hslots Hviews Hmargin. unfold engine_decide, generic_decide, with_memo.
  cbn [de_config new_decision_engine dc_impl_mode order_decision_config0 de_cache].
  destruct (input_rejection _ _ _); [by eexists|]. change (Some decision_cache0 ≫= _) with (None : option OrderDecisionLite). cbv iota.
  match goal with |- context [optimize ?i] =>
    destruct (optimize_sound i intent bundle policy eq_refl eq_refl eq_refl Hslots Hviews Hmargin) as (cache & r & -> & _) end.
  cbn [mbind option_bind]. destruct cache, r as [|size]; cbn [mbind option_bind]; try by eexists.
  all: destruct (finish_decision _ _ _); by eexists.
Qed.

Lemma generic_returns input spec intent policy mode :
  ev_policy input = Some policy → sizable input →
  is_Some (generic_order_decision_result input spec intent (visible_views input) (without_skew policy) mode).
Proof.
  intros Hpol [Hviews Hmargin]. unfold generic_order_decision_result.
  destruct (new_engine_decides (generic_intent spec intent) (bundle_from_spec spec) (visible_views input) (without_skew policy) (ev_now_ns input)
    (length_std_array _ _ _) Hviews (Hmargin policy Hpol)) as [[e [[reason message]|d]] ->]; cbn [mbind option_bind]; by eexists.
Qed.

(** The pipeline answers every event whose views and policy the sizing can
    work with: the search for a size ends, whatever the specifications. *)
Theorem process_returns p input : sizable input → is_Some (process p input).
Proof.
  intros Hs. unfold process. destruct (process_rejection p input); [by eexists|].
  destruct (fl_registry p) as [registry|]; [|by eexists]. destruct (ev_policy input) as [policy|] eqn:Hpol; [|by eexists].
  step_if; [by eexists|]. step_if; [by eexists|]. destruct (best_candidate _ _ _ _ _ _) as [r|[best|]]; [by eexists| |by eexists].
  destruct (should_verify_generic best); [|by eexists]. unfold generic_of. destruct (list_find _ _) as [[i spec]|]; cbn [mbind option_bind].
  - destruct (generic_returns input spec (fr_intent best) policy (fpc_mode (effective_fast_path_config (fl_config p))) Hpol Hs) as [g ->].
    cbn [mbind option_bind]. destruct (verify_best _ _ _ _ _). by eexists.
  - destruct (verify_best _ _ _ _ _). by eexists.
Qed.

(** ** Mismatches *)

(** The limit of mismatches: none is as good as one. *)
Definition mismatch_limit (config : EventLocalDecisionPipelineConfig) : Z :=
  Z.max 1 (fpc_max_mismatches_before_disable (effective_fast_path_config config)).
Definition mismatches (rs : list FastPathResult) : Z := Z.of_nat (length (filter (λ r, fr_mismatch r = true) rs)).

(** The state after some calls with [n] mismatches. *)
Definition counted (p : EventLocalDecisionPipeline) (n : Z) : Prop :=
  if bool_decide (pipeline_mode p = FmPaperAuthoritative)
  then frs_mismatch_count (fl_state p) = n ∧ frs_disabled (fl_state p) = negb (n <? mismatch_limit (fl_config p)) ∧ 0 <= n <= mismatch_limit (fl_config p)
  else fl_state p = runtime_state0.

Lemma call_counted p input p' r n :
  mismatch_limit (fl_config p) <= u64_max → counted p n → call_safe p input p' r → counted p' (n + mismatches [r]).
Proof.
  intros Hlim Hc Hs. destruct (cs_same _ _ _ _ Hs) as [_ Hconfig]. pose proof (cs_state _ _ _ _ Hs) as Hst. unfold counted, state_after, pipeline_mode in *.
  rewrite Hconfig. unfold mismatches. rewrite filter_cons, filter_nil. destruct (bool_decide _) eqn:Hm; cbn [andb] in Hst; [|congruence].
  destruct Hc as (Hn & Hd & Hle). destruct (fr_mismatch r) eqn:Hmis.
  - rewrite decide_True by done. cbn [length]. destruct Hst as (_ & Hon & Hcount & Hdis). rewrite Hd in Hon. apply negb_false_iff, Z.ltb_lt in Hon.
    rewrite Hn, wrap_u64_id in Hcount by rlia. rewrite Hcount in *. split; [lia|]. split; [|lia].
    rewrite Hdis. unfold mismatch_limit in *. apply (f_equal negb), Bool.eq_iff_eq_true. rewrite !Z.ltb_lt. lia.
  - rewrite decide_False by done. cbn [length]. rewrite Hst, Z.add_0_r. split_and!; done || lia.
Qed.

Lemma run_counted inputs : ∀ p p' rs n,
  full_specs p → mismatch_limit (fl_config p) <= u64_max → counted p n → process_all p inputs = Some (p', rs) →
  full_specs p' ∧ fl_config p' = fl_config p ∧ counted p' (n + mismatches rs).
Proof.
  induction inputs as [|input inputs IH]; intros p p' rs n Hfull Hlim Hc; cbn [process_all].
  { intros [= <- <-]. change (mismatches []) with 0. by rewrite Z.add_0_r. }
  destruct (process p input) as [[p1 r]|] eqn:Hp; cbn [mbind option_bind]; [|done].
  destruct (process_all p1 inputs) as [[p2 rs']|] eqn:Hrun; cbn [mbind option_bind]; [|done]. intros [= <- <-].
  pose proof (process_safe p input p1 r Hfull Hp) as Hs. destruct (cs_same _ _ _ _ Hs) as [Hreg Hconfig].
  pose proof (call_counted _ _ _ _ _ Hlim Hc Hs) as Hc1. destruct (IH p1 p2 rs' (n + mismatches [r])) as (? & ? & Hc2).
  - intros registry asset spec. rewrite Hreg. apply Hfull.
  - by rewrite Hconfig.
  - done.
  - done.
  - split_and!; [done|congruence|]. replace (n + mismatches (r :: rs')) with (n + mismatches [r] + mismatches rs'); [done|].
    unfold mismatches. rewrite !filter_cons, filter_nil. case_decide; cbn [length]; lia.
Qed.

(** Mismatches switch the fast path off.  In the authoritative mode a pipeline
    that starts fresh counts its mismatches, is enabled as long as they are fewer
    than the limit, at least one, and is disabled from then on: every further call
    falls back without a plan.  In the other modes its state never changes. *)
Theorem mismatches_disable registry config inputs p rs :
  full_specs (new_event_pipeline registry config) → mismatch_limit config <= u64_max →
  process_all (new_event_pipeline registry config) inputs = Some (p, rs) →
  if bool_decide (fpc_mode (effective_fast_path_config config) = FmPaperAuthoritative)
  then frs_mismatch_count (fl_state p) = mismatches rs ∧ mismatches rs <= mismatch_limit config ∧
    (frs_disabled (fl_state p) = true ↔ mismatches rs = mismatch_limit config) ∧
    (mismatches rs = mismatch_limit config → ∀ input p' r, process p input = Some (p', r) → fr_fallback_required r = true ∧ fr_produced_plan r = false)
  else fl_state p = runtime_state0.
Proof.
  intros Hfull Hlim Hrun. assert (counted (new_event_pipeline registry config) 0) as H0.
  { unfold counted. destruct (bool_decide _); [|done]. split; [done|]. split; [|unfold mismatch_limit; lia].
    cbn. symmetry. apply negb_false_iff, Z.ltb_lt. unfold mismatch_limit. lia. }
  destruct (run_counted inputs _ p rs 0 Hfull Hlim H0 Hrun) as (Hfull' & Hconfig & Hc).
  unfold counted, pipeline_mode in Hc. rewrite Hconfig in Hc. cbn [fl_config new_event_pipeline] in Hc. rewrite Z.add_0_l in Hc.
  destruct (bool_decide _); [|done]. destruct Hc as (Hn & Hd & Hle).
  assert (frs_disabled (fl_state p) = true ↔ mismatches rs = mismatch_limit config) as Hiff by (rewrite Hd, negb_true_iff, Z.ltb_ge; lia).
  split; [done|]. split; [lia|]. split; [done|]. intros Hall input p' r Hp. apply Hiff in Hall.
  pose proof (process_safe p input p' r Hfull' Hp) as Hs. destruct (cs_disabled _ _ _ _ Hs (or_introl Hall)) as [Hf _]. split; [done|].
  destruct (fr_produced_plan r) eqn:Hprod; [|done]. destruct (oo_plan _ _ _ (cs_output _ _ _ _ Hs) Hprod). congruence.
Qed.

(** ** Registries *)

Lemma rebuilt_spec specs a spec : spec ∈ specs_for_asset (rebuild_indexes specs) a → spec ∈ specs.
Proof.
  unfold rebuild_indexes, specs_for_asset. pose proof (merge_sort_Permutation spec_before specs) as Hperm.
  set (sorted := merge_sort spec_before specs) in *. clearbody sorted.
  destruct (index_specs 0 sorted ∅ ∅) as [[index buckets]|] eqn:E; cbn [kr_asset_to_specs kernel_registry0].
  - apply index_specs_ok in E as (_ & _ & _ & _ & Hlist); [|intros ? bid; unfold bucket_of; rewrite lookup_empty; cbn; by intros ?%elem_of_nil].
    specialize (Hlist a). unfold bucket_of in Hlist. rewrite lookup_empty in Hlist. cbn [default from_option app] in Hlist.
    rewrite lookup_fmap. destruct (buckets !! a) as [bucket|]; cbn in *; [|by intros ?%elem_of_nil]. subst bucket.
    rewrite merge_sort_Permutation, list_elem_of_filter, Hperm. by intros [_ ?].
  - rewrite lookup_empty. cbn. by intros ?%elem_of_nil.
Qed.

Lemma spec_from_plan_slots plan market_indices : length (ks_legs (spec_from_plan plan market_indices).2) = kMaxFixedShapeKernelLegs.
Proof. unfold spec_from_plan. destruct (legs_from_plan _ _ _ _) as [m legs]. apply length_std_array. Qed.

Lemma specs_from_plans_slots plans market_indices spec :
  spec ∈ specs_from_plans plans market_indices → length (ks_legs spec) = kMaxFixedShapeKernelLegs.
Proof.
  revert market_indices. induction plans as [|plan plans IH]; intros market_indices; cbn [specs_from_plans]; [by intros ?%elem_of_nil|].
  pose proof (spec_from_plan_slots plan market_indices) as Hlen. destruct (spec_from_plan plan market_indices) as [m s].
  intros [->|Hs]%elem_of_cons; [exact Hlen|by apply (IH m)].
Qed.

(** A registry built from plans has full specifications. *)
Lemma built_registry_full plans config : full_specs (new_event_pipeline (Some (build_from_runtime_plans plans)) config).
Proof. intros registry a spec [= <-] Hs. by apply rebuilt_spec, specs_from_plans_slots in Hs. Qed.

(** ** Concrete events *)

Definition demo_registry : FixedShapeKernelRegistry := rebuild_indexes [fast_spec].
Definition demo_fast_config (mode : FastPathMode) (max_mismatches : Z) (rate : double) : EventLocalDecisionPipelineConfig :=
  pipeline_config0 <| edc_expected_artifact_hash := 5 |> <| edc_expected_constraint_hash := 4 |> <| edc_expected_policy_hash := 77 |>
    <| edc_fast_path := mkFastPathConfig mode true false max_mismatches rate true true true |>.
Definition demo_pipeline (mode : FastPathMode) (rate : double) : EventLocalDecisionPipeline :=
  new_event_pipeline (Some demo_registry) (demo_fast_config mode 1 rate).
Definition plan_policy : RiskPolicySnapshot := fast_policy <| rp_min_depth_margin_ratio := d1_0 |>.
Definition event_with (views : list MarketDepthView) : EventLocalInput :=
  mkEventLocalInput 500 1 (Some views) 2 (Some plan_policy) None 0 0.
Definition plan_event : EventLocalInput := event_with ((λ v, v <| dv_last_ws_recv_ns := 400 |>) <$> fast_views).

Lemma demo_registry_full mode rate : full_specs (demo_pipeline mode rate).
Proof.
  intros registry a spec [= <-] Hs. apply rebuilt_spec in Hs. apply list_elem_of_singleton in Hs as ->. by vm_compute.
Qed.

(** What a caller looks at. *)
Definition verdict (r : option (EventLocalDecisionPipeline * FastPathResult)) : option (bool * bool * bool * bool * bool) :=
  (λ pr, (fr_produced_plan pr.2, fr_publish_allowed pr.2, fr_reservation_allowed pr.2, fr_fallback_required pr.2, fr_mismatch pr.2)) <$> r.

(** The same plan in each mode: published and reserved, published, or kept. *)
Example modes_publish :
  verdict (process (demo_pipeline FmPaperAuthoritative (S754_zero false)) plan_event) = Some (true, true, true, false, false) ∧
  verdict (process (demo_pipeline FmVerifiedPaper (S754_zero false)) plan_event) = Some (true, true, false, false, false) ∧
  verdict (process (demo_pipeline FmShadowCompare (S754_zero false)) plan_event) = Some (true, false, false, false, false).
Proof. vm_compute. auto. Qed.

(** A view whose prefix sums are of an older book than its levels. *)
Definition stale_view (a : Z) (price old new : positive) : MarketDepthView :=
  let v := demo_view a (fast_book [fast_level price new]) 1 in
  v <| dv_last_ws_recv_ns := 400 |> <| dv_prefix := dv_prefix (demo_view a (fast_book [fast_level price old]) 1) |>.
Definition stale_event : EventLocalInput := event_with [stale_view 1 400000 10 12; stale_view 2 500000 5 6].

(** A mismatch in the authoritative mode, every output sampled: it is answered
    with a fallback, and with a limit of one so is every further event. *)
Definition mismatch_run : option (EventLocalDecisionPipeline * list FastPathResult) :=
  process_all (demo_pipeline FmPaperAuthoritative d1_0) [plan_event; stale_event; plan_event].
Example mismatch_disables :
  match mismatch_run with
  | Some (p, rs) =>
      frs_mismatch_count (fl_state p) = 1 ∧ frs_disabled (fl_state p) = true ∧
      (λ r, (fr_produced_plan r, fr_fallback_required r, fr_mismatch_reason r)) <$> rs =
        [(true, false, ""); (false, true, "decision_hash"); (false, true, "")]%string
  | None => False
  end.
Proof. vm_compute. auto. Qed.

Lemma pipeline_output_safe_witness :
  match process (demo_pipeline FmVerifiedPaper (S754_zero false)) plan_event with
  | Some (p, r) => fr_publish_allowed r = true ∧ fr_produced_plan r = true ∧ plan_authorised plan_event plan_policy r ∧
      generic_agrees (demo_pipeline FmVerifiedPaper (S754_zero false)) plan_event r
  | None => False
  end.
Proof.
  assert (verdict (process (demo_pipeline FmVerifiedPaper (S754_zero false)) plan_event) = Some (true, true, false, false, false)) as Hv
    by (vm_compute; reflexivity).
  pose proof (λ p r, pipeline_output_safe (demo_pipeline FmVerifiedPaper (S754_zero false)) plan_event p r (demo_registry_full _ _)) as Hs.
  destruct (process (demo_pipeline FmVerifiedPaper (S754_zero false)) plan_event) as [[p r]|]; [|discriminate Hv].
  injection Hv as Hprod Hpub _ _ _. destruct (Hs p r eq_refl) as [Hout Hver _ _ _]. split; [exact Hpub|]. split; [exact Hprod|].
  split; [|exact (Hver eq_refl Hpub)]. destruct (oo_plan _ _ _ Hout Hprod) as (_ & policy & [= <-] & Hauth). exact Hauth.
Defined.

Lemma mismatches_disable_witness :
  match mismatch_run with
  | Some (p, rs) => mismatches rs = 1 ∧ frs_disabled (fl_state p) = true
  | None => False
  end.
Proof.
  assert ((λ pr, mismatches pr.2) <$> mismatch_run = Some 1) as Hm by (vm_compute; reflexivity).
  assert (mismatch_limit (demo_fast_config FmPaperAuthoritative 1 d1_0) <= u64_max) as Hlim by (vm_compute; discriminate).
  pose proof (λ p rs, mismatches_disable (Some demo_registry) (demo_fast_config FmPaperAuthoritative 1 d1_0) [plan_event; stale_event; plan_event] p rs
    (demo_registry_full _ _) Hlim) as Hs. unfold mismatch_run, demo_pipeline in *.
  destruct (process_all _ _) as [[p rs]|]; [|discriminate Hm]. injection Hm as Hm. cbn [snd] in Hm.
  destruct (Hs p rs eq_refl) as (_ & _ & Hdis & _). split; [exact Hm|]. apply Hdis. rewrite Hm. vm_compute. reflexivity.
Defined.

Lemma process_returns_witness : sizable plan_event ∧ is_Some (process (demo_pipeline FmVerifiedPaper (S754_zero false)) plan_event).
Proof.
  assert (Hviews : forallb (λ view, (dv_ask_count view <=? kMaxSnapshotDepth)%nat && (exact_qty (view_asks view) <? i64_max)) (visible_views plan_event) = true)
    by (vm_compute; reflexivity).
  assert (Hs : sizable plan_event).
  { split.
    - apply Forall_forall. intros view Hin. rewrite forallb_true_elem in Hviews. specialize (Hviews view Hin). cbn beta in Hviews.
      breflect. by split.
    - intros policy [= <-]. apply Forall_forall. intros view _. change (rp_min_depth_margin_bps plan_policy) with 0. rewrite Z.mul_0_r. vm_compute. discriminate. }
  split; [exact Hs|]. exact (process_returns (demo_pipeline FmVerifiedPaper (S754_zero false)) plan_event Hs).
Defined.

(** Candidates are compared by their edge alone: a bundle with a larger edge that
    its own limits reject hides the plan of another bundle. *)
Definition greedy_spec : FixedShapeKernelSpec :=
  let spec := fast_spec <| ks_bundle_id := 3 |> <| ks_guaranteed_payout_tick := 2000000 |> <| ks_min_unit_edge_tick := 1000000000 |> in
  spec <| ks_kernel_spec_hash := hash_fixed_shape_kernel_spec spec |>.
Example rejected_hides_plan :
  let run specs := process (new_event_pipeline (Some (rebuild_indexes specs)) (demo_fast_config FmPaperAuthoritative 1 (S754_zero false))) plan_event in
  verdict (run [fast_spec]) = Some (true, true, true, false, false) ∧
  verdict (run [fast_spec; greedy_spec]) = Some (false, false, false, false, false).
Proof. vm_compute. auto. Qed.

(** The reservation of a plan is made in an engine of its own, so every plan names
    the first reservation of an empty book. *)
Example reservations_all_first :
  match process (demo_pipeline FmPaperAuthoritative (S754_zero false)) plan_event with
  | Some (p, r) =>
      op_reservation_id (fr_plan r) = 1 ∧
      match process p (plan_event <| ev_now_ns := 600 |>) with
      | Some (_, r') => fr_reservation_allowed r' = true ∧ op_reservation_id (fr_plan r') = 1
      | None => False
      end
  | None => False
  end.
Proof. vm_compute. auto. Qed.
